(* ===== verification/_CoqProject ===== *)
-Q . S2P
Prelude.v
Chattr.v
NumText.v
Match.v
MaskOrder.v
MaskComp.v
IrcdString.v
Numnicks.v
ByteQueue.v
DBuf.v
MsgQ.v
NameTable.v
Hash.v
IPcheck.v
Watch.v
Channel.v
MsgTab.v
MsgTree.v
Parse.v
Packet.v
Md5.v
Cloak.v
Jupe.v
Bans.v
BanModes.v
BanCommand.v
ModeBuf.v
ModeParse.v
Join.v
Gline.v
GlineRun.v
Class.v
Conf.v
ConfLink.v
Rehash.v
ConfRun.v
Whowas.v
Events.v
CRule.v
