(* ===== verification/Prelude.v ===== *)
(** * nefarious: a verification of the server's core data structures

    nefarious is an IRC server in C.  This development models the parts of
    src/ircd that carry the server's own logic: what it does with the bytes and
    lines it receives (buffers, framing, the command table, the parser), the
    structures it keeps (hash tables, numeric nicks, channel memberships, watch
    lists, the nickname history, the registry of connections per address, server
    jupes, bans, timers), the MODE command of channels from its parser to the
    lines that are sent, the lines and classes of the configuration and who is
    attached to them, and the pure functions in between (character tables,
    strings, masks, MD5 and cloaked hosts, connection rules).  Every definition
    is executable and follows the function it is named after; the theorems say
    what the function computes on every branch.

    ** Files, in the order they are compiled

    - [Prelude] (this file): C characters and strings, machine integers, bit
      operators, the tactics [bprop], [bcase], [mlia] and [by_decide], and
      lemmas on reading strings.
    - [Chattr] (table_gen.c, ircd_chattr.h): the generator of the attribute and
      case tables is executed; [ToLower], [IsAlpha] and the like read the
      generated tables.
    - [NumText] (ircd_snprintf.c, support.c): numbers as texts, snprintf() and
      atoi(), intervals of time.
    - [Match] (match.c): [ircd_match] (match()), [mmatch] and [collapse], over
      [glob], the inductive language of a mask without backslashes.
    - [MaskOrder] (match.c): the preorder of masks [order] that [mmatch] decides.
    - [MaskComp] (match.c): matchcomp() and matchexec(), compiled masks in the
      buffer they are compiled into.
    - [IrcdString] (ircd_string.c): comparison, copying, strtoken and the lists
      cut with it, duplicate removal, dotted quads and the cleaning of text.
    - [Numnicks] (numnicks.c): base64 numerics, the table of servers and the
      client arrays of [nn_state].
    - [ByteQueue]: the interface of a queue of bytes, a type class with its laws,
      which the framing of input is proved against and [DBuf] implements.
    - [DBuf] (dbuf.c): byte buffers; the contents of a [DBuf] are a queue of
      bytes ([contents]).
    - [MsgQ] (msgq.c): reference counted messages and the send queue with two
      priorities; [pending] is what a queue has left to send.
    - [NameTable]: what the hash tables of names promise to their users.
    - [Hash] (hash.c): the hash function, the client, channel and watch tables
      as one generic [table] with its laws, and the nick jupes.
    - [IPcheck] (IPcheck.c): the registry of addresses with its counters, the
      throttle and the expiry of entries.
    - [Watch] (watch.c, m_watch.c): the lists of watchers, both ways linked, and
      the WATCH command.
    - [Channel] (channel.c): memberships as the two lists every record is on,
      invitations, zombies, the making and the end of channels.
    - [MsgTab], [MsgTree], [Parse] (parse.c, msg.h): the table of commands, the
      trie made of it, and parse_client() and parse_server() on the buffer they
      cut up in place.
    - [Packet] (packet.c, read_packet() of s_bsd.c): lines out of packets, for
      servers and for clients, over [ByteQueue].
    - [Md5] and [Cloak] (md5.c, cloak.c): the digest as it is streamed, against
      the definition of RFC 1321, and the host names made of it.
    - [Jupe] (jupe.c, m_jupe.c): the list of juped servers, the JUPE command of
      operators and the messages between servers.
    - [Bans] (channel.c, s_misc.c): the masks of bans, is_banned() and
      is_excepted().
    - [BanModes], [BanCommand] (channel.c): the two halves of a change of bans or
      exceptions, mode_parse_ban() and mode_process_bans() with their twins as
      one definition over a [kind]; a whole command of them.
    - [ModeBuf] (channel.c): the buffer of mode changes, modebuf_mode() and the
      others and modebuf_flush_int(); an [item] is a slot in use, [read_line]
      what a line says.
    - [ModeParse] (channel.c): mode_parse() with all it calls, over [BanModes];
      the calls of the mode buffer are kept as a list of [call]s.
    - [Join] (channel.c): can_join() with its rings of keys, who is heard on a
      channel, and the colours in a text.
    - [Gline] (gline.c, m_gline.c): the two lists of network bans and all their
      operations and commands; [bans] says when a ban concerns a client.
    - [GlineRun]: what a server that is linked makes of a burst of them.
    - [Class] (class.c): the list of connection classes and their counters.
    - [Conf] (s_conf.c, client.c): the lines of the configuration that select and
      admit connections, the connections attached to them, the searches, and
      the invariant [conf_inv] about all three kinds of objects.
    - [ConfLink] (s_bsd.c, s_misc.c): what becomes of the lines and classes when
      a connection is made, completed, closed or ended: connect_server(),
      completed_connection(), close_connection() and exit_client(); that the
      searches and conf_check_server() keep [conf_inv].
    - [Rehash] (s_conf.c, ircd_parser.y, ircd_features.c): the blocks of a
      configuration file and what rehash() makes of them, up to the connections
      it ends; [describe] is the configuration a file means.
    - [ConfRun] (ircd.c): try_connections(), and the process as a step relation
      over the operations of [Class], [Conf], [ConfLink] and [Rehash].
    - [Whowas] (whowas.c): the nickname history; [rep] relates the pointers to
      one list of records, newest first.
    - [Events] (ircd_events.c): generators, events, timers, signals, sockets.
    - [CRule] (crule.c): scanner, parser and evaluator of connection rules; the
      abstract syntax is [rule], its meaning [holds].

    The components build on each other as the C files do: [Match] and
    [IrcdString] read the tables of [Chattr]; [Hash], [Whowas] and [CRule] find
    names with [ircd_strcmp]; [Numnicks] uses the string functions, [CRule]
    matches server names with [ircd_match] and shortens masks with [collapse];
    [Watch] stands on the tables of [Hash] through [NameTable], [Packet] on any
    [ByteQueue]; [Parse] finds commands in the trie of [MsgTree], which is built
    from [MsgTab]; [Cloak] hashes with [Md5]; [Bans] matches with [Match] and
    [BanModes] compares masks with [mmatch], whose meaning is in [MaskOrder];
    [ModeParse] uses [BanModes] for bans and calls [ModeBuf]; [Conf] matches
    names and hosts with [Match] and counts its links in the classes of [Class].

    ** How the code is modelled

    - A char is its unsigned code in [Z], a string the list of the codes before
      its terminator ([cstring]).  Unsigned integers wrap around explicitly
      with [u8], [u16], [u32]; time_t values do not reach their limits and are
      plain integers.
    - State is passed explicitly in a record per component; a heap of
      structures is a [gmap] by address where sharing matters ([MsgQ],
      [Whowas], [Events]).  A doubly linked list that is only reached from its
      head, and unlinked through a pointer to the previous pointer, is the
      sequence of its elements; lists whose ends are kept by hand (the history
      list of [Whowas]) keep their pointers.
    - A read or write outside an array, through a null or dangling pointer, or
      an assertion that fails, gives [None] (or a [Fault] in [CRule]).  So a
      theorem that a function returns also says that it accesses memory safely.
    - Loops that are not structural have fuel.  It is enough by a theorem in
      each case: a bound of the order of the product of the lengths for masks
      ([match_fuel]), the
      length of the text for the scanners and the rule parser, the number of
      arguments for mode_parse() ([parse_args_fuel]), one pass per slot for
      modebuf_flush_int() ([modebuf_flush_ends]), the length of
      the input for the buffers, the number of slots for the probes of numerics
      and nick jupes, the number of records for whowas_realloc(), the length of
      the timer queue for timer_run().
    - Code that is called through a pointer (callbacks and engines of [Events],
      the matcher and the exit of clients in [Numnicks], flush_connections() in
      [DBuf], the handlers of commands and the look-ups of clients in [Parse],
      the parser in [Packet], find_chasing() and findNUser() in [ModeParse],
      find_eline(), count_users() and the searches for servers in [Gline],
      find_kill() in [Rehash], the resolver and the system's connect() in
      [ConfLink], inet_addr() and the cloak of hosts in [Bans]),
      configuration values, the clock and the initial random table
      of [Hash] are parameters.

    ** What is proved

    - Functional correctness against a specification: masks decide their
      language, mmatch() the order of masks, is_banned() whether a ban applies,
      can_join() and client_can_send_to_channel() who may enter and speak; the
      hash tables find what was added, regardless of case; rules evaluate to the propositional meaning over the connected servers; timers
      run in the order of their expiry; the registry counts connections; the
      history is the list of the last records and chases the newest nick.
    - Refinement and equivalence: buffers are queues of bytes, send queues lists
      of messages, the history a list that is cut at its length; the parser that
      cuts its buffer up in place computes what a parser of texts does, the trie
      finds what a search of the table would, framing does not depend on how
      the bytes were split into packets, a compiled mask matches what the mask
      does, what a MODE command sets is what it announces, an added ban covers
      the ones it removes, MD5 is the one of RFC 1321 however the
      input is cut into pieces.
    - Round trips: numerics, dotted quads, printed rules, printed messages; the
      lines of a mode buffer read back as the changes that were put into it.
    - Termination: leaving all channels, reading a packet, flushing a mode
      buffer.
    - Agreement: servers that have heard the same jupe messages have the same
      jupes; after a burst of G-lines the receiver bans whom the sender bans,
      and setting a G-line bans neither more nor fewer than it says.
    - Invariants, bounds and safety: numeric lookups stay inside their arrays, the timer
      queue is sorted and duplicate free under every operation and any
      respectful callback, a socket is not destroyed under its callback, no
      step of the process follows a pointer to a configuration line or a class
      that was freed (conf_check_server() after a rehash apart, which does), a
      message buffer is freed exactly with its last reference, a
      parsed rule has known functions with the right number of arguments, the
      two lists of memberships and of watchers stay consistent, a server only
      speaks for clients behind it, jupes and modes are only changed by those
      who may, excluding modes exclude each other.
    - Errors as they are: theorems named for faults give the inputs on which
      the code reads or writes out of bounds, follows a null, unassigned or
      dangling pointer, or does not end.

    ** What is not modelled

    Of match.c the functions for addresses and mmexec()/matchdecomp(), which
    nothing calls; of ircd_string.c textban_replace() and the regular
    expressions; of channel.c the texts of modes (channel_modes(),
    modebuf_extract()) and bursts, the join buffers; of s_conf.c the lines that
    do not point to a class (quarantines, filters, exemptions, spoofs and the
    like) and find_conf_cidr(), of the parser of the configuration the other
    blocks, and of the features all but the four that the built in class is made
    of; shuns and zlines, exemptions from bans,
    users and servers and most command handlers, the resolver and
    everything that is a system call: these are formats of replies, tables of
    settings, or depend on most of the state of a running server.

    ** This file *)
From stdpp Require Export base tactics numbers list option strings gmap.
From Stdlib Require Export ZArith Lia.

Declare Scope ircd_scope.
Delimit Scope ircd_scope with ircd.
Global Open Scope Z_scope.

(** ** C characters and strings

    A [char] is kept as its unsigned code, a [Z] in [0, 256); a NUL terminated
    string is the list of the codes before its terminator.  Reading the
    character a pointer stands on is [hd0]: the head of the rest of the string,
    or 0, the terminator. *)
Definition hd0 (s : list Z) : Z := match s with [] => 0 | c :: _ => c end.

(** [s[i]] for an index at or before the terminator. *)
Definition ch (s : list Z) (i : nat) : Z := nth i s 0.

Definition ascii_code (a : Ascii.ascii) : Z := Z.of_N (Ascii.N_of_ascii a).

Fixpoint lit (s : String.string) : list Z :=
  match s with
  | String.EmptyString => []
  | String.String a r => ascii_code a :: lit r
  end.

Definition is_char (c : Z) : Prop := 0 < c < 256.

#[export] Instance is_char_dec c : Decision (is_char c).
Proof. unfold is_char. apply _. Defined.

(** A well formed C string holds non-zero bytes only. *)
Definition cstring (s : list Z) : Prop := Forall is_char s.

#[export] Instance cstring_dec s : Decision (cstring s).
Proof. unfold cstring. apply _. Defined.

(** [strchr(s, c)] as the text before the first [c] and the text after it. *)
Fixpoint split_at (c : Z) (s : list Z) : option (list Z * list Z) :=
  match s with
  | [] => None
  | x :: r =>
      if x =? c then Some ([], r)
      else match split_at c r with
           | Some (a, b) => Some (x :: a, b)
           | None => None
           end
  end.

(** The text before and after the last [c], strrchr(). *)
Fixpoint last_split (c : Z) (s : list Z) : option (list Z * list Z) :=
  match s with
  | [] => None
  | x :: r =>
      match last_split c r with
      | Some (a, b) => Some (x :: a, b)
      | None => if x =? c then Some ([], r) else None
      end
  end.

(** A linked list without the first occurrence of an element, which the link
    loops unlink. *)
Fixpoint unlink_first {A} `{EqDecision A} (x : A) (l : list A) : option (list A) :=
  match l with
  | [] => None
  | y :: r => if decide (y = x) then Some r else r' ← unlink_first x r; Some (y :: r')
  end.

(** ** Machine integers *)
Definition u8 (z : Z) : Z := z mod 2 ^ 8.
Definition u16 (z : Z) : Z := z mod 2 ^ 16.
Definition u32 (z : Z) : Z := z mod 2 ^ 32.
Definition u64 (z : Z) : Z := z mod 2 ^ 64.

(** The value of an unsigned char code read as a signed char. *)
Definition schar (c : Z) : Z := if c <? 128 then c else c - 256.

Definition bool_int (b : bool) : Z := if b then 1 else 0.

(** A bit test [x & m] used as a condition. *)
Definition has_bits (x m : Z) : bool := negb (Z.land x m =? 0).

(** C's bit operators. *)
Infix ".&" := Z.land (at level 40, left associativity) : ircd_scope.
Infix ".|" := Z.lor (at level 50, left associativity) : ircd_scope.
Infix ".^" := Z.lxor (at level 50, left associativity) : ircd_scope.
Infix "<<" := Z.shiftl (at level 38, left associativity) : ircd_scope.
Infix ">>" := Z.shiftr (at level 38, left associativity) : ircd_scope.

(** ** Tactics *)

(** Turns the boolean tests in the context and the goal into arithmetic facts. *)
Ltac bprop :=
  repeat match goal with
  | H : (_ =? _) = true |- _ => apply Z.eqb_eq in H
  | H : (_ =? _) = false |- _ => apply Z.eqb_neq in H
  | H : (_ <? _) = true |- _ => apply Z.ltb_lt in H
  | H : (_ <? _) = false |- _ => apply Z.ltb_ge in H
  | H : (_ <=? _) = true |- _ => apply Z.leb_le in H
  | H : (_ <=? _) = false |- _ => apply Z.leb_gt in H
  | H : (_ && _)%bool = true |- _ => apply andb_true_iff in H; destruct H
  | H : (_ || _)%bool = false |- _ => apply orb_false_iff in H; destruct H
  | H : negb _ = true |- _ => apply negb_true_iff in H
  | H : negb _ = false |- _ => apply negb_false_iff in H
  end.

(** Case analysis on every boolean test of the goal. *)
Ltac bcase :=
  repeat match goal with
  | |- context [if ?b then _ else _] =>
      lazymatch b with
      | context [if _ then _ else _] => fail
      | _ => let E := fresh "E" in destruct b eqn:E
      end
  end.

(** [lia] with quotients and remainders. *)
Ltac mlia := Z.div_mod_to_equations; lia.

(** Proves a decidable closed statement by evaluating its decision. *)
Ltac by_decide := apply (bool_decide_unpack _); vm_compute; exact I.

(** ** Generic lemmas *)
Lemma hd0_drop (s : list Z) (i : nat) : hd0 (drop i s) = ch s i.
Proof. revert i; induction s as [|x s IH]; intros [|i]; simpl; auto. Qed.

Lemma ch_ge (s : list Z) (i : nat) : (length s <= i)%nat -> ch s i = 0.
Proof. intros. unfold ch. apply nth_overflow. lia. Qed.

Lemma ch_lookup (s : list Z) (i : nat) c : s !! i = Some c -> ch s i = c.
Proof. intros H. unfold ch. rewrite nth_lookup, H. reflexivity. Qed.

Lemma cstring_ch (s : list Z) i : cstring s -> (i < length s)%nat -> is_char (ch s i).
Proof.
  intros Hs Hi. destruct (lookup_lt_is_Some_2 s i Hi) as [x Hx].
  rewrite (ch_lookup _ _ _ Hx). unfold cstring in Hs. rewrite Forall_lookup in Hs. eauto.
Qed.

Lemma ch_0_iff (s : list Z) i : cstring s -> ch s i = 0 <-> (length s <= i)%nat.
Proof.
  intros Hs. split; [|apply ch_ge].
  intros E. destruct (decide (length s <= i)%nat) as [|n]; [done|].
  pose proof (cstring_ch s i Hs ltac:(lia)) as [? ?]. lia.
Qed.

Lemma drop_ch (s : list Z) i : (i < length s)%nat -> drop i s = ch s i :: drop (S i) s.
Proof.
  intros Hi. destruct (lookup_lt_is_Some_2 s i Hi) as [x Hx].
  rewrite (drop_S s x i Hx), (ch_lookup _ _ _ Hx). reflexivity.
Qed.

Lemma length_lit s : length (lit s) = String.length s.
Proof. induction s; simpl; auto. Qed.

Lemma unlink_first_in {A} `{EqDecision A} (x : A) l :
  NoDup l -> x ∈ l ->
  exists r, unlink_first x l = Some r /\ NoDup r /\ length l = S (length r) /\
    forall y, y ∈ r <-> y <> x /\ y ∈ l.
Proof.
  induction l as [|z l IH]; intros Hnd Hx; [by apply not_elem_of_nil in Hx|].
  apply NoDup_cons in Hnd as [Hz Hnd]. cbn [unlink_first].
  destruct (decide (z = x)) as [->|Hne].
  - exists l. repeat split; auto; set_solver.
  - apply elem_of_cons in Hx as [->|Hx]; [done|].
    destruct (IH Hnd Hx) as (r & -> & Hr & Hl & Hin). exists (z :: r). cbn.
    repeat split; [|lia|set_solver..]. apply NoDup_cons. set_solver.
Qed.

Lemma unlink_first_none {A} `{EqDecision A} (x : A) l : ~ x ∈ l -> unlink_first x l = None.
Proof.
  induction l as [|z l IH]; [done|]. intros Hx. cbn.
  rewrite decide_False by set_solver. by rewrite IH by set_solver.
Qed.

(** A property of all 256 codes can be checked by evaluation. *)
Lemma all_codes (P : Z -> Prop) (f : Z -> bool) :
  (forall x, f x = true -> P x) ->
  forallb (fun i => f (Z.of_nat i)) (seq 0 256) = true ->
  forall x, 0 <= x < 256 -> P x.
Proof.
  intros Hf Hall x Hx. apply Hf. rewrite forallb_forall in Hall.
  rewrite <- (Z2Nat.id x) by lia. apply Hall. apply in_seq. lia.
Qed.

Create HintDb ircd.
Create Rewrite HintDb ircd_rw.
#[export] Hint Rewrite hd0_drop length_lit : ircd_rw.
#[export] Hint Resolve ch_ge cstring_ch : ircd.

Lemma last_split_Some c s a b : last_split c s = Some (a, b) <-> s = a ++ c :: b /\ c ∉ b.
Proof.
  revert a b. induction s as [|x s IH]; intros a b; cbn [last_split].
  - split; [done|]. intros [Ha _]. by destruct a.
  - destruct (last_split c s) as [[a' b']|] eqn:E.
    + destruct (proj1 (IH a' b') eq_refl) as [-> Hb']. split.
      * intros [= <- <-]. done.
      * intros [Ha Hb]. destruct a as [|y a]; cbn in Ha; injection Ha as -> Ha.
        { subst b. rewrite elem_of_app in Hb. exfalso. apply Hb. right. by left. }
        pose proof (proj2 (IH a b) (conj Ha Hb)) as E'. congruence.
    + assert (Hc : c ∉ s).
      { intros (l1 & l2 & -> & Hl2)%list_elem_of_split_r. pose proof (proj2 (IH l1 l2) (conj eq_refl Hl2)). congruence. }
      destruct (Z.eqb_spec x c) as [->|Hx].
      * split; [intros [= <- <-]; done|]. intros [Ha Hb]. destruct a as [|y a]; cbn in Ha; [by injection Ha as <-|injection Ha as ? Ha].
        exfalso. apply Hc. rewrite Ha, elem_of_app. right. by left.
      * split; [done|]. intros [Ha Hb]. destruct a as [|y a]; cbn in Ha; injection Ha as -> Ha; [done|].
        exfalso. apply Hc. rewrite Ha, elem_of_app. right. by left.
Qed.

Lemma last_split_None c s : c ∉ s -> last_split c s = None.
Proof.
  intros Hc. destruct (last_split c s) as [[a b]|] eqn:E; [|done]. apply last_split_Some in E as [-> _].
  exfalso. apply Hc. rewrite elem_of_app. right. by left.
Qed.

Lemma split_at_Some c s a b : split_at c s = Some (a, b) <-> s = a ++ c :: b /\ c ∉ a.
Proof.
  revert a b. induction s as [|x s IH]; intros a b; cbn [split_at].
  - split; [done|]. intros [Ha _]. by destruct a.
  - destruct (Z.eqb_spec x c) as [->|Hx].
    + split; [intros [= <- <-]; split; [done|apply not_elem_of_nil]|]. intros [Ha Hc].
      destruct a as [|y a]; cbn in Ha; [by injection Ha as <-|]. injection Ha as <- _. exfalso. apply Hc. by left.
    + split.
      * destruct (split_at c s) as [[a' b']|]; [|done]. intros [= <- <-]. destruct (proj1 (IH a' b') eq_refl) as [-> Hc].
        split; [done|]. apply not_elem_of_cons. split; [done|]. done.
      * intros [Ha Hc]. destruct a as [|y a]; cbn in Ha; injection Ha as Hy Ha; [done|]. apply not_elem_of_cons in Hc as [_ Hc].
        by rewrite (proj2 (IH a b) (conj Ha Hc)), Hy.
Qed.

Lemma last_split_app c a b : c ∉ b -> last_split c (a ++ c :: b) = Some (a, b).
Proof. intros Hb. by apply last_split_Some. Qed.

Lemma split_at_first c a b : c ∉ a -> split_at c (a ++ c :: b) = Some (a, b).
Proof. intros Ha. by apply split_at_Some. Qed.

Create HintDb decide_tests.

(** ** Tests that may fail

    A test of C code is [None] when it reads where it may not. *)

(** A loop that breaks at the first element with a property. *)
Fixpoint anyM {A} (f : A -> option bool) (l : list A) : option bool :=
  match l with
  | [] => Some false
  | x :: l => b ← f x; if (b : bool) then Some true else anyM f l
  end.

(** [a || b] with evaluation in order. *)
Definition orM (a b : option bool) : option bool := x ← a; if (x : bool) then Some true else b.
Definition whenM (c : bool) (a : option bool) : option bool := if c then a else Some false.

(** A test that returns, with the truth of a statement. *)
Definition decides (r : option bool) (P : Prop) : Prop := exists b, r = Some b /\ (b = true <-> P).

Lemma decides_iff r P Q : decides r P -> (P <-> Q) -> decides r Q.
Proof. intros (b & -> & H) HPQ. exists b. split; [done|]. by rewrite H. Qed.

Lemma decides_or a b P Q : decides a P -> decides b Q -> decides (orM a b) (P \/ Q).
Proof.
  intros (x & -> & Hx) (y & -> & Hy). unfold orM. cbn [mbind option_bind].
  destruct x; [exists true|exists y]; (split; [done|]); intuition congruence.
Qed.

Lemma decides_when c a P : (c = true -> decides a P) -> decides (whenM c a) (c = true /\ P).
Proof.
  intros Ha. destruct c; cbn [whenM].
  - eapply decides_iff; [by apply Ha|]. tauto.
  - exists false. split; [done|]. split; [done|]. by intros [[=] _].
Qed.

Lemma decides_any {A} (f : A -> option bool) (P : A -> Prop) l :
  (forall x, x ∈ l -> decides (f x) (P x)) -> decides (anyM f l) (exists x, x ∈ l /\ P x).
Proof.
  induction l as [|x l IH]; intros Hf; cbn [anyM].
  - exists false. split; [done|]. split; [done|]. by intros (x & ?%elem_of_nil & _).
  - destruct (Hf x ltac:(by left)) as (b & -> & Hb). cbn [mbind option_bind].
    destruct b.
    + exists true. split; [done|]. split; [|done]. intros _. exists x. split; [by left|by apply Hb].
    + eapply decides_iff; [apply IH; intros; apply Hf; by right|]. split.
      * intros (y & Hy & HP). exists y. split; [by right|done].
      * intros (y & [->|Hy]%elem_of_cons & HP); [by apply Hb in HP|eauto].
Qed.

Lemma decides_and (b : bool) r P Q : decides r P -> (b = true <-> Q) -> decides (x ← r; Some (x && b)) (P /\ Q).
Proof.
  intros (x & -> & Hx) Hb. exists (x && b). split; [done|]. rewrite andb_true_iff. intuition.
Qed.

Lemma decides_false : decides (Some false) False.
Proof. exists false. split; [done|]. by split. Qed.

#[export] Hint Resolve decides_or decides_when decides_any decides_and decides_false : decide_tests.
