(* ===== verification/Chattr.v ===== *)
(** * ircd/table_gen.c, include/ircd_chattr.h: character tables

    The generator of the case and attribute tables, executed as the build
    executes it, and the macros that read the tables it prints.  A table is
    indexed by the unsigned code of the character, which is the C index
    [c - CHAR_MIN] up to the rotation by [CHAR_MIN]. *)
From S2P Require Import Prelude.

Definition NTL_ALNUM : Z := 0x0001.
Definition NTL_ALPHA : Z := 0x0002.
Definition NTL_CNTRL : Z := 0x0004.
Definition NTL_DIGIT : Z := 0x0008.
Definition NTL_GRAPH : Z := 0x0010.
Definition NTL_LOWER : Z := 0x0020.
Definition NTL_PRINT : Z := 0x0040.
Definition NTL_PUNCT : Z := 0x0080.
Definition NTL_SPACE : Z := 0x0100.
Definition NTL_UPPER : Z := 0x0200.
Definition NTL_IRCCH : Z := 0x0400.
Definition NTL_IRCCL : Z := 0x0800.
Definition NTL_IRCNK : Z := 0x1000.
Definition NTL_IRCUI : Z := 0x2000.
Definition NTL_IRCHN : Z := 0x4000.
Definition NTL_IRCIP : Z := 0x8000.
Definition NTL_EOL : Z := 0x10000.
Definition NTL_KTIME : Z := 0x20000.
Definition NTL_CHPFX : Z := 0x40000.

(** The three tables being built: NTL_tolower_tab, NTL_toupper_tab and
    NTL_char_attrib. *)
Record tables := Tables {
  tolower_tab : list Z;
  toupper_tab : list Z;
  char_attrib : list Z }.

(** The codes in the order of the C loops, [i] from CHAR_MIN to CHAR_MAX. *)
Definition char_range : list Z :=
  map (fun i => (Z.of_nat i + 128) mod 256) (seq 0 256).

Definition zeroTables : tables :=
  let ident := map Z.of_nat (seq 0 256) in
  Tables ident ident (replicate 256 0).

Definition upd_attrib (f : Z -> Z) (t : tables) (c : Z) : tables :=
  Tables (tolower_tab t) (toupper_tab t)
    (alter f (Z.to_nat c) (char_attrib t)).

Definition markString (macro : Z) (s : list Z) (t : tables) : tables :=
  foldl (upd_attrib (fun a => Z.lor a macro)) t s.

Definition unMarkString (macro : Z) (s : list Z) (t : tables) : tables :=
  foldl (upd_attrib (fun a => Z.land a (Z.lnot macro))) t s.

Definition markRange (macro from to : Z) (t : tables) : tables :=
  foldl (fun t i => if (from <=? i) && (i <=? to)
                    then upd_attrib (fun a => Z.lor a macro) t i else t)
        t char_range.

Definition moveMacro (from to : Z) (t : tables) : tables :=
  foldl (fun t i => if has_bits (nth (Z.to_nat i) (char_attrib t) 0) from
                    then upd_attrib (fun a => Z.lor a to) t i else t)
        t char_range.

Definition setLowHi (firstlow lastlow firsthi : Z) (t : tables) : tables :=
  foldl (fun t i =>
    if (firstlow <=? i) && (i <=? lastlow) then
      let j := (i + (firsthi - firstlow)) mod 256 in
      Tables (<[Z.to_nat j := i]> (tolower_tab t))
             (<[Z.to_nat i := j]> (toupper_tab t))
             (char_attrib t)
    else t) t char_range.

(** The punctuation literal of makeTables; its first two characters are an
    exclamation mark and a double quote. *)
Definition punct_chars : list Z :=
  33 :: 34 :: lit "#$%&'()*+,-./:;<=>?@_`".

(** makeTables(): the calls in source order. *)
Definition makeTables : tables :=
  let t := zeroTables in
  let t := markRange NTL_LOWER 97 122 t in
  let t := markString NTL_LOWER (lit "{|}~") t in
  let t := markRange NTL_UPPER 65 90 t in
  let t := markString NTL_UPPER (lit "[\]^") t in
  let t := markRange NTL_DIGIT 48 57 t in
  let t := markRange NTL_CNTRL 0 31 t in
  let t := markString NTL_PUNCT punct_chars t in
  let t := markString NTL_SPACE [9; 10; 11; 12; 13; 32] t in
  let t := moveMacro (Z.lor NTL_LOWER NTL_UPPER) NTL_ALPHA t in
  let t := moveMacro (Z.lor NTL_ALPHA NTL_DIGIT) NTL_ALNUM t in
  let t := moveMacro (Z.lor NTL_ALNUM NTL_PUNCT) NTL_GRAPH t in
  let t := moveMacro NTL_GRAPH NTL_PRINT t in
  let t := markString NTL_PRINT (lit " ") t in
  let t := markRange NTL_IRCCH 0 255 t in
  let t := unMarkString NTL_IRCCH [7; 32; 44; 160; 42] t in
  let t := markRange NTL_IRCCL 192 214 t in
  let t := markRange NTL_IRCCL 216 222 t in
  let t := moveMacro NTL_ALNUM NTL_IRCHN t in
  let t := markString NTL_IRCHN (lit "-_.") t in
  let t := moveMacro NTL_DIGIT NTL_IRCIP t in
  let t := markString NTL_IRCIP (lit ".") t in
  let t := moveMacro (Z.lor NTL_DIGIT NTL_ALPHA) NTL_IRCNK t in
  let t := markString NTL_IRCNK (lit "-_`") t in
  let t := moveMacro NTL_ALNUM NTL_IRCUI t in
  let t := markRange NTL_IRCUI 0xe0 0xf6 t in
  let t := markRange NTL_IRCUI 0xf8 0xfe t in
  let t := markRange NTL_IRCUI 0xc0 0xd6 t in
  let t := markRange NTL_IRCUI 0xd8 0xde t in
  let t := markString NTL_IRCUI (lit ".-_^'`~") t in
  let t := markString NTL_EOL [10; 13] t in
  let t := markString NTL_CHPFX (lit "#&") t in
  let t := markString NTL_KTIME (lit " ,-0123456789") t in
  let t := setLowHi 97 122 65 t in
  let t := setLowHi 0xe0 0xf6 0xc0 t in
  let t := setLowHi 0xf8 0xfe 0xd8 t in
  setLowHi 123 126 91 t.

(** The tables the server is compiled with are the generator's output. *)
Definition ToLowerTab_8859_1 : list Z := Eval vm_compute in tolower_tab makeTables.
Definition ToUpperTab_8859_1 : list Z := Eval vm_compute in toupper_tab makeTables.
Definition IRCD_CharAttrTab : list Z := Eval vm_compute in char_attrib makeTables.

(** Table reads.  There is no character outside [0, 256); the functions are
    total by leaving such a number alone. *)
Definition ToLower (c : Z) : Z :=
  if (0 <=? c) && (c <? 256) then nth (Z.to_nat c) ToLowerTab_8859_1 0 else c.
Definition ToUpper (c : Z) : Z :=
  if (0 <=? c) && (c <? 256) then nth (Z.to_nat c) ToUpperTab_8859_1 0 else c.
Definition CharAttr (c : Z) : Z :=
  if (0 <=? c) && (c <? 256) then nth (Z.to_nat c) IRCD_CharAttrTab 0 else 0.

Definition IsAlnum (c : Z) : bool := has_bits (CharAttr c) NTL_ALNUM.
Definition IsAlpha (c : Z) : bool := has_bits (CharAttr c) NTL_ALPHA.
Definition IsDigit (c : Z) : bool := has_bits (CharAttr c) NTL_DIGIT.
Definition IsSpace (c : Z) : bool := has_bits (CharAttr c) NTL_SPACE.
Definition IsCntrl (c : Z) : bool := has_bits (CharAttr c) NTL_CNTRL.
Definition IsNickChar (c : Z) : bool := has_bits (CharAttr c) NTL_IRCNK.
Definition IsEol (c : Z) : bool := has_bits (CharAttr c) NTL_EOL.

Definition lower (s : list Z) : list Z := map ToLower s.

(** ** Lemmas *)
Lemma ToLower_out c : ~ (0 <= c < 256) -> ToLower c = c.
Proof. intros H. unfold ToLower. bcase; bprop; lia. Qed.

(** Lifts an evaluation over the 256 codes to every integer, when the property
    is plain for a number the tables do not translate. *)
Lemma ToLower_ind (P : Z -> Z -> Prop) (f : Z -> Z -> bool) :
  (forall x y, f x y = true -> P x y) ->
  (forall x, ~ (0 <= x < 256) -> P x x) ->
  forallb (fun i => f (Z.of_nat i) (ToLower (Z.of_nat i))) (seq 0 256) = true ->
  forall x, P x (ToLower x).
Proof.
  intros Hf Hout Hall x.
  destruct (decide (0 <= x < 256)) as [H|H].
  - apply (all_codes (fun x => P x (ToLower x)) (fun x => f x (ToLower x))); auto.
  - rewrite ToLower_out by done. auto.
Qed.

Lemma ToLower_idem x : ToLower (ToLower x) = ToLower x.
Proof.
  apply (ToLower_ind (fun _ y => ToLower y = y) (fun _ y => ToLower y =? y)).
  - intros ? y Hy. by apply Z.eqb_eq.
  - apply ToLower_out.
  - vm_compute. reflexivity.
Qed.

Lemma ToLower_range x : 0 <= x < 256 -> 0 <= ToLower x < 256.
Proof.
  apply (ToLower_ind (fun x y => 0 <= x < 256 -> 0 <= y < 256)
           (fun _ y => (0 <=? y) && (y <? 256))).
  - intros ? y Hy _. bprop. lia.
  - done.
  - vm_compute. reflexivity.
Qed.

(** Characters that only fold from themselves. *)
Lemma ToLower_fixed k x :
  (k = 0 \/ k = 42 \/ k = 63) -> ToLower x = k -> x = k.
Proof.
  intros Hk.
  apply (ToLower_ind (fun x y => y = k -> x = k)
     (fun x y => implb (y =? k) (x =? k))).
  - intros u v Huv E. subst v. rewrite Z.eqb_refl in Huv. simpl in Huv. by apply Z.eqb_eq.
  - done.
  - destruct Hk as [->|[->| ->]]; vm_compute; reflexivity.
Qed.

Lemma ToLower_0 : ToLower 0 = 0. Proof. reflexivity. Qed.
Lemma ToLower_star : ToLower 42 = 42. Proof. reflexivity. Qed.
Lemma ToLower_query : ToLower 63 = 63. Proof. reflexivity. Qed.

Lemma ToLower_is_char x : is_char x -> is_char (ToLower x).
Proof.
  intros [H1 H2]. pose proof (ToLower_range x ltac:(lia)).
  assert (ToLower x <> 0) by (intros E; apply (ToLower_fixed 0) in E; lia).
  unfold is_char; lia.
Qed.

Lemma ToLower_0_iff x : ToLower x = 0 <-> x = 0.
Proof. split; [apply ToLower_fixed; auto | intros ->; apply ToLower_0]. Qed.

Lemma cstring_lower s : cstring s -> cstring (lower s).
Proof.
  intros H. unfold lower, cstring. rewrite Forall_map.
  eapply Forall_impl; [exact H|]. apply ToLower_is_char.
Qed.

Lemma IsEol_spec x : IsEol x = true <-> x = 10 \/ x = 13.
Proof.
  destruct (decide (0 <= x < 256)) as [H|H].
  - revert x H. apply (all_codes (fun x => IsEol x = true <-> x = 10 \/ x = 13)
      (fun x => Bool.eqb (IsEol x) ((x =? 10) || (x =? 13)))).
    + intros x E. apply Bool.eqb_prop in E. rewrite E, orb_true_iff, !Z.eqb_eq. done.
    + vm_compute. reflexivity.
  - unfold IsEol, CharAttr. bcase; bprop; try lia. split; [done | lia].
Qed.

#[export] Hint Rewrite ToLower_idem ToLower_0 ToLower_star ToLower_query : ircd_rw.
#[export] Hint Resolve ToLower_is_char cstring_lower : ircd.
