(* ===== verification/NumText.v ===== *)
(** * Numbers in texts

    What the server uses of the C library to print and to read numbers (%d, %u,
    %X, atoi()), texts cut to the size of a buffer, and the intervals and
    address masks of ircd/support.c. *)
From S2P Require Import Prelude Chattr.
Open Scope ircd_scope.

(** ** Printing *)
Fixpoint digits (fuel : nat) (base : Z) (n : Z) (acc : list Z) : list Z :=
  let d := n mod base in
  let acc := (if d <? 10 then 48 + d else 55 + d) :: acc in
  match fuel with
  | O => acc
  | S fuel => if n / base =? 0 then acc else digits fuel base (n / base) acc
  end.

(** %u and %lu. *)
Definition decimal (n : Z) : list Z := digits (Z.to_nat (Z.log2 n)) 10 n [].

(** %d of an unsigned int. *)
Definition int_text (n : Z) : list Z := if n <? 2 ^ 31 then decimal n else 45 :: decimal (2 ^ 32 - n).

(** %X of an unsigned int. *)
Definition hexadecimal (n : Z) : list Z := digits 8 16 n [].

(** ** Texts of limited length *)
Definition NICKLEN : nat := 30.
Definition USERLEN : nat := 10.
Definition HOSTLEN : nat := 75.
Definition BUFSIZE : nat := 512.

(** ircd_snprintf(0, buf, n, ...) of a text. *)
Definition snprintf (n : nat) (text : list Z) : list Z := take (n - 1) text.

(** ** Reading *)
Definition is_digit (c : Z) : bool := (48 <=? c) && (c <=? 57).

(** isspace() *)
Definition is_space (c : Z) : bool := ((9 <=? c) && (c <=? 13)) || (c =? 32).

Fixpoint skip_blanks (s : list Z) : list Z :=
  match s with c :: r => if is_space c then skip_blanks r else s | [] => [] end.

(** The number the leading digits make. *)
Fixpoint lead_number (s : list Z) (n : Z) : Z :=
  match s with c :: r => if is_digit c then lead_number r (n * 10 + (c - 48)) else n | [] => n end.

(** A long is cut to an int. *)
Definition s32 (z : Z) : Z := (z + 2 ^ 31) mod 2 ^ 32 - 2 ^ 31.

(** An unsigned long is stored in a long. *)
Definition s64 (z : Z) : Z := (z + 2 ^ 63) mod 2 ^ 64 - 2 ^ 63.

(** strtol(s, 0, 10), which stops at the limits of a long, and atoi(). *)
Definition strtol (s : list Z) : Z :=
  let s := skip_blanks s in
  let n := if hd0 s =? 45 then - lead_number (drop 1 s) 0
           else if hd0 s =? 43 then lead_number (drop 1 s) 0
           else lead_number s 0 in
  Z.max (- 2 ^ 63) (Z.min (2 ^ 63 - 1) n).

Definition atoi (s : list Z) : Z := s32 (strtol s).

(** ** Intervals, ircd/support.c *)
Definition TypeLength (type : Z) : Z :=
  if type =? 121 then 365 * 24 * 60 * 60        (* y *)
  else if type =? 77 then 31 * 24 * 60 * 60     (* M *)
  else if type =? 119 then 7 * 24 * 60 * 60     (* w *)
  else if type =? 100 then 24 * 60 * 60         (* d *)
  else if type =? 104 then 60 * 60              (* h *)
  else if type =? 109 then 60                   (* m *)
  else if type =? 115 then 1                    (* s *)
  else 0.

(** [partial] is an int: [None] when it leaves the range. *)
Fixpoint interval_loop (interval : list Z) (seconds partial : Z) : option Z :=
  match interval with
  | [] => Some (u64 (seconds + partial))
  | c :: interval =>
      if IsDigit c then
        if partial * 10 + c <? 2 ^ 31 then interval_loop interval seconds (partial * 10 + c - 48)
        else None
      else interval_loop interval (u64 (seconds + TypeLength c * partial)) 0
  end.

Definition ParseInterval (interval : list Z) : option Z := interval_loop interval 0 0.

Fixpoint is_timestamp (str : list Z) : bool :=
  match str with
  | c :: r => if IsDigit c || (c =? 46) then is_timestamp r else false
  | [] => true
  end.

(** check_if_ipmask() *)
Definition mask_sign (c : Z) : bool := (c =? 42) || (c =? 63) || (c =? 46) || (c =? 47).
Definition check_if_ipmask (mask : list Z) : bool :=
  if (hd0 mask =? 46) || (hd0 mask =? 47) then false
  else forallb (fun c => mask_sign c || IsDigit c) mask && existsb (fun c => negb (mask_sign c)) mask.

(** ** Lemmas *)
Definition value (l : list Z) : Z := fold_left (fun v c => v * 10 + (c - 48)) l 0.

Lemma value_app l c : value (l ++ [c]) = value l * 10 + (c - 48).
Proof. unfold value. by rewrite fold_left_app. Qed.

Lemma digits_ok fuel n acc :
  0 <= n < 2 ^ (Z.of_nat fuel + 1) ->
  exists ds, digits fuel 10 n acc = ds ++ acc /\ Forall (fun c => 48 <= c <= 57) ds /\ ds <> [] /\ value ds = n.
Proof.
  revert n acc. induction fuel as [|fuel IH]; intros n acc Hn; cbn [digits].
  - change (2 ^ (Z.of_nat 0 + 1)) with 2 in Hn. exists [48 + n]. rewrite Z.mod_small by lia.
    rewrite (proj2 (Z.ltb_lt n 10)) by lia. split_and!; [done|repeat constructor; lia|done|unfold value; cbn; lia].
  - assert (Hm : 0 <= n mod 10 < 10) by (apply Z.mod_pos_bound; lia).
    rewrite (proj2 (Z.ltb_lt (n mod 10) 10)) by lia.
    destruct (Z.eqb_spec (n / 10) 0) as [E|E].
    + exists [48 + n mod 10]. split_and!; [done|repeat constructor; lia|done|]. unfold value; cbn. mlia.
    + destruct (IH (n / 10) (48 + n mod 10 :: acc)) as (ds & -> & Hd & Hne & Hv).
      { replace (Z.of_nat (S fuel) + 1) with (Z.succ (Z.of_nat fuel + 1)) in Hn by lia.
        rewrite Z.pow_succ_r in Hn by lia. mlia. }
      exists (ds ++ [48 + n mod 10]). rewrite <- app_assoc. split_and!; [done| |by destruct ds|].
      * apply Forall_app. split; [done|]. repeat constructor; lia.
      * rewrite value_app, Hv. mlia.
Qed.

Lemma decimal_ok n : 0 <= n ->
  Forall (fun c => 48 <= c <= 57) (decimal n) /\ decimal n <> [] /\ value (decimal n) = n.
Proof.
  intros Hn. destruct (digits_ok (Z.to_nat (Z.log2 n)) n []) as (ds & E & H); [|unfold decimal; by rewrite E, app_nil_r].
  pose proof (Z.log2_nonneg n). rewrite Z2Nat.id by done. split; [done|].
  destruct (Z.eq_dec n 0) as [->|]; [done|]. apply Z.log2_spec. lia.
Qed.

Lemma snprintf_fits n s : (length s < n)%nat -> snprintf n s = s.
Proof. intros Hs. unfold snprintf. apply take_ge. lia. Qed.

Lemma lead_number_app l r n :
  Forall (fun c => 48 <= c <= 57) l -> is_digit (hd0 r) = false ->
  lead_number (l ++ r) n = fold_left (fun v c => v * 10 + (c - 48)) l n.
Proof.
  intros Hl Hr. revert n. induction Hl as [|c l Hc Hl IH]; intros n; cbn [app fold_left lead_number].
  - destruct r as [|c r]; [done|]. cbn in Hr |- *. by rewrite Hr.
  - unfold is_digit at 1. rewrite !(proj2 (Z.leb_le _ _)) by lia. apply IH.
Qed.

(** A printed number is read back, whatever follows it that is no digit. *)
Lemma atoi_decimal n r : 0 <= n < 2 ^ 31 -> is_digit (hd0 r) = false -> atoi (decimal n ++ r) = n.
Proof.
  intros Hn Hr. destruct (decimal_ok n ltac:(lia)) as (Hd & Hne & Hv). revert Hd Hne Hv.
  destruct (decimal n) as [|c l]; [done|]. intros Hd _ Hv. unfold atoi, strtol.
  assert (Hc : 48 <= c <= 57) by by inversion Hd.
  assert (Hs : skip_blanks ((c :: l) ++ r) = (c :: l) ++ r).
  { cbn. unfold is_space. by rewrite (proj2 (Z.leb_gt c 13)), (proj2 (Z.eqb_neq c 32)), andb_false_r by lia. }
  rewrite Hs. pose proof (lead_number_app (c :: l) r 0 Hd Hr) as Hln. fold (value (c :: l)) in Hln.
  rewrite Hln, Hv. cbn [hd0 app]. rewrite (proj2 (Z.eqb_neq c 45)), (proj2 (Z.eqb_neq c 43)) by lia.
  unfold s32. rewrite Z.max_r, Z.min_r by lia. rewrite Z.mod_small by lia. lia.
Qed.

Lemma IsDigit_digit c : 0 <= c < 256 -> IsDigit c = is_digit c.
Proof.
  apply (all_codes (fun c => IsDigit c = is_digit c) (fun c => Bool.eqb (IsDigit c) (is_digit c))).
  - intros x. by apply Bool.eqb_prop.
  - vm_compute. reflexivity.
Qed.

Lemma interval_digits l r seconds partial :
  Forall (fun c => 48 <= c <= 57) l ->
  0 <= partial -> fold_left (fun v c => v * 10 + (c - 48)) l partial < 2 ^ 31 - 48 ->
  interval_loop (l ++ r) seconds partial =
  interval_loop r seconds (fold_left (fun v c => v * 10 + (c - 48)) l partial).
Proof.
  intros Hl. revert partial. induction Hl as [|c l Hc Hl IH]; intros partial Hp Hb; [done|].
  cbn [fold_left app interval_loop] in *. rewrite IsDigit_digit by lia. unfold is_digit.
  rewrite !(proj2 (Z.leb_le _ _)) by lia. cbn [andb].
  assert (Hmono : forall l v, Forall (fun c => 48 <= c <= 57) l -> 0 <= v -> v <= fold_left (fun v c => v * 10 + (c - 48)) l v).
  { clear. intros l v Hl. revert v. induction Hl as [|c l Hc _ IH]; intros v Hv; [cbn; lia|].
    cbn. etransitivity; [|apply IH]; lia. }
  pose proof (Hmono l (partial * 10 + (c - 48)) Hl ltac:(lia)).
  rewrite (proj2 (Z.ltb_lt _ _)) by lia.
  replace (partial * 10 + c - 48) with (partial * 10 + (c - 48)) by lia. apply IH; lia.
Qed.

(** Amounts with their units. *)
Definition interval_text (l : list (Z * Z)) : list Z := flat_map (fun '(n, unit) => decimal n ++ [unit]) l.
Definition interval_value (l : list (Z * Z)) : Z := foldr (fun '(n, unit) s => n * TypeLength unit + s) 0 l.

Lemma unit_not_digit unit : unit ∈ lit "yMwdhms" -> IsDigit unit = false /\ (unit =? 46) = false.
Proof. intros Hu%list_elem_of_In. cbn in Hu. by repeat destruct Hu as [<-|Hu]. Qed.

Lemma interval_loop_text l n seconds :
  Forall (fun '(n, unit) => 0 <= n < 2 ^ 31 - 48 /\ unit ∈ lit "yMwdhms") l -> 0 <= n < 2 ^ 31 - 48 ->
  interval_loop (interval_text l ++ decimal n) seconds 0 = Some (u64 (seconds + interval_value l + n)).
Proof.
  intros Hl Hn. revert seconds. induction Hl as [|[m unit] l [Hm Hu] Hl IH]; intros seconds.
  - destruct (decimal_ok n) as (Hd & _ & Hv); [lia|]. cbn [interval_text flat_map app interval_value foldr].
    rewrite <- (app_nil_r (decimal n)). fold (value (decimal n)) in *.
    rewrite interval_digits; [|done|lia|fold (value (decimal n)); lia]. fold (value (decimal n)). rewrite Hv.
    cbn [interval_loop]. do 2 f_equal. lia.
  - destruct (decimal_ok m) as (Hd & _ & Hv); [lia|]. cbn [interval_text flat_map interval_value foldr].
    rewrite <- !app_assoc. rewrite interval_digits; [|done|lia|fold (value (decimal m)); lia].
    fold (value (decimal m)). rewrite Hv. cbn [app interval_loop].
    rewrite (proj1 (unit_not_digit unit Hu)). fold (interval_text l). rewrite IH. fold (interval_value l). f_equal. unfold u64.
    replace (seconds + (m * TypeLength unit + interval_value l) + n)
      with ((seconds + TypeLength unit * m) + (interval_value l + n)) by lia.
    rewrite <- Z.add_assoc. by rewrite Zplus_mod_idemp_l.
Qed.

(** An interval written as amounts with the units y, M, w, d, h, m and s and
    possibly seconds at the end is read as the sum, in 64 bits, for amounts
    whose last digit can be added as an int; and what has only digits and dots
    is not taken for an interval. *)
Theorem ParseInterval_correct l n :
  Forall (fun '(n, unit) => 0 <= n < 2 ^ 31 - 48 /\ unit ∈ lit "yMwdhms") l -> 0 <= n < 2 ^ 31 - 48 ->
  ParseInterval (interval_text l ++ decimal n) = Some (u64 (interval_value l + n)) /\
  (is_timestamp (interval_text l ++ decimal n) = true <-> l = []).
Proof.
  intros Hl Hn. split; [unfold ParseInterval; by rewrite interval_loop_text|].
  assert (Hts : forall ds r, Forall (fun c => 48 <= c <= 57) ds -> is_timestamp (ds ++ r) = is_timestamp r).
  { clear. intros ds r H. induction H as [|c ds Hc H IH]; [done|]. cbn [app is_timestamp]. rewrite IsDigit_digit by lia.
    unfold is_digit. by rewrite !(proj2 (Z.leb_le _ _)) by lia. }
  destruct Hl as [|[m unit] l [Hm Hu] Hl].
  - split; [done|]. intros _. cbn. rewrite <- (app_nil_r (decimal n)). rewrite Hts; [done|]. apply decimal_ok. lia.
  - cbn. rewrite <- !app_assoc, Hts by (apply decimal_ok; lia). cbn.
    destruct (unit_not_digit unit Hu) as [-> ->]. done.
Qed.

Lemma ParseInterval_correct_witness :
  ParseInterval (lit "1d2h30") = Some (24 * 3600 + 2 * 3600 + 30) /\ is_timestamp (lit "1d2h30") <> true.
Proof.
  destruct (ParseInterval_correct [(1, 100); (2, 104)] 30) as [H1 H2]; [|lia|].
  - repeat constructor; lia || (vm_compute; set_solver).
  - split; [exact H1|]. intros H. by apply H2 in H.
Defined.
