(* ===== verification/Match.v ===== *)
(** * ircd/match.c: wildcard masks

    [ircd_match], [mmatch] and [collapse] with the pointers kept as indices.
    A read outside a buffer (the byte after the terminator, or the byte before
    the start) stops the evaluation with [None]. *)
From S2P Require Import Prelude Chattr.

(** ** Reading through pointers *)

(** [s[i]], defined up to the terminator. *)
Definition rd (s : list Z) (i : nat) : option Z :=
  if decide (i <= length s)%nat then Some (ch s i) else None.
Arguments rd : simpl never.

(** Length of the run of stars a string starts with. *)
Fixpoint stars (s : list Z) : nat :=
  match s with
  | x :: r => if x =? 42 then S (stars r) else 0%nat
  | [] => 0%nat
  end.

(** while (the character is a star) m++ *)
Definition skip_stars (s : list Z) (i : nat) : nat := (i + stars (drop i s))%nat.

(** The scan [for (m--; (m > mask) && ( *m == '?'); m--)], from the pointer
    already decremented. *)
Fixpoint back_queries (s : list Z) (i : nat) : nat :=
  match i with
  | O => O
  | S j => if ch s i =? 63 then back_queries s j else i
  end.

Inductive outcome (S : Type) :=
| Next (s : S)
| Ret (r : Z).
Arguments Next {S} _.
Arguments Ret {S} _.

(** Runs a loop body until it returns: [None] is a read out of bounds,
    [Some None] an exhausted fuel. *)
Fixpoint loop {S : Type} (step : S -> option (outcome S)) (fuel : nat) (s : S)
  : option (option Z) :=
  match fuel with
  | O => Some None
  | Datatypes.S fuel =>
      o ← step s;
      match o with
      | Ret r => Some (Some r)
      | Next s' => loop step fuel s'
      end
  end.

(** ** match() *)
Record mstate := MState {
  mp : nat; np : nat; m_tmp : nat; n_tmp : nat; wild : bool }.

Definition match_init : mstate := MState 0 0 0 0 false.

(** The comparison that ends an iteration. *)
Definition match_compare (mask name : list Z) (st : mstate) : option (outcome mstate) :=
  cm ← rd mask (mp st);
  cn ← rd name (np st);
  if negb (ToLower cm =? ToLower cn) && negb (cm =? 63) then
    if wild st
    then Some (Next (MState (m_tmp st) (S (n_tmp st)) (m_tmp st) (S (n_tmp st)) true))
    else Some (Ret 1)
  else
    Some (Next (MState (if cm =? 0 then mp st else S (mp st))
                       (if cn =? 0 then np st else S (np st))
                       (m_tmp st) (n_tmp st) (wild st))).

(** [m--], the scan back over '?', and the test for an earlier star. *)
Definition ends_in_star (mask : list Z) (m : nat) : option bool :=
  match m with
  | O => None
  | S j => let b := back_queries mask j in
           Some ((ch mask b =? 42) && (0 <? b)%nat)
  end.

(** The stars at the pointer are skipped and the position is remembered. *)
Definition skip_wild (mask : list Z) (st : mstate) : option mstate :=
  c0 ← rd mask (mp st);
  let m := skip_stars mask (mp st) in
  Some (if c0 =? 42 then MState m (np st) m (np st) true else st).

Definition match_step (mask name : list Z) (st : mstate) : option (outcome mstate) :=
  st ← skip_wild mask st;
  c1 ← rd mask (mp st);
  let m := if c1 =? 92 then S (mp st) else mp st in
  let st := MState m (np st) (m_tmp st) (n_tmp st) (wild st) in
  cm ← rd mask (mp st);
  cn ← rd name (np st);
  if cm =? 0 then
    if cn =? 0 then Some (Ret 0)
    else
      e ← ends_in_star mask (mp st);
      if (e : bool) then Some (Ret 0)
      else if wild st
      then match_compare mask name
             (MState (m_tmp st) (S (n_tmp st)) (m_tmp st) (S (n_tmp st)) true)
      else Some (Ret 1)
  else if cn =? 0 then
    Some (Ret (bool_int (negb (ch mask (skip_stars mask (mp st)) =? 0))))
  else match_compare mask name st.

Definition match_fuel (mask name : list Z) : nat :=
  ((length name + 2) * (2 * length mask + 4))%nat.

Definition ircd_match (mask name : list Z) : option (option Z) :=
  loop (match_step mask name) (match_fuel mask name) match_init.

(** ** mmatch() *)

(** A backslash escapes a star or a question mark only. *)
Definition escapes (c d : Z) : bool := (c =? 92) && ((d =? 42) || (d =? 63)).

(** Is the character at [i] such a backslash? *)
Definition escaped_at (s : list Z) (i : nat) : option bool :=
  c ← rd s i;
  if c =? 92 then d ← rd s (S i); Some (escapes c d) else Some false.

(** m = ma, and na moved past one character of the new mask, [\*] and [\?]
    counting as one. *)
Definition mmatch_retry (new_mask : list Z) (st : mstate) : option mstate :=
  e ← escaped_at new_mask (n_tmp st);
  let na := if (e : bool) then S (S (n_tmp st)) else S (n_tmp st) in
  Some (MState (m_tmp st) na (m_tmp st) na true).

Definition mmatch_compare (old_mask new_mask : list Z) (st : mstate)
  : option (outcome mstate) :=
  mq ← escaped_at old_mask (mp st);
  let m := if (mq : bool) then S (mp st) else mp st in
  nq ← escaped_at new_mask (np st);
  let n := if (nq : bool) then S (np st) else np st in
  cm ← rd old_mask m;
  cn ← rd new_mask n;
  if ((cm =? 42) && negb mq)
     || ((negb mq || nq) && (ToLower cm =? ToLower cn))
     || ((cm =? 63) && negb mq && (negb (cn =? 42) || nq))
  then Some (Next (MState (if cm =? 0 then m else S m) (if cn =? 0 then n else S n)
                          (m_tmp st) (n_tmp st) (wild st)))
  else if wild st then st' ← mmatch_retry new_mask st; Some (Next st')
  else Some (Ret 1).

(** The same scan as in match(), where the star must not be escaped. *)
Definition ends_in_free_star (mask : list Z) (m : nat) : option bool :=
  match m with
  | O => None
  | S j => let b := back_queries mask j in
           Some ((ch mask b =? 42) && (0 <? b)%nat && negb (ch mask (pred b) =? 92))
  end.

Definition mmatch_step (old_mask new_mask : list Z) (st : mstate)
  : option (outcome mstate) :=
  st ← skip_wild old_mask st;
  cm ← rd old_mask (mp st);
  cn ← rd new_mask (np st);
  if cm =? 0 then
    if cn =? 0 then Some (Ret 0)
    else
      e ← ends_in_free_star old_mask (mp st);
      if (e : bool) then Some (Ret 0)
      else if wild st
      then st' ← mmatch_retry new_mask st; mmatch_compare old_mask new_mask st'
      else Some (Ret 1)
  else if cn =? 0 then
    Some (Ret (bool_int (negb (ch old_mask (skip_stars old_mask (mp st)) =? 0))))
  else mmatch_compare old_mask new_mask st.

Definition mmatch (old_mask new_mask : list Z) : option (option Z) :=
  loop (mmatch_step old_mask new_mask) (match_fuel old_mask new_mask) match_init.

(** ** collapse()

    The function rewrites the mask in place with the write pointer never ahead
    of the read pointer; the text read is the text of the argument.  The inner
    loop, with [star] set when a star has been read and not yet written. *)
Fixpoint collapse_tail (star : bool) (m : list Z) : list Z :=
  match m with
  | [] => if star then [42] else []
  | x :: r =>
      if x =? 42 then collapse_tail true r
      else
        let flush := star && negb (x =? 63) in
        (if flush then [42] else []) ++
        x :: (match r with
              | y :: r' =>
                  if escapes x y then y :: collapse_tail (star && negb flush) r'
                  else collapse_tail (star && negb flush) r
              | [] => collapse_tail (star && negb flush) r
              end)
  end.

(** The outer loop: text is left alone up to the first star that is followed by
    a wildcard. *)
Fixpoint collapse (m : list Z) : list Z :=
  match m with
  | [] => []
  | x :: r =>
      if (x =? 42) && ((hd0 r =? 42) || (hd0 r =? 63)) then collapse_tail false m
      else match r with
           | y :: r' => if escapes x y then x :: y :: collapse r' else x :: collapse r
           | [] => [x]
           end
  end.

(** ** Specification: the language of an escape-free mask *)
Inductive glob : list Z -> list Z -> Prop :=
| glob_nil : glob [] []
| glob_skip m n : glob m n -> glob (42 :: m) n
| glob_eat m x n : glob (42 :: m) n -> glob (42 :: m) (x :: n)
| glob_any m x n : glob m n -> glob (63 :: m) (x :: n)
| glob_chr k m x n :
    k <> 42 -> k <> 63 -> ToLower k = ToLower x -> glob m n -> glob (k :: m) (x :: n).

(** A C string without a backslash. *)
Definition plain_mask (m : list Z) : Prop := Forall (fun x => is_char x /\ x <> 92) m.

#[export] Instance plain_mask_dec m : Decision (plain_mask m).
Proof. unfold plain_mask. apply _. Defined.

(** ** The loop rule *)
Lemma loop_total {S : Type} (step : S -> option (outcome S)) (I : S -> Prop)
    (mu : S -> nat) (post : Z -> Prop) :
  (forall s, I s -> exists o, step s = Some o /\
     match o with Ret r => post r | Next s' => I s' /\ (mu s' < mu s)%nat end) ->
  forall fuel s, I s -> (mu s < fuel)%nat ->
  exists r, loop step fuel s = Some (Some r) /\ post r.
Proof.
  intros Hstep fuel. induction fuel as [|fuel IH]; intros s Hs Hmu; [lia|].
  destruct (Hstep s Hs) as ([s'|r] & Ho & H); simpl; rewrite Ho; simpl.
  - destruct H as [Hs' Hlt]. apply IH; [done|lia].
  - eauto.
Qed.

Lemma rd_some s i : (i <= length s)%nat -> rd s i = Some (ch s i).
Proof. intros. unfold rd. by rewrite decide_True. Qed.

Lemma rd_none s i : (length s < i)%nat -> rd s i = None.
Proof. intros. unfold rd. rewrite decide_False; [done|lia]. Qed.

(** ** Runs of stars *)
Lemma stars_le s : (stars s <= length s)%nat.
Proof. induction s; simpl; [lia|]. case_match; simpl; lia. Qed.

Lemma skip_stars_le s i : (i <= length s)%nat -> (i <= skip_stars s i <= length s)%nat.
Proof.
  intros. unfold skip_stars. pose proof (stars_le (drop i s)).
  rewrite length_drop in *. lia.
Qed.

Lemma stars_split s : s = replicate (stars s) 42 ++ drop (stars s) s.
Proof.
  induction s as [|x s IH]; simpl; [done|].
  case_match eqn:E; bprop; simpl; [|done]. rewrite <- IH. congruence.
Qed.

Lemma skip_stars_hd s i : ch s (skip_stars s i) <> 42.
Proof.
  unfold skip_stars. rewrite <- hd0_drop, <- drop_drop.
  generalize (drop i s). clear. induction l as [|x l IH]; simpl; [lia|].
  case_match eqn:E; bprop; simpl; auto.
Qed.

Lemma skip_stars_drop s i :
  drop i s = replicate (stars (drop i s)) 42 ++ drop (skip_stars s i) s.
Proof. unfold skip_stars. rewrite <- drop_drop. apply stars_split. Qed.

Lemma skip_stars_pred s i :
  ch s i = 42 -> (i < skip_stars s i)%nat /\ ch s (pred (skip_stars s i)) = 42.
Proof.
  intros H. unfold skip_stars. rewrite <- hd0_drop in H.
  set (l := drop i s) in *.
  assert (Hk : (0 < stars l)%nat).
  { destruct l as [|x l]; simpl in *; [lia|]. subst. simpl. lia. }
  split; [lia|].
  replace (pred (i + stars l)) with (i + pred (stars l))%nat by lia.
  rewrite <- hd0_drop, <- drop_drop. fold l. rewrite (stars_split l) at 2.
  rewrite drop_app_le by (rewrite length_replicate; lia).
  rewrite drop_replicate. destruct (stars l - pred (stars l))%nat eqn:E; [lia|]. done.
Qed.

(** ** The language of masks *)
Lemma glob_drop_star m n k : glob (42 :: m) (drop k n) -> glob (42 :: m) n.
Proof.
  revert n; induction k as [|k IH]; intros [|x n]; simpl; auto.
  intros H. apply glob_eat. auto.
Qed.

Lemma glob_star_iff m n : glob (42 :: m) n <-> exists k, glob m (drop k n).
Proof.
  split.
  - intros H. remember (42 :: m) as p eqn:Ep. revert m Ep.
    induction H; intros p' Ep; simplify_eq.
    + exists 0%nat. done.
    + destruct (IHglob _ eq_refl) as [k Hk]. by exists (S k).
  - intros [k Hk]. apply (glob_drop_star _ _ k). by apply glob_skip.
Qed.

Lemma glob_star_star m n : glob (42 :: 42 :: m) n <-> glob (42 :: m) n.
Proof.
  split; [|apply glob_skip]. rewrite glob_star_iff. intros [k Hk].
  by apply glob_drop_star in Hk.
Qed.

Lemma glob_replicate_star k m n :
  glob (42 :: replicate k 42 ++ m) n <-> glob (42 :: m) n.
Proof. induction k; simpl; [done|]. rewrite glob_star_star. done. Qed.

Lemma glob_stars_nil m : glob m [] <-> m = replicate (stars m) 42.
Proof.
  split.
  - intros H. remember [] as n eqn:En. induction H; simplify_eq; [done|].
    simpl. f_equal. auto.
  - intros ->. generalize (stars m) as k. induction k; simpl; by constructor.
Qed.

Lemma glob_star_cons m x n : ~ glob m (x :: n) -> glob (42 :: m) (x :: n) <-> glob (42 :: m) n.
Proof.
  intros Hn. split; [|apply glob_eat]. intros H. inv H; done.
Qed.

(** A mask character other than a star accepts a character. *)
Definition accepts (k x : Z) : Prop := k <> 42 /\ (k = 63 \/ ToLower k = ToLower x).

Lemma glob_accepts k x m n : accepts k x -> glob (k :: m) (x :: n) <-> glob m n.
Proof.
  intros [H1 H2]. split.
  - intros H. inv H; done.
  - intros H. destruct (decide (k = 63)) as [->|]; [by apply glob_any|].
    destruct H2; [done|]. by apply glob_chr.
Qed.

Lemma glob_refuses k x m n : k <> 42 -> ~ accepts k x -> ~ glob (k :: m) (x :: n).
Proof. intros H1 H2 H. unfold accepts in H2. inv H; naive_solver. Qed.

Lemma glob_pointwise P Q m n :
  Forall2 accepts P Q -> glob (P ++ m) (Q ++ n) <-> glob m n.
Proof. intros H. induction H; simpl; [done|]. by rewrite glob_accepts. Qed.

(** A star-free prefix consumes as many characters as it has. *)
Lemma glob_prefix_length P m n :
  Forall (fun k => k <> 42) P -> glob (P ++ m) n -> glob m (drop (length P) n).
Proof.
  intros HP. revert n. induction HP as [|k P Hk HP IH]; intros n; simpl; [done|].
  intros H. inv H; simpl; auto; done.
Qed.

Lemma accepts_no_star P Q : Forall2 accepts P Q -> Forall (fun k => k <> 42) P.
Proof. intros H. induction H as [|? ? ? ? []]; constructor; auto. Qed.

Lemma glob_any_length j n : (j <= length n)%nat -> glob (42 :: replicate j 63) n.
Proof.
  intros H. apply glob_star_iff. exists (length n - j)%nat.
  assert (Hl : length (drop (length n - j) n) = j) by (rewrite length_drop; lia).
  revert Hl. generalize (drop (length n - j) n). clear. intros l <-.
  induction l; simpl; by constructor.
Qed.

(** ** The backward scan *)
Lemma back_queries_spec s i :
  (back_queries s i <= i)%nat /\
  (forall j, (back_queries s i < j <= i)%nat -> ch s j = 63).
Proof.
  induction i as [|i [IH1 IH2]]; simpl; [split; lia|].
  case_match eqn:E; bprop; split; try lia.
  intros j Hj. destruct (decide (j = S i)) as [->|]; [done|]. apply IH2. lia.
Qed.

(** When the whole tail after the last star has been consumed and the scan
    finds a star, that tail is a run of question marks. *)
Lemma back_queries_tail s mt :
  (mt <= length s)%nat -> Forall (fun k => k <> 42) (drop mt s) ->
  ch s (back_queries s (pred (length s))) = 42 ->
  drop mt s = replicate (length s - mt) 63.
Proof.
  intros Hmt Hfree Hb. destruct (back_queries_spec s (pred (length s))) as [H1 H2].
  set (b := back_queries s _) in *.
  assert (Hbmt : (b < mt)%nat \/ s = []).
  { destruct (decide (s = [])) as [->|Hne]; [by right|left].
    destruct (decide (b < mt)%nat) as [|Hn]; [done|exfalso].
    assert (Hlen : (0 < length s)%nat) by (destruct s; [done|simpl; lia]).
    rewrite Forall_lookup in Hfree.
    destruct (lookup_lt_is_Some_2 s b ltac:(lia)) as [x Hx].
    apply (Hfree (b - mt)%nat x).
    - rewrite lookup_drop. by replace (mt + (b - mt))%nat with b by lia.
    - apply ch_lookup in Hx. congruence. }
  destruct Hbmt as [Hbmt| ->]; [|by rewrite drop_nil].
  apply list_eq. intros i. rewrite lookup_drop.
  destruct (decide (i < length s - mt)%nat) as [Hi|Hi].
  - rewrite lookup_replicate_2 by done.
    destruct (lookup_lt_is_Some_2 s (mt + i) ltac:(lia)) as [x Hx].
    rewrite Hx. f_equal. apply ch_lookup in Hx. rewrite <- Hx. apply H2. lia.
  - rewrite !lookup_ge_None_2; [done|rewrite length_replicate; lia|lia].
Qed.

(** ** Correctness of match() *)
Section match_correct.
Context (mask name : list Z).
Hypothesis Hmask : plain_mask mask.
Hypothesis Hname : cstring name.

(** What has been read since the last star (or the start) is accepted
    pointwise, and the question is unchanged. *)
Record match_inv (st : mstate) : Prop := {
  mi_m : (mp st <= length mask)%nat;
  mi_n : (np st <= length name)%nat;
  mi_seg : exists P Q,
    drop (m_tmp st) mask = P ++ drop (mp st) mask /\
    drop (n_tmp st) name = Q ++ drop (np st) name /\
    Forall2 accepts P Q;
  mi_ntmp : (n_tmp st <= np st)%nat;
  mi_mtmp : (m_tmp st <= mp st)%nat;
  mi_wild : if wild st then ch mask (m_tmp st) <> 42 else m_tmp st = 0%nat;
  mi_goal : glob mask name <->
    (if wild st then glob (42 :: drop (m_tmp st) mask) (drop (n_tmp st) name)
     else glob (drop (m_tmp st) mask) (drop (n_tmp st) name)) }.

Definition match_measure (st : mstate) : nat :=
  ((length name + 1 - n_tmp st) * (2 * length mask + 4) + 2 * (length mask - mp st))%nat.

Definition match_post (r : Z) : Prop :=
  (r = 0 /\ glob mask name) \/ (r = 1 /\ ~ glob mask name).

Lemma plain_cstring : cstring mask.
Proof. eapply Forall_impl; [exact Hmask|]. by intros ? []. Qed.

Lemma plain_no_escape i : ch mask i <> 92.
Proof.
  destruct (decide (i < length mask)%nat) as [Hi|Hi].
  - destruct (lookup_lt_is_Some_2 mask i Hi) as [x Hx]. rewrite (ch_lookup _ _ _ Hx).
    unfold plain_mask in Hmask. rewrite Forall_lookup in Hmask. by apply (Hmask i x).
  - rewrite ch_ge by lia. lia.
Qed.

Lemma glob_at_segment st :
  match_inv st ->
  glob (drop (m_tmp st) mask) (drop (n_tmp st) name) <->
  glob (drop (mp st) mask) (drop (np st) name).
Proof.
  intros []. destruct mi_seg0 as (P & Q & -> & -> & HPQ). by apply glob_pointwise.
Qed.

(** Moving the start of the last segment forward by one character. *)
Lemma match_retry_ok st :
  match_inv st -> wild st = true -> (np st < length name)%nat ->
  ~ glob (drop (mp st) mask) (drop (np st) name) ->
  let st' := MState (m_tmp st) (S (n_tmp st)) (m_tmp st) (S (n_tmp st)) true in
  match_inv st' /\ (match_measure st' < match_measure st)%nat.
Proof.
  intros Hinv Hw Hlt Hno. pose proof (glob_at_segment st Hinv) as Hseg. destruct Hinv.
  rewrite Hw in *. split.
  - split; simpl; try lia; auto.
    + exists [], []. done.
    + rewrite mi_goal0.
      rewrite (drop_ch name (n_tmp st)) in Hseg |- * by lia.
      apply glob_star_cons. rewrite Hseg. done.
  - unfold match_measure; simpl. nia.
Qed.

Lemma match_refuse st :
  match_inv st -> ch mask (mp st) <> 42 -> (np st < length name)%nat ->
  ~ accepts (ch mask (mp st)) (ch name (np st)) ->
  ~ glob (drop (mp st) mask) (drop (np st) name).
Proof.
  intros Hinv Hstar Hn Hacc. rewrite (drop_ch name (np st)) by done.
  destruct (decide (mp st < length mask)%nat) as [Hm|Hm].
  - rewrite (drop_ch mask (mp st)) by done. by apply glob_refuses.
  - rewrite (drop_ge mask (mp st)) by lia. intros H. inv H.
Qed.

Lemma match_advance_ok st :
  match_inv st -> accepts (ch mask (mp st)) (ch name (np st)) ->
  (mp st < length mask)%nat -> (np st < length name)%nat ->
  match_inv (MState (S (mp st)) (S (np st)) (m_tmp st) (n_tmp st) (wild st)).
Proof.
  intros [] Hacc Hm Hn. destruct mi_seg0 as (P & Q & HP & HQ & HPQ).
  split; simpl; try lia; auto.
  exists (P ++ [ch mask (mp st)]), (Q ++ [ch name (np st)]).
  rewrite (drop_ch mask (mp st)) in HP by done.
  rewrite (drop_ch name (np st)) in HQ by done.
  rewrite HP, HQ, <- !(assoc_L (++)). split_and!; [done..|].
  apply Forall2_app; auto.
Qed.

Lemma match_compare_ok st :
  match_inv st -> ch mask (mp st) <> 42 ->
  (ch name (np st) = 0 -> ch mask (mp st) = 0) ->
  exists o, match_compare mask name st = Some o /\
    match o with
    | Ret r => match_post r
    | Next st' => match_inv st' /\
        (match_measure st' + (if (ch mask (mp st) =? 0)%Z then 0 else 1) <= match_measure st)%nat
    end.
Proof.
  intros Hinv Hstar H0. pose proof Hinv as [? ? ? ? ? ? ?].
  unfold match_compare. rewrite (rd_some mask), (rd_some name) by lia. simpl.
  pose proof (ch_0_iff mask (mp st) plain_cstring) as Hm0.
  pose proof (ch_0_iff name (np st) Hname) as Hn0.
  destruct (negb (ToLower (ch mask (mp st)) =? ToLower (ch name (np st)))
            && negb (ch mask (mp st) =? 63)) eqn:Htest.
  - bprop. assert (Hn : (np st < length name)%nat).
    { destruct (decide (np st < length name)%nat) as [|]; [done|].
      exfalso. assert (ch name (np st) = 0) by (apply Hn0; lia).
      assert (ch mask (mp st) = 0) by auto. congruence. }
    pose proof (match_refuse st Hinv Hstar Hn) as Href.
    destruct (wild st) eqn:Hw.
    + eexists; split; [done|]. destruct (match_retry_ok st Hinv Hw Hn) as [Ha Hb].
      { apply Href. intros [_ [?|?]]; congruence. }
      split; [done|]. case_match; lia.
    + eexists; split; [done|]. right. split; [done|].
      rewrite mi_goal0, glob_at_segment by done. apply Href. intros [_ [?|?]]; congruence.
  - apply andb_false_iff in Htest. rewrite !negb_false_iff, !Z.eqb_eq in Htest.
    eexists; split; [done|]. destruct (ch mask (mp st) =? 0) eqn:Em; bprop.
    + rewrite Em in Htest. assert (ch name (np st) = 0) as En.
      { destruct Htest as [Ht|]; [|lia]. by apply ToLower_0_iff. }
      rewrite En. simpl. destruct st; simpl in *. split; [done|]. lia.
    + destruct (ch name (np st) =? 0) eqn:En; bprop; [tauto|].
      split; [apply match_advance_ok; try (split; tauto); lia|].
      unfold match_measure; simpl. lia.
Qed.

Lemma skip_wild_ok st :
  match_inv st ->
  exists st', skip_wild mask st = Some st' /\
  match_inv st' /\ (match_measure st' <= match_measure st)%nat /\ ch mask (mp st') <> 42.
Proof.
  intros Hinv. pose proof Hinv as []. unfold skip_wild.
  rewrite rd_some by done. simpl. eexists; split; [done|].
  destruct (ch mask (mp st) =? 42) eqn:E; bprop; [|split; [done|split; [lia|done]]].
  pose proof (skip_stars_le mask (mp st) mi_m0) as Hle.
  pose proof (skip_stars_hd mask (mp st)) as Hhd.
  split; [|split; [unfold match_measure; simpl; nia|done]].
  split; simpl; try lia; auto.
  - exists [], []. done.
  - rewrite mi_goal0. pose proof (skip_stars_drop mask (mp st)) as Hd.
    destruct (stars (drop (mp st) mask)) as [|k] eqn:Ek.
    { rewrite <- hd0_drop in E. destruct (drop (mp st) mask) as [|x r]; simpl in *; [lia|].
      subst. simpl in Ek. lia. }
    assert (Hsame : forall n, glob (drop (mp st) mask) n <->
      glob (42 :: drop (skip_stars mask (mp st)) mask) n).
    { intros n. rewrite Hd. simpl. apply glob_replicate_star. }
    destruct (wild st); [|rewrite glob_at_segment by done; auto].
    split; [|intros H; apply glob_skip; rewrite glob_at_segment by done; by apply Hsame].
    destruct mi_seg0 as (P & Q & HP & HQ & HPQ).
    rewrite glob_star_iff. intros [k' Hk]. rewrite HP in Hk.
    apply glob_prefix_length in Hk; [|by eapply accepts_no_star].
    rewrite HQ, (Forall2_length _ _ _ HPQ), drop_drop, Nat.add_comm, <- drop_drop,
      drop_app_length in Hk.
    apply Hsame in Hk. by apply glob_drop_star in Hk.
Qed.

(** The scan over the trailing question marks decides the end of the mask. *)
Lemma ends_in_star_ok st :
  match_inv st -> mp st = length mask -> (np st < length name)%nat ->
  mask <> [] ->
  exists e, ends_in_star mask (mp st) = Some e /\ (e = true -> glob mask name).
Proof.
  intros [] Hm Hn Hne. rewrite Hm. unfold ends_in_star.
  destruct (length mask) as [|l] eqn:El; [by destruct mask|].
  eexists; split; [done|]. intros He. bprop.
  destruct mi_seg0 as (P & Q & HP & HQ & HPQ).
  rewrite Hm, (drop_ge mask (S l)), (right_id_L [] (++)) in HP by lia.
  assert (HT : drop (m_tmp st) mask = replicate (length mask - m_tmp st) 63).
  { apply back_queries_tail; [lia| |].
    - rewrite HP. by eapply accepts_no_star.
    - by rewrite El. }
  assert (Hj : (length mask - m_tmp st <= length (drop (n_tmp st) name))%nat).
  { rewrite HQ, length_app, <- (Forall2_length _ _ _ HPQ), <- HP, length_drop. lia. }
  rewrite mi_goal0, HT. destruct (wild st); [by apply glob_any_length|].
  exfalso. rewrite mi_wild0, drop_0, Nat.sub_0_r in HT.
  assert (ch mask (back_queries mask l) = 63); [|lia].
  rewrite HT. destruct (back_queries_spec mask l) as [Hb _]. unfold ch.
  apply nth_lookup_Some, lookup_replicate_2. rewrite HT in Hb. lia.
Qed.

(** Moving past the only remaining character happens with no mask left. *)
Lemma retry_at_end st :
  match_inv st -> mp st = length mask -> (np st < length name)%nat ->
  ch name (S (n_tmp st)) = 0 -> ch mask (m_tmp st) = 0.
Proof.
  intros [] Hm Hn H0. apply (ch_0_iff name _ Hname) in H0. apply ch_ge.
  destruct mi_seg0 as (P & Q & HP & HQ & HPQ).
  apply (f_equal length) in HP, HQ. rewrite length_app, !length_drop in HP, HQ.
  apply Forall2_length in HPQ. lia.
Qed.

(** With the name exhausted, a mask that goes on with a plain character fails. *)
Lemma name_exhausted st :
  match_inv st -> ch mask (mp st) <> 42 -> (mp st < length mask)%nat ->
  np st = length name -> ~ glob mask name.
Proof.
  intros Hinv Hstar Hm Hn. pose proof (glob_at_segment st Hinv) as Hseg.
  destruct Hinv as [_ _ (P & Q & HP & HQ & HPQ) _ _ _ Hgoal]. rewrite Hgoal.
  assert (Hno : ~ glob (drop (mp st) mask) []).
  { rewrite drop_ch by done. intros H. inv H; done. }
  rewrite (drop_ge name (np st)) in Hseg, HQ by lia.
  destruct (wild st); [|by rewrite Hseg].
  rewrite glob_star_iff. intros [k Hk]. rewrite HP in Hk.
  apply glob_prefix_length in Hk; [|by eapply accepts_no_star].
  rewrite HQ, (right_id_L [] (++)), drop_drop, (drop_ge Q) in Hk; [done|].
  rewrite (Forall2_length _ _ _ HPQ). lia.
Qed.

Lemma match_step_ok st :
  (mask <> [] \/ name = []) -> match_inv st ->
  exists o, match_step mask name st = Some o /\
    match o with
    | Ret r => match_post r
    | Next st' => match_inv st' /\ (match_measure st' < match_measure st)%nat
    end.
Proof.
  intros Hne Hinv0. unfold match_step.
  destruct (skip_wild_ok st Hinv0) as (s & -> & Hinv & Hle & Hstar). simpl.
  rewrite (rd_some mask) by apply Hinv. simpl.
  pose proof (plain_no_escape (mp s)) as Hesc.
  destruct (ch mask (mp s) =? 92) eqn:E92; bprop; [done|]. clear E92.
  replace (MState (mp s) (np s) (m_tmp s) (n_tmp s) (wild s)) with s by (by destruct s).
  rewrite (rd_some mask), (rd_some name) by apply Hinv. simpl.
  pose proof Hinv as [Hm Hn _ _ _ _ Hgoal].
  pose proof (ch_0_iff mask (mp s) plain_cstring) as Hm0.
  pose proof (ch_0_iff name (np s) Hname) as Hn0.
  destruct (ch mask (mp s) =? 0) eqn:Em; bprop.
  - assert (Hme : mp s = length mask) by (apply Hm0 in Em; lia).
    destruct (ch name (np s) =? 0) eqn:En; bprop.
    + eexists; split; [done|]. left. split; [done|]. rewrite Hgoal.
      assert (glob (drop (m_tmp s) mask) (drop (n_tmp s) name)).
      { apply glob_at_segment; [done|]. apply Hn0 in En.
        rewrite (drop_ge mask), (drop_ge name) by lia. constructor. }
      destruct (wild s); [by apply glob_skip|done].
    + assert (Hlt : (np s < length name)%nat).
      { destruct (decide (np s < length name)%nat) as [|]; [done|].
        exfalso. apply En, Hn0. lia. }
      destruct (ends_in_star_ok s Hinv Hme Hlt) as (e & -> & He).
      { destruct Hne as [| ->]; [done|]. simpl in Hlt; lia. }
      simpl. destruct e; [eexists; split; [done|left; auto]|].
      assert (Hno : ~ glob (drop (mp s) mask) (drop (np s) name)).
      { rewrite (drop_ge mask) by lia. rewrite (drop_ch name) by done. intros H; inv H. }
      destruct (wild s) eqn:Hw.
      * destruct (match_retry_ok s Hinv Hw Hlt Hno) as [Hinv' Hlt'].
        destruct (match_compare_ok _ Hinv') as (o & Ho & Hpost).
        -- simpl. pose proof (mi_wild _ Hinv') as H. done.
        -- by apply retry_at_end.
        -- rewrite Ho. eexists; split; [done|]. destruct o; [|done].
           destruct Hpost as [? Hpost]. split; [done|]. revert Hpost. case_match; lia.
      * eexists; split; [done|]. right. split; [done|]. rewrite Hgoal. by rewrite (glob_at_segment s Hinv).
  - assert (Hml : (mp s < length mask)%nat).
    { destruct (decide (mp s < length mask)%nat) as [|]; [done|]. exfalso. apply Em, Hm0. lia. }
    destruct (ch name (np s) =? 0) eqn:En; bprop.
    + assert (Hskip : skip_stars mask (mp s) = mp s).
      { unfold skip_stars. rewrite drop_ch by done. cbn [stars].
        rewrite (proj2 (Z.eqb_neq _ _) Hstar). lia. }
      rewrite Hskip, (proj2 (Z.eqb_neq _ _) Em). simpl.
      eexists; split; [done|]. right. split; [done|].
      apply (name_exhausted s); [done..|]. apply Hn0 in En. lia.
    + destruct (match_compare_ok s Hinv Hstar) as (o & -> & Hpost); [done|].
      eexists; split; [done|]. destruct o; [|done].
      destruct Hpost as [? Hpost]. split; [done|].
      rewrite (proj2 (Z.eqb_neq _ _) Em) in Hpost. lia.
Qed.

End match_correct.

Lemma match_init_inv mask name : match_inv mask name match_init.
Proof. split; simpl; try lia; try done. exists [], []. done. Qed.

Lemma match_decides mask name :
  plain_mask mask -> cstring name -> (mask <> [] \/ name = []) ->
  exists r, ircd_match mask name = Some (Some r) /\ match_post mask name r.
Proof.
  intros Hm Hn Hne. unfold ircd_match.
  apply (loop_total _ (match_inv mask name) (match_measure mask name)).
  - intros s Hs. by apply match_step_ok.
  - apply match_init_inv.
  - unfold match_measure, match_fuel; simpl. nia.
Qed.

(** An empty mask and a name. *)
Lemma match_empty_mask name : cstring name -> name <> [] -> ircd_match [] name = None.
Proof.
  intros Hn Hne. destruct Hn as [|x name Hx _]; [done|].
  unfold ircd_match. destruct (match_fuel [] (x :: name)) as [|f] eqn:Ef.
  { unfold match_fuel in Ef. simpl in Ef. lia. }
  cbn [loop]. assert (Hstep : match_step [] (x :: name) match_init = None); [|by rewrite Hstep].
  assert (R0 : rd [] 0 = Some 0) by done.
  unfold match_step, skip_wild, match_init. cbn [mp]. rewrite R0. simpl.
  change (ch (x :: name) 0) with x. destruct Hx. by rewrite (proj2 (Z.eqb_neq x 0)) by lia.
Qed.

(** C32: on a mask without a backslash, and unless the mask is empty and the name is
    not, match() returns without reading outside either string, and returns 0
    exactly when the name is in the language of the mask and 1 otherwise; for the
    empty mask and a name it reads the byte before the mask. *)
Theorem match_correct mask name :
  plain_mask mask -> cstring name ->
  (mask <> [] \/ name = [] ->
   (ircd_match mask name = Some (Some 0) <-> glob mask name) /\
   (ircd_match mask name = Some (Some 1) <-> ~ glob mask name)) /\
  (mask = [] -> name <> [] -> ircd_match mask name = None).
Proof.
  intros Hm Hn. split.
  - intros Hne. destruct (match_decides mask name Hm Hn Hne) as (r & -> & [[Hr H]|[Hr H]]);
      subst r; split; split; intros H'; try done.
  - intros -> Hne. by apply match_empty_mask.
Qed.

(** ** collapse() *)

(** Masks with the same language. *)
Definition glob_equiv (a b : list Z) : Prop := forall n, glob a n <-> glob b n.

#[export] Instance glob_equiv_equivalence : Equivalence glob_equiv.
Proof.
  unfold glob_equiv. split; [done|by intros a b H n|]. intros a b d H1 H2 n.
  by rewrite H1.
Qed.

#[export] Instance glob_cons_proper k : Proper (glob_equiv ==> glob_equiv) (cons k).
Proof.
  assert (Himp : forall a b n, (forall n, glob a n <-> glob b n) ->
                 glob (k :: a) n -> glob (k :: b) n).
  { intros a b n H Hg. remember (k :: a) as p eqn:Ep. induction Hg; inv Ep.
    - apply glob_skip. by apply H.
    - apply glob_eat. by apply IHHg.
    - apply glob_any. by apply H.
    - apply glob_chr; auto. by apply H. }
  intros a b H n. split; apply Himp; [done|]. intros n'. by rewrite (H n').
Qed.

Lemma glob_query_inv m n : glob (63 :: m) n -> exists x n', n = x :: n' /\ glob m n'.
Proof. intros H. inv H; try done. eauto. Qed.

Lemma glob_star_inv m n :
  glob (42 :: m) n -> glob m n \/ exists x n', n = x :: n' /\ glob (42 :: m) n'.
Proof. intros H. inv H; try done; eauto. Qed.

Lemma glob_star_query m : glob_equiv (63 :: 42 :: m) (42 :: 63 :: m).
Proof.
  intros n. split.
  - intros (x & n' & -> & H)%glob_query_inv. revert x H. induction n' as [|y n' IH]; intros x H.
    + apply glob_star_inv in H as [H|(? & ? & ? & _)]; [by apply glob_skip, glob_any|done].
    + apply glob_star_inv in H as [H|(z & n & [= <- <-] & H)];
        [by apply glob_skip, glob_any|]. apply glob_eat. auto.
  - induction n as [|x n IH]; intros [H|(z & n1 & E & H)]%glob_star_inv; try done.
    + by apply glob_query_inv in H as (? & ? & ? & _).
    + apply glob_query_inv in H as (y & n' & [= <- <-] & H). by apply glob_any, glob_skip.
    + simplify_eq. apply IH in H. apply glob_query_inv in H as (y & n' & -> & H').
      by apply glob_any, glob_eat.
Qed.

Lemma glob_stars_collapse m : glob_equiv (42 :: 42 :: m) (42 :: m).
Proof. intros n. apply glob_star_star. Qed.

Lemma collapse_tail_plain star x r :
  x <> 92 ->
  collapse_tail star (x :: r) =
    if x =? 42 then collapse_tail true r
    else if star && negb (x =? 63) then 42 :: x :: collapse_tail false r
    else x :: collapse_tail star r.
Proof.
  intros Hx. cbn [collapse_tail]. unfold escapes.
  rewrite (proj2 (Z.eqb_neq _ _) Hx). simpl.
  destruct (x =? 42), (x =? 63), star, r; done.
Qed.

Lemma collapse_plain x r :
  x <> 92 ->
  collapse (x :: r) =
    if (x =? 42) && ((hd0 r =? 42) || (hd0 r =? 63)) then collapse_tail false (x :: r)
    else x :: collapse r.
Proof.
  intros Hx. cbn [collapse]. unfold escapes. rewrite (proj2 (Z.eqb_neq _ _) Hx).
  destruct (_ && _); [done|]. destruct r; done.
Qed.

Lemma collapse_tail_equiv star m :
  plain_mask m -> glob_equiv (collapse_tail star m) (if star then 42 :: m else m).
Proof.
  intros Hm. revert star. induction Hm as [|x r [_ Hx] Hm IH]; intros star.
  - by destruct star.
  - rewrite collapse_tail_plain by done. destruct (x =? 42) eqn:E; bprop.
    + subst. rewrite IH. destruct star; [|done]. by rewrite glob_stars_collapse.
    + destruct star; simpl; [|by rewrite IH].
      destruct (x =? 63) eqn:E'; bprop; simpl.
      * subst. rewrite IH. apply glob_star_query.
      * by rewrite IH.
Qed.

Lemma collapse_equiv m : plain_mask m -> glob_equiv (collapse m) m.
Proof.
  induction 1 as [|x r [Hx0 Hx] Hm IH]; [done|]. rewrite collapse_plain by done.
  destruct (_ && _).
  - apply (collapse_tail_equiv false). constructor; auto.
  - by rewrite IH.
Qed.

Lemma collapse_tail_length star m :
  plain_mask m ->
  (length (collapse_tail star m) <= length m + (if star then 1 else 0))%nat.
Proof.
  intros Hm. revert star. induction Hm as [|x r [_ Hx] Hm IH]; intros star.
  - by destruct star.
  - rewrite collapse_tail_plain by done.
    destruct (x =? 42); [specialize (IH true); destruct star; simpl in *; lia|].
    pose proof (IH false). pose proof (IH true).
    destruct star, (x =? 63); simpl in *; lia.
Qed.

Lemma collapse_length m : plain_mask m -> (length (collapse m) <= length m)%nat.
Proof.
  induction 1 as [|x r [Hx0 Hx] Hm IH]; [done|]. rewrite collapse_plain by done.
  destruct (_ && _); [|simpl; lia].
  pose proof (collapse_tail_length false (x :: r) ltac:(constructor; auto)). simpl in *. lia.
Qed.

(** No star is followed by a wildcard. *)
Fixpoint canonical (m : list Z) : Prop :=
  match m with
  | [] => True
  | x :: r => ~ (x = 42 /\ (hd0 r = 42 \/ hd0 r = 63)) /\ canonical r
  end.

Lemma collapse_tail_canonical star m : plain_mask m -> canonical (collapse_tail star m).
Proof.
  intros Hm. revert star. induction Hm as [|x r [_ Hx] Hm IH]; intros star.
  - destruct star; simpl; [|done]. split; [lia|done].
  - rewrite collapse_tail_plain by done. destruct (x =? 42) eqn:E; bprop; [done|].
    destruct (star && negb (x =? 63)) eqn:E'; simpl; bprop; split_and!; auto; try lia; intros [? [?|?]]; lia.
Qed.

Lemma collapse_canonical m : plain_mask m -> canonical (collapse m).
Proof.
  induction 1 as [|x r [Hx0 Hx] Hm IH]; [done|]. rewrite collapse_plain by done.
  destruct (_ && _) eqn:E; [apply collapse_tail_canonical; constructor; auto|].
  split; [|done]. intros [-> Hwild]. simpl in E. apply orb_false_iff in E as [E1 E2].
  bprop. destruct Hm as [|y r [Hy0 Hy] Hm]; simpl in *; [lia|].
  destruct r as [|z r]; cbn [collapse] in Hwild; unfold escapes in Hwild;
    rewrite (proj2 (Z.eqb_neq _ _) E1) in Hwild; simpl in Hwild; [lia|].
  rewrite (proj2 (Z.eqb_neq _ _) Hy) in Hwild. simpl in Hwild. lia.
Qed.

Lemma collapse_of_canonical m : plain_mask m -> canonical m -> collapse m = m.
Proof.
  induction 1 as [|x r [Hx0 Hx] Hm IH]; [done|]. intros [H1 H2].
  rewrite collapse_plain by done. destruct (_ && _) eqn:E; [|f_equal; auto].
  bprop. subst. apply orb_true_iff in H0. rewrite !Z.eqb_eq in H0. tauto.
Qed.

Lemma collapse_tail_chars star m : plain_mask m -> plain_mask (collapse_tail star m).
Proof.
  intros Hm. revert star. induction Hm as [|x r [Hx0 Hx] Hm IH]; intros star.
  - destruct star; [|constructor]. constructor; [|constructor]. unfold is_char; lia.
  - rewrite collapse_tail_plain by done. destruct (x =? 42); [apply IH|].
    destruct (_ && _); repeat (constructor; [unfold is_char in *; lia|]); apply IH.
Qed.

Lemma collapse_chars m : plain_mask m -> plain_mask (collapse m).
Proof.
  intros Hm0. induction Hm0 as [|x r [Hx0 Hx] Hm IH]; [constructor|]. rewrite collapse_plain by done.
  destruct (_ && _); [apply collapse_tail_chars; constructor; auto|]. constructor; auto.
Qed.

(** Collapse() keeps the language of a mask without a backslash, never
    lengthens it, leaves no star next to a wildcard on its right, and collapsing
    twice is collapsing once. *)
Theorem collapse_preserves m :
  plain_mask m ->
  (forall name, glob (collapse m) name <-> glob m name) /\
  (length (collapse m) <= length m)%nat /\
  canonical (collapse m) /\
  collapse (collapse m) = collapse m.
Proof.
  intros Hm. split; [by apply collapse_equiv|]. split; [by apply collapse_length|].
  split; [by apply collapse_canonical|].
  apply collapse_of_canonical; [by apply collapse_chars|by apply collapse_canonical].
Qed.

(** ** Backslashes *)

(** Match() reads past the end of the name for the mask of a star and a
    trailing backslash, against every one-character name, and before the start of
    the mask for the empty mask against any non-empty name. *)
Theorem match_out_of_bounds x name :
  is_char x -> cstring name ->
  ircd_match [42; 92] [x] = None /\ ircd_match [] (x :: name) = None.
Proof.
  intros Hx Hname. split.
  - revert Hx. destruct (decide (0 <= x < 256)) as [H|H]; [|unfold is_char; lia]. revert x H.
    apply (all_codes (fun x => is_char x -> ircd_match [42; 92] [x] = None)
      (fun x => (x =? 0) || bool_decide (ircd_match [42; 92] [x] = None))).
    + intros x [E|E]%orb_true_iff Hx; bprop; [unfold is_char in Hx; lia|].
      by apply bool_decide_eq_true in E.
    + vm_compute. reflexivity.
  - apply match_empty_mask; [by constructor|done].
Qed.

(** An escaped question mark accepts any character, and an escaped star at the
    end of the mask accepts any continuation. *)
Lemma match_escaped_wildcards x :
  is_char x ->
  ircd_match [92; 63] [x] = Some (Some 0) /\
  ircd_match (lit "a\*") (lit "a*bc") = Some (Some 0).
Proof.
  intros Hx. split; [|done].
  revert Hx. destruct (decide (0 <= x < 256)) as [H|H]; [|unfold is_char; lia]. revert x H.
  apply (all_codes (fun x => is_char x -> ircd_match [92; 63] [x] = Some (Some 0))
    (fun x => (x =? 0) || bool_decide (ircd_match [92; 63] [x] = Some (Some 0)))).
  - intros x [E|E]%orb_true_iff Hx; bprop; [unfold is_char in Hx; lia|].
    by apply bool_decide_eq_true in E.
  - vm_compute. reflexivity.
Qed.

(** ** Witnesses *)
Definition mask1 : list Z := lit "*!?x*@*.Org".
Definition name1 : list Z := lit "nick!yxz@irc.ORG".

Lemma match_correct_witness :
  plain_mask mask1 /\ cstring name1 /\ glob mask1 name1.
Proof.
  assert (Hm : plain_mask mask1) by by_decide.
  assert (Hn : cstring name1) by by_decide.
  split; [done|split; [done|]].
  destruct (match_correct mask1 name1 Hm Hn) as [H _].
  apply H; [left; done|]. vm_compute. reflexivity.
Defined.

Lemma collapse_preserves_witness :
  (forall name, glob (collapse (lit "a**?b?*")) name <-> glob (lit "a**?b?*") name) /\
  (length (collapse (lit "a**?b?*")) <= length (lit "a**?b?*"))%nat /\
  canonical (collapse (lit "a**?b?*")) /\
  collapse (collapse (lit "a**?b?*")) = collapse (lit "a**?b?*").
Proof. apply collapse_preserves. by_decide. Defined.

Lemma match_out_of_bounds_witness :
  ircd_match [42; 92] [97] = None /\ ircd_match [] [97] = None.
Proof. apply (match_out_of_bounds 97 []); [unfold is_char; lia|constructor]. Defined.
