(* ===== verification/MaskOrder.v ===== *)
(** * ircd/match.c: what mmatch() decides

    A wider mask reads a narrower one as a text over characters, question marks
    and stars, where a star of the narrower mask is only read by a star.
    [mmatch_decides] says that the function with its one pair of pointers to go
    back to decides this relation, up to one liberty it takes with masks that
    end in a star and question marks; [order] is a preorder of masks, and a mask
    above another one matches every name the other one matches. *)
From S2P Require Import Prelude Chattr Match.

(** The symbol of an old mask that accepts the symbol of a new one. *)
Definition maccepts (k x : Z) : Prop :=
  k <> 42 /\ (ToLower k = ToLower x \/ k = 63 /\ x <> 42).

Inductive reads : list Z -> list Z -> Prop :=
| reads_end : reads [] []
| reads_skip m n : reads m n -> reads (42 :: m) n
| reads_eat m x n : reads (42 :: m) n -> reads (42 :: m) (x :: n)
| reads_one k x m n : maccepts k x -> reads m n -> reads (k :: m) (x :: n).

(** Does the mask end in a star and question marks, the star not being its first
    character? *)
Definition open_end (m : list Z) : bool :=
  let b := back_queries m (pred (length m)) in (ch m b =? 42) && (0 <? b)%nat.
Definition opened (m : list Z) : list Z := if open_end m then m ++ [42] else m.

(** The order of masks. *)
Definition order (a b : list Z) : Prop := reads (opened a) b.

(** ** The relation *)
Lemma maccepts_no_star k x : maccepts k x -> x <> 42.
Proof.
  intros [H1 [H2|[_ H2]]]; [|done]. intros ->. apply H1. by apply (ToLower_fixed 42); auto.
Qed.

Lemma maccepts_query k : maccepts k 63 -> k = 63.
Proof.
  intros [_ [H|[H _]]]; [|done]. rewrite ToLower_query in H. by apply (ToLower_fixed 63) in H; auto.
Qed.

Lemma maccepts_trans k x y : maccepts k x -> maccepts x y -> maccepts k y.
Proof.
  intros Hk Hx. pose proof (maccepts_no_star _ _ Hx) as Hy. pose proof (maccepts_query k) as Hq.
  destruct Hk as [Hk [E|[-> _]]]; [|by split; auto]. split; [done|].
  destruct Hx as [_ [E'|[-> _]]]; [left; congruence|]. right. split; [|done]. apply Hq. split; auto.
Qed.

Lemma maccepts_refl x : x <> 42 -> maccepts x x.
Proof. split; auto. Qed.

Lemma reads_refl m : reads m m.
Proof.
  induction m as [|x m IH]; [constructor|]. destruct (decide (x = 42)) as [->|].
  - by apply reads_eat, reads_skip.
  - by apply reads_one; [apply maccepts_refl|].
Qed.

Lemma reads_drop_star m n k : reads (42 :: m) (drop k n) -> reads (42 :: m) n.
Proof.
  revert n; induction k as [|k IH]; intros [|x n]; simpl; auto. intros H. apply reads_eat. auto.
Qed.

Lemma reads_star_iff m n : reads (42 :: m) n <-> exists k, reads m (drop k n).
Proof.
  split.
  - intros H. remember (42 :: m) as p eqn:Ep. revert m Ep.
    induction H as [|m n H _|m x n H IH|k x m n Hk H _]; intros p Ep; simplify_eq.
    + by exists 0%nat.
    + destruct (IH _ eq_refl) as [k Hk]. by exists (S k).
    + by destruct Hk.
  - intros [k Hk]. apply (reads_drop_star _ _ k). by apply reads_skip.
Qed.

Lemma reads_star_star m n : reads (42 :: 42 :: m) n <-> reads (42 :: m) n.
Proof.
  split; [|apply reads_skip]. rewrite reads_star_iff. intros [k Hk]. by apply reads_drop_star in Hk.
Qed.

Lemma reads_replicate_star k m n : reads (42 :: replicate k 42 ++ m) n <-> reads (42 :: m) n.
Proof. induction k; simpl; [done|]. by rewrite reads_star_star. Qed.

Lemma reads_star_cons m x n : ~ reads m (x :: n) -> reads (42 :: m) (x :: n) <-> reads (42 :: m) n.
Proof. intros Hn. split; [|apply reads_eat]. intros H. by inv H; try match goal with H : maccepts _ _ |- _ => destruct H end. Qed.

Lemma reads_one_iff k x m n : k <> 42 -> reads (k :: m) (x :: n) <-> maccepts k x /\ reads m n.
Proof. intros Hk. split; [intros H; by inv H|]. intros []. by apply reads_one. Qed.

Lemma reads_cons_nil k m : k <> 42 -> ~ reads (k :: m) [].
Proof. intros Hk H. by inv H. Qed.

Lemma reads_pointwise P Q m n : Forall2 maccepts P Q -> reads (P ++ m) (Q ++ n) <-> reads m n.
Proof.
  intros H. induction H as [|k x P Q Hk H IH]; simpl; [done|]. rewrite reads_one_iff by apply Hk. tauto.
Qed.

Lemma maccepts_stars P Q : Forall2 maccepts P Q -> Forall (fun k => k <> 42) P.
Proof. intros H. induction H as [|? ? ? ? []]; constructor; auto. Qed.

Lemma reads_prefix_length P m n :
  Forall (fun k => k <> 42) P -> reads (P ++ m) n -> reads m (drop (length P) n).
Proof.
  intros HP. revert n. induction HP as [|k P Hk HP IH]; intros n; simpl; [done|].
  intros H. inv H; simpl; auto; done.
Qed.

Lemma reads_trans a b c : reads a b -> reads b c -> reads a c.
Proof.
  intros H. revert c. induction H as [|m n H IH|m x n H IH|k x m n Hk H IH]; intros c Hc.
  - done.
  - by apply reads_skip, IH.
  - destruct (decide (x = 42)) as [->|].
    + rewrite reads_star_iff in Hc. destruct Hc as [j Hj]. by apply (reads_drop_star _ _ j), IH.
    + inv Hc; [done..|]. by apply reads_eat, IH.
  - pose proof (maccepts_no_star _ _ Hk). inv Hc; [done..|]. apply reads_one; [|by apply IH].
    by eapply maccepts_trans.
Qed.

Lemma reads_snoc_star m n r : reads (m ++ [42]) n -> reads (m ++ [42]) (n ++ r).
Proof.
  intros H. remember (m ++ [42]) as p eqn:Ep. revert m Ep.
  induction H as [|p n H IH|p x n H IH|k x p n Hk H IH]; intros m Ep.
  - by destruct m.
  - destruct m as [|y m]; simplify_eq/=.
    + inv H. apply reads_star_iff. exists (length r). rewrite drop_ge by done. constructor.
    + apply reads_skip. by eapply IH.
  - apply reads_eat. by eapply IH.
  - destruct m as [|y m]; simplify_eq/=; [by destruct Hk|]. apply reads_one; [done|]. by eapply IH.
Qed.

Lemma reads_extend m n : reads m n -> reads (m ++ [42]) n.
Proof.
  induction 1; simpl; [apply reads_skip; constructor|by apply reads_skip|by apply reads_eat|by apply reads_one].
Qed.

Lemma reads_lower m m' n : map ToLower m = map ToLower m' -> reads m n -> reads m' n.
Proof.
  intros E H. revert m' E.
  assert (Hs : forall y, ToLower 42 = ToLower y -> y = 42).
  { intros y Hy. apply (ToLower_fixed 42); [auto|]. by rewrite <- Hy. }
  induction H as [|m n H IH|m x n H IH|k x m n Hk H IH]; intros [|y m'] E; try done.
  - constructor.
  - injection E as E1%Hs E2. subst. by apply reads_skip, IH.
  - pose proof E as E'. injection E' as E1%Hs _. subst. by apply reads_eat, IH.
  - injection E as E1 E2. apply reads_one; [|by apply IH]. destruct Hk as [Hk Hkx]. split.
    + intros ->. apply Hk, Hs. done.
    + destruct Hkx as [?|[-> ?]]; [left; congruence|]. right. split; [|done].
      apply (ToLower_fixed 63); [auto|]. by rewrite <- E1, ToLower_query.
Qed.

(** ** The names a mask matches *)
Definition covers (m n : list Z) : Prop := forall s, glob n s -> glob m s.

Lemma maccepts_covers k x m n : maccepts k x -> covers m n -> covers (k :: m) (x :: n).
Proof.
  intros Hk H s Hs. pose proof (maccepts_no_star _ _ Hk) as Hx. pose proof (maccepts_query k) as Hq.
  destruct (decide (x = 63)) as [->|].
  - rewrite (Hq Hk). inv Hs; try done. apply glob_any. auto.
  - inv Hs; try done. destruct (decide (k = 63)) as [->|]; [apply glob_any; auto|].
    destruct Hk as [Hk [Hkx|[? _]]]; [|done]. apply glob_chr; auto. congruence.
Qed.

Lemma covers_star_cons m x n : covers (42 :: m) n -> covers (42 :: m) (x :: n).
Proof.
  intros H s Hs. assert (exists k, glob n (drop k s)) as [k Hk].
  { clear H. remember (x :: n) as p eqn:Ep. induction Hs; simplify_eq.
    - by exists 0%nat.
    - destruct (IHHs eq_refl) as [k Hk]. by exists (S k).
    - by exists 1%nat.
    - by exists 1%nat. }
  by apply (glob_drop_star _ _ k), H.
Qed.

Lemma reads_covers m n : reads m n -> covers m n.
Proof.
  induction 1.
  - by intros s.
  - intros s Hs. by apply glob_skip, IHreads.
  - by apply covers_star_cons.
  - by apply maccepts_covers.
Qed.

(** A run of question marks and stars after a star matches from its length on. *)
Lemma star_queries_end j s : glob (42 :: replicate j 63 ++ [42]) s -> glob (42 :: replicate j 63) s.
Proof.
  rewrite !glob_star_iff. intros [k Hk].
  assert (Hl : (j <= length (drop k s))%nat).
  { revert Hk. generalize (drop k s) as r. clear. induction j as [|j IH]; intros r H; simpl; [lia|].
    inv H; simpl; try done; apply le_n_S; auto. }
  rewrite length_drop in Hl. exists (length s - j)%nat.
  assert (Hd : length (drop (length s - j) s) = j) by (rewrite length_drop; lia).
  revert Hd. generalize (drop (length s - j) s) as r. clear. intros r <-. induction r; simpl; by constructor.
Qed.

Lemma glob_prefix P m m' s : (forall s, glob m s -> glob m' s) -> glob (P ++ m) s -> glob (P ++ m') s.
Proof.
  intros Hm. revert s. induction P as [|x P IH]; intros s; simpl; [auto|].
  intros H. remember (x :: P ++ m) as p eqn:Ep. induction H; simplify_eq.
  - by apply glob_skip, IH.
  - by apply glob_eat, IHglob.
  - by apply glob_any, IH.
  - apply glob_chr; auto.
Qed.

(** ** The end of a mask *)
Lemma replicate_ch (l : list Z) (x : Z) : (forall i, (i < length l)%nat -> ch l i = x) -> l = replicate (length l) x.
Proof.
  intros H. apply list_eq. intros i. destruct (decide (i < length l)%nat) as [Hi|Hi].
  - rewrite lookup_replicate_2 by done. destruct (lookup_lt_is_Some_2 l i Hi) as [y Hy].
    rewrite Hy. f_equal. rewrite <- (ch_lookup _ _ _ Hy). auto.
  - rewrite !lookup_ge_None_2; [done|rewrite length_replicate; lia|lia].
Qed.

Lemma back_queries_run P c j : c <> 63 ->
  back_queries (P ++ c :: replicate j 63) (length P + j) = length P.
Proof.
  intros Hc. assert (Hch : forall i, ch (P ++ c :: replicate j 63) (length P + i) = ch (c :: replicate j 63) i).
  { intros i. rewrite <- hd0_drop, <- drop_drop, drop_app_length. apply hd0_drop. }
  assert (forall i, (i <= j)%nat -> back_queries (P ++ c :: replicate j 63) (length P + i) = length P) as H; [|by apply H].
  induction i as [|i IH]; intros Hi.
  - specialize (Hch 0%nat). rewrite Nat.add_0_r in *. destruct (length P) as [|n] eqn:E; [done|].
    cbn [back_queries]. rewrite Hch. cbn. by rewrite (proj2 (Z.eqb_neq _ _)) by done.
  - replace (length P + S i)%nat with (S (length P + i)) by lia. cbn [back_queries].
    replace (S (length P + i)) with (length P + S i)%nat at 1 by lia. rewrite Hch.
    assert (ch (c :: replicate j 63) (S i) = 63) as ->; [|rewrite Z.eqb_refl; apply IH; lia].
    unfold ch. cbn [nth]. apply nth_lookup_Some, lookup_replicate_2. lia.
Qed.

Lemma open_end_spec m : open_end m = true <-> exists P j, P <> [] /\ m = P ++ 42 :: replicate j 63.
Proof.
  unfold open_end. split.
  - rewrite andb_true_iff, Z.eqb_eq, Nat.ltb_lt. intros [Hch H0]. destruct (back_queries_spec m (pred (length m))) as [Hb Hq].
    set (b := back_queries m (pred (length m))) in *.
    assert (Hlt : (b < length m)%nat) by lia.
    exists (take b m), (length m - S b)%nat. split.
    + intros E. apply (f_equal length) in E. rewrite length_take in E. simpl in E. lia.
    + rewrite <- (take_drop b m) at 1. f_equal. rewrite drop_ch by done. f_equal; [done|].
      rewrite <- length_drop. apply replicate_ch. intros i Hi. rewrite length_drop in Hi.
      rewrite <- hd0_drop, drop_drop, hd0_drop. apply Hq. lia.
  - intros (P & j & HP & ->). rewrite length_app. cbn [length]. rewrite length_replicate.
    replace (pred (length P + S j)) with (length P + j)%nat by lia.
    rewrite (back_queries_run P 42 j) by done.
    assert (ch (P ++ 42 :: replicate j 63) (length P) = 42) as ->.
    { rewrite <- hd0_drop, drop_app_length. done. }
    destruct P; done.
Qed.

Lemma open_end_lower m m' : map ToLower m = map ToLower m' -> open_end m = open_end m'.
Proof.
  intros E. assert (Hlen : length m = length m') by (apply (f_equal length) in E; by rewrite !length_map in E).
  assert (Hch : forall i, ToLower (ch m i) = ToLower (ch m' i)).
  { intros i. destruct (decide (i < length m)%nat).
    - destruct (lookup_lt_is_Some_2 m i) as [x Hx]; [done|]. destruct (lookup_lt_is_Some_2 m' i) as [y Hy]; [lia|].
      rewrite (ch_lookup _ _ _ Hx), (ch_lookup _ _ _ Hy).
      apply (f_equal (.!! i)) in E. rewrite !list_lookup_fmap, Hx, Hy in E. by injection E.
    - by rewrite !ch_ge by lia. }
  assert (Heq : forall i c, c = 42 \/ c = 63 -> (ch m i =? c) = (ch m' i =? c)).
  { intros i c Hc. apply Bool.eq_iff_eq_true. rewrite !Z.eqb_eq.
    assert (Hf : forall x, ToLower x = c <-> x = c).
    { intros x. split; [apply ToLower_fixed; tauto|]. intros ->. by destruct Hc as [-> | ->]. }
    rewrite <- (Hf (ch m i)), <- (Hf (ch m' i)), Hch. done. }
  assert (Hb : forall i, back_queries m i = back_queries m' i).
  { induction i as [|i IH]; [done|]. cbn [back_queries]. rewrite Heq by auto. by rewrite IH. }
  unfold open_end. rewrite Hlen, Hb, Heq by auto. done.
Qed.

Lemma opened_lower m m' : map ToLower m = map ToLower m' -> map ToLower (opened m) = map ToLower (opened m').
Proof. intros E. unfold opened. rewrite (open_end_lower _ _ E). case_match; [|done]. by rewrite !map_app, E. Qed.

Lemma opened_covers m : covers m (opened m).
Proof.
  intros s Hs. unfold opened in Hs. destruct (open_end m) eqn:E; [|done].
  apply open_end_spec in E as (P & j & _ & ->). rewrite <- app_assoc in Hs. cbn [app] in Hs.
  revert Hs. apply glob_prefix. apply star_queries_end.
Qed.

(** ** The preorder *)

(** A mask that names something: it is not a star and question marks only. *)
Definition specific (m : list Z) : Prop := exists x, x ∈ m /\ x <> 42 /\ x <> 63.

#[export] Instance specific_dec m : Decision (specific m).
Proof.
  refine (cast_if (decide (Exists (fun x => x <> 42 /\ x <> 63) m))); unfold specific; rewrite <- Exists_exists; done.
Defined.

Lemma order_refl m : order m m.
Proof.
  unfold order, opened. case_match; [apply reads_extend|]; apply reads_refl.
Qed.

Lemma order_lower a a' b : map ToLower a = map ToLower a' -> order a b -> order a' b.
Proof. intros E. unfold order. apply reads_lower. by apply opened_lower. Qed.

Lemma order_same a b : map ToLower a = map ToLower b -> order a b.
Proof. intros E. apply (order_lower b); [done|]. apply order_refl. Qed.

(** What reads a star at the end of a mask. *)
Lemma reads_wild m j : reads m (replicate j 63) -> Forall (fun x => x = 42 \/ x = 63) m.
Proof.
  intros H. remember (replicate j 63) as n eqn:En. revert j En.
  induction H as [|m n H IH|m x n H IH|k x m n Hk H IH]; intros j En.
  - constructor.
  - constructor; [by left|by eapply IH].
  - destruct j as [|j]; simplify_eq/=. by eapply IH.
  - destruct j as [|j]; simplify_eq/=. constructor; [right; by apply maccepts_query|by eapply IH].
Qed.

Lemma star_reader m P j : reads m (P ++ 42 :: replicate j 63) ->
  exists A W, m = A ++ 42 :: W /\ Forall (fun x => x = 42 \/ x = 63) W.
Proof.
  intros H. remember (P ++ 42 :: replicate j 63) as n eqn:En. revert P En.
  induction H as [|m n H IH|m x n H IH|k x m n Hk H IH]; intros P En.
  - by destruct P.
  - destruct (IH P En) as (A & W & -> & HW). by exists (42 :: A), W.
  - destruct P as [|y P]; simplify_eq/=; [|by eapply IH].
    exists [], m. split; [done|]. apply reads_wild in H. by inv H.
  - destruct P as [|y P]; simplify_eq/=; [by apply maccepts_no_star in Hk|].
    destruct (IH P eq_refl) as (A & W & -> & HW). by exists (k :: A), W.
Qed.

Lemma last_star A W : Forall (fun x => x = 42 \/ x = 63) W ->
  exists A' j, A ++ 42 :: W = A' ++ 42 :: replicate j 63 /\ (A' = [] -> A = []).
Proof.
  intros HW. induction W as [|x W IH] using rev_ind; [by exists A, 0%nat|].
  apply Forall_app in HW as [HW Hx]. inv Hx. destruct (IH HW) as (A' & j & E & HA).
  destruct H1 as [-> | ->].
  - exists (A ++ 42 :: W), 0%nat. split; [by rewrite <- app_assoc|]. by destruct A.
  - exists A', (S j). split; [|done]. rewrite app_comm_cons, app_assoc, E, <- app_assoc. cbn [app].
    by rewrite replicate_S_end.
Qed.

Lemma reads_opened a b : specific a -> order a b -> order a (b ++ [42]) \/ open_end b = false.
Proof.
  intros Ha H. destruct (open_end b) eqn:Eb; [left|by right].
  apply open_end_spec in Eb as (P & j & _ & Eb). unfold order in *.
  assert (Hend : exists m, opened a = m ++ [42]).
  { unfold opened in *. destruct (open_end a) eqn:Ea; [by eexists|exfalso]. rewrite Eb in H.
    apply star_reader in H as (A & W & E & HW).
    destruct (last_star A W HW) as (A' & k & E' & HA). rewrite E' in E.
    assert (A' = []) as ->.
    { destruct A' as [|y A']; [done|exfalso]. apply not_true_iff_false in Ea. apply Ea, open_end_spec.
      exists (y :: A'), k. done. }
    destruct Ha as (x & Hx & H42 & H63). rewrite E in Hx. cbn [app] in Hx.
    apply elem_of_cons in Hx as [?|Hx]; [done|]. by apply elem_of_replicate_inv in Hx. }
  destruct Hend as [m Em]. rewrite Em in *. by apply reads_snoc_star.
Qed.

Lemma order_trans a b c : specific a -> order a b -> order b c -> order a c.
Proof.
  intros Ha Hab Hbc. destruct (reads_opened a b Ha Hab) as [H|H]; unfold order in Hbc, H |- *; unfold opened in Hbc.
  - destruct (open_end b); [by eapply reads_trans|by apply (reads_trans _ b)].
  - rewrite H in Hbc. by apply (reads_trans _ b).
Qed.

Lemma order_covers a b : order a b -> covers a b.
Proof. intros H s Hs. apply opened_covers. by apply (reads_covers _ b). Qed.

(** ** mmatch() decides the order *)
Section mmatch_correct.
Context (old_mask new_mask : list Z).
Hypothesis Hold : plain_mask old_mask.
Hypothesis Hnew : plain_mask new_mask.

(** What opened() has put behind the mask. *)
Definition open_rest : list Z := if open_end old_mask then [42] else [].
Definition rest_of (i : nat) : list Z := drop i old_mask ++ open_rest.

(** The inequalities between the pointers, the segment both have read since the
    last star, and the question that is left. *)
Record mmatch_inv (st : mstate) : Prop := {
  mm_m : (mp st <= length old_mask)%nat;
  mm_n : (np st <= length new_mask)%nat;
  mm_seg : exists P Q,
    drop (m_tmp st) old_mask = P ++ drop (mp st) old_mask /\
    drop (n_tmp st) new_mask = Q ++ drop (np st) new_mask /\
    Forall2 maccepts P Q;
  mm_ntmp : (n_tmp st <= np st)%nat;
  mm_mtmp : (m_tmp st <= mp st)%nat;
  mm_wild : if wild st then ch old_mask (m_tmp st) <> 42 else m_tmp st = 0%nat;
  mm_goal : order old_mask new_mask <->
    (if wild st then reads (42 :: rest_of (m_tmp st)) (drop (n_tmp st) new_mask)
     else reads (rest_of (m_tmp st)) (drop (n_tmp st) new_mask)) }.

Definition mmatch_post (r : Z) : Prop :=
  (r = 0 /\ order old_mask new_mask) \/ (r = 1 /\ ~ order old_mask new_mask).

Lemma opened_rest : opened old_mask = rest_of 0.
Proof. unfold opened, rest_of, open_rest. case_match; [done|]. by rewrite app_nil_r. Qed.

Lemma escaped_at_plain m i : plain_mask m -> (i <= length m)%nat -> escaped_at m i = Some false.
Proof.
  intros Hm Hi. unfold escaped_at. rewrite (rd_some m i) by done. simpl.
  rewrite (proj2 (Z.eqb_neq _ _) (plain_no_escape m Hm i)). done.
Qed.

Lemma reads_at_segment st :
  mmatch_inv st -> reads (rest_of (m_tmp st)) (drop (n_tmp st) new_mask) <-> reads (rest_of (mp st)) (drop (np st) new_mask).
Proof.
  intros []. destruct mm_seg0 as (P & Q & HP & -> & HPQ). unfold rest_of. rewrite HP, <- app_assoc.
  by apply reads_pointwise.
Qed.

(** Without a match here the question is the one of the last star, if any. *)
Lemma order_no_wild st : mmatch_inv st -> wild st = false ->
  order old_mask new_mask <-> reads (rest_of (mp st)) (drop (np st) new_mask).
Proof. intros Hinv Hw. rewrite <- reads_at_segment by done. destruct Hinv. by rewrite Hw in *. Qed.

Lemma mmatch_retry_ok st :
  mmatch_inv st -> wild st = true -> (np st < length new_mask)%nat ->
  ~ reads (rest_of (mp st)) (drop (np st) new_mask) ->
  let st' := MState (m_tmp st) (S (n_tmp st)) (m_tmp st) (S (n_tmp st)) true in
  mmatch_retry new_mask st = Some st' /\ mmatch_inv st' /\
  (match_measure old_mask new_mask st' < match_measure old_mask new_mask st)%nat.
Proof.
  intros Hinv Hw Hlt Hno. pose proof (reads_at_segment st Hinv) as Hseg. destruct Hinv.
  unfold mmatch_retry. rewrite escaped_at_plain by (done || lia). rewrite Hw in *. cbn [mbind option_bind].
  split; [done|]. split; [|unfold match_measure; simpl; nia].
  split; simpl; try lia; auto.
  - by exists [], [].
  - rewrite mm_goal0. rewrite (drop_ch new_mask (n_tmp st)) in Hseg |- * by lia.
    apply reads_star_cons. by rewrite Hseg.
Qed.

Lemma mmatch_advance_ok st :
  mmatch_inv st -> maccepts (ch old_mask (mp st)) (ch new_mask (np st)) ->
  (mp st < length old_mask)%nat -> (np st < length new_mask)%nat ->
  mmatch_inv (MState (S (mp st)) (S (np st)) (m_tmp st) (n_tmp st) (wild st)).
Proof.
  intros [] Hacc Hm Hn. destruct mm_seg0 as (P & Q & HP & HQ & HPQ).
  split; simpl; try lia; auto.
  exists (P ++ [ch old_mask (mp st)]), (Q ++ [ch new_mask (np st)]).
  rewrite (drop_ch old_mask (mp st)) in HP by done.
  rewrite (drop_ch new_mask (np st)) in HQ by done.
  rewrite HP, HQ, <- !(assoc_L (++)). split_and!; [done..|]. apply Forall2_app; auto.
Qed.

(** A pair of characters that do not match. *)
Lemma mmatch_refuse st :
  mmatch_inv st -> (mp st < length old_mask)%nat -> (np st < length new_mask)%nat -> ch old_mask (mp st) <> 42 ->
  ~ maccepts (ch old_mask (mp st)) (ch new_mask (np st)) -> ~ reads (rest_of (mp st)) (drop (np st) new_mask).
Proof.
  intros _ Hm Hn Hstar Hacc. unfold rest_of. rewrite (drop_ch old_mask), (drop_ch new_mask) by done. cbn [app].
  rewrite reads_one_iff by done. tauto.
Qed.

Lemma nothing_left st : mp st = length old_mask -> (np st < length new_mask)%nat -> open_end old_mask = false ->
  ~ reads (rest_of (mp st)) (drop (np st) new_mask).
Proof.
  intros Hm Hn He. unfold rest_of, open_rest. rewrite He, Hm, drop_all, (drop_ch new_mask) by done. intros H. inv H.
Qed.

Lemma mmatch_compare_ok st :
  mmatch_inv st -> ch old_mask (mp st) <> 42 ->
  (ch new_mask (np st) = 0 -> ch old_mask (mp st) = 0) ->
  (mp st = length old_mask -> open_end old_mask = false) ->
  exists o, mmatch_compare old_mask new_mask st = Some o /\
    match o with
    | Ret r => mmatch_post r
    | Next st' => mmatch_inv st' /\
        (match_measure old_mask new_mask st' + (if (ch old_mask (mp st) =? 0)%Z then 0 else 1)
         <= match_measure old_mask new_mask st)%nat
    end.
Proof.
  intros Hinv Hstar H0 Hopen. pose proof Hinv as [Hm Hn _ _ _ _ _].
  pose proof (ch_0_iff old_mask (mp st) (plain_cstring _ Hold)) as Hm0.
  pose proof (ch_0_iff new_mask (np st) (plain_cstring _ Hnew)) as Hn0.
  unfold mmatch_compare. rewrite !escaped_at_plain by done. simpl.
  rewrite (rd_some old_mask), (rd_some new_mask) by done. simpl.
  rewrite (proj2 (Z.eqb_neq _ _) Hstar), andb_true_r, orb_false_r. simpl.
  destruct (_ || _) eqn:Htest.
  - apply orb_true_iff in Htest.
    eexists; split; [done|]. destruct (ch old_mask (mp st) =? 0) eqn:Em; bprop.
    + rewrite Em in Htest.
      assert (ch new_mask (np st) = 0) as ->.
      { destruct Htest as [Ht|Ht]; [|done]. apply ToLower_0_iff. by apply Z.eqb_eq in Ht. }
      simpl. destruct st; simpl in *. split; [done|]. lia.
    + destruct (ch new_mask (np st) =? 0) eqn:En; bprop; [tauto|]. split.
      * apply mmatch_advance_ok; try lia; [done|]. split; [done|]. destruct Htest as [Ht|Ht]; bprop; auto.
      * unfold match_measure; simpl. lia.
  - assert (Hlt : (np st < length new_mask)%nat).
    { destruct (decide (np st < length new_mask)%nat) as [|]; [done|exfalso].
      assert (E1 : ch new_mask (np st) = 0) by (apply Hn0; lia).
      rewrite E1, H0 in Htest by done. done. }
    assert (Hno : ~ reads (rest_of (mp st)) (drop (np st) new_mask)).
    { destruct (decide (mp st < length old_mask)%nat) as [Hlm|].
      - apply mmatch_refuse; [done..|]. apply orb_false_iff in Htest as [H1 H2].
        intros [_ [E|[E Hx]]]; [lia|]. rewrite E in H2. apply Z.eqb_neq in Hx. by rewrite Hx in H2.
      - apply nothing_left; [lia|done|]. apply Hopen. lia. }
    destruct (wild st) eqn:Hw.
    + destruct (mmatch_retry_ok st Hinv Hw Hlt Hno) as (-> & Hinv' & Hdec).
      eexists; split; [done|]. split; [done|]. case_match; lia.
    + eexists; split; [done|]. right. split; [done|]. by rewrite (order_no_wild st).
Qed.

Lemma mmatch_skip_wild_ok st :
  mmatch_inv st ->
  exists st', skip_wild old_mask st = Some st' /\ mmatch_inv st' /\
    (match_measure old_mask new_mask st' <= match_measure old_mask new_mask st)%nat /\
    ch old_mask (mp st') <> 42.
Proof.
  intros Hinv. pose proof Hinv as []. unfold skip_wild.
  rewrite rd_some by done. simpl. eexists; split; [done|].
  destruct (ch old_mask (mp st) =? 42) eqn:E; bprop; [|split; [done|split; [lia|done]]].
  pose proof (skip_stars_le old_mask (mp st) mm_m0) as Hle.
  pose proof (skip_stars_hd old_mask (mp st)) as Hhd.
  destruct (skip_stars_pred old_mask (mp st) E) as [Hlt _].
  assert (Hsame : forall n, reads (rest_of (mp st)) n <-> reads (42 :: rest_of (skip_stars old_mask (mp st))) n).
  { intros n. unfold rest_of. rewrite (skip_stars_drop old_mask (mp st)). unfold skip_stars in Hlt.
    destruct (stars (drop (mp st) old_mask)) as [|k]; [lia|]. cbn [replicate app]. rewrite <- app_assoc.
    apply reads_replicate_star. }
  split; [|split; [unfold match_measure; simpl; nia|done]].
  split; simpl; try lia; auto; [by exists [], []|].
  rewrite mm_goal0. pose proof (reads_at_segment st Hinv) as Hseg.
  destruct (wild st); [|by rewrite Hseg].
  split; [|intros H; apply reads_skip; by rewrite Hseg, Hsame].
  destruct mm_seg0 as (P & Q & HP & HQ & HPQ).
  rewrite reads_star_iff. unfold rest_of at 1. intros [k' Hk]. rewrite HP, <- app_assoc in Hk.
  apply reads_prefix_length in Hk; [|by eapply maccepts_stars].
  rewrite HQ, (Forall2_length _ _ _ HPQ), drop_drop, Nat.add_comm, <- drop_drop, drop_app_length in Hk.
  apply Hsame in Hk. by apply reads_drop_star in Hk.
Qed.

Lemma mmatch_retry_at_end st :
  mmatch_inv st -> mp st = length old_mask -> (np st < length new_mask)%nat ->
  ch new_mask (S (n_tmp st)) = 0 -> ch old_mask (m_tmp st) = 0.
Proof.
  intros [] Hm Hn H0. apply (ch_0_iff _ _ (plain_cstring _ Hnew)) in H0. apply ch_ge.
  destruct mm_seg0 as (P & Q & HP & HQ & HPQ).
  apply (f_equal length) in HP, HQ. rewrite length_app, !length_drop in HP, HQ. apply Forall2_length in HPQ. lia.
Qed.

(** With the narrower mask exhausted, a wider one that goes on with another
    character than a star fails. *)
Lemma mmatch_exhausted st :
  mmatch_inv st -> ch old_mask (mp st) <> 42 -> (mp st < length old_mask)%nat ->
  np st = length new_mask -> ~ order old_mask new_mask.
Proof.
  intros Hinv Hstar Hm Hn. assert (Hno : ~ reads (rest_of (mp st)) []).
  { unfold rest_of. rewrite drop_ch by done. by apply reads_cons_nil. }
  destruct (wild st) eqn:Hw; [|by rewrite (order_no_wild st), drop_ge by (done || lia)].
  destruct Hinv as [_ _ (P & Q & HP & HQ & HPQ) _ _ _ Hgoal]. rewrite Hgoal, Hw.
  rewrite reads_star_iff. unfold rest_of. intros [k Hk]. rewrite HP, <- app_assoc in Hk.
  apply reads_prefix_length in Hk; [|by eapply maccepts_stars].
  rewrite HQ, (drop_ge new_mask (np st)), app_nil_r, drop_drop, (drop_ge Q) in Hk; [done|..|lia].
  rewrite (Forall2_length _ _ _ HPQ). lia.
Qed.

(** With the wider mask exhausted at an open end the rest does not matter. *)
Lemma mmatch_open st : mmatch_inv st -> mp st = length old_mask -> open_end old_mask = true -> order old_mask new_mask.
Proof.
  intros Hinv Hm He. pose proof (reads_at_segment st Hinv) as Hseg. destruct Hinv. apply mm_goal0.
  assert (reads (rest_of (m_tmp st)) (drop (n_tmp st) new_mask)) by
    (apply Hseg; unfold rest_of, open_rest; rewrite He, Hm, drop_all; apply reads_star_iff; exists (length new_mask);
     rewrite (drop_ge (drop _ _)) by (rewrite length_drop; lia); constructor).
  case_match; [by apply reads_skip|done].
Qed.

Lemma mmatch_step_ok st :
  (old_mask <> [] \/ new_mask = []) -> mmatch_inv st ->
  exists o, mmatch_step old_mask new_mask st = Some o /\
    match o with
    | Ret r => mmatch_post r
    | Next st' => mmatch_inv st' /\
        (match_measure old_mask new_mask st' < match_measure old_mask new_mask st)%nat
    end.
Proof.
  intros Hne Hinv0. unfold mmatch_step.
  destruct (mmatch_skip_wild_ok st Hinv0) as (s & -> & Hinv & Hle & Hstar). simpl.
  rewrite (rd_some old_mask), (rd_some new_mask) by apply Hinv. simpl. pose proof Hinv as [Hm Hn _ _ _ _ Hgoal].
  pose proof (ch_0_iff old_mask (mp s) (plain_cstring _ Hold)) as Hm0.
  pose proof (ch_0_iff new_mask (np s) (plain_cstring _ Hnew)) as Hn0.
  destruct (ch old_mask (mp s) =? 0) eqn:Em; bprop.
  - assert (Hme : mp s = length old_mask) by (apply Hm0 in Em; lia).
    assert (Hend : np s = length new_mask \/ (np s < length new_mask)%nat) by lia.
    destruct Hend as [Hend|Hlt].
    + rewrite (proj2 (Z.eqb_eq _ _)) by (apply Hn0; lia). eexists; split; [done|]. left. split; [done|].
      destruct (open_end old_mask) eqn:He; [by apply (mmatch_open s)|]. apply Hgoal.
      assert (reads (rest_of (m_tmp s)) (drop (n_tmp s) new_mask)).
      { apply reads_at_segment; [done|]. unfold rest_of, open_rest. rewrite He, !drop_ge by lia. constructor. }
      case_match; [by apply reads_skip|done].
    + rewrite (proj2 (Z.eqb_neq _ _)) by (rewrite Hn0; lia).
      assert (ends_in_free_star old_mask (mp s) = Some (open_end old_mask)) as ->.
      { unfold ends_in_free_star, open_end. rewrite Hme. destruct (length old_mask) as [|l] eqn:El; [|f_equal].
        - destruct Hne as [Hne| ->]; [by destruct old_mask|]. simpl in Hlt. lia.
        - cbn [pred]. rewrite (proj2 (Z.eqb_neq _ _) (plain_no_escape _ Hold _)). apply andb_true_r. }
      cbn [mbind option_bind]. destruct (open_end old_mask) eqn:He.
      { eexists; split; [done|]. left. split; [done|]. by apply (mmatch_open s). }
      pose proof (nothing_left s Hme Hlt He) as Hno.
      destruct (wild s) eqn:Hw; [|eexists; split; [done|]; right; split; [done|]; by rewrite (order_no_wild s)].
      destruct (mmatch_retry_ok s Hinv Hw Hlt Hno) as (-> & Hinv' & Hlt'). cbn [mbind option_bind].
      destruct (mmatch_compare_ok _ Hinv') as (o & Ho & Hpost); [by apply (mm_wild _ Hinv')|by apply mmatch_retry_at_end|done|].
      rewrite Ho. eexists; split; [done|]. destruct o; [|done].
      destruct Hpost as [? Hpost]. split; [done|]. revert Hpost. case_match; lia.
  - assert (Hml : (mp s < length old_mask)%nat).
    { destruct (decide (mp s < length old_mask)%nat) as [|]; [done|]. exfalso. apply Em, Hm0. lia. }
    destruct (ch new_mask (np s) =? 0) eqn:En; bprop.
    + eexists; split; [done|]. unfold skip_stars. rewrite drop_ch by done. cbn [stars].
      rewrite (proj2 (Z.eqb_neq _ _) Hstar), Nat.add_0_r, (proj2 (Z.eqb_neq _ _) Em).
      right. split; [done|]. apply (mmatch_exhausted s); [done..|]. apply Hn0 in En. lia.
    + destruct (mmatch_compare_ok s Hinv Hstar) as (o & -> & Hpost); [done|lia|].
      eexists; split; [done|]. destruct o; [|done].
      destruct Hpost as [? Hpost]. split; [done|]. rewrite (proj2 (Z.eqb_neq _ _) Em) in Hpost. lia.
Qed.
End mmatch_correct.

Lemma mmatch_init_inv m n : mmatch_inv m n match_init.
Proof. split; simpl; try lia; try done; [by exists [], []|]. unfold order. by rewrite opened_rest, !drop_0. Qed.

Lemma mmatch_decides old_mask new_mask :
  plain_mask old_mask -> plain_mask new_mask -> old_mask <> [] \/ new_mask = [] ->
  exists r, mmatch old_mask new_mask = Some (Some r) /\ mmatch_post old_mask new_mask r.
Proof.
  intros Ho Hn Hne. unfold mmatch.
  apply (loop_total _ (mmatch_inv old_mask new_mask) (match_measure old_mask new_mask) (mmatch_post old_mask new_mask)).
  - intros s Hs. by apply mmatch_step_ok.
  - apply mmatch_init_inv.
  - unfold match_measure, match_fuel; simpl. nia.
Qed.

(** An empty old mask and a new one. *)
Lemma mmatch_empty_mask b : plain_mask b -> b <> [] -> mmatch [] b = None.
Proof.
  intros Hb Hne. destruct Hb as [|x b [Hx _] _]; [done|].
  unfold mmatch. destruct (match_fuel [] (x :: b)) as [|f] eqn:Ef.
  { unfold match_fuel in Ef. simpl in Ef. lia. }
  cbn [loop]. assert (Hstep : mmatch_step [] (x :: b) match_init = None); [|by rewrite Hstep].
  unfold mmatch_step, skip_wild, match_init. cbn [mp]. change (rd [] 0) with (Some 0). simpl.
  change (ch (x :: b) 0) with x. unfold is_char in Hx. by rewrite (proj2 (Z.eqb_neq x 0)) by lia.
Qed.

(** C12: for masks without a backslash, unless the old one is empty and the new one is
    not, mmatch() returns, within the buffers, 0 when the old mask is above the
    new one in the order of masks and 1 when it is not; with an empty old mask
    and a new one it reads the byte before the mask.  The order is reflexive,
    case insensitive and, for masks that are more than stars and question marks,
    transitive, and a mask above another one matches every name that the other
    one matches. *)
Theorem mmatch_correct :
  (forall a b, plain_mask a -> plain_mask b -> a <> [] \/ b = [] ->
     (mmatch a b = Some (Some 0) <-> order a b) /\ (mmatch a b = Some (Some 1) <-> ~ order a b)) /\
  (forall b, plain_mask b -> b <> [] -> mmatch [] b = None) /\
  (forall a b, lower a = lower b -> order a b) /\
  (forall a b c, specific a -> order a b -> order b c -> order a c) /\
  (forall a b name, order a b -> glob b name -> glob a name).
Proof.
  split_and!; [|exact mmatch_empty_mask|exact order_same|exact order_trans|intros a b name H; by apply order_covers].
  intros a b Ha Hb Hne. destruct (mmatch_decides a b Ha Hb Hne) as (r & -> & [[-> H]|[-> H]]); split; split; intros; done.
Qed.

Lemma mmatch_correct_witness :
  order (lit "*!*@*.org") (lit "*!?x@irc.*.ORG") /\ ~ order (lit "*!a?@*") (lit "*!a*@*") /\
  order (lit "*!*@*?") (lit "*!?x@irc.*.ORG").
Proof.
  destruct mmatch_correct as (H & _ & _ & Ht & _). split_and!.
  - apply (H (lit "*!*@*.org") (lit "*!?x@irc.*.ORG")); [by_decide|by_decide|by left|vm_compute; reflexivity].
  - apply (H (lit "*!a?@*") (lit "*!a*@*")); [by_decide|by_decide|by left|vm_compute; reflexivity].
  - apply (Ht _ (lit "*!*@*.org")); [by_decide|..].
    + apply (H (lit "*!*@*?") (lit "*!*@*.org")); [by_decide|by_decide|by left|vm_compute; reflexivity].
    + apply (H (lit "*!*@*.org") (lit "*!?x@irc.*.ORG")); [by_decide|by_decide|by left|vm_compute; reflexivity].
Defined.
