(* ===== verification/MaskComp.v ===== *)
(** * ircd/match.c: compiled masks

    matchcomp() translates a mask into a text in which the part behind the last
    star stands, reversed, directly behind the part before the first one, and
    matchexec() runs such a text on a name: the two ends first, then the pieces
    in between from left to right.  The compiler works in place on its buffer,
    with two reversals of order by swaps; the interpreter keeps its pointers as
    indices, which start one before the texts.  [before] is the byte in front of
    the name, which is read when the whole name belongs to the end of the
    mask. *)
From S2P Require Import Prelude Chattr Match MaskOrder.
Open Scope ircd_scope.

(** ** matchcomp() *)

(** What the first loop has written, and its variables; [fs] and [ls] are
    positions in the output. *)
Record compiler := MkComp {
  out : list Z; fs : option nat; ls : option nat; pending_star : bool; cnt : Z; chset : Z; chset2 : Z }.

Definition comp_init : compiler := MkComp [] None None false 0 (-1) (NTL_LOWER .| NTL_UPPER).

(** if (star) ...: the letter Z is written and its position kept. *)
Definition put_star (c : compiler) : compiler :=
  let b := length (out c) in
  MkComp (out c ++ [90]) (Some (default b (fs c))) (Some b) (pending_star c) (cnt c) (chset c) (chset2 c).

(** The default branch, for a character that stands for itself. *)
Definition put_char (ch : Z) (c : compiler) : compiler :=
  let c := if pending_star c then let c := put_star c in
             MkComp (out c) (fs c) (ls c) false (cnt c) (chset c) (Z.ldiff (chset2 c) NTL_LOWER)
           else c in
  MkComp (out c ++ [ToLower ch]) (fs c) (ls c) (pending_star c) (cnt c + 1)
    (chset c .& CharAttr (ToLower ch)) (Z.ldiff (chset2 c) NTL_UPPER).

(** The first loop. *)
Fixpoint comp_loop (m : list Z) (c : compiler) : compiler :=
  match m with
  | [] => c
  | ch :: m =>
      if ch =? 42 then comp_loop m (MkComp (out c) (fs c) (ls c) true (cnt c) (chset c) (chset2 c))
      else if ch =? 63 then
        comp_loop m (MkComp (out c ++ [65]) (fs c) (ls c) (pending_star c) (cnt c + 1) (chset c) (Z.ldiff (chset2 c) NTL_LOWER))
      else if ch =? 92 then
        match m with
        | d :: m' => if (d =? 63) || (d =? 42) then comp_loop m' (put_char d c) else comp_loop m (put_char ch c)
        | [] => comp_loop m (put_char ch c)
        end
      else comp_loop m (put_char ch c)
  end.

(** Exchanges two bytes of the buffer. *)
Definition swap (i j : nat) (buf : list Z) : option (list Z) :=
  x ← buf !! i; y ← buf !! j; Some (<[i := y]> (<[j := x]> buf)).

(** for (x1 = ls + 1, x2 = b - 1; x1 < x2; x1++, x2--) *)
Fixpoint reverse_loop (fuel x1 x2 : nat) (buf : list Z) : option (list Z) :=
  if (x1 <? x2)%nat then
    match fuel with
    | O => None
    | S fuel => buf ← swap x1 x2 buf; reverse_loop fuel (S x1) (pred x2) buf
    end
  else Some buf.

(** for (loop = 0; loop < lmin; loop++), from the last step of the loop inwards. *)
Fixpoint swap_blocks (lmin x1 x2 : nat) (buf : list Z) : option (list Z) :=
  match lmin with
  | O => Some buf
  | S lmin => buf ← swap x1 x2 buf; swap_blocks lmin (S x1) (S x2) buf
  end.

(** while ((lmin = (l1 < l2) ? l1 : l2)) *)
Fixpoint rotate_loop (fuel x1 l1 l2 : nat) (buf : list Z) : option (list Z) :=
  let lmin := if (l1 <? l2)%nat then l1 else l2 in
  if (lmin =? 0)%nat then Some buf
  else
    match fuel with
    | O => None
    | S fuel =>
        buf ← swap_blocks lmin x1 (x1 + l1) buf;
        rotate_loop fuel (x1 + lmin) (if (l1 <? l2)%nat then l1 else l1 - lmin)
          (if (l2 <? l1)%nat then l2 else l2 - lmin) buf
    end.

(** The compiled mask, the least length of a name and the characters of the
    mask. *)
Definition matchcomp (mask : list Z) : option (list Z * Z * Z) :=
  let c := comp_loop mask comp_init in
  let charset := chset c .| chset2 c in
  let c := if pending_star c then put_star c else c in
  let b := length (out c) in
  cmask ← match ls c, fs c with
          | Some ls, Some fs => buf ← reverse_loop b (S ls) (pred b) (out c); rotate_loop b fs (ls - fs) (b - ls) buf
          | _, _ => Some (out c)
          end;
  Some (cmask, cnt c, charset).

(** ** matchexec() *)
Section exec.
Variable before : Z.
Variable string cmask : list Z.

(** The byte at a position of the name, from the one in front of it to the
    terminator. *)
Definition rds (i : Z) : option Z :=
  if i =? -1 then Some before else if i <? -1 then None else rd string (Z.to_nat i).
Definition rdb (i : Z) : option Z := if i <? 0 then None else rd cmask (Z.to_nat i).

Inductive progress (A : Type) := Return (r : Z) | Go (a : A).
Arguments Return {A} _.
Arguments Go {A} _.

(** tryhead: *)
Fixpoint head_loop (fuel : nat) (s b : Z) : option (progress (Z * Z)) :=
  match fuel with
  | O => None
  | S fuel =>
      cs ← rds (s + 1); cb ← rdb (b + 1);
      if cs =? 0 then
        if (cb =? 0) then Some (Return 0)
        else if negb (cb =? 90) then Some (Return 1)
        else next ← rdb (b + 2); Some (Return (bool_int (negb (next =? 0))))
      else if (ToLower cs =? cb) || (cb =? 65) then head_loop fuel (s + 1) (b + 1)
      else if negb (cb =? 90) then Some (Return 1)
      else Some (Go (s + 1, b + 1))
  end.

(** trytail: and trychunk:, which run through the name in the direction [dir]:
    where they stop, and at which letter. *)
Fixpoint follow (fuel : nat) (dir s b : Z) : option (Z * Z * Z) :=
  match fuel with
  | O => None
  | S fuel =>
      cs ← rds (s + dir); cb ← rdb (b + 1);
      if ((ToLower cs =? cb) && negb (cb =? 0)) || (cb =? 65) then follow fuel dir (s + dir) (b + 1)
      else Some (s + dir, b + 1, cb)
  end.

(** The search for the first character of a piece. *)
Fixpoint seek (trash : nat) (letter s : Z) : option (progress (Z * nat)) :=
  cs ← rds (s + 1);
  if ToLower cs =? letter then Some (Go (s + 1, trash))
  else match trash with O => Some (Return 4) | S trash => seek trash letter (s + 1) end.

Record chunk_state := MkChunk { cs_s : Z; cs_bb : Z; cs_trash : nat }.

(** One turn of the loop over the pieces; [b] is [bb] at its start. *)
Definition chunk_step (st : chunk_state) : option (outcome chunk_state) :=
  let bb := cs_bb st in
  letter ← rdb (bb + 1);
  if letter =? 0 then Some (Ret 0)
  else
    p ← seek (cs_trash st) letter (cs_s st);
    match p with
    | Return r => Some (Ret r)
    | Go (bs, trash) =>
        '(s, b, cb) ← follow (S (length cmask)) 1 bs (bb + 1);
        if cb =? 0 then Some (Ret 0)
        else if cb =? 90 then Some (Next (MkChunk (s - 1) b trash))
        else match trash with O => Some (Ret 5) | S trash => Some (Next (MkChunk bs bb trash)) end
    end.

Definition matchexec (minlen : Z) : option (option Z) :=
  p ← head_loop (S (length cmask)) (-1) (-1);
  match p with
  | Return r => Some (Some r)
  | Go (bs, b) =>
      let trash := Z.of_nat (length string) - minlen in
      if trash <? 0 then Some (Some 2)
      else
        '(_, b, cb) ← follow (S (length cmask)) (-1) (Z.of_nat (length string)) b;
        if negb (cb =? 90) then Some (Some (bool_int (negb (cb =? 0))))
        else loop chunk_step (length string + length cmask + 1) (MkChunk (bs - 1) b (Z.to_nat trash))
  end.
End exec.
Arguments Return {A} _.
Arguments Go {A} _.

Example matchcomp_sample : fst <$> matchcomp (lit "Head*CHUNK1*ch??k3*TaIl") = Some (lit "headZliatZchunk1ZchAAk3", 20).
Proof. vm_compute. reflexivity. Qed.

(** ** The compiler *)

(** The letter of a mask character. *)
Definition enc (k : Z) : Z := if k =? 63 then 65 else ToLower k.

Lemma ToLower_capital x : ToLower x <> 65 /\ ToLower x <> 90.
Proof.
  apply (ToLower_ind (fun _ y => y <> 65 /\ y <> 90) (fun _ y => negb (y =? 65) && negb (y =? 90))).
  - intros u v H. bprop. done.
  - lia.
  - vm_compute. reflexivity.
Qed.

(** Pieces of a mask between stars: the ones that are complete, and the current
    one. *)
Definition joined (ps : list (list Z)) (cur : list Z) : list Z := flat_map (fun p => p ++ [42]) ps ++ cur.
Definition written (ps : list (list Z)) (cur : list Z) : list Z := flat_map (fun p => map enc p ++ [90]) ps ++ map enc cur.

(** A character that stands for itself. *)
Definition solid (c : Z) : Prop := is_char c /\ c <> 42 /\ c <> 63 /\ c <> 92.
Definition piece (p : list Z) : Prop := Forall (fun c => is_char c /\ c <> 42 /\ c <> 92) p.
(** A piece between two stars, or behind the last one. *)
Definition inner (p : list Z) : Prop := piece p /\ exists c r, p = c :: r /\ solid c.

Record comp_ok (c : compiler) (ps : list (list Z)) (cur : list Z) : Prop := {
  co_out : out c = written ps cur;
  co_fs : fs c = match ps with [] => None | h :: _ => Some (length h) end;
  co_ls : ls c = match ps with [] => None | _ => Some (length (out c) - length cur - 1)%nat end;
  co_cnt : cnt c = Z.of_nat (length (concat ps) + length cur);
  co_head : Forall piece ps /\ piece cur;
  co_inner : Forall inner (tail ps) /\ (ps <> [] -> inner cur) }.

Lemma length_written ps cur : length (written ps cur) = (length (concat ps) + length ps + length cur)%nat.
Proof.
  unfold written. induction ps as [|p ps IH]; cbn; [by rewrite length_map|].
  rewrite !length_app, ?length_map in *. cbn [length]. lia.
Qed.

Lemma written_app ps cur x : written ps (cur ++ [x]) = written ps cur ++ [enc x].
Proof. unfold written. by rewrite map_app, app_assoc. Qed.

Lemma written_new ps cur : written (ps ++ [cur]) [] = written ps cur ++ [90].
Proof. unfold written. rewrite flat_map_app. cbn. by rewrite !app_nil_r, app_assoc. Qed.

Lemma joined_app ps cur x m : joined ps cur ++ x :: m = joined ps (cur ++ [x]) ++ m.
Proof. unfold joined. by rewrite <- !app_assoc. Qed.

Lemma joined_new ps cur x m : joined ps cur ++ 42 :: x :: m = joined (ps ++ [cur]) [x] ++ m.
Proof. unfold joined. rewrite flat_map_app. cbn. by rewrite app_nil_r, <- !app_assoc. Qed.

#[export] Instance glob_app_proper P : Proper (glob_equiv ==> glob_equiv) (app P).
Proof. intros a b H s. split; apply glob_prefix; intros s'; apply H. Qed.

Lemma plain_piece c p : piece p -> is_char c -> c <> 42 -> c <> 92 -> piece (p ++ [c]).
Proof. intros Hp H1 H2 H3. apply Forall_app. split; [done|]. by constructor. Qed.

Lemma piece_one c : is_char c -> c <> 42 -> c <> 92 -> piece [c].
Proof. intros. apply (plain_piece c []); [constructor|done..]. Qed.

Lemma inner_app p c : inner p -> is_char c -> c <> 42 -> c <> 92 -> inner (p ++ [c]).
Proof. intros [Hp (x & r & -> & Hx)] H1 H2 H3. split; [by apply plain_piece|]. exists x, (r ++ [c]). done. Qed.

(** The star that has been read is written. *)
Lemma put_star_ok c ps cur : comp_ok c ps cur ->
  out (put_star c) = written (ps ++ [cur]) [] /\
  fs (put_star c) = Some (length (default [] (head (ps ++ [cur])))) /\
  ls (put_star c) = Some (length (written ps cur)) /\
  cnt (put_star c) = Z.of_nat (length (concat (ps ++ [cur]))).
Proof.
  intros []. unfold put_star. cbn [out fs ls cnt]. rewrite co_out0, co_fs0, co_cnt0, written_new, concat_app, length_app. cbn.
  rewrite app_nil_r. split_and!; [done| |done|lia]. destruct ps as [|h ps]; [|done]. cbn. unfold written. cbn. by rewrite length_map.
Qed.

Lemma put_char_ok ch c ps cur : comp_ok c ps cur -> solid ch ->
  let new := pending_star c in
  comp_ok (put_char ch c) (if new then ps ++ [cur] else ps) (if new then [ch] else cur ++ [ch]) /\
  pending_star (put_char ch c) = false.
Proof.
  intros Hc Hch new. pose proof (put_star_ok c ps cur Hc) as (Ho & Hf & Hl & Hn). pose proof Hc as [].
  destruct Hch as (H1 & H2 & H3 & H4). unfold put_char. subst new.
  assert (Henc : ToLower ch = enc ch) by (unfold enc; by rewrite (proj2 (Z.eqb_neq _ _) H3)).
  destruct (pending_star c) eqn:Hp; cbn [out fs ls cnt pending_star]; (split; [|done]).
  - split; cbn [out fs ls cnt].
    + rewrite Ho, Henc. rewrite <- (written_app (ps ++ [cur]) []). done.
    + rewrite Hf. by destruct ps.
    + rewrite Hl, Ho, length_app, !length_written, concat_app, !length_app. cbn. rewrite app_nil_r.
      destruct ps; cbn; f_equal; lia.
    + rewrite Hn. cbn. lia.
    + destruct co_head0. split; [apply Forall_app; split; [done|by constructor]|by apply piece_one].
    + destruct co_inner0 as [Hi1 Hi2]. split.
      * destruct ps as [|h ps]; [constructor|]. cbn. apply Forall_app. split; [done|]. constructor; [by apply Hi2|done].
      * intros _. split; [by apply piece_one|]. by exists ch, [].
  - split; cbn [out fs ls cnt].
    + by rewrite co_out0, Henc, written_app.
    + done.
    + rewrite co_ls0. destruct ps; [done|]. rewrite !length_app. cbn. f_equal. lia.
    + rewrite co_cnt0, !length_app. cbn. lia.
    + destruct co_head0. split; [done|]. by apply plain_piece.
    + destruct co_inner0 as [Hi1 Hi2]. split; [done|]. intros Hne. apply inner_app; auto.
Qed.

Lemma comp_loop_ok m c ps cur : plain_mask m -> comp_ok c ps cur ->
  exists ps' cur', comp_ok (comp_loop m c) ps' cur' /\
    glob_equiv (joined ps cur ++ (if pending_star c then 42 :: m else m))
      (joined ps' cur' ++ (if pending_star (comp_loop m c) then [42] else [])).
Proof.
  intros Hm. revert c ps cur. induction Hm as [|x m [Hx Hbs] Hm IH]; intros c ps cur Hc; cbn [comp_loop].
  - by exists ps, cur.
  - destruct (Z.eqb_spec x 42) as [->|H42]; [|destruct (Z.eqb_spec x 63) as [->|H63]].
    + destruct (IH (MkComp (out c) (fs c) (ls c) true (cnt c) (chset c) (chset2 c)) ps cur) as (ps' & cur' & Hc' & He); [by destruct Hc|].
      exists ps', cur'. split; [done|]. rewrite <- He. cbn [pending_star]. destruct (pending_star c); [|done].
      by rewrite glob_stars_collapse.
    + set (c' := MkComp (out c ++ [65]) _ _ _ _ _ _). destruct (IH c' ps (cur ++ [63])) as (ps' & cur' & Hc' & He).
      { destruct Hc as [H1 H2 H3 H4 [H5 H6] [H7 H8]]. assert (is_char 63) by (unfold is_char; lia). split; cbn [out fs ls cnt c'].
        - by rewrite H1, written_app.
        - done.
        - rewrite H3. destruct ps; [done|]. rewrite !length_app. cbn. f_equal. lia.
        - rewrite H4, !length_app. cbn. lia.
        - split; [done|by apply plain_piece].
        - split; [done|]. intros Hne. apply inner_app; auto. }
      exists ps', cur'. split; [done|]. rewrite <- He. cbn [pending_star c']. rewrite <- joined_app.
      destruct (pending_star c); [|done]. by rewrite glob_star_query.
    + rewrite (proj2 (Z.eqb_neq _ _) Hbs). destruct (put_char_ok x c ps cur Hc ltac:(split_and!; done)) as [Hc' Hp].
      destruct (IH _ _ _ Hc') as (ps' & cur' & Hc2 & He). exists ps', cur'. split; [done|]. rewrite <- He, Hp.
      destruct (pending_star c); [by rewrite joined_new|by rewrite joined_app].
Qed.

(** *** The rearrangement *)
Lemma ch_middle X a (Y : list Z) : ch (X ++ a :: Y) (length X) = a.
Proof. rewrite <- hd0_drop, drop_app_length. done. Qed.

Lemma lookup_at X a (Y : list Z) : (X ++ a :: Y) !! length X = Some a.
Proof. by rewrite lookup_app_r, Nat.sub_diag. Qed.

Lemma swap_ok X a M z Y : swap (length X) (length X + S (length M)) (X ++ a :: M ++ z :: Y) = Some (X ++ z :: M ++ a :: Y).
Proof.
  unfold swap. rewrite lookup_at. cbn [mbind option_bind].
  assert (E : X ++ a :: M ++ z :: Y = (X ++ a :: M) ++ z :: Y) by (by rewrite <- app_assoc).
  assert (L : (length X + S (length M))%nat = length (X ++ a :: M)) by (rewrite length_app; done).
  rewrite L, E, lookup_at. cbn [mbind option_bind]. rewrite insert_app_r_alt by lia. rewrite Nat.sub_diag. cbn [insert list_insert].
  rewrite <- app_assoc, insert_app_r_alt by lia. rewrite Nat.sub_diag. done.
Qed.

Lemma reverse_loop_ok fuel X W Y : (length W <= fuel)%nat ->
  reverse_loop fuel (length X) (pred (length X + length W)) (X ++ W ++ Y) = Some (X ++ reverse W ++ Y).
Proof.
  revert X W Y. induction fuel as [|fuel IH]; intros X W Y Hf.
  { destruct W; [|cbn in Hf; lia]. cbn [reverse_loop]. by rewrite (proj2 (Nat.ltb_ge _ _)) by (cbn; lia). }
  cbn [reverse_loop]. destruct W as [|a W] using rev_ind; [|clear IHW].
  - rewrite (proj2 (Nat.ltb_ge _ _)) by (cbn; lia). done.
  - destruct W as [|b W]; [rewrite (proj2 (Nat.ltb_ge _ _)) by (cbn; lia); done|].
    rewrite length_app in *. cbn [length] in *. rewrite (proj2 (Nat.ltb_lt _ _)) by lia.
    replace (pred (length X + (S (length W) + 1))) with (length X + S (length W))%nat by lia.
    cbn [app]. rewrite <- !app_assoc. cbn [app]. rewrite swap_ok. cbn [mbind option_bind].
    replace (pred (length X + S (length W))) with (pred (length (X ++ [a]) + length W))%nat by (rewrite length_app; cbn; lia).
    replace (S (length X)) with (length (X ++ [a])) by (rewrite length_app; cbn; lia).
    change (X ++ a :: W ++ b :: Y) with (X ++ [a] ++ W ++ [b] ++ Y). rewrite (app_assoc X [a]), IH by lia.
    change (b :: W ++ [a]) with ((b :: W) ++ [a]). rewrite reverse_app, (reverse_cons W b), <- !app_assoc. done.
Qed.

Lemma swap_blocks_ok P Q X M Y : length P = length Q ->
  swap_blocks (length P) (length X) (length X + (length P + length M)) (X ++ P ++ M ++ Q ++ Y) = Some (X ++ Q ++ M ++ P ++ Y).
Proof.
  revert Q X M. induction P as [|p P IH]; intros [|q Q] X M HL; try done. cbn [swap_blocks length app]. injection HL as HL.
  change (p :: P ++ M ++ q :: Q ++ Y) with (p :: (P ++ (M ++ q :: Q ++ Y))). rewrite (app_assoc P M).
  replace (length X + S (length P + length M))%nat with (length X + S (length (P ++ M)))%nat at 2 by (rewrite length_app; done).
  replace (length X + (S (length P) + length M))%nat with (length X + S (length (P ++ M)))%nat by (rewrite length_app; lia).
  rewrite swap_ok. cbn [mbind option_bind].
  replace (S (length X + S (length (P ++ M)))) with (length (X ++ [q]) + (length P + length (M ++ [p])))%nat
    by (rewrite !length_app; cbn; lia).
  replace (S (length X)) with (length (X ++ [q])) by (rewrite length_app; cbn; lia).
  replace (X ++ q :: (P ++ M) ++ p :: Q ++ Y) with ((X ++ [q]) ++ P ++ (M ++ [p]) ++ Q ++ Y) by (rewrite <- !app_assoc; done).
  rewrite IH by done. rewrite <- !app_assoc. done.
Qed.

Lemma rotate_loop_ok fuel X A B Y : (length A + length B <= fuel)%nat ->
  rotate_loop fuel (length X) (length A) (length B) (X ++ A ++ B ++ Y) = Some (X ++ B ++ A ++ Y).
Proof.
  revert X A B. induction fuel as [|fuel IH]; intros X A B Hf; [by destruct A, B; cbn in Hf; try lia|].
  assert (Hsplit : forall n (l : list Z), (n <= length l)%nat -> exists l1 l2, l = l1 ++ l2 /\ length l1 = n).
  { intros n l Hn. exists (take n l), (drop n l). by rewrite take_drop, length_take_le. }
  cbn [rotate_loop]. destruct (Nat.ltb_spec (length A) (length B)) as [Hlt|Hge].
  - rewrite (proj2 (Nat.ltb_ge (length B) (length A))) by lia. destruct (Nat.eqb_spec (length A) 0) as [E|E].
    { apply nil_length_inv in E as ->. done. }
    destruct (Hsplit (length A) B ltac:(lia)) as (B1 & B2 & -> & HL). rewrite length_app in *.
    replace (length B1 + length B2 - length A)%nat with (length B2) by lia. rewrite <- app_assoc.
    replace (length X + length A)%nat with (length X + (length A + length (@nil Z)))%nat at 1 by (cbn; lia).
    change (A ++ B1 ++ B2 ++ Y) with (A ++ [] ++ B1 ++ (B2 ++ Y)). rewrite swap_blocks_ok by done. cbn [app mbind option_bind].
    replace (length X + length A)%nat with (length (X ++ B1)) by (rewrite length_app; lia).
    rewrite app_assoc, IH by lia. by rewrite <- !app_assoc.
  - destruct (Nat.eqb_spec (length B) 0) as [E|E]; [apply nil_length_inv in E as ->; done|].
    destruct (Hsplit (length B) A ltac:(lia)) as (A1 & A2 & -> & HL). rewrite length_app in *.
    replace (length A1 + length A2 - length B)%nat with (length A2) by lia. rewrite <- app_assoc.
    replace (swap_blocks (length B)) with (swap_blocks (length A1)) by (by rewrite HL).
    rewrite swap_blocks_ok by done. cbn [mbind option_bind].
    replace (length X + length B)%nat with (length (X ++ B)) by (by rewrite length_app).
    destruct (Nat.ltb_spec (length B) (length A1 + length A2)) as [Hlt|Heq].
    + replace (rotate_loop fuel (length (X ++ B)) (length A2) (length B)) with (rotate_loop fuel (length (X ++ B)) (length A2) (length A1))
        by (by rewrite HL).
      rewrite app_assoc, IH by lia. by rewrite <- !app_assoc.
    + assert (A2 = []) as -> by (apply nil_length_inv; lia). rewrite app_nil_r, Nat.sub_diag. cbn [length app]. by destruct fuel.
Qed.

Definition arranged (h : list Z) (cs : list (list Z)) (t : list Z) : list Z :=
  map enc h ++ 90 :: reverse (map enc t) ++ flat_map (fun c => 90 :: map enc c) cs.

(** The pieces of a mask: one of them without a star, or a first, a last and
    the ones between them. *)
Lemma matchcomp_parts mask : plain_mask mask ->
  (exists p, piece p /\ fst <$> matchcomp mask = Some (map enc p, Z.of_nat (length p)) /\ glob_equiv mask p) \/
  (exists h cs t, piece h /\ Forall inner cs /\ (t = [] \/ inner t) /\
    fst <$> matchcomp mask = Some (arranged h cs t, Z.of_nat (length h + length (concat cs) + length t)) /\
    glob_equiv mask (h ++ flat_map (fun c => 42 :: c) cs ++ 42 :: t)).
Proof.
  intros Hm. destruct (comp_loop_ok mask comp_init [] [] Hm) as (ps & cur & Hc & He).
  { split; cbn; try done; repeat constructor. }
  cbn [pending_star comp_init] in He. change (joined [] [] ++ mask) with mask in He. unfold matchcomp.
  set (c := comp_loop mask comp_init) in *. pose proof Hc as [Ho Hfs Hls Hcnt [Hp1 Hp2] [Hi1 Hi2]].
  assert (Hgo : forall h cs t (c' : compiler), piece h -> Forall inner cs -> t = [] \/ inner t ->
    out c' = written (h :: cs) t -> fs c' = Some (length h) -> ls c' = Some (length (out c') - length t - 1)%nat ->
    match ls c', fs c' with
    | Some ls, Some fs =>
        buf ← reverse_loop (length (out c')) (S ls) (pred (length (out c'))) (out c');
        rotate_loop (length (out c')) fs (ls - fs) (length (out c') - ls) buf
    | _, _ => Some (out c')
    end = Some (arranged h cs t)).
  { clear. intros h cs t c Hh Hcs Ht Ho Hf Hl. rewrite Hf, Hl.
    set (A := flat_map (fun c => 90 :: map enc c) cs).
    assert (EA : out c = (map enc h ++ A ++ [90]) ++ map enc t ++ []).
    { rewrite Ho. unfold written. cbn [flat_map]. rewrite app_nil_r, <- !app_assoc. f_equal. subst A. clear.
      change ([90] ++ flat_map (fun p => map enc p ++ [90]) cs ++ map enc t =
        flat_map (fun c => 90 :: map enc c) cs ++ [90] ++ map enc t).
      induction cs as [|p cs IH]; [done|]. cbn. rewrite <- !app_assoc. do 2 f_equal. exact IH. }
    assert (Ll : (length (out c) - length t - 1)%nat = length (map enc h ++ A)).
    { rewrite EA, !length_app, length_map. cbn. rewrite length_map. lia. }
    rewrite Ll. assert (Lh : length (map enc h ++ A) = (length h + length A)%nat) by (by rewrite length_app, length_map).
    assert (Lo : length (out c) = (length (map enc h ++ A ++ [90%Z]) + length (map enc t))%nat) by (rewrite EA at 1; by rewrite app_nil_r, length_app).
    replace (S (length (map enc h ++ A))) with (length (map enc h ++ A ++ [90])) by (rewrite !length_app; cbn; lia).
    set (n := length (out c)) in *. clearbody n. rewrite EA.
    replace (pred n) with (pred (length (map enc h ++ A ++ [90%Z]) + length (map enc t))) by lia.
    rewrite reverse_loop_ok by lia. cbn [mbind option_bind].
    replace (length (map enc h ++ A) - length h)%nat with (length A) by lia.
    replace (n - length (map enc h ++ A))%nat with (length (90 :: reverse (map enc t)))
      by (rewrite Lo, !length_app; cbn; rewrite length_reverse; lia).
    replace ((map enc h ++ A ++ [90]) ++ reverse (map enc t) ++ []) with (map enc h ++ A ++ (90 :: reverse (map enc t)) ++ [])
      by (rewrite <- !app_assoc; done).
    replace (length h) with (length (map enc h)) by (by rewrite length_map).
    rewrite rotate_loop_ok by (rewrite Lo, !length_app; cbn; rewrite length_reverse; lia).
    unfold arranged. fold A. by rewrite app_nil_r. }
  assert (Hflat : forall h cs t, joined (h :: cs) t = h ++ flat_map (fun c => 42 :: c) cs ++ 42 :: t).
  { clear. intros h cs t. unfold joined. cbn [flat_map]. rewrite <- !app_assoc. f_equal. cbn.
    induction cs as [|p cs IH]; [done|]. cbn. rewrite <- !app_assoc. cbn. by rewrite IH. }
  destruct (pending_star c) eqn:Hps.
  - pose proof (put_star_ok c ps cur Hc) as (Ho' & Hf' & Hl' & Hn'). right.
    assert (exists h cs, ps ++ [cur] = h :: cs /\ piece h /\ Forall inner cs) as (h & cs & Ehc & Hh & Hcs).
    { destruct ps as [|h ps]; [by exists cur, []|]. exists h, (ps ++ [cur]). inv Hp1. split_and!; [done..|].
      apply Forall_app. split; [done|]. constructor; [by apply Hi2|done]. }
    rewrite Ehc in *. exists h, cs, []. split_and!; [done|done|by left| |].
    + rewrite (Hgo h cs []); [cbn [mbind option_bind fmap option_fmap option_map fst]|done|done|by left|done|done|].
      * rewrite Hn'. cbn [concat]. rewrite length_app. do 2 f_equal. cbn. lia.
      * rewrite Hl', Ho', <- Ehc, written_new, length_app. cbn. f_equal. lia.
    + rewrite <- Hflat, <- Ehc. rewrite He. unfold joined. rewrite flat_map_app. cbn [flat_map]. by rewrite !app_nil_r, <- !app_assoc.
  - destruct ps as [|h ps].
    + left. exists cur. rewrite Hls, Ho, Hcnt. split_and!; [done|done|]. rewrite He. unfold joined. by rewrite app_nil_r.
    + right. inv Hp1. exists h, ps, cur. assert (Ht : cur = [] \/ inner cur) by (right; by apply Hi2). split_and!; [done|done|done| |].
      * rewrite (Hgo h ps cur) by done. cbn [mbind option_bind fmap option_fmap option_map fst]. rewrite Hcnt. cbn [concat]. rewrite length_app. done.
      * rewrite <- Hflat. rewrite He. by rewrite app_nil_r.
Qed.

(** ** The language of a mask in pieces *)
Definition fits (p s : list Z) : Prop := Forall2 accepts p (take (length p) s).

(** The pieces one after the other, with anything in between. *)
Fixpoint chunk_in (cs : list (list Z)) (s : list Z) : Prop :=
  match cs with
  | [] => True
  | c :: cs => exists j, fits c (drop j s) /\ chunk_in cs (drop (j + length c) s)
  end.

Lemma fits_length p s : fits p s -> (length p <= length s)%nat.
Proof. intros H. apply Forall2_length in H. rewrite length_take in H. lia. Qed.

Lemma piece_no_star p : piece p -> Forall (fun k => k <> 42) p.
Proof. intros H. eapply Forall_impl; [exact H|]. by intros ? (_ & ? & _). Qed.

Lemma glob_piece p m s : piece p -> glob (p ++ m) s <-> fits p s /\ glob m (drop (length p) s).
Proof.
  intros Hp. unfold fits. split.
  - revert s. induction Hp as [|k p (Hk & Hk42 & _) Hp IH]; intros s H; [done|]. cbn [app] in H.
    assert (exists x s', s = x :: s' /\ accepts k x /\ glob (p ++ m) s') as (x & s' & -> & Ha & H').
    { inv H; try (exfalso; by apply Hk42); eexists _, _; (split; [done|]); (split; [split; auto|done]). }
    cbn. destruct (IH s' H') as [H1 H2]. split; [by constructor|done].
  - intros [H1 H2]. rewrite <- (take_drop (length p) s). by apply glob_pointwise.
Qed.

Lemma glob_nil s : glob [] s <-> s = [].
Proof. split; [intros H; by inv H|intros ->; constructor]. Qed.

Lemma glob_piece_all p s : piece p -> glob p s <-> Forall2 accepts p s.
Proof.
  intros Hp. rewrite <- (app_nil_r p) at 1. rewrite glob_piece, glob_nil by done. unfold fits. split.
  - intros [H1 H2]. rewrite take_ge in H1; [done|]. apply (f_equal length) in H2. rewrite length_drop in H2. cbn in H2. lia.
  - intros H. rewrite (Forall2_length _ _ _ H), firstn_all, drop_all. done.
Qed.

Lemma glob_pieces cs t s : Forall inner cs -> piece t ->
  glob (flat_map (fun c => 42 :: c) cs ++ 42 :: t) s <->
  (length t <= length s)%nat /\ Forall2 accepts t (drop (length s - length t) s) /\ chunk_in cs (take (length s - length t) s).
Proof.
  intros Hcs Ht. revert s. induction Hcs as [|c cs [Hc Hi] Hcs IH]; intros s; cbn [flat_map app chunk_in].
  - rewrite glob_star_iff. setoid_rewrite glob_piece_all; [|done]. split.
    + intros [j Hj]. pose proof (Forall2_length _ _ _ Hj) as HL. rewrite length_drop in HL.
      destruct (decide (j <= length s)%nat).
      * replace (length s - length t)%nat with j by lia. split_and!; [lia|done|done].
      * rewrite drop_ge in Hj by lia. inv Hj. cbn. rewrite Nat.sub_0_r, drop_all. split_and!; [lia|constructor|done].
    + intros (_ & H & _). by eexists.
  - rewrite <- app_assoc, glob_star_iff. setoid_rewrite glob_piece; [|done]. setoid_rewrite IH.
    assert (Hc0 : (0 < length c)%nat) by (destruct Hi as (? & ? & -> & _); cbn; lia).
    assert (Hfit : forall j, fits c (drop j s) -> (j + length c <= length s)%nat).
    { intros j H%fits_length. rewrite length_drop in H. lia. }
    assert (Hsub : forall j, (j + length c + length t <= length s)%nat ->
      (fits c (drop j s) <-> fits c (drop j (take (length s - length t) s))) /\
      take (length s - (j + length c + length t)) (drop (j + length c) s) = drop (j + length c) (take (length s - length t) s) /\
      (j + (length c + (length s - (j + length c + length t))))%nat = (length s - length t)%nat).
    { intros j Hj. unfold fits. rewrite !skipn_firstn_comm, take_take. split_and!; [|f_equal; lia|lia].
      by replace (length c `min` (length s - length t - j))%nat with (length c) by lia. }
    split.
    + intros (j & Hf & HL & H1 & H2). rewrite !drop_drop, !length_drop, <- !Nat.sub_add_distr in *. pose proof (Hfit j Hf). destruct (Hsub j) as (E1 & E2 & E3); [lia|].
      rewrite E3 in H1. rewrite E2 in H2. split_and!; [lia|done|]. exists j. by rewrite <- E1.
    + intros (HL & H1 & j & Hf & H2). assert (Hj : (j + length c + length t <= length s)%nat).
      { apply fits_length in Hf. rewrite length_drop, length_take in Hf. lia. }
      destruct (Hsub j Hj) as (E1 & E2 & E3). exists j. rewrite !drop_drop, !length_drop, <- !Nat.sub_add_distr, E1.
      rewrite E2, <- (Nat.add_assoc j), E3. split_and!; [done|lia|done|done].
Qed.

(** ** The interpreter *)
Lemma enc_accepts k x : k <> 42 -> (ToLower x =? enc k) || (enc k =? 65) = true <-> accepts k x.
Proof.
  intros Hk. unfold enc, accepts. destruct (ToLower_capital x) as [H65 _], (ToLower_capital k) as [Hk65 _].
  destruct (Z.eqb_spec k 63) as [->|H63].
  - rewrite orb_true_r. split; [by auto|done].
  - rewrite (proj2 (Z.eqb_neq _ _) Hk65), orb_false_r, Z.eqb_eq. split; [auto|]. intros [_ [?|?]]; congruence.
Qed.

Lemma enc_letter k : is_char k -> enc k <> 0 /\ enc k <> 90.
Proof.
  intros Hk. unfold enc. case_match; [done|]. split; [|apply ToLower_capital]. rewrite ToLower_0_iff. unfold is_char in Hk. lia.
Qed.

Lemma ch_app_r X (Y : list Z) i : ch (X ++ Y) (length X + i) = ch Y i.
Proof. rewrite <- hd0_drop, <- drop_drop, drop_app_length. apply hd0_drop. Qed.

Section follow.
Context (before : Z) (string cmask : list Z).

(** What is read, cell by cell, and the letters it is compared with. *)
Definition cells (dir s : Z) (R : list Z) : Prop :=
  forall i x, R !! i = Some x -> rds before string (s + dir * Z.of_nat (S i)) = Some x.
Definition letters (b : Z) (L : list Z) : Prop := forall i x, L !! i = Some x -> rdb cmask (b + Z.of_nat (S i)) = Some x.

Lemma cells_head dir s x R : cells dir s (x :: R) -> rds before string (s + dir) = Some x /\ cells dir (s + dir) R.
Proof.
  intros H. split; [rewrite <- (H O x) by done; f_equal; lia|]. intros i y Hi. rewrite <- (H (S i) y) by done. f_equal. lia.
Qed.

Lemma letters_head b x L : letters b (x :: L) -> rdb cmask (b + 1) = Some x /\ letters (b + 1) L.
Proof.
  intros H. split; [by apply (H O)|]. intros i y Hi. rewrite <- (H (S i) y) by done. f_equal. lia.
Qed.

Lemma follow_ok p R e fuel dir s b :
  piece p -> (length p < length R)%nat -> (length p < fuel)%nat -> e = 0 \/ e = 90 ->
  cells dir s R -> letters b (map enc p ++ [e]) ->
  exists s' b' cb, follow before string cmask fuel dir s b = Some (s', b', cb) /\
    ((fits p R /\ cb = e /\ b' = b + Z.of_nat (S (length p)) /\ s' = s + dir * Z.of_nat (S (length p))) \/
     (~ fits p R /\ cb <> 0 /\ cb <> 90)).
Proof.
  intros Hp. revert R fuel s b. induction Hp as [|k p (Hk & Hk42 & _) Hp IH]; intros R fuel s b HR Hf He Hc Hl;
    (destruct fuel as [|fuel]; [lia|]); (destruct R as [|x R]; [cbn in HR; lia|]); apply cells_head in Hc as [Hx Hc];
    cbn [map app] in Hl; apply letters_head in Hl as [Hb Hl]; cbn [follow]; rewrite Hx, Hb; cbn [mbind option_bind].
  - assert ((ToLower x =? e) && negb (e =? 0) || (e =? 65) = false) as ->.
    { destruct (ToLower_capital x). destruct He as [-> | ->]; [by rewrite andb_false_r|]. by rewrite (proj2 (Z.eqb_neq _ _)). }
    eexists _, _, _. split; [done|]. left. split_and!; [constructor|done|cbn; lia|cbn; lia].
  - destruct (enc_letter k Hk) as [H0 H90]. rewrite (proj2 (Z.eqb_neq _ _) H0). cbn [negb]. rewrite andb_true_r.
    destruct (_ || _) eqn:E.
    + apply enc_accepts in E; [|done].
      destruct (IH R fuel (s + dir) (b + 1)) as (s' & b' & cb & -> & H); [cbn in HR; lia|cbn in Hf; lia|done..|].
      exists s', b', cb. split; [done|]. destruct H as [(Hfit & -> & -> & ->)|(Hn & H)].
      * left. split_and!; [by constructor|done|cbn [length]; lia|cbn [length]; lia].
      * right. split; [|done]. intros Hfit. apply Hn. unfold fits in *. cbn in Hfit. by inv Hfit.
    + eexists _, _, _. split; [done|]. right. split; [|done]. intros Hfit. unfold fits in Hfit. cbn in Hfit. inv Hfit.
      apply not_true_iff_false in E. apply E. by apply enc_accepts.
Qed.

(** The head: the text ends with its terminator, the letters end at [e]. *)
Lemma head_ok p R e nx fuel s b :
  piece p -> cstring R -> (length p < fuel)%nat -> e = 0 \/ (e = 90 /\ rdb cmask (b + Z.of_nat (S (S (length p)))) = Some nx) ->
  cells 1 s (R ++ [0]) -> letters b (map enc p ++ [e]) ->
  exists r, head_loop before string cmask fuel s b = Some r /\
    match r with
    | Return r => (Forall2 accepts p R /\ r = if e =? 0 then 0 else bool_int (negb (nx =? 0))) \/
                  (r = 1 /\ (~ fits p R \/ e = 0 /\ (length p < length R)%nat))
    | Go (s', b') => e = 90 /\ fits p R /\ (length p < length R)%nat /\
                     s' = s + Z.of_nat (S (length p)) /\ b' = b + Z.of_nat (S (length p))
    end.
Proof.
  intros Hp. revert R fuel s b. induction Hp as [|k p (Hk & Hk42 & _) Hp IH]; intros R fuel s b HR Hf He Hc Hl;
    (destruct fuel as [|fuel]; [lia|]); cbn [map app] in Hl; apply letters_head in Hl as [Hb Hl]; cbn [head_loop].
  - destruct HR as [|x R Hx HR]; apply cells_head in Hc as [Hxs Hc]; rewrite Hxs, Hb; cbn [mbind option_bind].
    + cbn [Z.eqb]. destruct He as [-> |[-> He]]; cbn [Z.eqb Pos.eqb negb].
      * eexists. split; [done|]. left. split; [constructor|done].
      * change (Z.of_nat (S (S (length [])))) with 2 in He. rewrite He. cbn [mbind option_bind]. eexists. split; [done|]. left. split; [constructor|done].
    + assert (x <> 0) as Hx0 by (unfold is_char in Hx; lia). rewrite (proj2 (Z.eqb_neq _ _) Hx0).
      destruct (ToLower_capital x). assert (ToLower x <> 0) by (by rewrite ToLower_0_iff).
      destruct He as [-> |[-> He]]; rewrite (proj2 (Z.eqb_neq (ToLower x) _)) by done; cbn [Z.eqb Pos.eqb negb orb].
      * eexists. split; [done|]. right. split; [done|]. right. split; [done|cbn; lia].
      * eexists. split; [done|]. split_and!; [done|constructor|cbn; lia|cbn; lia|cbn; lia].
  - destruct (enc_letter k Hk) as [H0 H90]. destruct HR as [|x R Hx HR]; apply cells_head in Hc as [Hxs Hc]; rewrite Hxs, Hb; cbn [mbind option_bind].
    + cbn [Z.eqb]. rewrite (proj2 (Z.eqb_neq _ _) H0), (proj2 (Z.eqb_neq _ _) H90). cbn [negb]. eexists. split; [done|]. right.
      split; [done|]. left. intros H. apply fits_length in H. cbn in H. lia.
    + assert (x <> 0) as Hx0 by (unfold is_char in Hx; lia). rewrite (proj2 (Z.eqb_neq _ _) Hx0).
      destruct (_ || _) eqn:E.
      * apply enc_accepts in E; [|done]. destruct (IH R fuel (s + 1) (b + 1)) as (r & -> & H); [done|cbn in Hf; lia| |done..|].
        { destruct He as [->|[-> He]]; [by left|right]. split; [done|]. rewrite <- He. f_equal. cbn [length]. lia. }
        exists r. split; [done|]. destruct r as [r|[s' b']].
        -- destruct H as [[H ->]|[-> H]]; [left; split; [by constructor|done]|right]. split; [done|].
           destruct H as [H|[-> H]]; [left|right; split; [done|cbn; lia]]. intros Hfit. apply H. unfold fits in *. cbn in Hfit. by inv Hfit.
        -- destruct H as (-> & H1 & H2 & -> & ->). split_and!; [done|by constructor|cbn; lia|cbn [length]; lia|cbn [length]; lia].
      * rewrite (proj2 (Z.eqb_neq _ _) H90). cbn [negb]. eexists. split; [done|]. right. split; [done|]. left.
        intros Hfit. unfold fits in Hfit. cbn in Hfit. inv Hfit. apply not_true_iff_false in E. apply E. by apply enc_accepts.
Qed.
End follow.

(** *** The pieces in the middle *)
Lemma chunk_mono cs n s : chunk_in cs (drop n s) -> chunk_in cs s.
Proof.
  destruct cs as [|c cs]; [done|]. cbn [chunk_in]. intros (j & H1 & H2). rewrite !drop_drop in *.
  exists (n + j)%nat. by rewrite <- Nat.add_assoc.
Qed.

Lemma chunk_length cs s : Forall inner cs -> chunk_in cs s -> (length (concat cs) <= length s)%nat.
Proof.
  intros Hcs. revert s. induction Hcs as [|c cs [_ Hc] _ IH]; intros s; cbn [chunk_in concat]; [cbn; lia|].
  intros (j & H1%fits_length & H2%IH). rewrite length_app, length_drop in *. destruct Hc as (k & r & -> & _). cbn in *. lia.
Qed.

Lemma chunk_skip c cs j s : (forall i, (i < j)%nat -> ~ fits c (drop i s)) -> chunk_in (c :: cs) s <-> chunk_in (c :: cs) (drop j s).
Proof.
  intros Hno. split; [|apply chunk_mono]. cbn [chunk_in]. intros (i & H1 & H2).
  assert (Hi : (j <= i)%nat) by (destruct (decide (i < j)%nat); [by destruct (Hno i)|lia]).
  exists (i - j)%nat. rewrite !drop_drop. replace (j + (i - j))%nat with i by lia.
  by replace (j + (i - j + length c))%nat with (i + length c)%nat by lia.
Qed.

Lemma chunk_take c cs s : fits c s -> chunk_in (c :: cs) s <-> chunk_in cs (drop (length c) s).
Proof.
  intros Hf. split; cbn [chunk_in].
  - intros (j & _ & H). apply (chunk_mono _ j). rewrite drop_drop. by rewrite Nat.add_comm.
  - intros H. by exists O.
Qed.

Lemma fits_cons k c x s : fits (k :: c) (x :: s) <-> accepts k x /\ fits c s.
Proof. unfold fits. cbn. rewrite Forall2_cons. done. Qed.

Lemma fits_app p s r : (length p <= length s)%nat -> fits p (s ++ r) <-> fits p s.
Proof. intros H. unfold fits. by rewrite take_app_le. Qed.

Section chunks.
Context (before : Z) (string cmask : list Z).
Hypothesis Hstring : cstring string.

Lemma cells_string X R : string = X ++ R -> cells before string 1 (Z.of_nat (length X) - 1) (R ++ [0]).
Proof.
  intros E i x Hi. unfold rds. apply lookup_app_Some in Hi as Hi'.
  replace (Z.of_nat (length X) - 1 + 1 * Z.of_nat (S i)) with (Z.of_nat (length X + i)) by lia.
  rewrite (proj2 (Z.eqb_neq _ _)), (proj2 (Z.ltb_ge _ _)), Nat2Z.id by lia.
  assert (HL : (i <= length R)%nat) by (apply lookup_lt_Some in Hi; rewrite length_app in Hi; cbn in Hi; lia).
  rewrite rd_some by (rewrite E, length_app; lia). rewrite E, ch_app_r. f_equal. destruct Hi' as [Hi'|[H1 Hi']].
  - by apply ch_lookup.
  - rewrite ch_ge by lia. apply list_lookup_singleton_Some in Hi' as [_ ->]. done.
Qed.

Lemma letters_cmask U L V : cmask = U ++ L ++ V -> letters cmask (Z.of_nat (length U) - 1) (L ++ [hd0 V]).
Proof.
  intros E i x Hi. unfold rdb. pose proof (lookup_lt_Some _ _ _ Hi) as Hlt. rewrite length_app in Hlt. cbn in Hlt.
  replace (Z.of_nat (length U) - 1 + Z.of_nat (S i)) with (Z.of_nat (length U + i)) by lia.
  rewrite (proj2 (Z.ltb_ge _ _)), Nat2Z.id by lia. rewrite rd_some by (rewrite E, !length_app; lia). rewrite E, ch_app_r. f_equal.
  apply lookup_app_Some in Hi as [Hi|[H1 Hi]].
  - apply ch_lookup. by apply lookup_app_l_Some.
  - apply list_lookup_singleton_Some in Hi as [H2 <-]. replace i with (length L + 0)%nat by lia. rewrite ch_app_r. by destruct V.
Qed.

Lemma seek_ok k R trash s : solid k -> (trash < length R)%nat -> cells before string 1 s R ->
  (exists j x, seek before string trash (enc k) s = Some (Go (s + Z.of_nat (S j), (trash - j)%nat)) /\ (j <= trash)%nat /\
     R !! j = Some x /\ accepts k x /\ forall i y, (i < j)%nat -> R !! i = Some y -> ~ accepts k y) \/
  (seek before string trash (enc k) s = Some (Return 4) /\ forall i y, (i <= trash)%nat -> R !! i = Some y -> ~ accepts k y).
Proof.
  intros Hk. destruct Hk as (Hk & H42 & H63 & _).
  assert (Hacc : forall x, (ToLower x =? enc k) = true <-> accepts k x).
  { intros x. rewrite <- enc_accepts by done. assert (enc k <> 65) as ->%Z.eqb_neq; [|by rewrite orb_false_r].
    unfold enc. rewrite (proj2 (Z.eqb_neq _ _) H63). apply ToLower_capital. }
  revert R s. induction trash as [|trash IH]; intros [|x R] s HR Hc; try (cbn in HR; lia); apply cells_head in Hc as [Hx Hc];
    cbn [seek]; rewrite Hx; cbn [mbind option_bind]; destruct (ToLower x =? enc k) eqn:E.
  - left. exists O, x. apply Hacc in E. split_and!; [do 3 f_equal; lia|lia|done|done|lia].
  - right. split; [done|]. intros i y Hi Hy Ha. assert (i = O) as -> by lia. injection Hy as <-. apply Hacc in Ha. congruence.
  - left. exists O, x. apply Hacc in E. split_and!; [do 3 f_equal; lia|lia|done|done|lia].
  - assert (Hx0 : ~ accepts k x) by (intros Ha; apply Hacc in Ha; congruence).
    destruct (IH R (s + 1)) as [(j & y & -> & Hj & Hy & Ha & Hno)|[-> Hno]]; [cbn in HR; lia|done| |].
    + left. exists (S j), y. split_and!; [do 3 f_equal; lia|lia|done|done|]. intros [|i] z Hi Hz; [by injection Hz as <-|].
      apply (Hno i); [lia|done].
    + right. split; [done|]. intros [|i] z Hi Hz; [by injection Hz as <-|]. apply (Hno i); [lia|done].
Qed.

Definition code (cs : list (list Z)) : list Z := flat_map (fun c => 90 :: map enc c) cs.

Record chunk_inv (G : Prop) (st : chunk_state) : Prop := {
  ci_split : exists Pre rem Suf U c cs, string = Pre ++ rem ++ Suf /\ cs_s st = Z.of_nat (length Pre) - 1 /\
    cmask = U ++ code (c :: cs) /\ cs_bb st = Z.of_nat (length U) /\ Forall inner (c :: cs) /\
    (cs_trash st + length (concat (c :: cs)) = length rem)%nat /\ (G <-> chunk_in (c :: cs) rem) }.

Definition chunk_measure (st : chunk_state) : nat := (cs_trash st + (length cmask - Z.to_nat (cs_bb st)))%nat.

Lemma chunk_step_ok G st : chunk_inv G st ->
  exists o, chunk_step before string cmask st = Some o /\
    match o with
    | Ret r => (r = 0 /\ G) \/ (r <> 0 /\ ~ G)
    | Next st' => chunk_inv G st' /\ (chunk_measure st' < chunk_measure st)%nat
    end.
Proof.
  intros [(Pre & rem & Suf & U & c & cs & Hs & Hss & Hcm & Hbb & Hin & Htr & HG)].
  inversion Hin as [|? ? [Hpc Hc] Hcs]; subst. destruct Hc as (k & c' & -> & Hk).
  assert (Hpc' : piece c') by (by inv Hpc).
  cbn [concat] in Htr. rewrite length_app in Htr. cbn [length] in Htr.
  assert (Hletters : letters cmask (Z.of_nat (length (U ++ [90])) - 1) ((enc k :: map enc c') ++ [hd0 (code cs)])).
  { apply (letters_cmask (U ++ [90]) (map enc (k :: c')) (code cs)). rewrite Hcm. cbn. by rewrite <- !app_assoc. }
  assert (Hlen : Z.of_nat (length (U ++ [90])) - 1 = cs_bb st) by (rewrite Hbb, length_app; cbn; lia). rewrite Hlen in Hletters.
  cbn [app] in Hletters. apply letters_head in Hletters as [Hb Hl].
  unfold chunk_step. rewrite Hb. cbn [mbind option_bind]. destruct Hk as (Hkc & Hk') eqn:EHk. clear EHk.
  assert (Hsolid : solid k) by done. destruct (enc_letter k Hkc) as [Hk0 _]. rewrite (proj2 (Z.eqb_neq _ _) Hk0).
  assert (Hcells : cells before string 1 (cs_s st) ((rem ++ Suf) ++ [0])) by (rewrite Hss; by apply cells_string).
  assert (Hat : forall i, (i <= cs_trash st)%nat -> fits (k :: c') (drop i rem) -> exists y, ((rem ++ Suf) ++ [0]) !! i = Some y /\ accepts k y).
  { intros i Hi Hf. destruct (lookup_lt_is_Some_2 rem i) as [y Hy]; [lia|]. exists y. split.
    - rewrite <- app_assoc. by apply lookup_app_l_Some.
    - erewrite drop_S in Hf by done. by apply fits_cons in Hf as [? _]. }
  assert (Hfail : (forall i, (i <= cs_trash st)%nat -> ~ fits (k :: c') (drop i rem)) -> ~ G).
  { intros Hno. rewrite HG. cbn [chunk_in]. intros (j & Hf & Hr%chunk_length); [|done].
    apply (Hno j); [|done]. apply fits_length in Hf. rewrite length_drop in *. cbn in *. lia. }
  destruct (seek_ok k ((rem ++ Suf) ++ [0]) (cs_trash st) (cs_s st) Hsolid ltac:(rewrite !length_app; cbn; lia) Hcells)
    as [(j & x & -> & Hj & Hx & Hax & Hno)|[-> Hno]]; cbn [mbind option_bind].
  2: { eexists. split; [done|]. right. split; [done|]. apply Hfail. intros i Hi Hf. destruct (Hat i Hi Hf) as (y & Hy & Ha). by apply (Hno i y). }
  assert (Hearly : forall i, (i < j)%nat -> ~ fits (k :: c') (drop i rem)).
  { intros i Hi Hf. destruct (Hat i ltac:(lia) Hf) as (y & Hy & Ha). by apply (Hno i y). }
  assert (Hxr : rem !! j = Some x).
  { rewrite <- app_assoc in Hx. rewrite lookup_app_l in Hx by lia. done. }
  set (R := drop (S j) ((rem ++ Suf) ++ [0])).
  assert (HR : cells before string 1 (cs_s st + Z.of_nat (S j)) R).
  { intros i y Hy. unfold R in Hy. rewrite lookup_drop in Hy. rewrite <- (Hcells (S j + i)%nat y Hy). f_equal. lia. }
  assert (HRl : length R = (length rem + length Suf - j)%nat) by (unfold R; rewrite length_drop, !length_app; cbn; lia).
  assert (HRf : fits c' R <-> fits (k :: c') (drop j rem)).
  { erewrite (drop_S rem) by done. rewrite fits_cons. unfold R. rewrite <- app_assoc, drop_app_le by lia.
    rewrite fits_app by (rewrite length_drop; lia). tauto. }
  assert (He : hd0 (code cs) = 0 \/ hd0 (code cs) = 90) by (destruct cs; auto).
  destruct (follow_ok before string cmask c' R (hd0 (code cs)) (S (length cmask)) 1 (cs_s st + Z.of_nat (S j)) (cs_bb st + 1) Hpc')
    as (s' & b' & cb & -> & H); [lia| |done|done|done|].
  { rewrite Hcm. unfold code. cbn. rewrite !length_app. cbn. rewrite length_app, length_map. lia. }
  cbn [mbind option_bind]. destruct H as [(Hf & -> & -> & ->)|(Hf & H0 & H90)].
  - apply HRf in Hf. pose proof (chunk_skip (k :: c') cs j rem Hearly) as E. rewrite (chunk_take _ _ _ Hf) in E.
    rewrite drop_drop in E. destruct cs as [|c2 cs]; cbn [hd0 code flat_map app Z.eqb Pos.eqb].
    + eexists. split; [done|]. left. split; [done|]. apply HG, E. done.
    + eexists. split; [done|]. split.
      * constructor. exists (Pre ++ take (j + S (length c')) rem), (drop (j + S (length c')) rem), Suf, (U ++ 90 :: map enc (k :: c')), c2, cs.
        cbn [cs_s cs_bb cs_trash]. split_and!; [|rewrite length_app, length_take; lia| |rewrite length_app; cbn; rewrite length_map; lia|done| |by rewrite HG].
        -- by rewrite <- app_assoc, (app_assoc _ _ Suf), take_drop.
        -- rewrite Hcm. unfold code. cbn. by rewrite <- !app_assoc.
        -- rewrite length_drop. lia.
      * unfold chunk_measure. cbn [cs_bb cs_trash]. rewrite Hcm. unfold code. cbn. rewrite !length_app. cbn. rewrite !length_app, length_map. cbn. lia.
  - rewrite (proj2 (Z.eqb_neq _ _) H0), (proj2 (Z.eqb_neq _ _) H90). rewrite HRf in Hf.
    assert (Hupto : forall i, (i < S j)%nat -> ~ fits (k :: c') (drop i rem)).
    { intros i Hi. destruct (decide (i = j)) as [->|]; [done|]. apply Hearly. lia. }
    destruct (cs_trash st - j)%nat as [|t] eqn:Et.
    + eexists. split; [done|]. right. split; [done|]. apply Hfail. intros i Hi. apply Hupto. lia.
    + eexists. split; [done|]. split.
      * constructor. exists (Pre ++ take (S j) rem), (drop (S j) rem), Suf, U, (k :: c'), cs. cbn [cs_s cs_bb cs_trash].
        split_and!; [|rewrite length_app, length_take; lia|done|done|done| |].
        -- by rewrite <- app_assoc, (app_assoc _ _ Suf), take_drop.
        -- cbn [concat]. rewrite length_app, length_drop. cbn [length]. lia.
        -- rewrite HG. by apply chunk_skip.
      * unfold chunk_measure. cbn [cs_bb cs_trash]. lia.
Qed.
End chunks.

(** ** A compiled mask matches what the mask matches *)
Lemma cells_back before string : cells before string (-1) (Z.of_nat (length string)) (reverse string ++ [before]).
Proof.
  intros i x Hi. unfold rds. apply lookup_app_Some in Hi as [Hi|[H1 Hi]].
  - pose proof (lookup_lt_Some _ _ _ Hi) as Hlt. rewrite length_reverse in Hlt. rewrite reverse_lookup in Hi by done.
    replace (Z.of_nat (length string) + -1 * Z.of_nat (S i)) with (Z.of_nat (length string - S i)) by lia.
    rewrite (proj2 (Z.eqb_neq _ _)), (proj2 (Z.ltb_ge _ _)), Nat2Z.id, rd_some by lia. f_equal. by apply ch_lookup.
  - apply list_lookup_singleton_Some in Hi as [H2 ->]. rewrite length_reverse in *. by rewrite (proj2 (Z.eqb_eq _ _)) by lia.
Qed.

Lemma fits_back t s r : (length t <= length s)%nat ->
  fits (reverse t) (reverse s ++ r) <-> Forall2 accepts t (drop (length s - length t) s).
Proof.
  intros HL. rewrite fits_app by (by rewrite !length_reverse). unfold fits.
  rewrite <- (take_drop (length s - length t) s) at 1. set (s2 := drop (length s - length t) s).
  assert (H2 : length s2 = length t) by (unfold s2; rewrite length_drop; lia).
  rewrite reverse_app, take_app_le by (rewrite !length_reverse; lia). rewrite take_ge by (rewrite !length_reverse; lia).
  clearbody s2. clear. split; intros H.
  - rewrite <- (reverse_involutive t), <- (reverse_involutive s2). by apply Forall2_reverse.
  - by apply Forall2_reverse.
Qed.

Lemma code_head cs : hd0 (code cs) = match cs with [] => 0 | _ => 90 end.
Proof. by destruct cs. Qed.

Lemma matchexec_flat before p string : piece p -> cstring string ->
  exists r, matchexec before string (map enc p) (Z.of_nat (length p)) = Some (Some r) /\ (r = 0 <-> Forall2 accepts p string).
Proof.
  intros Hp Hs. unfold matchexec.
  destruct (head_ok before string (map enc p) p string 0 0 (S (length (map enc p))) (-1) (-1)) as (r & -> & H);
    [done|done|rewrite length_map; lia|by left|by apply (cells_string before string [])| |].
  { apply (letters_cmask (map enc p) [] (map enc p) []). cbn. by rewrite app_nil_r. }
  cbn [mbind option_bind]. destruct r as [r|[s' b']]; [|by destruct H]. exists r. split; [done|].
  destruct H as [[H ->]|[-> H]]; [done|]. split; [done|]. intros HF. exfalso.
  pose proof (Forall2_length _ _ _ HF) as HL. destruct H as [H|[_ H]]; [|lia]. apply H. unfold fits. by rewrite HL, firstn_all.
Qed.

Lemma matchexec_arranged before h cs t string : piece h -> Forall inner cs -> piece t -> cstring string ->
  exists r, matchexec before string (arranged h cs t) (Z.of_nat (length h + length (concat cs) + length t)) = Some (Some r) /\
    (r = 0 <-> glob (h ++ flat_map (fun c => 42 :: c) cs ++ 42 :: t) string).
Proof.
  intros Hh Hcs Ht Hs. setoid_rewrite glob_piece; [|done]. setoid_rewrite glob_pieces; [|done..]. rewrite length_drop.
  set (cmask := arranged h cs t). set (minlen := Z.of_nat (length h + length (concat cs) + length t)).
  assert (Hcm : cmask = map enc h ++ 90 :: map enc (reverse t) ++ code cs) by (unfold cmask, arranged; by rewrite <- fmap_reverse).
  assert (Hneed : fits h string /\ (length t <= length string - length h)%nat /\
    chunk_in cs (take (length string - length h - length t) (drop (length h) string)) -> minlen <= Z.of_nat (length string)).
  { intros (H1%fits_length & H2 & H3%chunk_length); [|done]. rewrite length_take, length_drop in H3. unfold minlen. lia. }
  unfold matchexec.
  destruct (head_ok before string cmask h string 90 (hd0 (map enc (reverse t) ++ code cs)) (S (length cmask)) (-1) (-1)) as (r & -> & H);
    [done|done| | |by apply (cells_string before string [])| |].
  { rewrite Hcm, length_app, length_map. lia. }
  { right. split; [done|]. unfold rdb. rewrite (proj2 (Z.ltb_ge _ _)) by lia.
    replace (Z.to_nat (-1 + Z.of_nat (S (S (length h))))) with (length (map enc h ++ [90%Z]) + 0)%nat by (rewrite length_app, length_map; cbn; lia).
    rewrite rd_some by (rewrite Hcm, !length_app; cbn; lia). rewrite Hcm.
    change (map enc h ++ 90 :: map enc (reverse t) ++ code cs) with (map enc h ++ [90] ++ (map enc (reverse t) ++ code cs)).
    rewrite (app_assoc (map enc h)), ch_app_r. by destruct (map enc (reverse t) ++ code cs). }
  { apply (letters_cmask cmask [] (map enc h) (90 :: map enc (reverse t) ++ code cs)). done. }
  cbn [mbind option_bind]. destruct r as [r|[s' b']].
  - exists r. split; [done|]. destruct H as [[H ->]|[-> [H|[[=] _]]]]; [|split; [done|]; by intros [? _]].
    pose proof (Forall2_length _ _ _ H) as HL. assert (Hf : fits h string) by (unfold fits; by rewrite HL, firstn_all).
    change (90 =? 0) with false. cbn iota. rewrite HL, Nat.sub_diag, drop_all. split.
    + intros Hr. assert (hd0 (map enc (reverse t) ++ code cs) = 0) as H0.
      { destruct (Z.eqb_spec (hd0 (map enc (reverse t) ++ code cs)) 0); [done|]. done. }
      destruct t as [|k t].
      * destruct cs; [|done]. split_and!; [done|cbn; lia|constructor|done].
      * exfalso. assert (Hr' : piece (reverse (k :: t))) by (by apply Forall_reverse).
        destruct (reverse (k :: t)) as [|k' t'] eqn:E; [apply (f_equal length) in E; rewrite length_reverse in E; done|].
        cbn in H0. inv Hr'. destruct (enc_letter k'); naive_solver.
    + intros (_ & HL' & _ & Hc). destruct t; [|cbn in HL'; lia]. apply chunk_length in Hc; [|done]. cbn in Hc.
      destruct cs as [|c cs]; [done|]. inv Hcs. destruct H2 as [_ (k & c' & -> & _)]. cbn in Hc. lia.
  - destruct H as (_ & Hf & Hlt & -> & ->). 
    destruct (Z.ltb_spec (Z.of_nat (length string) - minlen) 0) as [Hneg|Hpos].
    { eexists. split; [done|]. split; [done|]. intros (_ & H1 & _ & H3). exfalso. assert (minlen <= Z.of_nat (length string)) by (by apply Hneed). lia. }
    assert (HT : (length h + length (concat cs) + length t <= length string)%nat) by (unfold minlen in Hpos; lia).
    set (b := -1 + Z.of_nat (S (length h))).
    destruct (follow_ok before string cmask (reverse t) (reverse string ++ [before]) (hd0 (code cs)) (S (length cmask)) (-1) (Z.of_nat (length string)) b)
      as (s' & b' & cb & -> & H); [by apply Forall_reverse| | | |apply cells_back| |].
    { rewrite length_app, !length_reverse. cbn. lia. }
    { rewrite Hcm, !length_app. cbn. rewrite length_app, !length_map, length_reverse. lia. }
    { rewrite code_head. destruct cs; auto. }
    { replace b with (Z.of_nat (length (map enc h ++ [90])) - 1) by (unfold b; rewrite length_app, length_map; cbn; lia).
      apply (letters_cmask cmask (map enc h ++ [90]) (map enc (reverse t)) (code cs)). rewrite Hcm. by rewrite <- app_assoc. }
    rewrite fits_back in H by lia.
    assert (HD : forall P : list Z -> Prop, P (drop (length string - length t) string) <->
      P (drop (length string - length h - length t) (drop (length h) string))).
    { intros P. rewrite drop_drop. by replace (length h + (length string - length h - length t))%nat with (length string - length t)%nat by lia. }
    rewrite (HD (Forall2 accepts t)) in H. cbn [mbind option_bind].
    destruct H as [(Htl & -> & -> & ->)|(Htl & H0 & H90)].
    2: { rewrite (proj2 (Z.eqb_neq _ _) H0), (proj2 (Z.eqb_neq _ _) H90). eexists. split; [done|]. split; [done|]. by intros (_ & _ & ? & _). }
    rewrite code_head. destruct cs as [|c cs]; cbn [Z.eqb Pos.eqb negb].
    { eexists. split; [done|]. split; [|done]. intros _. split_and!; [done|lia|done|done]. }
    set (rem := take (length string - length h - length t) (drop (length h) string)).
    destruct (loop_total (chunk_step before string cmask) (chunk_inv string cmask (chunk_in (c :: cs) rem)) (chunk_measure cmask)
      (fun r => (r = 0 /\ chunk_in (c :: cs) rem) \/ (r <> 0 /\ ~ chunk_in (c :: cs) rem)) ltac:(intros st Hst; by apply chunk_step_ok)
      (length string + length cmask + 1)
      (MkChunk (b - 1) (b + Z.of_nat (S (length (reverse t)))) (Z.to_nat (Z.of_nat (length string) - minlen))))
      as (r & -> & Hr).
    + constructor. exists (take (length h) string), rem, (drop (length string - length t) string), (map enc h ++ 90 :: map enc (reverse t)), c, cs.
      cbn [cs_s cs_bb cs_trash]. split_and!.
      * unfold rem. rewrite <- (take_drop (length h) string) at 1. f_equal.
        rewrite <- (take_drop (length string - length h - length t) (drop (length h) string)) at 1. f_equal. rewrite drop_drop. f_equal. lia.
      * unfold b. rewrite length_take. lia.
      * rewrite Hcm. by rewrite <- app_assoc.
      * unfold b. rewrite length_app. cbn. rewrite !length_map. lia.
      * done.
      * unfold rem, minlen. rewrite length_take, length_drop. lia.
      * done.
    + unfold chunk_measure. cbn [cs_bb cs_trash]. unfold minlen. lia.
    + exists r. split; [done|]. destruct Hr as [[-> Hr]|[Hr0 Hr]].
      * split; [|done]. intros _. split_and!; [done|lia|done|done].
      * split; [done|]. by intros (_ & _ & _ & ?).
Qed.

(** The compiled mask is not longer than the mask. *)
Lemma length_swap i j buf b : swap i j buf = Some b -> length b = length buf.
Proof.
  unfold swap. destruct (buf !! i); [|done]. cbn [mbind option_bind]. destruct (buf !! j); [|done]. cbn [mbind option_bind].
  intros [= <-]. by rewrite !length_insert.
Qed.

Lemma length_reverse_loop fuel x1 x2 buf b : reverse_loop fuel x1 x2 buf = Some b -> length b = length buf.
Proof.
  revert x1 x2 buf. induction fuel as [|fuel IH]; intros x1 x2 buf; cbn [reverse_loop]; (case_match; [|by intros [= ->]]); [done|].
  destruct (swap x1 x2 buf) as [b1|] eqn:E; [|done]. cbn [mbind option_bind]. intros ->%IH. by eapply length_swap.
Qed.

Lemma length_swap_blocks n x1 x2 buf b : swap_blocks n x1 x2 buf = Some b -> length b = length buf.
Proof.
  revert x1 x2 buf. induction n as [|n IH]; intros x1 x2 buf; cbn [swap_blocks]; [by intros [= ->]|].
  destruct (swap x1 x2 buf) as [b1|] eqn:E; [|done]. cbn [mbind option_bind]. intros ->%IH. by eapply length_swap.
Qed.

Lemma length_rotate_loop fuel x1 l1 l2 buf b : rotate_loop fuel x1 l1 l2 buf = Some b -> length b = length buf.
Proof.
  revert x1 l1 l2 buf. induction fuel as [|fuel IH]; intros x1 l1 l2 buf; cbn [rotate_loop]; (case_match; [by intros [= ->]|]); [done|].
  destruct (swap_blocks _ x1 (x1 + l1) buf) as [b1|] eqn:E; [|done]. cbn [mbind option_bind]. intros ->%IH. by eapply length_swap_blocks.
Qed.

Definition room (c : compiler) : nat := (length (out c) + if pending_star c then 1 else 0)%nat.

Lemma room_put_char ch c : room (put_char ch c) = S (room c).
Proof. unfold room, put_char, put_star. destruct (pending_star c) eqn:E; cbn; rewrite ?E, !length_app; cbn; lia. Qed.

Lemma comp_loop_room m c : (room (comp_loop m c) <= room c + length m)%nat.
Proof.
  revert c. induction m as [m IH] using (induction_ltof1 _ length). intros c. destruct m as [|x m]; cbn [comp_loop length]; [lia|].
  assert (Hlt : forall m', (length m' < S (length m))%nat -> forall c, (room (comp_loop m' c) <= room c + length m')%nat) by (intros; by apply IH).
  pose proof (room_put_char x c) as Hx. destruct (x =? 42); [|destruct (x =? 63); [|destruct (x =? 92)]].
  - etrans; [apply Hlt; lia|]. unfold room. cbn. destruct (pending_star c); lia.
  - etrans; [apply Hlt; lia|]. unfold room. cbn. rewrite length_app. cbn. lia.
  - destruct m as [|d m]; [cbn [comp_loop]; rewrite Hx; cbn; lia|]. case_match.
    + etrans; [apply Hlt; cbn; lia|]. rewrite room_put_char. cbn. lia.
    + etrans; [apply Hlt; cbn; lia|]. rewrite Hx. cbn. lia.
  - etrans; [apply Hlt; lia|]. rewrite Hx. lia.
Qed.

Lemma matchcomp_fits mask cmask n cs : matchcomp mask = Some (cmask, n, cs) -> (length cmask <= length mask)%nat.
Proof.
  pose proof (comp_loop_room mask comp_init) as H. unfold room in H. cbn [out comp_init pending_star length] in H. unfold matchcomp.
  set (c := comp_loop mask comp_init) in *.
  assert (Hl : length (out (if pending_star c then put_star c else c)) = (length (out c) + if pending_star c then 1 else 0)%nat).
  { destruct (pending_star c); [unfold put_star; cbn [out]; by rewrite length_app|lia]. }
  set (c' := if pending_star c then put_star c else c) in *.
  destruct (ls c') as [l1|], (fs c') as [f1|]; cbn [mbind option_bind]; try (intros [= <- _ _]; lia).
  destruct (reverse_loop _ _ _ _) as [b1|] eqn:E1; [|done]. cbn [mbind option_bind].
  destruct (rotate_loop _ _ _ _ _) as [b2|] eqn:E2; [|done]. cbn [mbind option_bind]. intros [= <- _ _].
  apply length_rotate_loop in E2. apply length_reverse_loop in E1. lia.
Qed.

(** C13: compiling a mask and running the result is matching: for every mask
    without a backslash matchcomp() returns, within a buffer of the mask's length,
    its least length bounds the names the mask matches, and matchexec() with the
    two returns, for every name and whatever byte lies in front of it, 0 exactly
    when the mask matches the name, as match() does for a mask that is not
    empty. *)
Theorem matchcomp_matchexec before mask name :
  plain_mask mask -> cstring name ->
  exists cmask minlen charset, matchcomp mask = Some (cmask, minlen, charset) /\
  (length cmask <= length mask)%nat /\ (glob mask name -> minlen <= Z.of_nat (length name)) /\
  exists r, matchexec before name cmask minlen = Some (Some r) /\ (r = 0 <-> glob mask name) /\
    (mask <> [] -> (r = 0 <-> ircd_match mask name = Some (Some 0))).
Proof.
  intros Hm Hn. pose proof (matchcomp_fits mask) as Hlen. pose proof (matchcomp_parts mask Hm) as Hparts.
  destruct (matchcomp mask) as [[[cmask minlen] charset]|];
    [|by destruct Hparts as [(p & _ & [=] & _)|(h & cs & t & _ & _ & _ & [=] & _)]].
  cbn [fmap option_fmap option_map fst] in Hparts. exists cmask, minlen, charset. split; [done|]. split; [by eapply Hlen|].
  assert (Hgo : (glob mask name -> minlen <= Z.of_nat (length name)) /\
    exists r, matchexec before name cmask minlen = Some (Some r) /\ (r = 0 <-> glob mask name)).
  { destruct Hparts as [(p & Hp & [= -> ->] & E)|(h & cs & t & Hh & Hcs & Ht & [= -> ->] & E)].
    - rewrite (E name), glob_piece_all by done. split; [intros H%Forall2_length; lia|].
      destruct (matchexec_flat before p name Hp Hn) as (r & -> & Hr). exists r. by rewrite (E name), glob_piece_all.
    - assert (Hpt : piece t) by (destruct Ht as [->|[? _]]; [constructor|done]). split.
      + rewrite (E name), glob_piece, glob_pieces, length_drop by done. intros (H1%fits_length & H2 & _ & H3%chunk_length); [|done].
        rewrite length_take, length_drop in H3. lia.
      + destruct (matchexec_arranged before h cs t name Hh Hcs Hpt Hn) as (r & -> & Hr). exists r. by rewrite (E name). }
  destruct Hgo as [H1 (r & H2 & H3)]. split; [done|]. exists r. split_and!; [done|done|]. intros Hne.
  destruct (match_decides mask name Hm Hn (or_introl Hne)) as (r' & -> & [[-> H]|[-> H]]); rewrite H3; split; intros ?; done.
Qed.

Lemma matchcomp_matchexec_witness :
  exists cmask minlen charset, matchcomp (lit "He*Ch?nk*mid*?TAIL") = Some (cmask, minlen, charset) /\
  cmask = lit "heZliatZchAnkZmidA" /\ exists r, matchexec 7 (lit "headCHANKmidmidxxtail") cmask minlen = Some (Some r) /\ r = 0.
Proof.
  destruct (matchcomp_matchexec 7 (lit "He*Ch?nk*mid*?TAIL") (lit "headCHANKmidmidxxtail") ltac:(by_decide) ltac:(by_decide))
    as (cmask & minlen & charset & E & _ & _ & r & Er & _ & _).
  exists cmask, minlen, charset. split; [exact E|]. vm_compute in E. injection E as <- <- <-. split; [reflexivity|].
  exists r. split; [exact Er|]. vm_compute in Er. by injection Er.
Defined.
