(* ===== verification/IrcdString.v ===== *)
(** * ircd/ircd_string.c: string utilities

    Strings are the lists of codes before the terminator.  Functions that
    cut their argument in place by storing NULs return the pieces. *)
From S2P Require Import Prelude Chattr.

(** ** Comparison *)

(** The loop of ircd_strcmp(): the result is 0 or the difference of the first
    two (signed) characters that differ, not translated. *)
Fixpoint ircd_strcmp (a b : list Z) : Z :=
  if ToLower (hd0 a) =? ToLower (hd0 b) then
    match a with
    | [] => 0
    | _ :: a' => ircd_strcmp a' (tl b)
    end
  else schar (hd0 a) - schar (hd0 b).

(** [more] counts the characters that may still be compared after this one. *)
Fixpoint strncmp_loop (more : nat) (a b : list Z) : Z :=
  if ToLower (hd0 a) =? ToLower (hd0 b) then
    match a with
    | [] => 0
    | _ :: a' =>
        match more with
        | O => 0
        | S more' => strncmp_loop more' a' (tl b)
        end
    end
  else schar (hd0 a) - schar (hd0 b).

Definition ircd_strncmp (a b : list Z) (n : nat) : Z :=
  match n with
  | O => 0
  | S more => strncmp_loop more a b
  end.

(** ** Copying *)

(** The bytes ircd_strncpy() stores from [s1] on.  [n] is the distance to
    [endp]; the byte at [endp] is stored only when the loop stops there. *)
Fixpoint strncpy_bytes (s2 : list Z) (n : nat) : list Z :=
  match n with
  | O => [0]
  | S n' =>
      match s2 with
      | [] => 0 :: (if decide (n' = 0)%nat then [0] else [])
      | x :: r => x :: strncpy_bytes r n'
      end
  end.

(** Storing [w] from the start of a buffer; [None] when it does not fit. *)
Definition store (w buf : list Z) : option (list Z) :=
  if decide (length w <= length buf)%nat
  then Some (w ++ drop (length w) buf) else None.

Definition ircd_strncpy (s1 s2 : list Z) (n : nat) : option (list Z) :=
  store (strncpy_bytes s2 n) s1.

(** The C string held by a buffer. *)
Fixpoint cstr (buf : list Z) : list Z :=
  match buf with
  | [] => []
  | x :: r => if x =? 0 then [] else x :: cstr r
  end.

Definition substr (pstr : list Z) (start numchars : nat) : list Z :=
  take numchars (drop start pstr).

(** ** Wildcards and tokens *)
Fixpoint string_has_wildcards (s : list Z) : bool :=
  match s with
  | [] => false
  | x :: r =>
      if x =? 92 then
        match r with
        | [] => false
        | _ :: r' => string_has_wildcards r'
        end
      else if (x =? 42) || (x =? 63) then true
      else string_has_wildcards r
  end.

(** strchr(fs, c) != NULL for a character of a string. *)
Definition in_chars (fs : list Z) (c : Z) : bool := existsb (Z.eqb c) fs.

Fixpoint skip_sep (fs s : list Z) : list Z :=
  match s with
  | x :: r => if in_chars fs x then skip_sep fs r else s
  | [] => []
  end.

(** The token and, when a separator ends it, what follows the separator. *)
Fixpoint take_token (fs s : list Z) : list Z * option (list Z) :=
  match s with
  | [] => ([], None)
  | x :: r =>
      if in_chars fs x then ([], Some r)
      else let (t, rest) := take_token fs r in (x :: t, rest)
  end.

(** ircd_strtok(): [pos] is [str] on the first call and [*save] on later ones;
    the result is the token and the new [*save]. *)
Definition ircd_strtok (pos : option (list Z)) (fs : list Z)
  : option (list Z * option (list Z)) :=
  match pos with
  | None => None
  | Some s =>
      match skip_sep fs s with
      | [] => None
      | s' => Some (take_token fs s')
      end
  end.

(** The loop [for (t = strtok(...); t; t = strtok(...))] collecting tokens. *)
Fixpoint strtok_all (fuel : nat) (pos : option (list Z)) (fs : list Z) : list (list Z) :=
  match fuel with
  | O => []
  | S fuel =>
      match ircd_strtok pos fs with
      | None => []
      | Some (t, save) => t :: strtok_all fuel save fs
      end
  end.

Definition tokens (s fs : list Z) : list (list Z) := strtok_all (S (length s)) (Some s) fs.

Definition comma : list Z := [44].

(** canonize(): the body of the outer loop appends the token to cbuf unless the
    inner loop finds an equal one there. *)
Definition canonize_step (cbuf : list Z) (s : list Z) : list Z :=
  if existsb (fun t => ircd_strcmp s t =? 0) (tokens cbuf comma) then cbuf
  else match cbuf with
       | [] => s
       | _ => cbuf ++ comma ++ s
       end.

Definition canonize (buffer : list Z) : list Z :=
  foldl canonize_step [] (tokens buffer comma).

(** unique_name_vector(): [count] names have been stored in [vector]. *)
Fixpoint skip_char (token : Z) (s : list Z) : list Z :=
  match s with
  | x :: r => if x =? token then skip_char token r else s
  | [] => []
  end.

Definition name_known (vector : list (list Z)) (start : list Z) : bool :=
  existsb (fun v => ircd_strcmp v start =? 0) vector.

Fixpoint unv_loop (fuel : nat) (token : Z) (size : nat) (vector : list (list Z))
    (start : list Z) : list (list Z) :=
  match fuel with
  | O => vector
  | S fuel =>
      match split_at token start with
      | Some (name, after) =>
          let start' := skip_char token after in
          if name_known vector name then unv_loop fuel token size vector start'
          else
            let vector' := vector ++ [name] in
            if (length vector' =? size)%nat then vector'
            else unv_loop fuel token size vector' start'
      | None =>
          match start with
          | [] => vector
          | _ => if name_known vector start then vector else vector ++ [start]
          end
      end
  end.

Definition unique_name_vector (l : list Z) (token : Z) (size : nat) : list (list Z) :=
  unv_loop (S (length l)) token size [] (skip_char token l).

(** token_vector(): every stored pointer is the text up to the next cut. *)
Fixpoint tv_loop (fuel : nat) (token : Z) (size count : nat) (start : list Z)
  : list (list Z) :=
  match fuel with
  | O => [start]
  | S fuel =>
      match split_at token start with
      | None => [start]
      | Some (name, after) =>
          match after with
          | [] => [name]
          | _ => if (S count <? size)%nat
                 then name :: tv_loop fuel token size (S count) after
                 else [name; after]
          end
      end
  end.

Definition token_vector (l : list Z) (token : Z) (size : nat) : list (list Z) :=
  tv_loop (S (length l)) token size 1 l.

Definition host_from_uh (host userhost : list Z) (n : nat) : option (list Z) :=
  let s := match split_at 64 userhost with Some (_, s) => s | None => userhost end in
  buf ← ircd_strncpy host s n;
  if decide (n < length buf)%nat then Some (<[n := 0]> buf) else None.

(** ** Dotted quads *)
Definition IpQuadStrings : list String.string :=
  [
    "0"; "1"; "2"; "3"; "4"; "5"; "6"; "7"; "8"; "9";
    "10"; "11"; "12"; "13"; "14"; "15"; "16"; "17"; "18"; "19";
    "20"; "21"; "22"; "23"; "24"; "25"; "26"; "27"; "28"; "29";
    "30"; "31"; "32"; "33"; "34"; "35"; "36"; "37"; "38"; "39";
    "40"; "41"; "42"; "43"; "44"; "45"; "46"; "47"; "48"; "49";
    "50"; "51"; "52"; "53"; "54"; "55"; "56"; "57"; "58"; "59";
    "60"; "61"; "62"; "63"; "64"; "65"; "66"; "67"; "68"; "69";
    "70"; "71"; "72"; "73"; "74"; "75"; "76"; "77"; "78"; "79";
    "80"; "81"; "82"; "83"; "84"; "85"; "86"; "87"; "88"; "89";
    "90"; "91"; "92"; "93"; "94"; "95"; "96"; "97"; "98"; "99";
    "100"; "101"; "102"; "103"; "104"; "105"; "106"; "107"; "108"; "109";
    "110"; "111"; "112"; "113"; "114"; "115"; "116"; "117"; "118"; "119";
    "120"; "121"; "122"; "123"; "124"; "125"; "126"; "127"; "128"; "129";
    "130"; "131"; "132"; "133"; "134"; "135"; "136"; "137"; "138"; "139";
    "140"; "141"; "142"; "143"; "144"; "145"; "146"; "147"; "148"; "149";
    "150"; "151"; "152"; "153"; "154"; "155"; "156"; "157"; "158"; "159";
    "160"; "161"; "162"; "163"; "164"; "165"; "166"; "167"; "168"; "169";
    "170"; "171"; "172"; "173"; "174"; "175"; "176"; "177"; "178"; "179";
    "180"; "181"; "182"; "183"; "184"; "185"; "186"; "187"; "188"; "189";
    "190"; "191"; "192"; "193"; "194"; "195"; "196"; "197"; "198"; "199";
    "200"; "201"; "202"; "203"; "204"; "205"; "206"; "207"; "208"; "209";
    "210"; "211"; "212"; "213"; "214"; "215"; "216"; "217"; "218"; "219";
    "220"; "221"; "222"; "223"; "224"; "225"; "226"; "227"; "228"; "229";
    "230"; "231"; "232"; "233"; "234"; "235"; "236"; "237"; "238"; "239";
    "240"; "241"; "242"; "243"; "244"; "245"; "246"; "247"; "248"; "249";
    "250"; "251"; "252"; "253"; "254"; "255"]%string.

(** An entry of IpQuadTab. *)
Definition IpQuadTab (a : Z) : list Z := nth (Z.to_nat a) (map lit IpQuadStrings) [].

Definition dot : list Z := [46].

(** ircd_ntoa_r(): the four bytes of the address in memory order. *)
Definition ircd_ntoa_r (a0 a1 a2 a3 : Z) : list Z :=
  IpQuadTab a0 ++ dot ++ IpQuadTab a1 ++ dot ++ IpQuadTab a2 ++ dot ++ IpQuadTab a3.

(** ** Cleaning text *)

(** Drops the character at the pointer when it is a digit. *)
Definition opt_digit (s : list Z) : list Z :=
  match s with
  | x :: r => if IsDigit x then r else s
  | [] => []
  end.

(** What follows the colour character: one or two digits, then a comma with up
    to two digits, only when a digit came first. *)
Definition skip_colour (s : list Z) : list Z :=
  match s with
  | x :: r =>
      if IsDigit x then
        let s := opt_digit r in
        match s with
        | y :: r' => if y =? 44 then opt_digit (opt_digit r') else s
        | [] => []
        end
      else s
  | [] => []
  end.

Definition is_ctrl_dropped (x : Z) : bool :=
  existsb (Z.eqb x) [1; 2; 9; 10; 13; 22; 31].

Fixpoint normalize_loop (fuel : nat) (s : list Z) : list Z :=
  match fuel with
  | O => []
  | S fuel =>
      match s with
      | [] => []
      | x :: r =>
          if x =? 3 then normalize_loop fuel (skip_colour r)
          else if is_ctrl_dropped x then normalize_loop fuel r
          else x :: normalize_loop fuel r
      end
  end.

Definition normalizeBuffer (buf : list Z) : list Z := normalize_loop (length buf) buf.

Definition issp (x : Z) : bool := x =? 32.

(** The inner loops of doCleanBuffer(); [run] is set while spaces that follow a
    written character are being skipped. *)
Fixpoint clean_loop (run : bool) (s : list Z) : list Z :=
  match s with
  | [] => []
  | x :: r =>
      if issp x then clean_loop true r
      else (if run then [32] else []) ++ x :: clean_loop false r
  end.

Fixpoint skip_spaces (s : list Z) : list Z :=
  match s with
  | x :: r => if issp x then skip_spaces r else s
  | [] => []
  end.

Definition doCleanBuffer (s : list Z) : list Z := clean_loop false (skip_spaces s).

(** strncasecmp() of the C library on the ASCII letters. *)
Definition ascii_lower (x : Z) : Z := if (65 <=? x) && (x <=? 90) then x + 32 else x.

Definition same_nocase (a b : list Z) : bool :=
  bool_decide (map ascii_lower a = map ascii_lower b).

(** The scan [for (i = 0; i <= hlength - nlength; i++)]. *)
Fixpoint strcasestr_loop (tries : nat) (i : nat) (haystack needle : list Z) : option nat :=
  match tries with
  | O => None
  | S tries =>
      if same_nocase (take (length needle) (drop i haystack)) needle then Some i
      else strcasestr_loop tries (S i) haystack needle
  end.

(** my_strcasestr(): the offset of the first occurrence. *)
Definition my_strcasestr (haystack needle : list Z) : option nat :=
  if (length haystack <? length needle)%nat then None
  else if (length haystack =? 0)%nat then None
  else if (length needle =? 0)%nat then Some 0%nat
  else strcasestr_loop (S (length haystack - length needle)) 0 haystack needle.

Definition TEXTBAN_WORD_LEFT : Z := 1.
Definition TEXTBAN_WORD_RIGHT : Z := 2.

(** parse_word(): [first] tells that the pointer is at the start of [s]. *)
Fixpoint parse_word_loop (first : bool) (s : list Z) : list Z * Z :=
  match s with
  | [] => ([], 0)
  | x :: r =>
      let (w, t) := parse_word_loop false r in
      if x =? 42 then
        (w, Z.lor t (Z.lor (if first then TEXTBAN_WORD_LEFT else 0)
                           (match r with [] => TEXTBAN_WORD_RIGHT | _ => 0 end)))
      else (x :: w, t)
  end.

Definition parse_word (s : list Z) : list Z * Z := parse_word_loop true s.

(** ** Lemmas: comparison *)
Lemma strcmp_nil b : cstring b -> ircd_strcmp [] b = 0 <-> lower [] = lower b.
Proof.
  intros Hb. destruct b as [|y b]; [done|]. apply Forall_cons in Hb as [Hy Hb].
  cbn -[ToLower]. pose proof (ToLower_is_char y Hy) as Hl. unfold is_char in *.
  rewrite ToLower_0.
  destruct (0 =? ToLower y) eqn:E; bprop; [lia|].
  split; [|discriminate]. unfold schar. bcase; bprop; lia.
Qed.

Lemma schar_inj x y : 0 <= x < 256 -> 0 <= y < 256 -> schar x = schar y -> x = y.
Proof. unfold schar. bcase; bprop; lia. Qed.

Lemma strcmp_differ x y :
  0 <= x < 256 -> 0 <= y < 256 -> ToLower x <> ToLower y -> schar x - schar y <> 0.
Proof. intros Hx Hy H E. apply H. f_equal. apply schar_inj; [done..|lia]. Qed.

Lemma strcmp_0 a b :
  cstring a -> cstring b -> ircd_strcmp a b = 0 <-> lower a = lower b.
Proof.
  intros Ha. revert b; induction a as [|x a IH]; intros b Hb; [by apply strcmp_nil|].
  apply Forall_cons in Ha as [Hx Ha]. specialize (IH Ha).
  pose proof (ToLower_is_char x Hx) as Hl. unfold is_char in *.
  destruct b as [|y b].
  - cbn -[ToLower]. rewrite ToLower_0. destruct (ToLower x =? 0) eqn:E; bprop; [lia|].
    split; [|discriminate]. unfold schar. bcase; bprop; lia.
  - apply Forall_cons in Hb as [Hy Hb]. cbn [ircd_strcmp hd0 tl].
    assert (lower (x :: a) = lower (y :: b) <-> ToLower x = ToLower y /\ lower a = lower b) as ->.
    { unfold lower. simpl. split; [by intros [= -> ->]|by intros [-> ->]]. }
    destruct (ToLower x =? ToLower y) eqn:E; bprop; [by rewrite (IH b Hb), E; intuition|].
    split; [|by intros [? _]].
    intros E'. exfalso. eapply strcmp_differ; [| |exact E|exact E']; unfold is_char in *; lia.
Qed.

(** ** Lemmas: tokens *)
Definition no_sep (fs t : list Z) : Prop := Forall (fun x => in_chars fs x = false) t.

Lemma take_token_spec fs s :
  let (t, r) := take_token fs s in
  no_sep fs t /\
  match r with
  | None => s = t
  | Some r => exists x, in_chars fs x = true /\ s = t ++ x :: r
  end.
Proof.
  induction s as [|x s IH]; simpl; [split; [constructor|done]|].
  destruct (in_chars fs x) eqn:E; [split; [constructor|by exists x]|].
  destruct (take_token fs s) as [t [r|]]; destruct IH as [Hn IH].
  - destruct IH as (y & Hy & ->). split; [by constructor|by exists y].
  - subst. split; [by constructor|done].
Qed.

Lemma take_token_app fs t x r :
  no_sep fs t -> in_chars fs x = true -> take_token fs (t ++ x :: r) = (t, Some r).
Proof.
  intros Ht Hx. induction Ht as [|y t Hy Ht IH]; simpl; [by rewrite Hx|].
  by rewrite Hy, IH.
Qed.

Lemma take_token_last fs t : no_sep fs t -> take_token fs t = (t, None).
Proof. induction 1 as [|y t Hy Ht IH]; simpl; [done|]. by rewrite Hy, IH. Qed.

Lemma skip_sep_length fs s : (length (skip_sep fs s) <= length s)%nat.
Proof. induction s; simpl; [lia|]. case_match; simpl; lia. Qed.

Lemma strtok_shorter fs s t r :
  ircd_strtok (Some s) fs = Some (t, Some r) -> (length r < length s)%nat.
Proof.
  unfold ircd_strtok. pose proof (skip_sep_length fs s).
  destruct (skip_sep fs s) as [|x s'] eqn:E; [done|].
  pose proof (take_token_spec fs (x :: s')) as Hs.
  destruct (take_token fs (x :: s')) as [t' [r'|]]; [|done]. intros [= -> ->].
  destruct Hs as (_ & y & _ & Hs). rewrite Hs, length_app in H. simpl in H. lia.
Qed.

Lemma strtok_all_fuel n m s fs :
  (length s < n)%nat -> (length s < m)%nat ->
  strtok_all n (Some s) fs = strtok_all m (Some s) fs.
Proof.
  revert m s; induction n as [|n IH]; intros [|m] s Hn Hm; try lia.
  cbn [strtok_all]. destruct (ircd_strtok (Some s) fs) as [[t [r|]]|] eqn:E; [|by destruct n, m|done].
  f_equal. apply strtok_shorter in E. apply IH; lia.
Qed.

Lemma tokens_fuel n s fs : (length s < n)%nat -> strtok_all n (Some s) fs = tokens s fs.
Proof. intros. apply strtok_all_fuel; lia. Qed.

Lemma tokens_nil fs : tokens [] fs = [].
Proof. done. Qed.

Lemma tokens_sep x s fs : in_chars fs x = true -> tokens (x :: s) fs = tokens s fs.
Proof.
  intros Hx. rewrite <- (tokens_fuel (S (S (length s))) s) by lia.
  unfold tokens. cbn [length strtok_all ircd_strtok skip_sep]. by rewrite Hx.
Qed.

Lemma strtok_token fs t s :
  no_sep fs t -> t <> [] -> ircd_strtok (Some (t ++ s)) fs = Some (take_token fs (t ++ s)).
Proof.
  intros Ht Hne. destruct t as [|y t]; [congruence|]. apply Forall_cons in Ht as [Hy _].
  unfold ircd_strtok. cbn [app skip_sep]. by rewrite Hy.
Qed.

Lemma tokens_app t x r fs :
  no_sep fs t -> t <> [] -> in_chars fs x = true ->
  tokens (t ++ x :: r) fs = t :: tokens r fs.
Proof.
  intros Ht Hne Hx. unfold tokens at 1. cbn [strtok_all].
  rewrite strtok_token, take_token_app by done. f_equal.
  apply tokens_fuel. rewrite length_app. simpl. lia.
Qed.

Lemma tokens_last t fs : no_sep fs t -> t <> [] -> tokens t fs = [t].
Proof.
  intros Ht Hne. unfold tokens. cbn [strtok_all].
  pose proof (strtok_token fs t [] Ht Hne) as E. rewrite app_nil_r in E.
  rewrite E, take_token_last by done. by destruct (length t).
Qed.

(** Every string is empty, starts with a separator, is one token, or is a token
    followed by a separator. *)
Lemma tokens_ind (fs : list Z) (P : list Z -> Prop) :
  P [] ->
  (forall x s, in_chars fs x = true -> P s -> P (x :: s)) ->
  (forall t, no_sep fs t -> t <> [] -> P t) ->
  (forall t x s, no_sep fs t -> t <> [] -> in_chars fs x = true -> P s -> P (t ++ x :: s)) ->
  forall s, P s.
Proof.
  intros H0 Hsep Hlast Happ s. induction s as [s IH] using (induction_ltof1 _ (@length Z)).
  unfold ltof in IH. destruct s as [|x s]; [done|].
  destruct (in_chars fs x) eqn:E; [apply Hsep; [done|apply IH; simpl; lia]|].
  pose proof (take_token_spec fs (x :: s)) as Hs.
  assert (forall r, take_token fs (x :: s) <> ([], r)) as Hne.
  { intros r. simpl. rewrite E. by destruct (take_token fs s). }
  destruct (take_token fs (x :: s)) as [t [r|]]; destruct Hs as [Ht Hs].
  - destruct Hs as (y & Hy & Hs). rewrite Hs. apply Happ; [done| |done|].
    + intros ->. by eapply Hne.
    + apply IH. rewrite Hs, length_app. simpl. lia.
  - rewrite Hs. apply Hlast; [done|]. intros ->. by eapply Hne.
Qed.

Lemma tokens_wf s fs : Forall (fun t => no_sep fs t /\ t <> []) (tokens s fs).
Proof.
  induction s using (tokens_ind fs).
  - constructor.
  - by rewrite tokens_sep.
  - rewrite tokens_last by done. by repeat constructor.
  - rewrite tokens_app by done. by constructor.
Qed.

Lemma tokens_cstring s fs : cstring s -> Forall cstring (tokens s fs).
Proof.
  unfold cstring. induction s using (tokens_ind fs); intros Hs.
  - constructor.
  - rewrite tokens_sep by done. apply Forall_cons in Hs as [? ?]. auto.
  - rewrite tokens_last by done. by repeat constructor.
  - rewrite tokens_app by done. apply Forall_app in Hs as [? [? ?]%Forall_cons]. auto.
Qed.

(** Tokens put together again with one separator. *)
Fixpoint join (sep : Z) (l : list (list Z)) : list Z :=
  match l with
  | [] => []
  | [t] => t
  | t :: r => t ++ sep :: join sep r
  end.

Lemma join_snoc sep l t : l <> [] -> join sep (l ++ [t]) = join sep l ++ sep :: t.
Proof.
  induction l as [|a [|b l] IH]; intros Hl; [done|done|].
  change (join sep ((a :: b :: l) ++ [t])) with (a ++ sep :: join sep ((b :: l) ++ [t])).
  rewrite IH by done. change (join sep (a :: b :: l)) with (a ++ sep :: join sep (b :: l)).
  by rewrite <- app_assoc.
Qed.

Lemma tokens_join fs sep l :
  in_chars fs sep = true -> Forall (fun t => no_sep fs t /\ t <> []) l ->
  tokens (join sep l) fs = l.
Proof.
  intros Hs Hl. induction Hl as [|t l [Ht Hne] Hl IH]; [done|].
  destruct l as [|u l]; simpl; [by apply tokens_last|].
  rewrite tokens_app by done. f_equal. exact IH.
Qed.

(** ** Lemmas: keeping the first of equal names *)

(** The list the duplicate removers build, one name at a time. *)
Definition add_new (l : list (list Z)) (s : list Z) : list (list Z) :=
  if decide (lower s ∈ map lower l) then l else l ++ [s].

Lemma existsb_strcmp (f : list Z -> list Z -> Z) l s :
  Forall cstring l -> cstring s ->
  (forall a, cstring a -> f a s = 0 <-> lower a = lower s) ->
  existsb (fun v => f v s =? 0) l = bool_decide (lower s ∈ map lower l).
Proof.
  intros Hl Hs Hf. apply eq_true_iff_eq. rewrite existsb_exists, bool_decide_eq_true.
  rewrite list_elem_of_In, in_map_iff. unfold cstring in *. rewrite Forall_forall in Hl.
  split; intros (v & H1 & H2); exists v.
  - split; [|done]. apply Z.eqb_eq, Hf in H2; [done|]. apply Hl. by apply list_elem_of_In.
  - split; [done|]. apply Z.eqb_eq, Hf; [|done]. apply Hl. by apply list_elem_of_In.
Qed.

Lemma name_known_spec l s :
  Forall cstring l -> cstring s -> name_known l s = bool_decide (lower s ∈ map lower l).
Proof. intros Hl Hs. apply existsb_strcmp; [done..|]. intros. by apply strcmp_0. Qed.

Lemma add_new_cstring l s : Forall cstring l -> cstring s -> Forall cstring (add_new l s).
Proof. intros. unfold add_new. case_decide; [done|]. apply Forall_app. repeat constructor; auto. Qed.

Lemma foldl_add_new l ts :
  NoDup (map lower l) ->
  NoDup (map lower (foldl add_new l ts)) /\
  (exists new, foldl add_new l ts = l ++ new /\ new `sublist_of` ts) /\
  (forall t, t ∈ ts -> lower t ∈ map lower (foldl add_new l ts)).
Proof.
  revert l; induction ts as [|t ts IH]; intros l Hl; cbn [foldl].
  - split; [done|]. split; [|by intros t ?%not_elem_of_nil].
    exists []. by rewrite app_nil_r.
  - assert (NoDup (map lower (add_new l t))) as Hl'.
    { unfold add_new. case_decide as E; [done|]. rewrite map_app. apply NoDup_app.
      split; [done|]. split; [|apply NoDup_singleton].
      intros x Hx ->%list_elem_of_singleton. done. }
    assert (exists p, add_new l t = l ++ p /\ p `sublist_of` [t] /\
              lower t ∈ map lower (add_new l t)) as (p & Hp & Hp' & Hin).
    { unfold add_new. case_decide as E.
      - exists []. rewrite app_nil_r. split_and!; [done|apply sublist_nil_l|done].
      - exists [t]. split_and!; [done..|]. rewrite map_app. apply elem_of_app. right.
        by apply list_elem_of_singleton. }
    destruct (IH _ Hl') as (Hnd & (new & Hnew & Hsub) & Hall).
    split; [done|]. split.
    + exists (p ++ new). rewrite Hnew, Hp, app_assoc. split; [done|].
      by apply (sublist_app p [t] new ts).
    + intros u [->|Hu]%elem_of_cons; [|by apply Hall].
      rewrite Hnew, map_app. apply elem_of_app. by left.
Qed.

Lemma join_nil_inv sep l : Forall (fun t => t <> []) l -> join sep l = [] -> l = [].
Proof. intros Hl H. destruct Hl as [|t [|u l] Ht Hl]; [done|done|]. by destruct t. Qed.

Lemma canonize_step_spec l s :
  Forall (fun t => no_sep comma t /\ t <> []) l -> Forall cstring l -> cstring s ->
  canonize_step (join 44 l) s = join 44 (add_new l s).
Proof.
  intros Hw Hl Hs. unfold canonize_step. rewrite tokens_join by done.
  rewrite (existsb_strcmp (fun v w => ircd_strcmp w v)); [|done..|].
  2:{ intros a Ha. rewrite strcmp_0 by done. by split. }
  unfold add_new. destruct (decide _) as [H|H]; [by rewrite bool_decide_eq_true_2|].
  rewrite bool_decide_eq_false_2 by done.
  destruct (join 44 l) eqn:E.
  - apply join_nil_inv in E as ->; [done|]. eapply Forall_impl; [exact Hw|]. by intros ? [].
  - rewrite <- E. unfold comma. rewrite join_snoc; [done|]. by intros ->.
Qed.

Lemma canonize_fold ts l :
  Forall (fun t => no_sep comma t /\ t <> []) (l ++ ts) -> Forall cstring (l ++ ts) ->
  foldl canonize_step (join 44 l) ts = join 44 (foldl add_new l ts).
Proof.
  revert l; induction ts as [|t ts IH]; intros l Hw Hc; [done|].
  pose proof Hw as [Hw1 Hw2]%Forall_app. pose proof Hc as [Hc1 Hc2]%Forall_app.
  apply Forall_cons in Hc2 as [Hc2 Hc3]. apply Forall_cons in Hw2 as [Hw2 Hw3].
  cbn [foldl]. rewrite canonize_step_spec by done.
  apply IH; apply Forall_app; (split; [|done]); unfold add_new; (case_decide; [done|]);
    apply Forall_app; (split; [done|]); by apply Forall_singleton.
Qed.

Lemma sublist_Forall {A} (P : A -> Prop) l k : l `sublist_of` k -> Forall P k -> Forall P l.
Proof.
  induction 1 as [|x l k _ IH|x l k _ IH]; [done|..]; intros [Hx Hk]%Forall_cons; auto.
Qed.

Lemma tokens_canonize b :
  cstring b ->
  canonize b = join 44 (foldl add_new [] (tokens b comma)) /\
  tokens (canonize b) comma = foldl add_new [] (tokens b comma).
Proof.
  intros Hb. assert (canonize b = join 44 (foldl add_new [] (tokens b comma))) as E.
  { apply (canonize_fold _ []); [apply tokens_wf|by apply tokens_cstring]. }
  split; [done|]. rewrite E. apply tokens_join; [done|].
  destruct (foldl_add_new [] (tokens b comma)) as (_ & (new & -> & Hsub) & _); [constructor|].
  eapply sublist_Forall; [exact Hsub|apply tokens_wf].
Qed.

(** ** Lemmas: unique_name_vector *)
Lemma skip_char_length c s : (length (skip_char c s) <= length s)%nat.
Proof. induction s; simpl; [lia|]. case_match; simpl; lia. Qed.

Lemma in_chars_1 c x : in_chars [c] x = (x =? c).
Proof. unfold in_chars. simpl. by rewrite orb_false_r. Qed.

Lemma split_at_app c t s : no_sep [c] t -> split_at c (t ++ c :: s) = Some (t, s).
Proof.
  induction 1 as [|y t Hy Ht IH]; simpl; [by rewrite Z.eqb_refl|].
  rewrite in_chars_1 in Hy. by rewrite Hy, IH.
Qed.

Lemma split_at_last c t : no_sep [c] t -> split_at c t = None.
Proof.
  induction 1 as [|y t Hy Ht IH]; simpl; [done|].
  rewrite in_chars_1 in Hy. by rewrite Hy, IH.
Qed.

Lemma skip_char_token c t s : no_sep [c] t -> t <> [] -> skip_char c (t ++ s) = t ++ s.
Proof.
  intros Ht Hne. destruct t as [|y t]; [congruence|]. apply Forall_cons in Ht as [Hy _].
  rewrite in_chars_1 in Hy. simpl. by rewrite Hy.
Qed.

Lemma take_foldl_add_new l ts : take (length l) (foldl add_new l ts) = l.
Proof.
  revert l; induction ts as [|t ts IH]; intros l; cbn [foldl]; [by rewrite take_ge|].
  unfold add_new at 2. case_decide; [done|].
  transitivity (take (length l) (take (length (l ++ [t])) (foldl add_new (l ++ [t]) ts))).
  - rewrite take_take. f_equal. rewrite length_app. lia.
  - rewrite IH. by rewrite take_app_length.
Qed.

Lemma name_added l s :
  Forall cstring l -> cstring s -> (if name_known l s then l else l ++ [s]) = add_new l s.
Proof.
  intros Hl Hs. rewrite name_known_spec by done. unfold add_new.
  destruct (decide _) as [H|H]; [by rewrite bool_decide_eq_true_2|by rewrite bool_decide_eq_false_2].
Qed.

Lemma unv_loop_spec c size s fuel v :
  cstring s -> Forall cstring v -> (length (skip_char c s) < fuel)%nat -> (length v < size)%nat ->
  unv_loop fuel c size v (skip_char c s) = take size (foldl add_new v (tokens s [c])).
Proof.
  revert fuel v; induction s as [|x s Hx IH|t Ht Hne|t x s Ht Hne Hx IH] using (tokens_ind [c]);
    intros fuel v Hs Hv Hf Hsz.
  - destruct fuel; [simpl in Hf; lia|]. simpl. rewrite take_ge by lia. done.
  - rewrite tokens_sep by done. rewrite in_chars_1 in Hx. simpl in *. rewrite Hx in *.
    apply Forall_cons in Hs as [_ Hs]. by apply IH.
  - rewrite tokens_last by done. pose proof (skip_char_token c t [] Ht Hne) as E.
    rewrite app_nil_r in E. rewrite E in *. destruct fuel; [lia|]. simpl.
    rewrite split_at_last by done. destruct t as [|y t]; [done|].
    rewrite name_added by done. rewrite take_ge; [done|].
    unfold add_new. case_decide; [lia|]. rewrite length_app. simpl. lia.
  - rewrite tokens_app by done. rewrite skip_char_token in * by done.
    rewrite in_chars_1 in Hx. apply Z.eqb_eq in Hx as ->.
    destruct fuel as [|fuel]; [lia|]. cbn [unv_loop foldl]. rewrite split_at_app by done.
    rewrite length_app in Hf. simpl in Hf. pose proof (skip_char_length c s).
    apply Forall_app in Hs as [Ht' Hs]. apply Forall_cons in Hs as [_ Hs].
    assert (t <> [] -> (0 < length t)%nat) as Hlen by (destruct t; simpl; [done|lia]).
    specialize (Hlen Hne). pose proof (name_added v t Hv Ht') as Ha.
    destruct (name_known v t); rewrite <- Ha; [by apply IH; auto; lia|].
    destruct (Nat.eqb_spec (length (v ++ [t])) size) as [<-|Hn].
    + by rewrite take_foldl_add_new.
    + rewrite length_app in Hn. simpl in Hn. apply IH; [done| |lia|rewrite length_app; simpl; lia].
      apply Forall_app. by repeat constructor.
Qed.

(** ** Lemmas: copying and cleaning *)
Lemma strncpy_bytes_length s n : (length (strncpy_bytes s n) <= S n)%nat.
Proof.
  revert s; induction n as [|n IH]; intros [|x s]; simpl; [lia..| |].
  - case_decide; simpl; lia.
  - specialize (IH s). lia.
Qed.

Lemma strncpy_bytes_full s n : (n <= length s)%nat -> length (strncpy_bytes s n) = S n.
Proof.
  revert s; induction n as [|n IH]; intros [|x s] H; simpl in H; try lia; simpl.
  - done.
  - done.
  - rewrite IH; lia.
Qed.

Lemma cstr_strncpy s n r : cstring s -> cstr (strncpy_bytes s n ++ r) = take n s.
Proof.
  revert s; induction n as [|n IH]; intros [|x s] Hs; simpl; [done..|].
  apply Forall_cons in Hs as [Hx Hs]. unfold is_char in Hx.
  destruct (x =? 0) eqn:E; bprop; [lia|]. by rewrite IH.
Qed.

Lemma clean_word t s : no_sep [32] t -> clean_loop false (t ++ s) = t ++ clean_loop false s.
Proof.
  induction 1 as [|y t Hy Ht IH]; simpl; [done|].
  rewrite in_chars_1 in Hy. unfold issp. by rewrite Hy, IH.
Qed.

Lemma clean_run_word t s :
  no_sep [32] t -> t <> [] -> clean_loop true (t ++ s) = 32 :: t ++ clean_loop false s.
Proof.
  intros Ht Hne. destruct t as [|y t]; [congruence|]. apply Forall_cons in Ht as [Hy Ht].
  rewrite in_chars_1 in Hy. cbn [app clean_loop]. unfold issp. rewrite Hy.
  by rewrite clean_word.
Qed.

Lemma clean_run s :
  clean_loop true s = match tokens s [32] with [] => [] | l => 32 :: join 32 l end.
Proof.
  induction s as [|x s Hx IH|t Ht Hne|t x s Ht Hne Hx IH] using (tokens_ind [32]); [done|..].
  - rewrite tokens_sep by done. rewrite in_chars_1 in Hx. cbn [clean_loop]. unfold issp.
    by rewrite Hx.
  - rewrite tokens_last by done. rewrite <- (app_nil_r t) at 1.
    rewrite clean_run_word by done. simpl. by rewrite app_nil_r.
  - rewrite tokens_app by done. rewrite clean_run_word by done.
    rewrite in_chars_1 in Hx. cbn [clean_loop]. unfold issp. rewrite Hx, IH.
    destruct (tokens s [32]); [by rewrite app_nil_r|done].
Qed.

Lemma opt_digit_sublist s : opt_digit s `sublist_of` s.
Proof. destruct s as [|x s]; simpl; [constructor|]. destruct (IsDigit x); by repeat constructor. Qed.

Lemma skip_colour_sublist s : skip_colour s `sublist_of` s.
Proof.
  destruct s as [|x s]; simpl; [constructor|]. destruct (IsDigit x); [|done].
  constructor. pose proof (opt_digit_sublist s) as H. destruct (opt_digit s) as [|y r]; [done|].
  destruct (y =? 44); [|done]. etransitivity; [|exact H]. constructor.
  etransitivity; apply opt_digit_sublist.
Qed.

Lemma normalize_loop_spec fuel s :
  (length s <= fuel)%nat ->
  Forall (fun x => x <> 3 /\ is_ctrl_dropped x = false) (normalize_loop fuel s) /\
  normalize_loop fuel s `sublist_of` s.
Proof.
  revert s; induction fuel as [|fuel IH]; intros [|x s] Hf; simpl in *;
    [split; constructor|lia|split; constructor|].
  destruct (x =? 3) eqn:E3; bprop; [|destruct (is_ctrl_dropped x) eqn:Ec].
  - pose proof (sublist_length _ _ (skip_colour_sublist s)).
    destruct (IH (skip_colour s)) as [H1 H2]; [lia|].
    split; [done|]. constructor. etransitivity; [exact H2|apply skip_colour_sublist].
  - destruct (IH s) as [H1 H2]; [lia|]. split; [done|by constructor].
  - destruct (IH s) as [H1 H2]; [lia|]. split; by constructor.
Qed.

Lemma normalize_loop_clean fuel s :
  (length s <= fuel)%nat -> Forall (fun x => x <> 3 /\ is_ctrl_dropped x = false) s ->
  normalize_loop fuel s = s.
Proof.
  intros Hf Hs. revert fuel Hf; induction Hs as [|x s [H3 Hc] Hs IH]; intros [|fuel] Hf;
    simpl in *; [done..|lia|].
  destruct (x =? 3) eqn:E3; bprop; [done|]. rewrite Hc. f_equal. apply IH. lia.
Qed.

(** The number a decimal text denotes. *)
Definition quad_value (t : list Z) : Z := foldl (fun v d => 10 * v + (d - 48)) 0 t.

Lemma IpQuadTab_wf a :
  0 <= a < 256 ->
  no_sep dot (IpQuadTab a) /\ IpQuadTab a <> [] /\ (length (IpQuadTab a) <= 3)%nat /\
  quad_value (IpQuadTab a) = a.
Proof.
  intros Ha. pattern a.
  apply (all_codes _ (fun a => forallb (fun x => negb (in_chars dot x)) (IpQuadTab a) &&
     negb (length (IpQuadTab a) =? 0)%nat && (length (IpQuadTab a) <=? 3)%nat &&
     (quad_value (IpQuadTab a) =? a)));
    [|by vm_compute|done].
  intros x H. bprop. rewrite forallb_forall in H. split_and!.
  - apply Forall_forall. intros y Hy. apply negb_true_iff, H. by apply list_elem_of_In.
  - intros E. by rewrite E in *.
  - by apply Nat.leb_le.
  - done.
Qed.

Lemma strncmp_take n a b :
  ircd_strncmp a b n = ircd_strcmp (take n a) (take n b).
Proof.
  destruct n as [|n]; [done|]. simpl ircd_strncmp. revert a b.
  induction n as [|n IH]; intros a b; destruct a as [|x a], b as [|y b];
    cbn [strncmp_loop take ircd_strcmp hd0 tl]; try done.
  - rewrite IH. destruct a; done.
  - by rewrite IH.
Qed.

Lemma cstring_take n s : cstring s -> cstring (take n s).
Proof. apply Forall_take. Qed.

(** ** Properties *)

(** Ircd_strcmp() returns 0 on two C strings exactly when they are equal up
    to the IRC case mapping, and ircd_strncmp() when their first [n] characters
    are. *)
Theorem ircd_strcmp_equal a b n :
  cstring a -> cstring b ->
  (ircd_strcmp a b = 0 <-> lower a = lower b) /\
  (ircd_strncmp a b n = 0 <-> lower (take n a) = lower (take n b)).
Proof.
  intros Ha Hb. split; [by apply strcmp_0|].
  rewrite strncmp_take. apply strcmp_0; by apply cstring_take.
Qed.

Lemma ircd_strcmp_equal_witness :
  ircd_strcmp (lit "Nick[a]") (lit "nICK{A}") = 0 /\ ircd_strncmp (lit "abX") (lit "ABy") 3 <> 0.
Proof.
  split.
  - apply (ircd_strcmp_equal (lit "Nick[a]") (lit "nICK{A}") 0);
      [by_decide|by_decide|by vm_compute].
  - intros H. apply (ircd_strcmp_equal (lit "abX") (lit "ABy") 3) in H;
      [by vm_compute in H|by_decide|by_decide].
Defined.

(** Canonize() leaves a comma separated list whose items are pairwise
    different up to case, in the order of their first occurrence in the input,
    and every item of the input is still there up to case. *)
Theorem canonize_correct b :
  cstring b ->
  let out := tokens (canonize b) comma in
  canonize b = join 44 out /\ NoDup (map lower out) /\ out `sublist_of` tokens b comma /\
  forall t, t ∈ tokens b comma -> lower t ∈ map lower out.
Proof.
  intros Hb out. unfold out. destruct (tokens_canonize b Hb) as [E1 E2]. rewrite E2.
  destruct (foldl_add_new [] (tokens b comma)) as (Hn & (new & Hnew & Hs) & Hall); [constructor|].
  split_and!; [done..| |done]. by rewrite Hnew.
Qed.

Lemma canonize_correct_witness :
  canonize (lit ",#a,#b,,#A,#c") = lit "#a,#b,#c" /\
  NoDup (map lower (tokens (canonize (lit ",#a,#b,,#A,#c")) comma)).
Proof.
  split; [by vm_compute|].
  apply (canonize_correct (lit ",#a,#b,,#A,#c")). by_decide.
Defined.

(** Unique_name_vector() fills the vector with the first [size] names of the
    list that are different up to case: what dropping later duplicates from all
    its non-empty tokens gives, cut to [size] entries. *)
Theorem unique_name_vector_correct l token size :
  cstring l -> (0 < size)%nat ->
  unique_name_vector l token size = take size (foldl add_new [] (tokens l [token])).
Proof.
  intros Hl Hs. unfold unique_name_vector. apply unv_loop_spec; [done|constructor| |done].
  pose proof (skip_char_length token l). lia.
Qed.

Lemma unique_name_vector_correct_witness :
  unique_name_vector (lit ",,bob,,Alice,BOB,carol,dave") 44 3 =
  [lit "bob"; lit "Alice"; lit "carol"].
Proof.
  rewrite (unique_name_vector_correct (lit ",,bob,,Alice,BOB,carol,dave") 44 3);
    [by vm_compute|by_decide|lia].
Defined.

(** Ircd_strncpy(s1, s2, n) into a buffer of more than [n] bytes leaves the
    first [n] characters of [s2] there, terminated, and no byte after index [n]
    changes; when [s2] has [n] characters or more it stores n + 1 bytes, so a
    buffer of [n] bytes overflows. *)
Theorem ircd_strncpy_correct s1 s2 n :
  cstring s2 ->
  ((n < length s1)%nat ->
   exists buf, ircd_strncpy s1 s2 n = Some buf /\ cstr buf = take n s2 /\
     length buf = length s1 /\ drop (S n) buf = drop (S n) s1) /\
  ((n <= length s2)%nat -> (length s1 <= n)%nat -> ircd_strncpy s1 s2 n = None).
Proof.
  intros Hs. unfold ircd_strncpy, store. split.
  - intros Hn. pose proof (strncpy_bytes_length s2 n). rewrite decide_True by lia.
    eexists; split_and!; [done|by apply cstr_strncpy|rewrite length_app, length_drop; lia|].
    rewrite drop_app_ge, drop_drop by lia. f_equal. lia.
  - intros H1 H2. by rewrite decide_False by (rewrite strncpy_bytes_full; lia).
Qed.

Lemma ircd_strncpy_correct_witness :
  ircd_strncpy (replicate 3 7) (lit "abcdef") 2 = Some (lit "ab" ++ [0]) /\
  ircd_strncpy (replicate 2 7) (lit "abcdef") 2 = None.
Proof.
  split; [by vm_compute|].
  apply (ircd_strncpy_correct (replicate 2 7) (lit "abcdef") 2); [by_decide|simpl; lia..].
Defined.

(** Ircd_ntoa_r() writes four decimal numbers between dots that read back as
    the four bytes of the address, in at most 15 characters. *)
Theorem ircd_ntoa_r_roundtrip a0 a1 a2 a3 :
  Forall (fun a => 0 <= a < 256) [a0; a1; a2; a3] ->
  map quad_value (tokens (ircd_ntoa_r a0 a1 a2 a3) dot) = [a0; a1; a2; a3] /\
  (length (ircd_ntoa_r a0 a1 a2 a3) <= 15)%nat.
Proof.
  rewrite !Forall_cons. intros (H0 & H1 & H2 & H3 & _).
  apply IpQuadTab_wf in H0 as (?&?&?&V0). apply IpQuadTab_wf in H1 as (?&?&?&V1).
  apply IpQuadTab_wf in H2 as (?&?&?&V2). apply IpQuadTab_wf in H3 as (?&?&?&V3).
  split.
  - change (ircd_ntoa_r a0 a1 a2 a3) with
      (join 46 [IpQuadTab a0; IpQuadTab a1; IpQuadTab a2; IpQuadTab a3]).
    rewrite tokens_join; [simpl; by rewrite V0, V1, V2, V3|done|]. by repeat constructor.
  - unfold ircd_ntoa_r. rewrite !length_app. simpl. lia.
Qed.

Lemma ircd_ntoa_r_roundtrip_witness :
  ircd_ntoa_r 192 168 0 255 = lit "192.168.0.255" /\
  map quad_value (tokens (ircd_ntoa_r 192 168 0 255) dot) = [192; 168; 0; 255].
Proof. split; [by vm_compute|]. apply (ircd_ntoa_r_roundtrip 192 168 0 255). by_decide. Defined.

(** DoCleanBuffer() leaves the words of the text, put together with single
    spaces: no leading, trailing or repeated space, and no word lost. *)
Theorem doCleanBuffer_words s : doCleanBuffer s = join 32 (tokens s [32]).
Proof.
  unfold doCleanBuffer.
  induction s as [|x s Hx IH|t Ht Hne|t x s Ht Hne Hx IH] using (tokens_ind [32]); [done|..].
  - rewrite tokens_sep by done. rewrite in_chars_1 in Hx. cbn [skip_spaces]. unfold issp.
    by rewrite Hx.
  - rewrite tokens_last by done.
    assert (skip_spaces t = t) as ->.
    { destruct Ht as [|y t Hy Ht]; [done|]. rewrite in_chars_1 in Hy. simpl. unfold issp. by rewrite Hy. }
    rewrite <- (app_nil_r t) at 1. rewrite clean_word by done. apply app_nil_r.
  - rewrite tokens_app by done.
    assert (skip_spaces (t ++ x :: s) = t ++ x :: s) as ->.
    { destruct Ht as [|y t Hy Ht]; [done|]. rewrite in_chars_1 in Hy. simpl. unfold issp. by rewrite Hy. }
    rewrite clean_word by done. rewrite in_chars_1 in Hx. cbn [clean_loop]. unfold issp.
    rewrite Hx, clean_run. destruct (tokens s [32]); [apply app_nil_r|done].
Qed.

(** The text normalizeBuffer() returns holds no colour, bold, underline,
    reverse, tab or line end character, is made of characters of the input in
    order, and a text without such characters is returned unchanged. *)
Theorem normalizeBuffer_clean b :
  let clean := Forall (fun x => x <> 3 /\ is_ctrl_dropped x = false) in
  clean (normalizeBuffer b) /\ normalizeBuffer b `sublist_of` b /\
  (clean b -> normalizeBuffer b = b).
Proof.
  intros clean. unfold normalizeBuffer.
  destruct (normalize_loop_spec (length b) b) as [H1 H2]; [lia|].
  split_and!; [done..|]. intros H. by apply normalize_loop_clean.
Qed.

Lemma normalizeBuffer_clean_witness :
  normalizeBuffer (3 :: lit "04,12hi" ++ [31]) = lit "hi" /\
  normalizeBuffer (lit "plain 12") = lit "plain 12".
Proof.
  split; [by vm_compute|]. apply (normalizeBuffer_clean (lit "plain 12")).
  apply Forall_forall. intros x Hx. split; [intros ->|];
    repeat (apply elem_of_cons in Hx as [?|Hx]; [subst; done|]); by apply elem_of_nil in Hx.
Defined.
