(* ===== verification/Numnicks.v ===== *)
(** * ircd/numnicks.c: numeric nicks

    Clients are identifiers, a [Client *] is an [option cid]; the character
    arrays of the structures are buffers of four bytes.  Every array access is
    checked: [None] stands for an access outside an array or past a
    terminator. *)
From S2P Require Import Prelude Chattr Match IrcdString.

Definition NUMNICKLOG : Z := 6.
Definition NUMNICKMASK : Z := 63.
Definition NN_MAX_SERVER : Z := 4096.
Definition NN_MAX_CLIENT : Z := 262144.

Definition convert2y : list Z :=
  lit "ABCDEFGHIJKLMNOPQRSTUVWXYZabcdefghijklmnopqrstuvwxyz0123456789[]".

Definition convert2n : list Z :=
  [ 0; 0; 0; 0; 0; 0; 0; 0; 0; 0; 0; 0; 0; 0; 0; 0;
    0; 0; 0; 0; 0; 0; 0; 0; 0; 0; 0; 0; 0; 0; 0; 0;
    0; 0; 0; 0; 0; 0; 0; 0; 0; 0; 0; 0; 0; 0; 0; 0;
   52;53;54;55;56;57;58;59;60;61; 0; 0; 0; 0; 0; 0;
    0; 0; 1; 2; 3; 4; 5; 6; 7; 8; 9;10;11;12;13;14;
   15;16;17;18;19;20;21;22;23;24;25;62; 0;63; 0; 0;
    0;26;27;28;29;30;31;32;33;34;35;36;37;38;39;40;
   41;42;43;44;45;46;47;48;49;50;51; 0; 0; 0; 0; 0] ++ replicate 128 0.

Definition to_n (c : Z) : Z := nth (Z.to_nat c) convert2n 0.
Definition to_y (v : Z) : Z := nth (Z.to_nat v) convert2y 0.

(** base64toint(): on the empty string the loop starts behind the terminator. *)
Definition base64_step (i c : Z) : Z := u32 (u32 (Z.shiftl i NUMNICKLOG) + to_n c).

Definition base64toint (s : list Z) : option Z :=
  match s with
  | [] => None
  | c :: r => Some (foldl base64_step (to_n c) r)
  end.

(** The digits inttobase64() writes, from the last to the first. *)
Fixpoint inttobase64_loop (count : nat) (v : Z) (acc : list Z) : list Z :=
  match count with
  | O => acc
  | S count => inttobase64_loop count (Z.shiftr v NUMNICKLOG) (to_y (Z.land v NUMNICKMASK) :: acc)
  end.

(** The string left in the buffer. *)
Definition inttobase64 (v : Z) (count : nat) : list Z := inttobase64_loop count v [].

(** ** State *)
Definition cid := positive.

Record Server := {
  nn_mask : Z;
  nn_capacity : list Z;
  client_list : list (option cid)
}.

Record Client := {
  cli_yxx : list Z;
  cli_name : list Z;
  cli_flag_map : bool;
  user_server : option cid;
  cli_serv : option Server
}.

Record nn_state := {
  lastNNServer : Z;
  server_list : list (option cid);
  last_nn : Z;
  clients : gmap cid Client
}.

Definition set_yxx (c : Client) (y : list Z) : Client :=
  {| cli_yxx := y; cli_name := cli_name c; cli_flag_map := cli_flag_map c;
     user_server := user_server c; cli_serv := cli_serv c |}.

Definition set_serv (c : Client) (s : Server) : Client :=
  {| cli_yxx := cli_yxx c; cli_name := cli_name c; cli_flag_map := cli_flag_map c;
     user_server := user_server c; cli_serv := Some s |}.

Definition set_flag_map (c : Client) (b : bool) : Client :=
  {| cli_yxx := cli_yxx c; cli_name := cli_name c; cli_flag_map := b;
     user_server := user_server c; cli_serv := cli_serv c |}.

Definition set_client_list (s : Server) (l : list (option cid)) : Server :=
  {| nn_mask := nn_mask s; nn_capacity := nn_capacity s; client_list := l |}.

Definition upd_client (st : nn_state) (i : cid) (c : Client) : nn_state :=
  {| lastNNServer := lastNNServer st; server_list := server_list st; last_nn := last_nn st;
     clients := <[i := c]> (clients st) |}.

Definition set_last_nn (st : nn_state) (n : Z) : nn_state :=
  {| lastNNServer := lastNNServer st; server_list := server_list st; last_nn := n;
     clients := clients st |}.

Definition set_servers (st : nn_state) (last : Z) (l : list (option cid)) : nn_state :=
  {| lastNNServer := last; server_list := l; last_nn := last_nn st; clients := clients st |}.

(** Reading and writing an array, checked. *)
Definition get_slot (l : list (option cid)) (i : Z) : option (option cid) :=
  if i <? 0 then None else l !! Z.to_nat i.

Definition put_slot (l : list (option cid)) (i : Z) (c : option cid)
  : option (list (option cid)) :=
  if (0 <=? i) && (Z.to_nat i <? length l)%nat then Some (<[Z.to_nat i := c]> l) else None.

Definition get_serv (st : nn_state) (i : cid) : option Server :=
  c ← clients st !! i; cli_serv c.

(** ** Looking up *)
Definition FindXNServer (st : nn_state) (numeric : list Z) : option (option cid) :=
  i ← base64toint (take 2 numeric); get_slot (server_list st) i.

Definition FindNServer (st : nn_state) (numeric : list Z) : option (option cid) :=
  if (length numeric <? 3)%nat then
    i ← base64toint numeric; get_slot (server_list st) i
  else if (length numeric =? 3)%nat then
    get_slot (server_list st) (to_n (hd0 numeric))
  else FindXNServer st numeric.

Definition find_in (st : nn_state) (server : option cid) (xxx : list Z) : option (option cid) :=
  match server with
  | None => Some None
  | Some server =>
      s ← get_serv st server; i ← base64toint xxx;
      get_slot (client_list s) (Z.land i (nn_mask s))
  end.

Definition findNUser (st : nn_state) (yxx : list Z) : option (option cid) :=
  if (length yxx =? 5)%nat then
    server ← FindXNServer st yxx; find_in st server (drop 2 yxx)
  else
    server ← FindNServer st yxx; find_in st server (drop 1 yxx).

(** ** Registering *)

(** [cli_serv(server)->client_list[i] = v]. *)
Definition set_client_slot (st : nn_state) (server : cid) (i : Z) (v : option cid)
  : option nn_state :=
  c ← clients st !! server; s ← cli_serv c;
  l ← put_slot (client_list s) i v;
  Some (upd_client st server (set_serv c (set_client_list s l))).

Definition RemoveYXXClient (st : nn_state) (server : cid) (yxx : list Z) : option nn_state :=
  match yxx with
  | [] => Some st
  | _ => s ← get_serv st server; i ← base64toint yxx;
         set_client_slot st server (Z.land i (nn_mask s)) None
  end.

Definition MyCalloc (n : Z) : list (option cid) := replicate (Z.to_nat n) None.

(** Stores a server in the table and moves [lastNNServer]. *)
Definition enter_server (st : nn_state) (idx : Z) (server : cid) : option nn_state :=
  l ← put_slot (server_list st) idx (Some server);
  Some (set_servers st (if lastNNServer st <=? idx then idx + 1 else lastNNServer st) l).

(** SetServerYXX(): [server] has its Server structure already. *)
Definition SetServerYXX (st : nn_state) (server : cid) (yxx : list Z) : option nn_state :=
  c ← clients st !! server; s ← cli_serv c;
  '(y, cap) ← (if (length yxx =? 5)%nat then
      y ← ircd_strncpy (cli_yxx c) yxx 2;
      cap ← ircd_strncpy (nn_capacity s) (drop 2 yxx) 3;
      Some (y, cap)
    else if (length yxx <? 2)%nat then None
    else Some (<[0%nat := ch yxx 0]> (cli_yxx c),
               <[1%nat := ch yxx 2]> (<[0%nat := ch yxx 1]> (nn_capacity s))));
  mask ← base64toint (cstr cap);
  idx ← base64toint (cstr y);
  st1 ← enter_server st idx server;
  Some (upd_client st1 server
          (set_serv (set_yxx c y)
             {| nn_mask := mask; nn_capacity := cap; client_list := MyCalloc (mask + 1) |})).

(** The doubling loop of SetYXXCapacity(); 28 doublings of 16 reach 2^32. *)
Fixpoint capacity_loop (fuel : nat) (max_clients capacity : Z) : Z :=
  match fuel with
  | O => max_clients
  | S fuel =>
      if max_clients <? capacity
      then capacity_loop fuel (u32 (Z.shiftl max_clients 1)) capacity
      else max_clients
  end.

Inductive capacity_result := CapExit | CapDone (st : nn_state).

Definition SetYXXCapacity (st : nn_state) (c : cid) (capacity : Z) : option capacity_result :=
  let max_clients := capacity_loop 28 16 capacity in
  if NN_MAX_CLIENT <? max_clients then Some CapExit
  else
    let max_clients := max_clients - 1 in
    cl ← clients st !! c; _ ← cli_serv cl;
    cap ← store (inttobase64 max_clients 3 ++ [0]) (replicate 4 0);
    idx ← base64toint (cstr (cli_yxx cl));
    l ← put_slot (server_list st) idx (Some c);
    Some (CapDone (upd_client (set_servers st (lastNNServer st) l) c
      (set_serv cl {| nn_mask := max_clients; nn_capacity := cap;
                      client_list := MyCalloc (max_clients + 1) |}))).

Definition SetYXXServerName (st : nn_state) (c : cid) (numeric : Z) : option nn_state :=
  cl ← clients st !! c;
  y ← store (inttobase64 numeric 2 ++ [0]) (cli_yxx cl);
  st1 ← enter_server st numeric c;
  Some (upd_client st1 c (set_yxx cl y)).

Definition ClearServerYXX (st : nn_state) (server : cid) : option nn_state :=
  c ← clients st !! server; idx ← base64toint (cstr (cli_yxx c));
  old ← get_slot (server_list st) idx;
  if decide (old = Some server) then
    l ← put_slot (server_list st) idx None;
    Some (set_servers st (lastNNServer st) l)
  else Some st.

(** The loop of SetLocalNumNick(): [fuel] is NN_MAX_CLIENT less the slots seen;
    the result is [last_nn] and whether its slot is free. *)
Definition next_nn (n : Z) : Z := if n + 1 =? NN_MAX_CLIENT then 0 else n + 1.

Fixpoint local_loop (fuel : nat) (l : list (option cid)) (mask n : Z) : option (Z * bool) :=
  match fuel with
  | O => None
  | S fuel =>
      slot ← get_slot l (Z.land n mask);
      match slot with
      | None => Some (n, true)
      | Some _ =>
          match fuel with
          | O => Some (n, false)
          | _ => local_loop fuel l mask (next_nn n)
          end
      end
  end.

(** What SetLocalNumNick() does once [last_nn] stands on a free slot. *)
Definition reserve_numnick (st : nn_state) (me cptr : cid) (s : Server) (n : Z)
  : option nn_state :=
  st1 ← set_client_slot st me (Z.land n (nn_mask s)) (Some cptr);
  c ← clients st1 !! cptr;
  y ← store (inttobase64 n 3 ++ [0]) (cli_yxx c);
  Some (set_last_nn (upd_client st1 cptr (set_yxx c y)) (next_nn n)).

Definition local_numnick (fuel : nat) (st : nn_state) (me cptr : cid)
  : option (nn_state * bool) :=
  s ← get_serv st me;
  '(n, free) ← local_loop fuel (client_list s) (nn_mask s) (last_nn st);
  if (free : bool)
  then st' ← reserve_numnick st me cptr s n; Some (st', true)
  else Some (set_last_nn st n, false).

(** SetLocalNumNick(); [me] is this server.  The loop looks at NN_MAX_CLIENT
    slots at most. *)
Definition SetLocalNumNick (st : nn_state) (me cptr : cid) : option (nn_state * bool) :=
  local_numnick (Z.to_nat NN_MAX_CLIENT) st me cptr.

Section Remote.
(** exit_client() of s_misc.c, called on a numeric collision: it removes the
    client given from the network. *)
Variable exit_client : cid -> nn_state -> nn_state.

Definition SetRemoteNumNick (st : nn_state) (acptr : cid) (yxx : list Z) : option nn_state :=
  c ← clients st !! acptr; server ← user_server c;
  y ← (if (length yxx =? 5)%nat then store (drop 2 yxx ++ [0]) (cli_yxx c)
       else if (length yxx <? 2)%nat then None
       else store [ch yxx 1; ch yxx 2; 0] (cli_yxx c));
  let st1 := upd_client st acptr (set_yxx c y) in
  s ← get_serv st1 server; i ← base64toint (cstr y);
  let i := Z.land i (nn_mask s) in
  old ← get_slot (client_list s) i;
  let st2 := match old with None => st1 | Some o => exit_client o st1 end in
  set_client_slot st2 server i (Some acptr).
End Remote.

(** ** Searching servers by name *)

Section Mark.
(** matchexec() on the compiled mask: 0 when the name matches. *)
Variable matchexec : list Z -> Z.

Definition mark_one (acc : nn_state * Z) (slot : option cid) : nn_state * Z :=
  let (st, cnt) := acc in
  match slot with
  | None => (st, cnt)
  | Some a =>
      match clients st !! a with
      | None => (st, cnt)
      | Some c =>
          if matchexec (cli_name c) =? 0
          then (upd_client st a (set_flag_map c true), cnt + 1)
          else (upd_client st a (set_flag_map c false), cnt)
      end
  end.

Definition markMatchexServer (st : nn_state) : nn_state * Z :=
  foldl mark_one (st, 0) (take (Z.to_nat (lastNNServer st)) (server_list st)).
End Mark.

Fixpoint first_match (st : nn_state) (mask : list Z) (l : list (option cid)) : option cid :=
  match l with
  | [] => None
  | slot :: r =>
      match slot with
      | None => first_match st mask r
      | Some a =>
          match clients st !! a with
          | None => first_match st mask r
          | Some c =>
              match ircd_match mask (cli_name c) with
              | Some (Some 0) => Some a
              | _ => first_match st mask r
              end
          end
      end
  end.

Definition find_match_server (st : nn_state) (mask : list Z) : option cid :=
  match mask with
  | [] => None
  | _ => first_match st (collapse mask) (take (Z.to_nat (lastNNServer st)) (server_list st))
  end.

(** ** Lemmas: base 64 *)
Lemma to_n_range c : 0 <= to_n c < 64.
Proof.
  unfold to_n. destruct (nth_in_or_default (Z.to_nat c) convert2n 0) as [H| ->]; [|lia].
  revert H. generalize (nth (Z.to_nat c) convert2n 0). apply List.Forall_forall. by_decide.
Qed.

Lemma z64 v : 0 <= v < 64 -> exists n : nat, v = Z.of_nat n /\ (n < 64)%nat.
Proof. intros. exists (Z.to_nat v). lia. Qed.

Lemma to_n_to_y v : 0 <= v < 64 -> to_n (to_y v) = v.
Proof.
  intros (n & -> & Hn)%z64.
  assert (Forall (fun n => to_n (to_y (Z.of_nat n)) = Z.of_nat n) (seq 0 64)) as H by by_decide.
  rewrite Forall_seq in H. apply H. lia.
Qed.

Definition in_alphabet (c : Z) : Prop := c ∈ convert2y.

Lemma to_y_in v : 0 <= v < 64 -> in_alphabet (to_y v).
Proof.
  intros Hv. unfold to_y, in_alphabet. apply list_elem_of_In, nth_In.
  change (length convert2y) with 64%nat. lia.
Qed.

Lemma to_y_to_n c : in_alphabet c -> to_y (to_n c) = c.
Proof.
  revert c. apply (proj1 (Forall_forall (fun c => to_y (to_n c) = c) convert2y)). by_decide.
Qed.

Definition b64_val (s : list Z) : Z := foldl (fun i c => i * 64 + to_n c) 0 s.

Lemma b64_val_snoc s c : b64_val (s ++ [c]) = b64_val s * 64 + to_n c.
Proof. unfold b64_val. by rewrite foldl_app. Qed.

Lemma b64_val_range s : 0 <= b64_val s < 64 ^ Z.of_nat (length s).
Proof.
  induction s as [|c s IH] using rev_ind; [done|]. rewrite b64_val_snoc.
  rewrite length_app, Nat2Z.inj_add. simpl (Z.of_nat (length [c])).
  rewrite Z.pow_add_r by lia. pose proof (to_n_range c). lia.
Qed.

Lemma base64_fold s i :
  0 <= i -> i * 64 ^ Z.of_nat (length s) + 64 ^ Z.of_nat (length s) <= 2 ^ 30 ->
  foldl base64_step i s = foldl (fun i c => i * 64 + to_n c) i s.
Proof.
  revert i; induction s as [|c s IH]; intros i Hi H; [done|]. cbn [foldl].
  simpl length in H. rewrite Nat2Z.inj_succ, Z.pow_succ_r in H by lia.
  pose proof (to_n_range c). assert (0 < 64 ^ Z.of_nat (length s)) by (apply Z.pow_pos_nonneg; lia).
  assert (base64_step i c = i * 64 + to_n c) as ->.
  { unfold base64_step, u32, NUMNICKLOG. rewrite Z.shiftl_mul_pow2 by lia.
    change (2 ^ 6) with 64. assert (i * 64 < 2 ^ 30) by nia.
    rewrite !Z.mod_small; rewrite ?Z.mod_small; lia. }
  apply IH; [lia|nia].
Qed.

Lemma base64toint_val s : s <> [] -> (length s <= 5)%nat -> base64toint s = Some (b64_val s).
Proof.
  intros Hne Hl. destruct s as [|c s]; [congruence|]. cbn [base64toint length] in *. f_equal.
  rewrite base64_fold; [done|apply to_n_range|]. pose proof (to_n_range c).
  assert (64 ^ Z.of_nat (length s) <= 64 ^ 4) by (apply Z.pow_le_mono_r; lia). nia.
Qed.

Lemma inttobase64_app n v acc : inttobase64_loop n v acc = inttobase64 v n ++ acc.
Proof.
  unfold inttobase64. revert v acc; induction n as [|n IH]; intros v acc; [done|].
  cbn [inttobase64_loop]. rewrite IH, (IH _ [_]), <- app_assoc. done.
Qed.

Lemma inttobase64_S v n :
  inttobase64 v (S n) = inttobase64 (Z.shiftr v 6) n ++ [to_y (Z.land v 63)].
Proof. unfold inttobase64 at 1. cbn [inttobase64_loop]. apply inttobase64_app. Qed.

Lemma inttobase64_length v n : length (inttobase64 v n) = n.
Proof.
  revert v; induction n as [|n IH]; intros v; [done|].
  rewrite inttobase64_S, length_app, IH. simpl. lia.
Qed.

Lemma low6 v : Z.land v 63 = v mod 64.
Proof. apply (Z.land_ones v 6). lia. Qed.

Lemma inttobase64_alphabet v n : Forall in_alphabet (inttobase64 v n).
Proof.
  revert v; induction n as [|n IH]; intros v; [constructor|]. rewrite inttobase64_S.
  apply Forall_app. split; [apply IH|]. apply Forall_singleton, to_y_in.
  rewrite low6. mlia.
Qed.

Lemma b64_val_inttobase64 v n : 0 <= v -> b64_val (inttobase64 v n) = v mod 64 ^ Z.of_nat n.
Proof.
  revert v; induction n as [|n IH]; intros v Hv; [by rewrite Z.mod_1_r|].
  rewrite inttobase64_S, b64_val_snoc, IH by (by apply Z.shiftr_nonneg).
  rewrite low6, to_n_to_y by mlia. rewrite Z.shiftr_div_pow2 by lia. change (2 ^ 6) with 64.
  rewrite Nat2Z.inj_succ, Z.pow_succ_r by lia.
  rewrite Z.rem_mul_r; [lia|lia|apply Z.pow_pos_nonneg; lia].
Qed.

Lemma inttobase64_b64_val s :
  Forall in_alphabet s -> inttobase64 (b64_val s) (length s) = s.
Proof.
  induction s as [|c s IH] using rev_ind; [done|]. intros [Hs Hc]%Forall_app.
  apply Forall_cons in Hc as [Hc _]. rewrite length_app. simpl (length [c]). rewrite Nat.add_1_r.
  rewrite inttobase64_S, b64_val_snoc, low6, Z.shiftr_div_pow2 by lia. change (2 ^ 6) with 64.
  pose proof (to_n_range c).
  replace ((b64_val s * 64 + to_n c) / 64) with (b64_val s) by mlia.
  replace ((b64_val s * 64 + to_n c) mod 64) with (to_n c) by mlia.
  by rewrite IH, to_y_to_n.
Qed.

Lemma alphabet_cstring s : Forall in_alphabet s -> cstring s.
Proof.
  intros H. eapply Forall_impl; [exact H|]. apply (proj1 (Forall_forall is_char convert2y)). by_decide.
Qed.

(** ** Lemmas: arrays *)
Lemma get_slot_ok l i : 0 <= i < Z.of_nat (length l) -> exists c, get_slot l i = Some c.
Proof.
  intros H. unfold get_slot. destruct (i <? 0) eqn:E; bprop; [lia|].
  apply lookup_lt_is_Some_2. lia.
Qed.

Lemma put_slot_ok l i c :
  0 <= i < Z.of_nat (length l) -> put_slot l i c = Some (<[Z.to_nat i := c]> l).
Proof.
  intros H. unfold put_slot. rewrite (proj2 (Z.leb_le 0 i)) by lia.
  by rewrite (proj2 (Nat.ltb_lt _ _)) by lia.
Qed.

Lemma put_get_slot l i c l' j :
  put_slot l i c = Some l' -> 0 <= j ->
  get_slot l' j = if i =? j then Some c else get_slot l j.
Proof.
  unfold put_slot, get_slot. destruct (0 <=? i) eqn:E; [|done]. simpl.
  destruct (Nat.ltb_spec (Z.to_nat i) (length l)) as [Hl|]; [|done]. intros [= <-] Hj. bprop.
  destruct (j <? 0) eqn:Ej; bprop; [lia|]. destruct (i =? j) eqn:Eij; bprop.
  - subst. by apply list_lookup_insert_eq.
  - apply list_lookup_insert_ne. lia.
Qed.

Lemma land_le n m : 0 <= m -> 0 <= Z.land n m <= m.
Proof.
  intros Hm. split; [apply Z.land_nonneg; lia|].
  rewrite Z.land_comm. assert (m = Z.land m n + Z.ldiff m n) as E.
  { rewrite Z.add_comm. rewrite <- (Z.lor_ldiff_and m n) at 1.
    rewrite Z.lor_comm, Z.add_comm, <- Z.lxor_lor, <- Z.add_nocarry_lxor; [done|..];
    apply Z.bits_inj'; intros i Hi; rewrite ?Z.land_spec, ?Z.ldiff_spec, ?Z.bits_0;
      destruct (Z.testbit m i), (Z.testbit n i); done. }
  assert (0 <= Z.ldiff m n) by (apply Z.ldiff_nonneg; lia). lia.
Qed.

(** ** Lemmas: the search for a free numeric *)
Definition serv_ok (s : Server) : Prop :=
  0 <= nn_mask s /\ Z.of_nat (length (client_list s)) = nn_mask s + 1.

Lemma next_nn_mod n : 0 <= n < NN_MAX_CLIENT -> next_nn n = (n + 1) mod NN_MAX_CLIENT.
Proof.
  unfold next_nn, NN_MAX_CLIENT. intros. bcase; bprop; [|by rewrite Z.mod_small by lia].
  by replace (n + 1) with 262144 by lia.
Qed.

Definition probe (n : Z) (i : nat) : Z := (n + Z.of_nat i) mod NN_MAX_CLIENT.

Lemma probe_next n i : 0 <= n < NN_MAX_CLIENT -> probe (next_nn n) i = probe n (S i).
Proof.
  intros. unfold probe. rewrite next_nn_mod, Zplus_mod_idemp_l by done. f_equal. lia.
Qed.

Lemma probe_0 n : 0 <= n < NN_MAX_CLIENT -> probe n 0 = n.
Proof. intros. unfold probe. rewrite Z.add_0_r. by apply Z.mod_small. Qed.

Lemma local_loop_spec fuel l mask n :
  0 <= mask -> Z.of_nat (length l) = mask + 1 -> 0 <= n < NN_MAX_CLIENT ->
  let slot i := get_slot l (Z.land (probe n i) mask) in
  exists n' b, local_loop (S fuel) l mask n = Some (n', b) /\
    if (b : bool) then exists i, (i <= fuel)%nat /\ n' = probe n i /\ slot i = Some None
    else forall i, (i <= fuel)%nat -> slot i <> Some None.
Proof.
  intros Hm Hl. revert n; induction fuel as [|fuel IH]; intros n Hn slot;
    (destruct (get_slot_ok l (Z.land n mask)) as [o Ho]; [pose proof (land_le n mask Hm); lia|]);
    assert (slot 0%nat = Some o) as Ho' by (unfold slot; by rewrite probe_0).
  - cbn [local_loop]. rewrite Ho. simpl. destruct o as [o|].
    + exists n, false. split; [done|]. intros i Hi. replace i with 0%nat by lia. by rewrite Ho'.
    + exists n, true. split; [done|]. exists 0%nat. by rewrite probe_0.
  - cbn [local_loop]. rewrite Ho. cbn [mbind option_bind]. destruct o as [o|].
    + assert (0 <= next_nn n < NN_MAX_CLIENT) as Hn'.
      { rewrite next_nn_mod by done. apply Z.mod_pos_bound. done. }
      destruct (IH _ Hn') as (n' & b & E & H). exists n', b. split; [exact E|].
      destruct b.
      * destruct H as (i & Hi & -> & H). exists (S i). rewrite probe_next in * by done.
        split_and!; [lia|done|done].
      * intros [|i] Hi; [by rewrite Ho'|]. unfold slot. rewrite <- probe_next by done.
        apply H. lia.
    + exists n, true. split; [done|]. exists 0%nat. rewrite probe_0 by done.
      split_and!; [lia|done|done].
Qed.

Lemma local_loop_fuel_spec fuel s n :
  fuel <> 0%nat -> serv_ok s -> 0 <= n < NN_MAX_CLIENT ->
  let slot i := get_slot (client_list s) (Z.land (probe n i) (nn_mask s)) in
  exists n' b, local_loop fuel (client_list s) (nn_mask s) n = Some (n', b) /\
    if (b : bool) then exists i, n' = probe n i /\ slot i = Some None
    else forall i, (i < fuel)%nat -> slot i <> Some None.
Proof.
  intros Hf [Hm Hl] Hn slot. destruct fuel as [|fuel]; [done|].
  destruct (local_loop_spec fuel (client_list s) (nn_mask s) n)
    as (n' & b & Hloop & Hb); [done..|]. exists n', b. split; [exact Hloop|]. destruct b.
  - destruct Hb as (i & _ & Hi). by exists i.
  - intros i Hi. apply Hb. lia.
Qed.

(** Over a full turn of the counter every slot is probed. *)
Lemma probe_all n k j :
  0 <= k <= 18 -> 0 <= j < 2 ^ k -> 0 <= n < NN_MAX_CLIENT ->
  exists i, Z.of_nat i < NN_MAX_CLIENT /\ Z.land (probe n i) (2 ^ k - 1) = j.
Proof.
  intros Hk Hj Hn. assert (0 < 2 ^ k) as Hp by lia.
  assert (2 ^ k <= NN_MAX_CLIENT) as Hle by (apply (Z.pow_le_mono_r 2 k 18); lia).
  pose proof (Z.mod_pos_bound (j - n) (2 ^ k) Hp).
  exists (Z.to_nat ((j - n) mod 2 ^ k)). split; [lia|].
  replace (2 ^ k - 1) with (Z.ones k) by (rewrite Z.ones_equiv; lia).
  rewrite Z.land_ones by lia. unfold probe. rewrite Z2Nat.id by lia.
  change NN_MAX_CLIENT with (2 ^ 18). replace 18 with (k + (18 - k)) at 1 by lia.
  rewrite Z.pow_add_r by lia. rewrite Z.rem_mul_r by lia.
  rewrite Z.add_mod by lia. rewrite (Z.mul_comm (2 ^ k)), Z.mod_mul, Z.add_0_r by lia.
  rewrite !Z.mod_mod, Zplus_mod_idemp_r by lia. rewrite Z.mod_small by lia. lia.
Qed.

Lemma store_cstr w buf :
  cstring w -> (length w < length buf)%nat ->
  exists b, store (w ++ [0]) buf = Some b /\ cstr b = w.
Proof.
  intros Hw Hl. unfold store. rewrite decide_True by (rewrite length_app; simpl; lia).
  eexists; split; [done|]. rewrite <- !app_assoc. generalize (drop (length (w ++ [0])) buf). intros r. clear Hl.
  induction Hw as [|x w Hx Hw IH]; simpl; [done|].
  unfold is_char in Hx. destruct (x =? 0) eqn:E; bprop; [lia|]. by f_equal.
Qed.

(** The server's own structure, ready to register a local user. *)
Definition local_ready (st : nn_state) (me cptr : cid) (s : Server) (k : Z) : Prop :=
  get_serv st me = Some s /\ 0 <= k <= 18 /\ nn_mask s = 2 ^ k - 1 /\
  Z.of_nat (length (client_list s)) = 2 ^ k /\ 0 <= last_nn st < NN_MAX_CLIENT /\
  cptr <> me /\ exists c, clients st !! cptr = Some c /\ length (cli_yxx c) = 4%nat.

Lemma set_client_slot_ok st me s i v :
  get_serv st me = Some s -> 0 <= i < Z.of_nat (length (client_list s)) ->
  exists c, clients st !! me = Some c /\ cli_serv c = Some s /\
    set_client_slot st me i v =
      Some (upd_client st me (set_serv c (set_client_list s (<[Z.to_nat i := v]> (client_list s))))).
Proof.
  unfold get_serv, set_client_slot. intros Hs Hi.
  destruct (clients st !! me) as [c|] eqn:E; [|done]. simpl in *. exists c.
  rewrite Hs. simpl. by rewrite put_slot_ok.
Qed.

Lemma get_serv_upd_ne st i j c : i <> j -> get_serv (upd_client st i c) j = get_serv st j.
Proof. intros. unfold get_serv, upd_client. simpl. by rewrite lookup_insert_ne. Qed.

Lemma get_serv_upd st i c : get_serv (upd_client st i c) i = cli_serv c.
Proof. unfold get_serv, upd_client. simpl. by rewrite lookup_insert_eq. Qed.

(** ** Lemmas: well formed tables *)
(** Every server structure has an array of nn_mask + 1 entries, and every entry
    of the server table is a server. *)
Definition nn_wf (st : nn_state) : Prop :=
  Z.of_nat (length (server_list st)) = NN_MAX_SERVER /\
  (forall i s, get_serv st i = Some s -> serv_ok s) /\
  (forall n a, server_list st !! n = Some (Some a) -> exists s, get_serv st a = Some s).

Lemma nn_wf_upd st i c s :
  nn_wf st -> cli_serv c = Some s -> serv_ok s -> nn_wf (upd_client st i c).
Proof.
  intros (H1 & H2 & H3) Hc Hs. split_and!; [done| |].
  - intros j s' Hj. destruct (decide (i = j)) as [<-|n].
    + rewrite get_serv_upd, Hc in Hj. by injection Hj as <-.
    + rewrite get_serv_upd_ne in Hj by done. eauto.
  - intros n a Hn. destruct (decide (i = a)) as [<-|Hne].
    + rewrite get_serv_upd. eauto.
    + rewrite get_serv_upd_ne by done. eauto.
Qed.

Lemma nn_wf_upd_user st i c0 c :
  nn_wf st -> clients st !! i = Some c0 -> cli_serv c = cli_serv c0 -> nn_wf (upd_client st i c).
Proof.
  intros (H1 & H2 & H3) Hi Hc. assert (get_serv st i = cli_serv c0) as E.
  { unfold get_serv. by rewrite Hi. }
  assert (forall j, get_serv (upd_client st i c) j = get_serv st j) as Eq.
  { intros j. destruct (decide (i = j)) as [<-|n]; [|by apply get_serv_upd_ne].
    by rewrite get_serv_upd, Hc. }
  split_and!; [done|intros j s; rewrite Eq; apply H2|].
  intros n a Hn. rewrite Eq. eauto.
Qed.

Lemma nn_wf_put st last l i v :
  nn_wf st -> put_slot (server_list st) i v = Some l ->
  (forall a, v = Some a -> exists s, get_serv st a = Some s) ->
  nn_wf (set_servers st last l).
Proof.
  intros (H1 & H2 & H3) Hp Hv. unfold put_slot in Hp. destruct (_ && _) eqn:E; [|done].
  injection Hp as <-. split_and!; [by rewrite <- H1; simpl; rewrite length_insert|done|].
  intros n a Hn. simpl in Hn. destruct (decide (n = Z.to_nat i)) as [->|Hne].
  - bprop. apply Nat.ltb_lt in H0. rewrite list_lookup_insert_eq in Hn by done.
    injection Hn as ->. destruct (Hv a eq_refl) as [s Hs]. by exists s.
  - rewrite list_lookup_insert_ne in Hn by done. eauto.
Qed.

Lemma nn_wf_set_slot st me i v st' :
  nn_wf st -> set_client_slot st me i v = Some st' -> nn_wf st'.
Proof.
  intros Hwf H. unfold set_client_slot in H.
  destruct (clients st !! me) as [c|] eqn:Ec; [|done]. simpl in H.
  destruct (cli_serv c) as [s|] eqn:Es; [|done]. simpl in H.
  unfold put_slot in H. destruct (_ && _); [|done]. injection H as <-.
  eapply nn_wf_upd; [done|done|]. destruct Hwf as (_ & H2 & _). destruct (H2 me s) as [? ?].
  { unfold get_serv. by rewrite Ec. }
  split; [done|]. cbn [client_list set_client_list nn_mask]. by rewrite length_insert.
Qed.

Lemma foldl_base64_range s i : 0 <= i < 2 ^ 32 -> 0 <= foldl base64_step i s < 2 ^ 32.
Proof.
  revert i; induction s as [|c s IH]; intros i Hi; [done|]. apply IH.
  apply Z.mod_pos_bound. lia.
Qed.

Lemma base64toint_some s : s <> [] -> exists v, base64toint s = Some v /\ 0 <= v < 2 ^ 32.
Proof.
  destruct s as [|c s]; [congruence|]. intros _. eexists; split; [done|].
  apply foldl_base64_range. pose proof (to_n_range c). lia.
Qed.

Lemma base64toint_small s i :
  base64toint s = Some i -> (length s <= 2)%nat -> 0 <= i < NN_MAX_SERVER.
Proof.
  intros H Hl. assert (s <> []) as Hne by (by intros ->).
  rewrite base64toint_val in H by (done || lia). injection H as <-.
  pose proof (b64_val_range s). assert (64 ^ Z.of_nat (length s) <= 64 ^ 2) by (apply Z.pow_le_mono_r; lia).
  unfold NN_MAX_SERVER. lia.
Qed.

Lemma find_server_safe st s :
  nn_wf st -> s <> [] ->
  exists o, FindNServer st s = Some o /\
    ((2 <= length s)%nat -> exists o', FindXNServer st s = Some o' /\
       (forall a, o' = Some a -> exists sv, get_serv st a = Some sv)) /\
    (forall a, o = Some a -> exists sv, get_serv st a = Some sv).
Proof.
  intros (H1 & H2 & H3) Hne.
  assert (forall i, 0 <= i < NN_MAX_SERVER -> exists o, get_slot (server_list st) i = Some o /\
    forall a, o = Some a -> exists sv, get_serv st a = Some sv) as Hget.
  { intros i Hi. destruct (get_slot_ok (server_list st) i) as [o Ho]; [lia|]. exists o.
    split; [done|]. intros a ->. unfold get_slot in Ho. destruct (i <? 0); [done|]. eauto. }
  assert (exists o', FindXNServer st s = Some o' /\
       (forall a, o' = Some a -> exists sv, get_serv st a = Some sv)) as HX.
  { unfold FindXNServer.
    destruct (base64toint_some (take 2 s)) as (v & Hv & _); [by destruct s|]. rewrite Hv. simpl.
    apply Hget. apply (base64toint_small _ _ Hv). rewrite length_take. lia. }
  assert (exists o, FindNServer st s = Some o /\
    forall a, o = Some a -> exists sv, get_serv st a = Some sv) as (o & Ho & Ho').
  { unfold FindNServer. destruct (Nat.ltb_spec (length s) 3).
    - destruct (base64toint_some s Hne) as (v & Hv & _). rewrite Hv. simpl.
      apply Hget. apply (base64toint_small _ _ Hv). lia.
    - destruct (_ =? _)%nat; [|done]. apply Hget. pose proof (to_n_range (hd0 s)).
      unfold NN_MAX_SERVER. lia. }
  exists o. split_and!; done.
Qed.

Lemma find_in_safe st o s :
  nn_wf st -> s <> [] -> (forall a, o = Some a -> exists sv, get_serv st a = Some sv) ->
  exists r, find_in st o s = Some r.
Proof.
  intros (H1 & H2 & H3) Hne Ho. destruct o as [a|]; [|by eexists]. simpl.
  destruct (Ho a eq_refl) as [sv Hsv]. rewrite Hsv. simpl.
  destruct (base64toint_some s Hne) as (v & -> & Hv). simpl.
  destruct (H2 a sv Hsv). apply get_slot_ok. pose proof (land_le v (nn_mask sv)). lia.
Qed.

(** ** Lemmas: the capacity *)
Lemma capacity_loop_spec fuel m capacity :
  0 < m -> capacity <= 2 ^ 31 -> m * 2 ^ Z.of_nat fuel = 2 ^ 32 -> m < 2 ^ 32 ->
  exists j, 0 <= j <= Z.of_nat fuel /\ capacity_loop fuel m capacity = m * 2 ^ j /\ m * 2 ^ j < 2 ^ 32 /\
    capacity <= m * 2 ^ j /\ (0 < j -> m * 2 ^ (j - 1) < capacity).
Proof.
  revert m; induction fuel as [|fuel IH]; intros m Hm Hc Hf Hlt; [lia|].
  cbn [capacity_loop]. destruct (m <? capacity) eqn:E; bprop.
  - rewrite Nat2Z.inj_succ, Z.pow_succ_r in Hf by lia. rewrite Z.shiftl_mul_pow2 by lia.
    unfold u32. rewrite Z.mod_small by lia. change (2 ^ 1) with 2.
    destruct (IH (m * 2)) as (j & Hj & -> & H1 & H2 & H3); [lia|done|nia|lia|].
    exists (j + 1). rewrite Z.pow_add_r by lia. change (2 ^ 1) with 2.
    split_and!; try nia. intros _. replace (j + 1 - 1) with j by lia.
    destruct (decide (j = 0)) as [->|]; [lia|].
    replace (2 ^ j) with (2 * 2 ^ (j - 1)); [nia|]. rewrite <- Z.pow_succ_r by lia. f_equal. lia.
  - exists 0. rewrite Z.pow_0_r, Z.mul_1_r. split_and!; lia.
Qed.

(** ** Lemmas: registering *)
Lemma clients_upd_ne st i j c : i <> j -> clients (upd_client st i c) !! j = clients st !! j.
Proof. intros. by apply lookup_insert_ne. Qed.

Lemma clients_upd st i c : clients (upd_client st i c) !! i = Some c.
Proof. apply lookup_insert_eq. Qed.

Lemma base64toint_inttobase64 v count :
  0 <= v < 64 ^ Z.of_nat count -> (1 <= count <= 5)%nat ->
  base64toint (inttobase64 v count) = Some v.
Proof.
  intros Hv Hc. pose proof (inttobase64_length v count) as Hl.
  rewrite base64toint_val; [|intros E; rewrite E in Hl; simpl in Hl; lia|lia].
  rewrite b64_val_inttobase64 by lia. f_equal. by apply Z.mod_small.
Qed.

Lemma get_slot_land l n mask :
  0 <= mask -> get_slot l (Z.land n mask) = l !! Z.to_nat (Z.land n mask).
Proof.
  intros Hm. unfold get_slot. pose proof (land_le n mask Hm).
  by rewrite (proj2 (Z.ltb_ge _ _)) by lia.
Qed.

Lemma reserve_ok st me cptr s k n :
  local_ready st me cptr s k -> 0 <= n < NN_MAX_CLIENT ->
  exists st' c', reserve_numnick st me cptr s n = Some st' /\
    clients st' !! cptr = Some c' /\ cstr (cli_yxx c') = inttobase64 n 3 /\
    server_list st' = server_list st /\
    get_serv st' me = Some (set_client_list s
      (<[Z.to_nat (Z.land n (nn_mask s)) := Some cptr]> (client_list s))).
Proof.
  intros (Hs & Hk & Hm & Hl & _ & Hne & c & Hc & Hy) Hn.
  unfold reserve_numnick.
  destruct (set_client_slot_ok st me s (Z.land n (nn_mask s)) (Some cptr) Hs)
    as (cme & Hme & Hserv & ->); [pose proof (land_le n (nn_mask s)); lia|].
  cbn [mbind option_bind]. rewrite clients_upd_ne, Hc by done. cbn [mbind option_bind].
  destruct (store_cstr (inttobase64 n 3) (cli_yxx c)) as (y & Hst & Hcy).
  { apply alphabet_cstring, inttobase64_alphabet. }
  { rewrite inttobase64_length. lia. }
  rewrite Hst. cbn [mbind option_bind]. eexists _, _.
  split_and!; [done|apply clients_upd|done|done|].
  transitivity (get_serv (upd_client st me (set_serv cme (set_client_list s
    (<[Z.to_nat (Z.land n (nn_mask s)) := Some cptr]> (client_list s))))) me);
    [by apply get_serv_upd_ne|apply get_serv_upd].
Qed.

Lemma findNUser_5 st yy xxx me s n :
  length yy = 2%nat -> length xxx = 3%nat -> FindXNServer st yy = Some (Some me) ->
  get_serv st me = Some s -> base64toint xxx = Some n -> 0 <= nn_mask s ->
  findNUser st (yy ++ xxx) = client_list s !! Z.to_nat (Z.land n (nn_mask s)).
Proof.
  intros Hyy Hx Hf Hs Hn Hm. unfold findNUser. rewrite length_app, Hyy, Hx. simpl (_ =? _)%nat.
  unfold FindXNServer in *. rewrite take_app_le, take_ge in * by lia. cbn iota.
  rewrite Hf. cbn [mbind option_bind find_in]. rewrite Hs.
  rewrite drop_app_ge, Hyy, Nat.sub_diag, drop_0 by lia. cbn [mbind option_bind].
  rewrite Hn. by apply get_slot_land.
Qed.

Lemma wf_reserve st me c s n st' :
  nn_wf st -> reserve_numnick st me c s n = Some st' -> nn_wf st'.
Proof.
  intros Hwf H. unfold reserve_numnick in H.
  destruct (set_client_slot _ _ _ _) as [st1|] eqn:E; cbn [mbind option_bind] in H; [|done].
  apply nn_wf_set_slot in E; [|done].
  destruct (clients st1 !! c) as [cl|] eqn:Ec; cbn [mbind option_bind] in H; [|done].
  destruct (store _ _) as [y|]; cbn [mbind option_bind] in H; [|done]. injection H as <-.
  change (nn_wf (upd_client st1 c (set_yxx cl y))). by eapply nn_wf_upd_user.
Qed.

Lemma wf_local_numnick fuel st me c st' b :
  nn_wf st -> local_numnick fuel st me c = Some (st', b) -> nn_wf st'.
Proof.
  intros Hwf H. unfold local_numnick in H.
  destruct (get_serv st me) as [s|]; cbn [mbind option_bind] in H; [|done].
  destruct (local_loop _ _ _ _) as [[n free]|]; cbn [mbind option_bind] in H; [|done].
  destruct free; [|by injection H as <-].
  destruct (reserve_numnick _ _ _ _ _) as [st1|] eqn:E; cbn [mbind option_bind] in H; [|done].
  injection H as <- <-. by eapply wf_reserve.
Qed.

Lemma wf_SetServerYXX st srv yxx st' :
  nn_wf st -> SetServerYXX st srv yxx = Some st' -> nn_wf st'.
Proof.
  intros Hwf H. unfold SetServerYXX in H.
  destruct (clients st !! srv) as [c|] eqn:Ec; [|done]. simpl in H.
  destruct (cli_serv c) as [s|] eqn:Es; [|done]. simpl in H.
  destruct (if (length yxx =? 5)%nat then _ else _) as [[y cap]|]; [|done]. simpl in H.
  destruct (base64toint (cstr cap)) as [mask|] eqn:Em; [|done]. simpl in H.
  destruct (base64toint (cstr y)) as [idx|]; [|done]. simpl in H.
  unfold enter_server in H. destruct (put_slot _ _ _) as [l|] eqn:El; [|done].
  injection H as <-. assert (cstr cap <> []) as Hne by (intros E; rewrite E in Em; done).
  destruct (base64toint_some _ Hne) as (v & Hv & Hr). rewrite Em in Hv. injection Hv as <-.
  eapply nn_wf_upd; [|done|split; cbn [nn_mask client_list]; [lia|unfold MyCalloc; rewrite length_replicate; lia]].
  eapply nn_wf_put; [done|exact El|]. intros a [= <-]. exists s. unfold get_serv. by rewrite Ec.
Qed.

Lemma local_numnick_correct fuel st me cptr s k :
  Z.of_nat fuel = NN_MAX_CLIENT -> local_ready st me cptr s k ->
  ((exists j, client_list s !! j = Some None) ->
   exists st' c' n, local_numnick fuel st me cptr = Some (st', true) /\
     clients st' !! cptr = Some c' /\ base64toint (cstr (cli_yxx c')) = Some n /\
     let i := Z.to_nat (Z.land n (nn_mask s)) in
     client_list s !! i = Some None /\
     get_serv st' me = Some (set_client_list s (<[i := Some cptr]> (client_list s))) /\
     forall yy, length yy = 2%nat -> FindXNServer st yy = Some (Some me) ->
       findNUser st' (yy ++ cstr (cli_yxx c')) = Some (Some cptr)) /\
  ((forall j, client_list s !! j <> Some None) ->
   exists st', local_numnick fuel st me cptr = Some (st', false) /\ clients st' = clients st).
Proof.
  intros Ef Hr. pose proof Hr as (Hs & Hk & Hm & Hl & Hn & Hne & c & Hc & Hy).
  destruct (local_loop_fuel_spec fuel s (last_nn st)) as (n & b & Hloop & Hb);
    [by intros ->|split; lia|done|].
  unfold local_numnick. rewrite Hs. cbn [mbind option_bind]. rewrite Hloop.
  cbn [mbind option_bind]. split.
  - intros [j Hj]. destruct b.
    2:{ exfalso. pose proof (lookup_lt_Some _ _ _ Hj).
        destruct (probe_all (last_nn st) k (Z.of_nat j)) as (i & Hi & E); [done|lia|done|].
        apply (Hb i); [lia|]. rewrite get_slot_land, Hm, E, Nat2Z.id by lia. done. }
    destruct Hb as (i & -> & Hfree). rewrite get_slot_land in Hfree by lia.
    assert (0 <= probe (last_nn st) i < NN_MAX_CLIENT) as Hp by (apply Z.mod_pos_bound; done).
    destruct (reserve_ok st me cptr s k _ Hr Hp) as (st' & c' & -> & Hc' & Hcy & Hsl & Hgs).
    assert (base64toint (cstr (cli_yxx c')) = Some (probe (last_nn st) i)) as Hb.
    { rewrite Hcy. apply base64toint_inttobase64; [exact Hp|lia]. }
    exists st', c', (probe (last_nn st) i). split_and!; [done..|].
    intros yy Hyy Hfind. erewrite findNUser_5; [|done| | |exact Hgs|exact Hb|simpl; lia].
    + cbn [client_list nn_mask set_client_list]. apply list_lookup_insert_eq.
      eapply lookup_lt_Some, Hfree.
    + rewrite Hcy. apply inttobase64_length.
    + unfold FindXNServer in *. by rewrite Hsl.
  - intros Hfull. destruct b; [|by eexists].
    destruct Hb as (i & -> & Hfree). rewrite get_slot_land in Hfree by lia.
    by apply Hfull in Hfree.
Qed.


(** ** Properties *)

(** Inttobase64() and base64toint() are inverse to each other: a value that
    fits [count] digits (up to five) is read back, and a numeric of up to five
    digits is written back; the digits contain none of the characters the
    protocol reserves. *)
Theorem base64_roundtrip v count s :
  (0 <= v < 64 ^ Z.of_nat count -> (1 <= count <= 5)%nat ->
   base64toint (inttobase64 v count) = Some v /\ length (inttobase64 v count) = count /\
   Forall (fun c => c ∉ 0 :: lit " :+&#$@%") (inttobase64 v count)) /\
  (Forall in_alphabet s -> (1 <= length s <= 5)%nat ->
   exists w, base64toint s = Some w /\ 0 <= w < 64 ^ Z.of_nat (length s) /\
     inttobase64 w (length s) = s).
Proof.
  split.
  - intros Hv Hc. pose proof (inttobase64_length v count) as Hl. split_and!; [|done|].
    + by apply base64toint_inttobase64.
    + eapply Forall_impl; [apply inttobase64_alphabet|].
      apply (proj1 (Forall_forall (fun c => c ∉ 0 :: lit " :+&#$@%") convert2y)). by_decide.
  - intros Hs Hl. exists (b64_val s). split_and!; [|apply b64_val_range..|].
    + apply base64toint_val; [intros ->; simpl in Hl; lia|lia].
    + by apply inttobase64_b64_val.
Qed.

Lemma base64_roundtrip_witness :
  base64toint (inttobase64 123456 3) = Some 123456 /\
  (exists w, base64toint (lit "]a[") = Some w /\ inttobase64 w 3 = lit "]a[").
Proof.
  split.
  - apply (base64_roundtrip 123456 3 []); [simpl; lia|lia].
  - destruct (proj2 (base64_roundtrip 0 0 (lit "]a["))) as (w & Hw & _ & Hb).
    + assert (forallb (fun c => existsb (Z.eqb c) convert2y) (lit "]a[") = true) as H
        by by vm_compute.
      rewrite forallb_forall in H. apply Forall_forall. intros c Hc.
      apply list_elem_of_In, H, existsb_exists in Hc as (y & Hy & E).
      apply Z.eqb_eq in E as ->. by apply list_elem_of_In.
    + vm_compute. lia.
    + by exists w.
Defined.

(** SetLocalNumNick() finds a free slot of the server's array whenever there
    is one, gives the client a numeric that findNUser() resolves to it under the
    server's own numeric, and changes no other slot; with no free slot it fails
    and registers nothing. *)
Theorem SetLocalNumNick_correct st me cptr s k :
  local_ready st me cptr s k ->
  ((exists j, client_list s !! j = Some None) ->
   exists st' c' n, SetLocalNumNick st me cptr = Some (st', true) /\
     clients st' !! cptr = Some c' /\ base64toint (cstr (cli_yxx c')) = Some n /\
     let i := Z.to_nat (Z.land n (nn_mask s)) in
     client_list s !! i = Some None /\
     get_serv st' me = Some (set_client_list s (<[i := Some cptr]> (client_list s))) /\
     forall yy, length yy = 2%nat -> FindXNServer st yy = Some (Some me) ->
       findNUser st' (yy ++ cstr (cli_yxx c')) = Some (Some cptr)) /\
  ((forall j, client_list s !! j <> Some None) ->
   exists st', SetLocalNumNick st me cptr = Some (st', false) /\ clients st' = clients st).
Proof. intros Hr. apply (local_numnick_correct (Z.to_nat NN_MAX_CLIENT) st me cptr s k); [by apply Z2Nat.id|exact Hr]. Qed.

(** A server "AB" with four slots, two of them taken, and a new user. *)
Definition sample_server : Server :=
  {| nn_mask := 3; nn_capacity := lit "AAD" ++ [0];
     client_list := [Some 7%positive; None; Some 8%positive; None] |}.

Definition sample_state : nn_state :=
  {| lastNNServer := 2; server_list := <[1%nat := Some 1%positive]> (replicate 4096 None);
     last_nn := 262143;
     clients := <[1%positive := {| cli_yxx := lit "AB" ++ [0; 0]; cli_name := lit "srv.test";
                    cli_flag_map := false; user_server := None; cli_serv := Some sample_server |}]>
                (<[2%positive := {| cli_yxx := [0; 0; 0; 0]; cli_name := lit "nick";
                    cli_flag_map := false; user_server := Some 1%positive; cli_serv := None |}]> empty) |}.

Lemma SetLocalNumNick_correct_witness :
  local_ready sample_state 1%positive 2%positive sample_server 2 /\
  exists st' c', SetLocalNumNick sample_state 1%positive 2%positive = Some (st', true) /\
    clients st' !! 2%positive = Some c' /\
    findNUser st' (lit "AB" ++ cstr (cli_yxx c')) = Some (Some 2%positive).
Proof.
  assert (local_ready sample_state 1%positive 2%positive sample_server 2) as H.
  { unfold local_ready, NN_MAX_CLIENT.
    split_and!; [by vm_compute|lia|lia|done|done|simpl; lia|simpl; lia|done|].
    eexists. split; [by vm_compute|done]. }
  split; [done|].
  destruct (proj1 (SetLocalNumNick_correct sample_state 1%positive 2%positive sample_server 2 H))
    as (st' & c' & n & E & Hc & _ & _ & _ & Hfind); [by exists 1%nat|].
  exists st', c'. split_and!; [done|done|]. apply Hfind; [done|by vm_compute].
Defined.

(** SetYXXCapacity() of a capacity up to 2^31 either stops the program, which
    it does exactly above NN_MAX_CLIENT, or installs the mask 2^k - 1 of the
    smallest power of two at least 16 and at least the capacity, with an empty
    array of 2^k slots, and writes a capacity numeric that decodes to the mask. *)
Theorem SetYXXCapacity_correct st c cl s capacity :
  0 <= capacity <= 2 ^ 31 -> clients st !! c = Some cl -> cli_serv cl = Some s ->
  (1 <= length (cstr (cli_yxx cl)) <= 2)%nat -> Z.of_nat (length (server_list st)) = NN_MAX_SERVER ->
  (NN_MAX_CLIENT < capacity -> SetYXXCapacity st c capacity = Some CapExit) /\
  (capacity <= NN_MAX_CLIENT ->
   exists st' s' k, SetYXXCapacity st c capacity = Some (CapDone st') /\
     get_serv st' c = Some s' /\ 4 <= k <= 18 /\ nn_mask s' = 2 ^ k - 1 /\
     capacity <= 2 ^ k /\ (4 < k -> 2 ^ (k - 1) < capacity) /\
     client_list s' = replicate (Z.to_nat (2 ^ k)) None /\
     base64toint (cstr (nn_capacity s')) = Some (nn_mask s')).
Proof.
  intros Hcap Hc Hs Hy Hsl. unfold SetYXXCapacity. rewrite Hc.
  destruct (capacity_loop_spec 28 16 capacity) as (j & Hj & E & H1 & H2 & H3); [lia..|].
  rewrite E. change 16 with (2 ^ 4) in *. rewrite <- Z.pow_add_r in * by lia.
  assert (forall x, 4 + x <= 18 <-> 2 ^ (4 + x) <= NN_MAX_CLIENT) as Hexp.
  { intros x. change NN_MAX_CLIENT with (2 ^ 18). split; intros; [apply Z.pow_le_mono_r; lia|].
    destruct (decide (18 < 4 + x)); [|lia]. pose proof (Z.pow_lt_mono_r 2 18 (4 + x)). lia. }
  destruct (NN_MAX_CLIENT <? 2 ^ (4 + j)) eqn:El; bprop; (split; [|]); intros Hle.
  - done.
  - assert (14 < j) as H14 by (destruct (decide (j <= 14)); [specialize (Hexp j); lia|lia]).
    assert (2 ^ 18 <= 2 ^ (4 + (j - 1))) by (apply Z.pow_le_mono_r; lia).
    rewrite Z.pow_add_r in * by lia. unfold NN_MAX_CLIENT in *. lia.
  - lia.
  - destruct (base64toint_some (cstr (cli_yxx cl))) as (idx & Hidx & _); [intros E0; rewrite E0 in Hy; simpl in Hy; lia|].
    pose proof (base64toint_small _ _ Hidx ltac:(lia)).
    cbn [mbind option_bind]. rewrite Hs. cbn [mbind option_bind].
    apply Hexp in El as Hk. assert (0 < 2 ^ (4 + j)) by (apply Z.pow_pos_nonneg; lia).
    destruct (store_cstr (inttobase64 (2 ^ (4 + j) - 1) 3) (replicate 4 0)) as (b & -> & Hb).
    { apply alphabet_cstring, inttobase64_alphabet. }
    { rewrite inttobase64_length. simpl. lia. }
    cbn [mbind option_bind]. rewrite Hidx. cbn [mbind option_bind].
    rewrite put_slot_ok by lia. cbn [mbind option_bind]. eexists _, _, (4 + j).
    split; [done|]. rewrite get_serv_upd. split; [done|]. cbn [nn_mask nn_capacity client_list].
    split_and!; [lia|lia|done|lia| | |].
    + intros. replace (4 + j - 1) with (4 + (j - 1)) by lia. rewrite Z.pow_add_r by lia. lia.
    + unfold MyCalloc. do 2 f_equal. lia.
    + rewrite Hb. apply base64toint_inttobase64; [unfold NN_MAX_CLIENT in *; simpl; lia|lia].
Qed.

Lemma SetYXXCapacity_correct_witness :
  exists st' s' k, SetYXXCapacity sample_state 1%positive 1000 = Some (CapDone st') /\
     get_serv st' 1%positive = Some s' /\ 4 <= k <= 18 /\ nn_mask s' = 2 ^ k - 1 /\ 1000 <= 2 ^ k.
Proof.
  destruct (proj2 (SetYXXCapacity_correct sample_state 1%positive _ sample_server 1000
    ltac:(lia) ltac:(reflexivity) ltac:(reflexivity) ltac:(vm_compute; lia) ltac:(by vm_compute)))
    as (st' & s' & k & H1 & H2 & H3 & H4 & H5 & _); [unfold NN_MAX_CLIENT; lia|].
  by exists st', s', k.
Defined.

(** In a well formed network no lookup by a numeric of two characters or more
    reads outside an array, whatever its characters, and registering a server or
    a local user, removing a user and clearing a server keep the network well
    formed. *)
Theorem numnick_lookup_safe st :
  nn_wf st ->
  (forall yxx, (2 <= length yxx)%nat ->
     (exists o, FindNServer st yxx = Some o) /\ (exists o, findNUser st yxx = Some o)) /\
  (forall me c st' b, SetLocalNumNick st me c = Some (st', b) -> nn_wf st') /\
  (forall srv yxx st', SetServerYXX st srv yxx = Some st' -> nn_wf st') /\
  (forall srv yxx st', RemoveYXXClient st srv yxx = Some st' -> nn_wf st') /\
  (forall srv st', ClearServerYXX st srv = Some st' -> nn_wf st').
Proof.
  intros Hwf. split_and!.
  - intros yxx Hl. destruct (find_server_safe st yxx Hwf) as (o & Ho & HX & Hs);
      [by intros ->; simpl in Hl; lia|].
    split; [by exists o|]. destruct (HX Hl) as (o' & Ho' & Hs'). unfold findNUser.
    destruct (_ =? _)%nat eqn:E; [rewrite Ho'|rewrite Ho]; cbn [mbind option_bind];
      apply find_in_safe; try done; destruct yxx as [|? [|? [|? ?]]]; simpl in *; try lia; done.
  - intros me c st' b H. by eapply wf_local_numnick.
  - intros srv yxx st' H. by eapply wf_SetServerYXX.
  - intros srv yxx st' H. destruct yxx as [|y yxx]; [by injection H as <-|]. unfold RemoveYXXClient in H.
    destruct (get_serv st srv) as [s|]; [|done]. simpl in H. by eapply nn_wf_set_slot.
  - intros srv st' H. unfold ClearServerYXX in H.
    destruct (clients st !! srv); [|done]. simpl in H. destruct (base64toint _) as [i|]; [|done].
    simpl in H. destruct (get_slot _ _) as [o|]; [|done]. simpl in H.
    case_decide; [|by injection H as <-]. destruct (put_slot _ _ _) as [l|] eqn:E; [|done].
    injection H as <-. by eapply nn_wf_put.
Qed.

Lemma numnick_lookup_safe_witness :
  nn_wf sample_state /\ exists o, findNUser sample_state (lit "AB:$") = Some o.
Proof.
  assert (serv_ok sample_server) as Hok by by_decide.
  assert (nn_wf sample_state) as H.
  { split_and!; [by vm_compute| |].
    - intros i s. unfold get_serv. simpl.
      destruct (decide (i = 1%positive)) as [->|]; [intros [= <-]; exact Hok|].
      rewrite lookup_insert_ne by done. destruct (decide (i = 2%positive)) as [->|]; [done|].
      by rewrite lookup_insert_ne, lookup_empty.
    - intros n a Hn. cbn [server_list sample_state] in Hn.
      destruct (decide (n = 1%nat)) as [->|].
      + rewrite list_lookup_insert_eq in Hn by (rewrite length_replicate; lia).
        injection Hn as <-. by exists sample_server.
      + rewrite list_lookup_insert_ne in Hn by done. by apply lookup_replicate in Hn as [? ?]. }
  split; [done|]. apply (numnick_lookup_safe sample_state H). simpl. lia.
Defined.
