(* ===== verification/ByteQueue.v ===== *)
(** * The interface of the input queues

    What include/dbuf.h promises to the code that reads from connections: bytes
    are put at the end, and lines or blocks are taken from the front.  The
    specification of a queue is the list of its bytes. *)
From S2P Require Import Prelude Chattr.

(** The number of line end characters at the front. *)
Fixpoint eols (s : list Z) : nat :=
  match s with
  | x :: r => if IsEol x then S (eols r) else 0%nat
  | [] => 0%nat
  end.

(** The characters before the first line end. *)
Fixpoint line (s : list Z) : list Z :=
  match s with
  | x :: r => if IsEol x then [] else x :: line r
  | [] => []
  end.

(** The bytes after the leading line ends. *)
Definition skip_eols (s : list Z) : list Z := drop (eols s) s.

Class ByteQueue (Q : Type) := {
  bq_length : Q -> Z;
  bq_put : Q -> list Z -> option (Q * bool);
  bq_getmsg : Q -> nat -> Q * list Z;
  bq_get : Q -> nat -> option (Q * list Z);
  bq_clear : Q -> Q;
  bq_ok : Q -> Prop;
  bq_bytes : Q -> list Z }.

Class ByteQueueLaws (Q : Type) `{ByteQueue Q} := {
  bq_length_ok q : bq_ok q -> bq_length q = Z.of_nat (length (bq_bytes q));
  bq_put_ok q s : bq_ok q -> Z.of_nat (length (bq_bytes q) + length s) < 2 ^ 32 ->
    exists q' b, bq_put q s = Some (q', b) /\ bq_ok q' /\
      bq_bytes q' = (if (b : bool) then bq_bytes q ++ s else []);
  bq_getmsg_ok q n : bq_ok q ->
    let s := skip_eols (bq_bytes q) in
    let k := Nat.min n (length s) in
    let l := line (take k s) in
    let '(q', out) := bq_getmsg q n in
    bq_ok q' /\
    if (length l <? k)%nat
    then out = l /\ l <> [] /\ bq_bytes q' = skip_eols (drop (length l) s)
    else out = [] /\ bq_bytes q' = s;
  bq_get_ok q n : bq_ok q ->
    exists q', bq_get q n = Some (q', take n (bq_bytes q)) /\ bq_ok q' /\
      bq_bytes q' = drop n (bq_bytes q);
  bq_clear_ok q : bq_ok q -> bq_ok (bq_clear q) /\ bq_bytes (bq_clear q) = [] }.

Lemma eols_le s : (eols s <= length s)%nat.
Proof. induction s as [|x s IH]; simpl; [lia|]. destruct (IsEol x); lia. Qed.

Lemma skip_eols_length s : (length (skip_eols s) <= length s)%nat.
Proof. unfold skip_eols. rewrite length_drop. lia. Qed.

Lemma line_no_eol s : Forall (fun x => IsEol x = false) (line s).
Proof. induction s as [|x s IH]; simpl; [constructor|]. destruct (IsEol x) eqn:E; by constructor. Qed.

Lemma line_length a : (length (line a) <= length a)%nat.
Proof. induction a as [|x a IH]; simpl; [lia|]. destruct (IsEol x); simpl; lia. Qed.
