(* ===== verification/DBuf.v ===== *)
(** * ircd/dbuf.c: dynamic byte buffers

    A DBuf is the list of its buffers, [head] first; [tail] is the last one.  A
    buffer keeps the bytes [data .. end) and the offset of [start].  The pool
    records the two counters and the length of the free list (what the free
    buffers hold is never read). *)
From S2P Require Import Prelude Chattr ByteQueue.

Definition DBUF_SIZE : nat := Z.to_nat 2048.

Record DBufBuffer := { db_data : list Z; db_start : nat }.

Record DBuf := { db_length : Z; db_bufs : list DBufBuffer }.

Record pool := { DBufAllocCount : Z; DBufUsedCount : Z; dbufFreeList : nat }.

(** The bytes from [start] to [end]. *)
Definition live (db : DBufBuffer) : list Z := drop (db_start db) (db_data db).

Definition contents (bufs : list DBufBuffer) : list Z := concat (map live bufs).

Definition dbuf_count_memory (p : pool) (sizeof_buffer : Z) : Z * Z :=
  (DBufAllocCount p * sizeof_buffer, DBufUsedCount p * sizeof_buffer).

Definition dbuf_free (p : pool) : pool :=
  {| DBufAllocCount := DBufAllocCount p; DBufUsedCount := DBufUsedCount p - 1;
     dbufFreeList := S (dbufFreeList p) |}.

Fixpoint dbuf_free_n (n : nat) (p : pool) : pool :=
  match n with
  | O => p
  | S n => dbuf_free_n n (dbuf_free p)
  end.

Definition dbuf_malloc_error (p : pool) (bufs : list DBufBuffer) : pool * DBuf :=
  (dbuf_free_n (length bufs) p, {| db_length := 0; db_bufs := [] |}).

Definition advance (db : DBufBuffer) (n : nat) : DBufBuffer :=
  {| db_data := db_data db; db_start := (db_start db + n)%nat |}.

(** memcpy(db->end, ...) and the move of [end]. *)
Definition append (db : DBufBuffer) (s : list Z) : DBufBuffer :=
  {| db_data := db_data db ++ s; db_start := db_start db |}.

Section Alloc.
(** The configuration: FEAT_BUFFERPOOL and FEAT_HAS_FERGUSON_FLUSHER, and
    flush_connections() of s_bsd.c seen from the pool. *)
Variable BUFFERPOOL : Z.
Variable FERGUSON : bool.
Variable flush_connections : pool -> pool.

Definition dbuf_alloc (p : pool) : option pool :=
  match dbufFreeList p with
  | S n => Some {| DBufAllocCount := DBufAllocCount p; DBufUsedCount := DBufUsedCount p + 1;
                   dbufFreeList := n |}
  | O =>
      if DBufAllocCount p * Z.of_nat DBUF_SIZE <? BUFFERPOOL
      then Some {| DBufAllocCount := DBufAllocCount p + 1;
                   DBufUsedCount := DBufUsedCount p + 1; dbufFreeList := 0 |}
      else None
  end.

(** The first attempt and, with the flusher, the second one. *)
Definition alloc_retry (p : pool) : pool * bool :=
  match dbuf_alloc p with
  | Some p' => (p', true)
  | None =>
      if FERGUSON then
        let p1 := flush_connections p in
        match dbuf_alloc p1 with
        | Some p' => (p', true)
        | None => (p1, false)
        end
      else (p, false)
  end.

(** The loop of dbuf_put(): [h] is the index of the link the loop stands on. *)
Fixpoint put_loop (fuel : nat) (p : pool) (bufs : list DBufBuffer) (h : nat) (buf : list Z)
  : option (pool * list DBufBuffer * bool) :=
  match buf with
  | [] => Some (p, bufs, true)
  | _ =>
      match fuel with
      | O => None
      | S fuel =>
          match bufs !! h with
          | Some db =>
              let chunk := (DBUF_SIZE - length (db_data db))%nat in
              put_loop fuel p (<[h := append db (take chunk buf)]> bufs) (S h) (drop chunk buf)
          | None =>
              let (p', ok) := alloc_retry p in
              if ok then
                let db := {| db_data := take DBUF_SIZE buf; db_start := 0 |} in
                put_loop fuel p' (bufs ++ [db]) (S h) (drop DBUF_SIZE buf)
              else Some (p', bufs, false)
          end
      end
  end.

Definition dbuf_put (p : pool) (dyn : DBuf) (buf : list Z) : option (pool * DBuf * bool) :=
  let h := if db_length dyn =? 0 then 0%nat else (length (db_bufs dyn) - 1)%nat in
  '(p', bufs, ok) ← put_loop (S (S (length buf))) p (db_bufs dyn) h buf;
  if (ok : bool)
  then Some (p', {| db_length := u32 (db_length dyn + Z.of_nat (length buf)); db_bufs := bufs |}, true)
  else let (p', dyn') := dbuf_malloc_error p' bufs in Some (p', dyn', false).
End Alloc.

Definition dbuf_map (dyn : DBuf) : option (list Z) :=
  if db_length dyn =? 0 then None
  else match db_bufs dyn with
       | [] => None
       | db :: _ => Some (live db)
       end.

(** The loop of dbuf_delete() on the head of the list. *)
Fixpoint delete_loop (p : pool) (bufs : list DBufBuffer) (dlen : Z) (n : nat)
  : pool * list DBufBuffer * Z :=
  match n with
  | O => (p, bufs, dlen)
  | _ =>
      match bufs with
      | [] => (p, [], dlen)
      | db :: r =>
          let avail := length (live db) in
          let chunk := Nat.min avail n in
          let dlen := dlen - Z.of_nat chunk in
          if (avail <=? n)%nat then delete_loop (dbuf_free p) r dlen (n - chunk)
          else (p, advance db chunk :: r, dlen)
      end
  end.

Definition dbuf_delete (p : pool) (dyn : DBuf) (n : Z) : pool * DBuf :=
  let n := if db_length dyn <? n then db_length dyn else n in
  let '(p', bufs, dlen) := delete_loop p (db_bufs dyn) (db_length dyn) (Z.to_nat n) in
  (p', {| db_length := match bufs with [] => 0 | _ => dlen end; db_bufs := bufs |}).

(** dbuf_get(): the bytes copied, in order. *)
Fixpoint get_loop (fuel : nat) (p : pool) (dyn : DBuf) (n : nat) (out : list Z)
  : option (pool * DBuf * list Z) :=
  match n with
  | O => Some (p, dyn, out)
  | _ =>
      match dbuf_map dyn with
      | None => Some (p, dyn, out)
      | Some b =>
          match fuel with
          | O => None
          | S fuel =>
              let chunk := Nat.min (length b) n in
              let (p', dyn') := dbuf_delete p dyn (Z.of_nat chunk) in
              get_loop fuel p' dyn' (n - chunk) (out ++ take chunk b)
          end
      end
  end.

Definition dbuf_get (p : pool) (dyn : DBuf) (n : nat) : option (pool * DBuf * list Z) :=
  get_loop (S (length (db_bufs dyn))) p dyn n [].

(** The loop of dbuf_flush(), one buffer at a time. *)
Fixpoint flush_loop (p : pool) (bufs : list DBufBuffer) (dlen : Z)
  : pool * list DBufBuffer * Z :=
  match bufs with
  | [] => (p, [], 0)
  | db :: r =>
      let n := eols (live db) in
      if (n <? length (live db))%nat then (p, advance db n :: r, dlen - Z.of_nat n)
      else flush_loop (dbuf_free p) r (dlen - Z.of_nat n)
  end.

Definition dbuf_flush (p : pool) (dyn : DBuf) : pool * DBuf :=
  match db_bufs dyn with
  | [] => (p, dyn)
  | bufs =>
      let '(p', bufs, dlen) := flush_loop p bufs (db_length dyn) in
      (p', {| db_length := dlen; db_bufs := bufs |})
  end.

(** The loop of dbuf_getmsg(): the line, or nothing. *)
Fixpoint getmsg_loop (bufs : list DBufBuffer) (n : nat) (out : list Z) : option (list Z) :=
  match bufs with
  | [] => None
  | db :: r =>
      let window := take n (live db) in
      let l := line window in
      if (length l <? length window)%nat then Some (out ++ l)
      else match (n - length l)%nat with
           | O => None
           | n' => getmsg_loop r n' (out ++ l)
           end
  end.

(** dbuf_getmsg(): the line copied, empty when the C function returns 0. *)
Definition dbuf_getmsg (p : pool) (dyn : DBuf) (n : nat) : pool * DBuf * list Z :=
  let (p, dyn) := dbuf_flush p dyn in
  if db_length dyn =? 0 then (p, dyn, [])
  else
    let n := Nat.min n (Z.to_nat (db_length dyn)) in
    match n with
    | O => (p, dyn, [])
    | _ =>
        match getmsg_loop (db_bufs dyn) n [] with
        | None => (p, dyn, [])
        | Some l =>
            let (p, dyn) := dbuf_delete p dyn (Z.of_nat (length l)) in
            let (p, dyn) := dbuf_flush p dyn in
            (p, dyn, l)
        end
    end.

(** ** Specification: a queue of bytes *)

(** A buffer of a DBuf is not empty and not overfull. *)
Definition buffer_ok (db : DBufBuffer) : Prop :=
  (db_start db < length (db_data db) <= DBUF_SIZE)%nat.

Definition dbuf_ok (dyn : DBuf) : Prop :=
  Forall buffer_ok (db_bufs dyn) /\
  db_length dyn = Z.of_nat (length (contents (db_bufs dyn))).

(** The pool's counters agree when this queue holds [n] buffers and the other
    queues [others]. *)
Definition acct (p : pool) (others : Z) (n : nat) : Prop :=
  DBufAllocCount p = DBufUsedCount p + Z.of_nat (dbufFreeList p) /\
  DBufUsedCount p = others + Z.of_nat n.

Definition pool_ok (p : pool) (others : Z) (dyn : DBuf) : Prop :=
  acct p others (length (db_bufs dyn)).

(** ** Lemmas *)
Lemma dbuf_free_n_spec n p :
  dbuf_free_n n p = {| DBufAllocCount := DBufAllocCount p;
    DBufUsedCount := DBufUsedCount p - Z.of_nat n; dbufFreeList := (n + dbufFreeList p)%nat |}.
Proof.
  revert p; induction n as [|n IH]; intros p.
  - destruct p. simpl. f_equal. lia.
  - cbn [dbuf_free_n]. rewrite IH. unfold dbuf_free. simpl. f_equal; lia.
Qed.

Lemma live_nonempty db : buffer_ok db -> (0 < length (live db))%nat.
Proof. unfold buffer_ok, live. rewrite length_drop. lia. Qed.

Lemma contents_cons db r : contents (db :: r) = live db ++ contents r.
Proof. done. Qed.

Lemma contents_app a b : contents (a ++ b) = contents a ++ contents b.
Proof. unfold contents. by rewrite map_app, concat_app. Qed.

Lemma contents_nil bufs : Forall buffer_ok bufs -> contents bufs = [] -> bufs = [].
Proof.
  intros H E. destruct H as [|db r H _]; [done|]. apply live_nonempty in H.
  rewrite contents_cons in E. destruct (live db); [simpl in H; lia|done].
Qed.

Lemma live_advance db n : live (advance db n) = drop n (live db).
Proof. unfold live, advance. simpl. by rewrite drop_drop. Qed.

Lemma advance_ok db n : buffer_ok db -> (n < length (live db))%nat -> buffer_ok (advance db n).
Proof. unfold buffer_ok, live, advance. rewrite length_drop. simpl. lia. Qed.

Lemma delete_loop_spec p bufs dlen n :
  Forall buffer_ok bufs -> dlen = Z.of_nat (length (contents bufs)) ->
  (n <= length (contents bufs))%nat ->
  exists m bufs', delete_loop p bufs dlen n = (dbuf_free_n m p, bufs', dlen - Z.of_nat n) /\
    Forall buffer_ok bufs' /\ contents bufs' = drop n (contents bufs) /\
    length bufs = (m + length bufs')%nat.
Proof.
  intros Hb. revert p dlen n; induction Hb as [|db r Hdb Hr IH]; intros p dlen n Hd Hn.
  - simpl in Hn. replace n with 0%nat by lia. exists 0%nat, []. simpl. rewrite Z.sub_0_r. done.
  - rewrite contents_cons, length_app in *. pose proof (live_nonempty db Hdb).
    destruct n as [|n]; [exists 0%nat, (db :: r); simpl; rewrite Z.sub_0_r; split_and!; [done|by constructor|done..]|].
    cbn [delete_loop]. destruct (Nat.leb_spec (length (live db)) (S n)).
    + rewrite Nat.min_l by lia.
      destruct (IH (dbuf_free p) (dlen - Z.of_nat (length (live db))) (S n - length (live db))%nat)
        as (m & bufs' & -> & Hok & Hc & Hl); [lia..|].
      exists (S m), bufs'. split_and!; [|done| |simpl; lia].
      * cbn [dbuf_free_n]. f_equal. lia.
      * rewrite Hc. rewrite drop_app_ge by lia. done.
    + rewrite Nat.min_r by lia. exists 0%nat, (advance db (S n) :: r).
      split_and!; [done|constructor; [by apply advance_ok|done]| |done].
      rewrite contents_cons, live_advance, drop_app_le by lia. done.
Qed.

Lemma dbuf_delete_spec p dyn n others :
  dbuf_ok dyn -> pool_ok p others dyn -> 0 <= n ->
  let (p', dyn') := dbuf_delete p dyn n in
  dbuf_ok dyn' /\ pool_ok p' others dyn' /\
  contents (db_bufs dyn') = drop (Z.to_nat n) (contents (db_bufs dyn)) /\
  (n <> 0 -> db_bufs dyn <> [] -> Z.of_nat (length (live (hd (Build_DBufBuffer [] 0) (db_bufs dyn)))) <= n ->
   (length (db_bufs dyn') < length (db_bufs dyn))%nat).
Proof.
  intros [Hb Hl] [Hp1 Hp2] Hn. unfold dbuf_delete.
  set (k := Z.to_nat (if db_length dyn <? n then db_length dyn else n)).
  assert (k <= length (contents (db_bufs dyn)))%nat as Hk.
  { unfold k. destruct (db_length dyn <? n) eqn:E; bprop; lia. }
  assert (drop k (contents (db_bufs dyn)) = drop (Z.to_nat n) (contents (db_bufs dyn))) as Hd.
  { unfold k. destruct (db_length dyn <? n) eqn:E; bprop; [|done]. rewrite !drop_ge by lia. done. }
  destruct (delete_loop_spec p (db_bufs dyn) (db_length dyn) k Hb Hl Hk)
    as (m & bufs' & E & Hok & Hc & Hlen).
  rewrite E. rewrite Hd in Hc. rewrite dbuf_free_n_spec. cbn [db_bufs].
  assert (length (contents bufs') = (length (contents (db_bufs dyn)) - k)%nat) as Hcl.
  { by rewrite Hc, <- Hd, length_drop. }
  split; [split; [done|]|split; [split; simpl; lia|split; [done|]]].
  - simpl. destruct bufs'; [done|]. lia.
  - intros Hn0 Hne Hle. destruct Hb as [|db r Hdb Hr]; [done|]. simpl in Hle.
    destruct (decide (length bufs' < length (db :: r))%nat) as [|Hge]; [done|]. exfalso.
    assert (m = 0)%nat as -> by lia. cbn [delete_loop] in E.
    pose proof (live_nonempty db Hdb). rewrite contents_cons, length_app in Hl, Hk.
    destruct k as [|k'] eqn:Ek; [unfold k in Ek; destruct (db_length dyn <? n) eqn:En; bprop; lia|].
    assert (length (live db) <= S k')%nat as Hle'.
    { rewrite <- Ek. unfold k. destruct (db_length dyn <? n) eqn:En; bprop; lia. }
    rewrite (proj2 (Nat.leb_le _ _) Hle') in E.
    destruct (delete_loop_spec (dbuf_free p) r (db_length dyn - Z.of_nat (length (live db)))
       (S k' - length (live db))) as (m & b & E' & _ & _ & Hlen'); [done|lia|lia|].
    rewrite Nat.min_l in E by lia. rewrite E' in E. injection E as _ <- _. simpl in *. lia.
Qed.

Lemma acct_free_n p others n m :
  acct p others (m + n) -> acct (dbuf_free_n m p) others n.
Proof. unfold acct. rewrite dbuf_free_n_spec. simpl. lia. Qed.

Lemma dbuf_map_spec dyn :
  dbuf_ok dyn ->
  match dbuf_map dyn with
  | None => db_bufs dyn = []
  | Some b => exists db r, db_bufs dyn = db :: r /\ b = live db /\ buffer_ok db
  end.
Proof.
  intros [Hb Hl]. unfold dbuf_map. destruct (_ =? 0) eqn:E; bprop.
  - apply contents_nil; [done|]. apply nil_length_inv. lia.
  - destruct Hb as [|db r Hdb Hr]; [done|]. by exists db, r.
Qed.

Lemma get_loop_spec fuel p dyn n out others :
  dbuf_ok dyn -> pool_ok p others dyn -> n = 0%nat \/ (length (db_bufs dyn) < fuel)%nat ->
  exists p' dyn', get_loop fuel p dyn n out = Some (p', dyn', out ++ take n (contents (db_bufs dyn))) /\
    dbuf_ok dyn' /\ pool_ok p' others dyn' /\
    contents (db_bufs dyn') = drop n (contents (db_bufs dyn)).
Proof.
  revert p dyn n out; induction fuel as [|fuel IH]; intros p dyn n out Hok Hp Hf;
    (destruct n as [|n]; [exists p, dyn; simpl; by rewrite app_nil_r|]); [lia|].
  destruct Hf as [|Hf]; [done|]. cbn [get_loop]. pose proof (dbuf_map_spec dyn Hok) as Hm.
  destruct (dbuf_map dyn) as [b|].
  2:{ exists p, dyn. rewrite Hm. simpl. by rewrite app_nil_r. }
  destruct Hm as (db & r & Hbufs & -> & Hdb). pose proof (live_nonempty db Hdb).
  set (chunk := Nat.min (length (live db)) (S n)) in *.
  pose proof (dbuf_delete_spec p dyn (Z.of_nat chunk) others Hok Hp ltac:(lia)) as Hdel.
  destruct (dbuf_delete p dyn (Z.of_nat chunk)) as [p1 dyn1].
  destruct Hdel as (Hok1 & Hp1 & Hc1 & Hl1). rewrite Hbufs in Hl1. simpl in Hl1.
  destruct (IH p1 dyn1 (S n - chunk)%nat (out ++ take chunk (live db)) Hok1 Hp1)
    as (p' & dyn' & -> & Hok' & Hp' & Hc').
  { destruct (decide (chunk = S n)) as [->|]; [left; lia|right].
    rewrite Hbufs in Hf. simpl in Hf. apply Nat.lt_le_trans with (length (db :: r)); [|simpl; lia].
    apply Hl1; [lia|done|lia]. }
  exists p', dyn'. rewrite Hc', Hc1, Hbufs, contents_cons, Nat2Z.id, drop_drop, <- app_assoc.
  replace (chunk + (S n - chunk))%nat with (S n) by lia.
  split_and!; [|done..]. do 4 f_equal.
  assert (take chunk (live db) = take chunk (live db ++ contents r)) as ->
    by (by rewrite take_app_le by lia).
  rewrite <- (take_drop chunk (take (S n) (live db ++ contents r))).
  rewrite take_take, Nat.min_l by lia. f_equal. by rewrite skipn_firstn_comm.
Qed.

Lemma eols_app a b :
  eols (a ++ b) = if (eols a <? length a)%nat then eols a else (length a + eols b)%nat.
Proof.
  induction a as [|x a IH]; simpl; [done|]. destruct (IsEol x); [|done]. rewrite IH.
  change (S (eols a) <? S (length a))%nat with (eols a <? length a)%nat.
  destruct (_ <? _)%nat; lia.
Qed.

Lemma line_app a b :
  line (a ++ b) = if (length (line a) <? length a)%nat then line a else a ++ line b.
Proof.
  induction a as [|x a IH]; simpl; [done|]. destruct (IsEol x); [done|]. simpl. rewrite IH.
  change (S (length (line a)) <? S (length a))%nat with (length (line a) <? length a)%nat.
  by destruct (_ <? _)%nat.
Qed.

Lemma line_full a : (length a <= length (line a))%nat -> line a = a.
Proof.
  induction a as [|x a IH]; simpl; [done|]. destruct (IsEol x); simpl; [lia|].
  intros. f_equal. apply IH. lia.
Qed.

Lemma flush_loop_spec p bufs dlen others :
  Forall buffer_ok bufs -> dlen = Z.of_nat (length (contents bufs)) ->
  acct p others (length bufs) ->
  let '(p', bufs', dlen') := flush_loop p bufs dlen in
  Forall buffer_ok bufs' /\ dlen' = Z.of_nat (length (contents bufs')) /\
  acct p' others (length bufs') /\ contents bufs' = skip_eols (contents bufs).
Proof.
  intros Hb. revert p dlen; induction Hb as [|db r Hdb Hr IH]; intros p dlen Hd Hp; [done|].
  pose proof (eols_le (live db)) as Hle. rewrite contents_cons, length_app in Hd.
  unfold skip_eols. rewrite contents_cons, eols_app. cbn [flush_loop].
  destruct (Nat.ltb_spec (eols (live db)) (length (live db))).
  - rewrite contents_cons, live_advance, length_app, length_drop, drop_app_le by lia.
    split_and!; [constructor; [by apply advance_ok|done]|lia|done|done].
  - rewrite drop_app_ge by lia. rewrite Nat.add_comm, Nat.add_sub.
    apply IH; [lia|]. revert Hp. unfold acct, dbuf_free. simpl. lia.
Qed.

Lemma dbuf_flush_spec p dyn others :
  dbuf_ok dyn -> pool_ok p others dyn ->
  let (p', dyn') := dbuf_flush p dyn in
  dbuf_ok dyn' /\ pool_ok p' others dyn' /\
  contents (db_bufs dyn') = skip_eols (contents (db_bufs dyn)).
Proof.
  intros [Hb Hl] Hp. unfold dbuf_flush.
  pose proof (flush_loop_spec p (db_bufs dyn) (db_length dyn) others Hb Hl Hp) as H.
  destruct (db_bufs dyn) as [|db r] eqn:E.
  - unfold dbuf_ok, pool_ok in *. rewrite E in *. split_and!; done.
  - destruct (flush_loop _ _ _) as [[p' bufs'] dlen']. destruct H as (H1 & H2 & H3 & H4). done.
Qed.

Lemma getmsg_loop_spec bufs n out :
  Forall buffer_ok bufs -> (0 < n <= length (contents bufs))%nat ->
  let l := line (take n (contents bufs)) in
  getmsg_loop bufs n out = if (length l <? n)%nat then Some (out ++ l) else None.
Proof.
  intros Hb. revert n out; induction Hb as [|db r Hdb Hr IH]; intros n out Hn; [simpl in Hn; lia|].
  rewrite contents_cons, length_app in Hn. pose proof (live_nonempty db Hdb).
  rewrite contents_cons, take_app, line_app. cbn [getmsg_loop].
  pose proof (line_length (take n (live db))) as Hll. rewrite length_take in *.
  destruct (Nat.ltb_spec (length (line (take n (live db)))) (Nat.min n (length (live db)))).
  - by rewrite (proj2 (Nat.ltb_lt _ _)) by lia.
  - rewrite line_full in * by (rewrite length_take; lia).
    rewrite length_app, length_take in *.
    destruct (n - _)%nat as [|n'] eqn:En.
    + replace (n - length (live db))%nat with 0%nat by lia. rewrite take_0. simpl.
      rewrite Nat.add_0_r. by rewrite (proj2 (Nat.ltb_ge _ _)) by lia.
    + rewrite IH by lia. replace (n - length (live db))%nat with (S n') by lia.
      rewrite (take_ge (live db)) by lia. rewrite <- app_assoc.
      replace (Nat.min n (length (live db))) with (length (live db)) by lia.
      set (l := length (line _)). destruct (Nat.ltb_spec l (S n')), (Nat.ltb_spec (length (live db) + l) n); done || lia.
Qed.

(** The head of what skip_eols leaves is no line end, so the line is not empty. *)
Lemma line_skip_eols s k :
  (0 < k)%nat -> (k <= length (skip_eols s))%nat -> line (take k (skip_eols s)) <> [].
Proof.
  unfold skip_eols. destruct k as [|k]; [lia|]. intros _.
  induction s as [|x s IH]; simpl; [lia|]. destruct (IsEol x) eqn:E; simpl; [done|].
  by rewrite E.
Qed.

Section Put.
Context (BUFFERPOOL : Z) (FERGUSON : bool) (flush_connections : pool -> pool).

(** flush_connections() releases buffers of other queues only. *)
Context (flush_acct : forall p others n, acct p others n ->
  exists others', acct (flush_connections p) others' n).

#[local] Abbreviation alloc_retry := (alloc_retry BUFFERPOOL FERGUSON flush_connections).
#[local] Abbreviation put_loop := (put_loop BUFFERPOOL FERGUSON flush_connections).
#[local] Abbreviation dbuf_put := (dbuf_put BUFFERPOOL FERGUSON flush_connections).

Lemma dbuf_alloc_spec p others n :
  acct p others n ->
  match dbuf_alloc BUFFERPOOL p with
  | Some p' => acct p' others (S n)
  | None => BUFFERPOOL <= DBufAllocCount p * Z.of_nat DBUF_SIZE
  end.
Proof.
  intros H. unfold dbuf_alloc. destruct (dbufFreeList p) eqn:E.
  - destruct (_ <? _) eqn:El; bprop; [|done]. revert H. unfold acct. rewrite E. simpl. lia.
  - revert H. unfold acct. rewrite E. simpl. lia.
Qed.

Lemma alloc_retry_spec p others n :
  acct p others n ->
  let (p', ok) := alloc_retry p in
  exists others', (FERGUSON = false -> others' = others) /\
    (if ok then acct p' others' (S n)
     else acct p' others' n /\ BUFFERPOOL <= DBufAllocCount p' * Z.of_nat DBUF_SIZE).
Proof.
  intros H. unfold DBuf.alloc_retry. pose proof (dbuf_alloc_spec p others n H) as Ha.
  destruct (dbuf_alloc _ p); [by exists others|]. destruct FERGUSON; [|by exists others].
  destruct (flush_acct p others n H) as (others' & H').
  pose proof (dbuf_alloc_spec _ _ n H') as Ha'.
  destruct (dbuf_alloc BUFFERPOOL (flush_connections p)); by exists others'.
Qed.

(** From the end of the list on the loop appends new buffers. *)
Lemma put_loop_new fuel p bufs buf others :
  Forall buffer_ok bufs -> acct p others (length bufs) -> (length buf < fuel)%nat ->
  exists p' bufs' ok others', put_loop fuel p bufs (length bufs) buf = Some (p', bufs', ok) /\
    (FERGUSON = false -> others' = others) /\ acct p' others' (length bufs') /\
    Forall buffer_ok bufs' /\
    if (ok : bool) then contents bufs' = contents bufs ++ buf
    else BUFFERPOOL <= DBufAllocCount p' * Z.of_nat DBUF_SIZE.
Proof.
  revert p bufs buf others; induction fuel as [|fuel IH]; intros p bufs buf others Hb Hp Hf; [lia|].
  destruct buf as [|x buf]; cbn [DBuf.put_loop].
  { exists p, bufs, true, others. rewrite app_nil_r. done. }
  rewrite lookup_ge_None_2 by lia.
  pose proof (alloc_retry_spec p others _ Hp) as Ha. destruct (alloc_retry p) as [p1 ok].
  destruct Ha as (others1 & Ho & Ha). destruct ok.
  2:{ destruct Ha. by exists p1, bufs, false, others1. }
  set (db := {| db_data := take DBUF_SIZE (x :: buf); db_start := 0 |}).
  assert (length (bufs ++ [db]) = S (length bufs)) as El by (rewrite length_app; simpl; lia).
  assert (buffer_ok db) as Hdb.
  { unfold buffer_ok, db. cbn [db_data db_start]. rewrite length_take. unfold DBUF_SIZE. simpl length. lia. }
  destruct (IH p1 (bufs ++ [db]) (drop DBUF_SIZE (x :: buf)) others1)
    as (p' & bufs' & ok & others' & E & Ho' & Hp' & Hb' & Hc').
  - apply Forall_app. split; [done|]. by constructor.
  - by rewrite El.
  - rewrite length_drop. unfold DBUF_SIZE. simpl length in *. lia.
  - rewrite El in E. exists p', bufs', ok, others'. split_and!; [done|intuition congruence|done..|].
    destruct ok; [|done]. rewrite Hc', contents_app, <- app_assoc. f_equal.
    unfold contents, live, db. cbn [map concat db_data db_start]. rewrite drop_0, app_nil_r.
    apply take_drop.
Qed.

Lemma put_loop_spec p dyn buf others :
  dbuf_ok dyn -> pool_ok p others dyn ->
  exists p' bufs' ok others',
    put_loop (S (S (length buf))) p (db_bufs dyn)
      (if db_length dyn =? 0 then 0%nat else (length (db_bufs dyn) - 1)%nat) buf =
      Some (p', bufs', ok) /\
    (FERGUSON = false -> others' = others) /\ acct p' others' (length bufs') /\
    Forall buffer_ok bufs' /\
    if (ok : bool) then contents bufs' = contents (db_bufs dyn) ++ buf
    else BUFFERPOOL <= DBufAllocCount p' * Z.of_nat DBUF_SIZE.
Proof.
  intros [Hb Hl] Hp. destruct (db_length dyn =? 0) eqn:E; bprop.
  { assert (db_bufs dyn = []) as En by (apply contents_nil; [done|apply nil_length_inv; lia]).
    pose proof (put_loop_new (S (S (length buf))) p (db_bufs dyn) buf others Hb Hp ltac:(lia)) as H.
    by rewrite En in *. }
  destruct (exists_last (l := db_bufs dyn)) as (init & db & Ei); [intros En; by rewrite En in Hl|].
  unfold pool_ok in Hp. rewrite Ei in *. replace (length (init ++ [db]) - 1)%nat with (length init)
    by (rewrite length_app; simpl; lia).
  destruct buf as [|x buf].
  { exists p, (init ++ [db]), true, others. rewrite app_nil_r. done. }
  cbn [DBuf.put_loop]. rewrite lookup_app_r, Nat.sub_diag by lia. cbn [lookup list_lookup].
  rewrite insert_app_r_alt, Nat.sub_diag by lia. cbn [insert list_insert].
  set (chunk := (DBUF_SIZE - length (db_data db))%nat).
  assert (length (init ++ [append db (take chunk (x :: buf))]) = S (length init)) as El
    by (rewrite length_app; simpl; lia).
  apply Forall_app in Hb as [Hb1 Hb2]. apply Forall_cons in Hb2 as [Hdb _].
  destruct (put_loop_new (S (length (x :: buf))) p (init ++ [append db (take chunk (x :: buf))])
    (drop chunk (x :: buf)) others) as (p' & bufs' & ok & others' & Er & Ho' & Hp' & Hb' & Hc').
  - apply Forall_app. split; [done|]. constructor; [|constructor]. revert Hdb.
    unfold buffer_ok, append. cbn [db_data db_start]. rewrite length_app, length_take. lia.
  - rewrite El. by rewrite length_app, Nat.add_1_r in Hp.
  - rewrite length_drop. lia.
  - rewrite El in Er. exists p', bufs', ok, others'. split_and!; [done..|].
    destruct ok; [|done]. rewrite Hc', !contents_app, <- !app_assoc. f_equal.
    unfold contents, live, append, buffer_ok in *. cbn [map concat db_data db_start].
    rewrite !app_nil_r, drop_app_le, <- app_assoc, take_drop by lia. done.
Qed.

Lemma dbuf_put_spec p dyn buf others :
  dbuf_ok dyn -> pool_ok p others dyn ->
  Z.of_nat (length (contents (db_bufs dyn)) + length buf) < 2 ^ 32 ->
  exists p' dyn' ok others', dbuf_put p dyn buf = Some (p', dyn', ok) /\
    dbuf_ok dyn' /\ pool_ok p' others' dyn' /\ (FERGUSON = false -> others' = others) /\
    if (ok : bool) then contents (db_bufs dyn') = contents (db_bufs dyn) ++ buf
    else contents (db_bufs dyn') = [] /\ BUFFERPOOL <= DBufAllocCount p' * Z.of_nat DBUF_SIZE.
Proof.
  intros Hok Hp Hlen. destruct (put_loop_spec p dyn buf others Hok Hp)
    as (p1 & bufs1 & ok & others1 & E & Ho & Hp1 & Hb1 & Hc1).
  unfold DBuf.dbuf_put. rewrite E. cbn [mbind option_bind]. destruct ok.
  - eexists _, _, true, others1. split; [done|]. split_and!; try done.
    split; [done|]. cbn [db_bufs db_length]. destruct Hok as [_ Hl].
    rewrite Hc1, length_app, Hl. unfold u32. rewrite Z.mod_small; lia.
  - eexists _, _, false, others1. split; [done|]. cbn [dbuf_malloc_error db_bufs].
    split_and!; [by repeat constructor| |done|done|by rewrite dbuf_free_n_spec].
    apply acct_free_n. by rewrite Nat.add_0_r.
Qed.

(** C33: dbuf_put() either appends the whole text to the queue or, only when the
    buffer pool is at its limit, empties the queue; in both cases the queue is
    well formed, its length field is the number of its bytes, and the pool
    counts exactly the buffers the queues hold. *)
Theorem dbuf_put_queue p dyn buf others :
  dbuf_ok dyn -> pool_ok p others dyn ->
  Z.of_nat (length (contents (db_bufs dyn)) + length buf) < 2 ^ 32 ->
  exists p' dyn' ok others', dbuf_put p dyn buf = Some (p', dyn', ok) /\
    dbuf_ok dyn' /\ pool_ok p' others' dyn' /\ (FERGUSON = false -> others' = others) /\
    if (ok : bool) then contents (db_bufs dyn') = contents (db_bufs dyn) ++ buf
    else contents (db_bufs dyn') = [] /\ BUFFERPOOL <= DBufAllocCount p' * Z.of_nat DBUF_SIZE.
Proof. apply dbuf_put_spec. Qed.
End Put.

(** A queue of two buffers holding "ab", a line end and "cd". *)
Definition sample_dbuf : DBuf :=
  {| db_length := 5; db_bufs := [{| db_data := 120 :: lit "ab" ++ [13]; db_start := 1 |};
                                 {| db_data := lit "cd"; db_start := 0 |}] |}.

Definition sample_pool : pool := {| DBufAllocCount := 5; DBufUsedCount := 4; dbufFreeList := 1 |}.

Lemma sample_dbuf_ok : dbuf_ok sample_dbuf /\ pool_ok sample_pool 2 sample_dbuf.
Proof. split; [split; [|done]; repeat constructor; simpl; lia|done]. Qed.

Lemma dbuf_put_queue_witness :
  exists p' dyn' ok others', dbuf_put 0 true dbuf_free sample_pool sample_dbuf (lit "ef") =
      Some (p', dyn', ok) /\ dbuf_ok dyn' /\ pool_ok p' others' dyn' /\
    (if ok : bool then contents (db_bufs dyn') = lit "ab" ++ [13] ++ lit "cdef" else False).
Proof.
  destruct (dbuf_put_queue 0 true dbuf_free) with (p := sample_pool) (dyn := sample_dbuf)
    (buf := lit "ef") (others := 2) as (p' & dyn' & ok & others' & E & H1 & H2 & _ & H3).
  - intros p others n H. exists (others - 1). revert H. unfold acct, dbuf_free. simpl. lia.
  - apply sample_dbuf_ok.
  - apply sample_dbuf_ok.
  - vm_compute. done.
  - exists p', dyn', ok, others'. split_and!; [done..|].
    vm_compute in E. injection E as <- <- <-. by vm_compute.
Defined.

Lemma dbuf_getmsg_spec p dyn n others :
  dbuf_ok dyn -> pool_ok p others dyn ->
  let q := skip_eols (contents (db_bufs dyn)) in
  let k := Nat.min n (length q) in
  let l := line (take k q) in
  let '(p', dyn', out) := dbuf_getmsg p dyn n in
  dbuf_ok dyn' /\ pool_ok p' others dyn' /\
  if (length l <? k)%nat
  then out = l /\ l <> [] /\ contents (db_bufs dyn') = skip_eols (drop (length l) q)
  else out = [] /\ contents (db_bufs dyn') = q.
Proof.
  intros Hok Hp q k l. unfold dbuf_getmsg.
  pose proof (dbuf_flush_spec p dyn others Hok Hp) as Hf.
  destruct (dbuf_flush p dyn) as [p1 dyn1]. destruct Hf as (Hok1 & Hp1 & Hc1).
  fold q in Hc1. pose proof Hok1 as [Hb1 Hl1]. rewrite Hc1 in Hl1.
  assert (Nat.min n (Z.to_nat (db_length dyn1)) = k) as -> by (unfold k; lia).
  destruct (db_length dyn1 =? 0) eqn:E0; bprop.
  { assert (k = 0)%nat as -> by (unfold k; lia). done. }
  assert (k <= length q)%nat as Hkq by (unfold k; lia).
  destruct k as [|k'] eqn:Ek; [done|]. rewrite (getmsg_loop_spec _ _ _ Hb1) by (rewrite Hc1; lia).
  rewrite Hc1. fold l. destruct (Nat.ltb_spec (length l) (S k')) as [Hlt|]; [|done].
  pose proof (dbuf_delete_spec p1 dyn1 (Z.of_nat (length l)) others Hok1 Hp1 ltac:(lia)) as Hd.
  cbn [app]. destruct (dbuf_delete _ _ _) as [p2 dyn2]. destruct Hd as (Hok2 & Hp2 & Hc2 & _).
  pose proof (dbuf_flush_spec p2 dyn2 others Hok2 Hp2) as Hf2.
  destruct (dbuf_flush p2 dyn2) as [p3 dyn3]. destruct Hf2 as (Hok3 & Hp3 & Hc3).
  split_and!; [done..| |by rewrite Hc3, Hc2, Hc1, Nat2Z.id].
  apply line_skip_eols; [lia|exact Hkq].
Qed.

(** Dbuf_get() terminates and returns the first bytes of the queue, at most
    as many as asked for, and removes exactly these; dbuf_delete() removes the
    same bytes; the buffers emptied go back to the pool. *)
Theorem dbuf_get_queue p dyn n others :
  dbuf_ok dyn -> pool_ok p others dyn ->
  (exists p' dyn', dbuf_get p dyn n = Some (p', dyn', take n (contents (db_bufs dyn))) /\
     dbuf_ok dyn' /\ pool_ok p' others dyn' /\
     contents (db_bufs dyn') = drop n (contents (db_bufs dyn))) /\
  (let (p', dyn') := dbuf_delete p dyn (Z.of_nat n) in
   dbuf_ok dyn' /\ pool_ok p' others dyn' /\
   contents (db_bufs dyn') = drop n (contents (db_bufs dyn))).
Proof.
  intros Hok Hp. split; [apply (get_loop_spec _ p dyn n [] others); auto|].
  pose proof (dbuf_delete_spec p dyn (Z.of_nat n) others Hok Hp ltac:(lia)) as H.
  destruct (dbuf_delete p dyn (Z.of_nat n)). rewrite Nat2Z.id in H. tauto.
Qed.

Lemma dbuf_get_queue_witness :
  exists p' dyn', dbuf_get sample_pool sample_dbuf 4 = Some (p', dyn', lit "ab" ++ [13] ++ lit "c") /\
    contents (db_bufs dyn') = lit "d".
Proof.
  destruct (proj1 (dbuf_get_queue sample_pool sample_dbuf 4 2 (proj1 sample_dbuf_ok)
    (proj2 sample_dbuf_ok))) as (p' & dyn' & E & _ & _ & Hc). by exists p', dyn'.
Defined.

(** Dbuf_getmsg() drops the line ends at the front of the queue; when a line
    end follows within the first [n] bytes it returns the line before it, never
    empty, and leaves what follows the line's line ends; otherwise it returns
    nothing and leaves the rest of the queue. *)
Theorem dbuf_getmsg_queue p dyn n others :
  dbuf_ok dyn -> pool_ok p others dyn ->
  let q := skip_eols (contents (db_bufs dyn)) in
  let k := Nat.min n (length q) in
  let l := line (take k q) in
  let '(p', dyn', out) := dbuf_getmsg p dyn n in
  dbuf_ok dyn' /\ pool_ok p' others dyn' /\
  if (length l <? k)%nat
  then out = l /\ l <> [] /\ contents (db_bufs dyn') = skip_eols (drop (length l) q)
  else out = [] /\ contents (db_bufs dyn') = q.
Proof. apply dbuf_getmsg_spec. Qed.

Lemma dbuf_getmsg_queue_witness :
  exists p' dyn', dbuf_getmsg sample_pool sample_dbuf 512 = (p', dyn', lit "ab") /\
    dbuf_ok dyn' /\ pool_ok p' 2 dyn'.
Proof.
  pose proof (dbuf_getmsg_queue sample_pool sample_dbuf 512 2 (proj1 sample_dbuf_ok)
    (proj2 sample_dbuf_ok)) as H. cbv zeta in H.
  destruct (dbuf_getmsg sample_pool sample_dbuf 512) as [[p' dyn'] out] eqn:E.
  exists p', dyn'. vm_compute in E. injection E as <- <- <-. destruct H as (H1 & H2 & _). done.
Defined.

(** ** The interface of the input queues *)

(** A queue with the pool; [flush_connections] writes to other connections, so
    the pool stays consistent with this queue. *)
Section Queue.
Variable BUFFERPOOL : Z.
Variable FERGUSON : bool.
Variable flush_connections : pool -> pool.
Hypothesis flush_ok : forall p others n, acct p others n ->
  exists others', acct (flush_connections p) others' n.

#[export] Instance dbuf_queue : ByteQueue (pool * DBuf) := {|
  bq_length q := db_length q.2;
  bq_put q s := '(p, dyn, ok) ← dbuf_put BUFFERPOOL FERGUSON flush_connections q.1 q.2 s; Some (p, dyn, ok);
  bq_getmsg q n := dbuf_getmsg q.1 q.2 n;
  bq_get q n := dbuf_get q.1 q.2 n;
  bq_clear q := dbuf_delete q.1 q.2 (db_length q.2);
  bq_ok q := dbuf_ok q.2 /\ exists others, pool_ok q.1 others q.2;
  bq_bytes q := contents (db_bufs q.2) |}.

#[export] Instance dbuf_queue_laws : ByteQueueLaws (pool * DBuf).
Proof.
  constructor; cbn [bq_length bq_put bq_getmsg bq_get bq_clear bq_ok bq_bytes dbuf_queue].
  - intros q [[_ Hl] _]. exact Hl.
  - intros [p dyn] s [Hok [others Hp]] Hlen. cbn [fst snd] in *.
    destruct (dbuf_put_spec BUFFERPOOL FERGUSON flush_connections flush_ok p dyn s others Hok Hp Hlen)
      as (p' & dyn' & ok & others' & -> & Hok' & Hp' & _ & H).
    eexists _, _; split; [done|]. cbn [fst snd]. split; [by split; [|exists others']|].
    by destruct ok; [|destruct H].
  - intros [p dyn] n [Hok [others Hp]]. cbn [fst snd] in *.
    pose proof (dbuf_getmsg_spec p dyn n others Hok Hp) as H. cbv zeta in H.
    destruct (dbuf_getmsg p dyn n) as [[p' dyn'] out]. destruct H as (Hok' & Hp' & H). cbn [fst snd].
    split; [by split; [|exists others]|exact H].
  - intros [p dyn] n [Hok [others Hp]]. cbn [fst snd] in *.
    destruct (get_loop_spec (S (length (db_bufs dyn))) p dyn n [] others) as (p' & dyn' & E & Hok' & Hp' & Hc); auto.
    exists (p', dyn'). cbn [fst snd]. split; [exact E|]. split; [by split; [|exists others]|done].
  - intros [p dyn] [Hok [others Hp]]. cbn [fst snd] in *.
    pose proof (dbuf_delete_spec p dyn (db_length dyn) others Hok Hp) as H.
    destruct Hok as [Hb Hl]. rewrite Hl in *. specialize (H ltac:(lia)).
    destruct (dbuf_delete p dyn _) as [p' dyn']. destruct H as (Hok' & Hp' & Hc & _). cbn [fst snd].
    split; [by split; [|exists others]|]. rewrite Hc, Nat2Z.id. apply drop_ge. lia.
Qed.
End Queue.
