(* ===== verification/MsgQ.v ===== *)
(** * ircd/msgq.c: message buffers and the two-priority send queue

    Message buffers live in a heap [bufs] and are shared: a queue holds
    references.  [mb_msg] is the first [length] bytes of a buffer; the doubly
    linked list of active buffers is the list [msglist] of their identifiers
    ([prev_p] is not null exactly for its members); free lists hold
    identifiers.  A buffer on a free list is not in [bufs] until it is handed
    out again.  A null or dangling pointer that is followed, such as one to a
    buffer already freed, and an assertion that fails give [None]. *)
From S2P Require Import Prelude.

Definition MB_BASE_SHIFT : Z := 5.
Definition MB_MAX_SHIFT : Z := 9.
Definition BUFSIZE : Z := 512.

Definition mbid := positive.

Record MsgBuf := { mb_real : option mbid; mb_ref : Z; mb_power : Z; mb_msg : list Z }.

Record Msg := { sent : nat; msg : mbid }.

Record MsgQ := { mq_length : Z; mq_count : Z; mq_queue : list Msg; mq_prio : list Msg }.

Record SizeClass := { sc_alloc : Z; sc_used : Z; sc_free : list mbid }.

Record MQData := {
  msglist : list mbid;
  msgs_alloc : Z; msgs_used : Z; msgs_free : nat;
  tot_bufsize : Z;
  msgBufs : list SizeClass;
  bufs : gmap mbid MsgBuf;
  next_id : mbid
}.

Definition mb_length (b : MsgBuf) : Z := Z.of_nat (length (mb_msg b)).
Definition bufsize (b : MsgBuf) : Z := Z.shiftl 1 (mb_power b).

Definition set_buf (d : MQData) (i : mbid) (b : MsgBuf) : MQData :=
  {| msglist := msglist d; msgs_alloc := msgs_alloc d; msgs_used := msgs_used d;
     msgs_free := msgs_free d; tot_bufsize := tot_bufsize d; msgBufs := msgBufs d;
     bufs := <[i := b]> (bufs d); next_id := next_id d |}.

Definition set_list (d : MQData) (l : list mbid) : MQData :=
  {| msglist := l; msgs_alloc := msgs_alloc d; msgs_used := msgs_used d;
     msgs_free := msgs_free d; tot_bufsize := tot_bufsize d; msgBufs := msgBufs d;
     bufs := bufs d; next_id := next_id d |}.

Definition set_class (d : MQData) (power : Z) (c : SizeClass) : MQData :=
  {| msglist := msglist d; msgs_alloc := msgs_alloc d; msgs_used := msgs_used d;
     msgs_free := msgs_free d; tot_bufsize := tot_bufsize d;
     msgBufs := <[Z.to_nat (power - MB_BASE_SHIFT) := c]> (msgBufs d);
     bufs := bufs d; next_id := next_id d |}.

Definition get_class (d : MQData) (power : Z) : option SizeClass :=
  if power <? MB_BASE_SHIFT then None else msgBufs d !! Z.to_nat (power - MB_BASE_SHIFT).

Definition set_msgs (d : MQData) (alloc used : Z) (free : nat) : MQData :=
  {| msglist := msglist d; msgs_alloc := alloc; msgs_used := used; msgs_free := free;
     tot_bufsize := tot_bufsize d; msgBufs := msgBufs d; bufs := bufs d; next_id := next_id d |}.

Definition with_ref (b : MsgBuf) (r : Z) : MsgBuf :=
  {| mb_real := mb_real b; mb_ref := r; mb_power := mb_power b; mb_msg := mb_msg b |}.

Definition with_real (b : MsgBuf) (r : option mbid) : MsgBuf :=
  {| mb_real := r; mb_ref := mb_ref b; mb_power := mb_power b; mb_msg := mb_msg b |}.

Definition with_msg (b : MsgBuf) (m : list Z) : MsgBuf :=
  {| mb_real := mb_real b; mb_ref := mb_ref b; mb_power := mb_power b; mb_msg := m |}.

(** ** Releasing *)

Definition del_buf (d : MQData) (i : mbid) : MQData :=
  {| msglist := msglist d; msgs_alloc := msgs_alloc d; msgs_used := msgs_used d;
     msgs_free := msgs_free d; tot_bufsize := tot_bufsize d; msgBufs := msgBufs d;
     bufs := delete i (bufs d); next_id := next_id d |}.

(** Puts a buffer on the free list of its size. *)
Definition free_buf (d : MQData) (i : mbid) (power : Z) : option MQData :=
  c ← get_class d power;
  Some (del_buf (set_class d power {| sc_alloc := sc_alloc c; sc_used := sc_used c - 1;
                                      sc_free := i :: sc_free c |}) i).

(** msgq_clean(), with its [assert(0 < mb->ref)]; a real buffer has no other
    real buffer, so the recursion is two deep. *)
Fixpoint msgq_clean (fuel : nat) (d : MQData) (i : mbid) : option MQData :=
  match fuel with
  | O => None
  | S fuel =>
      b ← bufs d !! i;
      if mb_ref b <=? 0 then None
      else
      let d := set_buf d i (with_ref b (mb_ref b - 1)) in
      if mb_ref b - 1 =? 0 then
        let d := set_list d (filter (fun j => j <> i) (msglist d)) in
        d ← (match mb_real b with
             | Some r => if decide (r = i) then Some d else msgq_clean fuel d r
             | None => Some d
             end);
        free_buf d i (mb_power b)
      else Some d
  end.

(** ** Deleting *)
Definition qlist (mq : MsgQ) (prio : bool) : list Msg :=
  if prio then mq_prio mq else mq_queue mq.

Definition set_qlist (mq : MsgQ) (prio : bool) (l : list Msg) (len count : Z) : MsgQ :=
  {| mq_length := len; mq_count := count;
     mq_queue := if prio then mq_queue mq else l;
     mq_prio := if prio then l else mq_prio mq |}.

Definition msgq_init : MsgQ := {| mq_length := 0; mq_count := 0; mq_queue := []; mq_prio := [] |}.

(** msgq_delmsg(): the queue and what is left of [*length_p]. *)
Definition msgq_delmsg (d : MQData) (mq : MsgQ) (prio : bool) (n : nat)
  : option (MQData * MsgQ * nat) :=
  match qlist mq prio with
  | [] => None
  | m :: r =>
      b ← bufs d !! msg m;
      let msglen := (length (mb_msg b) - sent m)%nat in
      if (msglen <=? n)%nat then
        d ← msgq_clean 2 d (msg m);
        Some (set_msgs d (msgs_alloc d) (msgs_used d - 1) (S (msgs_free d)),
              set_qlist mq prio r (mq_length mq - Z.of_nat msglen) (mq_count mq - 1),
              (n - msglen)%nat)
      else
        Some (d, set_qlist mq prio ({| sent := sent m + n; msg := msg m |} :: r)
                   (mq_length mq - Z.of_nat n) (mq_count mq), 0%nat)
  end.

Definition partial (l : list Msg) : bool :=
  match l with
  | m :: _ => (0 <? sent m)%nat
  | [] => false
  end.

(** The list msgq_delete() takes from next. *)
Definition next_list (mq : MsgQ) : option bool :=
  if partial (mq_queue mq) then Some false
  else match mq_prio mq with
       | _ :: _ => Some true
       | [] => match mq_queue mq with
               | _ :: _ => Some false
               | [] => None
               end
       end.

Fixpoint delete_loop (fuel : nat) (d : MQData) (mq : MsgQ) (n : nat) : option (MQData * MsgQ) :=
  match n with
  | O => Some (d, mq)
  | _ =>
      match next_list mq with
      | None => Some (d, mq)
      | Some prio =>
          match fuel with
          | O => None
          | S fuel => '(d, mq, n) ← msgq_delmsg d mq prio n; delete_loop fuel d mq n
          end
      end
  end.

Definition msgq_delete (d : MQData) (mq : MsgQ) (n : nat) : option (MQData * MsgQ) :=
  delete_loop (S (length (mq_queue mq) + length (mq_prio mq))) d mq n.

(** ** Mapping to an I/O vector *)
Definition unsent (d : MQData) (m : Msg) : option (list Z) :=
  b ← bufs d !! msg m; Some (drop (sent m) (mb_msg b)).

(** The loops over the rest of a list store whole messages. *)
Definition whole (d : MQData) (m : Msg) : option (list Z) :=
  b ← bufs d !! msg m; Some (mb_msg b).

Fixpoint map_all (f : Msg -> option (list Z)) (l : list Msg) : option (list (list Z)) :=
  match l with
  | [] => Some []
  | m :: r => x ← f m; xs ← map_all f r; Some (x :: xs)
  end.

(** A partly sent message at the head of a list, and the rest. *)
Definition split_partial (l : list Msg) : list Msg * list Msg :=
  if partial l then (take 1 l, drop 1 l) else ([], l).

(** msgq_mapiov() into [count] elements: the stretches stored; their number is
    the value returned and their total length what is added to [*len]. *)
Definition msgq_mapiov (d : MQData) (mq : MsgQ) (count : nat) : option (list (list Z)) :=
  if mq_length mq <=? 0 then Some []
  else
    let (qp, queue) := split_partial (mq_queue mq) in
    let (pp, prio) := split_partial (mq_prio mq) in
    heads ← map_all (unsent d) (take count (qp ++ pp));
    rest ← map_all (whole d) (take (count - length (qp ++ pp)) (prio ++ queue));
    Some (heads ++ rest).

(** ** Making messages *)

(** The power of two that holds [length] bytes: the loop of msgq_alloc(). *)
Fixpoint find_power (fuel : nat) (power len : Z) : Z :=
  match fuel with
  | O => power
  | S fuel => if Z.shiftr (len - 1) power =? 0 then power else find_power fuel (power + 1) len
  end.

Definition msg_power (len : Z) : Z := find_power 5 MB_BASE_SHIFT len.

Definition add_buf (d : MQData) (power : Z) (c : SizeClass) : MQData :=
  let d := set_class d power {| sc_alloc := sc_alloc c + 1; sc_used := sc_used c; sc_free := [] |} in
  {| msglist := msglist d; msgs_alloc := msgs_alloc d; msgs_used := msgs_used d;
     msgs_free := msgs_free d; tot_bufsize := tot_bufsize d + Z.shiftl 1 power;
     msgBufs := msgBufs d; bufs := bufs d; next_id := Pos.succ (next_id d) |}.

(** Takes a buffer from the free list or, below the limit, a new one. *)
Definition take_buf (BUFFERPOOL : Z) (d : MQData) (power : Z) : option (MQData * option mbid) :=
  c ← get_class d power;
  match sc_free c with
  | i :: r => Some (set_class d power {| sc_alloc := sc_alloc c; sc_used := sc_used c;
                                         sc_free := r |}, Some i)
  | [] =>
      if tot_bufsize d <? BUFFERPOOL then Some (add_buf d power c, Some (next_id d))
      else Some (d, None)
  end.

Definition use_buf (d : MQData) (i : mbid) (power : Z) : option MQData :=
  c ← get_class d power;
  Some (set_buf (set_class d power {| sc_alloc := sc_alloc c; sc_used := sc_used c + 1;
                                      sc_free := sc_free c |})
          i {| mb_real := None; mb_ref := 1; mb_power := power; mb_msg := [] |}).

(** msgq_alloc(): [None] inside is the null pointer. *)
Definition msgq_alloc (BUFFERPOOL : Z) (d : MQData) (in_mb : option mbid) (len : Z)
  : option (MQData * option mbid) :=
  let power := msg_power len in
  let fresh :=
    '(d1, mb) ← take_buf BUFFERPOOL d power;
    match mb with
    | Some i => d2 ← use_buf d1 i power; Some (d2, Some i)
    | None => Some (d1, None)
    end in
  match in_mb with
  | None => fresh
  | Some m =>
      b ← bufs d !! m;
      if mb_power b =? power then Some (set_buf d m (with_real b (Some m)), Some m)
      else
        '(d1, mb) ← fresh;
        match mb with
        | Some i => b' ← bufs d1 !! m; Some (set_buf d1 m (with_real b' (Some i)), Some i)
        | None => Some (set_buf d1 m (with_real b (Some m)), Some m)
        end
  end.

(** msgq_clear_freembs() *)
Definition clear_class (acc : MQData * Z) (c : SizeClass) : MQData * Z :=
  let (d, power) := acc in
  let n := Z.of_nat (length (sc_free c)) in
  let d := set_class d power {| sc_alloc := sc_alloc c - n; sc_used := sc_used c; sc_free := [] |} in
  ({| msglist := msglist d; msgs_alloc := msgs_alloc d; msgs_used := msgs_used d;
      msgs_free := msgs_free d; tot_bufsize := tot_bufsize d - n * Z.shiftl 1 power;
      msgBufs := msgBufs d; bufs := foldr delete (bufs d) (sc_free c); next_id := next_id d |},
   power + 1).

Definition msgq_clear_freembs (d : MQData) : MQData :=
  (foldl clear_class (d, MB_BASE_SHIFT) (msgBufs d)).1.

Definition crlf : list Z := [13; 10].

(** What a formatted text leaves in a buffer of [size] bytes. *)
Definition clamp (size : Z) (text : list Z) : list Z := take (Z.to_nat (size - 2)) text ++ crlf.

Section Make.
(** The configuration and the calls that give memory back: flush_connections()
    and kill_highest_sendq(servers too). *)
Variable BUFFERPOOL : Z.
Variable FERGUSON : bool.
Variable flush_connections : MQData -> MQData.
Variable kill_highest_sendq : bool -> MQData -> MQData.

(** The attempts of msgq_vmake() to get a buffer; [None] inside the result is
    the call of server_panic(). *)
Definition vmake_alloc (d : MQData) : option (MQData * option mbid) :=
  let attempt d := msgq_alloc BUFFERPOOL d None BUFSIZE in
  let retry (prep : MQData -> MQData) (r : MQData * option mbid) :=
    match r with
    | (d, Some i) => Some (d, Some i)
    | (d, None) => attempt (prep d)
    end in
  r ← attempt d;
  r ← (if FERGUSON then retry flush_connections r else Some r);
  r ← retry msgq_clear_freembs r;
  r ← retry (fun d => msgq_clear_freembs (kill_highest_sendq false d)) r;
  retry (fun d => msgq_clear_freembs (kill_highest_sendq true d)) r.

(** msgq_vmake(): [text] is what ircd_vsnprintf() formats before it truncates. *)
Definition msgq_vmake (d : MQData) (text : list Z) : option (MQData * option mbid) :=
  '(d, mb) ← vmake_alloc d;
  match mb with
  | None => Some (d, None)
  | Some i =>
      b ← bufs d !! i;
      Some (set_list (set_buf d i (with_msg b (clamp (bufsize b) text))) (i :: msglist d), Some i)
  end.

(** msgq_append(): the text is formatted over the old line end. *)
Definition msgq_append (d : MQData) (i : mbid) (text : list Z) : option MQData :=
  b ← bufs d !! i;
  if negb (bool_decide (mb_real b = None) && (2 <? mb_length b) && (mb_length b <=? bufsize b))
  then None
  else
    let old := take (length (mb_msg b) - 2) (mb_msg b) in
    Some (set_buf d i (with_msg b (clamp (bufsize b) (old ++ text)))).

Definition msgq_bufleft (b : MsgBuf) : Z := bufsize b - mb_length b.

(** ** Adding to a queue *)

Definition take_msg (d : MQData) : MQData :=
  match msgs_free d with
  | O => set_msgs d (msgs_alloc d + 1) (msgs_used d + 1) 0
  | S n => set_msgs d (msgs_alloc d) (msgs_used d + 1) n
  end.

(** The real buffer of a message: made, filled and put in the place of the
    message in the list when there is none yet. *)
Definition real_buf (d : MQData) (mb : mbid) : option (MQData * mbid) :=
  b ← bufs d !! mb;
  match mb_real b with
  | Some r => Some (d, r)
  | None =>
      '(d1, tmp) ← msgq_alloc BUFFERPOOL d (Some mb) (mb_length b);
      tmp ← tmp;
      if decide (tmp = mb) then Some (d1, mb)
      else
        t ← bufs d1 !! tmp;
        if decide (mb ∈ msglist d1) then
          Some (set_list (set_buf d1 tmp (with_msg t (mb_msg b)))
                  (map (fun j => if decide (j = mb) then tmp else j) (msglist d1)), tmp)
        else None
  end.

Definition msgq_add (d : MQData) (mq : MsgQ) (mb : mbid) (prio : bool) : option (MQData * MsgQ) :=
  b0 ← bufs d !! mb;
  if negb ((0 <? mb_ref b0) && (0 <? mb_length b0)) then None
  else
  '(d, r) ← real_buf (take_msg d) mb;
  b ← bufs d !! r;
  Some (set_buf d r (with_ref b (mb_ref b + 1)),
        set_qlist mq prio (qlist mq prio ++ [{| sent := 0; msg := r |}])
          (u32 (mq_length mq + mb_length b)) (mq_count mq + 1)).
End Make.

(** ** Specification: the bytes a queue has left to send *)

Definition text (d : MQData) (m : Msg) : list Z :=
  match bufs d !! msg m with
  | Some b => drop (sent m) (mb_msg b)
  | None => []
  end.

(** The messages in the order they are sent. *)
Definition order (mq : MsgQ) : list Msg :=
  let (qp, queue) := split_partial (mq_queue mq) in qp ++ mq_prio mq ++ queue.

Definition pending (d : MQData) (mq : MsgQ) : list Z := concat (map (text d) (order mq)).

(** The buffers that have [i] as their real buffer, [i] itself apart. *)
Definition reals (m : gmap mbid MsgBuf) (i : mbid) : gmap mbid MsgBuf :=
  filter (fun '(j, b) => j <> i /\ mb_real b = Some i) m.

Definition held_by (l : list mbid) (i : mbid) : Z :=
  Z.of_nat (length (filter (fun j => j = i) l)).

(** The buffers in use: [held] lists the references that messages of queues and
    callers of msgq_make() hold.  Each refers to a buffer in use; a buffer counts
    exactly the references to it, those of [held] and those of buffers whose real
    buffer it is, and there is one; every real buffer exists and is its own real
    buffer or has none; sizes are in range. *)
Definition refs_ok (m : gmap mbid MsgBuf) (held : list mbid) : Prop :=
  Forall (fun i => is_Some (m !! i)) held /\
  forall i b, m !! i = Some b ->
    5 <= mb_power b <= 9 /\ 0 < mb_ref b /\
    mb_ref b = held_by held i + Z.of_nat (size (reals m i)) /\
    match mb_real b with
    | None => True
    | Some r => r = i \/ exists b', m !! r = Some b' /\ (mb_real b' = None \/ mb_real b' = Some r)
    end.

Definition heap_ok (d : MQData) (held : list mbid) : Prop :=
  length (msgBufs d) = 5%nat /\ refs_ok (bufs d) held.

Definition in_pool (d : MQData) (power : Z) (i : mbid) : Prop :=
  exists c, get_class d power = Some c /\ i ∈ sc_free c.

(** From [d] to [d'] buffers only lose references: what is still in use has its
    text, size and real buffer, and what is not is on the free list of its size. *)
Definition released (d d' : MQData) : Prop :=
  (forall i, match bufs d !! i, bufs d' !! i with
             | Some b, Some b' => mb_real b' = mb_real b /\ mb_power b' = mb_power b /\ mb_msg b' = mb_msg b
             | Some b, None => in_pool d' (mb_power b) i
             | None, None => True
             | None, Some _ => False
             end) /\
  (forall p i, in_pool d p i -> in_pool d' p i).

(** A message of a queue: its buffer exists and holds more than was sent. *)
Definition msg_ok (d : MQData) (m : Msg) : Prop :=
  exists b, bufs d !! msg m = Some b /\ (sent m < length (mb_msg b))%nat.

(** Only the first message in sending order may be partly sent. *)
Definition mq_ok (d : MQData) (mq : MsgQ) : Prop :=
  Forall (msg_ok d) (order mq) /\
  Forall (fun m => sent m = 0%nat) (drop 1 (order mq)) /\
  mq_length mq = Z.of_nat (length (pending d mq)) /\
  mq_count mq = Z.of_nat (length (order mq)).

(** ** Lemmas: order *)
Lemma partial_false l : Forall (fun m => sent m = 0%nat) l -> partial l = false.
Proof. intros H. destruct H as [|m l Hm _]; simpl; [done|]. by rewrite Hm. Qed.

Lemma split_partial_app l : (split_partial l).1 ++ (split_partial l).2 = l.
Proof. unfold split_partial. destruct (partial l); [|done]. apply (take_drop 1). Qed.

(** The list msgq_delete() takes from starts with the first message in order. *)
Lemma order_next mq len count :
  Forall (fun m => sent m = 0%nat) (drop 1 (order mq)) ->
  match next_list mq with
  | None => order mq = []
  | Some prio =>
      exists m r, qlist mq prio = m :: r /\
        order mq = m :: order (set_qlist mq prio r len count) /\
        forall m' len count, (0 < sent m')%nat ->
          order (set_qlist mq prio (m' :: r) len count) = m' :: order (set_qlist mq prio r len count)
  end.
Proof.
  unfold next_list, order, split_partial. intros Hz.
  destruct (partial (mq_queue mq)) eqn:Ep.
  - destruct (mq_queue mq) as [|m r] eqn:Eq; [done|]. simpl in Hz.
    apply Forall_app in Hz as [Hz1 Hz2]. exists m, r. simpl. rewrite Eq.
    rewrite (partial_false r) by done. split_and!; [done..|]. intros m' _ _ Hm.
    destruct (Nat.ltb_spec 0 (sent m')); [done|lia].
  - destruct (mq_prio mq) as [|m r] eqn:Eq.
    + destruct (mq_queue mq) as [|m r] eqn:Eq'; [done|]. simpl in Hz. exists m, r. simpl.
      rewrite Eq, Eq'. rewrite (partial_false r) by done. split_and!; [done..|].
      intros m' _ _ Hm. destruct (Nat.ltb_spec 0 (sent m')); [done|lia].
    + exists m, r. simpl. rewrite Eq, Ep. split_and!; done.
Qed.

(** ** Lemmas: the heap *)
Lemma reals_lookup m i j b :
  reals m i !! j = Some b <-> m !! j = Some b /\ j <> i /\ mb_real b = Some i.
Proof. unfold reals. by rewrite map_lookup_filter_Some. Qed.

Lemma reals_insert m j b c i :
  m !! j = Some b -> mb_real c = mb_real b -> size (reals (<[j := c]> m) i) = size (reals m i).
Proof.
  intros Hb Hc. rewrite <- !size_dom. f_equal. apply set_eq. intros x.
  rewrite !elem_of_dom. unfold is_Some. setoid_rewrite reals_lookup.
  destruct (decide (j = x)) as [<-|n]; [|by rewrite lookup_insert_ne].
  rewrite lookup_insert_eq, Hb. split; intros (y & [= <-] & Hy); eexists; (split; [done|]);
    by rewrite ?Hc in *; rewrite ?Hc.
Qed.

Lemma reals_delete_other m j b i :
  m !! j = Some b -> (j <> i -> mb_real b <> Some i) -> reals (delete j m) i = reals m i.
Proof.
  intros Hb Hn. unfold reals. rewrite map_filter_delete. apply delete_id.
  apply eq_None_not_Some. intros (y & Hy). apply reals_lookup in Hy as (Hy & H1 & H2).
  rewrite Hb in Hy. injection Hy as <-. by apply Hn.
Qed.

Lemma reals_delete_one m j b i :
  m !! j = Some b -> j <> i -> mb_real b = Some i ->
  size (reals m i) = S (size (reals (delete j m) i)).
Proof.
  intros Hb Hj Hr. unfold reals. rewrite map_filter_delete.
  assert (is_Some (reals m i !! j)) as Hs by (exists b; by apply reals_lookup).
  rewrite map_size_delete_Some by exact Hs. fold (reals m i).
  assert (size (reals m i) <> 0%nat); [|lia]. intros E. apply map_size_empty_inv in E.
  rewrite E in Hs. by destruct Hs.
Qed.

Lemma held_by_cons j l i : held_by (j :: l) i = (if decide (j = i) then 1 else 0) + held_by l i.
Proof. unfold held_by. rewrite filter_cons. case_decide; simpl length; lia. Qed.

Lemma held_by_nonneg l i : 0 <= held_by l i.
Proof. unfold held_by. lia. Qed.

Lemma held_by_zero l i : held_by l i = 0 -> i ∉ l.
Proof.
  unfold held_by. intros H Hin. assert (i ∈ filter (fun j => j = i) l) as Hf
    by (by apply list_elem_of_filter).
  destruct (filter _ l); [by apply elem_of_nil in Hf|simpl in H; lia].
Qed.

(** One reference less. *)
Definition unref (m : gmap mbid MsgBuf) (i : mbid) (b : MsgBuf) : gmap mbid MsgBuf :=
  if mb_ref b - 1 =? 0 then delete i m else <[i := with_ref b (mb_ref b - 1)]> m.

(** A buffer with no other real buffer. *)
Definition leaf (b : MsgBuf) (i : mbid) : Prop := mb_real b = None \/ mb_real b = Some i.

Lemma refs_ok_freed m i held b :
  refs_ok m (i :: held) -> m !! i = Some b -> mb_ref b = 1 ->
  i ∉ held /\ reals m i = ∅.
Proof.
  intros [_ H] Hb Hr. destruct (H i b Hb) as (_ & _ & Hc & _). rewrite held_by_cons, decide_True in Hc by done.
  pose proof (held_by_nonneg held i). split; [apply held_by_zero; lia|].
  apply map_size_empty_inv. lia.
Qed.

(** Nothing refers to a buffer freed. *)
Lemma refs_ok_unreal m i held b j c :
  refs_ok m (i :: held) -> m !! i = Some b -> mb_ref b = 1 ->
  m !! j = Some c -> j <> i -> mb_real c <> Some i.
Proof.
  intros H Hb Hr Hc Hj Hrc. destruct (refs_ok_freed _ _ _ _ H Hb Hr) as [_ E].
  assert (reals m i !! j = Some c) as Hs by (by apply reals_lookup). by rewrite E in Hs.
Qed.

Lemma Forall_delete_held (m : gmap mbid MsgBuf) i held :
  Forall (fun j => is_Some (m !! j)) held -> i ∉ held ->
  Forall (fun j => is_Some (delete i m !! j)) held.
Proof.
  intros H Hi. apply Forall_forall. intros j Hj. rewrite lookup_delete_ne by (by intros <-).
  by eapply Forall_forall in H.
Qed.

Lemma unref_ok m i held b :
  refs_ok m (i :: held) -> m !! i = Some b -> (mb_ref b = 1 -> leaf b i) ->
  refs_ok (unref m i b) held.
Proof.
  intros Hok Hb Hl. pose proof Hok as [[_ Hh]%Forall_cons H]. unfold unref.
  destruct (H i b Hb) as (Hp & Hpos & Hc & Hr). rewrite held_by_cons, decide_True in Hc by done.
  destruct (Z.eqb_spec (mb_ref b - 1) 0) as [E|E].
  - assert (mb_ref b = 1) as E1 by lia. destruct (refs_ok_freed _ _ _ _ Hok Hb E1) as [Hi _].
    split; [by apply Forall_delete_held|]. intros j c Hj.
    apply lookup_delete_Some in Hj as [Hij Hj].
    destruct (H j c Hj) as (Hp' & Hpos' & Hc' & Hr'). rewrite held_by_cons, decide_False in Hc' by done.
    rewrite (reals_delete_other m i b j Hb).
    2:{ intros _. destruct (Hl E1) as [-> | ->]; [done|]. by intros [= ->]. }
    split_and!; [lia..|]. destruct (mb_real c) as [r|] eqn:Er; [|done].
    assert (r <> i) as Hri.
    { intros ->. by eapply (refs_ok_unreal m i held b j c). }
    by rewrite lookup_delete_ne by done.
  - split.
    { eapply Forall_impl; [exact Hh|]. intros j Hj. cbn beta in *.
      destruct (decide (i = j)) as [<-|]; [by rewrite lookup_insert_eq|by rewrite lookup_insert_ne]. }
    intros j c Hj. rewrite (reals_insert m i b) by done.
    assert (match mb_real c with None => True | Some r => r = j \/ exists b', m !! r = Some b' /\
              (mb_real b' = None \/ mb_real b' = Some r) end /\
            5 <= mb_power c <= 9 /\ 0 < mb_ref c /\
            mb_ref c = held_by held j + Z.of_nat (size (reals m j))) as (Hrc & Hrest).
    { apply lookup_insert_Some in Hj as [[<- <-] | [Hij Hj]]; [cbn [with_ref mb_real mb_power mb_ref]|].
      - split; [done|]. lia.
      - destruct (H j c Hj) as (? & ? & Hc' & ?). rewrite held_by_cons, decide_False in Hc' by done.
        split_and!; done || lia. }
    destruct Hrest as (? & ? & ?). split_and!; [lia..|].
    destruct (mb_real c) as [r|]; [|done]. destruct Hrc as [->|(b' & Hb' & Hrb)]; [by left|right].
    destruct (decide (i = r)) as [<-|]; [|rewrite lookup_insert_ne by done; eauto].
    rewrite lookup_insert_eq. rewrite Hb in Hb'. injection Hb' as <-. by eexists.
Qed.

(** Freeing a buffer turns its reference to its real buffer into one to give up. *)
Lemma unref_real m i held b r :
  refs_ok m (i :: held) -> m !! i = Some b -> mb_ref b = 1 -> mb_real b = Some r -> r <> i ->
  refs_ok (delete i m) (r :: held) /\ exists c, delete i m !! r = Some c /\ leaf c r.
Proof.
  intros Hok Hb E1 Hr Hri. pose proof Hok as [[_ Hh]%Forall_cons H].
  destruct (refs_ok_freed _ _ _ _ Hok Hb E1) as [Hi _].
  destruct (H i b Hb) as (_ & _ & _ & Hreal). rewrite Hr in Hreal.
  destruct Hreal as [->|(c & Hc & Hlc)]; [done|].
  assert (delete i m !! r = Some c) as Hdc by (by rewrite lookup_delete_ne).
  split; [|by exists c]. split; [constructor; [by exists c|by apply Forall_delete_held]|].
  intros j c' Hj. apply lookup_delete_Some in Hj as [Hij Hj].
  destruct (H j c' Hj) as (Hp' & Hpos' & Hc' & Hr'). rewrite held_by_cons, decide_False in Hc' by done.
  rewrite held_by_cons. split; [done|]. split; [done|]. split.
  - case_decide as Ej.
    + subst j. rewrite (reals_delete_one m i b r) in Hc' by done. lia.
    + rewrite (reals_delete_other m i b j Hb); [lia|]. intros _. rewrite Hr. by intros [= ->].
  - destruct (mb_real c') as [r'|] eqn:Er; [|done].
    assert (r' <> i) by (intros ->; by eapply (refs_ok_unreal m i held b j c')).
    by rewrite lookup_delete_ne by done.
Qed.

(** *** Free lists *)
Lemma get_class_set d power c p :
  5 <= power -> 5 <= p -> is_Some (get_class d power) ->
  get_class (set_class d power c) p = if decide (p = power) then Some c else get_class d p.
Proof.
  unfold get_class, MB_BASE_SHIFT. intros Hpw Hp [c0 Hc0]. simpl.
  destruct (p <? 5) eqn:E; bprop; [lia|]. destruct (power <? 5) eqn:E'; bprop; [lia|].
  case_decide as Ep.
  - subst. rewrite list_lookup_insert_eq; [done|]. by eapply lookup_lt_Some.
  - rewrite list_lookup_insert_ne; [done|]. unfold MB_BASE_SHIFT. lia.
Qed.

Lemma in_pool_pos d p i : in_pool d p i -> 5 <= p.
Proof.
  intros (c & Hc & _). unfold get_class, MB_BASE_SHIFT in Hc. destruct (p <? 5) eqn:E; [done|]. bprop. lia.
Qed.

Lemma free_buf_spec d i power :
  length (msgBufs d) = 5%nat -> 5 <= power <= 9 ->
  exists d', free_buf d i power = Some d' /\ length (msgBufs d') = 5%nat /\
    bufs d' = delete i (bufs d) /\ in_pool d' power i /\ forall p j, in_pool d p j -> in_pool d' p j.
Proof.
  intros H5 Hp. assert (is_Some (get_class d power)) as [c Hc].
  { unfold get_class, MB_BASE_SHIFT. destruct (power <? 5) eqn:E; bprop; [lia|].
    apply lookup_lt_is_Some_2. lia. }
  unfold free_buf. rewrite Hc. cbn [mbind option_bind]. eexists. split; [done|].
  assert (forall p, 5 <= p -> forall c', get_class (del_buf (set_class d power c') i) p =
    if decide (p = power) then Some c' else get_class d p) as Hg.
  { intros p Hp' c'. rewrite <- (get_class_set d power c' p) by (done || lia). done. }
  split_and!; [simpl; by rewrite length_insert|done| |].
  - eexists. rewrite Hg, decide_True by (done || lia). split; [done|]. by left.
  - intros p j Hin. pose proof (in_pool_pos _ _ _ Hin) as Hp5. destruct Hin as (c' & Hc' & Hj).
    unfold in_pool. setoid_rewrite Hg; [|done]. case_decide as Ep; [|by exists c'].
    subst p. rewrite Hc in Hc'. injection Hc' as <-. eexists. split; [done|]. by right.
Qed.

(** *** msgq_clean() *)
Lemma released_refl d : released d d.
Proof. split; [|done]. intros i. by destruct (bufs d !! i). Qed.

Lemma released_trans d1 d2 d3 : released d1 d2 -> released d2 d3 -> released d1 d3.
Proof.
  intros [H1 P1] [H2 P2]. split; [|by intros p i Hi; apply P2, P1].
  intros i. specialize (H1 i). specialize (H2 i).
  destruct (bufs d1 !! i) as [b1|], (bufs d2 !! i) as [b2|], (bufs d3 !! i) as [b3|]; try done.
  - destruct H1 as (-> & -> & ->) || destruct H1 as (E1 & E2 & E3). by rewrite <- E1, <- E2, <- E3.
  - destruct H1 as (_ & <- & _). done.
  - by apply P2.
Qed.

Lemma released_unref d d' i b :
  bufs d !! i = Some b -> bufs d' = unref (bufs d) i b ->
  (mb_ref b - 1 = 0 -> in_pool d' (mb_power b) i) -> (forall p j, in_pool d p j -> in_pool d' p j) ->
  released d d'.
Proof.
  intros Hb Hd Hpool Hmono. split; [|done]. intros j. rewrite Hd. unfold unref.
  destruct (Z.eqb_spec (mb_ref b - 1) 0) as [E|E]; destruct (decide (i = j)) as [<-|n].
  - rewrite lookup_delete_eq, Hb. by apply Hpool.
  - rewrite lookup_delete_ne by done. by destruct (bufs d !! j).
  - by rewrite lookup_insert_eq, Hb.
  - rewrite lookup_insert_ne by done. by destruct (bufs d !! j).
Qed.

(** The steps of msgq_clean() around the recursive call. *)
Lemma msgq_clean_S fuel d i b :
  bufs d !! i = Some b -> 0 < mb_ref b ->
  msgq_clean (S fuel) d i =
    let d := set_buf d i (with_ref b (mb_ref b - 1)) in
    if mb_ref b - 1 =? 0 then
      let d := set_list d (filter (fun j => j <> i) (msglist d)) in
      d ← (match mb_real b with
           | Some r => if decide (r = i) then Some d else msgq_clean fuel d r
           | None => Some d
           end);
      free_buf d i (mb_power b)
    else Some d.
Proof.
  intros Hb Hr. cbn [msgq_clean]. rewrite Hb. cbn [mbind option_bind].
  by destruct (Z.leb_spec (mb_ref b) 0); [lia|].
Qed.

Lemma delete_set_ref (m : gmap mbid MsgBuf) i c : delete i (<[i := c]> m) = delete i m.
Proof. apply delete_insert_eq. Qed.

Lemma clean_leaf fuel d i b :
  length (msgBufs d) = 5%nat -> bufs d !! i = Some b -> 0 < mb_ref b -> 5 <= mb_power b <= 9 ->
  (mb_ref b = 1 -> leaf b i) ->
  exists d', msgq_clean (S fuel) d i = Some d' /\ length (msgBufs d') = 5%nat /\
    bufs d' = unref (bufs d) i b /\ released d d'.
Proof.
  intros H5 Hb Hr Hp Hl. rewrite (msgq_clean_S _ _ _ b) by done. cbv zeta.
  destruct (Z.eqb_spec (mb_ref b - 1) 0) as [E|E].
  - set (d1 := set_list _ _). destruct (free_buf_spec d1 i (mb_power b)) as (d2 & E2 & H52 & Hb2 & Hin & Hmono);
      [done|done|].
    assert (bufs d2 = unref (bufs d) i b) as Hu.
    { unfold unref. rewrite (proj2 (Z.eqb_eq _ _) E), Hb2. apply delete_set_ref. }
    exists d2. split; [|split_and!; [done|done|by apply (released_unref d d2 i b)]].
    destruct Hl as [-> | ->]; [lia| |rewrite decide_True by done]; exact E2.
  - eexists. split; [done|].
    assert (bufs (set_buf d i (with_ref b (mb_ref b - 1))) = unref (bufs d) i b) as Hu.
    { unfold unref. by rewrite (proj2 (Z.eqb_neq _ _) E). }
    split_and!; [done|done|]. apply (released_unref _ _ i b); [done|done|lia|done].
Qed.

(** With fuel 2 msgq_clean() gives up one reference. *)
Lemma msgq_clean_ok d i held :
  heap_ok d (i :: held) ->
  exists d', msgq_clean 2 d i = Some d' /\ heap_ok d' held /\ released d d'.
Proof.
  intros [H5 Hok]. pose proof Hok as [[[b Hb] _]%Forall_cons H].
  destruct (H i b Hb) as (Hp & Hpos & _ & Hreal).
  destruct (decide (mb_ref b = 1 -> leaf b i)) as [Hl|Hl].
  { destruct (clean_leaf 1 d i b) as (d' & E & H5' & Hu & Hrel); [done..|].
    exists d'. split_and!; [done|split; [done|]|done]. rewrite Hu. by apply unref_ok. }
  assert (mb_ref b = 1 /\ exists r, mb_real b = Some r /\ r <> i) as (E1 & r & Er & Hne).
  { destruct (decide (mb_ref b = 1)) as [E1|]; [|by destruct Hl]. split; [done|]. unfold leaf in Hl.
    destruct (mb_real b) as [r|]; [|by destruct Hl; left]. exists r. split; [done|].
    intros ->. apply Hl. by right. }
  destruct (unref_real _ _ _ _ _ Hok Hb E1 Er Hne) as (Hok1 & c & Hc & Hlc).
  rewrite (msgq_clean_S _ _ _ b) by done. cbv zeta. rewrite E1. cbn [Z.sub Z.add Z.opp Z.pos_sub Z.eqb].
  set (d1 := set_list _ _). rewrite lookup_delete_ne in Hc by done.
  destruct (proj2 Hok1 r c) as (Hpc & Hposc & _); [by rewrite lookup_delete_ne|].
  assert (bufs d1 !! r = Some c) as Hc1 by (unfold d1; simpl; by rewrite lookup_insert_ne).
  destruct (clean_leaf 0 d1 r c) as (d2 & E2 & H52 & Hu2 & Hrel2); [done..|].
  destruct (free_buf_spec d2 i (mb_power b)) as (d3 & E3 & H53 & Hb3 & Hin & Hmono); [done..|].
  rewrite Er, decide_False, E2 by done. cbn [mbind option_bind]. exists d3. split; [done|].
  assert (bufs d3 = unref (delete i (bufs d)) r c) as Hu.
  { rewrite Hb3, Hu2. unfold unref, d1. simpl bufs. destruct (_ =? 0).
    - by rewrite delete_delete, delete_insert_eq.
    - by rewrite delete_insert_ne, delete_insert_eq by done. }
  split; [split; [done|]; rewrite Hu; apply unref_ok; [done|by rewrite lookup_delete_ne|done]|].
  destruct Hrel2 as [Hrel Hm2]. split; [|intros p j Hj; by apply Hmono, Hm2].
  intros j. rewrite Hb3. destruct (decide (i = j)) as [<-|n].
  - rewrite lookup_delete_eq, Hb. done.
  - rewrite lookup_delete_ne by done. specialize (Hrel j). unfold d1 in Hrel. simpl in Hrel.
    rewrite lookup_insert_ne in Hrel by done.
    destruct (bufs d !! j), (bufs d2 !! j); try done. by apply Hmono.
Qed.

Lemma released_keep d d' i b :
  released d d' -> bufs d !! i = Some b -> is_Some (bufs d' !! i) ->
  exists b', bufs d' !! i = Some b' /\ mb_msg b' = mb_msg b.
Proof.
  intros [H _] Hb [b' Hb']. specialize (H i). rewrite Hb, Hb' in H. exists b'. tauto.
Qed.

Lemma released_msg d d' m :
  released d d' -> msg_ok d m -> is_Some (bufs d' !! msg m) -> text d' m = text d m /\ msg_ok d' m.
Proof.
  intros Hr (b & Hb & Hs) Hi. destruct (released_keep _ _ _ _ Hr Hb Hi) as (b' & Hb' & Hm).
  unfold text. rewrite Hb, Hb', Hm. split; [done|]. exists b'. by rewrite Hm.
Qed.

Lemma text_ok d m b : bufs d !! msg m = Some b -> text d m = drop (sent m) (mb_msg b).
Proof. intros H. unfold text. by rewrite H. Qed.

Lemma msg_ok_text d m : msg_ok d m -> text d m <> [].
Proof.
  intros (b & Hb & Hs). rewrite (text_ok _ _ _ Hb). intros E.
  apply (f_equal length) in E. rewrite length_drop in E. simpl in E. lia.
Qed.

Lemma pending_cons d mq m r :
  order mq = m :: r -> pending d mq = text d m ++ concat (map (text d) r).
Proof. intros E. unfold pending. by rewrite E. Qed.

Lemma released_rest d d' l :
  released d d' -> Forall (msg_ok d) l -> Forall (fun i => is_Some (bufs d' !! i)) (map msg l) ->
  concat (map (text d') l) = concat (map (text d) l) /\ Forall (msg_ok d') l.
Proof.
  intros Hr Hok Hin. assert (Forall (fun m => text d' m = text d m /\ msg_ok d' m) l) as H.
  { apply Forall_forall. intros m Hm. rewrite Forall_forall in Hok.
    apply (released_msg d d' m Hr); [by apply Hok|]. apply (proj1 (Forall_forall _ _) Hin).
    by apply (list_elem_of_fmap_2 msg). }
  split; [|eapply Forall_impl; [exact H|]; by intros m [_ ?]].
  f_equal. apply map_ext_Forall. eapply Forall_impl; [exact H|]. by intros m [? _].
Qed.

Lemma order_set mq p l len count :
  order (set_qlist mq p l len count) = order (set_qlist mq p l 0 0).
Proof. by destruct p. Qed.

Lemma mq_length_set mq p l len count : mq_length (set_qlist mq p l len count) = len.
Proof. done. Qed.

Lemma mq_count_set mq p l len count : mq_count (set_qlist mq p l len count) = count.
Proof. done. Qed.

(** One call of msgq_delmsg(); [others] are the references held elsewhere. *)
Lemma delmsg_spec d mq prio n others :
  heap_ok d (map msg (order mq) ++ others) -> mq_ok d mq -> next_list mq = Some prio -> (0 < n)%nat ->
  exists d' mq' n', msgq_delmsg d mq prio n = Some (d', mq', n') /\
    heap_ok d' (map msg (order mq') ++ others) /\ mq_ok d' mq' /\ released d d' /\
    (n' = 0%nat \/ (length (order mq') < length (order mq))%nat) /\
    drop n' (pending d' mq') = drop n (pending d mq).
Proof.
  intros Hh (Hok & Hz & Hlen & Hcnt) Hn Hn0. unfold msgq_delmsg.
  pose proof (order_next mq 0 0 Hz) as Ho. rewrite Hn in Ho. destruct Ho as (m & r & Hq & Hord & Hpart).
  rewrite Hq. rewrite Hord in Hh, Hok, Hz, Hcnt. apply Forall_cons in Hok as [Hm Hok].
  pose proof Hm as (b & Hb & Hs). rewrite Hb. cbn [mbind option_bind drop map app] in *.
  unfold pending in *. rewrite Hord in Hlen |- *. cbn [map concat length] in *.
  pose proof (text_ok _ _ _ Hb) as Ht. rewrite length_app, Ht, length_drop in Hlen.
  set (rest := order (set_qlist mq prio r 0 0)) in *.
  destruct (Nat.leb_spec (length (mb_msg b) - sent m) n) as [Hle|Hlt].
  - destruct (msgq_clean_ok d (msg m) _ Hh) as (d1 & E & Hh1 & Hrel). rewrite E.
    cbn [mbind option_bind]. eexists _, _, _. split; [done|].
    set (d2 := set_msgs _ _ _ _). unfold mq_ok, pending.
    rewrite order_set, mq_length_set, mq_count_set. fold rest. split; [exact Hh1|].
    pose proof (proj1 (proj1 (Forall_app _ _ _) (proj1 (proj2 Hh1)))) as Hin.
    destruct (released_rest d d2 rest) as [Et Hok']; [exact Hrel|done|exact Hin|]. rewrite Et.
    split; [split_and!|split; [exact Hrel|split]].
    + done.
    + by apply Forall_drop.
    + lia.
    + lia.
    + right. lia.
    + rewrite drop_app_ge; rewrite Ht, length_drop; [done|lia].
  - eexists _, _, _. split; [done|].
    set (m' := {| sent := sent m + n; msg := msg m |}).
    assert (text d m' = drop n (text d m)) as Htm.
    { rewrite Ht. unfold text, m'. cbn [msg sent]. by rewrite Hb, drop_drop. }
    unfold mq_ok, pending. rewrite Hpart by (unfold m'; cbn [sent]; lia).
    rewrite order_set, mq_length_set, mq_count_set. fold rest. cbn [map concat drop length].
    rewrite Htm, length_app, length_drop, Ht, length_drop. split; [exact Hh|].
    split; [split_and!|split; [by apply released_refl|split]]; try done; try lia.
    + constructor; [|done]. exists b. split; [done|]. unfold m'. cbn [sent]. lia.
    + by rewrite drop_0, (drop_app_le (drop (sent m) (mb_msg b))) by (rewrite length_drop; lia).
Qed.

Lemma msgq_delete_loop_spec fuel d mq n others :
  heap_ok d (map msg (order mq) ++ others) -> mq_ok d mq -> (length (order mq) < fuel)%nat ->
  exists d' mq', delete_loop fuel d mq n = Some (d', mq') /\
    heap_ok d' (map msg (order mq') ++ others) /\ mq_ok d' mq' /\ released d d' /\
    pending d' mq' = drop n (pending d mq).
Proof.
  revert d mq n; induction fuel as [|fuel IH]; intros d mq n Hh Hok Hf; [lia|].
  destruct n as [|n]; [exists d, mq; split_and!; try done; by apply released_refl|].
  cbn [delete_loop].
  pose proof Hok as (_ & Hz & _). pose proof (order_next mq 0 0 Hz) as Ho.
  destruct (next_list mq) as [prio|] eqn:En.
  2:{ exists d, mq. split_and!; try done; [by apply released_refl|]. unfold pending. by rewrite Ho. }
  destruct (delmsg_spec d mq prio (S n) others Hh Hok En ltac:(lia))
    as (d1 & mq1 & n1 & -> & Hh1 & Hok1 & Hr1 & Hn1 & Hp1). cbn [mbind option_bind]. rewrite <- Hp1.
  destruct Hn1 as [->|Hlt]; [destruct fuel; by exists d1, mq1|].
  destruct (IH d1 mq1 n1) as (d' & mq' & E & Hh' & Hok' & Hr' & Hp'); [done..|lia|].
  exists d', mq'. split_and!; try done. by eapply released_trans.
Qed.

Lemma order_length mq : length (order mq) = (length (mq_queue mq) + length (mq_prio mq))%nat.
Proof.
  unfold order. destruct (split_partial (mq_queue mq)) as [a b] eqn:E.
  pose proof (split_partial_app (mq_queue mq)) as H. rewrite E in H. simpl in H. rewrite <- H.
  rewrite !length_app. lia.
Qed.

(** ** Lemmas: the I/O vector *)
Lemma map_all_text (f : Msg -> option (list Z)) d l :
  Forall (fun m => f m = Some (text d m)) l -> map_all f l = Some (map (text d) l).
Proof. induction 1 as [|m l Hm _ IH]; [done|]. cbn [map_all map]. by rewrite Hm, IH. Qed.

Lemma unsent_text d m : msg_ok d m -> unsent d m = Some (text d m).
Proof. intros (b & Hb & _). unfold unsent, text. by rewrite Hb. Qed.

Lemma whole_text d m : msg_ok d m -> sent m = 0%nat -> whole d m = Some (text d m).
Proof. intros (b & Hb & _) Hs. unfold whole, text. by rewrite Hb, Hs. Qed.

(** msgq_mapiov() splits the sending order in the partly sent heads and the
    messages not sent at all. *)
Lemma order_split mq :
  Forall (fun m => sent m = 0%nat) (drop 1 (order mq)) ->
  let '((qp, queue), (pp, prio)) := (split_partial (mq_queue mq), split_partial (mq_prio mq)) in
  order mq = (qp ++ pp) ++ (prio ++ queue) /\ Forall (fun m => sent m = 0%nat) (prio ++ queue).
Proof.
  unfold order, split_partial. destruct (mq_queue mq) as [|m q] eqn:Eq; simpl.
  - rewrite app_nil_r. destruct (mq_prio mq) as [|p l]; simpl; [done|].
    destruct (Nat.ltb_spec 0 (sent p)); simpl; rewrite app_nil_r; intros Hz; (split; [done|]); [done|].
    constructor; [lia|done].
  - destruct (Nat.ltb_spec 0 (sent m)); simpl.
    + intros Hz. pose proof Hz as [Hp Hq]%Forall_app.
      assert (split_partial (mq_prio mq) = ([], mq_prio mq)) as E
        by (unfold split_partial; by rewrite partial_false).
      unfold split_partial in E. by rewrite E.
    + destruct (mq_prio mq) as [|p l]; simpl; intros Hz; [split; [done|constructor; [lia|done]]|].
      apply Forall_app in Hz as [Hz1 Hz2]. apply Forall_cons in Hz2 as [Hz2 Hz3].
      destruct (Nat.ltb_spec 0 (sent p)); simpl; (split; [done|]); [by apply Forall_app; split; [|constructor]|].
      constructor; [lia|]. by apply Forall_app; split; [|constructor].
Qed.

(** ** Lemmas: allocating *)
Lemma msg_power_spec len :
  1 <= len <= 512 ->
  5 <= msg_power len <= 9 /\ len <= 2 ^ msg_power len /\
  (5 < msg_power len -> 2 ^ (msg_power len - 1) < len).
Proof.
  intros Hl. assert (Forall (fun n => let len := Z.of_nat n in
    (5 <=? msg_power len) && (msg_power len <=? 9) && (len <=? 2 ^ msg_power len) &&
    ((msg_power len <=? 5) || (2 ^ (msg_power len - 1) <? len)) = true) (seq 1 512)) as H by by_decide.
  rewrite Forall_seq in H. specialize (H (Z.to_nat len) ltac:(lia)). rewrite Z2Nat.id in H by lia.
  cbv zeta in H. apply andb_true_iff in H as [H H4]. bprop. apply orb_true_iff in H4.
  rewrite Z.leb_le, Z.ltb_lt in H4. lia.
Qed.

(** The identifiers a new message may get. *)
Definition is_fresh (d : MQData) (i : mbid) : Prop :=
  i = next_id d \/ exists c, c ∈ msgBufs d /\ i ∈ sc_free c.

Lemma get_class_ok d power :
  length (msgBufs d) = 5%nat -> 5 <= power <= 9 ->
  exists c, get_class d power = Some c /\ c ∈ msgBufs d.
Proof.
  intros H5 Hp. unfold get_class, MB_BASE_SHIFT. destruct (power <? 5) eqn:E; bprop; [lia|].
  destruct (lookup_lt_is_Some_2 (msgBufs d) (Z.to_nat (power - 5))) as [c Hc]; [lia|].
  exists c. split; [done|]. by eapply list_elem_of_lookup_2.
Qed.

Lemma take_buf_spec BUFFERPOOL d power :
  length (msgBufs d) = 5%nat -> 5 <= power <= 9 ->
  exists d1 o, take_buf BUFFERPOOL d power = Some (d1, o) /\
    length (msgBufs d1) = 5%nat /\ bufs d1 = bufs d /\ msglist d1 = msglist d /\
    forall i, o = Some i -> is_fresh d i.
Proof.
  intros H5 Hp. destruct (get_class_ok d power H5 Hp) as (c & Hc & Hin). unfold take_buf.
  rewrite Hc. cbn [mbind option_bind]. destruct (sc_free c) as [|i r] eqn:Ef.
  - destruct (_ <? _).
    + eexists _, _. split; [done|]. split_and!; [|done|done|intros i [= <-]; by left].
      simpl. by rewrite length_insert.
    + eexists _, _. split; [done|]. by split_and!.
  - eexists _, _. split; [done|]. split_and!; [simpl; by rewrite length_insert|done|done|].
    intros j [= <-]. right. exists c. split; [done|]. rewrite Ef. by left.
Qed.

(** msgq_alloc() changes the text of the buffer it hands out only. *)
Lemma msgq_alloc_spec BUFFERPOOL d in_mb len :
  length (msgBufs d) = 5%nat -> 1 <= len <= 512 ->
  (forall m, in_mb = Some m -> ~ is_fresh d m /\ exists b, bufs d !! m = Some b) ->
  exists d1 o, msgq_alloc BUFFERPOOL d in_mb len = Some (d1, o) /\
    msglist d1 = msglist d /\
    (forall j, ~ is_fresh d j -> mb_msg <$> bufs d1 !! j = mb_msg <$> bufs d !! j) /\
    (forall i, o = Some i -> (in_mb = Some i \/ is_fresh d i) /\
       exists t, bufs d1 !! i = Some t /\
         (in_mb <> Some i -> mb_power t = msg_power len)) /\
    (in_mb <> None -> o <> None).
Proof.
  intros H5 Hl Hin. destruct (msg_power_spec len Hl) as (Hp & _).
  destruct (take_buf_spec BUFFERPOOL d _ H5 Hp) as (d1 & o & Et & H51 & Hb1 & Hl1 & Ho).
  unfold msgq_alloc. rewrite Et. cbn [mbind option_bind].
  assert (forall i, exists d2 t, use_buf d1 i (msg_power len) = Some d2 /\ msglist d2 = msglist d /\
    bufs d2 = <[i := t]> (bufs d) /\ mb_power t = msg_power len) as Hu.
  { intros i. destruct (get_class_ok d1 _ H51 Hp) as (c & Hc & _). unfold use_buf. rewrite Hc.
    eexists _, _. split; [done|]. cbn [set_buf set_class msglist bufs]. rewrite Hb1, Hl1. done. }
  destruct in_mb as [m|].
  2:{ destruct o as [i|].
    - destruct (Hu i) as (d2 & t & -> & Hl2 & Hb2 & Ht). cbn [mbind option_bind].
      eexists _, _. split; [done|]. rewrite Hb2. split_and!; [done| | |done].
      + intros j Hj. rewrite lookup_insert_ne; [done|]. intros <-. by apply Hj, Ho.
      + intros j [= <-]. split; [right; by apply Ho|]. exists t. by rewrite lookup_insert_eq.
    - eexists _, _. split; [done|]. rewrite Hb1. by split_and!. }
  destruct (Hin m eq_refl) as (Hm & b & Hb). rewrite Hb. cbn [mbind option_bind].
  assert (forall d' f t, bufs d' !! m = Some t -> (forall j, ~ is_fresh d j -> mb_msg <$> bufs d' !! j = mb_msg <$> bufs d !! j) ->
    forall j, ~ is_fresh d j ->
      mb_msg <$> bufs (set_buf d' m (with_real t f)) !! j = mb_msg <$> bufs d !! j) as Hset.
  { intros d' f t Ht Heq j Hj. simpl. destruct (decide (m = j)) as [<-|n].
    - rewrite lookup_insert_eq, <- (Heq m Hm), Ht. done.
    - rewrite lookup_insert_ne by done. by apply Heq. }
  destruct (mb_power b =? msg_power len).
  { eexists _, _. split; [done|]. split_and!; [done|by apply (Hset d)| |done].
    intros i [= <-]. split; [by left|]. eexists. simpl. by rewrite lookup_insert_eq. }
  destruct o as [i|]; cbn [mbind option_bind].
  - destruct (Hu i) as (d2 & t & -> & Hl2 & Hb2 & Ht). cbn [mbind option_bind].
    assert (i <> m) as Hne by (intros ->; by apply Hm, Ho).
    rewrite Hb2, lookup_insert_ne, Hb by done. cbn [mbind option_bind].
    eexists _, _. split; [done|]. split_and!; [done| | |done].
    + apply (Hset d2).
      * rewrite Hb2, lookup_insert_ne; done.
      * intros j Hj. rewrite Hb2, lookup_insert_ne; [done|]. intros <-. by apply Hj, Ho.
    + intros j [= <-]. split; [right; by apply Ho|]. exists t.
      split; [|done]. simpl. by rewrite Hb2, lookup_insert_ne, lookup_insert_eq by done.
  - eexists _, _. split; [done|]. split_and!; [done| | |done].
    + apply (Hset d1); [by rewrite Hb1|]. intros j _. by rewrite Hb1.
    + intros j [= <-]. split; [by left|]. eexists. simpl. by rewrite lookup_insert_eq.
Qed.

(** A message about to be added: its text fits, and its real buffer, once there
    is one, has the same text. *)
Definition addable (d : MQData) (mb : mbid) (b : MsgBuf) : Prop :=
  length (msgBufs d) = 5%nat /\ bufs d !! mb = Some b /\ 0 < mb_ref b /\ 1 <= mb_length b <= 512 /\
  ~ is_fresh d mb /\
  match mb_real b with
  | None => mb ∈ msglist d
  | Some r => exists t, bufs d !! r = Some t /\ mb_msg t = mb_msg b
  end.

Lemma real_buf_spec BUFFERPOOL d mb b :
  addable d mb b ->
  exists d1 r t, real_buf BUFFERPOOL d mb = Some (d1, r) /\ bufs d1 !! r = Some t /\
    mb_msg t = mb_msg b /\
    forall j, ~ is_fresh d j -> mb_msg <$> bufs d1 !! j = mb_msg <$> bufs d !! j.
Proof.
  intros (H5 & Hb & _ & Hl & Hf & Hr). unfold real_buf. rewrite Hb. cbn [mbind option_bind].
  destruct (mb_real b) as [r|]; [destruct Hr as (t & Ht & Hm); by exists d, r, t|].
  destruct (msgq_alloc_spec BUFFERPOOL d (Some mb) (mb_length b) H5 Hl)
    as (d1 & o & -> & Hml & Heq & Ho & Hn); [intros m [= <-]; eauto|]. cbn [mbind option_bind].
  destruct o as [tmp|]; [|by destruct Hn]. cbn [mbind option_bind].
  destruct (Ho tmp eq_refl) as (Hc & t & Ht & _). case_decide as E.
  - subst tmp. exists d1, mb, t. split_and!; [done|done| |done].
    specialize (Heq mb Hf). rewrite Ht, Hb in Heq. by injection Heq.
  - rewrite Ht. cbn [mbind option_bind]. rewrite decide_True by (by rewrite Hml).
    eexists _, tmp, _. split; [done|]. cbn [set_list set_buf bufs].
    rewrite lookup_insert_eq. split_and!; [done|done|]. intros j Hj.
    destruct Hc as [[= ->]|Hc]; [done|]. rewrite lookup_insert_ne by (by intros <-). by apply Heq.
Qed.

Lemma Forall_drop1_snoc {A} (P : A -> Prop) l x :
  Forall P (drop 1 l) -> P x -> Forall P (drop 1 (l ++ [x])).
Proof.
  intros Hl Hx. destruct l as [|y l]; simpl in *; [by constructor|].
  rewrite drop_0 in *. apply Forall_app. split; [done|]. by constructor.
Qed.

Lemma order_add mq prio new len count :
  Forall (fun m => sent m = 0%nat) (drop 1 (order mq)) -> sent new = 0%nat ->
  exists a c, order mq = a ++ c /\
    order (set_qlist mq prio (qlist mq prio ++ [new]) len count) = a ++ new :: c /\
    Forall (fun m => sent m = 0%nat) (drop 1 (a ++ new :: c)) /\
    c = if prio then (split_partial (mq_queue mq)).2 else [].
Proof.
  intros Hz Hn. destruct prio.
  - exists ((split_partial (mq_queue mq)).1 ++ mq_prio mq), (split_partial (mq_queue mq)).2.
    unfold order in *. cbn [set_qlist qlist mq_queue mq_prio].
    destruct (split_partial (mq_queue mq)) as [qp q] eqn:E. cbn [fst snd].
    rewrite <- !app_assoc. split_and!; [done|done| |done].
    destruct qp as [|x qp]; [|simpl in Hz |- *; rewrite ?drop_0 in *; rewrite !Forall_app in Hz; rewrite !Forall_app, Forall_cons; tauto].
    destruct (mq_prio mq) as [|x l]; [|simpl in Hz |- *; rewrite ?drop_0 in *; rewrite !Forall_app in Hz; rewrite !Forall_app, Forall_cons; tauto].
    simpl in *. unfold split_partial in E. destruct (mq_queue mq) as [|y l]; [by injection E as <-|].
    destruct (partial (y :: l)) eqn:Ep; [done|]. injection E as <-. simpl in *.
    apply Nat.ltb_ge in Ep. constructor; [lia|done].
  - exists (order mq), []. unfold order in *. cbn [set_qlist qlist mq_queue mq_prio].
    rewrite app_nil_r. split_and!; [done| | |done].
    + unfold split_partial. destruct (mq_queue mq) as [|y l]; simpl; [rewrite Hn; simpl; by rewrite ?app_nil_r|].
      destruct (0 <? sent y)%nat; simpl; rewrite ?drop_0, <- ?app_assoc; done.
    + by apply Forall_drop1_snoc.
Qed.

Lemma mapiov_spec d mq count :
  mq_ok d mq -> msgq_mapiov d mq count = Some (map (text d) (take count (order mq))).
Proof.
  intros (Hok & Hz & Hl & _). unfold msgq_mapiov. destruct (mq_length mq <=? 0) eqn:E; bprop.
  - assert (order mq = []) as ->; [|by rewrite take_nil]. unfold pending in Hl.
    destruct Hok as [|m r Hm _]; [done|]. pose proof (msg_ok_text d m Hm).
    cbn [map concat] in Hl. rewrite length_app in Hl. destruct (text d m); [done|simpl in Hl; lia].
  - pose proof (order_split mq Hz) as Hs.
    destruct (split_partial (mq_queue mq)) as [qp queue], (split_partial (mq_prio mq)) as [pp prio].
    destruct Hs as [Eo Hz']. rewrite Eo in *. apply Forall_app in Hok as [Hok1 Hok2].
    rewrite (map_all_text (unsent d) d).
    2:{ apply Forall_take. eapply Forall_impl; [exact Hok1|]. intros. by apply unsent_text. }
    cbn [mbind option_bind]. rewrite (map_all_text (whole d) d).
    2:{ apply Forall_take. rewrite Forall_forall in *. intros. apply whole_text; auto. }
    cbn [mbind option_bind]. by rewrite (take_app (qp ++ pp)), map_app.
Qed.

Lemma same_text d d' m :
  mb_msg <$> bufs d' !! msg m = mb_msg <$> bufs d !! msg m -> msg_ok d m ->
  text d' m = text d m /\ msg_ok d' m.
Proof.
  intros H (b & Hb & Hs). unfold text, msg_ok. rewrite Hb in *.
  destruct (bufs d' !! msg m) as [b'|]; [|done]. injection H as H. rewrite H. split; [done|].
  exists b'. by rewrite H.
Qed.

Lemma clear_class_length acc c :
  length (msgBufs (clear_class acc c).1) = length (msgBufs acc.1).
Proof. destruct acc as [d p]. simpl. apply length_insert. Qed.

Lemma clear_length d : length (msgBufs (msgq_clear_freembs d)) = length (msgBufs d).
Proof.
  unfold msgq_clear_freembs. change (length (msgBufs d)) with (length (msgBufs (d, MB_BASE_SHIFT).1)).
  generalize (d, MB_BASE_SHIFT). induction (msgBufs d) as [|c l IH]; intros acc; [done|].
  cbn [foldl]. rewrite IH. apply clear_class_length.
Qed.

(** Every attempt of msgq_vmake() leaves a buffer of 512 bytes or none. *)
Definition attempt_ok (r : MQData * option mbid) : Prop :=
  match r with
  | (d, Some i) => exists t, bufs d !! i = Some t /\ mb_power t = 9 /\ mb_real t = None
  | (d, None) => length (msgBufs d) = 5%nat
  end.

Lemma attempt_512 BUFFERPOOL d r :
  length (msgBufs d) = 5%nat -> msgq_alloc BUFFERPOOL d None BUFSIZE = Some r -> attempt_ok r.
Proof.
  intros H5 E. destruct (take_buf_spec BUFFERPOOL d 9 H5 ltac:(lia)) as (d1 & o & Et & H51 & _).
  unfold msgq_alloc in E. change (msg_power BUFSIZE) with 9 in E. rewrite Et in E.
  cbn [mbind option_bind] in E. destruct o as [i|]; [|by injection E as <-].
  destruct (get_class_ok d1 9 H51 ltac:(lia)) as (c & Hc & _). unfold use_buf in E. rewrite Hc in E.
  cbn [mbind option_bind] in E. injection E as <-. eexists. simpl. by rewrite lookup_insert_eq.
Qed.

Lemma vmake_alloc_power BUFFERPOOL FERGUSON flush kill d d1 i :
  (forall d, length (msgBufs d) = 5%nat -> length (msgBufs (flush d)) = 5%nat) ->
  (forall b d, length (msgBufs d) = 5%nat -> length (msgBufs (kill b d)) = 5%nat) ->
  length (msgBufs d) = 5%nat ->
  vmake_alloc BUFFERPOOL FERGUSON flush kill d = Some (d1, Some i) ->
  exists t, bufs d1 !! i = Some t /\ mb_power t = 9 /\ mb_real t = None.
Proof.
  intros Hf Hk H5 E.
  assert (forall prep r r', (forall d, length (msgBufs d) = 5%nat -> length (msgBufs (prep d)) = 5%nat) ->
    attempt_ok r ->
    match r with (d, Some i) => Some (d, Some i)
      | (d, None) => msgq_alloc BUFFERPOOL (prep d) None BUFSIZE end = Some r' -> attempt_ok r') as Hretry.
  { intros prep [d0 [j|]] r' Hprep Hr Er; [by injection Er as <-|]. eapply attempt_512; [|exact Er].
    by apply Hprep. }
  unfold vmake_alloc in E. destruct (msgq_alloc _ d None _) as [r0|] eqn:E0; [|done].
  apply attempt_512 in E0; [|done]. cbn [mbind option_bind] in E.
  destruct (if FERGUSON then _ else _) as [r1|] eqn:E1; [|done]. cbn [mbind option_bind] in E.
  assert (attempt_ok r1) as H1 by (destruct FERGUSON; [by eapply Hretry in E1|by injection E1 as <-]).
  clear E1. match type of E with context [mbind _ ?x] => destruct x as [r2|] eqn:E2; [|done] end.
  cbn [mbind option_bind] in E. eapply Hretry in E2; [|intros; by rewrite clear_length|done].
  match type of E with context [mbind _ ?x] => destruct x as [r3|] eqn:E3; [|done] end.
  cbn [mbind option_bind] in E. eapply Hretry in E3; [|intros; rewrite clear_length; by apply Hk|done].
  eapply Hretry in E; [exact E|intros; rewrite clear_length; by apply Hk|done].
Qed.

(** ** Properties *)

(** C34: when every buffer counts exactly the references to it (those of the
    messages of this queue, those others hold, those of buffers whose real
    buffer it is), msgq_delete() gives a result, which includes that
    [assert(0 < mb->ref)] of msgq_clean() never fails, and removes exactly the
    first bytes the queue would send, in sending order (the rest of a partly
    sent normal message, the priority messages, the normal messages); the length
    and count fields stay the numbers of bytes and messages left.  The counts
    stay exact, so a buffer is freed, to the free list of its size, exactly with
    its last reference, and what the other holders refer to keeps its text. *)
Theorem msgq_delete_drops d mq n others :
  heap_ok d (map msg (order mq) ++ others) -> mq_ok d mq ->
  exists d' mq', msgq_delete d mq n = Some (d', mq') /\
    heap_ok d' (map msg (order mq') ++ others) /\ mq_ok d' mq' /\ released d d' /\
    pending d' mq' = drop n (pending d mq) /\
    Forall (fun i => mb_msg <$> bufs d' !! i = mb_msg <$> bufs d !! i) others.
Proof.
  intros Hh Hok.
  destruct (msgq_delete_loop_spec (S (length (mq_queue mq) + length (mq_prio mq))) d mq n others Hh Hok)
    as (d' & mq' & E & Hh' & Hok' & Hr & Hp); [rewrite order_length; lia|].
  exists d', mq'. split_and!; try done. destruct Hh as [_ [Hin _]], Hh' as [_ [Hin' _]].
  apply Forall_app in Hin as [_ Hin], Hin' as [_ Hin']. rewrite Forall_forall in *. intros i Hi.
  destruct (Hin i Hi) as [b Hb]. destruct (released_keep d d' i b Hr Hb (Hin' i Hi)) as (b' & Hb' & Hm).
  by rewrite Hb, Hb'; simpl; rewrite Hm.
Qed.

(** Msgq_mapiov() with room for [count] elements describes the first [count]
    messages left to send, so what it maps is a prefix of the bytes msgq_delete()
    would remove, and all of them when there is room. *)
Theorem msgq_mapiov_prefix d mq count :
  mq_ok d mq ->
  exists iov rest, msgq_mapiov d mq count = Some iov /\
    length iov = Nat.min count (length (order mq)) /\ pending d mq = concat iov ++ rest /\
    ((length (order mq) <= count)%nat -> rest = []).
Proof.
  intros Hmq. exists (map (text d) (take count (order mq))), (concat (map (text d) (drop count (order mq)))).
  split_and!; [by apply mapiov_spec| | |].
  - rewrite length_map. apply length_take.
  - unfold pending. by rewrite <- concat_app, <- map_app, take_drop.
  - intros Hc. by rewrite drop_ge.
Qed.

(** Two normal messages, the first partly sent, and a priority message. *)
Definition sample_bufs : gmap mbid MsgBuf :=
  let mk s := {| mb_real := None; mb_ref := 2; mb_power := 5; mb_msg := lit s ++ crlf |} in
  <[1%positive := mk "one"]> (<[2%positive := mk "two"]> (<[3%positive := mk "pri"]>
    (<[4%positive := {| mb_real := None; mb_ref := 1; mb_power := 9; mb_msg := lit "new" ++ crlf |}]> empty))).

Definition sample_data : MQData :=
  {| msglist := [4; 3; 2; 1]%positive; msgs_alloc := 3; msgs_used := 3; msgs_free := 0;
     tot_bufsize := 608; msgBufs := replicate 5 {| sc_alloc := 4; sc_used := 4; sc_free := [] |};
     bufs := sample_bufs; next_id := 5%positive |}.

Definition sample_mq : MsgQ :=
  {| mq_length := 13; mq_count := 3; mq_queue := [{| sent := 2; msg := 1%positive |}; {| sent := 0; msg := 2%positive |}];
     mq_prio := [{| sent := 0; msg := 3%positive |}] |}.

(** Who refers to the buffers of the sample: its queue, another queue and the
    caller that made the fourth. *)
Definition sample_others : list mbid := [1; 2; 3; 4]%positive.

Definition buf_ok (m : gmap mbid MsgBuf) (held : list mbid) (i : mbid) (b : MsgBuf) : Prop :=
  5 <= mb_power b <= 9 /\ 0 < mb_ref b /\
  mb_ref b = held_by held i + Z.of_nat (size (reals m i)) /\ mb_real b = None.

Lemma sample_heap_ok : heap_ok sample_data (map msg (order sample_mq) ++ sample_others).
Proof.
  split; [done|]. split; [by_decide|]. intros i b Hb.
  assert (map_Forall (buf_ok sample_bufs (map msg (order sample_mq) ++ sample_others)) sample_bufs) as H.
  { unfold sample_bufs at 2. repeat (apply map_Forall_insert_2; [by vm_compute|]). apply map_Forall_empty. }
  destruct (H i b Hb) as (? & ? & ? & ->). done.
Qed.

Lemma sample_fresh i : is_fresh sample_data i -> i = 5%positive.
Proof.
  intros [H|(c & Hc & Hi)]; [done|]. cbn [msgBufs sample_data] in Hc.
  apply elem_of_replicate_inv in Hc. subst. by apply elem_of_nil in Hi.
Qed.

Lemma sample_mq_ok : mq_ok sample_data sample_mq.
Proof.
  split_and!; [|by_decide|by vm_compute..].
  repeat constructor; (eexists; split; [by vm_compute|simpl; lia]).
Qed.

Lemma msgq_delete_drops_witness :
  pending sample_data sample_mq = drop 2 (lit "one" ++ crlf) ++ lit "pri" ++ crlf ++ lit "two" ++ crlf /\
  exists d' mq', msgq_delete sample_data sample_mq 5 = Some (d', mq') /\
    pending d' mq' = lit "i" ++ crlf ++ lit "two" ++ crlf.
Proof.
  split; [by vm_compute|].
  destruct (msgq_delete_drops sample_data sample_mq 5 sample_others sample_heap_ok sample_mq_ok)
    as (d' & mq' & E & _ & _ & _ & Hp & _). exists d', mq'. split; [done|]. by rewrite Hp.
Defined.

Lemma msgq_mapiov_prefix_witness :
  exists iov rest, msgq_mapiov sample_data sample_mq 2 = Some iov /\
    pending sample_data sample_mq = concat iov ++ rest /\ concat iov = lit "e" ++ crlf ++ lit "pri" ++ crlf.
Proof.
  destruct (msgq_mapiov_prefix sample_data sample_mq 2 sample_mq_ok) as (iov & rest & E & _ & Hp & _).
  exists iov, rest. split_and!; [done..|]. vm_compute in E. by injection E as <-.
Defined.

(** Msgq_add() keeps the queue well formed and changes the bytes left to send
    only by inserting the message: behind everything for a normal message, before
    the normal messages not yet begun for a priority one; the text of every
    other message stays. *)
Theorem msgq_add_inserts BUFFERPOOL d mq mb b prio :
  mq_ok d mq -> addable d mb b -> Forall (fun m => ~ is_fresh d (msg m)) (order mq) ->
  mq_length mq + mb_length b < 2 ^ 32 ->
  exists d' mq' before after, msgq_add BUFFERPOOL d mq mb prio = Some (d', mq') /\ mq_ok d' mq' /\
    pending d mq = before ++ after /\ pending d' mq' = before ++ mb_msg b ++ after /\
    after = if prio then concat (map (text d) (split_partial (mq_queue mq)).2) else [].
Proof.
  intros (Hok & Hz & Hlen & Hcnt) Hadd Hfr H32. unfold msgq_add.
  pose proof Hadd as (_ & Hb0 & Hb1 & Hbl & _). rewrite Hb0. cbn [mbind option_bind].
  rewrite (proj2 (Z.ltb_lt 0 (mb_ref b)) Hb1), (proj2 (Z.ltb_lt 0 (mb_length b))) by lia.
  cbn [andb negb].
  destruct (real_buf_spec BUFFERPOOL (take_msg d) mb b) as (d1 & r & t & -> & Ht & Hm & Heq).
  { by destruct d as [? ? ? [|?]]. }
  cbn [mbind option_bind]. rewrite Ht. cbn [mbind option_bind].
  set (d2 := set_buf _ _ _). set (new := {| sent := 0; msg := r |}).
  destruct (order_add mq prio new (u32 (mq_length mq + mb_length t)) (mq_count mq + 1) Hz eq_refl)
    as (a & c & Eo & Eo' & Hz' & Hc).
  assert (forall j, mb_msg <$> bufs d2 !! j = mb_msg <$> bufs d1 !! j) as H2.
  { intros j. unfold d2. simpl. destruct (decide (r = j)) as [<-|]; [|by rewrite lookup_insert_ne].
    by rewrite lookup_insert_eq, Ht. }
  assert (forall j, ~ is_fresh d j -> mb_msg <$> bufs d2 !! j = mb_msg <$> bufs d !! j) as H3.
  { intros j Hj. rewrite H2, Heq; [by destruct d as [? ? ? [|?]]|]. by destruct d as [? ? ? [|?]]. }
  assert (Forall (fun m => text d2 m = text d m /\ msg_ok d2 m) (order mq)) as Htext.
  { apply Forall_forall. intros m Hin. rewrite Forall_forall in Hfr, Hok.
    apply (same_text d d2 m); [by apply H3, Hfr|by apply Hok]. }
  assert (text d2 new = mb_msg b /\ msg_ok d2 new) as [Hnew Hnok].
  { unfold text, msg_ok, new, d2. cbn [msg sent set_buf bufs]. rewrite lookup_insert_eq.
    cbn [with_ref mb_msg]. rewrite Hm. split; [done|]. eexists. split; [done|].
    unfold mb_length in Hbl. cbn [with_ref mb_msg sent]. rewrite Hm. lia. }
  assert (concat (map (text d2) a) = concat (map (text d) a) /\
          concat (map (text d2) c) = concat (map (text d) c)) as [Ea Ec].
  { rewrite Eo in Htext. apply Forall_app in Htext as [Ha Hc'].
    split; f_equal; apply map_ext_Forall; eapply Forall_impl; try eassumption; by intros ? [? _]. }
  exists d2. eexists. exists (concat (map (text d) a)), (concat (map (text d) c)).
  split; [done|]. unfold mq_ok, pending in *. rewrite Eo' , mq_length_set, mq_count_set.
  rewrite Eo in *. rewrite !map_app, !concat_app in *. cbn [map concat]. rewrite Hnew, Ea, Ec.
  unfold mb_length in *. rewrite Hm in *. split; [split_and!|split_and!]; [| |..|done|done|].
  - apply Forall_app in Htext as [Ha Hc']. apply Forall_app. split; [|constructor; [done|]];
      eapply Forall_impl; try eassumption; by intros ? [_ ?].
  - done.
  - unfold u32. rewrite !length_app in *. rewrite Z.mod_small; lia.
  - rewrite !length_app in *. simpl. lia.
  - rewrite Hc. by destruct prio.
Qed.

Lemma msgq_add_inserts_witness :
  exists d' mq' before after, msgq_add 0 sample_data sample_mq 4%positive true = Some (d', mq') /\
    mq_ok d' mq' /\ pending d' mq' = before ++ (lit "new" ++ crlf) ++ after.
Proof.
  destruct (msgq_add_inserts 0 sample_data sample_mq 4%positive
    {| mb_real := None; mb_ref := 1; mb_power := 9; mb_msg := lit "new" ++ crlf |} true)
    as (d' & mq' & bf & af & E & Hok & _ & Hp & _).
  - apply sample_mq_ok.
  - split_and!; [done|done|done|by vm_compute|by vm_compute| |by left].
    intros H. by apply sample_fresh in H.
  - apply Forall_forall. intros m Hm Hf. apply sample_fresh in Hf.
    apply (proj1 (Forall_forall (fun m => msg m <> 5%positive) (order sample_mq))) in Hm;
      [done|by_decide].
  - by vm_compute.
  - by exists d', mq', bf, af.
Defined.

(** For a message of 1 to 512 bytes msgq_alloc() asks for the smallest power
    of two from 32 to 512 that holds it; a message made by msgq_vmake(), and one
    of at least a byte extended by msgq_append(), whose assertions then hold, is its text cut to 510 bytes followed by one line
    end, so it always fits a buffer of BUFSIZE bytes. *)
Theorem msgq_make_bounds BUFFERPOOL FERGUSON flush kill d text1 text2 d' i :
  (forall d, length (msgBufs d) = 5%nat -> length (msgBufs (flush d)) = 5%nat) ->
  (forall b d, length (msgBufs d) = 5%nat -> length (msgBufs (kill b d)) = 5%nat) ->
  length (msgBufs d) = 5%nat -> text1 <> [] ->
  msgq_vmake BUFFERPOOL FERGUSON flush kill d text1 = Some (d', Some i) ->
  (forall len, 1 <= len <= 512 -> let p := msg_power len in
     5 <= p <= 9 /\ len <= 2 ^ p /\ (5 < p -> 2 ^ (p - 1) < len)) /\
  exists b, bufs d' !! i = Some b /\ mb_msg b = take 510 text1 ++ crlf /\
    exists d'' b', msgq_append d' i text2 = Some d'' /\ bufs d'' !! i = Some b' /\
      mb_msg b' = take 510 (take 510 text1 ++ text2) ++ crlf /\ 0 <= msgq_bufleft b' < 512.
Proof.
  intros Hf Hk H5 Hne H. split; [intros len Hl; by apply msg_power_spec|].
  unfold msgq_vmake in H. destruct (vmake_alloc _ _ _ _ d) as [[d1 [j|]]|] eqn:E; [| |done].
  2:{ done. }
  destruct (vmake_alloc_power _ _ _ _ _ _ _ Hf Hk H5 E) as (t & Ht & Hp & Hreal).
  cbn [mbind option_bind] in H. rewrite Ht in H. cbn [mbind option_bind] in H. injection H as <- <-.
  assert (bufsize t = 512) as Hs by (unfold bufsize; by rewrite Hp).
  eexists. cbn [set_list set_buf bufs]. rewrite lookup_insert_eq. split; [done|].
  cbn [with_msg mb_msg]. unfold clamp at 1. rewrite Hs. change (Z.to_nat (512 - 2)) with 510%nat.
  split; [done|]. unfold msgq_append. cbn [set_list set_buf bufs]. rewrite lookup_insert_eq.
  cbn [mbind option_bind]. set (bt := with_msg t _).
  assert (bool_decide (mb_real bt = None) && (2 <? mb_length bt) && (mb_length bt <=? bufsize bt) = true)
    as ->.
  { change (bufsize bt) with (bufsize t). rewrite Hs, bool_decide_true by done.
    unfold mb_length, bt, clamp. cbn [mb_msg with_msg]. rewrite ?Hs. change (Z.to_nat (512 - 2)) with 510%nat.
    rewrite length_app, length_take. change (length crlf) with 2%nat.
    destruct text1; [done|]. cbn [length andb]. apply andb_true_iff. rewrite Z.ltb_lt, Z.leb_le. lia. }
  cbn [negb]. eexists _, _. split; [done|]. unfold bt.
  cbn [set_buf bufs]. rewrite lookup_insert_eq. split; [done|].
  unfold bufsize in *. cbn [mb_power with_msg mb_msg]. unfold clamp, msgq_bufleft, bufsize, mb_length.
  cbn [mb_power with_msg mb_msg]. rewrite Hs. change (Z.to_nat (512 - 2)) with 510%nat.
  set (u := take 510 text1).
  assert (take (length (u ++ crlf) - 2) (u ++ crlf) = u) as ->.
  { rewrite length_app. change (length crlf) with 2%nat. rewrite Nat.add_sub. apply take_app_length. }
  split; [done|]. rewrite length_app, length_take. change (length crlf) with 2%nat. lia.
Qed.

Lemma msgq_make_bounds_witness :
  exists d' i b, msgq_vmake 4096 true id (fun _ => id) sample_data (lit "hello") = Some (d', Some i) /\
    bufs d' !! i = Some b /\ mb_msg b = lit "hello" ++ crlf.
Proof.
  destruct (msgq_vmake 4096 true id (fun _ => id) sample_data (lit "hello")) as [[d' [i|]]|] eqn:E;
    [|by vm_compute in E..].
  destruct (msgq_make_bounds 4096 true id (fun _ => id) sample_data (lit "hello") [] d' i)
    as (_ & b & Hb & Hm & _); [done..|]. by exists d', i, b.
Defined.
