(* ===== verification/NameTable.v ===== *)
(** * The interface of the tables of named entries

    What include/hash.h promises to the code that keeps entries by name: an
    entry is added, removed and searched for by its name, in any case.  [name]
    gives the name of an entry as it is in memory at the time of the call. *)
From S2P Require Import Prelude Chattr.

(** Entries are known by their address. *)
Abbreviation entry_id := positive.

Class NameTable (T : Type) := {
  nt_add : (entry_id -> list Z) -> T -> entry_id -> option T;
  nt_rem : (entry_id -> list Z) -> T -> entry_id -> option (T * Z);
  nt_seek : (entry_id -> list Z) -> T -> list Z -> option (T * option entry_id);
  (** The table is well formed under the names; an entry is in it. *)
  nt_ok : (entry_id -> list Z) -> T -> Prop;
  nt_mem : T -> entry_id -> Prop }.

(** A name that can be hashed. *)
Definition nameable (n : list Z) : Prop := cstring n /\ n <> [].

#[export] Instance nameable_dec n : Decision (nameable n).
Proof. unfold nameable. apply _. Defined.

Class NameTableLaws (T : Type) `{NameTable T} := {
  nt_ext f g t : nt_ok f t -> (forall x, nt_mem t x -> f x = g x) -> nt_ok g t;
  nt_add_ok f t c : nt_ok f t -> nameable (f c) -> ~ nt_mem t c ->
    exists t', nt_add f t c = Some t' /\ nt_ok f t' /\ forall x, nt_mem t' x <-> x = c \/ nt_mem t x;
  nt_rem_ok f t c : nt_ok f t -> nt_mem t c ->
    exists t', nt_rem f t c = Some (t', 0) /\ nt_ok f t' /\ forall x, nt_mem t' x <-> x <> c /\ nt_mem t x;
  nt_seek_ok f t n : nt_ok f t -> nameable n ->
    exists t' o, nt_seek f t n = Some (t', o) /\ nt_ok f t' /\ (forall x, nt_mem t' x <-> nt_mem t x) /\
    match o with
    | Some x => nt_mem t x /\ lower n = lower (f x)
    | None => forall x, nt_mem t x -> lower n <> lower (f x)
    end }.
