(* ===== verification/Hash.v ===== *)
(** * ircd/hash.c: the hash tables of clients, channels, watches and nick jupes

    A bucket is the list of the entries chained by [hnext]; entries are
    identifiers whose names are looked up through a function. *)
From S2P Require Import Prelude Chattr NumText IrcdString NameTable.

Definition HASHSIZE : Z := 32000.

(** ** The hash function *)

(** One bit of the CRC-32 table computation. *)
Definition crc_bit (rnd : Z) : Z :=
  if Z.odd rnd then Z.lxor 3988292384 (Z.shiftr rnd 1) else Z.shiftr rnd 1.

Definition crc_entry (ii : Z) : Z := Nat.iter 8 crc_bit ii.

Definition crc_table : list Z := map (fun i => crc_entry (Z.of_nat i)) (seq 0 256).

Definition swap (t : list Z) (i j : nat) : list Z := <[j := nth i t 0]> (<[i := nth j t 0]> t).

Section Init.
(** The k-th number ircrandom() returns. *)
Variable ircrandom : nat -> Z.

(** The reordering loop: the table, [rnd] and the random numbers used. *)
Fixpoint reorder (n : nat) (ii : nat) (crc32hash : list Z) (rnd : Z) (k : nat) : list Z :=
  match n with
  | O => crc32hash
  | S n =>
      let (rnd, k) := if rnd =? 0 then (u32 (ircrandom k), S k) else (rnd, k) in
      let poly := Z.of_nat ii + rnd mod (256 - Z.of_nat ii) in
      reorder n (S ii) (swap crc32hash ii (Z.to_nat poly)) (Z.shiftr rnd 8) k
  end.

Definition init_hash : list Z := reorder 256 0 crc_table 0 0.
End Init.

(** Entries, and a table as the list of its chains. *)
Definition id := positive.
Abbreviation table := (list (list id)).

Section Table.
(** The table init_hash() made. *)
Variable crc32hash : list Z.

Definition crc (i : Z) : Z := nth (Z.to_nat (Z.land i 255)) crc32hash 0.

Definition hash_step (hash c : Z) : Z :=
  Z.lxor (Z.shiftr hash 8) (crc (Z.lxor hash (ToLower c))).

(** strhash(); the empty name reads behind the terminator. *)
Definition strhash (n : list Z) : option Z :=
  match n with
  | [] => None
  | c :: r => Some (foldl hash_step (crc (ToLower c)) r mod HASHSIZE)
  end.

(** ** Chained tables *)
Definition bucket (t : table) (h : Z) : list id := nth (Z.to_nat h) t [].

Definition set_bucket (t : table) (h : Z) (l : list id) : table := <[Z.to_nat h := l]> t.

(** Unlinks an entry from its chain; [None] when the chain ends first. *)
Fixpoint unlink (c : id) (l : list id) : option (list id) :=
  match l with
  | [] => None
  | x :: r => if decide (x = c) then Some r else r' ← unlink c r; Some (x :: r')
  end.

(** The search of the hSeek functions: the match and the rest of the chain. *)
Fixpoint seek (p : id -> bool) (l : list id) : option (id * list id) :=
  match l with
  | [] => None
  | x :: r =>
      if p x then Some (x, r)
      else match seek p r with
           | Some (y, r') => Some (y, x :: r')
           | None => None
           end
  end.

Section Clients.
Variable cli_name : id -> list Z.
Variable cli_status : id -> Z.

Definition hAddClient (t : table) (cptr : id) : option table :=
  h ← strhash (cli_name cptr); Some (set_bucket t h (cptr :: bucket t h)).

(** The table and the value returned, 0 or -1. *)
Definition hRemClient (t : table) (cptr : id) : option (table * Z) :=
  h ← strhash (cli_name cptr);
  match unlink cptr (bucket t h) with
  | Some l => Some (set_bucket t h l, 0)
  | None => Some (t, -1)
  end.

(** hChangeClient(): the client's name is still the old one. *)
Definition hChangeClient (t : table) (cptr : id) (newname : list Z) : option table :=
  newhash ← strhash newname;
  '(t, _) ← hRemClient t cptr;
  Some (set_bucket t newhash (cptr :: bucket t newhash)).

Definition client_matches (name : list Z) (TMask : Z) (c : id) : bool :=
  has_bits (cli_status c) TMask && (ircd_strcmp name (cli_name c) =? 0).

(** hSeekClient(): the entry found moves to the top of its chain. *)
Definition hSeekClient (t : table) (name : list Z) (TMask : Z) : option (table * option id) :=
  h ← strhash name;
  match seek (client_matches name TMask) (bucket t h) with
  | Some (c, r) => Some (set_bucket t h (c :: r), Some c)
  | None => Some (t, None)
  end.
End Clients.

Section Channels.
Variable chname : id -> list Z.

Definition hAddChannel (t : table) (chptr : id) : option table :=
  h ← strhash (chname chptr); Some (set_bucket t h (chptr :: bucket t h)).

Definition hRemChannel (t : table) (chptr : id) : option (table * Z) :=
  h ← strhash (chname chptr);
  match unlink chptr (bucket t h) with
  | Some l => Some (set_bucket t h l, 0)
  | None => Some (t, -1)
  end.

Definition hSeekChannel (t : table) (name : list Z) : option (table * option id) :=
  h ← strhash name;
  match seek (fun c => ircd_strcmp name (chname c) =? 0) (bucket t h) with
  | Some (c, r) => Some (set_bucket t h (c :: r), Some c)
  | None => Some (t, None)
  end.
End Channels.

Section Watches.
Variable wt_nick : id -> list Z.

Definition hAddWatch (t : table) (wptr : id) : option table :=
  h ← strhash (wt_nick wptr); Some (set_bucket t h (wptr :: bucket t h)).

Definition hRemWatch (t : table) (wptr : id) : option (table * Z) :=
  h ← strhash (wt_nick wptr);
  match unlink wptr (bucket t h) with
  | Some l => Some (set_bucket t h l, 0)
  | None => Some (t, -1)
  end.

Definition hSeekWatch (t : table) (nick : list Z) : option (table * option id) :=
  h ← strhash nick;
  match seek (fun w => ircd_strcmp nick (wt_nick w) =? 0) (bucket t h) with
  | Some (w, r) => Some (set_bucket t h (w :: r), Some w)
  | None => Some (t, None)
  end.
End Watches.

(** m_hash() of one table: buckets in use, entries and the longest chain. *)
Definition table_stats (t : table) : Z * Z * Z :=
  foldl (fun '(buckets, count, max_chain) cl =>
    match cl with
    | [] => (buckets, count, max_chain)
    | _ => let len := Z.of_nat (length cl) in
           (buckets + 1, count + len, if max_chain <? len then len else max_chain)
    end) (0, 0, 0) t.

(** ** Nick jupes *)
Definition JUPEHASHBITS : Z := 12.
Definition JUPEHASHSIZE : Z := Z.shiftl 1 JUPEHASHBITS.
Definition JUPEHASHMASK : Z := JUPEHASHSIZE - 1.
Definition JUPEMAX : Z := Z.shiftl 1 (JUPEHASHBITS - 6).

Record jupes := { jupeTable : list (list Z); jupesCount : Z }.

Definition jupe_at (t : list (list Z)) (pos : Z) : list Z := nth (Z.to_nat pos) t [].

Inductive probe_result := Found (pos : Z) | Empty (pos : Z).

(** The search both jupe functions make from the hash value on; [None] after a
    full turn. *)
Fixpoint probe (fuel : nat) (t : list (list Z)) (pos : Z) (nick : list Z) : option probe_result :=
  match fuel with
  | O => None
  | S fuel =>
      let pos := Z.land pos JUPEHASHMASK in
      match jupe_at t pos with
      | [] => Some (Empty pos)
      | j => if ircd_strcmp nick j =? 0 then Some (Found pos) else probe fuel t (pos + 1) nick
      end
  end.

(** The jupe functions with [fuel] probes; a full turn of the table is 4096. *)
Definition is_juped (fuel : nat) (j : jupes) (nick : list Z) : option bool :=
  match nick with
  | [] => Some false
  | _ =>
      pos ← strhash nick; r ← probe fuel (jupeTable j) pos nick;
      Some (match r with Found _ => true | Empty _ => false end)
  end.

(** The loop of addNickJupes() over the names; the flag tells that the table was
    full. *)
Fixpoint add_jupes (fuel : nat) (j : jupes) (names : list (list Z)) : option (jupes * bool) :=
  match names with
  | [] => Some (j, false)
  | one :: names =>
      pos ← strhash one; r ← probe fuel (jupeTable j) pos one;
      match r with
      | Found _ => add_jupes fuel j names
      | Empty pos =>
          if jupesCount j =? JUPEMAX then Some (j, true)
          else add_jupes fuel {| jupeTable := <[Z.to_nat pos := take NICKLEN one]> (jupeTable j);
                                 jupesCount := jupesCount j + 1 |} names
      end
  end.

Definition isNickJuped (j : jupes) (nick : list Z) : option bool :=
  is_juped (Z.to_nat JUPEHASHSIZE) j nick.

Definition addNickJupes (j : jupes) (nicks : list Z) : option (jupes * bool) :=
  add_jupes (Z.to_nat JUPEHASHSIZE) j (tokens (take BUFSIZE nicks) comma).

Definition clearNickJupes (j : jupes) : jupes :=
  {| jupeTable := map (fun _ => []) (jupeTable j); jupesCount := 0 |}.

(** The names stats_nickjupes() reports. *)
Definition jupe_list (j : jupes) : list (list Z) :=
  filter (fun n => n <> []) (jupeTable j).
End Table.

(** ** Lemmas: the hash function *)
Lemma swap_perm t i j :
  (i < length t)%nat -> (j < length t)%nat -> swap t i j ≡ₚ t.
Proof.
  intros Hi Hj. unfold swap. apply lookup_lt_is_Some_2 in Hi as [x Hx].
  apply lookup_lt_is_Some_2 in Hj as [y Hy].
  rewrite (nth_lookup_Some t i 0 x Hx), (nth_lookup_Some t j 0 y Hy).
  destruct (decide (i = j)) as [->|n].
  - assert (y = x) as -> by congruence. by rewrite list_insert_insert_eq, list_insert_id.
  - by apply Permutation_insert_swap.
Qed.

Lemma swap_length t i j : length (swap t i j) = length t.
Proof. unfold swap. by rewrite !length_insert. Qed.

Lemma u32_range z : 0 <= u32 z < 2 ^ 32.
Proof. apply Z.mod_pos_bound. lia. Qed.

Lemma reorder_perm ircrandom n ii t rnd k :
  length t = 256%nat -> (ii + n <= 256)%nat -> 0 <= rnd -> reorder ircrandom n ii t rnd k ≡ₚ t.
Proof.
  revert ii t rnd k; induction n as [|n IH]; intros ii t rnd k Hl Hn Hr; [done|].
  cbn [reorder].
  assert (forall r k', 0 <= r -> reorder ircrandom n (S ii)
    (swap t ii (Z.to_nat (Z.of_nat ii + r mod (256 - Z.of_nat ii)))) (Z.shiftr r 8) k' ≡ₚ t) as H.
  { intros r k' Hr'. pose proof (Z.mod_pos_bound r (256 - Z.of_nat ii) ltac:(lia)).
    rewrite IH; [|by rewrite swap_length|lia|by apply Z.shiftr_nonneg].
    apply swap_perm; lia. }
  destruct (rnd =? 0); apply H; [apply u32_range|done].
Qed.

(** ** Lemmas: chains *)
Lemma bucket_set t h l h' :
  0 <= h < Z.of_nat (length t) -> 0 <= h' ->
  bucket (set_bucket t h l) h' = if h =? h' then l else bucket t h'.
Proof.
  intros Hh Hh'. unfold bucket, set_bucket. rewrite !nth_lookup.
  destruct (h =? h') eqn:E; bprop.
  - subst. by rewrite list_lookup_insert_eq by lia.
  - by rewrite list_lookup_insert_ne by lia.
Qed.

Lemma unlink_spec c l :
  match unlink c l with
  | Some l' => l ≡ₚ c :: l'
  | None => c ∉ l
  end.
Proof.
  induction l as [|x l IH]; simpl; [apply not_elem_of_nil|]. case_decide as E; [by subst|].
  destruct (unlink c l) as [l'|]; simpl.
  - rewrite IH. apply perm_swap.
  - rewrite not_elem_of_cons. auto.
Qed.

Lemma seek_spec p l :
  match seek p l with
  | Some (c, l') => l ≡ₚ c :: l' /\ p c = true
  | None => forall c, c ∈ l -> p c = false
  end.
Proof.
  induction l as [|x l IH]; simpl; [by intros c ?%not_elem_of_nil|].
  destruct (p x) eqn:E; [done|]. destruct (seek p l) as [[c l']|].
  - destruct IH as [IH Hc]. split; [|done]. rewrite IH. apply perm_swap.
  - intros c [->|Hc]%elem_of_cons; auto.
Qed.

Section Laws.
Context (crc32hash : list Z) (name : id -> list Z).

(** Every entry is in the chain of its name's hash value, once. *)
Definition table_ok (t : table) : Prop :=
  Z.of_nat (length t) = HASHSIZE /\
  forall h, 0 <= h < HASHSIZE -> NoDup (bucket t h) /\
    forall c, c ∈ bucket t h -> strhash crc32hash (name c) = Some h.

Definition in_table (t : table) (c : id) : Prop := exists h, 0 <= h < HASHSIZE /\ c ∈ bucket t h.

Lemma strhash_some n : n <> [] -> exists h, strhash crc32hash n = Some h /\ 0 <= h < HASHSIZE.
Proof.
  destruct n as [|c r]; [done|]. intros _. eexists. split; [done|]. by apply Z.mod_pos_bound.
Qed.

Lemma in_table_bucket t c h :
  table_ok t -> strhash crc32hash (name c) = Some h -> in_table t c -> c ∈ bucket t h.
Proof.
  intros [_ Hok] Hh (h' & Hr & Hc). destruct (Hok h' Hr) as [_ H]. specialize (H c Hc). congruence.
Qed.

(** Replacing one chain by another of entries with the same hash value. *)
Lemma table_set_ok t h l :
  table_ok t -> 0 <= h < HASHSIZE -> NoDup l ->
  (forall c, c ∈ l -> strhash crc32hash (name c) = Some h) -> table_ok (set_bucket t h l).
Proof.
  intros [Hl Hok] Hh Hn Hc. split; [unfold set_bucket; by rewrite length_insert|].
  intros h' Hh'. rewrite bucket_set by lia. destruct (h =? h') eqn:E; bprop; [by subst|by apply Hok].
Qed.

Lemma in_set t h l c :
  table_ok t -> 0 <= h < HASHSIZE ->
  (forall x, x ∈ l -> strhash crc32hash (name x) = Some h) ->
  strhash crc32hash (name c) = Some h -> in_table (set_bucket t h l) c <-> c ∈ l.
Proof.
  intros [Hl Hok] Hh Hlh Hc. split.
  - intros (h' & Hr & Hin). rewrite bucket_set in Hin by lia.
    destruct (h =? h') eqn:E; bprop; [done|]. destruct (Hok h' Hr) as [_ H]. specialize (H c Hin).
    congruence.
  - intros Hin. exists h. rewrite bucket_set by lia. by rewrite Z.eqb_refl.
Qed.

Lemma in_set_ne t h l c :
  table_ok t -> 0 <= h < HASHSIZE ->
  (forall x, x ∈ l -> strhash crc32hash (name x) = Some h) ->
  strhash crc32hash (name c) <> Some h -> in_table (set_bucket t h l) c <-> in_table t c.
Proof.
  intros [Hl Hok] Hh Hlh Hc. split; intros (h' & Hr & Hin); exists h'; (split; [done|]).
  - rewrite bucket_set in Hin by lia. destruct (h =? h'); [by apply Hlh in Hin|done].
  - rewrite bucket_set by lia. destruct (h =? h') eqn:E; bprop; [|done]. subst.
    by apply (Hok h' Hr) in Hin.
Qed.

(** The members after a chain is replaced. *)
Lemma in_set_iff t h l (P : id -> Prop) :
  table_ok t -> 0 <= h < HASHSIZE ->
  (forall x, x ∈ l -> strhash crc32hash (name x) = Some h) ->
  (forall x, strhash crc32hash (name x) = Some h -> x ∈ l <-> P x) ->
  (forall x, strhash crc32hash (name x) <> Some h -> in_table t x <-> P x) ->
  forall x, in_table (set_bucket t h l) x <-> P x.
Proof.
  intros Hok Hh Hlh H1 H2 x. destruct (decide (strhash crc32hash (name x) = Some h)) as [E|E].
  - rewrite in_set by done. by apply H1.
  - rewrite in_set_ne by done. by apply H2.
Qed.

Lemma in_table_iff t c h :
  table_ok t -> strhash crc32hash (name c) = Some h -> 0 <= h < HASHSIZE ->
  in_table t c <-> c ∈ bucket t h.
Proof. intros Hok Hc Hh. split; [by apply in_table_bucket|]. intros. by exists h. Qed.

Lemma table_add_ok t c h :
  table_ok t -> strhash crc32hash (name c) = Some h -> 0 <= h < HASHSIZE -> ~ in_table t c ->
  let t' := set_bucket t h (c :: bucket t h) in
  table_ok t' /\ forall x, in_table t' x <-> x = c \/ in_table t x.
Proof.
  intros Hok Hc Hh Hnot t'. pose proof (proj2 Hok h Hh) as [Hn Hb].
  assert (forall x, x ∈ c :: bucket t h -> strhash crc32hash (name x) = Some h) as Hall
    by (intros x [->|Hx]%elem_of_cons; auto).
  split.
  - apply table_set_ok; [done..| |done]. constructor; [|done]. intros Hin. apply Hnot. by exists h.
  - apply in_set_iff; [done..| |].
    + intros x Hx. rewrite elem_of_cons, (in_table_iff t x h) by done. done.
    + intros x Hx. split; [by right|]. intros [->|H]; done.
Qed.

Lemma table_rem_ok t c h :
  table_ok t -> strhash crc32hash (name c) = Some h -> 0 <= h < HASHSIZE ->
  match unlink c (bucket t h) with
  | Some l => in_table t c /\ table_ok (set_bucket t h l) /\
      forall x, in_table (set_bucket t h l) x <-> x <> c /\ in_table t x
  | None => ~ in_table t c
  end.
Proof.
  intros Hok Hc Hh. pose proof (proj2 Hok h Hh) as [Hn Hb]. pose proof (unlink_spec c (bucket t h)) as Hu.
  destruct (unlink c (bucket t h)) as [l|].
  2:{ by rewrite (in_table_iff t c h). }
  rewrite Hu in Hn. apply NoDup_cons in Hn as [Hcl Hn].
  assert (forall x, x ∈ l -> strhash crc32hash (name x) = Some h) as Hall.
  { intros x Hx. apply Hb. rewrite Hu. by right. }
  split_and!.
  - rewrite (in_table_iff t c h) by done. rewrite Hu. by left.
  - by apply table_set_ok.
  - apply in_set_iff; [done..| |].
    + intros x Hx. rewrite (in_table_iff t x h), Hu, elem_of_cons by done.
      split; [intros Hin; split; [by intros ->|by right]|]. intros [? [?|?]]; done.
    + intros x Hx. split; [|tauto]. intros H. split; [by intros ->|done].
Qed.

Lemma table_seek_ok t p h :
  table_ok t -> 0 <= h < HASHSIZE ->
  (forall c, p c = true -> in_table t c -> strhash crc32hash (name c) = Some h) ->
  match seek p (bucket t h) with
  | Some (c, l) => in_table t c /\ p c = true /\ table_ok (set_bucket t h (c :: l)) /\
      forall x, in_table (set_bucket t h (c :: l)) x <-> in_table t x
  | None => forall c, in_table t c -> p c = false
  end.
Proof.
  intros Hok Hh Hp. pose proof (proj2 Hok h Hh) as [Hn Hb]. pose proof (seek_spec p (bucket t h)) as Hs.
  destruct (seek p (bucket t h)) as [[c l]|].
  - destruct Hs as [Hs Hpc]. rewrite Hs in Hn.
    assert (forall x, x ∈ c :: l -> strhash crc32hash (name x) = Some h) as Hall.
    { intros x Hx. apply Hb. by rewrite Hs. }
    assert (c ∈ bucket t h) as Hc by (rewrite Hs; by left).
    split_and!; [by exists h|done|by apply table_set_ok|].
    apply in_set_iff; [done..| |done]. intros x Hx. rewrite (in_table_iff t x h) by done. by rewrite Hs.
  - intros c Hin. destruct (p c) eqn:E; [|done]. rewrite <- E. apply Hs.
    eapply in_table_bucket; [done| |done]. by apply Hp.
Qed.
End Laws.

Lemma lower_nonempty a b : lower a = lower b -> b <> [] -> a <> [].
Proof. intros H Hb ->. by destruct b. Qed.

Lemma hash_fold_lower crc32hash a b i :
  lower a = lower b ->
  foldl (hash_step crc32hash) i a = foldl (hash_step crc32hash) i b.
Proof.
  revert b i; induction a as [|x a IH]; intros [|y b] i H; try done.
  injection H as H1 H2. cbn [foldl]. rewrite (IH b) by done. f_equal. unfold hash_step. by rewrite H1.
Qed.

Lemma strhash_lower crc32hash a b :
  lower a = lower b -> strhash crc32hash a = strhash crc32hash b.
Proof.
  intros H. destruct a as [|x a], b as [|y b]; try done. injection H as H1 H2.
  unfold strhash. rewrite H1. by rewrite (hash_fold_lower _ a b).
Qed.

(** ** Lemmas: nick jupes *)
Lemma jupe_land pos : Z.land pos JUPEHASHMASK = pos mod 4096.
Proof. change JUPEHASHMASK with (Z.ones 12). rewrite Z.land_ones by lia. done. Qed.

(** Where the i-th step of a probe looks. *)
Definition jpos (pos : Z) (i : nat) : Z := (pos + Z.of_nat i) mod 4096.

Lemma jpos_S pos i : jpos (pos mod 4096 + 1) i = jpos pos (S i).
Proof.
  unfold jpos. rewrite <- Z.add_assoc, Zplus_mod_idemp_l. f_equal. lia.
Qed.


Lemma jupe_at_insert t p n q :
  0 <= p < Z.of_nat (length t) -> 0 <= q ->
  jupe_at (<[Z.to_nat p := n]> t) q = if p =? q then n else jupe_at t q.
Proof.
  intros Hp Hq. unfold jupe_at. rewrite !nth_lookup. destruct (p =? q) eqn:E; bprop.
  - subst. by rewrite list_lookup_insert_eq by lia.
  - by rewrite list_lookup_insert_ne by lia.
Qed.

Lemma probe_S fuel t pos nick :
  probe (S fuel) t pos nick =
    let p := pos mod 4096 in
    match jupe_at t p with
    | [] => Some (Empty p)
    | j => if ircd_strcmp nick j =? 0 then Some (Found p) else probe fuel t (p + 1) nick
    end.
Proof. cbn [probe]. by rewrite jupe_land. Qed.

Lemma probe_result_spec fuel t pos nick :
  match probe fuel t pos nick with
  | Some (Found q) => 0 <= q < 4096 /\ jupe_at t q <> [] /\ ircd_strcmp nick (jupe_at t q) = 0
  | Some (Empty q) => 0 <= q < 4096 /\ jupe_at t q = []
  | None => forall i, (i < fuel)%nat -> jupe_at t (jpos pos i) <> []
  end.
Proof.
  revert pos; induction fuel as [|fuel IH]; intros pos; [simpl; lia|]. rewrite probe_S. cbv zeta.
  pose proof (Z.mod_pos_bound pos 4096 ltac:(lia)). destruct (jupe_at t (pos mod 4096)) as [|x j] eqn:E; [done|].
  destruct (_ =? 0) eqn:Ec; bprop; [by rewrite E|]. specialize (IH (pos mod 4096 + 1)).
  destruct (probe fuel t (pos mod 4096 + 1) nick) as [[q|q]|]; [done..|].
  intros [|i] Hi; [|rewrite <- jpos_S; apply IH; lia]. unfold jpos. rewrite Z.add_0_r. by rewrite E.
Qed.

(** Filling an empty cell keeps the results of the searches that stop before, and
    makes the search that stopped there successful. *)
Lemma probe_insert fuel t pos nick p m :
  0 <= p < Z.of_nat (length t) -> jupe_at t p = [] -> m <> [] ->
  match probe fuel t pos nick with
  | Some (Found q) => probe fuel (<[Z.to_nat p := m]> t) pos nick = Some (Found q)
  | Some (Empty q) => q = p -> ircd_strcmp nick m = 0 ->
      probe fuel (<[Z.to_nat p := m]> t) pos nick = Some (Found p)
  | None => True
  end.
Proof.
  intros Hp He Hm. revert pos; induction fuel as [|fuel IH]; intros pos; [done|].
  rewrite !probe_S. cbv zeta. pose proof (Z.mod_pos_bound pos 4096 ltac:(lia)).
  rewrite jupe_at_insert by lia. destruct (p =? pos mod 4096) eqn:E; bprop.
  - rewrite <- E, He. intros _ Hc. destruct m; [done|]. by rewrite Hc.
  - destruct (jupe_at t (pos mod 4096)) as [|x j] eqn:Ej; [by intros <-|].
    destruct (_ =? 0); [done|]. apply IH.
Qed.

Lemma probe_lower fuel t pos a b :
  Forall cstring t -> cstring a -> cstring b -> lower a = lower b ->
  probe fuel t pos a = probe fuel t pos b.
Proof.
  intros Ht Ha Hb Hab. revert pos; induction fuel as [|fuel IH]; intros pos; [done|].
  rewrite !probe_S. cbv zeta. destruct (jupe_at t (pos mod 4096)) as [|x j] eqn:E; [done|].
  rewrite (IH (pos mod 4096 + 1)). assert (cstring (x :: j)) as Hj.
  { rewrite <- E. unfold jupe_at. destruct (nth_in_or_default (Z.to_nat (pos mod 4096)) t []) as [Hin| ->];
      [|constructor]. rewrite Forall_forall in Ht. by apply Ht, list_elem_of_In. }
  assert ((ircd_strcmp a (x :: j) =? 0) = (ircd_strcmp b (x :: j) =? 0)) as ->; [|done].
  apply eq_true_iff_eq. rewrite !Z.eqb_eq, !strcmp_0 by done. by rewrite Hab.
Qed.

Definition used_cells (t : list (list Z)) : list (list Z) := filter (fun n => n <> []) t.

Lemma empty_cell t :
  length t = Z.to_nat 4096 -> (length (used_cells t) < Z.to_nat 4096)%nat ->
  exists p, 0 <= p < 4096 /\ jupe_at t p = [].
Proof.
  intros Hl Hu. assert (exists i : nat, t !! i = Some []) as [i Hi].
  { apply list_elem_of_lookup. destruct (decide ([] ∈ t)) as [|Hn]; [done|]. exfalso.
    assert (used_cells t = t) as E; [|rewrite E in Hu; lia].
    unfold used_cells. clear -Hn. induction t as [|x t IH]; [done|].
    apply not_elem_of_cons in Hn as [H1 H2]. rewrite filter_cons_True by done. by rewrite IH. }
  exists (Z.of_nat i). pose proof (lookup_lt_Some _ _ _ Hi). split; [lia|].
  unfold jupe_at. by rewrite Nat2Z.id, nth_lookup, Hi.
Qed.

Lemma used_insert t p m :
  t !! p = Some [] -> m <> [] -> length (used_cells (<[p := m]> t)) = S (length (used_cells t)).
Proof.
  intros Hp Hm. pose proof (lookup_lt_Some _ _ _ Hp). unfold used_cells.
  rewrite insert_take_drop by done. rewrite <- (take_drop_middle t p [] Hp) at 3.
  rewrite !filter_app, filter_cons_True, filter_cons_False by auto.
  rewrite !length_app. simpl. lia.
Qed.

Section Jupes.
Context (crc32hash : list Z) (fuel : nat) (fuel_ok : Z.of_nat fuel = 4096).

#[local] Abbreviation strhash := (strhash crc32hash).
#[local] Abbreviation is_juped := (is_juped crc32hash).
#[local] Abbreviation add_jupes := (add_jupes crc32hash).

(** At most JUPEMAX names, counted, each found by its own search. *)
Definition jupes_ok (j : jupes) : Prop :=
  length (jupeTable j) = Z.to_nat 4096 /\
  jupesCount j = Z.of_nat (length (used_cells (jupeTable j))) /\ jupesCount j <= JUPEMAX /\
  Forall cstring (jupeTable j) /\
  forall n h, n ∈ jupeTable j -> strhash n = Some h ->
    exists q, probe fuel (jupeTable j) h n = Some (Found q).

Definition juped (j : jupes) (n : list Z) : Prop :=
  exists m, m ∈ jupeTable j /\ m <> [] /\ lower m = lower n.

Lemma strhash_lower' a b : lower a = lower b -> strhash a = strhash b.
Proof. apply strhash_lower. Qed.

Lemma probe_total j pos n :
  jupes_ok j -> exists r, probe fuel (jupeTable j) pos n = Some r.
Proof.
  intros (Hl & Hc & Hm & _). destruct (empty_cell (jupeTable j)) as (p & Hp & He); [done| |].
  { change JUPEMAX with 64 in Hm. lia. }
  pose proof (probe_result_spec fuel (jupeTable j) pos n) as Hs.
  destruct (probe fuel (jupeTable j) pos n) as [r|]; [by exists r|]. exfalso.
  pose proof (Z.mod_pos_bound (p - pos) 4096 ltac:(lia)).
  apply (Hs (Z.to_nat ((p - pos) mod 4096))); [lia|]. rewrite <- He. f_equal.
  unfold jpos. rewrite Z2Nat.id by lia. rewrite Zplus_mod_idemp_r.
  replace (pos + (p - pos)) with p by lia. by apply Z.mod_small.
Qed.

Lemma is_juped_spec j n :
  jupes_ok j -> cstring n -> n <> [] ->
  exists b, is_juped fuel j n = Some b /\ (b = true <-> juped j n).
Proof.
  intros Hok Hn Hne. destruct (strhash_some crc32hash n Hne) as (h & Hh & _).
  destruct (probe_total j h n Hok) as [r Hr]. unfold Hash.is_juped.
  destruct n as [|x n0] eqn:En; [done|]. rewrite <- En in *. rewrite Hh. cbn [mbind option_bind].
  rewrite Hr. cbn [mbind option_bind]. eexists. split; [done|].
  destruct Hok as (Hl & _ & _ & Hcs & Hfound).
  pose proof (probe_result_spec fuel (jupeTable j) h n) as Hs. rewrite Hr in Hs.
  assert (forall q, jupe_at (jupeTable j) q <> [] -> jupe_at (jupeTable j) q ∈ jupeTable j) as Hin.
  { intros q Hq. unfold jupe_at in *. destruct (nth_in_or_default (Z.to_nat q) (jupeTable j) []) as [H|H];
      [by apply list_elem_of_In|done]. }
  destruct r as [q|q].
  - split; [|done]. intros _. destruct Hs as (_ & Hq & Hc). exists (jupe_at (jupeTable j) q).
    split_and!; [by apply Hin|done|]. rewrite Forall_forall in Hcs.
    symmetry. apply strcmp_0; [done|by apply Hcs, Hin|done].
  - split; [done|]. intros (m & Hm & Hme & Hlow).
    assert (strhash m = Some h) as Hhm by (by rewrite (strhash_lower' m n)).
    destruct (Hfound m h Hm Hhm) as [q' Hq'].
    rewrite (probe_lower _ _ _ m n) in Hq'; [congruence|done| |done|done].
    rewrite Forall_forall in Hcs. by apply Hcs.
Qed.

Lemma jupe_insert_ok j one h p :
  jupes_ok j -> cstring one -> one <> [] -> strhash one = Some h ->
  probe fuel (jupeTable j) h one = Some (Empty p) -> jupesCount j <> JUPEMAX ->
  let j' := {| jupeTable := <[Z.to_nat p := one]> (jupeTable j); jupesCount := jupesCount j + 1 |} in
  jupes_ok j' /\ forall n, juped j' n <-> juped j n \/ lower n = lower one.
Proof.
  intros Hok Hone Hne Hh Hr Hmax j'. pose proof Hok as (Hl & Hc & Hm & Hcs & Hfound).
  pose proof (probe_result_spec fuel (jupeTable j) h one) as Hs. rewrite Hr in Hs.
  destruct Hs as [Hp He].
  assert (jupeTable j !! Z.to_nat p = Some []) as Hpe.
  { destruct (lookup_lt_is_Some_2 (jupeTable j) (Z.to_nat p)) as [c Hcell]; [lia|].
    unfold jupe_at in He. rewrite nth_lookup, Hcell in He. simpl in He. by subst. }
  assert (forall n, n ∈ jupeTable j' <-> n = one \/ (n ∈ jupeTable j /\ (n <> [] \/ n ∈ jupeTable j'))) as Hin.
  { intros n. split.
    - intros Hn. pose proof Hn as Hn'. unfold j' in Hn. cbn [jupeTable] in Hn.
      apply list_elem_of_lookup in Hn as [i Hi]. destruct (decide (i = Z.to_nat p)) as [->|Hi'].
      + left. rewrite list_lookup_insert_eq in Hi by lia. congruence.
      + right. rewrite list_lookup_insert_ne in Hi by done. split; [by eapply list_elem_of_lookup_2|by right].
    - intros [->|(Hn & [Hne'|H])]; [| |done].
      + apply list_elem_of_lookup. exists (Z.to_nat p). cbn. apply list_lookup_insert_eq. lia.
      + apply list_elem_of_lookup in Hn as [i Hi]. apply list_elem_of_lookup. exists i. cbn.
        rewrite list_lookup_insert_ne; [done|]. intros E. rewrite <- E in Hi. congruence. }
  split.
  - split_and!.
    + cbn. by rewrite length_insert.
    + cbn. rewrite used_insert by done. lia.
    + cbn. change JUPEMAX with 64 in *. lia.
    + apply Forall_forall. intros n [->|[Hn _]]%Hin; [done|]. rewrite Forall_forall in Hcs. by apply Hcs.
    + intros n h' Hn Hh'. cbn [jupeTable j'].
      pose proof (probe_insert fuel (jupeTable j) h' n p one ltac:(lia) He Hne) as Hi.
      apply Hin in Hn as [->|[Hn _]].
      * assert (h' = h) as -> by congruence. rewrite Hr in Hi. exists p. apply Hi; [done|].
        by apply strcmp_0.
      * destruct (Hfound n h' Hn Hh') as [q Hq]. rewrite Hq in Hi. by exists q.
  - intros n. split.
    + intros (m & Hm' & Hme & Hlow). apply Hin in Hm' as [->|[Hm' _]]; [by right|left]. by exists m.
    + intros [(m & Hm' & Hme & Hlow)|Hlow].
      * exists m. split_and!; [|done..]. apply Hin. right. split; [done|by left].
      * exists one. split_and!; [|done..]. apply Hin. by left.
Qed.

Lemma add_jupes_spec names j :
  jupes_ok j -> Forall (fun n => cstring n /\ n <> [] /\ (length n <= NICKLEN)%nat) names ->
  exists j' full, add_jupes fuel j names = Some (j', full) /\ jupes_ok j' /\
    (if (full : bool) then jupesCount j' = JUPEMAX /\ forall n, juped j n -> juped j' n
     else forall n, juped j' n <-> juped j n \/ exists m, m ∈ names /\ lower n = lower m).
Proof.
  intros Hok Hn. revert j Hok; induction Hn as [|one names (Hone & Hne & Hlen) Hn IH]; intros j Hok.
  { exists j, false. split_and!; [done..|]. intros n. split; [by left|].
    intros [H|(m & Hm & _)]; [done|]. by apply elem_of_nil in Hm. }
  destruct (strhash_some crc32hash one Hne) as (h & Hh & _).
  destruct (probe_total j h one Hok) as [r Hr]. cbn [Hash.add_jupes]. rewrite Hh.
  cbn [mbind option_bind]. rewrite Hr. cbn [mbind option_bind]. destruct r as [q|p].
  - destruct (IH j Hok) as (j' & full & -> & Hok' & H). exists j', full. split_and!; [done..|].
    destruct full; [done|]. assert (juped j one) as Hj.
    { destruct (is_juped_spec j one Hok Hone Hne) as (b & Hb & Hiff). apply Hiff.
      unfold Hash.is_juped in Hb. destruct one; [done|]. rewrite Hh in Hb. cbn [mbind option_bind] in Hb.
      rewrite Hr in Hb. by injection Hb as <-. }
    intros n. rewrite H. setoid_rewrite elem_of_cons. split.
    + intros [?|(m & Hm & E)]; [by left|right; eauto].
    + intros [?|(m & [->|Hm] & E)]; [by left| |right; eauto]. left.
      destruct Hj as (m & Hm & Hme & Hl). exists m. by rewrite E.
  - destruct (jupesCount j =? JUPEMAX) eqn:Em; bprop; [by exists j, true|].
    rewrite (take_ge one NICKLEN) by done.
    destruct (jupe_insert_ok j one h p Hok Hone Hne Hh Hr Em) as [Hok1 Hj1].
    destruct (IH _ Hok1) as (j' & full & -> & Hok' & H). exists j', full. split_and!; [done..|].
    destruct full.
    + destruct H as [Hmx H]. split; [done|]. intros n Hj. apply H, Hj1. by left.
    + intros n. rewrite H, Hj1. setoid_rewrite elem_of_cons. split.
      * intros [[?|?]|(m & Hm & E)]; [by left|right; eauto..].
      * intros [?|(m & [->|Hm] & E)]; [tauto|tauto|right; eauto].
Qed.
End Jupes.

(** ** Lemmas: seeking *)
Lemma in_table_concat t x : in_table t x -> x ∈ concat t.
Proof.
  intros (h & _ & Hx). unfold bucket in Hx.
  destruct (nth_in_or_default (Z.to_nat h) t []) as [H|H]; [|rewrite H in Hx; by apply elem_of_nil in Hx].
  apply list_elem_of_In, in_concat. eexists. split; [exact H|]. by apply list_elem_of_In.
Qed.

Section Seek.
Context (crc32hash : list Z) (name : id -> list Z) (t : table).
Context (t_ok : table_ok crc32hash name t) (t_cs : Forall cstring (map name (concat t))).

Lemma in_table_cstring x : in_table t x -> cstring (name x).
Proof.
  intros Hx. rewrite Forall_forall in t_cs. apply t_cs, list_elem_of_In, in_map.
  by apply list_elem_of_In, in_table_concat.
Qed.

(** The search all three hSeek functions make, for entries that satisfy [q]. *)
Lemma seek_name_ok (q : id -> bool) n :
  cstring n -> n <> [] ->
  exists h, strhash crc32hash n = Some h /\
    let ok x := in_table t x /\ lower n = lower (name x) /\ q x = true in
    match seek (fun x => q x && (ircd_strcmp n (name x) =? 0)) (bucket t h) with
    | Some (x, l) => table_ok crc32hash name (set_bucket t h (x :: l)) /\
        (forall y, in_table (set_bucket t h (x :: l)) y <-> in_table t y) /\ ok x
    | None => forall x, ~ ok x
    end.
Proof.
  intros Hn Hne. destruct (strhash_some crc32hash n Hne) as (h & Hh & Hr). exists h. split; [done|].
  assert (forall x, in_table t x -> (ircd_strcmp n (name x) =? 0) = true <-> lower n = lower (name x)) as Hc.
  { intros x Hx. rewrite Z.eqb_eq. apply strcmp_0; [done|by apply in_table_cstring]. }
  pose proof (table_seek_ok crc32hash name t (fun x => q x && (ircd_strcmp n (name x) =? 0)) h t_ok Hr) as Hs.
  cbv zeta. destruct (seek _ _) as [[x l]|].
  - destruct Hs as (Hin & Hp & Hok' & Hiff).
    { intros x' [_ Hp]%andb_true_iff Hx'. rewrite <- (strhash_lower crc32hash n); [done|]. by apply Hc. }
    apply andb_true_iff in Hp as [Hq Hp]. split_and!; [done..|by apply Hc|done].
  - intros x (Hin & Hl & Hq).
    assert (q x && (ircd_strcmp n (name x) =? 0) = false) as E.
    { apply Hs; [|done]. intros x' [_ Hp]%andb_true_iff Hx'.
      rewrite <- (strhash_lower crc32hash n); [done|]. by apply Hc. }
    rewrite Hq in E. apply Hc in Hl; [|done]. by rewrite Hl in E.
Qed.

Lemma rem_name_ok c :
  name c <> [] ->
  exists h, strhash crc32hash (name c) = Some h /\
    match unlink c (bucket t h) with
    | Some l => in_table t c /\ table_ok crc32hash name (set_bucket t h l) /\
        forall x, in_table (set_bucket t h l) x <-> x <> c /\ in_table t x
    | None => ~ in_table t c /\ forall x, in_table t x <-> x <> c /\ in_table t x
    end.
Proof.
  intros Hne. destruct (strhash_some crc32hash (name c) Hne) as (h & Hh & Hr). exists h. split; [done|].
  pose proof (table_rem_ok crc32hash name t c h t_ok Hh Hr) as H. destruct (unlink c _); [done|].
  split; [done|]. intros x. split; [|tauto]. intros Hx. split; [by intros ->|done].
Qed.
End Seek.

(** ** The watch table as a table of named entries *)
Lemma concat_in_table crc32hash name t x : table_ok crc32hash name t -> x ∈ concat t -> in_table t x.
Proof.
  intros [Hl _] Hx. apply list_elem_of_In, in_concat in Hx as (l & Hl' & Hx).
  apply list_elem_of_In, list_elem_of_lookup in Hl' as [i Hi]. pose proof (lookup_lt_Some _ _ _ Hi).
  exists (Z.of_nat i). split; [lia|]. unfold bucket. rewrite Nat2Z.id, (nth_lookup_Some _ _ _ _ Hi).
  by apply list_elem_of_In.
Qed.

Lemma table_ok_ext crc32hash f g t :
  table_ok crc32hash f t -> (forall x, in_table t x -> f x = g x) -> table_ok crc32hash g t.
Proof.
  intros [Hl H] Hfg. split; [done|]. intros h Hh. destruct (H h Hh) as [Hn Hc]. split; [done|].
  intros c Hin. rewrite <- Hfg; [by apply Hc|]. by exists h.
Qed.

#[export] Instance watch_table (crc32hash : list Z) : NameTable table := {|
  nt_add := hAddWatch crc32hash;
  nt_rem := hRemWatch crc32hash;
  nt_seek := hSeekWatch crc32hash;
  nt_ok f t := table_ok crc32hash f t /\ forall x, in_table t x -> cstring (f x);
  nt_mem := in_table |}.

#[export] Instance watch_table_laws crc32hash : @NameTableLaws table (watch_table crc32hash).
Proof.
  assert (forall f (t : table), table_ok crc32hash f t -> (forall x, in_table t x -> cstring (f x)) ->
    Forall cstring (map f (concat t))) as Hall.
  { intros f t Hok Hcs. rewrite Forall_map, Forall_forall. intros x Hx. apply Hcs. by eapply concat_in_table. }
  constructor; cbn [nt_ok nt_mem nt_add nt_rem nt_seek watch_table].
  - intros f g t [Hok Hcs] Hfg. split; [by eapply table_ok_ext|]. intros x Hx. rewrite <- Hfg by done. by apply Hcs.
  - intros f t c [Hok Hcs] [Hc Hne] Hnot. destruct (strhash_some crc32hash (f c) Hne) as (h & Hh & Hr).
    unfold hAddWatch. rewrite Hh. eexists. split; [done|].
    destruct (table_add_ok crc32hash f t c h Hok Hh Hr Hnot) as [Hok' Hiff]. split_and!; [done| |done].
    intros x [->|Hx]%Hiff; auto.
  - intros f t c [Hok Hcs] Hin.
    assert (f c <> []) as Hne.
    { destruct Hin as (h & Hr & Hin). apply (proj2 Hok h Hr) in Hin. by intros E; rewrite E in Hin. }
    destruct (rem_name_ok crc32hash f t Hok c Hne) as (h & Hh & H). unfold hRemWatch. rewrite Hh. cbn [mbind option_bind].
    destruct (unlink _ _); [|by destruct H]. eexists. split; [done|]. destruct H as (_ & Hok' & Hiff).
    split_and!; [done| |done]. intros x [_ Hx]%Hiff. auto.
  - intros f t n [Hok Hcs] [Hn Hne].
    destruct (seek_name_ok crc32hash f t Hok (Hall f t Hok Hcs) (fun _ => true) n Hn Hne) as (h & Hh & H).
    unfold hSeekWatch. rewrite Hh. cbn [mbind option_bind andb] in *.
    destruct (seek _ _) as [[x l]|]; eexists _, _; (split; [done|]).
    + destruct H as (Hok' & Hiff & Hx & Hl & _). split_and!; [done| |done|done|done]. intros y Hy%Hiff. auto.
    + split_and!; [done|done|done|]. intros x Hx Hl. by apply (H x).
Qed.

(** The channel table keeps the same promises. *)
#[export] Instance channel_table (crc32hash : list Z) : NameTable table := {|
  nt_add := hAddChannel crc32hash;
  nt_rem := hRemChannel crc32hash;
  nt_seek := hSeekChannel crc32hash;
  nt_ok f t := table_ok crc32hash f t /\ forall x, in_table t x -> cstring (f x);
  nt_mem := in_table |}.

#[export] Instance channel_table_laws crc32hash : @NameTableLaws table (channel_table crc32hash).
Proof. exact (watch_table_laws crc32hash). Qed.

(** ** Properties *)

(** Init_hash() leaves a permutation of the standard CRC-32 table, whose 256
    entries are pairwise different 32 bit numbers, whatever random numbers it
    gets; and with any table strhash() depends on the name up to case only and is
    below HASHSIZE. *)
Theorem strhash_correct ircrandom crc32hash a b :
  lower a = lower b ->
  init_hash ircrandom ≡ₚ crc_table /\ NoDup (init_hash ircrandom) /\
  Forall (fun x => 0 <= x < 2 ^ 32) (init_hash ircrandom) /\
  strhash crc32hash a = strhash crc32hash b /\
  (a <> [] -> exists h, strhash crc32hash a = Some h /\ 0 <= h < HASHSIZE).
Proof.
  intros Hab. assert (init_hash ircrandom ≡ₚ crc_table) as Hp by (apply reorder_perm; [done|lia|lia]).
  split_and!; [done| | |by apply strhash_lower|apply strhash_some].
  - rewrite Hp. by_decide.
  - rewrite Hp. by_decide.
Qed.

Lemma strhash_correct_witness :
  strhash crc_table (lit "Nick[1]") = strhash crc_table (lit "nICK{1}") /\
  strhash crc_table (lit "Nick[1]") <> strhash crc_table (lit "Nick[2]").
Proof.
  split; [|by vm_compute].
  apply (strhash_correct (fun _ => 0) crc_table (lit "Nick[1]") (lit "nICK{1}")). by vm_compute.
Defined.

(** The client table: hAddClient() adds exactly the client, hRemClient()
    removes exactly the client and returns 0 exactly when it was there, and
    hSeekClient() returns a client of the table with the name up to case and one
    of the status bits, or nothing when there is none, and loses no entry when it
    moves the match to the front; all three keep the table well formed. *)
Theorem client_table_correct crc32hash cli_name cli_status t c name TMask :
  table_ok crc32hash cli_name t -> Forall cstring (map cli_name (concat t)) ->
  cli_name c <> [] -> cstring name -> name <> [] ->
  (~ in_table t c -> exists t', hAddClient crc32hash cli_name t c = Some t' /\
     table_ok crc32hash cli_name t' /\ forall x, in_table t' x <-> x = c \/ in_table t x) /\
  (exists t' r, hRemClient crc32hash cli_name t c = Some (t', r) /\
     table_ok crc32hash cli_name t' /\ (r = 0 <-> in_table t c) /\
     forall x, in_table t' x <-> x <> c /\ in_table t x) /\
  (exists t' o, hSeekClient crc32hash cli_name cli_status t name TMask = Some (t', o) /\
     table_ok crc32hash cli_name t' /\ (forall x, in_table t' x <-> in_table t x) /\
     let ok x := in_table t x /\ lower name = lower (cli_name x) /\ has_bits (cli_status x) TMask = true in
     match o with Some x => ok x | None => forall x, ~ ok x end).
Proof.
  intros Hok Hcs Hne Hname Hnn. split_and!.
  - intros Hnot. destruct (strhash_some crc32hash (cli_name c) Hne) as (h & Hh & Hr).
    unfold hAddClient. rewrite Hh. eexists. split; [done|]. by apply table_add_ok.
  - destruct (rem_name_ok crc32hash cli_name t Hok c Hne) as (h & Hh & H). unfold hRemClient.
    rewrite Hh. cbn [mbind option_bind]. destruct (unlink _ _); eexists _, _; (split; [done|]);
      [by destruct H as (? & ? & ?)|]. destruct H. split_and!; [done|by split|done].
  - destruct (seek_name_ok crc32hash cli_name t Hok Hcs (fun x => has_bits (cli_status x) TMask) name Hname Hnn)
      as (h & Hh & H). unfold hSeekClient, client_matches. rewrite Hh. cbn [mbind option_bind].
    destruct (seek _ _) as [[x l]|]; eexists _, _; (split; [done|]); [by destruct H as (? & ? & ?)|done].
Qed.

(** Two clients whose names differ in case only, one of them a server. *)
Definition sample_name (c : id) : list Z :=
  if decide (c = 1%positive) then lit "Al" else if decide (c = 2%positive) then lit "aL" else lit "bob".

Lemma nth_replicate_nil {A} n i : nth i (replicate n []) [] = @nil A.
Proof. revert i; induction n; intros [|i]; simpl; auto. Qed.

Lemma filter_replicate_none n : filter (fun x : list Z => x <> []) (replicate n []) = [].
Proof. by induction n. Qed.

Definition empty_table : table := replicate (Z.to_nat HASHSIZE) [].

Definition sample_hash : Z := Eval vm_compute in default 0 (strhash crc_table (lit "al")).

Definition sample_table : table := set_bucket empty_table sample_hash [1; 2]%positive.

Lemma empty_table_ok crc32hash name : table_ok crc32hash name empty_table.
Proof.
  unfold empty_table. split; [rewrite length_replicate; unfold HASHSIZE; lia|].
  intros h _. unfold bucket. rewrite nth_replicate_nil.
  split; [constructor|]. by intros c ?%elem_of_nil.
Qed.

Lemma sample_hash_range : 0 <= sample_hash < HASHSIZE.
Proof. unfold sample_hash, HASHSIZE. lia. Qed.

Lemma sample_chain c : c ∈ [1; 2]%positive -> strhash crc_table (sample_name c) = Some sample_hash.
Proof.
  intros Hc. apply elem_of_cons in Hc as [->|Hc]; [by vm_compute|].
  apply elem_of_cons in Hc as [->|Hc]; [by vm_compute|by apply elem_of_nil in Hc].
Qed.

Lemma sample_table_ok : table_ok crc_table sample_name sample_table.
Proof.
  apply table_set_ok; [apply empty_table_ok|apply sample_hash_range|by_decide|apply sample_chain].
Qed.

Lemma sample_name_cstring l : Forall cstring (map sample_name l).
Proof.
  apply Forall_forall. intros n Hn. apply list_elem_of_In, in_map_iff in Hn as (c & <- & _).
  unfold sample_name. repeat case_decide; by_decide.
Qed.

Lemma sample_in : in_table sample_table 2%positive.
Proof.
  apply (in_set crc_table sample_name empty_table sample_hash); [apply empty_table_ok|
    apply sample_hash_range|apply sample_chain|by vm_compute|]. by right; left.
Qed.

Definition sample_status (c : id) : Z := if decide (c = 2%positive) then 4 else 8.

Lemma client_table_correct_witness :
  exists t' x, hSeekClient crc_table sample_name sample_status sample_table (lit "AL") 4 =
      Some (t', Some x) /\ in_table sample_table x /\ in_table t' x.
Proof.
  destruct (client_table_correct crc_table sample_name sample_status
    sample_table 3%positive (lit "AL") 4 sample_table_ok (sample_name_cstring _))
    as (_ & _ & t' & o & E & _ & Hiff & H); [discriminate|by_decide|discriminate|].
  destruct o as [x|].
  { exists t', x. destruct H as (H & _). split; [exact E|split; [exact H|apply Hiff, H]]. }
  exfalso. apply (H 2%positive). split_and!; [apply sample_in|by vm_compute|by vm_compute].
Defined.

(** The channel and watch tables work the same way: an entry added is there,
    one removed is gone and 0 is returned exactly when it was there, and a search
    by name finds an entry with that name up to case when there is one and keeps
    the entries. *)
Theorem channel_watch_tables_correct crc32hash name_of t c name :
  table_ok crc32hash name_of t -> Forall cstring (map name_of (concat t)) ->
  name_of c <> [] -> cstring name -> name <> [] ->
  let ok x := in_table t x /\ lower name = lower (name_of x) in
  let seek_ok r := exists t' o, r = Some (t', o) /\ table_ok crc32hash name_of t' /\
     (forall x, in_table t' x <-> in_table t x) /\
     match o with Some x => ok x | None => forall x, ~ ok x end in
  let rem_ok r := exists t' v, r = Some (t', v) /\ table_ok crc32hash name_of t' /\
     (v = 0 <-> in_table t c) /\ forall x, in_table t' x <-> x <> c /\ in_table t x in
  let add_ok r := ~ in_table t c -> exists t', r = Some t' /\ table_ok crc32hash name_of t' /\
     forall x, in_table t' x <-> x = c \/ in_table t x in
  (add_ok (hAddChannel crc32hash name_of t c) /\ rem_ok (hRemChannel crc32hash name_of t c) /\
   seek_ok (hSeekChannel crc32hash name_of t name)) /\
  (add_ok (hAddWatch crc32hash name_of t c) /\ rem_ok (hRemWatch crc32hash name_of t c) /\
   seek_ok (hSeekWatch crc32hash name_of t name)).
Proof.
  intros Hok Hcs Hne Hname Hnn ok seek_ok rem_ok add_ok.
  change (hAddWatch crc32hash name_of t c) with (hAddChannel crc32hash name_of t c).
  change (hRemWatch crc32hash name_of t c) with (hRemChannel crc32hash name_of t c).
  change (hSeekWatch crc32hash name_of t name) with (hSeekChannel crc32hash name_of t name).
  match goal with |- ?G /\ _ => assert G as H; [|exact (conj H H)] end. split_and!.
  - intros Hnot. destruct (strhash_some crc32hash (name_of c) Hne) as (h & Hh & Hr).
    unfold hAddChannel. rewrite Hh. eexists. split; [done|]. by apply table_add_ok.
  - destruct (rem_name_ok crc32hash name_of t Hok c Hne) as (h & Hh & H). unfold rem_ok, hRemChannel.
    rewrite Hh. cbn [mbind option_bind]. destruct (unlink _ _); eexists _, _; (split; [done|]);
      [by destruct H as (? & ? & ?)|]. destruct H. split_and!; [done|by split|done].
  - destruct (seek_name_ok crc32hash name_of t Hok Hcs (fun _ => true) name Hname Hnn)
      as (h & Hh & H). unfold seek_ok, hSeekChannel. rewrite Hh. cbn [mbind option_bind andb] in *.
    destruct (seek _ _) as [[x l]|]; eexists _, _; (split; [done|]).
    + destruct H as (? & ? & ? & ? & _). done.
    + split_and!; [done|done|]. intros x [? ?]. by apply (H x).
Qed.

Lemma channel_watch_tables_correct_witness :
  exists t' x, hSeekChannel crc_table sample_name sample_table (lit "AL") = Some (t', Some x) /\
    in_table t' x.
Proof.
  destruct (channel_watch_tables_correct crc_table sample_name sample_table 3%positive (lit "AL")
    sample_table_ok (sample_name_cstring _)) as [(_ & _ & t' & o & E & _ & Hiff & H) _];
    [discriminate|by_decide|discriminate|].
  destruct o as [x|].
  { exists t', x. destruct H as (H & _). split; [exact E|apply Hiff, H]. }
  exfalso. apply (H 2%positive). split; [apply sample_in|by vm_compute].
Defined.

(** The nick jupe table: adding a comma separated list either jupes exactly
    its names besides those juped before, or fails with the table at JUPEMAX
    names and drops none; isNickJuped() answers whether a name was juped, up to
    case; both searches end, and clearNickJupes() empties the table. *)
Theorem nick_jupes_correct crc32hash j nicks :
  let fuel := Z.to_nat JUPEHASHSIZE in
  jupes_ok crc32hash fuel j -> cstring nicks -> (length nicks <= BUFSIZE)%nat ->
  Forall (fun n => (length n <= NICKLEN)%nat) (tokens nicks comma) ->
  (forall n, cstring n -> n <> [] ->
     exists b, isNickJuped crc32hash j n = Some b /\ (b = true <-> juped j n)) /\
  (exists j' full, addNickJupes crc32hash j nicks = Some (j', full) /\ jupes_ok crc32hash fuel j' /\
     if (full : bool) then jupesCount j' = JUPEMAX /\ forall n, juped j n -> juped j' n
     else forall n, juped j' n <-> juped j n \/ exists m, m ∈ tokens nicks comma /\ lower n = lower m) /\
  forall n, ~ juped (clearNickJupes j) n.
Proof.
  intros fuel Hok Hn Hl Ht. assert (Z.of_nat fuel = 4096) as Hf by (apply Z2Nat.id; done). split_and!.
  - intros n Hc Hne. by apply (is_juped_spec crc32hash fuel Hf).
  - unfold addNickJupes. rewrite take_ge by done. apply (add_jupes_spec crc32hash fuel Hf); [done|].
    pose proof (tokens_wf nicks comma) as Hw. pose proof (tokens_cstring nicks comma Hn) as Hcs.
    rewrite Forall_forall in *. intros m Hm. split_and!; [by apply Hcs|by apply Hw|by apply Ht].
  - intros n (m & Hm & Hne & _). apply Hne. cbn [jupeTable clearNickJupes] in Hm.
    by apply list_elem_of_In, in_map_iff in Hm as (? & <- & _).
Qed.

Definition no_jupes : jupes := {| jupeTable := replicate (Z.to_nat 4096) []; jupesCount := 0 |}.

Lemma no_jupes_ok crc32hash fuel : jupes_ok crc32hash fuel no_jupes.
Proof.
  unfold no_jupes. split_and!; cbn [jupeTable jupesCount].
  - apply length_replicate.
  - unfold used_cells. rewrite filter_replicate_none; done.
  - done.
  - apply Forall_replicate. constructor.
  - intros n h Hn. apply elem_of_replicate_inv in Hn as ->. done.
Qed.

Lemma nick_jupes_correct_witness :
  exists j' full, addNickJupes crc_table no_jupes (lit "NickServ,ChanServ") = Some (j', full) /\
    jupes_ok crc_table (Z.to_nat JUPEHASHSIZE) j'.
Proof.
  destruct (nick_jupes_correct crc_table no_jupes (lit "NickServ,ChanServ")) as (_ & H & _);
    [apply no_jupes_ok|by_decide|unfold BUFSIZE; simpl; lia|by_decide|].
  destruct H as (j' & full & E & Hok & _). exists j', full. split; [exact E|exact Hok].
Defined.
