(* ===== verification/IPcheck.v ===== *)
(** * ircd/IPcheck.c: the registry of connections per IP address

    The hash table maps a bucket number to the chain of its entries.  A write
    through the pointer ip_registry_find() returned is an update of the first
    entry of the chain with that address.  The free list only recycles memory
    that is zeroed, so it is not kept. *)
From S2P Require Import Prelude.
Open Scope ircd_scope.

Definition MAXTARGETS : nat := 20.
Definition STARTTARGETS : Z := 10.
Definition TARGET_DELAY : Z := 128.
Definition IP_REGISTRY_TABLE_SIZE : Z := 65536.

Record IPTargetEntry := { tg_count : Z; tg_targets : list Z }.

Record IPRegistryEntry := {
  target : option IPTargetEntry;
  addr : Z;
  last_connect : Z;
  connected : Z;
  attempts : Z
}.

Abbreviation registry := (gmap Z (list IPRegistryEntry)).

(** The features the module reads, and when the server started. *)
Record config := {
  IPCHECK_CLONE_LIMIT : Z; IPCHECK_CLONE_PERIOD : Z; IPCHECK_CLONE_DELAY : Z;
  NOTHROTTLE : bool; since_me : Z
}.

Definition set_connected (e : IPRegistryEntry) (n : Z) : IPRegistryEntry :=
  {| target := target e; addr := addr e; last_connect := last_connect e; connected := n;
     attempts := attempts e |}.

Definition set_attempts (e : IPRegistryEntry) (n : Z) : IPRegistryEntry :=
  {| target := target e; addr := addr e; last_connect := last_connect e;
     connected := connected e; attempts := n |}.

Definition set_last (e : IPRegistryEntry) (n : Z) : IPRegistryEntry :=
  {| target := target e; addr := addr e; last_connect := n; connected := connected e;
     attempts := attempts e |}.

Definition set_target (e : IPRegistryEntry) (t : option IPTargetEntry) : IPRegistryEntry :=
  {| target := t; addr := addr e; last_connect := last_connect e; connected := connected e;
     attempts := attempts e |}.

(** ** The table *)
Definition ip_registry_hash (ip : Z) : Z := ((ip >> 16) .^ ip) .& (IP_REGISTRY_TABLE_SIZE - 1).

Definition chain (t : registry) (b : Z) : list IPRegistryEntry := default [] (t !! b).

Fixpoint find_in (ip : Z) (l : list IPRegistryEntry) : option IPRegistryEntry :=
  match l with
  | [] => None
  | e :: r => if addr e =? ip then Some e else find_in ip r
  end.

Definition ip_registry_find (t : registry) (ip : Z) : option IPRegistryEntry :=
  find_in ip (chain t (ip_registry_hash ip)).

Definition ip_registry_add (t : registry) (e : IPRegistryEntry) : registry :=
  let bucket := ip_registry_hash (addr e) in <[bucket := e :: chain t bucket]> t.

Fixpoint put_in (ip : Z) (e : IPRegistryEntry) (l : list IPRegistryEntry) : list IPRegistryEntry :=
  match l with
  | [] => []
  | x :: r => if addr x =? ip then e :: r else x :: put_in ip e r
  end.

(** The entry found for [ip] becomes [e]. *)
Definition ip_registry_put (t : registry) (ip : Z) (e : IPRegistryEntry) : registry :=
  let bucket := ip_registry_hash ip in <[bucket := put_in ip e (chain t bucket)]> t.

(** The operations below run at the time [CurrentTime]. *)
Section Now.
Variable CurrentTime : Z.
Variable cfg : config.

Definition NOW : Z := CurrentTime .& 65535.

Definition CONNECTED_SINCE (x : Z) : Z := NOW - x.

(** ip_registry_new_entry() with the address set. *)
Definition ip_registry_new_entry (ip : Z) : IPRegistryEntry :=
  {| target := None; addr := ip; last_connect := NOW; connected := 1; attempts := 1 |}.

Definition ip_registry_update_free_targets (e : IPRegistryEntry) : IPRegistryEntry * Z :=
  match target e with
  | None => (e, STARTTARGETS)
  | Some tg =>
      let free := u32 (tg_count tg + Z.quot (CONNECTED_SINCE (last_connect e)) TARGET_DELAY) in
      let free := if STARTTARGETS <? free then STARTTARGETS else free in
      (set_target e (Some {| tg_count := free; tg_targets := tg_targets tg |}), free)
  end.

(** ip_registry_expire_entry() on an entry of a chain: what is left of it. *)
Definition ip_registry_expire_entry (e : IPRegistryEntry) : option IPRegistryEntry :=
  if 600 <? CONNECTED_SINCE (last_connect e) then None
  else if 120 <? CONNECTED_SINCE (last_connect e) then Some (set_target e None)
  else Some e.

Definition expire_one (e : IPRegistryEntry) : option IPRegistryEntry :=
  if connected e =? 0 then ip_registry_expire_entry e else Some e.

Fixpoint expire_chain (l : list IPRegistryEntry) : list IPRegistryEntry :=
  match l with
  | [] => []
  | e :: r => match expire_one e with
              | Some e' => e' :: expire_chain r
              | None => expire_chain r
              end
  end.

(** ip_registry_expire(): the whole table. *)
Definition ip_registry_expire (t : registry) : registry := expire_chain <$> t.

(** The attempt counter of a further connection. *)
Definition reset_attempts (e : IPRegistryEntry) : IPRegistryEntry :=
  if IPCHECK_CLONE_PERIOD cfg <? CONNECTED_SINCE (last_connect e) then set_attempts e 0 else e.

Definition count_attempt (e : IPRegistryEntry) : IPRegistryEntry :=
  let n := u8 (attempts e + 1) in set_attempts e (if n =? 0 then u8 (n - 1) else n).

(** ip_registry_check_local(): the registry, the time of the next free target
    when it is set, and whether the connection is allowed. *)
Definition ip_registry_check_local (t : registry) (ip : Z) : registry * option Z * bool :=
  match ip_registry_find t ip with
  | None => (ip_registry_add t (ip_registry_new_entry ip), None, true)
  | Some e =>
      let n := u16 (connected e + 1) in
      if n =? 0 then (ip_registry_put t ip (set_connected e (u16 (n - 1))), None, false)
      else
        let e := reset_attempts (set_connected e n) in
        let (e, free_targets) := ip_registry_update_free_targets e in
        let e := count_attempt (set_last e NOW) in
        if attempts e <? IPCHECK_CLONE_LIMIT cfg then
          (ip_registry_put t ip e, Some (CurrentTime - u32 (TARGET_DELAY * free_targets - 1)), true)
        else if (CurrentTime - since_me cfg <? IPCHECK_CLONE_DELAY cfg) && negb (NOTHROTTLE cfg) then
          (ip_registry_put t ip (set_connected e (u16 (connected e - 1))), None, false)
        else (ip_registry_put t ip e, None, true)
  end.

Definition ip_registry_check_remote (t : registry) (ip : Z) (is_burst : bool) : registry * bool :=
  match ip_registry_find t ip with
  | None =>
      let e := ip_registry_new_entry ip in
      (ip_registry_add t (if is_burst then set_attempts e 0 else e), true)
  | Some e =>
      let n := u16 (connected e + 1) in
      let e := set_connected e n in
      if n =? 0 then (ip_registry_put t ip e, false)
      else
        let e := reset_attempts e in
        let e := if is_burst then e
                 else set_last (ip_registry_update_free_targets (count_attempt e)).1 NOW in
        (ip_registry_put t ip e, true)
  end.

Definition ip_registry_connect_fail (t : registry) (ip : Z) : registry :=
  match ip_registry_find t ip with
  | None => t
  | Some e =>
      let n := u8 (attempts e - 1) in
      ip_registry_put t ip (set_attempts e (if n =? 0 then u8 (n + 1) else n))
  end.

(** ip_registry_connect_succeeded(): the targets copied to the client, and the
    numbers of the notice; the entry must exist. *)
Definition ip_registry_connect_succeeded (t : registry) (ip : Z)
  : option (option (list Z) * (Z * Z * Z * Z)) :=
  e ← ip_registry_find t ip;
  let free := match target e with Some tg => tg_count tg | None => STARTTARGETS end in
  Some (match target e with Some tg => Some (tg_targets tg) | None => None end,
        (connected e, attempts e, IPCHECK_CLONE_LIMIT cfg, free)).

Definition ip_registry_disconnect_ip (t : registry) (ip : Z) : registry :=
  match ip_registry_find t ip with
  | None => t
  | Some e => if 0 <? connected e then ip_registry_put t ip (set_connected e (connected e - 1)) else t
  end.

(** The free targets a leaving client hands back. *)
Definition leaving_targets (nexttarget firsttime : Z) : Z :=
  let free := if nexttarget <? CurrentTime
              then Z.quot (CurrentTime - nexttarget) TARGET_DELAY + 1 else 0 in
  u32 (if 600 <? CurrentTime - firsttime
       then u32 free + Z.quot (CurrentTime - firsttime - 600) TARGET_DELAY else free).

(** The targets of an entry when a local client leaves. *)
Definition store_targets (e : IPRegistryEntry) (targets : list Z) (nexttarget firsttime : Z)
  : IPRegistryEntry :=
  let count := match target e with Some tg => tg_count tg | None => STARTTARGETS end in
  let free := leaving_targets nexttarget firsttime in
  set_target e (Some {| tg_count := if free <? count then free else count; tg_targets := targets |}).

(** ip_registry_disconnect(); [local] is MyConnect() with the client's targets,
    cli_nexttarget and cli_firsttime; [None] when an assertion fails, as the
    entry is missing or counts no connection. *)
Definition ip_registry_disconnect (t : registry) (ip : Z) (local : option (list Z * Z * Z))
  : option registry :=
  e ← ip_registry_find t ip;
  if connected e <=? 0 then None
  else
  let n := u16 (connected e - 1) in
  let e := set_connected e n in
  let e :=
    if n =? 0 then
      let e := if IPCHECK_CLONE_LIMIT cfg * IPCHECK_CLONE_PERIOD cfg <? CONNECTED_SINCE (last_connect e)
               then set_attempts e 0 else e in
      set_last (ip_registry_update_free_targets e).1 NOW
    else e in
  let e := match local with
           | None => e
           | Some (targets, nexttarget, firsttime) => store_targets e targets nexttarget firsttime
           end in
  Some (ip_registry_put t ip e).

Definition ip_registry_count (t : registry) (ip : Z) : Z :=
  match ip_registry_find t ip with Some e => connected e | None => 0 end.

Definition IPcheck_local_connect (t : registry) (a : Z) : registry * option Z * bool :=
  ip_registry_check_local t a.

Definition IPcheck_nr (t : registry) (a : Z) : Z := u16 (ip_registry_count t a).
End Now.

(** ** Specification: a map from addresses to entries *)

(** The counters are in the range of their C types. *)
Definition entry_ok (e : IPRegistryEntry) : Prop :=
  0 <= connected e < 2 ^ 16 /\ 0 <= attempts e < 2 ^ 8 /\
  match target e with Some tg => 0 <= tg_count tg <= STARTTARGETS | None => True end.

(** Each entry is in the chain of its address, and an address has one entry. *)
Definition registry_ok (t : registry) : Prop :=
  forall b, NoDup (map addr (chain t b)) /\
    Forall (fun e => ip_registry_hash (addr e) = b /\ entry_ok e) (chain t b).

(** [t'] is [t] with the entry of [ip] replaced. *)
Definition updates (t t' : registry) (ip : Z) (o : option IPRegistryEntry) : Prop :=
  registry_ok t' /\ ip_registry_find t' ip = o /\
  forall ip', ip' <> ip -> ip_registry_find t' ip' = ip_registry_find t ip'.

(** ** Lemmas *)
Lemma chain_insert t b l b' : chain (<[b := l]> t) b' = if b =? b' then l else chain t b'.
Proof.
  unfold chain. destruct (b =? b') eqn:E; bprop.
  - subst. by rewrite lookup_insert_eq.
  - by rewrite lookup_insert_ne.
Qed.

Lemma find_in_some ip l e : find_in ip l = Some e -> e ∈ l /\ addr e = ip.
Proof.
  induction l as [|x l IH]; simpl; [done|]. destruct (addr x =? ip) eqn:E; bprop.
  - intros [= ->]. split; [by left|done].
  - intros H. destruct (IH H). split; [by right|done].
Qed.

Lemma find_in_none ip l : find_in ip l = None <-> ip ∉ map addr l.
Proof.
  induction l as [|x l IH]; simpl; [split; [intros _; apply not_elem_of_nil|done]|].
  rewrite not_elem_of_cons, <- IH. destruct (addr x =? ip) eqn:E; bprop; [|by split; [auto|intros []]].
  split; [done|]. intros [? _]. congruence.
Qed.

Lemma put_in_spec ip e l x :
  find_in ip l = Some x -> addr e = ip ->
  map addr (put_in ip e l) = map addr l /\ find_in ip (put_in ip e l) = Some e /\
  (forall ip', ip' <> ip -> find_in ip' (put_in ip e l) = find_in ip' l) /\
  forall P : IPRegistryEntry -> Prop, P e -> Forall P l -> Forall P (put_in ip e l).
Proof.
  intros Hf He. induction l as [|y l IH]; simpl in *; [done|].
  destruct (addr y =? ip) eqn:E; bprop.
  - simpl. rewrite He, Z.eqb_refl. split_and!; [congruence|done| |].
    + intros ip' Hne. rewrite E. apply Z.eqb_neq in Hne. by rewrite Z.eqb_sym, Hne.
    + intros P HP Hl. apply Forall_cons in Hl as [_ Hl]. by constructor.
  - destruct (IH Hf) as (H1 & H2 & H3 & H4). simpl.
    rewrite (proj2 (Z.eqb_neq _ _) E). split_and!; [congruence|done| |].
    + intros ip' Hne. by rewrite H3.
    + intros P HP Hl. apply Forall_cons in Hl as [Hy Hl]. constructor; [done|by apply H4].
Qed.

Lemma registry_find_ok t ip e :
  registry_ok t -> ip_registry_find t ip = Some e -> addr e = ip /\ entry_ok e.
Proof.
  intros Hok H. apply find_in_some in H as [Hin Ha]. split; [done|].
  destruct (Hok (ip_registry_hash ip)) as [_ Hall]. rewrite Forall_forall in Hall.
  by apply (Hall e Hin).
Qed.

Lemma registry_put_updates t ip x e :
  registry_ok t -> ip_registry_find t ip = Some x -> addr e = ip -> entry_ok e ->
  updates t (ip_registry_put t ip e) ip (Some e).
Proof.
  intros Hok Hf Ha He. unfold updates, registry_ok, ip_registry_find, ip_registry_put in *.
  destruct (put_in_spec ip e _ x Hf Ha) as (H1 & H2 & H3 & H4). split_and!.
  - intros b. rewrite chain_insert. destruct (_ =? b) eqn:E; bprop; [|by apply Hok].
    subst. destruct (Hok (ip_registry_hash (addr e))) as [Hn Hall]. rewrite H1. split; [done|].
    by apply H4.
  - by rewrite chain_insert, Z.eqb_refl.
  - intros ip' Hne. rewrite chain_insert. destruct (_ =? _) eqn:E; bprop; [|done].
    rewrite H3 by done. by rewrite E.
Qed.

Lemma registry_add_updates t e :
  registry_ok t -> ip_registry_find t (addr e) = None -> entry_ok e ->
  updates t (ip_registry_add t e) (addr e) (Some e).
Proof.
  intros Hok Hf He. unfold updates, registry_ok, ip_registry_find, ip_registry_add in *. split_and!.
  - intros b. rewrite chain_insert. destruct (_ =? b) eqn:E; bprop; [|by apply Hok].
    subst. destruct (Hok (ip_registry_hash (addr e))) as [Hn Hall]. simpl. split.
    + constructor; [by apply find_in_none|done].
    + by constructor.
  - rewrite chain_insert, Z.eqb_refl. simpl. by rewrite Z.eqb_refl.
  - intros ip' Hne. rewrite chain_insert. destruct (_ =? _) eqn:E; bprop; [|done].
    simpl. rewrite (proj2 (Z.eqb_neq (addr e) ip')) by congruence. by rewrite E.
Qed.

Lemma expire_one_addr now e e' : expire_one now e = Some e' -> addr e' = addr e.
Proof.
  unfold expire_one, ip_registry_expire_entry. intros H.
  repeat case_match; simplify_eq; done.
Qed.

Lemma expire_one_ok now e e' : expire_one now e = Some e' -> entry_ok e -> entry_ok e'.
Proof.
  unfold expire_one, ip_registry_expire_entry, entry_ok. intros H He.
  repeat case_match; simplify_eq; simpl; tauto.
Qed.

Lemma expire_chain_find now ip l :
  NoDup (map addr l) ->
  find_in ip (expire_chain now l) = (e ← find_in ip l; expire_one now e).
Proof.
  induction l as [|x l IH]; [done|]. intros [Hx Hn]%NoDup_cons. cbn [expire_chain find_in].
  specialize (IH Hn). destruct (addr x =? ip) eqn:E; bprop.
  - cbn [mbind option_bind]. destruct (expire_one now x) as [x'|] eqn:Ex.
    + apply expire_one_addr in Ex. cbn [find_in]. rewrite Ex, E, Z.eqb_refl. done.
    + rewrite IH. apply find_in_none in Hx. rewrite E in Hx. by rewrite Hx.
  - destruct (expire_one now x) as [x'|] eqn:Ex; [|exact IH].
    apply expire_one_addr in Ex. cbn [find_in]. rewrite Ex, (proj2 (Z.eqb_neq _ _) E). exact IH.
Qed.

Lemma expire_chain_sub now l : map addr (expire_chain now l) `sublist_of` map addr l.
Proof.
  induction l as [|x l IH]; simpl; [constructor|]. destruct (expire_one now x) as [x'|] eqn:Ex.
  - apply expire_one_addr in Ex. simpl. rewrite Ex. by constructor.
  - by constructor.
Qed.

Lemma chain_expire now t b : chain (ip_registry_expire now t) b = expire_chain now (chain t b).
Proof. unfold chain, ip_registry_expire. rewrite lookup_fmap. by destruct (t !! b). Qed.

Lemma NOW_range now : 0 <= NOW now < 2 ^ 16.
Proof. unfold NOW. change 65535 with (Z.ones 16). rewrite Z.land_ones by lia. apply Z.mod_pos_bound. lia. Qed.

Lemma new_entry_ok now ip : entry_ok (ip_registry_new_entry now ip).
Proof. unfold entry_ok. simpl. lia. Qed.

Lemma free_targets_ok now e :
  entry_ok e ->
  let (e', free) := ip_registry_update_free_targets now e in
  entry_ok e' /\ addr e' = addr e /\ connected e' = connected e /\ attempts e' = attempts e /\
  last_connect e' = last_connect e /\ 0 <= free <= STARTTARGETS.
Proof.
  unfold ip_registry_update_free_targets, entry_ok, STARTTARGETS. intros (H1 & H2 & H3).
  destruct (target e) as [tg|] eqn:E; [|rewrite E; split_and!; done || lia]. simpl.
  match goal with |- context [u32 ?x] => pose proof (Z.mod_pos_bound x (2 ^ 32) ltac:(lia)) as Hr;
    change (x mod 2 ^ 32) with (u32 x) in Hr; set (f := u32 x) in * end.
  destruct (10 <? f) eqn:Ef; bprop; split_and!; lia.
Qed.

Lemma count_attempt_spec e :
  entry_ok e -> entry_ok (count_attempt e) /\ attempts (count_attempt e) = Z.min 255 (attempts e + 1).
Proof.
  unfold entry_ok, count_attempt, u8. intros (H1 & H2 & H3). simpl.
  destruct (decide (attempts e = 255)) as [->|Hne]; [simpl; split_and!; lia || done|].
  rewrite Z.mod_small by lia. destruct (attempts e + 1 =? 0) eqn:E; bprop; [lia|].
  split_and!; lia || done.
Qed.

Lemma reset_attempts_ok now cfg e :
  entry_ok e -> entry_ok (reset_attempts now cfg e) /\ addr (reset_attempts now cfg e) = addr e /\
  connected (reset_attempts now cfg e) = connected e /\
  last_connect (reset_attempts now cfg e) = last_connect e /\ target (reset_attempts now cfg e) = target e.
Proof. unfold reset_attempts, entry_ok. destruct (_ <? _); simpl; [|tauto]. intuition lia. Qed.

Lemma set_connected_ok e n : entry_ok e -> 0 <= n < 2 ^ 16 -> entry_ok (set_connected e n).
Proof. unfold entry_ok. simpl. tauto. Qed.

Lemma count_of t ip e : ip_registry_find t ip = Some e -> ip_registry_count t ip = connected e.
Proof. unfold ip_registry_count. by intros ->. Qed.

Lemma count_none t ip : ip_registry_find t ip = None -> ip_registry_count t ip = 0.
Proof. unfold ip_registry_count. by intros ->. Qed.

Lemma updates_frame t t' ip o :
  updates t t' ip o ->
  registry_ok t' /\ (forall ip', ip' <> ip -> ip_registry_find t' ip' = ip_registry_find t ip') /\
  ip_registry_count t' ip = match o with Some e => connected e | None => 0 end.
Proof. intros (H1 & H2 & H3). split_and!; [done..|]. unfold ip_registry_count. by rewrite H2. Qed.

(** What an accepted or throttled local connection makes of the entry. *)
Definition local_entry (now : Z) (cfg : config) (e : IPRegistryEntry) : IPRegistryEntry :=
  count_attempt (set_last (ip_registry_update_free_targets now
    (reset_attempts now cfg (set_connected e (connected e + 1)))).1 (NOW now)).

Definition local_free (now : Z) (cfg : config) (e : IPRegistryEntry) : Z :=
  (ip_registry_update_free_targets now (reset_attempts now cfg (set_connected e (connected e + 1)))).2.

Definition local_attempts (now : Z) (cfg : config) (e : IPRegistryEntry) : Z :=
  Z.min 255 ((if IPCHECK_CLONE_PERIOD cfg <? CONNECTED_SINCE now (last_connect e) then 0 else attempts e) + 1).

Lemma local_entry_spec now cfg e :
  entry_ok e -> connected e < 65535 ->
  entry_ok (local_entry now cfg e) /\ addr (local_entry now cfg e) = addr e /\
  connected (local_entry now cfg e) = connected e + 1 /\
  attempts (local_entry now cfg e) = local_attempts now cfg e.
Proof.
  intros He Hc. unfold local_entry. set (e1 := set_connected e (connected e + 1)).
  assert (entry_ok e1) as H1 by (apply set_connected_ok; [done|destruct He; lia]).
  destruct (reset_attempts_ok now cfg e1 H1) as (H2 & Ha2 & Hc2 & Hl2 & _).
  pose proof (free_targets_ok now _ H2) as H3.
  destruct (ip_registry_update_free_targets now _) as [e3 f3]. simpl fst.
  destruct H3 as (H3 & Ha3 & Hc3 & Hat3 & _ & _).
  assert (entry_ok (set_last e3 (NOW now))) as H4 by exact H3.
  destruct (count_attempt_spec _ H4) as [H5 Hat5]. split_and!; [done| | |].
  - simpl. by rewrite Ha3, Ha2.
  - simpl. by rewrite Hc3, Hc2.
  - rewrite Hat5. simpl. rewrite Hat3. unfold local_attempts, reset_attempts. simpl.
    by destruct (_ <? _).
Qed.

(** ip_registry_check_local() on a known address, branch by branch. *)
Lemma check_local_known now cfg t ip e :
  ip_registry_find t ip = Some e -> entry_ok e ->
  ip_registry_check_local now cfg t ip =
    if connected e =? 65535 then (ip_registry_put t ip (set_connected e 65535), None, false)
    else
      let e' := local_entry now cfg e in
      if local_attempts now cfg e <? IPCHECK_CLONE_LIMIT cfg then
        (ip_registry_put t ip e', Some (now - u32 (TARGET_DELAY * local_free now cfg e - 1)), true)
      else if (now - since_me cfg <? IPCHECK_CLONE_DELAY cfg) && negb (NOTHROTTLE cfg) then
        (ip_registry_put t ip (set_connected e' (connected e)), None, false)
      else (ip_registry_put t ip e', None, true).
Proof.
  intros Hf He. unfold ip_registry_check_local. rewrite Hf. pose proof (proj1 He).
  destruct (decide (connected e = 65535)) as [Hc|Hc]; [rewrite Hc; done|].
  rewrite (proj2 (Z.eqb_neq (connected e) 65535)) by done.
  assert (u16 (connected e + 1) = connected e + 1) as -> by (apply Z.mod_small; lia).
  destruct (connected e + 1 =? 0) eqn:E0; bprop; [lia|].
  destruct (local_entry_spec now cfg e He ltac:(lia)) as (_ & _ & Hconn & Hatt).
  rewrite <- Hatt. unfold local_entry, local_free in *. cbv zeta.
  destruct (ip_registry_update_free_targets now _) as [e3 f3]. cbn [fst snd] in *.
  rewrite Hconn. unfold u16. rewrite Z.add_simpl_r, Z.mod_small by lia. done.
Qed.

Section Counts.
Context (now : Z) (cfg : config) (t : registry) (ip : Z) (t_ok : registry_ok t).

(** The registry stays well formed and other addresses keep their entries. *)
Definition frame (t' : registry) : Prop :=
  registry_ok t' /\ forall ip', ip' <> ip -> ip_registry_find t' ip' = ip_registry_find t ip'.

Lemma put_frame x e :
  ip_registry_find t ip = Some x -> addr e = ip -> entry_ok e ->
  frame (ip_registry_put t ip e) /\ ip_registry_count (ip_registry_put t ip e) ip = connected e.
Proof.
  intros Hx Ha He. pose proof (registry_put_updates t ip x e t_ok Hx Ha He) as H.
  by apply updates_frame in H as (H1 & H2 & ->).
Qed.

Lemma add_frame e :
  ip_registry_find t ip = None -> addr e = ip -> entry_ok e ->
  frame (ip_registry_add t e) /\ ip_registry_count (ip_registry_add t e) ip = connected e.
Proof.
  intros Hx Ha He. rewrite <- Ha in Hx. pose proof (registry_add_updates t e t_ok Hx He) as H.
  rewrite Ha in H. by apply updates_frame in H as (H1 & H2 & ->).
Qed.

Lemma local_counts :
  let '(t', _, ok) := ip_registry_check_local now cfg t ip in
  frame t' /\ ip_registry_count t' ip =
    if ok then ip_registry_count t ip + 1 else ip_registry_count t ip.
Proof.
  destruct (ip_registry_find t ip) as [e|] eqn:Hf.
  2:{ rewrite (count_none _ _ Hf). unfold ip_registry_check_local. rewrite Hf.
      by apply add_frame; [..|apply new_entry_ok]. }
  destruct (registry_find_ok t ip e t_ok Hf) as [Ha He]. rewrite (count_of _ _ _ Hf).
  rewrite (check_local_known now cfg t ip e Hf He). pose proof (proj1 He).
  destruct (connected e =? 65535) eqn:E; bprop.
  { rewrite E. apply (put_frame e); [done|done|]. apply set_connected_ok; [done|lia]. }
  destruct (local_entry_spec now cfg e He ltac:(lia)) as (Hl & Hal & Hcl & _). rewrite Ha in Hal.
  cbv zeta. destruct (_ <? _); [rewrite <- Hcl; by apply (put_frame e)|].
  destruct (_ && _); [|rewrite <- Hcl; by apply (put_frame e)].
  apply (put_frame e (set_connected (local_entry now cfg e) (connected e))); [done|done|].
  apply set_connected_ok; [done|lia].
Qed.

Lemma remote_counts burst :
  let (t', ok) := ip_registry_check_remote now cfg t ip burst in
  frame t' /\ (ok = false <-> ip_registry_count t ip = 65535) /\
  ip_registry_count t' ip = if ok then ip_registry_count t ip + 1 else 0.
Proof.
  unfold ip_registry_check_remote. destruct (ip_registry_find t ip) as [e|] eqn:Hf.
  2:{ rewrite (count_none _ _ Hf).
      assert (forall e, addr e = ip -> entry_ok e -> connected e = 1 ->
        frame (ip_registry_add t e) /\ (true = false <-> 0 = 65535) /\
        ip_registry_count (ip_registry_add t e) ip = 0 + 1) as Hadd.
      { intros e Ha He Hc. destruct (add_frame e Hf Ha He) as [? ->]. by rewrite Hc. }
      destruct burst; apply Hadd; try done; unfold entry_ok; simpl; lia. }
  destruct (registry_find_ok t ip e t_ok Hf) as [Ha He]. rewrite (count_of _ _ _ Hf).
  pose proof (proj1 He). destruct (decide (connected e = 65535)) as [Hc|Hc].
  { rewrite Hc. change (u16 (65535 + 1)) with 0. cbn [Z.eqb].
    destruct (put_frame e (set_connected e 0) Hf Ha) as [H1 ->]; [apply set_connected_ok; [done|lia]|].
    by split_and!. }
  assert (u16 (connected e + 1) = connected e + 1) as -> by (apply Z.mod_small; lia).
  destruct (connected e + 1 =? 0) eqn:E0; bprop; [lia|].
  set (e1 := set_connected e (connected e + 1)).
  assert (entry_ok e1) as H1 by (apply set_connected_ok; [done|lia]).
  destruct (reset_attempts_ok now cfg e1 H1) as (H2 & Ha2 & Hc2 & _).
  destruct (count_attempt_spec _ H2) as [H3 _]. pose proof (free_targets_ok now _ H3) as H4.
  assert (forall e', addr e' = addr e -> entry_ok e' -> connected e' = connected e + 1 ->
    frame (ip_registry_put t ip e') /\ (true = false <-> connected e = 65535) /\
    ip_registry_count (ip_registry_put t ip e') ip = connected e + 1) as Hput.
  { intros e' Ha' He' Hc'. rewrite Ha in Ha'. destruct (put_frame e e' Hf Ha' He') as [? ->]. done. }
  destruct burst; [by apply Hput; rewrite ?Ha2, ?Hc2|].
  destruct (ip_registry_update_free_targets now _) as [e4 f]. cbn [fst].
  destruct H4 as (H4 & Ha4 & Hc4 & _). apply Hput.
  - simpl. by rewrite Ha4.
  - exact H4.
  - simpl. rewrite Hc4. simpl. by rewrite Hc2.
Qed.

Lemma store_targets_ok e tg nt ft :
  entry_ok e -> entry_ok (store_targets now e tg nt ft) /\
  addr (store_targets now e tg nt ft) = addr e /\ connected (store_targets now e tg nt ft) = connected e.
Proof.
  intros (H1 & H2 & H3). split_and!; [|done|done]. unfold entry_ok, store_targets. simpl.
  split_and!; [lia..| |]; assert (0 <= leaving_targets now nt ft) by (apply Z.mod_pos_bound; lia);
    unfold STARTTARGETS in *; destruct (target e); destruct (_ <? _) eqn:E; bprop; lia.
Qed.

Lemma disconnect_counts local :
  0 < ip_registry_count t ip ->
  exists t', ip_registry_disconnect now cfg t ip local = Some t' /\ frame t' /\
    ip_registry_count t' ip = ip_registry_count t ip - 1.
Proof.
  unfold ip_registry_count at 1 3. destruct (ip_registry_find t ip) as [e|] eqn:Hf; [|lia]. intros Hn.
  destruct (registry_find_ok t ip e t_ok Hf) as [Ha He]. pose proof (proj1 He).
  unfold ip_registry_disconnect. rewrite Hf. cbn [mbind option_bind].
  rewrite (proj2 (Z.leb_gt _ _)) by lia.
  assert (u16 (connected e - 1) = connected e - 1) as -> by (apply Z.mod_small; lia).
  set (e1 := set_connected e (connected e - 1)).
  assert (entry_ok e1) as H1 by (apply set_connected_ok; [done|lia]).
  match goal with |- context [store_targets now ?x] => set (e2 := x) end.
  assert (entry_ok e2 /\ addr e2 = ip /\ connected e2 = connected e - 1) as (H2 & Ha2 & Hc2).
  { unfold e2. destruct (connected e - 1 =? 0); [|done].
    match goal with |- context [ip_registry_update_free_targets now ?x] => set (e3 := x) end.
    assert (entry_ok e3 /\ addr e3 = ip /\ connected e3 = connected e - 1) as (H3 & Ha3 & Hc3).
    { unfold e3. destruct (_ <? _); [|done]. destruct H1 as (? & _ & ?). unfold entry_ok. simpl.
      split_and!; done || lia. }
    pose proof (free_targets_ok now e3 H3) as H4.
    destruct (ip_registry_update_free_targets now e3) as [e4 f]. destruct H4 as (H4 & Ha4 & Hc4 & _).
    simpl. split_and!; [exact H4|congruence|congruence]. }
  eexists. split; [done|]. destruct local as [[[tg nt] ft]|]; rewrite <- Hc2; [|by apply (put_frame e)].
  destruct (store_targets_ok e2 tg nt ft H2) as (H5 & Ha5 & <-). apply (put_frame e); [done|congruence|done].
Qed.

Lemma disconnect_ip_counts :
  frame (ip_registry_disconnect_ip t ip) /\
  ip_registry_count (ip_registry_disconnect_ip t ip) ip = Z.max 0 (ip_registry_count t ip - 1).
Proof.
  unfold ip_registry_disconnect_ip. destruct (ip_registry_find t ip) as [e|] eqn:Hf.
  2:{ by rewrite (count_none _ _ Hf). }
  destruct (registry_find_ok t ip e t_ok Hf) as [Ha He]. rewrite (count_of _ _ _ Hf).
  pose proof (proj1 He). destruct (0 <? connected e) eqn:E; bprop.
  - destruct (put_frame e (set_connected e (connected e - 1)) Hf Ha) as [? ->];
      [apply set_connected_ok; [done|lia]|]. split; [done|simpl; lia].
  - rewrite (count_of _ _ _ Hf). split; [done|lia].
Qed.

Lemma connect_fail_counts :
  frame (ip_registry_connect_fail t ip) /\
  ip_registry_count (ip_registry_connect_fail t ip) ip = ip_registry_count t ip.
Proof.
  unfold ip_registry_connect_fail. destruct (ip_registry_find t ip) as [e|] eqn:Hf; [|done].
  destruct (registry_find_ok t ip e t_ok Hf) as [Ha He]. rewrite (count_of _ _ _ Hf).
  assert (forall n, 0 <= u8 n < 2 ^ 8) as H8 by (intros; by apply Z.mod_pos_bound).
  cbv zeta. match goal with |- context [set_attempts e ?x] => assert (0 <= x < 2 ^ 8) as Hx
    by (destruct (_ =? 0); apply H8); set (n := x) in * end.
  destruct (put_frame e (set_attempts e n) Hf Ha) as [? ->]; [|done].
  destruct He as (? & _ & ?). unfold entry_ok. cbn [connected attempts target set_attempts].
  split_and!; done || lia.
Qed.
End Counts.

(** ** Properties *)

(** C35: the counter of an address is the number of its connections: an accepted
    connection adds one, a refused local one adds nothing, a disconnection takes
    one away and a failed one nothing, and every operation keeps the registry
    well formed and the other addresses' entries; a remote connection is refused
    at 65535 connections only, but then the counter is left at 0. *)
Theorem ip_registry_counts now cfg t ip :
  registry_ok t ->
  let n := ip_registry_count t ip in
  let counts t' m := (registry_ok t' /\
    forall ip', ip' <> ip -> ip_registry_find t' ip' = ip_registry_find t ip') /\
    ip_registry_count t' ip = m in
  (let '(t', _, ok) := ip_registry_check_local now cfg t ip in counts t' (if ok then n + 1 else n)) /\
  (forall burst, let (t', ok) := ip_registry_check_remote now cfg t ip burst in
   (ok = false <-> n = 65535) /\ counts t' (if ok then n + 1 else 0)) /\
  (0 < n -> forall local, exists t', ip_registry_disconnect now cfg t ip local = Some t' /\
   counts t' (n - 1)) /\
  counts (ip_registry_disconnect_ip t ip) (Z.max 0 (n - 1)) /\
  counts (ip_registry_connect_fail t ip) n.
Proof.
  intros Hok n counts. split_and!.
  - by apply local_counts.
  - intros burst. pose proof (remote_counts now cfg t ip Hok burst) as H.
    destruct (ip_registry_check_remote _ _ _ _ _) as [t' ok]. destruct H as (H1 & H2 & H3).
    split; [exact H2|by split].
  - intros Hn local. by apply disconnect_counts.
  - by apply disconnect_ip_counts.
  - by apply connect_fail_counts.
Qed.

(** The default configuration, on a server started at time 1000. *)
Definition sample_cfg : config :=
  {| IPCHECK_CLONE_LIMIT := 4; IPCHECK_CLONE_PERIOD := 40; IPCHECK_CLONE_DELAY := 600;
     NOTHROTTLE := false; since_me := 1000 |}.

Definition sample_entry : IPRegistryEntry :=
  {| target := Some {| tg_count := 0; tg_targets := [] |}; addr := 3232235777;
     last_connect := 1010; connected := 3; attempts := 7 |}.

Definition sample_registry : registry := ip_registry_add empty sample_entry.

Lemma sample_registry_ok : registry_ok sample_registry.
Proof.
  apply registry_add_updates; [|by vm_compute|unfold entry_ok, STARTTARGETS; simpl; lia].
  intros b. unfold chain. rewrite lookup_empty. split; constructor.
Qed.

Lemma ip_registry_counts_witness :
  let '(t', _, ok) := ip_registry_check_local 2000 sample_cfg sample_registry 3232235777 in
  ip_registry_count t' 3232235777 = (if ok : bool then 4 else 3).
Proof.
  pose proof (ip_registry_counts 2000 sample_cfg sample_registry 3232235777 sample_registry_ok) as H.
  cbv zeta in H. destruct H as [H _].
  destruct (ip_registry_check_local 2000 sample_cfg sample_registry 3232235777) as [[t' o] ok].
  destruct H as [_ H]. rewrite H. by destruct ok.
Defined.

(** A further local connection of an address below 65535 connections is
    refused exactly when its attempts within the clone period reach the limit,
    throttling is on, and the server has been up for LESS than the clone delay;
    so once the delay has passed none is ever throttled.  When it is accepted
    below the limit with no free target left, the time of its next target is set
    2^32 - 1 seconds into the past. *)
Theorem ip_registry_throttle now cfg t ip e :
  registry_ok t -> ip_registry_find t ip = Some e -> connected e < 65535 ->
  let '(t', next, ok) := ip_registry_check_local now cfg t ip in
  (ok = false <-> IPCHECK_CLONE_LIMIT cfg <= local_attempts now cfg e /\
     now - since_me cfg < IPCHECK_CLONE_DELAY cfg /\ NOTHROTTLE cfg = false) /\
  (IPCHECK_CLONE_DELAY cfg <= now - since_me cfg -> ok = true) /\
  (forall tg, target e = Some tg -> tg_count tg = 0 ->
     0 <= CONNECTED_SINCE now (last_connect e) < TARGET_DELAY ->
     local_attempts now cfg e < IPCHECK_CLONE_LIMIT cfg -> next = Some (now - (2 ^ 32 - 1))).
Proof.
  intros Hok Hf Hc. destruct (registry_find_ok t ip e Hok Hf) as [_ He].
  rewrite (check_local_known now cfg t ip e Hf He).
  rewrite (proj2 (Z.eqb_neq (connected e) 65535)) by lia. cbv zeta.
  assert (forall tg, target e = Some tg -> tg_count tg = 0 ->
    0 <= CONNECTED_SINCE now (last_connect e) < TARGET_DELAY -> local_free now cfg e = 0) as Hfree.
  { intros tg Htg H0 Hs. unfold local_free, ip_registry_update_free_targets, reset_attempts.
    set (e1 := set_connected e (connected e + 1)).
    assert (forall e1, target e1 = Some tg -> last_connect e1 = last_connect e ->
      snd (match target e1 with
       | None => (e1, STARTTARGETS)
       | Some tg => let free := u32 (tg_count tg + Z.quot (CONNECTED_SINCE now (last_connect e1)) TARGET_DELAY) in
         let free := if STARTTARGETS <? free then STARTTARGETS else free in
         (set_target e1 (Some {| tg_count := free; tg_targets := tg_targets tg |}), free)
       end) = 0) as H.
    { intros e2 -> ->. rewrite H0, Z.quot_small by done. done. }
    apply H; unfold e1; by destruct (_ <? _). }
  destruct (local_attempts now cfg e <? IPCHECK_CLONE_LIMIT cfg) eqn:E; bprop.
  - split_and!; [split; [done|intros; lia]|done|]. intros tg Htg H0 Hs _.
    rewrite (Hfree tg Htg H0 Hs). done.
  - destruct (now - since_me cfg <? IPCHECK_CLONE_DELAY cfg) eqn:E2; bprop; cbn [andb].
    + destruct (NOTHROTTLE cfg); cbn [negb]; split_and!; try (intros; lia); split; intuition (done || lia).
    + split_and!; [split; [done|intros; lia]|done|intros; lia].
Qed.

Lemma ip_registry_throttle_witness :
  let '(_, _, ok) := ip_registry_check_local 2000 sample_cfg sample_registry 3232235777 in
  ok = true /\ 4 <= local_attempts 1020 sample_cfg sample_entry.
Proof.
  pose proof (ip_registry_throttle 2000 sample_cfg sample_registry 3232235777 sample_entry
    sample_registry_ok ltac:(by vm_compute) ltac:(simpl; lia)) as H.
  destruct (ip_registry_check_local _ _ _ _) as [[t' o] ok]. destruct H as (_ & H & _).
  split; [apply H; simpl; lia|vm_compute; done].
Defined.

(** Ip_registry_expire() looks up as before except that entries with no
    connection lose their targets when they are more than 120 seconds old and
    disappear when they are more than 600 seconds old; an entry with a connection
    is never touched, and the registry stays well formed. *)
Theorem ip_registry_expire_correct now t :
  registry_ok t ->
  registry_ok (ip_registry_expire now t) /\
  forall ip, match ip_registry_find t ip with
    | None => ip_registry_find (ip_registry_expire now t) ip = None
    | Some e =>
        let age := CONNECTED_SINCE now (last_connect e) in
        ip_registry_find (ip_registry_expire now t) ip =
          if negb (connected e =? 0) then Some e
          else if 600 <? age then None
          else if 120 <? age then Some (set_target e None) else Some e
    end.
Proof.
  intros Hok. split.
  - intros b. rewrite chain_expire. destruct (Hok b) as [Hn Hall]. split.
    + eapply sublist_NoDup; [exact Hn|apply expire_chain_sub].
    + clear Hn. induction Hall as [|e l [Hh He] Hl IH]; [constructor|]. cbn [expire_chain].
      destruct (expire_one now e) as [e'|] eqn:E; [|done]. constructor; [|done].
      rewrite (expire_one_addr _ _ _ E). split; [done|by eapply expire_one_ok].
  - intros ip. unfold ip_registry_find. rewrite chain_expire.
    rewrite expire_chain_find by apply Hok.
    destruct (find_in ip _) as [e|]; [|done]. cbn [mbind option_bind]. unfold expire_one.
    destruct (connected e =? 0); cbn [negb]; [|done]. done.
Qed.

Lemma ip_registry_expire_correct_witness :
  registry_ok sample_registry /\
  ip_registry_find (ip_registry_expire 2000 sample_registry) 3232235777 = Some sample_entry.
Proof.
  split; [apply sample_registry_ok|].
  pose proof (proj2 (ip_registry_expire_correct 2000 sample_registry sample_registry_ok) 3232235777) as H.
  vm_compute in H |- *. done.
Defined.
