(* ===== verification/Watch.v ===== *)
(** * ircd/watch.c, m_watch.c: who is told when a nick comes and goes

    A watched nick is an entry of the watch table with the list of the clients
    that watch it, and each client has the list of the nicks he watches.  The
    two lists of links (struct SLink) are sequences; a record that is reached
    through a dangling pointer, and a failing assertion, are [None].  The table
    is any table of named entries: the theorems are proved over its interface
    and hold of the hash table by its instance. *)
From S2P Require Import Prelude Chattr NumText IrcdString NameTable Hash.

(** struct Watch; its [wt_next] belongs to the table. *)
Record Watch := MkWatch {
  wt_watch : list N;
  wt_nick : list Z;
  wt_lasttime : Z }.

(** The records by address, the table, watchCount, and the lists and counters
    of the clients, by address. *)
Record watches (T : Type) := MkWatches {
  wt_store : gmap entry_id Watch;
  watchTable : T;
  watchCount : Z;
  user_watch : gmap N (list entry_id);
  user_watches : gmap N Z }.
Arguments MkWatches {T}. Arguments wt_store {T}. Arguments watchTable {T}.
Arguments watchCount {T}. Arguments user_watch {T}. Arguments user_watches {T}.

Definition set_wt_watch (l : list N) (w : Watch) : Watch := MkWatch l (wt_nick w) (wt_lasttime w).
Definition set_wt_lasttime (t : Z) (w : Watch) : Watch := MkWatch (wt_watch w) (wt_nick w) t.

Section watch.
Context {T : Type} `{NameTable T}.
Abbreviation state := (watches T).

(** [wt_nick] of the record at an address. *)
Definition nick_of (store : gmap entry_id Watch) (p : entry_id) : list Z :=
  match store !! p with Some w => wt_nick w | None => [] end.

Definition watched_by (st : state) (c : N) : list entry_id := default [] (user_watch st !! c).
Definition count_of (st : state) (c : N) : Z := default 0 (user_watches st !! c).

Definition set_store (s : gmap entry_id Watch) (st : state) : state :=
  MkWatches s (watchTable st) (watchCount st) (user_watch st) (user_watches st).
Definition set_table (t : T) (st : state) : state :=
  MkWatches (wt_store st) t (watchCount st) (user_watch st) (user_watches st).
Definition set_watchCount (n : Z) (st : state) : state :=
  MkWatches (wt_store st) (watchTable st) n (user_watch st) (user_watches st).
Definition set_user (c : N) (l : list entry_id) (n : Z) (st : state) : state :=
  MkWatches (wt_store st) (watchTable st) (watchCount st)
    (<[c := l]> (user_watch st)) (<[c := n]> (user_watches st)).

(** FindWatch(): the search may reorder the table. *)
Definition FindWatch (nick : list Z) (st : state) : option (option entry_id * state) :=
  '(t, o) ← nt_seek (nick_of (wt_store st)) (watchTable st) nick;
  Some (o, set_table t st).

(** make_watch(); [block] is what MyMalloc() returns. *)
Definition make_watch (block : entry_id) (nick : list Z) (st : state) : option state :=
  let st := set_store (<[block := MkWatch [] nick 0]> (wt_store st)) st in
  t ← nt_add (nick_of (wt_store st)) (watchTable st) block;
  Some (set_watchCount (watchCount st + 1) (set_table t st)).

Definition free_watch (p : entry_id) (st : state) : option state :=
  '(t, _) ← nt_rem (nick_of (wt_store st)) (watchTable st) p;
  _ ← wt_store st !! p;
  Some (set_watchCount (watchCount st - 1) (set_store (delete p (wt_store st)) (set_table t st))).

(** check_status_watch(): the clients told, in order. *)
Definition check_status_watch (now : Z) (nick : list Z) (st : state) : option (list N * state) :=
  '(o, st) ← FindWatch nick st;
  match o with
  | None => Some ([], st)
  | Some p =>
      w ← wt_store st !! p;
      Some (wt_watch w, set_store (<[p := set_wt_lasttime now w]> (wt_store st)) st)
  end.

(** The record of the nick, created when there is none. *)
Definition find_or_make (now : Z) (block : entry_id) (nick : list Z) (st : state)
  : option (entry_id * state) :=
  '(o, st) ← FindWatch nick st;
  match o with
  | Some p => Some (p, st)
  | None =>
      st ← make_watch block nick st;
      w ← wt_store st !! block;
      Some (block, set_store (<[block := set_wt_lasttime now w]> (wt_store st)) st)
  end.

Definition add_nick_watch (now : Z) (block : entry_id) (cptr : N) (nick : list Z) (st : state)
  : option state :=
  '(p, st) ← find_or_make now block nick st;
  w ← wt_store st !! p;
  if decide (cptr ∈ wt_watch w) then Some st
  else
    let st := set_store (<[p := set_wt_watch (cptr :: wt_watch w) w]> (wt_store st)) st in
    Some (set_user cptr (p :: watched_by st cptr) (u32 (count_of st cptr + 1)) st).

(** The release of a record nobody watches any more. *)
Definition release_watch (p : entry_id) (st : state) : option state :=
  w ← wt_store st !! p;
  match wt_watch w with [] => free_watch p st | _ => Some st end.

Definition del_nick_watch (cptr : N) (nick : list Z) (st : state) : option state :=
  '(o, st) ← FindWatch nick st;
  match o with
  | None => Some st
  | Some p =>
      w ← wt_store st !! p;
      match unlink_first cptr (wt_watch w) with
      | None => Some st
      | Some l =>
          let st := set_store (<[p := set_wt_watch l w]> (wt_store st)) st in
          ul ← unlink_first p (watched_by st cptr);
          let n := count_of st cptr in
          let st := set_user cptr ul n st in
          st ← release_watch p st;
          Some (set_user cptr ul (u32 (n - 1)) st)
      end
  end.

(** The loop of del_list_watch() over the client's links. *)
Fixpoint del_links (cptr : N) (links : list entry_id) (st : state) : option state :=
  match links with
  | [] => Some st
  | p :: r =>
      w ← wt_store st !! p;
      l ← unlink_first cptr (wt_watch w);
      let st := set_store (<[p := set_wt_watch l w]> (wt_store st)) st in
      st ← release_watch p st;
      del_links cptr r st
  end.

Definition del_list_watch (cptr : N) (st : state) : option state :=
  match watched_by st cptr with
  | [] => Some st
  | links => st ← del_links cptr links st; Some (set_user cptr [] 0 st)
  end.

(** ** The WATCH command *)

(** The nick of a parameter after its sign, cut at a '!'. *)
Definition watch_nick (s : list Z) : list Z :=
  match ircd_strtok (Some s) [33] with
  | Some (nick, _) => nick
  | None => s
  end.

Definition refused_nick (nick : list Z) : bool :=
  existsb (fun c => (c =? 42) || (c =? 46) || (c =? 64)) nick.

(** One token of a parameter; the replies and the tokens that only ask for
    them are left out.  [blocks] holds, for each token that may add a nick, what
    MyMalloc() returns if it is called. *)
Definition watch_token (maxwatchs now : Z) (cptr : N) (s : list Z)
    (blocks : list entry_id) (st : state) : option (list entry_id * state) :=
  if (hd0 s =? 43) || (hd0 s =? 45) then
    let nick := watch_nick (tl s) in
    if refused_nick nick then Some (blocks, st)
    else
      let nick := take NICKLEN nick in
      match nick with
      | [] => Some (blocks, st)
      | _ =>
          if hd0 s =? 43 then
            if u32 maxwatchs <=? count_of st cptr then Some (blocks, st)
            else
              match blocks with
              | [] => None
              | b :: blocks => st ← add_nick_watch now b cptr nick st; Some (blocks, st)
              end
          else st ← del_nick_watch cptr nick st; Some (blocks, st)
      end
  else if (hd0 s =? 67) || (hd0 s =? 99) then st ← del_list_watch cptr st; Some (blocks, st)
  else Some (blocks, st).

Fixpoint watch_tokens (maxwatchs now : Z) (cptr : N) (l : list (list Z))
    (blocks : list entry_id) (st : state) : option (list entry_id * state) :=
  match l with
  | [] => Some (blocks, st)
  | s :: r =>
      '(blocks, st) ← watch_token maxwatchs now cptr s blocks st;
      watch_tokens maxwatchs now cptr r blocks st
  end.

(** m_watch(): the loop starts at [parv[0]], the name of the sender. *)
Definition m_watch (maxwatchs now : Z) (cptr : N) (parv : list (list Z))
    (blocks : list entry_id) (st : state) : option (list entry_id * state) :=
  let parv := match parv with [me] => [me; lit "l"] | _ => parv end in
  watch_tokens maxwatchs now cptr (concat (map (fun p => tokens p [44; 32]) parv)) blocks st.

(** ** What the lists mean *)

(** Client [c] watches the nick [n], in any case. *)
Definition watching (st : state) (c : N) (n : list Z) : Prop :=
  exists p w, wt_store st !! p = Some w /\ lower (wt_nick w) = lower n /\ c ∈ wt_watch w.

(** The records, the table and the lists of links of the clients agree; [ub] is
    the part of the clients' lists that is still linked. *)
Record links_ok (st : state) (ub : N -> list entry_id) : Prop := {
  lk_table : nt_ok (nick_of (wt_store st)) (watchTable st);
  lk_mem p : nt_mem (watchTable st) p <-> is_Some (wt_store st !! p);
  lk_rec p w : wt_store st !! p = Some w -> nameable (wt_nick w) /\ NoDup (wt_watch w) /\ wt_watch w <> [];
  lk_uniq p q w w' : wt_store st !! p = Some w -> wt_store st !! q = Some w' ->
    lower (wt_nick w) = lower (wt_nick w') -> p = q;
  lk_links p c : p ∈ ub c <-> exists w, wt_store st !! p = Some w /\ c ∈ wt_watch w;
  lk_nodup c : NoDup (ub c);
  lk_count : watchCount st = Z.of_nat (size (wt_store st)) }.

Definition watch_ok (st : state) : Prop :=
  links_ok st (watched_by st) /\ forall c, count_of st c = u32 (Z.of_nat (length (watched_by st c))).

Context `{!NameTableLaws T}.

Lemma FindWatch_spec st ub nick :
  links_ok st ub -> nameable nick ->
  exists t o, FindWatch nick st = Some (o, set_table t st) /\ links_ok (set_table t st) ub /\
    match o with
    | Some p => exists w, wt_store st !! p = Some w /\ lower (wt_nick w) = lower nick
    | None => forall p w, wt_store st !! p = Some w -> lower (wt_nick w) <> lower nick
    end.
Proof.
  intros [] Hn. unfold FindWatch.
  destruct (nt_seek_ok _ _ nick lk_table0 Hn) as (t & o & -> & Ht & Hmem & Ho).
  exists t, o. split; [done|]. split.
  { constructor; cbn; auto. intros p. by rewrite Hmem. }
  destruct o as [p|].
  - destruct Ho as [Hp Hl]. apply lk_mem0 in Hp as [w Hw]. exists w. split; [done|].
    unfold nick_of in Hl. by rewrite Hw in Hl.
  - intros p w Hw Hl. apply (Ho p); [apply lk_mem0; eauto|]. unfold nick_of. by rewrite Hw.
Qed.

(** A record with the nick that is searched for is the one that is found. *)
Lemma watching_found st ub p w nick c :
  links_ok st ub -> wt_store st !! p = Some w -> lower (wt_nick w) = lower nick ->
  watching st c nick <-> c ∈ wt_watch w.
Proof.
  intros Hok Hw Hl. split; [|by exists p, w].
  intros (q & w' & Hw' & Hl' & Hc).
  assert (q = p) as -> by (eapply (lk_uniq _ _ Hok); [done..|congruence]). congruence.
Qed.

Lemma nick_of_insert store p w w' q :
  store !! p = Some w -> wt_nick w' = wt_nick w -> nick_of (<[p := w']> store) q = nick_of store q.
Proof.
  intros Hw Hn. unfold nick_of. destruct (decide (q = p)) as [->|Hne].
  - by rewrite lookup_insert_eq, Hw.
  - by rewrite lookup_insert_ne by done.
Qed.

(** A record whose watchers change, none of them lost by the links. *)
Lemma links_ok_update st ub ub' p w w' :
  links_ok st ub -> wt_store st !! p = Some w -> wt_nick w' = wt_nick w ->
  NoDup (wt_watch w') -> wt_watch w' <> [] ->
  (forall c, NoDup (ub' c)) ->
  (forall q c, q ∈ ub' c <-> if decide (q = p) then c ∈ wt_watch w' else q ∈ ub c) ->
  links_ok (set_store (<[p := w']> (wt_store st)) st) ub'.
Proof.
  intros [] Hw Hn Hnd Hne Hub Hl. constructor; cbn; auto.
  - eapply nt_ext; [done|]. intros x _. symmetry. by apply nick_of_insert with w.
  - intros q. rewrite lk_mem0. destruct (decide (q = p)) as [->|].
    + rewrite lookup_insert_eq, Hw. by split; eexists.
    + by rewrite lookup_insert_ne.
  - intros q v. destruct (decide (q = p)) as [->|].
    + rewrite lookup_insert_eq. intros [= <-]. rewrite Hn. split; [by apply (lk_rec0 p w)|done].
    + rewrite lookup_insert_ne by done. apply lk_rec0.
  - intros q r v v' Hq Hr Hv.
    assert (Hx : forall x y, <[p := w']> (wt_store st) !! x = Some y ->
       exists y', wt_store st !! x = Some y' /\ wt_nick y' = wt_nick y).
    { intros x y. destruct (decide (x = p)) as [->|].
      - rewrite lookup_insert_eq. intros [= <-]. eauto.
      - rewrite lookup_insert_ne by done. eauto. }
    apply Hx in Hq as (a & Ha & Ea). apply Hx in Hr as (b & Hb & Eb).
    eapply lk_uniq0; [done..|congruence].
  - intros q c. rewrite Hl. destruct (decide (q = p)) as [->|].
    + rewrite lookup_insert_eq. split; [by exists w'|]. by intros (? & [= <-] & ?).
    + rewrite lookup_insert_ne by done. apply lk_links0.
  - rewrite map_size_insert_Some; eauto.
Qed.

Lemma links_ok_delete st ub ub' p w f :
  links_ok st ub -> wt_store st !! p = Some w ->
  (forall q, f q = nick_of (wt_store st) q) ->
  (forall c, NoDup (ub' c)) ->
  (forall q c, q ∈ ub' c <-> q <> p /\ q ∈ ub c) ->
  exists t, nt_rem f (watchTable st) p = Some (t, 0) /\
    links_ok (set_watchCount (watchCount st - 1)
      (set_store (delete p (wt_store st)) (set_table t st))) ub'.
Proof.
  intros [] Hw Hf Hub Hl.
  destruct (nt_rem_ok f (watchTable st) p) as (t & -> & Ht & Hm);
    [by eapply nt_ext; [apply lk_table0|]|apply lk_mem0; eauto|].
  exists t. split; [done|]. constructor; cbn; auto.
  - eapply nt_ext; [done|]. intros x Hx. apply Hm in Hx as [Hx _].
    rewrite Hf. unfold nick_of. by rewrite lookup_delete_ne.
  - intros q. rewrite Hm, lk_mem0. destruct (decide (q = p)) as [->|].
    + rewrite lookup_delete_eq. split; [tauto|]. by intros [].
    + rewrite lookup_delete_ne by done. tauto.
  - intros q v Hq. apply lookup_delete_Some in Hq as [_ Hq]. eauto.
  - intros q r v v' Hq Hr. apply lookup_delete_Some in Hq as [_ Hq].
    apply lookup_delete_Some in Hr as [_ Hr]. eauto.
  - intros q c. rewrite Hl, lk_links0. setoid_rewrite lookup_delete_Some. naive_solver.
  - rewrite map_size_delete_Some by eauto. pose proof (lk_count0).
    assert (size (wt_store st) <> 0%nat); [|lia].
    intros E. apply map_size_empty_inv in E. by rewrite E, lookup_empty in Hw.
Qed.

(** The watchers of the nicks that other records than [p] have. *)
Definition watching_but (st : state) (p : entry_id) (c : N) (n : list Z) : Prop :=
  exists q w, q <> p /\ wt_store st !! q = Some w /\ lower (wt_nick w) = lower n /\ c ∈ wt_watch w.

Lemma watching_split st p w c n :
  wt_store st !! p = Some w ->
  watching st c n <-> watching_but st p c n \/ lower (wt_nick w) = lower n /\ c ∈ wt_watch w.
Proof.
  intros Hw. split.
  - intros (q & v & Hv & Hn & Hc). destruct (decide (q = p)) as [->|]; [|by left; exists q, v].
    right. by simplify_eq.
  - intros [(q & v & _ & ?)|[? ?]]; [by exists q, v|by exists p, w].
Qed.

Lemma watching_but_other st ub p w c n :
  links_ok st ub -> wt_store st !! p = Some w -> watching_but st p c n -> lower (wt_nick w) <> lower n.
Proof.
  intros Hok Hw (q & v & Hne & Hv & Hn & _) Hl. apply Hne.
  eapply (lk_uniq _ _ Hok); [done..|congruence].
Qed.

Lemma watching_insert st p w c n :
  watching (set_store (<[p := w]> (wt_store st)) st) c n <->
  watching_but st p c n \/ lower (wt_nick w) = lower n /\ c ∈ wt_watch w.
Proof.
  rewrite (watching_split _ p w) by apply lookup_insert_eq.
  assert (watching_but (set_store (<[p := w]> (wt_store st)) st) p c n <-> watching_but st p c n) as ->; [|done].
  unfold watching_but. cbn. setoid_rewrite lookup_insert_Some. naive_solver.
Qed.

Lemma watching_delete st p t k c n :
  watching (set_watchCount k (set_store (delete p (wt_store st)) (set_table t st))) c n <->
  watching_but st p c n.
Proof.
  unfold watching, watching_but. cbn. setoid_rewrite lookup_delete_Some. naive_solver.
Qed.

(** The step that del_nick_watch() and the loop of del_list_watch() share: the
    client leaves the record, and a record left by everybody is released. *)
Lemma drop_watcher st ub c p w ul :
  links_ok st ub -> wt_store st !! p = Some w -> unlink_first p (ub c) = Some ul ->
  c ∈ wt_watch w ->
  exists l st', unlink_first c (wt_watch w) = Some l /\
    release_watch p (set_store (<[p := set_wt_watch l w]> (wt_store st)) st) = Some st' /\
    links_ok st' (fun d => if decide (d = c) then ul else ub d) /\
    user_watch st' = user_watch st /\ user_watches st' = user_watches st /\
    (forall q, is_Some (wt_store st' !! q) -> is_Some (wt_store st !! q)) /\
    forall d n, watching st' d n <-> watching st d n /\ ~ (d = c /\ lower n = lower (wt_nick w)).
Proof.
  intros Hok Hw Hul Hc. destruct (lk_rec _ _ Hok _ _ Hw) as (_ & Hnd & _).
  destruct (unlink_first_in c _ Hnd Hc) as (l & El & Hl & _ & Hin). exists l.
  assert (Hpc : p ∈ ub c) by (apply (lk_links _ _ Hok); eauto).
  destruct (unlink_first_in p _ (lk_nodup _ _ Hok c) Hpc) as (ul' & E & Hul' & _ & Hiu).
  rewrite Hul in E. injection E as <-.
  set (ub' := fun d => if decide (d = c) then ul else ub d).
  assert (Hub : forall d, NoDup (ub' d)).
  { intros d. unfold ub'. case_decide; [done|apply (lk_nodup _ _ Hok)]. }
  assert (Hlk : forall q d, q ∈ ub' d <-> if decide (q = p) then d ∈ l else q ∈ ub d).
  { intros q d. unfold ub'. case_decide as Hd; subst.
    - rewrite Hiu. case_decide; subst; [rewrite Hin; tauto|tauto].
    - case_decide; [subst|done]. rewrite Hin, (lk_links _ _ Hok). naive_solver. }
  assert (Hwatch : forall d n, watching_but st p d n \/ lower (wt_nick w) = lower n /\ d ∈ l <->
    watching st d n /\ ~ (d = c /\ lower n = lower (wt_nick w))).
  { intros d n. rewrite (watching_split st p w d n Hw), Hin.
    pose proof (watching_but_other st ub p w d n Hok Hw).
    assert (lower n = lower (wt_nick w) <-> lower (wt_nick w) = lower n) by (split; congruence). tauto. }
  unfold release_watch. cbn [wt_store set_store]. rewrite lookup_insert_eq. cbn [mbind option_bind set_wt_watch wt_watch].
  destruct l as [|x l].
  - destruct (links_ok_delete st ub ub' p w (nick_of (<[p := set_wt_watch [] w]> (wt_store st))) Hok Hw)
      as (t & Ht & Hok'); [intros q; by apply nick_of_insert with w|done| |].
    { intros q d. rewrite Hlk. case_decide; set_solver. }
    unfold free_watch. cbn [wt_store watchTable set_store]. rewrite Ht. cbn [mbind option_bind set_table wt_store set_store].
    rewrite lookup_insert_eq, delete_insert_eq. eexists; split; [done|]. split; [done|].
    split; [exact Hok'|]. split; [done|]. split; [done|].
    split; [intros q [v Hq]; cbn in Hq; apply lookup_delete_Some in Hq as [_ Hq]; eauto|].
    intros d n. rewrite <- Hwatch. etransitivity; [exact (watching_delete st p t (watchCount st - 1) d n)|].
    split; [by left|]. intros [|[_ Hd]]; [done|by apply not_elem_of_nil in Hd].
  - eexists; split; [done|]. split; [done|]. split; [|split; [done|split; [done|split]]].
    + eapply links_ok_update with (p := p) (w := w) (ub := ub); eauto.
    + intros q Hq. cbn in Hq. apply lookup_insert_is_Some in Hq as [<-|[_ ?]]; eauto.
    + intros d n. rewrite watching_insert. apply Hwatch.
Qed.

Lemma links_ok_user st ub c l n : links_ok st ub -> links_ok (set_user c l n st) ub.
Proof. by intros []. Qed.

Lemma links_ok_ext st ub ub' : (forall c, ub c = ub' c) -> links_ok st ub -> links_ok st ub'.
Proof. intros E []. constructor; auto; intros; rewrite <- E; auto. Qed.

Lemma watched_by_set c l n st d :
  watched_by (set_user c l n st) d = if decide (d = c) then l else watched_by st d.
Proof.
  unfold watched_by, set_user. cbn. case_decide as E; [subst; by rewrite lookup_insert_eq|].
  by rewrite lookup_insert_ne.
Qed.

Lemma count_of_set c l n st d :
  count_of (set_user c l n st) d = if decide (d = c) then n else count_of st d.
Proof.
  unfold count_of, set_user. cbn. case_decide as E; [subst; by rewrite lookup_insert_eq|].
  by rewrite lookup_insert_ne.
Qed.

(** Setting a client's list to what is linked, with its length. *)
Lemma watch_ok_set st ub c l n :
  links_ok st ub -> (forall d, ub d = if decide (d = c) then l else watched_by st d) ->
  (forall d, d <> c -> count_of st d = u32 (Z.of_nat (length (watched_by st d)))) ->
  n = u32 (Z.of_nat (length l)) ->
  watch_ok (set_user c l n st).
Proof.
  intros Hok Hub Hcnt Hn. split.
  - apply links_ok_user. eapply links_ok_ext; [|exact Hok]. intros d. by rewrite Hub, watched_by_set.
  - intros d. rewrite count_of_set, watched_by_set. case_decide; auto.
Qed.

Lemma u32_succ k n : k = u32 (Z.of_nat n) -> u32 (k + 1) = u32 (Z.of_nat (S n)).
Proof. intros ->. unfold u32. rewrite Nat2Z.inj_succ. mlia. Qed.

Lemma u32_pred k n : k = u32 (Z.of_nat (S n)) -> u32 (k - 1) = u32 (Z.of_nat n).
Proof. intros ->. unfold u32. rewrite Nat2Z.inj_succ. mlia. Qed.

Lemma del_nick_watch_ok c nick st :
  watch_ok st -> nameable nick ->
  exists st', del_nick_watch c nick st = Some st' /\ watch_ok st' /\
    (forall d n, watching st' d n <-> watching st d n /\ ~ (d = c /\ lower n = lower nick)) /\
    (length (watched_by st' c) <= length (watched_by st c))%nat /\
    forall p, is_Some (wt_store st' !! p) -> is_Some (wt_store st !! p).
Proof.
  intros [Hok Hcnt] Hn. unfold del_nick_watch.
  destruct (FindWatch_spec _ _ nick Hok Hn) as (t & o & -> & Hokt & Ho). cbn [mbind option_bind].
  set (s1 := set_table t st) in *.
  assert (Hw1 : forall d n, watching s1 d n <-> watching st d n) by done.
  destruct o as [p|].
  2:{ exists s1. split; [done|]. split; [done|]. split; [|done]. intros d n. split; [|tauto]. intros Hd. split; [done|].
      intros [-> E]. destruct Hd as (p & w & Hp & Hl & _). apply (Ho p w Hp). congruence. }
  destruct Ho as (w & Hw & Hl). change (wt_store st) with (wt_store s1) in Hw. rewrite Hw. cbn [mbind option_bind].
  destruct (decide (c ∈ wt_watch w)) as [Hc|Hc].
  2:{ rewrite unlink_first_none by done. exists s1. split; [done|]. split; [done|]. split; [|done].
      intros d n. split; [|tauto]. intros Hd. split; [done|]. intros [-> E]. apply Hc.
      apply (watching_found s1 _ p w n c Hokt Hw); [congruence|done]. }
  assert (Hpc : p ∈ watched_by s1 c) by (apply (lk_links _ _ Hokt); eauto).
  destruct (unlink_first_in p _ (lk_nodup _ _ Hok c) Hpc) as (ul & Eul & _ & Hlen & _).
  change (watched_by s1 c) with (watched_by st c) in Eul.
  destruct (drop_watcher (set_user c ul (count_of st c) s1) (watched_by st) c p w ul)
    as (l & s2 & El & Er & Hok2 & Eu & Ec & Hdom & Hwat); [by apply links_ok_user|done..|].
  rewrite El.
  change (watched_by (set_store (<[p:=set_wt_watch l w]> (wt_store s1)) s1) c) with (watched_by st c).
  rewrite Eul. cbn [mbind option_bind].
  change (set_user c ul (count_of (set_store (<[p:=set_wt_watch l w]> (wt_store s1)) s1) c)
    (set_store (<[p:=set_wt_watch l w]> (wt_store s1)) s1)) with
    (set_store (<[p:=set_wt_watch l w]> (wt_store s1)) (set_user c ul (count_of st c) s1)).
  cbn [wt_store set_user] in Er. rewrite Er. eexists; split; [done|]. split; [|split; [|split; [|exact Hdom]]].
  - eapply watch_ok_set; [exact Hok2| | |].
    + intros d. unfold watched_by at 2. rewrite Eu. case_decide; [done|]. cbn. by rewrite lookup_insert_ne.
    + intros d Hd. unfold count_of, watched_by. rewrite Eu, Ec. cbn. rewrite !lookup_insert_ne by done. apply Hcnt.
    + apply u32_pred. rewrite <- Hlen. apply (Hcnt c).
  - intros d n. specialize (Hwat d n). rewrite Hl in Hwat. exact Hwat.
  - rewrite watched_by_set, decide_True by done. lia.
Qed.

Lemma del_links_ok c links st ub :
  links_ok st ub -> ub c = links ->
  exists st', del_links c links st = Some st' /\
    links_ok st' (fun d => if decide (d = c) then [] else ub d) /\
    user_watch st' = user_watch st /\ user_watches st' = user_watches st /\
    (forall q, is_Some (wt_store st' !! q) -> is_Some (wt_store st !! q)) /\
    forall d n, watching st' d n <-> watching st d n /\ d <> c.
Proof.
  revert st ub. induction links as [|p r IH]; intros st ub Hok Hub.
  - exists st. split; [done|]. split.
    { eapply links_ok_ext; [|exact Hok]. intros d. case_decide; congruence. }
    split; [done|]. split; [done|]. split; [done|]. intros d n. split; [|tauto].
    intros Hd. split; [done|]. intros ->. destruct Hd as (q & w & Hq & _ & Hc).
    assert (q ∈ ub c) as Hin by (apply (lk_links _ _ Hok); eauto).
    rewrite Hub in Hin. by apply not_elem_of_nil in Hin.
  - assert (Hp : p ∈ ub c) by (rewrite Hub; set_solver).
    apply (lk_links _ _ Hok) in Hp as (w & Hw & Hc).
    destruct (drop_watcher st ub c p w r Hok Hw) as (l & s2 & El & Er & Hok2 & Eu & Ec & Hdom & Hwat);
      [by rewrite Hub; cbn; rewrite decide_True|done|].
    cbn [del_links]. rewrite Hw. cbn [mbind option_bind]. rewrite El. cbn [mbind option_bind].
    rewrite Er. cbn [mbind option_bind].
    destruct (IH s2 _ Hok2) as (s3 & E3 & Hok3 & Eu3 & Ec3 & Hd3 & Hw3); [by rewrite decide_True|].
    exists s3. split; [done|]. split.
    { eapply links_ok_ext; [|exact Hok3]. intros d. cbv beta. by destruct (decide (d = c)). }
    split; [congruence|]. split; [congruence|]. split; [auto|].
    intros d n. rewrite Hw3, Hwat. tauto.
Qed.

Lemma del_list_watch_ok c st :
  watch_ok st ->
  exists st', del_list_watch c st = Some st' /\ watch_ok st' /\
    (forall d n, watching st' d n <-> watching st d n /\ d <> c) /\
    watched_by st' c = [] /\
    forall q, is_Some (wt_store st' !! q) -> is_Some (wt_store st !! q).
Proof.
  intros [Hok Hcnt]. unfold del_list_watch.
  destruct (watched_by st c) as [|p r] eqn:E.
  - exists st. split; [done|]. split; [done|]. split; [|done]. intros d n. split; [|tauto]. intros Hd. split; [done|].
    intros ->. destruct Hd as (q & w & Hq & _ & Hc).
    assert (q ∈ watched_by st c) as Hin by (apply (lk_links _ _ Hok); eauto).
    rewrite E in Hin. by apply not_elem_of_nil in Hin.
  - destruct (del_links_ok c (p :: r) st _ Hok E) as (s & -> & Hok' & Eu & Ec & Hdom & Hw).
    cbn [mbind option_bind]. eexists; split; [done|].
    split; [|split; [exact Hw|split; [by rewrite watched_by_set, decide_True|exact Hdom]]].
    eapply watch_ok_set; [exact Hok'| | |done].
    + intros d. unfold watched_by at 2. by rewrite Eu.
    + intros d Hd. unfold count_of, watched_by. rewrite Eu, Ec. apply Hcnt.
Qed.

Lemma new_links_ok st ub block nick now t c :
  links_ok st ub -> nameable nick -> wt_store st !! block = None ->
  (forall p w, wt_store st !! p = Some w -> lower (wt_nick w) <> lower nick) ->
  nt_ok (nick_of (<[block := MkWatch [] nick 0]> (wt_store st))) t ->
  (forall x, nt_mem t x <-> x = block \/ nt_mem (watchTable st) x) ->
  links_ok (set_watchCount (watchCount st + 1)
      (set_store (<[block := MkWatch [c] nick now]> (wt_store st)) (set_table t st)))
    (fun d => if decide (d = c) then block :: ub d else ub d).
Proof.
  intros [] Hn Hb Hnew Ht Hmem.
  assert (Hub : forall d, ~ block ∈ ub d).
  { intros d Hd. apply lk_links0 in Hd as (w & Hw & _). congruence. }
  constructor; cbn; auto.
  - eapply nt_ext; [exact Ht|]. intros x _. unfold nick_of. destruct (decide (x = block)) as [->|].
    + by rewrite !lookup_insert_eq.
    + by rewrite !lookup_insert_ne.
  - intros q. rewrite Hmem, lk_mem0. destruct (decide (q = block)) as [->|].
    + rewrite lookup_insert_eq. split; eauto.
    + rewrite lookup_insert_ne by done. tauto.
  - intros q v Hq. apply lookup_insert_Some in Hq as [[<- <-]|[_ Hq]]; [|by eauto].
    cbn. split; [done|]. split; [apply NoDup_singleton|done].
  - intros p q v v' Hp Hq Hv. apply lookup_insert_Some in Hp as [[<- <-]|[? Hp]];
      apply lookup_insert_Some in Hq as [[<- <-]|[? Hq]]; auto.
    + by destruct (Hnew q v' Hq).
    + by destruct (Hnew p v Hp).
    + by eapply lk_uniq0.
  - intros q d. setoid_rewrite lookup_insert_Some. case_decide as Hd; subst.
    + rewrite elem_of_cons, lk_links0. split.
      * intros [->|(w & Hw & ?)]; [exists (MkWatch [c] nick now); set_solver|].
        exists w. split; [|done]. right. split; [congruence|done].
      * intros (w & [[<- _]|[_ Hw]] & ?); eauto.
    + rewrite lk_links0. split.
      * intros (w & Hw & ?). exists w. split; [|done]. right. split; [congruence|done].
      * intros (w & [[_ <-]|[_ Hw]] & Hin); [|eauto]. cbn in Hin. set_solver.
  - intros d. case_decide; [|done]. apply NoDup_cons. auto.
  - rewrite map_size_insert_None by done. lia.
Qed.

Lemma add_links_ok st ub p w c :
  links_ok st ub -> wt_store st !! p = Some w -> ~ c ∈ wt_watch w ->
  links_ok (set_store (<[p := set_wt_watch (c :: wt_watch w) w]> (wt_store st)) st)
    (fun d => if decide (d = c) then p :: ub d else ub d).
Proof.
  intros Hok Hw Hc. destruct (lk_rec _ _ Hok _ _ Hw) as (_ & Hnd & _).
  eapply links_ok_update; [exact Hok|exact Hw|done| |done| |].
  - cbn. by apply NoDup_cons.
  - intros d. case_decide as Hd; [subst|apply (lk_nodup _ _ Hok)].
    apply NoDup_cons. split; [|apply (lk_nodup _ _ Hok)].
    rewrite (lk_links _ _ Hok). intros (w' & Hw' & ?). congruence.
  - intros q d. cbn. case_decide as Hd; case_decide as Hq; subst; try set_solver.
    rewrite elem_of_cons, (lk_links _ _ Hok). naive_solver.
Qed.

(** The client is linked to the record [p] and the record to the client. *)
Lemma link_user_ok st s ub p c :
  links_ok s ub -> (forall d, ub d = if decide (d = c) then p :: watched_by st d else watched_by st d) ->
  user_watch s = user_watch st -> user_watches s = user_watches st ->
  (forall d, count_of st d = u32 (Z.of_nat (length (watched_by st d)))) ->
  watch_ok (set_user c (p :: watched_by s c) (u32 (count_of s c + 1)) s).
Proof.
  intros Hok Hub Eu Ec Hcnt.
  assert (Hwb : forall d, watched_by s d = watched_by st d) by (intros; unfold watched_by; congruence).
  assert (Hco : forall d, count_of s d = count_of st d) by (intros; unfold count_of; congruence).
  eapply watch_ok_set; [exact Hok| | |].
  - intros d. rewrite Hub, !Hwb. by case_decide; subst.
  - intros d _. by rewrite Hco, Hwb.
  - rewrite Hwb, Hco. apply u32_succ, Hcnt.
Qed.

Lemma add_nick_watch_ok now block c nick st :
  watch_ok st -> nameable nick -> wt_store st !! block = None ->
  exists st', add_nick_watch now block c nick st = Some st' /\ watch_ok st' /\
    (forall d n, watching st' d n <-> watching st d n \/ d = c /\ lower n = lower nick) /\
    (length (watched_by st' c) <= S (length (watched_by st c)))%nat /\
    forall p, p <> block -> is_Some (wt_store st' !! p) -> is_Some (wt_store st !! p).
Proof.
  intros [Hok Hcnt] Hn Hb. unfold add_nick_watch, find_or_make.
  destruct (FindWatch_spec _ _ nick Hok Hn) as (t & o & -> & Hokt & Ho). cbn [mbind option_bind].
  destruct o as [p|]; cbn [mbind option_bind].
  - destruct Ho as (w & Hw & Hl). change (wt_store (set_table t st)) with (wt_store st).
    rewrite Hw. cbn [mbind option_bind]. case_decide as Hc.
    + exists (set_table t st). split; [done|]. split; [done|].
      split; [|split; [change (watched_by (set_table t st) c) with (watched_by st c); lia|done]].
      intros d n. split; [by left|]. intros [|[-> E]]; [done|]. exists p, w. split; [done|]. split; [congruence|done].
    + eexists; split; [done|]. split; [|split; [|split]].
      * eapply (link_user_ok st); [exact (add_links_ok _ _ _ _ _ Hokt Hw Hc)|done..].
      * intros d n. etransitivity; [exact (watching_insert (set_table t st) p _ d n)|].
        rewrite (watching_split st p w d n Hw). cbn [wt_nick wt_watch set_wt_watch].
        rewrite elem_of_cons. unfold watching_but. cbn [wt_store set_table].
        assert (lower n = lower nick <-> lower (wt_nick w) = lower n) by (split; congruence). tauto.
      * rewrite watched_by_set, decide_True by done. done.
      * intros q _ Hq. cbn in Hq. apply lookup_insert_is_Some in Hq as [<-|[_ ?]]; eauto.
  - unfold make_watch. cbn [wt_store set_store watchTable set_table].
    set (f := nick_of (<[block := MkWatch [] nick 0]> (wt_store st))).
    assert (Hfb : f block = nick) by (unfold f, nick_of; by rewrite lookup_insert_eq).
    destruct (nt_add_ok f t block) as (t' & -> & Ht' & Hm').
    { eapply nt_ext; [apply (lk_table _ _ Hokt)|]. intros x Hx. unfold f, nick_of. cbn.
      apply (lk_mem _ _ Hokt) in Hx. cbn in Hx. rewrite lookup_insert_ne; [done|]. intros <-.
      rewrite Hb in Hx. by destruct Hx. }
    { by rewrite Hfb. }
    { intros Hx. apply (lk_mem _ _ Hokt) in Hx. cbn in Hx. rewrite Hb in Hx. by destruct Hx. }
    cbn [mbind option_bind wt_store set_watchCount set_table set_store].
    rewrite lookup_insert_eq. cbn [mbind option_bind wt_store set_watchCount set_table set_store].
    rewrite lookup_insert_eq. cbn [mbind option_bind wt_watch set_wt_lasttime].
    rewrite decide_False by apply not_elem_of_nil. rewrite !insert_insert_eq.
    eexists; split; [done|]. split; [|split; [|split]].
    + eapply (link_user_ok st).
      * exact (new_links_ok (set_table t st) _ block nick now t' c Hokt Hn Hb Ho Ht' Hm').
      * done.
      * done.
      * done.
      * done.
    + intros d n. etransitivity; [exact (watching_insert (set_table t st) block (MkWatch [c] nick now) d n)|].
      cbn [wt_nick wt_watch]. rewrite list_elem_of_singleton.
      assert (watching_but (set_table t st) block d n <-> watching st d n) as ->.
      { split; [intros (q & w & _ & ?); by exists q, w|]. intros (q & w & Hq & ?). exists q, w. split; [congruence|done]. }
      assert (lower n = lower nick <-> lower nick = lower n) by (split; congruence). tauto.
    + rewrite watched_by_set, decide_True by done. done.
    + intros q Hqb Hq. cbn in Hq. apply lookup_insert_is_Some in Hq as [<-|[_ ?]]; eauto. done.
Qed.

Lemma check_status_watch_ok now nick st :
  watch_ok st -> nameable nick ->
  exists l st', check_status_watch now nick st = Some (l, st') /\ watch_ok st' /\ NoDup l /\
    (forall c, c ∈ l <-> watching st c nick) /\ (forall c n, watching st' c n <-> watching st c n).
Proof.
  intros [Hok Hcnt] Hn. unfold check_status_watch.
  destruct (FindWatch_spec _ _ nick Hok Hn) as (t & o & -> & Hokt & Ho). cbn [mbind option_bind].
  destruct o as [p|].
  - destruct Ho as (w & Hw & Hl). change (wt_store (set_table t st)) with (wt_store st).
    rewrite Hw. cbn [mbind option_bind]. destruct (lk_rec _ _ Hok _ _ Hw) as (_ & Hnd & Hne).
    eexists _, _; split; [done|]. split; [|split; [done|split]].
    + split; [|exact Hcnt]. eapply (links_ok_update (set_table t st)); [exact Hokt|exact Hw|done..| |].
      * apply (lk_nodup _ _ Hok).
      * intros q c. cbn. case_decide as Hq; [subst|done].
        etransitivity; [exact (lk_links _ _ Hok p c)|]. cbn. naive_solver.
    + intros c. symmetry. by apply (watching_found st _ p w nick c Hok).
    + intros c n. etransitivity; [exact (watching_insert (set_table t st) p _ c n)|].
      symmetry. exact (watching_split st p w c n Hw).
  - eexists _, _; split; [done|]. split; [done|]. split; [constructor|]. split; [|done].
    intros c. split; [by intros ?%not_elem_of_nil|]. intros (p & w & Hw & Hl & _). by destruct (Ho p w Hw).
Qed.

(** What one token of client [c] may do: [n] is the most he can be led to watch. *)
Definition watch_step (c : N) (n : nat) (st st' : state) : Prop :=
  watch_ok st' /\ (forall d k, d <> c -> watching st' d k <-> watching st d k) /\
  (length (watched_by st' c) <= Nat.max n (length (watched_by st c)))%nat.

Lemma watch_step_refl c n st : watch_ok st -> watch_step c n st st.
Proof. intros. split; [done|]. split; [done|lia]. Qed.

Lemma watch_step_trans c n a b d : watch_step c n a b -> watch_step c n b d -> watch_step c n a d.
Proof.
  intros (_ & H1 & L1) (Hok & H2 & L2). split; [done|]. split; [|lia].
  intros e k He. by rewrite H2, H1.
Qed.

Lemma watch_nick_cstring s : cstring s -> cstring (watch_nick s).
Proof.
  intros Hs. unfold watch_nick. pose proof (tokens_cstring s [33] Hs) as Ht.
  unfold tokens in Ht. cbn [strtok_all] in Ht.
  destruct (ircd_strtok (Some s) [33]) as [[t r]|]; [|done]. by apply Forall_cons in Ht as [? _].
Qed.

Lemma watch_token_ok maxw now c s b blocks st :
  watch_ok st -> cstring s -> 0 <= maxw < 2 ^ 31 ->
  Z.of_nat (length (watched_by st c)) < 2 ^ 32 ->
  NoDup (b :: blocks) -> (forall x, x ∈ b :: blocks -> wt_store st !! x = None) ->
  exists bs st', watch_token maxw now c s (b :: blocks) st = Some (bs, st') /\
    watch_step c (Z.to_nat maxw) st st' /\
    (bs = blocks \/ bs = b :: blocks) /\ (forall x, x ∈ bs -> wt_store st' !! x = None).
Proof.
  intros Hok Hs Hm Hlen Hnd Hfree.
  assert (Hsame : exists bs st', Some (b :: blocks, st) = Some (bs, st') /\
    watch_step c (Z.to_nat maxw) st st' /\ (bs = blocks \/ bs = b :: blocks) /\
    (forall x, x ∈ bs -> wt_store st' !! x = None)).
  { eexists _, _; split; [done|]. split; [by apply watch_step_refl|auto]. }
  assert (Hdel : forall st' : state, (forall q, is_Some (wt_store st' !! q) -> is_Some (wt_store st !! q)) ->
    forall x, x ∈ b :: blocks -> wt_store st' !! x = None).
  { intros st' Hd x Hx. apply eq_None_not_Some. intros Hq. apply Hd in Hq. rewrite Hfree in Hq by done. by destruct Hq. }
  unfold watch_token. case_match; [case_match; [done|]|case_match; [|done]].
  - assert (Hcn : cstring (take NICKLEN (watch_nick (tl s)))).
    { apply cstring_take, watch_nick_cstring. destruct s; [done|]. by apply Forall_cons in Hs as [_ ?]. }
    destruct (take NICKLEN (watch_nick (tl s))) as [|x l] eqn:En; [done|].
    assert (Hn : nameable (x :: l)) by by split. case_match.
    + destruct (u32 maxw <=? count_of st c) eqn:Ec; [done|].
      destruct (add_nick_watch_ok now b c (x :: l) st Hok Hn) as (st' & -> & Hok' & Hw & Hl & Hd);
        [apply Hfree; set_solver|]. cbn [mbind option_bind].
      eexists _, _; split; [done|]. apply NoDup_cons in Hnd as [Hb Hnd]. split; [|split; [by left|]].
      * split; [done|]. split; [intros d k Hdc; rewrite Hw; tauto|].
        apply Z.leb_gt in Ec. rewrite (proj2 Hok c) in Ec. unfold u32 in Ec. rewrite !Z.mod_small in Ec by lia. lia.
      * intros y Hy. apply eq_None_not_Some. intros Hq. apply Hd in Hq; [|by intros ->].
        rewrite Hfree in Hq by set_solver. by destruct Hq.
    + destruct (del_nick_watch_ok c (x :: l) st Hok Hn) as (st' & -> & Hok' & Hw & Hl & Hd).
      cbn [mbind option_bind]. eexists _, _; split; [done|]. split; [|split; [by right|by apply Hdel]].
      split; [done|]. split; [intros d k Hdc; rewrite Hw; tauto|lia].
  - destruct (del_list_watch_ok c st Hok) as (st' & -> & Hok' & Hw & Hl & Hd).
    cbn [mbind option_bind]. eexists _, _; split; [done|]. split; [|split; [by right|by apply Hdel]].
    split; [done|]. split; [intros d k Hdc; rewrite Hw; tauto|]. rewrite Hl. cbn. lia.
Qed.

Lemma watch_tokens_ok maxw now c l blocks st :
  watch_ok st -> Forall cstring l -> 0 <= maxw < 2 ^ 31 ->
  Z.of_nat (length (watched_by st c)) < 2 ^ 32 ->
  NoDup blocks -> (length l <= length blocks)%nat ->
  (forall x, x ∈ blocks -> wt_store st !! x = None) ->
  exists bs st', watch_tokens maxw now c l blocks st = Some (bs, st') /\
    watch_step c (Z.to_nat maxw) st st'.
Proof.
  intros Hok Hs Hm. revert blocks st Hok.
  induction Hs as [|s l Hc Hs IH]; intros blocks st Hok Hlen Hnd Hb Hfree.
  { exists blocks, st. split; [done|by apply watch_step_refl]. }
  destruct blocks as [|b blocks]; [cbn in Hb; lia|]. cbn in Hb.
  destruct (watch_token_ok maxw now c s b blocks st Hok Hc Hm Hlen Hnd Hfree)
    as (bs & s1 & E & Hst & Hbs & Hf1).
  cbn [watch_tokens]. rewrite E. cbn [mbind option_bind].
  destruct (IH bs s1) as (bs' & s2 & -> & Hst2); [apply Hst|destruct Hst as (_ & _ & ?); lia| | |done|].
  - apply NoDup_cons in Hnd as Hnd'. destruct Hbs as [->| ->]; tauto.
  - destruct Hbs as [->| ->]; cbn; lia.
  - exists bs', s2. split; [done|]. by eapply watch_step_trans.
Qed.

Lemma tokens_length s fs : (length (tokens s fs) <= length s)%nat.
Proof.
  induction s as [|x s Hx IH|t Ht Hne|t x s Ht Hne Hx IH] using (tokens_ind fs).
  - done.
  - rewrite tokens_sep by done. cbn [length]. lia.
  - rewrite tokens_last by done. destruct t; [done|cbn; lia].
  - rewrite tokens_app, length_app by done. cbn [length]. lia.
Qed.

Lemma tokens_of_length fs l :
  (length (concat (map (fun p => tokens p fs) l)) <= sum_list_with length l)%nat.
Proof.
  induction l as [|s l IH]; [done|]. cbn [map concat sum_list_with]. rewrite length_app. pose proof (tokens_length s fs). lia.
Qed.

Lemma lookup_blocks_ok (st : state) blocks :
  Forall (fun x => wt_store st !! x = None) blocks -> forall x, x ∈ blocks -> wt_store st !! x = None.
Proof. rewrite Forall_forall. auto. Qed.

(** ** What the operations do to the lists *)

(** Starting from consistent lists, add_nick_watch(), del_nick_watch() and
    del_list_watch() succeed, keep the lists consistent (the links of the clients
    and of the records mirror each other, every record is in the table under its
    nick and has a watcher, and the counters are the lengths) and change exactly
    what is watched: the client watches the nick, no longer watches it, or
    watches nothing, whatever the case of the nick, and nobody else's list
    changes.  When a nick comes or goes check_status_watch() tells every client
    that watches it exactly once, and nobody else. *)
Theorem watch_updates now block c nick st :
  watch_ok st -> nameable nick -> wt_store st !! block = None ->
  (exists st', add_nick_watch now block c nick st = Some st' /\ watch_ok st' /\
     forall d n, watching st' d n <-> watching st d n \/ d = c /\ lower n = lower nick) /\
  (exists st', del_nick_watch c nick st = Some st' /\ watch_ok st' /\
     forall d n, watching st' d n <-> watching st d n /\ ~ (d = c /\ lower n = lower nick)) /\
  (exists st', del_list_watch c st = Some st' /\ watch_ok st' /\
     forall d n, watching st' d n <-> watching st d n /\ d <> c) /\
  (exists l st', check_status_watch now nick st = Some (l, st') /\ watch_ok st' /\ NoDup l /\
     (forall d, d ∈ l <-> watching st d nick) /\ forall d n, watching st' d n <-> watching st d n).
Proof.
  intros Hok Hn Hb. split_and!.
  - destruct (add_nick_watch_ok now block c nick st Hok Hn Hb) as (st' & ? & ? & ? & _). by exists st'.
  - destruct (del_nick_watch_ok c nick st Hok Hn) as (st' & ? & ? & ? & _). by exists st'.
  - destruct (del_list_watch_ok c st Hok) as (st' & ? & ? & ? & _). by exists st'.
  - by apply check_status_watch_ok.
Qed.

(** A WATCH command never follows a dangling link, whatever its parameters:
    it keeps the lists consistent, leaves the lists of the other clients alone,
    and the sender's list does not grow over MAXWATCHS. *)
Theorem m_watch_safe maxw now c parv blocks st :
  watch_ok st -> Forall cstring parv -> 0 <= maxw < 2 ^ 31 ->
  Z.of_nat (length (watched_by st c)) < 2 ^ 32 ->
  NoDup blocks -> (S (sum_list_with length parv) <= length blocks)%nat ->
  Forall (fun x => wt_store st !! x = None) blocks ->
  exists bs st', m_watch maxw now c parv blocks st = Some (bs, st') /\ watch_ok st' /\
    (forall d n, d <> c -> watching st' d n <-> watching st d n) /\
    (length (watched_by st' c) <= Nat.max (Z.to_nat maxw) (length (watched_by st c)))%nat.
Proof.
  intros Hok Hs Hm Hlen Hnd Hb Hfree. unfold m_watch.
  apply watch_tokens_ok; [done| |done|done|done| |by apply lookup_blocks_ok].
  - apply Forall_concat, Forall_map. eapply Forall_impl; [|intros s Hc; by apply tokens_cstring].
    destruct parv as [|? []]; try done. apply Forall_cons in Hs as [? _]. by repeat constructor.
  - etransitivity; [apply tokens_of_length|]. destruct parv as [|? []]; cbn in *; lia.
Qed.

(** The loop over the parameters starts at [parv[0]], the sender's own nick:
    a client whose nick starts with a 'c', in any case, loses his whole list with
    every WATCH command, before its parameters are looked at, though only the
    parameter C is documented to clear it. *)
Theorem m_watch_own_nick maxw now c me parv blocks st :
  watch_ok st -> hd0 me = 67 \/ hd0 me = 99 -> no_sep [44; 32] me ->
  exists st', del_list_watch c st = Some st' /\ (forall n, ~ watching st' c n) /\
    m_watch maxw now c (me :: lit "l" :: parv) blocks st =
      watch_tokens maxw now c (concat (map (fun p => tokens p [44; 32]) (lit "l" :: parv))) blocks st' /\
    m_watch maxw now c [me] blocks st = Some (blocks, st').
Proof.
  intros Hok Hc Hme. destruct (del_list_watch_ok c st Hok) as (st' & E & _ & Hw & _).
  exists st'. split; [done|]. split; [intros n; rewrite Hw; tauto|].
  assert (Hstep : forall r, watch_tokens maxw now c (me :: r) blocks st = watch_tokens maxw now c r blocks st').
  { intros r. cbn [watch_tokens]. unfold watch_token. destruct Hc as [-> | ->]; cbn; by rewrite E. }
  assert (Hme' : tokens me [44; 32] = [me]).
  { apply tokens_last; [done|]. intros ->. by destruct Hc. }
  unfold m_watch. cbn [map concat]. rewrite Hme'. cbn [app]. rewrite !Hstep. split; [done|]. by vm_compute.
Qed.
End watch.

(** ** Over the hash table *)

#[local] Instance crc_watch_table : NameTable table := watch_table crc_table.

Definition no_watches : watches table := MkWatches ∅ empty_table 0 ∅ ∅.

Lemma no_entry x : ~ in_table empty_table x.
Proof.
  intros (h & Hh & Hp). unfold bucket, empty_table in Hp.
  rewrite nth_replicate_nil in Hp. by apply not_elem_of_nil in Hp.
Qed.

Lemma no_watches_ok : watch_ok no_watches.
Proof.
  split; [split|].
  - split; [apply empty_table_ok|]. intros x Hx. by destruct (no_entry x Hx).
  - intros p. cbn [wt_store no_watches]. rewrite lookup_empty. split; [|by intros []].
    intros Hp. by destruct (no_entry p Hp).
  - intros p w Hp. cbn in Hp. by apply lookup_empty_Some in Hp.
  - intros p q w w' Hp. cbn in Hp. by apply lookup_empty_Some in Hp.
  - intros p c. split; [intros Hp; by apply not_elem_of_nil in Hp|].
    intros (w & Hp & _). cbn in Hp. by apply lookup_empty_Some in Hp.
  - intros c. constructor.
  - done.
  - done.
Qed.

Lemma watch_updates_witness :
  exists st', add_nick_watch 7 1%positive 5%N (lit "Bob") no_watches = Some st' /\
    watching st' 5 (lit "bOB").
Proof.
  destruct (watch_updates 7 1%positive 5%N (lit "Bob") no_watches no_watches_ok)
    as ((st' & E & _ & H) & _); [by_decide|done|].
  exists st'. split; [exact E|]. apply H. right. by split.
Defined.

Lemma m_watch_safe_witness :
  exists bs st', m_watch 128 7 5%N [lit "dan"; lit "+ann,-bob C"] [1; 2; 3; 4; 5; 6; 7; 8; 9; 10; 11; 12; 13; 14; 15]%positive
    no_watches = Some (bs, st') /\ watch_ok st' /\ (length (watched_by st' 5%N) <= 128)%nat.
Proof.
  destruct (m_watch_safe 128 7 5%N [lit "dan"; lit "+ann,-bob C"]
    [1; 2; 3; 4; 5; 6; 7; 8; 9; 10; 11; 12; 13; 14; 15]%positive no_watches no_watches_ok)
    as (bs & st' & E & Hok & _ & Hl);
    [by_decide|lia|by vm_compute|by_decide|vm_compute; lia|by_decide|].
  exists bs, st'. split; [exact E|]. split; [exact Hok|exact Hl].
Defined.

Lemma m_watch_own_nick_witness :
  exists st st', watching st 5 (lit "bob") /\ m_watch 128 7 5%N [lit "Cat"] [] st = Some ([], st') /\
    forall n, ~ watching st' 5 n.
Proof.
  destruct (add_nick_watch_ok 7 1%positive 5%N (lit "Bob") no_watches no_watches_ok)
    as (st & E & Hok & H & _); [by_decide|done|].
  destruct (m_watch_own_nick 128 7 5%N (lit "Cat") [] [] st Hok) as (st' & _ & Hn & _ & Em);
    [by left|by_decide|].
  exists st, st'. split; [exact (proj2 (H 5%N (lit "bob")) (or_intror (conj eq_refl eq_refl)))|]. split; [exact Em|exact Hn].
Defined.
