(* ===== verification/Channel.v ===== *)
(** * ircd/channel.c: channels, memberships and invitations

    A membership is in the list of its channel and in the list of its user; both
    doubly linked lists are sequences of membership addresses.  Channels,
    memberships and users are in stores by address; following a dangling pointer
    and a failing assertion are [None].  The channel table is any table of named
    entries.  The topic and the times of messages are not part of the model. *)
From S2P Require Import Prelude Chattr IrcdString NameTable Hash.
Open Scope ircd_scope.

Definition CHFL_CHANOP : Z := 1.
Definition CHFL_VOICE : Z := 2.
Definition CHFL_ZOMBIE : Z := 16.
Definition CHFL_HALFOP : Z := 32768.
Definition CHFL_VOICED_OR_OPPED : Z := CHFL_CHANOP .| CHFL_HALFOP .| CHFL_VOICE.
Definition MODE_PERSIST : Z := 16777216.
Definition CHANNELLEN : nat := 200.

(** The [ban] and [except] members of struct SLink, with the link's flags. *)
Record Ban := MkBan {
  banstr : list Z;
  extstr : list Z;
  extflag : Z;
  ban_who : list Z;
  ban_when : Z;
  ban_flags : Z }.

Record Mode := MkMode { mode : Z; limit : Z; key : list Z; redirect : list Z }.

Record Membership := MkMembership { m_user : N; m_channel : entry_id; m_status : Z }.

Record Channel := MkChannel {
  chname : list Z;
  creationtime : Z;
  users : Z;
  members : list positive;
  invites : list N;
  banlist : list Ban;
  exceptlist : list Ban;
  chmode : Mode;
  marker : Z }.

(** The part of struct User that is about channels. *)
Record User := MkUser {
  u_channel : list positive;
  joined : Z;
  invited : list entry_id;
  u_invites : Z }.

(** The stores, the free list and the globals. *)
Record channels (T : Type) := MkChannels {
  memberships : gmap positive Membership;
  membershipFreeList : list positive;
  membershipAllocCount : Z;
  channel_store : gmap entry_id Channel;
  user_store : gmap N User;
  channelTable : T;
  GlobalChannelList : list entry_id;
  UserStats_channels : Z }.
Arguments MkChannels {T}. Arguments memberships {T}. Arguments membershipFreeList {T}.
Arguments membershipAllocCount {T}. Arguments channel_store {T}. Arguments user_store {T}.
Arguments channelTable {T}. Arguments GlobalChannelList {T}. Arguments UserStats_channels {T}.

Definition set_users (n : Z) (c : Channel) : Channel :=
  MkChannel (chname c) (creationtime c) n (members c) (invites c) (banlist c) (exceptlist c) (chmode c) (marker c).
Definition set_members (l : list positive) (c : Channel) : Channel :=
  MkChannel (chname c) (creationtime c) (users c) l (invites c) (banlist c) (exceptlist c) (chmode c) (marker c).
Definition set_invites (l : list N) (c : Channel) : Channel :=
  MkChannel (chname c) (creationtime c) (users c) (members c) l (banlist c) (exceptlist c) (chmode c) (marker c).
Definition set_banlist (l : list Ban) (c : Channel) : Channel :=
  MkChannel (chname c) (creationtime c) (users c) (members c) (invites c) l (exceptlist c) (chmode c) (marker c).
Definition set_exceptlist (l : list Ban) (c : Channel) : Channel :=
  MkChannel (chname c) (creationtime c) (users c) (members c) (invites c) (banlist c) l (chmode c) (marker c).
Definition set_chmode (m : Mode) (c : Channel) : Channel :=
  MkChannel (chname c) (creationtime c) (users c) (members c) (invites c) (banlist c) (exceptlist c) m (marker c).
Definition set_marker (n : Z) (c : Channel) : Channel :=
  MkChannel (chname c) (creationtime c) (users c) (members c) (invites c) (banlist c) (exceptlist c) (chmode c) n.

Definition IsZombie (m : Membership) : bool := has_bits (m_status m) CHFL_ZOMBIE.
Definition IsChanOp (m : Membership) : bool := has_bits (m_status m) CHFL_CHANOP.
Definition IsHalfOp (m : Membership) : bool := has_bits (m_status m) CHFL_HALFOP.
Definition HasVoice (m : Membership) : bool := has_bits (m_status m) CHFL_VOICE.
Definition IsVoicedOrOpped (m : Membership) : bool := has_bits (m_status m) CHFL_VOICED_OR_OPPED.
Definition SetZombie (m : Membership) : Membership :=
  MkMembership (m_user m) (m_channel m) (m_status m .| CHFL_ZOMBIE).

Definition persistent (c : Channel) : bool := has_bits (mode (chmode c)) MODE_PERSIST.

Section channel.
Context {T : Type} `{NameTable T} `{!NameTableLaws T}.
(** IsServer(cptr) || IsMe(cptr), and IsChannelService(cptr). *)
Variable server_like : N -> bool.
Variable IsChannelService : N -> bool.
Abbreviation state := (channels T).

Definition set_memberships (m : gmap positive Membership) (st : state) : state :=
  MkChannels m (membershipFreeList st) (membershipAllocCount st) (channel_store st)
    (user_store st) (channelTable st) (GlobalChannelList st) (UserStats_channels st).
Definition set_free (l : list positive) (n : Z) (st : state) : state :=
  MkChannels (memberships st) l n (channel_store st)
    (user_store st) (channelTable st) (GlobalChannelList st) (UserStats_channels st).
Definition set_channels (s : gmap entry_id Channel) (st : state) : state :=
  MkChannels (memberships st) (membershipFreeList st) (membershipAllocCount st) s
    (user_store st) (channelTable st) (GlobalChannelList st) (UserStats_channels st).
Definition set_user_store (s : gmap N User) (st : state) : state :=
  MkChannels (memberships st) (membershipFreeList st) (membershipAllocCount st) (channel_store st)
    s (channelTable st) (GlobalChannelList st) (UserStats_channels st).
Definition set_table (t : T) (l : list entry_id) (n : Z) (st : state) : state :=
  MkChannels (memberships st) (membershipFreeList st) (membershipAllocCount st) (channel_store st)
    (user_store st) t l n.

Definition put_channel (p : entry_id) (c : Channel) (st : state) : state :=
  set_channels (<[p := c]> (channel_store st)) st.
Definition put_user (c : N) (u : User) (st : state) : state :=
  set_user_store (<[c := u]> (user_store st)) st.
Definition put_member (m : positive) (r : Membership) (st : state) : state :=
  set_memberships (<[m := r]> (memberships st)) st.

Definition name_of (s : gmap entry_id Channel) (p : entry_id) : list Z :=
  match s !! p with Some c => chname c | None => [] end.

(** ** Memberships *)

(** The loops of find_member_link(), with the assertion of each. *)
Fixpoint find_in_channel (chptr : entry_id) (cptr : N) (l : list positive) (st : state)
  : option (option positive) :=
  match l with
  | [] => Some None
  | m :: r =>
      rec ← memberships st !! m;
      if decide (m_channel rec = chptr) then
        if decide (m_user rec = cptr) then Some (Some m) else find_in_channel chptr cptr r st
      else None
  end.

Fixpoint find_in_user (chptr : entry_id) (cptr : N) (l : list positive) (st : state)
  : option (option positive) :=
  match l with
  | [] => Some None
  | m :: r =>
      rec ← memberships st !! m;
      if decide (m_user rec = cptr) then
        if decide (m_channel rec = chptr) then Some (Some m) else find_in_user chptr cptr r st
      else None
  end.

Definition find_member_link (chptr : entry_id) (cptr : N) (st : state) : option (option positive) :=
  if server_like cptr then Some None
  else if IsChannelService cptr then
    c ← channel_store st !! chptr; find_in_channel chptr cptr (members c) st
  else
    u ← user_store st !! cptr; find_in_user chptr cptr (u_channel u) st.

(** A test of the membership, which is_chan_op() and the like share: [f] decides
    on the record. *)
Definition member_test (f : Membership -> bool) (cptr : N) (chptr : entry_id) (st : state) : option bool :=
  o ← find_member_link chptr cptr st;
  match o with
  | None => Some false
  | Some m => rec ← memberships st !! m; Some (f rec)
  end.

Definition is_chan_op := member_test (fun m => negb (IsZombie m) && IsChanOp m).
Definition is_zombie := member_test IsZombie.
Definition has_voice := member_test (fun m => negb (IsZombie m) && HasVoice m).
Definition is_half_op := member_test (fun m => negb (IsZombie m) && IsHalfOp m).

Definition find_channel_member (cptr : N) (chptr : entry_id) (st : state) : option (option positive) :=
  o ← find_member_link chptr cptr st;
  match o with
  | None => Some None
  | Some m => rec ← memberships st !! m; Some (if IsZombie rec then None else Some m)
  end.

(** add_user_to_channel(); [block] is what MyMalloc() returns when the free list
    is empty. *)
Definition add_user_to_channel (block : positive) (chptr : entry_id) (who : N) (flags : Z) (st : state)
  : option state :=
  match user_store st !! who with
  | None => Some st
  | Some u =>
      let '(m, st) :=
        match membershipFreeList st with
        | m :: r => (m, set_free r (membershipAllocCount st) st)
        | [] => (block, set_free [] (u32 (membershipAllocCount st + 1)) st)
        end in
      c ← channel_store st !! chptr;
      let st := put_member m (MkMembership who chptr flags) st in
      let st := put_channel chptr (set_users (u32 (users c + 1)) (set_members (m :: members c) c)) st in
      Some (put_user who (MkUser (m :: u_channel u) (u32 (joined u + 1)) (invited u) (u_invites u)) st)
  end.

(** ** Invitations *)
Definition del_invite (cptr : N) (chptr : entry_id) (st : state) : option state :=
  c ← channel_store st !! chptr;
  st ← (match unlink_first cptr (invites c) with
        | None => Some st
        | Some l =>
            let st := put_channel chptr (set_invites l c) st in
            u ← user_store st !! cptr;
            Some (put_user cptr (MkUser (u_channel u) (joined u) (invited u) (u32 (u_invites u - 1))) st)
        end);
  u ← user_store st !! cptr;
  match unlink_first chptr (invited u) with
  | None => Some st
  | Some l => Some (put_user cptr (MkUser (u_channel u) (joined u) l (u_invites u)) st)
  end.

(** add_invite(); [max] is FEAT_MAXCHANNELSPERUSER. *)
Definition add_invite (max : Z) (cptr : N) (chptr : entry_id) (st : state) : option state :=
  st ← del_invite cptr chptr st;
  u ← user_store st !! cptr;
  if decide (Z.of_nat (length (invited u)) = u_invites u) then
    st ← (if u32 max <=? u_invites u
          then match invited u with [] => None | p :: _ => del_invite cptr p st end
          else Some st);
    c ← channel_store st !! chptr;
    let st := put_channel chptr (set_invites (cptr :: invites c) c) st in
    u ← user_store st !! cptr;
    Some (put_user cptr (MkUser (u_channel u) (joined u) (invited u ++ [chptr]) (u32 (u_invites u + 1))) st)
  else None.

Definition IsInvited (cptr : N) (chptr : entry_id) (st : state) : option bool :=
  u ← user_store st !! cptr; Some (bool_decide (chptr ∈ invited u)).

(** ** The end of a channel *)
Fixpoint clear_invites (fuel : nat) (chptr : entry_id) (st : state) : option state :=
  c ← channel_store st !! chptr;
  match invites c with
  | [] => Some st
  | cptr :: _ =>
      match fuel with
      | O => None
      | S fuel => st ← del_invite cptr chptr st; clear_invites fuel chptr st
      end
  end.

(** What sub1_from_channel() and destroy_unregistered_channel() do with a channel
    nobody is on: its bans and exceptions are freed with it. *)
Definition free_channel (chptr : entry_id) (st : state) : option state :=
  c ← channel_store st !! chptr;
  st ← clear_invites (length (invites c)) chptr st;
  l ← unlink_first chptr (GlobalChannelList st);
  '(t, _) ← nt_rem (name_of (channel_store st)) (channelTable st) chptr;
  Some (set_channels (delete chptr (channel_store st)) (set_table t l (UserStats_channels st - 1) st)).

Definition destroy_unregistered_channel (chptr : entry_id) (st : state) : option (state * bool) :=
  c ← channel_store st !! chptr;
  if 0 <? users c then Some (st, bool_decide (members c = []))
  else if persistent c then Some (st, false)
  else match members c with
       | [] => st ← free_channel chptr st; Some (st, true)
       | _ => None
       end.

Definition sub1_from_channel (chptr : entry_id) (st : state) : option (state * bool) :=
  c ← channel_store st !! chptr;
  if 1 <? users c then
    match members c with
    | [] => Some (st, false)
    | _ => Some (put_channel chptr (set_users (users c - 1) c) st, true)
    end
  else if persistent c then Some (put_channel chptr (set_users (u32 (users c - 1)) c) st, false)
  else match members c with
       | [] => st ← free_channel chptr st; Some (st, false)
       | _ => None
       end.

Definition remove_member_from_channel (m : positive) (st : state) : option (state * bool) :=
  rec ← memberships st !! m;
  c ← channel_store st !! m_channel rec;
  l ← unlink_first m (members c);
  u ← user_store st !! m_user rec;
  ul ← unlink_first m (u_channel u);
  let st := put_channel (m_channel rec) (set_members l c) st in
  let st := put_user (m_user rec) (MkUser ul (u32 (joined u - 1)) (invited u) (u_invites u)) st in
  let st := set_free (m :: membershipFreeList st) (membershipAllocCount st) st in
  sub1_from_channel (m_channel rec) st.

Fixpoint all_zombies (l : list positive) (st : state) : option bool :=
  match l with
  | [] => Some true
  | m :: r => rec ← memberships st !! m; if IsZombie rec then all_zombies r st else Some false
  end.

Definition channel_all_zombies (chptr : entry_id) (st : state) : option bool :=
  c ← channel_store st !! chptr;
  if persistent c then Some false else all_zombies (members c) st.

(** while (remove_member_from_channel(chptr->members)); *)
Fixpoint remove_members (fuel : nat) (chptr : entry_id) (st : state) : option state :=
  match fuel with
  | O => None
  | S fuel =>
      c ← channel_store st !! chptr;
      match members c with
      | [] => None
      | m :: _ =>
          '(st, alive) ← remove_member_from_channel m st;
          if (alive : bool) then remove_members fuel chptr st else Some st
      end
  end.

Definition remove_user_from_channel (cptr : N) (chptr : entry_id) (st : state) : option state :=
  o ← find_member_link chptr cptr st;
  match o with
  | None => Some st
  | Some m =>
      '(st, alive) ← remove_member_from_channel m st;
      if (alive : bool) then
        z ← channel_all_zombies chptr st;
        if (z : bool) then
          c ← channel_store st !! chptr; remove_members (length (members c)) chptr st
        else Some st
      else Some st
  end.

Fixpoint remove_user_loop (fuel : nat) (cptr : N) (st : state) : option state :=
  u ← user_store st !! cptr;
  match u_channel u with
  | [] => Some st
  | m :: _ =>
      match fuel with
      | O => None
      | S fuel =>
          rec ← memberships st !! m;
          st ← remove_user_from_channel cptr (m_channel rec) st;
          remove_user_loop fuel cptr st
      end
  end.

Definition remove_user_from_all_channels (cptr : N) (st : state) : option state :=
  u ← user_store st !! cptr; remove_user_loop (length (u_channel u)) cptr st.

(** make_zombie(): [from] tells that the kick came from the direction of [who],
    [up] lists the servers from the kicker's up to the one before this server. *)
Definition make_zombie (MyUser : N -> bool) (member : positive) (who : N) (from : bool) (up : list N)
    (who_server : N) (chptr : entry_id) (st : state) : option state :=
  rec ← memberships st !! member;
  let st := put_member member (SetZombie rec) st in
  if MyUser who then remove_user_from_channel who chptr st
  else if from && bool_decide (who_server ∈ up) then remove_user_from_channel who chptr st
  else
    z ← channel_all_zombies chptr st;
    if (z : bool) then remove_user_from_channel who chptr st else Some st.

Fixpoint count_zombies (l : list positive) (st : state) : option Z :=
  match l with
  | [] => Some 0
  | m :: r => rec ← memberships st !! m; n ← count_zombies r st; Some (n + bool_int (IsZombie rec))
  end.

Definition number_of_zombies (chptr : entry_id) (st : state) : option Z :=
  c ← channel_store st !! chptr; count_zombies (members c) st.

(** ** Creation *)

(** The table of SetAutoChanModes(); it has no end mark, so the search for a
    character that is not in it leaves the table. *)
Definition chan_flags : list (Z * Z) :=
  [(0x4, 112); (0x8, 115); (0x10, 109); (0x20, 116); (0x40, 105); (0x80, 110); (0x800, 114);
   (0x1000, 99); (0x80000, 83); (0x2000, 67); (0x10000, 77); (0x40000, 78); (0x20000, 79);
   (0x800000, 97); (0x4000, 81); (0x8000, 90); (0x100000, 84); (0x200000, 76); (0x1000000, 122)].

Fixpoint find_flag (c : Z) (l : list (Z * Z)) : option Z :=
  match l with
  | [] => None
  | (f, x) :: r => if x =? c then Some f else find_flag c r
  end.

Fixpoint auto_modes (modestr : list Z) (t_mode : Z) : option Z :=
  match modestr with
  | [] => Some t_mode
  | c :: r => f ← find_flag c chan_flags; auto_modes r (t_mode .| f)
  end.

(** [auto] is FEAT_AUTOCHANMODES_LIST when FEAT_AUTOCHANMODES is set. *)
Definition SetAutoChanModes (auto : list Z) (c : Channel) : option Channel :=
  if (length auto <=? 1)%nat then Some c
  else
    t_mode ← auto_modes auto 0;
    Some (if t_mode =? 0 then c
          else set_chmode (MkMode t_mode (limit (chmode c)) (key (chmode c)) (redirect (chmode c))) c).

Definition new_channel (name : list Z) (time : Z) : Channel :=
  MkChannel name time 0 [] [] [] [] (MkMode 0 0 [] []) 0.

(** get_channel(): [MyUser] of the client, FEAT_CHANNELLEN, TStime(), and the
    block MyMalloc() returns; [create] is CGT_CREATE. *)
Definition get_channel (MyUser : bool) (chanlen : Z) (auto : list Z) (now : Z) (block : entry_id)
    (name : list Z) (create : bool) (st : state) : option (option entry_id * state) :=
  match name with
  | [] => Some (None, st)
  | _ =>
      let name := if MyUser && (Z.min (Z.of_nat CHANNELLEN) chanlen <? Z.of_nat (length name))
                  then take CHANNELLEN name else name in
      '(t, o) ← nt_seek (name_of (channel_store st)) (channelTable st) name;
      let st := set_table t (GlobalChannelList st) (UserStats_channels st) st in
      match o with
      | Some p => Some (Some p, st)
      | None =>
          if create then
            let c := new_channel name (if MyUser then now else 0) in
            c ← (if MyUser then SetAutoChanModes auto c else Some c);
            let st := put_channel block c st in
            t ← nt_add (name_of (channel_store st)) (channelTable st) block;
            Some (Some block, set_table t (block :: GlobalChannelList st) (UserStats_channels st + 1) st)
          else Some (None, st)
      end
  end.

(** ** Common channels *)
Fixpoint mark_channels (mark : Z) (l : list positive) (st : state) : option state :=
  match l with
  | [] => Some st
  | m :: r =>
      rec ← memberships st !! m;
      c ← channel_store st !! m_channel rec;
      mark_channels mark r (put_channel (m_channel rec) (set_marker mark c) st)
  end.

Fixpoint count_marked (mark max count : Z) (l : list positive) (st : state) : option Z :=
  match l with
  | [] => Some count
  | m :: r =>
      rec ← memberships st !! m;
      c ← channel_store st !! m_channel rec;
      if marker c =? mark then
        let count := count + 1 in
        if negb (max =? 0) && (max <=? count) then Some count else count_marked mark max count r st
      else count_marked mark max count r st
  end.

(** common_chan_count(); [mark] is what get_client_marker() returns. *)
Definition common_chan_count (mark : Z) (a b : N) (max : Z) (st : state) : option (Z * state) :=
  ua ← user_store st !! a;
  ub ← user_store st !! b;
  let (ua, ub) := if joined ub <? joined ua then (ub, ua) else (ua, ub) in
  st ← mark_channels mark (u_channel ua) st;
  n ← count_marked mark max 0 (u_channel ub) st;
  Some (n, st).

(** ** Invariants

    A membership is live when its record is not on the free list. *)
Definition live (st : state) (m : positive) (r : Membership) : Prop :=
  memberships st !! m = Some r /\ (m ∉ membershipFreeList st).

(** The lists of members and of joined channels are those of the live
    memberships, one for a user and a channel, and the counters are their
    lengths; the channel [off] still counts a member that has just left. *)
Record member_inv (off : option entry_id) (st : state) : Prop := {
  mi_free : NoDup (membershipFreeList st);
  mi_free_dom m : m ∈ membershipFreeList st -> is_Some (memberships st !! m);
  mi_live m r : live st m r ->
    is_Some (channel_store st !! m_channel r) /\ is_Some (user_store st !! m_user r);
  mi_uniq m n r s : live st m r -> live st n s ->
    m_user r = m_user s -> m_channel r = m_channel s -> m = n;
  mi_channel p c : channel_store st !! p = Some c ->
    NoDup (members c) /\ (forall m, m ∈ members c <-> exists r, live st m r /\ m_channel r = p) /\
    users c = Z.of_nat (length (members c)) + (if decide (off = Some p) then 1 else 0);
  mi_user c u : user_store st !! c = Some u ->
    NoDup (u_channel u) /\ (forall m, m ∈ u_channel u <-> exists r, live st m r /\ m_user r = c) /\
    joined u = Z.of_nat (length (u_channel u)) }.

Definition invited_to (st : state) (c : N) (p : entry_id) : Prop :=
  exists u, user_store st !! c = Some u /\ p ∈ invited u.

(** The invitations of the channels and of the users mirror each other. *)
Record invite_inv (st : state) : Prop := {
  ii_channel p c : channel_store st !! p = Some c ->
    NoDup (invites c) /\ forall d, d ∈ invites c <-> invited_to st d p;
  ii_user c u : user_store st !! c = Some u ->
    NoDup (invited u) /\ u_invites u = Z.of_nat (length (invited u)) /\
    forall p, p ∈ invited u -> is_Some (channel_store st !! p) }.

(** The table and the global list hold the channels, one for a name. *)
Record table_inv (st : state) : Prop := {
  ti_table : nt_ok (name_of (channel_store st)) (channelTable st);
  ti_mem p : nt_mem (channelTable st) p <-> is_Some (channel_store st !! p);
  ti_name p c : channel_store st !! p = Some c -> nameable (chname c);
  ti_uniq p q c d : channel_store st !! p = Some c -> channel_store st !! q = Some d ->
    lower (chname c) = lower (chname d) -> p = q;
  ti_global : NoDup (GlobalChannelList st);
  ti_global_in p : p ∈ GlobalChannelList st <-> is_Some (channel_store st !! p);
  ti_count : UserStats_channels st = Z.of_nat (size (channel_store st)) }.

Definition channels_ok (st : state) : Prop := member_inv None st /\ invite_inv st /\ table_inv st.

(** ** Frames *)
Definition member_part (c : Channel) := (members c, users c, chmode c).
Definition u_member_part (u : User) := (u_channel u, joined u).
Definition u_invite_part (u : User) := (invited u, u_invites u).

Definition same_members (st st' : state) : Prop :=
  memberships st' = memberships st /\ membershipFreeList st' = membershipFreeList st /\
  (forall p, member_part <$> channel_store st' !! p = member_part <$> channel_store st !! p) /\
  (forall c, u_member_part <$> user_store st' !! c = u_member_part <$> user_store st !! c).

Definition same_invites (st st' : state) : Prop :=
  (forall p, invites <$> channel_store st' !! p = invites <$> channel_store st !! p) /\
  (forall c, u_invite_part <$> user_store st' !! c = u_invite_part <$> user_store st !! c).

Definition same_table (st st' : state) : Prop :=
  (forall p, chname <$> channel_store st' !! p = chname <$> channel_store st !! p) /\
  channelTable st' = channelTable st /\ GlobalChannelList st' = GlobalChannelList st /\
  UserStats_channels st' = UserStats_channels st.

Lemma fmap_some {A B} (f : A -> B) (x y : option A) a :
  f <$> x = f <$> y -> x = Some a -> exists b, y = Some b /\ f b = f a.
Proof. intros E ->. destruct y as [b|]; [|done]. injection E as E. by exists b. Qed.

Lemma fmap_is_some {A B} (f : A -> B) (x y : option A) : f <$> x = f <$> y -> is_Some x <-> is_Some y.
Proof. intros E. rewrite <- !(fmap_is_Some f). by rewrite E. Qed.

Lemma member_inv_frame off st st' : member_inv off st -> same_members st st' -> member_inv off st'.
Proof.
  intros [] (Em & Ef & Ec & Eu).
  assert (Hl : forall m r, live st' m r <-> live st m r) by (intros; unfold live; by rewrite Em, Ef).
  constructor.
  - by rewrite Ef.
  - intros m. rewrite Ef, Em. auto.
  - intros m r Hm. apply Hl, mi_live0 in Hm as [H1 H2].
    by rewrite (fmap_is_some _ _ _ (Ec _)), (fmap_is_some _ _ _ (Eu _)).
  - intros m n r s Hm Hn. apply Hl in Hm, Hn. by apply mi_uniq0.
  - intros p c Hc. destruct (fmap_some _ _ _ _ (Ec p) Hc) as (d & Hd & [= E1 E2 _]).
    destruct (mi_channel0 p d Hd) as (H1 & H2 & H3). rewrite <- E1, <- E2. split; [done|]. split; [|done].
    intros m. rewrite H2. by setoid_rewrite Hl.
  - intros c u Hc. destruct (fmap_some _ _ _ _ (Eu c) Hc) as (d & Hd & [= E1 E2]).
    destruct (mi_user0 c d Hd) as (H1 & H2 & H3). rewrite <- E1, <- E2. split; [done|]. split; [|done].
    intros m. rewrite H2. by setoid_rewrite Hl.
Qed.

Lemma invited_to_frame st st' c p : same_invites st st' -> invited_to st' c p <-> invited_to st c p.
Proof.
  intros [_ Eu]. unfold invited_to. split.
  - intros (u & Hu & Hp). destruct (fmap_some _ _ _ _ (Eu c) Hu) as (d & Hd & [= E _]). exists d. by rewrite E.
  - intros (u & Hu & Hp). destruct (fmap_some _ _ _ _ (eq_sym (Eu c)) Hu) as (d & Hd & [= E _]). exists d. by rewrite E.
Qed.

Lemma invite_inv_frame st st' : invite_inv st -> same_invites st st' -> invite_inv st'.
Proof.
  intros [] Hs. pose proof (fun c p => invited_to_frame st st' c p Hs) as Hin. destruct Hs as [Ec Eu]. constructor.
  - intros p c Hc. destruct (fmap_some _ _ _ _ (Ec p) Hc) as (d & Hd & E).
    destruct (ii_channel0 p d Hd) as (H1 & H2). rewrite <- E. split; [done|]. intros e. by rewrite Hin.
  - intros c u Hc. destruct (fmap_some _ _ _ _ (Eu c) Hc) as (d & Hd & [= E1 E2]).
    destruct (ii_user0 c d Hd) as (H1 & H2 & H3). rewrite <- E1, <- E2. split; [done|]. split; [done|].
    intros p Hp. rewrite (fmap_is_some _ _ _ (Ec p)). auto.
Qed.

Lemma name_of_frame st st' p : same_table st st' -> name_of (channel_store st') p = name_of (channel_store st) p.
Proof.
  intros [E _]. specialize (E p). unfold name_of.
  destruct (channel_store st' !! p), (channel_store st !! p); cbn in E; congruence.
Qed.

Lemma size_frame st st' : same_table st st' -> size (channel_store st') = size (channel_store st).
Proof.
  intros [E _]. rewrite <- !size_dom. f_equal. apply set_eq. intros p. rewrite !elem_of_dom.
  apply (fmap_is_some _ _ _ (E p)).
Qed.

Lemma table_inv_frame st st' : table_inv st -> same_table st st' -> table_inv st'.
Proof.
  intros [] Hs. pose proof (fun p => name_of_frame st st' p Hs) as Hn. pose proof (size_frame st st' Hs) as Hsz.
  destruct Hs as (Ec & Et & Eg & En). constructor.
  - rewrite Et. eapply nt_ext; [done|]. intros x _. by rewrite Hn.
  - intros p. rewrite Et, ti_mem0. symmetry. apply (fmap_is_some _ _ _ (Ec p)).
  - intros p c Hc. destruct (fmap_some _ _ _ _ (Ec p) Hc) as (d & Hd & <-). eauto.
  - intros p q c d Hc Hd Hl. destruct (fmap_some _ _ _ _ (Ec p) Hc) as (c' & Hc' & E1).
    destruct (fmap_some _ _ _ _ (Ec q) Hd) as (d' & Hd' & E2). eapply ti_uniq0; [done..|congruence].
  - by rewrite Eg.
  - intros p. rewrite Eg, ti_global_in0. symmetry. apply (fmap_is_some _ _ _ (Ec p)).
  - by rewrite En, Hsz.
Qed.

Lemma fmap_insert_same {K A B} `{Countable K} (f : A -> B) (m : gmap K A) k x y j :
  m !! k = Some x -> f y = f x -> f <$> (<[k := y]> m !! j) = f <$> (m !! j).
Proof.
  intros Hk Hf. destruct (decide (j = k)) as [->|Hne].
  - rewrite lookup_insert_eq, Hk. cbn. by rewrite Hf.
  - by rewrite lookup_insert_ne.
Qed.

Lemma same_members_refl st : same_members st st.
Proof. by split_and!. Qed.

Lemma same_members_trans a b c : same_members a b -> same_members b c -> same_members a c.
Proof.
  intros (A1 & A2 & A3 & A4) (B1 & B2 & B3 & B4). split_and!; try congruence; intros x; rewrite ?B3, ?B4; auto.
Qed.

Lemma same_table_refl st : same_table st st.
Proof. by split_and!. Qed.

Lemma same_table_trans a b c : same_table a b -> same_table b c -> same_table a c.
Proof.
  intros (A1 & A2 & A3 & A4) (B1 & B2 & B3 & B4). split_and!; try congruence; intros x; rewrite ?B1; auto.
Qed.

Lemma put_channel_members st p c d :
  channel_store st !! p = Some c -> member_part d = member_part c -> same_members st (put_channel p d st).
Proof. intros Hc Hd. split_and!; try done. intros q. by apply fmap_insert_same with c. Qed.

Lemma put_channel_table st p c d :
  channel_store st !! p = Some c -> chname d = chname c -> same_table st (put_channel p d st).
Proof. intros Hc Hd. split_and!; try done. intros q. by apply fmap_insert_same with c. Qed.

Lemma put_channel_invites st p c d :
  channel_store st !! p = Some c -> invites d = invites c -> same_invites st (put_channel p d st).
Proof. intros Hc Hd. split; try done. intros q. by apply fmap_insert_same with c. Qed.

Lemma put_user_members st c u v :
  user_store st !! c = Some u -> u_member_part v = u_member_part u -> same_members st (put_user c v st).
Proof. intros Hc Hd. split_and!; try done. intros q. by apply fmap_insert_same with u. Qed.

Lemma put_user_invites st c u v :
  user_store st !! c = Some u -> u_invite_part v = u_invite_part u -> same_invites st (put_user c v st).
Proof. intros Hc Hd. split; try done. intros q. by apply fmap_insert_same with u. Qed.

Lemma put_user_table st c u : same_table st (put_user c u st).
Proof. done. Qed.

(** ** Invitations *)
Lemma put_user_lookup st c u d : user_store (put_user c u st) !! d = if decide (d = c) then Some u else user_store st !! d.
Proof. cbn. case_decide; [subst; apply lookup_insert_eq|by apply lookup_insert_ne]. Qed.

Lemma put_channel_lookup st p c q :
  channel_store (put_channel p c st) !! q = if decide (q = p) then Some c else channel_store st !! q.
Proof. cbn. case_decide; [subst; apply lookup_insert_eq|by apply lookup_insert_ne]. Qed.

Lemma invited_to_user st c u p : user_store st !! c = Some u -> invited_to st c p <-> p ∈ invited u.
Proof. intros Hu. unfold invited_to. rewrite Hu. split; [by intros (v & [= <-] & ?)|by exists u]. Qed.

Lemma invited_to_put st c u d q :
  invited_to (put_user c u st) d q <-> if decide (d = c) then q ∈ invited u else invited_to st d q.
Proof.
  unfold invited_to. rewrite put_user_lookup. case_decide; [|done].
  split; [by intros (v & [= <-] & ?)|by exists u].
Qed.

(** The lists of the channel [p] and of the user [d] change together. *)
Lemma invite_inv_update st p c d u l v :
  invite_inv st -> channel_store st !! p = Some c -> user_store st !! d = Some u ->
  NoDup l -> NoDup (invited v) -> u_invites v = Z.of_nat (length (invited v)) ->
  (forall e, e ∈ l <-> if decide (e = d) then p ∈ invited v else e ∈ invites c) ->
  (forall q, q <> p -> q ∈ invited v <-> q ∈ invited u) ->
  invite_inv (put_user d v (put_channel p (set_invites l c) st)).
Proof.
  intros [] Hc Hu Hl Hv Hn Hin Hq. constructor.
  - intros q cq. change (channel_store (put_user d v (put_channel p (set_invites l c) st)))
      with (channel_store (put_channel p (set_invites l c) st)).
    rewrite put_channel_lookup. case_decide as Hqp.
    + intros [= <-]. subst q. split; [done|]. intros e. cbn [invites set_invites]. rewrite Hin, invited_to_put.
      case_decide; [done|]. change (invited_to (put_channel p (set_invites l c) st) e p) with (invited_to st e p).
      apply (ii_channel0 p c Hc).
    + intros Hcq. destruct (ii_channel0 q cq Hcq) as [H1 H2]. split; [done|]. intros e.
      rewrite H2, invited_to_put. case_decide; [subst e|done]. rewrite (invited_to_user st d u q Hu).
      by rewrite Hq.
  - intros e w. rewrite put_user_lookup.
    assert (Hsome : forall q, is_Some (channel_store st !! q) ->
      is_Some (channel_store (put_user d v (put_channel p (set_invites l c) st)) !! q)).
    { intros q Hs. change (is_Some (channel_store (put_channel p (set_invites l c) st) !! q)).
      rewrite put_channel_lookup. by case_decide. }
    case_decide as He.
    + intros [= <-]. split; [done|]. split; [done|]. intros q Hqv. apply Hsome.
      destruct (decide (q = p)) as [->|Hne]; [eauto|]. apply Hq in Hqv; [|done].
      by apply (ii_user0 d u Hu).
    + intros Hw. destruct (ii_user0 e w Hw) as (H1 & H2 & H3). split; [done|]. split; [done|]. auto.
Qed.

Lemma del_invite_ok st p c d u :
  invite_inv st -> channel_store st !! p = Some c -> user_store st !! d = Some u ->
  Z.of_nat (length (invited u)) < 2 ^ 32 ->
  exists st', del_invite d p st = Some st' /\ invite_inv st' /\ same_members st st' /\ same_table st st' /\
    forall e q, invited_to st' e q <-> invited_to st e q /\ ~ (e = d /\ q = p).
Proof.
  intros Hi Hc Hu Hlen. pose proof (ii_channel _ Hi p c Hc) as [Hnd Hin].
  pose proof (ii_user _ Hi d u Hu) as (Hund & Hcnt & _).
  unfold del_invite. rewrite Hc. cbn [mbind option_bind].
  destruct (decide (d ∈ invites c)) as [Hd|Hd].
  - destruct (unlink_first_in d _ Hnd Hd) as (l & -> & Hl & _ & Hil).
    assert (Hp : p ∈ invited u) by (apply (invited_to_user st d u p Hu); by apply Hin).
    destruct (unlink_first_in p _ Hund Hp) as (l' & El & Hl' & Hlen' & Hil').
    change (user_store (put_channel p (set_invites l c) st)) with (user_store st).
    rewrite Hu. cbn [mbind option_bind]. rewrite put_user_lookup, decide_True by done. cbn [mbind option_bind invited].
    rewrite El. eexists. split; [done|].
    set (st1 := put_channel p (set_invites l c) st).
    match goal with |- invite_inv ?s /\ _ =>
      assert (s = put_user d (MkUser (u_channel u) (joined u) l' (u32 (u_invites u - 1))) st1) as ->
        by (unfold put_user, set_user_store, st1; cbn; by rewrite insert_insert_eq) end.
    split; [|split; [|split]].
    + apply (invite_inv_update st p c d u); try done.
      * cbn [u_invites invited]. rewrite Hcnt, Hlen' in *. unfold u32. rewrite Z.mod_small by lia. lia.
      * intros e. cbn [invited]. rewrite Hil. case_decide as He; [subst|tauto]. rewrite Hil'. tauto.
      * intros q Hq. cbn [invited]. rewrite Hil'. tauto.
    + apply (same_members_trans _ st1); [by apply put_channel_members with c|].
      by apply put_user_members with u.
    + exact (put_channel_table st p c (set_invites l c) Hc eq_refl).
    + intros e q. rewrite invited_to_put. case_decide as He.
      * subst e. cbn [invited]. rewrite Hil', (invited_to_user st d u q Hu). tauto.
      * change (invited_to st1 e q) with (invited_to st e q). tauto.
  - rewrite unlink_first_none by done. cbn [mbind option_bind]. rewrite Hu. cbn [mbind option_bind].
    assert (Hp : ~ p ∈ invited u) by (intros Hp; apply Hd, Hin, (invited_to_user st d u p Hu), Hp).
    rewrite unlink_first_none by done. exists st. split; [done|]. split; [done|].
    split; [apply same_members_refl|]. split; [apply same_table_refl|].
    intros e q. split; [|tauto]. intros He. split; [done|]. intros [-> ->].
    by apply Hp, (invited_to_user st d u p Hu).
Qed.

(** The counters have room: no list is longer than an unsigned int counts. *)
Definition counts_fit (st : state) : Prop :=
  (forall p c, channel_store st !! p = Some c -> Z.of_nat (length (members c)) + 1 < 2 ^ 32) /\
  (forall c u, user_store st !! c = Some u ->
    Z.of_nat (length (u_channel u)) + 1 < 2 ^ 32 /\ Z.of_nat (length (invited u)) + 1 < 2 ^ 32).

Lemma invited_length st st' d u v :
  invite_inv st -> invite_inv st' -> user_store st !! d = Some u -> user_store st' !! d = Some v ->
  (forall q, invited_to st' d q -> invited_to st d q) -> (length (invited v) <= length (invited u))%nat.
Proof.
  intros Hi Hi' Hu Hv Hsub. apply NoDup_incl_length; [by apply NoDup_ListNoDup, (ii_user _ Hi' d v Hv)|].
  intros q Hq. apply list_elem_of_In. apply list_elem_of_In in Hq.
  apply (invited_to_user st d u q Hu), Hsub, (invited_to_user st' d v q Hv), Hq.
Qed.

Lemma same_members_user st st' d u :
  same_members st st' -> user_store st !! d = Some u -> exists v, user_store st' !! d = Some v /\ u_channel v = u_channel u.
Proof.
  intros (_ & _ & _ & E) Hu. destruct (fmap_some _ _ _ _ (eq_sym (E d)) Hu) as (v & Hv & [= E1 _]). by exists v.
Qed.

Lemma same_members_channel st st' p c :
  same_members st st' -> channel_store st !! p = Some c ->
  exists d, channel_store st' !! p = Some d /\ members d = members c /\ users d = users c /\ chmode d = chmode c.
Proof.
  intros (_ & _ & E & _) Hc. destruct (fmap_some _ _ _ _ (eq_sym (E p)) Hc) as (v & Hv & [= E1 E2 E3]). by exists v.
Qed.

Lemma counts_fit_invites st st' :
  invite_inv st -> invite_inv st' -> same_members st st' ->
  (forall d q, invited_to st' d q -> invited_to st d q) -> counts_fit st -> counts_fit st'.
Proof.
  intros Hi Hi' Hs Hsub [Hc Hu]. pose proof Hs as (_ & _ & Ec & Eu). split.
  - intros p c Hp. destruct (fmap_some _ _ _ _ (Ec p) Hp) as (d & Hd & [= <- _ _]). by apply (Hc p).
  - intros d v Hv. destruct (fmap_some _ _ _ _ (Eu d) Hv) as (u & Hd & [= <- _]).
    pose proof (invited_length st st' d u v Hi Hi' Hd Hv (Hsub d)). destruct (Hu d u Hd). lia.
Qed.

Lemma clear_invites_ok fuel st p c :
  invite_inv st -> counts_fit st -> channel_store st !! p = Some c -> (length (invites c) <= fuel)%nat ->
  exists st' c', clear_invites fuel p st = Some st' /\ invite_inv st' /\ counts_fit st' /\
    same_members st st' /\ same_table st st' /\ channel_store st' !! p = Some c' /\ invites c' = [] /\
    forall e q, invited_to st' e q <-> invited_to st e q /\ q <> p.
Proof.
  revert st c. induction fuel as [|fuel IH]; intros st c Hi Hf Hc Hlen;
    pose proof (ii_channel _ Hi p c Hc) as [Hnd Hin]; cbn [clear_invites]; rewrite Hc; cbn [mbind option_bind];
    destruct (invites c) as [|d l] eqn:El; try (cbn in Hlen; lia).
  1, 2: exists st, c; split; [done|]; split; [done|]; split; [done|]; split; [apply same_members_refl|];
    split; [apply same_table_refl|]; split; [done|]; split; [done|];
    intros e q; split; [|tauto]; intros He; split; [done|]; intros ->; apply Hin in He; by apply not_elem_of_nil in He.
  assert (Hd : invited_to st d p) by (apply Hin; set_solver). pose proof Hd as (u & Hu & _).
  destruct (del_invite_ok st p c d u Hi Hc Hu) as (s1 & -> & Hi1 & Hs1 & Ht1 & Hin1).
  { destruct Hf as [_ Hf]. specialize (Hf d u Hu). lia. }
  cbn [mbind option_bind]. destruct (same_members_channel st s1 p c Hs1 Hc) as (c1 & Hc1 & _).
  pose proof (ii_channel _ Hi1 p c1 Hc1) as [Hnd1 Hinv1].
  assert (Hf1 : counts_fit s1).
  { apply (counts_fit_invites st s1); try done. intros e q He. apply Hin1 in He. tauto. }
  destruct (IH s1 c1 Hi1 Hf1 Hc1) as (s2 & c2 & -> & Hi2 & Hf2 & Hs2 & Ht2 & Hc2 & E2 & Hin2).
  { assert (length (invites c1) <= length l)%nat; [|cbn in Hlen; lia].
    apply NoDup_incl_length; [by apply NoDup_ListNoDup|]. intros e He. apply list_elem_of_In in He.
    apply list_elem_of_In. apply Hinv1, Hin1 in He as [He Hne]. apply Hin, elem_of_cons in He. tauto. }
  exists s2, c2. split; [done|]. split; [done|]. split; [done|].
  split; [by eapply same_members_trans|]. split; [by eapply same_table_trans|]. split; [done|]. split; [done|].
  intros e q. rewrite Hin2, Hin1. tauto.
Qed.

(** ** The end of a channel *)

(** What happens to the channels: [p] goes unless [keep], the others keep their
    members and modes; nothing else changes for the memberships. *)
Definition channels_after (p : entry_id) (keep : bool) (st st' : state) : Prop :=
  memberships st' = memberships st /\ membershipFreeList st' = membershipFreeList st /\
  (forall q, is_Some (channel_store st' !! q) <-> is_Some (channel_store st !! q) /\ (q = p -> keep = true)) /\
  (forall q d, channel_store st' !! q = Some d ->
     exists c, channel_store st !! q = Some c /\ members d = members c /\ chmode d = chmode c) /\
  (forall c, u_member_part <$> user_store st' !! c = u_member_part <$> user_store st !! c).

Lemma live_frame st st' m r :
  memberships st' = memberships st -> membershipFreeList st' = membershipFreeList st ->
  live st' m r <-> live st m r.
Proof. intros E1 E2. unfold live. by rewrite E1, E2. Qed.

Lemma delete_channel_members off st p c s :
  member_inv off st -> channel_store st !! p = Some c -> members c = [] ->
  off = None \/ off = Some p -> channel_store s = delete p (channel_store st) ->
  memberships s = memberships st -> membershipFreeList s = membershipFreeList st -> user_store s = user_store st ->
  member_inv None s.
Proof.
  intros [] Hc Hm Hoff Es Em Ef Eu.
  assert (Hl : forall m r, live s m r <-> live st m r) by (intros; by apply live_frame).
  assert (Hp : forall m r, live st m r -> m_channel r <> p).
  { intros m r Hr E. destruct (mi_channel0 p c Hc) as (_ & Hin & _).
    assert (m ∈ members c) as Hmc by (apply Hin; eauto). rewrite Hm in Hmc. by apply not_elem_of_nil in Hmc. }
  constructor.
  - by rewrite Ef.
  - intros m. rewrite Ef, Em. auto.
  - intros m r Hr. apply Hl in Hr. rewrite Es, Eu, lookup_delete_ne by (intros E; by destruct (Hp m r Hr)). eauto.
  - intros m n r s' Hr Hs. apply Hl in Hr, Hs. eauto.
  - intros q d. rewrite Es. intros Hd. apply lookup_delete_Some in Hd as [Hne Hd].
    destruct (mi_channel0 q d Hd) as (H1 & H2 & H3). split; [done|].
    split; [intros m; rewrite H2; by setoid_rewrite Hl|].
    rewrite H3. f_equal. rewrite !decide_False; [done|done|]. destruct Hoff; congruence.
  - intros d u. rewrite Eu. intros Hu. destruct (mi_user0 d u Hu) as (H1 & H2 & H3). split; [done|].
    split; [intros m; rewrite H2; by setoid_rewrite Hl|done].
Qed.

Lemma delete_channel_invites st p s :
  invite_inv st -> (forall d, ~ invited_to st d p) ->
  channel_store s = delete p (channel_store st) -> user_store s = user_store st -> invite_inv s.
Proof.
  intros [] Hno Es Eu.
  assert (Hin : forall d q, invited_to s d q <-> invited_to st d q) by (intros; unfold invited_to; by rewrite Eu).
  constructor.
  - intros q c. rewrite Es. intros Hc. apply lookup_delete_Some in Hc as [_ Hc].
    destruct (ii_channel0 q c Hc) as [H1 H2]. split; [done|]. intros d. by rewrite Hin.
  - intros d u. rewrite Eu. intros Hu. destruct (ii_user0 d u Hu) as (H1 & H2 & H3). split; [done|]. split; [done|].
    intros q Hq. rewrite Es, lookup_delete_ne; [auto|]. intros ->. apply (Hno d). by exists u.
Qed.

Lemma delete_channel_table st p c f :
  table_inv st -> channel_store st !! p = Some c ->
  (forall q, f q = name_of (channel_store st) q) ->
  exists t l, nt_rem f (channelTable st) p = Some (t, 0) /\
    unlink_first p (GlobalChannelList st) = Some l /\
    forall s, channel_store s = delete p (channel_store st) -> channelTable s = t ->
      GlobalChannelList s = l -> UserStats_channels s = UserStats_channels st - 1 -> table_inv s.
Proof.
  intros [] Hc Hf.
  destruct (nt_rem_ok f (channelTable st) p) as (t & Et & Ht & Hm); [by eapply nt_ext|apply ti_mem0; eauto|].
  assert (Hp : p ∈ GlobalChannelList st) by (apply ti_global_in0; eauto).
  destruct (unlink_first_in p _ ti_global0 Hp) as (l & El & Hl & _ & Hin).
  exists t, l. split; [done|]. split; [done|]. intros s Es <- <- En. constructor.
  - eapply nt_ext; [exact Ht|]. intros x Hx. apply Hm in Hx as [Hx _]. rewrite Hf, Es. unfold name_of.
    by rewrite lookup_delete_ne.
  - intros q. rewrite Hm, ti_mem0, Es. rewrite lookup_delete_is_Some. intuition congruence.
  - intros q d. rewrite Es. intros Hd. apply lookup_delete_Some in Hd as [_ Hd]. eauto.
  - intros q q' d d'. rewrite Es. intros Hd Hd'. apply lookup_delete_Some in Hd as [_ Hd], Hd' as [_ Hd']. eauto.
  - done.
  - intros q. rewrite Hin, ti_global_in0, Es. rewrite lookup_delete_is_Some. intuition congruence.
  - rewrite En, ti_count0, Es, map_size_delete_Some by eauto.
    assert (size (channel_store st) <> 0%nat); [|lia].
    intros E. apply map_size_empty_inv in E. by rewrite E, lookup_empty in Hc.
Qed.

Lemma free_channel_ok off st p c :
  member_inv off st -> invite_inv st -> table_inv st -> counts_fit st ->
  channel_store st !! p = Some c -> members c = [] -> off = None \/ off = Some p ->
  exists st', free_channel p st = Some st' /\ channels_ok st' /\ counts_fit st' /\ channels_after p false st st' /\
    forall e q, invited_to st' e q <-> invited_to st e q /\ q <> p.
Proof.
  intros Hm Hi Ht Hf Hc Hmem Hoff. unfold free_channel. rewrite Hc. cbn [mbind option_bind].
  destruct (clear_invites_ok (length (invites c)) st p c Hi Hf Hc (le_n _))
    as (s1 & c1 & -> & Hi1 & Hf1 & Hs1 & Ht1 & Hc1 & Ei & Hin). cbn [mbind option_bind].
  pose proof (table_inv_frame st s1 Ht Ht1) as Htab1. pose proof (member_inv_frame off st s1 Hm Hs1) as Hm1.
  destruct (delete_channel_table s1 p c1 (name_of (channel_store s1)) Htab1 Hc1) as (t & l & Er & El & Htab);
    [done|].
  rewrite El. cbn [mbind option_bind]. rewrite Er. eexists. split; [done|].
  destruct (same_members_channel st s1 p c Hs1 Hc) as (c1' & Hc1' & Em1 & _). rewrite Hc1 in Hc1'. injection Hc1' as <-.
  assert (Hno : forall d, ~ invited_to s1 d p) by (intros d Hd; apply Hin in Hd; tauto).
  split; [split; [|split]|split; [|split]].
  - eapply (delete_channel_members off s1 p c1); try done. congruence.
  - by apply (delete_channel_invites s1 p).
  - by apply Htab.
  - destruct Hf1 as [H1 H2]. split; [|done]. intros q d Hd. cbn in Hd. apply lookup_delete_Some in Hd as [_ Hd]. eauto.
  - destruct Hs1 as (E1 & E2 & E3 & E4). split_and!; try done.
    + intros q. cbn. rewrite lookup_delete_is_Some, (fmap_is_some _ _ _ (E3 q)). split.
      * intros [Hne Hq]. split; [done|congruence].
      * intros [Hq Hne]. split; [intros ->; by specialize (Hne eq_refl)|done].
    + intros q d Hd. cbn in Hd. apply lookup_delete_Some in Hd as [_ Hd].
      destruct (fmap_some _ _ _ _ (E3 q) Hd) as (c0 & Hc0 & [= ? ? ?]). by exists c0.
  - intros e q. etransitivity; [|apply Hin]. done.
Qed.

(** ** Leaving a channel *)
Lemma channels_after_refl st p : channels_after p true st st.
Proof. split_and!; try done; [tauto|]. intros q d Hd. by exists d. Qed.

Lemma put_users_ok st p c n :
  member_inv (Some p) st -> channel_store st !! p = Some c -> n = Z.of_nat (length (members c)) ->
  member_inv None (put_channel p (set_users n c) st).
Proof.
  intros [] Hc Hn. constructor; try done.
  - intros m r Hr. destruct (mi_live0 m r Hr) as [H1 H2]. split; [|done].
    rewrite put_channel_lookup. by case_decide.
  - intros q d. rewrite put_channel_lookup. case_decide as Hq.
    + intros [= <-]. subst q. destruct (mi_channel0 p c Hc) as (H1 & H2 & H3). split; [done|]. split; [done|].
      cbn [users members set_users]. rewrite Hn, decide_False by done. lia.
    + intros Hd. destruct (mi_channel0 q d Hd) as (H1 & H2 & H3). split; [done|]. split; [done|].
      rewrite H3. f_equal. rewrite !decide_False; congruence.
Qed.

Lemma sub1_ok st p c :
  member_inv (Some p) st -> invite_inv st -> table_inv st -> counts_fit st -> channel_store st !! p = Some c ->
  exists st' b, sub1_from_channel p st = Some (st', b) /\ channels_ok st' /\ counts_fit st' /\
    channels_after p (b || persistent c) st st' /\ (b = true <-> members c <> []) /\
    forall e q, invited_to st' e q -> invited_to st e q.
Proof.
  intros Hm Hi Ht Hf Hc. destruct (mi_channel _ _ Hm p c Hc) as (_ & _ & Hn). rewrite decide_True in Hn by done.
  unfold sub1_from_channel. rewrite Hc. cbn [mbind option_bind].
  assert (Hput : forall n, n = Z.of_nat (length (members c)) -> let st' := put_channel p (set_users n c) st in
    channels_ok st' /\ counts_fit st' /\ channels_after p true st st' /\ forall e q, invited_to st' e q -> invited_to st e q).
  { intros n E. split; [split; [|split]|split; [|split]].
    - by apply put_users_ok.
    - apply (invite_inv_frame st); [done|]. by apply put_channel_invites with c.
    - apply (table_inv_frame st); [done|]. by apply put_channel_table with c.
    - destruct Hf as [H1 H2]. split; [|done]. intros q d. rewrite put_channel_lookup. case_decide; [|apply H1].
      intros [= <-]. apply (H1 p c Hc).
    - split_and!; try done.
      + intros q. rewrite put_channel_lookup. case_decide; [subst; rewrite Hc|tauto]. split; [eauto|by intros [? _]].
      + intros q d. rewrite put_channel_lookup. case_decide; [|by exists d]. intros [= <-]. subst. by exists c.
    - done. }
  destruct (members c) as [|m l] eqn:El.
  - rewrite (proj2 (Z.ltb_ge 1 _)) by (cbn in Hn; lia). destruct (persistent c) eqn:Ep.
    + assert (u32 (users c - 1) = 0) as -> by (cbn in Hn; rewrite Hn; done).
      destruct (Hput 0 eq_refl) as (H1 & H2 & H3 & H4).
      eexists _, false. split; [done|]. split; [done|]. split; [done|]. split; [done|]. split; [done|exact H4].
    + destruct (free_channel_ok (Some p) st p c Hm Hi Ht Hf Hc El) as (st' & -> & H1 & H2 & H3 & H4); [by right|].
      cbn [mbind option_bind]. exists st', false. split; [done|]. split; [done|]. split; [done|]. split; [done|].
      split; [done|]. intros e q He. apply H4 in He. tauto.
  - rewrite (proj2 (Z.ltb_lt 1 _)) by (cbn in Hn; lia).
    destruct (Hput (users c - 1)) as (H1 & H2 & H3 & H4); [rewrite Hn; lia|].
    eexists _, true. split; [done|]. split; [done|]. split; [done|]. split; [done|]. split; [done|exact H4].
Qed.

(** The state after the links of the membership [m] are gone. *)
Definition unlinked (m : positive) (r : Membership) (c : Channel) (u : User) (l : list positive)
    (ul : list positive) (st : state) : state :=
  set_free (m :: membershipFreeList st) (membershipAllocCount st)
    (put_user (m_user r) (MkUser ul (u32 (joined u - 1)) (invited u) (u_invites u))
      (put_channel (m_channel r) (set_members l c) st)).

Lemma live_unlinked m r c u l ul st n s :
  live st m r -> live (unlinked m r c u l ul st) n s <-> live st n s /\ n <> m.
Proof.
  intros Hm. unfold live, unlinked. cbn. rewrite not_elem_of_cons. tauto.
Qed.

Lemma unlink_ok m r c u st :
  member_inv None st -> counts_fit st -> live st m r ->
  channel_store st !! m_channel r = Some c -> user_store st !! m_user r = Some u ->
  exists l ul, unlink_first m (members c) = Some l /\ unlink_first m (u_channel u) = Some ul /\
    length (members c) = S (length l) /\ length (u_channel u) = S (length ul) /\
    member_inv (Some (m_channel r)) (unlinked m r c u l ul st).
Proof.
  intros Hm Hf Hr Hc Hu.
  destruct (mi_channel _ _ Hm _ c Hc) as (Hnd & Hin & Hn). destruct (mi_user _ _ Hm _ u Hu) as (Hund & Huin & Hj).
  destruct (unlink_first_in m _ Hnd) as (l & El & Hl & Hlen & Hil); [apply Hin; eauto|].
  destruct (unlink_first_in m _ Hund) as (ul & Eul & Hul & Hulen & Hiul); [apply Huin; eauto|].
  exists l, ul. split; [done|]. split; [done|]. split; [done|]. split; [done|].
  pose proof (live_unlinked m r c u l ul st) as Hlive. destruct Hm. constructor.
  - cbn. apply NoDup_cons. split; [apply Hr|done].
  - intros n. cbn. rewrite elem_of_cons. intros [->|Hn']; [|auto]. destruct Hr as [-> _]. eauto.
  - intros n s Hs. apply Hlive in Hs as [Hs _]; [|done]. destruct (mi_live0 n s Hs) as [H1 H2]. split.
    + change (is_Some (channel_store (put_channel (m_channel r) (set_members l c) st) !! m_channel s)).
      rewrite put_channel_lookup. destruct (decide (m_channel s = m_channel r)); [eauto|done].
    + change (is_Some (user_store (put_user (m_user r) (MkUser ul (u32 (joined u - 1)) (invited u) (u_invites u))
        (put_channel (m_channel r) (set_members l c) st)) !! m_user s)).
      rewrite put_user_lookup. destruct (decide (m_user s = m_user r)); [eauto|done].
  - intros n n' s s' Hs Hs'. apply Hlive in Hs as [Hs _], Hs' as [Hs' _]; try done. eauto.
  - intros p d. change (channel_store (unlinked m r c u l ul st)) with
      (channel_store (put_channel (m_channel r) (set_members l c) st)).
    rewrite put_channel_lookup. destruct (decide (p = m_channel r)) as [Hp|Hp].
    + intros [= <-]. subst p. cbn [members users set_members]. split; [done|]. split.
      * intros n. rewrite Hil, Hin. split.
        -- intros (Hne & s & Hs & Hsc). exists s. split; [by apply Hlive|done].
        -- intros (s & Hs & Hsc). apply Hlive in Hs as [Hs Hne]; [|done]. split; [done|]. by exists s.
      * rewrite decide_True by done. rewrite Hn, decide_False by done. lia.
    + intros Hd. destruct (mi_channel0 p d Hd) as (H1 & H2 & H3). split; [done|]. split.
      * intros n. rewrite H2. split; intros (s & Hs & Hsc); exists s; (split; [|done]).
        -- apply Hlive; [done|]. split; [done|]. intros ->. destruct Hs as [Hs _], Hr as [Hr _]. congruence.
        -- by apply Hlive in Hs as [? _].
      * rewrite H3. f_equal. rewrite !decide_False; congruence.
  - intros e v. change (user_store (unlinked m r c u l ul st)) with (user_store
      (put_user (m_user r) (MkUser ul (u32 (joined u - 1)) (invited u) (u_invites u))
        (put_channel (m_channel r) (set_members l c) st))).
    rewrite put_user_lookup. destruct (decide (e = m_user r)) as [He|He].
    + intros Ev. injection Ev as <-. subst e. cbn [u_channel joined]. split; [done|]. split.
      * intros n. rewrite Hiul, Huin. split.
        -- intros (Hne & s & Hs & Hsc). exists s. split; [by apply Hlive|done].
        -- intros (s & Hs & Hsc). apply Hlive in Hs as [Hs Hne]; [|done]. split; [done|]. by exists s.
      * destruct Hf as [_ Hf]. destruct (Hf _ u Hu) as [Hf1 _]. rewrite Hj, Hulen. unfold u32.
        rewrite Z.mod_small by lia. lia.
    + intros Hv. destruct (mi_user0 e v Hv) as (H1 & H2 & H3). split; [done|]. split; [|done].
      intros n. rewrite H2. split; intros (s & Hs & Hsc); exists s; (split; [|done]).
      * apply Hlive; [done|]. split; [done|]. intros ->. destruct Hs as [Hs _], Hr as [Hr _]. congruence.
      * by apply Hlive in Hs as [? _].
Qed.

Lemma unlinked_invites m r c u l ul st :
  channel_store st !! m_channel r = Some c -> user_store st !! m_user r = Some u ->
  same_invites st (unlinked m r c u l ul st).
Proof.
  intros Hc Hu. split; intros q; cbn.
  - by apply fmap_insert_same with c.
  - by apply fmap_insert_same with u.
Qed.

Lemma unlinked_table m r c u l ul st :
  channel_store st !! m_channel r = Some c -> same_table st (unlinked m r c u l ul st).
Proof. intros Hc. split_and!; try done. intros q. cbn. by apply fmap_insert_same with c. Qed.

Lemma unlinked_counts m r c u l ul st :
  channel_store st !! m_channel r = Some c -> user_store st !! m_user r = Some u -> counts_fit st ->
  (length l <= length (members c))%nat -> (length ul <= length (u_channel u))%nat ->
  counts_fit (unlinked m r c u l ul st).
Proof.
  intros Hc Hu [H1 H2] Hl Hul. split.
  - intros p d Hd. cbn in Hd. apply lookup_insert_Some in Hd as [[<- <-]|[_ Hd]]; [|eauto].
    specialize (H1 _ c Hc). cbn. lia.
  - intros e v Hv. cbn in Hv. apply lookup_insert_Some in Hv as [[<- <-]|[_ Hv]]; [|eauto].
    destruct (H2 _ u Hu). cbn. lia.
Qed.

(** What is left when the membership [m] has gone; [b] tells that the channel
    still has members. *)
Record member_gone (m : positive) (r : Membership) (b : bool) (st st' : state) : Prop := {
  mg_ok : channels_ok st';
  mg_fit : counts_fit st';
  mg_live n s : live st' n s <-> live st n s /\ n <> m;
  mg_more : b = true <-> exists n s, live st n s /\ n <> m /\ m_channel s = m_channel r;
  mg_channels q : is_Some (channel_store st' !! q) <->
    exists c, channel_store st !! q = Some c /\ (q = m_channel r -> b || persistent c = true);
  mg_modes q d : channel_store st' !! q = Some d ->
    exists c, channel_store st !! q = Some c /\ chmode d = chmode c;
  mg_users c : is_Some (user_store st' !! c) <-> is_Some (user_store st !! c) }.

Lemma remove_member_ok m r st :
  channels_ok st -> counts_fit st -> live st m r ->
  exists st' b, remove_member_from_channel m st = Some (st', b) /\ member_gone m r b st st'.
Proof.
  intros (Hm & Hi & Ht) Hf Hr. destruct (mi_live _ _ Hm m r Hr) as [[c Hc] [u Hu]].
  destruct (unlink_ok m r c u st Hm Hf Hr Hc Hu) as (l & ul & El & Eul & Hlen & Hulen & Hm1).
  unfold remove_member_from_channel. rewrite (proj1 Hr). cbn [mbind option_bind]. rewrite Hc. cbn [mbind option_bind].
  rewrite El. cbn [mbind option_bind]. rewrite Hu. cbn [mbind option_bind]. rewrite Eul. cbn [mbind option_bind].
  change (set_free _ _ _) with (unlinked m r c u l ul st). set (s1 := unlinked m r c u l ul st) in *.
  assert (Hc1 : channel_store s1 !! m_channel r = Some (set_members l c)) by apply lookup_insert_eq.
  destruct (sub1_ok s1 (m_channel r) (set_members l c) Hm1) as (st' & b & -> & Hok & Hf' & (E1 & E2 & E3 & E4 & E5) & Hb & _);
    [by apply (invite_inv_frame st), unlinked_invites|by apply (table_inv_frame st), unlinked_table|
     by apply unlinked_counts; try done; lia|done|].
  assert (Hlive : forall n s, live st' n s <-> live st n s /\ n <> m).
  { intros n s. rewrite (live_frame s1 st' n s E1 E2). by apply live_unlinked. }
  assert (Hst : forall q, is_Some (channel_store s1 !! q) <-> is_Some (channel_store st !! q)).
  { intros q. cbn. rewrite lookup_insert_is_Some. split; [intros [<-|[_ ?]]; eauto|].
    destruct (decide (m_channel r = q)); [by left|by right]. }
  exists st', b. split; [done|]. constructor; try done.
  - rewrite Hb. cbn [members set_members]. destruct (mi_channel _ _ Hm _ c Hc) as (Hnd & Hin & _).
    destruct (unlink_first_in m _ Hnd) as (l' & El' & _ & _ & Hil); [apply Hin; eauto|].
    rewrite El in El'. injection El' as <-. split.
    + intros Hne. destruct l as [|n l]; [done|]. destruct (proj1 (Hil n)) as [Hnm Hn]; [set_solver|].
      apply Hin in Hn as (s & Hs & Es). by exists n, s.
    + intros (n & s & Hs & Hne & Es) ->. apply (not_elem_of_nil n). apply Hil. split; [done|]. apply Hin. eauto.
  - intros q. rewrite E3, Hst. split.
    + intros [[d Hd] Hk]. exists d. split; [done|]. intros ->. rewrite <- (Hk eq_refl). f_equal. unfold persistent.
      cbn. congruence.
    + intros (d & Hd & Hk). split; [eauto|]. intros ->. rewrite <- (Hk eq_refl). f_equal. unfold persistent.
      cbn. congruence.
  - intros q d Hd. destruct (E4 q d Hd) as (c1 & Hc1' & _ & Em). cbn in Hc1'.
    apply lookup_insert_Some in Hc1' as [[<- <-]|[_ Hc1']]; [|by exists c1]. exists c. by split.
  - intros e. rewrite (fmap_is_some _ _ _ (E5 e)). cbn. rewrite lookup_insert_is_Some.
    split; [intros [<-|[_ ?]]; eauto|]. destruct (decide (m_user r = e)); [by left|by right].
Qed.

(** ** Finding a membership *)
Lemma find_in_channel_ok p c l st :
  (forall m, m ∈ l -> exists r, memberships st !! m = Some r /\ m_channel r = p) ->
  exists o, find_in_channel p c l st = Some o /\
    match o with
    | Some m => m ∈ l /\ exists r, memberships st !! m = Some r /\ m_user r = c /\ m_channel r = p
    | None => forall m r, m ∈ l -> memberships st !! m = Some r -> m_user r <> c
    end.
Proof.
  induction l as [|m l IH]; intros Hl; cbn [find_in_channel].
  { exists None. split; [done|]. intros m r Hm. by apply not_elem_of_nil in Hm. }
  destruct (Hl m) as (r & Hr & Hp); [set_solver|]. rewrite Hr. cbn [mbind option_bind]. rewrite decide_True by done.
  case_decide as Hu.
  - exists (Some m). split; [done|]. split; [set_solver|]. by exists r.
  - destruct IH as (o & -> & Ho); [intros; apply Hl; set_solver|]. exists o. split; [done|]. destruct o as [n|].
    + destruct Ho as [Hn Ho]. split; [set_solver|done].
    + intros n s Hn Hs. apply elem_of_cons in Hn as [->|Hn]; [congruence|eauto].
Qed.

Lemma find_in_user_ok p c l st :
  (forall m, m ∈ l -> exists r, memberships st !! m = Some r /\ m_user r = c) ->
  exists o, find_in_user p c l st = Some o /\
    match o with
    | Some m => m ∈ l /\ exists r, memberships st !! m = Some r /\ m_user r = c /\ m_channel r = p
    | None => forall m r, m ∈ l -> memberships st !! m = Some r -> m_channel r <> p
    end.
Proof.
  induction l as [|m l IH]; intros Hl; cbn [find_in_user].
  { exists None. split; [done|]. intros m r Hm. by apply not_elem_of_nil in Hm. }
  destruct (Hl m) as (r & Hr & Hp); [set_solver|]. rewrite Hr. cbn [mbind option_bind]. rewrite decide_True by done.
  case_decide as Hu.
  - exists (Some m). split; [done|]. split; [set_solver|]. by exists r.
  - destruct IH as (o & -> & Ho); [intros; apply Hl; set_solver|]. exists o. split; [done|]. destruct o as [n|].
    + destruct Ho as [Hn Ho]. split; [set_solver|done].
    + intros n s Hn Hs. apply elem_of_cons in Hn as [->|Hn]; [congruence|eauto].
Qed.

(** find_member_link() finds the membership of a user on a channel, by either list. *)
Lemma find_member_link_ok p c st :
  member_inv None st -> server_like c = false ->
  is_Some (channel_store st !! p) -> is_Some (user_store st !! c) ->
  exists o, find_member_link p c st = Some o /\
    match o with
    | Some m => exists r, live st m r /\ m_user r = c /\ m_channel r = p
    | None => forall m r, live st m r -> m_user r = c -> m_channel r <> p
    end.
Proof.
  intros Hm Hs [ch Hc] [u Hu]. unfold find_member_link. rewrite Hs.
  destruct (mi_channel _ _ Hm p ch Hc) as (_ & Hin & _). destruct (mi_user _ _ Hm c u Hu) as (_ & Huin & _).
  destruct (IsChannelService c).
  - rewrite Hc. cbn [mbind option_bind]. destruct (find_in_channel_ok p c (members ch) st) as (o & -> & Ho).
    { intros m Hmem. apply Hin in Hmem as (r & [Hr _] & Hp). by exists r. }
    exists o. split; [done|]. destruct o as [m|].
    + destruct Ho as [Hmem (r & Hr & Hru & Hrc)]. apply Hin in Hmem as (r' & Hl & _).
      assert (r' = r) as -> by (destruct Hl; congruence). by exists r.
    + intros m r Hl Hru Hrc. apply (Ho m r); [apply Hin; eauto|apply Hl|done].
  - rewrite Hu. cbn [mbind option_bind]. destruct (find_in_user_ok p c (u_channel u) st) as (o & -> & Ho).
    { intros m Hmem. apply Huin in Hmem as (r & [Hr _] & Hp). by exists r. }
    exists o. split; [done|]. destruct o as [m|].
    + destruct Ho as [Hmem (r & Hr & Hru & Hrc)]. apply Huin in Hmem as (r' & Hl & _).
      assert (r' = r) as -> by (destruct Hl; congruence). by exists r.
    + intros m r Hl Hru. apply (Ho m r); [apply Huin; eauto|apply Hl].
Qed.

Lemma fewer_members m r b st st' c d :
  channels_ok st -> live st m r -> member_gone m r b st st' ->
  channel_store st !! m_channel r = Some c -> channel_store st' !! m_channel r = Some d ->
  (length (members d) < length (members c))%nat.
Proof.
  intros (Hm & _) Hr [[Hm' _] _ Hl _ _ _] Hc Hd.
  destruct (mi_channel _ _ Hm _ c Hc) as (_ & Hin & _). destruct (mi_channel _ _ Hm' _ d Hd) as (Hnd & Hin' & _).
  assert (length (m :: members d) <= length (members c))%nat as Hle; [|cbn in Hle; lia].
  apply NoDup_incl_length.
  - apply NoDup_ListNoDup, NoDup_cons. split; [|done]. intros Hx. apply Hin' in Hx as (s & Hs & _).
    apply Hl in Hs. tauto.
  - intros n Hn. apply list_elem_of_In. apply list_elem_of_In, elem_of_cons in Hn as [->|Hn].
    + apply Hin. eauto.
    + apply Hin' in Hn as (s & Hs & Es). apply Hl in Hs as [Hs _]. apply Hin. eauto.
Qed.

(** After the last member of a list has been taken, a channel that is not
    persistent is gone. *)
Lemma remove_members_ok fuel p c st :
  channels_ok st -> counts_fit st -> channel_store st !! p = Some c -> persistent c = false ->
  members c <> [] -> (length (members c) <= fuel)%nat ->
  exists st', remove_members fuel p st = Some st' /\ channels_ok st' /\ counts_fit st' /\
    (forall n s, live st' n s <-> live st n s /\ m_channel s <> p) /\
    (forall q, is_Some (channel_store st' !! q) <-> is_Some (channel_store st !! q) /\ q <> p) /\
    (forall q d, channel_store st' !! q = Some d -> exists e, channel_store st !! q = Some e /\ chmode d = chmode e) /\
    (forall e, is_Some (user_store st' !! e) <-> is_Some (user_store st !! e)).
Proof.
  revert st c. induction fuel as [|fuel IH]; intros st c Hok Hf Hc Hp Hne Hlen.
  { destruct (members c); [done|cbn in Hlen; lia]. }
  cbn [remove_members]. rewrite Hc. cbn [mbind option_bind].
  destruct (members c) as [|m l] eqn:El; [done|].
  destruct (mi_channel _ _ (proj1 Hok) p c Hc) as (_ & Hin & _).
  destruct (proj1 (Hin m)) as (r & Hr & Er); [rewrite El; set_solver|]. subst p.
  destruct (remove_member_ok m r st Hok Hf Hr) as (s1 & b & -> & Hg). cbn [mbind option_bind].
  pose proof Hg as [Hok1 Hf1 Hl1 Hb1 Hc1 Hm1 Hu1]. destruct b.
  - destruct (proj2 (Hc1 (m_channel r))) as [c1 Hc1']; [exists c; by split|].
    destruct (Hm1 _ _ Hc1') as (c0 & Hc0 & Em). rewrite Hc in Hc0. injection Hc0 as <-.
    pose proof (fewer_members m r true st s1 c c1 Hok Hr Hg Hc Hc1') as Hfew. rewrite El in Hfew.
    destruct (IH s1 c1 Hok1 Hf1 Hc1') as (s2 & -> & Hok2 & Hf2 & Hl2 & Hc2 & Hd2 & Hu2).
    + unfold persistent. by rewrite Em.
    + destruct (proj1 Hb1 eq_refl) as (n & s & Hs & Hnm & Es). intros E0.
      destruct (mi_channel _ _ (proj1 Hok1) _ c1 Hc1') as (_ & Hin1 & _).
      assert (n ∈ members c1) as Hn by (apply Hin1; exists s; split; [apply Hl1|]; done).
      rewrite E0 in Hn. by apply not_elem_of_nil in Hn.
    + cbn in Hlen, Hfew. lia.
    + exists s2. split; [done|]. split; [done|]. split; [done|]. split; [|split; [|split]].
      * intros n s. rewrite Hl2, Hl1. split; [tauto|]. intros [Hs Hne']. split; [split; [done|]|done].
        intros ->. apply Hne'. destruct Hs, Hr. congruence.
      * intros q. rewrite Hc2, Hc1. split; [intros [(d & Hd & _) Hq]; eauto|].
        intros [[d Hd] Hq]. split; [|done]. by exists d.
      * intros q d Hd. destruct (Hd2 q d Hd) as (d1 & Hd1 & ->). by apply Hm1.
      * intros e. by rewrite Hu2, Hu1.
  - exists s1. split; [done|]. split; [done|]. split; [done|]. split; [|split; [|done]].
    + intros n s. rewrite Hl1. split.
      * intros [Hs Hnm]. split; [done|]. intros Es. assert (false = true); [|done]. apply Hb1. by exists n, s.
      * intros [Hs Hne']. split; [done|]. intros ->. apply Hne'. destruct Hs, Hr. congruence.
    + intros q. rewrite Hc1. split.
      * intros (d & Hd & Hq). split; [eauto|]. intros ->. rewrite Hc in Hd. injection Hd as <-.
        specialize (Hq eq_refl). by rewrite Hp in Hq.
      * intros [[d Hd] Hq]. exists d. by split.
Qed.

Lemma all_zombies_ok l st :
  (forall m, m ∈ l -> is_Some (memberships st !! m)) ->
  exists z, all_zombies l st = Some z /\
    if (z : bool) then forall m r, m ∈ l -> memberships st !! m = Some r -> IsZombie r = true
    else exists m r, m ∈ l /\ memberships st !! m = Some r /\ IsZombie r = false.
Proof.
  induction l as [|m l IH]; intros Hl; cbn [all_zombies].
  { exists true. split; [done|]. intros m r Hm. by apply not_elem_of_nil in Hm. }
  destruct (Hl m) as [r Hr]; [set_solver|]. rewrite Hr. cbn [mbind option_bind].
  destruct (IsZombie r) eqn:Ez.
  - destruct IH as (z & -> & Hz); [intros; apply Hl; set_solver|]. exists z. split; [done|]. destruct z.
    + intros n s Hn Hs. apply elem_of_cons in Hn as [->|Hn]; [congruence|eauto].
    + destruct Hz as (n & s & Hn & Hs). exists n, s. split; [set_solver|done].
  - exists false. split; [done|]. exists m, r. split; [set_solver|done].
Qed.

(** Client [c] is on the channel [p]. *)
Definition on (st : state) (c : N) (p : entry_id) : Prop :=
  exists m r, live st m r /\ m_user r = c /\ m_channel r = p.

(** The channel outlives the client: he is not on it, it is persistent, or
    somebody else is on it who has not been kicked. *)
Definition outlives (st : state) (c : N) (p : entry_id) : Prop :=
  ~ on st c p \/ (exists d, channel_store st !! p = Some d /\ persistent d = true) \/
  exists m r, live st m r /\ m_channel r = p /\ m_user r <> c /\ IsZombie r = false.

(** The members of a channel that are left when a client has gone. *)
Definition user_gone (c : N) (p : entry_id) (st st' : state) : Prop :=
  (forall n s, live st' n s <-> live st n s /\ (m_channel s = p -> m_user s <> c /\ outlives st c p)) /\
  (forall q, is_Some (channel_store st' !! q) <-> is_Some (channel_store st !! q) /\ (q = p -> outlives st c p)) /\
  (forall q d, channel_store st' !! q = Some d -> exists e, channel_store st !! q = Some e /\ chmode d = chmode e) /\
  forall e, is_Some (user_store st' !! e) <-> is_Some (user_store st !! e).

Lemma remove_user_ok c p st :
  channels_ok st -> counts_fit st -> server_like c = false ->
  is_Some (channel_store st !! p) -> is_Some (user_store st !! c) ->
  exists st', remove_user_from_channel c p st = Some st' /\ channels_ok st' /\ counts_fit st' /\ user_gone c p st st'.
Proof.
  intros Hok Hf Hs Hp Hc. unfold remove_user_from_channel.
  destruct (find_member_link_ok p c st (proj1 Hok) Hs Hp Hc) as (o & -> & Ho). cbn [mbind option_bind].
  destruct o as [m|].
  2:{ assert (outlives st c p) as Hout by (left; intros (m & r & Hl & Hu & Hch); by apply (Ho m r)).
      exists st. split; [done|]. split; [done|]. split; [done|]. split; [|split].
      - intros n s. split; [|tauto]. intros Hl. split; [done|]. intros Hch. split; [|done]. intros Hu. by apply (Ho n s).
      - intros q. tauto.
      - split; [|done]. intros q d Hd. by exists d. }
  destruct Ho as (r & Hr & Hu & Hch). subst c p.
  assert (Hon : on st (m_user r) (m_channel r)) by (by exists m, r).
  destruct (remove_member_ok m r st Hok Hf Hr) as (s1 & b & -> & Hg). cbn [mbind option_bind].
  pose proof Hg as [Hok1 Hf1 Hl1 Hb1 Hc1 Hm1 Hu1]. destruct Hp as [ch Hch].
  assert (Hlive : forall n s, live st n s -> n <> m <-> (m_channel s = m_channel r -> m_user s <> m_user r)).
  { intros n s Hns. split.
    - intros Hne E1 E2. apply Hne. by apply (mi_uniq _ _ (proj1 Hok) n m s r).
    - intros E1 ->. destruct Hns as [Hns _], Hr as [Hr _]. rewrite Hr in Hns. injection Hns as <-. by apply E1. }
  assert (Hpers : outlives st (m_user r) (m_channel r) <-> persistent ch = true \/
    exists n s, live s1 n s /\ m_channel s = m_channel r /\ IsZombie s = false).
  { split.
    - intros [Hn|[(d & Hd & Hp)|(n & s & Hs' & Es & Eu & Ez)]]; [done|left; congruence|right].
      exists n, s. split; [|done]. apply Hl1. split; [done|]. by apply (Hlive n s).
    - intros [Hp|(n & s & Hs' & Es & Ez)]; right; [left; by exists ch|right].
      apply Hl1 in Hs' as [Hs' Hnm]. exists n, s. split; [done|]. split; [done|]. split; [|done]. by apply (Hlive n s). }
  assert (Hkeep : outlives st (m_user r) (m_channel r) -> b || persistent ch = true -> user_gone (m_user r) (m_channel r) st s1).
  { intros Hout Hb. split; [|split; [|done]].
    - intros n s. rewrite Hl1. split; [intros [H1 H2]|intros [H1 H2]]; (split; [done|]).
      + intros E. split; [by apply (Hlive n s)|done].
      + apply (Hlive n s H1). intros E. by apply H2.
    - intros q. rewrite Hc1. split; [intros (d & Hd & _); eauto|]. intros [[d Hd] _]. exists d. split; [done|].
      intros ->. by replace d with ch by congruence. }
  destruct b.
  - destruct (proj2 (Hc1 (m_channel r))) as [c1 Hc1']; [exists ch; by split|].
    destruct (Hm1 _ _ Hc1') as (c0 & Hc0 & Em). assert (c0 = ch) as -> by congruence.
    unfold channel_all_zombies. rewrite Hc1'. cbn [mbind option_bind].
    destruct (mi_channel _ _ (proj1 Hok1) _ c1 Hc1') as (_ & Hin1 & _).
    destruct (persistent c1) eqn:Ep.
    { assert (persistent ch = true) as Ep' by (unfold persistent in *; by rewrite <- Em).
      exists s1. cbn [mbind option_bind]. split; [done|]. split; [done|]. split; [done|]. apply Hkeep; [apply Hpers; by left|done]. }
    destruct (all_zombies_ok (members c1) s1) as (z & -> & Hz).
    { intros n Hn. apply Hin1 in Hn as (s & [Hs' _] & _). eauto. }
    cbn [mbind option_bind]. destruct z.
    + assert (Hne : members c1 <> []).
      { destruct (proj1 Hb1 eq_refl) as (n & s & Hs' & Hnm & Es). intros E0.
        assert (n ∈ members c1) as Hn by (apply Hin1; exists s; split; [apply Hl1|]; done).
        rewrite E0 in Hn. by apply not_elem_of_nil in Hn. }
      cbn [mbind option_bind].
      destruct (remove_members_ok (length (members c1)) (m_channel r) c1 s1 Hok1 Hf1 Hc1' Ep Hne (le_n _))
        as (s2 & -> & Hok2 & Hf2 & Hl2 & Hc2 & Hd2 & Hu2).
      assert (Hno : ~ outlives st (m_user r) (m_channel r)).
      { intros Hout. apply Hpers in Hout as [Hp|(n & s & Hs' & Es & Ez)].
        - unfold persistent in *. rewrite <- Em in Hp. congruence.
        - rewrite (Hz n s) in Ez; [done|apply Hin1; eauto|apply Hs']. }
      exists s2. split; [done|]. split; [done|]. split; [done|]. split; [|split; [|split]].
      * intros n s. rewrite Hl2, Hl1. split.
        -- intros [[H1 H2] H3]. by split.
        -- intros [H1 H2]. assert (m_channel s <> m_channel r) as Hne' by (intros E; by destruct (H2 E)).
           split; [|done]. split; [done|]. by apply (Hlive n s).
      * intros q. rewrite Hc2, Hc1. split.
        -- intros [(d & Hd & _) Hq]. split; [eauto|done].
        -- intros [[d Hd] Hq]. assert (q <> m_channel r) by (intros E; by apply Hno, Hq). split; [|done]. exists d. by split.
      * intros q d Hd. destruct (Hd2 q d Hd) as (d1 & Hd1 & ->). by apply Hm1.
      * intros e. by rewrite Hu2, Hu1.
    + exists s1. split; [done|]. split; [done|]. split; [done|]. apply Hkeep; [|done]. apply Hpers. right.
      destruct Hz as (n & s & Hn & Hs' & Ez). apply Hin1 in Hn as (s' & Hl' & Es').
      exists n, s'. split; [done|]. split; [done|]. destruct Hl' as [Hl' _]. congruence.
  - assert (Hnone : ~ exists n s, live s1 n s /\ m_channel s = m_channel r).
    { intros (n & s & Hs' & Es). apply Hl1 in Hs' as [Hs' Hnm]. assert (false = true); [|done]. apply Hb1. by exists n, s. }
    exists s1. split; [done|]. split; [done|]. split; [done|]. destruct (persistent ch) eqn:Ep.
    { apply Hkeep; [apply Hpers; by left|done]. }
    assert (Hno : ~ outlives st (m_user r) (m_channel r)).
    { intros Hout. apply Hpers in Hout as [|(n & s & Hs' & Es & _)]; [done|]. apply Hnone. by exists n, s. }
    split; [|split; [|done]].
    + intros n s. rewrite Hl1. split.
      * intros [H1 H2]. split; [done|]. intros E. exfalso. apply Hnone. exists n, s. split; [by apply Hl1|done].
      * intros [H1 H2]. split; [done|]. apply (Hlive n s H1). intros E. by destruct (H2 E).
    + intros q. rewrite Hc1. split.
      * intros (d & Hd & Hq). split; [eauto|]. intros ->. assert (d = ch) as -> by congruence.
        specialize (Hq eq_refl). by rewrite Ep in Hq.
      * intros [[d Hd] Hq]. exists d. split; [done|]. intros ->. by destruct (Hno (Hq eq_refl)).
Qed.

(** ** Joining a channel *)

(** The membership record add_user_to_channel() takes, and what is left. *)
Definition take_member (block : positive) (st : state) : positive * list positive :=
  match membershipFreeList st with
  | m :: r => (m, r)
  | [] => (block, [])
  end.

(** The state after the record [m] has been linked. *)
Definition linked (m : positive) (free : list positive) (alloc : Z) (p : entry_id) (c : Channel)
    (who : N) (u : User) (flags : Z) (st : state) : state :=
  put_user who (MkUser (m :: u_channel u) (u32 (joined u + 1)) (invited u) (u_invites u))
    (put_channel p (set_users (u32 (users c + 1)) (set_members (m :: members c) c))
      (put_member m (MkMembership who p flags) (set_free free alloc st))).

Lemma take_member_ok block st :
  member_inv None st -> memberships st !! block = None ->
  let (m, free) := take_member block st in
  (forall r, ~ live st m r) /\ (m ∉ free) /\ NoDup free /\
  (forall n, n ∈ free -> n ∈ membershipFreeList st) /\
  (forall n, n ∈ membershipFreeList st -> n = m \/ n ∈ free).
Proof.
  intros Hm Hb. unfold take_member. pose proof (mi_free _ _ Hm) as Hf.
  destruct (membershipFreeList st) as [|m l] eqn:E.
  - split; [intros r [Hr _]; congruence|]. split; [apply not_elem_of_nil|]. split; [constructor|].
    split; intros n Hn; by apply not_elem_of_nil in Hn.
  - apply NoDup_cons in Hf as [Hm' Hf]. split; [intros r [_ Hr]; apply Hr; rewrite E; set_solver|].
    split; [done|]. split; [done|]. split; intros n Hn; set_solver.
Qed.

Lemma link_ok m free alloc p c who u flags st :
  member_inv None st -> counts_fit st ->
  channel_store st !! p = Some c -> user_store st !! who = Some u ->
  ~ on st who p ->
  (forall r, ~ live st m r) -> (m ∉ free) -> NoDup free ->
  (forall n, n ∈ free -> n ∈ membershipFreeList st) ->
  (forall n, n ∈ membershipFreeList st -> n = m \/ n ∈ free) ->
  let st' := linked m free alloc p c who u flags st in
  member_inv None st' /\
  forall n s, live st' n s <-> live st n s \/ n = m /\ s = MkMembership who p flags.
Proof.
  intros Hm Hf Hc Hu Hon Hnew Hmf Hnd Hsub Hsup st'.
  assert (Hl : forall n s, live st' n s <-> live st n s \/ n = m /\ s = MkMembership who p flags).
  { intros n s. unfold live, st', linked. cbn. rewrite lookup_insert_Some. split.
    - intros [[[<- <-]|[Hne Hs]] Hn]; [by right|left]. split; [done|]. intros Hn'. apply Hsup in Hn' as [->|]; done.
    - intros [[Hs Hn]|[-> ->]]; [|split; [by left|done]]. split; [|auto]. right. split; [|done].
      intros ->. by apply (Hnew s). }
  split; [|exact Hl]. destruct (mi_channel _ _ Hm p c Hc) as (Hcnd & Hcin & Hcn).
  destruct (mi_user _ _ Hm who u Hu) as (Hund & Huin & Huj). destruct Hm.
  assert (Hcs : forall q, is_Some (channel_store st !! q) -> is_Some (channel_store st' !! q)).
  { intros q Hq. cbn. rewrite lookup_insert_is_Some. destruct (decide (p = q)); [by left|by right]. }
  assert (Hus : forall d, is_Some (user_store st !! d) -> is_Some (user_store st' !! d)).
  { intros q Hq. cbn. rewrite lookup_insert_is_Some. destruct (decide (who = q)); [by left|by right]. }
  constructor.
  - done.
  - intros n Hn. cbn. rewrite lookup_insert_is_Some. destruct (decide (m = n)); [by left|right]. auto.
  - intros n s Hs. apply Hl in Hs as [Hs|[-> ->]].
    + destruct (mi_live0 n s Hs). auto.
    + cbn [m_channel m_user]. eauto.
  - intros n n' s s' Hs Hs' E1 E2. apply Hl in Hs as [Hs|[-> ->]]; apply Hl in Hs' as [Hs'|[-> ->]]; cbn in *.
    + eauto.
    + exfalso. apply Hon. exists n, s. by split_and!.
    + exfalso. apply Hon. exists n', s'. by split_and!.
    + done.
  - intros q d Hd. cbn in Hd. apply lookup_insert_Some in Hd as [[<- <-]|[Hne Hd]].
    + cbn [members users set_users set_members]. split; [|split].
      * apply NoDup_cons. split; [|done]. intros Hx. apply Hcin in Hx as (s & Hs & _). by apply (Hnew s).
      * intros n. rewrite elem_of_cons, Hcin. split.
        -- intros [->|(s & Hs & E)]; [eexists; split; [apply Hl; by right|done]|]. exists s. split; [apply Hl; by left|done].
        -- intros (s & Hs & E). apply Hl in Hs as [Hs|[-> ->]]; [right; by exists s|by left].
      * rewrite Hcn, !decide_False by done. destruct Hf as [Hf _]. specialize (Hf p c Hc). unfold u32.
        rewrite Z.mod_small by lia. cbn [length]. lia.
    + destruct (mi_channel0 q d Hd) as (H1 & H2 & H3). split; [done|]. split; [|done].
      intros n. rewrite H2. split; intros (s & Hs & E).
      * exists s. split; [apply Hl; by left|done].
      * apply Hl in Hs as [Hs|[-> ->]]; [by exists s|]. by destruct Hne.
  - intros e v Hv. cbn in Hv. apply lookup_insert_Some in Hv as [[<- <-]|[Hne Hv]].
    + cbn [u_channel joined]. split; [|split].
      * apply NoDup_cons. split; [|done]. intros Hx. apply Huin in Hx as (s & Hs & _). by apply (Hnew s).
      * intros n. rewrite elem_of_cons, Huin. split.
        -- intros [->|(s & Hs & E)]; [eexists; split; [apply Hl; by right|done]|]. exists s. split; [apply Hl; by left|done].
        -- intros (s & Hs & E). apply Hl in Hs as [Hs|[-> ->]]; [right; by exists s|by left].
      * rewrite Huj. destruct Hf as [_ Hf]. destruct (Hf who u Hu) as [Hf' _]. unfold u32.
        rewrite Z.mod_small by lia. cbn [length]. lia.
    + destruct (mi_user0 e v Hv) as (H1 & H2 & H3). split; [done|]. split; [|done].
      intros n. rewrite H2. split; intros (s & Hs & E).
      * exists s. split; [apply Hl; by left|done].
      * apply Hl in Hs as [Hs|[-> ->]]; [by exists s|]. by destruct Hne.
Qed.

Lemma add_user_ok block p who flags st :
  channels_ok st -> counts_fit st -> memberships st !! block = None ->
  is_Some (channel_store st !! p) -> is_Some (user_store st !! who) -> ~ on st who p ->
  exists st' m, add_user_to_channel block p who flags st = Some st' /\ channels_ok st' /\
    (forall n s, live st' n s <-> live st n s \/ n = m /\ s = MkMembership who p flags) /\
    exists free alloc c u, channel_store st !! p = Some c /\ user_store st !! who = Some u /\
      st' = linked m free alloc p c who u flags st.
Proof.
  intros (Hm & Hi & Ht) Hf Hb [c Hc] [u Hu] Hon.
  pose proof (take_member_ok block st Hm Hb) as Htk. destruct (take_member block st) as [m free] eqn:Etk.
  destruct Htk as (H1 & H2 & H3 & H4 & H5).
  assert (exists alloc, add_user_to_channel block p who flags st = Some (linked m free alloc p c who u flags st)) as [alloc E].
  { unfold add_user_to_channel, take_member in *. rewrite Hu.
    destruct (membershipFreeList st); injection Etk as <- <-; cbn [set_free channel_store]; rewrite Hc; by eexists. }
  destruct (link_ok m free alloc p c who u flags st Hm Hf Hc Hu Hon H1 H2 H3 H4 H5) as [Hm' Hl'].
  exists (linked m free alloc p c who u flags st), m. split; [done|]. split; [split; [done|split]|split; [done|]].
  - apply (invite_inv_frame st); [done|]. split; intros q; cbn.
    + by apply fmap_insert_same with c.
    + by apply fmap_insert_same with u.
  - apply (table_inv_frame st); [done|]. split_and!; try done. intros q. cbn. by apply fmap_insert_same with c.
  - by exists free, alloc, c, u.
Qed.

(** ** Leaving all channels *)
Lemma remove_user_loop_ok fuel c st u :
  channels_ok st -> counts_fit st -> server_like c = false -> user_store st !! c = Some u ->
  (length (u_channel u) <= fuel)%nat ->
  exists st', remove_user_loop fuel c st = Some st' /\ channels_ok st' /\ counts_fit st' /\
    (forall p, ~ on st' c p) /\ (forall d p, on st' d p -> on st d p) /\
    (forall e, is_Some (user_store st' !! e) <-> is_Some (user_store st !! e)).
Proof.
  revert st u. induction fuel as [|fuel IH]; intros st u Hok Hf Hs Hu Hlen;
    destruct (mi_user _ _ (proj1 Hok) c u Hu) as (Hnd & Hin & _);
    cbn [remove_user_loop]; rewrite Hu; cbn [mbind option_bind]; destruct (u_channel u) as [|m l] eqn:El.
  1, 3: exists st; split; [done|]; split; [done|]; split; [done|]; split; [|done];
    intros p (m & r & Hr & Eu & _); assert (m ∈ []) as Hm by (apply Hin; by exists r); by apply not_elem_of_nil in Hm.
  { cbn in Hlen. lia. }
  destruct (proj1 (Hin m)) as (r & Hr & Er); [set_solver|]. rewrite (proj1 Hr). cbn [mbind option_bind].
  destruct (mi_live _ _ (proj1 Hok) m r Hr) as [Hp _].
  destruct (remove_user_ok c (m_channel r) st Hok Hf Hs Hp) as (s1 & -> & Hok1 & Hf1 & Hl1 & Hc1 & Hd1 & Hu1); [eauto|].
  cbn [mbind option_bind]. destruct (proj2 (Hu1 c)) as [v Hv]; [eauto|].
  destruct (mi_user _ _ (proj1 Hok1) c v Hv) as (Hnd1 & Hin1 & _).
  destruct (IH s1 v Hok1 Hf1 Hs Hv) as (s2 & -> & Hok2 & Hf2 & Hno2 & Hon2 & Hu2).
  { assert (length (u_channel v) <= length l)%nat; [|cbn in Hlen; lia].
    apply NoDup_incl_length; [by apply NoDup_ListNoDup|]. intros n Hn. apply list_elem_of_In.
    apply list_elem_of_In, Hin1 in Hn as (s & Hs' & Es). apply Hl1 in Hs' as [Hs' Hk].
    assert (n ∈ m :: l) as Hnl by (apply Hin; by exists s). apply elem_of_cons in Hnl as [->|]; [|done].
    destruct Hs' as [Hs' _], Hr as [Hr _]. assert (s = r) as -> by congruence.
    destruct (Hk eq_refl) as [Hne _]. by destruct Hne. }
  exists s2. split; [done|]. split; [done|]. split; [done|]. split; [done|]. split.
  - intros d p Hd. apply Hon2 in Hd as (n & s & Hs' & Ed & Ep). exists n, s. split; [|done]. by apply Hl1 in Hs' as [? _].
  - intros e. by rewrite Hu2, Hu1.
Qed.

(** ** Kicked members *)
Lemma put_member_ok off st m r r' :
  member_inv off st -> live st m r -> m_user r' = m_user r -> m_channel r' = m_channel r ->
  member_inv off (put_member m r' st) /\
  forall n s, live (put_member m r' st) n s <-> if decide (n = m) then s = r' else live st n s.
Proof.
  intros Hm Hr Eu Ec.
  assert (Hl : forall n s, live (put_member m r' st) n s <-> if decide (n = m) then s = r' else live st n s).
  { intros n s. unfold live. cbn. destruct (decide (n = m)) as [->|Hne].
    - rewrite lookup_insert_eq. split; [by intros [[= <-] _]|]. intros ->. split; [done|apply Hr].
    - by rewrite lookup_insert_ne. }
  split; [|exact Hl]. destruct Hm.
  assert (Hex : forall n (P : Membership -> Prop), (P r' <-> P r) ->
    (exists s, live (put_member m r' st) n s /\ P s) <-> exists s, live st n s /\ P s).
  { intros n P HP. setoid_rewrite Hl. destruct (decide (n = m)) as [->|]; [|done]. split.
    - intros (s & -> & Hs). exists r. by rewrite <- HP.
    - intros (s & Hs & HPs). assert (s = r) as -> by (destruct Hs, Hr; congruence). exists r'. by rewrite HP. }
  constructor; try done.
  - intros n Hn. cbn. rewrite lookup_insert_is_Some. destruct (decide (m = n)); [by left|right]. auto.
  - intros n s Hs. apply Hl in Hs. case_decide; [subst; rewrite Eu, Ec; eauto|eauto].
  - intros n n' s s' Hs Hs' E1 E2. apply Hl in Hs, Hs'.
    destruct (decide (n = m)) as [->|], (decide (n' = m)) as [->|]; try done.
    + subst s. rewrite Eu, Ec in *. by apply (mi_uniq0 m n' r s').
    + subst s'. rewrite Eu, Ec in *. by apply (mi_uniq0 n m s r).
    + eauto.
  - intros p c Hc. destruct (mi_channel0 p c Hc) as (H1 & H2 & H3). split; [done|]. split; [|done].
    intros n. rewrite H2. symmetry. apply (Hex n (fun s => m_channel s = p)). by rewrite Ec.
  - intros c u Hu. destruct (mi_user0 c u Hu) as (H1 & H2 & H3). split; [done|]. split; [|done].
    intros n. rewrite H2. symmetry. apply (Hex n (fun s => m_user s = c)). by rewrite Eu.
Qed.

(** No channel is left to members that have been kicked. *)
Definition no_ghosts (st : state) : Prop :=
  forall p d, channel_store st !! p = Some d -> persistent d = true \/
    exists m r, live st m r /\ m_channel r = p /\ IsZombie r = false.

Lemma persistent_mode c d : chmode c = chmode d -> persistent c = persistent d.
Proof. unfold persistent. by intros ->. Qed.

(** Removing a user leaves no ghosts, also when only the channel [p] had them. *)
Lemma user_gone_ghosts c p st st' :
  (forall q d, channel_store st !! q = Some d -> q <> p -> persistent d = true \/
    exists m r, live st m r /\ m_channel r = q /\ IsZombie r = false) ->
  (~ on st c p -> forall d, channel_store st !! p = Some d -> persistent d = true \/
    exists m r, live st m r /\ m_channel r = p /\ IsZombie r = false) ->
  user_gone c p st st' -> no_ghosts st'.
Proof.
  intros Hg Hgp (Hl & Hc & Hd & _) q d Hq. destruct (Hd q d Hq) as (e & He & Em).
  rewrite (persistent_mode d e Em).
  destruct (decide (q = p)) as [->|Hne].
  - destruct (proj1 (Hc p)) as [_ Hout]; [eauto|]. specialize (Hout eq_refl).
    assert (Hex : forall m r, live st m r -> m_channel r = p -> m_user r <> c -> IsZombie r = false ->
      exists m r, live st' m r /\ m_channel r = p /\ IsZombie r = false).
    { intros m r Hr E1 E2 E3. exists m, r. split; [|done]. apply Hl. by split. }
    pose proof Hout as [Hno|[(d' & Hd' & Hp)|(m & r & Hr & E1 & E2 & E3)]].
    + destruct (Hgp Hno e He) as [|(m & r & Hr & E1 & E2)]; [by left|right]. apply (Hex m r); try done.
      intros E. apply Hno. by exists m, r.
    + left. congruence.
    + right. by apply (Hex m r).
  - destruct (Hg q e He Hne) as [|(m & r & Hr & E1 & E2)]; [by left|right]. exists m, r.
    split; [|done]. apply Hl. split; [done|]. congruence.
Qed.

Lemma make_zombie_ok MyUser m r from up srv st :
  channels_ok st -> counts_fit st -> no_ghosts st -> live st m r -> server_like (m_user r) = false ->
  exists st', make_zombie MyUser m (m_user r) from up srv (m_channel r) st = Some st' /\
    channels_ok st' /\ no_ghosts st' /\
    (forall n s, live st' n s -> m_user s = m_user r -> m_channel s = m_channel r ->
       IsZombie s = true /\ MyUser (m_user r) = false) /\
    forall n s, live st n s -> m_channel s <> m_channel r -> live st' n s.
Proof.
  intros (Hm & Hi & Ht) Hf Hg Hr Hs. unfold make_zombie. rewrite (proj1 Hr). cbn [mbind option_bind].
  destruct (put_member_ok None st m r (SetZombie r) Hm Hr eq_refl eq_refl) as [Hm1 Hl1].
  set (s1 := put_member m (SetZombie r) st) in *.
  assert (Hok1 : channels_ok s1).
  { split; [done|split; [by apply (invite_inv_frame st)|by apply (table_inv_frame st)]]. }
  destruct (mi_live _ _ Hm m r Hr) as [Hp Hu].
  assert (HZ : IsZombie (SetZombie r) = true).
  { unfold IsZombie, SetZombie, has_bits. cbn. apply negb_true_iff, Z.eqb_neq. intros E.
    apply (f_equal (fun z => Z.testbit z 4)) in E. rewrite Z.land_spec, Z.lor_spec, Z.bits_0 in E.
    change (Z.testbit CHFL_ZOMBIE 4) with true in E. by rewrite orb_true_r in E. }
  assert (Hon : on s1 (m_user r) (m_channel r)).
  { exists m, (SetZombie r). split; [apply Hl1; by rewrite decide_True|done]. }
  assert (Hother : forall n s, live st n s -> m_channel s <> m_channel r -> live s1 n s).
  { intros n s Hn Hne. apply Hl1. rewrite decide_False; [done|]. intros ->. apply Hne.
    destruct Hn, Hr. congruence. }
  assert (Hg1 : forall q d, channel_store s1 !! q = Some d -> q <> m_channel r -> persistent d = true \/
    exists m r, live s1 m r /\ m_channel r = q /\ IsZombie r = false).
  { intros q d Hd Hne. destruct (Hg q d Hd) as [|(n & s & Hn & E & Ez)]; [by left|right].
    exists n, s. split; [|done]. apply Hother; congruence. }
  destruct (remove_user_ok (m_user r) (m_channel r) s1 Hok1 Hf Hs Hp Hu) as (s2 & E2 & Hok2 & Hf2 & Hgone).
  assert (Hremoved : exists st', Some s2 = Some st' /\ channels_ok st' /\ no_ghosts st' /\
    (forall n s, live st' n s -> m_user s = m_user r -> m_channel s = m_channel r ->
       IsZombie s = true /\ MyUser (m_user r) = false) /\
    forall n s, live st n s -> m_channel s <> m_channel r -> live st' n s).
  { exists s2. split; [done|]. split; [done|]. split; [|split].
    - by apply (user_gone_ghosts _ _ _ _ Hg1 (fun Hno => False_ind _ (Hno Hon))).
    - intros n s Hn Eu Ec. apply Hgone in Hn as [_ Hn]. destruct (Hn Ec). done.
    - intros n s Hn Hne. apply Hgone. split; [by apply Hother|done]. }
  destruct (MyUser (m_user r)) eqn:Emy; [by rewrite E2|].
  destruct (from && _)%bool; [by rewrite E2|].
  destruct Hp as [c Hc]. unfold channel_all_zombies. change (channel_store s1) with (channel_store st). rewrite Hc.
  cbn [mbind option_bind]. destruct (mi_channel _ _ Hm1 _ c Hc) as (_ & Hin & _).
  assert (Hstay : (persistent c = true \/ exists m' r', live s1 m' r' /\ m_channel r' = m_channel r /\ IsZombie r' = false) ->
    no_ghosts s1 /\ (forall n s, live s1 n s -> m_user s = m_user r -> m_channel s = m_channel r ->
       IsZombie s = true /\ false = false)).
  { intros Hkeep. split.
    - intros q d Hd. destruct (decide (q = m_channel r)) as [->|Hne]; [|by apply Hg1].
      change (channel_store s1) with (channel_store st) in Hd. assert (d = c) as -> by congruence. done.
    - intros n s Hn Eu Ec. split; [|done].
      assert (n = m) as -> by (apply (mi_uniq _ _ Hm1 n m s (SetZombie r)); try done; apply Hl1; by rewrite decide_True).
      apply Hl1 in Hn. rewrite decide_True in Hn by done. by subst s. }
  destruct (persistent c) eqn:Ep; cbn [mbind option_bind].
  { exists s1. destruct Hstay as [H1 H2]; [by left|]. done. }
  destruct (all_zombies_ok (members c) s1) as (z & -> & Hz).
  { intros n Hn. apply Hin in Hn as (s & [Hn _] & _). eauto. }
  cbn [mbind option_bind]. destruct z; [by rewrite E2|].
  destruct Hz as (n & s & Hn & Hs' & Ez). apply Hin in Hn as (s' & Hl' & Es').
  exists s1. destruct Hstay as [H1 H2]; [right|done]. exists n, s'. split; [done|]. split; [done|].
  destruct Hl'. congruence.
Qed.

(** ** Looking up and creating *)

(** The name get_channel() searches for. *)
Definition cut_name (MyUser : bool) (chanlen : Z) (name : list Z) : list Z :=
  if MyUser && (Z.min (Z.of_nat CHANNELLEN) chanlen <? Z.of_nat (length name)) then take CHANNELLEN name else name.

Lemma cut_nameable b n name : nameable name -> nameable (cut_name b n name).
Proof.
  unfold cut_name. intros [Hc Hn]. destruct (_ && _)%bool; [|done]. split; [by apply cstring_take|].
  by destruct name.
Qed.

Lemma set_table_same st t o : nt_ok (name_of (channel_store st)) t ->
  (forall x, nt_mem t x <-> nt_mem (channelTable st) x) -> channels_ok st -> o = channelTable st ->
  channels_ok (set_table t (GlobalChannelList st) (UserStats_channels st) st).
Proof.
  intros Ht Hmem (Hm & Hi & Htab) _. split; [by apply (member_inv_frame None st); [done|split_and!]|].
  split; [by apply (invite_inv_frame st); [done|split]|]. destruct Htab. constructor; try done.
  intros p. cbn. by rewrite Hmem.
Qed.

Lemma new_channel_ok block name c t st :
  channels_ok st -> channel_store st !! block = None -> nameable name ->
  chname c = name -> users c = 0 -> members c = [] -> invites c = [] ->
  (forall p d, channel_store st !! p = Some d -> lower (chname d) <> lower name) ->
  nt_ok (name_of (<[block := c]> (channel_store st))) t ->
  (forall x, nt_mem t x <-> x = block \/ nt_mem (channelTable st) x) ->
  channels_ok (set_table t (block :: GlobalChannelList st) (UserStats_channels st + 1) (put_channel block c st)).
Proof.
  intros (Hm & Hi & Ht) Hb Hn Ecn Eu Em Ei Hnew Hok Hmem.
  assert (Hbl : forall m r, live st m r -> m_channel r <> block).
  { intros m r Hr E. destruct (mi_live _ _ Hm m r Hr) as [[d Hd] _]. congruence. }
  assert (Hbi : forall d, ~ invited_to st d block).
  { intros d (u & Hu & Hp). destruct (ii_user _ Hi d u Hu) as (_ & _ & H3). destruct (H3 block Hp) as [e He]. congruence. }
  split; [|split].
  - destruct Hm. constructor; try done.
    + intros m r Hr. destruct (mi_live0 m r Hr). split; [|done]. cbn. rewrite lookup_insert_is_Some.
      right. split; [|done]. intros E. by apply (Hbl m r Hr).
    + intros p d Hd. cbn in Hd. apply lookup_insert_Some in Hd as [[<- <-]|[Hne Hd]]; [|by apply mi_channel0].
      rewrite Em, Eu. split; [constructor|]. split; [|done]. intros m. split; [by intros ?%not_elem_of_nil|].
      intros (r & Hr & E). by destruct (Hbl m r Hr).
  - destruct Hi. constructor.
    + intros p d Hd. cbn in Hd. apply lookup_insert_Some in Hd as [[<- <-]|[Hne Hd]]; [|by apply ii_channel0].
      rewrite Ei. split; [constructor|]. intros e. split; [by intros ?%not_elem_of_nil|]. intros He. by destruct (Hbi e).
    + intros d u Hu. destruct (ii_user0 d u Hu) as (H1 & H2 & H3). split; [done|]. split; [done|].
      intros p Hp. cbn. rewrite lookup_insert_is_Some. destruct (decide (block = p)); [by left|right; auto].
  - destruct Ht. constructor; cbn; try done.
    + intros x. rewrite Hmem, ti_mem0, lookup_insert_is_Some.
      destruct (decide (x = block)) as [->|]; [tauto|]. intuition congruence.
    + intros p d Hd. apply lookup_insert_Some in Hd as [[<- <-]|[Hne Hd]]; [by rewrite Ecn|eauto].
    + intros p q d e Hd He Hl. apply lookup_insert_Some in Hd as [[<- <-]|[Hne Hd]];
        apply lookup_insert_Some in He as [[<- <-]|[Hne' He]]; try done.
      * destruct (Hnew q e He). congruence.
      * destruct (Hnew p d Hd). congruence.
      * eauto.
    + apply NoDup_cons. split; [|done]. rewrite ti_global_in0, Hb. by intros [].
    + intros p. rewrite elem_of_cons, ti_global_in0, lookup_insert_is_Some.
      destruct (decide (p = block)) as [->|]; [tauto|]. intuition congruence.
    + rewrite map_size_insert_None by done. lia.
Qed.

(** Every character of the automatic modes is in the table. *)
Definition auto_ok (auto : list Z) : Prop := Forall (fun c => is_Some (find_flag c chan_flags)) auto.

Lemma auto_modes_ok auto t : auto_ok auto -> exists t', auto_modes auto t = Some t'.
Proof.
  intros Ha. revert t. induction Ha as [|c auto [f Hf] Ha IH]; intros t; cbn [auto_modes]; [by eexists|].
  rewrite Hf. apply IH.
Qed.

Lemma SetAutoChanModes_ok auto c : auto_ok auto ->
  exists d, SetAutoChanModes auto c = Some d /\ chname d = chname c /\ users d = users c /\
    members d = members c /\ invites d = invites c.
Proof.
  intros Ha. unfold SetAutoChanModes. destruct (_ <=? 1)%nat; [by exists c|].
  destruct (auto_modes_ok auto 0 Ha) as [t ->]. cbn [mbind option_bind]. destruct (t =? 0); by eexists.
Qed.

Lemma get_channel_ok MyUser chanlen auto now block name create st :
  channels_ok st -> nameable name -> channel_store st !! block = None -> auto_ok auto ->
  let name' := cut_name MyUser chanlen name in
  exists o st', get_channel MyUser chanlen auto now block name create st = Some (o, st') /\ channels_ok st' /\
    (forall n s, live st' n s <-> live st n s) /\
    (user_store st' = user_store st /\ memberships st' = memberships st) /\
    match o with
    | Some p =>
        (exists c, channel_store st' !! p = Some c /\ lower (chname c) = lower name') /\
        (channel_store st' = channel_store st \/ create = true /\ p = block /\
          exists c, channel_store st' = <[block := c]> (channel_store st) /\ chname c = name' /\ members c = [])
    | None => create = false /\ channel_store st' = channel_store st /\
        forall p c, channel_store st !! p = Some c -> lower (chname c) <> lower name'
    end.
Proof.
  intros Hok Hn Hb Ha. cbv zeta. pose proof (cut_nameable MyUser chanlen name Hn) as Hn'.
  unfold get_channel. destruct name as [|x l]; [by destruct Hn|].
  fold (cut_name MyUser chanlen (x :: l)). set (name' := cut_name MyUser chanlen (x :: l)) in *.
  pose proof Hok as (Hm & Hi & Ht).
  destruct (nt_seek_ok _ _ name' (ti_table _ Ht) Hn') as (t & o & -> & Htk & Hmem & Ho). cbn [mbind option_bind].
  pose proof (set_table_same st t (channelTable st) Htk Hmem Hok eq_refl) as Hok1.
  set (s1 := set_table t (GlobalChannelList st) (UserStats_channels st) st) in *.
  destruct o as [p|].
  - exists (Some p), s1. split; [done|]. split; [done|]. split; [done|]. split; [done|]. split; [|by left].
    destruct Ho as [Hp Hl]. apply (ti_mem _ Ht) in Hp as [c Hc]. exists c. split; [done|].
    unfold name_of in Hl. by rewrite Hc in Hl.
  - assert (Hnew : forall p c, channel_store st !! p = Some c -> lower (chname c) <> lower name').
    { intros p c Hc Hl. apply (Ho p); [apply (ti_mem _ Ht); eauto|]. unfold name_of. by rewrite Hc. }
    destruct create; [|by exists None, s1].
    assert (exists c, (if MyUser then SetAutoChanModes auto (new_channel name' (if MyUser then now else 0))
        else Some (new_channel name' (if MyUser then now else 0))) = Some c /\ chname c = name' /\ users c = 0 /\
        members c = [] /\ invites c = []) as (c & -> & E1 & E2 & E3 & E4).
    { destruct MyUser; [|by eexists]. exact (SetAutoChanModes_ok auto (new_channel name' now) Ha). }
    cbn [mbind option_bind]. change (channel_store (put_channel block c s1)) with (<[block := c]> (channel_store st)).
    change (channelTable (put_channel block c s1)) with t.
    set (f := name_of (<[block := c]> (channel_store st))).
    assert (Hfb : f block = name') by (unfold f, name_of; by rewrite lookup_insert_eq).
    destruct (nt_add_ok f t block) as (t' & -> & Ht' & Hm').
    { eapply nt_ext; [exact Htk|]. intros x' Hx. unfold f, name_of. apply Hmem, (ti_mem _ Ht) in Hx.
      rewrite lookup_insert_ne; [done|]. intros <-. rewrite Hb in Hx. by destruct Hx. }
    { by rewrite Hfb. }
    { intros Hx. apply Hmem, (ti_mem _ Ht) in Hx. rewrite Hb in Hx. by destruct Hx. }
    cbn [mbind option_bind]. eexists (Some block), _. split; [done|]. split.
    + exact (new_channel_ok block name' c t' s1 Hok1 Hb Hn' E1 E2 E3 E4 Hnew Ht' Hm').
    + split; [done|]. split; [done|]. split; [exists c; cbn; rewrite lookup_insert_eq; by rewrite E1|].
      right. split; [done|]. split; [done|]. by exists c.
Qed.

(** ** Inviting *)
Lemma push_invite_ok st p c d u :
  invite_inv st -> channel_store st !! p = Some c -> user_store st !! d = Some u ->
  ~ invited_to st d p -> Z.of_nat (length (invited u)) + 1 < 2 ^ 32 ->
  let v := MkUser (u_channel u) (joined u) (invited u ++ [p]) (u32 (u_invites u + 1)) in
  let st' := put_user d v (put_channel p (set_invites (d :: invites c) c) st) in
  invite_inv st' /\ same_members st st' /\ same_table st st' /\
  forall e q, invited_to st' e q <-> invited_to st e q \/ e = d /\ q = p.
Proof.
  intros Hi Hc Hu Hno Hlen v st'. destruct (ii_channel _ Hi p c Hc) as [Hnd Hin].
  destruct (ii_user _ Hi d u Hu) as (Hund & Hcnt & _).
  assert (Hpu : ~ p ∈ invited u) by (intros Hp; apply Hno; by exists u).
  split; [|split; [|split]].
  - apply (invite_inv_update st p c d u); try done.
    + apply NoDup_cons. split; [|done]. by rewrite Hin.
    + cbn. apply NoDup_app. split; [done|]. split; [|apply NoDup_singleton]. set_solver.
    + cbn. rewrite Hcnt, length_app. unfold u32. rewrite Z.mod_small by lia. cbn [length]. lia.
    + intros e. cbn. case_decide; [subst; set_solver|set_solver].
    + intros q Hq. cbn. set_solver.
  - apply (same_members_trans _ (put_channel p (set_invites (d :: invites c) c) st));
      [by apply put_channel_members with c|by apply put_user_members with u].
  - exact (put_channel_table st p c (set_invites (d :: invites c) c) Hc eq_refl).
  - intros e q. unfold st'. rewrite invited_to_put. case_decide as He.
    + subst e. cbn [invited v]. rewrite elem_of_app, list_elem_of_singleton, (invited_to_user st d u q Hu). tauto.
    + change (invited_to (put_channel p (set_invites (d :: invites c) c) st) e q) with (invited_to st e q). tauto.
Qed.

Lemma invited_length_eq st d u v st' :
  invite_inv st -> invite_inv st' -> user_store st !! d = Some u -> user_store st' !! d = Some v ->
  (forall q, invited_to st' d q <-> invited_to st d q) -> length (invited v) = length (invited u).
Proof.
  intros Hi Hi' Hu Hv Hiff. apply Nat.le_antisymm.
  - apply (invited_length st st' d u v); try done. intros q. apply Hiff.
  - apply (invited_length st' st d v u); try done. intros q. apply Hiff.
Qed.

Lemma add_invite_ok max d p st c u :
  channels_ok st -> counts_fit st -> channel_store st !! p = Some c -> user_store st !! d = Some u ->
  0 < max < 2 ^ 31 ->
  exists st' v, add_invite max d p st = Some st' /\ channels_ok st' /\ invited_to st' d p /\
    (forall e q, invited_to st' e q -> invited_to st e q \/ e = d /\ q = p) /\
    (forall e q, e <> d -> invited_to st e q -> invited_to st' e q) /\
    user_store st' !! d = Some v /\
    (Z.of_nat (length (invited u)) <= max -> Z.of_nat (length (invited v)) <= max) /\
    (Z.of_nat (length (invited u)) < max -> forall q, invited_to st d q -> invited_to st' d q).
Proof.
  intros (Hm & Hi & Ht) Hf Hc Hu Hmax. unfold add_invite.
  pose proof (proj2 Hf d u Hu) as [_ Hlen].
  destruct (del_invite_ok st p c d u Hi Hc Hu) as (s1 & -> & Hi1 & Hs1 & Ht1 & Hin1); [lia|]. cbn [mbind option_bind].
  destruct (same_members_user st s1 d u Hs1 Hu) as (u1 & Hu1 & _). rewrite Hu1. cbn [mbind option_bind].
  destruct (ii_user _ Hi1 d u1 Hu1) as (Hund1 & Hcnt1 & Hex1). rewrite decide_True by done.
  assert (Hlen1 : (length (invited u1) <= length (invited u))%nat).
  { apply (invited_length st s1 d u u1); try done. intros q Hq. apply Hin1 in Hq. tauto. }
  assert (u32 max = max) as -> by (unfold u32; apply Z.mod_small; lia).
  assert (exists s2 u2, (if max <=? u_invites u1
      then match invited u1 with [] => None | q :: _ => del_invite d q s1 end else Some s1) = Some s2 /\
    user_store s2 !! d = Some u2 /\ invite_inv s2 /\ same_members s1 s2 /\ same_table s1 s2 /\
    (forall e q, invited_to s2 e q -> invited_to s1 e q) /\
    (forall e q, e <> d -> invited_to s1 e q -> invited_to s2 e q) /\
    (length (invited u2) <= length (invited u1))%nat /\
    (Z.of_nat (length (invited u)) <= max -> Z.of_nat (length (invited u2)) < max) /\
    (Z.of_nat (length (invited u)) < max -> forall q, invited_to s1 d q -> invited_to s2 d q))
    as (s2 & u2 & -> & Hu2 & Hi2 & Hs2 & Ht2 & Hsub2 & Hoth2 & Hle2 & Hlt2 & Hkeep2).
  { destruct (Z.leb_spec max (u_invites u1)) as [Hle|Hlt].
    - destruct (invited u1) as [|q l] eqn:El; [cbn in Hcnt1; lia|].
      destruct (Hex1 q) as [cq Hcq]; [set_solver|].
      destruct (del_invite_ok s1 q cq d u1 Hi1 Hcq Hu1) as (s2 & E2 & Hi2 & Hs2 & Ht2 & Hin2); [rewrite El; lia|].
      destruct (same_members_user s1 s2 d u1 Hs2 Hu1) as (u2 & Hu2 & _).
      assert (Hlen2 : (length (invited u2) <= length l)%nat).
      { apply NoDup_incl_length; [apply NoDup_ListNoDup, (ii_user _ Hi2 d u2 Hu2)|].
        intros x Hx. apply list_elem_of_In. apply list_elem_of_In, (invited_to_user s2 d u2 x Hu2), Hin2 in Hx as [Hx Hne].
        apply (invited_to_user s1 d u1 x Hu1) in Hx. rewrite El in Hx. set_solver. }
      exists s2, u2. split; [exact E2|]. split; [done|]. split; [done|]. split; [done|]. split; [done|].
      split; [intros e x Hx; by apply Hin2 in Hx as [? _]|]. split; [intros e x He Hx; apply Hin2; tauto|].
      cbn [length] in *. split; [lia|]. split; lia.
    - exists s1, u1. split; [done|]. split; [done|]. split; [done|]. split; [apply same_members_refl|].
      split; [apply same_table_refl|]. split; [done|]. split; [done|]. split; [done|]. split; [lia|done]. }
  cbn [mbind option_bind].
  destruct (same_members_channel st s1 p c Hs1 Hc) as (c1 & Hc1 & _).
  destruct (same_members_channel s1 s2 p c1 Hs2 Hc1) as (c2 & Hc2 & _). rewrite Hc2. cbn [mbind option_bind].
  change (user_store (put_channel p (set_invites (d :: invites c2) c2) s2)) with (user_store s2). rewrite Hu2.
  cbn [mbind option_bind].
  assert (Hno2 : ~ invited_to s2 d p) by (intros Hx; apply Hsub2, Hin1 in Hx; tauto).
  destruct (push_invite_ok s2 p c2 d u2 Hi2 Hc2 Hu2 Hno2) as (Hi3 & Hs3 & Ht3 & Hin3); [lia|].
  eexists _, _. split; [done|]. split.
  { split; [|split; [done|]].
    - apply (member_inv_frame None st); [done|]. by do 2 (eapply same_members_trans; [eassumption|]).
    - apply (table_inv_frame st); [done|]. by do 2 (eapply same_table_trans; [eassumption|]). }
  split; [apply Hin3; by right|]. split; [|split; [|split; [|split]]].
  - intros e q Hq. apply Hin3 in Hq as [Hq|]; [|by right]. left. by apply Hsub2, Hin1 in Hq as [? _].
  - intros e q He Hq. apply Hin3. left. apply Hoth2; [done|]. apply Hin1. tauto.
  - cbn. apply lookup_insert_eq.
  - intros Hle. cbn [invited]. rewrite length_app. cbn [length]. specialize (Hlt2 Hle). lia.
  - intros Hlt q Hq. apply Hin3. destruct (decide (q = p)) as [->|Hne]; [by right|left].
    apply Hkeep2; [done|]. apply Hin1. tauto.
Qed.

(** ** Common channels *)

(** The channels of a list of memberships. *)
Definition channels_of (st : state) (l : list positive) : list entry_id :=
  omap (fun m => m_channel <$> memberships st !! m) l.

(** Every membership of the list has its record and its channel. *)
Definition linked_list (st : state) (l : list positive) : Prop :=
  Forall (fun m => exists r c, memberships st !! m = Some r /\ channel_store st !! m_channel r = Some c) l.

Lemma mark_channels_ok k l st :
  linked_list st l ->
  exists s, mark_channels k l st = Some (set_channels s st) /\
    forall q, s !! q = (fun c => if decide (q ∈ channels_of st l) then set_marker k c else c) <$> channel_store st !! q.
Proof.
  revert st. induction l as [|m l IH]; intros st Hl; cbn [mark_channels].
  { exists (channel_store st). split; [by destruct st|]. intros q. cbn.
    destruct (channel_store st !! q); [|done]. cbn. by rewrite decide_False by apply not_elem_of_nil. }
  apply Forall_cons in Hl as [(r & c & Hr & Hc) Hl]. rewrite Hr. cbn [mbind option_bind]. rewrite Hc. cbn [mbind option_bind].
  destruct (IH (put_channel (m_channel r) (set_marker k c) st)) as (s & -> & Eq).
  { eapply Forall_impl; [exact Hl|]. intros n (s & d & Hs & Hd). exists s. cbn.
    destruct (decide (m_channel s = m_channel r)) as [E|Hne].
    - rewrite E, lookup_insert_eq. by eexists.
    - rewrite lookup_insert_ne by done. by exists d. }
  exists s. split; [done|]. intros q. rewrite Eq. cbn [channel_store put_channel set_channels].
  change (channels_of (put_channel (m_channel r) (set_marker k c) st) l) with (channels_of st l).
  assert (channels_of st (m :: l) = m_channel r :: channels_of st l) as -> by (unfold channels_of; cbn; by rewrite Hr).
  destruct (decide (q = m_channel r)) as [->|Hne].
  - rewrite lookup_insert_eq, Hc. cbn. rewrite (decide_True (P := m_channel r ∈ m_channel r :: channels_of st l)) by set_solver.
    by case_decide.
  - rewrite lookup_insert_ne by done. destruct (channel_store st !! q); [|done]. cbn.
    destruct (decide (q ∈ channels_of st l)).
    + by rewrite decide_True by set_solver.
    + by rewrite decide_False by set_solver.
Qed.

Lemma count_marked_ok k max n l st :
  linked_list st l -> 0 <= max -> 0 <= n -> (max = 0 \/ n < max) ->
  count_marked k max n l st =
    let total := n + Z.of_nat (length (filter (fun q => marker <$> channel_store st !! q = Some k) (channels_of st l))) in
    Some (if max =? 0 then total else Z.min max total).
Proof.
  intros Hl Hmax. revert n. induction Hl as [|m l (r & c & Hr & Hc) Hl IH]; intros n Hn Hlt; cbn [count_marked].
  { cbn. rewrite Z.add_0_r. destruct (Z.eqb_spec max 0); [done|]. rewrite Z.min_r; [done|lia]. }
  rewrite Hr. cbn [mbind option_bind]. rewrite Hc. cbn [mbind option_bind].
  unfold channels_of. cbn [omap list_omap]. rewrite Hr. cbn [fmap option_fmap option_map].
  fold (channels_of st l). rewrite filter_cons. rewrite Hc. cbn [fmap option_fmap option_map].
  destruct (Z.eqb_spec (marker c) k) as [E|E].
  - rewrite decide_True by congruence. cbn [length]. cbv zeta in *.
    destruct (negb (max =? 0) && (max <=? n + 1))%bool eqn:Eb.
    + bprop. rewrite (proj2 (Z.eqb_neq max 0)) by done. f_equal. lia.
    + rewrite IH; [|lia|].
      * f_equal. destruct (max =? 0); lia.
      * destruct (Z.eqb_spec max 0); [by left|right]. cbn in Eb. lia.
  - rewrite decide_False by congruence. apply IH; lia.
Qed.

Lemma channels_of_ok st c u :
  member_inv None st -> user_store st !! c = Some u ->
  NoDup (channels_of st (u_channel u)) /\ linked_list st (u_channel u) /\
  forall p, p ∈ channels_of st (u_channel u) <-> on st c p.
Proof.
  intros Hm Hu. destruct (mi_user _ _ Hm c u Hu) as (Hnd & Hin & _).
  assert (Hall : Forall (fun m => exists r, live st m r /\ m_user r = c) (u_channel u)) by (apply Forall_forall; apply Hin).
  split; [|split].
  - clear Hin Hu. unfold channels_of. induction Hnd as [|m l Hml Hnd IH]; [constructor|].
    apply Forall_cons in Hall as [(r & Hr & Eu) Hall]. cbn. rewrite (proj1 Hr). cbn.
    apply NoDup_cons. split; [|by apply IH]. intros Hp. apply list_elem_of_omap in Hp as (n & Hn & En).
    pose proof (proj1 (Forall_forall _ _) Hall n Hn) as (s & Hs & Es). rewrite (proj1 Hs) in En. cbn in En.
    injection En as En. apply Hml. by rewrite (mi_uniq _ _ Hm m n r s) by congruence.
  - eapply Forall_impl; [exact Hall|]. intros m (r & Hr & _). destruct (mi_live _ _ Hm m r Hr) as [[d Hd] _].
    exists r, d. split; [apply Hr|done].
  - intros p. unfold channels_of. rewrite list_elem_of_omap. split.
    + intros (m & Hml & E). apply Hin in Hml as (r & Hr & Eu). rewrite (proj1 Hr) in E. cbn in E. injection E as E.
      by exists m, r.
    + intros (m & r & Hr & Eu & Ep). exists m. split; [apply Hin; by exists r|]. rewrite (proj1 Hr). cbn. by rewrite Ep.
Qed.

Lemma common_sym {A} `{EqDecision A} (a b : list A) :
  NoDup a -> NoDup b -> length (filter (fun x => x ∈ a) b) = length (filter (fun x => x ∈ b) a).
Proof.
  intros Ha Hb. apply Permutation_length, NoDup_Permutation; [by apply NoDup_filter..|].
  intros x. rewrite !list_elem_of_filter. tauto.
Qed.

Definition capped (max n : Z) : Z := if max =? 0 then n else Z.min max n.

(** Marking one list and counting the marks in another. *)
Lemma mark_count_ok k max st l l' :
  linked_list st l -> linked_list st l' -> 0 <= max ->
  (forall p c, channel_store st !! p = Some c -> marker c <> k) ->
  exists s, mark_channels k l st = Some (set_channels s st) /\
    count_marked k max 0 l' (set_channels s st) =
      Some (capped max (Z.of_nat (length (filter (fun p => p ∈ channels_of st l) (channels_of st l'))))) /\
    forall (A : Type) (f : Channel -> A), (forall c, f (set_marker k c) = f c) ->
      forall q, f <$> s !! q = f <$> channel_store st !! q.
Proof.
  intros Hl Hl' Hmax Hk. destruct (mark_channels_ok k l st Hl) as (s & E & Eq). exists s. split; [done|]. split.
  - assert (Hls : linked_list (set_channels s st) l').
    { eapply Forall_impl; [exact Hl'|]. intros m (r & c & Hr & Hc). exists r. cbn. rewrite Eq, Hc. by eexists. }
    rewrite (count_marked_ok k max 0) by (done || lia).
    change (channels_of (set_channels s st) l') with (channels_of st l'). unfold capped. cbv zeta. rewrite Z.add_0_l.
    assert (Ef : filter (fun q => marker <$> channel_store (set_channels s st) !! q = Some k) (channels_of st l') =
      filter (fun p => p ∈ channels_of st l) (channels_of st l')); [|by rewrite Ef].
    clear Hl E Hls. induction Hl' as [|m l' (r & c & Hr & Hc) Hl' IH]; [done|].
    assert (channels_of st (m :: l') = m_channel r :: channels_of st l') as -> by (unfold channels_of; cbn; by rewrite Hr).
    rewrite !filter_cons. cbn [channel_store set_channels]. rewrite Eq, Hc. cbn [fmap option_fmap option_map].
    destruct (decide (m_channel r ∈ channels_of st l)) as [Hin|Hin].
    + rewrite decide_True by done. f_equal. exact IH.
    + rewrite decide_False; [exact IH|]. intros [= Em]. by apply (Hk _ c Hc).
  - intros A f Hf q. rewrite Eq. destruct (channel_store st !! q); [|done]. cbn. case_decide; cbn; [by rewrite Hf|done].
Qed.

Lemma common_chan_count_ok k a b max st ua ub :
  member_inv None st -> user_store st !! a = Some ua -> user_store st !! b = Some ub -> 0 <= max ->
  (forall p c, channel_store st !! p = Some c -> marker c <> k) ->
  exists st', common_chan_count k a b max st =
      Some (capped max (Z.of_nat (length (filter (fun p => p ∈ channels_of st (u_channel ua)) (channels_of st (u_channel ub))))), st') /\
    same_members st st' /\ same_invites st st' /\ same_table st st'.
Proof.
  intros Hm Ha Hb Hmax Hk. unfold common_chan_count. rewrite Ha. cbn [mbind option_bind]. rewrite Hb. cbn [mbind option_bind].
  destruct (channels_of_ok st a ua Hm Ha) as (Hna & Hla & _). destruct (channels_of_ok st b ub Hm Hb) as (Hnb & Hlb & _).
  assert (Hframe : forall s, (forall (A : Type) (f : Channel -> A), (forall c, f (set_marker k c) = f c) ->
      forall q, f <$> s !! q = f <$> channel_store st !! q) ->
    same_members st (set_channels s st) /\ same_invites st (set_channels s st) /\ same_table st (set_channels s st)).
  { intros s Hs. split; [split_and!; try done; by apply Hs|]. split; [split; [by apply Hs|done]|].
    split_and!; try done. by apply Hs. }
  destruct (joined ub <? joined ua).
  - destruct (mark_count_ok k max st (u_channel ub) (u_channel ua) Hlb Hla Hmax Hk) as (s & -> & E & Hf).
    cbn [mbind option_bind]. rewrite E. cbn [mbind option_bind]. exists (set_channels s st).
    rewrite (common_sym _ _ Hnb Hna). split; [done|]. by apply Hframe.
  - destruct (mark_count_ok k max st (u_channel ua) (u_channel ub) Hla Hlb Hmax Hk) as (s & -> & E & Hf).
    cbn [mbind option_bind]. rewrite E. cbn [mbind option_bind]. exists (set_channels s st).
    split; [done|]. by apply Hframe.
Qed.

(** ** Properties *)

(** C27: the lists stay consistent: every membership is in the list of its channel
    and of its user, once, the counters are the lengths of the lists, the
    invitations mirror each other and the table, the global list and the
    statistics hold exactly the channels.  add_user_to_channel() adds exactly the
    new membership.  remove_user_from_channel() takes exactly the user's away,
    and when nobody else is left on a channel that is not persistent but kicked
    members, these go too and the channel is destroyed; it never follows a
    dangling pointer. *)
Theorem membership_updates block p who flags st :
  channels_ok st -> counts_fit st -> memberships st !! block = None ->
  is_Some (channel_store st !! p) -> is_Some (user_store st !! who) ->
  (~ on st who p -> exists st' m, add_user_to_channel block p who flags st = Some st' /\ channels_ok st' /\
     forall n s, live st' n s <-> live st n s \/ n = m /\ s = MkMembership who p flags) /\
  (server_like who = false ->
   exists st', remove_user_from_channel who p st = Some st' /\ channels_ok st' /\
     (forall n s, live st' n s <-> live st n s /\ (m_channel s = p -> m_user s <> who /\ outlives st who p)) /\
     forall q, is_Some (channel_store st' !! q) <->
       is_Some (channel_store st !! q) /\ (q = p -> outlives st who p)).
Proof.
  intros Hok Hf Hb Hp Hu. split.
  - intros Hon. destruct (add_user_ok block p who flags st Hok Hf Hb Hp Hu Hon) as (st' & m & ? & ? & ? & _).
    by exists st', m.
  - intros Hs. destruct (remove_user_ok who p st Hok Hf Hs Hp Hu) as (st' & ? & ? & _ & ? & ? & _). by exists st'.
Qed.

(** The loop of remove_user_from_all_channels() ends after at most one turn
    for each channel the user is on; he is on no channel then, nobody joins one
    on the way, and the lists stay consistent. *)
Theorem remove_user_from_all_channels_ends c st :
  channels_ok st -> counts_fit st -> server_like c = false -> is_Some (user_store st !! c) ->
  exists st', remove_user_from_all_channels c st = Some st' /\ channels_ok st' /\
    (forall p, ~ on st' c p) /\ (forall d p, on st' d p -> on st d p).
Proof.
  intros Hok Hf Hs [u Hu]. unfold remove_user_from_all_channels. rewrite Hu. cbn [mbind option_bind].
  destruct (remove_user_loop_ok (length (u_channel u)) c st u Hok Hf Hs Hu (le_n _)) as (st' & ? & ? & _ & ? & ? & _).
  by exists st'.
Qed.

(** Make_zombie() after a kick: the victim is off the channel, or, only when
    he is on another server, still on it as a zombie; and no channel is left with
    nobody but zombies on it. *)
Theorem make_zombie_no_ghosts MyUser m r from up srv st :
  channels_ok st -> counts_fit st -> no_ghosts st -> live st m r -> server_like (m_user r) = false ->
  exists st', make_zombie MyUser m (m_user r) from up srv (m_channel r) st = Some st' /\
    channels_ok st' /\ no_ghosts st' /\
    (forall n s, live st' n s -> m_user s = m_user r -> m_channel s = m_channel r ->
       IsZombie s = true /\ MyUser (m_user r) = false) /\
    forall n s, live st n s -> m_channel s <> m_channel r -> live st' n s.
Proof. apply make_zombie_ok. Qed.

(** Add_invite() leaves the user invited to the channel and everybody else's
    invitations as they were; his own are kept while he has fewer than
    MAXCHANNELSPERUSER, and with that many one of them makes room, so that there
    are never more. *)
Theorem add_invite_bounded max d p st c u :
  channels_ok st -> counts_fit st -> channel_store st !! p = Some c -> user_store st !! d = Some u ->
  0 < max < 2 ^ 31 -> Z.of_nat (length (invited u)) <= max ->
  exists st' v, add_invite max d p st = Some st' /\ channels_ok st' /\
    user_store st' !! d = Some v /\ Z.of_nat (length (invited v)) <= max /\ p ∈ invited v /\
    (forall e q, e <> d -> invited_to st' e q <-> invited_to st e q) /\
    (forall q, q ∈ invited v -> q ∈ invited u \/ q = p) /\
    (Z.of_nat (length (invited u)) < max -> forall q, q ∈ invited u -> q ∈ invited v).
Proof.
  intros Hok Hf Hc Hu Hmax Hlen.
  destruct (add_invite_ok max d p st c u Hok Hf Hc Hu Hmax) as (st' & v & E & Hok' & Hin & Hsub & Hoth & Hv & Hle & Hkeep).
  exists st', v. split; [done|]. split; [done|]. split; [done|]. split; [auto|].
  split; [by apply (invited_to_user st' d v p Hv)|]. split; [|split].
  - intros e q He. split; [|by apply Hoth]. intros Hq. apply Hsub in Hq as [|[-> _]]; done.
  - intros q Hq. apply (invited_to_user st' d v q Hv), Hsub in Hq as [Hq|[_ ->]]; [left|by right].
    by apply (invited_to_user st d u q Hu).
  - intros Hlt q Hq. apply (invited_to_user st' d v q Hv), Hkeep; [done|]. by apply (invited_to_user st d u q Hu).
Qed.

(** Get_channel() returns the channel with the name, in any case, when there
    is one; otherwise, if asked to, it creates an empty channel with that name
    (cut to CHANNELLEN for a local user) and enters it in the table and the
    global list.  With automatic modes that name a character that is not in the
    table of SetAutoChanModes() the search leaves the table, which has no end
    mark. *)
Theorem get_channel_correct MyUser chanlen auto now block name create st c :
  channels_ok st -> nameable name -> channel_store st !! block = None ->
  (auto_ok auto ->
   let name' := cut_name MyUser chanlen name in
   exists o st', get_channel MyUser chanlen auto now block name create st = Some (o, st') /\ channels_ok st' /\
     match o with
     | Some p =>
         (exists c, channel_store st' !! p = Some c /\ lower (chname c) = lower name') /\
         (channel_store st' = channel_store st \/ create = true /\ p = block /\
           exists c, channel_store st' = <[block := c]> (channel_store st) /\ chname c = name' /\ members c = [])
     | None => create = false /\ channel_store st' = channel_store st /\
         forall p c, channel_store st !! p = Some c -> lower (chname c) <> lower name'
     end) /\
  (SetAutoChanModes auto c = None <-> (1 < length auto)%nat /\ ~ auto_ok auto).
Proof.
  intros Hok Hn Hb. split.
  - intros Ha. destruct (get_channel_ok MyUser chanlen auto now block name create st Hok Hn Hb Ha)
      as (o & st' & E & Hok' & _ & _ & Ho). by exists o, st'.
  - unfold SetAutoChanModes. destruct (Nat.leb_spec (length auto) 1) as [Hle|Hlt]; [split; [done|lia]|].
    assert (Hnone : forall t, auto_modes auto t = None <-> ~ auto_ok auto).
    { clear Hlt. induction auto as [|x auto IH]; intros t; cbn [auto_modes].
      - split; [done|]. intros Hno. by destruct Hno; constructor.
      - unfold auto_ok in *. rewrite Forall_cons. destruct (find_flag x chan_flags) as [f|]; cbn [mbind option_bind].
        + rewrite IH. split; [intros H1 [_ H2]; done|]. intros H1 H2. apply H1. split; [by eexists|done].
        + split; [|done]. intros _ [[y Hy] _]. done. }
    rewrite <- (Hnone 0). destruct (auto_modes auto 0); cbn [mbind option_bind].
    + split; [done|by intros [_ ?]].
    + split; [done|done].
Qed.

(** Common_chan_count() is the number of channels both users are on, cut off
    at [max] when that is not 0, whichever of the two lists is marked, provided
    that no channel still carries the mark; and it changes nothing but marks. *)
Theorem common_chan_count_correct k a b max st ua ub :
  channels_ok st -> user_store st !! a = Some ua -> user_store st !! b = Some ub -> 0 <= max ->
  (forall p c, channel_store st !! p = Some c -> marker c <> k) ->
  exists common st',
    common_chan_count k a b max st = Some (capped max (Z.of_nat (length common)), st') /\ channels_ok st' /\
    NoDup common /\ forall p, p ∈ common <-> on st a p /\ on st b p.
Proof.
  intros (Hm & Hi & Ht) Ha Hb Hmax Hk.
  destruct (common_chan_count_ok k a b max st ua ub Hm Ha Hb Hmax Hk) as (st' & E & Hs1 & Hs2 & Hs3).
  eexists _, st'. split; [exact E|]. split; [split; [by eapply member_inv_frame|split;
    [by eapply invite_inv_frame|by eapply table_inv_frame]]|].
  destruct (channels_of_ok st a ua Hm Ha) as (_ & _ & Hia). destruct (channels_of_ok st b ub Hm Hb) as (Hnb & _ & Hib).
  split; [by apply NoDup_filter|]. intros p. rewrite list_elem_of_filter, Hia, Hib. done.
Qed.
End channel.

(** ** A concrete network: two users and a channel *)
#[local] Instance crc_channel_table : NameTable table := channel_table crc_table.

Definition two_users : channels table :=
  MkChannels ∅ [] 0 ∅ {[ 1%N := MkUser [] 0 [] 0; 2%N := MkUser [] 0 [] 0 ]} empty_table [] 0.

Lemma two_users_lookup c u : user_store two_users !! c = Some u -> u = MkUser [] 0 [] 0.
Proof.
  intros Hu. cbn in Hu. apply lookup_insert_Some in Hu as [[_ <-]|[_ Hu]]; [done|].
  by apply lookup_singleton_Some in Hu as [_ <-].
Qed.

Lemma two_users_no_channel p c : channel_store two_users !! p = Some c -> False.
Proof. cbn [two_users channel_store]. by intros ?%lookup_empty_Some. Qed.

Lemma two_users_no_member m r : ~ live two_users m r.
Proof. intros [Hr _]. revert Hr. cbn [two_users memberships]. by intros ?%lookup_empty_Some. Qed.

Lemma empty_no_entry x : ~ in_table empty_table x.
Proof.
  intros (h & _ & Hp). unfold bucket, empty_table in Hp. rewrite nth_replicate_nil in Hp.
  by apply not_elem_of_nil in Hp.
Qed.

Lemma two_users_ok : channels_ok two_users.
Proof.
  split; [|split].
  - constructor.
    + constructor.
    + intros m Hm. by apply not_elem_of_nil in Hm.
    + intros m r Hr. by apply two_users_no_member in Hr.
    + intros m n r s Hr. by apply two_users_no_member in Hr.
    + intros p c Hc. by apply two_users_no_channel in Hc.
    + intros c u Hu. rewrite (two_users_lookup c u Hu). split; [constructor|]. split; [|done].
      intros m. split; [by intros ?%not_elem_of_nil|]. intros (r & Hr & _). by apply two_users_no_member in Hr.
  - constructor.
    + intros p c Hc. by apply two_users_no_channel in Hc.
    + intros c u Hu. rewrite (two_users_lookup c u Hu). split; [constructor|]. split; [done|].
      intros p Hp. by apply not_elem_of_nil in Hp.
  - split.
    + split; [apply empty_table_ok|]. intros x Hx. by apply empty_no_entry in Hx.
    + intros p. split; [intros Hp; by apply empty_no_entry in Hp|intros [c Hc]; by apply two_users_no_channel in Hc].
    + intros p c Hc. by apply two_users_no_channel in Hc.
    + intros p q c d Hc. by apply two_users_no_channel in Hc.
    + constructor.
    + intros p. split; [by intros ?%not_elem_of_nil|intros [c Hc]; by apply two_users_no_channel in Hc].
    + done.
Qed.

(** The channel is created. *)
Definition sample_new : Channel := new_channel (lit "#a") 7.

Lemma sample_channel :
  exists st, channels_ok st /\ channel_store st = {[ 1%positive := sample_new ]} /\
    user_store st = user_store two_users /\ memberships st = ∅ /\ (forall m r, ~ live st m r).
Proof.
  destruct (nt_add_ok (name_of {[ 1%positive := sample_new ]}) empty_table 1%positive) as (t & _ & Ht & Hmem).
  - split; [apply empty_table_ok|]. intros x Hx. by apply empty_no_entry in Hx.
  - unfold name_of. rewrite lookup_singleton_eq. by_decide.
  - apply empty_no_entry.
  - eexists. split; [apply (new_channel_ok 1%positive (lit "#a") sample_new t two_users two_users_ok)|].
    + done.
    + by_decide.
    + done.
    + done.
    + done.
    + done.
    + intros p d Hd. by apply two_users_no_channel in Hd.
    + exact Ht.
    + intros x. apply Hmem.
    + split; [done|]. split; [done|]. split; [done|]. intros m r Hr. by apply (two_users_no_member m r).
Qed.

(** Its first member joins. *)
Lemma sample_joined :
  exists st m, channels_ok st /\ counts_fit st /\
    channel_store st = {[ 1%positive := set_users 1 (set_members [m] sample_new) ]} /\
    (forall n s, live st n s <-> n = m /\ s = MkMembership 1 1 0) /\
    user_store st = {[ 1%N := MkUser [m] 1 [] 0; 2%N := MkUser [] 0 [] 0 ]}.
Proof.
  destruct sample_channel as (s0 & Hok & Hc & Hu & Hm & Hno).
  assert (Hf : counts_fit s0).
  { split.
    - intros p d. rewrite Hc. by intros [_ <-]%lookup_singleton_Some.
    - intros e u. rewrite Hu. intros ->%two_users_lookup. done. }
  destruct (add_user_ok 5%positive 1%positive 1%N 0 s0) as (st & m & E & Hok' & Hl & free & alloc & c' & u & Hc' & Hu' & ->).
  - done.
  - done.
  - by rewrite Hm.
  - rewrite Hc. by rewrite lookup_singleton_eq.
  - rewrite Hu. by eexists.
  - intros (m & r & Hr & _). by apply Hno in Hr.
  - rewrite Hc, lookup_singleton_eq in Hc'. injection Hc' as <-.
    rewrite Hu in Hu'. apply two_users_lookup in Hu' as ->.
    exists (linked m free alloc 1%positive sample_new 1%N (MkUser [] 0 [] 0) 0 s0), m.
    split; [done|].
    assert (Hcs : channel_store (linked m free alloc 1%positive sample_new 1%N (MkUser [] 0 [] 0) 0 s0) =
      {[ 1%positive := set_users 1 (set_members [m] sample_new) ]}).
    { cbn. rewrite Hc. apply insert_singleton_eq. }
    assert (Hus : user_store (linked m free alloc 1%positive sample_new 1%N (MkUser [] 0 [] 0) 0 s0) =
      {[ 1%N := MkUser [m] 1 [] 0; 2%N := MkUser [] 0 [] 0 ]}).
    { cbn. rewrite Hu. cbn. by rewrite insert_insert_eq. }
    split; [|split; [done|split; [|done]]].
    + split.
      * intros p d. rewrite Hcs. by intros [_ <-]%lookup_singleton_Some.
      * intros e u. rewrite Hus. intros [[_ <-]|[_ Hx]]%lookup_insert_Some; [done|].
        by apply lookup_singleton_Some in Hx as [_ <-].
    + intros n s. rewrite Hl. split; [intros [Hn|?]; [by apply Hno in Hn|done]|by right].
Qed.

Lemma membership_updates_witness :
  exists st block p, channels_ok st /\ counts_fit st /\ memberships st !! block = None /\
    (exists st' m, add_user_to_channel block p 2 1 st = Some st' /\ live st' m (MkMembership 2 p 1)) /\
    exists st', remove_user_from_channel (fun _ => false) (fun _ => false) 1 p st = Some st' /\
      channels_ok st' /\ channel_store st' !! p = None.
Proof.
  destruct sample_joined as (st & m & Hok & Hf & Hc & Hl & Hu).
  set (block := fresh (dom (memberships st))).
  assert (Hb : memberships st !! block = None) by (apply not_elem_of_dom, is_fresh).
  assert (Hp : is_Some (channel_store st !! 1%positive)) by (rewrite Hc, lookup_singleton_eq; by eexists).
  assert (Hno : ~ on st 2 1%positive) by (intros (n & s & Hn & E & _); apply Hl in Hn as [_ ->]; done).
  assert (Hu1 : is_Some (user_store st !! 1%N)) by (rewrite Hu; by eexists).
  assert (Hu2 : is_Some (user_store st !! 2%N)) by (rewrite Hu; by eexists).
  exists st, block, 1%positive. split; [done|]. split; [done|]. split; [done|]. split.
  - destruct (membership_updates (fun _ => false) (fun _ => false) block 1%positive 2%N 1 st Hok Hf Hb Hp Hu2) as [Ha _].
    destruct (Ha Hno) as (st' & n & E & _ & Hl'). exists st', n. split; [done|]. apply Hl'. by right.
  - destruct (membership_updates (fun _ => false) (fun _ => false) block 1%positive 1%N 1 st Hok Hf Hb Hp Hu1) as [_ Hr].
    destruct (Hr eq_refl) as (st' & E & Hok' & _ & Hq). exists st'. split; [done|]. split; [done|].
    destruct (channel_store st' !! 1%positive) eqn:E1; [|done]. exfalso.
    destruct (proj1 (Hq 1%positive) ltac:(by eexists)) as [_ Hout].
    destruct (Hout eq_refl) as [Hon|[(d & Hd & Hpe)|(n & s & Hn & _ & Hne & _)]].
    + apply Hon. exists m, (MkMembership 1 1 0). split; [by apply Hl|done].
    + revert Hd Hpe. rewrite Hc, lookup_singleton_eq. intros [= <-]. done.
    + apply Hl in Hn as [_ ->]. done.
Defined.

Lemma remove_user_from_all_channels_ends_witness :
  exists st p, on st 1 p /\
    exists st', remove_user_from_all_channels (fun _ => false) (fun _ => false) 1 st = Some st' /\ ~ on st' 1 p.
Proof.
  destruct sample_joined as (st & m & Hok & Hf & Hc & Hl & Hu). exists st, 1%positive. split.
  { exists m, (MkMembership 1 1 0). split; [by apply Hl|done]. }
  assert (Hu1 : is_Some (user_store st !! 1%N)) by (rewrite Hu; by eexists).
  destruct (remove_user_from_all_channels_ends (fun _ => false) (fun _ => false) 1%N st Hok Hf eq_refl Hu1)
    as (st' & E & _ & Hno & _).
  exists st'. split; [done|]. apply Hno.
Defined.

Lemma make_zombie_no_ghosts_witness :
  exists st m, live st m (MkMembership 1 1 0) /\
    exists st', make_zombie (fun _ => false) (fun _ => false) (fun _ => false) m 1 false [] 9 1 st = Some st' /\
      channels_ok st' /\ no_ghosts st'.
Proof.
  destruct sample_joined as (st & m & Hok & Hf & Hc & Hl & Hu).
  assert (Hm : live st m (MkMembership 1 1 0)) by by apply Hl.
  assert (Hg : no_ghosts st).
  { intros p d. rewrite Hc. intros [<- <-]%lookup_singleton_Some. right. by exists m, (MkMembership 1 1 0). }
  exists st, m. split; [done|].
  destruct (make_zombie_no_ghosts (fun _ => false) (fun _ => false) (fun _ => false) m (MkMembership 1 1 0)
    false [] 9%N st Hok Hf Hg Hm eq_refl) as (st' & E & Hok' & Hg' & _).
  by exists st'.
Defined.

Lemma add_invite_bounded_witness :
  exists st st' v, channels_ok st /\ add_invite 1 2 1 st = Some st' /\ user_store st' !! 2%N = Some v /\
    Z.of_nat (length (invited v)) <= 1 /\ 1%positive ∈ invited v.
Proof.
  destruct sample_joined as (st & m & Hok & Hf & Hc & Hl & Hu).
  assert (Hc1 : channel_store st !! 1%positive = Some (set_users 1 (set_members [m] sample_new)))
    by (rewrite Hc; apply lookup_singleton_eq).
  assert (Hu2 : user_store st !! 2%N = Some (MkUser [] 0 [] 0)) by by rewrite Hu.
  destruct (add_invite_bounded (fun _ => false) (fun _ => false) 1 2%N 1%positive st _ _ Hok Hf Hc1 Hu2) as (st' & v & E & _ & Hv & Hle & Hin & _);
    [done|done|].
  by exists st, st', v.
Defined.

Lemma get_channel_correct_witness :
  exists o st', get_channel true 200 (lit "nt") 7 1 (lit "#A") true two_users = Some (Some o, st') /\
    channels_ok st' /\ is_Some (channel_store st' !! o) /\ SetAutoChanModes (lit "nq") sample_new = None.
Proof.
  assert (Hn : nameable (lit "#A")) by by_decide.
  assert (Ha : auto_ok (lit "nt")) by (repeat constructor; by eexists).
  destruct (get_channel_correct true 200 (lit "nt") 7 1%positive (lit "#A") true two_users sample_new
    two_users_ok Hn eq_refl) as [Hg _].
  destruct (Hg Ha) as (o & st' & E & Hok & Ho). destruct o as [p|]; [|by destruct Ho].
  exists p, st'. split; [exact E|]. split; [exact Hok|]. destruct Ho as [(c & Hc & _) _]. split; [by exists c|].
  destruct (get_channel_correct true 200 (lit "nq") 7 1%positive (lit "#A") true two_users sample_new
    two_users_ok Hn eq_refl) as [_ Hq].
  apply Hq. split; [by_decide|]. intros Hno. apply Forall_cons in Hno as [_ Hno].
  apply Forall_cons in Hno as [[y Hy] _]. discriminate Hy.
Defined.

Lemma common_chan_count_correct_witness :
  exists st, channels_ok st /\ on st 1 1 /\
    exists n st', common_chan_count 1 1 1 0 st = Some (n, st') /\ 0 < n.
Proof.
  destruct sample_joined as (st & m & Hok & Hf & Hc & Hl & Hu).
  assert (Hon : on st 1 1%positive) by (exists m, (MkMembership 1 1 0); split; [by apply Hl|done]).
  assert (Hu1 : user_store st !! 1%N = Some (MkUser [m] 1 [] 0)) by by rewrite Hu.
  exists st. split; [done|]. split; [done|].
  destruct (common_chan_count_correct 1 1%N 1%N 0 st _ _ Hok Hu1 Hu1) as (common & st' & E & _ & _ & Hin).
  - done.
  - intros p d. rewrite Hc. by intros [_ <-]%lookup_singleton_Some.
  - exists (capped 0 (Z.of_nat (length common))), st'. split; [done|].
    assert (H1 : 1%positive ∈ common) by by apply Hin.
    destruct common; [by apply not_elem_of_nil in H1|]. cbn [capped Z.eqb length]. unfold capped. cbn. lia.
Defined.
