(* ===== verification/MsgTab.v ===== *)
(** * ircd/parse.c: the table of commands

    [msgtab] is the table of parse.c with the texts of include/msg.h; a handler
    is the name of the function that the table points to.  The counters of the
    entries are kept by the parser ([Parse]). *)
From S2P Require Import Prelude.

Definition MAXPARA : nat := 15.
Definition MFLG_SLOW : Z := 1.
Definition MFLG_UNREG : Z := 2.
Definition MFLG_IGNORE : Z := 4.

(** A handler is the name of its function. *)
Abbreviation handler := String.string.

(** The columns of the table, by the kind of the connection. *)
Inductive HandlerType :=
  | UNREGISTERED_HANDLER | CLIENT_HANDLER | SERVER_HANDLER | OPER_HANDLER | SERVICE_HANDLER.

#[export] Instance HandlerType_dec : EqDecision HandlerType.
Proof. solve_decision. Defined.

Record Message := MkMessage {
  cmd : list Z;
  tok : list Z;
  parameters : nat;
  flags : Z;
  handlers : HandlerType -> handler }.

(** The last member of an entry, with its five columns in order. *)
Definition columns (unreg client server oper service : handler) (t : HandlerType) : handler :=
  match t with
  | UNREGISTERED_HANDLER => unreg
  | CLIENT_HANDLER => client
  | SERVER_HANDLER => server
  | OPER_HANDLER => oper
  | SERVICE_HANDLER => service
  end.

Definition msgtab : list Message := [
  MkMessage (lit "PRIVMSG") (lit "P") MAXPARA MFLG_SLOW
    (columns "m_unregistered" "m_privmsg" "ms_privmsg" "mo_privmsg" "m_ignore");
  MkMessage (lit "NICK") (lit "N") MAXPARA (MFLG_SLOW + MFLG_UNREG)
    (columns "m_nick" "m_nick" "ms_nick" "m_nick" "m_ignore");
  MkMessage (lit "NOTICE") (lit "O") MAXPARA (MFLG_SLOW + MFLG_IGNORE)
    (columns "m_ignore" "m_notice" "ms_notice" "mo_notice" "m_ignore");
  MkMessage (lit "WALLCHOPS") (lit "WC") MAXPARA MFLG_SLOW
    (columns "m_unregistered" "m_wallchops" "ms_wallchops" "m_wallchops" "m_ignore");
  MkMessage (lit "WALLHOPS") (lit "WH") MAXPARA MFLG_SLOW
    (columns "m_unregistered" "m_wallhops" "ms_wallhops" "m_wallhops" "m_ignore");
  MkMessage (lit "WALLVOICES") (lit "WV") MAXPARA MFLG_SLOW
    (columns "m_unregistered" "m_wallvoices" "ms_wallvoices" "m_wallvoices" "m_ignore");
  MkMessage (lit "CPRIVMSG") (lit "CP") MAXPARA MFLG_SLOW
    (columns "m_unregistered" "m_cprivmsg" "m_ignore" "m_cprivmsg" "m_ignore");
  MkMessage (lit "CNOTICE") (lit "CN") MAXPARA MFLG_SLOW
    (columns "m_unregistered" "m_cnotice" "m_ignore" "m_cnotice" "m_ignore");
  MkMessage (lit "CHALLENGE") (lit "CH") MAXPARA MFLG_SLOW
    (columns "m_unregistered" "m_challenge" "ms_challenge" "mo_challenge" "m_ignore");
  MkMessage (lit "JOIN") (lit "J") MAXPARA MFLG_SLOW
    (columns "m_unregistered" "m_join" "ms_join" "m_join" "m_ignore");
  MkMessage (lit "SVSJOIN") (lit "SJ") MAXPARA MFLG_SLOW
    (columns "m_unregistered" "m_ignore" "ms_svsjoin" "m_ignore" "m_ignore");
  MkMessage (lit "MODE") (lit "M") MAXPARA MFLG_SLOW
    (columns "m_unregistered" "m_mode" "ms_mode" "m_mode" "m_ignore");
  MkMessage (lit "BURST") (lit "B") MAXPARA MFLG_SLOW
    (columns "m_ignore" "m_ignore" "ms_burst" "m_ignore" "m_ignore");
  MkMessage (lit "REBURST") (lit "RB") MAXPARA MFLG_SLOW
    (columns "m_ignore" "m_ignore" "ms_reburst" "m_ignore" "m_ignore");
  MkMessage (lit "CREATE") (lit "C") MAXPARA MFLG_SLOW
    (columns "m_ignore" "m_ignore" "ms_create" "m_ignore" "m_ignore");
  MkMessage (lit "DESTRUCT") (lit "DE") MAXPARA MFLG_SLOW
    (columns "m_ignore" "m_ignore" "ms_destruct" "m_ignore" "m_ignore");
  MkMessage (lit "QUIT") (lit "Q") MAXPARA (MFLG_SLOW + MFLG_UNREG)
    (columns "m_quit" "m_quit" "ms_quit" "m_quit" "m_ignore");
  MkMessage (lit "PART") (lit "L") MAXPARA MFLG_SLOW
    (columns "m_unregistered" "m_part" "ms_part" "m_part" "m_ignore");
  MkMessage (lit "SVSPART") (lit "SP") MAXPARA MFLG_SLOW
    (columns "m_unregistered" "m_ignore" "ms_svspart" "m_ignore" "m_ignore");
  MkMessage (lit "TOPIC") (lit "T") MAXPARA MFLG_SLOW
    (columns "m_unregistered" "m_topic" "ms_topic" "m_topic" "m_ignore");
  MkMessage (lit "INVITE") (lit "I") MAXPARA MFLG_SLOW
    (columns "m_unregistered" "m_invite" "ms_invite" "m_invite" "m_ignore");
  MkMessage (lit "IRCOPS") (lit "IR") MAXPARA MFLG_SLOW
    (columns "m_ignore" "m_ircops" "m_ignore" "m_ircops" "m_ignore");
  MkMessage (lit "KICK") (lit "K") MAXPARA MFLG_SLOW
    (columns "m_unregistered" "m_kick" "ms_kick" "m_kick" "m_ignore");
  MkMessage (lit "WALLOPS") (lit "WA") MAXPARA MFLG_SLOW
    (columns "m_unregistered" "m_not_oper" "ms_wallops" "mo_wallops" "m_ignore");
  MkMessage (lit "WALLUSERS") (lit "WU") MAXPARA MFLG_SLOW
    (columns "m_unregistered" "m_not_oper" "ms_wallusers" "mo_wallusers" "m_ignore");
  MkMessage (lit "DESYNCH") (lit "DS") MAXPARA MFLG_SLOW
    (columns "m_ignore" "m_ignore" "ms_desynch" "m_ignore" "m_ignore");
  MkMessage (lit "PING") (lit "G") MAXPARA MFLG_SLOW
    (columns "m_unregistered" "m_ping" "ms_ping" "mo_ping" "m_ignore");
  MkMessage (lit "PONG") (lit "Z") MAXPARA (MFLG_SLOW + MFLG_UNREG)
    (columns "mr_pong" "m_pong" "ms_pong" "m_pong" "m_ignore");
  MkMessage (lit "ERROR") (lit "Y") MAXPARA (MFLG_SLOW + MFLG_UNREG)
    (columns "mr_error" "m_ignore" "ms_error" "m_ignore" "m_ignore");
  MkMessage (lit "KILL") (lit "D") MAXPARA MFLG_SLOW
    (columns "m_unregistered" "m_not_oper" "ms_kill" "mo_kill" "m_ignore");
  MkMessage (lit "USER") (lit "USER") MAXPARA MFLG_SLOW
    (columns "m_user" "m_registered" "m_ignore" "m_registered" "m_ignore");
  MkMessage (lit "AWAY") (lit "A") MAXPARA MFLG_SLOW
    (columns "m_unregistered" "m_away" "ms_away" "m_away" "m_ignore");
  MkMessage (lit "ISON") (lit "ISON") 1 MFLG_SLOW
    (columns "m_unregistered" "m_ison" "m_ignore" "m_ison" "m_ignore");
  MkMessage (lit "SERVER") (lit "S") MAXPARA (MFLG_SLOW + MFLG_UNREG)
    (columns "mr_server" "m_registered" "ms_server" "m_registered" "m_ignore");
  MkMessage (lit "SQUIT") (lit "SQ") MAXPARA MFLG_SLOW
    (columns "m_unregistered" "m_not_oper" "ms_squit" "mo_squit" "m_ignore");
  MkMessage (lit "WHOIS") (lit "W") MAXPARA MFLG_SLOW
    (columns "m_unregistered" "m_whois" "ms_whois" "m_whois" "m_ignore");
  MkMessage (lit "WHO") (lit "H") MAXPARA MFLG_SLOW
    (columns "m_unregistered" "m_who" "m_ignore" "m_who" "m_ignore");
  MkMessage (lit "WHOWAS") (lit "X") MAXPARA MFLG_SLOW
    (columns "m_unregistered" "m_whowas" "m_whowas" "m_whowas" "m_ignore");
  MkMessage (lit "LIST") (lit "LIST") MAXPARA MFLG_SLOW
    (columns "m_unregistered" "m_list" "m_ignore" "m_list" "m_ignore");
  MkMessage (lit "ALIST") (lit "ALIST") MAXPARA MFLG_SLOW
    (columns "m_unregistered" "m_alist" "ms_alist" "m_alist" "m_ignore");
  MkMessage (lit "NAMES") (lit "E") MAXPARA MFLG_SLOW
    (columns "m_unregistered" "m_names" "ms_names" "m_names" "m_ignore");
  MkMessage (lit "USERHOST") (lit "USERHOST") 1 MFLG_SLOW
    (columns "m_unregistered" "m_userhost" "m_ignore" "m_userhost" "m_ignore");
  MkMessage (lit "USERIP") (lit "USERIP") 1 MFLG_SLOW
    (columns "m_unregistered" "m_userip" "m_ignore" "m_userip" "m_ignore");
  MkMessage (lit "TRACE") (lit "TR") MAXPARA MFLG_SLOW
    (columns "m_unregistered" "m_trace" "ms_trace" "mo_trace" "m_ignore");
  MkMessage (lit "PASS") (lit "PA") MAXPARA (MFLG_SLOW + MFLG_UNREG)
    (columns "mr_pass" "m_registered" "m_ignore" "m_registered" "m_ignore");
  MkMessage (lit "LUSERS") (lit "LU") MAXPARA MFLG_SLOW
    (columns "m_unregistered" "m_lusers" "ms_lusers" "m_lusers" "m_ignore");
  MkMessage (lit "TIME") (lit "TI") MAXPARA MFLG_SLOW
    (columns "m_unregistered" "m_time" "m_time" "m_time" "m_ignore");
  MkMessage (lit "SETTIME") (lit "SE") MAXPARA MFLG_SLOW
    (columns "m_unregistered" "m_ignore" "ms_settime" "mo_settime" "m_ignore");
  MkMessage (lit "RPING") (lit "RI") MAXPARA MFLG_SLOW
    (columns "m_unregistered" "m_not_oper" "ms_rping" "mo_rping" "m_ignore");
  MkMessage (lit "RPONG") (lit "RO") MAXPARA MFLG_SLOW
    (columns "m_unregistered" "m_ignore" "ms_rpong" "m_ignore" "m_ignore");
  MkMessage (lit "OPER") (lit "OPER") MAXPARA MFLG_SLOW
    (columns "m_unregistered" "m_oper" "ms_oper" "mo_oper" "m_ignore");
  MkMessage (lit "CONNECT") (lit "CO") MAXPARA MFLG_SLOW
    (columns "m_unregistered" "m_not_oper" "ms_connect" "mo_connect" "m_ignore");
  MkMessage (lit "MAP") (lit "MAP") MAXPARA MFLG_SLOW
    (columns "m_unregistered" "m_map" "m_ignore" "m_map" "m_ignore");
  MkMessage (lit "VERSION") (lit "V") MAXPARA (MFLG_SLOW + MFLG_UNREG)
    (columns "m_version" "m_version" "ms_version" "mo_version" "m_ignore");
  MkMessage (lit "STATS") (lit "R") MAXPARA MFLG_SLOW
    (columns "m_unregistered" "m_stats" "m_stats" "m_stats" "m_ignore");
  MkMessage (lit "LINKS") (lit "LI") MAXPARA MFLG_SLOW
    (columns "m_unregistered" "m_links" "ms_links" "m_links" "m_ignore");
  MkMessage (lit "ADMIN") (lit "AD") MAXPARA (MFLG_SLOW + MFLG_UNREG)
    (columns "m_admin" "m_admin" "ms_admin" "mo_admin" "m_ignore");
  MkMessage (lit "COMMANDS") (lit "COMMANDS") MAXPARA MFLG_SLOW
    (columns "m_unregistered" "m_commands" "m_ignore" "m_commands" "m_ignore");
  MkMessage (lit "HELP") (lit "HELP") MAXPARA MFLG_SLOW
    (columns "m_unregistered" "m_help" "m_ignore" "mo_help" "m_ignore");
  MkMessage (lit "UHELP") (lit "UHELP") MAXPARA MFLG_SLOW
    (columns "m_unregistered" "m_ignore" "m_ignore" "mo_uhelp" "m_ignore");
  MkMessage (lit "INFO") (lit "F") MAXPARA MFLG_SLOW
    (columns "m_unregistered" "m_info" "ms_info" "mo_info" "m_ignore");
  MkMessage (lit "CREDITS") (lit "F") MAXPARA MFLG_SLOW
    (columns "m_unregistered" "m_info" "ms_info" "mo_info" "m_ignore");
  MkMessage (lit "COPYRIGHT") (lit "CR") MAXPARA MFLG_SLOW
    (columns "m_unregistered" "m_copyright" "ms_copyright" "m_copyright" "m_ignore");
  MkMessage (lit "ISNEF") (lit "ISNEF") MAXPARA MFLG_SLOW
    (columns "m_unregistered" "m_isnef" "m_ignore" "m_isnef" "m_ignore");
  MkMessage (lit "MOTD") (lit "MO") MAXPARA MFLG_SLOW
    (columns "m_unregistered" "m_motd" "m_motd" "m_motd" "m_ignore");
  MkMessage (lit "CLOSE") (lit "CLOSE") MAXPARA MFLG_SLOW
    (columns "m_unregistered" "m_not_oper" "m_ignore" "mo_close" "m_ignore");
  MkMessage (lit "SILENCE") (lit "U") MAXPARA MFLG_SLOW
    (columns "m_unregistered" "m_silence" "ms_silence" "m_silence" "m_ignore");
  MkMessage (lit "EXEMPT") (lit "EX") MAXPARA MFLG_SLOW
    (columns "m_unregistered" "m_not_oper" "ms_exempt" "mo_exempt" "m_ignore");
  MkMessage (lit "GLINE") (lit "GL") MAXPARA 0
    (columns "m_unregistered" "m_gline" "ms_gline" "mo_gline" "m_ignore");
  MkMessage (lit "ZLINE") (lit "ZL") MAXPARA 0
    (columns "m_unregistered" "m_zline" "ms_zline" "mo_zline" "m_ignore");
  MkMessage (lit "SHUN") (lit "SU") MAXPARA 0
    (columns "m_unregistered" "m_shun" "ms_shun" "mo_shun" "m_ignore");
  MkMessage (lit "JUPE") (lit "JU") MAXPARA MFLG_SLOW
    (columns "m_unregistered" "m_not_oper" "ms_jupe" "mo_jupe" "m_ignore");
  MkMessage (lit "OPMODE") (lit "OM") MAXPARA MFLG_SLOW
    (columns "m_unregistered" "m_not_oper" "ms_opmode" "mo_opmode" "m_ignore");
  MkMessage (lit "CLEARMODE") (lit "CM") MAXPARA MFLG_SLOW
    (columns "m_unregistered" "m_not_oper" "ms_clearmode" "mo_clearmode" "m_ignore");
  MkMessage (lit "UPING") (lit "UP") MAXPARA MFLG_SLOW
    (columns "m_unregistered" "m_not_oper" "ms_uping" "mo_uping" "m_ignore");
  MkMessage (lit "END_OF_BURST") (lit "EB") MAXPARA MFLG_SLOW
    (columns "m_ignore" "m_ignore" "ms_end_of_burst" "m_ignore" "m_ignore");
  MkMessage (lit "EOB_ACK") (lit "EA") MAXPARA 1
    (columns "m_ignore" "m_ignore" "ms_end_of_burst_ack" "m_ignore" "m_ignore");
  MkMessage (lit "HASH") (lit "HASH") MAXPARA MFLG_SLOW
    (columns "m_unregistered" "m_hash" "m_hash" "m_hash" "m_ignore");
  MkMessage (lit "DNS") (lit "DNS") MAXPARA MFLG_SLOW
    (columns "m_unregistered" "m_ignore" "m_ignore" "m_dns" "m_ignore");
  MkMessage (lit "REHASH") (lit "RH") MAXPARA MFLG_SLOW
    (columns "m_unregistered" "m_not_oper" "ms_rehash" "mo_rehash" "m_ignore");
  MkMessage (lit "RESTART") (lit "RS") MAXPARA MFLG_SLOW
    (columns "m_unregistered" "m_not_oper" "ms_restart" "mo_restart" "m_ignore");
  MkMessage (lit "DIE") (lit "DI") MAXPARA MFLG_SLOW
    (columns "m_unregistered" "m_not_oper" "ms_die" "mo_die" "m_ignore");
  MkMessage (lit "PROTO") (lit "PROTO") MAXPARA MFLG_SLOW
    (columns "m_proto" "m_proto" "m_proto" "m_proto" "m_ignore");
  MkMessage (lit "SET") (lit "SET") MAXPARA MFLG_SLOW
    (columns "m_unregistered" "m_not_oper" "ms_set" "mo_set" "m_ignore");
  MkMessage (lit "RESET") (lit "RESET") MAXPARA MFLG_SLOW
    (columns "m_unregistered" "m_not_oper" "m_ignore" "mo_reset" "m_ignore");
  MkMessage (lit "GET") (lit "GET") MAXPARA MFLG_SLOW
    (columns "m_unregistered" "m_not_oper" "m_ignore" "mo_get" "m_ignore");
  MkMessage (lit "PRIVS") (lit "PRIVS") MAXPARA MFLG_SLOW
    (columns "m_unregistered" "m_not_oper" "ms_privs" "mo_privs" "m_ignore");
  MkMessage (lit "ACCOUNT") (lit "AC") MAXPARA MFLG_SLOW
    (columns "m_ignore" "m_ignore" "ms_account" "m_ignore" "m_ignore");
  MkMessage (lit "MKPASSWD") (lit "MKPASSWD") MAXPARA MFLG_SLOW
    (columns "m_ignore" "mo_mkpasswd" "m_ignore" "mo_mkpasswd" "m_ignore");
  MkMessage (lit "ASLL") (lit "LL") MAXPARA MFLG_SLOW
    (columns "m_ignore" "m_not_oper" "ms_asll" "mo_asll" "m_ignore");
  MkMessage (lit "SETHOST") (lit "SH") MAXPARA MFLG_SLOW
    (columns "m_unregistered" "m_sethost" "m_ignore" "m_sethost" "m_ignore");
  MkMessage (lit "FAKE") (lit "FA") MAXPARA MFLG_SLOW
    (columns "m_ignore" "m_ignore" "ms_fakehost" "m_ignore" "m_ignore");
  MkMessage (lit "CHECK") (lit "CC") MAXPARA MFLG_SLOW
    (columns "m_unregistered" "m_not_oper" "mo_check" "mo_check" "m_ignore");
  MkMessage (lit "RULES") (lit "RL") MAXPARA MFLG_SLOW
    (columns "m_unregistered" "m_rules" "ms_rules" "m_rules" "m_ignore");
  MkMessage (lit "OPERMOTD") (lit "OPM") MAXPARA MFLG_SLOW
    (columns "m_unregistered" "m_not_oper" "ms_opermotd" "m_opermotd" "m_ignore");
  MkMessage (lit "SVSNICK") (lit "SN") MAXPARA MFLG_SLOW
    (columns "m_ignore" "m_ignore" "ms_svsnick" "m_ignore" "m_ignore");
  MkMessage (lit "SVSMODE") (lit "SM") MAXPARA MFLG_SLOW
    (columns "m_ignore" "m_ignore" "ms_svsmode" "m_ignore" "m_ignore");
  MkMessage (lit "SVSIDENT") (lit "SID") MAXPARA MFLG_SLOW
    (columns "m_ignore" "m_ignore" "ms_svsident" "m_ignore" "m_ignore");
  MkMessage (lit "SVSINFO") (lit "SI") MAXPARA MFLG_SLOW
    (columns "m_ignore" "m_ignore" "ms_svsinfo" "m_ignore" "m_ignore");
  MkMessage (lit "SVSQUIT") (lit "SX") MAXPARA MFLG_SLOW
    (columns "m_ignore" "m_ignore" "ms_svsquit" "m_ignore" "m_ignore");
  MkMessage (lit "SVSNOOP") (lit "SO") MAXPARA MFLG_SLOW
    (columns "m_unregistered" "m_ignore" "ms_svsnoop" "m_ignore" "m_ignore");
  MkMessage (lit "SWHOIS") (lit "SW") MAXPARA MFLG_SLOW
    (columns "m_unregistered" "m_ignore" "ms_swhois" "m_ignore" "m_ignore");
  MkMessage (lit "MARK") (lit "MK") MAXPARA MFLG_SLOW
    (columns "m_unregistered" "m_ignore" "ms_mark" "m_ignore" "m_ignore");
  MkMessage (lit "SPAMFILTER") (lit "SF") MAXPARA MFLG_SLOW
    (columns "m_unregistered" "m_not_oper" "ms_spamfilter" "mo_spamfilter" "m_ignore");
  MkMessage (lit "WATCH") (lit "WATCH") MAXPARA MFLG_SLOW
    (columns "m_ignore" "m_watch" "m_ignore" "m_watch" "m_ignore");
  MkMessage (lit "FINGERPRINT") (lit "FINGERPRINT") MAXPARA MFLG_SLOW
    (columns "m_ignore" "m_fingerprint" "m_ignore" "mo_fingerprint" "m_ignore");
  MkMessage (lit "WEBIRC") (lit "WEBIRC") MAXPARA MFLG_SLOW
    (columns "m_webirc" "m_registered" "m_ignore" "m_registered" "m_ignore");
  MkMessage (lit "WEBIRCEXTRA") (lit "WEBIRCEXTRA") MAXPARA MFLG_SLOW
    (columns "m_webircextra" "m_registered" "m_ignore" "m_registered" "m_ignore");
  MkMessage (lit "PROTOCTL") (lit "PROTOCTL") MAXPARA MFLG_SLOW
    (columns "m_ignore" "m_protoctl" "m_ignore" "m_protoctl" "m_ignore");
  MkMessage (lit "SNO") (lit "SNO") MAXPARA MFLG_SLOW
    (columns "m_ignore" "m_ignore" "ms_sno" "m_ignore" "ms_sno");
  MkMessage (lit "SMO") (lit "SMO") MAXPARA MFLG_SLOW
    (columns "m_ignore" "m_ignore" "ms_smo" "m_ignore" "ms_smo");
  MkMessage (lit "GLOBOPS") (lit "GLOBOPS") MAXPARA MFLG_SLOW
    (columns "m_ignore" "m_not_oper" "m_ignore" "mo_globops" "m_ignore");
  MkMessage (lit "REMOVE") (lit "RM") MAXPARA MFLG_SLOW
    (columns "m_unregistered" "m_not_oper" "ms_remove" "mo_remove" "m_ignore");
  MkMessage (lit "POST") (lit "POST") MAXPARA MFLG_SLOW
    (columns "m_quit" "m_ignore" "m_ignore" "m_ignore" "m_ignore")].
