(* ===== verification/MsgTree.v ===== *)
(** * ircd/parse.c: the command trie

    A command is found in a trie with 32 children for a node, reached by the low
    five bits of a character.  A message of the trie is the index of an entry of
    [msgtab]. *)
From S2P Require Import Prelude Chattr MsgTab.
Open Scope ircd_scope.

(** ** The trie *)
Definition MAXPTRLEN : nat := 32.

Inductive MessageTree :=
  MkTree (msg : option nat) (pointers : list (option MessageTree)).

Definition msg (t : MessageTree) : option nat := match t with MkTree m _ => m end.
Definition pointers (t : MessageTree) : list (option MessageTree) := match t with MkTree _ l => l end.

(** What MyCalloc() returns. *)
Definition new_tree : MessageTree := MkTree None (replicate MAXPTRLEN None).

Definition slot (c : Z) : nat := Z.to_nat (c .& (Z.of_nat MAXPTRLEN - 1)).

Definition child (c : Z) (t : MessageTree) : option MessageTree := nth (slot c) (pointers t) None.
Definition set_child (c : Z) (n : option MessageTree) (t : MessageTree) : MessageTree :=
  MkTree (msg t) (<[slot c := n]> (pointers t)).

Fixpoint add_msg_element (mtree_p : MessageTree) (msg_p : nat) (cmd : list Z) : MessageTree :=
  match cmd with
  | [] => MkTree (Some msg_p) (pointers mtree_p)
  | c :: r =>
      match child c mtree_p with
      | Some ntree_p => set_child c (Some (add_msg_element ntree_p msg_p r)) mtree_p
      | None => set_child c (Some (add_msg_element new_tree msg_p r)) mtree_p
      end
  end.

(** del_msg_element(): the node below is freed after the recursive call. *)
Fixpoint del_msg_element (mtree_p : MessageTree) (cmd : list Z) : MessageTree :=
  match cmd with
  | [] => mtree_p
  | c :: r =>
      match child c mtree_p with
      | Some ntree_p => let freed := del_msg_element ntree_p r in set_child c None mtree_p
      | None => mtree_p
      end
  end.

Fixpoint add_messages (i : nat) (tab : list Message) (t : MessageTree) : MessageTree :=
  match tab with
  | [] => t
  | m :: r => add_messages (S i) r (add_msg_element (add_msg_element t i (cmd m)) i (tok m))
  end.

Definition initmsgtree : MessageTree := add_messages 0 msgtab new_tree.

Fixpoint msg_tree_parse (cmd : list Z) (mtree : MessageTree) : option nat :=
  match cmd with
  | [] => msg mtree
  | c :: r =>
      if IsAlpha c then
        match child c mtree with
        | Some n => msg_tree_parse r n
        | None => None
        end
      else None
  end.

(** ** The trie is a finite map *)
Fixpoint sub (t : MessageTree) (ks : list nat) : option MessageTree :=
  match ks with
  | [] => Some t
  | k :: r => match nth k (pointers t) None with Some n => sub n r | None => None end
  end.

Definition walk (t : MessageTree) (ks : list nat) : option nat := sub t ks ≫= msg.

(** Every node has its 32 children. *)
Definition tree_ok (t : MessageTree) : Prop :=
  forall ks n, sub t ks = Some n -> length (pointers n) = MAXPTRLEN.

Lemma slot_lt c : (slot c < MAXPTRLEN)%nat.
Proof.
  unfold slot, MAXPTRLEN. change (Z.of_nat 32 - 1) with (Z.ones 5). rewrite Z.land_ones by done. mlia.
Qed.

Lemma tree_ok_root t : tree_ok t -> length (pointers t) = MAXPTRLEN.
Proof. intros Ht. by apply (Ht []). Qed.

Lemma tree_ok_child t k n : tree_ok t -> nth k (pointers t) None = Some n -> tree_ok n.
Proof. intros Ht Hn ks m Hm. apply (Ht (k :: ks)). cbn. by rewrite Hn. Qed.

Lemma new_tree_ok : tree_ok new_tree.
Proof.
  intros [|k ks] n Hn; cbn in Hn; [by injection Hn as <-|].
  do 32 (destruct k as [|k]; [done|]). by destruct k.
Qed.

Lemma walk_new ks : walk new_tree ks = None.
Proof.
  destruct ks as [|k ks]; [done|]. unfold walk. cbn.
  do 32 (destruct k as [|k]; [done|]). by destruct k.
Qed.

Lemma nth_insert {A} (l : list A) i x j d :
  (i < length l)%nat -> nth j (<[i := x]> l) d = if decide (j = i) then x else nth j l d.
Proof.
  intros Hi. rewrite !nth_lookup. destruct (decide (j = i)) as [->|Hne].
  - by rewrite list_lookup_insert_eq.
  - by rewrite list_lookup_insert_ne.
Qed.

Lemma sub_set_child c n t k ks :
  length (pointers t) = MAXPTRLEN ->
  sub (set_child c (Some n) t) (k :: ks) = if decide (k = slot c) then sub n ks else sub t (k :: ks).
Proof.
  intros Hl. cbn. rewrite nth_insert by (rewrite Hl; apply slot_lt). by destruct (decide (k = slot c)).
Qed.

Lemma set_child_ok c n t : tree_ok t -> tree_ok n -> tree_ok (set_child c (Some n) t).
Proof.
  intros Ht Hn [|k ks] m.
  - intros E. injection E as <-. cbn. rewrite length_insert. exact (tree_ok_root t Ht).
  - rewrite sub_set_child by by apply tree_ok_root. destruct (decide _); [apply Hn|apply Ht].
Qed.

Lemma walk_set_child c n t ks :
  tree_ok t ->
  walk (set_child c (Some n) t) ks =
    match ks with [] => msg t | k :: r => if decide (k = slot c) then walk n r else walk t ks end.
Proof.
  intros Ht. unfold walk. destruct ks as [|k ks]; [done|]. rewrite sub_set_child by by apply tree_ok_root.
  by destruct (decide _).
Qed.

(** Adding a command changes the entry of its path and no other. *)
Lemma add_msg_element_ok s i t :
  tree_ok t ->
  tree_ok (add_msg_element t i s) /\
  forall ks, walk (add_msg_element t i s) ks = if decide (ks = map slot s) then Some i else walk t ks.
Proof.
  revert t. induction s as [|c s IH]; intros t Ht; cbn [add_msg_element map].
  - split.
    + intros [|k ks] n Hn; [injection Hn as <-; exact (tree_ok_root t Ht)|by apply (Ht (k :: ks))].
    + intros [|k ks]; [done|]. by destruct (decide _).
  - assert (Hc : exists n, tree_ok n /\
        add_msg_element t i (c :: s) = set_child c (Some (add_msg_element n i s)) t /\
        forall ks, walk n ks = walk t (slot c :: ks)).
    { cbn [add_msg_element]. unfold child. destruct (nth (slot c) (pointers t) None) as [n|] eqn:E.
      - exists n. split; [by eapply tree_ok_child|]. split; [done|]. intros ks. unfold walk. cbn. by rewrite E.
      - exists new_tree. split; [apply new_tree_ok|]. split; [done|]. intros ks. rewrite walk_new.
        unfold walk. cbn. by rewrite E. }
    destruct Hc as (n & Hn & E & Hw). cbn [add_msg_element] in E. rewrite E.
    destruct (IH n Hn) as [Hok Hwalk]. split; [by apply set_child_ok|].
    intros [|k ks]; rewrite walk_set_child by done; [done|].
    destruct (decide (k = slot c)) as [->|Hne].
    + rewrite Hwalk, Hw. do 2 destruct (decide _); congruence.
    + destruct (decide _); congruence.
Qed.

Lemma msg_tree_parse_walk s t :
  msg_tree_parse s t = if forallb IsAlpha s then walk t (map slot s) else None.
Proof.
  revert t. induction s as [|c s IH]; intros t; [done|]. cbn. destruct (IsAlpha c); [|done]. cbn.
  unfold child, walk. cbn. destruct (nth (slot c) (pointers t) None); [apply IH|].
  by destruct (forallb IsAlpha s).
Qed.

(** The last entry of the table that [named] holds for. *)
Fixpoint last_entry (named : Message -> bool) (i : nat) (tab : list Message) : option nat :=
  match tab with
  | [] => None
  | m :: r =>
      match last_entry named (S i) r with
      | Some j => Some j
      | None => if named m then Some i else None
      end
  end.

Lemma last_entry_ext f g i tab :
  Forall (fun m => f m = g m) tab -> last_entry f i tab = last_entry g i tab.
Proof. intros H. revert i. induction H as [|m tab Hm _ IH]; intros i; cbn; [done|]. by rewrite IH, Hm. Qed.

Lemma last_entry_lookup f i tab j :
  last_entry f i tab = Some j -> exists m, (i <= j)%nat /\ tab !! (j - i)%nat = Some m /\ f m = true.
Proof.
  revert i. induction tab as [|m tab IH]; intros i; cbn; [done|].
  destruct (last_entry f (S i) tab) as [k|] eqn:E.
  - intros [= <-]. destruct (IH (S i) E) as (m' & Hle & Hm & Hf). exists m'. split; [lia|].
    replace (k - i)%nat with (S (k - S i)) by lia. done.
  - destruct (f m) eqn:Ef; [|done]. intros [= <-]. exists m. rewrite Nat.sub_diag. done.
Qed.

Definition on_path (ks : list nat) (m : Message) : bool :=
  bool_decide (ks = map slot (cmd m)) || bool_decide (ks = map slot (tok m)).

Lemma add_messages_ok tab i t :
  tree_ok t ->
  tree_ok (add_messages i tab t) /\
  forall ks, walk (add_messages i tab t) ks =
    match last_entry (on_path ks) i tab with Some j => Some j | None => walk t ks end.
Proof.
  revert i t. induction tab as [|m tab IH]; intros i t Ht; cbn [add_messages last_entry]; [done|].
  destruct (add_msg_element_ok (cmd m) i t Ht) as [H1 W1].
  destruct (add_msg_element_ok (tok m) i _ H1) as [H2 W2].
  destruct (IH (S i) _ H2) as [H3 W3]. split; [done|].
  intros ks. rewrite W3. destruct (last_entry (on_path ks) (S i) tab); [done|].
  rewrite W2, W1. unfold on_path. repeat case_bool_decide; repeat case_decide; tauto.
Qed.

(** ** Letters and slots *)
Definition codes : list Z := map Z.of_nat (seq 0 256).

Lemma IsAlpha_code c : IsAlpha c = true -> c ∈ List.filter IsAlpha codes.
Proof.
  intros Hc. apply list_elem_of_In, filter_In. split; [|done]. apply in_map_iff.
  assert (0 <= c < 256).
  { unfold IsAlpha, CharAttr in Hc. destruct (Z.leb_spec 0 c), (Z.ltb_spec c 256); cbn in Hc; try done. }
  exists (Z.to_nat c). split; [lia|]. apply in_seq. lia.
Qed.

Lemma slot_lower c d :
  IsAlpha c = true -> IsAlpha d = true \/ d = 95 -> slot c = slot d <-> ToLower c = ToLower d.
Proof.
  intros Hc Hd.
  assert (Hall : Forall (fun c => Forall (fun d => slot c = slot d <-> ToLower c = ToLower d)
    (95 :: List.filter IsAlpha codes)) (List.filter IsAlpha codes)) by by_decide.
  rewrite Forall_forall in Hall. specialize (Hall c (IsAlpha_code c Hc)). rewrite Forall_forall in Hall.
  apply Hall. destruct Hd as [Hd| ->]; [right; by apply IsAlpha_code|left].
Qed.

Lemma slots_lower s n :
  Forall (fun c => IsAlpha c = true) s -> Forall (fun d => IsAlpha d = true \/ d = 95) n ->
  map slot s = map slot n <-> lower s = lower n.
Proof.
  intros Hs. revert n. induction Hs as [|c s Hc _ IH]; intros [|d n] Hn; try done.
  apply Forall_cons in Hn as [Hd Hn]. cbn. specialize (IH n Hn). pose proof (slot_lower c d Hc Hd).
  unfold lower in *. split; intros [= E1 E2]; f_equal; tauto.
Qed.

(** The words of the table. *)
Lemma msgtab_words :
  Forall (fun m => Forall (fun d => IsAlpha d = true \/ d = 95) (cmd m) /\
                   Forall (fun d => IsAlpha d = true \/ d = 95) (tok m)) msgtab.
Proof. by_decide. Qed.

(** An entry is called by its command or its token, in any case. *)
Definition named (s : list Z) (m : Message) : bool :=
  bool_decide (lower s = lower (cmd m)) || bool_decide (lower s = lower (tok m)).

Lemma initmsgtree_lookup s :
  msg_tree_parse s initmsgtree = if forallb IsAlpha s then last_entry (named s) 0 msgtab else None.
Proof.
  rewrite msg_tree_parse_walk. destruct (forallb IsAlpha s) eqn:Hs; [|done].
  unfold initmsgtree. destruct (add_messages_ok msgtab 0 new_tree new_tree_ok) as [_ Hw].
  rewrite Hw, walk_new. clear Hw.
  assert (Ha : Forall (fun c => IsAlpha c = true) s).
  { apply Forall_forall. rewrite forallb_forall in Hs. intros c Hc. apply Hs. by apply list_elem_of_In. }
  rewrite (last_entry_ext (on_path (map slot s)) (named s)); [by destruct (last_entry _ _ _)|].
  eapply Forall_impl; [exact msgtab_words|]. intros m [Hc Ht]. unfold on_path, named. f_equal;
    apply bool_decide_ext; by apply slots_lower.
Qed.

Lemma initmsgtree_entry s i :
  msg_tree_parse s initmsgtree = Some i -> exists m, msgtab !! i = Some m /\ named s m = true.
Proof.
  rewrite initmsgtree_lookup. destruct (forallb IsAlpha s); [|done].
  intros (m & _ & Hm & Hn)%last_entry_lookup. rewrite Nat.sub_0_r in Hm. eauto.
Qed.

(** del_msg_element() unlinks the child of the first letter with everything in
    it: no command with that first letter is found any more. *)
Lemma del_msg_element_subtree t c r s :
  tree_ok t -> slot (hd0 s) = slot c -> s <> [] ->
  child c t <> None -> msg_tree_parse s (del_msg_element t (c :: r)) = None.
Proof.
  intros Ht Hs Hne Hc. cbn [del_msg_element]. destruct (child c t) as [n|]; [|done].
  destruct s as [|x s]; [done|]. cbn in Hs |- *. destruct (IsAlpha x); [|done].
  unfold child. cbn. rewrite Hs, nth_insert by (rewrite tree_ok_root by done; apply slot_lt).
  by rewrite decide_True.
Qed.

(** ** Properties *)

(** C2: The trie that initmsgtree() builds finds what a linear search of the table
    would: the last entry whose command or token is the text, in any case; and
    nothing for a text with a character that is not a letter. *)
Theorem command_lookup s :
  msg_tree_parse s initmsgtree = if forallb IsAlpha s then last_entry (named s) 0 msgtab else None.
Proof. apply initmsgtree_lookup. Qed.

(** The functions an unregistered connection can reach. *)
Definition unregistered_handlers : list handler :=
  ["m_unregistered"; "m_ignore"; "m_nick"; "m_user"; "m_quit"; "m_proto"; "m_version"; "m_admin";
   "m_webirc"; "m_webircextra"; "mr_pass"; "mr_server"; "mr_pong"; "mr_error"]%string.

Definition client_handler (h : handler) : bool :=
  String.prefix "m_" h || String.eqb h "mo_mkpasswd".

Lemma msgtab_access :
  Forall (fun m => handlers m UNREGISTERED_HANDLER ∈ unregistered_handlers /\
                   client_handler (handlers m CLIENT_HANDLER) = true) msgtab.
Proof. by_decide. Qed.

(** Whatever command is sent, a connection that is not registered only reaches
    the functions for logging in, and a local user who is not an operator never
    a function for servers or, mkpasswd apart, for operators. *)
Theorem command_access s i :
  msg_tree_parse s initmsgtree = Some i ->
  exists m, msgtab !! i = Some m /\
    handlers m UNREGISTERED_HANDLER ∈ unregistered_handlers /\
    client_handler (handlers m CLIENT_HANDLER) = true.
Proof.
  intros (m & Hm & _)%initmsgtree_entry. exists m. split; [done|].
  pose proof msgtab_access as Ha. rewrite Forall_lookup in Ha. by apply (Ha i).
Qed.

Lemma command_access_witness :
  exists m, msgtab !! 1%nat = Some m /\ handlers m UNREGISTERED_HANDLER ∈ unregistered_handlers /\
    client_handler (handlers m CLIENT_HANDLER) = true.
Proof. apply (command_access (lit "nick") 1). vm_compute. reflexivity. Defined.

Lemma bool_decide_iff P Q `{!Decision P, !Decision Q} : bool_decide P = bool_decide Q -> P <-> Q.
Proof. intros E. by rewrite <- (bool_decide_eq_true P), E, bool_decide_eq_true. Qed.

(** Entries that only differ in their commands. *)
Definition alias (m n : Message) : bool :=
  bool_decide (tok m = tok n) && bool_decide (parameters m = parameters n) && (flags m =? flags n) &&
  forallb (fun t => String.eqb (handlers m t) (handlers n t))
    [UNREGISTERED_HANDLER; CLIENT_HANDLER; SERVER_HANDLER; OPER_HANDLER; SERVICE_HANDLER].

Definition token_reaches (m : Message) : bool :=
  match msg_tree_parse (tok m) initmsgtree with
  | Some j => match msgtab !! j with Some n => alias m n | None => false end
  | None => false
  end.

Lemma msgtab_reaches :
  forallb (fun '(i, m) =>
    Bool.eqb (bool_decide (msg_tree_parse (cmd m) initmsgtree = Some i)) (bool_decide (95 ∉ cmd m)) &&
    token_reaches m) (imap pair msgtab) = true.
Proof. vm_compute. reflexivity. Qed.

(** A command leads to its own entry, unless it has an underscore, which is
    never found; and a token leads to an entry with that token and the same
    functions, although INFO and CREDITS share one. *)
Theorem command_words i m :
  msgtab !! i = Some m ->
  (msg_tree_parse (cmd m) initmsgtree = Some i <-> 95 ∉ cmd m) /\
  exists j n, msg_tree_parse (tok m) initmsgtree = Some j /\ msgtab !! j = Some n /\ tok n = tok m /\
    parameters n = parameters m /\ flags n = flags m /\ forall t, handlers n t = handlers m t.
Proof.
  intros Hm. pose proof msgtab_reaches as Ha. rewrite forallb_forall in Ha.
  assert (Hin : In (i, m) (imap pair msgtab)).
  { apply list_elem_of_In, list_elem_of_lookup. exists i. by rewrite list_lookup_imap, Hm. }
  specialize (Ha _ Hin). apply andb_true_iff in Ha as [H1 H2]. apply Bool.eqb_prop in H1.
  split; [exact (bool_decide_iff _ _ H1)|]. unfold token_reaches in H2.
  destruct (msg_tree_parse (tok m) initmsgtree) as [j|]; [|done]. destruct (msgtab !! j) as [n|] eqn:En; [|done].
  exists j, n. unfold alias in H2. rewrite !andb_true_iff, !bool_decide_eq_true, Z.eqb_eq, forallb_forall in H2.
  destruct H2 as [[[Ht Hp] Hf] Hh]. do 5 (split; [done|]). intros t. symmetry. apply String.eqb_eq, Hh.
  destruct t; cbn; tauto.
Qed.

Lemma command_words_witness :
  exists j n, msg_tree_parse (lit "F") initmsgtree = Some j /\ msgtab !! j = Some n /\
    handlers n SERVER_HANDLER = "ms_info"%string.
Proof.
  destruct (msgtab !! 60%nat) as [m|] eqn:E; [|discriminate E].
  destruct (command_words 60 m E) as [_ (j & n & Hj & Hn & _ & _ & _ & Hh)].
  injection E as <-. exists j, n. split; [exact Hj|]. split; [exact Hn|]. by rewrite Hh.
Defined.
