(* ===== verification/Parse.v ===== *)
(** * ircd/parse.c: the parser

    A line is parsed in place: the parser walks over the buffer with indices,
    writes terminators into it and collects pointers to the parameters.  The
    buffer is the memory of the connection, so that it goes on behind the
    terminator of the line; reading outside of it, a store behind the parameter
    array and a null command entry are [None].

    A parser ends in an [action]: it returns, or it calls a handler. *)
From S2P Require Import Prelude Chattr NumText IrcdString MsgTab MsgTree.
Open Scope ircd_scope.

(** ** Scanning the buffer *)

(** The string at a pointer. *)
Fixpoint c_string (m : list Z) : list Z :=
  match m with
  | [] => []
  | c :: r => if c =? 0 then [] else c :: c_string r
  end.
Definition string_at (mem : list Z) (p : nat) : list Z := c_string (drop p mem).

(** Over the blanks from [p] on. *)
Fixpoint skip_spaces (fuel : nat) (mem : list Z) (p : nat) : option nat :=
  match fuel with
  | O => None
  | S fuel => c ← mem !! p; if c =? 32 then skip_spaces fuel mem (S p) else Some p
  end.

(** To the next blank or the end. *)
Fixpoint skip_word (fuel : nat) (mem : list Z) (p : nat) : option nat :=
  match fuel with
  | O => None
  | S fuel => c ← mem !! p; if (c =? 32) || (c =? 0) then Some p else skip_word fuel mem (S p)
  end.

(** Overwrites the blanks from [s] on with terminators. *)
Fixpoint clean_blanks (fuel : nat) (mem : list Z) (s : nat) : option (list Z * nat) :=
  match fuel with
  | O => None
  | S fuel =>
      c ← mem !! s;
      if c =? 32 then clean_blanks fuel (<[s := 0]> mem) (S s) else Some (mem, s)
  end.

(** para[++i] = p; [para] holds the pointers from para[1] on, and the array has
    MAXPARA + 2 elements. *)
Definition push_para (para : list nat) (p : nat) : option (list nat) :=
  if (length para <=? MAXPARA)%nat then Some (para ++ [p]) else None.

(** The loop that collects the parameters; [numeric] keeps the colon. *)
Fixpoint para_loop (fuel : nat) (numeric : bool) (paramcount : nat) (mem : list Z) (s : nat)
    (para : list nat) : option (list Z * list nat) :=
  match fuel with
  | O => None
  | S fuel =>
      '(mem, s) ← clean_blanks (S (length mem)) mem s;
      c ← mem !! s;
      if c =? 0 then Some (mem, para)
      else if c =? 58 then
        para ← push_para para (if numeric then s else S s); Some (mem, para)
      else
        para ← push_para para s;
        if (paramcount <=? length para)%nat then Some (mem, para)
        else s ← skip_word (S (length mem)) mem s; para_loop fuel numeric paramcount mem s para
  end.

(** From [i = 0] to the null pointer behind the parameters: the strings
    para[1] .. para[i - 1]. *)
Definition parameters_of (numeric : bool) (paramcount : nat) (mem : list Z) (s : option nat)
  : option (list (list Z)) :=
  '(mem, para) ← (match s with
                  | None => Some (mem, [])
                  | Some s => para_loop (S (length mem)) numeric (Nat.min paramcount MAXPARA) mem s []
                  end);
  if (length para <=? MAXPARA)%nat then Some (map (string_at mem) para) else None.

(** ** The parser's counters *)
Record parser := MkParser {
  is_empt : Z;
  is_unco : Z;
  is_unpf : Z;
  is_wrdi : Z;
  is_num : Z;
  msg_counts : list Z;
  msg_bytes : list Z }.

Definition count_empt (p : parser) : parser :=
  MkParser (u32 (is_empt p + 1)) (is_unco p) (is_unpf p) (is_wrdi p) (is_num p) (msg_counts p) (msg_bytes p).
Definition count_unco (p : parser) : parser :=
  MkParser (is_empt p) (u32 (is_unco p + 1)) (is_unpf p) (is_wrdi p) (is_num p) (msg_counts p) (msg_bytes p).
Definition count_unpf (p : parser) : parser :=
  MkParser (is_empt p) (is_unco p) (u32 (is_unpf p + 1)) (is_wrdi p) (is_num p) (msg_counts p) (msg_bytes p).
Definition count_wrdi (p : parser) : parser :=
  MkParser (is_empt p) (is_unco p) (is_unpf p) (u32 (is_wrdi p + 1)) (is_num p) (msg_counts p) (msg_bytes p).
Definition count_num (p : parser) : parser :=
  MkParser (is_empt p) (is_unco p) (is_unpf p) (is_wrdi p) (u32 (is_num p + 1)) (msg_counts p) (msg_bytes p).
Definition count_bytes (m : nat) (n : Z) (p : parser) : parser :=
  MkParser (is_empt p) (is_unco p) (is_unpf p) (is_wrdi p) (is_num p) (msg_counts p)
    (alter (fun b => u32 (b + n)) m (msg_bytes p)).
Definition count_message (m : nat) (p : parser) : parser :=
  MkParser (is_empt p) (is_unco p) (is_unpf p) (is_wrdi p) (is_num p)
    (alter (fun c => u32 (c + 1)) m (msg_counts p)) (msg_bytes p).

(** strcasecmp() finds no difference. *)
Definition tolower (c : Z) : Z := if (65 <=? c) && (c <=? 90) then c + 32 else c.
Definition same_word (a b : list Z) : bool := bool_decide (map tolower a = map tolower b).

(** The commands that are not refused to a client that is shunned. *)
Definition shun_exempt (cmd : list Z) : bool :=
  existsb (same_word cmd)
    [lit "NICK"; lit "WEBIRC"; lit "WEBIRCEXTRA"; lit "SERVER"; lit "USER"; lit "PASS"; lit "ADMIN";
     lit "PART"; lit "QUIT"; lit "PONG"].

(** ** The parameters of a line *)
Fixpoint drop_blanks (s : list Z) : list Z :=
  match s with
  | [] => []
  | c :: r => if c =? 32 then drop_blanks r else s
  end.

(** The text before the first blank, and the text from there on. *)
Fixpoint span (s : list Z) : list Z * list Z :=
  match s with
  | [] => ([], [])
  | c :: r => if c =? 32 then ([], s) else let (a, b) := span r in (c :: a, b)
  end.

(** The parameters of a line, at most [n] or one: words, and a last parameter
    that goes to the end of the line. *)
Fixpoint args (numeric : bool) (n : nat) (s : list Z) : list (list Z) :=
  match drop_blanks s with
  | [] => []
  | c :: r =>
      if c =? 58 then [if numeric then c :: r else r]
      else
        match n with
        | S (S _ as n) => let (w, s) := span (c :: r) in w :: args numeric n s
        | _ => [c :: r]
        end
  end.

Definition no_blank (s : list Z) : Prop := Forall (fun c => c <> 32) s.

Lemma drop_blanks_spec s :
  exists k, s = replicate k 32 ++ drop_blanks s /\ forall r, drop_blanks s <> 32 :: r.
Proof.
  induction s as [|c s (k & Hk & Hr)]; [by exists 0%nat|]. cbn.
  destruct (Z.eqb_spec c 32) as [->|Hne].
  - exists (S k). split; [cbn; congruence|done].
  - exists 0%nat. split; [done|]. by intros r [= ->].
Qed.

Lemma span_spec s : no_blank (fst (span s)) /\ s = fst (span s) ++ snd (span s) /\
  (snd (span s) = [] \/ exists r, snd (span s) = 32 :: r).
Proof.
  induction s as [|c s (H1 & H2 & H3)]; cbn; [by repeat constructor|].
  destruct (Z.eqb_spec c 32) as [->|Hne]; cbn.
  - split; [constructor|]. split; [done|]. right. by eexists.
  - destruct (span s) as [a b]; cbn in *. split; [by constructor|]. split; [congruence|done].
Qed.

Lemma cstring_app a b : cstring (a ++ b) <-> cstring a /\ cstring b.
Proof. apply Forall_app. Qed.

Lemma c_string_app w r : cstring w -> c_string (w ++ 0 :: r) = w.
Proof.
  induction 1 as [|c w [Hc _] _ IH]; [done|]. cbn. rewrite (proj2 (Z.eqb_neq c 0)) by lia. by rewrite IH.
Qed.

Lemma string_at_app pre w r p : cstring w -> p = length pre -> string_at (pre ++ w ++ 0 :: r) p = w.
Proof. intros Hw ->. unfold string_at. rewrite drop_app_length. by apply c_string_app. Qed.

Lemma lookup_here {A} (pre : list A) c r p : p = length pre -> (pre ++ c :: r) !! p = Some c.
Proof. intros ->. by apply list_lookup_middle. Qed.

Lemma clean_blanks_ok k fuel pre r c :
  c <> 32 -> (k < fuel)%nat ->
  clean_blanks fuel (pre ++ replicate k 32 ++ c :: r) (length pre) =
    Some (pre ++ replicate k 0 ++ c :: r, (length pre + k)%nat).
Proof.
  intros Hc. revert fuel pre. induction k as [|k IH]; intros [|fuel] pre Hf; try lia; cbn [clean_blanks replicate app].
  - rewrite lookup_here by done. cbn [mbind option_bind]. rewrite (proj2 (Z.eqb_neq c 32)) by done.
    by rewrite Nat.add_0_r.
  - rewrite lookup_here by done. cbn [mbind option_bind Z.eqb Pos.eqb].
    replace (<[length pre := 0]> (pre ++ 32 :: replicate k 32 ++ c :: r)) with
      ((pre ++ [0]) ++ replicate k 32 ++ c :: r).
    2: { rewrite <- app_assoc. rewrite insert_app_r_alt by lia. by rewrite Nat.sub_diag. }
    replace (S (length pre)) with (length (pre ++ [0])) by (rewrite length_app; cbn; lia).
    rewrite IH by lia. rewrite <- app_assoc, length_app. cbn [app length]. do 2 f_equal. lia.
Qed.

Lemma skip_word_ok w fuel pre r c :
  no_blank w -> cstring w -> c = 32 \/ c = 0 -> (length w < fuel)%nat ->
  skip_word fuel (pre ++ w ++ c :: r) (length pre) = Some ((length pre + length w)%nat).
Proof.
  intros Hb Hw Hc. revert fuel pre.
  induction w as [|x w IH]; intros [|fuel] pre Hf; cbn [length] in Hf; try lia; cbn [skip_word app length].
  - rewrite lookup_here by done. cbn [mbind option_bind]. rewrite Nat.add_0_r.
    destruct Hc as [->| ->]; done.
  - rewrite lookup_here by done. cbn [mbind option_bind].
    apply Forall_cons in Hb as [Hx Hb]. apply Forall_cons in Hw as [[Hx0 _] Hw].
    rewrite (proj2 (Z.eqb_neq x 32)), (proj2 (Z.eqb_neq x 0)) by lia. cbn [orb].
    change (x :: w ++ c :: r) with ([x] ++ w ++ c :: r). rewrite (app_assoc pre).
    replace (S (length pre)) with (length (pre ++ [x])) by (rewrite length_app; cbn; lia).
    rewrite IH by (done || lia). rewrite length_app. cbn. f_equal. lia.
Qed.

(** The first word, or the end, behind the blanks that were cleaned. *)
Lemma args_unfold numeric n s :
  args numeric n s =
    match drop_blanks s with
    | [] => []
    | c :: r =>
        if c =? 58 then [if numeric then c :: r else r]
        else match n with
             | S (S _ as n) => let (w, s) := span (c :: r) in w :: args numeric n s
             | _ => [c :: r]
             end
    end.
Proof. by destruct n. Qed.

Lemma para_loop_ok fuel numeric pc pre line post para :
  cstring line -> (length line < fuel)%nat -> (pc <= MAXPARA)%nat ->
  (length para = 0 \/ length para < pc)%nat ->
  exists line' ps,
    para_loop fuel numeric pc (pre ++ line ++ 0 :: post) (length pre) para =
      Some (pre ++ line' ++ 0 :: post, para ++ ps) /\
    length line' = length line /\ (length para + length ps <= MAXPARA)%nat /\
    map (string_at (pre ++ line' ++ 0 :: post)) ps = args numeric (pc - length para) line /\
    (forall r, line = 32 :: r -> exists r', line' = 0 :: r').
Proof.
  intros Hs Hf Hpc. revert pre line para Hs Hf.
  induction fuel as [|fuel IH]; intros pre line para Hs Hf Hpara; [lia|].
  destruct (drop_blanks_spec line) as (k & Hk & Hnb). remember (drop_blanks line) as rest eqn:Hrest.
  assert (Hrs : cstring rest) by (rewrite Hk in Hs; by apply cstring_app in Hs as [_ ?]).
  assert (Hpush : (length para <=? MAXPARA)%nat = true) by (apply Nat.leb_le; unfold MAXPARA in *; lia).
  assert (Hlen : (length line = k + length rest)%nat) by (rewrite Hk, length_app, length_replicate; done).
  set (zeros := replicate k 0).
  assert (Hz : forall r, line = 32 :: r -> forall x, exists r', zeros ++ x = 0 :: r').
  { intros r E x. unfold zeros. destruct k as [|k]; [|by eexists].
    cbn in Hk. rewrite Hk in E. by destruct (Hnb r). }
  assert (Hclean : forall c r, c <> 32 -> rest ++ 0 :: post = c :: r ->
    clean_blanks (S (length (pre ++ line ++ 0 :: post))) (pre ++ line ++ 0 :: post) (length pre) =
      Some ((pre ++ zeros) ++ c :: r, length (pre ++ zeros))).
  { intros c r Hc E. rewrite Hk at 2. rewrite <- (app_assoc (replicate k 32)), E.
    rewrite clean_blanks_ok; [|done|rewrite !length_app; cbn; lia].
    rewrite <- app_assoc, length_app. unfold zeros. by rewrite length_replicate. }
  assert (Hall : forall x y : list Z, (pre ++ zeros) ++ x ++ y = pre ++ (zeros ++ x) ++ y)
    by (intros; by rewrite <- !app_assoc).
  cbn [para_loop]. rewrite args_unfold, <- Hrest.
  destruct rest as [|c rest].
  - rewrite (Hclean 0 post) by done. cbn [mbind option_bind]. rewrite lookup_here by done. cbn [mbind option_bind Z.eqb].
    exists zeros, []. rewrite app_nil_r. cbn in *. split; [by rewrite <- app_assoc|].
    split; [unfold zeros; rewrite length_replicate; lia|].
    split; [unfold MAXPARA in *; lia|]. split; [done|]. intros r E. destruct (Hz r E []) as [r' E']. exists r'. by rewrite app_nil_r in E'.
  - assert (Hc32 : c <> 32) by (intros ->; by destruct (Hnb rest)).
    assert (Hc0 : c <> 0) by (apply Forall_cons in Hrs as [[? _] _]; lia).
    rewrite (Hclean c (rest ++ 0 :: post)) by done. cbn [mbind option_bind].
    rewrite lookup_here by done. cbn [mbind option_bind].
    rewrite (proj2 (Z.eqb_neq c 0)) by done. unfold push_para. rewrite Hpush. cbn [mbind option_bind].
    destruct (Z.eqb_spec c 58) as [->|H58].
    + exists (zeros ++ 58 :: rest), [if numeric then length (pre ++ zeros) else S (length (pre ++ zeros))].
      split; [do 2 f_equal; by rewrite <- !app_assoc|].
      split; [rewrite length_app; unfold zeros; rewrite length_replicate; cbn in *; lia|].
      split; [cbn; unfold MAXPARA in *; lia|]. split; [|intros r E; by apply (Hz r)].
      rewrite <- Hall. cbn [map]. f_equal. destruct numeric.
      * by apply (string_at_app (pre ++ zeros) (58 :: rest)).
      * change ((58 :: rest) ++ 0 :: post) with ([58] ++ rest ++ 0 :: post). rewrite (app_assoc (pre ++ zeros)).
        apply string_at_app; [by apply Forall_cons in Hrs as [_ ?]|]. rewrite (length_app (pre ++ zeros)). cbn. lia.
    + rewrite length_app. cbn [length].
      destruct (Nat.leb_spec pc (length para + 1)) as [Hle|Hgt].
      * exists (zeros ++ c :: rest), [length (pre ++ zeros)].
        split; [do 2 f_equal; by rewrite <- !app_assoc|].
        split; [rewrite length_app; unfold zeros; rewrite length_replicate; cbn in *; lia|].
        split; [cbn; unfold MAXPARA in *; lia|]. split; [|intros r E; by apply (Hz r)].
        rewrite <- Hall. cbn [map]. rewrite (string_at_app (pre ++ zeros) (c :: rest)) by done.
        destruct (pc - length para)%nat as [|[|n]] eqn:En; [done|done|lia].
      * destruct (span_spec (c :: rest)) as (Hw & Hsp & Hr). destruct (span (c :: rest)) as [w r] eqn:Esp.
        cbn [fst snd] in *.
        assert (Hcs : cstring w /\ cstring r) by (apply cstring_app; by rewrite <- Hsp). destruct Hcs as [Hcw Hcr].
        assert (Hwlen : (0 < length w)%nat).
        { destruct w; [|cbn; lia]. cbn in Hsp. subst r. destruct Hr as [Hr|[x [= -> _]]]; done. }
        change (c :: rest ++ 0 :: post) with ((c :: rest) ++ 0 :: post). rewrite Hsp. rewrite <- (app_assoc w).
        assert (Hskip : skip_word (S (length ((pre ++ zeros) ++ w ++ r ++ 0 :: post))) ((pre ++ zeros) ++ w ++ r ++ 0 :: post)
            (length (pre ++ zeros)) = Some (length (pre ++ zeros ++ w))).
        { destruct Hr as [->|[x ->]]; cbn [app]; rewrite skip_word_ok; try done; try (by auto);
            try (rewrite !length_app; cbn; lia); by rewrite !length_app, Nat.add_assoc. }
        rewrite Hskip. cbn [mbind option_bind].
        assert (Hlr : (length (c :: rest) = length w + length r)%nat) by (by rewrite Hsp, length_app).
        replace ((pre ++ zeros) ++ w ++ r ++ 0 :: post) with ((pre ++ zeros ++ w) ++ r ++ 0 :: post)
          by by rewrite <- !app_assoc.
        destruct (IH (pre ++ zeros ++ w) r (para ++ [length (pre ++ zeros)]) Hcr ltac:(cbn in *; lia)) as
          (r' & ps & E & Hl & Hps & Hm & Hb).
        { right. rewrite length_app. cbn. lia. }
        rewrite (length_app para) in Hps, Hm. cbn [length] in Hps, Hm.
        exists (zeros ++ w ++ r'), (length (pre ++ zeros) :: ps). rewrite E.
        assert (Hmem : (pre ++ zeros ++ w) ++ r' ++ 0 :: post = pre ++ (zeros ++ w ++ r') ++ 0 :: post)
          by by rewrite <- !app_assoc.
        split; [rewrite <- (app_assoc para); cbn; by rewrite Hmem|].
        split; [rewrite !length_app; unfold zeros; rewrite length_replicate; cbn in *; lia|].
        split; [cbn [length]; lia|]. split; [|intros x Ex; by apply (Hz x)].
        rewrite <- Hmem. cbn [map]. rewrite Hm.
        destruct (pc - length para)%nat as [|[|n]] eqn:En; [lia|lia|].
        replace (pc - (length para + 1))%nat with (S n) by lia. f_equal.
        rewrite (app_assoc pre), <- (app_assoc (pre ++ zeros)).
        destruct Hr as [->|[x ->]].
        -- destruct r'; [|done]. by apply string_at_app.
        -- destruct (Hb x eq_refl) as [r'' ->]. cbn [app]. by apply (string_at_app (pre ++ zeros) w).
Qed.

Lemma parameters_of_ok numeric pc pre line post :
  cstring line ->
  parameters_of numeric pc (pre ++ line ++ 0 :: post) (Some (length pre)) =
    Some (args numeric (Nat.min pc MAXPARA) line).
Proof.
  intros Hl. unfold parameters_of.
  destruct (para_loop_ok (S (length (pre ++ line ++ 0 :: post))) numeric (Nat.min pc MAXPARA) pre line post [])
    as (line' & ps & -> & _ & Hps & Hm & _); [done|rewrite !length_app; lia|lia|by left|].
  cbn [mbind option_bind app length] in *. rewrite (proj2 (Nat.leb_le _ _)) by lia. by rewrite Hm, Nat.sub_0_r.
Qed.

(** A word at a pointer, and the pointer behind it. *)
Lemma skip_spaces_ok k fuel pre r c :
  c <> 32 -> (k < fuel)%nat ->
  skip_spaces fuel (pre ++ replicate k 32 ++ c :: r) (length pre) = Some ((length pre + k)%nat).
Proof.
  intros Hc. revert fuel pre. induction k as [|k IH]; intros [|fuel] pre Hf; try lia; cbn [skip_spaces replicate app].
  - rewrite lookup_here by done. cbn [mbind option_bind]. rewrite (proj2 (Z.eqb_neq c 32)) by done.
    by rewrite Nat.add_0_r.
  - rewrite lookup_here by done. cbn [mbind option_bind Z.eqb Pos.eqb].
    change (32 :: replicate k 32 ++ c :: r) with ([32] ++ replicate k 32 ++ c :: r). rewrite (app_assoc pre).
    replace (S (length pre)) with (length (pre ++ [32])) by (rewrite length_app; cbn; lia).
    rewrite IH by lia. rewrite length_app. cbn. f_equal. lia.
Qed.

(** Over the blanks at a pointer. *)
Lemma skip_blanks_at pre s post fuel :
  cstring s -> (length s < fuel)%nat ->
  exists pre', pre ++ s ++ 0 :: post = pre' ++ drop_blanks s ++ 0 :: post /\
    skip_spaces fuel (pre ++ s ++ 0 :: post) (length pre) = Some (length pre') /\
    (length pre' + length (drop_blanks s) = length pre + length s)%nat.
Proof.
  intros Hs Hf. destruct (drop_blanks_spec s) as (k & Hk & Hnb). remember (drop_blanks s) as r eqn:Er.
  exists (pre ++ replicate k 32).
  assert (Hlen : (length s = k + length r)%nat) by (by rewrite Hk, length_app, length_replicate).
  split; [rewrite Hk at 1; by rewrite <- !app_assoc|].
  split; [|rewrite length_app, length_replicate; lia].
  rewrite Hk. rewrite <- app_assoc. rewrite length_app, length_replicate. destruct r as [|c r]; cbn [app].
  - apply skip_spaces_ok; [done|cbn in *; lia].
  - apply skip_spaces_ok; [|cbn in *; lia]. intros ->. by destruct (Hnb r).
Qed.

Lemma drop_blanks_cstring s : cstring s -> cstring (drop_blanks s).
Proof. destruct (drop_blanks_spec s) as (k & Hk & _). rewrite Hk at 1. by intros [_ ?]%cstring_app. Qed.

Lemma drop_blanks_head s c r : drop_blanks s = c :: r -> c <> 32.
Proof. destruct (drop_blanks_spec s) as (k & _ & Hn). intros E ->. by destruct (Hn r). Qed.

Lemma span_cstring s : cstring s -> cstring (fst (span s)) /\ cstring (snd (span s)).
Proof. destruct (span_spec s) as (_ & E & _). rewrite E at 1. apply cstring_app. Qed.

(** To the end of the word at a pointer. *)
Lemma skip_word_at pre s post fuel :
  cstring s -> (length s < fuel)%nat ->
  skip_word fuel (pre ++ s ++ 0 :: post) (length pre) = Some ((length pre + length (fst (span s)))%nat).
Proof.
  intros Hs Hf. destruct (span_spec s) as (Hw & E & Hr). destruct (span_cstring s Hs) as [Hcw _].
  destruct (span s) as [w r]; cbn [fst snd] in *. subst s. rewrite length_app in Hf. rewrite <- app_assoc.
  destruct Hr as [->|[x ->]]; cbn [app]; apply skip_word_ok; auto; lia.
Qed.

(** A word is cut out of the buffer with a terminator. *)
Lemma cut_word pre s post :
  cstring s ->
  let (w, r) := span s in
  exists c0 rest,
    pre ++ s ++ 0 :: post = (pre ++ w) ++ c0 :: rest /\
    match r with
    | [] => c0 = 0
    | _ :: r' => c0 = 32 /\ <[(length pre + length w)%nat := 0]> (pre ++ s ++ 0 :: post) =
        (pre ++ w ++ [0]) ++ r' ++ 0 :: post
    end.
Proof.
  intros Hs. destruct (span_spec s) as (_ & E & Hr). destruct (span s) as [w r]; cbn [fst snd] in *. subst s.
  destruct Hr as [->|[r' ->]].
  - exists 0, post. rewrite app_nil_r. by rewrite <- !app_assoc.
  - exists 32, (r' ++ 0 :: post). split; [by rewrite <- !app_assoc|]. split; [done|].
    rewrite <- !app_assoc. rewrite (app_assoc pre). cbn [app].
    rewrite insert_app_r_alt by (rewrite length_app; lia). rewrite length_app, Nat.sub_diag. cbn.
    by rewrite <- app_assoc.
Qed.

Section parse.
(** Clients, the state of the server, and the lines of the configuration that
    make a command an alias of a message to a service. *)
Context {C W Svc : Type} `{EqDecision C}.
Variable cli_name : W -> C -> list Z.
Variable cli_handler : W -> C -> HandlerType.
Variable cli_from : W -> C -> C.
Variables IsDead IsRegistered IsUser IsOper : W -> C -> bool.
Variable expire_shuns : W -> W.
Variable shun_lookup : W -> C -> W * bool.
Variable find_svc : W -> list Z -> option Svc.
(** feature_bool(FEAT_IDLE_FROM_MSG). *)
Variable IDLE_FROM_MSG : bool.
(** cli_since(cptr) += n; cli_user(cptr)->last = CurrentTime; the reply
    ERR_UNKNOWNCOMMAND. *)
Variable add_since : W -> C -> Z -> W.
Variable set_last : W -> C -> W.
Variable unknown_command : W -> C -> list Z -> W.
Variables FindClient FindNServer findNUser : W -> list Z -> option C.
Variable protocol_violation : W -> C -> W.
(** The KILL for an unknown numeric nick. *)
Variable kill_unknown : W -> C -> list Z -> W.

(** What a parser does in the end. *)
Inductive action :=
  | Return (r : Z)
  | Handle (h : handler) (from : C) (parv : list (list Z))
  | Service (svc : Svc) (parv : list (list Z))
  | Numeric (n : Z) (by_numeric : bool) (from : C) (parv : list (list Z)).

(** [mem] from [buffer] on, which holds the line and its terminator; [bufend] is
    the length of the line that was received. *)
Definition parse_client (cptr : C) (mem : list Z) (bufend : Z) (tree : MessageTree) (p : parser) (w : W)
  : option (action * parser * W) :=
  if IsDead w cptr then Some (Return 0, p, w)
  else
    let fuel := S (length mem) in
    let para0 := cli_name w cptr in
    ch ← skip_spaces fuel mem 0;
    c ← mem !! ch;
    ch ← (if c =? 58 then ch ← skip_word fuel mem (S ch); skip_spaces fuel mem ch else Some ch);
    c ← mem !! ch;
    if c =? 0 then Some (Return (-1), count_empt p, w)
    else
      e ← skip_word fuel mem ch;
      c ← mem !! e;
      let s := if c =? 32 then Some (S e) else None in
      let mem := if c =? 32 then <[e := 0]> mem else mem in
      let cmd := string_at mem ch in
      let w := expire_shuns w in
      let '(w, shunned) := (if negb (shun_exempt cmd) && IsRegistered w cptr then shun_lookup w cptr
                            else (w, false)) in
      if (shunned : bool) then Some (Return 0, p, w)
      else
        let svc := find_svc w cmd in
        match msg_tree_parse (match svc with Some _ => lit "PRIVMSG" | None => cmd end) tree with
        | None =>
            c ← mem !! 0%nat;
            let w := if negb (c =? 0) && IsUser w cptr then unknown_command w cptr cmd else w in
            Some (Return (-1), count_unco p, w)
        | Some m =>
            mptr ← msgtab !! m;
            let i := bufend - Z.of_nat (default ch s) in
            let p := count_bytes m i p in
            let w := if has_bits (flags mptr) MFLG_SLOW
                     then add_since w cptr (if IsOper w cptr then 1 else 2 + Z.quot i 120) else w in
            ps ← parameters_of false (parameters mptr) mem s;
            let p := count_message m p in
            let h := handlers mptr (cli_handler w cptr) in
            let w := if negb IDLE_FROM_MSG && IsUser w cptr &&
                        negb (String.eqb h "m_ping") && negb (String.eqb h "m_ignore")
                     then set_last w cptr else w in
            match svc with
            | Some svc => Some (Service svc (para0 :: ps), p, w)
            | None => Some (Handle h cptr (para0 :: ps), p, w)
            end
        end.

(** ** parse_server() *)

(** At most five characters of a numeric prefix. *)
Fixpoint numeric_prefix (n : nat) (mem : list Z) (ch : nat) : option (list Z) :=
  match n with
  | O => Some []
  | S n =>
      c ← mem !! ch;
      if (c =? 0) || (c =? 32) then Some []
      else r ← numeric_prefix n mem (S ch); Some (c :: r)
  end.

(** What the prefix gives: the sender, para[0] and where the command may begin;
    or the end of the message. *)
Inductive sender :=
  | Ignored (r : Z)
  | Sender (from : C) (para0 : list Z) (mem : list Z) (ch : nat).

(** A prefix with a colon. *)
Definition name_prefix (cptr : C) (mem : list Z) (p : parser) (w : W) : option (sender * parser * W) :=
  e ← skip_word (S (length mem)) mem 0;
  c ← mem !! e;
  if negb (c =? 32) then Some (Ignored (-1), p, w)
  else
    let mem := <[e := 0]> mem in
    let name := string_at mem 1 in
    match FindClient w name with
    | None =>
        let p := count_unpf p in
        ch ← skip_spaces (S (length mem)) mem (S e);
        c1 ← mem !! S ch;
        if c1 =? 81 then Some (Sender cptr (cli_name w cptr) mem ch, p, w)
        else Some (Ignored 0, p, w)
    | Some from =>
        if decide (cli_from w from = cptr) then Some (Sender from name mem (S e), p, w)
        else Some (Ignored 0, count_wrdi p, w)
    end.

(** A numeric prefix. *)
Definition number_prefix (cptr : C) (mem : list Z) (p : parser) (w : W) : option (sender * parser * W) :=
  prefix ← numeric_prefix 5 mem 0;
  '(from, w) ←
    (match prefix with
     | [] => Some (Some cptr, protocol_violation w cptr)
     | _ =>
         c1 ← mem !! 1%nat;
         if c1 =? 32 then Some (FindNServer w prefix, w)
         else
           c2 ← mem !! 2%nat;
           if c2 =? 32 then Some (FindNServer w prefix, w) else Some (findNUser w prefix, w)
     end);
  ch ← skip_word (S (length mem)) mem 1;
  match from with
  | None =>
      let p := count_unpf p in
      ch ← skip_spaces (S (length mem)) mem ch;
      c ← mem !! ch;
      c1 ← mem !! S ch;
      let w := if (c =? 78) && ((c1 =? 32) || (c1 =? 73)) then
                 match FindNServer w prefix with
                 | Some server => if decide (cli_from w server = cptr) then kill_unknown w cptr prefix else w
                 | None => w
                 end
               else w in
      let take := Some (if decide (cli_from w cptr = cptr)
                        then (Sender cptr (cli_name w cptr) mem ch, p, w) else (Ignored 0, count_wrdi p, w)) in
      if (c1 =? 81) || (c =? 68) && (c1 =? 32) then take
      else if c =? 75 then
        c2 ← mem !! S (S ch);
        if c2 =? 76 then take else Some (Ignored 0, p, w)
      else Some (Ignored 0, p, w)
  | Some from =>
      if decide (cli_from w from = cptr) then Some (Sender from (cli_name w from) mem ch, p, w)
      else Some (Ignored 0, count_wrdi p, w)
  end.

Definition digit (c : Z) : Z := schar c - 48.

(** The part of parse_server() behind the prefix. *)
Definition server_rest (cptr : C) (bufend : Z) (tree : MessageTree) (by_numeric : bool) (from : C)
    (para0 : list Z) (mem : list Z) (ch : nat) (p : parser) (w : W) : option (action * parser * W) :=
  ch ← skip_spaces (S (length mem)) mem ch;
  c ← mem !! ch;
  if c =? 0 then Some (Return (-1), count_empt p, w)
  else
    e ← skip_word (S (length mem)) mem ch;
    ce ← mem !! e;
    let len := if ce =? 32 then (e - ch)%nat else O in
    if (len =? 3)%nat && IsDigit c then
      d1 ← mem !! S ch;
      d2 ← mem !! S (S ch);
      let numeric := digit c * 100 + digit d1 * 10 + digit d2 in
      let p := count_num p in
      ps ← parameters_of (negb (numeric =? 0)) 2 mem (Some e);
      if numeric =? 0 then None
      else Some (Numeric numeric by_numeric from (para0 :: ps), p, w)
    else
      let s := if ce =? 32 then Some (S e) else None in
      let mem := if ce =? 32 then <[e := 0]> mem else mem in
      match msg_tree_parse (string_at mem ch) tree with
      | None => Some (Return (-1), count_unco p, w)
      | Some m =>
          mptr ← msgtab !! m;
          let p := count_bytes m (bufend - Z.of_nat (default ch s)) p in
          ps ← parameters_of false (parameters mptr) mem s;
          Some (Handle (handlers mptr (cli_handler w cptr)) from (para0 :: ps), count_message m p, w)
      end.

(** The line is first copied to buffbackup, an array of BUFSIZE bytes. *)
Definition parse_server (cptr : C) (mem : list Z) (bufend : Z) (tree : MessageTree) (p : parser) (w : W)
  : option (action * parser * W) :=
  _ ← ircd_strncpy (replicate BUFSIZE 0) (string_at mem 0) BUFSIZE;
  if IsDead w cptr then Some (Return 0, p, w)
  else
    c0 ← mem !! 0%nat;
    '(o, p, w) ← (if c0 =? 58 then name_prefix cptr mem p w else number_prefix cptr mem p w);
    match o with
    | Ignored r => Some (Return r, p, w)
    | Sender from para0 mem ch => server_rest cptr bufend tree (negb (c0 =? 58)) from para0 mem ch p w
    end.

(** ** The message of a client *)

(** Behind the blanks and the prefix of a client. *)
Definition client_start (line : list Z) : list Z :=
  match drop_blanks line with
  | c :: r => if c =? 58 then drop_blanks (snd (span r)) else c :: r
  | [] => []
  end.

Definition lookup_command (s : list Z) : option nat :=
  if forallb IsAlpha s then last_entry (named s) 0 msgtab else None.

(** What the bytes of a message are counted with: the text behind the blank that
    ends the command, or the command when there is none. *)
Definition message_size (cmd r : list Z) : Z :=
  match r with [] => Z.of_nat (length cmd) | _ :: r => Z.of_nat (length r) end.

(** The entry and the rest of the work for a command that was found. *)
Definition client_action (cptr : C) (para0 cmd r : list Z) (extra : Z) (svc : option Svc) (m : nat)
    (mptr : Message) (p : parser) (w : W) : action * parser * W :=
  let i := message_size cmd r + extra in
  let p := count_message m (count_bytes m i p) in
  let w := if has_bits (flags mptr) MFLG_SLOW
           then add_since w cptr (if IsOper w cptr then 1 else 2 + Z.quot i 120) else w in
  let h := handlers mptr (cli_handler w cptr) in
  let w := if negb IDLE_FROM_MSG && IsUser w cptr &&
              negb (String.eqb h "m_ping") && negb (String.eqb h "m_ignore")
           then set_last w cptr else w in
  let parv := para0 :: args false (Nat.min (parameters mptr) MAXPARA) r in
  (match svc with Some svc => Service svc parv | None => Handle h cptr parv end, p, w).

(** The message of a line, without the buffer: [extra] bytes were received behind
    its terminator. *)
Definition client_message (cptr : C) (line : list Z) (extra : Z) (p : parser) (w : W) : action * parser * W :=
  if IsDead w cptr then (Return 0, p, w)
  else
    match client_start line with
    | [] => (Return (-1), count_empt p, w)
    | start =>
        let (cmd, r) := span start in
        let para0 := cli_name w cptr in
        let w := expire_shuns w in
        let '(w, shunned) := (if negb (shun_exempt cmd) && IsRegistered w cptr then shun_lookup w cptr
                              else (w, false)) in
        if (shunned : bool) then (Return 0, p, w)
        else
          let svc := find_svc w cmd in
          match lookup_command (match svc with Some _ => lit "PRIVMSG" | None => cmd end) with
          | None => (Return (-1), count_unco p, if IsUser w cptr then unknown_command w cptr cmd else w)
          | Some m =>
              match msgtab !! m with
              | Some mptr => client_action cptr para0 cmd r extra svc m mptr p w
              | None => (Return 0, p, w)
              end
          end
    end.

(** The scan for the beginning of the command. *)
Lemma client_start_at line post fuel :
  cstring line -> fuel = S (length (line ++ 0 :: post)) ->
  exists ch0 c0, skip_spaces fuel (line ++ 0 :: post) 0 = Some ch0 /\
    (line ++ 0 :: post) !! ch0 = Some c0 /\
    exists pre, (if c0 =? 58 then ch ← skip_word fuel (line ++ 0 :: post) (S ch0);
                                  skip_spaces fuel (line ++ 0 :: post) ch
                 else Some ch0) = Some (length pre) /\
      line ++ 0 :: post = pre ++ client_start line ++ 0 :: post.
Proof.
  intros Hl ->. set (fuel := S (length (line ++ 0 :: post))).
  assert (Hf : (length line < fuel)%nat) by (unfold fuel; rewrite length_app; cbn; lia).
  destruct (skip_blanks_at [] line post fuel Hl Hf) as (pre & E & Hs & Hlen). cbn [app length] in *.
  pose proof (drop_blanks_cstring line Hl) as Hd. unfold client_start.
  destruct (drop_blanks line) as [|c r] eqn:Ed; exists (length pre); [exists 0|exists c]; (split; [done|]);
    rewrite E; (split; [by apply lookup_here|]).
  - by exists pre.
  - destruct (Z.eqb_spec c 58) as [->|Hne]; [|by exists pre].
    apply Forall_cons in Hd as [_ Hd]. destruct (span_spec r) as (_ & Er & _).
    pose proof (span_cstring r Hd) as [_ Hr2]. cbn [length] in Hlen.
    assert (Hl2 : (length (snd (span r)) < fuel)%nat).
    { assert (length r = length (fst (span r)) + length (snd (span r)))%nat by (rewrite Er at 1; apply length_app). lia. }
    change ((58 :: r) ++ 0 :: post) with ([58] ++ r ++ 0 :: post). rewrite (app_assoc pre).
    replace (S (length pre)) with (length (pre ++ [58])) by (rewrite length_app; cbn; lia).
    rewrite skip_word_at by (done || lia). cbn [mbind option_bind].
    replace ((pre ++ [58]) ++ r ++ 0 :: post) with ((pre ++ [58] ++ fst (span r)) ++ snd (span r) ++ 0 :: post)
      by (rewrite Er at 3; by rewrite <- !app_assoc).
    replace (length (pre ++ [58%Z]) + length (fst (span r)))%nat with (length (pre ++ [58] ++ fst (span r)))
      by (rewrite !length_app; lia).
    destruct (skip_blanks_at (pre ++ [58] ++ fst (span r)) (snd (span r)) post fuel Hr2 Hl2) as (pre2 & E2 & Hs2 & _).
    by exists pre2.
Qed.

Lemma client_start_cstring line : cstring line -> cstring (client_start line).
Proof.
  intros Hl%drop_blanks_cstring. unfold client_start. destruct (drop_blanks line) as [|c r]; [done|].
  destruct (c =? 58); [|done]. apply Forall_cons in Hl as [_ Hl]. by apply drop_blanks_cstring, span_cstring.
Qed.

Lemma client_start_blank line r : client_start line <> 32 :: r.
Proof.
  unfold client_start. destruct (drop_blanks line) as [|c x] eqn:E; [done|]. destruct (c =? 58).
  - by intros ?%drop_blanks_head.
  - intros [= -> ->]. by apply drop_blanks_head in E.
Qed.

(** What a cut at the end of the command leaves in the buffer. *)
Lemma command_cut pre s post :
  cstring s ->
  let (w, r) := span s in
  exists c0, (pre ++ s ++ 0 :: post) !! (length pre + length w)%nat = Some c0 /\
    let mem := if c0 =? 32 then <[(length pre + length w)%nat := 0]> (pre ++ s ++ 0 :: post)
               else pre ++ s ++ 0 :: post in
    string_at mem (length pre) = w /\
    (forall numeric pc, parameters_of numeric pc mem (if c0 =? 32 then Some (S (length pre + length w)) else None) =
       Some (args numeric (Nat.min pc MAXPARA) r)) /\
    match r with [] => c0 = 0 | _ => c0 = 32 end.
Proof.
  intros Hs. destruct (span_spec s) as (_ & Es & Hr). pose proof (span_cstring s Hs) as [Hw Hcr].
  pose proof (cut_word pre s post Hs) as Hcut. destruct (span s) as [w r]; cbn [fst snd] in *.
  destruct Hcut as (c0 & rest & E & Hc). exists c0.
  split; [rewrite E; apply lookup_here; by rewrite length_app|].
  destruct r as [|x r]; [subst c0|destruct Hc as [-> Hm]]; cbn [Z.eqb Pos.eqb].
  - rewrite app_nil_r in Es. subst w. split; [by apply string_at_app|]. split; [|done].
    intros numeric pc. unfold parameters_of. cbn. by destruct (Nat.min pc MAXPARA).
  - destruct Hr as [Hr|[r' Hr]]; [done|]. injection Hr as -> <-. rewrite Hm. apply Forall_cons in Hcr as [_ Hcr].
    split; [rewrite <- !app_assoc; by apply string_at_app|]. split; [|done]. intros numeric pc.
    replace (S (length pre + length w)) with (length (pre ++ w ++ [0])) by (rewrite !length_app; cbn; lia).
    rewrite parameters_of_ok by done. by destruct (Nat.min pc MAXPARA).
Qed.

Lemma parse_client_spec cptr line post extra p w :
  cstring line ->
  parse_client cptr (line ++ 0 :: post) (Z.of_nat (length line) + extra) initmsgtree p w =
    Some (client_message cptr line extra p w).
Proof.
  intros Hl. unfold parse_client, client_message. destruct (IsDead w cptr); [done|]. cbv zeta.
  destruct (client_start_at line post _ Hl eq_refl) as (ch0 & c0 & E1 & E2 & pre & E & Em).
  pose proof (client_start_cstring line Hl) as Hs. pose proof (client_start_blank line) as Hb.
  assert (Hlen : (length line = length pre + length (client_start line))%nat).
  { apply (f_equal length) in Em. rewrite !length_app in Em. cbn in Em. lia. }
  assert (H0 : forall c s, client_start line = c :: s -> exists x r, line ++ 0 :: post = x :: r /\ x <> 0).
  { intros c s Ec. destruct line as [|x line]; [rewrite Ec in Hlen; cbn in Hlen; lia|].
    exists x, (line ++ 0 :: post). split; [done|]. apply Forall_cons in Hl as [[? _] _]. lia. }
  rewrite E1. cbn [mbind option_bind]. rewrite E2. cbn [mbind option_bind]. rewrite E. cbn [mbind option_bind].
  clear E E1 E2 ch0 c0.
  destruct (client_start line) as [|c s] eqn:Es.
  - rewrite Em at 1. cbn [app]. rewrite lookup_here by done. done.
  - assert (Hc0 : c <> 0) by (apply Forall_cons in Hs as [[? _] _]; lia).
    destruct (H0 c s eq_refl) as (x & rx & Ex & Hx). clear H0.
    replace ((line ++ 0 :: post) !! length pre) with (Some c)
      by (rewrite Em; cbn [app]; by rewrite lookup_here).
    cbn [mbind option_bind]. rewrite (proj2 (Z.eqb_neq c 0)) by done.
    assert (Hskip : skip_word (S (length (line ++ 0 :: post))) (line ++ 0 :: post) (length pre) =
        Some ((length pre + length (fst (span (c :: s))))%nat)).
    { rewrite Em. apply skip_word_at; [done|]. rewrite !length_app. cbn. lia. }
    rewrite Hskip. cbn [mbind option_bind].
    pose proof (command_cut pre (c :: s) post Hs) as Hcut. rewrite <- Em in Hcut.
    assert (Hw : (0 < length (fst (span (c :: s))))%nat).
    { cbn. rewrite (proj2 (Z.eqb_neq c 32)) by (intros ->; by destruct (Hb s)). destruct (span s). cbn. lia. }
    assert (Hsz : message_size (fst (span (c :: s))) (snd (span (c :: s))) + extra =
        Z.of_nat (length line) + extra - Z.of_nat (default (length pre)
          (if match snd (span (c :: s)) with [] => false | _ => true end
           then Some (S (length pre + length (fst (span (c :: s))))) else None))).
    { destruct (span_spec (c :: s)) as (_ & Ecs & _).
      assert (length (c :: s) = length (fst (span (c :: s))) + length (snd (span (c :: s))))%nat
        by (rewrite <- length_app, <- Ecs; done).
      unfold message_size. remember (span (c :: s)) as sp. destruct (snd sp); simpl in *; lia. }
    destruct (span (c :: s)) as [cmd r] eqn:Esp. cbn [fst snd] in *.
    destruct Hcut as (ce & -> & Hstr & Hpar & Hce). cbn [mbind option_bind].
    assert (Hce32 : (ce =? 32) = match r with [] => false | _ => true end) by (destruct r; by subst ce).
    set (mem := if ce =? 32 then _ else _) in *.
    assert (Hmem0 : mem !! 0%nat = Some x).
    { unfold mem. rewrite Ex. destruct (ce =? 32); [|done]. by rewrite list_lookup_insert_ne by lia. }
    rewrite Hstr.
    destruct (if negb (shun_exempt cmd) && IsRegistered (expire_shuns w) cptr
              then shun_lookup (expire_shuns w) cptr else (expire_shuns w, false)) as [w1 [|]]; [done|].
    rewrite initmsgtree_lookup. fold (lookup_command (match find_svc w1 cmd with Some _ => lit "PRIVMSG" | None => cmd end)).
    destruct (lookup_command _) as [m|] eqn:Em'.
    + destruct (initmsgtree_entry _ m ltac:(rewrite initmsgtree_lookup; exact Em')) as (mptr & Hm & _).
      rewrite Hm. cbn [mbind option_bind]. rewrite Hpar. cbn [mbind option_bind].
      rewrite Hce32. rewrite <- Hsz. unfold client_action. by destruct (find_svc w1 cmd).
    + rewrite Hmem0. cbn [mbind option_bind]. by rewrite (proj2 (Z.eqb_neq x 0)) by done.
Qed.

(** C1: Parse_client() works in place on the buffer as [client_message] does on the
    text of the line, for every line and whatever follows it in the buffer: it
    skips blanks and a prefix, finds the command as a linear search of the table
    for the last entry with that name or token would, and hands over the
    parameters that [args] cuts out.  It never leaves the buffer or the
    parameter array. *)
Theorem parse_client_correct cptr line post extra p w :
  cstring line ->
  parse_client cptr (line ++ 0 :: post) (Z.of_nat (length line) + extra) initmsgtree p w =
    Some (client_message cptr line extra p w).
Proof. apply parse_client_spec. Qed.

(** ** Messages of servers *)

(** The client that a prefix names. *)
Definition resolve (w : W) (prefix : list Z) : option C :=
  match prefix with
  | c :: name =>
      if c =? 58 then FindClient w name
      else if (length prefix <=? 2)%nat then FindNServer w prefix else findNUser w (take 5 prefix)
  | [] => None
  end.

Definition sender_name (w : W) (prefix : list Z) (from : C) : list Z :=
  match prefix with
  | c :: name => if c =? 58 then name else cli_name w from
  | [] => []
  end.

Definition numeric_of (cmd : list Z) : Z := digit (ch cmd 0) * 100 + digit (ch cmd 1) * 10 + digit (ch cmd 2).

(** What parse_server() does with the text behind the prefix. *)
Definition server_message (cptr from : C) (para0 : list Z) (by_numeric : bool) (text : list Z) (extra : Z)
    (p : parser) (w : W) : option (action * parser * W) :=
  match drop_blanks text with
  | [] => Some (Return (-1), count_empt p, w)
  | start =>
      let (cmd, r) := span start in
      if (length cmd =? 3)%nat && negb (bool_decide (r = [])) && IsDigit (hd0 cmd) then
        if numeric_of cmd =? 0 then None
        else Some (Numeric (numeric_of cmd) by_numeric from (para0 :: args true 2 r), count_num p, w)
      else
        match lookup_command cmd with
        | None => Some (Return (-1), count_unco p, w)
        | Some m =>
            mptr ← msgtab !! m;
            Some (Handle (handlers mptr (cli_handler w cptr)) from
                    (para0 :: args false (Nat.min (parameters mptr) MAXPARA) r),
                  count_message m (count_bytes m (message_size cmd r + extra) p), w)
        end
  end.


Lemma server_rest_ok cptr from para0 by_numeric pre text post extra p w :
  cstring text ->
  server_rest cptr (Z.of_nat (length pre + length text) + extra) initmsgtree by_numeric from para0
    (pre ++ text ++ 0 :: post) (length pre) p w =
  server_message cptr from para0 by_numeric text extra p w.
Proof.
  intros Ht. unfold server_rest, server_message.
  destruct (skip_blanks_at pre text post (S (length (pre ++ text ++ 0 :: post))) Ht
    ltac:(rewrite !length_app; lia)) as (pre' & Em & -> & Hlen).
  cbn [mbind option_bind]. rewrite Em. pose proof (drop_blanks_cstring text Ht) as Hs.
  pose proof (drop_blanks_head text) as Hb. clear Em.
  replace (length pre + length text)%nat with (length pre' + length (drop_blanks text))%nat by lia. clear Hlen.
  destruct (drop_blanks text) as [|c s] eqn:Es; [cbn [app]; by rewrite (lookup_here pre' 0 post _ eq_refl)|].
  assert (Hc0 : c <> 0) by (apply Forall_cons in Hs as [[? _] _]; lia).
  replace ((pre' ++ (c :: s) ++ 0 :: post) !! length pre') with (Some c) by (cbn [app]; by rewrite lookup_here).
  cbn [mbind option_bind]. rewrite (proj2 (Z.eqb_neq c 0)) by done.
  rewrite skip_word_at by (done || (rewrite !length_app; cbn; lia)). cbn [mbind option_bind].
  pose proof (command_cut pre' (c :: s) post Hs) as Hcut.
  destruct (span_spec (c :: s)) as (_ & Ecs & Hr). pose proof (span_cstring (c :: s) Hs) as [_ Hcr].
  assert (Hhd : exists w', fst (span (c :: s)) = c :: w').
  { cbn. rewrite (proj2 (Z.eqb_neq c 32)) by by apply (Hb c s). destruct (span s). by eexists. }
  destruct (span (c :: s)) as [cmd r] eqn:Esp. cbn [fst snd] in *. destruct Hhd as [cmd' Hcmd].
  assert (Hsz : (length (c :: s) = length cmd + length r)%nat) by by rewrite <- length_app, <- Ecs.
  destruct Hcut as (ce & -> & Hstr & Hpar & Hce). cbn [mbind option_bind].
  assert (Hce32 : (ce =? 32) = negb (bool_decide (r = []))) by (destruct r; by subst ce).
  assert (Hhd0 : hd0 cmd = c) by by rewrite Hcmd. rewrite Hhd0.
  assert (Hlen3 : ((if (ce =? 32)%Z then (length pre' + length cmd - length pre')%nat else 0%nat) =? 3)%nat && IsDigit c =
    (length cmd =? 3)%nat && negb (bool_decide (r = [])) && IsDigit c).
  { rewrite Hce32. replace (length pre' + length cmd - length pre')%nat with (length cmd) by lia.
    destruct (negb _); cbn; [by rewrite andb_true_r|by rewrite andb_false_r]. }
  rewrite Hlen3. destruct ((length cmd =? 3)%nat && negb (bool_decide (r = [])) && IsDigit c) eqn:Enum.
  - apply andb_true_iff in Enum as [Enum _]. apply andb_true_iff in Enum as [El Er].
    apply Nat.eqb_eq in El. destruct cmd as [|x0 [|x1 [|x2 [|]]]]; try done. injection Hcmd as ->.
    assert (Hm : pre' ++ (c :: s) ++ 0 :: post = (pre' ++ [c; x1; x2]) ++ r ++ 0 :: post)
      by (rewrite Ecs; by rewrite <- !app_assoc).
    assert (H1 : (pre' ++ (c :: s) ++ 0 :: post) !! S (length pre') = Some x1).
    { rewrite Ecs. cbn [app]. rewrite lookup_app_r by lia. replace (S (length pre') - length pre')%nat with 1%nat by lia. done. }
    assert (H2 : (pre' ++ (c :: s) ++ 0 :: post) !! S (S (length pre')) = Some x2).
    { rewrite Ecs. cbn [app]. rewrite lookup_app_r by lia. replace (S (S (length pre')) - length pre')%nat with 2%nat by lia. done. }
    rewrite H1, H2. cbn [mbind option_bind]. rewrite Hm.
    replace (length pre' + length [c; x1; x2])%nat with (length (pre' ++ [c; x1; x2])) by (rewrite length_app; done).
    rewrite parameters_of_ok by done. cbn [mbind option_bind].
    change (digit c * 100 + digit x1 * 10 + digit x2) with (numeric_of [c; x1; x2]).
    by destruct (numeric_of [c; x1; x2] =? 0).
  - rewrite Hstr, initmsgtree_lookup. fold (lookup_command cmd).
    destruct (lookup_command cmd) as [m|] eqn:Elk; [|done].
    destruct (msgtab !! m) as [mptr|]; [|done]. cbn [mbind option_bind]. rewrite Hpar. cbn [mbind option_bind].
    repeat f_equal. unfold message_size. destruct r as [|x r]; subst ce; cbn [Z.eqb Pos.eqb]; simpl in *; lia.
Qed.

Lemma numeric_prefix_ok n w pre r c :
  no_blank w -> cstring w -> c = 32 \/ c = 0 ->
  numeric_prefix n (pre ++ w ++ c :: r) (length pre) = Some (take n w).
Proof.
  intros Hb Hw Hc. revert n pre. induction w as [|x w IH]; intros [|n] pre; cbn [numeric_prefix app take]; try done.
  - rewrite lookup_here by done. cbn [mbind option_bind]. by destruct Hc as [->| ->].
  - rewrite lookup_here by done. cbn [mbind option_bind].
    apply Forall_cons in Hb as [Hx Hb]. apply Forall_cons in Hw as [[Hx0 _] Hw].
    rewrite (proj2 (Z.eqb_neq x 32)), (proj2 (Z.eqb_neq x 0)) by lia. cbn [orb].
    change (x :: w ++ c :: r) with ([x] ++ w ++ c :: r). rewrite (app_assoc pre).
    replace (S (length pre)) with (length (pre ++ [x])) by (rewrite length_app; cbn; lia).
    by rewrite IH.
Qed.

(** The character behind a position inside a line whose first word is [w]. *)
Lemma word_char w r i c :
  no_blank w -> (w ++ 32 :: r) !! i = Some c -> (i <= length w)%nat -> c = 32 <-> i = length w.
Proof.
  intros Hb Hi Hle. destruct (decide (i = length w)) as [->|Hne].
  - rewrite lookup_here in Hi by done. injection Hi as <-. done.
  - rewrite lookup_app_l in Hi by lia. unfold no_blank in Hb. rewrite Forall_lookup in Hb.
    specialize (Hb i c Hi). split; [done|lia].
Qed.

Lemma span_word w r : no_blank w -> span (w ++ 32 :: r) = (w, 32 :: r).
Proof.
  induction 1 as [|c w Hc _ IH]; [done|]. cbn. rewrite (proj2 (Z.eqb_neq c 32)) by done. by rewrite IH.
Qed.

Lemma skip_word_prefix fuel pre w r c :
  no_blank w -> cstring w -> (length w < fuel)%nat ->
  skip_word fuel ((pre ++ w) ++ 32 :: c :: r) (length pre) = Some (length (pre ++ w)).
Proof. intros Hb Hw Hf. rewrite <- app_assoc, skip_word_ok by auto. by rewrite length_app. Qed.

(** A known sender is accepted when the message comes from its direction. *)
Lemma prefix_ok cptr prefix rest from p w :
  cstring prefix -> no_blank prefix -> resolve w prefix = Some from -> rest <> [] ->
  (if hd0 prefix =? 58 then name_prefix cptr (prefix ++ 32 :: rest) p w
   else number_prefix cptr (prefix ++ 32 :: rest) p w) =
  Some (if decide (cli_from w from = cptr)
        then let mem := if hd0 prefix =? 58 then (prefix ++ [0]) ++ rest else prefix ++ 32 :: rest in
             (Sender from (sender_name w prefix from) mem
                (if hd0 prefix =? 58 then S (length prefix) else length prefix), p, w)
        else (Ignored 0, count_wrdi p, w)).
Proof.
  intros Hc Hb Hres Hrest. destruct rest as [|x rest]; [done|]. clear Hrest.
  destruct prefix as [|c name]; [done|]. cbn [hd0]. cbn [resolve] in Hres.
  pose proof Hc as Hc'. pose proof Hb as Hb'.
  apply Forall_cons in Hc' as [Hc1 Hcn]. apply Forall_cons in Hb' as [Hb1 Hbn].
  destruct (Z.eqb_spec c 58) as [->|Hne].
  - unfold name_prefix.
    pose proof (skip_word_prefix (S (length ((58 :: name) ++ 32 :: x :: rest))) [] (58 :: name) rest x Hb Hc
      ltac:(rewrite length_app; cbn; lia)) as Hs. cbn [app length] in Hs |- *. rewrite Hs. cbn [mbind option_bind].
    change (58 :: name ++ 32 :: x :: rest) with ((58 :: name) ++ 32 :: x :: rest).
    rewrite (lookup_here (58 :: name) 32 _ _ eq_refl). cbn [mbind option_bind Z.eqb Pos.eqb negb].
    assert (Em : <[S (length name) := 0]> ((58 :: name) ++ 32 :: x :: rest) = [58] ++ name ++ 0 :: x :: rest).
    { rewrite insert_app_r_alt by (cbn; lia). cbn [length]. by rewrite Nat.sub_diag. }
    rewrite Em, string_at_app by done. rewrite Hres. destruct (decide _); [|done].
    do 3 f_equal. cbn. by rewrite <- app_assoc.
  - unfold number_prefix.
    pose proof (numeric_prefix_ok 5 (c :: name) [] (x :: rest) 32 Hb Hc ltac:(by left)) as Hn.
    cbn [app length] in Hn. rewrite <- app_comm_cons. rewrite Hn. cbn [mbind option_bind].
    assert (Hskip : skip_word (S (length (c :: name ++ 32 :: x :: rest))) (c :: name ++ 32 :: x :: rest) 1 =
        Some (length (c :: name))).
    { apply (skip_word_prefix _ [c] name rest x); [done|done|]. cbn. rewrite length_app. lia. }
    assert (Hfrom : (match take 5 (c :: name) with
       | [] => Some (Some cptr, protocol_violation w cptr)
       | _ =>
         c1 ← (c :: name ++ 32 :: x :: rest) !! 1%nat;
         if c1 =? 32 then Some (FindNServer w (take 5 (c :: name)), w)
         else
           c2 ← (c :: name ++ 32 :: x :: rest) !! 2%nat;
           if c2 =? 32 then Some (FindNServer w (take 5 (c :: name)), w)
           else Some (findNUser w (take 5 (c :: name)), w)
       end) = Some (Some from, w)).
    { destruct name as [|c1 [|c2 name]].
      - cbn in Hres |- *. by rewrite Hres.
      - apply Forall_cons in Hbn as [Hb2 _]. cbn in Hres |- *. rewrite (proj2 (Z.eqb_neq c1 32)) by done. by rewrite Hres.
      - apply Forall_cons in Hbn as [Hb2 Hbn]. apply Forall_cons in Hbn as [Hb3 _]. cbn in Hres |- *.
        rewrite (proj2 (Z.eqb_neq c1 32)), (proj2 (Z.eqb_neq c2 32)) by done. by rewrite Hres. }
    cbn [take] in Hfrom |- *. rewrite Hfrom. cbn [mbind option_bind]. rewrite Hskip. cbn [mbind option_bind].
    unfold sender_name. rewrite (proj2 (Z.eqb_neq c 58)) by done. by destruct (decide _).
Qed.

(** The copy has room for lines of up to 510 bytes. *)
Lemma backup_fits line post : cstring line ->
  is_Some (ircd_strncpy (replicate BUFSIZE 0) (string_at (line ++ 0 :: post) 0) BUFSIZE) <->
  (length line < BUFSIZE - 1)%nat.
Proof.
  intros Hl. rewrite (string_at_app [] line post) by done. unfold ircd_strncpy, store. rewrite length_replicate.
  assert (Hlen : forall s n, (0 < n)%nat -> length (strncpy_bytes s n) =
    (if (length s <? n - 1)%nat then S (length s) else S n)).
  { clear. induction s as [|x s IH]; intros [|n] Hn; try lia; cbn [strncpy_bytes length].
    - destruct n; [done|]. by rewrite decide_False.
    - destruct n as [|n]; [by destruct s|]. rewrite IH by lia.
      destruct (Nat.ltb_spec (length s) (S n - 1)), (Nat.ltb_spec (S (length s)) (S (S n) - 1)); lia. }
  rewrite Hlen by (unfold BUFSIZE; lia). destruct (Nat.ltb_spec (length line) (BUFSIZE - 1)); case_decide; split; try done; try lia.
Qed.

Lemma parse_server_spec cptr prefix text post from extra p w :
  cstring prefix -> no_blank prefix -> cstring text -> IsDead w cptr = false ->
  resolve w prefix = Some from ->
  parse_server cptr (prefix ++ 32 :: text ++ 0 :: post) (Z.of_nat (length prefix + 1 + length text) + extra)
    initmsgtree p w =
  if (BUFSIZE - 1 <=? length prefix + 1 + length text)%nat then None
  else if decide (cli_from w from = cptr)
  then server_message cptr from (sender_name w prefix from) (negb (hd0 prefix =? 58)) text extra p w
  else Some (Return 0, count_wrdi p, w).
Proof.
  intros Hc Hb Ht Hd Hres. unfold parse_server.
  assert (Hline : cstring (prefix ++ 32 :: text)) by (apply cstring_app; split; [done|by constructor]).
  pose proof (backup_fits (prefix ++ 32 :: text) post Hline) as Hfit. rewrite <- app_assoc in Hfit. cbn [app] in Hfit.
  rewrite length_app in Hfit. cbn [length] in Hfit.
  destruct (ircd_strncpy _ _ _) as [backup|]; cbn [mbind option_bind].
  2:{ destruct (Nat.leb_spec (BUFSIZE - 1) (length prefix + 1 + length text)); [done|].
      destruct (proj2 Hfit ltac:(lia)) as [? [=]]. }
  destruct (Nat.leb_spec (BUFSIZE - 1) (length prefix + 1 + length text)) as [Hl|_].
  { pose proof (proj1 Hfit ltac:(by eexists)). lia. }
  rewrite Hd.
  assert (Hne : exists c name, prefix = c :: name) by (destruct prefix; [done|by eexists _, _]).
  destruct Hne as (c & name & Ep).
  replace ((prefix ++ 32 :: text ++ 0 :: post) !! 0%nat) with (Some (hd0 prefix)) by by rewrite Ep.
  cbn [mbind option_bind]. rewrite (prefix_ok cptr prefix (text ++ 0 :: post) from p w) by (done || by destruct text).
  cbn [mbind option_bind]. destruct (decide (cli_from w from = cptr)); [|done].
  destruct (hd0 prefix =? 58).
  - replace (S (length prefix)) with (length (prefix ++ [0])) by (rewrite length_app; cbn; lia).
    replace (length prefix + 1 + length text)%nat with (length (prefix ++ [0%Z]) + length text)%nat
      by (rewrite length_app; cbn; lia).
    by apply server_rest_ok.
  - change (prefix ++ 32 :: text ++ 0 :: post) with (prefix ++ (32 :: text) ++ 0 :: post).
    replace (length prefix + 1 + length text)%nat with (length prefix + length (32%Z :: text))%nat by (cbn; lia).
    rewrite server_rest_ok by by constructor. by unfold server_message.
Qed.

(** ** Who a message comes from *)
Lemma name_prefix_from cptr mem p w from para0 mem1 ch p1 w1 :
  name_prefix cptr mem p w = Some (Sender from para0 mem1 ch, p1, w1) -> from = cptr \/ cli_from w from = cptr.
Proof.
  unfold name_prefix. destruct (skip_word _ _ _); [|done]. cbn [mbind option_bind].
  destruct (mem !! _); [|done]. cbn [mbind option_bind]. destruct (negb _); [done|].
  destruct (FindClient _ _) as [f|].
  - destruct (decide _); [|done]. intros [= -> _ _ _ _]. by right.
  - destruct (skip_spaces _ _ _); [|done]. cbn [mbind option_bind]. destruct (_ !! _); [|done].
    cbn [mbind option_bind]. destruct (_ =? 81); [|done]. intros [= -> _ _ _ _]. by left.
Qed.

Lemma number_prefix_from cptr mem p w from para0 mem1 ch p1 w1 :
  number_prefix cptr mem p w = Some (Sender from para0 mem1 ch, p1, w1) -> from = cptr \/ cli_from w from = cptr.
Proof.
  unfold number_prefix. destruct (numeric_prefix _ _ _) as [prefix|]; [|done]. cbn [mbind option_bind].
  destruct (match prefix with [] => _ | _ => _ end) as [[o w2]|] eqn:Eo; [|done]. cbn [mbind option_bind].
  assert (Hw : w2 = w \/ o = Some cptr).
  { destruct prefix; [injection Eo as <- <-; by right|]. left.
    destruct (mem !! 1%nat); [|done]. cbn [mbind option_bind] in Eo. destruct (_ =? 32); [by injection Eo|].
    destruct (mem !! 2%nat); [|done]. cbn [mbind option_bind] in Eo. by destruct (_ =? 32); injection Eo. }
  destruct (skip_word _ _ _); [|done]. cbn [mbind option_bind]. destruct o as [f|].
  - destruct (decide (cli_from w2 f = cptr)) as [Hd|]; [|done]. intros [= <- _ _ _ _]. destruct Hw as [->|Hw]; [by right|left; congruence].
  - destruct (skip_spaces _ _ _) as [k|]; [|done]. cbn [mbind option_bind].
    destruct (mem !! k) as [c|]; [|done]. cbn [mbind option_bind].
    destruct (mem !! S k) as [c1|]; [|done]. cbn [mbind option_bind].
    destruct ((c1 =? 81) || _)%bool; [|destruct (c =? 75); [|done]; destruct (mem !! S (S k)) as [c2|]; [|done];
      cbn [mbind option_bind]; destruct (c2 =? 76); [|done]];
      (destruct (decide _); [|done]); intros [= <- _ _ _ _]; by left.
Qed.

Lemma server_rest_action cptr bufend tree by_numeric from para0 mem ch p w a p' w' :
  server_rest cptr bufend tree by_numeric from para0 mem ch p w = Some (a, p', w') ->
  match a with
  | Return _ => True
  | Service _ _ => False
  | Handle h f _ => f = from /\ exists m mptr, msgtab !! m = Some mptr /\ h = handlers mptr (cli_handler w' cptr)
  | Numeric n _ f _ => f = from /\ n <> 0
  end.
Proof.
  unfold server_rest. destruct (skip_spaces _ _ _) as [k|]; [|done]. cbn [mbind option_bind].
  destruct (mem !! k) as [c|]; [|done]. cbn [mbind option_bind]. destruct (c =? 0); [by intros [= <- _ _]|].
  destruct (skip_word _ _ _) as [e|]; [|done]. cbn [mbind option_bind]. destruct (mem !! e) as [ce|]; [|done].
  cbn [mbind option_bind]. destruct (_ && _)%bool.
  - destruct (mem !! S k) as [d1|]; [|done]. cbn [mbind option_bind].
    destruct (mem !! S (S k)) as [d2|]; [|done]. cbn [mbind option_bind].
    destruct (parameters_of _ _ _ _); [|done]. cbn [mbind option_bind].
    destruct (Z.eqb_spec (digit c * 100 + digit d1 * 10 + digit d2) 0); [done|]. by intros [= <- _ _].
  - destruct (msg_tree_parse _ _) as [m|]; [|by intros [= <- _ _]].
    destruct (msgtab !! m) as [mptr|] eqn:Em; [|done]. cbn [mbind option_bind].
    destruct (parameters_of _ _ _ _); [|done]. cbn [mbind option_bind]. intros [= <- _ <-]. split; [done|].
    by exists m, mptr.
Qed.

(** C9: A line from a live server link, in which a prefix without blanks that names
    a known sender is followed by a blank and a text.  A line of 511 bytes or more
    overflows the array it is first copied to.  In any other line a sender that is
    not behind the link is refused as a wrong direction; a text of blanks is
    counted as empty and an unknown command as unknown; a numeric goes on with its
    number, the sender and at most two cut parameters, but for 000, which is taken
    for a command and followed through a null entry; and a known command or token
    is dispatched to the server's column of its entry, with the name of the sender
    and the parameters, as server_message says. *)
Theorem parse_server_correct cptr prefix text post from extra p w :
  cstring prefix -> no_blank prefix -> cstring text -> IsDead w cptr = false ->
  resolve w prefix = Some from ->
  parse_server cptr (prefix ++ 32 :: text ++ 0 :: post) (Z.of_nat (length prefix + 1 + length text) + extra)
    initmsgtree p w =
  if (BUFSIZE - 1 <=? length prefix + 1 + length text)%nat then None
  else if decide (cli_from w from = cptr)
  then server_message cptr from (sender_name w prefix from) (negb (hd0 prefix =? 58)) text extra p w
  else Some (Return 0, count_wrdi p, w).
Proof. apply parse_server_spec. Qed.

(** C25: Whatever the buffer holds, a handler is only run on behalf of the
    connection itself or of a client that is reached through it; numerics and
    handlers never get a sender from another direction, and the handler is the
    one in the column of the connection. *)
Theorem parse_server_origin cptr mem bufend p w a p' w' :
  parse_server cptr mem bufend initmsgtree p w = Some (a, p', w') ->
  match a with
  | Return _ => True
  | Service _ _ => False
  | Handle h from _ => (from = cptr \/ cli_from w from = cptr) /\
      exists m mptr, msgtab !! m = Some mptr /\ h = handlers mptr (cli_handler w' cptr)
  | Numeric n _ from _ => (from = cptr \/ cli_from w from = cptr) /\ n <> 0
  end.
Proof.
  unfold parse_server. destruct (ircd_strncpy _ _ _); [|done]. cbn [mbind option_bind].
  destruct (IsDead w cptr); [by intros [= <- _ _]|].
  destruct (mem !! 0%nat) as [c0|]; [|done]. cbn [mbind option_bind].
  destruct (if c0 =? 58 then _ else _) as [[[o p1] w1]|] eqn:Eo; [|done]. cbn [mbind option_bind].
  destruct o as [r|from para0 mem1 ch]; [by intros [= <- _ _]|].
  assert (Hfrom : from = cptr \/ cli_from w from = cptr).
  { destruct (c0 =? 58); [by eapply name_prefix_from|by eapply number_prefix_from]. }
  intros Ha. apply server_rest_action in Ha.
  destruct a; [done|..]; [by destruct Ha as [-> Ha]|done|by destruct Ha as [-> Ha]].
Qed.

(** A numeric whose value is 0, such as 000, passes the test for a numeric but
    is then taken for a command, and the parser goes through the null entry. *)
Theorem parse_server_numeric_zero cptr prefix text post from extra p w :
  cstring prefix -> no_blank prefix -> cstring text -> IsDead w cptr = false ->
  resolve w prefix = Some from -> cli_from w from = cptr ->
  parse_server cptr (prefix ++ 32 :: (lit "000 " ++ text) ++ 0 :: post)
    (Z.of_nat (length prefix + 1 + length (lit "000 " ++ text)) + extra) initmsgtree p w = None.
Proof.
  intros Hc Hb Ht Hd Hres Hf. rewrite (parse_server_spec cptr prefix (lit "000 " ++ text) post from extra p w); try done.
  - case_match; [done|]. by rewrite decide_True.
  - apply cstring_app. split; [by_decide|done].
Qed.

(** A message in the form it is sent: the command, words, and a last parameter
    behind a colon. *)
Definition render (cmd : list Z) (ps : list (list Z)) (last : list Z) : list Z :=
  cmd ++ concat (map (cons 32) ps) ++ 32 :: 58 :: last.

Definition is_word (s : list Z) : Prop := cstring s /\ no_blank s /\ s <> [] /\ hd0 s <> 58.

Lemma args_render n ps last :
  Forall is_word ps -> (length ps < n)%nat ->
  args false n (concat (map (cons 32) ps) ++ 32 :: 58 :: last) = ps ++ [last].
Proof.
  intros Hps. revert n. induction Hps as [|q ps (Hc & Hb & Hne & H58) _ IH]; intros n Hn.
  - by destruct n as [|[|n]].
  - cbn [length] in Hn. destruct n as [|[|n]]; [lia|lia|]. cbn [map concat app].
    destruct q as [|c q]; [done|]. pose proof Hb as Hb'. apply Forall_cons in Hb' as [Hc32 _]. cbn in H58.
    rewrite <- app_assoc. set (tl := concat (map (cons 32) ps) ++ 32 :: 58 :: last) in *.
    assert (Htl : exists r, tl = 32 :: r) by (unfold tl; destruct ps; by eexists). destruct Htl as [r Er].
    assert (Ed : drop_blanks (32 :: (c :: q) ++ tl) = (c :: q) ++ tl)
      by (cbn; by rewrite (proj2 (Z.eqb_neq c 32))).
    rewrite args_unfold. change ((32 :: c :: q) ++ tl) with (32 :: (c :: q) ++ tl). rewrite Ed. cbn [app].
    rewrite (proj2 (Z.eqb_neq c 58)) by done.
    change (c :: q ++ tl) with ((c :: q) ++ tl). rewrite Er at 1. rewrite span_word by done.
    cbn [app]. f_equal. rewrite <- Er. apply IH. lia.
Qed.

(** A message that is put together from a command of the table, words and a
    last parameter is parsed back into the handler of that command and exactly
    these parameters, as long as they are not more than the entry takes. *)
Theorem parse_client_roundtrip cptr cmd ps last post m mptr p w :
  Forall is_word (cmd :: ps) -> cstring last ->
  lookup_command cmd = Some m -> msgtab !! m = Some mptr ->
  (length ps < Nat.min (parameters mptr) MAXPARA)%nat ->
  IsDead w cptr = false -> (forall v, find_svc v cmd = None) ->
  (forall v, snd (shun_lookup v cptr) = false) ->
  (forall v n, cli_handler (add_since v cptr n) cptr = cli_handler v cptr) ->
  let line := render cmd ps last in
  exists p' w' v,
    parse_client cptr (line ++ 0 :: post) (Z.of_nat (length line)) initmsgtree p w =
      Some (Handle (handlers mptr (cli_handler v cptr)) cptr (cli_name w cptr :: ps ++ [last]), p', w') /\
    (v = expire_shuns w \/ v = fst (shun_lookup (expire_shuns w) cptr)).
Proof.
  intros Hps Hlast Hm Hmptr Hn Hd Hsvc Hshun Hcol line. apply Forall_cons in Hps as [(Hc & Hb & Hne & H58) Hps].
  assert (Hline : cstring line).
  { unfold line, render. apply cstring_app. split; [done|]. apply cstring_app. split; [|by repeat constructor].
    clear - Hps. induction Hps as [|q ps [Hq _] _ IH]; cbn; [constructor|]. constructor; [done|].
    by apply cstring_app. }
  rewrite <- (Z.add_0_r (Z.of_nat (length line))). rewrite (parse_client_spec cptr line post 0 p w Hline).
  unfold client_message. rewrite Hd.
  assert (Hstart : client_start line = line).
  { unfold client_start, line, render. destruct cmd as [|c cmd]; [done|]. cbn in H58 |- *.
    apply Forall_cons in Hb as [Hc32 _].
    rewrite (proj2 (Z.eqb_neq c 32)) by done. by rewrite (proj2 (Z.eqb_neq c 58)). }
  assert (Htl : exists r, concat (map (cons 32) ps) ++ 32 :: 58 :: last = 32 :: r) by (destruct ps; by eexists).
  assert (Hspan : span line = (cmd, concat (map (cons 32) ps) ++ 32 :: 58 :: last)).
  { unfold line, render. destruct Htl as [r ->]. by apply span_word. }
  rewrite Hstart. destruct line as [|x line'] eqn:El; [by destruct cmd|]. rewrite Hspan.
  set (b := (_ && _)%bool).
  assert (Hw : exists v, (if b then shun_lookup (expire_shuns w) cptr else (expire_shuns w, false)) = (v, false) /\
    (v = expire_shuns w \/ v = fst (shun_lookup (expire_shuns w) cptr))).
  { destruct b; [|by eexists; split; [|left]]. specialize (Hshun (expire_shuns w)).
    destruct (shun_lookup _ _) as [v s]. cbn in Hshun. subst s. by exists v; split; [|right]. }
  destruct Hw as (v & -> & Hv). rewrite Hsvc, Hm, Hmptr. unfold client_action. rewrite args_render by done.
  eexists _, _, v. split; [|done]. do 4 f_equal. destruct (has_bits _ _); [by rewrite Hcol|done].
Qed.
End parse.

(** ** A concrete server: 1 is the link, 2 and 3 are users, 2 behind the link *)
Definition no_counts : parser := MkParser 0 0 0 0 0 (replicate 114 0) (replicate 114 0).
Definition sample_from (_ : unit) (c : N) : N := if decide (c = 3%N) then 3%N else 1%N.
Definition sample_find (_ : unit) (s : list Z) : option N :=
  if decide (s = lit "al") then Some 2%N else if decide (s = lit "bo") then Some 3%N else None.
Definition sample_numeric (_ : unit) (s : list Z) : option N :=
  if decide (s = lit "AB") then Some 1%N else if decide (s = lit "ABAAA") then Some 2%N else None.

Abbreviation sample_client := (parse_client (fun (_ : unit) (_ : N) => lit "al") (fun _ _ => CLIENT_HANDLER)
  (fun _ _ => false) (fun _ _ => true) (fun _ _ => true) (fun _ _ => false) (fun w => w)
  (fun w _ => (w, false)) (fun _ _ => None : option unit) false (fun w _ _ => w) (fun w _ => w) (fun w _ _ => w)).
Abbreviation sample_server := (parse_server (Svc := unit) (fun (_ : unit) (_ : N) => lit "al")
  (fun _ _ => SERVER_HANDLER) sample_from (fun _ _ => false) sample_find sample_numeric sample_numeric
  (fun w _ => w) (fun w _ _ => w)).

Lemma parse_client_correct_witness :
  exists p', sample_client 1%N (lit "  privmsg #a  :hi there" ++ [0; 7])
      (Z.of_nat (length (lit "  privmsg #a  :hi there")) + 1) initmsgtree no_counts tt =
    Some (Handle "m_privmsg" 1%N [lit "al"; lit "#a"; lit "hi there"], p', tt).
Proof.
  eexists. etransitivity; [apply (parse_client_correct _ _ _ _ _ _ _ _ _ _ _ _ _ 1%N (lit "  privmsg #a  :hi there") [7] 1)|].
  - by_decide.
  - vm_compute. reflexivity.
Defined.

Lemma parse_client_roundtrip_witness :
  exists p' h, sample_client 1%N (render (lit "KICK") [lit "#a"; lit "bo"] (lit "off you go") ++ [0])
      (Z.of_nat (length (render (lit "KICK") [lit "#a"; lit "bo"] (lit "off you go")))) initmsgtree no_counts tt =
    Some (Handle h 1%N [lit "al"; lit "#a"; lit "bo"; lit "off you go"], p', tt).
Proof.
  destruct (lookup_command (lit "KICK")) as [m|] eqn:Em; [|discriminate Em].
  destruct (msgtab !! m) as [mptr|] eqn:Emp; [|vm_compute in Em; injection Em as <-; discriminate Emp].
  assert (Hw : Forall is_word [lit "KICK"; lit "#a"; lit "bo"]).
  { repeat (constructor; [split; [by_decide|split; [by_decide|split; discriminate]]|]). constructor. }
  assert (Hl : cstring (lit "off you go")) by by_decide.
  assert (Hn : (length [lit "#a"; lit "bo"] < Nat.min (parameters mptr) MAXPARA)%nat).
  { vm_compute in Em. injection Em as <-. injection Emp as <-. vm_compute. lia. }
  destruct (parse_client_roundtrip (fun (_ : unit) (_ : N) => lit "al") (fun _ _ => CLIENT_HANDLER)
    (fun _ _ => false) (fun _ _ => true) (fun _ _ => true) (fun _ _ => false) (fun w => w)
    (fun w _ => (w, false)) (fun _ _ => None : option unit) false (fun w _ _ => w) (fun w _ => w) (fun w _ _ => w)
    1%N (lit "KICK") [lit "#a"; lit "bo"] (lit "off you go") [] m mptr no_counts tt
    Hw Hl Em Emp Hn eq_refl (fun _ => eq_refl) (fun _ => eq_refl) (fun _ _ => eq_refl))
    as (p' & [] & v & E & _).
  exists p', (handlers mptr CLIENT_HANDLER). exact E.
Defined.

Lemma parse_server_correct_witness :
  exists p', sample_server 1%N (lit "ABAAA" ++ 32 :: lit "P #a :hi" ++ [0])
      (Z.of_nat (length (lit "ABAAA") + 1 + length (lit "P #a :hi")) + 0) initmsgtree no_counts tt =
      Some (Handle "ms_privmsg" 2%N [lit "al"; lit "#a"; lit "hi"], p', tt) /\
    exists p'', sample_server 1%N (lit ":bo" ++ 32 :: lit "P #a :hi" ++ [0])
      (Z.of_nat (length (lit ":bo") + 1 + length (lit "P #a :hi")) + 0) initmsgtree no_counts tt =
      Some (Return 0, p'', tt) /\ is_wrdi p'' = 1.
Proof.
  eexists. split; [|eexists; split].
  - etransitivity; [apply (parse_server_correct _ _ _ _ _ _ _ _ _ 1%N (lit "ABAAA") (lit "P #a :hi") [] 2%N 0)|].
    + by_decide.
    + by_decide.
    + by_decide.
    + reflexivity.
    + reflexivity.
    + vm_compute. reflexivity.
  - etransitivity; [apply (parse_server_correct _ _ _ _ _ _ _ _ _ 1%N (lit ":bo") (lit "P #a :hi") [] 3%N 0)|].
    + by_decide.
    + by_decide.
    + by_decide.
    + reflexivity.
    + reflexivity.
    + vm_compute. reflexivity.
  - vm_compute. reflexivity.
Defined.

Lemma parse_server_origin_witness :
  exists a p', sample_server 1%N (lit ":al KICK #a bo" ++ [0]) 14 initmsgtree no_counts tt = Some (a, p', tt) /\
    match a with Handle h from _ => from = 1%N \/ sample_from tt from = 1%N | _ => False end.
Proof.
  destruct (sample_server 1%N (lit ":al KICK #a bo" ++ [0]) 14 initmsgtree no_counts tt) as [[[a p'] []]|] eqn:E;
    [|vm_compute in E; discriminate E].
  exists a, p'. split; [reflexivity|]. pose proof (parse_server_origin _ _ _ _ _ _ _ _ _ _ _ _ _ _ _ _ _ E) as Ho.
  vm_compute in E. injection E as <- _. exact (proj1 Ho).
Defined.

Lemma parse_server_numeric_zero_witness :
  sample_server 1%N (lit ":al" ++ 32 :: (lit "000 " ++ lit "bo :x") ++ [0])
    (Z.of_nat (length (lit ":al") + 1 + length (lit "000 " ++ lit "bo :x")) + 0) initmsgtree no_counts tt = None.
Proof.
  apply (parse_server_numeric_zero _ _ _ _ _ _ _ _ _ 1%N (lit ":al") (lit "bo :x") [] 2%N 0); try reflexivity; by_decide.
Defined.
