(* ===== verification/Packet.v ===== *)
(** * ircd/packet.c and read_packet() of s_bsd.c: from bytes to messages

    A connection collects the bytes of a message in [con_buffer]; the message
    goes to the parser when its line end comes.  The parser, the flags of the
    client it may change, and exit_client() are parameters; the input queue of a
    client is any byte queue. *)
From S2P Require Import Prelude Chattr NumText Hash ByteQueue DBuf.
Open Scope ircd_scope.

(** ** Statistics *)

(** The counters of received data of a client: bytes below 1024 (an unsigned
    short), kilobytes, messages. *)
Record received := MkReceived { receiveB : Z; receiveK : Z; receiveM : Z }.

Definition add_bytes (length : Z) (r : received) : received :=
  let b := u16 (receiveB r + length) in
  if 1023 <? b then MkReceived (b .& 1023) (u32 (receiveK r + (b >> 10))) (receiveM r)
  else MkReceived b (receiveK r) (receiveM r).

Definition add_message (r : received) : received :=
  MkReceived (receiveB r) (receiveK r) (u32 (receiveM r + 1)).

(** The counters of the server itself and of the client. *)
Record statistics := MkStatistics { st_me : received; st_cptr : received }.

Definition update_bytes_received (length : Z) (s : statistics) : statistics :=
  MkStatistics (add_bytes length (st_me s)) (add_bytes length (st_cptr s)).

Definition update_messages_received (s : statistics) : statistics :=
  MkStatistics (add_message (st_me s)) (add_message (st_cptr s)).

(** ** Messages *)

(** [con_buffer], of BUFSIZE bytes; [con_count]; the counters. *)
Record connection := MkConnection {
  con_mem : list Z;
  con_count : nat;
  con_stats : statistics }.

Definition write (endp : nat) (b : Z) (c : connection) : connection :=
  MkConnection (<[endp := b]> (con_mem c)) (con_count c) (con_stats c).
Definition set_count (n : nat) (c : connection) : connection :=
  MkConnection (con_mem c) n (con_stats c).
Definition set_stats (f : statistics -> statistics) (c : connection) : connection :=
  MkConnection (con_mem c) (con_count c) (f (con_stats c)).

(** What a call returns: 1, or CPTR_KILLED; [Overflow] is a store behind
    [con_buffer]. *)
Inductive outcome := Done | Killed | Overflow.

#[export] Instance outcome_dec : EqDecision outcome.
Proof. solve_decision. Defined.

Section packet.
(** The client with everything the parser can change. *)
Context {W : Type}.
Variable parse_server : W -> list Z -> W * outcome.
Variable parse_client : W -> list Z -> W * outcome.
Variable IsDead : W -> bool.
Variable IsServer : W -> bool.
Variable exit_client : W -> W.

(** The loop of server_dopacket(). *)
Fixpoint server_loop (input : list Z) (endp : nat) (c : connection) (w : W)
  : connection * W * outcome :=
  match input with
  | [] => (set_count endp c, w, Done)
  | b :: src =>
      if (BUFSIZE <=? endp)%nat then (c, w, Overflow)
      else
      let c := write endp b c in
      if IsEol b then
        if (endp =? 0)%nat then server_loop src endp c w
        else
          let c := set_stats update_messages_received (write endp 0 c) in
          match parse_server w (take endp (con_mem c)) with
          | (w, Done) =>
              if IsDead w then (c, exit_client w, Killed)
              else server_loop src 0 c w
          | (w, o) => (c, w, o)
          end
      else server_loop src (if (endp <? BUFSIZE)%nat then S endp else endp) c w
  end.

Definition server_dopacket (buffer : list Z) (c : connection) (w : W) : connection * W * outcome :=
  let c := set_stats (update_bytes_received (Z.of_nat (length buffer))) c in
  server_loop buffer (con_count c) c w.

(** The loop of connect_dopacket(): once the client is a server the rest of the
    input is a server's. *)
Fixpoint connect_loop (input : list Z) (endp : nat) (c : connection) (w : W)
  : connection * W * outcome :=
  match input with
  | [] => (set_count endp c, w, Done)
  | b :: src =>
      if (BUFSIZE <=? endp)%nat then (c, w, Overflow)
      else
      let c := write endp b c in
      if IsEol b then
        if (endp =? 0)%nat then connect_loop src endp c w
        else
          let c := set_stats update_messages_received (write endp 0 c) in
          match parse_client w (take endp (con_mem c)) with
          | (w, Done) =>
              if IsDead w then (c, exit_client w, Killed)
              else if IsServer w then server_dopacket src (set_count 0 c) w
              else connect_loop src 0 c w
          | (w, o) => (c, w, o)
          end
      else connect_loop src (if (endp <? BUFSIZE)%nat then S endp else endp) c w
  end.

Definition connect_dopacket (buffer : list Z) (c : connection) (w : W) : connection * W * outcome :=
  let c := set_stats (update_bytes_received (Z.of_nat (length buffer))) c in
  connect_loop buffer (con_count c) c w.

Definition client_dopacket (length : nat) (c : connection) (w : W) : connection * W * outcome :=
  let c := set_stats (fun s => update_messages_received (update_bytes_received (Z.of_nat length) s)) c in
  match parse_client w (take length (con_mem c)) with
  | (w, Done) => if IsDead w then (c, exit_client w, Killed) else (c, w, Done)
  | (w, o) => (c, w, o)
  end.

(** ** read_packet() *)

Context {Q : Type} `{ByteQueue Q}.
Variables IsUser IsOper IsBot IsTrusted IsHandshake IsConnecting : W -> bool.
(** cli_since(cptr) - CurrentTime < 10; what data from the socket does to the
    times and to FLAG_PINGSENT. *)
Variable since_ok : W -> bool.
Variable data_arrived : W -> W.
(** feature_int(FEAT_CLIENT_FLOOD) and sizeof(readbuf). *)
Variable CLIENT_FLOOD : Z.
Variable SERVER_TCP_WINDOW : nat.

(** The connection's queue and buffer, FLAG_NONL, and the client. *)
Record reader := MkReader {
  rd_queue : Q;
  rd_con : connection;
  NoNewLine : bool;
  rd_client : W }.

(** dolen == 0: an unfinished line is waited for while it is short. *)
Definition no_line (r : reader) : reader :=
  if u32 (bq_length (rd_queue r)) <? 510
  then MkReader (rd_queue r) (rd_con r) true (rd_client r)
  else MkReader (bq_clear (rd_queue r)) (rd_con r) (NoNewLine r) (rd_client r).

(** The loop of a client that has become a server. *)
Fixpoint drain_loop (fuel : nat) (r : reader) : option (reader * outcome) :=
  match fuel with
  | O => None
  | S fuel =>
      '(q, block) ← bq_get (rd_queue r) SERVER_TCP_WINDOW;
      match block with
      | [] => Some (MkReader q (rd_con r) (NoNewLine r) (rd_client r), Done)
      | _ =>
          let '(c, w, o) :=
            (if IsServer (rd_client r) then server_dopacket block (rd_con r) (rd_client r)
             else (rd_con r, rd_client r, Done)) in
          match o with
          | Done =>
              let '(c, w, o) := (if IsServer w then (c, w, Done) else connect_dopacket block c w) in
              match o with
              | Done => drain_loop fuel (MkReader q c (NoNewLine r) w)
              | _ => Some (MkReader q c (NoNewLine r) w, o)
              end
          | _ => Some (MkReader q c (NoNewLine r) w, o)
          end
      end
  end.

Definition may_parse (r : reader) : bool :=
  negb (bq_length (rd_queue r) =? 0) && negb (NoNewLine r) &&
  (IsTrusted (rd_client r) || IsOper (rd_client r) || IsBot (rd_client r) || since_ok (rd_client r)).

(** dbuf_getmsg() into [con_buffer]. *)
Definition store_line (l : list Z) (c : connection) : connection :=
  MkConnection (l ++ drop (length l) (con_mem c)) (con_count c) (con_stats c).

Fixpoint parse_loop (fuel : nat) (r : reader) : option (reader * outcome) :=
  if may_parse r then
    match fuel with
    | O => None
    | S fuel =>
        let (q, l) := bq_getmsg (rd_queue r) BUFSIZE in
        let r := MkReader q (store_line l (rd_con r)) (NoNewLine r) (rd_client r) in
        let (r, o) :=
          (match l with
           | [] => (no_line r, Done)
           | _ => let '(c, w, o) := client_dopacket (length l) (rd_con r) (rd_client r) in
                  (MkReader (rd_queue r) c (NoNewLine r) w, o)
           end) in
        match o with
        | Done =>
            if IsHandshake (rd_client r) || IsServer (rd_client r)
            then drain_loop (S (Z.to_nat (bq_length (rd_queue r)))) r
            else parse_loop fuel r
        | _ => Some (r, o)
        end
    end
  else Some (r, Done).

(** read_packet() after the system call: [input] is what was received.  The
    timer that is set when data is left is not part of the model. *)
Definition read_packet (input : list Z) (r : reader) : option (reader * outcome) :=
  let r := match input with
           | [] => r
           | _ => MkReader (rd_queue r) (rd_con r) false (data_arrived (rd_client r))
           end in
  let w := rd_client r in
  if negb (bool_decide (input = [])) && IsServer w then
    let '(c, w, o) := server_dopacket input (rd_con r) w in Some (MkReader (rd_queue r) c (NoNewLine r) w, o)
  else if negb (bool_decide (input = [])) && (IsHandshake w || IsConnecting w) then
    let '(c, w, o) := connect_dopacket input (rd_con r) w in Some (MkReader (rd_queue r) c (NoNewLine r) w, o)
  else
    '(q, ok) ← (match input with [] => Some (rd_queue r, true) | _ => bq_put (rd_queue r) input end);
    if negb ok then Some (MkReader q (rd_con r) (NoNewLine r) (exit_client w), Killed)
    else if IsUser w && (u32 CLIENT_FLOOD <? bq_length q) && negb (IsOper w) && negb (IsBot w)
    then Some (MkReader q (rd_con r) (NoNewLine r) (exit_client w), Killed)
    else parse_loop (S (Z.to_nat (bq_length q))) (MkReader q (rd_con r) (NoNewLine r) w).

(** ** Specification: a message is a non-empty line *)
Fixpoint split_lines (s : list Z) : list (list Z) * list Z :=
  match s with
  | [] => ([], [])
  | b :: r =>
      let (ls, last) := split_lines r in
      if IsEol b then ([] :: ls, last)
      else match ls with
           | [] => ([], b :: last)
           | l :: ls => ((b :: l) :: ls, last)
           end
  end.

Definition messages (s : list Z) : list (list Z) :=
  filter (fun l => l <> []) (split_lines s).1.

(** What is left after the last line end. *)
Definition unfinished (s : list Z) : list Z := (split_lines s).2.

(** The messages go to the parser in order, until the client is gone; a message
    of 512 bytes does not fit with its end, nor a rest of more. *)
Fixpoint deliver (parse : W -> list Z -> W * outcome) (ms : list (list Z)) (last : list Z) (w : W) : W * outcome :=
  match ms with
  | [] => (w, if (length last <=? BUFSIZE)%nat then Done else Overflow)
  | m :: r =>
      if (BUFSIZE <=? length m)%nat then (w, Overflow)
      else match parse w m with
           | (w, Done) => if IsDead w then (exit_client w, Killed) else deliver parse r last w
           | (w, o) => (w, o)
           end
  end.

(** The same for a new connection, which may become a server on the way. *)
Fixpoint deliver_connect (ms : list (list Z)) (last : list Z) (w : W) : W * outcome :=
  match ms with
  | [] => (w, if (length last <=? BUFSIZE)%nat then Done else Overflow)
  | m :: r =>
      if (BUFSIZE <=? length m)%nat then (w, Overflow)
      else match parse_client w m with
           | (w, Done) =>
               if IsDead w then (exit_client w, Killed)
               else if IsServer w then deliver parse_server r last w else deliver_connect r last w
           | (w, o) => (w, o)
           end
  end.

(** What read_packet() calls for a connection that is one or the other. *)
Definition dopacket (buffer : list Z) (c : connection) (w : W) : connection * W * outcome :=
  if IsServer w then server_dopacket buffer c w else connect_dopacket buffer c w.

Definition con_ok (c : connection) : Prop :=
  length (con_mem c) = BUFSIZE /\ (con_count c <= BUFSIZE)%nat /\
  Forall (fun b => IsEol b = false) (take (con_count c) (con_mem c)).

(** The bytes of the message that is being collected. *)
Definition pending (c : connection) : list Z := take (con_count c) (con_mem c).

Abbreviation no_eol := (Forall (fun b => IsEol b = false)).

Lemma split_no_eol p : no_eol p -> split_lines p = ([], p).
Proof. induction 1 as [|b p Hb Hp IH]; cbn; [done|]. by rewrite IH, Hb. Qed.

Lemma split_eol p b r : no_eol p -> IsEol b = true ->
  split_lines (p ++ b :: r) = (p :: (split_lines r).1, (split_lines r).2).
Proof.
  intros Hp Hb. induction Hp as [|x p Hx Hp IH]; cbn.
  - rewrite Hb. by destruct (split_lines r).
  - by rewrite IH, Hx.
Qed.

Lemma messages_eol p b r : no_eol p -> IsEol b = true ->
  messages (p ++ b :: r) = match p with [] => messages r | _ => p :: messages r end.
Proof.
  intros Hp Hb. unfold messages. rewrite split_eol by done. cbn [fst].
  destruct p; rewrite filter_cons; [by rewrite decide_False by tauto|by rewrite decide_True].
Qed.

Lemma messages_no_eol p : no_eol p -> messages p = [].
Proof. intros. unfold messages. by rewrite split_no_eol. Qed.

Lemma unfinished_eol p b r : no_eol p -> IsEol b = true -> unfinished (p ++ b :: r) = unfinished r.
Proof. intros. unfold unfinished. by rewrite split_eol. Qed.

Lemma unfinished_no_eol p : no_eol p -> unfinished p = p.
Proof. intros. unfold unfinished. by rewrite split_no_eol. Qed.

Lemma eol_cases s : no_eol s \/ exists p e r, s = p ++ e :: r /\ no_eol p /\ IsEol e = true.
Proof.
  induction s as [|x s IH]; [by left|]. destruct (IsEol x) eqn:E.
  - right. by exists [], x, s.
  - destruct IH as [|(p & e & r & -> & Hp & He)]; [left; by constructor|].
    right. exists (x :: p), e, r. split; [done|]. split; [by constructor|done].
Qed.

(** The first line of what is to be delivered does not fit. *)
Definition too_long (ms : list (list Z)) (last : list Z) : Prop :=
  match ms with [] => (BUFSIZE < length last)%nat | m :: _ => (BUFSIZE <= length m)%nat end.

Lemma full_too_long p r : no_eol p -> length p = BUFSIZE -> r <> [] -> too_long (messages (p ++ r)) (unfinished (p ++ r)).
Proof.
  intros Hp Hl Hr. destruct (eol_cases r) as [Hn|(q & e & t & -> & Hq & He)].
  - rewrite messages_no_eol, unfinished_no_eol by by apply Forall_app. cbn [too_long]. rewrite length_app.
    destruct r; [done|]. cbn [length]. lia.
  - rewrite app_assoc, messages_eol by (done || by apply Forall_app).
    destruct p as [|x p]; [by cbn in Hl; unfold BUFSIZE in Hl|]. cbn [app too_long]. rewrite app_comm_cons, length_app. lia.
Qed.

Lemma deliver_too_long parse ms last w : too_long ms last -> deliver parse ms last w = (w, Overflow).
Proof.
  destruct ms as [|m ms]; cbn [too_long deliver]; intros Hlong; [by rewrite (proj2 (Nat.leb_gt _ _))|by rewrite (proj2 (Nat.leb_le _ _))].
Qed.

Lemma deliver_connect_too_long ms last w : too_long ms last -> deliver_connect ms last w = (w, Overflow).
Proof.
  destruct ms as [|m ms]; cbn [too_long deliver_connect]; intros Hlong; [by rewrite (proj2 (Nat.leb_gt _ _))|by rewrite (proj2 (Nat.leb_le _ _))].
Qed.

(** The buffer holds the line [p] before [endp]. *)
Definition holds (p : list Z) (endp : nat) (c : connection) : Prop :=
  length (con_mem c) = BUFSIZE /\ no_eol p /\ endp = length p /\ (endp <= BUFSIZE)%nat /\ take endp (con_mem c) = p.

Lemma holds_pending c : con_ok c -> holds (pending c) (con_count c) c.
Proof. intros (Hl & Hc & He). unfold holds, pending. rewrite length_take, Hl. split_and!; [done|done|lia|done|done]. Qed.

Lemma holds_nil c : length (con_mem c) = BUFSIZE -> holds [] 0 c.
Proof. intros. split_and!; done || unfold BUFSIZE; lia. Qed.

Lemma holds_set f p endp c : holds p endp c -> holds p endp (set_stats f c).
Proof. done. Qed.

Lemma holds_write p endp b c :
  holds p endp c -> (endp < BUFSIZE)%nat -> IsEol b = false ->
  holds (p ++ [b]) (if (endp <? BUFSIZE)%nat then S endp else endp) (write endp b c).
Proof.
  intros (Hl & Hp & He & _ & Ht) Hlt Hb. rewrite (proj2 (Nat.ltb_lt _ _)) by done. unfold holds, write. cbn [con_mem].
  rewrite length_insert, length_app. cbn [length].
  split; [done|]. split; [apply Forall_app; by repeat constructor|]. split; [lia|]. split; [lia|].
  rewrite (take_S_r _ _ b) by (apply list_lookup_insert_eq; lia).
  rewrite take_insert_ge by lia. by rewrite Ht.
Qed.

Lemma holds_con p endp c : holds p endp c -> con_ok (set_count endp c) /\ pending (set_count endp c) = p.
Proof.
  intros (Hl & Hp & He & Hle & Ht). unfold con_ok, pending. cbn. rewrite Ht. split_and!; done.
Qed.

(** The message given to the parser at a line end. *)
Lemma holds_message p endp c b :
  holds p endp c -> take endp (con_mem (write endp 0 (write endp b c))) = p.
Proof. intros (Hl & Hp & He & _ & Ht). cbn. by rewrite !take_insert_ge by lia. Qed.

Lemma write_holds_nil a b c : length (con_mem c) = BUFSIZE -> holds [] 0 (write a b c).
Proof. intros. apply holds_nil. cbn. by rewrite length_insert. Qed.

Lemma server_loop_frames input p endp c w :
  holds p endp c ->
  let '(c', w', o) := server_loop input endp c w in
  (w', o) = deliver parse_server (messages (p ++ input)) (unfinished (p ++ input)) w /\
  (o = Done -> con_ok c' /\ pending c' = unfinished (p ++ input)).
Proof.
  revert p endp c w. induction input as [|b input IH]; intros p endp c w Hh.
  - cbn [server_loop]. rewrite app_nil_r, messages_no_eol, unfinished_no_eol by apply Hh.
    destruct (holds_con p endp c Hh) as [Hok Hp]. destruct Hh as (_ & _ & He & Hle & _). cbn [deliver].
    rewrite (proj2 (Nat.leb_le _ _)) by lia. done.
  - cbn [server_loop]. pose proof Hh as (Hl & Hp & He & Hle & _). destruct (Nat.leb_spec BUFSIZE endp) as [Hfull|Hroom].
    { rewrite deliver_too_long by (apply full_too_long; [done|lia|done]). done. }
    destruct (IsEol b) eqn:Eb.
    + rewrite messages_eol, unfinished_eol by done.
      destruct (Nat.eqb_spec endp 0) as [->|Hne].
      * assert (p = []) as -> by (destruct p; [done|cbn in He; lia]).
        apply (IH [] 0%nat). by apply write_holds_nil.
      * destruct p as [|x p]; [by subst|].
        cbn [con_mem set_stats]. rewrite (holds_message (x :: p)) by done.
        cbn [deliver]. rewrite <- He, (proj2 (Nat.leb_gt _ _)) by done.
        destruct (parse_server w (x :: p)) as [w1 [| |]]; [|done..].
        destruct (IsDead w1); [done|]. apply (IH [] 0%nat).
        apply holds_set, write_holds_nil. cbn. by rewrite length_insert.
    + replace (p ++ b :: input) with ((p ++ [b]) ++ input) by by rewrite <- app_assoc.
      apply IH. by apply holds_write.
Qed.

Lemma server_dopacket_frames input c w :
  con_ok c ->
  let '(c', w', o) := server_dopacket input c w in
  (w', o) = deliver parse_server (messages (pending c ++ input)) (unfinished (pending c ++ input)) w /\
  (o = Done -> con_ok c' /\ pending c' = unfinished (pending c ++ input)).
Proof. intros Hok. unfold server_dopacket. apply server_loop_frames. apply (holds_pending c Hok). Qed.

Lemma connect_loop_frames input p endp c w :
  holds p endp c ->
  let '(c', w', o) := connect_loop input endp c w in
  (w', o) = deliver_connect (messages (p ++ input)) (unfinished (p ++ input)) w /\
  (o = Done -> con_ok c' /\ pending c' = unfinished (p ++ input)).
Proof.
  revert p endp c w. induction input as [|b input IH]; intros p endp c w Hh.
  - cbn [connect_loop]. rewrite app_nil_r, messages_no_eol, unfinished_no_eol by apply Hh.
    destruct (holds_con p endp c Hh) as [Hok Hp]. destruct Hh as (_ & _ & He & Hle & _). cbn [deliver_connect].
    rewrite (proj2 (Nat.leb_le _ _)) by lia. done.
  - cbn [connect_loop]. pose proof Hh as (Hl & Hp & He & Hle & _). destruct (Nat.leb_spec BUFSIZE endp) as [Hfull|Hroom].
    { rewrite deliver_connect_too_long by (apply full_too_long; [done|lia|done]). done. }
    destruct (IsEol b) eqn:Eb.
    + rewrite messages_eol, unfinished_eol by done.
      destruct (Nat.eqb_spec endp 0) as [->|Hne].
      * assert (p = []) as -> by (destruct p; [done|cbn in He; lia]).
        apply (IH [] 0%nat). by apply write_holds_nil.
      * destruct p as [|x p]; [by subst|].
        cbn [con_mem set_stats]. rewrite (holds_message (x :: p)) by done.
        cbn [deliver_connect]. rewrite <- He, (proj2 (Nat.leb_gt _ _)) by done.
        destruct (parse_client w (x :: p)) as [w1 [| |]]; [|done..].
        destruct (IsDead w1); [done|]. destruct (IsServer w1).
        -- assert (Hlen : length (con_mem (set_stats update_messages_received (write endp 0 (write endp b c)))) = BUFSIZE)
             by (cbn; by rewrite !length_insert).
           exact (server_dopacket_frames input (set_count 0 _) w1 (proj1 (holds_con [] 0 _ (holds_nil _ Hlen)))).
        -- apply (IH [] 0%nat). apply holds_set, write_holds_nil. cbn. by rewrite length_insert.
    + replace (p ++ b :: input) with ((p ++ [b]) ++ input) by by rewrite <- app_assoc.
      apply IH. by apply holds_write.
Qed.

Lemma connect_dopacket_frames input c w :
  con_ok c ->
  let '(c', w', o) := connect_dopacket input c w in
  (w', o) = deliver_connect (messages (pending c ++ input)) (unfinished (pending c ++ input)) w /\
  (o = Done -> con_ok c' /\ pending c' = unfinished (pending c ++ input)).
Proof. intros Hok. unfold connect_dopacket. apply connect_loop_frames. apply (holds_pending c Hok). Qed.

(** ** Input that comes in pieces *)
Lemma split_app a b :
  split_lines (a ++ b) = ((split_lines a).1 ++ (split_lines ((split_lines a).2 ++ b)).1,
                          (split_lines ((split_lines a).2 ++ b)).2).
Proof.
  induction a as [|x a IH]; cbn; [by destruct (split_lines b)|].
  rewrite IH. destruct (split_lines a) as [ls last]. cbn [fst snd].
  destruct (IsEol x) eqn:E; [done|]. destruct ls as [|l ls]; [|done].
  cbn [fst snd app split_lines]. rewrite E.
  destruct (split_lines (last ++ b)) as [[|l ls] la]; done.
Qed.

Lemma split_last_no_eol s : no_eol (split_lines s).2.
Proof.
  induction s as [|x s IH]; cbn; [constructor|].
  destruct (split_lines s) as [[|l ls] last]; destruct (IsEol x) eqn:E; try done. by constructor.
Qed.

Lemma messages_app a b :
  messages (a ++ b) = messages a ++ messages (unfinished a ++ b) /\
  unfinished (a ++ b) = unfinished (unfinished a ++ b).
Proof. unfold messages, unfinished. rewrite split_app. cbn [fst snd]. by rewrite filter_app. Qed.

(** The second part of the input, after the first was taken with the rest [la]. *)
Lemma deliver_app parse a la b last w w1 :
  deliver parse a la w = (w1, Done) -> deliver parse (a ++ b) last w = deliver parse b last w1.
Proof.
  revert w; induction a as [|m a IH]; intros w; cbn [deliver app].
  - case_match; by intros [= ->].
  - destruct (BUFSIZE <=? length m)%nat; [done|]. destruct (parse w m) as [w2 [| |]]; [|done..]. destruct (IsDead w2); [done|]. apply IH.
Qed.

(** A server stays one. *)
Definition stays_server : Prop :=
  forall w m w', parse_server w m = (w', Done) -> IsServer w = true -> IsServer w' = true.

Lemma deliver_stays ms last w w' :
  stays_server -> deliver parse_server ms last w = (w', Done) -> IsServer w = true -> IsServer w' = true.
Proof.
  intros Hs. revert w; induction ms as [|m ms IH]; intros w; cbn [deliver].
  - case_match; by intros [= ->].
  - destruct (BUFSIZE <=? length m)%nat; [done|]. destruct (parse_server w m) as [w2 [| |]] eqn:Ep; [|done..]. destruct (IsDead w2); [done|].
    intros Hd Hw. apply (IH w2 Hd). by apply (Hs w m).
Qed.

Lemma deliver_connect_app a la b last w w1 :
  stays_server -> IsServer w = false -> deliver_connect a la w = (w1, Done) ->
  deliver_connect (a ++ b) last w = (if IsServer w1 then deliver parse_server b last w1 else deliver_connect b last w1).
Proof.
  intros Hs. revert w; induction a as [|m a IH]; intros w Hw; cbn [deliver_connect app].
  - case_match; intros [= <-]. by rewrite Hw.
  - destruct (BUFSIZE <=? length m)%nat; [done|]. destruct (parse_client w m) as [w2 [| |]]; [|done..]. destruct (IsDead w2); [done|].
    destruct (IsServer w2) eqn:E2; [|by apply IH]. intros Hd. rewrite (deliver_app parse_server a la b last w2 w1 Hd).
    by rewrite (deliver_stays a la w2 w1 Hs Hd E2).
Qed.

(** ** Statistics *)
Definition total (r : received) : Z := receiveB r + 1024 * receiveK r.

Definition counters_ok (n : Z) (r : received) : Prop :=
  0 <= receiveB r < 1024 /\ 0 <= receiveK r /\ receiveK r + n < 2 ^ 32.

Lemma add_bytes_total n r :
  0 <= n < 2 ^ 16 - 1024 -> counters_ok n r ->
  total (add_bytes n r) = total r + n /\ 0 <= receiveB (add_bytes n r) < 1024 /\
  0 <= receiveK (add_bytes n r) <= receiveK r + n /\ receiveM (add_bytes n r) = receiveM r.
Proof.
  unfold counters_ok, total, add_bytes. intros Hn (Hb & Hk & Hs).
  assert (u16 (receiveB r + n) = receiveB r + n) as -> by (unfold u16; apply Z.mod_small; lia).
  destruct (1023 <? receiveB r + n) eqn:E; bprop; cbn [receiveB receiveK receiveM]; [|lia].
  change 1023 with (Z.ones 10). rewrite Z.land_ones, Z.shiftr_div_pow2 by lia.
  change (2 ^ 10) with 1024. unfold u32.
  rewrite (Z.mod_small (receiveK r + _)) by mlia. mlia.
Qed.

(** The loops count messages only. *)
Definition same_bytes (c c' : connection) : Prop :=
  let bytes r := (receiveB r, receiveK r) in
  bytes (st_me (con_stats c')) = bytes (st_me (con_stats c)) /\
  bytes (st_cptr (con_stats c')) = bytes (st_cptr (con_stats c)).

Lemma server_loop_bytes input endp c w :
  same_bytes c (server_loop input endp c w).1.1.
Proof.
  revert endp c w. induction input as [|b input IH]; intros endp c w; [done|]. cbn [server_loop].
  destruct (BUFSIZE <=? endp)%nat; [done|]. destruct (IsEol b); [|apply (IH _ (write endp b c))].
  destruct (endp =? 0)%nat; [apply (IH _ (write endp b c))|].
  destruct (parse_server w _) as [w1 [| |]]; [|done..]. destruct (IsDead w1); [done|].
  apply (IH _ (set_stats update_messages_received (write endp 0 (write endp b c)))).
Qed.

Lemma same_bytes_trans a b c : same_bytes a b -> same_bytes b c -> same_bytes a c.
Proof. intros [H1 H2] [H3 H4]. split; etransitivity; eassumption. Qed.

(** Up to the line end that makes the client a server. *)
Lemma connect_loop_server p e src q endp c w w1 :
  holds q endp c -> no_eol p -> IsEol e = true -> q ++ p <> [] -> (length (q ++ p) < BUFSIZE)%nat ->
  parse_client w (q ++ p) = (w1, Done) -> IsDead w1 = false -> IsServer w1 = true ->
  exists c', same_bytes c c' /\ connect_loop (p ++ e :: src) endp c w = server_dopacket src c' w1.
Proof.
  intros Hh Hp He. revert q endp c Hh. induction Hp as [|x p Hx Hp IH]; intros q endp c Hh Hne Hlen Hw Hd Hs;
    (assert (Hend : endp = length q) by apply Hh); rewrite length_app in Hlen.
  - rewrite app_nil_r in *. cbn [app connect_loop length] in *. rewrite (proj2 (Nat.leb_gt _ _)), He by lia.
    destruct (Nat.eqb_spec endp 0) as [E|_]; [destruct q; [done|cbn in Hend; lia]|].
    cbn [con_mem set_stats]. rewrite (holds_message q) by done. rewrite Hw, Hd, Hs.
    eexists; split; [|done]. done.
  - cbn [app connect_loop length] in *. rewrite (proj2 (Nat.leb_gt _ _)), Hx by lia.
    destruct (IH (q ++ [x]) _ _ (holds_write _ _ _ _ Hh ltac:(lia) Hx)) as (c' & Hc & E);
      [by destruct q|rewrite !length_app; cbn; lia|by rewrite <- app_assoc|done..|].
    exists c'. split; [|exact E]. by apply (same_bytes_trans _ (write endp x c)).
Qed.

Lemma same_bytes_total c c' : same_bytes c c' ->
  total (st_me (con_stats c')) = total (st_me (con_stats c)) /\
  total (st_cptr (con_stats c')) = total (st_cptr (con_stats c)).
Proof. intros [[= H1 H2] [= H3 H4]]. unfold total. by rewrite H1, H2, H3, H4. Qed.

(** Room for [n] more bytes in the counters of the server and of the client. *)
Definition stats_ok (n : Z) (s : statistics) : Prop := counters_ok n (st_me s) /\ counters_ok n (st_cptr s).

Lemma server_dopacket_total input c w :
  Z.of_nat (length input) < 2 ^ 16 - 1024 -> stats_ok (Z.of_nat (length input)) (con_stats c) ->
  let c' := (server_dopacket input c w).1.1 in
  total (st_me (con_stats c')) = total (st_me (con_stats c)) + Z.of_nat (length input) /\
  total (st_cptr (con_stats c')) = total (st_cptr (con_stats c)) + Z.of_nat (length input).
Proof.
  intros Hn [H1 H2]. unfold server_dopacket. cbv zeta.
  set (c0 := set_stats _ c). pose proof (server_loop_bytes input (con_count c0) c0 w) as Hb.
  apply same_bytes_total in Hb as [-> ->]. cbn [con_stats set_stats c0 update_bytes_received st_me st_cptr].
  destruct (add_bytes_total (Z.of_nat (length input)) (st_me (con_stats c))) as [-> _]; [lia|done|].
  destruct (add_bytes_total (Z.of_nat (length input)) (st_cptr (con_stats c))) as [-> _]; [lia|done|]. done.
Qed.

(** ** The input queue *)
Context `{!ByteQueueLaws Q}.

Lemma bq_length_nat (q : Q) : bq_ok q -> Z.to_nat (bq_length q) = length (bq_bytes q).
Proof. intros Hq. rewrite bq_length_ok by done. lia. Qed.

Lemma drain_loop_ends fuel r :
  (0 < SERVER_TCP_WINDOW)%nat -> bq_ok (rd_queue r) -> (length (bq_bytes (rd_queue r)) < fuel)%nat ->
  exists r' o, drain_loop fuel r = Some (r', o) /\ bq_ok (rd_queue r') /\
    (o = Done -> bq_bytes (rd_queue r') = []).
Proof.
  intros Hw. revert r; induction fuel as [|fuel IH]; intros r Hq Hf; [lia|]. cbn [drain_loop].
  destruct (bq_get_ok (rd_queue r) SERVER_TCP_WINDOW Hq) as (q & -> & Hq' & Hb). cbn [mbind option_bind].
  destruct (take SERVER_TCP_WINDOW (bq_bytes (rd_queue r))) as [|x l] eqn:E.
  - eexists _, _; split; [done|]. split; [exact Hq'|]. intros _. cbn. rewrite Hb.
    destruct (bq_bytes (rd_queue r)); [by rewrite drop_nil|]. destruct SERVER_TCP_WINDOW; [lia|done].
  - assert (Hlt : forall c b w, (length (bq_bytes (rd_queue (MkReader q c b w))) < fuel)%nat).
    { intros. cbn. rewrite Hb, length_drop. apply (f_equal length) in E. rewrite length_take in E. cbn in E. lia. }
    destruct (if IsServer (rd_client r) then _ else _) as [[c w] [| |]];
      [|by eexists _, _; split; [done|]; split; [exact Hq'|]..].
    destruct (if IsServer w then _ else _) as [[c' w'] [| |]];
      [|by eexists _, _; split; [done|]; split; [exact Hq'|]..].
    apply IH; [exact Hq'|apply Hlt].
Qed.

Lemma skip_eols_line_shorter s (l : list Z) : l <> [] -> (length l <= length s)%nat ->
  (length (skip_eols (drop (length l) s)) < length s)%nat.
Proof.
  intros Hl Hs. pose proof (skip_eols_length (drop (length l) s)) as H1.
  rewrite length_drop in H1. destruct l; [done|]. cbn [length] in *. lia.
Qed.

Lemma may_parse_nonempty r : bq_ok (rd_queue r) -> may_parse r = true ->
  (0 < length (bq_bytes (rd_queue r)))%nat /\ NoNewLine r = false.
Proof.
  intros Hq. unfold may_parse. rewrite bq_length_ok by done. intros. bprop. split; [lia|done].
Qed.

(** After an empty line nothing more is parsed. *)
Lemma no_line_stops r : bq_ok (rd_queue r) -> may_parse (no_line r) = false /\ bq_ok (rd_queue (no_line r)).
Proof.
  intros Hq. unfold no_line. destruct (_ <? 510); unfold may_parse; cbn [rd_queue NoNewLine].
  - by rewrite andb_false_r.
  - destruct (bq_clear_ok _ Hq) as [Hq' Hb]. rewrite bq_length_ok, Hb by done. done.
Qed.

Lemma parse_loop_stop fuel r : may_parse r = false -> parse_loop fuel r = Some (r, Done).
Proof. intros E. destruct fuel; cbn [parse_loop]; by rewrite E. Qed.

Lemma parse_loop_ends fuel r :
  (0 < SERVER_TCP_WINDOW)%nat -> bq_ok (rd_queue r) -> (length (bq_bytes (rd_queue r)) <= fuel)%nat ->
  exists r' o, parse_loop fuel r = Some (r', o) /\ bq_ok (rd_queue r').
Proof.
  intros Hw. revert r; induction fuel as [|fuel IH]; intros r Hq Hf; cbn [parse_loop];
    (destruct (may_parse r) eqn:Em; [|by eexists _, _]);
    destruct (may_parse_nonempty r Hq Em) as [Hne _]; [lia|].
  pose proof (bq_getmsg_ok (rd_queue r) BUFSIZE Hq) as H1. cbv zeta in H1.
  destruct (bq_getmsg (rd_queue r) BUFSIZE) as [q l]. destruct H1 as [Hq' H1].
  set (s := skip_eols (bq_bytes (rd_queue r))) in *. pose proof (skip_eols_length (bq_bytes (rd_queue r))) as Hs.
  fold s in Hs.
  assert (Hdrain : forall r1, bq_ok (rd_queue r1) ->
    exists r' o, drain_loop (S (Z.to_nat (bq_length (rd_queue r1)))) r1 = Some (r', o) /\ bq_ok (rd_queue r')).
  { intros r1 Hr1. destruct (drain_loop_ends (S (Z.to_nat (bq_length (rd_queue r1)))) r1 Hw Hr1) as (r' & o & ? & ? & _);
      [rewrite bq_length_nat by done; lia|]. by exists r', o. }
  destruct l as [|x l]; cbn [rd_queue rd_con rd_client].
  - set (r1 := MkReader q _ _ _). assert (Hr1 : bq_ok (rd_queue r1)) by done.
    destruct (no_line_stops r1 Hr1) as [Hstop Hok]. destruct (_ || _)%bool; [by apply Hdrain|].
    rewrite parse_loop_stop by done. by eexists _, _.
  - set (k := Nat.min BUFSIZE (length s)) in *.
    destruct (length (line (take k s)) <? k)%nat; [|by destruct H1].
    destruct H1 as (El & Hl & Hb).
    destruct (client_dopacket _ _ _) as [[c w] [| |]]; [|by eexists _, _..].
    destruct (_ || _)%bool; [by apply Hdrain|]. apply IH; [done|]. cbn [rd_queue]. rewrite Hb, <- El.
    pose proof (skip_eols_line_shorter s (x :: l) ltac:(done)) as Hsh.
    assert (length (x :: l) <= length s)%nat; [|lia].
    rewrite El. pose proof (line_length (take k s)). rewrite length_take in *. lia.
Qed.

(** The lines given to the parser while the client may be parsed. *)
Fixpoint deliver_while (allowed : W -> bool) (ms : list (list Z)) (w : W)
  : W * outcome * list (list Z) :=
  match ms with
  | [] => (w, Done, [])
  | m :: r =>
      if allowed w then
        match parse_client w m with
        | (w, Done) => if IsDead w then (exit_client w, Killed, r) else deliver_while allowed r w
        | (w, o) => (w, o, r)
        end
      else (w, Done, ms)
  end.

Definition allowed (w : W) : bool := IsTrusted w || IsOper w || IsBot w || since_ok w.

Definition short_lines (s : list Z) : Prop :=
  Forall (fun l => (length l < BUFSIZE)%nat) (split_lines s).1 /\ (length (split_lines s).2 < 510)%nat.

Lemma split_cons_eol x s : IsEol x = true -> split_lines (x :: s) = ([] :: (split_lines s).1, (split_lines s).2).
Proof. intros E. cbn. rewrite E. by destruct (split_lines s). Qed.

Lemma skip_eols_cons x s : IsEol x = true -> skip_eols (x :: s) = skip_eols s.
Proof. intros E. unfold skip_eols. cbn [eols]. by rewrite E. Qed.

Lemma skip_eols_messages s : messages (skip_eols s) = messages s.
Proof.
  induction s as [|x s IH]; [done|]. destruct (IsEol x) eqn:E.
  - rewrite skip_eols_cons, IH by done. symmetry. by apply (messages_eol [] x s).
  - unfold skip_eols. cbn [eols]. by rewrite E.
Qed.

Lemma skip_eols_short s : short_lines s -> short_lines (skip_eols s).
Proof.
  induction s as [|x s IH]; [done|]. destruct (IsEol x) eqn:E.
  - rewrite skip_eols_cons by done. unfold short_lines. rewrite split_cons_eol by done.
    cbn [fst snd]. intros [H1 H2]. apply Forall_cons in H1 as [_ H1]. by apply IH.
  - unfold skip_eols. cbn [eols]. by rewrite E.
Qed.

Lemma skip_eols_head s e r : skip_eols s = e :: r -> IsEol e = false.
Proof.
  induction s as [|x s IH]; [done|]. destruct (IsEol x) eqn:E.
  - by rewrite skip_eols_cons.
  - unfold skip_eols. cbn [eols]. rewrite E. by intros [= -> ->].
Qed.

Lemma line_at p e r k : no_eol p -> IsEol e = true -> (length p < k)%nat -> line (take k (p ++ e :: r)) = p.
Proof.
  intros Hp He. revert k. induction Hp as [|x p Hx Hp IH]; intros [|k] Hk; cbn in *; try lia.
  - by rewrite He.
  - rewrite Hx. f_equal. apply IH. lia.
Qed.

Lemma line_all p : no_eol p -> line p = p.
Proof. induction 1 as [|x p Hx Hp IH]; [done|]. cbn. by rewrite Hx, IH. Qed.

(** What one call of dbuf_getmsg() gives for short lines. *)
Lemma getmsg_short q :
  bq_ok q -> short_lines (bq_bytes q) ->
  let '(q', l) := bq_getmsg q BUFSIZE in
  bq_ok q' /\ short_lines (bq_bytes q') /\ (length (bq_bytes q') + length l <= length (bq_bytes q))%nat /\
  match messages (bq_bytes q) with
  | [] => l = [] /\ messages (bq_bytes q') = [] /\ (length (bq_bytes q') < 510)%nat
  | m :: ms => l = m /\ l <> [] /\ messages (bq_bytes q') = ms
  end.
Proof.
  intros Hq Hs. pose proof (bq_getmsg_ok q BUFSIZE Hq) as H1. cbv zeta in H1.
  destruct (bq_getmsg q BUFSIZE) as [q' l]. destruct H1 as [Hq' H1].
  rewrite <- (skip_eols_messages (bq_bytes q)). apply skip_eols_short in Hs.
  pose proof (skip_eols_length (bq_bytes q)) as Hsl. pose proof (skip_eols_head (bq_bytes q)) as Hhd.
  set (s := skip_eols (bq_bytes q)) in *. set (k := Nat.min BUFSIZE (length s)) in *.
  destruct (eol_cases s) as [Hp|(p & e & r & Es & Hp & He)].
  - assert (line (take k s) = take k s) as Ek by (apply line_all; by apply Forall_take).
    rewrite Ek, length_take in H1. rewrite (proj2 (Nat.ltb_ge _ _)) in H1 by lia. destruct H1 as [-> ->].
    rewrite messages_no_eol by done. destruct Hs as [Hs1 Hs2]. split; [done|]. split; [done|].
    cbn [length]. split; [lia|]. split; [done|]. split; [done|]. by rewrite split_no_eol in Hs2.
  - assert (p <> []) as Hne.
    { intros ->. specialize (Hhd e r Es). congruence. }
    rewrite Es in *. pose proof Hs as [Hs1 _]. rewrite split_eol in Hs1 by done.
    apply Forall_cons in Hs1 as [Hpl _]. assert (length p < k)%nat as Hk.
    { unfold k. rewrite Es, length_app. cbn [length]. lia. }
    rewrite length_app in Hsl. cbn [length] in Hsl. rewrite line_at in H1 by done. rewrite (proj2 (Nat.ltb_lt _ _)) in H1 by lia.
    destruct H1 as (-> & _ & ->). rewrite messages_eol by done.
    rewrite drop_app_length, skip_eols_messages, (messages_eol [] e r : no_eol [] -> _ -> messages (e :: r) = _) by done.
    split; [done|]. split.
    { apply skip_eols_short. unfold short_lines in *. rewrite split_eol in Hs by done.
      rewrite split_cons_eol by done. cbn [fst snd] in *. destruct Hs as [Hs1 Hs2].
      apply Forall_cons in Hs1 as [_ Hs1]. split; [constructor; [unfold BUFSIZE; cbn; lia|done]|done]. }
    split; [|by destruct p].
    pose proof (skip_eols_length (e :: r)). cbn [length] in *. lia.
Qed.

Lemma parse_loop_lines fuel r :
  (forall w, IsHandshake w || IsServer w = false) ->
  bq_ok (rd_queue r) -> (length (bq_bytes (rd_queue r)) <= fuel)%nat -> NoNewLine r = false ->
  short_lines (bq_bytes (rd_queue r)) ->
  let '(w', o, rest) := deliver_while allowed (messages (bq_bytes (rd_queue r))) (rd_client r) in
  exists r', parse_loop fuel r = Some (r', o) /\ rd_client r' = w' /\
    messages (bq_bytes (rd_queue r')) = rest.
Proof.
  intros Hstay. revert r; induction fuel as [|fuel IH]; intros r Hq Hf Hnl Hs.
  { assert (bq_bytes (rd_queue r) = []) as E by (apply nil_length_inv; lia). rewrite E. cbn.
    exists r. cbn [parse_loop]. unfold may_parse. rewrite bq_length_ok, E by done. done. }
  cbn [parse_loop]. unfold may_parse. rewrite Hnl, bq_length_ok by done. cbn [negb andb].
  destruct (Z.eqb_spec (Z.of_nat (length (bq_bytes (rd_queue r)))) 0) as [E|Hne].
  { assert (bq_bytes (rd_queue r) = []) as E' by (apply nil_length_inv; lia).
    rewrite E'. cbn. exists r. by rewrite E'. }
  cbn [negb andb]. fold (allowed (rd_client r)). destruct (allowed (rd_client r)) eqn:Ea.
  2:{ destruct (messages (bq_bytes (rd_queue r))) eqn:Em; cbn; rewrite ?Ea; exists r; by rewrite Em. }
  pose proof (getmsg_short (rd_queue r) Hq Hs) as H1.
  destruct (bq_getmsg (rd_queue r) BUFSIZE) as [q l]. destruct H1 as (Hq' & Hs' & Hlen & H1).
  destruct (messages (bq_bytes (rd_queue r))) as [|m ms]; cbn [deliver_while].
  - destruct H1 as (-> & Hm & Hsh). rewrite Hstay. unfold no_line. cbn [rd_queue rd_con rd_client].
    rewrite bq_length_ok by done. unfold u32. rewrite Z.mod_small by lia.
    rewrite (proj2 (Z.ltb_lt _ _)) by lia.
    rewrite parse_loop_stop by (unfold may_parse; cbn; by rewrite andb_false_r). by eexists.
  - destruct H1 as (-> & Hm & Hrest). rewrite Ea. destruct m as [|x m]; [done|].
    unfold client_dopacket, store_line. cbn [rd_con rd_client con_mem set_stats rd_queue].
    rewrite take_app_length. destruct (parse_client (rd_client r) (x :: m)) as [w1 [| |]]; [|by eexists..].
    destruct (IsDead w1); [by eexists|]. rewrite Hstay.
    cbn [length] in Hlen. rewrite <- Hrest.
    match goal with |- context [parse_loop fuel ?r1] => apply (IH r1) end; cbn; [done|lia|done|done].
Qed.

(** ** Properties *)

(** C28: however the input of a connection is cut into packets, server_dopacket()
    gives the parser the same messages: the non-empty lines of what is pending and
    what arrives, in order, until the client is killed or dead or a line does not
    fit; what follows the last line end stays pending, and a packet and a second
    one are worth the two in one.  A line of 512 bytes or more is not cut: its
    end, or the next byte of it, is stored behind con_buffer, and nothing is said
    of what comes after that store.  connect_dopacket() does the same for a
    connection that is no server, and hands the lines after the one that makes it
    a server to the server parser; when a server stays a server, the second packet
    goes to the function read_packet() picks for it then. *)
Theorem packet_framing a b c w :
  con_ok c ->
  (let '(c1, w1, o1) := server_dopacket a c w in
   (w1, o1) = deliver parse_server (messages (pending c ++ a)) (unfinished (pending c ++ a)) w /\
   (o1 = Done ->
    con_ok c1 /\ pending c1 = unfinished (pending c ++ a) /\
    let '(c2, w2, o2) := server_dopacket b c1 w1 in
    let '(c3, w3, o3) := server_dopacket (a ++ b) c w in
    (w2, o2) = (w3, o3) /\ (o2 = Done -> pending c2 = pending c3))) /\
  (let '(c1, w1, o1) := connect_dopacket a c w in
   (w1, o1) = deliver_connect (messages (pending c ++ a)) (unfinished (pending c ++ a)) w /\
   (o1 = Done ->
    con_ok c1 /\ pending c1 = unfinished (pending c ++ a) /\
    (IsServer w = false -> stays_server ->
     let '(c2, w2, o2) := dopacket b c1 w1 in
     let '(c3, w3, o3) := connect_dopacket (a ++ b) c w in
     (w2, o2) = (w3, o3) /\ (o2 = Done -> pending c2 = pending c3)))).
Proof.
  intros Hok. destruct (messages_app (pending c ++ a) b) as [Em Eu]. rewrite <- app_assoc in Em, Eu. split.
  - pose proof (server_dopacket_frames a c w Hok) as H1.
    pose proof (server_dopacket_frames (a ++ b) c w Hok) as H3.
    destruct (server_dopacket a c w) as [[c1 w1] o1]. destruct H1 as [E1 H1].
    split; [done|]. intros ->. destruct (H1 eq_refl) as [Hok1 Hp1]. split; [done|]. split; [done|].
    pose proof (server_dopacket_frames b c1 w1 Hok1) as H2.
    destruct (server_dopacket b c1 w1) as [[c2 w2] o2]. destruct (server_dopacket (a ++ b) c w) as [[c3 w3] o3].
    destruct H2 as [E2 H2], H3 as [E3 H3]. rewrite Em, Eu, (deliver_app _ _ _ _ _ _ _ (eq_sym E1)), <- Hp1, <- E2 in E3.
    split; [done|]. intros ->. injection E3 as -> ->. destruct (H2 eq_refl) as [_ ->], (H3 eq_refl) as [_ ->].
    by rewrite Eu, Hp1.
  - pose proof (connect_dopacket_frames a c w Hok) as H1.
    pose proof (connect_dopacket_frames (a ++ b) c w Hok) as H3.
    destruct (connect_dopacket a c w) as [[c1 w1] o1]. destruct H1 as [E1 H1].
    split; [done|]. intros ->. destruct (H1 eq_refl) as [Hok1 Hp1]. split; [done|]. split; [done|]. intros Hw Hs.
    assert (H2 : let '(c2, w2, o2) := dopacket b c1 w1 in
      (w2, o2) = (if IsServer w1 then deliver parse_server (messages (pending c1 ++ b)) (unfinished (pending c1 ++ b)) w1
                  else deliver_connect (messages (pending c1 ++ b)) (unfinished (pending c1 ++ b)) w1) /\
      (o2 = Done -> con_ok c2 /\ pending c2 = unfinished (pending c1 ++ b))).
    { unfold dopacket. destruct (IsServer w1); [by apply server_dopacket_frames|by apply connect_dopacket_frames]. }
    destruct (dopacket b c1 w1) as [[c2 w2] o2]. destruct (connect_dopacket (a ++ b) c w) as [[c3 w3] o3].
    destruct H2 as [E2 H2], H3 as [E3 H3].
    rewrite Em, Eu, (deliver_connect_app _ _ _ _ _ _ Hs Hw (eq_sym E1)), <- Hp1, <- E2 in E3.
    split; [done|]. intros ->. injection E3 as -> ->. destruct (H2 eq_refl) as [_ ->], (H3 eq_refl) as [_ ->].
    by rewrite Eu, Hp1.
Qed.

(** A line that reaches 512 bytes and goes on, or ends, is stored behind con_buffer,
    though the comment says there is always room for the null. *)
Theorem packet_buffer_overflow c w p b :
  con_ok c -> no_eol p -> (length (pending c) + length p = BUFSIZE)%nat ->
  (server_dopacket (p ++ [b]) c w).2 = Overflow.
Proof.
  intros Hok Hp Hlen. pose proof (server_dopacket_frames (p ++ [b]) c w Hok) as Hf.
  destruct (server_dopacket _ c w) as [[c1 w1] o1]. destruct Hf as [Hf _].
  rewrite deliver_too_long in Hf; [by injection Hf as _ ->|]. rewrite app_assoc.
  apply full_too_long; [|by rewrite length_app|done]. apply Forall_app. split; [apply (holds_pending c Hok)|done].
Qed.

(** Server_dopacket() adds exactly the bytes of its packet to the counters of
    the server and of the client, none lost in the 16 bit counter for a packet
    that fits in readbuf; connect_dopacket() hands the rest of a packet over with
    a second count, so the bytes after the line that makes a connection a server
    are counted twice. *)
Theorem received_bytes_counted input c w p e w1 :
  Z.of_nat (length input) <= 61440 -> stats_ok (2 * Z.of_nat (length input)) (con_stats c) ->
  (let c' := (server_dopacket input c w).1.1 in
   total (st_cptr (con_stats c')) = total (st_cptr (con_stats c)) + Z.of_nat (length input) /\
   total (st_me (con_stats c')) = total (st_me (con_stats c)) + Z.of_nat (length input)) /\
  (forall src, con_ok c -> no_eol p -> p <> [] -> IsEol e = true -> input = p ++ e :: src ->
   (length (pending c ++ p) < BUFSIZE)%nat -> parse_client w (pending c ++ p) = (w1, Done) -> IsDead w1 = false -> IsServer w1 = true ->
   let c' := (connect_dopacket input c w).1.1 in
   total (st_cptr (con_stats c')) =
     total (st_cptr (con_stats c)) + Z.of_nat (length input) + Z.of_nat (length src)).
Proof.
  intros Hn [Hm Hc]. unfold counters_ok in Hm, Hc. split.
  - destruct (server_dopacket_total input c w) as [H1 H2]; [lia|split; unfold counters_ok; lia|]. done.
  - intros src Hok Hp Hpne He Ei Hfit Hw Hd Hs. unfold connect_dopacket.
    set (c0 := set_stats _ c).
    destruct (connect_loop_server p e src (pending c) (con_count c) c0 w w1 (holds_pending c Hok))
      as (c' & Hb & E); [done|done|by destruct (pending c)|done..|].
    cbn zeta. rewrite Ei at 1. change (con_count c0) with (con_count c). rewrite E.
    destruct (same_bytes_total _ _ Hb) as [Tm Tc].
    pose proof (add_bytes_total (Z.of_nat (length input)) (st_me (con_stats c)) ltac:(lia) ltac:(unfold counters_ok; lia)) as (Am & Bm & Km & _).
    pose proof (add_bytes_total (Z.of_nat (length input)) (st_cptr (con_stats c)) ltac:(lia) ltac:(unfold counters_ok; lia)) as (Ac & Bc & Kc & _).
    assert (length input = (length p + S (length src))%nat) as El by (rewrite Ei, length_app; done).
    destruct Hb as [[= B1 K1] [= B2 K2]].
    destruct (server_dopacket_total src c' w1) as [_ ->].
    + lia.
    + unfold stats_ok, counters_ok. rewrite B1, K1, B2, K2. cbn [c0 con_stats set_stats update_bytes_received st_me st_cptr]. lia.
    + rewrite Tc. cbn [c0 con_stats set_stats update_bytes_received st_cptr]. lia.
Qed.

(** Read_packet() returns for every input, whatever the parser does, and the
    queue stays well formed: every turn of its loops takes a line or a block off
    the queue, or stops. *)
Theorem read_packet_ends input r :
  (0 < SERVER_TCP_WINDOW)%nat -> bq_ok (rd_queue r) -> Z.of_nat (length (bq_bytes (rd_queue r)) + length input) < 2 ^ 32 ->
  exists r' o, read_packet input r = Some (r', o) /\ bq_ok (rd_queue r').
Proof.
  intros Hw Hq Hlen. unfold read_packet. set (r1 := match input with [] => _ | _ => _ end).
  assert (Hq1 : rd_queue r1 = rd_queue r) by by destruct input.
  destruct (_ && IsServer _)%bool.
  { destruct (server_dopacket _ _ _) as [[c w] o]. eexists _, _; split; [done|]. cbn. by rewrite Hq1. }
  destruct (_ && (_ || _))%bool.
  { destruct (connect_dopacket _ _ _) as [[c w] o]. eexists _, _; split; [done|]. cbn. by rewrite Hq1. }
  assert (exists q b, (match input with [] => Some (rd_queue r1, true) | _ => bq_put (rd_queue r1) input end)
    = Some (q, b) /\ bq_ok q) as (q & b & -> & Hq').
  { rewrite Hq1. destruct input as [|x l]; [by eexists _, _|].
    destruct (bq_put_ok (rd_queue r) (x :: l) Hq Hlen) as (q & b & ? & ? & _). by exists q, b. }
  cbn [mbind option_bind]. destruct (negb b); [by eexists _, _|].
  destruct (_ && _)%bool; [by eexists _, _|].
  apply parse_loop_ends; [done|done|]. cbn [rd_queue]. rewrite bq_length_nat by done. lia.
Qed.

(** The data of a client that does not become a server goes through the queue
    to parse_client() as the same messages: for lines shorter than the buffer,
    read_packet() delivers the lines of the queue and the input in order while
    the client may be parsed, and the lines not yet delivered stay in the queue;
    a user with more than CLIENT_FLOOD bytes waiting is killed instead. *)
Theorem read_packet_delivers input r :
  (forall w, IsHandshake w || IsServer w = false) -> (forall w, IsConnecting w = false) ->
  bq_ok (rd_queue r) -> input <> [] ->
  Z.of_nat (length (bq_bytes (rd_queue r)) + length input) < 2 ^ 32 ->
  short_lines (bq_bytes (rd_queue r) ++ input) ->
  let w := data_arrived (rd_client r) in
  exists r' o, read_packet input r = Some (r', o) /\
    (o = Killed /\ rd_client r' = exit_client w \/
     deliver_while allowed (messages (bq_bytes (rd_queue r) ++ input)) w =
       (rd_client r', o, messages (bq_bytes (rd_queue r'))) /\
     (IsUser w = true -> IsOper w = false -> IsBot w = false ->
      Z.of_nat (length (bq_bytes (rd_queue r) ++ input)) <= u32 CLIENT_FLOOD)).
Proof.
  intros Hstay Hcon Hq Hne Hlen Hs w. unfold read_packet. destruct input as [|x l]; [done|].
  destruct (orb_false_elim _ _ (Hstay w)) as [Hh Hsv].
  cbn [rd_client rd_queue rd_con]. fold w. rewrite Hsv, Hh, Hcon, !andb_false_r.
  destruct (bq_put_ok (rd_queue r) (x :: l) Hq Hlen) as (q & b & -> & Hq' & Hb). cbn [mbind option_bind].
  destruct b; cbn [negb]; [|by eexists _, _; split; [|left]].
  destruct (_ && _ && _ && _)%bool eqn:Ef; [by eexists _, _; split; [|left]|].
  pose proof (parse_loop_lines (S (Z.to_nat (bq_length q))) (MkReader q (rd_con r) false w) Hstay) as H1.
  cbn [rd_queue rd_client NoNewLine] in H1. rewrite bq_length_nat, Hb in H1 by done.
  specialize (H1 Hq' ltac:(lia) eq_refl Hs).
  destruct (deliver_while _ _ w) as [[w' o] rest]. destruct H1 as (r' & E & <- & <-).
  exists r', o. split; [by rewrite bq_length_nat, Hb by done|]. right. split; [done|]. intros Hu Ho Hbt.
  rewrite Hu, Ho, Hbt in Ef. cbn [andb negb] in Ef. rewrite !andb_true_r in Ef. bprop.
  rewrite bq_length_ok, Hb in Ef by done. lia.
Qed.
End packet.

(** ** A concrete parser *)

(** The client is the list of the messages it got: QUIT kills it, SERVER makes
    it a server. *)
Definition log_parse (w : list (list Z)) (m : list Z) : list (list Z) * outcome :=
  (w ++ [m], if decide (m = lit "QUIT") then Killed else Done).

Definition log_server (w : list (list Z)) : bool := bool_decide (lit "SERVER" ∈ w).

Definition empty_connection : connection :=
  MkConnection (replicate BUFSIZE 0) 0 (MkStatistics (MkReceived 0 0 0) (MkReceived 0 0 0)).

Lemma empty_connection_ok : con_ok empty_connection.
Proof. split_and!; [apply length_replicate|cbn; lia|constructor]. Qed.

Definition crlf : list Z := [13; 10].

Lemma packet_framing_witness :
  exists c1 w1, server_dopacket log_parse (fun _ => false) (fun x => x) (lit "NICK a" ++ crlf ++ lit "US") empty_connection [] =
    (c1, w1, Done) /\ w1 = [lit "NICK a"] /\ pending c1 = lit "US".
Proof.
  destruct (packet_framing log_parse log_parse (fun _ => false) log_server (fun x => x)
    (lit "NICK a" ++ crlf ++ lit "US") (lit "ER" ++ crlf) empty_connection [] empty_connection_ok) as [H _].
  destruct (server_dopacket log_parse (fun _ => false) (fun x => x) (lit "NICK a" ++ crlf ++ lit "US") empty_connection [])
    as [[c1 w1] o1].
  destruct H as [E H]. assert ((w1, o1) = ([lit "NICK a"], Done)) as [= -> ->]
    by (rewrite E; vm_compute; reflexivity).
  destruct (H eq_refl) as (_ & Hp & _). exists c1, [lit "NICK a"]. split; [reflexivity|]. split; [reflexivity|].
  rewrite Hp. vm_compute. reflexivity.
Defined.

Lemma packet_buffer_overflow_witness :
  (server_dopacket log_parse (fun _ => false) (fun x => x) (replicate BUFSIZE 65 ++ [10]) empty_connection []).2 = Overflow.
Proof.
  apply (packet_buffer_overflow log_parse (fun _ => false) (fun x => x) empty_connection [] (replicate BUFSIZE 65) 10
    empty_connection_ok); [by_decide|reflexivity].
Defined.

Lemma received_bytes_counted_witness :
  exists c, total (st_cptr (con_stats c)) = 17 /\
    c = (connect_dopacket log_parse log_parse (fun _ => false) log_server (fun x => x)
          (lit "SERVER" ++ 10 :: lit "12345") empty_connection []).1.1.
Proof.
  eexists. split; [|reflexivity].
  rewrite (proj2 (received_bytes_counted log_parse log_parse (fun _ => false) log_server (fun x => x)
    (lit "SERVER" ++ 10 :: lit "12345") empty_connection [] (lit "SERVER") 10 [lit "SERVER"]
    ltac:(vm_compute; discriminate)
    ltac:(split; split_and!; vm_compute; (reflexivity || discriminate))) (lit "12345") empty_connection_ok);
    [reflexivity|by_decide|discriminate|reflexivity|reflexivity|vm_compute; lia|reflexivity..].
Defined.

Section Witness.
#[local] Instance sample_queue : ByteQueue (pool * DBuf) := dbuf_queue 1024 false (fun x => x).

Lemma flush_id p others n : acct p others n -> exists others', acct ((fun x => x) p) others' n.
Proof. by exists others. Qed.

#[local] Instance sample_queue_laws : ByteQueueLaws (pool * DBuf) := dbuf_queue_laws 1024 false (fun x => x) flush_id.

Lemma sample_queue_ok : bq_ok (sample_pool, sample_dbuf).
Proof. split; [apply sample_dbuf_ok|exists 2; apply sample_dbuf_ok]. Qed.

Definition sample_reader : reader := MkReader (sample_pool, sample_dbuf) empty_connection false ([] : list (list Z)).

Lemma read_packet_ends_witness :
  exists r' o, read_packet log_parse log_parse (fun _ => false) log_server (fun x => x)
    (fun _ => true) (fun _ => false) (fun _ => false) (fun _ => true) log_server (fun _ => false)
    (fun _ => false) (fun x => x) 1024 2048 (lit "SERVER" ++ crlf ++ lit "NICK" ++ crlf) sample_reader = Some (r', o) /\
    bq_ok (rd_queue r').
Proof.
  apply (read_packet_ends log_parse log_parse (fun _ => false) log_server (fun x => x)
    (fun _ => true) (fun _ => false) (fun _ => false) (fun _ => true) log_server (fun _ => false)
    (fun _ => false) (fun x => x) 1024 2048 (lit "SERVER" ++ crlf ++ lit "NICK" ++ crlf) sample_reader).
  - lia.
  - apply sample_queue_ok.
  - vm_compute. reflexivity.
Defined.

Lemma read_packet_delivers_witness :
  exists r' o, read_packet log_parse log_parse (fun _ => false) (fun _ => false) (fun x => x)
    (fun _ => true) (fun _ => false) (fun _ => false) (fun _ => true) (fun _ => false) (fun _ => false)
    (fun _ => false) (fun x => x) 1024 2048 (lit "ef" ++ crlf) sample_reader = Some (r', o) /\
    (o = Killed \/ rd_client r' = [lit "ab"; lit "cdef"]).
Proof.
  destruct (read_packet_delivers log_parse log_parse (fun _ => false) (fun _ => false) (fun x => x)
    (fun _ => true) (fun _ => false) (fun _ => false) (fun _ => true) (fun _ => false) (fun _ => false)
    (fun _ => false) (fun x => x) 1024 2048 (lit "ef" ++ crlf) sample_reader) as (r' & o & E & H);
    [reflexivity|reflexivity|apply sample_queue_ok|discriminate|vm_compute; reflexivity| |].
  - split; [by_decide|vm_compute; lia].
  - exists r', o. split; [exact E|]. destruct H as [[-> _]|[H _]]; [by left|right].
    pose proof (f_equal (fun p => p.1.1) H) as H1. cbn [fst] in H1. rewrite <- H1. vm_compute. reflexivity.
Defined.
End Witness.
