(* ===== verification/Md5.v ===== *)
(** * ircd/md5.c: the MD5 digest

    The context of the code, with words of the 64 bits of an unsigned long whose
    upper halves are never cleared, against the digest of RFC 1321 on 32-bit
    words ([md5]).  The four words are a tuple, a byte is a [Z] below 256. *)
From S2P Require Import Prelude.
Open Scope ircd_scope.

(** ** The code *)
Definition F (x y z : Z) : Z := z .^ (x .& (y .^ z)).
Definition G (x y z : Z) : Z := y .^ (z .& (x .^ y)).
Definition H (x y z : Z) : Z := x .^ y .^ z.
Definition I (x y z : Z) : Z := y .^ (x .| u64 (Z.lnot z)).

(** STEP(f, a, b, c, d, x, t, s): the new value of [a]. *)
Definition STEP (f : Z -> Z -> Z -> Z) (a b c d x t s : Z) : Z :=
  let a := u64 (a + u64 (u64 (f b c d + x) + t)) in
  let a := u64 (a << s) .| ((a .& 0xffffffff) >> (32 - s)) in
  u64 (a + b).

Definition regs : Type := Z * Z * Z * Z.

(** SET(n): the word at a byte position. *)
Definition SET (ptr : list Z) (n : nat) : Z :=
  ch ptr (n * 4) .| (ch ptr (n * 4 + 1) << 8) .| (ch ptr (n * 4 + 2) << 16) .| (ch ptr (n * 4 + 3) << 24).

(** A round: its steps by the word they read, the constant and the shift; the
    registers take turns in the order a, d, c, b. *)
Fixpoint round (f : Z -> Z -> Z -> Z) (block : nat -> Z) (steps : list (nat * Z * Z)) (r : regs) : regs :=
  let '(a, b, c, d) := r in
  match steps with
  | (k1, t1, s1) :: (k2, t2, s2) :: (k3, t3, s3) :: (k4, t4, s4) :: steps =>
      let a := STEP f a b c d (block k1) t1 s1 in
      let d := STEP f d a b c (block k2) t2 s2 in
      let c := STEP f c d a b (block k3) t3 s3 in
      let b := STEP f b c d a (block k4) t4 s4 in
      round f block steps (a, b, c, d)
  | _ => r
  end.

Definition round1 : list (nat * Z * Z) :=
  [(0%nat, 0xd76aa478, 7); (1%nat, 0xe8c7b756, 12); (2%nat, 0x242070db, 17); (3%nat, 0xc1bdceee, 22);
   (4%nat, 0xf57c0faf, 7); (5%nat, 0x4787c62a, 12); (6%nat, 0xa8304613, 17); (7%nat, 0xfd469501, 22);
   (8%nat, 0x698098d8, 7); (9%nat, 0x8b44f7af, 12); (10%nat, 0xffff5bb1, 17); (11%nat, 0x895cd7be, 22);
   (12%nat, 0x6b901122, 7); (13%nat, 0xfd987193, 12); (14%nat, 0xa679438e, 17); (15%nat, 0x49b40821, 22)].

Definition round2 : list (nat * Z * Z) :=
  [(1%nat, 0xf61e2562, 5); (6%nat, 0xc040b340, 9); (11%nat, 0x265e5a51, 14); (0%nat, 0xe9b6c7aa, 20);
   (5%nat, 0xd62f105d, 5); (10%nat, 0x02441453, 9); (15%nat, 0xd8a1e681, 14); (4%nat, 0xe7d3fbc8, 20);
   (9%nat, 0x21e1cde6, 5); (14%nat, 0xc33707d6, 9); (3%nat, 0xf4d50d87, 14); (8%nat, 0x455a14ed, 20);
   (13%nat, 0xa9e3e905, 5); (2%nat, 0xfcefa3f8, 9); (7%nat, 0x676f02d9, 14); (12%nat, 0x8d2a4c8a, 20)].

Definition round3 : list (nat * Z * Z) :=
  [(5%nat, 0xfffa3942, 4); (8%nat, 0x8771f681, 11); (11%nat, 0x6d9d6122, 16); (14%nat, 0xfde5380c, 23);
   (1%nat, 0xa4beea44, 4); (4%nat, 0x4bdecfa9, 11); (7%nat, 0xf6bb4b60, 16); (10%nat, 0xbebfbc70, 23);
   (13%nat, 0x289b7ec6, 4); (0%nat, 0xeaa127fa, 11); (3%nat, 0xd4ef3085, 16); (6%nat, 0x04881d05, 23);
   (9%nat, 0xd9d4d039, 4); (12%nat, 0xe6db99e5, 11); (15%nat, 0x1fa27cf8, 16); (2%nat, 0xc4ac5665, 23)].

Definition round4 : list (nat * Z * Z) :=
  [(0%nat, 0xf4292244, 6); (7%nat, 0x432aff97, 10); (14%nat, 0xab9423a7, 15); (5%nat, 0xfc93a039, 21);
   (12%nat, 0x655b59c3, 6); (3%nat, 0x8f0ccc92, 10); (10%nat, 0xffeff47d, 15); (1%nat, 0x85845dd1, 21);
   (8%nat, 0x6fa87e4f, 6); (15%nat, 0xfe2ce6e0, 10); (6%nat, 0xa3014314, 15); (13%nat, 0x4e0811a1, 21);
   (4%nat, 0xf7537e82, 6); (11%nat, 0xbd3af235, 10); (2%nat, 0x2ad7d2bb, 15); (9%nat, 0xeb86d391, 21)].

(** One pass of the loop of body(). *)
Definition transform (ptr : list Z) (r : regs) : regs :=
  let '(a, b, c, d) := round I (SET ptr) round4 (round H (SET ptr) round3
                        (round G (SET ptr) round2 (round F (SET ptr) round1 r))) in
  let '(saved_a, saved_b, saved_c, saved_d) := r in
  (u64 (a + saved_a), u64 (b + saved_b), u64 (c + saved_c), u64 (d + saved_d)).

(** body() on [n] blocks of 64 bytes. *)
Fixpoint body (n : nat) (ptr : list Z) (r : regs) : regs :=
  match n with
  | O => r
  | S n => body n (drop 64 ptr) (transform ptr r)
  end.

Record MD5_CTX := MkMD5 { lo : Z; hi : Z; abcd : regs; buffer : list Z }.

Definition init_regs : regs := (0x67452301, 0xefcdab89, 0x98badcfe, 0x10325476).

(** MD5_Init(); the buffer holds whatever it did. *)
Definition MD5_Init (garbage : list Z) : MD5_CTX := MkMD5 0 0 init_regs garbage.

(** memcpy(&buffer[at], data, n) *)
Definition memcpy (buffer : list Z) (at_ : nat) (data : list Z) : list Z :=
  take at_ buffer ++ data ++ drop (at_ + length data) buffer.

Definition MD5_Update (ctx : MD5_CTX) (data : list Z) : MD5_CTX :=
  let size := Z.of_nat (length data) in
  let saved_lo := lo ctx in
  let lo := u64 (saved_lo + size) .& 0x1fffffff in
  let hi := if lo <? saved_lo then u64 (hi ctx + 1) else hi ctx in
  let hi := u64 (hi + (size >> 29)) in
  let used := Z.to_nat (saved_lo .& 0x3f) in
  let free := (64 - used)%nat in
  if negb (used =? 0)%nat && (length data <? free)%nat then
    MkMD5 lo hi (abcd ctx) (memcpy (buffer ctx) used data)
  else
    let '(r, buf, data) :=
      (if (used =? 0)%nat then (abcd ctx, buffer ctx, data)
       else
         let buf := memcpy (buffer ctx) used (take free data) in
         (body 1 buf (abcd ctx), buf, drop free data)) in
    let blocks := (length data / 64)%nat in
    let r := body blocks data r in
    let data := drop (blocks * 64) data in
    MkMD5 lo hi r (memcpy buf 0 data).

(** The low bytes of a word, lowest first. *)
Definition le_bytes (n : nat) (w : Z) : list Z :=
  map (fun i => (w >> (8 * Z.of_nat i)) .& 0xff) (seq 0 n).

Definition MD5_Final (ctx : MD5_CTX) : list Z :=
  let used := Z.to_nat (lo ctx .& 0x3f) in
  let buf := memcpy (buffer ctx) used [0x80] in
  let used := S used in
  let free := (64 - used)%nat in
  let '(r, buf, used, free) :=
    (if (free <? 8)%nat then
       let buf := memcpy buf used (replicate free 0) in (body 1 buf (abcd ctx), buf, 0%nat, 64%nat)
     else (abcd ctx, buf, used, free)) in
  let buf := memcpy buf used (replicate (free - 8) 0) in
  let buf := memcpy buf 56 (le_bytes 4 (u64 (lo ctx << 3)) ++ le_bytes 4 (hi ctx)) in
  let '(a, b, c, d) := body 1 buf r in
  le_bytes 4 a ++ le_bytes 4 b ++ le_bytes 4 c ++ le_bytes 4 d.

Definition DoMD5 (garbage src : list Z) : list Z := MD5_Final (MD5_Update (MD5_Init garbage) src).

(** ** RFC 1321 *)
Definition rotl (x s : Z) : Z := u32 (x << s) .| (x >> (32 - s)).

(** The round functions on 32-bit words. *)
Definition F' (x y z : Z) : Z := (x .& y) .| (u32 (Z.lnot x) .& z).
Definition G' (x y z : Z) : Z := (x .& z) .| (y .& u32 (Z.lnot z)).
Definition H' (x y z : Z) : Z := x .^ y .^ z.
Definition I' (x y z : Z) : Z := y .^ (x .| u32 (Z.lnot z)).

(** The table of the RFC: the integer part of 2^32 times the absolute value of
    the sine of 1 to 64 radians.  The sine is the sum of its series in fixed point
    with 256 bits after the point; the terms from the 150th on and the errors of
    the divisions are too small to reach the 32 bits kept. *)
Fixpoint sine_terms (n : nat) (k x term : Z) : Z :=
  match n with
  | O => 0
  | S n => term + sine_terms n (k + 2) x (Z.quot (- (term * x * x)) ((k + 1) * (k + 2)))
  end.

Definition sine (x : Z) : Z := sine_terms 150 1 x (x << 256).

Definition T : list Z :=
  Eval vm_compute in map (fun i => Z.abs (sine (Z.of_nat i)) >> 224) (seq 1 64).

Definition shifts : list Z := [7; 12; 17; 22; 5; 9; 14; 20; 4; 11; 16; 23; 6; 10; 15; 21].

(** Step [i] of 64: the registers move on by one. *)
Definition rfc_step (x : list Z) (r : regs) (i : nat) : regs :=
  let '(a, b, c, d) := r in
  let j := (i / 16)%nat in
  let f := nth j [F'; G'; H'; I'] F' in
  let k := nth j [i; (5 * i + 1) mod 16; (3 * i + 5) mod 16; (7 * i) mod 16]%nat O in
  let k := (k mod 16)%nat in
  let s := nth (j * 4 + i mod 4) shifts 0 in
  (d, u32 (b + rotl (u32 (a + f b c d + nth k x 0 + nth i T 0)) s), b, c).

Definition add_regs (r r' : regs) : regs :=
  let '(a, b, c, d) := r in
  let '(a', b', c', d') := r' in
  (u32 (a + a'), u32 (b + b'), u32 (c + c'), u32 (d + d')).

(** The 16 words of the block that a text begins with. *)
Definition word (p : list Z) : Z := fold_right (fun b w => b + 256 * w) 0 p.
Definition words (p : list Z) : list Z := map (fun i => word (take 4 (drop (4 * i) p))) (seq 0 16).

Definition rfc_block (r : regs) (p : list Z) : regs :=
  add_regs (fold_left (rfc_step (words p)) (seq 0 64) r) r.

Fixpoint rfc_blocks (n : nat) (p : list Z) (r : regs) : regs :=
  match n with
  | O => r
  | S n => rfc_blocks n (drop 64 p) (rfc_block r p)
  end.

(** The message, a 1 bit, zeros, and the length in bits as 64 bits. *)
Definition pad (m : list Z) : list Z :=
  m ++ 0x80 :: replicate (Z.to_nat ((55 - Z.of_nat (length m)) mod 64)) 0 ++
  le_bytes 8 (u64 (8 * Z.of_nat (length m))).

Definition regs_bytes (r : regs) : list Z :=
  let '(a, b, c, d) := r in le_bytes 4 a ++ le_bytes 4 b ++ le_bytes 4 c ++ le_bytes 4 d.

Definition md5 (m : list Z) : list Z :=
  regs_bytes (rfc_blocks (length (pad m) / 64) (pad m) init_regs).

(** ** Words *)
Lemma u32_land x : u32 x = x .& Z.ones 32.
Proof. unfold u32. by rewrite Z.land_ones. Qed.

Lemma u64_land x : u64 x = x .& Z.ones 64.
Proof. unfold u64. by rewrite Z.land_ones. Qed.

Lemma u32_u64 x : u32 (u64 x) = u32 x.
Proof. unfold u32, u64. mlia. Qed.

Lemma u32_idem x : u32 (u32 x) = u32 x.
Proof. unfold u32. mlia. Qed.

Lemma u32_small x : 0 <= x < 2 ^ 32 -> u32 x = x.
Proof. apply Z.mod_small. Qed.

Lemma u32_add x y : u32 (u32 x + u32 y) = u32 (x + y).
Proof. unfold u32. symmetry. apply Zplus_mod. Qed.

Lemma u32_lor x y : u32 (x .| y) = u32 x .| u32 y.
Proof. rewrite !u32_land. apply Z.land_lor_distr_l. Qed.

Lemma u32_shl x s : 0 <= s -> u32 (x << s) = u32 (u32 x << s).
Proof.
  intros Hs. rewrite !Z.shiftl_mul_pow2 by done. unfold u32. rewrite Z.mul_mod_idemp_l; done.
Qed.

(** Compares words bit by bit. *)
Ltac bits :=
  rewrite ?u32_land, ?u64_land; apply Z.bits_inj'; intros n Hn;
  repeat first [rewrite Z.land_spec | rewrite Z.lor_spec | rewrite Z.lxor_spec | rewrite Z.lnot_spec by done];
  rewrite ?Z.testbit_ones_nonneg by lia;
  repeat match goal with |- context [Z.testbit ?x n] => destruct (Z.testbit x n) end;
  repeat match goal with |- context [?x <? ?y] => destruct (Z.ltb_spec x y); try lia end; try done.

(** The optimised round functions are those of the RFC, also on garbage in the
    upper halves. *)
Lemma F_rfc x y z : u32 (F x y z) = F' (u32 x) (u32 y) (u32 z).
Proof. unfold F, F'. bits. Qed.

Lemma G_rfc x y z : u32 (G x y z) = G' (u32 x) (u32 y) (u32 z).
Proof. unfold G, G'. bits. Qed.

Lemma H_rfc x y z : u32 (H x y z) = H' (u32 x) (u32 y) (u32 z).
Proof. unfold H, H'. bits. Qed.

Lemma I_rfc x y z : u32 (I x y z) = I' (u32 x) (u32 y) (u32 z).
Proof. unfold I, I'. bits. Qed.

Lemma STEP_rfc f f' a b c d x t s :
  (forall x y z, u32 (f x y z) = f' (u32 x) (u32 y) (u32 z)) -> 0 < s < 32 ->
  u32 (STEP f a b c d x t s) =
    u32 (u32 b + rotl (u32 (u32 a + f' (u32 b) (u32 c) (u32 d) + x + t)) s).
Proof.
  intros Hf Hs. unfold STEP. cbv zeta. set (A := u64 (a + _)).
  assert (HA : u32 A = u32 (u32 a + f' (u32 b) (u32 c) (u32 d) + x + t)).
  { unfold A. rewrite <- Hf. unfold u32, u64. mlia. }
  rewrite <- HA, u32_u64. rewrite <- (u32_add _ b), Z.add_comm. f_equal. f_equal.
  rewrite u32_lor, u32_u64, u32_shl by lia. unfold rotl. f_equal.
  change 0xffffffff with (Z.ones 32). rewrite <- u32_land. apply u32_small.
  assert (0 <= u32 A < 2 ^ 32) by (unfold u32; apply Z.mod_pos_bound; lia).
  rewrite Z.shiftr_div_pow2 by lia. split; [apply Z.div_pos; lia|].
  apply Z.div_lt_upper_bound; [lia|]. nia.
Qed.

(** ** Rounds *)
Definition low (r : regs) : regs := let '(a, b, c, d) := r in (u32 a, u32 b, u32 c, u32 d).

Definition gstep (f : Z -> Z -> Z -> Z) (x : list Z) (e : nat * Z * Z) (r : regs) : regs :=
  let '(k, t, s) := e in
  let '(a, b, c, d) := r in
  (d, u32 (b + rotl (u32 (a + f b c d + nth k x 0 + t)) s), b, c).

Definition good_step (e : nat * Z * Z) : Prop := let '(k, _, s) := e in (k < 16)%nat /\ 0 < s < 32.

Lemma round_rfc q f f' block x steps r :
  (forall x y z, u32 (f x y z) = f' (u32 x) (u32 y) (u32 z)) ->
  (forall k, (k < 16)%nat -> block k = nth k x 0) ->
  Forall good_step steps -> length steps = (4 * q)%nat ->
  low (round f block steps r) = fold_left (fun r e => gstep f' x e r) steps (low r).
Proof.
  intros Hf Hx. revert steps r. induction q as [|q IH]; intros steps [[[a b] c] d] Hs Hq.
  { by destruct steps. }
  destruct steps as [|[[k1 t1] s1] [|[[k2 t2] s2] [|[[k3 t3] s3] [|[[k4 t4] s4] steps]]]]; cbn [length] in Hq; try lia.
  apply Forall_cons in Hs as [[K1 S1] Hs]. apply Forall_cons in Hs as [[K2 S2] Hs].
  apply Forall_cons in Hs as [[K3 S3] Hs]. apply Forall_cons in Hs as [[K4 S4] Hs].
  cbn [round]. rewrite IH; [|done|lia].
  cbn [fold_left gstep low]. f_equal. rewrite !(STEP_rfc f f') by done. rewrite !Hx by done. done.
Qed.

(** ** Blocks *)
Definition byte (b : Z) : Prop := 0 <= b < 256.

Lemma byte_ch p i : Forall byte p -> byte (ch p i).
Proof.
  intros Hp. destruct (decide (i < length p)%nat) as [Hi|Hi].
  - destruct (lookup_lt_is_Some_2 p i Hi) as [b Hb]. rewrite (ch_lookup _ _ _ Hb).
    rewrite Forall_lookup in Hp. eauto.
  - rewrite ch_ge by lia. unfold byte. lia.
Qed.

Lemma word_ch p : word (take 4 p) = ch p 0 + 256 * (ch p 1 + 256 * (ch p 2 + 256 * ch p 3)).
Proof. destruct p as [|b0 [|b1 [|b2 [|b3 p]]]]; unfold word, ch; simpl; lia. Qed.

Lemma lor_shift x y n : 0 <= x < 2 ^ n -> 0 <= n -> x .| (y << n) = x + 2 ^ n * y.
Proof.
  intros Hx Hn. pose proof (Z.add_lor_land x (y << n)) as E.
  assert (Hz : x .& (y << n) = 0); [|rewrite Hz, Z.shiftl_mul_pow2 in E by done; rewrite Z.shiftl_mul_pow2 by done; lia].
  apply Z.bits_inj'. intros m Hm. rewrite Z.land_spec, Z.bits_0, Z.shiftl_spec by done.
  destruct (Z.ltb_spec m n) as [Hlt|Hge].
  - rewrite (Z.testbit_neg_r y) by lia. apply andb_false_r.
  - replace (Z.testbit x m) with false; [done|]. symmetry.
    destruct (decide (x = 0)) as [->|Hne]; [apply Z.testbit_0_l|].
    apply Z.bits_above_log2; [lia|]. apply Z.log2_lt_pow2; [lia|].
    apply Z.lt_le_trans with (2 ^ n); [lia|]. apply Z.pow_le_mono_r; lia.
Qed.

Lemma SET_word p k : Forall byte p -> SET p k = word (take 4 (drop (4 * k) p)).
Proof.
  intros Hp. rewrite word_ch. unfold SET.
  assert (Hd : forall i, ch (drop (4 * k) p) i = ch p (k * 4 + i)).
  { intros i. rewrite <- !hd0_drop, drop_drop. do 2 f_equal. lia. }
  rewrite !Hd, Nat.add_0_r.
  pose proof (byte_ch p (k * 4) Hp) as B0. pose proof (byte_ch p (k * 4 + 1) Hp) as B1.
  pose proof (byte_ch p (k * 4 + 2) Hp) as B2. pose proof (byte_ch p (k * 4 + 3) Hp) as B3.
  unfold byte in *. rewrite (lor_shift (ch p (k * 4)) _ 8) by lia. rewrite (lor_shift _ _ 16) by lia.
  rewrite (lor_shift _ _ 24) by lia. lia.
Qed.

Lemma nth_words p k : (k < 16)%nat -> nth k (words p) 0 = word (take 4 (drop (4 * k) p)).
Proof.
  intros Hk. unfold words. rewrite nth_lookup, list_lookup_fmap, lookup_seq_lt by done. done.
Qed.

Definition rfc_table : list ((Z -> Z -> Z -> Z) * (nat * Z * Z)) :=
  map (pair F') round1 ++ map (pair G') round2 ++ map (pair H') round3 ++ map (pair I') round4.

Definition rfc_entry (i : nat) : (Z -> Z -> Z -> Z) * (nat * Z * Z) :=
  let j := (i / 16)%nat in
  (nth j [F'; G'; H'; I'] F',
   ((nth j [i; (5 * i + 1) mod 16; (3 * i + 5) mod 16; (7 * i) mod 16] O mod 16)%nat,
    nth i T 0, nth (j * 4 + i mod 4) shifts 0)).

Lemma rfc_entries : map rfc_entry (seq 0 64) = rfc_table.
Proof. reflexivity. Qed.

Lemma fold_left_map {A B C} (g : A -> C -> A) (h : B -> C) l a :
  fold_left (fun a b => g a (h b)) l a = fold_left g (map h l) a.
Proof. revert a. induction l as [|b l IH]; intros a; [done|]. apply IH. Qed.

Lemma rfc_steps x r :
  fold_left (rfc_step x) (seq 0 64) r =
  fold_left (fun r e => gstep I' x e r) round4 (fold_left (fun r e => gstep H' x e r) round3
    (fold_left (fun r e => gstep G' x e r) round2 (fold_left (fun r e => gstep F' x e r) round1 r))).
Proof.
  transitivity (fold_left (fun r fe => gstep (fst fe) x (snd fe) r) (map rfc_entry (seq 0 64)) r).
  - rewrite <- fold_left_map. f_equal.
  - rewrite rfc_entries. unfold rfc_table. rewrite !fold_left_app, <- !fold_left_map. done.
Qed.

Lemma rounds_good : Forall good_step (round1 ++ round2 ++ round3 ++ round4).
Proof. unfold round1, round2, round3, round4. cbn [app]. repeat constructor. Qed.

Lemma transform_rfc p r : Forall byte p -> low (transform p r) = rfc_block (low r) p.
Proof.
  intros Hp. unfold transform, rfc_block. rewrite rfc_steps.
  assert (Hx : forall k, (k < 16)%nat -> SET p k = nth k (words p) 0)
    by (intros k Hk; rewrite nth_words by done; by apply SET_word).
  pose proof rounds_good as Hg. apply Forall_app in Hg as [G1 Hg]. apply Forall_app in Hg as [G2 Hg].
  apply Forall_app in Hg as [G3 G4].
  rewrite <- (round_rfc 4 F F' (SET p) (words p) round1 r F_rfc Hx G1 eq_refl).
  rewrite <- (round_rfc 4 G G' (SET p) (words p) round2 _ G_rfc Hx G2 eq_refl).
  rewrite <- (round_rfc 4 H H' (SET p) (words p) round3 _ H_rfc Hx G3 eq_refl).
  rewrite <- (round_rfc 4 I I' (SET p) (words p) round4 _ I_rfc Hx G4 eq_refl).
  destruct (round I _ _ _) as [[[a b] c] d]. destruct r as [[[a' b'] c'] d'].
  unfold low, add_regs. by rewrite !u32_u64, !u32_add.
Qed.

Lemma body_rfc n p r : Forall byte p -> low (body n p r) = rfc_blocks n p (low r).
Proof.
  revert p r. induction n as [|n IH]; intros p r Hp; [done|]. cbn [body rfc_blocks].
  rewrite IH by by apply Forall_drop. by rewrite transform_rfc.
Qed.

(** ** Streams *)
Lemma words_app p q : (64 <= length p)%nat -> words (p ++ q) = words p.
Proof.
  intros Hp. unfold words. apply map_ext_in. intros i [_ Hi]%in_seq. f_equal.
  rewrite drop_app_le by lia. rewrite take_app_le by (rewrite length_drop; lia). done.
Qed.

Lemma rfc_blocks_app n p q r : (64 * n <= length p)%nat -> rfc_blocks n (p ++ q) r = rfc_blocks n p r.
Proof.
  revert p r. induction n as [|n IH]; intros p r Hp; [done|]. cbn [rfc_blocks].
  rewrite drop_app_le by lia. rewrite IH by (rewrite length_drop; lia).
  unfold rfc_block. by rewrite words_app by lia.
Qed.

Lemma rfc_blocks_add n k p r : rfc_blocks (n + k) p r = rfc_blocks k (drop (64 * n) p) (rfc_blocks n p r).
Proof.
  revert p r. induction n as [|n IH]; intros p r; [done|]. cbn [rfc_blocks Nat.add]. rewrite IH, drop_drop.
  do 2 f_equal. lia.
Qed.

(** What the context holds after the bytes [m]. *)
Record fed (ctx : MD5_CTX) (m : list Z) : Prop := {
  fed_buffer : length (buffer ctx) = 64%nat;
  fed_bytes : Forall byte (buffer ctx);
  fed_regs : low (abcd ctx) = rfc_blocks (length m / 64) m init_regs;
  fed_rest : take (length m mod 64) (buffer ctx) = drop (64 * (length m / 64)) m;
  fed_lo : lo ctx = Z.of_nat (length m) mod 2 ^ 29;
  fed_hi : u32 (hi ctx) = (Z.of_nat (length m) / 2 ^ 29) mod 2 ^ 32 }.

Lemma length_memcpy buf k data :
  (k + length data <= length buf)%nat -> length (memcpy buf k data) = length buf.
Proof. intros Hk. unfold memcpy. rewrite !length_app, length_take, length_drop. lia. Qed.

Lemma memcpy_bytes buf k data : Forall byte buf -> Forall byte data -> Forall byte (memcpy buf k data).
Proof. intros Hb Hd. unfold memcpy. rewrite !Forall_app. split; [by apply Forall_take|]. split; [done|by apply Forall_drop]. Qed.

Lemma take_memcpy buf k data :
  (k + length data <= length buf)%nat -> take (k + length data) (memcpy buf k data) = take k buf ++ data.
Proof.
  intros Hk. unfold memcpy. rewrite app_assoc. rewrite take_app_length'; [done|].
  rewrite length_app, length_take. lia.
Qed.

Lemma memcpy_all buf k data : (k + length data = length buf)%nat -> memcpy buf k data = take k buf ++ data.
Proof. intros Hk. unfold memcpy. by rewrite drop_ge, app_nil_r by lia. Qed.

Lemma used_mod ctx m : fed ctx m -> Z.to_nat (lo ctx .& 0x3f) = (length m mod 64)%nat.
Proof.
  intros Hf. rewrite (fed_lo _ _ Hf). change 0x3f with (Z.ones 6). rewrite Z.land_ones by done.
  apply Nat2Z.inj. rewrite Nat2Z.inj_mod, Z2Nat.id by (apply Z.mod_pos_bound; done).
  change (2 ^ 29) with 536870912. change (2 ^ 6) with 64. change (Z.of_nat 64) with 64. mlia.
Qed.

Lemma counters_fed ctx m data :
  fed ctx m ->
  let size := Z.of_nat (length data) in
  u64 (lo ctx + size) .& 0x1fffffff = Z.of_nat (length (m ++ data)) mod 2 ^ 29 /\
  u32 (u64 ((if u64 (lo ctx + size) .& 0x1fffffff <? lo ctx then u64 (hi ctx + 1) else hi ctx) + (size >> 29))) =
    (Z.of_nat (length (m ++ data)) / 2 ^ 29) mod 2 ^ 32.
Proof.
  intros Hf size. rewrite length_app, Nat2Z.inj_add. fold size. pose proof (fed_lo _ _ Hf) as Hl.
  pose proof (fed_hi _ _ Hf) as Hh. assert (Hs : 0 <= size) by (unfold size; lia).
  set (n := Z.of_nat (length m)) in *. assert (Hn : 0 <= n) by (unfold n; lia). clearbody n size. clear Hf.
  change 0x1fffffff with (Z.ones 29). rewrite Z.land_ones, Z.shiftr_div_pow2 by done.
  assert (E : u64 (lo ctx + size) mod 2 ^ 29 = (n + size) mod 2 ^ 29) by (rewrite Hl; unfold u64; mlia).
  rewrite E. split; [done|]. rewrite u32_u64.
  assert (Hc : (n + size) / 2 ^ 29 =
    n / 2 ^ 29 + size / 2 ^ 29 + (if (n + size) mod 2 ^ 29 <? n mod 2 ^ 29 then 1 else 0)).
  { destruct (Z.ltb_spec ((n + size) mod 2 ^ 29) (n mod 2 ^ 29)); mlia. }
  rewrite Hl, Hc. destruct (_ <? _); unfold u32, u64 in *; mlia.
Qed.

(** Whole blocks behind whole blocks. *)
Lemma body_fed n m data r :
  length m = (64 * n)%nat -> Forall byte data -> low r = rfc_blocks n m init_regs ->
  let k := (length data / 64)%nat in
  low (body k data r) = rfc_blocks (length (m ++ data) / 64) (m ++ data) init_regs /\
  (length (m ++ data) mod 64 = length (drop (64 * k) data))%nat /\
  drop (64 * (length (m ++ data) / 64)) (m ++ data) = drop (64 * k) data.
Proof.
  intros Hm Hd Hr k.
  assert (Hk : (length (m ++ data) / 64 = n + k)%nat).
  { rewrite length_app, Hm, Nat.mul_comm, Nat.div_add_l by done. done. }
  assert (Hmod : (length (m ++ data) mod 64 = length data mod 64)%nat).
  { rewrite length_app, Hm, Nat.mul_comm, Nat.add_comm. by rewrite Nat.Div0.mod_add. }
  rewrite Hk, body_rfc, Hr by done. split; [|split].
  - rewrite rfc_blocks_add, rfc_blocks_app by lia. by rewrite drop_app_length' by lia.
  - rewrite Hmod, length_drop. unfold k. rewrite Nat.Div0.mod_eq. done.
  - rewrite drop_app_ge by lia. f_equal. lia.
Qed.

Lemma update_fed ctx m data :
  fed ctx m -> Forall byte m -> Forall byte data -> fed (MD5_Update ctx data) (m ++ data).
Proof.
  intros Hf Hm Hd. unfold MD5_Update. rewrite (used_mod ctx m Hf).
  destruct (counters_fed ctx m data Hf) as [Hlo Hhi]. destruct Hf as [Hbl Hbb Hr Hrest _ _].
  set (size := Z.of_nat (length data)) in *. cbv zeta.
  set (lo' := u64 (lo ctx + size) .& 0x1fffffff) in *.
  set (hi' := u64 (_ + (size >> 29))) in *. clearbody lo' hi'.
  pose proof (Nat.div_mod_eq (length m) 64) as Edm. pose proof (Nat.mod_upper_bound (length m) 64 ltac:(done)) as Hub.
  destruct (negb (length m mod 64 =? 0)%nat && (length data <? 64 - length m mod 64)%nat) eqn:Es.
  - apply andb_true_iff in Es as [_ Hlt]. apply Nat.ltb_lt in Hlt.
    assert (Hdiv : (length (m ++ data) / 64 = length m / 64)%nat).
    { rewrite length_app. symmetry. apply Nat.div_unique with (length m mod 64 + length data)%nat; lia. }
    assert (Hmod : (length (m ++ data) mod 64 = length m mod 64 + length data)%nat).
    { rewrite length_app. symmetry. apply Nat.mod_unique with (length m / 64)%nat; lia. }
    constructor; cbn [buffer lo hi abcd]; try done.
    + by rewrite length_memcpy by lia.
    + by apply memcpy_bytes.
    + rewrite Hdiv, rfc_blocks_app by lia. done.
    + rewrite Hmod, Hdiv, take_memcpy, Hrest by lia. by rewrite drop_app_le by lia.
  - set (free := (64 - length m mod 64)%nat).
    assert (Hal : exists n m2 data2 r buf,
      (if (length m mod 64 =? 0)%nat then (abcd ctx, buffer ctx, data)
       else (body 1 (memcpy (buffer ctx) (length m mod 64) (take free data)) (abcd ctx),
             memcpy (buffer ctx) (length m mod 64) (take free data), drop free data)) = (r, buf, data2) /\
      m ++ data = m2 ++ data2 /\ length m2 = (64 * n)%nat /\ low r = rfc_blocks n m2 init_regs /\
      length buf = 64%nat /\ Forall byte buf /\ Forall byte data2).
    { destruct (Nat.eqb_spec (length m mod 64) 0) as [E0|Hne].
      - exists (length m / 64)%nat, m, data, (abcd ctx), (buffer ctx). split_and!; try done. lia.
      - cbn [negb andb] in Es. apply Nat.ltb_ge in Es.
        assert (Hlt : length (take free data) = free) by (rewrite length_take; unfold free; lia).
        exists (S (length m / 64)), (m ++ take free data), (drop free data).
        eexists _, _. split; [done|]. split; [by rewrite <- app_assoc, take_drop|].
        split; [rewrite length_app, Hlt; unfold free; lia|].
        rewrite memcpy_all by (rewrite Hlt, Hbl; unfold free; lia). rewrite Hrest.
        assert (Hbuf : Forall byte (drop (64 * (length m / 64)) m ++ take free data))
          by (apply Forall_app; split; [by apply Forall_drop|by apply Forall_take]).
        split; [|split; [rewrite length_app, length_drop, Hlt; unfold free; lia|
          split; [done|by apply Forall_drop]]].
        rewrite body_rfc by done. rewrite Hr.
        replace (S (length m / 64)) with (length m / 64 + 1)%nat by lia.
        rewrite rfc_blocks_add, (rfc_blocks_app _ m) by lia. by rewrite drop_app_le by lia. }
    destruct Hal as (n & m2 & data2 & r & buf & -> & Em & Hl2 & Hr2 & Hbuf & Hbb2 & Hd2).
    destruct (body_fed n m2 data2 r Hl2 Hd2 Hr2) as (H1 & H2 & H3). rewrite Em in Hlo, Hhi |- *.
    assert (Hle : (length (drop (64 * (length data2 / 64)) data2) < 64)%nat).
    { rewrite <- H2. apply Nat.mod_upper_bound. done. }
    rewrite (Nat.mul_comm (length data2 / 64)).
    constructor; cbn [buffer lo hi abcd]; try done.
    + rewrite length_memcpy by lia. done.
    + apply memcpy_bytes; [done|by apply Forall_drop].
    + rewrite H2, H3. by apply (take_memcpy buf 0 (drop (64 * (length data2 / 64)) data2)); lia.
Qed.

Lemma init_fed garbage : length garbage = 64%nat -> Forall byte garbage -> fed (MD5_Init garbage) [].
Proof. intros Hl Hb. by constructor. Qed.

(** ** The end *)
Lemma land_255_byte w : byte (w .& 0xff).
Proof. change 0xff with (Z.ones 8). rewrite Z.land_ones by done. unfold byte. mlia. Qed.

Lemma le_bytes_byte n w : Forall byte (le_bytes n w).
Proof. unfold le_bytes. apply Forall_forall. intros b (i & -> & _)%list_elem_of_fmap. apply land_255_byte. Qed.

Lemma length_le_bytes n w : length (le_bytes n w) = n.
Proof. unfold le_bytes. by rewrite length_map, length_seq. Qed.

Lemma byte_of w i : (w >> (8 * Z.of_nat i)) .& 0xff = (w / 2 ^ (8 * Z.of_nat i)) mod 256.
Proof. change 0xff with (Z.ones 8). by rewrite Z.land_ones, Z.shiftr_div_pow2 by lia. Qed.

Lemma le_bytes_u32 w : le_bytes 4 (u32 w) = le_bytes 4 w.
Proof.
  unfold le_bytes. apply map_ext_in. intros i [_ Hi]%in_seq. rewrite !byte_of. unfold u32.
  destruct i as [|[|[|[|i]]]]; [change (2 ^ (8 * Z.of_nat 0)) with 1|change (2 ^ (8 * Z.of_nat 1)) with 256|
    change (2 ^ (8 * Z.of_nat 2)) with 65536|change (2 ^ (8 * Z.of_nat 3)) with 16777216|lia]; mlia.
Qed.

Lemma le_bytes_8 w : le_bytes 8 w = le_bytes 4 w ++ le_bytes 4 (w >> 32).
Proof.
  unfold le_bytes. change (seq 0 8) with (seq 0 4 ++ map (Nat.add 4) (seq 0 4)). rewrite map_app, map_map.
  apply (f_equal (app _)). apply map_ext_in. intros i _. rewrite Z.shiftr_shiftr by lia. do 2 f_equal. lia.
Qed.

Lemma regs_bytes_low r : regs_bytes (low r) = regs_bytes r.
Proof. destruct r as [[[a b] c] d]. unfold regs_bytes, low. by rewrite !le_bytes_u32. Qed.

(** The two counters are the length in bits. *)
Lemma counter_bytes ctx m :
  fed ctx m -> le_bytes 4 (u64 (lo ctx << 3)) ++ le_bytes 4 (hi ctx) = le_bytes 8 (u64 (8 * Z.of_nat (length m))).
Proof.
  intros Hf. rewrite le_bytes_8. f_equal.
  - rewrite <- (le_bytes_u32 (u64 (lo ctx << 3))), <- (le_bytes_u32 (u64 (8 * _))). f_equal.
    rewrite (fed_lo _ _ Hf), Z.shiftl_mul_pow2, !u32_u64 by done. unfold u32. mlia.
  - rewrite <- (le_bytes_u32 (hi ctx)), <- (le_bytes_u32 (_ >> 32)). f_equal.
    rewrite (fed_hi _ _ Hf), Z.shiftr_div_pow2 by done. unfold u32, u64. mlia.
Qed.

(** The last one or two blocks. *)
Lemma last_blocks m n buf r :
  (64 * (length m / 64) + length buf = length (pad m))%nat -> length buf = (64 * n)%nat ->
  drop (64 * (length m / 64)) (pad m) = buf ->
  low r = rfc_blocks n buf (rfc_blocks (length m / 64) m init_regs) ->
  regs_bytes r = md5 m.
Proof.
  intros Hl Hn Hd Hr. rewrite <- regs_bytes_low, Hr. unfold md5. f_equal.
  pose proof (Nat.div_mod_eq (length m) 64) as E.
  replace (length (pad m) / 64)%nat with (length m / 64 + n)%nat.
  - rewrite rfc_blocks_add, Hd. f_equal. unfold pad. by rewrite rfc_blocks_app by lia.
  - rewrite <- Hl, Hn. rewrite <- Nat.mul_add_distr_l, Nat.mul_comm. by rewrite Nat.div_mul.
Qed.

Lemma pad_rest m :
  drop (64 * (length m / 64)) (pad m) =
    drop (64 * (length m / 64)) m ++ 0x80 :: replicate (Z.to_nat ((55 - Z.of_nat (length m)) mod 64)) 0 ++
    le_bytes 8 (u64 (8 * Z.of_nat (length m))).
Proof.
  pose proof (Nat.div_mod_eq (length m) 64) as E. unfold pad. by rewrite drop_app_le by lia.
Qed.

Lemma pad_zeros (m : list Z) u : (length m mod 64)%nat = u ->
  Z.to_nat ((55 - Z.of_nat (length m)) mod 64) = (if (u <=? 55)%nat then 55 - u else 119 - u)%nat.
Proof.
  intros <-. apply Nat2Z.inj. rewrite Z2Nat.id by (apply Z.mod_pos_bound; lia).
  assert (E : Z.of_nat (length m mod 64) = Z.of_nat (length m) mod 64) by apply Nat2Z.inj_mod.
  pose proof (Nat.mod_upper_bound (length m) 64 ltac:(done)).
  destruct (Nat.leb_spec (length m mod 64) 55); mlia.
Qed.

Lemma final_md5 ctx m : fed ctx m -> Forall byte m -> MD5_Final ctx = md5 m.
Proof.
  intros Hf Hm. unfold MD5_Final. rewrite (used_mod ctx m Hf), (counter_bytes ctx m Hf).
  destruct Hf as [Hbl Hbb Hr Hrest _ _]. set (len8 := le_bytes 8 _).
  pose proof (Nat.div_mod_eq (length m) 64) as E. pose proof (Nat.mod_upper_bound (length m) 64 ltac:(done)) as Hu.
  pose proof (pad_zeros m _ eq_refl) as Hz. set (u := (length m mod 64)%nat) in *.
  assert (Hlen8 : length len8 = 8%nat) by apply length_le_bytes.
  assert (Hb8 : Forall byte len8) by apply le_bytes_byte.
  assert (Hzb : forall n, Forall byte (replicate n 0)) by (intros; apply Forall_replicate; unfold byte; lia).
  assert (Hdb : Forall byte (drop (64 * (length m / 64)) m)) by by apply Forall_drop.
  assert (H80 : byte 0x80) by (unfold byte; lia).
  set (buf1 := memcpy (buffer ctx) u [0x80]).
  assert (Hl1 : length buf1 = 64%nat) by (unfold buf1; rewrite length_memcpy; cbn; lia).
  assert (Ht1 : take (S u) buf1 = drop (64 * (length m / 64)) m ++ [0x80]).
  { unfold buf1. replace (S u) with (u + length [0x80%Z])%nat by (cbn; lia).
    rewrite take_memcpy by (cbn; lia). by rewrite Hrest. }
  assert (Hpad : (length (pad m) = length m + 9 + Z.to_nat ((55 - Z.of_nat (length m)) mod 64))%nat).
  { unfold pad. rewrite length_app. cbn [length]. rewrite length_app, length_replicate, length_le_bytes. lia. }
  cbv zeta. destruct (Nat.ltb_spec (64 - S u) 8) as [Hlt|Hge].
  - rewrite (proj2 (Nat.leb_gt u 55)) in Hz by lia. rewrite Hz in Hpad.
    set (buf2 := memcpy buf1 (S u) _).
    assert (Eb2 : buf2 = (drop (64 * (length m / 64)) m ++ [0x80]) ++ replicate (64 - S u) 0)
      by (unfold buf2; rewrite memcpy_all by (rewrite length_replicate; lia); by rewrite Ht1).
    assert (Hl2 : length buf2 = 64%nat) by (unfold buf2; rewrite length_memcpy; rewrite ?length_replicate; lia).
    change (64 - 8)%nat with 56%nat.
    assert (Eb3 : memcpy (memcpy buf2 0 (replicate 56 0)) 56 len8 = replicate 56 0 ++ len8).
    { rewrite memcpy_all by (rewrite length_memcpy; rewrite ?length_replicate; lia). done. }
    rewrite Eb3. change (regs_bytes (body 1 (replicate 56 0 ++ len8) (body 1 buf2 (abcd ctx))) = md5 m).
    assert (Hb2 : Forall byte buf2) by (rewrite Eb2, !Forall_app; by repeat constructor).
    apply (last_blocks m 2 (buf2 ++ replicate 56 0 ++ len8)).
    + rewrite length_app, Hl2, length_app, length_replicate, Hlen8. lia.
    + by rewrite length_app, Hl2, length_app, length_replicate, Hlen8.
    + rewrite pad_rest, Eb2, Hz, <- !app_assoc. cbn [app]. do 2 f_equal. rewrite app_assoc. f_equal.
      rewrite <- replicate_add. f_equal. lia.
    + rewrite !body_rfc, Hr by (try done; by apply Forall_app).
      rewrite (rfc_blocks_add 1 1), (rfc_blocks_app 1 buf2) by (rewrite Hl2; done). by rewrite drop_app_length' by done.
  - rewrite (proj2 (Nat.leb_le u 55)) in Hz by lia. rewrite Hz in Hpad.
    set (buf2 := memcpy buf1 (S u) _).
    assert (Hl2 : length buf2 = 64%nat) by (unfold buf2; rewrite length_memcpy; rewrite ?length_replicate; lia).
    assert (Eb3 : memcpy buf2 56 len8 = drop (64 * (length m / 64)) m ++ 0x80 :: replicate (55 - u) 0 ++ len8).
    { pose proof (take_memcpy buf1 (S u) (replicate (64 - S u - 8) 0)) as Et.
      rewrite length_replicate in Et. replace (S u + (64 - S u - 8))%nat with 56%nat in Et by lia.
      rewrite memcpy_all by lia. unfold buf2. rewrite Et by lia. rewrite Ht1, <- !app_assoc. cbn [app].
      replace (64 - S u - 8)%nat with (55 - u)%nat by lia. done. }
    rewrite Eb3. change (regs_bytes (body 1 (drop (64 * (length m / 64)) m ++ 0x80 :: replicate (55 - u) 0 ++ len8)
      (abcd ctx)) = md5 m).
    assert (Hlb : length (drop (64 * (length m / 64)) m ++ 0x80 :: replicate (55 - u) 0 ++ len8) = 64%nat).
    { rewrite length_app, length_drop. cbn [length]. rewrite length_app, length_replicate, Hlen8. lia. }
    apply (last_blocks m 1 (drop (64 * (length m / 64)) m ++ 0x80 :: replicate (55 - u) 0 ++ len8)).
    + rewrite Hlb. lia.
    + exact Hlb.
    + by rewrite pad_rest, Hz.
    + rewrite body_rfc, Hr; [done|]. apply Forall_app. split; [done|]. constructor; [done|]. by apply Forall_app.
Qed.

(** C21: The digest does not depend on how the message is cut into pieces, nor on
    what was in the buffer before, and it is the one of RFC 1321: although the
    code computes with 64-bit words whose upper halves hold garbage, has its own
    round functions, counts in 29 + 32 bits and keeps an unfinished block. *)
Theorem md5_stream garbage pieces :
  length garbage = 64%nat -> Forall byte garbage -> Forall (Forall byte) pieces ->
  MD5_Final (fold_left MD5_Update pieces (MD5_Init garbage)) = md5 (concat pieces).
Proof.
  intros Hl Hb Hp. apply final_md5; [|by apply Forall_concat].
  assert (Hg : forall m ctx, fed ctx m -> Forall byte m ->
    fed (fold_left MD5_Update pieces ctx) (m ++ concat pieces)).
  { clear garbage Hl Hb. induction Hp as [|d ds Hd _ IH]; intros m ctx Hf Hm; cbn [fold_left concat].
    - by rewrite app_nil_r.
    - rewrite app_assoc. apply IH; [by apply update_fed|by apply Forall_app]. }
  apply (Hg []); [by apply init_fed|constructor].
Qed.

(** The test suite of RFC 1321. *)
Definition hex (s : list Z) : list Z :=
  let d := fun n => if n <? 10 then 48 + n else 87 + n in
  concat (map (fun b => [d (b / 16); d (b mod 16)]) s).

Example md5_empty : hex (md5 []) = lit "d41d8cd98f00b204e9800998ecf8427e".
Proof. vm_compute. reflexivity. Qed.

Example md5_alphabet : hex (md5 (lit "abcdefghijklmnopqrstuvwxyz")) = lit "c3fcd3d76192e4007dfb496cca67e13b".
Proof. vm_compute. reflexivity. Qed.

Lemma md5_stream_witness :
  hex (MD5_Final (fold_left MD5_Update [lit "mess"; []; lit "age digest"] (MD5_Init (replicate 64 7)))) =
    lit "f96b697d7cb7938d525a2f31aaf161d0".
Proof.
  rewrite (md5_stream (replicate 64 7) [lit "mess"; []; lit "age digest"]).
  - vm_compute. reflexivity.
  - reflexivity.
  - apply Forall_replicate. unfold byte. lia.
  - repeat constructor; vm_compute; discriminate.
Defined.
