(* ===== verification/Cloak.v ===== *)
(** * ircd/cloak.c: cloaked host names

    The host a user is shown with is made from digests of his address or name
    and three keys.  ircd_snprintf() is its effect for the conversions that are
    used: the text is cut to the size of the buffer. *)
From S2P Require Import Prelude Chattr NumText Md5.
Open Scope ircd_scope.

(** %u of sscanf() for a number without sign and blanks. *)
Fixpoint scan_digits (s : list Z) (acc : option Z) : option (Z * list Z) :=
  match s with
  | c :: r =>
      if (48 <=? c) && (c <=? 57) then scan_digits r (Some (default 0 acc * 10 + (c - 48)))
      else match acc with Some n => Some (n, s) | None => None end
  | [] => match acc with Some n => Some (n, []) | None => None end
  end.

(** sscanf(host, "%u.%u.%u.%u", ...); [None] when a number is left without a
    value; a number with a sign or blanks before it, which no printed address
    has, is left out as well. *)
Definition scan_dot (s : list Z) : option (Z * list Z) :=
  '(n, r) ← scan_digits s None;
  match r with c :: r => if c =? 46 then Some (u32 n, r) else None | [] => None end.

Definition scan_quad (host : list Z) : option (Z * Z * Z * Z) :=
  '(a, r) ← scan_dot host;
  '(b, r) ← scan_dot r;
  '(c, r) ← scan_dot r;
  '(d, _) ← scan_digits r None;
  Some (a, b, c, u32 d).

Definition downsample (i : list Z) : Z :=
  let r0 := ch i 0 .^ ch i 1 .^ ch i 2 .^ ch i 3 in
  let r1 := ch i 4 .^ ch i 5 .^ ch i 6 .^ ch i 7 in
  let r2 := ch i 8 .^ ch i 9 .^ ch i 10 .^ ch i 11 in
  let r3 := ch i 12 .^ ch i 13 .^ ch i 14 .^ ch i 15 in
  u32 (u32 (r0 << 24) + u32 (r1 << 16) + u32 (r2 << 8) + r3).

Section cloak.
(** What the buffer of a digest context held; the three keys and the prefix. *)
Variable garbage : list Z.
Variables KEY1 KEY2 KEY3 PREFIX : list Z.

Definition colon (a b c : list Z) : list Z := a ++ 58 :: b ++ 58 :: c.
Definition dot (a b : list Z) : list Z := a ++ 46 :: b.

(** DoMD5() of [buf], the key behind the digest in a buffer of 512 bytes, and
    DoMD5() again. *)
Definition hash_twice (buf key : list Z) : option Z :=
  if (length key <=? 495)%nat
  then Some (downsample (DoMD5 garbage (DoMD5 garbage buf ++ key)))
  else None.

Definition hidehost_ipv4 (host : list Z) : option (list Z) :=
  '(a, b, c, _) ← scan_quad host;
  alpha ← hash_twice (snprintf HOSTLEN (colon KEY2 host KEY3)) KEY1;
  beta ← hash_twice (snprintf HOSTLEN (colon KEY3 (dot (int_text a) (dot (int_text b) (int_text c))) KEY1)) KEY2;
  gamma ← hash_twice (snprintf HOSTLEN (colon KEY1 (dot (int_text a) (int_text b)) KEY2)) KEY3;
  Some (snprintf HOSTLEN (dot (hexadecimal alpha) (dot (hexadecimal beta) (dot (hexadecimal gamma) (lit "IP"))))).

(** Behind the first dot that a letter follows. *)
Fixpoint domain_part (host : list Z) : option (list Z) :=
  match host with
  | [] => None
  | c :: p => if (c =? 46) && IsAlpha (hd0 p) then Some p else domain_part p
  end.

Definition hidehost_normalhost (host : list Z) : option (list Z) :=
  alpha ← hash_twice (snprintf 512 (colon KEY1 host KEY2)) KEY3;
  match domain_part host with
  | Some p =>
      let result := snprintf HOSTLEN (PREFIX ++ 45 :: hexadecimal alpha ++ [46]) in
      let len := (length result + length p)%nat in
      Some (if (len <=? HOSTLEN)%nat then result ++ p else result ++ drop (len - HOSTLEN) p)
  | None => Some (snprintf HOSTLEN (PREFIX ++ 45 :: hexadecimal alpha))
  end.

(** ** Specification *)
Definition digest (buf key : list Z) : Z := downsample (md5 (md5 buf ++ key)).

Definition quad (a b c d : Z) : list Z := dot (decimal a) (dot (decimal b) (dot (decimal c) (decimal d))).

Hypothesis garbage_ok : length garbage = 64%nat /\ Forall byte garbage.

Lemma int_text_decimal n : 0 <= n < 256 -> int_text n = decimal n.
Proof. intros Hn. unfold int_text. by destruct (Z.ltb_spec n (2 ^ 31)); [|lia]. Qed.

Lemma DoMD5_md5 m : Forall byte m -> DoMD5 garbage m = md5 m.
Proof.
  intros Hm. destruct garbage_ok as [Hl Hb].
  unfold DoMD5. transitivity (md5 (concat [m])); [|by rewrite concat_cons, app_nil_r].
  rewrite <- (md5_stream garbage [m]); [done|done|done|by repeat constructor].
Qed.

Lemma md5_bytes m : Forall byte (md5 m).
Proof.
  unfold md5, regs_bytes. destruct (rfc_blocks _ _ _) as [[[a b] c] d].
  rewrite !Forall_app. repeat split; apply le_bytes_byte.
Qed.

Lemma hash_twice_digest buf key :
  Forall byte buf -> Forall byte key -> (length key <= 495)%nat ->
  hash_twice buf key = Some (digest buf key).
Proof.
  intros Hb Hk Hl. unfold hash_twice, digest. rewrite (proj2 (Nat.leb_le _ _)) by done.
  rewrite (DoMD5_md5 buf) by done. rewrite DoMD5_md5; [done|]. apply Forall_app. split; [apply md5_bytes|done].
Qed.

(** Numbers of an address and their digits. *)
Lemma scan_digits_app l r n :
  forallb is_digit l = true -> is_digit (hd0 r) = false ->
  scan_digits (l ++ r) (Some n) = Some (fold_left (fun v c => v * 10 + (c - 48)) l n, r).
Proof.
  intros Hl Hr. revert n. induction l as [|c l IH]; intros n; cbn [app fold_left].
  - destruct r as [|c r]; [done|]. cbn in Hr |- *. unfold is_digit in Hr. by rewrite Hr.
  - cbn in Hl. apply andb_true_iff in Hl as [Hc Hl]. unfold is_digit in Hc. cbn [scan_digits]. rewrite Hc. by apply IH.
Qed.

Lemma scan_number l r :
  forallb is_digit l = true -> l <> [] -> is_digit (hd0 r) = false -> scan_digits (l ++ r) None = Some (value l, r).
Proof.
  intros Hl Hne Hr. destruct l as [|c l]; [done|]. cbn in Hl. apply andb_true_iff in Hl as [Hc Hl].
  unfold is_digit in Hc. cbn [app scan_digits]. rewrite Hc. by rewrite scan_digits_app.
Qed.

Lemma decimal_byte a : 0 <= a < 256 ->
  forallb is_digit (decimal a) = true /\ (1 <= length (decimal a) <= 3)%nat /\ value (decimal a) = a.
Proof.
  apply (all_codes (fun a => forallb is_digit (decimal a) = true /\ (1 <= length (decimal a) <= 3)%nat /\ value (decimal a) = a)
    (fun a => forallb is_digit (decimal a) && ((1 <=? length (decimal a)) && (length (decimal a) <=? 3))%nat &&
              (value (decimal a) =? a))).
  - intros x Hx. rewrite !andb_true_iff, !Nat.leb_le, Z.eqb_eq in Hx. tauto.
  - vm_compute. reflexivity.
Qed.

Lemma scan_dot_decimal a r : 0 <= a < 256 -> scan_dot (dot (decimal a) r) = Some (a, r).
Proof.
  intros Ha. destruct (decimal_byte a Ha) as (Hd & Hl & Hv). unfold scan_dot, dot.
  rewrite scan_number; [|done|by destruct (decimal a); cbn in *; [lia|]|done]. cbn [mbind option_bind Z.eqb Pos.eqb]. rewrite Hv.
  unfold u32. by rewrite Z.mod_small by lia.
Qed.

Lemma scan_quad_quad a b c d :
  0 <= a < 256 -> 0 <= b < 256 -> 0 <= c < 256 -> 0 <= d < 256 -> scan_quad (quad a b c d) = Some (a, b, c, d).
Proof.
  intros Ha Hb Hc Hd. unfold scan_quad, quad. do 3 (rewrite scan_dot_decimal by done; cbn [mbind option_bind]).
  destruct (decimal_byte d Hd) as (Hdd & Hl & Hv). rewrite <- (app_nil_r (decimal d)).
  rewrite scan_number; [|done|by destruct (decimal d); cbn in *; [lia|]|done]. cbn [mbind option_bind Z.eqb Pos.eqb]. rewrite Hv.
  unfold u32. by rewrite Z.mod_small by lia.
Qed.

Lemma decimal_bytes a : 0 <= a < 256 -> Forall byte (decimal a).
Proof.
  intros Ha. destruct (decimal_byte a Ha) as (Hd & _). rewrite forallb_forall in Hd. apply Forall_forall.
  intros c Hc%list_elem_of_In. specialize (Hd c Hc). unfold is_digit in Hd. bprop. unfold byte. lia.
Qed.

Lemma dot_bytes a b : Forall byte a -> Forall byte b -> Forall byte (dot a b).
Proof. intros Ha Hb. unfold dot. apply Forall_app. split; [done|]. constructor; [unfold byte; lia|done]. Qed.

Lemma colon_bytes a b c : Forall byte a -> Forall byte b -> Forall byte c -> Forall byte (colon a b c).
Proof.
  intros Ha Hb Hc. unfold colon. rewrite !Forall_app, !Forall_cons, !Forall_app, !Forall_cons.
  unfold byte in *. repeat split; try done; lia.
Qed.

Lemma length_dot a b : length (dot a b) = (length a + S (length b))%nat.
Proof. unfold dot. by rewrite length_app. Qed.

Lemma length_colon a b c : length (colon a b c) = (length a + length b + length c + 2)%nat.
Proof. unfold colon. rewrite length_app. cbn. rewrite length_app. cbn. lia. Qed.

Lemma length_digits fuel base n acc : (length (digits fuel base n acc) <= S fuel + length acc)%nat.
Proof.
  revert n acc. induction fuel as [|fuel IH]; intros n acc; cbn [digits]; [cbn; lia|].
  destruct (n / base =? 0); [cbn; lia|]. etransitivity; [apply IH|]. cbn. lia.
Qed.

Lemma length_hexadecimal n : (length (hexadecimal n) <= 9)%nat.
Proof. unfold hexadecimal. etransitivity; [apply length_digits|]. done. Qed.

Hypothesis keys_bytes : Forall byte KEY1 /\ Forall byte KEY2 /\ Forall byte KEY3.
(** The keys fit behind a digest in the buffer of 512 bytes. *)
Definition keys_fit : Prop := (length KEY1 <= 495)%nat /\ (length KEY2 <= 495)%nat /\ (length KEY3 <= 495)%nat.

(** The shape of the result for every address, with keys that fit. *)
Lemma hidehost_ipv4_ok a b c d :
  keys_fit ->
  0 <= a < 256 -> 0 <= b < 256 -> 0 <= c < 256 -> 0 <= d < 256 ->
  hidehost_ipv4 (quad a b c d) =
    Some (dot (hexadecimal (digest (snprintf HOSTLEN (colon KEY2 (quad a b c d) KEY3)) KEY1))
      (dot (hexadecimal (digest (snprintf HOSTLEN (colon KEY3 (dot (decimal a) (dot (decimal b) (decimal c))) KEY1)) KEY2))
      (dot (hexadecimal (digest (snprintf HOSTLEN (colon KEY1 (dot (decimal a) (decimal b)) KEY2)) KEY3)) (lit "IP")))).
Proof.
  intros (L1 & L2 & L3) Ha Hb Hc Hd. destruct keys_bytes as (B1 & B2 & B3).
  unfold hidehost_ipv4. rewrite scan_quad_quad by done. cbn [mbind option_bind].
  rewrite !int_text_decimal by done.
  pose proof (decimal_bytes a Ha). pose proof (decimal_bytes b Hb). pose proof (decimal_bytes c Hc). pose proof (decimal_bytes d Hd).
  assert (Hs : forall n s, Forall byte s -> Forall byte (snprintf n s)) by (intros; by apply Forall_take).
  rewrite !hash_twice_digest; try done; try (apply Hs, colon_bytes; try done; repeat apply dot_bytes; done).
  cbn [mbind option_bind]. rewrite (snprintf_fits HOSTLEN (dot (hexadecimal _) _)); [done|].
  rewrite !length_dot. unfold HOSTLEN.
  pose proof (length_hexadecimal (digest (snprintf HOSTLEN (colon KEY2 (quad a b c d) KEY3)) KEY1)).
  pose proof (length_hexadecimal (digest (snprintf HOSTLEN (colon KEY3 (dot (decimal a) (dot (decimal b) (decimal c))) KEY1)) KEY2)).
  pose proof (length_hexadecimal (digest (snprintf HOSTLEN (colon KEY1 (dot (decimal a) (decimal b)) KEY2)) KEY3)).
  change (length (lit "IP")) with 2%nat. unfold HOSTLEN in *. lia.
Qed.

(** C26: With keys of which any two have at most 57 characters the cloak of a
    printed address is the one the code documents, from digests of RFC 1321: ALPHA
    of a.b.c.d, BETA of a.b.c and GAMMA of a.b.  With longer keys, up to 495
    characters each, the text is cut, but the parts after ALPHA are still the same
    for all addresses a.b.c.*.  A key of 496 characters or more is copied over the
    end of the buffer it is put into behind a digest. *)
Theorem hidehost_ipv4_correct a b c d :
  0 <= a < 256 -> 0 <= b < 256 -> 0 <= c < 256 -> 0 <= d < 256 ->
  ((length KEY1 + length KEY2 <= 57)%nat -> (length KEY2 + length KEY3 <= 57)%nat ->
   (length KEY3 + length KEY1 <= 57)%nat ->
   hidehost_ipv4 (quad a b c d) =
     Some (dot (hexadecimal (digest (colon KEY2 (quad a b c d) KEY3) KEY1))
       (dot (hexadecimal (digest (colon KEY3 (dot (decimal a) (dot (decimal b) (decimal c))) KEY1) KEY2))
       (dot (hexadecimal (digest (colon KEY1 (dot (decimal a) (decimal b)) KEY2) KEY3)) (lit "IP"))))) /\
  (keys_fit -> forall d', 0 <= d' < 256 -> exists alpha alpha' rest,
    hidehost_ipv4 (quad a b c d) = Some (dot (hexadecimal alpha) rest) /\
    hidehost_ipv4 (quad a b c d') = Some (dot (hexadecimal alpha') rest)) /\
  (~ keys_fit -> hidehost_ipv4 (quad a b c d) = None).
Proof.
  intros Ha Hb Hc Hd. split_and!.
  - intros L12 L23 L31. rewrite hidehost_ipv4_ok by (done || (unfold keys_fit; lia)).
    destruct (decimal_byte a Ha) as (_ & La & _). destruct (decimal_byte b Hb) as (_ & Lb & _).
    destruct (decimal_byte c Hc) as (_ & Lc & _). destruct (decimal_byte d Hd) as (_ & Ld & _).
    rewrite !snprintf_fits; [done|rewrite !length_colon; unfold quad; rewrite !length_dot; unfold HOSTLEN; lia..].
  - intros Hf d' Hd'. rewrite !hidehost_ipv4_ok by done. by eexists _, _, _.
  - intros Hf. unfold hidehost_ipv4. rewrite scan_quad_quad by done. cbn [mbind option_bind]. unfold hash_twice.
    destruct (Nat.leb_spec (length KEY1) 495), (Nat.leb_spec (length KEY2) 495), (Nat.leb_spec (length KEY3) 495); try done.
    by destruct Hf.
Qed.

(** With a second key of 73 characters or more the text for ALPHA is cut before
    the address, so that all addresses a.b.c.* have the same cloak, although
    ALPHA is documented to be unique. *)
Theorem hidehost_ipv4_long_key a b c d d' :
  keys_fit ->
  0 <= a < 256 -> 0 <= b < 256 -> 0 <= c < 256 -> 0 <= d < 256 -> 0 <= d' < 256 ->
  (73 <= length KEY2)%nat ->
  hidehost_ipv4 (quad a b c d) = hidehost_ipv4 (quad a b c d').
Proof.
  intros Hf Ha Hb Hc Hd Hd' L2. rewrite !hidehost_ipv4_ok by done.
  assert (E : forall h, snprintf HOSTLEN (colon KEY2 h KEY3) = take 74 (KEY2 ++ [58])).
  { intros h. unfold snprintf, colon, HOSTLEN. change (75 - 1)%nat with 74%nat.
    change (58 :: h ++ 58 :: KEY3) with ([58] ++ h ++ 58 :: KEY3). rewrite app_assoc.
    rewrite take_app_le; [done|]. rewrite length_app. cbn. lia. }
  by rewrite !E.
Qed.

Lemma domain_part_suffix host p : domain_part host = Some p -> exists pre, host = pre ++ 46 :: p /\ IsAlpha (hd0 p) = true.
Proof.
  revert p. induction host as [|c host IH]; intros p; [done|]. cbn [domain_part].
  destruct ((c =? 46) && IsAlpha (hd0 host)) eqn:E.
  - apply andb_true_iff in E as [Ec Ea]. apply Z.eqb_eq in Ec as ->. intros [= <-]. by exists [].
  - intros (pre & -> & Ha)%IH. by exists (c :: pre).
Qed.

(** The cloak of a host name fits into a host name, whatever the lengths of the
    name and of the prefix; it ends in as much of the domain, behind the first
    dot that a letter follows, as there is room for, and in the whole domain
    when there is enough. *)
Theorem hidehost_normalhost_correct host :
  keys_fit -> Forall byte host ->
  exists result, hidehost_normalhost host = Some result /\
    (length result <= HOSTLEN)%nat /\
    match domain_part host with
    | None => result = snprintf HOSTLEN (PREFIX ++ 45 :: hexadecimal (digest (snprintf 512 (colon KEY1 host KEY2)) KEY3))
    | Some p => exists head tail, result = head ++ tail /\ (exists cut, p = cut ++ tail /\
        (cut = [] \/ length result = HOSTLEN)) /\
        head = snprintf HOSTLEN (PREFIX ++ 45 ::
          hexadecimal (digest (snprintf 512 (colon KEY1 host KEY2)) KEY3) ++ [46])
    end.
Proof.
  intros (L1 & L2 & L3) Hh. destruct keys_bytes as (B1 & B2 & B3).
  unfold hidehost_normalhost. rewrite hash_twice_digest; [|apply Forall_take, colon_bytes; done|done|done].
  cbn [mbind option_bind]. set (alpha := digest _ _).
  assert (Hle : forall s, (length (snprintf HOSTLEN s) <= 74)%nat)
    by (intros; unfold snprintf, HOSTLEN; rewrite length_take; lia).
  destruct (domain_part host) as [p|].
  - set (head := snprintf HOSTLEN _). pose proof (Hle (PREFIX ++ 45 :: hexadecimal alpha ++ [46])) as Hhd. fold head in Hhd.
    destruct (Nat.leb_spec (length head + length p) HOSTLEN) as [Hfit|Hlong]; eexists; (split; [done|]).
    + split; [by rewrite length_app|]. exists head, p. split; [done|]. split; [|done]. exists []. by split; [|left].
    + assert (Hl : length (head ++ drop (length head + length p - HOSTLEN) p) = HOSTLEN)
        by (rewrite length_app, length_drop; unfold HOSTLEN in *; lia).
      split; [lia|]. exists head, (drop (length head + length p - HOSTLEN) p). split; [done|]. split; [|done].
      exists (take (length head + length p - HOSTLEN) p). split; [by rewrite take_drop|by right].
  - eexists. split; [done|]. split; [|done]. etransitivity; [apply Hle|]. unfold HOSTLEN. lia.
Qed.
End cloak.

(** ** The keys of the example configuration *)
Definition sample_key1 : list Z := lit "aoAr1HnR6gl3sJ7hVz4Zb7x4YwpW".
Definition sample_key2 : list Z := lit "sdfjkLJKHlkjdkfjsdklfjlkjKLJ".
Definition sample_key3 : list Z := lit "KJklJSDFLkjLKDFJSLKjlKJFlkjS".

Lemma zeros_ok : length (replicate 64 0) = 64%nat /\ Forall byte (replicate 64 0).
Proof. split; [done|]. apply Forall_replicate. unfold byte. lia. Qed.

Lemma sample_keys : Forall byte sample_key1 /\ Forall byte sample_key2 /\ Forall byte sample_key3.
Proof. unfold byte. split; [by_decide|]. split; by_decide. Qed.

Lemma hidehost_ipv4_correct_witness :
  exists r, hidehost_ipv4 (replicate 64 0) sample_key1 sample_key2 sample_key3 (lit "192.168.3.77") = Some r /\
    r = dot (hexadecimal (digest (colon sample_key2 (lit "192.168.3.77") sample_key3) sample_key1))
      (dot (hexadecimal (digest (colon sample_key3 (lit "192.168.3") sample_key1) sample_key2))
      (dot (hexadecimal (digest (colon sample_key1 (lit "192.168") sample_key2) sample_key3)) (lit "IP"))).
Proof.
  destruct (hidehost_ipv4_correct (replicate 64 0) sample_key1 sample_key2 sample_key3 zeros_ok sample_keys
    192 168 3 77) as [E _]; try lia.
  eexists. split; [|reflexivity]. apply E; vm_compute; lia.
Defined.

Lemma hidehost_ipv4_long_key_witness :
  hidehost_ipv4 (replicate 64 0) sample_key1 (replicate 73 65) sample_key3 (quad 10 0 0 1) =
  hidehost_ipv4 (replicate 64 0) sample_key1 (replicate 73 65) sample_key3 (quad 10 0 0 2).
Proof.
  apply (hidehost_ipv4_long_key (replicate 64 0) sample_key1 (replicate 73 65) sample_key3); try lia.
  - exact zeros_ok.
  - split; [apply sample_keys|]. split; [|apply sample_keys]. apply Forall_replicate. unfold byte. lia.
  - unfold keys_fit. by_decide.
  - rewrite length_replicate. lia.
Defined.

Lemma hidehost_normalhost_correct_witness :
  exists head, hidehost_normalhost (replicate 64 0) sample_key1 sample_key2 sample_key3 (lit "AfterNET")
    (lit "dsl-1.2.example.org") = Some (head ++ lit "example.org").
Proof.
  destruct (hidehost_normalhost_correct (replicate 64 0) sample_key1 sample_key2 sample_key3 (lit "AfterNET")
    zeros_ok sample_keys (lit "dsl-1.2.example.org")) as (r & E & Hl & H).
  - unfold keys_fit. by_decide.
  - unfold byte. by_decide.
  - destruct (domain_part (lit "dsl-1.2.example.org")) as [p|] eqn:Ep; [|vm_compute in Ep; discriminate Ep].
    vm_compute in Ep. injection Ep as <-. destruct H as (head & tail & -> & (cut & Ec & Hcut) & Eh).
    exists head. rewrite E. do 2 f_equal. destruct Hcut as [->|Hlen]; [exact (eq_sym Ec)|].
    exfalso. assert (Hh : (length head <= 20)%nat) by (rewrite Eh; vm_compute; lia).
    assert (Ht : (length tail <= 11)%nat) by (apply (f_equal length) in Ec; rewrite length_app in Ec; cbn in Ec; lia).
    rewrite length_app in Hlen. unfold HOSTLEN in Hlen. lia.
Defined.
