(* ===== verification/Jupe.v ===== *)
(** * ircd/jupe.c and ircd/m_jupe.c: server jupes

    A jupe keeps a server off the network for at most a week.  Jupes are spread
    with JUPE messages, whose timestamps order them.  The list is the sequence
    of its jupes, a pointer to a jupe its position; what the functions send is
    the list of their [effect]s in order.  Notices to operators and the log are
    left out.  The int the handlers return is that of exit_client_msg() when
    the last effect is [Exit], and 0 or that of the last reply otherwise. *)
From S2P Require Import Prelude Chattr NumText IrcdString.
Open Scope ircd_scope.

Definition JUPE_MAX_EXPIRE : Z := 604800.

Record Jupe := MkJupe {
  ju_server : list Z; ju_reason : list Z; ju_expire : Z; ju_lastmod : Z; ju_flags : Z }.

Definition JUPE_ACTIVE : Z := 1.
Definition JUPE_LOCAL : Z := 2.
Definition JUPE_LDEACT : Z := 4.
Definition JUPE_MASK : Z := JUPE_ACTIVE .| JUPE_LOCAL.
Definition JUPE_ACTMASK : Z := JUPE_ACTIVE .| JUPE_LDEACT.

Definition JupeIsActive (j : Jupe) : bool := ju_flags j .& JUPE_ACTMASK =? JUPE_ACTIVE.
Definition JupeIsRemActive (j : Jupe) : bool := has_bits (ju_flags j) JUPE_ACTIVE.
Definition JupeIsLocal (j : Jupe) : bool := has_bits (ju_flags j) JUPE_LOCAL.

Definition set_flags (flags : Z) (j : Jupe) : Jupe :=
  MkJupe (ju_server j) (ju_reason j) (ju_expire j) (ju_lastmod j) flags.
Definition set_lastmod (lastmod : Z) (j : Jupe) : Jupe :=
  MkJupe (ju_server j) (ju_reason j) (ju_expire j) lastmod (ju_flags j).

(** Numerics that are sent as replies. *)
Inductive numeric :=
  | ERR_BADEXPIRE (expire : Z) | ERR_NOSUCHJUPE (server : list Z) | ERR_NEEDMOREPARAMS | ERR_DISABLED
  | ERR_NOSUCHSERVER (target : list Z) | ERR_NOPRIVILEGES
  | RPL_JUPELIST (server : list Z) (expire lastmod : Z) (local : bool) (active : bool) (reason : list Z)
  | RPL_ENDOFJUPELIST.

(** What is sent: a JUPE message to all servers but one, or to one server or
    the server of a client; a reply; a server is thrown out. *)
Inductive effect {C : Type} :=
  | Propagate (source but : C) (params : list (list Z))
  | SendOne (source : option C) (to : C) (params : list (list Z))
  | Reply (to : C) (n : numeric)
  | Exit (cptr victim : C) (reason : list Z).
Arguments effect : clear implicits.

#[local] Set Default Proof Using "Type".

Section jupe.
Context {C : Type}.
(** Clients: what the code asks about them. *)
Variables IsServer MyConnect IsMe IsBurstOrBurstAck : C -> bool.
Variables PRIV_JUPE PRIV_LOCAL_JUPE : C -> bool.
Variables FindServer FindNServer find_match_server : list Z -> option C.
(** The two digit numeric of a server, %C of a message to a server. *)
Variable cli_yxx : C -> list Z.
Variable FEAT_CONFIG_OPERCMDS : bool.
Variables CurrentTime TSoffset : Z.

Abbreviation result := (list (effect C) * list Jupe)%type.

Definition TStime : Z := CurrentTime + TSoffset.

Definition make_jupe (server reason : list Z) (expire lastmod flags : Z) : Jupe :=
  MkJupe server reason expire lastmod (flags .& JUPE_MASK).

Definition do_jupe (cptr sptr : C) (jupe : Jupe) : list (effect C) :=
  if negb (JupeIsActive jupe) then []
  else match FindServer (ju_server jupe) with
       | None => []
       | Some acptr =>
           if negb (MyConnect acptr) || IsMe acptr then []
           else [Exit cptr acptr (lit "Juped: " ++ ju_reason jupe)]
       end.

(** "* %c%s %Tu %Tu :%s" *)
Definition jupe_params (j : Jupe) : list (list Z) :=
  [[42]; (if JupeIsRemActive j then 43 else 45) :: ju_server j;
   decimal (u64 (ju_expire j - CurrentTime)); decimal (u64 (ju_lastmod j)); ju_reason j].

Definition propagate_jupe (cptr sptr : C) (jupe : Jupe) : list (effect C) :=
  if JupeIsLocal jupe then [] else [Propagate sptr cptr (jupe_params jupe)].

Definition jupe_add (cptr sptr : C) (server reason : list Z) (expire lastmod flags : Z) (l : list Jupe) : result :=
  if (expire <=? 0) || (JUPE_MAX_EXPIRE <? expire) then
    (if negb (IsServer cptr) && MyConnect cptr then [Reply cptr (ERR_BADEXPIRE expire)] else [], l)
  else
    let expire := expire + CurrentTime in
    let ajupe := make_jupe server reason expire lastmod flags in
    (propagate_jupe cptr sptr ajupe ++ do_jupe cptr sptr ajupe, ajupe :: l).

(** The timestamp is forced to increase. *)
Definition bump_lastmod (lastmod : Z) (j : Jupe) : Jupe :=
  set_lastmod (if lastmod <=? ju_lastmod j then ju_lastmod j + 1 else lastmod) j.

(** The jupe after its activation. *)
Definition activated (lastmod flags : Z) (jupe : Jupe) : Jupe :=
  if has_bits flags JUPE_LOCAL then set_flags (Z.ldiff (ju_flags jupe) JUPE_LDEACT) jupe
  else bump_lastmod lastmod (set_flags (ju_flags jupe .| JUPE_ACTIVE) jupe).

Definition jupe_activate (cptr sptr : C) (i : nat) (jupe : Jupe) (lastmod flags : Z) (l : list Jupe) : result :=
  let saveflags := ju_flags jupe in
  let jupe := activated lastmod flags jupe in
  let l := <[i := jupe]> l in
  if saveflags .& JUPE_ACTMASK =? JUPE_ACTIVE then ([], l)
  else ((if has_bits flags JUPE_LOCAL then [] else propagate_jupe cptr sptr jupe) ++ do_jupe cptr sptr jupe, l).

(** jupe_free() of the jupe at a position. *)
Definition jupe_free (i : nat) (l : list Jupe) : list Jupe := delete i l.

(** A global jupe after its deactivation. *)
Definition deactivated (lastmod flags : Z) (jupe : Jupe) : Jupe :=
  if has_bits flags JUPE_LOCAL then set_flags (ju_flags jupe .| JUPE_LDEACT) jupe
  else bump_lastmod lastmod (set_flags (Z.ldiff (ju_flags jupe) JUPE_ACTIVE) jupe).

Definition jupe_deactivate (cptr sptr : C) (i : nat) (jupe : Jupe) (lastmod flags : Z) (l : list Jupe) : result :=
  if JupeIsLocal jupe then ([], jupe_free i l)
  else
    let saveflags := ju_flags jupe in
    let jupe := deactivated lastmod flags jupe in
    let l := <[i := jupe]> l in
    if negb (saveflags .& JUPE_ACTMASK =? JUPE_ACTIVE) then ([], l)
    else ((if has_bits flags JUPE_LOCAL then [] else propagate_jupe cptr sptr jupe), l).

(** The jupe of a server with its position; expired jupes on the way to it are
    freed. *)
Fixpoint jupe_find (server : list Z) (l : list Jupe) : option (nat * Jupe) * list Jupe :=
  match l with
  | [] => (None, [])
  | jupe :: sjupe =>
      if ju_expire jupe <=? CurrentTime then jupe_find server sjupe
      else if ircd_strcmp server (ju_server jupe) =? 0 then (Some (O, jupe), l)
      else let '(o, sjupe) := jupe_find server sjupe in
           ((fun '(i, j) => (S i, j)) <$> o, jupe :: sjupe)
  end.

(** The loop over all jupes that frees the expired ones. *)
Fixpoint jupe_each (send : Jupe -> list (effect C)) (l : list Jupe) : result :=
  match l with
  | [] => ([], [])
  | jupe :: sjupe =>
      let '(es, rest) := jupe_each send sjupe in
      if ju_expire jupe <=? CurrentTime then (es, rest) else (send jupe ++ es, jupe :: rest)
  end.

Definition jupe_burst (cptr : C) (l : list Jupe) : result :=
  jupe_each (fun jupe => if JupeIsLocal jupe then [] else [SendOne None cptr (jupe_params jupe)]) l.

Definition jupe_resend (cptr : C) (jupe : Jupe) : list (effect C) :=
  if JupeIsLocal jupe then [] else [SendOne None cptr (jupe_params jupe)].

Definition jupe_line (sptr : C) (j : Jupe) : effect C :=
  Reply sptr (RPL_JUPELIST (ju_server j) (ju_expire j + TSoffset) (ju_lastmod j + TSoffset) (JupeIsLocal j)
    (JupeIsActive j) (ju_reason j)).

Definition jupe_list (sptr : C) (server : option (list Z)) (l : list Jupe) : result :=
  match server with
  | Some server =>
      match jupe_find server l with
      | (None, l) => ([Reply sptr (ERR_NOSUCHJUPE server)], l)
      | (Some (_, jupe), l) => ([jupe_line sptr jupe; Reply sptr RPL_ENDOFJUPELIST], l)
      end
  | None =>
      let '(es, l) := jupe_each (fun jupe => [jupe_line sptr jupe]) l in
      (es ++ [Reply sptr RPL_ENDOFJUPELIST], l)
  end.

(** ** The handlers of m_jupe.c *)
Definition is_star (target : list Z) : bool := bool_decide (target = [42]).

(** What ms_jupe() does once the sign and the target are known. *)
Definition jupe_message (cptr sptr : C) (server reason : list Z) (expire_off lastmod flags : Z) (l : list Jupe)
  : result :=
  match jupe_find server l with
  | (Some (i, ajupe), l) =>
      if JupeIsLocal ajupe && negb (has_bits flags JUPE_LOCAL) then
        jupe_add cptr sptr server reason expire_off lastmod flags (jupe_free i l)
      else if ju_lastmod ajupe <? lastmod then
        if has_bits flags JUPE_ACTIVE then jupe_activate cptr sptr i ajupe lastmod flags l
        else jupe_deactivate cptr sptr i ajupe lastmod flags l
      else if (ju_lastmod ajupe =? lastmod) || IsBurstOrBurstAck cptr then ([], l)
      else (jupe_resend cptr ajupe, l)
  | (None, l) => jupe_add cptr sptr server reason expire_off lastmod flags l
  end.

Definition ms_jupe (cptr sptr : C) (parv : list (list Z)) (l : list Jupe) : result :=
  match parv with
  | _ :: target :: server :: p3 :: p4 :: reason :: _ =>
      let go flags :=
        let '(flags, name) :=
          (if hd0 server =? 45 then (flags, drop 1 server)
           else if hd0 server =? 43 then (flags .| JUPE_ACTIVE, drop 1 server)
           else (flags, server)) in
        jupe_message cptr sptr name reason (atoi p3) (atoi p4) flags l in
      if is_star target then go 0
      else match FindNServer target with
           | None => ([], l)
           | Some acptr =>
               if negb (IsMe acptr) then ([SendOne (Some sptr) acptr [target; server; p3; p4; reason]], l)
               else go JUPE_LOCAL
           end
  | _ => ([Reply sptr ERR_NEEDMOREPARAMS], l)
  end.

(** The duration an operator gives; [None] when an int overflows. *)
Definition expire_arg (text : list Z) : option Z :=
  if is_timestamp text then Some (atoi text) else s64 <$> ParseInterval text.

(** What mo_jupe() does when the arguments are read and allowed. *)
Definition oper_jupe (cptr sptr : C) (server reason : list Z) (expire_off flags : Z) (l : list Jupe) : result :=
  match jupe_find server l with
  | (Some (i, ajupe), l) =>
      if JupeIsLocal ajupe && negb (has_bits flags JUPE_LOCAL) then
        jupe_add cptr sptr server reason expire_off TStime flags (jupe_free i l)
      else if has_bits flags JUPE_ACTIVE then jupe_activate cptr sptr i ajupe TStime flags l
      else jupe_deactivate cptr sptr i ajupe TStime flags l
  | (None, l) => jupe_add cptr sptr server reason expire_off TStime flags l
  end.

(** With a sign and a target, which decides who may do it and where. *)
Definition target_jupe (cptr sptr : C) (server target p3 reason : list Z) (expire_off flags : Z) (l : list Jupe)
  : result :=
  if is_star target then
    if PRIV_JUPE sptr then oper_jupe cptr sptr server reason expire_off flags l
    else ([Reply sptr ERR_NOPRIVILEGES], l)
  else
    match find_match_server target with
    | None => ([Reply sptr (ERR_NOSUCHSERVER target)], l)
    | Some acptr =>
        if negb (IsMe acptr) then
          if negb (PRIV_JUPE sptr) then ([Reply sptr ERR_NOPRIVILEGES], l)
          else ([SendOne (Some sptr) acptr
                   [cli_yxx acptr; (if has_bits flags JUPE_ACTIVE then 43 else 45) :: server; p3;
                    decimal (u64 TStime); reason]], l)
        else if negb (PRIV_LOCAL_JUPE sptr) then ([Reply sptr ERR_NOPRIVILEGES], l)
        else oper_jupe cptr sptr server reason expire_off (flags .| JUPE_LOCAL) l
    end.

Definition mo_jupe (cptr sptr : C) (parv : list (list Z)) (l : list Jupe) : option result :=
  match parv with
  | _ :: server :: args =>
      if (hd0 server =? 43) || (hd0 server =? 45) then
        let flags := if hd0 server =? 43 then JUPE_ACTIVE else 0 in
        let server := drop 1 server in
        if negb FEAT_CONFIG_OPERCMDS then Some ([Reply sptr ERR_DISABLED], l)
        else match args with
             | [p2; reason] =>
                 expire_off ← expire_arg p2;
                 Some (oper_jupe cptr sptr server reason expire_off (flags .| JUPE_LOCAL) l)
             | target :: p3 :: reason :: _ =>
                 expire_off ← expire_arg p3;
                 Some (target_jupe cptr sptr server target p3 reason expire_off flags l)
             | _ => Some ([Reply sptr ERR_NEEDMOREPARAMS], l)
             end
      else Some (jupe_list sptr (Some server) l)
  | _ => Some (jupe_list sptr None l)
  end.

Definition m_jupe (sptr : C) (parv : list (list Z)) (l : list Jupe) : result :=
  match parv with
  | _ :: server :: _ => jupe_list sptr (Some server) l
  | _ => jupe_list sptr None l
  end.

(** ** The list as a map from server names *)
Definition key (j : Jupe) : list Z := lower (ju_server j).
Definition jmap (l : list Jupe) : gmap (list Z) Jupe := list_to_map ((fun j => (key j, j)) <$> l).

(** The jupes that have not expired. *)
Definition live (l : list Jupe) : gmap (list Z) Jupe :=
  filter (fun kj : list Z * Jupe => CurrentTime < ju_expire kj.2) (jmap l).

(** A jupe has flags the code gives it, and lasts for a week at most. *)
Record jupe_ok (j : Jupe) : Prop := {
  jo_server : cstring (ju_server j);
  jo_flags : ju_flags j ∈ [0; 1; 2; 3; 4; 5];
  jo_expire : ju_expire j <= CurrentTime + JUPE_MAX_EXPIRE }.

Record jupes_ok (l : list Jupe) : Prop := {
  jo_names : NoDup (key <$> l);
  jo_jupes : Forall jupe_ok l }.

Lemma jmap_lookup l k j : NoDup (key <$> l) -> jmap l !! k = Some j <-> j ∈ l /\ key j = k.
Proof.
  clear FindServer FindNServer find_match_server cli_yxx.
  intros Hnd. unfold jmap. rewrite <- elem_of_list_to_map; [|by rewrite <- list_fmap_compose].
  rewrite list_elem_of_fmap. split; [intros (x & [= -> ->] & ?)|intros [? <-]]; eauto.
Qed.

Lemma jmap_absent l k : k ∉ key <$> l -> jmap l !! k = None.
Proof. intros Hk. unfold jmap. apply not_elem_of_list_to_map. by rewrite <- list_fmap_compose. Qed.

Lemma live_lookup l k j :
  NoDup (key <$> l) -> live l !! k = Some j <-> j ∈ l /\ key j = k /\ CurrentTime < ju_expire j.
Proof. intros Hnd. unfold live. rewrite map_lookup_filter_Some, jmap_lookup by done. cbn. by split; [intros [[? ?] ?]|intros (? & ? & ?)]. Qed.

Lemma live_absent l k : k ∉ key <$> l -> live l !! k = None.
Proof. intros Hk. unfold live. apply map_lookup_filter_None. left. by apply jmap_absent. Qed.

Lemma sublist_ok l l' : l' `sublist_of` l -> jupes_ok l -> jupes_ok l'.
Proof.
  clear FindServer FindNServer find_match_server cli_yxx.
  intros Hs [Hn Hj]. split.
  - eapply sublist_NoDup; [exact Hn|]. by apply fmap_sublist.
  - apply Forall_forall. intros j Hjl. rewrite Forall_forall in Hj. apply Hj. by eapply elem_of_sublist.
Qed.

(** jupe_find() finds the jupe of a server among those that have not expired,
    and only frees expired ones. *)
Lemma jupe_find_ok server l :
  cstring server -> jupes_ok l ->
  exists o l', jupe_find server l = (o, l') /\ jupes_ok l' /\ l' `sublist_of` l /\ live l' = live l /\
    match o with
    | Some (i, j) => l' !! i = Some j /\ key j = lower server /\ live l !! lower server = Some j
    | None => live l !! lower server = None /\ lower server ∉ key <$> l'
    end.
Proof.
  clear FindServer FindNServer find_match_server cli_yxx.
  intros Hs Hl.
  assert (exists o l', jupe_find server l = (o, l') /\ l' `sublist_of` l /\
    (forall j, j ∈ l -> CurrentTime < ju_expire j -> j ∈ l') /\
    match o with
    | Some (i, j) => l' !! i = Some j /\ key j = lower server /\ CurrentTime < ju_expire j
    | None => lower server ∉ key <$> l'
    end) as (o & l' & E & Hsub & Hkeep & Ho).
  { destruct Hl as [_ Hj]. induction Hj as [|j l Hj _ IH]; [eexists None, []; set_solver|].
    destruct IH as (o & l' & E & Hsub & Hkeep & Ho). cbn [jupe_find]. destruct (Z.leb_spec (ju_expire j) CurrentTime).
    - exists o, l'. split_and!; [done|by apply sublist_cons| |done].
      intros x [->|Hx]%elem_of_cons ?; [lia|auto].
    - destruct (Z.eqb_spec (ircd_strcmp server (ju_server j)) 0) as [Ec|Ec].
      + exists (Some (O, j)), (j :: l). split_and!; try done. symmetry. apply strcmp_0; [done|apply Hj|done].
      + rewrite E. eexists _, (j :: l'). split; [done|]. split_and!; [by apply sublist_skip| |].
        * intros x. rewrite !elem_of_cons. intros [->|Hx]; auto.
        * rewrite strcmp_0 in Ec; [|done|apply Hj]. destruct o as [[i x]|]; cbn in *; [done|].
          fold (key j) in Ec. rewrite elem_of_cons. naive_solver. }
  exists o, l'. assert (Hok' : jupes_ok l') by by eapply sublist_ok.
  assert (Hlive : live l' = live l).
  { apply map_eq. intros k. apply option_eq. intros j. rewrite !live_lookup by (apply Hl || apply Hok').
    split; [|naive_solver]. intros (Hj & ? & ?). split_and!; [by eapply elem_of_sublist|done..]. }
  split_and!; try done. destruct o as [[i j]|].
  - destruct Ho as (Hi & Hk & He). split_and!; [done..|]. rewrite <- Hlive. apply live_lookup; [apply Hok'|].
    split_and!; [by eapply list_elem_of_lookup_2|done..].
  - split; [|done]. rewrite <- Hlive. by apply live_absent.
Qed.

Lemma live_cons j l : key j ∉ key <$> l -> CurrentTime < ju_expire j -> live (j :: l) = <[key j := j]> (live l).
Proof.
  clear FindServer FindNServer find_match_server cli_yxx.
  intros Hk He. unfold live, jmap. cbn [fmap list_fmap list_to_map]. apply map_filter_insert_True. by cbn.
Qed.

Lemma live_insert l i j j' :
  NoDup (key <$> l) -> l !! i = Some j -> key j' = key j -> CurrentTime < ju_expire j' ->
  live (<[i := j']> l) = <[key j := j']> (live l).
Proof.
  clear FindServer FindNServer find_match_server cli_yxx.
  intros Hnd Hi Hk He.
  assert (Hl' : key <$> <[i := j']> l = key <$> l).
  { rewrite list_fmap_insert, Hk. apply list_insert_id. by rewrite list_lookup_fmap, Hi. }
  apply map_eq. intros k. apply option_eq. intros x. rewrite live_lookup by by rewrite Hl'.
  rewrite list_elem_of_lookup. destruct (decide (k = key j)) as [->|Hne].
  - rewrite lookup_insert_eq. split.
    + intros ((n & Hn) & Hx & _). f_equal. destruct (decide (n = i)) as [->|Hni].
      * rewrite list_lookup_insert_eq in Hn by by eapply lookup_lt_Some. congruence.
      * rewrite list_lookup_insert_ne in Hn by done. exfalso. apply Hni.
        eapply (NoDup_lookup (key <$> l)); [done|..]; rewrite list_lookup_fmap; [by rewrite Hn|by rewrite Hi; cbn; rewrite Hx].
    + intros [= <-]. split_and!; [|done..]. exists i. apply list_lookup_insert_eq. by eapply lookup_lt_Some.
  - rewrite lookup_insert_ne, live_lookup by done. rewrite list_elem_of_lookup. split.
    + intros ((n & Hn) & <- & ?). split_and!; [|done..]. destruct (decide (n = i)) as [->|Hni].
      * rewrite list_lookup_insert_eq in Hn by by eapply lookup_lt_Some. injection Hn as <-. congruence.
      * rewrite list_lookup_insert_ne in Hn by done. eauto.
    + intros ((n & Hn) & <- & ?). split_and!; [|done..]. exists n. rewrite list_lookup_insert_ne; [done|].
      intros ->. congruence.
Qed.

Lemma live_delete l i j :
  NoDup (key <$> l) -> l !! i = Some j -> live (delete i l) = delete (key j) (live l).
Proof.
  clear FindServer FindNServer find_match_server cli_yxx.
  intros Hnd Hi.
  assert (Hp : l ≡ₚ j :: delete i l) by by apply delete_Permutation.
  assert (Hnd' : NoDup (key <$> j :: delete i l)) by by rewrite <- Hp. cbn in Hnd'. apply NoDup_cons in Hnd' as [Hj Hnd'].
  apply map_eq. intros k. apply option_eq. intros x. rewrite live_lookup by done.
  destruct (decide (k = key j)) as [->|Hne].
  - rewrite lookup_delete_eq. split; [|done]. intros (Hx & Hk & _). exfalso. apply Hj. rewrite <- Hk.
    by apply list_elem_of_fmap_2.
  - rewrite lookup_delete_ne, live_lookup by done. revert Hp Hj. generalize (delete i l). intros d Hp Hj.
    rewrite Hp, elem_of_cons. naive_solver.
Qed.

(** ** What a message does to the map of live jupes *)
Definition spec_add (server reason : list Z) (expire lastmod flags : Z) (m : gmap (list Z) Jupe) :=
  if bool_decide (0 < expire <= JUPE_MAX_EXPIRE)
  then <[lower server := make_jupe server reason (expire + CurrentTime) lastmod flags]> m else m.

Definition spec_activate (j : Jupe) (lastmod flags : Z) (m : gmap (list Z) Jupe) :=
  if has_bits flags JUPE_ACTIVE then <[key j := activated lastmod flags j]> m
  else if JupeIsLocal j then delete (key j) m
  else <[key j := deactivated lastmod flags j]> m.

Definition spec_message (server reason : list Z) (expire lastmod flags : Z) (m : gmap (list Z) Jupe) :=
  match m !! lower server with
  | None => spec_add server reason expire lastmod flags m
  | Some j =>
      if JupeIsLocal j && negb (has_bits flags JUPE_LOCAL)
      then spec_add server reason expire lastmod flags (delete (lower server) m)
      else if ju_lastmod j <? lastmod then spec_activate j lastmod flags m
      else m
  end.

Definition spec_oper (server reason : list Z) (expire flags : Z) (m : gmap (list Z) Jupe) :=
  match m !! lower server with
  | None => spec_add server reason expire TStime flags m
  | Some j =>
      if JupeIsLocal j && negb (has_bits flags JUPE_LOCAL)
      then spec_add server reason expire TStime flags (delete (lower server) m)
      else spec_activate j TStime flags m
  end.

(** A result with a well formed list for a map; what has expired on it was on
    the list before. *)
Record refines (l : list Jupe) (r : result) (m : gmap (list Z) Jupe) : Prop := {
  rf_ok : jupes_ok (snd r);
  rf_live : live (snd r) = m;
  rf_old : forall j, j ∈ snd r -> ju_expire j <= CurrentTime -> j ∈ l }.

Lemma refines_mono l l' r m : (forall j, j ∈ l' -> j ∈ l) -> refines l' r m -> refines l r m.
Proof. intros Hs []. split; auto. Qed.

Lemma add_refines cptr sptr server reason expire lastmod flags l :
  cstring server -> jupes_ok l -> lower server ∉ key <$> l -> flags ∈ [0; 1; 2; 3] ->
  refines l (jupe_add cptr sptr server reason expire lastmod flags l) (spec_add server reason expire lastmod flags (live l)).
Proof.
  intros Hs Hl Hk Hf. unfold jupe_add, spec_add.
  destruct (bool_decide_reflect (0 < expire <= JUPE_MAX_EXPIRE)) as [He|He].
  - rewrite (proj2 (Z.leb_gt _ _)), (proj2 (Z.ltb_ge _ _)) by lia. cbn [orb]. split; cbn [snd].
    + split; [cbn; apply NoDup_cons; split; [exact Hk|apply Hl]|]. constructor; [|apply Hl]. split; cbn; [done| |lia].
      rewrite !elem_of_cons in Hf. decompose [or] Hf; subst; by_decide || set_solver.
    + rewrite live_cons; [done|exact Hk|cbn; lia].
    + intros j [->|Hj]%elem_of_cons; [cbn; lia|done].
  - destruct (Z.leb_spec expire 0); cbn [orb]; [by split|]. by rewrite (proj2 (Z.ltb_lt _ _)) by lia.
Qed.

Lemma free_ok l i j : jupes_ok l -> l !! i = Some j -> jupes_ok (jupe_free i l) /\ key j ∉ key <$> jupe_free i l.
Proof.
  intros Hl Hi. unfold jupe_free. split; [eapply sublist_ok; [apply sublist_delete|exact Hl]|].
  destruct Hl as [Hn _]. rewrite (delete_Permutation l i j Hi) in Hn. by apply NoDup_cons in Hn as [? _].
Qed.

Lemma insert_ok l i j j' :
  jupes_ok l -> l !! i = Some j -> key j' = key j -> jupe_ok j' -> jupes_ok (<[i := j']> l).
Proof.
  intros [Hn Hj] Hi Hk Hj'. split; [|by apply Forall_insert].
  rewrite list_fmap_insert, Hk, list_insert_id; [done|]. by rewrite list_lookup_fmap, Hi.
Qed.

Lemma elem_of_flags (x : Z) l : x ∈ l -> In x l.
Proof. apply list_elem_of_In. Qed.

Lemma updated_ok lastmod flags j :
  jupe_ok j -> flags ∈ [0; 1; 2; 3] -> (JupeIsLocal j = true -> has_bits flags JUPE_LOCAL = true) ->
  jupe_ok (activated lastmod flags j) /\ (JupeIsLocal j = false -> jupe_ok (deactivated lastmod flags j)).
Proof.
  intros [Hs Hfl He] Hf Hloc. destruct j as [server reason expire lm fl]. cbn in *.
  unfold activated, deactivated, JupeIsLocal in *. cbn in Hloc |- *.
  apply elem_of_flags in Hfl, Hf. cbn in Hfl, Hf.
  repeat destruct Hfl as [<-|Hfl]; try done; repeat destruct Hf as [<-|Hf]; try done;
    (split; [|intros Hl]; split; cbn; first [done|by_decide|by specialize (Hloc eq_refl)|idtac]).
Qed.

Lemma activate_refines cptr sptr i j lastmod flags l :
  jupes_ok l -> l !! i = Some j -> CurrentTime < ju_expire j -> flags ∈ [0; 1; 2; 3] ->
  (JupeIsLocal j = true -> has_bits flags JUPE_LOCAL = true) ->
  refines l (if has_bits flags JUPE_ACTIVE then jupe_activate cptr sptr i j lastmod flags l
           else jupe_deactivate cptr sptr i j lastmod flags l) (spec_activate j lastmod flags (live l)).
Proof.
  intros Hl Hi He Hf Hloc.
  assert (Hj : jupe_ok j) by (eapply Forall_lookup_1; [apply Hl|exact Hi]).
  destruct (updated_ok lastmod flags j Hj Hf Hloc) as [Ha Hd].
  assert (Hka : key (activated lastmod flags j) = key j /\ ju_expire (activated lastmod flags j) = ju_expire j).
  { unfold activated, bump_lastmod. by destruct (has_bits flags JUPE_LOCAL). }
  assert (Hkd : key (deactivated lastmod flags j) = key j /\ ju_expire (deactivated lastmod flags j) = ju_expire j).
  { unfold deactivated, bump_lastmod. by destruct (has_bits flags JUPE_LOCAL). }
  destruct Hka as [Hka Hea], Hkd as [Hkd Hed].
  assert (Hold : forall j', ju_expire j' = ju_expire j -> forall x, x ∈ <[i := j']> l -> ju_expire x <= CurrentTime -> x ∈ l).
  { intros j' Ej x Hx Hxe. apply list_elem_of_lookup in Hx as [n Hn]. destruct (decide (n = i)) as [->|Hne].
    - rewrite list_lookup_insert_eq in Hn by (by eapply lookup_lt_Some). injection Hn as <-. lia.
    - rewrite list_lookup_insert_ne in Hn by done. by eapply list_elem_of_lookup_2. }
  unfold spec_activate. destruct (has_bits flags JUPE_ACTIVE).
  - assert (E : snd (jupe_activate cptr sptr i j lastmod flags l) = <[i := activated lastmod flags j]> l)
      by (unfold jupe_activate; by destruct (_ =? _)).
    split; rewrite E; [by eapply insert_ok|apply live_insert; [apply Hl|done..|by rewrite Hea]|by apply Hold].
  - unfold jupe_deactivate. destruct (JupeIsLocal j) eqn:El.
    + split; cbn [snd]; [by apply (free_ok l i j)|by apply live_delete; [apply Hl|]|].
      intros x Hx _. eapply elem_of_sublist; [exact Hx|apply sublist_delete].
    + match goal with |- refines _ ?p _ => assert (E : snd p = <[i := deactivated lastmod flags j]> l)
        by (by destruct (negb _)) end.
      split; rewrite E; [by eapply insert_ok; [| | |apply Hd]|apply live_insert; [apply Hl|done..|by rewrite Hed]|by apply Hold].
Qed.

(** What both handlers do with a jupe that is found, or not. *)
Lemma found_refines cptr sptr server reason expire lastmod flags l other spec :
  cstring server -> jupes_ok l -> flags ∈ [0; 1; 2; 3] ->
  (forall i j l', jupes_ok l' -> l' !! i = Some j -> CurrentTime < ju_expire j ->
     (JupeIsLocal j = true -> has_bits flags JUPE_LOCAL = true) ->
     refines l' (other i j l') (spec j (live l'))) ->
  refines l
    (match jupe_find server l with
     | (Some (i, ajupe), l) =>
         if JupeIsLocal ajupe && negb (has_bits flags JUPE_LOCAL) then
           jupe_add cptr sptr server reason expire lastmod flags (jupe_free i l)
         else other i ajupe l
     | (None, l) => jupe_add cptr sptr server reason expire lastmod flags l
     end)
    (match live l !! lower server with
     | None => spec_add server reason expire lastmod flags (live l)
     | Some j =>
         if JupeIsLocal j && negb (has_bits flags JUPE_LOCAL)
         then spec_add server reason expire lastmod flags (delete (lower server) (live l))
         else spec j (live l)
     end).
Proof.
  intros Hs Hl Hf Hother.
  destruct (jupe_find_ok server l Hs Hl) as (o & l' & -> & Hl' & Hsub & Hlive & Ho). rewrite <- Hlive.
  assert (Hmono : forall r m, refines l' r m -> refines l r m)
    by (intros r m; apply refines_mono; intros j Hj; by eapply elem_of_sublist).
  destruct o as [[i j]|].
  - destruct Ho as (Hi & Hk & Hj). rewrite Hlive, Hj, <- Hlive.
    assert (He : CurrentTime < ju_expire j) by (apply live_lookup in Hj; [naive_solver|apply Hl]).
    destruct (JupeIsLocal j && negb (has_bits flags JUPE_LOCAL)) eqn:El; apply Hmono.
    + destruct (free_ok l' i j Hl' Hi) as [Hok Hnk]. rewrite <- Hk.
      rewrite <- (live_delete l' i j) by (apply Hl' || done). rewrite Hk in Hnk.
      eapply refines_mono; [|by apply add_refines]. intros x Hx. eapply elem_of_sublist; [exact Hx|apply sublist_delete].
    + apply Hother; try done. intros E. rewrite E in El. cbn in El. by apply negb_false_iff in El.
  - destruct Ho as [Hn Hk]. rewrite Hlive, Hn, <- Hlive. by apply Hmono, add_refines.
Qed.

Lemma message_refines cptr sptr server reason expire lastmod flags l :
  cstring server -> jupes_ok l -> flags ∈ [0; 1; 2; 3] ->
  refines l (jupe_message cptr sptr server reason expire lastmod flags l)
          (spec_message server reason expire lastmod flags (live l)).
Proof.
  intros Hs Hl Hf. unfold jupe_message, spec_message.
  apply (found_refines cptr sptr server reason expire lastmod flags l
    (fun i ajupe l => if ju_lastmod ajupe <? lastmod then
        if has_bits flags JUPE_ACTIVE then jupe_activate cptr sptr i ajupe lastmod flags l
        else jupe_deactivate cptr sptr i ajupe lastmod flags l
      else if (ju_lastmod ajupe =? lastmod) || IsBurstOrBurstAck cptr then ([], l)
      else (jupe_resend cptr ajupe, l))
    (fun j m => if ju_lastmod j <? lastmod then spec_activate j lastmod flags m else m)); try done.
  intros i j l' Hl' Hi He Hloc. destruct (ju_lastmod j <? lastmod); [by apply activate_refines|].
  by destruct ((ju_lastmod j =? lastmod) || IsBurstOrBurstAck cptr).
Qed.

Lemma oper_refines cptr sptr server reason expire flags l :
  cstring server -> jupes_ok l -> flags ∈ [0; 1; 2; 3] ->
  refines l (oper_jupe cptr sptr server reason expire flags l) (spec_oper server reason expire flags (live l)).
Proof.
  intros Hs Hl Hf. unfold oper_jupe, spec_oper.
  apply (found_refines cptr sptr server reason expire TStime flags l
    (fun i ajupe l => if has_bits flags JUPE_ACTIVE then jupe_activate cptr sptr i ajupe TStime flags l
        else jupe_deactivate cptr sptr i ajupe TStime flags l)
    (fun j m => spec_activate j TStime flags m)); try done.
  intros i j l' Hl' Hi He Hloc. by apply activate_refines.
Qed.

(** ** Messages from servers *)
Definition sign_flags (server : list Z) : Z := if hd0 server =? 43 then JUPE_ACTIVE else 0.
Definition unsigned (server : list Z) : list Z :=
  if (hd0 server =? 43) || (hd0 server =? 45) then drop 1 server else server.

Lemma unsigned_cstring server : cstring server -> cstring (unsigned server).
Proof. intros Hs. unfold unsigned. destruct (_ || _); [by apply Forall_drop|done]. Qed.

Lemma sign_flags_in server : sign_flags server ∈ [0; 1; 2; 3] /\ JUPE_LOCAL .| sign_flags server ∈ [0; 1; 2; 3].
Proof. unfold sign_flags. destruct (_ =? _); split; by_decide. Qed.

(** C10: a JUPE message from a server does to the live jupes, taken as a map from
    lower case names, what [spec_message] says, and leaves a well formed list:
    for a name without a jupe it adds one, if its lifetime is in range, in place
    of a local jupe a global one, for a jupe with an earlier timestamp it
    activates or deactivates it, and else, with an equal timestamp too, it
    changes nothing; a message for another server is only passed on there.
    (doc/readme.jupe wants an equal timestamp to activate or deactivate.) *)
Theorem ms_jupe_correct cptr sptr prefix target server p3 p4 reason rest l :
  cstring server -> jupes_ok l ->
  let parv := prefix :: target :: server :: p3 :: p4 :: reason :: rest in
  let here flags := refines l (ms_jupe cptr sptr parv l)
    (spec_message (unsigned server) reason (atoi p3) (atoi p4) (flags .| sign_flags server) (live l)) in
  if is_star target then here 0
  else match FindNServer target with
       | None => ms_jupe cptr sptr parv l = ([], l)
       | Some acptr =>
           if IsMe acptr then here JUPE_LOCAL
           else ms_jupe cptr sptr parv l = ([SendOne (Some sptr) acptr [target; server; p3; p4; reason]], l)
       end.
Proof.
  intros Hs Hl parv here.
  assert (Hgo : forall flags r, flags = 0 \/ flags = JUPE_LOCAL ->
    r = (let '(flags, name) := (if hd0 server =? 45 then (flags, drop 1 server)
           else if hd0 server =? 43 then (flags .| JUPE_ACTIVE, drop 1 server) else (flags, server)) in
         jupe_message cptr sptr name reason (atoi p3) (atoi p4) flags l) ->
    refines l r (spec_message (unsigned server) reason (atoi p3) (atoi p4) (flags .| sign_flags server) (live l))).
  { intros flags r Hf ->.
    assert (E : (if hd0 server =? 45 then (flags, drop 1 server)
           else if hd0 server =? 43 then (flags .| JUPE_ACTIVE, drop 1 server) else (flags, server)) =
           (flags .| sign_flags server, unsigned server)).
    { unfold sign_flags, unsigned. destruct (Z.eqb_spec (hd0 server) 45) as [->|]; [by destruct Hf as [->| ->]|].
      destruct (hd0 server =? 43); [done|]. by destruct Hf as [->| ->]. }
    rewrite E. apply message_refines; [by apply unsigned_cstring|done|].
    destruct (sign_flags_in server) as [H0 H2]. by destruct Hf as [->| ->]. }
  unfold here, parv, ms_jupe. destruct (is_star target); [apply (Hgo 0); auto|].
  destruct (FindNServer target) as [acptr|]; [|done].
  destruct (IsMe acptr); [|done]. apply (Hgo JUPE_LOCAL); auto.
Qed.

(** ** Commands of operators *)
Lemma each_live send l : jupes_ok l -> refines l (jupe_each send l) (live l).
Proof.
  clear FindServer FindNServer find_match_server cli_yxx. intros Hl.
  assert (Hsub : snd (jupe_each send l) `sublist_of` l /\
    (forall j, j ∈ l -> CurrentTime < ju_expire j -> j ∈ snd (jupe_each send l))).
  { clear Hl. induction l as [|j l [IH1 IH2]]; [split; set_solver|]. cbn [jupe_each].
    destruct (jupe_each send l) as [es l']. cbn [snd] in *. destruct (Z.leb_spec (ju_expire j) CurrentTime); cbn [snd].
    - split; [by apply sublist_cons|]. intros x [->|Hx]%elem_of_cons ?; [lia|auto].
    - split; [by apply sublist_skip|]. intros x. rewrite !elem_of_cons. naive_solver. }
  destruct Hsub as [Hsub Hkeep]. assert (Hok : jupes_ok (snd (jupe_each send l))) by by eapply sublist_ok.
  split; [done| |by intros; eapply elem_of_sublist].
  apply map_eq. intros k. apply option_eq. intros j. rewrite !live_lookup by (apply Hl || apply Hok).
  split; [|naive_solver]. intros (Hj & ? & ?). split_and!; [by eapply elem_of_sublist|done..].
Qed.

Lemma list_live sptr server l :
  (forall s, server = Some s -> cstring s) -> jupes_ok l ->
  refines l (jupe_list sptr server l) (live l) /\ Forall (fun e => exists to n, e = Reply to n) (fst (jupe_list sptr server l)).
Proof.
  intros Hs Hl. unfold jupe_list. destruct server as [server|].
  - destruct (jupe_find_ok server l (Hs _ eq_refl) Hl) as (o & l' & -> & Hl' & Hsub & Hlive & Ho).
    destruct o as [[i j]|]; (split; [split; [done..|by intros; eapply elem_of_sublist]|]);
      unfold jupe_line; cbn [fst]; repeat (constructor; [by eauto|]); constructor.
  - pose proof (each_live (fun jupe => [jupe_line sptr jupe]) l Hl) as Hr.
    assert (He : Forall (fun e => exists to n, e = Reply to n) (fst (jupe_each (fun jupe => [jupe_line sptr jupe]) l))).
    { clear. induction l as [|j l IH]; [constructor|]. cbn [jupe_each]. destruct (jupe_each _ l) as [es l'].
      cbn [fst] in IH. destruct (_ <=? _); cbn [fst app]; [done|]. constructor; [unfold jupe_line; eauto|done]. }
    destruct (jupe_each _ l) as [es l']. cbn in *. split; [by destruct Hr; split|].
    apply Forall_app. split; [done|]. repeat constructor. eauto.
Qed.

(** What the network agrees on: the global jupes, without the local
    deactivation. *)
Definition global_jupe (m : gmap (list Z) Jupe) (k : list Z) : option Jupe :=
  match m !! k with
  | Some j => if JupeIsLocal j then None else Some (set_flags (Z.ldiff (ju_flags j) JUPE_LDEACT) j)
  | None => None
  end.

Definition stays_here (e : effect C) : Prop :=
  match e with Propagate _ _ _ | SendOne _ _ _ => False | _ => True end.

Lemma do_jupe_here cptr sptr j : Forall stays_here (do_jupe cptr sptr j).
Proof.
  unfold do_jupe. destruct (negb _); [done|]. destruct (FindServer _) as [c|]; [|done].
  destruct (_ || _); [done|]. by repeat constructor.
Qed.

Lemma local_add_here cptr sptr server reason expire lastmod flags l :
  flags ∈ [2; 3] -> Forall stays_here (fst (jupe_add cptr sptr server reason expire lastmod flags l)).
Proof.
  intros Hf. unfold jupe_add. destruct (_ || _); cbn [fst]; [destruct (_ && _); by repeat constructor|].
  apply Forall_app. split; [|apply do_jupe_here]. unfold propagate_jupe, JupeIsLocal, make_jupe. cbn [ju_flags].
  apply elem_of_flags in Hf. by repeat destruct Hf as [<-|Hf].
Qed.

Lemma local_oper_here cptr sptr server reason expire flags l :
  flags ∈ [2; 3] -> Forall stays_here (fst (oper_jupe cptr sptr server reason expire flags l)).
Proof.
  intros Hf. assert (Hl : has_bits flags JUPE_LOCAL = true) by (apply elem_of_flags in Hf; by repeat destruct Hf as [<-|Hf]).
  unfold oper_jupe. destruct (jupe_find server l) as [[[i j]|] l']; [|by apply local_add_here].
  rewrite Hl, andb_false_r. destruct (has_bits flags JUPE_ACTIVE).
  - unfold jupe_activate. destruct (_ =? _); cbn [fst]; [done|]. rewrite Hl. apply do_jupe_here.
  - unfold jupe_deactivate. destruct (JupeIsLocal j); [done|]. destruct (negb _); cbn [fst]; [done|]. by rewrite Hl.
Qed.

Lemma local_spec_oper server reason expire flags m :
  (forall k j, m !! k = Some j -> key j = k) ->
  (forall k j, m !! k = Some j -> ju_flags j ∈ [0; 1; 2; 3; 4; 5]) -> flags ∈ [2; 3] ->
  forall k, global_jupe (spec_oper server reason expire flags m) k = global_jupe m k.
Proof.
  intros Hkey Hfl Hf k.
  assert (Hl : has_bits flags JUPE_LOCAL = true) by (apply elem_of_flags in Hf; by repeat destruct Hf as [<-|Hf]).
  assert (Hmake : forall lm e, JupeIsLocal (make_jupe server reason e lm flags) = true).
  { intros. unfold JupeIsLocal, make_jupe. cbn [ju_flags]. apply elem_of_flags in Hf. by repeat destruct Hf as [<-|Hf]. }
  unfold spec_oper. destruct (m !! lower server) as [j|] eqn:Ej.
  - pose proof (Hkey _ _ Ej) as Hk. specialize (Hfl _ _ Ej).
    rewrite Hl, andb_false_r. unfold spec_activate, activated, deactivated. rewrite Hl, Hk.
    unfold global_jupe. destruct (decide (k = lower server)) as [->|Hne].
    + rewrite Ej. apply elem_of_flags in Hfl.
      destruct (has_bits flags JUPE_ACTIVE), (JupeIsLocal j) eqn:El;
        rewrite ?lookup_insert_eq, ?lookup_delete_eq; try done; revert El;
        destruct j as [sv re ex lm fl]; unfold JupeIsLocal, set_flags; cbn in Hfl |- *;
        by repeat destruct Hfl as [<-|Hfl].
    + destruct (has_bits flags JUPE_ACTIVE); [by rewrite lookup_insert_ne|].
      destruct (JupeIsLocal j); [by rewrite lookup_delete_ne|by rewrite lookup_insert_ne].
  - unfold spec_add. destruct (bool_decide _); [|done]. unfold global_jupe.
    destruct (decide (k = lower server)) as [->|Hne]; [|by rewrite lookup_insert_ne].
    by rewrite lookup_insert_eq, Hmake, Ej.
Qed.

Lemma live_wf l : jupes_ok l ->
  (forall k j, live l !! k = Some j -> key j = k) /\ (forall k j, live l !! k = Some j -> ju_flags j ∈ [0; 1; 2; 3; 4; 5]).
Proof.
  intros [Hn Hj]. split; intros k j (Hjl & Hk & _)%live_lookup; try done.
  rewrite Forall_forall in Hj. by apply Hj.
Qed.

(** An operator without the privilege PRIV_JUPE can not change, whatever the
    arguments are, what the network agrees on about jupes, and nothing is sent
    to another server; the list stays well formed. *)
Theorem mo_jupe_authorised cptr sptr parv l es l' :
  Forall cstring parv -> jupes_ok l -> PRIV_JUPE sptr = false ->
  mo_jupe cptr sptr parv l = Some (es, l') ->
  jupes_ok l' /\ Forall stays_here es /\ forall k, global_jupe (live l') k = global_jupe (live l) k.
Proof.
  intros Hp Hl Hpriv.
  assert (Hlist : forall o r, (forall s, o = Some s -> cstring s) -> r = jupe_list sptr o l -> Some r = Some (es, l') ->
    jupes_ok l' /\ Forall stays_here es /\ forall k, global_jupe (live l') k = global_jupe (live l) k).
  { intros o r Ho -> [= E]. destruct (list_live sptr o l Ho Hl) as [[H1 H2 _] H3]. rewrite E in *. cbn in *.
    split_and!; [done| |intros; by rewrite H2]. eapply Forall_impl; [exact H3|]. by intros ? (? & ? & ->). }
  assert (Hloc : forall server reason expire flags, cstring server -> flags ∈ [2; 3] ->
    Some (oper_jupe cptr sptr server reason expire flags l) = Some (es, l') ->
    jupes_ok l' /\ Forall stays_here es /\ forall k, global_jupe (live l') k = global_jupe (live l) k).
  { intros server reason expire flags Hs Hf [= E]. pose proof (local_oper_here cptr sptr server reason expire flags l Hf) as H3.
    assert (Hf4 : flags ∈ [0; 1; 2; 3]) by (rewrite elem_of_cons, elem_of_cons; auto).
    destruct (oper_refines cptr sptr server reason expire flags l Hs Hl Hf4) as [H1 H2 _]. rewrite E in *. cbn in *.
    split_and!; [done..|]. rewrite H2. destruct (live_wf l Hl). by apply local_spec_oper. }
  unfold mo_jupe. destruct parv as [|p0 [|server args]]; [apply (Hlist None); [done..]|apply (Hlist None); [done..]|].
  rewrite !Forall_cons in Hp. destruct Hp as (_ & Hs & Ha).
  destruct ((hd0 server =? 43) || (hd0 server =? 45)); [|apply (Hlist (Some server)); [by intros ? [= <-]|done]].
  assert (Hd : cstring (drop 1 server)) by by apply Forall_drop.
  assert (Hf : (if hd0 server =? 43 then JUPE_ACTIVE else 0) .| JUPE_LOCAL ∈ [2; 3]) by (destruct (_ =? _); by_decide).
  assert (Hnil : forall n, Some ([Reply sptr n], l) = Some (es, l') ->
    jupes_ok l' /\ Forall stays_here es /\ forall k, global_jupe (live l') k = global_jupe (live l) k).
  { intros n [= <- <-]. split; [done|]. split; [by repeat constructor|done]. }
  destruct (negb FEAT_CONFIG_OPERCMDS); [apply Hnil|].
  destruct args as [|p2 [|reason [|reason' more]]]; [apply Hnil..| |].
  - destruct (expire_arg p2); cbn [mbind option_bind]; [|done]. by apply Hloc.
  - destruct (expire_arg reason); cbn [mbind option_bind]; [|done]. unfold target_jupe. rewrite Hpriv. cbn [negb].
    destruct (is_star p2); [apply Hnil|]. destruct (find_match_server p2) as [acptr|]; [|apply Hnil].
    destruct (negb (IsMe acptr)); [apply Hnil|]. destruct (negb (PRIV_LOCAL_JUPE sptr)); [apply Hnil|]. by apply Hloc.
Qed.

(** Two things a local jupe of an operator does although readme.jupe and the
    privileges say otherwise: without any privilege an operator can add an
    active jupe for this server, which throws out a server that is linked here;
    and once a local jupe is inactive the command that should activate it
    leaves it inactive. *)
Theorem mo_jupe_local_gaps cptr sptr prefix name p2 reason e l :
  FEAT_CONFIG_OPERCMDS = true -> PRIV_JUPE sptr = false -> PRIV_LOCAL_JUPE sptr = false ->
  cstring name -> jupes_ok l -> expire_arg p2 = Some e -> 0 < e <= JUPE_MAX_EXPIRE ->
  exists es l', mo_jupe cptr sptr [prefix; 43 :: name; p2; reason] l = Some (es, l') /\
    (live l !! lower name = None ->
       live l' !! lower name = Some (MkJupe name reason (e + CurrentTime) TStime (JUPE_ACTIVE .| JUPE_LOCAL)) /\
       forall v, FindServer name = Some v -> MyConnect v = true -> IsMe v = false ->
         es = [Exit cptr v (lit "Juped: " ++ reason)]) /\
    (forall j, live l !! lower name = Some j -> JupeIsLocal j = true -> JupeIsActive j = false ->
       exists j', live l' !! lower name = Some j' /\ JupeIsLocal j' = true /\ JupeIsActive j' = false).
Proof.
  intros Hfeat _ _ Hs Hl He Hr. unfold mo_jupe. cbn [hd0 Z.eqb Pos.eqb orb drop]. rewrite Hfeat, He.
  rewrite drop_0. cbn [negb mbind option_bind]. change (JUPE_ACTIVE .| JUPE_LOCAL) with 3.
  destruct (oper_refines cptr sptr name reason e 3 l Hs Hl ltac:(by_decide)) as [_ Hm _].
  destruct (oper_jupe cptr sptr name reason e 3 l) as [es l'] eqn:E. exists es, l'. split; [done|].
  cbn [snd] in Hm. rewrite Hm. unfold spec_oper. split.
  - intros Hn. rewrite Hn. unfold spec_add. rewrite bool_decide_true by done. rewrite lookup_insert_eq.
    split; [done|]. intros v Hv Hmy Hme. revert E. unfold oper_jupe.
    destruct (jupe_find_ok name l Hs Hl) as (o & l1 & -> & _ & _ & _ & Ho). destruct o as [[i j]|]; [destruct Ho as (_ & _ & Ho); by rewrite Hn in Ho|].
    unfold jupe_add. rewrite (proj2 (Z.leb_gt _ _)), (proj2 (Z.ltb_ge _ _)) by lia. cbn [orb].
    intros [= <- _]. unfold do_jupe. cbn [JupeIsActive make_jupe ju_flags ju_server ju_reason]. rewrite Hv, Hmy, Hme. done.
  - intros j Hj Hloc Hact. rewrite Hj, Hloc. cbn [negb andb has_bits].
    change (has_bits 3 JUPE_LOCAL) with true. cbn [negb andb]. unfold spec_activate.
    change (has_bits 3 JUPE_ACTIVE) with true. cbn [negb andb].
    destruct (live_wf l Hl) as [Hk Hfl]. rewrite (Hk _ _ Hj), lookup_insert_eq. eexists. split; [done|].
    specialize (Hfl _ _ Hj). apply elem_of_flags in Hfl. destruct j as [sv re ex lm fl].
    unfold JupeIsLocal, JupeIsActive in *. cbn in *. by repeat destruct Hfl as [<-|Hfl].
Qed.

(** A global message with a later timestamp than the one known wins. *)
Definition newer (o : option (Z * bool)) (lastmod : Z) (active : bool) : option (Z * bool) :=
  match o with
  | Some (t, a) => if t <? lastmod then Some (lastmod, active) else o
  | None => Some (lastmod, active)
  end.

Definition version (j : Jupe) : option (Z * bool) :=
  if JupeIsLocal j then None else Some (ju_lastmod j, JupeIsRemActive j).

Lemma spec_message_version server reason expire lastmod active m :
  (forall k j, m !! k = Some j -> key j = k) ->
  (forall k j, m !! k = Some j -> ju_flags j ∈ [0; 1; 2; 3; 4; 5]) ->
  0 < expire <= JUPE_MAX_EXPIRE ->
  let m' := spec_message server reason expire lastmod (if active : bool then 1 else 0) m in
  (exists j', m' !! lower server = Some j' /\ version j' = newer (m !! lower server ≫= version) lastmod active /\
     (ju_expire j' = expire + CurrentTime \/ exists j, m !! lower server = Some j /\ ju_expire j' = ju_expire j)) /\
  forall k, k <> lower server -> m' !! k = m !! k.
Proof.
  intros Hkey Hfl He m'.
  assert (Hadd : forall m : gmap (list Z) Jupe, let m' := spec_add server reason expire lastmod (if active then 1 else 0) m in
    (exists j', m' !! lower server = Some j' /\ version j' = Some (lastmod, active) /\ ju_expire j' = expire + CurrentTime) /\
    forall k, k <> lower server -> m' !! k = m !! k).
  { clear m m' Hkey Hfl. intros m m'. unfold m', spec_add. rewrite bool_decide_true by done. split.
    - rewrite lookup_insert_eq. eexists. split; [done|]. by destruct active.
    - intros k Hk. by rewrite lookup_insert_ne. }
  subst m'. unfold spec_message. destruct (m !! lower server) as [j|] eqn:Ej; cbn [mbind option_bind].
  2: { destruct (Hadd m) as [(j' & H1 & H2 & H3) H4]. split; [eauto 10|done]. }
  pose proof (Hkey _ _ Ej) as Hk. specialize (Hfl _ _ Ej). unfold version at 2.
  assert (Hnl : has_bits (if active then 1 else 0) JUPE_LOCAL = false) by by destruct active.
  rewrite Hnl. cbn [negb]. rewrite andb_true_r. destruct (JupeIsLocal j) eqn:El.
  { destruct (Hadd (delete (lower server) m)) as [(j' & H1 & H2 & H3) H4]. split; [eauto 10|].
    intros k Hne. rewrite H4 by done. by rewrite lookup_delete_ne. }
  cbn [newer]. destruct (Z.ltb_spec (ju_lastmod j) lastmod) as [Hlt|Hge].
  - unfold spec_activate. rewrite El, Hk. assert (Hb : (lastmod <=? ju_lastmod j) = false) by by apply Z.leb_gt.
    apply elem_of_flags in Hfl.
    destruct active; [change (has_bits 1 JUPE_ACTIVE) with true|change (has_bits 0 JUPE_ACTIVE) with false]; cbv iota;
      (split; [|intros k Hne; by rewrite lookup_insert_ne]); rewrite lookup_insert_eq; eexists; (split; [done|]); (split; [|right; eexists; split; done]);
      destruct j as [sv re ex lm fl]; unfold JupeIsLocal in El; cbn in Hfl, El, Hb |- *;
      unfold version, activated, deactivated, bump_lastmod, JupeIsLocal, JupeIsRemActive, set_lastmod; cbn; rewrite ?Hb;
      by repeat destruct Hfl as [<-|Hfl].
  - split; [|done]. exists j. rewrite Ej. unfold version. rewrite El. eauto 10.
Qed.

End jupe.

(** ** Agreement of servers *)

(** A global JUPE message as a server gets it, with the time on its clock and
    the link it comes from. *)
Record delivery {C : Type} := MkDelivery {
  d_time : Z; d_cptr : C; d_sptr : C; d_prefix : list Z; d_active : bool; d_server : list Z;
  d_expire : list Z; d_lastmod : list Z; d_reason : list Z }.
Arguments delivery : clear implicits.
Arguments MkDelivery {C}.

Definition d_parv {C} (d : delivery C) : list (list Z) :=
  [d_prefix d; [42]; (if d_active d then 43 else 45) :: d_server d; d_expire d; d_lastmod d; d_reason d].

Section agreement.
Context {C : Type}.
(** What one server knows of its links and of other servers. *)
Record site := MkSite {
  s_IsServer : C -> bool; s_MyConnect : C -> bool; s_IsMe : C -> bool; s_IsBurst : C -> bool;
  s_FindServer : list Z -> option C; s_FindNServer : list Z -> option C }.

Definition receive (s : site) (l : list Jupe) (d : delivery C) : list Jupe :=
  snd (ms_jupe (s_IsServer s) (s_MyConnect s) (s_IsMe s) (s_IsBurst s) (s_FindServer s) (s_FindNServer s)
         (d_time d) (d_cptr d) (d_sptr d) (d_parv d) l).

(** The version of the global jupe of a name that a server has. *)
Definition known (k : list Z) (l : list Jupe) : option (Z * bool) := jmap l !! k ≫= version.

(** The clock does not go back. *)
Fixpoint clock_ok (t : Z) (ds : list (delivery C)) : Prop :=
  match ds with [] => True | d :: ds => t <= d_time d /\ clock_ok (d_time d) ds end.

(** The message is well formed, arrives before the horizon and asks for a jupe
    that lasts until then. *)
Record delivery_ok (horizon : Z) (d : delivery C) : Prop := {
  dl_server : cstring (d_server d);
  dl_expire : 0 < atoi (d_expire d) <= JUPE_MAX_EXPIRE;
  dl_time : d_time d < horizon <= d_time d + atoi (d_expire d) }.

Definition stays (k : list Z) (horizon : Z) (l : list Jupe) : Prop :=
  forall j, j ∈ l -> key j = k -> horizon <= ju_expire j.

Lemma jupes_ok_mono t t' l : t <= t' -> jupes_ok t l -> jupes_ok t' l.
Proof.
  intros Ht [Hn Hj]. split; [done|]. eapply Forall_impl; [exact Hj|]. intros j []. split; [done..|lia].
Qed.

Lemma jmap_live t k horizon l : t < horizon -> NoDup (key <$> l) -> stays k horizon l -> jmap l !! k = live t l !! k.
Proof.
  intros Ht Hn Hst. apply option_eq. intros j. rewrite jmap_lookup, live_lookup by done.
  split; [|naive_solver]. intros (Hj & Hk). specialize (Hst j Hj Hk). split_and!; [done..|lia].
Qed.

Definition about (k : list Z) (d : delivery C) : bool := bool_decide (lower (d_server d) = k).

Lemma receive_ok s k horizon l d :
  delivery_ok horizon d -> jupes_ok (d_time d) l -> stays k horizon l ->
  jupes_ok (d_time d) (receive s l d) /\ stays k horizon (receive s l d) /\
  known k (receive s l d) =
    if about k d then newer (known k l) (atoi (d_lastmod d)) (d_active d) else known k l.
Proof.
  intros [Hs He Ht] Hl Hst.
  assert (Hsign : forall c, c = 43 \/ c = 45 -> cstring (c :: d_server d)).
  { intros c Hc. constructor; [unfold is_char; lia|done]. }
  set (sign := if d_active d then 43 else 45).
  assert (Hu : unsigned (sign :: d_server d) = d_server d /\ sign_flags (sign :: d_server d) = if d_active d then 1 else 0)
    by (unfold sign; by destruct (d_active d)).
  destruct Hu as [Hu Hf].
  pose proof (ms_jupe_correct (s_IsServer s) (s_MyConnect s) (s_IsMe s) (s_IsBurst s) (s_FindServer s) (s_FindNServer s)
    (d_time d) (d_cptr d) (d_sptr d) (d_prefix d) [42] (sign :: d_server d) (d_expire d) (d_lastmod d) (d_reason d) []
    l (Hsign sign ltac:(unfold sign; destruct (d_active d); auto)) Hl) as Hr.
  cbn zeta in Hr. change (is_star [42]) with true in Hr. cbv iota in Hr. rewrite Hu, Hf in Hr.
  change (0 .| (if d_active d then 1 else 0)) with (if d_active d then 1 else 0) in Hr.
  change (d_prefix d :: [42] :: (sign :: d_server d) :: d_expire d :: d_lastmod d :: d_reason d :: []) with (d_parv d) in Hr.
  destruct Hr as [Hok Hlive Hold]. fold (receive s l d) in Hok, Hlive, Hold.
  destruct (live_wf (d_time d) l Hl) as [Hkey Hfl].
  destruct (spec_message_version (d_time d) (d_server d) (d_reason d) (atoi (d_expire d)) (atoi (d_lastmod d)) (d_active d)
    (live (d_time d) l) Hkey Hfl He) as [(j' & Hj' & Hv & Hej) Hne].
  rewrite <- Hlive in Hj', Hne.
  assert (Hst' : stays k horizon (receive s l d)).
  { intros j Hj Hk. destruct (Z.le_gt_cases (ju_expire j) (d_time d)) as [Hx|Hx]; [by apply Hst; [apply Hold|]|].
    assert (Hjl : live (d_time d) (receive s l d) !! k = Some j) by (apply live_lookup; [apply Hok|done]).
    assert (Hin : forall x, live (d_time d) l !! k = Some x -> horizon <= ju_expire x).
    { intros x (? & ? & ?)%live_lookup; [by apply Hst|apply Hl]. }
    destruct (decide (k = lower (d_server d))) as [->|Hnk].
    - rewrite Hj' in Hjl. injection Hjl as <-. destruct Hej as [->|(x & Hx' & ->)]; [lia|by apply Hin].
    - rewrite Hne in Hjl by done. by apply Hin. }
  split_and!; [done..|]. unfold known, about.
  rewrite (jmap_live (d_time d) k horizon l), (jmap_live (d_time d) k horizon (receive s l d)) by (apply Hl || apply Hok || lia || done).
  destruct (bool_decide_reflect (lower (d_server d) = k)) as [<-|Hnk]; [by rewrite Hj'|by rewrite Hne].
Qed.

(** The version after messages: the newest of them. *)
Definition newest (k : list Z) (o : option (Z * bool)) (ds : list (delivery C)) : option (Z * bool) :=
  foldl (fun o d => if about k d then newer o (atoi (d_lastmod d)) (d_active d) else o) o ds.

Lemma receive_newest s k horizon t l ds :
  clock_ok t ds -> Forall (delivery_ok horizon) ds -> jupes_ok t l -> stays k horizon l ->
  known k (foldl (receive s) l ds) = newest k (known k l) ds.
Proof.
  intros Hc Hd. revert t l Hc. induction Hd as [|d ds Hd _ IH]; intros t l Hc Hl Hst; [done|].
  destruct Hc as [Ht Hc]. destruct (receive_ok s k horizon l d Hd (jupes_ok_mono _ _ _ Ht Hl) Hst) as (Hok & Hst' & Hk).
  cbn [foldl]. rewrite (IH (d_time d)) by done. unfold newest. cbn [foldl]. by rewrite Hk.
Qed.

(** The versions the messages about a name carry. *)
Definition versions (k : list Z) (ds : list (delivery C)) : list (Z * bool) :=
  map (fun d => (atoi (d_lastmod d), d_active d)) (filter (fun d => about k d = true) ds).

Lemma newest_best k o ds r :
  newest k o ds = r ->
  match r with
  | Some v => (o = Some v \/ v ∈ versions k ds) /\ (forall w, o = Some w \/ w ∈ versions k ds -> w.1 <= v.1)
  | None => o = None /\ versions k ds = []
  end.
Proof.
  intros <-. revert o. induction ds as [|d ds IH]; intros o.
  { cbn. destruct o as [v|]; [|done]. split; [by left|]. intros w [[= ->]|[]%elem_of_nil]. done. }
  unfold newest, versions in *. cbn [foldl]. specialize (IH (if about k d then newer o (atoi (d_lastmod d)) (d_active d) else o)).
  rewrite filter_cons. destruct (about k d); [rewrite decide_True by done|by rewrite decide_False].
  cbn [map]. set (r := foldl _ _ ds) in *. set (vs := map _ (filter _ ds)) in *.
  unfold newer in IH. destruct r as [v|].
  - destruct IH as [Hv Hmax].
    assert (Hbase : forall x, newer o (atoi (d_lastmod d)) (d_active d) = Some x -> x.1 <= v.1)
      by (intros x Hx; apply Hmax; by left).
    assert (Htail : forall w, w ∈ vs -> w.1 <= v.1) by (intros w Hw; apply Hmax; by right).
    unfold newer in Hbase. destruct o as [[t a]|]; [destruct (Z.ltb_spec t (atoi (d_lastmod d)))|];
      specialize (Hbase _ eq_refl); cbn in Hbase;
      (split; [destruct Hv as [[= <-]|Hv]; rewrite ?elem_of_cons; auto|]);
      intros w [[= <-]|[->|Hw]%elem_of_cons]; cbn; auto; lia.
  - destruct IH as [Ho _]. destruct o as [[t a]|]; [by destruct (_ <? _)|done].
Qed.

(** C14: two servers that got the same global JUPE messages about a server, in any
    order, any number of times, at any times before the jupe ends and mixed with
    others, agree on its jupe: both have the version with the latest timestamp,
    provided that messages with equal timestamps agree on the sign.  The servers
    may start with any lists on which they agree about the name. *)
Theorem jupe_servers_agree s1 s2 k horizon t l1 l2 ds1 ds2 :
  clock_ok t ds1 -> clock_ok t ds2 -> Forall (delivery_ok horizon) ds1 -> Forall (delivery_ok horizon) ds2 ->
  jupes_ok t l1 -> jupes_ok t l2 -> stays k horizon l1 -> stays k horizon l2 ->
  known k l1 = known k l2 ->
  (forall v, v ∈ versions k ds1 <-> v ∈ versions k ds2) ->
  (forall v w, known k l1 = Some v \/ v ∈ versions k ds1 -> known k l1 = Some w \/ w ∈ versions k ds1 -> v.1 = w.1 -> v = w) ->
  known k (foldl (receive s1) l1 ds1) = known k (foldl (receive s2) l2 ds2) /\
  forall v, v ∈ versions k ds1 -> exists w, known k (foldl (receive s1) l1 ds1) = Some w /\
    (known k l1 = Some w \/ w ∈ versions k ds1) /\ v.1 <= w.1.
Proof.
  intros Hc1 Hc2 Hd1 Hd2 Hl1 Hl2 Hs1 Hs2 Hk Hv Hagree.
  rewrite (receive_newest s1 k horizon t l1 ds1), (receive_newest s2 k horizon t l2 ds2) by done. rewrite <- Hk.
  pose proof (newest_best k (known k l1) ds1 _ eq_refl) as H1. pose proof (newest_best k (known k l1) ds2 _ eq_refl) as H2.
  destruct (newest k (known k l1) ds1) as [v1|], (newest k (known k l1) ds2) as [v2|].
  - destruct H1 as [Hin1 Hmax1], H2 as [Hin2 Hmax2]. rewrite <- Hv in Hin2.
    assert (Hmax2' : forall w, known k l1 = Some w \/ w ∈ versions k ds1 -> w.1 <= v2.1)
      by (intros w Hw; apply Hmax2; by rewrite <- Hv).
    split; [f_equal; apply Hagree; try done; apply Z.le_antisymm; auto|]. intros v Hvi. exists v1. auto.
  - destruct H1 as [Hin1 _], H2 as [E2 E2']. rewrite E2 in Hin1. destruct Hin1 as [?|Hin1]; [done|].
    rewrite Hv, E2' in Hin1. by apply elem_of_nil in Hin1.
  - destruct H2 as [Hin2 _], H1 as [E1 E1']. rewrite E1 in Hin2. destruct Hin2 as [?|Hin2]; [done|].
    rewrite <- Hv, E1' in Hin2. by apply elem_of_nil in Hin2.
  - destruct H1 as [_ E]. split; [done|]. rewrite E. by intros v ?%elem_of_nil.
Qed.

End agreement.

(** ** Examples *)
Definition sample_list : list Jupe := [MkJupe (lit "Hub.example") (lit "old") 5000 900 3].

Lemma sample_list_ok t : 0 <= t -> jupes_ok t sample_list.
Proof.
  intros Ht. split; [by_decide|]. constructor; [|constructor].
  split; [by_decide|by_decide|]. cbn. unfold JUPE_MAX_EXPIRE. lia.
Qed.

Lemma ms_jupe_correct_witness :
  refines 1000 sample_list
    (ms_jupe (fun _ => true) (fun _ => true) (fun _ => false) (fun _ => false) (fun _ => None) (fun _ => None) 1000 1%N 2%N
       [lit "A"; lit "*"; lit "+hub.EXAMPLE"; lit "3600"; lit "950"; lit "new"] sample_list)
    {[lit "hub.example" := MkJupe (lit "hub.EXAMPLE") (lit "new") 4600 950 1]}.
Proof.
  pose proof (ms_jupe_correct (fun _ : N => true) (fun _ => true) (fun _ => false) (fun _ => false) (fun _ => None) (fun _ => None)
    1000 1%N 2%N (lit "A") (lit "*") (lit "+hub.EXAMPLE") (lit "3600") (lit "950") (lit "new") [] sample_list
    ltac:(by_decide) (sample_list_ok 1000 ltac:(lia))) as H.
  cbn zeta in H. destruct H as [H1 H2 H3]. split; [exact H1| |exact H3].
  rewrite H2. vm_compute. reflexivity.
Defined.

Lemma mo_jupe_authorised_witness :
  exists es l', mo_jupe (fun _ => false) (fun _ => true) (fun _ => false) (fun _ => false) (fun _ => true)
      (fun _ => None) (fun _ => None) (fun _ : N => []) true 1000 0 1%N 1%N
      [lit "oper"; lit "-hub.example"; lit "1h"; lit "gone"] sample_list = Some (es, l') /\ l' = [] /\
    forall k, global_jupe (live 1000 l') k = global_jupe (live 1000 sample_list) k.
Proof.
  eexists _, _. split; [vm_compute; reflexivity|]. split; [reflexivity|].
  eapply (mo_jupe_authorised (fun _ => false) (fun _ => true) (fun _ => false) (fun _ => false) (fun _ => true)
      (fun _ => None) (fun _ => None) (fun _ : N => []) true 1000 0 1%N 1%N
      [lit "oper"; lit "-hub.example"; lit "1h"; lit "gone"] sample_list);
    [by_decide|apply sample_list_ok; lia|reflexivity|vm_compute; reflexivity].
Defined.

Lemma mo_jupe_local_gaps_witness :
  exists es l', mo_jupe (fun _ => false) (fun _ => true) (fun _ => false) (fun _ => false) (fun _ => false)
      (fun _ => Some 7%N) (fun _ => None) (fun _ : N => []) true 1000 0 1%N 1%N
      [lit "oper"; lit "+leaf.example"; lit "1h"; lit "why"] sample_list = Some (es, l') /\
    es = [Exit 1%N 7%N (lit "Juped: why")].
Proof.
  destruct (mo_jupe_local_gaps (fun _ => false) (fun _ => true) (fun _ => false) (fun _ => false) (fun _ => false)
      (fun _ => Some 7%N) (fun _ => None) (fun _ : N => []) true 1000 0 1%N 1%N (lit "oper") (lit "leaf.example") (lit "1h") (lit "why")
      3600 sample_list eq_refl eq_refl eq_refl ltac:(by_decide) (sample_list_ok 1000 ltac:(lia)) ltac:(vm_compute; reflexivity)
      ltac:(unfold JUPE_MAX_EXPIRE; lia)) as (es & l' & H1 & H2 & _).
  exists es, l'. split; [exact H1|]. apply (proj2 (H2 ltac:(vm_compute; reflexivity))); reflexivity.
Defined.

Definition sample_site : site (C := N) :=
  MkSite (fun _ => true) (fun _ => true) (fun _ => false) (fun _ => false) (fun _ => None) (fun _ => None).
Definition sample_on (t : Z) : delivery N :=
  MkDelivery t 1%N 2%N (lit "A") true (lit "Leaf") (lit "3600") (lit "950") (lit "x").
Definition sample_off (t : Z) : delivery N :=
  MkDelivery t 3%N 4%N (lit "B") false (lit "LEAF") (lit "3000") (lit "960") (lit "y").

Lemma jupe_servers_agree_witness :
  known (lit "leaf") (foldl (receive sample_site) [] [sample_on 1000; sample_off 1005]) =
  known (lit "leaf") (foldl (receive sample_site) sample_list [sample_off 1001; sample_on 1002; sample_off 1003]).
Proof.
  apply (jupe_servers_agree sample_site sample_site (lit "leaf") 4000 1000).
  - cbn. lia.
  - cbn. lia.
  - repeat (constructor; [split; [by_decide|vm_compute; done|vm_compute; done]|]). constructor.
  - repeat (constructor; [split; [by_decide|vm_compute; done|vm_compute; done]|]). constructor.
  - repeat constructor.
  - apply sample_list_ok. lia.
  - intros j Hj. by apply elem_of_nil in Hj.
  - intros j Hj. apply list_elem_of_singleton in Hj as ->. vm_compute. done.
  - vm_compute. reflexivity.
  - intros v. change (versions (lit "leaf") [sample_on 1000; sample_off 1005]) with [(950, true); (960, false)].
    change (versions (lit "leaf") [sample_off 1001; sample_on 1002; sample_off 1003]) with [(960, false); (950, true); (960, false)].
    rewrite !elem_of_cons. tauto.
  - intros v w. change (versions (lit "leaf") [sample_on 1000; sample_off 1005]) with [(950, true); (960, false)].
    change (known (lit "leaf") []) with (@None (Z * bool)). rewrite !elem_of_cons, !elem_of_nil.
    intros [?|[->|[->|[]]]] [?|[->|[->|[]]]]; try done; cbn; lia.
Defined.
