(* ===== verification/Bans.v ===== *)
(** * ircd/channel.c: bans and exceptions

    Who a ban or an exception of a channel applies to, and how the lists are
    kept.  A client is what the code reads of it; addresses are numbers in host
    byte order, on which masks act as on network byte order.  inet_addr() is a
    parameter.  The result of a check is [None] when the code would read outside
    a string. *)
From S2P Require Import Prelude Chattr NumText Match MaskOrder IrcdString NameTable Hash Channel.
Open Scope ircd_scope.

(** ** Masks of users *)
Definition NUH_BUFSIZE : nat := NICKLEN + USERLEN + HOSTLEN + 3.
Definition NUI_BUFSIZE : nat := NICKLEN + USERLEN + 16 + 3.

Definition make_nick_user_host (nick name host : list Z) : list Z :=
  snprintf NUH_BUFSIZE (nick ++ 33 :: name ++ 64 :: host).

Definition make_nick_user_ip (nick name : list Z) (ip : Z * Z * Z * Z) : list Z :=
  let '(a, b, c, d) := ip in snprintf NUI_BUFSIZE (nick ++ 33 :: name ++ 64 :: ircd_ntoa_r a b c d).

(** What the checks read of a client, its flags and memberships. *)
Record client := MkClient {
  is_user : bool;
  cli_name : list Z;
  realusername : list Z;
  realhost : list Z;
  host : list Z;
  fakehost : list Z;
  virthost : list Z;
  account : list Z;
  cli_info : list Z;
  cli_ip : Z * Z * Z * Z;
  HasSetHost : bool;
  HasFakeHost : bool;
  IsAccount : bool;
  IsHiddenHost : bool;
  cli_sdnsbls : option (list (list Z));     (* when IsDNSBLMarked() *)
  cli_killmark : list Z;
  cli_channels : list (list Z * Z)          (* the name of a channel and the status *)
}.

Definition HasHiddenHost (u : client) : bool := IsHiddenHost u && (IsAccount u || HasFakeHost u).

(** mmatch() and match() as conditions. *)
Definition decided (r : option (option Z)) : option bool :=
  match r with Some (Some r) => Some (r =? 0) | _ => None end.
Definition matches (mask name : list Z) : option bool := decided (ircd_match mask name).
Definition mmatches (old_mask new_mask : list Z) : option bool := decided (mmatch old_mask new_mask).

(** NETMASK(bits), in host byte order. *)
Definition NETMASK (bits : Z) : Z := if bits =? 0 then 0 else u32 (- (1 << (32 - bits))).

(** decodespace(): an underscore is a space, two are one. *)
Fixpoint decode (room : nat) (s : list Z) : list Z :=
  match room, s with
  | S room, c :: r =>
      if c =? 95 then
        match r with
        | d :: r' => if d =? 95 then 95 :: decode room r' else 32 :: decode room r
        | [] => [32]
        end
      else c :: decode room r
  | _, _ => []
  end.
Definition decodespace (s : list Z) : list Z := decode 510 s.

Definition CHFL_BAN : Z := 0x20.
Definition CHFL_BAN_IPMASK : Z := 0x40.
Definition CHFL_BANVALID : Z := 0x800.
Definition CHFL_BANNED : Z := 0x1000.
Definition CHFL_EXCEPT : Z := 0x10000.
Definition CHFL_EXCEPT_IPMASK : Z := 0x20000.
Definition CHFL_EXCEPTVALID : Z := 0x200000.

Definition EXTBAN_CHAN : Z := 0x002.
Definition EXTBAN_REAL : Z := 0x004.
Definition EXTBAN_REVERSE : Z := 0x010.
Definition EXTBAN_SHARE : Z := 0x020.
Definition EXTBAN_ACCOUNT : Z := 0x040.
Definition EXTEXCEPT_CHAN : Z := 0x002.
Definition EXTEXCEPT_REAL : Z := 0x004.
Definition EXTEXCEPT_SHARE : Z := 0x020.
Definition EXTEXCEPT_ACCOUNT : Z := 0x040.

(** ** pretty_mask()

    The buffer is cut up in place; its parts are texts here. *)

(** The text before the first ! or @, that character and the text after it. *)
Fixpoint first_special (s : list Z) : option (list Z * Z * list Z) :=
  match s with
  | [] => None
  | c :: r =>
      if (c =? 33) || (c =? 64) then Some ([], c, r)
      else '(a, x, b) ← first_special r; Some (c :: a, x, b)
  end.

(** A text that is too long keeps its end, behind a star. *)
Definition keep_end (n : nat) (s : list Z) : list Z :=
  if (n <? length s)%nat then 42 :: drop (S (length s - n)) s else s.

Definition star : list Z := [42].

Definition pretty_mask (mask : list Z) : list Z :=
  let '(nick, user, host) :=
    match first_special mask with
    | Some (a, c, rest) =>
        if c =? 33 then
          match last_split 64 rest with
          | Some (user, host) => (take NICKLEN a, keep_end USERLEN user, keep_end HOSTLEN host)
          | None => (take NICKLEN a, keep_end USERLEN rest, star)
          end
        else
          match last_split 64 rest with
          | Some (more, host) => (star, keep_end USERLEN (a ++ 64 :: more), keep_end HOSTLEN host)
          | None => (star, keep_end USERLEN a, keep_end HOSTLEN rest)
          end
    | None =>
        if existsb (Z.eqb 46) mask then (star, star, keep_end HOSTLEN mask)
        else (take NICKLEN mask, star, star)
    end in
  make_nick_user_host nick user host.

Section checks.
Variable inet_addr : list Z -> Z.
Variable FEAT_HOST_HIDING_STYLE : Z.
(** FEAT_HIDDEN_HOST or FEAT_HIDDEN_OPERHOST, by the client. *)
Variable hidden_domain : client -> list Z.
(** The ban list and the exception list of a channel that exists. *)
Variable FindChannel : list Z -> option (list Ban * list Ban).

Definition make_hidden_hostmask (u : client) : list Z :=
  if HasFakeHost u then cstr (strncpy_bytes (fakehost u) HOSTLEN)
  else snprintf HOSTLEN (account u ++ 46 :: hidden_domain u).

Definition user_mask (u : client) (h : list Z) : list Z := make_nick_user_host (cli_name u) (realusername u) h.

(** The masks of a client: [s] and [sb] are written to the same buffer, one
    after the other. *)
Definition user_masks (u : client) : list (list Z) :=
  let nu_host := user_mask u (realhost u) in
  let nu_host := user_mask u (host u) in
  let s := nu_host in
  let sb := nu_host in
  let sh := if HasSetHost u then [user_mask u (realhost u)] else [] in
  let sf := if HasFakeHost u then [user_mask u (fakehost u)] else [] in
  let sa :=
    if FEAT_HOST_HIDING_STYLE =? 1 then
      if IsAccount u then
        if HasHiddenHost u && negb (HasSetHost u) then [user_mask u (realhost u)]
        else [user_mask u (make_hidden_hostmask u)]
      else []
    else if IsHiddenHost u && negb (HasSetHost u) then [user_mask u (realhost u)]
    else [user_mask u (snprintf HOSTLEN (virthost u))] in
  [s; sb] ++ sh ++ sf ++ sa.

(** The tests on the address of the client. *)
Definition ip_mask (u : client) : list Z := make_nick_user_ip (cli_name u) (realusername u) (cli_ip u).

Definition cidr_test (u : client) (mask : list Z) : option bool :=
  let ip_s := ip_mask u in
  let cli_addr := match last_split 64 ip_s with Some (_, t) => inet_addr t | None => 0 end in
  match last_split 64 mask with
  | None => Some false
  | Some (before, after) =>
      match split_at 47 after, split_at 64 ip_s with
      | Some (quad, rest), Some (p, _) =>
          let bits := atoi rest in
          b ← matches before p;
          Some (b && ((0 <? bits) && (bits <? 33)) && (NETMASK bits .& cli_addr =? inet_addr quad))
      | _, _ => Some false
      end
  end.

Definition ip_test (u : client) (mask : list Z) : option bool := orM (matches mask (ip_mask u)) (cidr_test u mask).

(** The names a blacklist or a kill mark gives the client. *)
Definition marked_mask (u : client) (mark : list Z) : list Z :=
  user_mask u (snprintf BUFSIZE (mark ++ 46 :: realhost u)).

Definition dnsbl_test (u : client) (mask : list Z) : option bool :=
  match cli_sdnsbls u with
  | Some marks => anyM (fun mark => matches mask (marked_mask u mark)) marks
  | None => Some false
  end.

Definition kill_test (u : client) (mask : list Z) : option bool :=
  match cli_killmark u with [] => Some false | mark => matches mask (marked_mask u mark) end.

Definition host_test (u : client) (mask : list Z) : option bool := anyM (matches mask) (user_masks u).

(** The tests on the channels, the name and the account of the client. *)
Definition chan_test (u : client) (ext : list Z) : option bool :=
  anyM (fun '(name, status) =>
    if hd0 ext =? 35 then mmatches ext name
    else b ← mmatches (drop 1 ext) name;
         Some (b && (((hd0 ext =? 64) && has_bits status CHFL_CHANOP) ||
                     ((hd0 ext =? 37) && has_bits status CHFL_HALFOP) ||
                     ((hd0 ext =? 43) && has_bits status CHFL_VOICE)))) (cli_channels u).

Definition real_test (u : client) (ext : list Z) : option bool := mmatches (decodespace ext) (cli_info u).
Definition account_test (u : client) (ext : list Z) : option bool := matches ext (account u).

(** A test of an extended ban, or its opposite. *)
Definition reversed (ban : Ban) (b : option bool) : option bool := xorb (has_bits (extflag ban) EXTBAN_REVERSE) <$> b.

(** ** is_banned()

    One ban; [shared] is the check of the ban list of another channel. *)
Definition ban_applies (shared : list Z -> option bool) (u : client) (ban : Ban) : option bool :=
  orM (whenM (has_bits (ban_flags ban) CHFL_BAN_IPMASK) (ip_test u (banstr ban)))
  (orM (dnsbl_test u (banstr ban))
  (orM (kill_test u (banstr ban))
  (orM (whenM (has_bits (extflag ban) EXTBAN_CHAN) (reversed ban (chan_test u (extstr ban))))
  (orM (whenM (has_bits (extflag ban) EXTBAN_REAL) (reversed ban (real_test u (extstr ban))))
  (orM (whenM (has_bits (extflag ban) EXTBAN_ACCOUNT) (reversed ban (account_test u (extstr ban))))
  (orM (whenM (has_bits (extflag ban) EXTBAN_SHARE) (shared (extstr ban)))
       (host_test u (banstr ban)))))))).

Definition shared_bans (u : client) (ext : list Z) : option bool :=
  match FindChannel ext with
  | Some (bans, _) => if is_user u then anyM (ban_applies (fun _ => Some false) u) bans else Some false
  | None => Some false
  end.

(** The result and the new status of the membership, if there is one. *)
Definition is_banned (u : client) (banlist : list Ban) (member : option Z) : option (bool * option Z) :=
  if negb (is_user u) then Some (false, member)
  else match member with
       | Some status =>
           if has_bits status CHFL_BANVALID then Some (has_bits status CHFL_BANNED, member)
           else
             banned ← anyM (ban_applies (shared_bans u) u) banlist;
             let status := status .| CHFL_BANVALID in
             Some (banned, Some (if (banned : bool) then status .| CHFL_BANNED else Z.ldiff status CHFL_BANNED))
       | None => banned ← anyM (ban_applies (shared_bans u) u) banlist; Some (banned, None)
       end.

(** ** is_excepted() *)
Definition except_applies (shared : list Z -> option bool) (u : client) (e : Ban) : option bool :=
  orM (whenM (has_bits (ban_flags e) CHFL_EXCEPT_IPMASK) (ip_test u (banstr e)))
  (orM (dnsbl_test u (banstr e))
  (orM (kill_test u (banstr e))
  (orM (whenM (has_bits (extflag e) EXTEXCEPT_CHAN) (chan_test u (extstr e)))
  (orM (whenM (has_bits (extflag e) EXTEXCEPT_ACCOUNT) (account_test u (extstr e)))
  (orM (whenM (has_bits (extflag e) EXTEXCEPT_REAL) (real_test u (extstr e)))
  (orM (whenM (has_bits (extflag e) EXTEXCEPT_SHARE) (shared (extstr e)))
       (host_test u (banstr e)))))))).

Definition shared_excepts (u : client) (ext : list Z) : option bool :=
  match FindChannel ext with
  | Some (_, excepts) => if is_user u then anyM (except_applies (fun _ => Some false) u) excepts else Some false
  | None => Some false
  end.

Definition is_excepted (u : client) (exceptlist : list Ban) (member : option Z) : option (bool * option Z) :=
  if negb (is_user u) then Some (false, member)
  else match member with
       | Some status =>
           if has_bits status CHFL_EXCEPTVALID then Some (has_bits status CHFL_EXCEPT, member)
           else
             excepted ← anyM (except_applies (shared_excepts u) u) exceptlist;
             let status := status .| CHFL_EXCEPTVALID in
             Some (excepted, Some (if (excepted : bool) then status .| CHFL_EXCEPT else Z.ldiff status CHFL_EXCEPT))
       | None => excepted ← anyM (except_applies (shared_excepts u) u) exceptlist; Some (excepted, None)
       end.

(** ** Extended bans and exceptions of a kind *)
Definition ext_applies (ipmask flags : Z) (u : client) (ban : Ban) : option bool :=
  whenM (has_bits (extflag ban) flags)
    (orM (whenM (has_bits (ban_flags ban) ipmask) (ip_test u (extstr ban)))
    (orM (dnsbl_test u (extstr ban))
    (orM (kill_test u (extstr ban))
         (host_test u (extstr ban))))).

Definition is_ext_banned (u : client) (banlist : list Ban) (flags : Z) : option bool :=
  if negb (is_user u) then Some false else anyM (ext_applies CHFL_BAN_IPMASK flags u) banlist.

Definition is_ext_excepted (u : client) (exceptlist : list Ban) (flags : Z) : option bool :=
  if negb (is_user u) then Some false else anyM (ext_applies CHFL_EXCEPT_IPMASK flags u) exceptlist.
End checks.

(** ** The parts of masks *)
Lemma first_special_app a c r : 33 ∉ a -> 64 ∉ a -> c = 33 \/ c = 64 -> first_special (a ++ c :: r) = Some (a, c, r).
Proof.
  intros H1 H2 Hc. induction a as [|x a IH]; cbn [app first_special].
  - by destruct Hc as [->| ->].
  - rewrite not_elem_of_cons in H1, H2. rewrite (proj2 (Z.eqb_neq x 33)), (proj2 (Z.eqb_neq x 64)) by (intros ->; naive_solver).
    cbn [orb]. by rewrite IH by naive_solver.
Qed.

Lemma first_special_Some s a c r :
  first_special s = Some (a, c, r) -> s = a ++ c :: r /\ 33 ∉ a /\ 64 ∉ a /\ (c = 33 \/ c = 64).
Proof.
  revert a. induction s as [|x s IH]; intros a; cbn [first_special]; [done|].
  destruct (Z.eqb_spec x 33) as [->|H33]; [intros [= <- <- <-]; set_solver|].
  destruct (Z.eqb_spec x 64) as [->|H64]; [intros [= <- <- <-]; set_solver|]. cbn [orb].
  destruct (first_special s) as [[[a' c'] r']|]; [|done]. intros [= <- <- <-].
  destruct (IH a' eq_refl) as (-> & ? & ? & ?). rewrite !not_elem_of_cons. split_and!; auto.
Qed.

Lemma first_special_None s : first_special s = None <-> 33 ∉ s /\ 64 ∉ s.
Proof.
  induction s as [|x s IH]; cbn [first_special]; [set_solver|]. rewrite !not_elem_of_cons.
  destruct (Z.eqb_spec x 33) as [->|]; [naive_solver|]. destruct (Z.eqb_spec x 64) as [->|]; [naive_solver|]. cbn [orb].
  destruct (first_special s) as [[[a c] r]|]; cbn; [|naive_solver].
  split; [done|]. intros [[_ ?] [_ ?]]. by assert (Some (a, c, r) = None) as [=] by (apply IH; done).
Qed.

(** A mask of three parts, none of them too long. *)
Definition full (nick user host : list Z) : list Z := nick ++ 33 :: user ++ 64 :: host.

Record parts_ok (nick user host : list Z) : Prop := {
  po_nick : 33 ∉ nick /\ 64 ∉ nick /\ (length nick <= NICKLEN)%nat;
  po_user : (length user <= USERLEN)%nat;
  po_host : 64 ∉ host /\ (length host <= HOSTLEN)%nat }.

Lemma full_fits nick user host : parts_ok nick user host -> make_nick_user_host nick user host = full nick user host.
Proof.
  intros [(_ & _ & Hn) Hu [_ Hh]]. unfold make_nick_user_host, full. apply snprintf_fits.
  unfold NICKLEN, USERLEN, HOSTLEN, NUH_BUFSIZE in *. rewrite length_app. cbn. rewrite length_app. cbn. lia.
Qed.

Lemma keep_end_fits n s : (length s <= n)%nat -> keep_end n s = s.
Proof. intros Hs. unfold keep_end. by rewrite (proj2 (Nat.ltb_ge _ _)). Qed.

Lemma keep_end_ok n s x : (0 < n)%nat -> (length (keep_end n s) <= n)%nat /\ (x <> 42 -> x ∉ s -> x ∉ keep_end n s).
Proof.
  intros Hn. unfold keep_end. destruct (Nat.ltb_spec n (length s)) as [Hl|Hl]; [|done]. split.
  - cbn. rewrite length_drop. lia.
  - intros Hx Hs. apply not_elem_of_cons. split; [done|]. intros Hd. apply Hs.
    rewrite <- (take_drop (S (length s - n)) s), elem_of_app. by right.
Qed.

Lemma take_ok n (s : list Z) x : (length (take n s) <= n)%nat /\ (x ∉ s -> x ∉ take n s).
Proof. split; [rewrite length_take; lia|]. intros Hs Ht. apply Hs. rewrite <- (take_drop n s), elem_of_app. by left. Qed.

Lemma cut_parts_ok nick user host :
  33 ∉ nick -> 64 ∉ nick -> 64 ∉ host -> parts_ok (take NICKLEN nick) (keep_end USERLEN user) (keep_end HOSTLEN host).
Proof.
  intros H1 H2 H3.
  destruct (take_ok NICKLEN nick 33), (take_ok NICKLEN nick 64), (keep_end_ok USERLEN user 64 ltac:(by vm_compute; lia)),
    (keep_end_ok HOSTLEN host 64 ltac:(by vm_compute; lia)).
  split; auto.
Qed.

Lemma star_parts : 33 ∉ star /\ 64 ∉ star /\ take NICKLEN star = star /\ keep_end USERLEN star = star /\ keep_end HOSTLEN star = star.
Proof. by_decide. Qed.

(** What pretty_mask() makes of the documented forms, and of any mask. *)
Lemma pretty_mask_parts mask :
  exists nick user host, 33 ∉ nick /\ 64 ∉ nick /\ 64 ∉ host /\
    pretty_mask mask = full (take NICKLEN nick) (keep_end USERLEN user) (keep_end HOSTLEN host) /\
    match first_special mask with
    | Some (a, c, rest) =>
        if c =? 33 then nick = a /\ match last_split 64 rest with Some (u, h) => user = u /\ host = h | None => user = rest /\ host = star end
        else nick = star /\ match last_split 64 rest with
                           | Some (u, h) => user = a ++ 64 :: u /\ host = h
                           | None => user = a /\ host = rest
                           end
    | None => if existsb (Z.eqb 46) mask then nick = star /\ user = star /\ host = mask
              else nick = mask /\ user = star /\ host = star
    end.
Proof.
  destruct star_parts as (S1 & S2 & S3 & S4 & S5).
  assert (Hgo : forall nick user host (P : Prop), 33 ∉ nick -> 64 ∉ nick -> 64 ∉ host -> P ->
    exists n u h, 33 ∉ n /\ 64 ∉ n /\ 64 ∉ h /\
      make_nick_user_host (take NICKLEN nick) (keep_end USERLEN user) (keep_end HOSTLEN host) =
      full (take NICKLEN n) (keep_end USERLEN u) (keep_end HOSTLEN h) /\ (n = nick /\ u = user /\ h = host)).
  { intros nick user host _ H1 H2 H3 _. exists nick, user, host. split_and!; try done. by apply full_fits, cut_parts_ok. }
  unfold pretty_mask. destruct (first_special mask) as [[[a c] rest]|] eqn:E.
  - apply first_special_Some in E as (-> & Ha1 & Ha2 & Hc). destruct (Z.eqb_spec c 33) as [->|Hc33].
    + destruct (last_split 64 rest) as [[u h]|] eqn:El.
      * apply last_split_Some in El as [-> Hh]. destruct (Hgo a u h True Ha1 Ha2 Hh I) as (n & u' & h' & H1 & H2 & H3 & H4 & -> & -> & ->).
        eauto 10.
      * destruct (Hgo a rest star True Ha1 Ha2 S2 I) as (n & u' & h' & H1 & H2 & H3 & H4 & -> & -> & ->).
        rewrite S5 in H4. rewrite H4. exists a, rest, star. rewrite S5. auto 10.
    + destruct (last_split 64 rest) as [[u h]|] eqn:El.
      * apply last_split_Some in El as [-> Hh].
        destruct (Hgo star (a ++ 64 :: u) h True S1 S2 Hh I) as (n & u' & h' & H1 & H2 & H3 & H4 & -> & -> & ->).
        rewrite S3 in H4. rewrite H4. exists star, (a ++ 64 :: u), h. rewrite S3. auto 10.
      * assert (Hr : 64 ∉ rest). { intros (l1 & l2 & -> & Hl2)%list_elem_of_split_r. pose proof (proj2 (last_split_Some 64 _ l1 l2) (conj eq_refl Hl2)). congruence. }
        destruct (Hgo star a rest True S1 S2 Hr I) as (n & u' & h' & H1 & H2 & H3 & H4 & -> & -> & ->).
        rewrite S3 in H4. rewrite H4. exists star, a, rest. rewrite S3. auto 10.
  - apply first_special_None in E as [E1 E2]. destruct (existsb (Z.eqb 46) mask).
    + destruct (Hgo star star mask True S1 S2 E2 I) as (n & u' & h' & H1 & H2 & H3 & H4 & -> & -> & ->).
      rewrite S3, S4 in H4. rewrite H4. exists star, star, mask. rewrite S3, S4. auto 10.
    + destruct (Hgo mask star star True E1 E2 S2 I) as (n & u' & h' & H1 & H2 & H3 & H4 & -> & -> & ->).
      rewrite S4, S5 in H4. rewrite H4. exists mask, star, star. rewrite S4, S5. auto 10.
Qed.

Lemma pretty_full nick user host : parts_ok nick user host -> pretty_mask (full nick user host) = full nick user host.
Proof.
  intros Hp. pose proof Hp as [(H1 & H2 & Hn) Hu [H3 Hh]]. unfold pretty_mask, full at 1.
  rewrite first_special_app by auto. cbn [Z.eqb Pos.eqb].
  rewrite (proj2 (last_split_Some 64 (user ++ 64 :: host) user host)) by done.
  rewrite take_ge, !keep_end_fits by done. by apply full_fits.
Qed.

(** A mask without separators or dots is a nick. *)
Lemma pretty_mask_nick m : 33 ∉ m -> 64 ∉ m -> 46 ∉ m -> pretty_mask m = full (take NICKLEN m) star star.
Proof.
  intros H1 H2 H3. destruct star_parts as (S1 & S2 & S3 & S4 & S5).
  destruct (pretty_mask_parts m) as (n & u & h & _ & _ & _ & -> & H).
  rewrite (proj2 (first_special_None m)) in H by done.
  assert (E : existsb (Z.eqb 46) m = false).
  { apply not_true_is_false. intros (x & Hx & E)%existsb_exists. apply H3. apply Z.eqb_eq in E as ->. by apply list_elem_of_In. }
  rewrite E in H. destruct H as (-> & -> & ->). by rewrite S4, S5.
Qed.

(** Pretty_mask() gives every mask the form nick!user@host: the parts are those
    of the mask in its five documented forms, with a star for what is missing,
    cut to the lengths of nicks, user and host names (a nick keeps its start,
    the others their end behind a star).  The result fits its buffer, and
    making it pretty again changes nothing. *)
Theorem pretty_mask_correct :
  (forall mask, pretty_mask (pretty_mask mask) = pretty_mask mask /\ (length (pretty_mask mask) < NUH_BUFSIZE)%nat) /\
  (forall m, 33 ∉ m -> 64 ∉ m -> 46 ∉ m -> pretty_mask m = full (take NICKLEN m) star star) /\
  (forall m, 33 ∉ m -> 64 ∉ m -> 46 ∈ m -> pretty_mask m = full star star (keep_end HOSTLEN m)) /\
  (forall n u, 33 ∉ n -> 64 ∉ n -> 64 ∉ u -> pretty_mask (n ++ 33 :: u) = full (take NICKLEN n) (keep_end USERLEN u) star) /\
  (forall u h, 33 ∉ u -> 64 ∉ u -> 64 ∉ h -> pretty_mask (u ++ 64 :: h) = full star (keep_end USERLEN u) (keep_end HOSTLEN h)) /\
  (forall n u h, 33 ∉ n -> 64 ∉ n -> 64 ∉ h ->
     pretty_mask (n ++ 33 :: u ++ 64 :: h) = full (take NICKLEN n) (keep_end USERLEN u) (keep_end HOSTLEN h)).
Proof.
  destruct star_parts as (S1 & S2 & S3 & S4 & S5). split_and!.
  - intros mask. destruct (pretty_mask_parts mask) as (n & u & h & H1 & H2 & H3 & -> & _).
    pose proof (cut_parts_ok n u h H1 H2 H3) as Hok. split; [by apply pretty_full|].
    rewrite <- full_fits by done. unfold make_nick_user_host, snprintf. rewrite length_take. unfold NUH_BUFSIZE. lia.
  - exact pretty_mask_nick.
  - intros m H1 H2 H3. destruct (pretty_mask_parts m) as (n & u & h & _ & _ & _ & -> & H).
    rewrite (proj2 (first_special_None m)) in H by done.
    assert (E : existsb (Z.eqb 46) m = true) by (apply existsb_exists; exists 46; split; [by apply list_elem_of_In|done]).
    rewrite E in H. destruct H as (-> & -> & ->). by rewrite S3, S4.
  - intros n u H1 H2 H3. destruct (pretty_mask_parts (n ++ 33 :: u)) as (n' & u' & h' & _ & _ & _ & -> & H).
    rewrite first_special_app in H by auto. cbn [Z.eqb Pos.eqb] in H. rewrite last_split_None in H by done.
    destruct H as (-> & -> & ->). by rewrite S5.
  - intros u h H1 H2 H3. destruct (pretty_mask_parts (u ++ 64 :: h)) as (n' & u' & h' & _ & _ & _ & -> & H).
    rewrite first_special_app in H by auto. cbn [Z.eqb Pos.eqb] in H. rewrite last_split_None in H by done.
    destruct H as (-> & -> & ->). by rewrite S3.
  - intros n u h H1 H2 H3. destruct (pretty_mask_parts (n ++ 33 :: u ++ 64 :: h)) as (n' & u' & h' & _ & _ & _ & -> & H).
    rewrite first_special_app in H by auto. cbn [Z.eqb Pos.eqb] in H.
    rewrite (proj2 (last_split_Some 64 (u ++ 64 :: h) u h)) in H by done. by destruct H as (-> & -> & ->).
Qed.

(** ** What the checks decide *)

Lemma decides_reversed ban r P :
  decides r P ->
  decides (reversed ban r) (if has_bits (extflag ban) EXTBAN_REVERSE then ~ P else P).
Proof.
  intros (b & -> & Hb). unfold reversed. exists (xorb (has_bits (extflag ban) EXTBAN_REVERSE) b). split; [done|].
  destruct (has_bits _ _), b; cbn; intuition congruence.
Qed.

Lemma decides_matches mask name :
  plain_mask mask -> cstring name -> mask <> [] -> decides (matches mask name) (glob mask name).
Proof.
  intros Hm Hn Hne. destruct (match_decides mask name Hm Hn (or_introl Hne)) as (r & Hr & Hp).
  unfold matches. rewrite Hr. exists (r =? 0). split; [done|].
  destruct Hp as [[-> H]|[-> H]]; [done|]. by split.
Qed.

Lemma decides_mmatches old_mask new_mask :
  plain_mask old_mask -> plain_mask new_mask -> old_mask <> [] -> decides (mmatches old_mask new_mask) (order old_mask new_mask).
Proof.
  intros Ho Hn Hne. destruct (mmatch_decides old_mask new_mask Ho Hn (or_introl Hne)) as (r & Hr & H).
  unfold mmatches. rewrite Hr. exists (r =? 0). split; [done|]. by destruct H as [[-> H]|[-> H]].
Qed.

#[local] Hint Resolve decides_reversed : decide_tests.

Lemma snprintf_cstring n s : cstring s -> cstring (snprintf n s).
Proof. intros Hs. by apply Forall_take. Qed.

Lemma cstring_join a c b : cstring a -> is_char c -> cstring b -> cstring (a ++ c :: b).
Proof. intros Ha Hc Hb. apply Forall_app. split; [done|]. by constructor. Qed.

Lemma mask_cstring nick name h : cstring nick -> cstring name -> cstring h -> cstring (make_nick_user_host nick name h).
Proof.
  intros. apply snprintf_cstring. repeat (apply cstring_join; [done|unfold is_char; lia|]). done.
Qed.

Lemma decode_plain n s : plain_mask s -> plain_mask (decode n s).
Proof.
  revert s. induction n as [n IH] using lt_wf_ind. intros s Hs. destruct n as [|n]; [constructor|].
  destruct Hs as [|c s Hc Hs]; [constructor|]. cbn [decode].
  assert (H32 : is_char 32 /\ 32 <> 92) by (unfold is_char; lia). assert (H95 : is_char 95 /\ 95 <> 92) by (unfold is_char; lia).
  destruct (c =? 95); [|constructor; [done|apply IH; [lia|done]]].
  destruct Hs as [|d s Hd Hs]; [by repeat constructor|]. destruct (d =? 95); (constructor; [done|]); (apply IH; [lia|]); [done|by constructor].
Qed.

Lemma decode_cons n c s : decode (S n) (c :: s) <> [].
Proof. cbn [decode]. destruct (c =? 95); [|done]. destruct s as [|d s]; [done|]. by destruct (d =? 95). Qed.

Lemma decode_nonempty s : s <> [] -> decodespace s <> [].
Proof. destruct s as [|c s]; [done|]. intros _. exact (decode_cons 509 c s). Qed.

(** The high bits of an address. *)
Lemma NETMASK_land n x : 0 < n < 33 -> 0 <= x < 2 ^ 32 -> NETMASK n .& x = x / 2 ^ (32 - n) * 2 ^ (32 - n).
Proof.
  intros Hn Hx. unfold NETMASK. rewrite (proj2 (Z.eqb_neq n 0)) by lia. rewrite Z.shiftl_1_l.
  assert (E : u32 (- 2 ^ (32 - n)) = Z.ones n << (32 - n)).
  { unfold u32. rewrite Z.shiftl_mul_pow2 by lia. rewrite Z.ones_equiv.
    assert (2 ^ 32 = 2 ^ n * 2 ^ (32 - n)) as E by (rewrite <- Z.pow_add_r by lia; f_equal; lia).
    assert (0 < 2 ^ (32 - n)) by (apply Z.pow_pos_nonneg; lia). assert (0 < 2 ^ n) by (apply Z.pow_pos_nonneg; lia).
    symmetry. apply Z.mod_unique with (q := -1); [nia|nia]. }
  rewrite E. apply Z.bits_inj'. intros i Hi. rewrite Z.land_spec.
  rewrite <- Z.shiftr_div_pow2, <- Z.shiftl_mul_pow2 by lia.
  rewrite !Z.shiftl_spec by lia. destruct (Z.ltb_spec i (32 - n)).
  - rewrite !(Z.testbit_neg_r _ (i - (32 - n))) by lia. done.
  - rewrite Z.shiftr_spec by lia. replace (i - (32 - n) + (32 - n)) with i by lia.
    destruct (Z.ltb_spec i 32).
    + rewrite Z.ones_spec_low by lia. done.
    + rewrite Z.ones_spec_high by lia. cbn. symmetry.
      rewrite <- (Z.mod_small x (2 ^ 32)) by lia. by rewrite Z.mod_pow2_bits_high by lia.
Qed.

(** ** Clients and bans without odd characters *)
Record client_ok (u : client) : Prop := {
  uo_name : cstring (cli_name u) /\ (length (cli_name u) <= NICKLEN)%nat /\ 64 ∉ cli_name u;
  uo_user : cstring (realusername u) /\ (length (realusername u) <= USERLEN)%nat /\ 64 ∉ realusername u;
  uo_hosts : cstring (realhost u) /\ cstring (host u) /\ cstring (fakehost u) /\ cstring (virthost u) /\ cstring (account u);
  uo_info : plain_mask (cli_info u);
  uo_ip : let '(a, b, c, d) := cli_ip u in 0 <= a < 256 /\ 0 <= b < 256 /\ 0 <= c < 256 /\ 0 <= d < 256;
  uo_marks : match cli_sdnsbls u with Some l => Forall cstring l | None => True end /\ cstring (cli_killmark u);
  uo_channels : Forall (fun cs => plain_mask (fst cs)) (cli_channels u) }.

Record ban_ok (b : Ban) : Prop := {
  bo_str : plain_mask (banstr b) /\ banstr b <> [] /\ (forall x y, last_split 64 (banstr b) = Some (x, y) -> x <> []);
  bo_ext : plain_mask (extstr b) /\ (extflag b <> 0 -> (2 <= length (extstr b))%nat) }.

(** The address of a client as a number. *)
Definition addr (u : client) : Z := let '(a, b, c, d) := cli_ip u in a * 2 ^ 24 + b * 2 ^ 16 + c * 2 ^ 8 + d.

Section decided.
Variable inet_addr : list Z -> Z.
Variable FEAT_HOST_HIDING_STYLE : Z.
Variable hidden_domain : client -> list Z.
Variable FindChannel : list Z -> option (list Ban * list Ban).

(** inet_addr() reads what ircd_ntoa() prints. *)
Hypothesis inet_addr_quad : forall a b c d, 0 <= a < 256 -> 0 <= b < 256 -> 0 <= c < 256 -> 0 <= d < 256 ->
  inet_addr (ircd_ntoa_r a b c d) = a * 2 ^ 24 + b * 2 ^ 16 + c * 2 ^ 8 + d.
Hypothesis hidden_domain_ok : forall u, cstring (hidden_domain u).

Abbreviation user_masks := (user_masks FEAT_HOST_HIDING_STYLE hidden_domain).

Variable u : client.
Hypothesis Hu : client_ok u.

Lemma user_mask_cstring h : cstring h -> cstring (user_mask u h).
Proof. intros Hh. apply mask_cstring; [apply Hu..|done]. Qed.

Lemma user_masks_cstring m : m ∈ user_masks u -> cstring m.
Proof.
  destruct (uo_hosts u Hu) as (H1 & H2 & H3 & H4 & H5).
  assert (Hh : cstring (make_hidden_hostmask hidden_domain u)).
  { unfold make_hidden_hostmask. destruct (HasFakeHost u); [rewrite <- (app_nil_r (strncpy_bytes _ _)), cstr_strncpy by done; by apply Forall_take|].
    apply snprintf_cstring, cstring_join; [done|unfold is_char; lia|done]. }
  pose proof (snprintf_cstring HOSTLEN _ H4) as Hv.
  unfold Bans.user_masks. cbv zeta. rewrite !elem_of_app.
  intros [Hm|[Hm|[Hm|Hm]]].
  - rewrite !elem_of_cons, elem_of_nil in Hm. destruct Hm as [->|[->|[]]]; by apply user_mask_cstring.
  - destruct (HasSetHost u); [|by apply elem_of_nil in Hm]. apply list_elem_of_singleton in Hm as ->. by apply user_mask_cstring.
  - destruct (HasFakeHost u); [|by apply elem_of_nil in Hm]. apply list_elem_of_singleton in Hm as ->. by apply user_mask_cstring.
  - destruct (FEAT_HOST_HIDING_STYLE =? 1); [destruct (IsAccount u); [|by apply elem_of_nil in Hm]|];
      destruct (_ && _); apply list_elem_of_singleton in Hm as ->; by apply user_mask_cstring.
Qed.

(** nick!user *)
Definition nick_user : list Z := cli_name u ++ 33 :: realusername u.
Definition ip_text : list Z := let '(a, b, c, d) := cli_ip u in ircd_ntoa_r a b c d.

Lemma quad_text a : 0 <= a < 256 -> cstring (IpQuadTab a) /\ 64 ∉ IpQuadTab a /\ (length (IpQuadTab a) <= 3)%nat.
Proof.
  apply (all_codes (fun a => cstring (IpQuadTab a) /\ 64 ∉ IpQuadTab a /\ (length (IpQuadTab a) <= 3)%nat)
    (fun a => bool_decide (cstring (IpQuadTab a) /\ 64 ∉ IpQuadTab a /\ (length (IpQuadTab a) <= 3)%nat))).
  - intros x Hx. by apply bool_decide_eq_true in Hx.
  - vm_compute. reflexivity.
Qed.

Lemma ip_text_ok : cstring ip_text /\ 64 ∉ ip_text /\ (length ip_text <= 15)%nat /\ inet_addr ip_text = addr u.
Proof.
  pose proof (uo_ip u Hu) as Hip. unfold ip_text, addr. destruct (cli_ip u) as [[[a b] c] d].
  destruct Hip as (Ha & Hb & Hc & Hd). split_and!; [..|by apply inet_addr_quad].
  - unfold ircd_ntoa_r, cstring. rewrite !Forall_app. split_and!; try by_decide; by apply quad_text.
  - unfold ircd_ntoa_r. rewrite !elem_of_app. unfold dot. rewrite !list_elem_of_singleton.
    intros [H|[H|[H|[H|[H|[H|H]]]]]]; try done; by apply quad_text in H.
  - unfold ircd_ntoa_r. rewrite !length_app. cbn [dot length].
    destruct (quad_text a Ha) as (_ & _ & ?), (quad_text b Hb) as (_ & _ & ?), (quad_text c Hc) as (_ & _ & ?), (quad_text d Hd) as (_ & _ & ?).
    lia.
Qed.

Lemma ip_mask_eq : ip_mask u = nick_user ++ 64 :: ip_text.
Proof.
  destruct ip_text_ok as (_ & _ & Hl & _). destruct (uo_name u Hu) as (_ & Hn & _). destruct (uo_user u Hu) as (_ & Hr & _).
  unfold ip_mask, make_nick_user_ip, nick_user, ip_text in *. destruct (cli_ip u) as [[[a b] c] d].
  rewrite <- app_assoc. apply snprintf_fits. unfold NUI_BUFSIZE, NICKLEN, USERLEN in *.
  cbn [app]. rewrite length_app, length_cons, length_app, length_cons. lia.
Qed.

Lemma nick_user_ok : cstring nick_user /\ 64 ∉ nick_user.
Proof.
  destruct (uo_name u Hu) as (H1 & _ & H2). destruct (uo_user u Hu) as (H3 & _ & H4). unfold nick_user. split.
  - apply cstring_join; [done|unfold is_char; lia|done].
  - rewrite elem_of_app, elem_of_cons. by intros [?|[?|?]].
Qed.

Lemma ip_mask_cstring : cstring (ip_mask u).
Proof.
  rewrite ip_mask_eq. apply cstring_join; [apply nick_user_ok|unfold is_char; lia|apply ip_text_ok].
Qed.

(** A network in a ban: nick!user@quad/bits. *)
Definition in_network (mask : list Z) : Prop :=
  exists before quad rest, mask = before ++ 64 :: quad ++ 47 :: rest /\ 64 ∉ quad ++ 47 :: rest /\ 47 ∉ quad /\
    0 < atoi rest < 33 /\ glob before nick_user /\
    addr u / 2 ^ (32 - atoi rest) * 2 ^ (32 - atoi rest) = inet_addr quad.

Lemma addr_range : 0 <= addr u < 2 ^ 32.
Proof. pose proof (uo_ip u Hu) as Hip. unfold addr. destruct (cli_ip u) as [[[a b] c] d]. lia. Qed.

Lemma decides_cidr mask :
  plain_mask mask -> (forall x y, last_split 64 mask = Some (x, y) -> x <> []) ->
  decides (cidr_test inet_addr u mask) (in_network mask).
Proof.
  intros Hm Hne. destruct ip_text_ok as (_ & H64 & _ & Hin). destruct nick_user_ok as [Hnu Hnu64].
  unfold cidr_test. rewrite ip_mask_eq.
  rewrite last_split_app, split_at_first by done. rewrite Hin.
  destruct (last_split 64 mask) as [[before after]|] eqn:E.
  2: { eapply decides_iff; [apply decides_false|]. split; [done|]. intros (before & quad & rest & -> & H & _).
       by rewrite last_split_app in E. }
  specialize (Hne _ _ eq_refl). apply last_split_Some in E as [-> Hafter].
  assert (Huniq : forall b q r, before ++ 64 :: after = b ++ 64 :: q ++ 47 :: r -> 64 ∉ q ++ 47 :: r -> before = b /\ after = q ++ 47 :: r).
  { intros b q r Hb Hq. pose proof (proj2 (last_split_Some 64 _ b _) (conj Hb Hq)) as E1.
    pose proof (proj2 (last_split_Some 64 _ before after) (conj eq_refl Hafter)) as E2. rewrite E2 in E1. by injection E1 as <- <-. }
  destruct (split_at 47 after) as [[quad rest]|] eqn:E.
  2: { eapply decides_iff; [apply decides_false|]. split; [done|]. intros (b & q & r & Hb & Hq & Hq47 & _).
       destruct (Huniq b q r Hb Hq) as [_ ->]. by rewrite split_at_first in E. }
  apply split_at_Some in E as [-> Hq47].
  assert (Hbp : plain_mask before) by by apply Forall_app in Hm as [? _].
  destruct (decides_matches before nick_user Hbp Hnu Hne) as (b & -> & Hb). cbn [mbind option_bind].
  eexists. split; [done|]. rewrite !andb_true_iff, !Z.ltb_lt, Z.eqb_eq, Hb. split.
  - intros [[Hg [Hlo Hhi]] Heq]. exists before, quad, rest. split_and!; try done.
    rewrite <- NETMASK_land; [done|lia|apply addr_range].
  - intros (b' & q & r & Heq & Hq & Hqq & Hbits & Hg & Ha). destruct (Huniq b' q r Heq Hq) as [<- Ea].
    pose proof (proj2 (split_at_Some 47 _ q r) (conj Ea Hqq)) as E1.
    rewrite split_at_first in E1 by done. injection E1 as <- <-.
    rewrite NETMASK_land; [done|lia|apply addr_range].
Qed.

(** ** To whom a ban applies *)

(** The names the blacklists and the kill mark of the client give him. *)
Definition marks : list (list Z) :=
  default [] (cli_sdnsbls u) ++ match cli_killmark u with [] => [] | mark => [mark] end.

(** He is on a channel of that name, with the status the prefix asks for. *)
Definition on_channel (ext : list Z) : Prop :=
  exists cs, cs ∈ cli_channels u /\
    (if hd0 ext =? 35 then order ext (fst cs)
     else order (drop 1 ext) (fst cs) /\
       ((hd0 ext = 64 /\ has_bits (snd cs) CHFL_CHANOP = true) \/ (hd0 ext = 37 /\ has_bits (snd cs) CHFL_HALFOP = true) \/
        (hd0 ext = 43 /\ has_bits (snd cs) CHFL_VOICE = true))).

(** What the mask of a ban or exception says of the client. *)
Definition mask_hits (ip : bool) (mask : list Z) : Prop :=
  (ip = true /\ (glob mask (ip_mask u) \/ in_network mask)) \/
  (exists mark, mark ∈ marks /\ glob mask (marked_mask u mark)) \/
  (exists m, m ∈ user_masks u /\ glob mask m).

Definition unless (c : bool) (P : Prop) : Prop := if c then ~ P else P.

(** What the extension of a ban says, [kind] by [kind]. *)
Definition ext_hits (rev : bool) (shared : list Z -> Prop) (flags : Z) (ext : list Z) : Prop :=
  (has_bits flags EXTBAN_CHAN = true /\ unless rev (on_channel ext)) \/
  (has_bits flags EXTBAN_REAL = true /\ unless rev (order (decodespace ext) (cli_info u))) \/
  (has_bits flags EXTBAN_ACCOUNT = true /\ unless rev (glob ext (account u))) \/
  (has_bits flags EXTBAN_SHARE = true /\ shared ext).

Definition ban_hits (shared : list Z -> Prop) (b : Ban) : Prop :=
  mask_hits (has_bits (ban_flags b) CHFL_BAN_IPMASK) (banstr b) \/
  ext_hits (has_bits (extflag b) EXTBAN_REVERSE) shared (extflag b) (extstr b).

Definition except_hits (shared : list Z -> Prop) (e : Ban) : Prop :=
  mask_hits (has_bits (ban_flags e) CHFL_EXCEPT_IPMASK) (banstr e) \/ ext_hits false shared (extflag e) (extstr e).

Lemma decides_ip mask :
  plain_mask mask -> mask <> [] -> (forall x y, last_split 64 mask = Some (x, y) -> x <> []) ->
  decides (ip_test inet_addr u mask) (glob mask (ip_mask u) \/ in_network mask).
Proof.
  intros Hm Hne Hs. apply decides_or; [|by apply decides_cidr]. apply decides_matches; [done|apply ip_mask_cstring|done].
Qed.

Lemma marked_cstring mark : cstring mark -> cstring (marked_mask u mark).
Proof.
  intros Hm. destruct (uo_hosts u Hu) as (Hr & _). apply user_mask_cstring, snprintf_cstring, cstring_join; [done|unfold is_char; lia|done].
Qed.

Lemma decides_dnsbl mask :
  plain_mask mask -> mask <> [] ->
  decides (dnsbl_test u mask) (exists mark, mark ∈ default [] (cli_sdnsbls u) /\ glob mask (marked_mask u mark)).
Proof.
  intros Hm Hne. destruct (uo_marks u Hu) as [Hd _]. unfold dnsbl_test. destruct (cli_sdnsbls u) as [l|]; cbn [default].
  - apply decides_any. intros mark Hmark. rewrite Forall_forall in Hd. apply decides_matches; [done|by apply marked_cstring, Hd|done].
  - eapply decides_iff; [apply decides_false|]. split; [done|]. by intros (x & ?%elem_of_nil & _).
Qed.

Lemma decides_kill mask :
  plain_mask mask -> mask <> [] ->
  decides (kill_test u mask) (exists mark, mark ∈ match cli_killmark u with [] => [] | mark => [mark] end /\ glob mask (marked_mask u mark)).
Proof.
  intros Hm Hne. destruct (uo_marks u Hu) as [_ Hk]. unfold kill_test. destruct (cli_killmark u) as [|c k].
  - eapply decides_iff; [apply decides_false|]. split; [done|]. by intros (x & ?%elem_of_nil & _).
  - eapply decides_iff; [apply decides_matches; [done|by apply marked_cstring|done]|].
    split; [intros Hg; eexists; split; [by apply list_elem_of_singleton|done]|].
    by intros (x & ->%list_elem_of_singleton & Hg).
Qed.

Lemma decides_host mask :
  plain_mask mask -> mask <> [] ->
  decides (host_test FEAT_HOST_HIDING_STYLE hidden_domain u mask) (exists m, m ∈ user_masks u /\ glob mask m).
Proof.
  intros Hm Hne. apply decides_any. intros m Hmem. apply decides_matches; [done|by apply user_masks_cstring|done].
Qed.

Lemma decides_chan ext : plain_mask ext -> (2 <= length ext)%nat -> decides (chan_test u ext) (on_channel ext).
Proof.
  intros He Hl. pose proof (uo_channels u Hu) as Hc. rewrite Forall_forall in Hc.
  apply decides_any. intros [name status] Hcs. specialize (Hc _ Hcs). cbn [fst snd] in *.
  destruct ext as [|c ext]; [cbn in Hl; lia|]. destruct (hd0 (c :: ext) =? 35) eqn:E.
  - by apply decides_mmatches.
  - apply decides_and.
    + inversion He; subst. apply decides_mmatches; [done..|]. destruct ext; [cbn in Hl; lia|done].
    + cbn [hd0]. rewrite !orb_true_iff, !andb_true_iff, !Z.eqb_eq. tauto.
Qed.

Lemma decides_real ext : plain_mask ext -> ext <> [] -> decides (real_test u ext) (order (decodespace ext) (cli_info u)).
Proof. intros He Hne. apply decides_mmatches; [by apply decode_plain|apply Hu|by apply decode_nonempty]. Qed.

Lemma decides_account ext : plain_mask ext -> ext <> [] -> decides (account_test u ext) (glob ext (account u)).
Proof. intros He Hne. apply decides_matches; [done|apply Hu|done]. Qed.

Lemma ext_nonempty b flag : ban_ok b -> has_bits (extflag b) flag = true -> (2 <= length (extstr b))%nat /\ extstr b <> [].
Proof.
  intros [_ [_ H]] Hf. assert (Hl : (2 <= length (extstr b))%nat).
  { apply H. intros E. rewrite E in Hf. unfold has_bits in Hf. by rewrite Z.land_0_l in Hf. }
  split; [done|]. by destruct (extstr b); [cbn in Hl; lia|].
Qed.

Lemma exists_app {A} (l1 l2 : list A) P : (exists x, x ∈ l1 ++ l2 /\ P x) <-> (exists x, x ∈ l1 /\ P x) \/ (exists x, x ∈ l2 /\ P x).
Proof.
  split.
  - intros (x & [Hx|Hx]%elem_of_app & HP); eauto.
  - intros [(x & Hx & HP)|(x & Hx & HP)]; exists x; rewrite elem_of_app; auto.
Qed.

Lemma ban_applies_decides shared P b :
  ban_ok b -> (has_bits (extflag b) EXTBAN_SHARE = true -> decides (shared (extstr b)) (P (extstr b))) ->
  decides (ban_applies inet_addr FEAT_HOST_HIDING_STYLE hidden_domain shared u b) (ban_hits P b).
Proof.
  intros Hb Hshared. pose proof Hb as [(Hm & Hne & Hs) [He _]].
  eapply decides_iff.
  { unfold ban_applies. repeat (apply decides_or; [first
      [apply decides_when; intros Hf; try destruct (ext_nonempty b _ Hb Hf)
      |apply decides_dnsbl|apply decides_kill]|]); [..|by apply decides_host]; try done.
    - by apply decides_ip.
    - apply decides_reversed. by apply decides_chan.
    - apply decides_reversed. by apply decides_real.
    - apply decides_reversed. by apply decides_account.
    - by apply Hshared. }
  unfold ban_hits, mask_hits, ext_hits, marks, unless. rewrite exists_app. tauto.
Qed.

Lemma except_applies_decides shared P e :
  ban_ok e -> (has_bits (extflag e) EXTEXCEPT_SHARE = true -> decides (shared (extstr e)) (P (extstr e))) ->
  decides (except_applies inet_addr FEAT_HOST_HIDING_STYLE hidden_domain shared u e) (except_hits P e).
Proof.
  intros Hb Hshared. pose proof Hb as [(Hm & Hne & Hs) [He _]].
  eapply decides_iff.
  { unfold except_applies. repeat (apply decides_or; [first
      [apply decides_when; intros Hf; try destruct (ext_nonempty e _ Hb Hf)
      |apply decides_dnsbl|apply decides_kill]|]); [..|by apply decides_host]; try done.
    - by apply decides_ip.
    - by apply decides_chan.
    - by apply decides_account.
    - by apply decides_real.
    - by apply Hshared. }
  unfold except_hits, mask_hits, ext_hits, marks, unless, EXTEXCEPT_CHAN, EXTEXCEPT_REAL, EXTEXCEPT_ACCOUNT, EXTEXCEPT_SHARE,
    EXTBAN_CHAN, EXTBAN_REAL, EXTBAN_ACCOUNT, EXTBAN_SHARE. rewrite exists_app. tauto.
Qed.

(** The lists of the channels that ~j bans name are well formed. *)
Hypothesis FindChannel_ok : forall name bans excepts, FindChannel name = Some (bans, excepts) ->
  Forall ban_ok bans /\ Forall ban_ok excepts.
Hypothesis Hnamed : is_user u = true.

(** The bans of a named channel, which do not refer further. *)
Definition shared_ban (ext : list Z) : Prop :=
  exists bans excepts, FindChannel ext = Some (bans, excepts) /\ exists b, b ∈ bans /\ ban_hits (fun _ => False) b.
Definition shared_except (ext : list Z) : Prop :=
  exists bans excepts, FindChannel ext = Some (bans, excepts) /\ exists e, e ∈ excepts /\ except_hits (fun _ => False) e.

Lemma shared_bans_decides ext :
  decides (shared_bans inet_addr FEAT_HOST_HIDING_STYLE hidden_domain FindChannel u ext) (shared_ban ext).
Proof.
  unfold shared_bans, shared_ban. destruct (FindChannel ext) as [[bans excepts]|] eqn:E.
  - rewrite Hnamed. destruct (FindChannel_ok _ _ _ E) as [Hb _]. rewrite Forall_forall in Hb.
    eapply decides_iff; [apply (decides_any _ (ban_hits (fun _ => False))); intros b Hbin|].
    + apply ban_applies_decides; [by apply Hb|]. intros _. apply decides_false.
    + split; [eauto 10|]. by intros (? & ? & [= <- <-] & H).
  - eapply decides_iff; [apply decides_false|]. split; [done|]. by intros (? & ? & ? & _).
Qed.

Lemma shared_excepts_decides ext :
  decides (shared_excepts inet_addr FEAT_HOST_HIDING_STYLE hidden_domain FindChannel u ext) (shared_except ext).
Proof.
  unfold shared_excepts, shared_except. destruct (FindChannel ext) as [[bans excepts]|] eqn:E.
  - rewrite Hnamed. destruct (FindChannel_ok _ _ _ E) as [_ He]. rewrite Forall_forall in He.
    eapply decides_iff; [apply (decides_any _ (except_hits (fun _ => False))); intros b Hbin|].
    + apply except_applies_decides; [by apply He|]. intros _. apply decides_false.
    + split; [eauto 10|]. by intros (? & ? & [= <- <-] & H).
  - eapply decides_iff; [apply decides_false|]. split; [done|]. by intros (? & ? & ? & _).
Qed.

(** A check with the two bits of a membership that remember its result. *)
Definition remembers (valid hit : Z) (r : option (bool * option Z)) (member : option Z) (P : Prop) : Prop :=
  match member with
  | None => exists b, r = Some (b, None) /\ (b = true <-> P)
  | Some status =>
      if has_bits status valid then r = Some (has_bits status hit, Some status)
      else exists b status', r = Some (b, Some status') /\ (b = true <-> P) /\
             has_bits status' valid = true /\ has_bits status' hit = b /\
             Z.ldiff status' (valid .| hit) = Z.ldiff status (valid .| hit)
  end.

Lemma cached_remembers (test : option bool) P (valid hit : Z) (member : option Z) :
  decides test P -> valid .& hit = 0 -> valid <> 0 -> hit <> 0 ->
  remembers valid hit
    (match member with
     | Some status =>
         if has_bits status valid then Some (has_bits status hit, member)
         else r ← test;
              let status := status .| valid in
              Some (r, Some (if (r : bool) then status .| hit else Z.ldiff status hit))
     | None => r ← test; Some (r, None)
     end) member P.
Proof.
  intros (b & -> & Hb) Hdis Hv Hh. unfold remembers. cbn [mbind option_bind]. destruct member as [status|]; [|eauto].
  destruct (has_bits status valid); [done|].
  assert (Hbit : forall i, Z.testbit valid i && Z.testbit hit i = false) by (intros i; by rewrite <- Z.land_spec, Hdis, Z.bits_0).
  eexists b, _. split; [done|]. split; [done|].
  assert (Hset : forall x y, y <> 0 -> (forall i, Z.testbit y i = true -> Z.testbit x i = true) -> has_bits x y = true).
  { intros x y Hy Hi. unfold has_bits. apply negb_true_iff, Z.eqb_neq. intros E. apply Hy.
    apply Z.bits_inj'. intros i _. rewrite Z.bits_0. destruct (Z.testbit y i) eqn:Ey; [|done].
    pose proof (f_equal (fun z => Z.testbit z i) E) as E'. cbn in E'. rewrite Z.land_spec, Z.bits_0, Ey, (Hi i Ey) in E'. done. }
  split_and!.
  - apply Hset; [done|]. intros i Hi. specialize (Hbit i). rewrite Hi in Hbit. cbn in Hbit.
    destruct b; rewrite ?Z.ldiff_spec, ?Z.lor_spec, Hi, ?Hbit, ?orb_true_r; done.
  - destruct b.
    + apply Hset; [done|]. intros i Hi. by rewrite Z.lor_spec, Hi, orb_true_r.
    + unfold has_bits. apply negb_false_iff, Z.eqb_eq. apply Z.bits_inj'. intros i _.
      rewrite Z.land_spec, Z.ldiff_spec, Z.bits_0. by destruct (Z.testbit _ i), (Z.testbit hit i).
  - apply Z.bits_inj'. intros i _. destruct b; rewrite !Z.ldiff_spec, ?Z.lor_spec;
      by destruct (Z.testbit status i), (Z.testbit valid i), (Z.testbit hit i).
Qed.

(** C16: is_banned() says whether a ban on the list of the channel, or of a channel
    that a ~j ban names, applies to a user: its mask matches one of his names,
    his address or its network, a name with the mark of a blacklist or a kill,
    or its extension, possibly reversed, matches his channels, real name or
    account; for a member the result is remembered in his status and taken from
    there as long as it is valid.  It holds for a user and lists for which no
    scan leaves its strings (the hypotheses of the section): his nick, user name,
    hosts and account are strings of their lengths without a zero (the first two
    without an at sign), his real name and the names of his channels have no
    backslash; the masks and the extensions of the bans, also of the channels
    that ~j bans name, have no backslash, a mask is not empty and has a character
    before its last at sign, and an extension has at least two characters;
    inet_addr() reads an address as it is printed. *)
Theorem is_banned_correct banlist member :
  Forall ban_ok banlist ->
  remembers CHFL_BANVALID CHFL_BANNED (is_banned inet_addr FEAT_HOST_HIDING_STYLE hidden_domain FindChannel u banlist member)
    member (exists b, b ∈ banlist /\ ban_hits shared_ban b).
Proof.
  intros Hb. rewrite Forall_forall in Hb. unfold is_banned. rewrite Hnamed. cbn [negb].
  apply (cached_remembers _ _ CHFL_BANVALID CHFL_BANNED); [|done..].
  apply decides_any. intros b Hbin. apply ban_applies_decides; [by apply Hb|]. intros _. apply shared_bans_decides.
Qed.

(** Is_excepted() says in the same way whether an exception on the list of the
    channel, or of a channel that a ~j exception names, applies to a user; its
    extensions are not reversed. *)
Theorem is_excepted_correct exceptlist member :
  Forall ban_ok exceptlist ->
  remembers CHFL_EXCEPTVALID CHFL_EXCEPT
    (is_excepted inet_addr FEAT_HOST_HIDING_STYLE hidden_domain FindChannel u exceptlist member)
    member (exists e, e ∈ exceptlist /\ except_hits shared_except e).
Proof.
  intros Hb. rewrite Forall_forall in Hb. unfold is_excepted. rewrite Hnamed. cbn [negb].
  apply (cached_remembers _ _ CHFL_EXCEPTVALID CHFL_EXCEPT); [|done..].
  apply decides_any. intros b Hbin. apply except_applies_decides; [by apply Hb|]. intros _. apply shared_excepts_decides.
Qed.

End decided.

(** ** The real host behind a fake one *)
Definition with_realhost (h : list Z) (u : client) : client :=
  MkClient (is_user u) (cli_name u) (realusername u) h (host u) (fakehost u) (virthost u) (account u) (cli_info u)
    (cli_ip u) (HasSetHost u) (HasFakeHost u) (IsAccount u) (IsHiddenHost u) (cli_sdnsbls u) (cli_killmark u)
    (cli_channels u).

(** The bans of a channel do not see the real host of a user who has a fake
    host and no account, with hosts hidden in style 1: the mask with the real
    host is overwritten by the one with the shown host before any ban is tried,
    and the mask that should have the real host has the fake one. *)
Theorem is_banned_blind_to_realhost inet_addr hidden_domain FindChannel u h banlist member :
  HasSetHost u = false -> IsAccount u = false -> cli_sdnsbls u = None -> cli_killmark u = [] ->
  is_banned inet_addr 1 hidden_domain FindChannel (with_realhost h u) banlist member =
  is_banned inet_addr 1 hidden_domain FindChannel u banlist member.
Proof.
  intros Hs Ha Hd Hk.
  assert (E : forall shared b, ban_applies inet_addr 1 hidden_domain shared (with_realhost h u) b =
                               ban_applies inet_addr 1 hidden_domain shared u b).
  { intros shared b. unfold ban_applies, dnsbl_test, kill_test, host_test, user_masks. cbn -[anyM orM].
    by rewrite Hs, Ha, Hd, Hk. }
  assert (Eany : forall {A} (f g : A -> option bool) l, (forall x, f x = g x) -> anyM f l = anyM g l).
  { intros A f g l Hfg. induction l as [|x l IH]; [done|]. cbn [anyM]. by rewrite Hfg, IH. }
  assert (Esh : forall ext, shared_bans inet_addr 1 hidden_domain FindChannel (with_realhost h u) ext =
                            shared_bans inet_addr 1 hidden_domain FindChannel u ext).
  { intros ext. unfold shared_bans. cbn [is_user with_realhost]. destruct (FindChannel ext) as [[bans ?]|]; [|done].
    by rewrite (Eany _ _ (ban_applies inet_addr 1 hidden_domain (fun _ => Some false) u)) by (intros; apply E). }
  assert (Eb : forall b, ban_applies inet_addr 1 hidden_domain (shared_bans inet_addr 1 hidden_domain FindChannel (with_realhost h u)) (with_realhost h u) b =
                         ban_applies inet_addr 1 hidden_domain (shared_bans inet_addr 1 hidden_domain FindChannel u) u b).
  { intros b. rewrite E. unfold ban_applies. by rewrite Esh. }
  unfold is_banned. cbn [is_user with_realhost]. by rewrite (Eany _ _ _ banlist Eb).
Qed.

(** ** Examples *)

(** What inet_addr() makes of four numbers between dots. *)
Definition sample_inet_addr (s : list Z) : Z :=
  match map quad_value (tokens s dot) with
  | [a; b; c; d] => a * 2 ^ 24 + b * 2 ^ 16 + c * 2 ^ 8 + d
  | _ => 2 ^ 32 - 1
  end.

Lemma sample_inet_addr_quad a b c d : 0 <= a < 256 -> 0 <= b < 256 -> 0 <= c < 256 -> 0 <= d < 256 ->
  sample_inet_addr (ircd_ntoa_r a b c d) = a * 2 ^ 24 + b * 2 ^ 16 + c * 2 ^ 8 + d.
Proof.
  intros Ha Hb Hc Hd. unfold sample_inet_addr. by rewrite (proj1 (ircd_ntoa_r_roundtrip a b c d ltac:(repeat (constructor; [assumption|]); constructor))).
Qed.

Definition sample_client : client :=
  MkClient true (lit "al") (lit "ann") (lit "real.example") (lit "al.users.example") (lit "al.users.example") []
    [] (lit "Ann") (10, 1, 2, 3) false true false true None [] [(lit "#chat", CHFL_CHANOP)].

Lemma sample_client_ok : client_ok sample_client.
Proof. split; by_decide. Qed.

Definition sample_ban (mask : list Z) (flags : Z) (ext : list Z) (kind : Z) : Ban := MkBan mask ext kind (lit "op") 0 flags.
Definition sample_bans : list Ban :=
  [sample_ban (lit "~!c:#jail") CHFL_BAN (lit "#jail") (EXTBAN_CHAN .| EXTBAN_REVERSE);
   sample_ban (lit "*!*@10.1.0.0/16") (CHFL_BAN .| CHFL_BAN_IPMASK) [] 0].

Lemma sample_bans_ok : Forall ban_ok sample_bans.
Proof.
  repeat constructor; try by_decide; intros ? ? [= <- <-] || intros ? ? [=]; try done.
Qed.

Definition no_channel (_ : list Z) : option (list Ban * list Ban) := None.
Definition sample_domain (_ : client) : list Z := lit "users.example".

Lemma is_banned_correct_witness :
  remembers CHFL_BANVALID CHFL_BANNED
    (is_banned sample_inet_addr 1 sample_domain no_channel sample_client [sample_ban (lit "*!*@10.1.0.0/16") (CHFL_BAN .| CHFL_BAN_IPMASK) [] 0] (Some 1))
    (Some 1) (exists b, b ∈ [sample_ban (lit "*!*@10.1.0.0/16") (CHFL_BAN .| CHFL_BAN_IPMASK) [] 0] /\
      ban_hits sample_inet_addr 1 sample_domain sample_client (shared_ban sample_inet_addr 1 sample_domain no_channel sample_client) b) /\
  is_banned sample_inet_addr 1 sample_domain no_channel sample_client sample_bans (Some 1) = Some (true, Some 6145).
Proof.
  split; [|vm_compute; reflexivity].
  apply (is_banned_correct sample_inet_addr 1 sample_domain no_channel sample_inet_addr_quad (fun _ => ltac:(by_decide))
    sample_client sample_client_ok (fun _ _ _ (H : None = Some _) => ltac:(discriminate H)) eq_refl).
  exact (Forall_inv_tail sample_bans_ok).
Defined.

Lemma is_excepted_correct_witness :
  remembers CHFL_EXCEPTVALID CHFL_EXCEPT
    (is_excepted sample_inet_addr 2 sample_domain no_channel sample_client sample_bans None)
    None (exists b, b ∈ sample_bans /\
      except_hits sample_inet_addr 2 sample_domain sample_client (shared_except sample_inet_addr 2 sample_domain no_channel sample_client) b).
Proof.
  apply (is_excepted_correct sample_inet_addr 2 sample_domain no_channel sample_inet_addr_quad (fun _ => ltac:(by_decide))
    sample_client sample_client_ok (fun _ _ _ (H : None = Some _) => ltac:(discriminate H)) eq_refl).
  exact sample_bans_ok.
Defined.

Lemma is_banned_blind_to_realhost_witness :
  let ban := sample_ban (lit "*!*@real.example") CHFL_BAN [] 0 in
  matches (banstr ban) (user_mask sample_client (realhost sample_client)) = Some true /\
  is_banned sample_inet_addr 1 sample_domain no_channel sample_client [ban] None = Some (false, None).
Proof.
  split; [vm_compute; reflexivity|].
  etransitivity; [symmetry; apply (is_banned_blind_to_realhost sample_inet_addr sample_domain no_channel sample_client (lit "other"));
    reflexivity|]. vm_compute. reflexivity.
Defined.

Lemma pretty_mask_correct_witness :
  pretty_mask (lit "host.example") = lit "*!*@host.example" /\ pretty_mask (lit "al@bo@c") = lit "*!al@bo@c".
Proof.
  destruct pretty_mask_correct as (_ & _ & H & _). split; [|vm_compute; reflexivity].
  etransitivity; [apply (H (lit "host.example")); by_decide|]. vm_compute. reflexivity.
Defined.
