(* ===== verification/BanModes.v ===== *)
(** * ircd/channel.c: changing the bans and exceptions of a channel

    mode_parse_ban() reads one argument of a MODE command and links a new entry,
    kept in an array on the stack, behind the list of the channel, with marks on
    the entries that are to go; mode_process_bans() makes the changes effective
    at the end of the command.  Exceptions are handled by a second copy of the
    code: [kind] holds what differs.  The text of an extension is a pointer,
    because the array keeps it after it was freed.  [None] is a write or read
    outside a text, a second release, or the use of what was released. *)
From S2P Require Import Prelude Chattr NumText Match MaskOrder IrcdString NameTable Hash Channel MsgTab Bans.
Open Scope ircd_scope.

Definition MODE_ADD : Z := 0x40000000.
Definition MODE_DEL : Z := 0x20000000.
Definition CHFL_BAN_OVERLAPPED : Z := 0x80.
Definition CHFL_EXCEPT_OVERLAPPED : Z := 0x40000.
Definition EXTBAN_NICK : Z := 0x001.
Definition EXTBAN_QUIET : Z := 0x008.
Definition EXTBAN_TEXT : Z := 0x080.
Definition EXTBAN_REPLACE : Z := 0x100.
Definition MAXNUMPARAMS : nat := 200.
Definition MAXMODEPARAMS : nat := 6.

(** A pointer to the text of an extension. *)
Inductive ext_ptr := Null | Text (t : list Z) | Freed.

(** struct SLink with its ban or except member; [e_slot] tells the entries of the
    array on the stack from those of the channel. *)
Record entry := MkEntry {
  e_str : list Z; e_ext : ext_ptr; e_extflag : Z; e_who : list Z; e_when : Z; e_flags : Z; e_slot : bool }.

Definition set_eflags (f : Z) (e : entry) : entry :=
  MkEntry (e_str e) (e_ext e) (e_extflag e) (e_who e) (e_when e) f (e_slot e).
Definition has (m : Z) (e : entry) : bool := has_bits (e_flags e) m.
Definition mark (m : Z) (e : entry) : entry := set_eflags (e_flags e .| m) e.
Definition unmark (m : Z) (e : entry) : entry := set_eflags (Z.ldiff (e_flags e) m) e.

(** What differs between bans and exceptions; [k_letter] says which extensions
    there are, [k_feature] which of them are enabled. *)
Record kind := MkKind {
  k_base : Z; k_ipmask : Z; k_overlapped : Z; k_reverse : Z; k_halfop : bool;
  k_letter : list Z }.

Definition bans : kind := MkKind CHFL_BAN CHFL_BAN_IPMASK CHFL_BAN_OVERLAPPED EXTBAN_REVERSE true (lit "qjatRncr").
(** flags &= EXTEXCEPT_REVERSE leaves 0. *)
Definition excepts : kind := MkKind CHFL_EXCEPT CHFL_EXCEPT_IPMASK CHFL_EXCEPT_OVERLAPPED 0 false (lit "qnjtacr").

(** The entries of the array, their extensions as the last use left them. *)
Record pending := MkPending {
  p_list : list entry; p_slots : list (ext_ptr * Z); p_num : nat; p_clean : bool }.

Definition no_pending (l : list entry) : pending := MkPending l (replicate MAXPARA (Null, 0)) 0 false.

(** ** explode_line()

    The words between colons; a backslash takes the next character with it. *)
Fixpoint word_end (line : list Z) : option (list Z * list Z) :=
  match line with
  | [] => Some ([], [])
  | c :: r =>
      if c =? 58 then Some ([], line)
      else if c =? 92 then
        match r with
        | [] => None
        | d :: r => '(w, rest) ← word_end r; Some (c :: d :: w, rest)
        end
      else '(w, rest) ← word_end r; Some (c :: w, rest)
  end.

Fixpoint skip_colons (line : list Z) : list Z :=
  match line with c :: r => if c =? 58 then skip_colons r else line | [] => [] end.

Fixpoint explode_line (fuel room : nat) (line : list Z) : option (list (list Z)) :=
  match fuel with
  | O => None
  | S fuel =>
      match skip_colons line, room with
      | [], _ => Some []
      | _, O => Some []
      | line, S O => Some [line]
      | line, S room => '(w, rest) ← word_end line; ws ← explode_line fuel room rest; Some (w :: ws)
      end
  end.

Definition words (line : list Z) : option (list (list Z)) := explode_line (S (length line)) MAXNUMPARAMS line.

(** ** The argument of a mode *)
Inductive reply := SendList | NeedMoreParams | NotOper | Notice | ListFull (mask : list Z).

(** The argument: the mask, the text and the kind of its extension, and whether
    the extension is itself a mask of users. *)
Inductive parsed :=
  | Rejected (r : list reply)
  | Mask (t_str : list Z) (ext : option (list Z)) (flags : Z) (extmask : bool).

(** ircd_snprintf(0, t_str, BUFSIZE, ...) into a buffer for the argument. *)
Definition rewrite_arg (capacity : nat) (text : list Z) : option (list Z) :=
  let text := snprintf BUFSIZE text in
  if (length text <? capacity)%nat then Some text else None.

Definition tagged (letter : Z) (texts : list (list Z)) : list Z :=
  [126; letter] ++ flat_map (fun t => 58 :: t) texts.

Definition any_user : list Z := lit "*!*@*".

Section modes.
Variable k : kind.
(** FEAT_EXTBAN_x or FEAT_EXTEXCEPT_x, and FEAT_ALLOW_TEXT_HOST. *)
Variable k_feature : Z -> bool.
Variable FEAT_EXTBANS FEAT_ALLOW_TEXT_HOST : bool.

Definition ext_arg (capacity : nat) (letter flags : Z) (t_str banned : list Z) : option parsed :=
  if negb (existsb (Z.eqb letter) (k_letter k) && k_feature letter) then Some (Rejected [])
  else if letter =? 113 then                                         (* q *)
    let banned := collapse (pretty_mask banned) in
    t ← rewrite_arg capacity (tagged 113 [banned]); Some (Mask t (Some banned) (flags .| EXTBAN_QUIET) true)
  else if letter =? 110 then                                         (* n *)
    let banned := collapse (pretty_mask banned) in
    t ← rewrite_arg capacity (tagged 110 [banned]); Some (Mask t (Some banned) (flags .| EXTBAN_NICK) true)
  else if letter =? 106 then                                         (* j *)
    if (hd0 banned =? 35) || (hd0 banned =? 38) then Some (Mask t_str (Some banned) (flags .| EXTBAN_SHARE) false)
    else Some (Rejected [Notice])
  else if letter =? 97 then Some (Mask t_str (Some banned) (flags .| EXTBAN_ACCOUNT) false)   (* a *)
  else if letter =? 114 then Some (Mask t_str (Some banned) (flags .| EXTBAN_REAL) false)     (* r *)
  else if letter =? 99 then                                          (* c *)
    let p := if (hd0 banned =? 43) || (hd0 banned =? 37) || (hd0 banned =? 64) then drop 1 banned else banned in
    if hd0 p =? 35 then Some (Mask t_str (Some banned) (flags .| EXTBAN_CHAN) false) else Some (Rejected [Notice])
  else if letter =? 116 then                                         (* t *)
    argv ← words banned;
    match argv with
    | [bad] =>
        t ← rewrite_arg capacity (tagged 116 [any_user; bad]);
        Some (Mask t (Some any_user) (flags .| EXTBAN_TEXT) true)
    | [mask; bad] =>
        let banned := collapse (pretty_mask mask) in
        t ← rewrite_arg capacity (tagged 116 [if FEAT_ALLOW_TEXT_HOST then banned else any_user; bad]);
        Some (Mask t (Some banned) (flags .| EXTBAN_TEXT) true)
    | _ => Some (Rejected [Notice])
    end
  else                                                               (* R *)
    argv ← words banned;
    match argv with
    | [bad; new] =>
        if ircd_strcmp bad (lit "*") =? 0 then Some (Rejected [Notice])
        else t ← rewrite_arg capacity (tagged 82 [any_user; bad; new]);
             Some (Mask t (Some any_user) (flags .| EXTBAN_REPLACE) true)
    | [mask; bad; new] =>
        if ircd_strcmp bad (lit "*") =? 0 then Some (Rejected [Notice])
        else let banned := collapse (pretty_mask mask) in
             t ← rewrite_arg capacity (tagged 82 [if FEAT_ALLOW_TEXT_HOST then banned else any_user; bad; new]);
             Some (Mask t (Some banned) (flags .| EXTBAN_REPLACE) true)
    | _ => Some (Rejected [Notice])
    end.

(** Is it an extension?  The characters are read one after the other. *)
Definition is_extension (t_str : list Z) : option bool :=
  if negb (hd0 t_str =? 126) then Some false
  else
    c1 ← rd t_str 1;
    if c1 =? 0 then Some false
    else
      c2 ← rd t_str 2;
      form ← (if c2 =? 58 then Some true
              else if c1 =? 33 then c3 ← rd t_str 3; Some (c3 =? 58) else Some false);
      if (form : bool) then c3 ← rd t_str 3; Some (negb (c3 =? 0)) else Some false.

Definition parse_mask (IsServer : bool) (arg : list Z) : option parsed :=
  let capacity := S (length arg) in
  let t_str := match split_at 32 arg with Some (a, _) => a | None => arg end in
  if (hd0 t_str =? 0) || (hd0 t_str =? 58) then Some (Rejected [NeedMoreParams])
  else
    ext ← is_extension t_str;
    if (ext : bool) && (FEAT_EXTBANS || IsServer) then
      let t_str := take 80 t_str in
      let '(flags, typepos) := (if ch t_str 1 =? 33 then (k_reverse k, 2%nat) else (0, 1%nat)) in
      ext_arg capacity (ch t_str typepos) flags t_str (drop (typepos + 2) t_str)
    else Some (Mask (collapse (pretty_mask t_str)) None 0 false).

(** ** Marking the list *)
Definition cleaned (e : entry) : entry := unmark (MODE_ADD .| MODE_DEL .| k_overlapped k) e.

Definition same (e : entry) (t_str : list Z) : bool := ircd_strcmp (e_str e) t_str =? 0.

(** The loop for an added mask: the list, whether the new entry was linked, and
    whether its texts were freed. *)
Fixpoint add_scan (clean : bool) (t_str : list Z) (l : list entry) (new : entry) (freed : bool)
  : option (list entry * bool) :=
  match l with
  | [] => Some ([], freed)
  | ban :: rest =>
      let ban := if clean then ban else cleaned ban in
      if same ban t_str then
        if freed then None
        else if clean then Some (ban :: rest, true)
        else '(rest, freed) ← add_scan clean t_str rest (unmark MODE_ADD new) true; Some (ban :: rest, freed)
      else
        wide ← mmatches (e_str ban) t_str;
        narrow ← (if (wide : bool) then Some false else mmatches t_str (e_str ban));
        let new := if (wide : bool) && negb (has MODE_DEL ban) then mark (k_overlapped k) new else new in
        let ban := if (narrow : bool) then mark MODE_DEL ban else ban in
        match rest with
        | [] => if has MODE_ADD new then Some ([ban; new], freed) else Some ([ban], freed)
        | _ => '(rest, freed) ← add_scan clean t_str rest new freed; Some (ban :: rest, freed)
        end
  end.

Fixpoint del_scan (clean : bool) (t_str : list Z) (l : list entry) : list entry :=
  match l with
  | [] => []
  | ban :: rest =>
      let ban := if clean then ban else cleaned ban in
      if same ban t_str then
        if clean then mark MODE_DEL ban :: rest else mark MODE_DEL ban :: del_scan clean t_str rest
      else ban :: del_scan clean t_str rest
  end.

(** The flags of a new entry. *)
Definition ip_part (t : list Z) : bool := match last_split 64 t with Some (_, h) => check_if_ipmask h | None => false end.

Definition new_flags (t_str : list Z) (ext : option (list Z)) (extmask : bool) : Z :=
  k_base k .| MODE_ADD .| (if ip_part t_str then k_ipmask k else 0)
  .| (if extmask && match ext with Some b => ip_part b | None => false end then CHFL_BAN_IPMASK else 0).

(** From "remember the ban for the moment": one mask is added or deleted. *)
Definition apply_mask (add : bool) (who : list Z) (now : Z) (t_str : list Z) (ext : option (list Z)) (flags : Z)
    (extmask : bool) (st : pending) : option pending :=
  if add then
    '(old_ext, old_flag) ← p_slots st !! p_num st;
    let slot := match ext with Some b => (Text b, flags) | None => (old_ext, old_flag) end in
    let new := MkEntry t_str (fst slot) (snd slot) who now (new_flags t_str ext extmask) true in
    match p_list st with
    | [] => Some (MkPending [new] (<[p_num st := slot]> (p_slots st)) (S (p_num st)) true)
    | l =>
        '(l, freed) ← add_scan (p_clean st) t_str l new false;
        let slot := if (freed : bool) && bool_decide (ext <> None) then (Freed, snd slot) else slot in
        Some (MkPending l (<[p_num st := slot]> (p_slots st)) (if freed then p_num st else S (p_num st)) true)
    end
  else
    match p_list st with
    | [] => Some (MkPending [] (p_slots st) (p_num st) true)
    | l => Some (MkPending (del_scan (p_clean st) t_str l) (p_slots st) (p_num st) true)
    end.

(** ** mode_parse_ban(), mode_parse_except() *)
Record sender := MkSender { MyUser : bool; IsServer : bool; who : list Z }.

(** The part of struct ParseState that is about this kind of mode, and what was
    sent. *)
Record parse_state := MkPS {
  ps_args : list (list Z); ps_max_args : Z; ps_listed : bool; ps_notoper : bool; ps_pending : pending;
  ps_sent : list reply }.

Definition send_notoper (st : parse_state) : parse_state :=
  if ps_notoper st then st
  else MkPS (ps_args st) (ps_max_args st) (ps_listed st) true (ps_pending st) (ps_sent st ++ [NotOper]).

Definition visible (s : sender) (r : list reply) : list reply :=
  List.filter (fun r => match r with NeedMoreParams => MyUser s | _ => true end) r.

Definition mode_parse_list (s : sender) (notoper notmember ishalfop add : bool) (now : Z) (st : parse_state)
  : option parse_state :=
  match ps_args st with
  | [] =>
      if MyUser s && negb (ps_listed st)
      then Some (MkPS [] (ps_max_args st) true (ps_notoper st) (ps_pending st) (ps_sent st ++ [SendList]))
      else Some st
  | arg :: args =>
      if MyUser s && (ps_max_args st <=? 0) then Some st
      else
        let st := MkPS args (ps_max_args st - 1) (ps_listed st) (ps_notoper st) (ps_pending st) (ps_sent st) in
        if (notoper || notmember) && negb (k_halfop k && ishalfop) then Some (send_notoper st)
        else
          m ← parse_mask (IsServer s) arg;
          match m with
          | Rejected r =>
              Some (MkPS args (ps_max_args st) (ps_listed st) (ps_notoper st) (ps_pending st) (ps_sent st ++ visible s r))
          | Mask t_str ext flags extmask =>
              p ← apply_mask add (who s) now t_str ext flags extmask (ps_pending st);
              Some (MkPS args (ps_max_args st) (ps_listed st) (ps_notoper st) p (ps_sent st))
          end
  end.

(** ** mode_process_bans(), mode_process_excepts() *)
Record process := MkProc {
  c_list : list entry;                       (* the list of the channel so far *)
  c_prev : bool;                             (* is prevban set? *)
  c_cut : bool;                              (* was the list broken off before the entry? *)
  c_count : Z; c_len : Z;
  c_changes : list (bool * list Z);          (* what modebuf_mode_string() got *)
  c_full : list reply; c_changed : bool }.

(** Is the extension's text one that may be freed or used? *)
Definition usable (p : ext_ptr) : bool := match p with Freed => false | _ => true end.

Variable set_ bounce : bool.
(** Does the limit apply (a local user without opmode), and the limits. *)
Variable limited : bool.
Variable max_len max_count : Z.

Definition process_entry (c : process) (ban : entry) : option process :=
  let n := Z.of_nat (length (e_str ban)) in
  let count := c_count c + 1 in
  let len := c_len c + n in
  let cut_list := if c_prev c then c_list c else [] in
  if has MODE_DEL ban && has MODE_ADD ban then
    if usable (e_ext ban)
    then Some (MkProc cut_list (c_prev c) true (count - 1) (len - n) (c_changes c) (c_full c) (c_changed c)) else None
  else if has MODE_DEL ban then
    let changes := c_changes c ++ [(false, e_str ban)] in
    if set_ then Some (MkProc (c_list c) (c_prev c) (c_cut c) (count - 1) (len - n) changes (c_full c) true)
    else Some (MkProc (if c_cut c then c_list c else c_list c ++ [set_eflags (e_flags ban .& (k_base k .| k_ipmask k)) ban])
                 true (c_cut c) count len changes (c_full c) (c_changed c))
  else if has MODE_ADD ban then
    if has (k_overlapped k) ban && negb bounce then
      if usable (e_ext ban)
      then Some (MkProc cut_list true true (count - 1) (len - n) (c_changes c) (c_full c) (c_changed c)) else None
    else if set_ && limited && ((max_len <? len) || (max_count <? count)) then
      if usable (e_ext ban)
      then Some (MkProc cut_list true true (count - 1) (len - n) (c_changes c) (c_full c ++ [ListFull (e_str ban)]) (c_changed c))
      else None
    else
      let changes := c_changes c ++ [(true, e_str ban)] in
      if set_ then
        if usable (e_ext ban) then
          let newban := MkEntry (e_str ban) (e_ext ban) (e_extflag ban) (e_who ban) (e_when ban)
                          (e_flags ban .& (k_base k .| k_ipmask k)) false in
          Some (MkProc (newban :: cut_list) true true count len changes (c_full c) true)
        else None
      else Some (MkProc cut_list true true count len changes (c_full c) (c_changed c))
  else Some (MkProc (if c_cut c then c_list c else c_list c ++ [ban]) true (c_cut c) count len (c_changes c) (c_full c) (c_changed c)).

Fixpoint process_loop (c : process) (l : list entry) : option process :=
  match l with
  | [] => Some c
  | ban :: l => c ← process_entry c ban; process_loop c l
  end.

Definition mode_process_list (l : list entry) : option process :=
  process_loop (MkProc [] false false 0 0 [] [] false) l.

End modes.

(** ** The two copies of the code *)
Definition mode_parse_ban := mode_parse_list bans.
Definition mode_parse_except := mode_parse_list excepts.
Definition mode_process_bans := mode_process_list bans.
Definition mode_process_excepts := mode_process_list excepts.

(** ** Marks *)

(** The bits of a kind are apart from each other. *)
Class KindLaws (k : kind) : Prop := {
  overlapped_bit : has_bits (k_overlapped k) (k_overlapped k) = true;
  overlapped_apart m : m = MODE_ADD \/ m = MODE_DEL -> has_bits (k_overlapped k) m = false /\ has_bits m (k_overlapped k) = false;
  base_apart m : m = MODE_DEL \/ m = k_overlapped k ->
    has_bits (k_base k) m = false /\ has_bits (k_ipmask k) m = false /\ has_bits CHFL_BAN_IPMASK m = false }.

#[export] Instance bans_laws : KindLaws bans.
Proof. split; [done|intros m [-> | ->]; done..]. Qed.
#[export] Instance excepts_laws : KindLaws excepts.
Proof. split; [done|intros m [-> | ->]; done..]. Qed.

Lemma has_lor x y m : has_bits (x .| y) m = has_bits x m || has_bits y m.
Proof.
  unfold has_bits. rewrite Z.land_lor_distr_l, <- negb_andb. f_equal. apply Bool.eq_iff_eq_true.
  by rewrite andb_true_iff, !Z.eqb_eq, Z.lor_eq_0_iff.
Qed.

Lemma has_ldiff x c m : has_bits (Z.ldiff x c) m = has_bits x (Z.ldiff m c).
Proof.
  unfold has_bits. do 2 f_equal. apply Z.bits_inj'. intros i Hi.
  rewrite !Z.land_spec, !Z.ldiff_spec. by destruct (Z.testbit x i), (Z.testbit m i), (Z.testbit c i).
Qed.

Section lists.
Context (k : kind) `{Hlaws : !KindLaws k}.

Local Abbreviation DEL := (has MODE_DEL).
Local Abbreviation ADD := (has MODE_ADD).
Local Abbreviation OV := (has (k_overlapped k)).

Lemma marks_del e :
  DEL (mark MODE_DEL e) = true /\ ADD (mark MODE_DEL e) = ADD e /\ OV (mark MODE_DEL e) = OV e.
Proof.
  unfold has, mark. cbn [e_flags set_eflags]. rewrite !has_lor.
  rewrite (proj2 (overlapped_apart MODE_DEL ltac:(auto))). change (has_bits MODE_DEL MODE_ADD) with false. rewrite !orb_false_r. split_and!; [apply orb_true_r|done..].
Qed.

Lemma marks_ov e :
  DEL (mark (k_overlapped k) e) = DEL e /\ ADD (mark (k_overlapped k) e) = ADD e /\ OV (mark (k_overlapped k) e) = true.
Proof.
  unfold has, mark. cbn [e_flags set_eflags]. rewrite !has_lor, overlapped_bit.
  rewrite (proj1 (overlapped_apart MODE_DEL ltac:(auto))), (proj1 (overlapped_apart MODE_ADD ltac:(auto))), !orb_false_r.
  split_and!; [done..|apply orb_true_r].
Qed.

Lemma marks_cleaned e : DEL (cleaned k e) = false /\ ADD (cleaned k e) = false /\ OV (cleaned k e) = false.
Proof.
  assert (H : forall m, Z.ldiff m (MODE_ADD .| MODE_DEL .| k_overlapped k) = 0 -> has m (cleaned k e) = false).
  { intros m Hm. unfold has, cleaned, unmark. cbn [e_flags set_eflags]. rewrite has_ldiff, Hm. unfold has_bits. by rewrite Z.land_0_r. }
  split_and!; apply H; rewrite <- Z.ldiff_ldiff_l; [rewrite <- Z.ldiff_ldiff_l|rewrite <- Z.ldiff_ldiff_l|].
  - by rewrite Z.ldiff_0_l.
  - by rewrite !Z.ldiff_0_l.
  - apply Z.bits_inj'. intros i Hi. rewrite !Z.ldiff_spec, Z.bits_0. destruct (Z.testbit (k_overlapped k) i); [|done]. by rewrite andb_false_r.
Qed.

(** A new entry that is to be added. *)
Lemma marks_new t who now ext extflag o em :
  let e := MkEntry t ext extflag who now (new_flags k t o em) true in DEL e = false /\ ADD e = true /\ OV e = false.
Proof.
  intros e. subst e. unfold has, new_flags. cbn [e_flags]. rewrite !has_lor.
  destruct (base_apart MODE_DEL ltac:(auto)) as (H1 & H2 & H3), (base_apart (k_overlapped k) ltac:(auto)) as (H4 & H5 & H6).
  rewrite H1, H4, (proj2 (overlapped_apart MODE_ADD ltac:(auto))). change (has_bits MODE_ADD MODE_DEL) with false.
  change (has_bits MODE_ADD MODE_ADD) with true. rewrite orb_true_r.
  split_and!; repeat case_match; rewrite ?H2, ?H3, ?H5, ?H6; done.
Qed.

(** ** Scanning the list *)
Definition mask_ok (t : list Z) : Prop := plain_mask t /\ specific t.
Definition keys (l : list entry) : list (list Z) := (fun e => lower (e_str e)) <$> l.
Lemma keys_cons e l : keys (e :: l) = lower (e_str e) :: keys l.
Proof. done. Qed.

(** The list as the first change of a command sees it. *)
Definition view (clean : bool) (l : list entry) : list entry := if clean then l else map (cleaned k) l.

(** What adding a mask may do to an entry. *)
Definition touch (t : list Z) (e e' : entry) : Prop :=
  e' = e \/ (e' = mark MODE_DEL e /\ ~ order (e_str e) t /\ order t (e_str e)).

(** The same entry up to the mark of overlapping. *)
Definition like (e e' : entry) : Prop :=
  e_str e' = e_str e /\ e_ext e' = e_ext e /\ e_slot e' = e_slot e /\ DEL e' = DEL e /\ ADD e' = ADD e.

Definition overlapped_by (t : list Z) (l : list entry) : Prop :=
  exists e, e ∈ l /\ DEL e = false /\ order (e_str e) t.

Lemma mask_ok_nonempty t : mask_ok t -> t <> [].
Proof. intros [_ (x & Hx & _)] ->. by apply elem_of_nil in Hx. Qed.

Lemma mask_ok_cstring t : mask_ok t -> cstring t.
Proof. intros [H _]. by apply plain_cstring. Qed.

Lemma same_spec e t : mask_ok (e_str e) -> mask_ok t -> same e t = true <-> lower (e_str e) = lower t.
Proof.
  intros He Ht. unfold same. rewrite Z.eqb_eq. by apply strcmp_0; apply mask_ok_cstring.
Qed.

Lemma e_str_cleaned e : e_str (cleaned k e) = e_str e.
Proof. done. Qed.

Lemma keys_view clean l : keys (view clean l) = keys l.
Proof. destruct clean; [done|]. unfold keys, view. induction l as [|e l IH]; [done|]. cbn. by rewrite IH. Qed.

Lemma touch_props t e e' : touch t e e' ->
  e_str e' = e_str e /\ ADD e' = ADD e /\ OV e' = OV e /\ e_slot e' = e_slot e /\ e_ext e' = e_ext e.
Proof.
  intros [-> |(-> & _)]; [done|]. destruct (marks_del e) as (_ & ? & ?). done.
Qed.

Lemma touch_refl t l : Forall2 (touch t) l l.
Proof. induction l; constructor; [by left|done]. Qed.

Lemma keys_touch t l l' : Forall2 (touch t) l l' -> keys l' = keys l.
Proof.
  intros H. induction H as [|e e' l l' He _ IH]; [done|]. rewrite !keys_cons, IH.
  by rewrite (proj1 (touch_props _ _ _ He)).
Qed.

(** One entry with another mask. *)
Lemma scan_step (clean : bool) t ban rest new freed :
  mask_ok (e_str ban) -> mask_ok t -> lower (e_str ban) <> lower t ->
  let ban0 := if clean then ban else cleaned k ban in
  exists ban' new', touch t ban0 ban' /\ like new new' /\ (OV new' = true -> OV new = true \/ (DEL ban0 = false /\ order (e_str ban) t)) /\
    add_scan k clean t (ban :: rest) new freed =
      match rest with
      | [] => if ADD new' then Some ([ban'; new'], freed) else Some ([ban'], freed)
      | _ => '(rest, freed) ← add_scan k clean t rest new' freed; Some (ban' :: rest, freed)
      end.
Proof.
  intros Hb Ht Hne ban0. cbn [add_scan]. fold ban0.
  assert (Hs : e_str ban0 = e_str ban) by (by destruct clean).
  assert (same ban0 t = false) as ->.
  { apply not_true_iff_false. rewrite same_spec, Hs by (rewrite ?Hs; done). done. }
  rewrite Hs. destruct (decides_mmatches (e_str ban) t) as (wide & -> & Hw); [apply Hb|apply Ht|by apply mask_ok_nonempty|].
  destruct (decides_mmatches t (e_str ban)) as (narrow & En & Hn); [apply Ht|apply Hb|by apply mask_ok_nonempty|].
  cbn [mbind option_bind].
  exists (if (if wide then false else narrow) then mark MODE_DEL ban0 else ban0),
    (if wide && negb (DEL ban0) then mark (k_overlapped k) new else new). split_and!.
  - destruct wide; [by left|]. destruct narrow; [|by left]. right. rewrite Hs. split_and!; [done| |by apply Hn].
    intros H. by apply Hw in H.
  - case_match; [|by split_and!]. destruct (marks_ov new) as (? & ? & _). by split_and!.
  - destruct wide, (DEL ban0); cbn [andb negb]; try by left. intros _. right. split; [done|by apply Hw].
  - destruct wide; [|rewrite En]; cbn [mbind option_bind]; by destruct rest.
Qed.

Lemma like_trans a b c : like a b -> like b c -> like a c.
Proof. unfold like. intros (-> & -> & -> & -> & ->) H. done. Qed.

(** A mask that is not on the list is linked behind it. *)
Lemma add_scan_new clean t l new :
  l <> [] -> Forall (fun e => mask_ok (e_str e)) l -> mask_ok t -> lower t ∉ keys l -> ADD new = true ->
  exists l' new', add_scan k clean t l new false = Some (l' ++ [new'], false) /\ Forall2 (touch t) (view clean l) l' /\
    like new new' /\ (OV new' = true -> OV new = true \/ overlapped_by t (view clean l)).
Proof.
  intros Hne Hl Ht Hk Hadd. revert new Hadd Hne Hk. induction Hl as [|ban rest Hb Hl IH]; intros new Hadd Hne Hk; [done|].
  rewrite keys_cons in Hk. apply not_elem_of_cons in Hk as [Hk1 Hk2].
  assert (Hvc : view clean (ban :: rest) = (if clean then ban else cleaned k ban) :: view clean rest) by (by destruct clean).
  destruct (scan_step clean t ban rest new false Hb Ht ltac:(done)) as (ban' & new' & Hban & Hlike & Hov & ->).
  assert (Hadd' : ADD new' = true) by (destruct Hlike as (_ & _ & _ & _ & ->); done).
  assert (Hover : OV new' = true -> OV new = true \/ overlapped_by t (view clean (ban :: rest))).
  { intros H. destruct (Hov H) as [|[H1 H2]]; [by left|]. right. rewrite Hvc. eexists. split; [by left|]. by destruct clean. }
  rewrite Hvc in *. destruct rest as [|ban2 rest].
  - rewrite Hadd'. exists [ban'], new'. split_and!; [done| |done|done]. constructor; [done|]. by destruct clean.
  - destruct (IH new' Hadd' ltac:(done) Hk2) as (l' & new'' & -> & Hf & Hlike' & Hov'). cbn [mbind option_bind].
    exists (ban' :: l'), new''. split_and!; [done|by constructor|by eapply like_trans|].
    intros H. destruct (Hov' H) as [H1|(e & He & H1)]; [by apply Hover|]. right. exists e. split; [by right|done].
Qed.

(** After the text was freed nothing is linked any more. *)
Lemma add_scan_freed t l new freed :
  Forall (fun e => mask_ok (e_str e)) l -> mask_ok t -> lower t ∉ keys l -> ADD new = false ->
  exists l', add_scan k false t l new freed = Some (l', freed) /\ Forall2 (touch t) (view false l) l'.
Proof.
  intros Hl Ht Hk Hadd. revert new Hadd Hk. induction Hl as [|ban rest Hb Hl IH]; intros new Hadd Hk; [by exists []|].
  rewrite keys_cons in Hk. apply not_elem_of_cons in Hk as [Hk1 Hk2].
  destruct (scan_step false t ban rest new freed Hb Ht ltac:(done)) as (ban' & new' & Hban & Hlike & _ & ->).
  assert (Hadd' : ADD new' = false) by (destruct Hlike as (_ & _ & _ & _ & ->); done).
  destruct (IH new' Hadd' Hk2) as (l' & E & Hf). destruct rest as [|ban2 rest].
  - rewrite Hadd'. exists [ban']. split; [done|]. by constructor.
  - rewrite E. cbn [mbind option_bind]. exists (ban' :: l'). split; [done|]. by constructor.
Qed.

(** A mask that is on the list already. *)
Lemma add_scan_old clean t l new :
  Forall (fun e => mask_ok (e_str e)) l -> mask_ok t -> NoDup (keys l) -> lower t ∈ keys l ->
  exists l', add_scan k clean t l new false = Some (l', true) /\ Forall2 (touch t) (view clean l) l'.
Proof.
  intros Hl Ht Hd Hk. revert new. induction Hl as [|ban rest Hb Hl IH]; intros new; [by apply elem_of_nil in Hk|].
  rewrite keys_cons in Hd, Hk. inv Hd.
  assert (Hvc : view clean (ban :: rest) = (if clean then ban else cleaned k ban) :: view clean rest) by (by destruct clean).
  rewrite Hvc. destruct (decide (lower (e_str ban) = lower t)) as [Heq|Hne].
  - cbn [add_scan]. assert (Hs : e_str (if clean then ban else cleaned k ban) = e_str ban) by (by destruct clean).
    rewrite (proj2 (same_spec _ _ ltac:(by rewrite Hs) Ht) ltac:(by rewrite Hs)). destruct clean.
    + eexists. split; [done|]. constructor; [by left|apply touch_refl].
    + destruct (add_scan_freed t rest (unmark MODE_ADD new) true Hl Ht) as (l' & -> & Hf); [by rewrite <- Heq| |].
      { unfold has, unmark. cbn [e_flags set_eflags]. rewrite has_ldiff. unfold has_bits. by rewrite Z.land_0_r. }
      cbn [mbind option_bind]. eexists. split; [done|]. constructor; [by left|done].
  - apply elem_of_cons in Hk as [?|Hk]; [congruence|].
    destruct (scan_step clean t ban rest new false Hb Ht ltac:(done)) as (ban' & new' & Hban & Hlike & _ & ->).
    destruct rest as [|ban2 rest]; [by apply elem_of_nil in Hk|].
    destruct (IH H2 Hk new') as (l' & -> & Hf). cbn [mbind option_bind]. exists (ban' :: l'). split; [done|]. by constructor.
Qed.

(** Deleting marks the entry with the mask. *)
Lemma del_scan_spec clean t l :
  Forall (fun e => mask_ok (e_str e)) l -> mask_ok t -> NoDup (keys l) ->
  del_scan k clean t l = (fun e => if decide (lower (e_str e) = lower t) then mark MODE_DEL e else e) <$> view clean l.
Proof.
  intros Hl Ht Hd. induction Hl as [|ban rest Hb Hl IH]; [by destruct clean|]. rewrite keys_cons in Hd. inv Hd.
  assert (Hvc : view clean (ban :: rest) = (if clean then ban else cleaned k ban) :: view clean rest) by (by destruct clean).
  rewrite Hvc. cbn [del_scan fmap list_fmap].
  assert (Hs : e_str (if clean then ban else cleaned k ban) = e_str ban) by (by destruct clean).
  rewrite IH, Hs by done. case_decide as Heq.
  - rewrite (proj2 (same_spec _ _ ltac:(by rewrite Hs) Ht) ltac:(by rewrite Hs)). destruct clean; [|done]. f_equal.
    assert (forall e, e ∈ view true rest -> lower (e_str e) <> lower t) as Hrest.
    { intros e He E. apply H1. rewrite Heq, <- E. apply list_elem_of_fmap. by exists e. }
    clear -Hrest. cbn [view] in *. induction rest as [|e rest IH]; [done|]. cbn. rewrite decide_False by (apply Hrest; by left).
    f_equal. apply IH. intros e' He'. apply Hrest. by right.
  - assert (same (if clean then ban else cleaned k ban) t = false) as ->; [|done].
    apply not_true_iff_false. rewrite same_spec, Hs by (rewrite ?Hs; done). done.
Qed.

(** ** A sequence of changes *)

(** The list behind the entries of the channel and those of the array. *)
Record pend_ok (n : nat) (olds adds : list entry) (p : pending) : Prop := {
  po_view : view (p_clean p) (p_list p) = olds ++ adds;
  po_clean : n = 0%nat \/ p_clean p = true;
  po_olds : Forall (fun e => ADD e = false /\ e_slot e = false) olds;
  po_adds : Forall (fun e => ADD e = true /\ usable (e_ext e) = true) adds;
  po_masks : Forall (fun e => mask_ok (e_str e)) (olds ++ adds);
  po_keys : NoDup (keys (olds ++ adds));
  po_slots : p_slots p = replicate MAXPARA (Null, 0);
  po_num : (p_num p <= n)%nat }.

Definition delete_mark (t : list Z) (e : entry) : entry := if decide (lower (e_str e) = lower t) then mark MODE_DEL e else e.

(** What one change does to the two parts of the list. *)
Inductive change : bool -> list Z -> list entry -> list entry -> list entry -> list entry -> Prop :=
  | change_present t olds adds olds' adds' :
      lower t ∈ keys (olds ++ adds) -> Forall2 (touch t) olds olds' -> Forall2 (touch t) adds adds' ->
      change true t olds adds olds' adds'
  | change_new t olds adds olds' adds' new :
      lower t ∉ keys (olds ++ adds) -> Forall2 (touch t) olds olds' -> Forall2 (touch t) adds adds' ->
      e_str new = t -> DEL new = false -> (OV new = true -> overlapped_by t (olds ++ adds)) ->
      change true t olds adds olds' (adds' ++ [new])
  | change_delete t olds adds :
      change false t olds adds (delete_mark t <$> olds) (delete_mark t <$> adds).

Inductive changes : list (bool * list Z) -> list entry -> list entry -> list entry -> list entry -> Prop :=
  | changes_none olds adds : changes [] olds adds olds adds
  | changes_more add t cmds olds adds olds1 adds1 olds2 adds2 :
      changes cmds olds adds olds1 adds1 -> change add t olds1 adds1 olds2 adds2 ->
      changes (cmds ++ [(add, t)]) olds adds olds2 adds2.

Lemma keys_app l l' : keys (l ++ l') = keys l ++ keys l'.
Proof. apply fmap_app. Qed.


Lemma delete_mark_props t e : let e' := delete_mark t e in
  e_str e' = e_str e /\ ADD e' = ADD e /\ OV e' = OV e /\ e_slot e' = e_slot e /\ e_ext e' = e_ext e.
Proof.
  unfold delete_mark. case_decide; [|done]. destruct (marks_del e) as (_ & ? & ?). done.
Qed.

(** The marks leave everything else of the entries alone. *)
Definition marked (e e' : entry) : Prop :=
  e_str e' = e_str e /\ ADD e' = ADD e /\ OV e' = OV e /\ e_slot e' = e_slot e /\ e_ext e' = e_ext e.

Lemma touch_marked t l l' : Forall2 (touch t) l l' -> Forall2 marked l l'.
Proof. intros H. eapply Forall2_impl; [exact H|]. apply touch_props. Qed.

Lemma delete_marked t l : Forall2 marked l (delete_mark t <$> l).
Proof. induction l; constructor; [apply delete_mark_props|done]. Qed.

Lemma Forall_marked (P : entry -> Prop) l l' :
  (forall e e', marked e e' -> P e -> P e') -> Forall2 marked l l' -> Forall P l -> Forall P l'.
Proof.
  intros HP H. induction H as [|e e' l l' He _ IH]; [done|]. intros Hl. inv Hl. constructor; eauto.
Qed.

Lemma keys_marked l l' : Forall2 marked l l' -> keys l' = keys l.
Proof.
  intros H. induction H as [|e e' l l' (He & _) _ IH]; [done|]. by rewrite !keys_cons, IH, He.
Qed.

Lemma pend_marked n olds adds olds' adds' p : pend_ok n olds adds p -> Forall2 marked olds olds' -> Forall2 marked adds adds' ->
  pend_ok (S n) olds' adds' (MkPending (olds' ++ adds') (p_slots p) (p_num p) true).
Proof.
  intros [] Ho Ha. assert (Hoa : Forall2 marked (olds ++ adds) (olds' ++ adds')) by by apply Forall2_app.
  split; cbn; auto.
  - eapply Forall_marked; [|exact Ho|done]. intros e e' (? & -> & ? & -> & ?). done.
  - eapply Forall_marked; [|exact Ha|done]. intros e e' (? & -> & ? & ? & ->). done.
  - eapply Forall_marked; [|exact Hoa|done]. intros e e' (-> & _). done.
  - by rewrite (keys_marked _ _ Hoa).
Qed.

Lemma view_nil clean l : view clean l = [] -> l = [].
Proof. destruct clean; [done|]. by destruct l. Qed.

Lemma view_masks clean l : Forall (fun e => mask_ok (e_str e)) (view clean l) -> Forall (fun e => mask_ok (e_str e)) l.
Proof.
  destruct clean; [done|]. cbn. intros H. induction l as [|e l IH]; [done|]. cbn in H. inv H. constructor; auto.
Qed.

Lemma slots_same n (e : ext_ptr * Z) num : <[num := e]> (replicate n e) = replicate n e.
Proof.
  apply list_eq. intros i. destruct (decide (i = num)) as [->|]; [|by rewrite list_lookup_insert_ne].
  destruct (decide (num < n)%nat) as [H|H].
  - by rewrite list_lookup_insert_eq, lookup_replicate_2 by (rewrite ?length_replicate; done).
  - rewrite !lookup_ge_None_2; [done|..]; rewrite ?length_insert, length_replicate; lia.
Qed.

(** One plain mask is added or deleted. *)
Lemma apply_mask_step n add olds adds p who now t :
  pend_ok n olds adds p -> mask_ok t -> (n < MAXPARA)%nat ->
  exists p' olds' adds', apply_mask k add who now t None 0 false p = Some p' /\ pend_ok (S n) olds' adds' p' /\
    change add t olds adds olds' adds'.
Proof.
  intros Hp Ht Hn. pose proof Hp as [Hview _ _ _ Hmasks Hkeys Hslots Hnum].
  assert (Hml : Forall (fun e => mask_ok (e_str e)) (p_list p)) by (eapply view_masks; by rewrite Hview).
  assert (Hkl : keys (p_list p) = keys (olds ++ adds)) by (by rewrite <- (keys_view (p_clean p)), Hview).
  assert (Hdl : NoDup (keys (p_list p))) by by rewrite Hkl.
  unfold apply_mask. destruct add.
  - rewrite Hslots, lookup_replicate_2 by lia. cbn [mbind option_bind fst snd]. rewrite slots_same.
    set (new := MkEntry t Null 0 who now _ true). destruct (marks_new t who now Null 0 None false) as (Hd & Ha & Ho). fold new in Hd, Ha, Ho.
    destruct (p_list p) as [|e0 l0] eqn:El.
    + assert (olds ++ adds = []) as [-> ->]%app_eq_nil by (rewrite <- Hview; by destruct (p_clean p)).
      exists (MkPending [new] (replicate MAXPARA (Null, 0)) (S (p_num p)) true), [], [new]. split; [done|]. split.
      * split; cbn; auto; [by repeat (constructor; [done|])..| |lia]. apply NoDup_singleton.
      * apply (change_new t [] [] [] [] new); [by apply not_elem_of_nil|constructor..|done|done|]. by rewrite Ho.
    + rewrite <- El in *. assert (Hne : p_list p <> []) by by rewrite El. clear El.
      destruct (decide (lower t ∈ keys (p_list p))) as [Hin|Hout].
      * destruct (add_scan_old (p_clean p) t (p_list p) new Hml Ht Hdl Hin) as (l' & -> & Hf).
        cbn [mbind option_bind]. rewrite bool_decide_eq_false_2 by (by intros []). cbn [andb fst snd]. rewrite ?slots_same.
        rewrite Hview in Hf. apply Forall2_app_inv_l in Hf as (olds' & adds' & Hf1 & Hf2 & ->).
        exists (MkPending (olds' ++ adds') (replicate MAXPARA (Null, 0)) (p_num p) true), olds', adds'. split; [done|]. split.
        -- rewrite <- Hslots. apply (pend_marked n olds adds); [done|by apply (touch_marked t)..].
        -- apply change_present; [by rewrite <- Hkl|done..].
      * destruct (add_scan_new (p_clean p) t (p_list p) new Hne Hml Ht Hout Ha) as (l' & new' & -> & Hf & (Hs & He & Hsl & Hd' & Ha') & Hov).
        cbn [mbind option_bind andb]. rewrite ?slots_same. rewrite Hview in Hf, Hov. apply Forall2_app_inv_l in Hf as (olds' & adds' & Hf1 & Hf2 & ->).
        exists (MkPending ((olds' ++ adds') ++ [new']) (replicate MAXPARA (Null, 0)) (S (p_num p)) true), olds', (adds' ++ [new']).
        split; [done|]. pose proof (pend_marked _ _ _ _ _ _ Hp (touch_marked _ _ _ Hf1) (touch_marked _ _ _ Hf2)) as [H1 H2 H3 H4 H5 H6 H7 H8].
        cbn in H1, H8. split.
        -- split; cbn; auto; [by rewrite <- app_assoc| | | |lia].
           ++ apply Forall_app. split; [done|]. constructor; [|done]. by rewrite Ha', He.
           ++ rewrite app_assoc. apply Forall_app. split; [done|]. constructor; [|done]. by rewrite Hs.
           ++ rewrite app_assoc, keys_app. apply NoDup_app. split_and!; [done| |apply NoDup_singleton].
              intros x Hx [->|[]%elem_of_nil]%elem_of_cons. rewrite Hs in Hx. apply Hout. rewrite Hkl.
              rewrite <- (keys_marked (olds ++ adds) (olds' ++ adds')); [done|]. by apply Forall2_app; apply (touch_marked t).
        -- apply change_new; [by rewrite <- Hkl|done|done|by rewrite Hs|by rewrite Hd'|].
           intros H. destruct (Hov H) as [H'|]; [|done]. congruence.
  - exists (MkPending ((delete_mark t <$> olds) ++ (delete_mark t <$> adds)) (p_slots p) (p_num p) true), (delete_mark t <$> olds), (delete_mark t <$> adds).
    split_and!; [| |constructor].
    + destruct (p_list p) as [|e0 l0] eqn:El.
      * assert (olds ++ adds = []) as [-> ->]%app_eq_nil by (rewrite <- Hview; by destruct (p_clean p)). done.
      * rewrite <- El in *. rewrite (del_scan_spec _ _ _ Hml Ht Hdl), Hview, fmap_app. done.
    + eapply pend_marked; [exact Hp|apply delete_marked..].
Qed.

(** ** What becomes effective *)
Definition alive (e : entry) : Prop := DEL e = false /\ (ADD e = true -> OV e = false).
Definition restored (e : entry) : entry :=
  MkEntry (e_str e) (e_ext e) (e_extflag e) (e_who e) (e_when e) (e_flags e .& (k_base k .| k_ipmask k)) false.

#[local] Instance alive_dec e : Decision (alive e).
Proof. unfold alive. apply _. Defined.

Definition kept (olds : list entry) : list entry := filter (fun e => DEL e = false) olds.
Definition removed (olds : list entry) : list entry := filter (fun e => DEL e = true) olds.
Definition added (adds : list entry) : list entry := filter alive adds.

(** The number and the length of the masks of a list. *)
Definition size (l : list entry) : Z := Z.of_nat (length l).
Definition total_len (l : list entry) : Z := Z.of_nat (sum_list_with (fun e => length (e_str e)) l).

Section process.
Variable limited : bool.
Variable max_len max_count : Z.
Local Abbreviation run := (process_loop k true false limited max_len max_count).

(** There is no room for one more mask. *)
Definition no_room (count len : Z) (e : entry) : bool :=
  limited && ((max_len <? len + Z.of_nat (length (e_str e))) || (max_count <? count + 1)).

(** The new masks for which there is room, and the others. *)
Fixpoint let_in (count len : Z) (l : list entry) : list entry * list entry :=
  match l with
  | [] => ([], [])
  | e :: l =>
      if no_room count len e then let '(a, r) := let_in count len l in (a, e :: r)
      else let '(a, r) := let_in (count + 1) (len + Z.of_nat (length (e_str e))) l in (e :: a, r)
  end.

Definition admitted (olds adds : list entry) : list entry := (let_in (size (kept olds)) (total_len (kept olds)) (added adds)).1.
Definition refused (olds adds : list entry) : list entry := (let_in (size (kept olds)) (total_len (kept olds)) (added adds)).2.

Lemma admit_spec count len l :
  let '(a, r) := let_in count len l in
  a `sublist_of` l /\ (forall e, e ∈ l <-> e ∈ a \/ e ∈ r) /\ (limited = false -> r = []) /\ (r = [] -> a = l) /\
  (limited = true -> a <> [] -> count + size a <= max_count /\ len + total_len a <= max_len).
Proof.
  revert count len. induction l as [|e l IH]; intros count len; cbn [let_in].
  { split_and!; try done. intros x. rewrite elem_of_nil. tauto. }
  destruct (no_room count len e) eqn:Ef.
  - specialize (IH count len). destruct (let_in count len l) as [a r]. destruct IH as (H1 & H2 & H3 & H4 & H5).
    split_and!; [by apply sublist_cons| | |done|done].
    + intros x. rewrite !elem_of_cons, H2. tauto.
    + unfold no_room in Ef. intros ->. done.
  - specialize (IH (count + 1) (len + Z.of_nat (length (e_str e)))).
    destruct (let_in (count + 1) _ l) as [a r]. destruct IH as (H1 & H2 & H3 & H4 & H5). split_and!; [by constructor| |done| |].
    + intros x. rewrite !elem_of_cons, H2. tauto.
    + intros Hr. by rewrite (H4 Hr).
    + intros Hlim _. unfold no_room in Ef. rewrite Hlim in Ef. cbn [andb] in Ef. apply orb_false_iff in Ef as [Ef1 Ef2]. bprop.
      unfold size, total_len in *. cbn [length sum_list_with]. destruct a as [|e2 a]; [cbn; lia|].
      specialize (H5 Hlim ltac:(done)). lia.
Qed.

Lemma process_olds olds c :
  Forall (fun e => ADD e = false /\ e_slot e = false) olds -> c_cut c = false -> (c_prev c = false -> c_list c = []) ->
  exists c', run c olds = Some c' /\ c_cut c' = false /\ (c_prev c' = false -> c_list c' = []) /\
    c_list c' = c_list c ++ kept olds /\ c_changes c' = c_changes c ++ ((false,.) ∘ e_str <$> removed olds) /\
    c_full c' = c_full c /\ c_count c' = c_count c + size (kept olds) /\ c_len c' = c_len c + total_len (kept olds).
Proof.
  intros H. revert c. induction H as [|e olds [Ha _] _ IH]; intros c Hc Hp; cbn [process_loop].
  - exists c. unfold kept, removed, size, total_len. rewrite !filter_nil, fmap_nil, !app_nil_r. cbn. split_and!; done || lia.
  - unfold process_entry. rewrite Ha, andb_false_r. unfold kept, removed. rewrite !filter_cons.
    destruct (DEL e) eqn:Hd; cbn [mbind option_bind].
    + destruct (IH (MkProc (c_list c) (c_prev c) (c_cut c) (c_count c + 1 - 1)
        (c_len c + Z.of_nat (length (e_str e)) - Z.of_nat (length (e_str e))) (c_changes c ++ [(false, e_str e)]) (c_full c) true)
        Hc Hp) as (c' & -> & H1 & H2 & H3 & H4 & H5 & H6 & H7).
      exists c'. rewrite decide_False, decide_True by done. cbn [c_count c_len] in H6, H7. split_and!; [done..| |done| |].
      * rewrite H4. cbn. by rewrite <- app_assoc.
      * rewrite H6. unfold kept. lia.
      * rewrite H7. unfold kept. lia.
    + rewrite Hc.
      edestruct (IH (MkProc (c_list c ++ [e]) true false (c_count c + 1) (c_len c + Z.of_nat (length (e_str e))) (c_changes c) (c_full c) (c_changed c)))
        as (c' & -> & H1 & H2 & H3 & H4 & H5 & H6 & H7); [done|done|].
      exists c'. rewrite decide_True, decide_False by done. cbn [c_count c_len] in H6, H7. split_and!; [done..| |done|done| |].
      * rewrite H3. cbn. by rewrite <- app_assoc.
      * rewrite H6. unfold size, kept. cbn [length]. lia.
      * rewrite H7. unfold total_len, kept. cbn [sum_list_with]. lia.
Qed.

Lemma process_adds adds c :
  Forall (fun e => ADD e = true /\ usable (e_ext e) = true) adds -> (c_prev c = false -> c_list c = []) ->
  let '(a, r) := let_in (c_count c) (c_len c) (added adds) in
  exists c', run c adds = Some c' /\
    c_list c' = reverse (restored <$> a) ++ c_list c /\
    c_changes c' = c_changes c ++ ((true,.) ∘ e_str <$> a) /\
    c_full c' = c_full c ++ (ListFull ∘ e_str <$> r).
Proof.
  intros H. revert c. induction H as [|e adds [Ha Hu] _ IH]; intros c Hp; cbn [process_loop].
  - exists c. cbn. by rewrite !app_nil_r.
  - unfold process_entry. rewrite Ha, Hu, andb_true_r. unfold added. rewrite filter_cons.
    assert (Hcut : (if c_prev c then c_list c else []) = c_list c) by (destruct (c_prev c); [done|by rewrite Hp]). rewrite Hcut.
    cbn [negb andb]. rewrite !andb_true_r. destruct (DEL e) eqn:Hd; cbn [mbind option_bind].
    + rewrite decide_False by (intros [H' _]; congruence). fold (added adds).
      specialize (IH (MkProc (c_list c) (c_prev c) true (c_count c + 1 - 1)
        (c_len c + Z.of_nat (length (e_str e)) - Z.of_nat (length (e_str e))) (c_changes c) (c_full c) (c_changed c)) Hp).
      cbn [c_count c_len c_list c_changes c_full] in IH. rewrite !Z.add_simpl_r in IH |- *. exact IH.
    + destruct (OV e) eqn:Ho; cbn [mbind option_bind].
      * rewrite decide_False by (intros [_ H']; specialize (H' Ha); congruence). fold (added adds).
        specialize (IH (MkProc (c_list c) true true (c_count c + 1 - 1)
          (c_len c + Z.of_nat (length (e_str e)) - Z.of_nat (length (e_str e))) (c_changes c) (c_full c) (c_changed c)) ltac:(done)).
        cbn [c_count c_len c_list c_changes c_full] in IH. rewrite !Z.add_simpl_r in IH |- *. exact IH.
      * rewrite decide_True by done. fold (added adds). cbn [let_in]. fold (no_room (c_count c) (c_len c) e).
        destruct (no_room (c_count c) (c_len c) e); cbn [mbind option_bind].
        -- specialize (IH (MkProc (c_list c) true true (c_count c + 1 - 1)
             (c_len c + Z.of_nat (length (e_str e)) - Z.of_nat (length (e_str e))) (c_changes c)
             (c_full c ++ [ListFull (e_str e)]) (c_changed c)) ltac:(done)).
           cbn [c_count c_len c_list c_changes c_full] in IH. rewrite !Z.add_simpl_r in IH.
           rewrite !Z.add_simpl_r. destruct (let_in _ _ _) as [a r]. destruct IH as (c' & -> & H1 & H2 & H3). exists c'. split_and!; [done..|].
           rewrite H3. cbn. by rewrite <- app_assoc.
        -- specialize (IH (MkProc (restored e :: c_list c) true true (c_count c + 1)
             (c_len c + Z.of_nat (length (e_str e))) (c_changes c ++ [(true, e_str e)]) (c_full c) true) ltac:(done)).
           cbn [c_count c_len c_list c_changes c_full] in IH.
           destruct (let_in _ _ _) as [a r]. destruct IH as (c' & E & H1 & H2 & H3). exists c'. split_and!; [exact E| | |done].
           ++ rewrite H1. cbn [fmap list_fmap]. by rewrite reverse_cons, <- app_assoc.
           ++ rewrite H2. cbn. by rewrite <- app_assoc.
Qed.

(** The end of the command: what is left of the list, the new entries there is room
    for in front of it, and what is announced. *)
Lemma process_all olds adds l :
  l = olds ++ adds -> Forall (fun e => ADD e = false /\ e_slot e = false) olds ->
  Forall (fun e => ADD e = true /\ usable (e_ext e) = true) adds ->
  exists c, mode_process_list k true false limited max_len max_count l = Some c /\
    c_list c = reverse (restored <$> admitted olds adds) ++ kept olds /\
    c_changes c = ((false,.) ∘ e_str <$> removed olds) ++ ((true,.) ∘ e_str <$> admitted olds adds) /\
    c_full c = ListFull ∘ e_str <$> refused olds adds.
Proof.
  intros -> Ho Ha. unfold mode_process_list.
  assert (Happ : forall l1 l2 c, run c (l1 ++ l2) = c ← run c l1; run c l2).
  { induction l1 as [|e l1 IH]; intros l2 c; [done|]. cbn [app process_loop]. destruct (process_entry _ _ _ _ _ _ c e); cbn; auto. }
  destruct (process_olds olds (MkProc [] false false 0 0 [] [] false) Ho) as (c1 & E1 & _ & Hp & Hl1 & Hc1 & Hf1 & Hn1 & Hs1); [done..|].
  cbn [c_count c_len c_full c_list c_changes] in *.
  pose proof (process_adds adds c1 Ha Hp) as H2. rewrite Hn1, Hs1, !Z.add_0_l in H2. unfold admitted, refused.
  destruct (let_in _ _ _) as [a r]. destruct H2 as (c2 & E2 & Hl2 & Hc2 & Hf2).
  exists c2. rewrite Happ, E1. cbn [mbind option_bind fst snd]. split; [done|]. by rewrite Hl2, Hc2, Hf2, Hl1, Hc1, Hf1.
Qed.
End process.
End lists.
