(* ===== verification/BanCommand.v ===== *)
(** * ircd/channel.c: MODE commands that change bans and exceptions

    [mode_command] is what a MODE command does to one of the lists: its
    arguments are parsed one after the other ([mode_parse_list]) and the marked
    list is processed at the end ([mode_process_list]).  The theorems hold for
    bans and for exceptions: they use the laws of a kind ([KindLaws]) only. *)
From S2P Require Import Prelude Chattr NumText Match MaskOrder IrcdString NameTable Hash Channel MsgTab Bans BanModes.
Open Scope ircd_scope.

(** ** The arguments *)
Lemma plain_cons x m : is_char x -> x <> 92 -> plain_mask m -> plain_mask (x :: m).
Proof. intros. by constructor. Qed.

Lemma plain_app a b : plain_mask (a ++ b) <-> plain_mask a /\ plain_mask b.
Proof. apply Forall_app. Qed.

Lemma plain_star : plain_mask star.
Proof. by_decide. Qed.

Lemma keep_end_plain n s : plain_mask s -> plain_mask (keep_end n s).
Proof. intros Hs. unfold keep_end. case_match; [|done]. apply plain_cons; [unfold is_char; lia|done|by apply Forall_drop]. Qed.

Lemma pretty_mask_plain m : plain_mask m -> plain_mask (pretty_mask m) /\ 33 ∈ pretty_mask m.
Proof.
  intros Hm. destruct (pretty_mask_parts m) as (n & u & h & _ & _ & _ & -> & H). pose proof plain_star as Hst.
  assert (plain_mask n /\ plain_mask u /\ plain_mask h) as (Hn & Hu & Hh).
  { destruct (first_special m) as [[[a c] r]|] eqn:E.
    - apply first_special_Some in E as (-> & _). apply plain_app in Hm as [Ha Hm]. inv Hm.
      assert (Hsplit : forall x y, last_split 64 r = Some (x, y) -> plain_mask x /\ plain_mask y).
      { intros x y [-> _]%last_split_Some. apply plain_app in H3 as [Hx Hy]. by inv Hy. }
      destruct (c =? 33), (last_split 64 r) as [[x y]|]; destruct_and!; subst; try destruct (Hsplit _ _ eq_refl); auto.
      split_and!; [done| |done]. apply plain_app. split; [done|]. by apply plain_cons.
    - case_match; destruct_and!; subst; auto. }
  split.
  - unfold full. apply plain_app. split; [by apply Forall_take|]. apply plain_cons; [unfold is_char; lia|done|].
    apply plain_app. split; [by apply keep_end_plain|]. apply plain_cons; [unfold is_char; lia|done|]. by apply keep_end_plain.
  - unfold full. apply elem_of_app. right. by left.
Qed.

Lemma collapse_tail_keeps x st m : x <> 42 -> plain_mask m -> x ∈ m -> x ∈ collapse_tail st m.
Proof.
  intros Hx Hm. revert st. induction Hm as [|y m [Hc Hy] Hm IH]; intros st Hin; [by apply elem_of_nil in Hin|].
  rewrite collapse_tail_plain by done. apply elem_of_cons in Hin as [->|Hin].
  - rewrite (proj2 (Z.eqb_neq _ _) Hx). case_match; [right|]; by left.
  - destruct (y =? 42); [auto|]. case_match; [do 2 right|right]; auto.
Qed.

Lemma collapse_keeps x m : x <> 42 -> plain_mask m -> x ∈ m -> x ∈ collapse m.
Proof.
  intros Hx Hm0. induction Hm0 as [|y m [Hc Hy] Hm IH]; intros Hin; [by apply elem_of_nil in Hin|].
  rewrite collapse_plain by done. case_match; [apply collapse_tail_keeps; [done|by constructor|done]|].
  apply elem_of_cons in Hin as [->|Hin]; [by left|]. right. auto.
Qed.

(** What is meant by an argument that is not an extension. *)
Definition mask_of (arg : list Z) : list Z := collapse (pretty_mask arg).

Lemma mask_of_ok arg : plain_mask arg -> mask_ok (mask_of arg).
Proof.
  intros Ha. destruct (pretty_mask_plain arg Ha) as [Hp H33]. split; [by apply collapse_chars|].
  exists 33. split; [by apply collapse_keeps|done].
Qed.

Definition plain_arg (arg : list Z) : Prop :=
  plain_mask arg /\ 32 ∉ arg /\ arg <> [] /\ hd0 arg <> 58 /\ hd0 arg <> 126.

Section commands.
Context (k : kind) `{Hlaws : !KindLaws k} (k_feature : Z -> bool) (FEAT_EXTBANS FEAT_ALLOW_TEXT_HOST : bool).
(** Whether the command is an OPMODE; the longest and the largest list local users
    may make, FEAT_AVBANLEN times FEAT_MAXBANS and FEAT_MAXBANS or their twins. *)
Context (opmode : bool) (max_len max_count : Z).

Lemma parse_plain srv arg : plain_arg arg ->
  parse_mask k k_feature FEAT_EXTBANS FEAT_ALLOW_TEXT_HOST srv arg = Some (Mask (mask_of arg) None 0 false).
Proof.
  intros (Hp & H32 & Hne & H58 & H126). unfold parse_mask.
  assert (split_at 32 arg = None) as ->.
  { destruct (split_at 32 arg) as [[a b]|] eqn:E; [|done]. apply split_at_Some in E as [-> _]. exfalso. apply H32.
    apply elem_of_app. right. by left. }
  assert (hd0 arg <> 0) as H0.
  { destruct Hp as [|c r [Hc _] _]; [done|]. cbn. unfold is_char in Hc. lia. }
  rewrite (proj2 (Z.eqb_neq _ _) H0), (proj2 (Z.eqb_neq _ _) H58). unfold is_extension.
  by rewrite (proj2 (Z.eqb_neq _ _) H126).
Qed.

(** The changes of one kind in a MODE command, by a sender who may make them. *)
Fixpoint mode_parse_all (s : sender) (now : Z) (dirs : list bool) (st : parse_state) : option parse_state :=
  match dirs with
  | [] => Some st
  | add :: dirs =>
      st ← mode_parse_list k k_feature FEAT_EXTBANS FEAT_ALLOW_TEXT_HOST s false false false add now st;
      mode_parse_all s now dirs st
  end.

(** The command on the list [l]: its changes, and then the end of it. *)
Definition mode_command (s : sender) (now : Z) (dirs : list bool) (args : list (list Z)) (l : list entry) : option process :=
  st ← mode_parse_all s now dirs (MkPS args (Z.of_nat MAXMODEPARAMS) false false (no_pending l) []);
  mode_process_list k true false (MyUser s && negb opmode) max_len max_count (p_list (ps_pending st)).

(** The arguments that count: the first six of a local user, with their directions. *)
Definition heard (s : sender) (args : list (list Z)) : list (list Z) := if MyUser s then take MAXMODEPARAMS args else args.

Definition commands_of (s : sender) (dirs : list bool) (args : list (list Z)) : list (bool * list Z) :=
  zip dirs (mask_of <$> heard s args).

Lemma heard_in s args arg : arg ∈ heard s args -> arg ∈ args.
Proof. unfold heard. case_match; [|done]. intros (i & Hi & _)%elem_of_take. by eapply list_elem_of_lookup_2. Qed.

Local Abbreviation DEL := (has MODE_DEL).
Local Abbreviation OV := (has (k_overlapped k)).

(** One argument of a sender who may make the change. *)
Lemma mode_parse_arg s add now st arg args t ext flags em :
  ps_args st = arg :: args -> MyUser s && (ps_max_args st <=? 0) = false ->
  parse_mask k k_feature FEAT_EXTBANS FEAT_ALLOW_TEXT_HOST (IsServer s) arg = Some (Mask t ext flags em) ->
  mode_parse_list k k_feature FEAT_EXTBANS FEAT_ALLOW_TEXT_HOST s false false false add now st =
  p ← apply_mask k add (who s) now t ext flags em (ps_pending st);
  Some (MkPS args (ps_max_args st - 1) (ps_listed st) (ps_notoper st) p (ps_sent st)).
Proof. intros Ha Hm Hp. unfold mode_parse_list. by rewrite Ha, Hm, Hp. Qed.

(** The changes behind the sixth argument of a local user. *)
Lemma mode_parse_all_stop s now dirs st :
  MyUser s && (ps_max_args st <=? 0) = true -> ps_args st <> [] -> mode_parse_all s now dirs st = Some st.
Proof.
  intros Hm Ha. induction dirs as [|add dirs IH]; [done|]. cbn [mode_parse_all]. unfold mode_parse_list at 1.
  destruct (ps_args st) eqn:E; [done|]. by rewrite Hm.
Qed.

Lemma mode_parse_all_ok s now dirs args m st pre n olds0 adds0 olds adds :
  pend_ok k n olds adds (ps_pending st) -> changes k pre olds0 adds0 olds adds ->
  ps_args st = args -> length dirs = length args -> Forall plain_arg args -> (n + length args <= MAXPARA)%nat ->
  (MyUser s = true -> ps_max_args st = Z.of_nat m) ->
  let now_heard := if MyUser s then take m args else args in
  exists st' olds' adds', mode_parse_all s now dirs st = Some st' /\
    pend_ok k (n + length now_heard) olds' adds' (ps_pending st') /\
    changes k (pre ++ zip dirs (mask_of <$> now_heard)) olds0 adds0 olds' adds'.
Proof.
  revert args m st pre n olds adds. induction dirs as [|add dirs IH]; intros args m st pre n olds adds Hp Hc Ha Hl Hargs Hn Hmax now_heard.
  - destruct args; [|done]. exists st, olds, adds. unfold now_heard. rewrite take_nil. case_match; cbn; by rewrite Nat.add_0_r, app_nil_r.
  - destruct args as [|arg args]; [done|]. cbn in Hl, Hn. inv Hargs.
    destruct (MyUser s && (ps_max_args st <=? 0)) eqn:Em.
    { rewrite mode_parse_all_stop by (done || by rewrite Ha). apply andb_true_iff in Em as [Eu Em]. specialize (Hmax Eu).
      exists st, olds, adds. unfold now_heard. rewrite Eu. bprop. assert (m = 0)%nat as -> by lia. cbn. by rewrite Nat.add_0_r, app_nil_r. }
    cbn [mode_parse_all]. rewrite (mode_parse_arg s add now st arg args (mask_of arg) None 0 false) by (done || by apply parse_plain).
    destruct (apply_mask_step k n add olds adds _ (who s) now (mask_of arg) Hp) as (p' & olds' & adds' & E & Hp' & Hch); [|lia|].
    { apply mask_of_ok. apply H1. }
    rewrite E. cbn [mbind option_bind].
    destruct (IH args (m - 1)%nat (MkPS args (ps_max_args st - 1) (ps_listed st) (ps_notoper st) p' (ps_sent st))
      (pre ++ [(add, mask_of arg)]) (S n) olds' adds') as (st' & olds2 & adds2 & -> & Hp2 & Hc2);
      [done|by eapply changes_more|done|lia|done|lia| |].
    { cbn. intros Eu. rewrite Eu in Em. cbn [andb] in Em. specialize (Hmax Eu). bprop. lia. }
    assert (Eh : now_heard = arg :: (if MyUser s then take (m - 1) args else args)).
    { unfold now_heard. destruct (MyUser s); [|done]. specialize (Hmax eq_refl). cbn [andb] in Em. bprop.
      destruct m as [|m]; [lia|]. cbn. by rewrite Nat.sub_0_r. }
    rewrite Eh. exists st', olds2, adds2. cbn [length]. rewrite <- Nat.add_succ_comm. split_and!; [done..|].
    rewrite <- app_assoc in Hc2. done.
Qed.

(** What the two parts of the list are made of. *)
Lemma changes_texts cmds olds adds olds' adds' : changes k cmds olds adds olds' adds' ->
  Forall2 (marked k) olds olds' /\ (forall e, e ∈ adds' -> (exists e0, e0 ∈ adds /\ e_str e0 = e_str e) \/
    (true, e_str e) ∈ cmds /\ lower (e_str e) ∉ keys olds).
Proof.
  induction 1 as [olds adds|add t cmds olds adds olds1 adds1 olds2 adds2 _ [IH1 IH2] H].
  - split; [|eauto]. clear. induction olds; constructor; [done|done].
  - assert (Htr : forall l l1 l2, Forall2 (marked k) l l1 -> Forall2 (marked k) l1 l2 -> Forall2 (marked k) l l2).
    { intros l l1 l2 Ha. revert l2. induction Ha as [|x y l l1 (E1 & E2 & E3 & E4 & E5) _ IH]; intros l2 Hb; inv Hb; constructor; [|auto].
      match goal with H : marked k y _ |- _ => destruct H as (F1 & F2 & F3 & F4 & F5) end. split_and!; congruence. }
    assert (Hold : forall l l' e, Forall2 (marked k) l l' -> e ∈ l' -> exists e0, e0 ∈ l /\ e_str e0 = e_str e).
    { intros l l' e Hm (i & Hi)%list_elem_of_lookup. eapply Forall2_lookup_r in Hm as (e0 & He0 & Hm); [|exact Hi].
      exists e0. split; [by eapply list_elem_of_lookup_2|]. by destruct Hm as [-> _]. }
    assert (Hnext : forall e, e ∈ adds1 -> (exists e0, e0 ∈ adds /\ e_str e0 = e_str e) \/ (true, e_str e) ∈ cmds ++ [(add, t)] /\ lower (e_str e) ∉ keys olds).
    { intros e He. destruct (IH2 e He) as [|[Hx Hy]]; [by left|]. right. split; [|done]. apply elem_of_app. by left. }
    inv H.
    + split; [by eapply Htr; [|apply (touch_marked k t)]|]. intros e He.
      destruct (Hold adds1 adds2 e) as (e0 & He0 & <-); [by apply (touch_marked k t)|done|]. by apply Hnext.
    + split; [by eapply Htr; [|apply (touch_marked k (e_str new))]|]. intros e [He|[->|[]%elem_of_nil]%elem_of_cons]%elem_of_app.
      * destruct (Hold adds1 adds' e) as (e0 & He0 & <-); [by apply (touch_marked k (e_str new))|done|]. by apply Hnext.
      * right. split; [apply elem_of_app; right; by left|]. rewrite <- (keys_marked k _ _ IH1). intros Hin.
        match goal with H : _ ∉ keys _ |- _ => apply H end. rewrite keys_app. apply elem_of_app. by left.
    + split; [by eapply Htr; [|apply delete_marked]|]. intros e He.
      destruct (Hold adds1 (delete_mark t <$> adds1) e) as (e0 & He0 & <-); [by apply delete_marked|done|]. by apply Hnext.
Qed.

(** Why an entry of the channel is marked, and that deletion marks it. *)
Definition cause (cmds : list (bool * list Z)) (m : list Z) : Prop :=
  exists (add : bool) u, (add, u) ∈ cmds /\ (if add then order u m /\ ~ order m u else lower u = lower m).

Lemma changes_marks cmds olds adds olds' adds' : changes k cmds olds adds olds' adds' ->
  Forall (fun e => DEL e = false) olds ->
  Forall (fun e => (DEL e = true -> cause cmds (e_str e)) /\ forall u, (false, u) ∈ cmds -> lower u = lower (e_str e) -> DEL e = true) olds'.
Proof.
  intros H Hcl. induction H as [olds adds|add t cmds olds adds olds1 adds1 olds2 adds2 _ IH H].
  - eapply Forall_impl; [exact Hcl|]. cbn. intros e He. split; [congruence|]. intros u []%elem_of_nil.
  - specialize (IH Hcl).
    assert (Hmono : forall m, cause cmds m -> cause (cmds ++ [(add, t)]) m).
    { intros m (a & u & Hin & Hc). exists a, u. split; [apply elem_of_app; by left|done]. }
    assert (Htouch : add = true -> forall l l', Forall2 (touch t) l l' ->
      Forall (fun e => (DEL e = true -> cause cmds (e_str e)) /\ forall u, (false, u) ∈ cmds -> lower u = lower (e_str e) -> DEL e = true) l ->
      Forall (fun e => (DEL e = true -> cause (cmds ++ [(add, t)]) (e_str e)) /\
        forall u, (false, u) ∈ cmds ++ [(add, t)] -> lower u = lower (e_str e) -> DEL e = true) l').
    { intros -> l l' Hf. induction Hf as [|e e' l l' He _ IHf]; [done|]. intros Hl. inv Hl. constructor; [|auto].
      destruct H2 as [Ha Hb].
      assert (Hu : forall u, (false, u) ∈ cmds ++ [(true, t)] -> (false, u) ∈ cmds).
      { intros u [?|[[=]|[]%elem_of_nil]%elem_of_cons]%elem_of_app. done. }
      destruct He as [-> |(-> & Hn & Ho)]; [split; eauto|]. destruct (marks_del k e) as (Hd & _). rewrite Hd. split; [|done].
      intros _. exists true, t. split; [apply elem_of_app; right; by left|]. done. }
    inv H; [by eapply Htouch|by eapply Htouch|].
    rewrite Forall_fmap. eapply Forall_impl; [exact IH|]. cbn. intros e [Ha Hb].
    rewrite (proj1 (delete_mark_props k t e)). unfold delete_mark. case_decide as Ht.
    + destruct (marks_del k e) as (Hd & _). rewrite Hd. split; [|done]. intros _. exists false, t.
      split; [apply elem_of_app; right; by left|done].
    + split; [eauto|]. intros u [Hu|[[= <-]|[]%elem_of_nil]%elem_of_cons]%elem_of_app Hl; [eauto|congruence].
Qed.

(** With additions only, every mask stays under one that is not going away. *)
Definition covered (v : list entry) (m : list Z) : Prop := exists x, x ∈ v /\ alive k x /\ order (e_str x) m.

Lemma touch_keeps t v u x : Forall2 (touch t) v u -> x ∈ v -> order (e_str x) t -> x ∈ u.
Proof.
  intros Hf (i & Hi)%list_elem_of_lookup Ho. eapply Forall2_lookup_l in Hf as (y & Hy & Ht); [|exact Hi].
  destruct Ht as [-> |(_ & Hn & _)]; [by eapply list_elem_of_lookup_2|done].
Qed.

Lemma touch_covers t v u v' m :
  Forall (fun e => mask_ok (e_str e)) v' -> mask_ok t -> Forall2 (touch t) v u -> u ⊆ v' -> covered v' t -> covered v m -> covered v' m.
Proof.
  intros Hok Ht Hf Hu (y & Hy & Hya & Hyt) (x & Hx & Hxa & Hxm). rewrite Forall_forall in Hok.
  apply list_elem_of_lookup in Hx as (i & Hi). eapply Forall2_lookup_l in Hf as (x' & Hx' & Htx); [|exact Hi].
  destruct Htx as [-> |(-> & _ & Ho)].
  - exists x. split; [|done]. apply Hu. by eapply list_elem_of_lookup_2.
  - exists y. split_and!; [done..|]. apply (order_trans _ t); [apply Hok; done|done|].
    apply (order_trans _ (e_str x)); [apply Ht|done..].
Qed.

Lemma changes_cover cmds olds adds olds' adds' : changes k cmds olds adds olds' adds' ->
  Forall (fun c => c.1 = true /\ mask_ok c.2) cmds -> Forall (fun e => mask_ok (e_str e)) (olds ++ adds) -> Forall (alive k) (olds ++ adds) ->
  Forall (fun e => mask_ok (e_str e)) (olds' ++ adds') /\
  (forall e, e ∈ olds ++ adds -> covered (olds' ++ adds') (e_str e)) /\
  (forall e, e ∈ olds' ++ adds' -> covered (olds' ++ adds') (e_str e)) /\
  (forall u, (true, u) ∈ cmds -> covered (olds' ++ adds') u).
Proof.
  intros H Hcmds Hok Hal. induction H as [olds adds|add t cmds olds adds olds1 adds1 olds2 adds2 _ IH H].
  - assert (forall e, e ∈ olds ++ adds -> covered (olds ++ adds) (e_str e)).
    { intros e He. exists e. rewrite Forall_forall in Hal. split_and!; [done|auto|apply order_refl]. }
    split_and!; [done..|]. by intros u ?%elem_of_nil.
  - apply Forall_app in Hcmds as [Hcmds Ht]. inv Ht. destruct H2 as [Htrue Ht]. cbn in Htrue, Ht. subst add.
    destruct (IH Hcmds Hok Hal) as (Hok1 & C1 & C2 & C3). clear IH.
    assert (Hgo : forall us, Forall2 (touch t) (olds1 ++ adds1) us -> us ⊆ olds2 ++ adds2 ->
      (forall e, e ∈ olds2 ++ adds2 -> e ∈ us \/ e_str e = t) -> covered (olds2 ++ adds2) t ->
      Forall (fun e => mask_ok (e_str e)) (olds2 ++ adds2) /\
      (forall e, e ∈ olds ++ adds -> covered (olds2 ++ adds2) (e_str e)) /\
      (forall e, e ∈ olds2 ++ adds2 -> covered (olds2 ++ adds2) (e_str e)) /\
      (forall u, (true, u) ∈ cmds ++ [(true, t)] -> covered (olds2 ++ adds2) u)).
    { intros us Hf Hsub Hback Hcov.
      assert (Hstr : forall e, e ∈ us -> exists e0, e0 ∈ olds1 ++ adds1 /\ e_str e = e_str e0).
      { intros e (i & Hi)%list_elem_of_lookup. eapply Forall2_lookup_r in Hf as (e0 & He0 & Hte); [|exact Hi].
        exists e0. split; [by eapply list_elem_of_lookup_2|]. by apply (touch_props k) in Hte as [-> _]. }
      assert (Hok2 : Forall (fun e => mask_ok (e_str e)) (olds2 ++ adds2)).
      { rewrite Forall_forall in *. intros e He. destruct (Hback e He) as [Hu| ->]; [|done].
        destruct (Hstr e Hu) as (e0 & He0 & ->). auto. }
      assert (Hmv : forall m, covered (olds1 ++ adds1) m -> covered (olds2 ++ adds2) m).
      { intros m. by apply (touch_covers t _ us). }
      split_and!; [done|auto| |].
      - intros e He. destruct (Hback e He) as [Hu| ->]; [|done]. destruct (Hstr e Hu) as (e0 & He0 & ->). auto.
      - intros u [Hu|[[= ->]|[]%elem_of_nil]%elem_of_cons]%elem_of_app; auto. }
    assert (Hstay : forall us m, Forall2 (touch t) (olds1 ++ adds1) us -> us ⊆ olds2 ++ adds2 -> covered (olds1 ++ adds1) m ->
      mask_ok m -> order m t -> covered (olds2 ++ adds2) t).
    { intros us m Hf Hsub (y & Hy & Hya & Hym) Hm Hmt. rewrite Forall_forall in Hok1.
      assert (order (e_str y) t) by (apply (order_trans _ m); [apply Hok1; done|done..]).
      exists y. split_and!; [|done..]. apply Hsub. by eapply touch_keeps. }
    inv H.
    + assert (Hf : Forall2 (touch t) (olds1 ++ adds1) (olds2 ++ adds2)) by by apply Forall2_app.
      apply (Hgo (olds2 ++ adds2)); [done|done|by left|].
      match goal with H : lower t ∈ keys _ |- _ => apply list_elem_of_fmap in H as (b & Hb & Hbin) end.
      apply (Hstay (olds2 ++ adds2) (e_str b)); [done|done|by apply C2|rewrite Forall_forall in Hok1; by apply Hok1|].
      by apply order_same.
    + rename adds' into adds2'. assert (Hf : Forall2 (touch (e_str new)) (olds1 ++ adds1) (olds2 ++ adds2')) by by apply Forall2_app.
      assert (Hsub : olds2 ++ adds2' ⊆ olds2 ++ adds2' ++ [new]) by (rewrite app_assoc; apply list_subseteq_app_l; done).
      apply (Hgo (olds2 ++ adds2')); [done|done| |].
      * intros e. rewrite app_assoc. intros [He|[->|[]%elem_of_nil]%elem_of_cons]%elem_of_app; auto.
      * destruct (OV new) eqn:Ho.
        -- match goal with H : true = true -> overlapped_by _ _ |- _ => destruct (H eq_refl) as (e0 & He0 & _ & Ho0) end.
           apply (Hstay (olds2 ++ adds2') (e_str e0)); [done|done|by apply C2|rewrite Forall_forall in Hok1; by apply Hok1|done].
        -- exists new. split_and!; [rewrite app_assoc; apply elem_of_app; right; by left|by split|apply order_refl].
Qed.

(** ** The command *)
Definition texts (l : list entry) : list (list Z) := e_str <$> l.

(** The list of a channel between commands: no entry of the array, no two
    masks that are equal but for case. *)
Record ban_list_ok (l : list entry) : Prop := {
  bl_slots : Forall (fun e => e_slot e = false) l;
  bl_masks : Forall (fun e => mask_ok (e_str e)) l;
  bl_keys : NoDup (keys l) }.

Lemma texts_keys l : keys l = lower <$> texts l.
Proof. unfold keys, texts. by rewrite <- list_fmap_compose. Qed.

Lemma pend_start l : ban_list_ok l -> pend_ok k 0 (map (cleaned k) l) [] (no_pending l).
Proof.
  intros [Hs Hm Hk]. assert (Hkv : keys (map (cleaned k) l) = keys l) by apply (keys_view k false).
  split; cbn; rewrite ?app_nil_r; auto; try lia.
  - rewrite Forall_forall in *. intros e (e0 & -> & He)%list_elem_of_fmap. destruct (marks_cleaned k e0) as (_ & ? & _). split; [done|]. exact (Hs e0 He).
  - rewrite Forall_forall in *. intros e (e0 & -> & He)%list_elem_of_fmap. exact (Hm e0 He).
  - by rewrite Hkv.
Qed.

Lemma texts_marked l l' : Forall2 (marked k) l l' -> texts l' = texts l.
Proof. intros H. unfold texts. induction H as [|e e' l l' (He & _) _ IH]; [done|]. cbn. by rewrite IH, He. Qed.

Lemma elem_of_texts l t : t ∈ texts l <-> exists e, e ∈ l /\ e_str e = t.
Proof. unfold texts. rewrite list_elem_of_fmap. naive_solver. Qed.

Abbreviation allowed s := (admitted k (MyUser s && negb opmode) max_len max_count).
Abbreviation denied s := (refused k (MyUser s && negb opmode) max_len max_count).

(** The whole command in terms of its changes. *)
Lemma mode_command_changes s now dirs args l :
  ban_list_ok l -> Forall plain_arg args -> args <> [] -> length dirs = length args -> (length args <= MAXPARA)%nat ->
  exists olds adds c, changes k (commands_of s dirs args) (map (cleaned k) l) [] olds adds /\
    NoDup (keys (olds ++ adds)) /\ Forall (fun e => e_slot e = false) olds /\ Forall2 (marked k) (map (cleaned k) l) olds /\
    mode_command s now dirs args l = Some c /\
    c_list c = reverse (restored k <$> allowed s olds adds) ++ kept olds /\
    c_changes c = ((false,.) ∘ e_str <$> removed olds) ++ ((true,.) ∘ e_str <$> allowed s olds adds) /\
    c_full c = ListFull ∘ e_str <$> denied s olds adds.
Proof.
  intros Hl Ha Hne Hd Hn. unfold mode_command.
  destruct (mode_parse_all_ok s now dirs args MAXMODEPARAMS (MkPS args (Z.of_nat MAXMODEPARAMS) false false (no_pending l) []) []
    0 (map (cleaned k) l) [] (map (cleaned k) l) []) as (st & olds & adds & -> & Hp & Hc); [by apply pend_start|constructor|done..|].
  cbn [mbind option_bind]. destruct Hp as [Hv Hcl Ho Had _ Hk _ _].
  assert (p_clean (ps_pending st) = true) as Hcl'. { destruct Hcl as [E|]; [|done]. by destruct args, (MyUser s). }
  rewrite Hcl' in Hv. cbn [view] in Hv.
  destruct (process_all k (MyUser s && negb opmode) max_len max_count olds adds _ Hv Ho Had) as (c & Ec & H1 & H2 & H3).
  exists olds, adds, c. split_and!; [done|done| |by eapply changes_texts|done..].
  eapply Forall_impl; [exact Ho|]. by intros ? [].
Qed.

Lemma keys_inj l x y : NoDup (keys l) -> x ∈ l -> y ∈ l -> e_str x = e_str y -> x = y.
Proof.
  intros Hd (i & Hi)%list_elem_of_lookup (j & Hj)%list_elem_of_lookup E. assert (i = j) as ->; [|congruence].
  eapply (NoDup_lookup (keys l)); [done|unfold keys; by rewrite list_lookup_fmap, Hi|].
  unfold keys. rewrite list_lookup_fmap, Hj. cbn. by rewrite E.
Qed.

(** The announcements are the difference between the lists. *)
Lemma announced olds adds adm (L : list entry) (C : list (bool * list Z)) :
  NoDup (keys (olds ++ adds)) -> adm `sublist_of` added k adds ->
  L = reverse (restored k <$> adm) ++ kept olds ->
  C = ((false,.) ∘ e_str <$> removed olds) ++ ((true,.) ∘ e_str <$> adm) ->
  NoDup (keys L) /\ (forall t, (true, t) ∈ C <-> exists e, e ∈ adm /\ e_str e = t) /\
  (forall t, (false, t) ∈ C <-> exists e, e ∈ olds /\ DEL e = true /\ e_str e = t) /\
  (forall t, t ∈ texts L <-> (t ∈ texts olds /\ (false, t) ∉ C) \/ (true, t) ∈ C).
Proof.
  intros Hnd Hsubl -> ->.
  assert (Ht : forall t, (true, t) ∈ ((false,.) ∘ e_str <$> removed olds) ++ ((true,.) ∘ e_str <$> adm) <->
    exists e, e ∈ adm /\ e_str e = t).
  { intros t. unfold removed. rewrite elem_of_app, !list_elem_of_fmap. naive_solver. }
  assert (Hf : forall t, (false, t) ∈ ((false,.) ∘ e_str <$> removed olds) ++ ((true,.) ∘ e_str <$> adm) <->
    exists e, e ∈ olds /\ DEL e = true /\ e_str e = t).
  { intros t. unfold removed. rewrite elem_of_app, !list_elem_of_fmap. setoid_rewrite list_elem_of_filter. naive_solver. }
  assert (Hka : keys adm `sublist_of` keys (added k adds)) by by apply fmap_sublist.
  rewrite keys_app in Hnd. apply NoDup_app in Hnd as (Hno & Hdis & Hna). split_and!; [|done|done|].
  - assert (Hsub : forall (P : entry -> Prop) `{forall e, Decision (P e)} l, keys (filter P l) `sublist_of` keys l).
    { intros P HP l. induction l as [|e l IH]; [done|]. rewrite filter_cons. case_decide; [by constructor|]. by apply sublist_cons. }
    rewrite keys_app. apply NoDup_app. split_and!.
    + rewrite texts_keys. unfold texts. rewrite !fmap_reverse, <- !list_fmap_compose. rewrite reverse_Permutation.
      apply (sublist_NoDup _ (keys adds)); [done|]. etransitivity; [exact Hka|]. apply (Hsub (alive k)).
    + intros x Hx Hx'. rewrite texts_keys in Hx. unfold texts in Hx. rewrite !fmap_reverse, elem_of_reverse, <- !list_fmap_compose in Hx.
      apply (Hdis x).
      * eapply elem_of_sublist; [exact Hx'|]. apply (Hsub (fun e => DEL e = false)).
      * eapply elem_of_sublist; [exact Hx|]. etransitivity; [exact Hka|]. apply (Hsub (alive k)).
    + apply (sublist_NoDup _ (keys olds)); [done|]. apply (Hsub (fun e => DEL e = false)).
  - intros t. rewrite Hf, Ht. unfold texts at 1. rewrite fmap_app, fmap_reverse, elem_of_app, elem_of_reverse, <- list_fmap_compose.
    rewrite !list_elem_of_fmap. unfold kept. setoid_rewrite list_elem_of_filter. rewrite elem_of_texts. split.
    + intros [(e & -> & Ha)|(e & -> & Hd & He)]; [right; eauto|left]. split; [eauto|]. intros (e' & He' & Hd' & E).
      assert (e' = e) as -> by (by apply (keys_inj olds)). congruence.
    + intros [[(e & He & <-) Hn]|(e & He & <-)]; [right|left; eauto]. exists e. split_and!; [done| |done].
      destruct (DEL e) eqn:Hd; [|done]. exfalso. apply Hn. eauto.
Qed.

(** C11: a command of up to MAXPARA plain masks (without backslashes and blanks, no
    extensions) on a list of bans or exceptions whose masks are plain and differ
    by more than case, by somebody who may change it, comes to its end with such a
    list, and what it announces is exactly the difference to the list before: only
    masks of the command that were not on the list are announced as added, only
    masks that the command deletes, or that an added mask lies strictly above, as
    removed.  A mask that was on the list and is deleted is gone, also when the
    same command adds it again.  Of the command of a local user the first six
    masks count; unless it is an OPMODE, a mask of his that would make the list
    longer than its limits is refused instead, and nobody else's is. *)
Theorem mode_command_announced s now dirs args l :
  ban_list_ok l -> Forall plain_arg args -> args <> [] -> length dirs = length args -> (length args <= MAXPARA)%nat ->
  exists c, mode_command s now dirs args l = Some c /\ ban_list_ok (c_list c) /\
    (forall t, t ∈ texts (c_list c) <-> (t ∈ texts l /\ (false, t) ∉ c_changes c) \/ (true, t) ∈ c_changes c) /\
    (forall t, (true, t) ∈ c_changes c -> (true, t) ∈ commands_of s dirs args /\ lower t ∉ keys l) /\
    (forall t, (false, t) ∈ c_changes c -> t ∈ texts l /\ cause (commands_of s dirs args) t) /\
    (forall t, (false, t) ∈ commands_of s dirs args -> lower t ∈ keys l -> lower t ∉ keys (c_list c)) /\
    (forall r, r ∈ c_full c -> exists t, r = ListFull t /\ (true, t) ∈ commands_of s dirs args /\ lower t ∉ keys l) /\
    (if MyUser s && negb opmode
     then (exists t, (true, t) ∈ c_changes c) -> size (c_list c) <= max_count /\ total_len (c_list c) <= max_len
     else c_full c = []).
Proof.
  intros Hl Ha Hne Hd Hn.
  destruct (mode_command_changes s now dirs args l Hl Ha Hne Hd Hn) as (olds & adds & c & Hch & Hnd & Hslot & Hmk & -> & Hcl & Hcc & Hcf).
  exists c. split; [done|].
  pose proof (admit_spec (MyUser s && negb opmode) max_len max_count (size (kept olds)) (total_len (kept olds)) (added k adds)) as Hadm.
  unfold admitted, refused in Hcl, Hcc, Hcf. destruct (let_in _ _ _ _ _ _) as [adm ref]. cbn [fst snd] in Hcl, Hcc, Hcf.
  destruct Hadm as (Hsubl & Hboth & Hnone & _ & Hroom).
  destruct (announced _ _ adm _ _ Hnd Hsubl Hcl Hcc) as (Hkeys & Ht & Hf & Htx).
  assert (Hin_adds : forall e, e ∈ adm \/ e ∈ ref -> e ∈ adds).
  { intros e He. apply Hboth in He. by apply list_elem_of_filter in He as [_ He]. }
  assert (Hkc : keys (map (cleaned k) l) = keys l) by apply (keys_view k false).
  assert (Htc : texts (map (cleaned k) l) = texts l). { unfold texts. clear. induction l as [|e l IH]; [done|]. cbn. by rewrite IH. }
  assert (Hto : texts olds = texts l) by by rewrite (texts_marked _ _ Hmk).
  pose proof (changes_texts _ _ _ _ _ Hch) as [_ Hadd]. rewrite Hkc in Hadd.
  assert (Hmarks := changes_marks _ _ _ _ _ Hch).
  assert (Hclean : Forall (fun e => DEL e = false) (map (cleaned k) l)).
  { rewrite Forall_forall. intros e (e0 & -> & _)%list_elem_of_fmap. apply (marks_cleaned k e0). }
  specialize (Hmarks Hclean). rewrite Forall_forall in Hmarks.
  assert (Hadd' : forall e, e ∈ adds -> (true, e_str e) ∈ commands_of s dirs args /\ lower (e_str e) ∉ keys l).
  { intros e He. destruct (Hadd e He) as [(e0 & []%elem_of_nil & _)|]; done. }
  assert (Hin : forall t, t ∈ texts l -> exists e, e ∈ olds /\ e_str e = t) by (intros t; by rewrite <- Hto, elem_of_texts).
  split_and!; [| | | | | |].
  - destruct Hl as [_ Hm _]. split; [| |done].
    + rewrite Hcl. apply Forall_app. split.
      * apply Forall_forall. intros e. rewrite elem_of_reverse, list_elem_of_fmap. by intros (e0 & -> & _).
      * apply Forall_forall. unfold kept. intros e [_ He]%list_elem_of_filter. rewrite Forall_forall in Hslot. auto.
    + apply Forall_forall. intros e He. assert (Hte : e_str e ∈ texts (c_list c)) by (apply elem_of_texts; eauto).
      apply Htx in Hte as [[Hte _]|(e0 & He0 & <-)%Ht].
      * rewrite Hto, elem_of_texts in Hte. destruct Hte as (e0 & He0 & <-). rewrite Forall_forall in Hm. auto.
      * destruct (Hadd' e0 ltac:(auto)) as [Hc _]. unfold commands_of in Hc. apply elem_of_zip_r in Hc.
        apply list_elem_of_fmap in Hc as (arg & -> & Harg). rewrite Forall_forall in Ha. apply mask_of_ok, Ha. by eapply heard_in.
  - intros t. by rewrite Htx, Hto.
  - intros t (e & He & <-)%Ht. auto.
  - intros t (e & He & Hde & <-)%Hf. split; [rewrite <- Hto; apply elem_of_texts; eauto|]. by apply Hmarks.
  - intros t Hc Hk Hk'. rewrite texts_keys in Hk, Hk'. apply list_elem_of_fmap in Hk as (t1 & E1 & H1), Hk' as (t2 & E2 & H2).
    destruct (Hin t1 H1) as (e & He & <-). assert (DEL e = true) by (eapply Hmarks; eauto).
    apply Htx in H2 as [[H2 Hno]|(e2 & He2 & <-)%Ht].
    + rewrite elem_of_texts in H2. destruct H2 as (e2 & He2 & <-). apply Hno, Hf. exists e2. split_and!; [done| |done].
      eapply Hmarks; [done|exact Hc|done].
    + destruct (Hadd' e2 ltac:(auto)) as [_ Hnk]. apply Hnk. rewrite <- E2, E1, texts_keys. by apply list_elem_of_fmap_2.
  - rewrite Hcf. intros r (e & -> & He)%list_elem_of_fmap. exists (e_str e). split; [done|]. auto.
  - destruct (MyUser s && negb opmode); [|rewrite Hcf; by rewrite Hnone]. intros (t & (e & He & _)%Ht).
    destruct (Hroom eq_refl) as [H1 H2]; [by intros ->; apply elem_of_nil in He|]. rewrite Hcl. clear -H1 H2.
    unfold size, total_len in *. rewrite length_app, length_reverse, length_fmap, sum_list_with_app, sum_list_with_reverse.
    assert (sum_list_with (fun e => length (e_str e)) (restored k <$> adm) = sum_list_with (fun e => length (e_str e)) adm) as ->.
    { clear. induction adm as [|e adm IH]; [done|]. cbn. by rewrite IH. }
    lia.
Qed.

(** C20: a command that only adds up to MAXPARA plain masks, by somebody who may
    change the list, leaves a list that matches the names the old list and the
    added masks match, no more and no fewer, although the masks that lie below
    others are dropped.  For a local user that is said of his first six masks,
    and, unless it is an OPMODE, when none of them is refused because the list is
    full. *)
Theorem mode_additions_cover s now args l :
  ban_list_ok l -> Forall plain_arg args -> args <> [] -> (length args <= MAXPARA)%nat ->
  exists c, mode_command s now (replicate (length args) true) args l = Some c /\
    (MyUser s && negb opmode = false -> c_full c = []) /\
    (c_full c = [] ->
     forall name, (exists m, m ∈ texts (c_list c) /\ glob m name) <->
       (exists m, m ∈ texts l /\ glob m name) \/ (exists arg, arg ∈ heard s args /\ glob (mask_of arg) name)).
Proof.
  intros Hl Ha Hne Hn.
  destruct (mode_command_changes s now (replicate (length args) true) args l Hl Ha Hne ltac:(by rewrite length_replicate) Hn)
    as (olds & adds & c & Hch & Hnd & Hslot & Hmk & -> & Hcl & Hcc & Hcf).
  exists c. split; [done|].
  pose proof (admit_spec (MyUser s && negb opmode) max_len max_count (size (kept olds)) (total_len (kept olds)) (added k adds)) as Hadm.
  unfold admitted, refused in Hcl, Hcc, Hcf. destruct (let_in _ _ _ _ _ _) as [adm ref]. cbn [fst snd] in Hcl, Hcc, Hcf.
  destruct Hadm as (Hsubl & _ & Hnone & Hall & _). split; [intros E; rewrite Hcf; by rewrite Hnone|]. intros Efull.
  rewrite Efull in Hcf. symmetry in Hcf. apply fmap_nil_inv in Hcf. rewrite (Hall Hcf) in Hcl, Hcc. clear Hsubl.
  destruct (announced _ _ (added k adds) _ _ Hnd ltac:(done) Hcl Hcc) as (_ & Ht0 & Hf & Htx).
  assert (Ht : forall t, (true, t) ∈ c_changes c <-> exists e, e ∈ adds /\ alive k e /\ e_str e = t).
  { intros t. rewrite Ht0. unfold added. setoid_rewrite list_elem_of_filter. naive_solver. }
  clear Ht0.
  assert (Hkc : keys (map (cleaned k) l) = keys l) by apply (keys_view k false).
  assert (Htc : texts (map (cleaned k) l) = texts l). { unfold texts. clear. induction l as [|e l IH]; [done|]. cbn. by rewrite IH. }
  assert (Hto : texts olds = texts l) by by rewrite (texts_marked _ _ Hmk).
  assert (Hcmd : forall b u, (b, u) ∈ commands_of s (replicate (length args) true) args <-> b = true /\ exists arg, arg ∈ heard s args /\ u = mask_of arg).
  { intros b u. unfold commands_of. assert (length (heard s args) <= length args)%nat as Hle by (unfold heard; case_match; [rewrite length_take; lia|done]).
    revert Hle. generalize (heard s args) as hs, (length args) as n. clear. intros hs. induction hs as [|arg hs IH]; intros n Hle; cbn.
    { rewrite zip_with_nil_r. set_solver. }
    destruct n as [|n]; [cbn in Hle; lia|]. cbn. rewrite elem_of_cons, IH by (cbn in Hle; lia). set_solver. }
  destruct (changes_cover _ _ _ _ _ Hch) as (_ & C1 & C2 & C3).
  { apply Forall_forall. intros [b u] (-> & arg & Harg & ->)%Hcmd. split; [done|]. rewrite Forall_forall in Ha. apply mask_of_ok, Ha. by eapply heard_in. }
  { rewrite app_nil_r, Forall_forall. intros e (e0 & -> & He)%list_elem_of_fmap. destruct Hl as [_ Hm _]. rewrite Forall_forall in Hm. exact (Hm e0 He). }
  { rewrite app_nil_r, Forall_forall. intros e (e0 & -> & _)%list_elem_of_fmap. destruct (marks_cleaned k e0) as (Hd0 & Ha0 & _).
    split; [done|]. intros Hb. congruence. }
  assert (Hcov : forall m name, covered (olds ++ adds) m -> glob m name -> exists m', m' ∈ texts (c_list c) /\ glob m' name).
  { intros m name (x & [Hx|Hx]%elem_of_app & Hal & Ho) Hg; (exists (e_str x); split; [apply Htx|by apply (order_covers _ m)]).
    - left. split; [apply elem_of_texts; eauto|]. intros (e' & He' & Hd' & E)%Hf. destruct Hal as [Hal _].
      rewrite keys_app in Hnd. apply NoDup_app in Hnd as (Hno & _). assert (e' = x) as -> by (by apply (keys_inj olds)). congruence.
    - right. apply Ht. eauto. }
  intros name. split.
  - intros (m & [[Hm _]|Hm]%Htx & Hg); [left; exists m; by rewrite <- Hto|right]. apply Ht in Hm as (e & He & _ & <-).
    pose proof (changes_texts _ _ _ _ _ Hch) as [_ Hadd]. destruct (Hadd e He) as [(e0 & []%elem_of_nil & _)|[Hc _]].
    apply Hcmd in Hc as (_ & arg & Harg & E). exists arg. by rewrite <- E.
  - intros [(m & Hm & Hg)|(arg & Harg & Hg)].
    + rewrite <- Htc, elem_of_texts in Hm. destruct Hm as (e & He & <-). eapply Hcov; [|exact Hg]. apply C1. by rewrite app_nil_r.
    + eapply Hcov; [|exact Hg]. apply C3, Hcmd. eauto.
Qed.

(** *** Extensions *)
Lemma ext_recognised letter text :
  is_char letter -> letter <> 33 -> plain_mask text -> text <> [] -> is_extension (126 :: letter :: 58 :: text) = Some true.
Proof.
  intros Hl Hne Ht Hnil. unfold is_extension, rd. destruct Ht as [|c r [Hc _] _]; [done|].
  rewrite !decide_True by (cbn; lia). unfold ch. cbn. unfold is_char in *.
  rewrite (proj2 (Z.eqb_neq letter 0)) by lia. cbn. by rewrite (proj2 (Z.eqb_neq c 0)) by lia.
Qed.

Lemma parse_ext srv letter text :
  FEAT_EXTBANS = true -> is_char letter -> letter <> 33 -> letter <> 32 -> plain_mask text -> text <> [] -> 32 ∉ text ->
  (length text <= 77)%nat ->
  let arg := 126 :: letter :: 58 :: text in
  parse_mask k k_feature FEAT_EXTBANS FEAT_ALLOW_TEXT_HOST srv arg =
  ext_arg k k_feature FEAT_ALLOW_TEXT_HOST (S (length arg)) letter 0 arg text.
Proof.
  intros Hfeat Hl Hne Hsp Ht Hnil H32 Hlen arg. unfold parse_mask.
  assert (split_at 32 arg = None) as ->.
  { destruct (split_at 32 arg) as [[a b]|] eqn:E; [|done]. apply split_at_Some in E as [E _]. exfalso. apply H32.
    assert (32 ∈ arg) as Hin by (rewrite E; apply elem_of_app; right; by left). unfold arg in Hin.
    rewrite !elem_of_cons in Hin. naive_solver. }
  subst arg. change (hd0 (126 :: letter :: 58 :: text)) with 126. cbn [Z.eqb Pos.eqb orb].
  rewrite ext_recognised by done. cbn [mbind option_bind]. rewrite Hfeat. cbn [andb orb].
  rewrite take_ge by (cbn; lia). unfold ch at 1. cbn [nth]. rewrite (proj2 (Z.eqb_neq letter 33)) by done. done.
Qed.

(** The mask of a quiet ban or exception on a nick is completed to
    nick!*@* in the copy of the argument, which has no room for it: the text is
    written past the end of the allocation. *)
Theorem mode_parse_ban_overflow nick :
  FEAT_EXTBANS = true -> k_feature 113 = true -> existsb (Z.eqb 113) (k_letter k) = true ->
  plain_mask nick -> nick <> [] -> Forall (fun c => c ∉ [32; 33; 42; 46; 64]) nick -> (length nick <= NICKLEN)%nat ->
  (forall srv, parse_mask k k_feature FEAT_EXTBANS FEAT_ALLOW_TEXT_HOST srv (lit "~q:" ++ nick) = None) /\
  forall s now add dirs args l, mode_command s now (add :: dirs) ((lit "~q:" ++ nick) :: args) l = None.
Proof.
  intros Hfeat Hq Hletter Hp Hne Hc Hlen.
  assert (Hgo : forall srv, parse_mask k k_feature FEAT_EXTBANS FEAT_ALLOW_TEXT_HOST srv (lit "~q:" ++ nick) = None).
  2: { split; [done|]. intros s now add dirs args l. unfold mode_command. cbn [mode_parse_all]. unfold mode_parse_list at 1.
    cbn [ps_args ps_max_args]. rewrite (proj2 (Z.leb_gt _ _)), andb_false_r, Hgo by (unfold MAXMODEPARAMS; lia). done. }
  intros srv.
  assert (Hout : forall c, c ∈ [32; 33; 42; 46; 64] -> c ∉ nick) by (intros c Hin Hn; rewrite Forall_forall in Hc; by apply (Hc c)).
  unfold NICKLEN in Hlen. change (lit "~q:" ++ nick) with (126 :: 113 :: 58 :: nick).
  rewrite parse_ext; [|done|unfold is_char; lia|done|done|done|done|apply Hout; by left|lia].
  unfold ext_arg. rewrite Hletter, Hq. cbn [andb negb Z.eqb Pos.eqb].
  rewrite pretty_mask_nick by (apply Hout; rewrite !elem_of_cons; tauto).
  rewrite take_ge by done.
  assert (Hcol : forall m, Forall (fun c => c <> 42) m -> plain_mask m -> collapse (m ++ lit "!*@*") = m ++ lit "!*@*").
  { clear. intros m H. induction H as [|c m H42 _ IH]; intros Hm; [by vm_compute|]. inv Hm. cbn [app].
    rewrite collapse_plain; [|tauto]. rewrite (proj2 (Z.eqb_neq _ _) H42). cbn [andb]. by rewrite IH. }
  unfold full. change (33 :: star ++ 64 :: star) with (lit "!*@*"). rewrite Hcol; [|apply Forall_forall; intros c Hin ->; apply (Hout 42); [rewrite !elem_of_cons; tauto|done]|done].
  unfold rewrite_arg, tagged. cbn [flat_map app]. rewrite app_nil_r, snprintf_fits.
  - cbn [length]. rewrite length_app. cbn [length lit]. 
    rewrite (proj2 (Nat.ltb_ge _ _)); [done|]. change (length (lit "!*@*")) with 4%nat. lia.
  - cbn [length]. rewrite length_app. change (length (lit "!*@*")) with 4%nat. unfold BUFSIZE. lia.
Qed.

(** Adding an extension that is on the list already frees its text but leaves
    the pointer in the array; a plain mask that is added next takes the same
    place with the pointer and the kind of the extension, and at the end of the
    command the pointer is used again. *)
Theorem mode_parse_ban_dangling s now text arg e :
  FEAT_EXTBANS = true -> k_feature 97 = true -> existsb (Z.eqb 97) (k_letter k) = true ->
  plain_mask text -> text <> [] -> 32 ∉ text -> (length text <= 77)%nat -> plain_arg arg -> e_str e = lit "~a:" ++ text ->
  lower (mask_of arg) <> lower (lit "~a:" ++ text) ->
  mode_command s now [true; true] [lit "~a:" ++ text; arg] [e] = None.
Proof.
  intros Hfeat Ha Hletter Ht Hne H32 Hlen Harg He Hhd.
  assert (Hok : mask_ok (e_str e)).
  { rewrite He. change (lit "~a:" ++ text) with (126 :: 97 :: 58 :: text). split; [repeat (apply plain_cons; [unfold is_char; lia|done|]); done|].
    exists 126. split; [by left|done]. }
  unfold mode_command. change (lit "~a:" ++ text) with (126 :: 97 :: 58 :: text) in He |- *.
  cbn [mode_parse_all]. rewrite (mode_parse_arg s true now _ (126 :: 97 :: 58 :: text) [arg] (126 :: 97 :: 58 :: text) (Some text) EXTBAN_ACCOUNT false);
    [|done|apply andb_false_r|rewrite parse_ext by (done || (unfold is_char; lia)); unfold ext_arg; by rewrite Hletter, Ha].
  unfold apply_mask at 1. cbn [ps_pending p_slots p_num no_pending p_list p_clean].
  rewrite lookup_replicate_2 by (unfold MAXPARA; lia). cbn [mbind option_bind fst snd add_scan].
  assert (Hs : same (cleaned k e) (126 :: 97 :: 58 :: text) = true).
  { apply same_spec; [done|by rewrite <- He|]. cbn. by rewrite He. }
  rewrite Hs. cbn [mbind option_bind andb snd]. rewrite bool_decide_eq_true_2 by done. cbn [fst snd].
  rewrite (mode_parse_arg s true now _ arg [] (mask_of arg) None 0 false); [|done|apply andb_false_r|by apply parse_plain].
  unfold apply_mask at 1. cbn [ps_pending p_slots p_num p_list p_clean].
  rewrite list_lookup_insert_eq by (rewrite length_replicate; unfold MAXPARA; lia). cbn [mbind option_bind fst snd].
  set (new := MkEntry (mask_of arg) Freed _ (who s) now _ true).
  assert (Hmo : mask_ok (mask_of arg)) by (apply mask_of_ok, Harg).
  destruct (scan_step k true (mask_of arg) (cleaned k e) [] new false Hok Hmo) as (ban' & new' & Hban & Hlike & _ & ->).
  { change (e_str (cleaned k e)) with (e_str e). rewrite He. intros E. by apply Hhd. }
  destruct (marks_new k (mask_of arg) (who s) now Freed EXTBAN_ACCOUNT None false) as (Hd & Hadd & _). fold new in Hd, Hadd.
  destruct Hlike as (_ & Hx & _ & Hd' & Ha'). rewrite Ha', Hadd. cbn [mbind option_bind andb ps_pending p_list].
  unfold mode_process_list. cbn [process_loop].
  assert (Hnew : forall c, process_entry k true false (MyUser s && negb opmode) max_len max_count c new' = None).
  { intros c. unfold process_entry. rewrite Ha', Hadd, Hd', Hd, Hx. cbn [usable andb]. by repeat case_match. }
  destruct (process_entry k true false (MyUser s && negb opmode) max_len max_count _ ban') as [c|]; cbn [mbind option_bind]; [|done]. by rewrite Hnew.
Qed.
End commands.

(** ** Examples *)
Definition sample_entry (t : list Z) : entry := MkEntry t Null 0 (lit "op") 0 CHFL_BAN false.
Definition sample_banlist : list entry := [sample_entry (lit "*!*@old.example"); sample_entry (lit "evil!*@*")].
Definition sample_sender : sender := MkSender true false (lit "op").
Definition every (_ : Z) : bool := true.

Lemma sample_banlist_ok : ban_list_ok sample_banlist.
Proof. split; by_decide. Qed.

Lemma mode_command_announced_witness :
  exists c, mode_command bans every true false false 1800 45 sample_sender 7 [true; false; true] [lit "*.EXAMPLE"; lit "evil"; lit "evil"] sample_banlist = Some c /\
    texts (c_list c) = [lit "*!*@*.EXAMPLE"] /\ ban_list_ok (c_list c).
Proof.
  destruct (mode_command_announced bans every true false false 1800 45 sample_sender 7 [true; false; true] [lit "*.EXAMPLE"; lit "evil"; lit "evil"] sample_banlist)
    as (c & E & H & _); [exact sample_banlist_ok|repeat (constructor; [split_and!; by_decide|]); constructor|done|done|by_decide|].
  exists c. split; [done|]. split; [|done]. revert E. vm_compute. intros [= <-]. reflexivity.
Defined.

Lemma mode_additions_cover_witness :
  exists c, mode_command excepts every true false false 1800 45 sample_sender 7 [true; true] [lit "*.example"; lit "new!*@*.example"] sample_banlist = Some c /\
    (exists m, m ∈ texts (c_list c) /\ glob m (lit "n!u@old.example")).
Proof.
  destruct (mode_additions_cover excepts every true false false 1800 45 sample_sender 7 [lit "*.example"; lit "new!*@*.example"] sample_banlist)
    as (c & E & _ & H); [exact sample_banlist_ok|repeat (constructor; [split_and!; by_decide|]); constructor|done|by_decide|].
  exists c. split; [done|]. apply H; [revert E; vm_compute; by intros [= <-]|]. right. exists (lit "*.example"). split; [by left|].
  destruct (match_decides (mask_of (lit "*.example")) (lit "n!u@old.example")) as (r & Hr & [[_ Hg]|[-> _]]);
    [by_decide|by_decide|by left|exact Hg|]. revert Hr. by vm_compute.
Defined.

Lemma mode_parse_ban_overflow_witness :
  mode_command bans every true false false 1800 45 sample_sender 7 [true] [lit "~q:somebody"] sample_banlist = None.
Proof. apply (mode_parse_ban_overflow bans every true false false 1800 45 (lit "somebody")); by_decide. Defined.

Lemma mode_parse_ban_dangling_witness :
  mode_command bans every true false false 1800 45 sample_sender 7 [true; true] [lit "~a:account"; lit "evil"] [sample_entry (lit "~a:account")] = None.
Proof.
  apply (mode_parse_ban_dangling bans every true false false 1800 45 sample_sender 7 (lit "account") (lit "evil")); try by_decide; done.
Defined.

(** When the list is longer than its limit, a mask that is refused still takes the
    masks below it off the list. *)
Lemma refused_mask_removes :
  exists c, mode_command bans every true false false 1800 1 sample_sender 7 [true] [lit "*.example"]
      (sample_entry (lit "bad!*@*") :: sample_banlist) = Some c /\
    texts (c_list c) = [lit "bad!*@*"; lit "evil!*@*"] /\ c_changes c = [(false, lit "*!*@old.example")] /\
    c_full c = [ListFull (lit "*!*@*.example")].
Proof. eexists. split_and!; vm_compute; reflexivity. Qed.
