(* ===== verification/ModeBuf.v ===== *)
(** * ircd/channel.c: the buffers of channel modes

    A ModeBuf collects the changes of a MODE command: the letters without
    parameters as two bit sets, the ones with parameters in an array of six
    slots.  modebuf_flush_int() cuts them into lines that fit, keeps back what
    did not fit ([MODE_SAVE]), writes the lines once for the users and once for
    the servers, and packs the array down.  The strings of slots are pointers
    ([text]): two of them point into the channel.  A write behind one of the
    buffers of 20 or [BUFSIZE] bytes and the wrong member of the union are
    [None]. *)
From S2P Require Import Prelude NumText IrcdString Hash Channel BanModes.
Open Scope ircd_scope.

Definition MODE_PRIVATE : Z := 0x4.
Definition MODE_SECRET : Z := 0x8.
Definition MODE_MODERATED : Z := 0x10.
Definition MODE_TOPICLIMIT : Z := 0x20.
Definition MODE_INVITEONLY : Z := 0x40.
Definition MODE_NOPRIVMSGS : Z := 0x80.
Definition MODE_KEY : Z := 0x100.
Definition MODE_BAN : Z := 0x200.
Definition MODE_LIMIT : Z := 0x400.
Definition MODE_REGONLY : Z := 0x800.
Definition MODE_NOCOLOUR : Z := 0x1000.
Definition MODE_NOCTCP : Z := 0x2000.
Definition MODE_NOQUITPARTS : Z := 0x4000.
Definition MODE_SSLONLY : Z := 0x8000.
Definition MODE_ACCONLY : Z := 0x10000.
Definition MODE_OPERONLY : Z := 0x20000.
Definition MODE_NONOTICE : Z := 0x40000.
Definition MODE_STRIP : Z := 0x80000.
Definition MODE_NOAMSG : Z := 0x100000.
Definition MODE_REDIRECT : Z := 0x200000.
Definition MODE_EXCEPT : Z := 0x400000.
Definition MODE_ADMINONLY : Z := 0x800000.
Definition MODE_SAVE : Z := 0x2000000.
Definition MODE_FREE : Z := 0x4000000.
Definition MODE_MEMBER : Z := CHFL_CHANOP .| CHFL_HALFOP .| CHFL_VOICE.

Definition DEST_CHANNEL : Z := 0x1.
Definition DEST_SERVER : Z := 0x2.
Definition DEST_OPMODE : Z := 0x100.
Definition DEST_DEOP : Z := 0x200.
Definition DEST_BOUNCE : Z := 0x400.
Definition DEST_LOG : Z := 0x800.
Definition DEST_HACK2 : Z := 0x2000.
Definition DEST_HACK3 : Z := 0x4000.
Definition DEST_HACK4 : Z := 0x8000.
Definition DEST_NOKEY : Z := 0x10000.

(** ** The buffer *)

(** What a mode is about: the two names of a client, and a string: one of its
    own, or the key or redirection in the channel. *)
Record client := MkClient { cli_name : list Z; NumNick : list Z }.
Inductive text := Given (s : list Z) | KeyOf | RedirectOf.
Inductive union := Uint (n : Z) | String (t : text) | Client (c : client).
Record modearg := MkArg { mbm_type : Z; mbm_arg : union }.

Record ModeBuf := MkModeBuf {
  mb_add : Z; mb_rem : Z; mb_dest : Z; mb_count : nat; mb_modeargs : list modearg }.

Definition string_of (chptr : Channel) (t : text) : list Z :=
  match t with Given s => s | KeyOf => key (chmode chptr) | RedirectOf => redirect (chmode chptr) end.
Definition MB_UINT (a : modearg) : option Z := match mbm_arg a with Uint n => Some n | _ => None end.
Definition MB_STRING (a : modearg) : option text := match mbm_arg a with String t => Some t | _ => None end.
Definition MB_CLIENT (a : modearg) : option client := match mbm_arg a with Client c => Some c | _ => None end.
Definition set_type (t : Z) (a : modearg) : modearg := MkArg t (mbm_arg a).
Definition no_arg : modearg := MkArg 0 (Uint 0).

(** modebuf_init(). *)
Definition IsLocalChannel (chname : list Z) : bool := hd0 chname =? 38.
Definition modebuf_init (chptr : Channel) (dest : Z) : ModeBuf :=
  let dest := if IsLocalChannel (chname chptr) then Z.ldiff dest DEST_SERVER else dest in
  MkModeBuf 0 0 dest 0 (replicate MAXMODEPARAMS no_arg).

(** ** modebuf_flush_int() *)
Definition flags : list (Z * Z) := [
  (MODE_PRIVATE, 112); (MODE_SECRET, 115); (MODE_MODERATED, 109); (MODE_TOPICLIMIT, 116); (MODE_INVITEONLY, 105);
  (MODE_NOPRIVMSGS, 110); (MODE_REGONLY, 114); (MODE_LIMIT, 108); (MODE_NOCOLOUR, 99); (MODE_STRIP, 83);
  (MODE_NOCTCP, 67); (MODE_ACCONLY, 77); (MODE_NONOTICE, 78); (MODE_OPERONLY, 79); (MODE_ADMINONLY, 97);
  (MODE_NOQUITPARTS, 81); (MODE_SSLONLY, 90); (MODE_NOAMSG, 84); (MODE_PERSIST, 122)].

(** addbuf, rembuf, totalbuflen and limitbuf, which is not assigned at first. *)
Record gathered := MkGathered { addbuf : list Z; rembuf : list Z; totalbuflen : Z; limitbuf : option (list Z) }.

Definition put (buf : list Z) (c : Z) : option (list Z) := if decide (length buf < 20)%nat then Some (buf ++ [c]) else None.

Definition put_letter (adding : bool) (c : Z) (g : gathered) : option gathered :=
  if adding then buf ← put (addbuf g) c; Some (MkGathered buf (rembuf g) (totalbuflen g) (limitbuf g))
  else buf ← put (rembuf g) c; Some (MkGathered (addbuf g) buf (totalbuflen g) (limitbuf g)).
Fixpoint put_letters (adding : bool) (cs : list Z) (g : gathered) : option gathered :=
  match cs with
  | [] => Some g
  | c :: cs => g ← put_letter adding c g; put_letters adding cs g
  end.

Fixpoint simple_flags (l : list (Z * Z)) (add rem : Z) (g : gathered) : option gathered :=
  match l with
  | [] => Some g
  | (flag, c) :: l =>
      g ← (if has_bits flag add then put_letter true c g
           else if has_bits flag rem then put_letter false c g else Some g);
      simple_flags l add rem g
  end.

(** The first loop over the slots: is there room for the parameter?  Otherwise
    the slot is saved. *)
Definition fit_arg (cs : list Z) (tmp : Z) (a : modearg) (g : gathered) : option (gathered * modearg) :=
  if totalbuflen g - tmp <=? 0 then Some (g, set_type (mbm_type a .| MODE_SAVE) a)
  else
    g ← put_letters (has_bits (mbm_type a) MODE_ADD) cs g;
    Some (MkGathered (addbuf g) (rembuf g) (totalbuflen g - (tmp + 1)) (limitbuf g), a).

Definition strlen (s : list Z) : Z := Z.of_nat (length s).
Definition member_letters (t : Z) : list Z :=
  (if has_bits t CHFL_CHANOP then [111] else []) ++ (if has_bits t CHFL_HALFOP then [104] else [])
  ++ (if has_bits t CHFL_VOICE then [118] else []).

Definition gather_arg (chptr : Channel) (nokey : bool) (a : modearg) (g : gathered) : option (gathered * modearg) :=
  let t := mbm_type a in
  if has_bits t MODE_MEMBER then c ← MB_CLIENT a; fit_arg (member_letters t) (Z.max 5 (strlen (cli_name c))) a g
  else if has_bits t MODE_BAN then s ← MB_STRING a; fit_arg [98] (strlen (string_of chptr s)) a g
  else if has_bits t MODE_EXCEPT then s ← MB_STRING a; fit_arg [101] (strlen (string_of chptr s)) a g
  else if has_bits t MODE_KEY then
    s ← MB_STRING a; fit_arg [107] (if nokey then 1 else strlen (string_of chptr s)) a g
  else if has_bits t MODE_REDIRECT then s ← MB_STRING a; fit_arg [76] (strlen (string_of chptr s)) a g
  else if has_bits t MODE_LIMIT then
    n ← MB_UINT a;
    let limit := snprintf 20 (decimal n) in
    fit_arg [108] (strlen limit) a (MkGathered (addbuf g) (rembuf g) (totalbuflen g) (Some limit))
  else Some (g, a).

Fixpoint gather_args (chptr : Channel) (nokey : bool) (n : nat) (l : list modearg) (g : gathered)
  : option (gathered * list modearg) :=
  match n, l with
  | O, _ => Some (g, l)
  | S n, a :: l =>
      '(g, a) ← gather_arg chptr nokey a g;
      '(g, l) ← gather_args chptr nokey n l g;
      Some (g, a :: l)
  | _, [] => None
  end.

(** build_string() into a buffer of [size] bytes. *)
Definition build_string (size : nat) (strptr str1 str2 : list Z) (c : Z) : option (list Z) :=
  let r := strptr ++ (if c =? 0 then [] else [c]) ++ str1 ++ str2 in
  if decide (length r < size)%nat then Some r else None.

(** The parameter of a slot in the texts for users and for servers. *)
Definition user_param (chptr : Channel) (nokey : bool) (limitbuf : option (list Z)) (a : modearg)
  : option (option (list Z * list Z)) :=
  let t := mbm_type a in
  if has_bits t MODE_MEMBER then c ← MB_CLIENT a; Some (Some (cli_name c, []))
  else if has_bits t MODE_BAN then s ← MB_STRING a; Some (Some (string_of chptr s, []))
  else if has_bits t MODE_EXCEPT then s ← MB_STRING a; Some (Some (string_of chptr s, []))
  else if has_bits t MODE_KEY then s ← MB_STRING a; Some (Some (if nokey then [42] else string_of chptr s, []))
  else if has_bits t MODE_REDIRECT then s ← MB_STRING a; Some (Some (string_of chptr s, []))
  else if t .& (MODE_ADD .| MODE_LIMIT) =? MODE_ADD .| MODE_LIMIT then l ← limitbuf; Some (Some (l, []))
  else Some None.

Definition server_param (chptr : Channel) (limitdel : Z) (limitbuf : option (list Z)) (a : modearg)
  : option (option (list Z * list Z)) :=
  let t := mbm_type a in
  if has_bits t MODE_MEMBER then c ← MB_CLIENT a; Some (Some (take 2 (NumNick c), drop 2 (NumNick c)))
  else if has_bits t (MODE_KEY .| MODE_BAN .| MODE_EXCEPT .| MODE_REDIRECT)
  then s ← MB_STRING a; Some (Some (string_of chptr s, []))
  else if t .& limitdel =? limitdel then l ← limitbuf; Some (Some (l, []))
  else Some None.

(** The second loop: addstr and remstr. *)
Fixpoint put_params (param : modearg -> option (option (list Z * list Z))) (n : nat) (l : list modearg) (addstr remstr : list Z)
  : option (list Z * list Z) :=
  match n, l with
  | O, _ => Some (addstr, remstr)
  | S n, a :: l =>
      if has_bits (mbm_type a) MODE_SAVE then put_params param n l addstr remstr
      else
        p ← param a;
        match p with
        | None => put_params param n l addstr remstr
        | Some (s1, s2) =>
            if has_bits (mbm_type a) MODE_ADD
            then addstr ← build_string BUFSIZE addstr s1 s2 32; put_params param n l addstr remstr
            else remstr ← build_string BUFSIZE remstr s1 s2 32; put_params param n l addstr remstr
        end
  | _, [] => None
  end.

(** "%s%s%s%s%s%s": the signs, the letters and the parameters. *)
Definition signed (sign : Z) (buf : list Z) : list Z := match buf with [] => [] | _ => sign :: buf end.
Definition mode_text (sign1 : Z) (buf1 : list Z) (sign2 : Z) (buf2 str1 str2 : list Z) : list Z :=
  signed sign1 buf1 ++ signed sign2 buf2 ++ str1 ++ str2.

(** Who a message is shown to be from, and the messages. *)
Inductive origin := Source | Me | His.
Inductive message :=
| HackNotice (n : Z) (from : origin) (text : list Z) (ts : Z)
| LogOpMode (text : list Z)
| ToChannel (from : origin) (text : list Z)
| ToServersOpMode (text : list Z)
| BounceBack (text : list Z) (ts : Z)
| ToServers (text : list Z) (ts : option Z)
| MyFree (t : text).

Section flush.
(** IsServer(), IsMe() and the names of mb_source, and two features. *)
Variable IsServer IsMe : bool.
Variable source : client.
Variable FEAT_HIS_HIDEWHO FEAT_HIS_SNOTICES : bool.

Definition app_source (dest : Z) : origin :=
  if has_bits dest DEST_OPMODE || IsServer || IsMe then (if FEAT_HIS_HIDEWHO then His else Me) else Source.

Definition when (c : bool) (m : message) : list message := if c then [m] else [].

Definition user_messages (chptr : Channel) (dest : Z) (text : list Z) : list message :=
  let from := app_source dest in
  let shown := if FEAT_HIS_SNOTICES then Source else from in
  when (has_bits dest DEST_HACK2) (HackNotice 2 shown text (creationtime chptr))
  ++ when (has_bits dest DEST_HACK3) (HackNotice 3 shown text (creationtime chptr))
  ++ when (has_bits dest DEST_HACK4) (HackNotice 4 shown text (creationtime chptr))
  ++ when (has_bits dest DEST_LOG) (LogOpMode text)
  ++ when (has_bits dest DEST_CHANNEL) (ToChannel from text).

Definition DEST_USERS : Z := DEST_CHANNEL .| DEST_HACK2 .| DEST_HACK3 .| DEST_HACK4 .| DEST_LOG.

Definition flush_users (chptr : Channel) (m : ModeBuf) (g : gathered) (l : list modearg) : option (list message) :=
  if has_bits (mb_dest m) DEST_USERS then
    '(addstr, remstr) ← put_params (user_param chptr (has_bits (mb_dest m) DEST_NOKEY) (limitbuf g)) (mb_count m) l [] [];
    Some (user_messages chptr (mb_dest m) (mode_text 45 (rembuf g) 43 (addbuf g) remstr addstr))
  else Some [].

(** We were told to deop the source; the flag is cleared. *)
Definition deop (dest : Z) (addbuf addstr : list Z) : option (Z * list Z * list Z) :=
  if has_bits dest DEST_DEOP then
    addbuf ← put addbuf 111;
    if decide (length addbuf < 20)%nat then
      addstr ← build_string BUFSIZE addstr (take 2 (NumNick source)) (drop 2 (NumNick source)) 32;
      Some (Z.ldiff dest DEST_DEOP, addbuf, addstr)
    else None
  else Some (dest, addbuf, addstr).

Definition flush_servers (chptr : Channel) (m : ModeBuf) (g : gathered) (l : list modearg) : option (Z * list message) :=
  if has_bits (mb_dest m) DEST_SERVER then
    let limitdel := MODE_LIMIT .| (if has_bits (mb_dest m) DEST_HACK2 then MODE_DEL else MODE_ADD) in
    '(addstr, remstr) ← put_params (server_param chptr limitdel (limitbuf g)) (mb_count m) l [] [];
    '(dest, addbuf, addstr) ← deop (mb_dest m) (addbuf g) addstr;
    let text := mode_text 45 (rembuf g) 43 addbuf remstr addstr in
    Some (dest, [
      if has_bits dest DEST_OPMODE then ToServersOpMode text
      else if has_bits dest DEST_BOUNCE
      then BounceBack (mode_text 45 addbuf 43 (rembuf g) addstr remstr) (creationtime chptr)
      else if IsServer then ToServers text (Some (if has_bits dest DEST_HACK4 then 0 else creationtime chptr))
      else ToServers text None])
  else Some (mb_dest m, []).

(** The slots that were saved are packed down, the others reset. *)
Fixpoint repack (n i count : nat) (l : list modearg) (freed : list message) : option (nat * list modearg * list message) :=
  match n with
  | O => Some (count, l, freed)
  | S n =>
      a ← l !! i;
      if has_bits (mbm_type a) MODE_SAVE then
        let l := <[count := set_type (Z.ldiff (mbm_type a) MODE_SAVE) a]> l in
        if (count =? i)%nat then repack n (S i) (S count) l freed
        else repack n (S i) (S count) (<[i := no_arg]> l) freed
      else if has_bits (mbm_type a) MODE_FREE then
        s ← MB_STRING a; repack n (S i) count (<[i := no_arg]> l) (freed ++ [MyFree s])
      else repack n (S i) count (<[i := no_arg]> l) freed
  end.

(** One pass of modebuf_flush_int(), and the calls to itself. *)
Definition flush_once (chptr : Channel) (m : ModeBuf) : option (ModeBuf * list message) :=
  let left := Z.of_nat BUFSIZE - 200 - (if has_bits (mb_dest m) DEST_DEOP then 6 else 0) in
  g ← simple_flags flags (mb_add m) (mb_rem m) (MkGathered [] [] left None);
  '(g, l) ← gather_args chptr (has_bits (mb_dest m) DEST_NOKEY) (mb_count m) (mb_modeargs m) g;
  if decide (length (addbuf g) < 20 /\ length (rembuf g) < 20)%nat then
    users ← flush_users chptr m g l;
    '(dest, servers) ← flush_servers chptr m g l;
    '(count, l, freed) ← repack MAXMODEPARAMS 0 0 l [];
    Some (MkModeBuf 0 0 dest count l, users ++ servers ++ freed)
  else None.

Definition nothing_to_do (m : ModeBuf) : bool := (mb_add m =? 0) && (mb_rem m =? 0) && (mb_count m =? 0)%nat.

Fixpoint modebuf_flush_int (fuel : nat) (chptr : Channel) (m : ModeBuf) (all : bool) : option (ModeBuf * list message) :=
  match fuel with
  | O => None
  | S fuel =>
      if nothing_to_do m then Some (m, [])
      else
        '(m, sent) ← flush_once chptr m;
        if all && negb (mb_count m =? 0)%nat
        then '(m, more) ← modebuf_flush_int fuel chptr m true; Some (m, sent ++ more)
        else Some (m, sent)
  end.

Definition flush_fuel : nat := S MAXMODEPARAMS.
Definition modebuf_flush (chptr : Channel) (m : ModeBuf) : option (ModeBuf * list message) :=
  modebuf_flush_int flush_fuel chptr m true.

(** ** The changes, one at a time *)
Definition MODE_SIMPLE : Z :=
  MODE_ADD .| MODE_DEL .| MODE_PRIVATE .| MODE_SECRET .| MODE_MODERATED .| MODE_TOPICLIMIT .| MODE_INVITEONLY
  .| MODE_NOPRIVMSGS .| MODE_REGONLY .| MODE_NOCOLOUR .| MODE_NOCTCP .| MODE_ACCONLY .| MODE_NONOTICE .| MODE_OPERONLY
  .| MODE_NOQUITPARTS .| MODE_SSLONLY .| MODE_STRIP .| MODE_NOAMSG .| MODE_REDIRECT .| MODE_ADMINONLY .| MODE_PERSIST.

Definition set_bits (add rem : Z) (m : ModeBuf) : ModeBuf :=
  MkModeBuf add rem (mb_dest m) (mb_count m) (mb_modeargs m).

Definition modebuf_mode (mode : Z) (m : ModeBuf) : option ModeBuf :=
  if has_bits mode (MODE_ADD .| MODE_DEL) then
    let mode := mode .& MODE_SIMPLE in
    if Z.ldiff mode (MODE_ADD .| MODE_DEL) =? 0 then Some m
    else if has_bits mode MODE_ADD then Some (set_bits (mb_add m .| mode) (Z.ldiff (mb_rem m) mode) m)
    else Some (set_bits (Z.ldiff (mb_add m) mode) (mb_rem m .| mode) m)
  else None.

Definition slots (m : ModeBuf) : nat := MAXMODEPARAMS - (if has_bits (mb_dest m) DEST_DEOP then 1 else 0).

(** A slot is filled, and the buffer flushed when it is full. *)
Definition add_arg (chptr : Channel) (a : modearg) (m : ModeBuf) : option (ModeBuf * list message) :=
  if decide (mb_count m < length (mb_modeargs m))%nat then
    let m := MkModeBuf (mb_add m) (mb_rem m) (mb_dest m) (S (mb_count m)) (<[mb_count m := a]> (mb_modeargs m)) in
    if (slots m <=? mb_count m)%nat then modebuf_flush_int flush_fuel chptr m false else Some (m, [])
  else None.

Definition modebuf_mode_uint (chptr : Channel) (mode : Z) (uinth : Z) (m : ModeBuf) : option (ModeBuf * list message) :=
  if has_bits mode (MODE_ADD .| MODE_DEL) then
    if mode =? MODE_LIMIT .| MODE_DEL then Some (set_bits (mb_add m) (mb_rem m .| mode) m, [])
    else add_arg chptr (MkArg mode (Uint uinth)) m
  else None.

Definition modebuf_mode_string (chptr : Channel) (mode : Z) (string : text) (freeh : bool) (m : ModeBuf)
  : option (ModeBuf * list message) :=
  if has_bits mode (MODE_ADD .| MODE_DEL)
  then add_arg chptr (MkArg (mode .| (if freeh then MODE_FREE else 0)) (String string)) m else None.

Definition modebuf_mode_client (chptr : Channel) (mode : Z) (c : client) (m : ModeBuf) : option (ModeBuf * list message) :=
  if has_bits mode (MODE_ADD .| MODE_DEL) then add_arg chptr (MkArg mode (Client c)) m else None.
End flush.

(** ** What is in a buffer

    A slot in use is an [item]; [buffer] is the ModeBuf with the given items. *)
Inductive member_kind := Op | HalfOp | Voice.
Inductive string_kind := KBan | KExcept | KKey | KRedirect.
Inductive item :=
| Member (add : bool) (k : member_kind) (c : client)
| Named (add : bool) (k : string_kind) (free : bool) (t : text)
| Limit (n : Z).

Definition direction (add : bool) : Z := if add then MODE_ADD else MODE_DEL.
Definition member_flag (k : member_kind) : Z :=
  match k with Op => CHFL_CHANOP | HalfOp => CHFL_HALFOP | Voice => CHFL_VOICE end.
Definition string_flag (k : string_kind) : Z :=
  match k with KBan => MODE_BAN | KExcept => MODE_EXCEPT | KKey => MODE_KEY | KRedirect => MODE_REDIRECT end.

Definition arg_of (i : item) : modearg :=
  match i with
  | Member add k c => MkArg (direction add .| member_flag k) (Client c)
  | Named add k free t => MkArg (direction add .| string_flag k .| (if free then MODE_FREE else 0)) (String t)
  | Limit n => MkArg (MODE_ADD .| MODE_LIMIT) (Uint n)
  end.
Definition adding (i : item) : bool := match i with Member add _ _ | Named add _ _ _ => add | Limit _ => true end.
Definition letter (i : item) : Z :=
  match i with
  | Member _ Op _ => 111 | Member _ HalfOp _ => 104 | Member _ Voice _ => 118
  | Named _ KBan _ _ => 98 | Named _ KExcept _ _ => 101 | Named _ KKey _ _ => 107 | Named _ KRedirect _ _ => 76
  | Limit _ => 108
  end.
Definition limit_text (n : Z) : list Z := snprintf 20 (decimal n).
Definition cost (chptr : Channel) (nokey : bool) (i : item) : Z :=
  match i with
  | Member _ _ c => Z.max 5 (strlen (cli_name c))
  | Named _ KKey _ t => if nokey then 1 else strlen (string_of chptr t)
  | Named _ _ _ t => strlen (string_of chptr t)
  | Limit n => strlen (limit_text n)
  end.
Definition note_limit (i : item) (l : option (list Z)) : option (list Z) :=
  match i with Limit n => Some (limit_text n) | _ => l end.

Definition blanks (n : nat) : list modearg := replicate n no_arg.
Definition buffer (add rem dest : Z) (l : list item) : ModeBuf :=
  MkModeBuf add rem dest (length l) ((arg_of <$> l) ++ blanks (MAXMODEPARAMS - length l)).

(** ** What a line says

    [read_line] reads a line the way the users of the protocol do: letters with
    a sign, and the words after them in order to the letters that take one. *)
Abbreviation change := (bool * Z * option (list Z))%type.
Definition takes_param (add : bool) (c : Z) : bool :=
  bool_decide (c ∈ [111; 104; 118; 98; 101; 107]) || (add && bool_decide (c ∈ [108; 76])).
Fixpoint words_of (s w : list Z) : list (list Z) :=
  match s with
  | [] => match w with [] => [] | _ => [w] end
  | c :: s => if c =? 32 then match w with [] => words_of s [] | _ => w :: words_of s [] end else words_of s (w ++ [c])
  end.
Fixpoint read_letters (add : bool) (modes : list Z) (ps : list (list Z)) : list change :=
  match modes with
  | [] => []
  | c :: modes =>
      if c =? 43 then read_letters true modes ps
      else if c =? 45 then read_letters false modes ps
      else if takes_param add c then
        match ps with
        | p :: ps => (add, c, Some p) :: read_letters add modes ps
        | [] => (add, c, None) :: read_letters add modes []
        end
      else (add, c, None) :: read_letters add modes ps
  end.
Definition read_line (s : list Z) : list change :=
  match words_of s [] with [] => [] | modes :: ps => read_letters true modes ps end.

(** ** The array of slots *)
Definition slot_of (x : bool * item) : modearg :=
  let a := arg_of x.2 in if x.1 then a else set_type (mbm_type a .| MODE_SAVE) a.

(** Which of the items fit into [left] bytes. *)
Fixpoint fitting (chptr : Channel) (nokey : bool) (left : Z) (l : list item) : list (bool * item) :=
  match l with
  | [] => []
  | i :: l =>
      if left - cost chptr nokey i <=? 0 then (false, i) :: fitting chptr nokey left l
      else (true, i) :: fitting chptr nokey (left - (cost chptr nokey i + 1)) l
  end.
Fixpoint sent_now (l : list (bool * item)) : list item :=
  match l with [] => [] | (true, i) :: l => i :: sent_now l | (false, _) :: l => sent_now l end.
Fixpoint saved (l : list (bool * item)) : list item :=
  match l with [] => [] | (false, i) :: l => i :: saved l | (true, _) :: l => saved l end.
Fixpoint pick (add : bool) (l : list item) : list item :=
  match l with [] => [] | i :: l => if eqb (adding i) add then i :: pick add l else pick add l end.
Definition letters (add : bool) (l : list item) : list Z := letter <$> pick add l.

Lemma arg_add i : has_bits (mbm_type (arg_of i)) MODE_ADD = adding i.
Proof. by destruct i as [[] [] c|[] [] [] t|n]. Qed.
Lemma arg_unsaved i : has_bits (mbm_type (arg_of i)) MODE_SAVE = false.
Proof. by destruct i as [[] [] c|[] [] [] t|n]. Qed.
Lemma slot_saved x : has_bits (mbm_type (slot_of x)) MODE_SAVE = negb x.1.
Proof. by destruct x as [[] [[] [] c|[] [] [] t|n]]. Qed.
Lemma slot_add x : has_bits (mbm_type (slot_of x)) MODE_ADD = adding x.2.
Proof. by destruct x as [[] [[] [] c|[] [] [] t|n]]. Qed.
Lemma unsave i : set_type (Z.ldiff (mbm_type (slot_of (false, i))) MODE_SAVE) (slot_of (false, i)) = arg_of i.
Proof. by destruct i as [[] [] c|[] [] [] t|n]. Qed.

Lemma pick_app add l k : pick add (l ++ k) = pick add l ++ pick add k.
Proof. induction l as [|i l IH]; [done|]. cbn. case_match; [by rewrite IH|done]. Qed.

Lemma pick_length add l : (length (pick add l) <= length l)%nat.
Proof. induction l as [|i l IH]; [done|]. cbn. case_match; cbn; lia. Qed.

Lemma fitting_split chptr nokey left l :
  sent_now (fitting chptr nokey left l) ++ saved (fitting chptr nokey left l) ≡ₚ l.
Proof.
  revert left. induction l as [|i l IH]; intros left; [done|]. cbn. case_match; cbn; [|by rewrite IH].
  rewrite <- Permutation_middle. by rewrite IH.
Qed.

Lemma fitting_length chptr nokey left l : length (fitting chptr nokey left l) = length l.
Proof. revert left. induction l as [|i l IH]; intros left; [done|]. cbn. case_match; cbn; by rewrite IH. Qed.

Definition total (chptr : Channel) (nokey : bool) (l : list item) : Z := foldr (fun i n => cost chptr nokey i + 1 + n) 0 l.

Lemma fitting_total chptr nokey left l : 0 <= left -> total chptr nokey (sent_now (fitting chptr nokey left l)) <= left.
Proof.
  revert left. induction l as [|i l IH]; intros left Hl; [done|]. cbn. case_match; cbn; bprop; [by apply IH|].
  specialize (IH (left - (cost chptr nokey i + 1)) ltac:(lia)). unfold total in IH. lia.
Qed.

(** The first loop, on items. *)
Lemma gather_arg_item chptr nokey i g :
  gather_arg chptr nokey (arg_of i) g =
  fit_arg [letter i] (cost chptr nokey i) (arg_of i)
    (MkGathered (addbuf g) (rembuf g) (totalbuflen g) (note_limit i (limitbuf g))).
Proof. destruct g. by destruct i as [[] [] c|[] [] [] t|n]. Qed.

Lemma put_ok buf c : (length buf < 20)%nat -> put buf c = Some (buf ++ [c]).
Proof. intros H. unfold put. by rewrite decide_True. Qed.

Fixpoint last_limit (l : list item) (o : option (list Z)) : option (list Z) :=
  match l with [] => o | i :: l => last_limit l (note_limit i o) end.

Lemma gather_args_items chptr nokey l rest g :
  (length (addbuf g) + length l < 20)%nat -> (length (rembuf g) + length l < 20)%nat ->
  let t := fitting chptr nokey (totalbuflen g) l in
  gather_args chptr nokey (length l) ((arg_of <$> l) ++ rest) g =
  Some (MkGathered (addbuf g ++ letters true (sent_now t)) (rembuf g ++ letters false (sent_now t))
          (totalbuflen g - total chptr nokey (sent_now t)) (last_limit l (limitbuf g)), (slot_of <$> t) ++ rest).
Proof.
  revert g. induction l as [|i l IH]; intros g Ha Hr; [destruct g; cbn; by rewrite !app_nil_r, Z.sub_0_r|].
  cbn [length] in Ha, Hr. cbn [length fmap list_fmap app gather_args fitting last_limit].
  rewrite gather_arg_item. unfold fit_arg. cbn [totalbuflen]. destruct (_ <=? 0) eqn:E.
  - cbn [mbind option_bind]. rewrite IH by (cbn; lia). cbn [totalbuflen addbuf rembuf limitbuf mbind option_bind]. done.
  - rewrite arg_add. cbn [put_letters put_letter addbuf rembuf]. unfold letters. destruct (adding i) eqn:Ei; cbn [put_letter]; rewrite put_ok by (cbn; lia);
      cbn [mbind option_bind addbuf rembuf totalbuflen limitbuf];
      rewrite IH by (cbn; rewrite ?length_app; cbn; lia);
      cbn [totalbuflen addbuf rembuf limitbuf mbind option_bind sent_now pick total foldr app];
      rewrite Ei; cbn [eqb fmap list_fmap]; unfold letters, total;
      by rewrite <- ?app_assoc, (Z.sub_add_distr _ (cost chptr nokey i + 1)).
Qed.

(** The last loop. *)
Definition frees (i : item) : list message := match i with Named _ _ true t => [MyFree t] | _ => [] end.

Lemma blanks_app a b : blanks a ++ blanks b = blanks (a + b).
Proof. unfold blanks. by rewrite replicate_add. Qed.

Lemma repack_blanks n b done freed :
  repack n (length done + b) (length done) (done ++ blanks (b + n)) freed = Some (length done, done ++ blanks (b + n), freed).
Proof.
  revert b. induction n as [|n IH]; intros b; [done|]. cbn [repack].
  assert ((done ++ blanks (b + S n)) !! (length done + b)%nat = Some no_arg) as Hn.
  { rewrite lookup_app_r by lia. apply lookup_replicate. split; [done|lia]. }
  rewrite Hn. cbn [mbind option_bind]. cbn [has_bits no_arg mbm_type].
  replace (has_bits 0 MODE_SAVE) with false by done. replace (has_bits 0 MODE_FREE) with false by done.
  rewrite list_insert_id by done. replace (b + S n)%nat with (S b + n)%nat by lia.
  replace (S (length done + b)) with (length done + S b)%nat by lia. apply IH.
Qed.

Lemma arg_free i : has_bits (mbm_type (arg_of i)) MODE_FREE = match i with Named _ _ free _ => free | _ => false end.
Proof. by destruct i as [[] [] c|[] [] [] t|n]. Qed.

Lemma insert_blank d b x r : <[(length d + b)%nat := no_arg]> (d ++ blanks b ++ x :: r) = d ++ blanks (S b) ++ r.
Proof.
  rewrite insert_app_r. f_equal. induction b as [|b IH]; [done|]. cbn [blanks replicate app]. cbn [insert list_insert].
  f_equal. exact IH.
Qed.

Lemma insert_next (d : list modearg) x r a : <[length d := a]> (d ++ x :: r) = (d ++ [a]) ++ r.
Proof. rewrite <- app_assoc. induction d as [|y d IH]; [done|]. cbn. f_equal. exact IH. Qed.

Lemma repack_slots t n b done freed :
  repack (length t + n) (length done + b) (length done) (done ++ blanks b ++ (slot_of <$> t) ++ blanks n) freed =
  Some (length done + length (saved t), done ++ (arg_of <$> saved t) ++ blanks (b + length (sent_now t) + n),
        freed ++ flat_map frees (sent_now t))%nat.
Proof.
  revert b done freed. induction t as [|[sent i] t IH]; intros b done freed.
  { cbn. rewrite !Nat.add_0_r, app_nil_r, blanks_app. apply repack_blanks. }
  cbn [length Nat.add repack fmap list_fmap].
  assert ((done ++ blanks b ++ (slot_of (sent, i) :: (slot_of <$> t)) ++ blanks n) !! (length done + b)%nat = Some (slot_of (sent, i))) as ->.
  { rewrite lookup_app_r by lia. rewrite lookup_app_r by (unfold blanks; rewrite length_replicate; lia).
    unfold blanks. rewrite length_replicate. by replace (length done + b - length done - b)%nat with 0%nat by lia. }
  cbn [mbind option_bind]. rewrite slot_saved. cbn [fst].
  destruct sent; cbn [negb].
  - change (slot_of (true, i)) with (arg_of i). rewrite arg_free. cbn [sent_now saved flat_map length].
    replace (S (length done + b)) with (length done + S b)%nat by lia.
    replace (b + S (length (sent_now t)) + n)%nat with (S b + length (sent_now t) + n)%nat by lia.
    cbn [app].
    destruct i as [| add k [] p |]; cbn [arg_of mbm_arg MB_STRING mbind option_bind frees];
      rewrite insert_blank, IH; cbn [app]; rewrite <- ?app_assoc; done.
  - rewrite unsave. cbn [saved sent_now fmap list_fmap length].
    destruct (length done =? length done + b)%nat eqn:E.
    + apply Nat.eqb_eq in E. assert (b = 0)%nat as -> by lia. cbn [blanks replicate app].
      specialize (IH 0%nat (done ++ [arg_of i]) freed). rewrite length_app in IH. cbn [length blanks replicate app] in IH.
      rewrite insert_next. replace (S (length done + 0)) with (length done + 1 + 0)%nat by lia.
      replace (S (length done)) with (length done + 1)%nat by lia. by rewrite IH, <- app_assoc, <- Nat.add_assoc.
    + apply Nat.eqb_neq in E. destruct b as [|b]; [lia|].
      specialize (IH (S b) (done ++ [arg_of i]) freed). rewrite length_app in IH. cbn [length] in IH.
      change (blanks (S b)) with (no_arg :: blanks b). cbn [app]. rewrite insert_next.
      replace (length done + S b)%nat with (length (done ++ [arg_of i]) + b)%nat by (rewrite length_app; cbn; lia).
      rewrite insert_blank. replace (S (length (done ++ [arg_of i]) + b)) with (length done + 1 + S b)%nat by (rewrite length_app; cbn; lia).
      replace (S (length done)) with (length done + 1)%nat by lia. by rewrite IH, <- app_assoc, <- Nat.add_assoc.
Qed.

(** ** Lines *)
Definition is_word (s : list Z) : Prop := s <> [] /\ 32 ∉ s.

Fixpoint params_text (ps : list (option (list Z))) : list Z :=
  match ps with
  | [] => []
  | None :: ps => params_text ps
  | Some s :: ps => 32 :: s ++ params_text ps
  end.
Fixpoint toward (add : bool) (cs : list change) : list change :=
  match cs with [] => [] | c :: cs => if eqb c.1.1 add then c :: toward add cs else toward add cs end.
Definition line (cs : list change) : list Z :=
  mode_text 45 (snd ∘ fst <$> toward false cs) 43 (snd ∘ fst <$> toward true cs)
    (params_text (snd <$> toward false cs)) (params_text (snd <$> toward true cs)).

(** An empty parameter, as of "-L", is not seen by the reader. *)
Definition seen (c : change) : change := match c with (b, l, Some []) => (b, l, None) | _ => c end.
Definition readable (c : change) : Prop :=
  let '(add, l, p) := c in
  l ≠ 32 /\ l ≠ 43 /\ l ≠ 45 /\
  match p with None | Some [] => takes_param add l = false | Some s => takes_param add l = true /\ 32 ∉ s end.

Lemma toward_app add l k : toward add (l ++ k) = toward add l ++ toward add k.
Proof. induction l as [|i l IH]; [done|]. cbn. case_match; [by rewrite IH|done]. Qed.

Lemma toward_split cs : toward false cs ++ toward true cs ≡ₚ cs.
Proof.
  induction cs as [|[[[] l] p] cs IH]; [done|..]; cbn; [|by rewrite IH].
  rewrite <- Permutation_middle. by rewrite IH.
Qed.

Lemma toward_length add cs : (length (toward add cs) <= length cs)%nat.
Proof. induction cs as [|c cs IH]; [done|]. cbn. case_match; cbn; lia. Qed.

Lemma params_text_app ps qs : params_text (ps ++ qs) = params_text ps ++ params_text qs.
Proof. induction ps as [|[s|] ps IH]; [done| |done]. cbn. by rewrite IH, app_assoc. Qed.

Lemma words_of_app s r w : 32 ∉ s -> words_of (s ++ r) w = words_of r (w ++ s).
Proof.
  revert w. induction s as [|c s IH]; intros w Hs; cbn; [by rewrite app_nil_r|].
  apply not_elem_of_cons in Hs as [Hc Hs]. rewrite (proj2 (Z.eqb_neq c 32)) by done. rewrite IH by done. by rewrite <- app_assoc.
Qed.

Definition word_list (w : list Z) : list (list Z) := match w with [] => [] | _ => [w] end.
Definition param_words (ps : list (option (list Z))) : list (list Z) :=
  flat_map (fun p => match p with Some s => word_list s | None => [] end) ps.

Lemma words_of_params ps w :
  Forall (fun p => match p with Some s => 32 ∉ s | None => True end) ps ->
  words_of (params_text ps) w = word_list w ++ param_words ps.
Proof.
  intros Hps. revert w. induction Hps as [|[s|] ps Hp Hps IH]; intros w; cbn [params_text]; [by destruct w| |by rewrite IH].
  cbn [words_of Z.eqb Pos.eqb]. rewrite words_of_app by done. rewrite IH. by destruct w.
Qed.

Lemma read_letters_app add cs rest qs :
  Forall readable cs -> Forall (fun c => c.1.1 = add) cs ->
  read_letters add ((snd ∘ fst <$> cs) ++ rest) (param_words (snd <$> cs) ++ qs) =
  (seen <$> cs) ++ read_letters add rest qs.
Proof.
  intros Hr Ha. induction Hr as [|[[b l] p] cs (H32 & H43 & H45 & Hp) Hr IH]; [done|].
  apply Forall_cons in Ha as [Hb Ha]. cbn in Hb. subst b. cbn [fmap list_fmap app read_letters compose fst snd].
  rewrite (proj2 (Z.eqb_neq l 43)), (proj2 (Z.eqb_neq l 45)) by done. rewrite <- IH by done.
  destruct p as [[|x s]|]; [|destruct Hp as [Hp _]|]; rewrite Hp; done.
Qed.

Lemma toward_dir add cs : Forall (fun c : change => c.1.1 = add) (toward add cs).
Proof. induction cs as [|c cs IH]; [constructor|]. cbn. case_match eqn:E; [|done]. constructor; [by apply eqb_prop|done]. Qed.

Lemma toward_readable add cs : Forall readable cs -> Forall readable (toward add cs).
Proof. induction 1 as [|c cs Hc Hcs IH]; [constructor|]. cbn. case_match; [by constructor|done]. Qed.

Lemma letters_no_space cs : Forall readable cs -> 32 ∉ (snd ∘ fst <$> cs).
Proof.
  intros H (c & E & Hc)%list_elem_of_fmap. rewrite Forall_forall in H. destruct c as [[b l] p].
  destruct (H _ Hc) as [Hl _]. cbn in E. done.
Qed.

Lemma params_no_space cs : Forall readable cs -> Forall (fun p => match p with Some s => 32 ∉ s | None => True end) (snd <$> cs).
Proof.
  intros H. apply Forall_fmap. eapply Forall_impl; [exact H|]. intros [[b l] [[|x s]|]] (_ & _ & _ & Hp); cbn; [|apply Hp|done].
  apply not_elem_of_nil.
Qed.

(** A line is read as the changes it was made of, removals first. *)
Lemma read_line_line cs : Forall readable cs -> read_line (line cs) = (seen <$> toward false cs) ++ (seen <$> toward true cs).
Proof.
  intros H. unfold read_line, line, mode_text.
  pose proof (toward_readable false cs H) as Hf. pose proof (toward_readable true cs H) as Ht.
  pose proof (toward_dir false cs) as Df. pose proof (toward_dir true cs) as Dt.
  revert Hf Ht Df Dt. generalize (toward false cs) (toward true cs). intros rs ps Hf Ht Df Dt.
  rewrite app_assoc, <- params_text_app, <- fmap_app, words_of_app, words_of_params; [..|by apply params_no_space, Forall_app_2|].
  2:{ intros Hin. apply elem_of_app in Hin as [Hin|Hin]; revert Hin.
      - pose proof (letters_no_space rs Hf) as Hn. destruct (snd ∘ fst <$> rs) as [|z l]; [done|]. cbn. intros [|]%elem_of_cons; done.
      - pose proof (letters_no_space ps Ht) as Hn. destruct (snd ∘ fst <$> ps) as [|z l]; [done|]. cbn. intros [|]%elem_of_cons; done. }
  cbn [app]. rewrite fmap_app. unfold param_words. rewrite flat_map_app. fold (param_words (snd <$> rs)) (param_words (snd <$> ps)).
  assert (forall add, read_letters add (signed 43 (snd ∘ fst <$> ps)) (param_words (snd <$> ps)) = seen <$> ps) as Hps.
  { intros add. pose proof (read_letters_app true ps [] [] Ht Dt) as E. rewrite !app_nil_r in E. rewrite <- E.
    destruct ps; [done|]. done. }
  destruct rs as [|r rs]; [destruct ps as [|p ps]; [done|]; cbn [fmap list_fmap signed app word_list]; apply (Hps true)|].
  change (signed 45 (snd ∘ fst <$> r :: rs)) with (45 :: (snd ∘ fst <$> r :: rs)).
  cbn [word_list app]. change (read_letters true (45 :: ?x) ?y) with (read_letters false x y).
  rewrite read_letters_app by done. by rewrite Hps.
Qed.

(** ** The texts of a flush *)
Definition simple_change (add rem : Z) (f : Z * Z) : list change :=
  if has_bits f.1 add then [(true, f.2, None)] else if has_bits f.1 rem then [(false, f.2, None)] else [].
Definition simple_changes (add rem : Z) : list change := flat_map (simple_change add rem) flags.

Definition user_change (chptr : Channel) (nokey : bool) (i : item) : change :=
  (adding i, letter i,
   match i with
   | Member _ _ c => Some (cli_name c)
   | Named _ KKey _ t => Some (if nokey then [42] else string_of chptr t)
   | Named _ _ _ t => Some (string_of chptr t)
   | Limit n => Some (limit_text n)
   end).
Definition server_change (chptr : Channel) (hack2 : bool) (i : item) : change :=
  (adding i, letter i,
   match i with
   | Member _ _ c => Some (NumNick c)
   | Named _ _ _ t => Some (string_of chptr t)
   | Limit n => if hack2 then None else Some (limit_text n)
   end).
Definition invert (c : change) : change := (negb c.1.1, c.1.2, c.2).

(** What fits: names and strings of the protocol's sizes, without blanks.  The
    strings of redirections are in [sense_ok] below. *)
Definition item_ok (chptr : Channel) (i : item) : Prop :=
  match i with
  | Member _ _ c => is_word (cli_name c) /\ (length (cli_name c) <= NICKLEN)%nat /\ is_word (NumNick c) /\ (length (NumNick c) <= 5)%nat
  | Named add k _ t =>
      let s := string_of chptr t in
      (length s <= 305)%nat /\ (k = KKey -> length s <= 23)%nat /\
      match k with KRedirect => True | _ => is_word s end
  | Limit n => 0 <= n < 2 ^ 32
  end.
Definition same_limit (n : Z) (l : list item) : Prop := Forall (fun i => match i with Limit k => k = n | _ => True end) l.

Lemma last_limit_same n l o : same_limit n l -> Limit n ∈ l \/ o = Some (limit_text n) -> last_limit l o = Some (limit_text n).
Proof.
  intros H. revert o. induction H as [|i l Hi H IH]; intros o [Ho|Ho]; cbn; [by apply elem_of_nil in Ho|done|..]; apply IH.
  - apply elem_of_cons in Ho as [<-|Ho]; [by right|by left].
  - right. destruct i; cbn; [done|done|by subst].
Qed.

Lemma limit_text_word n : 0 <= n -> is_word (limit_text n) /\ (length (limit_text n) <= 19)%nat.
Proof.
  intros Hn. destruct (decimal_ok n Hn) as (Hd & Hne & _). unfold limit_text, snprintf. split; [split|].
  - intros H. by destruct (decimal n).
  - intros H. apply elem_of_take in H as (i & H & _). rewrite Forall_forall in Hd. apply list_elem_of_lookup_2, Hd in H. lia.
  - rewrite length_take. lia.
Qed.

Lemma simple_flags_ok l add rem g :
  (length (addbuf g) + length (toward true (flat_map (simple_change add rem) l)) < 20)%nat ->
  (length (rembuf g) + length (toward false (flat_map (simple_change add rem) l)) < 20)%nat ->
  simple_flags l add rem g =
  Some (MkGathered (addbuf g ++ (snd ∘ fst <$> toward true (flat_map (simple_change add rem) l)))
          (rembuf g ++ (snd ∘ fst <$> toward false (flat_map (simple_change add rem) l))) (totalbuflen g) (limitbuf g)).
Proof.
  revert g. induction l as [|[f c] l IH]; intros g Ha Hr; [destruct g; cbn; by rewrite !app_nil_r|].
  cbn [flat_map simple_flags] in *. unfold simple_change at 1 in Ha. unfold simple_change at 1 in Hr. unfold simple_change at 1 3. cbn [fst snd] in *.
  destruct (has_bits f add); [|destruct (has_bits f rem)]; cbn in Ha, Hr |- *.
  - rewrite put_ok by lia. cbn [mbind option_bind]. rewrite IH by (cbn; rewrite ?length_app; cbn; lia).
    cbn. by rewrite <- app_assoc.
  - rewrite put_ok by lia. cbn [mbind option_bind]. rewrite IH by (cbn; rewrite ?length_app; cbn; lia).
    cbn. by rewrite <- app_assoc.
  - rewrite IH by done. done.
Qed.

Lemma build_string_ok size s a b c : c <> 0 -> (length s + S (length a + length b) < size)%nat ->
  build_string size s a b c = Some (s ++ c :: a ++ b).
Proof.
  intros Hc H. unfold build_string. rewrite (proj2 (Z.eqb_neq c 0)) by done. rewrite decide_True; [done|].
  rewrite !length_app. cbn. lia.
Qed.

(** The second loop, on items. *)
Lemma put_params_items param (f : item -> change) t rest addstr remstr :
  (forall i, (f i).1.1 = adding i) ->
  (forall i, i ∈ sent_now t -> match (f i).2 with
     | None => param (arg_of i) = Some None
     | Some s => exists a b, param (arg_of i) = Some (Some (a, b)) /\ s = a ++ b
     end) ->
  (length addstr + length (params_text (snd ∘ f <$> sent_now t)) < BUFSIZE)%nat ->
  (length remstr + length (params_text (snd ∘ f <$> sent_now t)) < BUFSIZE)%nat ->
  put_params param (length t) ((slot_of <$> t) ++ rest) addstr remstr =
  Some (addstr ++ params_text (snd <$> toward true (f <$> sent_now t)),
        remstr ++ params_text (snd <$> toward false (f <$> sent_now t))).
Proof.
  intros Hf. revert addstr remstr. induction t as [|[sent i] t IH]; intros addstr remstr Hp Ha Hr; [cbn; by rewrite !app_nil_r|].
  cbn [length fmap list_fmap app put_params]. rewrite slot_saved, slot_add. cbn [fst snd].
  destruct sent; cbn [negb]; [|by apply IH]. cbn [sent_now fmap list_fmap] in *.
  assert (Hp' : forall j, j ∈ sent_now t -> match (f j).2 with None => param (arg_of j) = Some None
     | Some s => exists a b, param (arg_of j) = Some (Some (a, b)) /\ s = a ++ b end) by (intros j Hj; apply Hp; by right).
  specialize (Hp i ltac:(by left)). cbn [compose fmap list_fmap params_text] in Ha, Hr.
  change (slot_of (true, i)) with (arg_of i).
  destruct ((f i).2) as [s|] eqn:E; cbn [params_text] in Ha, Hr.
  - destruct Hp as (a & b & -> & ->). cbn [mbind option_bind]. cbn [length] in Ha, Hr. rewrite !length_app in Ha, Hr.
    rewrite build_string_ok by (done || lia). rewrite (build_string_ok _ remstr) by (done || lia).
    destruct (adding i) eqn:Ei; cbn [mbind option_bind]; rewrite IH;
      try (done || lia || (rewrite length_app; cbn [length]; rewrite length_app; lia));
      cbn [toward]; rewrite ?Hf, ?Ei; cbn [eqb fmap list_fmap]; rewrite ?E; cbn [params_text];
      rewrite <- ?app_assoc; cbn [app]; by rewrite <- ?app_assoc.
  - rewrite Hp. cbn [mbind option_bind]. rewrite IH by done.
    destruct (adding i) eqn:Ei; cbn [toward]; rewrite ?Hf, ?Ei; cbn [eqb fmap list_fmap]; rewrite ?E; done.
Qed.

(** The items have what the loops read. *)
Lemma user_param_item chptr nokey limitbuf i : item_ok chptr i ->
  (forall n, i = Limit n -> limitbuf = Some (limit_text n)) ->
  match (user_change chptr nokey i).2 with
  | None => user_param chptr nokey limitbuf (arg_of i) = Some None
  | Some s => exists a b, user_param chptr nokey limitbuf (arg_of i) = Some (Some (a, b)) /\ s = a ++ b
  end.
Proof.
  intros _ Hl. destruct i as [[] [] c|[] [] [] t|n]; try (by eexists _, []; rewrite app_nil_r).
  exists (limit_text n), []. rewrite app_nil_r. unfold user_param. by rewrite (Hl n).
Qed.

Definition limit_del (dest : Z) : Z := MODE_LIMIT .| (if has_bits dest DEST_HACK2 then MODE_DEL else MODE_ADD).

Lemma server_param_item chptr dest limitbuf i : item_ok chptr i ->
  (forall n, i = Limit n -> limitbuf = Some (limit_text n)) ->
  match (server_change chptr (has_bits dest DEST_HACK2) i).2 with
  | None => server_param chptr (limit_del dest) limitbuf (arg_of i) = Some None
  | Some s => exists a b, server_param chptr (limit_del dest) limitbuf (arg_of i) = Some (Some (a, b)) /\ s = a ++ b
  end.
Proof.
  intros _ Hl. destruct i as [add k c|add k free t|n]; cbn [server_change snd].
  - exists (take 2 (NumNick c)), (drop 2 (NumNick c)). split; [|by rewrite take_drop]. by destruct add, k.
  - exists (string_of chptr t), []. rewrite app_nil_r. by destruct add, k, free.
  - unfold server_param, limit_del. destruct (has_bits dest DEST_HACK2); [done|].
    exists (limit_text n), []. rewrite app_nil_r. by rewrite (Hl n).
Qed.

Lemma item_cost chptr nokey i : item_ok chptr i -> 1 <= cost chptr nokey i + 1 <= 306.
Proof.
  destruct i as [add k c|add k free t|n]; cbn [item_ok cost]; unfold strlen, NICKLEN.
  - intros (_ & H & _). lia.
  - intros (H & _). destruct k, nokey; lia.
  - intros H. destruct (limit_text_word n ltac:(lia)) as [_ Hn]. lia.
Qed.

Lemma user_text_length chptr nokey l : Forall (item_ok chptr) l ->
  strlen (params_text (snd ∘ user_change chptr nokey <$> l)) <= total chptr nokey l.
Proof.
  unfold strlen. induction 1 as [|i l Hi Hl IH]; [done|]. cbn [fmap list_fmap compose total foldr]. fold (total chptr nokey l).
  destruct i as [add k c|add [] free t|n]; cbn [user_change snd params_text cost]; unfold strlen;
    try destruct nokey; cbn [length]; rewrite length_app; cbn [length]; lia.
Qed.

Lemma server_text_length chptr hack2 nokey l : Forall (item_ok chptr) l ->
  strlen (params_text (snd ∘ server_change chptr hack2 <$> l)) <= total chptr nokey l + 22 * Z.of_nat (length l).
Proof.
  unfold strlen. induction 1 as [|i l Hi Hl IH]; [done|]. cbn [fmap list_fmap compose total foldr length]. fold (total chptr nokey l).
  pose proof (item_cost chptr nokey i Hi) as Hc. revert Hc.
  destruct i as [add k c|add k free t|n]; cbn [server_change snd params_text cost]; unfold strlen; intros Hc.
  - destruct Hi as (_ & _ & _ & Hn). cbn [length]. rewrite length_app. lia.
  - destruct Hi as (_ & Hk & _). cbn [length]. rewrite length_app. destruct k, nokey; try specialize (Hk eq_refl); lia.
  - destruct hack2; cbn [params_text length]; [lia|]. rewrite length_app. lia.
Qed.

Lemma letters_toward (f : item -> change) add l : (forall i, (f i).1 = (adding i, letter i)) ->
  letters add l = (snd ∘ fst) <$> toward add (f <$> l).
Proof.
  intros Hf. unfold letters. induction l as [|i l IH]; [done|]. cbn. rewrite Hf. cbn. case_match; [|done].
  cbn. by rewrite IH, Hf.
Qed.

Lemma has_bits_ldiff d m b : Z.land m b = 0 -> has_bits (Z.ldiff d m) b = has_bits d b.
Proof.
  intros H. unfold has_bits. do 2 f_equal. apply Z.bits_inj'. intros n Hn. rewrite !Z.land_spec, Z.ldiff_spec.
  pose proof (f_equal (fun z => Z.testbit z n) H) as Hb. cbn in Hb. rewrite Z.land_spec, Z.bits_0 in Hb.
  destruct (Z.testbit d n), (Z.testbit m n), (Z.testbit b n); done.
Qed.

Section flushing.
Variable IsServer IsMe : bool.
Variable source : client.
Variable FEAT_HIS_HIDEWHO FEAT_HIS_SNOTICES : bool.
Variable chptr : Channel.

Definition dest_after (d : Z) : Z := if has_bits d DEST_SERVER && has_bits d DEST_DEOP then Z.ldiff d DEST_DEOP else d.
Definition deop_change (d : Z) : list change := if has_bits d DEST_DEOP then [(true, 111, Some (NumNick source))] else [].
Definition users_sent (a r d : Z) (s : list item) : list message :=
  if has_bits d DEST_USERS
  then user_messages IsServer IsMe FEAT_HIS_HIDEWHO FEAT_HIS_SNOTICES chptr d
         (line (simple_changes a r ++ (user_change chptr (has_bits d DEST_NOKEY) <$> s)))
  else [].
Definition servers_told (a r d : Z) (s : list item) : list change :=
  simple_changes a r ++ (server_change chptr (has_bits d DEST_HACK2) <$> s) ++ deop_change d.
Definition servers_sent (a r d : Z) (s : list item) : list message :=
  if has_bits d DEST_SERVER then
    [ if has_bits d DEST_OPMODE then ToServersOpMode (line (servers_told a r d s))
      else if has_bits d DEST_BOUNCE then BounceBack (line (invert <$> servers_told a r d s)) (creationtime chptr)
      else if IsServer then ToServers (line (servers_told a r d s)) (Some (if has_bits d DEST_HACK4 then 0 else creationtime chptr))
      else ToServers (line (servers_told a r d s)) None ]
  else [].

(** The letters of a line fit into addbuf and rembuf. *)
Definition room (a r : Z) : Prop :=
  (length (toward true (simple_changes a r)) <= 13)%nat /\ (length (toward false (simple_changes a r)) <= 13)%nat.
Definition reserved (d : Z) : nat := if has_bits d DEST_DEOP then 1 else 0.
Definition left_for (d : Z) : Z := 312 - (if has_bits d DEST_DEOP then 6 else 0).
Definition taken (d : Z) (l : list item) : list (bool * item) := fitting chptr (has_bits d DEST_NOKEY) (left_for d) l.

Hypothesis source_ok : is_word (NumNick source) /\ (length (NumNick source) <= 5)%nat.

Lemma toward_invert add cs : toward add (invert <$> cs) = invert <$> toward (negb add) cs.
Proof. induction cs as [|[[[] c] p] cs IH]; [done|..]; destruct add; cbn in *; by rewrite IH. Qed.

Lemma line_invert cs : line (invert <$> cs) =
  mode_text 45 (snd ∘ fst <$> toward true cs) 43 (snd ∘ fst <$> toward false cs)
    (params_text (snd <$> toward true cs)) (params_text (snd <$> toward false cs)).
Proof. unfold line. by rewrite !toward_invert, <- !list_fmap_compose. Qed.

Lemma deop_ok d addbuf addstr : (length addbuf + reserved d < 20)%nat -> (length addstr + 6 * reserved d < BUFSIZE)%nat ->
  deop source d addbuf addstr =
  Some (if has_bits d DEST_DEOP then Z.ldiff d DEST_DEOP else d, addbuf ++ (snd ∘ fst <$> deop_change d),
        addstr ++ params_text (snd <$> deop_change d)).
Proof.
  unfold deop, reserved, deop_change. destruct (has_bits d DEST_DEOP); intros Hl Hs; [|by rewrite !app_nil_r].
  rewrite put_ok by lia. cbn [mbind option_bind]. rewrite decide_True by (rewrite length_app; cbn; lia).
  destruct source_ok as [_ H5].
  rewrite build_string_ok; [|done|rewrite length_take, length_drop; unfold BUFSIZE in *; lia].
  rewrite take_drop. cbn. by rewrite app_nil_r.
Qed.

Lemma taken_total d l : total chptr (has_bits d DEST_NOKEY) (sent_now (taken d l)) <= left_for d.
Proof. apply fitting_total. unfold left_for. case_match; lia. Qed.

Lemma taken_perm d l : sent_now (taken d l) ++ saved (taken d l) ≡ₚ l.
Proof. apply fitting_split. Qed.

Lemma taken_length d l : (length (sent_now (taken d l)) + length (saved (taken d l)) = length l)%nat.
Proof.
  rewrite <- length_app. apply Permutation_length. apply fitting_split.
Qed.

Lemma taken_ok P d l : Forall P l -> Forall P (sent_now (taken d l)) /\ Forall P (saved (taken d l)).
Proof. intros H. apply Forall_app. by rewrite (fitting_split chptr (has_bits d DEST_NOKEY) (left_for d) l). Qed.

Lemma simple_params a r add : params_text (snd <$> toward add (simple_changes a r)) = [].
Proof.
  unfold simple_changes. induction flags as [|[f c] l IH]; [done|]. cbn [flat_map]. rewrite toward_app, fmap_app, params_text_app, IH.
  rewrite app_nil_r. unfold simple_change. by repeat case_match; destruct add.
Qed.

(** The state of the buffers when the letters are collected. *)
Definition collected (a r d : Z) (l : list item) : gathered :=
  MkGathered (snd ∘ fst <$> toward true (simple_changes a r ++ (user_change chptr (has_bits d DEST_NOKEY) <$> sent_now (taken d l))))
    (snd ∘ fst <$> toward false (simple_changes a r ++ (user_change chptr (has_bits d DEST_NOKEY) <$> sent_now (taken d l))))
    (left_for d - total chptr (has_bits d DEST_NOKEY) (sent_now (taken d l))) (last_limit l None).

Lemma letters_collected a r d l add :
  (snd ∘ fst <$> toward add (simple_changes a r ++ (user_change chptr (has_bits d DEST_NOKEY) <$> sent_now (taken d l))))
  = (snd ∘ fst <$> toward add (simple_changes a r)) ++ letters add (sent_now (taken d l)).
Proof. by rewrite toward_app, fmap_app, (letters_toward (user_change chptr (has_bits d DEST_NOKEY))). Qed.

Lemma letters_length add l : (length (letters add l) <= length l)%nat.
Proof. unfold letters. rewrite length_fmap. apply pick_length. Qed.

Lemma toward_deop add d : toward add (deop_change d) = if add then deop_change d else [].
Proof. unfold deop_change. by destruct add, (has_bits d DEST_DEOP). Qed.

Lemma told_letters a r d l add : (snd ∘ fst <$> toward add (servers_told a r d (sent_now (taken d l)))) =
  (if add then addbuf (collected a r d l) else rembuf (collected a r d l)) ++ (if add then snd ∘ fst <$> deop_change d else []).
Proof.
  cbn [collected addbuf rembuf]. rewrite !letters_collected. unfold servers_told. rewrite !toward_app, !fmap_app, toward_deop.
  rewrite <- (letters_toward (server_change chptr (has_bits d DEST_HACK2))) by done. by destruct add; rewrite ?app_assoc.
Qed.

Lemma told_params a r d s add : params_text (snd <$> toward add (servers_told a r d s)) =
  params_text (snd <$> toward add (server_change chptr (has_bits d DEST_HACK2) <$> s))
  ++ (if add then params_text (snd <$> deop_change d) else []).
Proof.
  unfold servers_told. rewrite !toward_app, !fmap_app, !params_text_app, simple_params, toward_deop. by destruct add.
Qed.

Lemma dest_kept d b : Z.land DEST_DEOP b = 0 ->
  has_bits (if has_bits d DEST_DEOP then Z.ldiff d DEST_DEOP else d) b = has_bits d b.
Proof. intros H. case_match; [by apply has_bits_ldiff|done]. Qed.

Section one_pass.
Variables (a r d n0 : Z) (l : list item).
Hypothesis Hok : Forall (item_ok chptr) l.
Hypothesis Hsame : same_limit n0 l.
Hypothesis Hroom : room a r.
Hypothesis Hlen : (length l + reserved d <= 6)%nat.

Lemma limits_known i : i ∈ sent_now (taken d l) -> forall n, i = Limit n -> last_limit l None = Some (limit_text n).
Proof.
  intros Hi n ->. assert (n = n0) as -> by (by destruct (taken_ok _ d l Hsame) as [Hs _]; rewrite Forall_forall in Hs; apply Hs in Hi).
  apply last_limit_same; [done|]. left. rewrite <- (taken_perm d l). apply elem_of_app. by left.
Qed.

Lemma collected_length : (length (addbuf (collected a r d l)) + reserved d < 20)%nat /\ (length (rembuf (collected a r d l)) < 20)%nat.
Proof.
  destruct Hroom as [Ha Hr]. cbn [collected addbuf rembuf]. rewrite !letters_collected, !length_app, !length_fmap.
  pose proof (letters_length true (sent_now (taken d l))). pose proof (letters_length false (sent_now (taken d l))).
  pose proof (taken_length d l). lia.
Qed.

Lemma gather_ok :
  (g ← simple_flags flags a r (MkGathered [] [] (left_for d) None);
   gather_args chptr (has_bits d DEST_NOKEY) (length l) ((arg_of <$> l) ++ blanks (MAXMODEPARAMS - length l)) g)
  = Some (collected a r d l, (slot_of <$> taken d l) ++ blanks (MAXMODEPARAMS - length l)).
Proof.
  destruct Hroom as [Ha Hr]. unfold simple_changes in Ha, Hr. rewrite simple_flags_ok by (cbn [addbuf rembuf length]; lia).
  cbn [mbind option_bind]. fold (simple_changes a r).
  rewrite gather_args_items by (cbn [addbuf rembuf]; rewrite ?length_fmap; unfold simple_changes; cbn [app]; rewrite ?length_fmap; lia).
  cbn [addbuf rembuf totalbuflen limitbuf app]. fold (taken d l). unfold collected. by rewrite !letters_collected.
Qed.

Lemma flush_users_ok : flush_users IsServer IsMe FEAT_HIS_HIDEWHO FEAT_HIS_SNOTICES chptr (buffer a r d l) (collected a r d l)
    ((slot_of <$> taken d l) ++ blanks (MAXMODEPARAMS - length l)) = Some (users_sent a r d (sent_now (taken d l))).
Proof.
  unfold flush_users, users_sent. cbn [buffer mb_dest mb_count]. destruct (has_bits d DEST_USERS); [|done].
  destruct (taken_ok _ d l Hok) as [Hs _]. pose proof (user_text_length chptr (has_bits d DEST_NOKEY) _ Hs) as Hu.
  pose proof (taken_total d l) as Ht. unfold strlen, left_for in Hu, Ht.
  rewrite <- (fitting_length chptr (has_bits d DEST_NOKEY) (left_for d) l) at 1. fold (taken d l).
  rewrite (put_params_items _ (user_change chptr (has_bits d DEST_NOKEY)));
    [|done|intros i Hi; apply user_param_item; [by rewrite Forall_forall in Hs; apply Hs|by apply limits_known]
     |cbn [length]; unfold BUFSIZE; case_match; lia..].
  cbn [mbind option_bind app collected rembuf addbuf]. unfold line.
  by rewrite !toward_app, !(fmap_app snd), !params_text_app, !simple_params.
Qed.

Lemma flush_servers_ok : flush_servers IsServer source chptr (buffer a r d l) (collected a r d l)
    ((slot_of <$> taken d l) ++ blanks (MAXMODEPARAMS - length l)) = Some (dest_after d, servers_sent a r d (sent_now (taken d l))).
Proof.
  unfold flush_servers, servers_sent, dest_after. cbn [buffer mb_dest mb_count]. destruct (has_bits d DEST_SERVER); [|done].
  destruct (taken_ok _ d l Hok) as [Hs _].
  pose proof (server_text_length chptr (has_bits d DEST_HACK2) (has_bits d DEST_NOKEY) _ Hs) as Hu.
  pose proof (taken_total d l) as Ht. pose proof (taken_length d l) as Hn. unfold strlen in Hu.
  assert (Hbound : (length (params_text (snd ∘ server_change chptr (has_bits d DEST_HACK2) <$> sent_now (taken d l))) <= 444)%nat).
  { unfold left_for in Ht. case_match; lia. }
  fold (limit_del d).
  rewrite <- (fitting_length chptr (has_bits d DEST_NOKEY) (left_for d) l) at 1. fold (taken d l).
  rewrite (put_params_items _ (server_change chptr (has_bits d DEST_HACK2)));
    [|done|intros i Hi; apply server_param_item; [by rewrite Forall_forall in Hs; apply Hs|by apply limits_known]
     |cbn [length]; unfold BUFSIZE; lia..].
  cbn [mbind option_bind app].
  assert (Hl : forall add, (length (params_text (snd <$> toward add (server_change chptr (has_bits d DEST_HACK2) <$> sent_now (taken d l)))) <= 444)%nat).
  { intros add. etransitivity; [|exact Hbound]. rewrite list_fmap_compose. generalize (server_change chptr (has_bits d DEST_HACK2) <$> sent_now (taken d l)).
    intros cs. induction cs as [|[c [s|]] cs IH]; [done|..]; cbn [toward]; case_match; cbn [fmap list_fmap snd params_text length] in *;
      rewrite ?length_app; lia. }
  destruct collected_length as [Hca _].
  rewrite deop_ok; [|done|specialize (Hl true); unfold BUFSIZE, reserved; case_match; lia].
  cbn [mbind option_bind andb]. rewrite !dest_kept by done. rewrite line_invert. unfold line.
  rewrite !told_letters, !told_params. cbn [app]. by rewrite !app_nil_r.
Qed.

(** One pass: what fits is sent, the rest stays. *)
Lemma flush_once_ok : flush_once IsServer IsMe source FEAT_HIS_HIDEWHO FEAT_HIS_SNOTICES chptr (buffer a r d l) =
  Some (buffer 0 0 (dest_after d) (saved (taken d l)),
        users_sent a r d (sent_now (taken d l)) ++ servers_sent a r d (sent_now (taken d l)) ++ flat_map frees (sent_now (taken d l))).
Proof.
  unfold flush_once. pose proof gather_ok as G. cbn [buffer mb_dest mb_add mb_rem mb_count mb_modeargs].
  change (Z.of_nat BUFSIZE - 200) with 312. fold (left_for d). unfold mbind, option_bind in G |- *.
  destruct (simple_flags _ _ _ _) as [g|]; [|done]. rewrite G. clear G.
  destruct collected_length as [H1 H2]. rewrite decide_True by lia.
  fold (buffer a r d l). rewrite flush_users_ok, flush_servers_ok.
  pose proof (repack_slots (taken d l) (MAXMODEPARAMS - length l) 0 [] []) as R. cbn [app length blanks replicate Nat.add] in R.
  unfold taken in R at 1. rewrite fitting_length in R. replace (length l + (MAXMODEPARAMS - length l))%nat with MAXMODEPARAMS in R
    by (unfold MAXMODEPARAMS, reserved in *; lia).
  pose proof (taken_length d l) as Hn.
  replace (length (sent_now (taken d l)) + (MAXMODEPARAMS - length l))%nat with (MAXMODEPARAMS - length (saved (taken d l)))%nat in R
    by (unfold MAXMODEPARAMS, reserved in *; lia).
  by rewrite R.
Qed.
End one_pass.

(** ** What is told *)
Definition inverted (d : Z) : bool := negb (has_bits d DEST_OPMODE) && has_bits d DEST_BOUNCE.
Definition sense (d : Z) (cs : list change) : list change := if inverted d then invert <$> cs else cs.
Definition to_servers (m : message) : list change :=
  match m with ToServersOpMode t | BounceBack t _ | ToServers t _ => read_line t | _ => [] end.
Definition to_channel (m : message) : list change := match m with ToChannel _ t => read_line t | _ => [] end.

(** What the servers, and the users, are to hear of a buffer. *)
Definition told (a r d : Z) (l : list item) : list change := seen <$> sense d (servers_told a r d l).
Definition shown (a r d : Z) (l : list item) : list change :=
  if has_bits d DEST_CHANNEL then seen <$> simple_changes a r ++ (user_change chptr (has_bits d DEST_NOKEY) <$> l) else [].

(** The limit is never among the letters to add, and when bounced not among
    those to remove either. *)
Definition bounce_ok (a r d : Z) : Prop :=
  has_bits MODE_LIMIT a = false /\ (inverted d = true -> has_bits MODE_LIMIT r = false).
(** The letter L takes a parameter when a line reads as its addition, and only
    then; the parameter of a limit is left out when HACK2 is set. *)
Definition sense_ok (d : Z) (i : item) : Prop :=
  match i with
  | Named add KRedirect _ t => if xorb add (inverted d) then is_word (string_of chptr t) else string_of chptr t = []
  | Limit _ => has_bits d DEST_HACK2 = inverted d
  | _ => True
  end.
Definition items_ok (d : Z) (l : list item) : Prop := Forall (item_ok chptr) l /\ Forall (sense_ok d) l.

Lemma simple_change_readable a r d f c : bounce_ok a r d -> (f, c) ∈ flags -> Forall readable (sense d (simple_change a r (f, c))).
Proof.
  intros (Ha & Hr) Hin. unfold sense, simple_change. cbn [fst snd].
  assert (bool_decide (Forall (fun x : Z * Z => (x.2 <> 32 /\ x.2 <> 43 /\ x.2 <> 45) /\
    (x.2 = 108 /\ x.1 = MODE_LIMIT \/ takes_param true x.2 = false /\ takes_param false x.2 = false)) flags) = true) as H by by vm_compute.
  apply bool_decide_eq_true in H. rewrite Forall_forall in H. destruct (H _ Hin) as [Hs Hc]. cbn [fst snd] in Hs, Hc. clear H Hin.
  destruct Hc as [[-> ->]|Hc].
  - rewrite Ha. destruct (inverted d); [rewrite Hr by done|case_match]; repeat (constructor || split_and!); done.
  - destruct Hc as [Ht Hf]. repeat case_match; repeat (constructor || split_and!); by try apply Hs.
Qed.

Lemma simple_readable a r d : bounce_ok a r d -> Forall readable (sense d (simple_changes a r)).
Proof.
  intros Hb. pose proof (simple_change_readable a r d) as Hl. unfold simple_changes, sense in *. revert Hl.
  induction flags as [|[f c] l IH]; intros Hl; [destruct (inverted d); constructor|].
  cbn [flat_map]. specialize (IH ltac:(intros; apply Hl; by try right)). specialize (Hl f c Hb ltac:(by left)).
  destruct (inverted d); [rewrite fmap_app|]; by apply Forall_app.
Qed.

Lemma digits_readable n : 0 <= n -> 32 ∉ limit_text n /\ limit_text n <> [].
Proof. intros H. by destruct (limit_text_word n H) as [[? ?] _]. Qed.

Lemma limit_readable n : 0 <= n -> readable (true, 108, Some (limit_text n)).
Proof.
  intros H. destruct (digits_readable n H) as [H32 Hne]. unfold readable. destruct (limit_text n); [done|]. by split_and!.
Qed.

Lemma change_readable c p add : c ∈ [111; 104; 118; 98; 101; 107] -> is_word p -> readable (add, c, Some p).
Proof.
  intros Hc [Hp H32]. destruct p as [|x p]; [done|].
  assert (takes_param add c = true) by (unfold takes_param; by rewrite bool_decide_true).
  split_and!; [..|done|done]; intros ->; revert Hc; by_decide.
Qed.

Lemma server_change_readable d i : item_ok chptr i -> sense_ok d i ->
  Forall readable (sense d [server_change chptr (has_bits d DEST_HACK2) i]).
Proof.
  unfold sense. intros Hi Hr. destruct i as [add k c|add k free t|n].
  - destruct Hi as (_ & _ & Hw & _). destruct (inverted d); (constructor; [|constructor]); by apply change_readable; [destruct k; by_decide|].
  - destruct Hi as (_ & _ & Hw). destruct k.
    1-3: destruct (inverted d); (constructor; [|constructor]); by apply change_readable; [by_decide|].
    cbn in Hr. unfold server_change. destruct (string_of chptr t) as [|x s] eqn:E.
    + destruct add, (inverted d); cbn in Hr; try (by destruct Hr); (constructor; [|constructor]); split_and!; done.
    + destruct add, (inverted d); cbn in Hr; try done; (constructor; [|constructor]); destruct Hr as [_ H32]; split_and!; done.
  - cbn in Hr, Hi. unfold server_change. rewrite Hr. destruct (inverted d).
    + by repeat constructor.
    + constructor; [|constructor]. apply limit_readable. lia.
Qed.

Lemma told_readable a r d s : bounce_ok a r d -> items_ok d s -> Forall readable (sense d (servers_told a r d s)).
Proof.
  intros Hb [Hi Hs]. assert (forall x y, sense d (x ++ y) = sense d x ++ sense d y) as Happ.
  { intros x y. unfold sense. case_match; [by rewrite fmap_app|done]. }
  unfold servers_told. rewrite !Happ, !Forall_app. split_and!; [by apply simple_readable| |].
  - induction s as [|i s IH]; [unfold sense; case_match; constructor|]. apply Forall_cons in Hi as [Hi Hi'], Hs as [Hs Hs'].
    change (server_change chptr ?b <$> i :: s) with ([server_change chptr b i] ++ (server_change chptr b <$> s)).
    rewrite Happ. apply Forall_app. split; [by apply server_change_readable|by apply IH].
  - destruct source_ok as [Hw _]. unfold sense, deop_change.
    destruct (inverted d), (has_bits d DEST_DEOP); [|constructor| |constructor]; apply Forall_singleton;
      (apply (change_readable 111); [by_decide|done]).
Qed.

Lemma user_readable d a r s : bounce_ok a r d -> inverted d = false -> items_ok d s ->
  Forall readable (simple_changes a r ++ (user_change chptr (has_bits d DEST_NOKEY) <$> s)).
Proof.
  intros Hb Hd [Hi Hs]. pose proof (simple_readable a r d Hb) as H. unfold sense in H. rewrite Hd in H. apply Forall_app. split; [done|].
  apply Forall_fmap, Forall_forall. intros i Hin. rewrite Forall_forall in Hi, Hs. specialize (Hi i Hin). specialize (Hs i Hin).
  unfold compose, user_change. destruct i as [add k c|add k free t|n].
  - apply change_readable; [destruct k; by_decide|apply Hi].
  - destruct Hi as (_ & _ & Hw). destruct k; try (apply change_readable; [by_decide|done]).
    + apply change_readable; [by_decide|]. destruct (has_bits d DEST_NOKEY); [|done]. split; [done|by_decide].
    + cbn in Hs |- *. rewrite Hd, xorb_false_r in Hs. destruct add; [|by rewrite Hs].
      destruct (string_of chptr t); destruct Hs as [Hne H32]; [done|]. by split_and!.
  - apply limit_readable. cbn in Hi. lia.
Qed.

(** A message to the servers is read as the changes it is about. *)
Lemma servers_read a r d s : bounce_ok a r d -> items_ok d s -> has_bits d DEST_SERVER = true ->
  flat_map to_servers (servers_sent a r d s) ≡ₚ told a r d s.
Proof.
  intros Hb Hs Hd. unfold servers_sent, told. rewrite Hd. pose proof (told_readable a r d s Hb Hs) as Hr.
  assert (H : flat_map to_servers [if has_bits d DEST_OPMODE then ToServersOpMode (line (servers_told a r d s))
      else if has_bits d DEST_BOUNCE then BounceBack (line (invert <$> servers_told a r d s)) (creationtime chptr)
      else if IsServer then ToServers (line (servers_told a r d s)) (Some (if has_bits d DEST_HACK4 then 0 else creationtime chptr))
      else ToServers (line (servers_told a r d s)) None] = read_line (line (sense d (servers_told a r d s)))).
  { unfold sense, inverted. destruct (has_bits d DEST_OPMODE), (has_bits d DEST_BOUNCE), IsServer; cbn; by rewrite app_nil_r. }
  rewrite H, read_line_line by done. by rewrite <- fmap_app, toward_split.
Qed.

Lemma users_read a r d s : bounce_ok a r d -> inverted d = false -> items_ok d s ->
  flat_map to_channel (users_sent a r d s) ≡ₚ shown a r d s.
Proof.
  intros Hb Hd Hs. unfold users_sent, shown, user_messages.
  destruct (has_bits d DEST_CHANNEL) eqn:Hc.
  - assert (has_bits d DEST_USERS = true) as ->.
    { unfold has_bits in Hc |- *. apply negb_true_iff, Z.eqb_neq. intros E. apply negb_true_iff, Z.eqb_neq in Hc. apply Hc.
      unfold DEST_USERS in E. rewrite !Z.land_lor_distr_r, !Z.lor_eq_0_iff in E. tauto. }
    cbn [when]. rewrite !flat_map_app. unfold when. repeat case_match; cbn [flat_map to_channel app]; rewrite app_nil_r;
      (rewrite read_line_line by (by apply user_readable)); by rewrite <- fmap_app, toward_split.
  - unfold when. repeat case_match; done.
Qed.

Lemma servers_quiet a r d s : flat_map to_channel (servers_sent a r d s ++ flat_map frees s) = [] /\ flat_map to_servers (flat_map frees s) = [].
Proof.
  assert (forall f, (forall t, f (MyFree t) = []) -> flat_map f (flat_map frees s) = ([] : list change)) as Hf.
  { intros f H. induction s as [|[| ? ? [] ?|] s' IH]; cbn; rewrite ?H; done. }
  rewrite flat_map_app, !Hf by done. unfold servers_sent. by repeat case_match.
Qed.

Lemma users_quiet a r d s : flat_map to_servers (users_sent a r d s) = [].
Proof. unfold users_sent, user_messages, when. repeat case_match; done. Qed.


(** ** Whole flushes *)
Lemma dest_after_bits d b : Z.land DEST_DEOP b = 0 -> has_bits (dest_after d) b = has_bits d b.
Proof. intros H. unfold dest_after. case_match; [by apply has_bits_ldiff|done]. Qed.

Lemma dest_after_deop d : has_bits d DEST_SERVER = true -> has_bits (dest_after d) DEST_DEOP = false.
Proof.
  intros H. unfold dest_after. rewrite H. cbn [andb]. case_match; [|done].
  unfold has_bits. apply negb_false_iff, Z.eqb_eq. apply Z.bits_inj'. intros n Hn. rewrite Z.land_spec, Z.ldiff_spec, Z.bits_0.
  by destruct (Z.testbit d n), (Z.testbit DEST_DEOP n).
Qed.

Lemma inverted_after d : inverted (dest_after d) = inverted d.
Proof. unfold inverted. by rewrite !dest_after_bits. Qed.

Lemma items_ok_after d l : items_ok (dest_after d) l <-> items_ok d l.
Proof.
  unfold items_ok. assert (forall i, sense_ok (dest_after d) i <-> sense_ok d i) as H.
  { intros [| ? [] ? ? |]; cbn; rewrite ?inverted_after, ?dest_after_bits by done; done. }
  split; intros [H1 H2]; (split; [done|]); (eapply Forall_impl; [exact H2|]); intros i; apply H.
Qed.

Lemma items_ok_app d l k : items_ok d (l ++ k) <-> items_ok d l /\ items_ok d k.
Proof. unfold items_ok. rewrite !Forall_app. tauto. Qed.

Lemma items_ok_taken d l : items_ok d l -> items_ok d (sent_now (taken d l)) /\ items_ok d (saved (taken d l)).
Proof. intros [H1 H2]. apply (taken_ok _ d) in H1, H2. unfold items_ok. tauto. Qed.

Lemma sense_app d x y : sense d (x ++ y) = sense d x ++ sense d y.
Proof. unfold sense. case_match; [by rewrite fmap_app|done]. Qed.

#[local] Instance sense_perm d : Proper (Permutation ==> Permutation) (sense d).
Proof. intros x y H. unfold sense. case_match; [by rewrite H|done]. Qed.

Lemma sense_after d x : sense (dest_after d) x = sense d x.
Proof. unfold sense. by rewrite inverted_after. Qed.

(** What is not sent now is told by the rest, and nothing is told twice. *)
Lemma told_rest a r d l k : has_bits d DEST_SERVER = true ->
  told a r d (sent_now (taken d l)) ++ told 0 0 (dest_after d) (saved (taken d l) ++ k) ≡ₚ told a r d (l ++ k).
Proof.
  intros Hd. unfold told, servers_told. rewrite sense_after, dest_after_bits by done.
  assert (deop_change (dest_after d) = []) as -> by (unfold deop_change; by rewrite dest_after_deop).
  change (simple_changes 0 0) with (@nil change). cbn [app]. rewrite app_nil_r.
  rewrite <- (taken_perm d l) at 3. rewrite !fmap_app, !sense_app, !fmap_app. solve_Permutation.
Qed.

Lemma shown_rest a r d l k : has_bits d DEST_SERVER = true ->
  shown a r d (sent_now (taken d l)) ++ shown 0 0 (dest_after d) (saved (taken d l) ++ k) ≡ₚ shown a r d (l ++ k).
Proof.
  intros Hd. unfold shown. rewrite !dest_after_bits by done. case_match; [|done].
  change (simple_changes 0 0) with (@nil change). cbn [app].
  rewrite <- (taken_perm d l) at 3. rewrite !fmap_app. solve_Permutation.
Qed.

Lemma first_fits d i l : item_ok chptr i -> (length (saved (taken d (i :: l))) <= length l)%nat.
Proof.
  intros Hi. pose proof (item_cost chptr (has_bits d DEST_NOKEY) i Hi) as Hc. unfold taken. cbn [fitting].
  rewrite (proj2 (Z.leb_gt _ 0)) by (unfold left_for; case_match; lia). cbn [saved].
  match goal with |- context [fitting ?c ?n ?x l] => pose proof (Permutation_length (fitting_split c n x l)) as Hp end.
  rewrite length_app in Hp. lia.
Qed.

(** The state between two passes, [n] being the limit that is set. *)
Record ready (a r d n : Z) (l : list item) : Prop := {
  rd_items : items_ok d l;
  rd_limit : same_limit n l;
  rd_room : room a r;
  rd_bounce : bounce_ok a r d }.

Lemma ready_after a r d n l : ready a r d n l -> ready 0 0 (dest_after d) n (saved (taken d l)).
Proof.
  intros [H1 H2 H3 H4]. constructor.
  - apply items_ok_after, items_ok_taken, H1.
  - by apply taken_ok.
  - by split; apply Nat.leb_le.
  - done.
Qed.

Lemma reserved_after d : has_bits d DEST_SERVER = true -> reserved (dest_after d) = 0%nat.
Proof. intros H. unfold reserved. by rewrite dest_after_deop. Qed.

(** What one pass sends is what is told of what fitted. *)
Lemma pass_told a r d n l : ready a r d n l -> (length l + reserved d <= 6)%nat -> has_bits d DEST_SERVER = true ->
  exists sent, flush_once IsServer IsMe source FEAT_HIS_HIDEWHO FEAT_HIS_SNOTICES chptr (buffer a r d l)
    = Some (buffer 0 0 (dest_after d) (saved (taken d l)), sent) /\
  flat_map to_servers sent ≡ₚ told a r d (sent_now (taken d l)) /\
  (inverted d = false -> flat_map to_channel sent ≡ₚ shown a r d (sent_now (taken d l))).
Proof.
  intros [[H1 H1'] H2 H3 H4] Hl Hd. eexists. split; [by apply (flush_once_ok a r d n)|].
  destruct (items_ok_taken d l (conj H1 H1')) as [Hs _].
  destruct (servers_quiet a r d (sent_now (taken d l))) as [Hc Hf].
  rewrite !flat_map_app in *. rewrite users_quiet, Hf. cbn [app]. rewrite app_nil_r. split; [by apply servers_read|].
  intros Hi. rewrite Hc, app_nil_r. by apply users_read.
Qed.

Abbreviation flush := (modebuf_flush_int IsServer IsMe source FEAT_HIS_HIDEWHO FEAT_HIS_SNOTICES).

Lemma nothing_items a r d i l : nothing_to_do (buffer a r d (i :: l)) = false.
Proof. unfold nothing_to_do. cbn. apply andb_false_r. Qed.

Lemma nothing_told a r d : nothing_to_do (buffer a r d []) = true -> has_bits d DEST_DEOP = false ->
  told a r d [] = [] /\ shown a r d [] = [].
Proof.
  unfold nothing_to_do. cbn. rewrite andb_true_r, andb_true_iff, !Z.eqb_eq. intros [-> ->] Hd.
  unfold told, shown, servers_told, deop_change, sense. rewrite Hd. cbn. by repeat case_match.
Qed.

(** A flush that goes on to the end: it ends, and everything is told. *)
Lemma flush_all fuel a r d n l : ready a r d n l -> (length l + reserved d <= 6)%nat -> has_bits d DEST_SERVER = true ->
  (length l < fuel)%nat -> (nothing_to_do (buffer a r d l) = true -> has_bits d DEST_DEOP = false) ->
  exists d' sent, flush fuel chptr (buffer a r d l) true = Some (buffer 0 0 d' [], sent) /\
  flat_map to_servers sent ≡ₚ told a r d l /\ (inverted d = false -> flat_map to_channel sent ≡ₚ shown a r d l).
Proof.
  revert a r d l. induction fuel as [|fuel IH]; intros a r d l Hr Hl Hd Hf Hn; [lia|]. cbn [modebuf_flush_int].
  destruct (nothing_to_do (buffer a r d l)) eqn:E.
  { destruct l as [|i l]; [|by rewrite nothing_items in E]. destruct (nothing_told a r d E (Hn eq_refl)) as [-> ->].
    exists d, []. split; [|done]. unfold nothing_to_do in E. cbn in E. rewrite andb_true_r, andb_true_iff, !Z.eqb_eq in E.
    by destruct E as [-> ->]. }
  destruct (pass_told a r d n l Hr Hl Hd) as (sent & -> & Hs & Hc). cbn [mbind option_bind andb].
  pose proof (told_rest a r d l [] Hd) as Ht. pose proof (shown_rest a r d l [] Hd) as Hsh. rewrite !app_nil_r in Ht, Hsh.
  destruct (saved (taken d l)) as [|i k] eqn:Ek.
  - exists (dest_after d), sent. split; [done|].
    destruct (nothing_told 0 0 (dest_after d) eq_refl (dest_after_deop d Hd)) as [E1 E2]. rewrite E1, app_nil_r in Ht.
    rewrite E2, app_nil_r in Hsh. split; [by rewrite Hs|]. intros Hi. by rewrite (Hc Hi).
  - assert (Hlen : (length (i :: k) < length l)%nat).
    { destruct l as [|j l]; [done|]. rewrite <- Ek. pose proof (first_fits d j l). destruct Hr as [[Ho _] _ _ _].
      apply Forall_cons in Ho as [Ho _]. specialize (H Ho). cbn [length]. lia. }
    pose proof (ready_after a r d n l Hr) as Hr'. rewrite Ek in Hr'.
    destruct (IH 0 0 (dest_after d) (i :: k) Hr') as (d' & more & E' & Hs' & Hc').
    { rewrite reserved_after by done. lia. }
    { by rewrite dest_after_bits. }
    { lia. }
    { by rewrite nothing_items. }
    
    exists d', (sent ++ more). rewrite E'. split; [done|]. rewrite !flat_map_app, Hs, Hs'. split; [done|].
    intros Hi. rewrite (Hc Hi), (Hc' ltac:(by rewrite inverted_after)). done.
Qed.

(** ** The changes of a command, and the flush at its end *)
Definition put_item (i : item) (m : ModeBuf) : option (ModeBuf * list message) :=
  match i with
  | Member add k c => modebuf_mode_client IsServer IsMe source FEAT_HIS_HIDEWHO FEAT_HIS_SNOTICES chptr (direction add .| member_flag k) c m
  | Named add k free t => modebuf_mode_string IsServer IsMe source FEAT_HIS_HIDEWHO FEAT_HIS_SNOTICES chptr (direction add .| string_flag k) t free m
  | Limit n => modebuf_mode_uint IsServer IsMe source FEAT_HIS_HIDEWHO FEAT_HIS_SNOTICES chptr (MODE_ADD .| MODE_LIMIT) n m
  end.
Fixpoint put_items (l : list item) (m : ModeBuf) : option (ModeBuf * list message) :=
  match l with
  | [] => Some (m, [])
  | i :: l =>
      '(m, sent) ← put_item i m;
      '(m, more) ← put_items l m;
      Some (m, sent ++ more)
  end.
Definition session (l : list item) (m : ModeBuf) : option (ModeBuf * list message) :=
  '(m, sent) ← put_items l m;
  '(m, more) ← modebuf_flush IsServer IsMe source FEAT_HIS_HIDEWHO FEAT_HIS_SNOTICES chptr m;
  Some (m, sent ++ more).

Lemma put_item_arg i m : put_item i m = add_arg IsServer IsMe source FEAT_HIS_HIDEWHO FEAT_HIS_SNOTICES chptr (arg_of i) m.
Proof. by destruct i as [[] [] c|[] [] [] t|n]. Qed.

Lemma buffer_snoc a r d l i : (length l <= 5)%nat ->
  MkModeBuf a r d (S (length l)) (<[length l := arg_of i]> ((arg_of <$> l) ++ blanks (MAXMODEPARAMS - length l))) = buffer a r d (l ++ [i]).
Proof.
  clear source_ok. intros Hl. unfold buffer, MAXMODEPARAMS. rewrite length_app, fmap_app. cbn [length].
  replace (6 - length l)%nat with (S (5 - length l)) by lia. change (blanks (S ?n)) with (no_arg :: blanks n).
  rewrite <- (length_fmap arg_of l) at 2. rewrite insert_next. f_equal; [lia|]. do 2 f_equal. lia.
Qed.

Lemma ready_snoc a r d n l i : ready a r d n (l ++ [i]) -> ready a r d n l.
Proof.
  intros [H1 H2 H3 H4]. constructor; [|by apply Forall_app in H2 as [H2 _]|done|done].
  by apply items_ok_app in H1 as [H1 _].
Qed.

Lemma same_limit_app n l k : same_limit n (l ++ k) <-> same_limit n l /\ same_limit n k.
Proof. apply Forall_app. Qed.

(** One more change: a buffer with room for it has room again. *)
Lemma put_item_ok a r d n l i : ready a r d n (l ++ [i]) -> (length l + reserved d <= 5)%nat -> has_bits d DEST_SERVER = true ->
  exists a' r' d' l' sent, put_item i (buffer a r d l) = Some (buffer a' r' d' l', sent) /\
  ready a' r' d' n l' /\ (length l' + reserved d' <= 5)%nat /\ (d' = d \/ d' = dest_after d) /\
  (nothing_to_do (buffer a' r' d' l') = true -> has_bits d' DEST_DEOP = false) /\
  forall k, flat_map to_servers sent ++ told a' r' d' (l' ++ k) ≡ₚ told a r d (l ++ i :: k) /\
    (inverted d = false -> flat_map to_channel sent ++ shown a' r' d' (l' ++ k) ≡ₚ shown a r d (l ++ i :: k)).
Proof.
  intros Hr Hl Hd. rewrite put_item_arg. unfold add_arg. cbn [buffer mb_count mb_modeargs mb_add mb_rem mb_dest].
  rewrite decide_True by (rewrite length_app, length_fmap; unfold blanks, MAXMODEPARAMS; rewrite length_replicate; lia).
  cbv zeta. rewrite buffer_snoc by lia. change (slots (buffer a r d (l ++ [i]))) with (MAXMODEPARAMS - reserved d)%nat.
  assert (Hne : nothing_to_do (buffer a r d (l ++ [i])) = false) by (destruct l; apply nothing_items).
  destruct (_ <=? _)%nat eqn:E.
  - apply Nat.leb_le in E. unfold MAXMODEPARAMS in E. cbn [modebuf_flush_int flush_fuel].
    rewrite Hne. destruct (pass_told a r d n (l ++ [i]) Hr) as (sent & -> & Hs & Hc); [rewrite length_app; cbn; lia|done|].
    cbn [mbind option_bind andb]. exists 0, 0, (dest_after d), (saved (taken d (l ++ [i]))), sent. split; [done|].
    split; [by apply (ready_after a r)|]. split.
    { rewrite reserved_after by done. destruct l as [|j l].
      - pose proof (taken_length d ([] ++ [i])) as Ht. cbn [app length] in *. lia.
      - pose proof (first_fits d j (l ++ [i])) as Hf. destruct Hr as [[Ho _] _ _ _]. apply Forall_cons in Ho as [Ho _].
        specialize (Hf Ho). rewrite length_app in Hf. cbn [app length] in *. lia. }
    split; [by right|]. split; [intros _; by apply dest_after_deop|]. intros k.
    replace (l ++ i :: k) with ((l ++ [i]) ++ k) by (by rewrite <- app_assoc). split; [rewrite Hs; by apply told_rest|]. intros Hi. rewrite (Hc Hi). by apply shown_rest.
  - exists a, r, d, (l ++ [i]), []. split; [done|]. split; [done|]. apply Nat.leb_gt in E. unfold MAXMODEPARAMS in E.
    split; [rewrite length_app; cbn [length]; lia|]. split; [by left|]. split; [by rewrite Hne|]. intros k. by rewrite <- app_assoc.
Qed.

Lemma put_items_ok items a r d n l : ready a r d n (l ++ items) -> (length l + reserved d <= 5)%nat -> has_bits d DEST_SERVER = true ->
  items <> [] \/ (nothing_to_do (buffer a r d l) = true -> has_bits d DEST_DEOP = false) ->
  exists a' r' d' l' sent, put_items items (buffer a r d l) = Some (buffer a' r' d' l', sent) /\
  ready a' r' d' n l' /\ (length l' + reserved d' <= 5)%nat /\ (d' = d \/ d' = dest_after d) /\
  (nothing_to_do (buffer a' r' d' l') = true -> has_bits d' DEST_DEOP = false) /\
  flat_map to_servers sent ++ told a' r' d' l' ≡ₚ told a r d (l ++ items) /\
  (inverted d = false -> flat_map to_channel sent ++ shown a' r' d' l' ≡ₚ shown a r d (l ++ items)).
Proof.
  revert a r d l. induction items as [|i items IH]; intros a r d l Hr Hl Hd Hn.
  { exists a, r, d, l, []. rewrite app_nil_r in *. destruct Hn as [Hn|Hn]; [done|]. split_and!; auto. }
  replace (l ++ i :: items) with ((l ++ [i]) ++ items) in Hr by (by rewrite <- app_assoc). pose proof Hr as [R1 R2 R3 R4].
  assert (Hr1 : ready a r d n (l ++ [i])) by (constructor; [by apply items_ok_app in R1 as [? _]|by apply same_limit_app in R2 as [? _]|done|done]).
  destruct (put_item_ok a r d n l i Hr1 Hl Hd) as (a1 & r1 & d1 & l1 & sent & E & G1 & G2 & G3 & G4 & G5).
  assert (Hi1 : inverted d1 = inverted d) by (destruct G3 as [->| ->]; [done|apply inverted_after]).
  assert (Hrest : ready a1 r1 d1 n (l1 ++ items)).
  { destruct G1 as [S1 S2 S3 S4]. constructor; [|apply same_limit_app; split; [done|by apply same_limit_app in R2 as [_ ?]]|done|done].
    apply items_ok_app. split; [done|]. apply items_ok_app in R1 as [_ R1]. by destruct G3 as [->| ->]; [|apply items_ok_after]. }
  destruct (IH a1 r1 d1 l1 Hrest G2) as (a2 & r2 & d2 & l2 & more & E2 & K1 & K2 & K3 & K4 & K5 & K6).
  { destruct G3 as [->| ->]; [done|]. by rewrite dest_after_bits. }
  { by right. }
  exists a2, r2, d2, l2, (sent ++ more). cbn [put_items]. rewrite E. cbn [mbind option_bind]. rewrite E2. split; [done|].
  split; [done|]. split; [done|]. split.
  { destruct G3 as [->| ->]; [done|]. destruct K3 as [->| ->]; [by right|]. right. unfold dest_after at 1.
    rewrite dest_after_deop by done. by rewrite andb_false_r. }
  split; [done|].
  destruct (G5 items) as [G5s G5c]. rewrite !flat_map_app, <- !app_assoc. split; [by rewrite K5|].
  intros Hi. rewrite K6 by congruence. by apply G5c.
Qed.

(** ** The array is never overrun, and a flush ends *)
Definition well_formed (n : Z) (m : ModeBuf) : Prop :=
  exists a r d l, m = buffer a r d l /\ Forall (item_ok chptr) l /\ same_limit n l /\ room a r /\ (length l + reserved d <= 5)%nat.

Lemma reserved_le d : (reserved (dest_after d) <= reserved d <= 1)%nat.
Proof.
  clear source_ok. unfold reserved, dest_after. destruct (has_bits d DEST_SERVER) eqn:E, (has_bits d DEST_DEOP) eqn:F; cbn [andb]; rewrite ?F; try lia.
  case_match; lia.
Qed.

Lemma room_0 : room 0 0.
Proof. by split; apply Nat.leb_le. Qed.

Lemma pass_well_formed a r d n l : Forall (item_ok chptr) l -> same_limit n l -> room a r -> (length l + reserved d <= 6)%nat ->
  exists sent, flush_once IsServer IsMe source FEAT_HIS_HIDEWHO FEAT_HIS_SNOTICES chptr (buffer a r d l)
    = Some (buffer 0 0 (dest_after d) (saved (taken d l)), sent) /\
  Forall (item_ok chptr) (saved (taken d l)) /\ same_limit n (saved (taken d l)) /\
  (length (saved (taken d l)) <= length l - 1)%nat.
Proof.
  intros Hi Hn Hr Hl. eexists. split; [by apply (flush_once_ok a r d n)|]. split; [by apply taken_ok|]. split; [by apply taken_ok|].
  destruct l as [|i l]; [done|]. apply Forall_cons in Hi as [Hi _]. pose proof (first_fits d i l Hi). cbn [length]. lia.
Qed.

Lemma flush_well_formed fuel a r d n l : Forall (item_ok chptr) l -> same_limit n l -> room a r -> (length l + reserved d <= 6)%nat ->
  (length l < fuel)%nat -> exists m sent, flush fuel chptr (buffer a r d l) true = Some (m, sent) /\ nothing_to_do m = true.
Proof.
  revert a r d l. induction fuel as [|fuel IH]; intros a r d l Hi Hn Hr Hl Hf; [lia|]. cbn [modebuf_flush_int].
  destruct (nothing_to_do _) eqn:E; [by eauto|].
  destruct (pass_well_formed a r d n l Hi Hn Hr Hl) as (sent & -> & Hi' & Hn' & Hl'). cbn [mbind option_bind andb].
  destruct (saved (taken d l)) as [|i k] eqn:Ek; [by eexists _, _|]. pose proof (reserved_le d) as Hd.
  destruct (IH 0 0 (dest_after d) (i :: k) Hi' Hn' room_0 ltac:(lia) ltac:(cbn [length] in *; lia)) as (m & more & E' & Hm).
  exists m, (sent ++ more). change (mb_count (buffer 0 0 (dest_after d) (i :: k)) =? 0)%nat with false. cbn [negb]. by rewrite E'.
Qed.
End flushing.

(** How many letters the loops put into addbuf. *)
Lemma put_length buf c buf' : put buf c = Some buf' -> length buf' = S (length buf).
Proof. unfold put. case_decide; [|done]. intros [= <-]. rewrite length_app. cbn. lia. Qed.

Lemma put_letter_length add c g g' : put_letter add c g = Some g' ->
  length (addbuf g') = (length (addbuf g) + (if add then 1 else 0))%nat /\ totalbuflen g' = totalbuflen g.
Proof.
  unfold put_letter. destruct add; intros H; (destruct (put _ _) as [b|] eqn:E; [|done]); injection H as <-; cbn [addbuf totalbuflen].
  - apply put_length in E. split; [lia|done].
  - split; [lia|done].
Qed.

Lemma simple_flags_length l add rem g g' : simple_flags l add rem g = Some g' ->
  length (addbuf g') = (length (addbuf g) + length (toward true (flat_map (simple_change add rem) l)))%nat /\ totalbuflen g' = totalbuflen g.
Proof.
  revert g. induction l as [|[f c] l IH]; intros g; cbn [simple_flags flat_map]; [intros [= ->]; cbn; split; [lia|done]|].
  unfold simple_change at 1. cbn [fst snd]. rewrite toward_app, length_app.
  destruct (has_bits f add); [|destruct (has_bits f rem)]; intros H.
  1, 2: destruct (put_letter _ _ _) as [g1|] eqn:E; [|done]; apply put_letter_length in E as [E1 E2]; apply IH in H as [H1 H2];
    cbn; split; [lia|congruence].
  apply IH in H as [H1 H2]. done.
Qed.

Lemma gather_args_length chptr nokey l rest g g' l' :
  gather_args chptr nokey (length l) ((arg_of <$> l) ++ rest) g = Some (g', l') ->
  length (addbuf g') = (length (addbuf g) + length (pick true (sent_now (fitting chptr nokey (totalbuflen g) l))))%nat.
Proof.
  revert g l'. induction l as [|i l IH]; intros g l'; cbn [length fmap list_fmap app gather_args fitting]; [intros [= -> _]; cbn; lia|].
  rewrite gather_arg_item. unfold fit_arg. cbn [totalbuflen]. destruct (_ <=? 0).
  - cbn [mbind option_bind]. destruct (gather_args _ _ _ _ _) as [[g1 l1]|] eqn:E; [|done]. intros [= <- _]. by apply IH in E.
  - rewrite arg_add. cbn [put_letters]. destruct (put_letter _ _ _) as [g1|] eqn:E1; [|done]. cbn [mbind option_bind].
    destruct (gather_args _ _ _ _ _) as [[g2 l2]|] eqn:E2; [|done]. intros [= <- _].
    apply IH in E2. apply put_letter_length in E1 as [H1 H2]. cbn [addbuf totalbuflen] in *. rewrite H2 in E2. rewrite E2, H1.
    cbn [sent_now pick]. destruct (adding i); cbn [eqb length]; lia.
Qed.

(** ** Properties *)

(** C30: in a buffer whose flags are at most 13 letters to add and 13 to remove,
    whose changes with a parameter are within their sizes (names without blanks
    of NICKLEN characters, numerics of 5, strings of 305, keys of 23, limits of
    32 bits, at most one limit) and which has a slot left besides the one for
    the deop of an offender, such a change is stored, whatever the
    destinations, without leaving the array or a text buffer; afterwards the
    buffer is of that kind again, with a slot left, for the call flushed the
    array when it was full.  The slots keep the types their union members are
    read with.  (modebuf_overflow says what more letters do.) *)
Theorem modebuf_well_formed IsServer IsMe source hidewho snotices chptr n m i :
  is_word (NumNick source) /\ (length (NumNick source) <= 5)%nat ->
  well_formed chptr n m -> item_ok chptr i -> same_limit n [i] ->
  exists m' sent, put_item IsServer IsMe source hidewho snotices chptr i m = Some (m', sent) /\ well_formed chptr n m'.
Proof.
  intros Hs (a & r & d & l & -> & Hi & Hn & Hr & Hl) Hi' Hn'. rewrite put_item_arg. unfold add_arg.
  cbn [buffer mb_count mb_modeargs mb_add mb_rem mb_dest].
  rewrite decide_True by (rewrite length_app, length_fmap; unfold blanks, MAXMODEPARAMS; rewrite length_replicate; lia).
  cbv zeta. rewrite buffer_snoc by lia. change (slots (buffer a r d (l ++ [i]))) with (MAXMODEPARAMS - reserved d)%nat.
  assert (Hi2 : Forall (item_ok chptr) (l ++ [i])) by (apply Forall_app; auto).
  assert (Hn2 : same_limit n (l ++ [i])) by (apply same_limit_app; auto).
  pose proof (length_app l [i]) as Hlen. cbn [length] in Hlen.
  destruct (_ <=? _)%nat eqn:E.
  - cbn [modebuf_flush_int flush_fuel]. assert (nothing_to_do (buffer a r d (l ++ [i])) = false) as -> by (destruct l; apply nothing_items).
    destruct (pass_well_formed IsServer IsMe source hidewho snotices chptr Hs a r d n (l ++ [i]) Hi2 Hn2 Hr ltac:(lia)) as (sent & -> & Hi3 & Hn3 & Hl3).
    cbn [mbind option_bind andb]. eexists _, _. split; [done|]. eexists _, _, _, _. split; [done|]. split; [done|]. split; [done|].
    split; [apply room_0|]. pose proof (reserved_le d). lia.
  - apply Nat.leb_gt in E. unfold MAXMODEPARAMS in E. eexists _, _. split; [done|]. exists a, r, d, (l ++ [i]). split_and!; [done..|lia].
Qed.

(** C31: modebuf_flush() on such a buffer ends: however little fits into a line,
    every pass sends at least the first change that is left, so the fuel of one
    pass per slot is enough, and nothing stays behind. *)
Theorem modebuf_flush_ends IsServer IsMe source hidewho snotices chptr n m :
  is_word (NumNick source) /\ (length (NumNick source) <= 5)%nat -> well_formed chptr n m ->
  exists m' sent, modebuf_flush IsServer IsMe source hidewho snotices chptr m = Some (m', sent) /\ nothing_to_do m' = true.
Proof.
  intros Hs (a & r & d & l & -> & Hi & Hn & Hr & Hl). unfold modebuf_flush, flush_fuel, MAXMODEPARAMS.
  apply (flush_well_formed IsServer IsMe source hidewho snotices chptr Hs _ a r d n l); [done..|lia|lia].
Qed.

(** C7: the changes of a command are told once each.  However they are cut into
    lines, the lines for the servers read back as the letters without a
    parameter, the changes with one and the deop of an offender, with the sense
    inverted when they are bounced; the lines for the channel read back as the
    same changes with the names of users, unless they are bounced.

    This is for a session on a channel that is not local, with DEST_SERVER, and
    with a change that has a parameter or no offender to deop; its flags are at
    most 13 letters to add and 13 to remove, and MODE_LIMIT is not among the
    ones to add, nor when bounced among those to remove; its other changes are
    within the sizes of C30 with at most one limit, a redirection that reads as
    an addition has a channel without blanks and one that reads as a removal
    none, and a limit that is set is told with DEST_HACK2 exactly when it is
    bounced.  (modebuf_overflow and modebuf_bounce_limit are about what is
    outside this.) *)
Theorem modebuf_session IsServer IsMe source hidewho snotices chptr a r d n items :
  is_word (NumNick source) /\ (length (NumNick source) <= 5)%nat ->
  IsLocalChannel (chname chptr) = false -> has_bits d DEST_SERVER = true ->
  ready chptr a r d n items -> items <> [] \/ has_bits d DEST_DEOP = false ->
  exists m sent, session IsServer IsMe source hidewho snotices chptr items (set_bits a r (modebuf_init chptr d)) = Some (m, sent) /\
  nothing_to_do m = true /\
  flat_map to_servers sent ≡ₚ told source chptr a r d items /\
  (inverted d = false -> flat_map to_channel sent ≡ₚ shown chptr a r d items).
Proof.
  intros Hs Hloc Hd Hr Hne. unfold session, modebuf_init. rewrite Hloc.
  change (set_bits a r (MkModeBuf 0 0 d 0 (replicate MAXMODEPARAMS no_arg))) with (buffer a r d []).
  assert (Hres : (reserved d <= 1)%nat) by (apply reserved_le).
  destruct (put_items_ok IsServer IsMe source hidewho snotices chptr Hs items a r d n [] Hr ltac:(cbn [length]; lia) Hd ltac:(tauto))
    as (a' & r' & d' & l' & sent & -> & G1 & G2 & G3 & G4 & G5 & G6). cbn [mbind option_bind].
  assert (Hd' : has_bits d' DEST_SERVER = true) by (destruct G3 as [->| ->]; [done|by rewrite dest_after_bits]).
  destruct (flush_all IsServer IsMe source hidewho snotices chptr Hs flush_fuel a' r' d' n l' G1 ltac:(lia) Hd' ltac:(unfold flush_fuel, MAXMODEPARAMS; lia) G4)
    as (d'' & more & E & K1 & K2).
  unfold modebuf_flush. rewrite E. cbn [mbind option_bind]. eexists _, _. split; [done|]. split; [done|].
  rewrite !flat_map_app, K1. split; [done|]. intros Hi. rewrite K2; [by apply G6|].
  destruct G3 as [->| ->]; [done|by rewrite inverted_after].
Qed.

(** Addbuf and rembuf have 20 bytes.  When the letters to add, those of the
    flags and those of the changes that fit into the line, are 20 or more, the
    flush writes behind addbuf. *)
Theorem modebuf_overflow IsServer IsMe source hidewho snotices chptr a r d l :
  (20 <= length (toward true (simple_changes a r)) + length (pick true (sent_now (taken chptr d l))))%nat ->
  flush_once IsServer IsMe source hidewho snotices chptr (buffer a r d l) = None.
Proof.
  intros H. unfold flush_once. cbn [buffer mb_dest mb_add mb_rem mb_count mb_modeargs]. change (Z.of_nat BUFSIZE - 200) with 312.
  fold (left_for d). destruct (simple_flags _ _ _ _) as [g|] eqn:E; [|done]. cbn [mbind option_bind].
  apply simple_flags_length in E as [Eg El]. cbn [addbuf totalbuflen length] in Eg, El.
  destruct (gather_args _ _ _ _ _) as [[g' l']|] eqn:E'; [|done]. cbn [mbind option_bind].
  apply gather_args_length in E'. rewrite El in E'. fold (taken chptr d l) in E'. fold (simple_changes a r) in Eg.
  rewrite decide_False; [done|]. lia.
Qed.

(** The removal of a limit is bounced without it: whatever the limit was,
    the line that is to restore it reads +l without a parameter. *)
Theorem modebuf_bounce_limit IsServer IsMe source hidewho snotices chptr n :
  IsLocalChannel (chname chptr) = false ->
  exists m shown, modebuf_mode_uint IsServer IsMe source hidewho snotices chptr (MODE_DEL .| MODE_LIMIT) n
    (modebuf_init chptr (DEST_SERVER .| DEST_HACK2 .| DEST_BOUNCE)) = Some (m, []) /\
  (snd <$> modebuf_flush IsServer IsMe source hidewho snotices chptr m) =
    Some [HackNotice 2 shown (lit "-l") (creationtime chptr); BounceBack (lit "+l") (creationtime chptr)].
Proof.
  intros H. unfold modebuf_init. rewrite H. eexists _, (if snotices then Source else app_source IsServer IsMe hidewho 0). split; [done|].
  destruct IsServer, IsMe, hidewho, snotices; done.
Qed.

(** ** Witnesses *)
Definition sample_source : client := MkClient (lit "oper") (lit "ABAAA").
Definition sample_user : client := MkClient (lit "user") (lit "ACAAB").
Definition sample_chan : Channel := MkChannel (lit "#chan") 1000 0 [] [] [] [] (MkMode 0 0 (lit "oldkey") []) 0.
Definition sample_items : list item := [
  Member true Op sample_user; Named true KBan false (Given (lit "*!*@bad.example")); Named false KKey false KeyOf; Limit 25;
  Named false KExcept true (Given (lit "*!*@good.example")); Member false Voice sample_user;
  Named true KRedirect false (Given (lit "#other"))].

Lemma word_by_decide s : bool_decide (s <> [] /\ 32 ∉ s) = true -> is_word s.
Proof. intros H. by apply bool_decide_eq_true in H. Qed.

Lemma sample_source_ok : is_word (NumNick sample_source) /\ (length (NumNick sample_source) <= 5)%nat.
Proof. split; [by apply word_by_decide|by apply Nat.leb_le]. Qed.

Lemma sample_items_ok : Forall (item_ok sample_chan) sample_items.
Proof.
  unfold sample_items. repeat (apply Forall_cons; split); [..|apply Forall_nil].
  all: cbn; split_and?; try (by apply word_by_decide); try (by apply Nat.leb_le); try done; try (intros _; by apply Nat.leb_le); lia.
Qed.

Lemma modebuf_well_formed_witness :
  exists m' sent, put_item false false sample_source true true sample_chan (Limit 25) (buffer MODE_SECRET 0 DEST_SERVER []) = Some (m', sent)
    /\ well_formed sample_chan 25 m'.
Proof.
  apply modebuf_well_formed; [apply sample_source_ok| |cbn; lia|by repeat constructor].
  exists MODE_SECRET, 0, DEST_SERVER, []. split_and!; [done|constructor|constructor|split; by apply Nat.leb_le|by apply Nat.leb_le].
Defined.

Lemma modebuf_flush_ends_witness :
  exists m' sent, modebuf_flush false false sample_source true true sample_chan (buffer MODE_SECRET 0 DEST_SERVER [Limit 25]) = Some (m', sent)
    /\ nothing_to_do m' = true.
Proof.
  apply (modebuf_flush_ends false false sample_source true true sample_chan 25); [apply sample_source_ok|].
  exists MODE_SECRET, 0, DEST_SERVER, [Limit 25].
  split_and!; [done|by repeat constructor|by repeat constructor|split; by apply Nat.leb_le|by apply Nat.leb_le].
Defined.

Lemma modebuf_session_witness :
  exists m sent, session false false sample_source true true sample_chan sample_items
    (set_bits MODE_SECRET MODE_PRIVATE (modebuf_init sample_chan (DEST_SERVER .| DEST_CHANNEL))) = Some (m, sent) /\
  nothing_to_do m = true /\
  flat_map to_servers sent ≡ₚ told sample_source sample_chan MODE_SECRET MODE_PRIVATE (DEST_SERVER .| DEST_CHANNEL) sample_items /\
  (inverted (DEST_SERVER .| DEST_CHANNEL) = false ->
   flat_map to_channel sent ≡ₚ shown sample_chan MODE_SECRET MODE_PRIVATE (DEST_SERVER .| DEST_CHANNEL) sample_items).
Proof.
  apply (modebuf_session _ _ _ _ _ _ _ _ _ 25); [apply sample_source_ok|done|done| |by left].
  constructor; [|by repeat constructor|split; by apply Nat.leb_le|done].
  split; [apply sample_items_ok|]. unfold sample_items. repeat (apply Forall_cons; split); try done. by apply word_by_decide.
Defined.

(** An IRC operator adds fourteen modes and makes six operators. *)
Definition fourteen : Z :=
  MODE_SECRET .| MODE_MODERATED .| MODE_TOPICLIMIT .| MODE_INVITEONLY .| MODE_NOPRIVMSGS .| MODE_REGONLY .| MODE_NOCOLOUR
  .| MODE_NOCTCP .| MODE_ACCONLY .| MODE_NONOTICE .| MODE_NOQUITPARTS .| MODE_NOAMSG .| MODE_SSLONLY .| MODE_OPERONLY.
Lemma modebuf_overflow_witness :
  flush_once false false sample_source true true sample_chan
    (buffer fourteen 0 (DEST_SERVER .| DEST_CHANNEL) (replicate 6 (Member true Op sample_user))) = None.
Proof. apply modebuf_overflow. by apply Nat.leb_le. Defined.

Lemma modebuf_bounce_limit_witness :
  exists m shown, modebuf_mode_uint true false sample_source true true sample_chan (MODE_DEL .| MODE_LIMIT) 25
    (modebuf_init sample_chan (DEST_SERVER .| DEST_HACK2 .| DEST_BOUNCE)) = Some (m, []) /\
  (snd <$> modebuf_flush true false sample_source true true sample_chan m) =
    Some [HackNotice 2 shown (lit "-l") (creationtime sample_chan); BounceBack (lit "+l") (creationtime sample_chan)].
Proof. apply modebuf_bounce_limit. reflexivity. Defined.
