(* ===== verification/ModeParse.v ===== *)
(** * ircd/channel.c: mode_parse()

    The parser of MODE: it goes through the letters of an argument, takes the
    parameters from the arguments after it, notes the changes in the ParseState
    and, at the end, gives them to the buffer of [ModeBuf] and sets them in the
    channel.  The buffer does not act on the parser, so the calls of modebuf_*()
    are kept as a list of [call]s, each with the channel at that time, since
    strings may be pointers into it.  The memberships of the channel are their
    status by client, find_member_link() a look-up in it. *)
From S2P Require Import Prelude Chattr NumText IrcdString Hash Channel MsgTab Bans BanModes ModeBuf.
Open Scope ircd_scope.

Definition CHFL_DEOPPED : Z := 0x4.
Definition CHFL_BANVALID : Z := 0x800.
Definition CHFL_EXCEPTVALID : Z := 0x200000.
Definition KEYLEN : nat := 23.

Definition PARSE_SET : Z := 0x01.
Definition PARSE_STRICT : Z := 0x02.
Definition PARSE_FORCE : Z := 0x04.
Definition PARSE_BOUNCE : Z := 0x08.
Definition PARSE_NOTOPER : Z := 0x10.
Definition PARSE_NOTMEMBER : Z := 0x20.
Definition PARSE_WIPEOUT : Z := 0x40.
Definition PARSE_BURST : Z := 0x80.
Definition PARSE_ISHALFOP : Z := 0x100.

Definition DONE_LIMIT : Z := 0x01.
Definition DONE_KEY : Z := 0x02.
Definition DONE_BANLIST : Z := 0x04.
Definition DONE_NOTOPER : Z := 0x08.
Definition DONE_EXCEPTLIST : Z := 0x20.
Definition DONE_REDIRECT : Z := 0x80.

(** What the parser asks about the sender, and the configuration. *)
Record sptr := MkSptr {
  MyUser : bool; MyConnect : bool; IsServer : bool; IsOper : bool; IsAdmin : bool; IsChannelService : bool;
  IsSSL : bool; IsXtraOp : bool; IsBurst : bool;
  IsService : bool;                          (* of a server, or the server of a user *)
  who_id : N; who_name : list Z }.

Record features := MkFeatures {
  FEAT_EXCEPTS : bool; FEAT_BREAK_P10 : bool; FEAT_HALFOPS : bool; FEAT_EXTBANS : bool; FEAT_ALLOW_TEXT_HOST : bool;
  FEAT_CHMODE : Z -> bool;                   (* FEAT_CHMODE_c and so on, by letter *)
  FEAT_EXTBAN : Z -> bool; FEAT_EXTEXCEPT : Z -> bool;
  FEAT_AVBANLEN : Z; FEAT_MAXBANS : Z; FEAT_AVEXCEPTLEN : Z; FEAT_MAXEXCEPTS : Z }.

(** The channel: [c_chan] for its modes, and the lists the parser changes. *)
Record chan := MkChan { c_chan : Channel; c_status : gmap N Z; c_bans : list entry; c_excepts : list entry }.
Definition c_mode (c : chan) : Mode := chmode (c_chan c).
Definition set_c_chan (f : Channel -> Channel) (c : chan) : chan := MkChan (f (c_chan c)) (c_status c) (c_bans c) (c_excepts c).
Definition set_mode (f : Mode -> Mode) : chan -> chan := set_c_chan (fun c => set_chmode (f (chmode c)) c).
Definition set_status (f : gmap N Z -> gmap N Z) (c : chan) : chan := MkChan (c_chan c) (f (c_status c)) (c_bans c) (c_excepts c).
Definition set_creationtime (t : Z) (c : Channel) : Channel :=
  MkChannel (chname c) t (users c) (members c) (invites c) (banlist c) (exceptlist c) (chmode c) (marker c).

(** The calls of modebuf_mode() and the others. *)
Inductive call :=
| CallMode (mode : Z)
| CallUint (mode : Z) (n : Z)
| CallString (mode : Z) (t : text) (freeh : bool)
| CallClient (mode : Z) (c : N).

Inductive answer :=
| NeedMore | NotPrivileged | UnknownMode (c : Z) | KeySet | RedirectSet | NoSuchChannel (s : list Z) | LinkSelf
| NotInChannel (c : N) | ChanService (c : N) (network : bool) | OperLChan (c : N) | DeopNotice
| NoOperRights | ListReply (r : reply).

Record pstate := MkP {
  p_args : list (list Z); p_used : nat; p_max : Z;
  p_adding : bool; p_done : Z; p_add : Z; p_del : Z;
  p_bans : pending; p_excepts : pending; p_cli : list (Z * N);
  p_chan : chan; p_log : list (Channel * call); p_answers : list answer }.

Definition set_in (args : list (list Z)) (used : nat) (max : Z) (st : pstate) : pstate :=
  MkP args used max (p_adding st) (p_done st) (p_add st) (p_del st) (p_bans st) (p_excepts st) (p_cli st)
    (p_chan st) (p_log st) (p_answers st).
Definition set_dir (d : bool) (st : pstate) : pstate :=
  MkP (p_args st) (p_used st) (p_max st) d (p_done st) (p_add st) (p_del st) (p_bans st) (p_excepts st) (p_cli st)
    (p_chan st) (p_log st) (p_answers st).
Definition set_done (d : Z) (st : pstate) : pstate :=
  MkP (p_args st) (p_used st) (p_max st) (p_adding st) (p_done st .| d) (p_add st) (p_del st) (p_bans st) (p_excepts st) (p_cli st)
    (p_chan st) (p_log st) (p_answers st).
Definition set_add_del (add del : Z) (st : pstate) : pstate :=
  MkP (p_args st) (p_used st) (p_max st) (p_adding st) (p_done st) add del (p_bans st) (p_excepts st) (p_cli st)
    (p_chan st) (p_log st) (p_answers st).
Definition set_pending (b e : pending) (st : pstate) : pstate :=
  MkP (p_args st) (p_used st) (p_max st) (p_adding st) (p_done st) (p_add st) (p_del st) b e (p_cli st)
    (p_chan st) (p_log st) (p_answers st).
Definition set_cli (l : list (Z * N)) (st : pstate) : pstate :=
  MkP (p_args st) (p_used st) (p_max st) (p_adding st) (p_done st) (p_add st) (p_del st) (p_bans st) (p_excepts st) l
    (p_chan st) (p_log st) (p_answers st).
Definition set_chan (f : chan -> chan) (st : pstate) : pstate :=
  MkP (p_args st) (p_used st) (p_max st) (p_adding st) (p_done st) (p_add st) (p_del st) (p_bans st) (p_excepts st) (p_cli st)
    (f (p_chan st)) (p_log st) (p_answers st).
Definition call_buf (c : call) (st : pstate) : pstate :=
  MkP (p_args st) (p_used st) (p_max st) (p_adding st) (p_done st) (p_add st) (p_del st) (p_bans st) (p_excepts st) (p_cli st)
    (p_chan st) (p_log st ++ [(c_chan (p_chan st), c)]) (p_answers st).
Definition answer_with (a : answer) (st : pstate) : pstate :=
  MkP (p_args st) (p_used st) (p_max st) (p_adding st) (p_done st) (p_add st) (p_del st) (p_bans st) (p_excepts st) (p_cli st)
    (p_chan st) (p_log st) (p_answers st ++ [a]).
Definition answer_if (c : bool) (a : answer) (st : pstate) : pstate := if c then answer_with a st else st.

Section parse.
Variable s : sptr.
Variable F : features.
(** find_chasing() for own users, findNUser() for servers. *)
Variable find_client : list Z -> option N.
Variables ClientIsService ServerIsService PRIV_DEOP_LCHAN : N -> bool.
Variable now : Z.
(** Is there a buffer, is its destination OPMODE, and the flags. *)
Variables mbuf opmode : bool.
Variable flags : Z.
(** The membership of the sender, when it is given. *)
Variable member : option Z.

Definition parse_flag (m : Z) : bool := has_bits flags m.
Definition no_rights : bool := parse_flag (PARSE_NOTOPER .| PARSE_NOTMEMBER).
Definition dir (st : pstate) : Z := direction (p_adding st).
Definition was_done (d : Z) (st : pstate) : bool := has_bits (p_done st) d.

Definition send_notoper (st : pstate) : pstate :=
  if was_done DONE_NOTOPER st then st else set_done DONE_NOTOPER (answer_with NoOperRights st).

(** state->parv[state->args_used++], with its counters. *)
Definition grab (st : pstate) : option (list Z * pstate) :=
  match p_args st with
  | [] => None
  | a :: r => Some (a, set_in r (S (p_used st)) (p_max st - 1) st)
  end.

(** strtoul(s, 0, 10), stored in an unsigned int. *)
Definition strtoul (t : list Z) : Z :=
  let t := skip_blanks t in
  let neg := hd0 t =? 45 in
  let n := lead_number (if neg || (hd0 t =? 43) then drop 1 t else t) 0 in
  u32 (if 2 ^ 64 <=? n then 2 ^ 64 - 1 else if neg then - n else n).

(** ** mode_parse_limit() *)
Definition set_limit (t_limit : Z) (st : pstate) : pstate :=
  let old := c_mode (p_chan st) in
  if no_rights then send_notoper st
  else if negb (p_adding st) && (limit old =? 0) then st
  else if parse_flag PARSE_BURST && has_bits (mode old) MODE_LIMIT && (limit old <? t_limit) then st
  else if was_done DONE_LIMIT st then st
  else
    let st := set_done DONE_LIMIT st in
    if negb mbuf then st
    else
      let st := call_buf (CallUint (dir st .| MODE_LIMIT) t_limit) st in
      if parse_flag PARSE_SET then
        set_chan (set_mode (fun m =>
          if p_adding st then MkMode (mode m .| MODE_LIMIT) t_limit (key m) (redirect m)
          else MkMode (Z.ldiff (mode m) MODE_LIMIT) 0 (key m) (redirect m))) st
      else st.

Definition mode_parse_limit (st : pstate) : pstate :=
  if p_adding st then
    if MyUser s && (p_max st <=? 0) then st
    else
      match grab st with
      | None => answer_if (MyUser s) NeedMore st
      | Some (arg, st) =>
          let t_limit := strtoul arg in
          if 2 ^ 31 <=? t_limit then st
          else if negb (parse_flag PARSE_WIPEOUT) && ((t_limit =? 0) || (t_limit =? limit (c_mode (p_chan st)))) then st
          else set_limit t_limit st
      end
  else set_limit (limit (c_mode (p_chan st))) st.

(** The loop that cuts keys and channel names off. *)
Fixpoint clean_param (n : nat) (t : list Z) : list Z :=
  match t with
  | c :: r =>
      if (32 <? schar c) && negb (c =? 58) && negb (c =? 44)
      then match n with O => [] | S n => c :: clean_param n r end
      else []
  | [] => []
  end.

Definition is_empty (t : list Z) : bool := match t with [] => true | _ => false end.

(** ** mode_parse_key() *)
Definition set_key (t_str : list Z) (st : pstate) : pstate :=
  let old := key (c_mode (p_chan st)) in
  if parse_flag PARSE_BURST && negb (is_empty old) && (ircd_strcmp old t_str <=? 0) then st
  else if negb (parse_flag PARSE_FORCE) &&
    ((p_adding st && negb (is_empty old)) || (negb (p_adding st) && negb (ircd_strcmp old t_str =? 0)))
  then answer_with KeySet st
  else if negb (parse_flag PARSE_WIPEOUT) && p_adding st && (ircd_strcmp old t_str =? 0) then st
  else
    let st :=
      if parse_flag PARSE_BOUNCE then
        if is_empty old then call_buf (CallString (MODE_ADD .| MODE_KEY) (Given t_str) false) st
        else call_buf (CallString (MODE_DEL .| MODE_KEY) KeyOf false) st
      else call_buf (CallString (dir st .| MODE_KEY) (Given t_str) false) st in
    if parse_flag PARSE_SET
    then set_chan (set_mode (fun m => MkMode (mode m) (limit m) (if p_adding st then take KEYLEN t_str else []) (redirect m))) st
    else st.

Definition mode_parse_key (st : pstate) : pstate :=
  if MyUser s && (p_max st <=? 0) then st
  else
    match grab st with
    | None => answer_if (MyUser s) NeedMore st
    | Some (arg, st) =>
        if no_rights then send_notoper st
        else if was_done DONE_KEY st then st
        else
          let st := set_done DONE_KEY st in
          let t_str := clean_param KEYLEN arg in
          if is_empty t_str then answer_if (MyUser s) NeedMore st
          else if negb mbuf then st
          else set_key t_str st
    end.

(** ** mode_parse_redirect() *)
Definition IsChannelName (t : list Z) : bool := (hd0 t =? 35) || (hd0 t =? 38).

Definition set_redirect (t : text) (st : pstate) : pstate :=
  let old := redirect (c_mode (p_chan st)) in
  let t_str := string_of (c_chan (p_chan st)) t in
  if parse_flag PARSE_BURST && negb (is_empty old) && (ircd_strcmp old t_str <=? 0) then st
  else if negb (parse_flag PARSE_FORCE) && p_adding st && negb (is_empty old) then answer_with RedirectSet st
  else if negb (parse_flag PARSE_WIPEOUT) && p_adding st && (ircd_strcmp old t_str =? 0) then st
  else
    let st :=
      if parse_flag PARSE_BOUNCE then
        if is_empty old then call_buf (CallString (MODE_ADD .| MODE_REDIRECT) t false) st
        else call_buf (CallString (MODE_DEL .| MODE_REDIRECT) RedirectOf false) st
      else call_buf (CallString (dir st .| MODE_REDIRECT) t false) st in
    if parse_flag PARSE_SET
    then set_chan (set_mode (fun m => MkMode (mode m) (limit m) (key m) (if p_adding st then take CHANNELLEN t_str else []))) st
    else st.

Definition mode_parse_redirect (st : pstate) : pstate :=
  if MyUser s && (p_max st <=? 0) then st
  else if no_rights then send_notoper st
  else if was_done DONE_REDIRECT st then st
  else
    let st := set_done DONE_REDIRECT st in
    if negb mbuf then st
    else if p_adding st then
      match grab st with
      | None => answer_if (MyUser s) NeedMore st
      | Some (arg, st) =>
          let t_str := clean_param CHANNELLEN arg in
          if is_empty t_str then answer_if (MyUser s) NeedMore st
          else if negb (IsChannelName t_str) then answer_with (NoSuchChannel t_str) st
          else if ircd_strcmp t_str (chname (c_chan (p_chan st))) =? 0 then answer_with LinkSelf st
          else set_redirect (Given t_str) st
      end
    else set_redirect RedirectOf st.

(** ** mode_parse_ban(), mode_parse_except(), on their part of the state *)
Definition list_sender : sender := MkSender (MyUser s) (IsServer s) (who_name s).

Definition parse_list (is_ban : bool) (st : pstate) : option pstate :=
  let listed := if is_ban then DONE_BANLIST else DONE_EXCEPTLIST in
  let part := MkPS (p_args st) (p_max st) (was_done listed st) (was_done DONE_NOTOPER st) (if is_ban then p_bans st else p_excepts st) [] in
  part ← (if is_ban
          then mode_parse_ban (FEAT_EXTBAN F) (FEAT_EXTBANS F) (FEAT_ALLOW_TEXT_HOST F) list_sender
                 (parse_flag PARSE_NOTOPER) (parse_flag PARSE_NOTMEMBER) (parse_flag PARSE_ISHALFOP) (p_adding st) now part
          else mode_parse_except (FEAT_EXTEXCEPT F) (FEAT_EXTBANS F) (FEAT_ALLOW_TEXT_HOST F) list_sender
                 (parse_flag PARSE_NOTOPER) (parse_flag PARSE_NOTMEMBER) (parse_flag PARSE_ISHALFOP) (p_adding st) now part);
  let st := set_in (ps_args part) (p_used st + (length (p_args st) - length (ps_args part))) (ps_max_args part) st in
  let st := if ps_listed part then set_done listed st else st in
  let st := if ps_notoper part then set_done DONE_NOTOPER st else st in
  let st := if is_ban then set_pending (ps_pending part) (p_excepts st) st else set_pending (p_bans st) (ps_pending part) st in
  Some (foldl (fun st r => answer_with (ListReply r) st) st (ps_sent part)).

(** ** mode_parse_client(), mode_parse_client_voice(), mode_parse_dummy() *)

(** The slot of cli_change[] that is used: one with the same client and mode, or
    the next; [None] behind the array. *)
Fixpoint put_change (flag : Z) (change : Z * N) (l : list (Z * N)) : list (Z * N) :=
  match l with
  | [] => [change]
  | (f, c) :: r => if bool_decide (c = change.2) && has_bits f flag then change :: r else (f, c) :: put_change flag change r
  end.

Definition parse_client (voice : bool) (flag : Z) (st : pstate) : option pstate :=
  if MyUser s && (p_max st <=? 0) then Some st
  else
    match grab st with
    | None => Some st
    | Some (t_str, st) =>
        if negb voice && no_rights then Some (send_notoper st)
        else
          match find_client t_str with
          | None => Some st
          | Some acptr =>
              let l := put_change flag (dir st .| flag, acptr) (p_cli st) in
              if decide (length l <= MAXPARA)%nat then Some (set_cli l st) else None
          end
    end.
Definition mode_parse_client := parse_client false.
Definition mode_parse_client_voice := parse_client true.

Definition mode_parse_dummy (st : pstate) : pstate :=
  if MyUser s && (p_max st <=? 0) then st
  else match grab st with None => st | Some (_, st) => st end.

(** ** mode_parse_mode(), with its assertions *)
Definition mode_parse_mode (flag : Z) (st : pstate) : option pstate :=
  if no_rights then Some (send_notoper st)
  else if negb mbuf then Some st
  else
    let '(add, del) :=
      if p_adding st then
        let add := p_add st .| flag in
        let del := Z.ldiff (p_del st) flag in
        let '(add, del) :=
          if has_bits flag MODE_SECRET then (Z.ldiff add MODE_PRIVATE, del .| MODE_PRIVATE)
          else if has_bits flag MODE_PRIVATE then (Z.ldiff add MODE_SECRET, del .| MODE_SECRET) else (add, del) in
        if has_bits flag MODE_NOCOLOUR then (Z.ldiff add MODE_STRIP, del .| MODE_STRIP)
        else if has_bits flag MODE_STRIP then (Z.ldiff add MODE_NOCOLOUR, del .| MODE_NOCOLOUR) else (add, del)
      else (Z.ldiff (p_add st) flag, p_del st .| flag) in
    if has_bits add del then None
    else if add .& (MODE_SECRET .| MODE_PRIVATE) =? MODE_SECRET .| MODE_PRIVATE then None
    else Some (set_add_del add del st).

(** ** mode_parse(): the letters *)
Definition chan_flags : list (Z * Z) := [
  (111, CHFL_CHANOP); (104, CHFL_HALFOP); (118, CHFL_VOICE); (112, MODE_PRIVATE); (115, MODE_SECRET); (109, MODE_MODERATED);
  (116, MODE_TOPICLIMIT); (105, MODE_INVITEONLY); (110, MODE_NOPRIVMSGS); (107, MODE_KEY); (98, MODE_BAN); (101, MODE_EXCEPT);
  (108, MODE_LIMIT); (114, MODE_REGONLY); (99, MODE_NOCOLOUR); (83, MODE_STRIP); (67, MODE_NOCTCP); (77, MODE_ACCONLY);
  (78, MODE_NONOTICE); (79, MODE_OPERONLY); (97, MODE_ADMINONLY); (81, MODE_NOQUITPARTS); (90, MODE_SSLONLY); (84, MODE_NOAMSG);
  (76, MODE_REDIRECT); (122, MODE_PERSIST); (43, MODE_ADD); (45, MODE_DEL)].
Definition flag_of (c : Z) : option Z := snd <$> List.find (fun x => x.1 =? c) chan_flags.

(** A mode that not everybody may change. *)
Definition if_allowed (allowed : bool) (flag : Z) (st : pstate) : option pstate :=
  if allowed then mode_parse_mode flag st else Some (answer_with NotPrivileged st).
Definition by_feature (c flag : Z) : pstate -> option pstate :=
  if_allowed (FEAT_CHMODE F c || IsServer s || IsOper s) flag.

Definition parse_letter (c : Z) (st : pstate) : option pstate :=
  match flag_of c with
  | None => Some (answer_if (MyUser s) (UnknownMode c) st)
  | Some flag =>
      if c =? 43 then Some (set_dir true st)
      else if c =? 45 then Some (set_dir false st)
      else if c =? 108 then Some (mode_parse_limit st)
      else if c =? 107 then Some (mode_parse_key st)
      else if c =? 98 then parse_list true st
      else if c =? 101 then
        if (FEAT_EXCEPTS F && FEAT_BREAK_P10 F) || IsServer s then parse_list false st else Some (mode_parse_dummy st)
      else if c =? 118 then
        match member with
        | Some m => if has_bits m CHFL_HALFOP && negb (has_bits m CHFL_CHANOP)
                    then mode_parse_client_voice flag st else mode_parse_client flag st
        | None => mode_parse_client flag st
        end
      else if c =? 111 then mode_parse_client flag st
      else if c =? 104 then if FEAT_HALFOPS F || IsServer s then mode_parse_client flag st else Some (mode_parse_dummy st)
      else if c =? 97 then if_allowed ((FEAT_CHMODE F c && IsAdmin s) || IsServer s || IsChannelService s) flag st
      else if c =? 76 then
        if FEAT_CHMODE F c || IsServer s || IsOper s then Some (mode_parse_redirect st) else Some (answer_with NotPrivileged st)
      else if c =? 79 then if_allowed ((FEAT_CHMODE F c && IsOper s) || IsServer s || IsChannelService s) flag st
      else if c =? 90 then
        if_allowed ((FEAT_CHMODE F c && MyConnect s && IsSSL s) || negb (MyConnect s) || IsServer s || IsChannelService s) flag st
      else if c =? 122 then if negb (IsBurst s) && negb (IsService s) then Some st else mode_parse_mode flag st
      else if bool_decide (c ∈ [99; 67; 77; 78; 81; 83; 84]) then by_feature c flag st
      else mode_parse_mode flag st
  end.

Fixpoint parse_letters (modestr : list Z) (st : pstate) : option pstate :=
  match modestr with
  | [] => Some st
  | c :: modestr => st ← parse_letter c st; parse_letters modestr st
  end.

(** The outer loop: further arguments with letters, and the time stamp at the
    end of a server's message. *)
Fixpoint parse_args (fuel : nat) (modestr : list Z) (st : pstate) : option pstate :=
  match modestr, fuel with
  | [], _ => Some st
  | _, O => None
  | _, S fuel =>
      st ← parse_letters modestr st;
      if parse_flag PARSE_BURST then Some st
      else
        match p_args st with
        | [] => Some st
        | next :: rest =>
            let st' := set_in rest (S (p_used st)) (p_max st) st in
            if IsServer s && (match rest with [] => true | _ => false end) && IsDigit (hd0 next) then
              if negb (parse_flag PARSE_SET) then Some st'
              else
                let recv_ts := atoi next in
                Some (if negb (recv_ts =? 0) && (recv_ts <? creationtime (c_chan (p_chan st)))
                      then set_chan (set_c_chan (set_creationtime recv_ts)) st' else st')
            else if parse_flag PARSE_STRICT || (MyUser s && (p_max st <=? 0)) then Some st
            else parse_args fuel next st'
        end
  end.

(** ** mode_process_clients() *)
Definition process_client (change : Z * N) (st : pstate) : pstate :=
  let '(flag, c) := change in
  match c_status (p_chan st) !! c with
  | None => answer_if (MyUser s) (NotInChannel c) st
  | Some status =>
      if MyUser s && has_bits status CHFL_ZOMBIE then answer_with (NotInChannel c) st
      else if (has_bits flag MODE_ADD && has_bits flag status) || (has_bits flag MODE_DEL && negb (has_bits flag status)) then st
      else
        let deop := flag .& (MODE_DEL .| CHFL_CHANOP) =? MODE_DEL .| CHFL_CHANOP in
        let protected := (ClientIsService c && ServerIsService c) || (ClientIsService c && negb (IsXtraOp s)) in
        if deop && protected && negb (parse_flag PARSE_FORCE) && MyUser s && parse_flag PARSE_SET && negb (bool_decide (who_id s = c))
        then answer_with (ChanService c (ServerIsService c && ClientIsService c)) st
        else
          let st := answer_if (deop && protected && parse_flag PARSE_FORCE) DeopNotice st in
          if deop && MyUser s && negb (bool_decide (c = who_id s)) && IsLocalChannel (chname (c_chan (p_chan st))) && PRIV_DEOP_LCHAN c
          then answer_with (OperLChan c) st
          else
            let st := call_buf (CallClient flag c) st in
            if parse_flag PARSE_SET then
              let kept := flag .& MODE_MEMBER in
              set_chan (set_status (fun m => <[c :=
                if has_bits flag MODE_ADD
                then (let status := status .| kept in if has_bits flag CHFL_CHANOP then Z.ldiff status CHFL_DEOPPED else status)
                else Z.ldiff status kept]> m)) st
            else st
  end.

(** The loop reads a flag behind the array when all of it is used. *)
Definition mode_process_clients (st : pstate) : option pstate :=
  if decide (length (p_cli st) < MAXPARA)%nat then Some (foldl (fun st change => process_client change st) st (p_cli st)) else None.

(** ** The end of mode_parse() *)

(** mode_invite_clear(), mode_ban_invalidate() and mode_except_invalidate(). *)
Definition mode_invite_clear : chan -> chan := set_c_chan (set_invites []).
Definition invalidate (bit : Z) : chan -> chan := set_status (fun m => (fun status => Z.ldiff status bit) <$> m).
Definition mode_ban_invalidate : chan -> chan := invalidate CHFL_BANVALID.
Definition mode_except_invalidate : chan -> chan := invalidate CHFL_EXCEPTVALID.

(** Deleting modes and then adding modes: the call, and what is left. *)
Definition delete_modes (del t_mode : Z) : list call * Z :=
  if has_bits del t_mode then ([CallMode (MODE_DEL .| (del .& t_mode))], Z.ldiff t_mode del) else ([], t_mode).
Definition add_modes (add t_mode : Z) : list call * Z :=
  if Z.ldiff add t_mode =? 0 then ([], t_mode) else ([CallMode (MODE_ADD .| Z.ldiff add t_mode)], t_mode .| add).

Definition end_modes (st : pstate) : pstate :=
  let old := mode (c_mode (p_chan st)) in
  let '(dels, t_mode) := delete_modes (p_del st) old in
  let '(adds, t_mode) := add_modes (p_add st) t_mode in
  let st := foldl (fun st c => call_buf c st) st (dels ++ adds) in
  if parse_flag PARSE_SET then
    let st := if has_bits old MODE_INVITEONLY && negb (has_bits t_mode MODE_INVITEONLY) then set_chan mode_invite_clear st else st in
    set_chan (set_mode (fun m => MkMode t_mode (limit m) (key m) (redirect m))) st
  else st.

Definition end_wipeout (st : pstate) : pstate :=
  if parse_flag PARSE_WIPEOUT then
    let m := c_mode (p_chan st) in
    let st := if negb (limit m =? 0) && negb (was_done DONE_LIMIT st) then call_buf (CallUint (MODE_DEL .| MODE_LIMIT) (limit m)) st else st in
    let st := if negb (is_empty (key m)) && negb (was_done DONE_KEY st) then call_buf (CallString (MODE_DEL .| MODE_KEY) KeyOf false) st else st in
    if negb (is_empty (redirect m)) && negb (was_done DONE_REDIRECT st)
    then call_buf (CallString (MODE_DEL .| MODE_REDIRECT) RedirectOf false) st else st
  else st.

(** The bans and exceptions; when nothing was done to them there is nothing to
    process. *)
Definition end_list (is_ban : bool) (st : pstate) : option pstate :=
  let part := if is_ban then p_bans st else p_excepts st in
  if p_clean part then
    c ← (if is_ban
         then mode_process_bans (parse_flag PARSE_SET) (parse_flag PARSE_BOUNCE) (MyUser s && negb opmode)
                (FEAT_AVBANLEN F * FEAT_MAXBANS F) (FEAT_MAXBANS F) (p_list part)
         else mode_process_excepts (parse_flag PARSE_SET) (parse_flag PARSE_BOUNCE) (MyUser s && negb opmode)
                (FEAT_AVEXCEPTLEN F * FEAT_MAXEXCEPTS F) (FEAT_MAXEXCEPTS F) (p_list part));
    let flag := if is_ban then MODE_BAN else MODE_EXCEPT in
    let st := foldl (fun st (x : bool * list Z) =>
        call_buf (CallString (direction x.1 .| flag) (Given x.2) (if x.1 then negb (parse_flag PARSE_SET) else parse_flag PARSE_SET)) st)
      st (c_changes c) in
    let st := foldl (fun st r => answer_with (ListReply r) st) st (c_full c) in
    let st := set_chan (fun ch => if is_ban then MkChan (c_chan ch) (c_status ch) (c_list c) (c_excepts ch)
                                  else MkChan (c_chan ch) (c_status ch) (c_bans ch) (c_list c)) st in
    Some (if c_changed c then set_chan (if is_ban then mode_ban_invalidate else mode_except_invalidate) st else st)
  else Some st.

Definition mode_parse_end (st : pstate) : option pstate :=
  if negb mbuf || (no_rights && negb (parse_flag PARSE_ISHALFOP)) then Some st
  else
    let st := end_wipeout (end_modes st) in
    st ← end_list true st;
    st ← end_list false st;
    mode_process_clients st.

Definition start (ch : chan) (args : list (list Z)) (used : nat) : pstate :=
  MkP args used (Z.of_nat MAXMODEPARAMS) true 0 0 0 (no_pending (c_bans ch)) (no_pending (c_excepts ch)) [] ch [] [].

(** mode_parse(): [None] when it is called without an argument, too. *)
Definition mode_parse (ch : chan) (parv : list (list Z)) : option pstate :=
  match parv with
  | [] => None
  | modestr :: args =>
      st ← parse_args (S (length args)) modestr (start ch args 1);
      mode_parse_end st
  end.

(** ** The steps of the parser *)
Definition simple_bits : list Z := [
  MODE_PRIVATE; MODE_SECRET; MODE_MODERATED; MODE_TOPICLIMIT; MODE_INVITEONLY; MODE_NOPRIVMSGS; MODE_REGONLY; MODE_NOCOLOUR;
  MODE_STRIP; MODE_NOCTCP; MODE_ACCONLY; MODE_NONOTICE; MODE_OPERONLY; MODE_ADMINONLY; MODE_NOQUITPARTS; MODE_SSLONLY;
  MODE_NOAMSG; MODE_PERSIST].

Inductive letter_step (st : pstate) : pstate -> Prop :=
| ls_skip : letter_step st st
| ls_answer a : letter_step st (answer_with a st)
| ls_dir d : letter_step st (set_dir d st)
| ls_limit : letter_step st (mode_parse_limit st)
| ls_key : letter_step st (mode_parse_key st)
| ls_redirect : letter_step st (mode_parse_redirect st)
| ls_dummy : letter_step st (mode_parse_dummy st)
| ls_list b st' : parse_list b st = Some st' -> letter_step st st'
| ls_client (voice : bool) flag st' : flag ∈ [CHFL_CHANOP; CHFL_HALFOP; CHFL_VOICE] -> (voice = true -> flag = CHFL_VOICE) ->
    parse_client voice flag st = Some st' -> letter_step st st'
| ls_mode flag st' : flag ∈ simple_bits -> mode_parse_mode flag st = Some st' -> letter_step st st'.

Lemma find_flag c flag : flag_of c = Some flag -> (c, flag) ∈ chan_flags.
Proof.
  unfold flag_of. destruct (List.find _ _) as [[c' f]|] eqn:E; [|done]. intros [= <-]. apply List.find_some in E as [H E].
  cbn in E. apply Z.eqb_eq in E as ->. by apply list_elem_of_In.
Qed.

Lemma answer_step b a st : letter_step st (answer_if b a st).
Proof. destruct b; constructor. Qed.

Lemma parse_letter_step c st st' : parse_letter c st = Some st' -> letter_step st st'.
Proof.
  unfold parse_letter. destruct (flag_of c) as [flag|] eqn:Ef; [|intros [= <-]; apply answer_step].
  apply find_flag in Ef. unfold chan_flags in Ef.
  assert (Hmode : flag ∈ simple_bits -> forall b, (if_allowed b flag st = Some st' -> letter_step st st')
     /\ (mode_parse_mode flag st = Some st' -> letter_step st st')).
  { intros Hf b. unfold if_allowed. split; [destruct b; [|intros [= <-]; constructor]|]; intros H; by eapply ls_mode. }
  repeat (apply elem_of_cons in Ef as [[= -> ->]|Ef]; [|]); [..|by apply elem_of_nil in Ef].
  all: cbn [Z.eqb Pos.eqb]; unfold by_feature; rewrite ?bool_decide_true by by_decide; rewrite ?bool_decide_false by by_decide.
  all: intros Hs; try (refine (proj1 (Hmode _ _) Hs); by_decide); try (refine (proj2 (Hmode _ false) Hs); by_decide).
  all: repeat case_match; try (injection Hs as <-; constructor); try (refine (proj2 (Hmode _ false) Hs); by_decide);
    try (by eapply ls_list); (eapply ls_client; [..|exact Hs]; [by_decide|done]).
Qed.

(** A property the steps keep is kept by the loops. *)
Lemma parse_letters_ind (P : pstate -> Prop) modestr st st' :
  (forall x y, letter_step x y -> P x -> P y) -> P st -> parse_letters modestr st = Some st' -> P st'.
Proof.
  intros HP. revert st. induction modestr as [|c modestr IH]; intros st Hst; cbn; [by intros [= <-]|].
  destruct (parse_letter c st) as [st1|] eqn:E; [|done]. cbn. apply IH. by eapply HP; [apply (parse_letter_step c)|].
Qed.

Lemma parse_args_ind (P : pstate -> Prop) fuel modestr st st' :
  (forall x y, letter_step x y -> P x -> P y) ->
  (forall x args used, P x -> P (set_in args used (p_max x) x)) ->
  (forall x t, P x -> P (set_chan (set_c_chan (set_creationtime t)) x)) ->
  P st -> parse_args fuel modestr st = Some st' -> P st'.
Proof.
  intros H1 H2 H3. revert modestr st. induction fuel as [|fuel IH]; intros modestr st Hst; [by destruct modestr; intros [= <-]|].
  destruct modestr as [|c modestr]; [by intros [= <-]|]. cbn [parse_args].
  destruct (parse_letters (c :: modestr) st) as [st1|] eqn:E; [|done]. cbn [mbind option_bind].
  apply (parse_letters_ind P) in E; [|done..].
  destruct (parse_flag PARSE_BURST); [by intros [= <-]|]. destruct (p_args st1) as [|next rest]; [by intros [= <-]|].
  destruct (_ && IsDigit (hd0 next)).
  - destruct (negb (parse_flag PARSE_SET)); [intros [= <-]; by apply H2|]. case_match; intros [= <-]; [apply H3|]; by apply H2.
  - case_match; [by intros [= <-]|]. apply IH. by apply H2.
Qed.

(** ** Who may change what *)
Definition voice_change (x : Z * N) : Prop := exists b, x.1 = direction b .| CHFL_VOICE.

(** What the loops keep for a sender without rights. *)
Record idle (ch : chan) (st : pstate) : Prop := {
  id_mode : c_mode (p_chan st) = c_mode ch;
  id_status : c_status (p_chan st) = c_status ch;
  id_bans : c_bans (p_chan st) = c_bans ch;
  id_excepts : c_excepts (p_chan st) = c_excepts ch;
  id_log : p_log st = [];
  id_add : p_add st = 0 /\ p_del st = 0;
  id_pending : p_clean (p_excepts st) = false;
  id_cli : Forall voice_change (p_cli st) }.

Lemma no_rights_or : no_rights = parse_flag PARSE_NOTOPER || parse_flag PARSE_NOTMEMBER.
Proof.
  unfold no_rights, parse_flag, has_bits. rewrite Z.land_lor_distr_r. rewrite <- negb_andb. f_equal.
  apply eq_iff_eq_true. by rewrite andb_true_iff, !Z.eqb_eq, Z.lor_eq_0_iff.
Qed.

Lemma excepts_pending notoper notmember halfop add part part' : notoper || notmember = true ->
  mode_parse_except (FEAT_EXTEXCEPT F) (FEAT_EXTBANS F) (FEAT_ALLOW_TEXT_HOST F) list_sender notoper notmember halfop add now part = Some part' ->
  ps_pending part' = ps_pending part.
Proof.
  intros Hn. unfold mode_parse_except, mode_parse_list. rewrite Hn. cbn [excepts k_halfop andb negb].
  destruct (ps_args part); [case_match; by intros [= <-]|]. case_match; [by intros [= <-]|].
  intros [= <-]. unfold BanModes.send_notoper. by case_match.
Qed.

(** Answers and counters do not matter. *)
Lemma answers_same {A} (f : pstate -> A) l st : (forall a x, f (answer_with a x) = f x) ->
  f (foldl (fun st r => answer_with (ListReply r) st) st l) = f st.
Proof. intros H. revert st. induction l as [|r l IH]; intros st; [done|]. cbn. by rewrite IH, H. Qed.

Lemma parse_list_chan b st st' : parse_list b st = Some st' ->
  p_chan st' = p_chan st /\ p_log st' = p_log st /\ p_add st' = p_add st /\ p_del st' = p_del st /\ p_cli st' = p_cli st /\
  (b = true -> p_excepts st' = p_excepts st) /\ p_adding st' = p_adding st.
Proof.
  unfold parse_list. destruct b;
    [destruct (mode_parse_ban _ _ _ _ _ _ _ _ _ _) as [part|]|destruct (mode_parse_except _ _ _ _ _ _ _ _ _ _) as [part|]]; try done;
    intros [= <-];
    rewrite (answers_same p_chan), (answers_same p_log), (answers_same p_add), (answers_same p_del), (answers_same p_cli),
      (answers_same p_excepts), (answers_same p_adding) by done;
    destruct (ps_listed part), (ps_notoper part); done.
Qed.

Lemma parse_list_excepts b st st' : no_rights = true -> parse_list b st = Some st' -> p_excepts st' = p_excepts st.
Proof.
  intros Hn. destruct b; [intros H; by apply parse_list_chan in H as (_ & _ & _ & _ & _ & ? & _); auto|].
  unfold parse_list. destruct (mode_parse_except _ _ _ _ _ _ _ _ _ _) as [part|] eqn:E; [|done]. intros [= <-].
  rewrite no_rights_or in Hn. apply excepts_pending in E; [|done]. rewrite (answers_same p_excepts) by done.
  destruct (ps_listed part), (ps_notoper part); done.
Qed.

Lemma list_args k `{!KindLaws k} feat extbans text notoper notmember halfop add part part' :
  mode_parse_list k feat extbans text list_sender notoper notmember halfop add now part = Some part' ->
  (length (ps_args part') <= length (ps_args part))%nat.
Proof.
  unfold mode_parse_list. destruct (ps_args part) as [|a r] eqn:E; [case_match; intros [= <-]; [done|by rewrite E]|].
  case_match; [intros [= <-]; by rewrite E|]. case_match.
  { intros [= <-]. unfold BanModes.send_notoper. case_match; cbn; lia. }
  destruct (parse_mask _ _ _ _ _ _) as [[]|]; cbn [mbind option_bind]; [intros [= <-]; cbn; lia| |done].
  destruct (apply_mask _ _ _ _ _ _ _ _ _); [|done]. cbn [mbind option_bind]. intros [= <-]. cbn. lia.
Qed.

Lemma parse_list_args b st st' : parse_list b st = Some st' -> (length (p_args st') <= length (p_args st))%nat.
Proof.
  unfold parse_list. destruct b;
    [destruct (mode_parse_ban _ _ _ _ _ _ _ _ _ _) as [part|] eqn:E|destruct (mode_parse_except _ _ _ _ _ _ _ _ _ _) as [part|] eqn:E]; try done;
    intros [= <-]; apply list_args in E; try apply _; rewrite (answers_same p_args) by done; by destruct (ps_listed part), (ps_notoper part).
Qed.

Lemma idle_eq ch st st' : idle ch st -> p_chan st' = p_chan st -> p_log st' = p_log st -> p_add st' = p_add st -> p_del st' = p_del st ->
  p_excepts st' = p_excepts st -> p_cli st' = p_cli st -> idle ch st'.
Proof. intros [? ? ? ? ? ? ? ?] H1 H2 H3 H4 H5 H6. by constructor; rewrite ?H1, ?H2, ?H3, ?H4, ?H5, ?H6. Qed.

Lemma idle_answer ch st a : idle ch st -> idle ch (answer_with a st).
Proof. intros H. by eapply idle_eq. Qed.

Lemma idle_notoper ch st : idle ch st -> idle ch (send_notoper st).
Proof. intros H. unfold send_notoper. case_match; [done|]. by eapply idle_eq. Qed.

Lemma idle_answer_if ch st b a : idle ch st -> idle ch (answer_if b a st).
Proof. destruct b; [apply idle_answer|done]. Qed.

Lemma idle_grab ch st arg st' : idle ch st -> grab st = Some (arg, st') -> idle ch st'.
Proof. unfold grab. intros H. destruct (p_args st); [done|]. intros [= <- <-]. by eapply idle_eq. Qed.

Lemma put_change_forall (P : Z * N -> Prop) flag change l : Forall P l -> P change -> Forall P (put_change flag change l).
Proof.
  intros Hl Hc. induction Hl as [|[f c] l Hx Hl IH]; cbn; [by repeat constructor|]. case_match; by constructor.
Qed.

Lemma idle_step ch x y : no_rights = true -> letter_step x y -> idle ch x -> idle ch y.
Proof.
  intros Hn Hs Hi. destruct Hs as [|a|d| | | | |b st' E|voice flag st' Hf Hv E|flag st' Hf E].
  - done.
  - by apply idle_answer.
  - by eapply idle_eq.
  - unfold mode_parse_limit, set_limit. rewrite Hn. destruct (p_adding x); [|by apply idle_notoper]. case_match; [done|].
    destruct (grab x) as [[arg z]|] eqn:E; [|by apply idle_answer_if]. apply (idle_grab ch) in E; [|done].
    repeat case_match; try done. by apply idle_notoper.
  - unfold mode_parse_key. rewrite Hn. case_match; [done|].
    destruct (grab x) as [[arg z]|] eqn:E; [|by apply idle_answer_if]. apply (idle_grab ch) in E; [|done]. by apply idle_notoper.
  - unfold mode_parse_redirect. rewrite Hn. case_match; [done|]. by apply idle_notoper.
  - unfold mode_parse_dummy. case_match; [done|]. destruct (grab x) as [[arg z]|] eqn:E; [|done]. by apply (idle_grab ch) in E.
  - pose proof (parse_list_excepts b x st' Hn E) as H2. apply parse_list_chan in E as (? & ? & ? & ? & ? & _). by eapply idle_eq.
  - unfold parse_client in E. case_match; [by injection E as <-|].
    destruct (grab x) as [[arg z]|] eqn:Eg; [|by injection E as <-]. apply (idle_grab ch) in Eg; [|done].
    rewrite Hn, andb_true_r in E. destruct voice; cbn [negb] in E; [|injection E as <-; by apply idle_notoper].
    destruct (find_client arg) as [acptr|]; [|by injection E as <-].
    case_decide; [|done]. injection E as <-. rewrite (Hv eq_refl). destruct Eg. constructor; try done. cbn.
    apply put_change_forall; [done|]. by exists (p_adding z).
  - unfold mode_parse_mode in E. rewrite Hn in E. injection E as <-. by apply idle_notoper.
Qed.

Lemma idle_loops ch fuel modestr args used st : no_rights = true ->
  parse_args fuel modestr (start ch args used) = Some st -> idle ch st.
Proof.
  intros Hn. apply (parse_args_ind (idle ch)).
  - intros x y. by apply idle_step.
  - intros x a u H. by eapply idle_eq.
  - intros x t [? ? ? ? ? ? ? ?]. by constructor.
  - by constructor.
Qed.

(** A call that a half operator may cause: a ban or a voice. *)
Definition lesser (x : Channel * call) : Prop :=
  match x.2 with
  | CallString m _ _ => exists b, m = direction b .| MODE_BAN
  | CallClient m _ => exists b, m = direction b .| CHFL_VOICE
  | _ => False
  end.
Definition ranks (m : gmap N Z) (c : N) : option Z := (fun status => status .& (CHFL_CHANOP .| CHFL_HALFOP)) <$> (m !! c).

Record harmless (ch : chan) (st : pstate) : Prop := {
  ha_mode : c_mode (p_chan st) = c_mode ch;
  ha_excepts : c_excepts (p_chan st) = c_excepts ch;
  ha_ranks : forall c, ranks (c_status (p_chan st)) c = ranks (c_status ch) c;
  ha_log : Forall lesser (p_log st) }.

Lemma harmless_answer ch st b a : harmless ch st -> harmless ch (answer_if b a st).
Proof. intros [? ? ? ?]. by destruct b. Qed.

Lemma end_modes_idle st : p_add st = 0 -> p_del st = 0 -> end_modes st = st \/ exists f, end_modes st = set_chan f st /\ f (p_chan st) = p_chan st.
Proof.
  intros Ha Hd. unfold end_modes, delete_modes, add_modes. rewrite Hd, Ha. change (has_bits 0 (mode (c_mode (p_chan st)))) with false.
  cbv iota beta. rewrite Z.ldiff_0_l. cbn [Z.eqb app foldl].
  destruct (parse_flag PARSE_SET); [|by left]. rewrite andb_negb_r. right. eexists. split; [done|].
  destruct (p_chan st) as [[] ? ? ?]. unfold set_mode, set_c_chan, set_chmode. cbn. by destruct chmode.
Qed.

Lemma status_bits_kept status kept : Z.land kept (CHFL_CHANOP .| CHFL_HALFOP) = 0 ->
  (status .| kept) .& (CHFL_CHANOP .| CHFL_HALFOP) = status .& (CHFL_CHANOP .| CHFL_HALFOP) /\
  Z.ldiff status kept .& (CHFL_CHANOP .| CHFL_HALFOP) = status .& (CHFL_CHANOP .| CHFL_HALFOP).
Proof.
  intros H. split.
  - rewrite Z.land_lor_distr_l, H. apply Z.lor_0_r.
  - apply Z.bits_inj'. intros n Hn. rewrite !Z.land_spec, Z.ldiff_spec.
    pose proof (f_equal (fun z => Z.testbit z n) H) as Hb. cbn beta in Hb. rewrite Z.land_spec, Z.bits_0 in Hb.
    by destruct (Z.testbit status n), (Z.testbit kept n), (Z.testbit (CHFL_CHANOP .| CHFL_HALFOP) n).
Qed.

Lemma ranks_insert m c status status' d : m !! c = Some status ->
  status' .& (CHFL_CHANOP .| CHFL_HALFOP) = status .& (CHFL_CHANOP .| CHFL_HALFOP) -> ranks (<[c := status']> m) d = ranks m d.
Proof.
  intros Hc H. unfold ranks. destruct (decide (c = d)) as [<-|Hd]; [|by rewrite lookup_insert_ne].
  by rewrite lookup_insert_eq, Hc; cbn; rewrite H.
Qed.

Lemma process_voice ch x st : voice_change x -> harmless ch st -> harmless ch (process_client x st).
Proof.
  destruct x as [flag c]. intros [b E] H. cbn in E. subst flag. unfold process_client.
  destruct (c_status (p_chan st) !! c) as [status|] eqn:Ec; [|by apply harmless_answer].
  destruct (MyUser s && _); [by destruct H|]. destruct (_ || _); [done|].
  assert ((direction b .| CHFL_VOICE) .& (MODE_DEL .| CHFL_CHANOP) =? MODE_DEL .| CHFL_CHANOP = false) as -> by (by destruct b).
  cbn [andb answer_if]. destruct H as [H1 H2 H3 H4].
  assert (Hlog : Forall lesser (p_log (call_buf (CallClient (direction b .| CHFL_VOICE) c) st))).
  { cbn. apply Forall_app. split; [done|]. repeat constructor. by exists b. }
  destruct (parse_flag PARSE_SET); [|by constructor]. constructor; [done|done| |done]. intros d. cbn.
  rewrite <- H3. apply (ranks_insert _ _ status); [done|].
  assert ((direction b .| CHFL_VOICE) .& MODE_MEMBER = CHFL_VOICE) as -> by (by destruct b).
  destruct (status_bits_kept status CHFL_VOICE eq_refl) as [K1 K2]. destruct b; [|done]. done.
Qed.

Lemma invalidate_ranks bit m c : Z.land bit (CHFL_CHANOP .| CHFL_HALFOP) = 0 ->
  ranks ((fun status => Z.ldiff status bit) <$> m) c = ranks m c.
Proof.
  intros H. unfold ranks. rewrite lookup_fmap. destruct (m !! c) as [status|]; [|done]. cbn.
  by destruct (status_bits_kept status bit H) as [_ ->].
Qed.

Lemma call_fold_log {A} (f : A -> call) l st :
  foldl (fun st x => call_buf (f x) st) st l =
  MkP (p_args st) (p_used st) (p_max st) (p_adding st) (p_done st) (p_add st) (p_del st) (p_bans st) (p_excepts st) (p_cli st)
    (p_chan st) (p_log st ++ ((fun x => (c_chan (p_chan st), f x)) <$> l)) (p_answers st).
Proof.
  revert st. induction l as [|x l IH]; intros st; cbn; [destruct st; cbn; by rewrite app_nil_r|]. rewrite IH. cbn. by rewrite <- app_assoc.
Qed.

Lemma end_bans_harmless ch st st' : harmless ch st -> end_list true st = Some st' -> harmless ch st' /\ p_excepts st' = p_excepts st /\ p_cli st' = p_cli st.
Proof.
  intros [H1 H2 H3 H4]. unfold end_list. destruct (p_clean (p_bans st)); [|by intros [= <-]].
  destruct (mode_process_bans _ _ _ _ _ _) as [c|]; [|done]. cbn [mbind option_bind]. rewrite call_fold_log.
  set (st1 := MkP _ _ _ _ _ _ _ _ _ _ _ _ _). intros [= <-].
  assert (Hc : forall A (f : pstate -> A), (forall a x, f (answer_with a x) = f x) ->
    f (foldl (fun st r => answer_with (ListReply r) st) st1 (c_full c)) = f st1) by (intros; by apply answers_same).
  assert (Hlog : Forall lesser (p_log st1)).
  { cbn. apply Forall_app. split; [done|]. apply Forall_fmap, Forall_forall. intros x _. by exists x.1. }
  destruct (c_changed c); (split; [|split]); try (cbn; by rewrite Hc); constructor; cbn; rewrite ?Hc by done; try done.
  intros d. rewrite <- H3. by apply invalidate_ranks.
Qed.

Lemma parse_end_harmless ch st st' : no_rights = true -> parse_flag PARSE_WIPEOUT = false -> idle ch st ->
  mode_parse_end st = Some st' -> harmless ch st' /\ (parse_flag PARSE_ISHALFOP = false -> st' = st).
Proof.
  intros Hn Hw Hi. unfold mode_parse_end. rewrite Hn. cbn [andb].
  assert (Hh : harmless ch st) by (destruct Hi as [? ? ? ? Hl]; constructor; try done; [congruence|by rewrite Hl]).
  destruct (negb mbuf || negb (parse_flag PARSE_ISHALFOP)) eqn:E; [by intros [= <-]|].
  apply orb_false_iff in E as [_ E%negb_false_iff]. intros H. split; [|by rewrite E].
  unfold end_wipeout in H. rewrite Hw in H. destruct Hi as [I1 I2 I3 I4 I5 [I6 I6'] I7 I8].
  assert (H0 : harmless ch (end_modes st) /\ p_excepts (end_modes st) = p_excepts st /\ p_cli (end_modes st) = p_cli st).
  { destruct (end_modes_idle st I6 I6') as [->|(f & -> & Hf)]; [done|]. split; [|done]. destruct Hh. by constructor; cbn; rewrite ?Hf. }
  destruct H0 as (Hh0 & He0 & Hc0).
  destruct (end_list true (end_modes st)) as [st1|] eqn:E1; [|done]. cbn [mbind option_bind] in H.
  apply (end_bans_harmless ch) in E1 as (Hh1 & He1 & Hc1); [|done].
  unfold end_list in H. rewrite He1, He0, I7 in H. cbn [mbind option_bind] in H.
  unfold mode_process_clients in H. case_decide; [|done]. injection H as <-. rewrite Hc1, Hc0. clear -I8 Hh1.
  revert st1 Hh1. induction I8 as [|x l Hx Hl IH]; intros st1 Hh1; [done|]. cbn. apply IH. by apply process_voice.
Qed.

Lemma mode_parse_no_rights ch parv st : no_rights = true -> parse_flag PARSE_WIPEOUT = false -> mode_parse ch parv = Some st ->
  harmless ch st /\ (parse_flag PARSE_ISHALFOP = false -> idle ch st).
Proof.
  intros Hn Hw H. unfold mode_parse in H. destruct parv as [|modestr args]; [done|].
  destruct (parse_args _ _ _) as [st1|] eqn:E; [|done]. cbn [mbind option_bind] in H. apply idle_loops in E; [|done].
  destruct (parse_end_harmless ch st1 st Hn Hw E H) as [H1 H2]. split; [done|]. intros Hh. by rewrite (H2 Hh).
Qed.

(** ** What the calls say

    [outline] is the part of the channel that MODE tells: its modes and the
    ranks of its members.  [effect] is what a call says about it. *)
Definition outline (c : chan) : Mode * gmap N Z := (c_mode c, (fun status => status .& MODE_MEMBER) <$> c_status c).

Definition effect (v : Mode * gmap N Z) (x : Channel * call) : Mode * gmap N Z :=
  let m := v.1 in
  match x.2 with
  | CallMode f =>
      let bits := Z.ldiff f (MODE_ADD .| MODE_DEL) in
      (MkMode (if has_bits f MODE_ADD then mode m .| bits else Z.ldiff (mode m) bits) (limit m) (key m) (redirect m), v.2)
  | CallUint f n =>
      (if has_bits f MODE_ADD then MkMode (mode m .| MODE_LIMIT) n (key m) (redirect m)
       else MkMode (Z.ldiff (mode m) MODE_LIMIT) 0 (key m) (redirect m), v.2)
  | CallString f t _ =>
      let str := if has_bits f MODE_ADD then string_of x.1 t else [] in
      if has_bits f MODE_KEY then (MkMode (mode m) (limit m) str (redirect m), v.2)
      else if has_bits f MODE_REDIRECT then (MkMode (mode m) (limit m) (key m) str, v.2) else v
  | CallClient f c =>
      let kept := f .& MODE_MEMBER in
      (m, alter (fun status => if has_bits f MODE_ADD then status .| kept else Z.ldiff status kept) c v.2)
  end.
Definition effects (ch : chan) (log : list (Channel * call)) : Mode * gmap N Z := foldl effect (outline ch) log.

(** No bit of MODE_ADD or MODE_DEL in the sets of modes. *)
Definition plain_bits (x : Z) : Prop := x .& (MODE_ADD .| MODE_DEL) = 0.
Record faithful (ch : chan) (st : pstate) : Prop := {
  fa_log : effects ch (p_log st) = outline (p_chan st);
  fa_add : plain_bits (p_add st);
  fa_del : plain_bits (p_del st) }.

Lemma faithful_eq ch st st' : faithful ch st -> p_log st' = p_log st -> outline (p_chan st') = outline (p_chan st) ->
  p_add st' = p_add st -> p_del st' = p_del st -> faithful ch st'.
Proof. intros [? ? ?] H1 H2 H3 H4. constructor; by rewrite ?H1, ?H2, ?H3, ?H4. Qed.

Lemma faithful_answer ch st b a : faithful ch st -> faithful ch (answer_if b a st).
Proof. intros H. destruct b; [|done]. by eapply faithful_eq. Qed.

Lemma faithful_notoper ch st : faithful ch st -> faithful ch (send_notoper st).
Proof. intros H. unfold send_notoper. case_match; [done|]. by eapply faithful_eq. Qed.

Lemma faithful_grab ch st arg st' : faithful ch st -> grab st = Some (arg, st') -> faithful ch st'.
Proof. unfold grab. intros H. destruct (p_args st); [done|]. intros [= <- <-]. by eapply faithful_eq. Qed.

Lemma faithful_call ch st f c : faithful ch st -> effect (outline (p_chan st)) (c_chan (p_chan st), c) = outline (f (p_chan st)) ->
  faithful ch (set_chan f (call_buf c st)).
Proof.
  intros [H1 H2 H3] H. constructor; [|done|done]. cbn. unfold effects in *. rewrite foldl_app, H1. done.
Qed.

Lemma clean_param_length n t : (length (clean_param n t) <= n)%nat.
Proof.
  revert n. induction t as [|c t IH]; intros [|n]; cbn; try lia; case_match; cbn; try lia. specialize (IH n). lia.
Qed.

Lemma faithful_limit ch n st : parse_flag PARSE_SET = true -> faithful ch st -> faithful ch (set_limit n st).
Proof.
  intros Hset H. unfold set_limit. case_match; [by apply faithful_notoper|]. repeat (case_match; [done|]).
  case_match; [by eapply faithful_eq|]. rewrite Hset. apply faithful_call; [by eapply faithful_eq|].
  unfold effect, outline, dir. cbn. by destruct (p_adding st).
Qed.

Lemma faithful_key ch t st : parse_flag PARSE_SET = true -> parse_flag PARSE_BOUNCE = false -> (length t <= KEYLEN)%nat ->
  faithful ch st -> faithful ch (set_key t st).
Proof.
  intros Hset Hb Hl H. unfold set_key. rewrite Hset, Hb, (take_ge t) by done. repeat (case_match; [by try eapply faithful_eq|]).
  apply faithful_call; [done|]. unfold effect, outline, dir. cbn. by destruct (p_adding st).
Qed.

Lemma faithful_redirect ch t st : parse_flag PARSE_SET = true -> parse_flag PARSE_BOUNCE = false ->
  (length (string_of (c_chan (p_chan st)) t) <= CHANNELLEN)%nat \/ p_adding st = false ->
  faithful ch st -> faithful ch (set_redirect t st).
Proof.
  intros Hset Hb Hl H. unfold set_redirect. rewrite Hset, Hb. repeat (case_match; [by try eapply faithful_eq|]).
  apply faithful_call; [done|]. unfold effect, outline, dir. cbn. destruct (p_adding st); [|done].
  destruct Hl as [Hl|]; [|done]. cbn. by rewrite take_ge.
Qed.

Lemma simple_plain flag : flag ∈ simple_bits -> plain_bits flag.
Proof. unfold plain_bits. revert flag. apply Forall_forall. by_decide. Qed.

Lemma plain_lor x y : plain_bits x -> plain_bits y -> plain_bits (x .| y).
Proof. unfold plain_bits. intros Hx Hy. by rewrite Z.land_lor_distr_l, Hx, Hy. Qed.

Lemma plain_ldiff x y : plain_bits x -> plain_bits (Z.ldiff x y).
Proof.
  unfold plain_bits. intros Hx. apply Z.bits_inj'. intros n Hn. pose proof (f_equal (fun z => Z.testbit z n) Hx) as Hb. cbn beta in Hb.
  rewrite Z.land_spec, Z.bits_0 in *. rewrite Z.ldiff_spec. by destruct (Z.testbit x n), (Z.testbit y n).
Qed.

(** The mode that excludes a mode. *)
Definition partner (flag : Z) : Z :=
  if flag =? MODE_SECRET then MODE_PRIVATE else if flag =? MODE_PRIVATE then MODE_SECRET
  else if flag =? MODE_NOCOLOUR then MODE_STRIP else if flag =? MODE_STRIP then MODE_NOCOLOUR else 0.

Definition note_add (flag add del : Z) : Z * Z := (Z.ldiff (add .| flag) (partner flag), Z.ldiff del flag .| partner flag).

Lemma mode_parse_mode_eq flag st : flag ∈ simple_bits -> no_rights = false -> mbuf = true ->
  mode_parse_mode flag st =
  let '(add, del) := if p_adding st then note_add flag (p_add st) (p_del st) else (Z.ldiff (p_add st) flag, p_del st .| flag) in
  if has_bits add del then None
  else if add .& (MODE_SECRET .| MODE_PRIVATE) =? MODE_SECRET .| MODE_PRIVATE then None
  else Some (set_add_del add del st).
Proof.
  intros Hf Hn Hm. unfold mode_parse_mode, note_add. rewrite Hn, Hm. cbn [negb]. unfold simple_bits in Hf.
  repeat (apply elem_of_cons in Hf as [-> |Hf]; [by rewrite ?Z.ldiff_0_r, ?Z.lor_0_r|]). by apply elem_of_nil in Hf.
Qed.

Lemma faithful_step ch x y : parse_flag PARSE_SET = true -> parse_flag PARSE_BOUNCE = false -> no_rights = false -> mbuf = true ->
  letter_step x y -> faithful ch x -> faithful ch y.
Proof.
  intros Hset Hb Hn Hm Hs H. destruct Hs as [|a|d| | | | |b st' E|voice flag st' _ _ E|flag st' Hf E].
  - done.
  - by eapply faithful_eq.
  - by eapply faithful_eq.
  - unfold mode_parse_limit. destruct (p_adding x); [|by apply faithful_limit]. case_match; [done|].
    destruct (grab x) as [[arg z]|] eqn:E; [|by apply faithful_answer]. apply (faithful_grab ch) in E; [|done].
    repeat (case_match; [done|]). by apply faithful_limit.
  - unfold mode_parse_key. rewrite Hn, Hm. case_match; [done|].
    destruct (grab x) as [[arg z]|] eqn:E; [|by apply faithful_answer]. apply (faithful_grab ch) in E; [|done].
    case_match; [done|]. assert (faithful ch (set_done DONE_KEY z)) by by eapply faithful_eq.
    case_match; [by apply faithful_answer|]. apply faithful_key; [done..|apply clean_param_length|done].
  - unfold mode_parse_redirect. rewrite Hn, Hm. repeat (case_match; [done|]).
    assert (Hd : faithful ch (set_done DONE_REDIRECT x)) by by eapply faithful_eq. cbn [negb].
    case_match eqn:Ea; [|apply faithful_redirect; auto].
    destruct (grab _) as [[arg z]|] eqn:E; [|by apply faithful_answer]. apply (faithful_grab ch) in E; [|done].
    case_match; [by apply faithful_answer|]. repeat (case_match; [by eapply faithful_eq|]).
    apply faithful_redirect; [done..|left; apply clean_param_length|done].
  - unfold mode_parse_dummy. case_match; [done|]. destruct (grab x) as [[arg z]|] eqn:E; [|done]. by apply (faithful_grab ch) in E.
  - apply parse_list_chan in E as (E1 & ? & ? & ? & _). eapply faithful_eq; [done..| |done|done]. by rewrite E1.
  - unfold parse_client in E. case_match; [by injection E as <-|].
    destruct (grab x) as [[arg z]|] eqn:Eg; [|by injection E as <-]. apply (faithful_grab ch) in Eg; [|done].
    rewrite Hn, andb_false_r in E. destruct (find_client arg) as [acptr|]; [|by injection E as <-].
    case_decide; [|done]. injection E as <-. by apply (faithful_eq ch z).
  - rewrite mode_parse_mode_eq in E by done. destruct H as [H1 H2 H3]. pose proof (simple_plain flag Hf) as Hp.
    destruct (if p_adding x then _ else _) as [add del] eqn:En. case_match; [done|]. case_match; [done|]. injection E as <-.
    assert (Hpp : plain_bits (partner flag)) by (unfold partner; by repeat case_match).
    constructor; [done|..]; cbn; unfold note_add in En; destruct (p_adding x); simplify_eq;
      auto using plain_lor, plain_ldiff.
Qed.

Lemma faithful_loops ch fuel modestr args used st :
  parse_flag PARSE_SET = true -> parse_flag PARSE_BOUNCE = false -> no_rights = false -> mbuf = true ->
  parse_args fuel modestr (start ch args used) = Some st -> faithful ch st.
Proof.
  intros H1 H2 H3 H4. apply (parse_args_ind (faithful ch)).
  - intros x y. by apply faithful_step.
  - intros x a u H. by eapply faithful_eq.
  - intros x t H. by eapply faithful_eq.
  - by constructor.
Qed.

Lemma call_bits d x : plain_bits x -> (d = MODE_ADD \/ d = MODE_DEL) ->
  Z.ldiff (d .| x) (MODE_ADD .| MODE_DEL) = x /\ has_bits (d .| x) MODE_ADD = has_bits d MODE_ADD.
Proof.
  unfold plain_bits. intros Hx Hd. split.
  - apply Z.bits_inj'. intros n Hn. pose proof (f_equal (fun z => Z.testbit z n) Hx) as Hb. cbn beta in Hb.
    rewrite Z.ldiff_spec, Z.lor_spec. rewrite Z.land_spec, Z.bits_0 in Hb.
    assert (Hi : Z.testbit d n = true -> Z.testbit (MODE_ADD .| MODE_DEL) n = true).
    { rewrite Z.lor_spec. intros Ht. apply orb_true_iff. destruct Hd as [-> | ->]; [by left|by right]. }
    destruct (Z.testbit d n), (Z.testbit x n), (Z.testbit (MODE_ADD .| MODE_DEL) n); cbn [orb andb negb] in *; try done; by specialize (Hi eq_refl).
  - unfold has_bits. rewrite Z.land_lor_distr_l. assert (x .& MODE_ADD = 0) as ->.
    { apply Z.bits_inj'. intros n Hn. pose proof (f_equal (fun z => Z.testbit z n) Hx) as Hb. cbn beta in Hb.
      rewrite Z.land_spec, Z.lor_spec, Z.bits_0 in Hb. rewrite Z.land_spec, Z.bits_0.
      destruct (Z.testbit x n), (Z.testbit MODE_ADD n), (Z.testbit MODE_DEL n); done. }
    by rewrite Z.lor_0_r.
Qed.

Lemma ldiff_land t d : Z.ldiff t (d .& t) = Z.ldiff t d.
Proof. apply Z.bits_inj'. intros n Hn. rewrite !Z.ldiff_spec, Z.land_spec. by destruct (Z.testbit t n), (Z.testbit d n). Qed.
Lemma lor_ldiff t a : t .| Z.ldiff a t = t .| a.
Proof. apply Z.bits_inj'. intros n Hn. rewrite !Z.lor_spec, Z.ldiff_spec. by destruct (Z.testbit t n), (Z.testbit a n). Qed.

Lemma plain_land x y : plain_bits x -> plain_bits (x .& y).
Proof. unfold plain_bits. intros H. by rewrite <- Z.land_assoc, (Z.land_comm y), Z.land_assoc, H. Qed.

(** The calls at the end say what happens to the simple modes. *)
Lemma faithful_end_modes ch st : parse_flag PARSE_SET = true -> faithful ch st -> faithful ch (end_modes st).
Proof.
  intros Hset [H1 H2 H3]. unfold end_modes. rewrite Hset.
  destruct (delete_modes _ _) as [dels t1] eqn:Ed. destruct (add_modes _ _) as [adds t2] eqn:Ea. rewrite call_fold_log.
  assert (Hm : foldl effect (outline (p_chan st)) ((fun x => (c_chan (p_chan st), x)) <$> dels ++ adds) =
    (MkMode t2 (limit (c_mode (p_chan st))) (key (c_mode (p_chan st))) (redirect (c_mode (p_chan st))), (outline (p_chan st)).2)).
  { assert (Hd : foldl effect (outline (p_chan st)) ((fun x => (c_chan (p_chan st), x)) <$> dels) =
      (MkMode t1 (limit (c_mode (p_chan st))) (key (c_mode (p_chan st))) (redirect (c_mode (p_chan st))), (outline (p_chan st)).2)).
    { unfold delete_modes in Ed. case_match; simplify_eq; cbn; [|unfold outline; cbn; by destruct (c_mode (p_chan st))].
      unfold effect. cbn [fst snd]. destruct (call_bits MODE_DEL (p_del st .& mode (c_mode (p_chan st)))) as [-> ->]; [by apply plain_land|by right|].
      change (has_bits MODE_DEL MODE_ADD) with false. by rewrite ldiff_land. }
    rewrite fmap_app, foldl_app, Hd. unfold add_modes in Ea. case_match; simplify_eq; cbn; [done|].
    unfold effect. cbn [fst snd mode limit key redirect]. destruct (call_bits MODE_ADD (Z.ldiff (p_add st) t1)) as [-> ->]; [by apply plain_ldiff|by left|].
    change (has_bits MODE_ADD MODE_ADD) with true. by rewrite lor_ldiff. }
  unfold effects in H1. constructor; [|by case_match..]. case_match; cbn; unfold effects; rewrite foldl_app, H1, Hm; done.
Qed.

Lemma land_ldiff_apart x bit m : Z.land bit m = 0 -> Z.land (Z.ldiff x bit) m = Z.land x m.
Proof.
  intros H. apply Z.bits_inj'. intros n Hn. rewrite !Z.land_spec, Z.ldiff_spec.
  pose proof (f_equal (fun z => Z.testbit z n) H) as Hb. cbn beta in Hb. rewrite Z.land_spec, Z.bits_0 in Hb.
  by destruct (Z.testbit x n), (Z.testbit bit n), (Z.testbit m n).
Qed.

(** Bans and exceptions are not part of the outline. *)
Lemma list_effects (is_ban : bool) c (freeh : bool -> bool) l v :
  foldl effect v ((fun x : bool * list Z =>
    (c, CallString (direction x.1 .| (if is_ban then MODE_BAN else MODE_EXCEPT)) (Given x.2) (freeh x.1))) <$> l) = v.
Proof. induction l as [|[d str] l IH]; [done|]. cbn [fmap list_fmap foldl]. rewrite <- IH at 2. f_equal. by destruct d, is_ban. Qed.

Lemma faithful_end_list ch is_ban st st' : faithful ch st -> end_list is_ban st = Some st' -> faithful ch st'.
Proof.
  intros [H1 H2 H3]. unfold end_list. destruct (p_clean _); [|by intros [= <-]].
  assert (Hgo : forall c : process, let flag := if is_ban then MODE_BAN else MODE_EXCEPT in
    let st1 := foldl (fun st r => answer_with (ListReply r) st) (foldl (fun st (x : bool * list Z) =>
        call_buf (CallString (direction x.1 .| flag) (Given x.2) (if x.1 then negb (parse_flag PARSE_SET) else parse_flag PARSE_SET)) st)
      st (c_changes c)) (c_full c) in
    let st2 := set_chan (fun ch => if is_ban then MkChan (c_chan ch) (c_status ch) (c_list c) (c_excepts ch)
                                  else MkChan (c_chan ch) (c_status ch) (c_bans ch) (c_list c)) st1 in
    faithful ch (if c_changed c then set_chan (if is_ban then mode_ban_invalidate else mode_except_invalidate) st2 else st2)).
  { intros c flag. cbv zeta. rewrite call_fold_log. set (st1 := MkP _ _ _ _ _ _ _ _ _ _ _ _ _).
    assert (Hc : forall A (f : pstate -> A), (forall a x, f (answer_with a x) = f x) ->
      f (foldl (fun st r => answer_with (ListReply r) st) st1 (c_full c)) = f st1) by (intros; by apply answers_same).
    assert (He : effects ch (p_log st1) = outline (p_chan st)).
    { cbn. unfold effects in *. rewrite foldl_app, H1. apply (list_effects is_ban _ (fun d => if d then negb (parse_flag PARSE_SET) else parse_flag PARSE_SET)). }
    assert (Ho : forall bit, bit .& MODE_MEMBER = 0 -> outline (invalidate bit (p_chan st)) = outline (p_chan st)).
    { intros bit Hbit. unfold outline, invalidate, set_status. cbn. f_equal. rewrite <- map_fmap_compose.
      apply map_fmap_ext. intros k x _. cbn. by apply land_ldiff_apart. }
    destruct is_ban, (c_changed c); 
      (constructor; [|by cbn; rewrite Hc|by cbn; rewrite Hc]); cbn [p_log p_chan set_chan]; rewrite !Hc by done; rewrite He;
      cbn [st1 p_chan]; try done; symmetry;
      [by apply (Ho CHFL_BANVALID)|by apply (Ho CHFL_EXCEPTVALID)]. }
  destruct is_ban.
  - destruct (mode_process_bans _ _ _ _ _ _) as [c|]; [|done]. cbn [mbind option_bind]. intros [= <-]. apply (Hgo c).
  - destruct (mode_process_excepts _ _ _ _ _ _) as [c|]; [|done]. cbn [mbind option_bind]. intros [= <-]. apply (Hgo c).
Qed.

Lemma faithful_client ch x st : parse_flag PARSE_SET = true -> faithful ch st -> faithful ch (process_client x st).
Proof.
  intros Hset H. destruct x as [flag c]. unfold process_client. rewrite Hset.
  destruct (c_status (p_chan st) !! c) as [status|] eqn:Ec; [|by apply faithful_answer].
  destruct (MyUser s && _); [by eapply faithful_eq|]. destruct (_ || _); [done|].
  case_match; [by eapply faithful_eq|].
  match goal with |- context [answer_if ?b DeopNotice st] => set (st0 := answer_if b DeopNotice st);
    assert (H0f : faithful ch st0) by (by apply faithful_answer); assert (E0 : p_chan st0 = p_chan st) by (by subst st0; destruct b) end.
  clearbody st0. case_match; [by apply (faithful_answer _ _ true)|]. apply faithful_call; [done|]. unfold effect, outline. cbn. f_equal.
  apply map_eq. intros d. rewrite lookup_alter, !lookup_fmap. destruct (decide (c = d)) as [<-|Hd].
  - rewrite lookup_insert_eq, E0, Ec. cbn. f_equal.
    set (kept := flag .& MODE_MEMBER). assert (Hk : kept .& MODE_MEMBER = kept) by (unfold kept; by rewrite <- Z.land_assoc, Z.land_diag).
    clearbody kept. destruct (has_bits flag MODE_ADD).
    + destruct (has_bits flag CHFL_CHANOP); rewrite ?land_ldiff_apart by done; by rewrite Z.land_lor_distr_l, Hk.
    + apply Z.bits_inj'. intros n Hn. rewrite !Z.ldiff_spec, !Z.land_spec, Z.ldiff_spec.
      by destruct (Z.testbit status n), (Z.testbit MODE_MEMBER n), (Z.testbit kept n).
  - by rewrite lookup_insert_ne, E0 by done.
Qed.

(** Everything mode_parse() sets is in the calls, and nothing else. *)
Lemma mode_parse_faithful ch parv st :
  parse_flag PARSE_SET = true -> parse_flag PARSE_BOUNCE = false -> parse_flag PARSE_WIPEOUT = false -> no_rights = false -> mbuf = true ->
  mode_parse ch parv = Some st -> effects ch (p_log st) = outline (p_chan st).
Proof.
  intros H1 H2 H3 H4 H5 H. unfold mode_parse in H. destruct parv as [|modestr args]; [done|].
  destruct (parse_args _ _ _) as [st1|] eqn:E; [|done]. cbn [mbind option_bind] in H. apply faithful_loops in E; [|done..].
  unfold mode_parse_end in H. rewrite H4, H5 in H. cbn [negb andb orb] in H. unfold end_wipeout in H. rewrite H3 in H.
  apply faithful_end_modes in E; [|done].
  destruct (end_list true _) as [st2|] eqn:E2; [|done]. apply (faithful_end_list ch) in E2; [|done]. cbn [mbind option_bind] in H.
  destruct (end_list false _) as [st3|] eqn:E3; [|done]. apply (faithful_end_list ch) in E3; [|done]. cbn [mbind option_bind] in H.
  unfold mode_process_clients in H. case_decide; [|done]. injection H as <-.
  assert (Hl : forall l st, faithful ch st -> faithful ch (foldl (fun st change => process_client change st) st l)).
  { intros l. induction l as [|x l IH]; intros z Hz; [done|]. cbn. apply IH. by apply faithful_client. }
  by apply (Hl (p_cli st3)) in E3 as [? _ _].
Qed.

(** ** Modes that exclude each other *)
Definition excluded : list (Z * Z) := [(2, 3); (3, 2); (12, 19); (19, 12)].
Definition exclusive (mode : Z) : Prop := forall i j, (i, j) ∈ excluded -> Z.testbit mode i = true -> Z.testbit mode j = false.

(** What is noted of the letters: nothing is added and deleted, and a mode is
    added with the one it excludes deleted. *)
Record noted (add del : Z) : Prop := {
  nt_apart : Z.land add del = 0;
  nt_partner : forall i j, (i, j) ∈ excluded -> Z.testbit add i = true -> Z.testbit del j = true }.

Lemma land_bit x y n : Z.land x y = 0 -> 0 <= n -> Z.testbit x n = true -> Z.testbit y n = false.
Proof.
  intros H Hn Hx. pose proof (f_equal (fun z => Z.testbit z n) H) as Hb. cbn beta in Hb. rewrite Z.land_spec, Z.bits_0, Hx in Hb. done.
Qed.

Lemma partner_bits flag : flag ∈ simple_bits -> Z.land flag (partner flag) = 0 /\
  forall i j, (i, j) ∈ excluded -> (Z.testbit flag i = true -> Z.testbit (partner flag) j = true)
    /\ (Z.testbit flag j = true -> Z.testbit (partner flag) i = true) /\ 0 <= i /\ 0 <= j.
Proof.
  assert (H : bool_decide (Forall (fun flag => Z.land flag (partner flag) = 0 /\ Forall (fun x : Z * Z =>
    (Z.testbit flag x.1 = true -> Z.testbit (partner flag) x.2 = true) /\ (Z.testbit flag x.2 = true -> Z.testbit (partner flag) x.1 = true)
    /\ 0 <= x.1 /\ 0 <= x.2) excluded) simple_bits) = true) by by vm_compute.
  apply bool_decide_eq_true in H. rewrite Forall_forall in H. intros Hf. destruct (H _ Hf) as [H1 H2]. split; [done|].
  intros i j Hij. rewrite Forall_forall in H2. apply (H2 (i, j) Hij).
Qed.

Lemma noted_add flag add del : flag ∈ simple_bits -> noted add del ->
  noted (note_add flag add del).1 (note_add flag add del).2.
Proof.
  intros Hf [H1 H2]. destruct (partner_bits flag Hf) as [Hp Hx]. unfold note_add. cbn [fst snd]. constructor.
  - apply Z.bits_inj'. intros n Hn. rewrite Z.land_spec, Z.ldiff_spec, !Z.lor_spec, Z.ldiff_spec, Z.bits_0.
    pose proof (land_bit add del n H1 Hn) as Ha. pose proof (land_bit flag (partner flag) n Hp Hn) as Hfp.
    destruct (Z.testbit add n), (Z.testbit del n), (Z.testbit flag n), (Z.testbit (partner flag) n); cbn in *; try done;
      first [by specialize (Ha eq_refl)|by specialize (Hfp eq_refl)].
  - intros i j Hij. destruct (Hx i j Hij) as (Hx1 & Hx2 & Hi & Hj). rewrite Z.ldiff_spec, !Z.lor_spec, Z.ldiff_spec.
    specialize (H2 i j Hij). intros [[Ha|Ha]%orb_true_iff Hb%negb_true_iff]%andb_true_iff; apply orb_true_iff; [|right; auto].
    destruct (Z.testbit flag j) eqn:Ej; [|left; by rewrite H2]. rewrite Hx2 in Hb; done.
Qed.

Lemma noted_del flag add del : noted add del -> noted (Z.ldiff add flag) (del .| flag).
Proof.
  intros [H1 H2]. constructor.
  - apply Z.bits_inj'. intros n Hn. rewrite Z.land_spec, Z.ldiff_spec, Z.lor_spec, Z.bits_0.
    pose proof (land_bit add del n H1 Hn) as Ha.
    destruct (Z.testbit add n), (Z.testbit del n), (Z.testbit flag n); cbn in *; try done; by specialize (Ha eq_refl).
  - intros i j Hij. rewrite Z.ldiff_spec, Z.lor_spec. intros [Ha _]%andb_true_iff. by rewrite (H2 i j).
Qed.

(** The assertions of mode_parse_mode() hold. *)
Lemma noted_asserts add del : noted add del ->
  has_bits add del = false /\ (add .& (MODE_SECRET .| MODE_PRIVATE) =? MODE_SECRET .| MODE_PRIVATE) = false.
Proof.
  intros [H1 H2]. split; [unfold has_bits; by rewrite H1|]. apply Z.eqb_neq. intros E.
  assert (Hb : forall n, Z.testbit (MODE_SECRET .| MODE_PRIVATE) n = true -> Z.testbit add n = true).
  { intros n Hn. rewrite <- E, Z.land_spec in Hn. by apply andb_true_iff in Hn as [? _]. }
  pose proof (H2 2 3 ltac:(by left) (Hb 2 eq_refl)) as Hd. pose proof (land_bit add del 3 H1 ltac:(done) (Hb 3 eq_refl)) as Hd'. congruence.
Qed.

Lemma end_modes_exclusive old add del : noted add del -> exclusive old ->
  exclusive (add_modes add (delete_modes del old).2).2.
Proof.
  intros [H1 H2] Ho. assert (Hbits : forall n, 0 <= n -> Z.testbit (add_modes add (delete_modes del old).2).2 n
    = (Z.testbit old n && negb (Z.testbit del n)) || Z.testbit add n).
  { intros n Hn. assert (Hd : Z.testbit (delete_modes del old).2 n = Z.testbit old n && negb (Z.testbit del n)).
    { unfold delete_modes. destruct (has_bits del old) eqn:E; cbn; [apply Z.ldiff_spec|].
      unfold has_bits in E. apply negb_false_iff, Z.eqb_eq in E. pose proof (land_bit del old n E Hn).
      destruct (Z.testbit del n), (Z.testbit old n); auto. }
    rewrite <- Hd. generalize (delete_modes del old).2. intros t. unfold add_modes. destruct (_ =? 0) eqn:E; cbn [snd]; [|apply Z.lor_spec].
    apply Z.eqb_eq in E. pose proof (f_equal (fun z => Z.testbit z n) E) as Hb. cbn beta in Hb. rewrite Z.ldiff_spec, Z.bits_0 in Hb.
    by destruct (Z.testbit t n), (Z.testbit add n). }
  intros i j Hij. assert (Hnn : 0 <= i /\ 0 <= j /\ (j, i) ∈ excluded).
  { revert Hij. unfold excluded. rewrite !elem_of_cons, elem_of_nil. intros [[= -> ->]|[[= -> ->]|[[= -> ->]|[[= -> ->]|[]]]]];
      (split; [done|]; split; [done|]); by_decide. }
  destruct Hnn as (Hi & Hj & Hji). rewrite !Hbits by done.
  pose proof (H2 i j Hij) as Hp. pose proof (H2 j i Hji) as Hq. pose proof (Ho i j Hij) as Hoo.
  pose proof (land_bit add del i H1 Hi) as Ai. pose proof (land_bit add del j H1 Hj) as Aj.
  destruct (Z.testbit add i), (Z.testbit add j), (Z.testbit del i), (Z.testbit del j), (Z.testbit old i), (Z.testbit old j); cbn in *;
    intros; try done; first [by specialize (Hp eq_refl)|by specialize (Hq eq_refl)|by specialize (Ai eq_refl)|by specialize (Aj eq_refl)|by specialize (Hoo eq_refl)].
Qed.

Record tidy (st : pstate) : Prop := {
  td_noted : noted (p_add st) (p_del st);
  td_mode : exclusive (mode (c_mode (p_chan st))) }.

Lemma tidy_eq st st' : tidy st -> p_add st' = p_add st -> p_del st' = p_del st -> mode (c_mode (p_chan st')) = mode (c_mode (p_chan st)) -> tidy st'.
Proof. intros [? ?] H1 H2 H3. constructor; by rewrite ?H1, ?H2, ?H3. Qed.

Lemma exclusive_limit m : exclusive m -> exclusive (m .| MODE_LIMIT) /\ exclusive (Z.ldiff m MODE_LIMIT).
Proof.
  intros H. assert (Hl : forall i j, (i, j) ∈ excluded -> Z.testbit MODE_LIMIT i = false /\ Z.testbit MODE_LIMIT j = false).
  { intros i j. unfold excluded. rewrite !elem_of_cons, elem_of_nil. by intros [[= -> ->]|[[= -> ->]|[[= -> ->]|[[= -> ->]|[]]]]]. }
  split; intros i j Hij; destruct (Hl i j Hij) as [Ei Ej]; rewrite ?Z.lor_spec, ?Z.ldiff_spec, Ei, Ej, ?orb_false_r, ?andb_true_r; by apply H.
Qed.

(** The steps that only count, answer, call the buffer or set keys. *)
Lemma same_modes (f : pstate -> pstate) :
  (forall st, p_add (f st) = p_add st /\ p_del (f st) = p_del st /\ mode (c_mode (p_chan (f st))) = mode (c_mode (p_chan st))) ->
  forall st, tidy st -> tidy (f st).
Proof. intros H st Hst. destruct (H st) as (? & ? & ?). by eapply tidy_eq. Qed.

Lemma tidy_answer b a st : tidy st -> tidy (answer_if b a st).
Proof. apply same_modes. by destruct b. Qed.
Lemma tidy_notoper st : tidy st -> tidy (send_notoper st).
Proof. apply same_modes. intros z. unfold send_notoper. by case_match. Qed.
Lemma tidy_done d st : tidy st -> tidy (set_done d st).
Proof. by apply same_modes. Qed.
Lemma tidy_grab st arg st' : tidy st -> grab st = Some (arg, st') -> tidy st'.
Proof. unfold grab. intros H. destruct (p_args st); [done|]. intros [= <- <-]. by eapply tidy_eq. Qed.

Lemma tidy_limit n st : tidy st -> tidy (set_limit n st).
Proof.
  intros H. unfold set_limit. case_match; [by apply tidy_notoper|]. repeat (case_match; [done|]). case_match; [by apply tidy_done|].
  destruct H as [Hno Hm]. destruct (exclusive_limit _ Hm) as [K1 K2].
  destruct (parse_flag PARSE_SET); [|by constructor]. constructor; [done|]. cbn. by destruct (p_adding st).
Qed.

Lemma tidy_key t st : tidy st -> tidy (set_key t st).
Proof. apply same_modes. intros z. unfold set_key. by repeat case_match. Qed.
Lemma tidy_redirect t st : tidy st -> tidy (set_redirect t st).
Proof. apply same_modes. intros z. unfold set_redirect. by repeat case_match. Qed.

Lemma tidy_step x y : letter_step x y -> tidy x -> tidy y.
Proof.
  intros Hs H. destruct Hs as [|a|d| | | | |b st' E|voice flag st' _ _ E|flag st' Hf E].
  - done.
  - by apply (tidy_answer true).
  - by eapply tidy_eq.
  - unfold mode_parse_limit. destruct (p_adding x); [|by apply tidy_limit]. case_match; [done|].
    destruct (grab x) as [[arg z]|] eqn:E; [|by apply tidy_answer]. apply tidy_grab in E; [|done].
    repeat (case_match; [done|]). by apply tidy_limit.
  - unfold mode_parse_key. case_match; [done|].
    destruct (grab x) as [[arg z]|] eqn:E; [|by apply tidy_answer]. apply tidy_grab in E; [|done].
    case_match; [by apply tidy_notoper|]. case_match; [done|]. case_match; [by apply tidy_answer, tidy_done|].
    case_match; [by apply tidy_done|]. by apply tidy_key, tidy_done.
  - unfold mode_parse_redirect. case_match; [done|]. case_match; [by apply tidy_notoper|]. case_match; [done|].
    case_match; [by apply tidy_done|]. case_match; [|by apply tidy_redirect, tidy_done].
    destruct (grab _) as [[arg z]|] eqn:E; [|by apply tidy_answer, tidy_done]. apply tidy_grab in E; [|by apply tidy_done].
    case_match; [by apply tidy_answer|]. repeat (case_match; [by apply (tidy_answer true)|]). by apply tidy_redirect.
  - unfold mode_parse_dummy. case_match; [done|]. destruct (grab x) as [[arg z]|] eqn:E; [|done]. by apply tidy_grab in E.
  - apply parse_list_chan in E as (E1 & ? & ? & ? & _). eapply tidy_eq; [done..|]. by rewrite E1.
  - unfold parse_client in E. case_match; [by injection E as <-|].
    destruct (grab x) as [[arg z]|] eqn:Eg; [|by injection E as <-]. apply tidy_grab in Eg; [|done].
    case_match; [injection E as <-; by apply tidy_notoper|]. destruct (find_client arg) as [acptr|]; [|by injection E as <-].
    case_decide; [|done]. injection E as <-. by apply (tidy_eq z).
  - destruct no_rights eqn:Hn; [unfold mode_parse_mode in E; rewrite Hn in E; injection E as <-; by apply tidy_notoper|].
    destruct mbuf eqn:Hm; [|unfold mode_parse_mode in E; rewrite Hn, Hm in E; by injection E as <-].
    rewrite mode_parse_mode_eq in E by done. destruct H as [H1 H2].
    pose proof (noted_add flag _ _ Hf H1) as Ka. pose proof (noted_del flag _ _ H1) as Kd.
    destruct (p_adding x); [destruct (note_add _ _ _) as [add del]|]; (case_match; [done|]); (case_match; [done|]); injection E as <-; by constructor.
Qed.

Lemma end_list_mode is_ban st st' : end_list is_ban st = Some st' -> c_mode (p_chan st') = c_mode (p_chan st) /\ p_cli st' = p_cli st.
Proof.
  unfold end_list. destruct (p_clean _); [|by intros [= <-]].
  destruct is_ban; [destruct (mode_process_bans _ _ _ _ _ _) as [c|]|destruct (mode_process_excepts _ _ _ _ _ _) as [c|]]; try done;
    cbn [mbind option_bind]; rewrite call_fold_log; intros [= <-]; destruct (c_changed c); cbn;
    by rewrite (answers_same p_chan), (answers_same p_cli).
Qed.

Lemma process_client_mode x st : c_mode (p_chan (process_client x st)) = c_mode (p_chan st).
Proof. unfold process_client, answer_if. repeat case_match; done. Qed.

Lemma end_modes_mode st : mode (c_mode (p_chan (end_modes st))) =
  if parse_flag PARSE_SET then (add_modes (p_add st) (delete_modes (p_del st) (mode (c_mode (p_chan st)))).2).2 else mode (c_mode (p_chan st)).
Proof.
  unfold end_modes. destruct (delete_modes _ _) as [dels t1]. cbn [snd]. destruct (add_modes _ _) as [adds t2]. cbn [snd].
  rewrite call_fold_log. destruct (parse_flag PARSE_SET); [|done]. by case_match.
Qed.

Lemma end_wipeout_mode st : c_mode (p_chan (end_wipeout st)) = c_mode (p_chan st).
Proof. unfold end_wipeout. by repeat case_match. Qed.

Lemma tidy_start ch args used : exclusive (mode (c_mode ch)) -> tidy (start ch args used).
Proof. constructor; [|done]. constructor; [done|]. intros i j _ Hi. by rewrite Z.bits_0 in Hi. Qed.

Lemma mode_parse_keeps_exclusive ch parv st : exclusive (mode (c_mode ch)) -> mode_parse ch parv = Some st -> exclusive (mode (c_mode (p_chan st))).
Proof.
  intros Hx H. unfold mode_parse in H. destruct parv as [|modestr args]; [done|].
  destruct (parse_args _ _ _) as [st1|] eqn:E; [|done]. cbn [mbind option_bind] in H.
  assert (Ht : tidy st1).
  { revert E. apply (parse_args_ind tidy).
    - apply tidy_step.
    - intros x a u. by apply same_modes.
    - intros x t. by apply same_modes.
    - by apply tidy_start. }
  destruct Ht as [H1 H2]. unfold mode_parse_end in H. case_match; [by injection H as <-|].
  destruct (end_list true _) as [st2|] eqn:E2; [|done]. apply end_list_mode in E2 as [M2 _]. cbn [mbind option_bind] in H.
  destruct (end_list false _) as [st3|] eqn:E3; [|done]. apply end_list_mode in E3 as [M3 _]. cbn [mbind option_bind] in H.
  unfold mode_process_clients in H. case_decide; [|done]. injection H as <-.
  assert (Hl : forall l st, c_mode (p_chan (foldl (fun st change => process_client change st) st l)) = c_mode (p_chan st)).
  { intros l. induction l as [|x l IH]; intros z; [done|]. cbn. by rewrite IH, process_client_mode. }
  rewrite Hl, M3, M2, end_wipeout_mode, end_modes_mode. case_match; [|done]. by apply end_modes_exclusive.
Qed.

(** *** The assertions of mode_parse_mode() *)

(** The states of the parser after any letters, whatever arguments are next. *)
Inductive reached (first : pstate) : pstate -> Prop :=
| reached_first : reached first first
| reached_letter c x y : reached first x -> parse_letter c x = Some y -> reached first y
| reached_arg x args used : reached first x -> reached first (set_in args used (p_max x) x).

(** The letters that take no parameter. *)
Definition bare (c : Z) : Prop := c ∉ lit "lkbevohL".

Lemma tidy_in x args used : tidy x -> tidy (set_in args used (p_max x) x).
Proof. by apply same_modes. Qed.

Lemma reached_tidy first x : tidy first -> reached first x -> tidy x.
Proof.
  intros Hf. induction 1 as [|c x y _ IH E|x args used _ IH]; [done| |by apply tidy_in].
  by apply (tidy_step x), IH; eapply parse_letter_step.
Qed.

(** What a letter without a parameter does not touch. *)
Definition same_lists (x y : pstate) : Prop :=
  p_args y = p_args x /\ p_bans y = p_bans x /\ p_excepts y = p_excepts x /\ p_cli y = p_cli x.

Lemma mode_parse_mode_total flag x : flag ∈ simple_bits -> tidy x ->
  exists y, mode_parse_mode flag x = Some y /\ same_lists x y.
Proof.
  intros Hf [H1 _]. destruct no_rights eqn:Hn.
  { unfold mode_parse_mode. rewrite Hn. eexists. split; [done|]. unfold send_notoper. by case_match. }
  destruct mbuf eqn:Hm; [|unfold mode_parse_mode; rewrite Hn, Hm; by exists x].
  rewrite mode_parse_mode_eq by done.
  destruct (p_adding x).
  - pose proof (noted_add flag _ _ Hf H1) as Ka. destruct (note_add _ _ _) as [add del].
    cbn [fst snd] in Ka. destruct (noted_asserts _ _ Ka) as [-> ->]. by eexists.
  - destruct (noted_asserts _ _ (noted_del flag _ _ H1)) as [-> ->]. by eexists.
Qed.

Lemma parse_letter_total c x : bare c -> tidy x -> exists y, parse_letter c x = Some y /\ same_lists x y.
Proof.
  intros Hc Hx. unfold parse_letter. destruct (flag_of c) as [flag|] eqn:Ef.
  2:{ eexists. split; [done|]. by destruct (MyUser s). }
  apply find_flag in Ef. unfold chan_flags in Ef.
  assert (Hmode : flag ∈ simple_bits -> forall b, (exists y, if_allowed b flag x = Some y /\ same_lists x y)
     /\ exists y, mode_parse_mode flag x = Some y /\ same_lists x y).
  { intros Hf b. split; [|by apply mode_parse_mode_total]. unfold if_allowed.
    destruct b; [by apply mode_parse_mode_total|by eexists]. }
  repeat (apply elem_of_cons in Ef as [[= -> ->]|Ef]; [|]); [..|by apply elem_of_nil in Ef].
  all: try (exfalso; apply Hc; by_decide).
  all: cbn [Z.eqb Pos.eqb]; unfold by_feature; rewrite ?bool_decide_true by by_decide; rewrite ?bool_decide_false by by_decide.
  all: try (refine (proj1 (Hmode _ _)); by_decide); try (refine (proj2 (Hmode _ false)); by_decide); try by eexists.
  case_match; [by eexists|]. refine (proj2 (Hmode _ false)). by_decide.
Qed.

Lemma parse_letters_total l x : Forall bare l -> tidy x ->
  exists y, parse_letters l x = Some y /\ same_lists x y /\ tidy y.
Proof.
  intros Hl. revert x. induction Hl as [|c l Hc _ IH]; intros x Hx; [by exists x|]. cbn [parse_letters].
  destruct (parse_letter_total c x Hc Hx) as (y & E & H1 & H2 & H3 & H4). rewrite E. cbn [mbind option_bind].
  destruct (IH y) as (z & Ez & (G1 & G2 & G3 & G4) & Hz); [by eapply tidy_step; [eapply parse_letter_step|]|].
  exists z. split_and!; [done| |done]. unfold same_lists. split_and!; congruence.
Qed.

Lemma parse_args_total fuel modestr x :
  Forall bare modestr -> Forall (Forall bare) (p_args x) -> (length (p_args x) < fuel)%nat -> tidy x ->
  exists y, parse_args fuel modestr x = Some y /\ p_bans y = p_bans x /\ p_excepts y = p_excepts x /\ p_cli y = p_cli x.
Proof.
  revert modestr x. induction fuel as [|fuel IH]; intros modestr x Hm Ha Hf Hx; [lia|].
  destruct modestr as [|c modestr]; [by exists x|]. cbn [parse_args].
  destruct (parse_letters_total (c :: modestr) x Hm Hx) as (y & E & (H1 & H2 & H3 & H4) & Hy).
  rewrite E. cbn [mbind option_bind]. case_match; [by exists y|].
  rewrite <- H1 in Ha, Hf. destruct (p_args y) as [|next rest] eqn:Er; [by exists y|]. apply Forall_cons in Ha as [Ha1 Ha2].
  destruct (_ && IsDigit _); [destruct (negb _); [by eexists|]; eexists; split; [done|]; by case_match|].
  destruct (_ || _); [by exists y|].
  destruct (IH next (set_in rest (S (p_used y)) (p_max y) y)) as (z & Ez & G1 & G2 & G3);
    [done|done|cbn in *; lia|by apply tidy_in|].
  exists z. split; [done|]. cbn in *. by rewrite G1, G2, G3.
Qed.

Lemma mode_parse_total ch parv : parv <> [] -> Forall (Forall bare) parv -> exclusive (mode (c_mode ch)) ->
  is_Some (mode_parse ch parv).
Proof.
  intros Hp Hb Hx. destruct parv as [|modestr args]; [done|]. apply Forall_cons in Hb as [Hm Ha]. unfold mode_parse.
  destruct (parse_args_total (S (length args)) modestr (start ch args 1)) as (y & E & H1 & H2 & H3);
    [done|done|cbn; lia|by apply tidy_start|].
  rewrite E. cbn [mbind option_bind]. unfold mode_parse_end. case_match; [done|].
  assert (Hend : forall z, p_bans z = p_bans y -> p_excepts z = p_excepts y -> forall b, end_list b z = Some z).
  { intros z Z1 Z2 b. unfold end_list. rewrite Z1, Z2, H1, H2. by destruct b. }
  assert (Hw : let z := end_wipeout (end_modes y) in p_bans z = p_bans y /\ p_excepts z = p_excepts y /\ p_cli z = p_cli y).
  { cbv zeta. unfold end_wipeout. assert (Hm' : p_bans (end_modes y) = p_bans y /\ p_excepts (end_modes y) = p_excepts y
      /\ p_cli (end_modes y) = p_cli y).
    { unfold end_modes. destruct (delete_modes _ _) as [dels t1], (add_modes _ _) as [adds t2]. rewrite call_fold_log.
      by repeat case_match. }
    repeat case_match; exact Hm'. }
  destruct Hw as (W1 & W2 & W3). rewrite !Hend by done. cbn [mbind option_bind]. rewrite Hend by done. cbn [mbind option_bind].
  unfold mode_process_clients. rewrite W3, H3. by rewrite decide_True by by_decide.
Qed.

(** ** The fuel of the outer loop *)
Lemma letter_step_args x y : letter_step x y -> (length (p_args y) <= length (p_args x))%nat.
Proof.
  assert (Hg : forall st arg st', grab st = Some (arg, st') -> (length (p_args st') <= length (p_args st))%nat).
  { unfold grab. intros st arg st'. destruct (p_args st) as [|a r]; [done|]. intros [= <- <-]. cbn. lia. }
  assert (Hn : forall st, p_args (send_notoper st) = p_args st) by (intros; unfold send_notoper; by case_match).
  assert (Ha : forall b a st, p_args (answer_if b a st) = p_args st) by by intros [].
  intros [|a|d| | | | |b st' E|voice flag st' _ _ E|flag st' Hf E].
  - done.
  - done.
  - done.
  - unfold mode_parse_limit. assert (Hl : forall n st, p_args (set_limit n st) = p_args st) by (intros; unfold set_limit; by repeat case_match).
    case_match; [|by rewrite Hl]. case_match; [done|]. destruct (grab x) as [[arg z]|] eqn:E; [|by rewrite Ha].
    apply Hg in E. repeat (case_match; [done|]). by rewrite Hl.
  - unfold mode_parse_key. assert (Hl : forall n st, p_args (set_key n st) = p_args st) by (intros; unfold set_key; by repeat case_match).
    case_match; [done|]. destruct (grab x) as [[arg z]|] eqn:E; [|by rewrite Ha]. apply Hg in E.
    repeat (case_match; [by rewrite ?Hn, ?Ha|]). by rewrite Hl.
  - unfold mode_parse_redirect. assert (Hl : forall n st, p_args (set_redirect n st) = p_args st) by (intros; unfold set_redirect; by repeat case_match).
    case_match; [done|]. case_match; [by rewrite Hn|]. case_match; [done|]. case_match; [done|]. case_match; [|by rewrite Hl].
    destruct (grab _) as [[arg z]|] eqn:E; [|by rewrite Ha]. apply Hg in E. repeat (case_match; [by rewrite ?Ha|]). by rewrite Hl.
  - unfold mode_parse_dummy. case_match; [done|]. destruct (grab x) as [[arg z]|] eqn:E; [|done]. by apply Hg in E.
  - by apply parse_list_args in E.
  - unfold parse_client in E. case_match; [by injection E as <-|]. destruct (grab x) as [[arg z]|] eqn:Eg; [|by injection E as <-].
    apply Hg in Eg. case_match; [injection E as <-; by rewrite Hn|]. destruct (find_client arg); [|by injection E as <-].
    case_decide; [|done]. by injection E as <-.
  - unfold mode_parse_mode in E. case_match; [injection E as <-; by rewrite Hn|]. case_match; [by injection E as <-|].
    repeat case_match; try done; by injection E as <-.
Qed.

Lemma parse_args_fuel n k modestr st : (length (p_args st) < n)%nat -> (length (p_args st) < k)%nat ->
  parse_args n modestr st = parse_args k modestr st.
Proof.
  revert k modestr st. induction n as [|n IH]; intros [|k] modestr st H1 H2; try lia. destruct modestr as [|c modestr]; [done|].
  cbn [parse_args]. destruct (parse_letters (c :: modestr) st) as [st1|] eqn:E; [|done]. cbn [mbind option_bind].
  apply (parse_letters_ind (fun z => (length (p_args z) <= length (p_args st))%nat)) in E;
    [|intros x y Hxy Hx; apply letter_step_args in Hxy; lia|done].
  case_match; [done|]. destruct (p_args st1) as [|next rest]; [done|]. cbn [length] in E.
  destruct (_ && IsDigit _); [done|]. destruct (_ || _); [done|]. apply IH; cbn; lia.
Qed.

(** ** Properties *)

(** C3: what a MODE command sets is what it announces.  For a sender who may
    change modes, when they are set, the calls of the mode buffer, applied in
    order to the modes, the limit, the key, the redirection and the ranks of the
    members before the command, give the ones after it: nothing is changed
    without a call, and no call is made for nothing that is not changed so. *)
Theorem mode_parse_announced ch parv st :
  parse_flag PARSE_SET = true -> parse_flag PARSE_BOUNCE = false -> parse_flag PARSE_WIPEOUT = false ->
  no_rights = false -> mbuf = true -> mode_parse ch parv = Some st ->
  effects ch (p_log st) = outline (p_chan st).
Proof. apply mode_parse_faithful. Qed.

(** C8: without the rights of an operator a MODE command does nothing: no mode,
    rank, ban or exception changes and the mode buffer is not called.  A half
    operator can only cause changes of bans and voices; the modes, the
    exceptions and the ranks of operators and half operators stay. *)
Theorem mode_parse_rights ch parv st :
  no_rights = true -> parse_flag PARSE_WIPEOUT = false -> mode_parse ch parv = Some st ->
  harmless ch st /\ (parse_flag PARSE_ISHALFOP = false -> idle ch st).
Proof. apply mode_parse_no_rights. Qed.

(** C29: secret and private, and the two modes about colours, exclude each other.
    On a channel without both of a pair, in every state the parser can be in
    after any letters and before any arguments, the assertions of
    mode_parse_mode() hold for every mode it may be called with (it gives a
    result); so a MODE command whose letters take no parameters always ends; and
    whatever the letters, their order and their parameters, when the command ends
    the channel does not have both of a pair. *)
Theorem mode_parse_exclusive ch parv :
  exclusive (mode (c_mode ch)) ->
  (forall args used st flag, reached (start ch args used) st -> flag ∈ simple_bits ->
     is_Some (mode_parse_mode flag st)) /\
  (parv <> [] -> Forall (Forall bare) parv -> is_Some (mode_parse ch parv)) /\
  (forall st, mode_parse ch parv = Some st -> exclusive (mode (c_mode (p_chan st)))).
Proof.
  intros Hx. split_and!.
  - intros args used st flag Hr Hf. destruct (mode_parse_mode_total flag st) as (y & -> & _); [done| |done].
    eapply reached_tidy; [by apply tidy_start|exact Hr].
  - intros Hp Hb. by apply mode_parse_total.
  - intros st. by apply mode_parse_keeps_exclusive.
Qed.

End parse.

(** The limit of a bounced MODE is not put back.  When a server may not set a
    limit on a channel, the only call that is made adds the limit it wanted,
    whatever the limit of the channel; as the sense is inverted, that takes the
    limit away where it should be restored. *)
Theorem mode_parse_bounce_limit s F find_client is_service on_service may_deop now opmode member ch arg :
  MyUser s = false -> 0 < strtoul arg < 2 ^ 31 -> strtoul arg <> limit (c_mode ch) ->
  exists st, mode_parse s F find_client is_service on_service may_deop now true opmode (PARSE_STRICT .| PARSE_BOUNCE) member ch
      [lit "+l"; arg] = Some st /\
    p_log st = [(c_chan ch, CallUint (MODE_ADD .| MODE_LIMIT) (strtoul arg))] /\ c_mode (p_chan st) = c_mode ch.
Proof.
  intros Hs Hl Hne. unfold mode_parse. change (lit "+l") with [43; 108].
  assert (E : parse_letters s F find_client now true (PARSE_STRICT .| PARSE_BOUNCE) member [43; 108] (start ch [arg] 1) =
    Some (call_buf (CallUint (MODE_ADD .| MODE_LIMIT) (strtoul arg)) (set_done DONE_LIMIT (set_in [] 2 5 (set_dir true (start ch [arg] 1)))))).
  { cbn [parse_letters]. change (parse_letter s F find_client now true (PARSE_STRICT .| PARSE_BOUNCE) member 43 (start ch [arg] 1))
      with (Some (set_dir true (start ch [arg] 1))). cbn [mbind option_bind].
    change (parse_letter s F find_client now true (PARSE_STRICT .| PARSE_BOUNCE) member 108 ?st)
      with (Some (mode_parse_limit s true (PARSE_STRICT .| PARSE_BOUNCE) st)). cbn [mbind option_bind]. f_equal.
    unfold mode_parse_limit. cbn [set_dir p_adding]. rewrite Hs. cbn [andb]. unfold grab. cbn [start p_args set_dir].
    rewrite (proj2 (Z.leb_gt _ _)) by lia.
    change (parse_flag (PARSE_STRICT .| PARSE_BOUNCE) PARSE_WIPEOUT) with false. cbn [negb andb].
    rewrite (proj2 (Z.eqb_neq (strtoul arg) 0)) by lia. cbn [orb set_in p_chan]. rewrite (proj2 (Z.eqb_neq _ _)) by done.
    unfold set_limit. done. }
  cbn [parse_args length]. rewrite E. cbn [mbind option_bind]. change (parse_flag (PARSE_STRICT .| PARSE_BOUNCE) PARSE_BURST) with false.
  cbn [call_buf set_done set_in p_args]. eexists. split; [reflexivity|]. done.
Qed.

(** ** Witnesses *)
Definition sample_op : sptr := MkSptr true true false true false false false false false false 1%N (lit "op").
Definition sample_server : sptr := MkSptr false false true false false false false false false false 9%N (lit "hub.example").
Definition all_features : features :=
  MkFeatures true true true true true (fun _ => true) (fun _ => true) (fun _ => true) 40 30 40 30.
Definition sample_find (nick : list Z) : option N :=
  if bool_decide (nick = lit "op") then Some 1%N else if bool_decide (nick = lit "user") then Some 2%N else None.
Definition nobody (_ : N) : bool := false.
Definition sample_channel : chan :=
  MkChan (MkChannel (lit "#chan") 1000 2 [] [] [] [] (MkMode (MODE_PRIVATE .| MODE_NOPRIVMSGS) 0 [] []) 0)
    {[ 1%N := CHFL_CHANOP; 2%N := CHFL_DEOPPED ]} [] [].
Definition sample_args : list (list Z) := [lit "+s-n+ovlk"; lit "user"; lit "user"; lit "25"; lit "secret"; lit "+b"; lit "bad!*@*"].

Lemma mode_parse_announced_witness :
  match mode_parse sample_op all_features sample_find nobody nobody nobody 5 true false PARSE_SET (Some CHFL_CHANOP) sample_channel sample_args with
  | Some st => effects sample_channel (p_log st) = outline (p_chan st)
  | None => False
  end.
Proof.
  destruct (mode_parse _ _ _ _ _ _ _ _ _ _ _ _ _) as [st|] eqn:E; [|vm_compute in E; discriminate].
  by apply (mode_parse_announced sample_op all_features sample_find nobody nobody nobody 5 true false PARSE_SET (Some CHFL_CHANOP)
    sample_channel sample_args st).
Defined.

Lemma mode_parse_rights_witness :
  match mode_parse sample_op all_features sample_find nobody nobody nobody 5 true false
      (PARSE_ISHALFOP .| PARSE_SET .| PARSE_NOTOPER) (Some CHFL_HALFOP) sample_channel sample_args with
  | Some st => harmless sample_channel st /\ (parse_flag (PARSE_ISHALFOP .| PARSE_SET .| PARSE_NOTOPER) PARSE_ISHALFOP = false -> idle sample_channel st)
  | None => False
  end.
Proof.
  destruct (mode_parse _ _ _ _ _ _ _ _ _ _ _ _ _) as [st|] eqn:E; [|vm_compute in E; discriminate].
  by apply (mode_parse_rights sample_op all_features sample_find nobody nobody nobody 5 true false
    (PARSE_ISHALFOP .| PARSE_SET .| PARSE_NOTOPER) (Some CHFL_HALFOP) sample_channel sample_args st).
Defined.

Lemma mode_parse_exclusive_witness :
  match mode_parse sample_op all_features sample_find nobody nobody nobody 5 true false PARSE_SET (Some CHFL_CHANOP) sample_channel sample_args with
  | Some st => exclusive (mode (c_mode (p_chan st)))
  | None => False
  end /\
  is_Some (mode_parse sample_op all_features sample_find nobody nobody nobody 5 true false PARSE_SET (Some CHFL_CHANOP)
    sample_channel [lit "+ps-p+pcSc"]).
Proof.
  assert (Hx : exclusive (mode (c_mode sample_channel))).
  { intros i j. unfold excluded. rewrite !elem_of_cons, elem_of_nil. by intros [[= -> ->]|[[= -> ->]|[[= -> ->]|[[= -> ->]|[]]]]]. }
  split.
  - destruct (mode_parse _ _ _ _ _ _ _ _ _ _ _ _ _) as [st|] eqn:E; [|vm_compute in E; discriminate].
    by apply (mode_parse_exclusive sample_op all_features sample_find nobody nobody nobody 5 true false PARSE_SET (Some CHFL_CHANOP)
      sample_channel sample_args Hx).
  - apply (mode_parse_exclusive sample_op all_features sample_find nobody nobody nobody 5 true false PARSE_SET (Some CHFL_CHANOP)
      sample_channel [lit "+ps-p+pcSc"] Hx); [done|]. unfold bare. by_decide.
Defined.

Lemma mode_parse_bounce_limit_witness :
  exists st, mode_parse sample_server all_features sample_find nobody nobody nobody 5 true false (PARSE_STRICT .| PARSE_BOUNCE) None
      (set_mode (fun m => MkMode (mode m .| MODE_LIMIT) 5 (key m) (redirect m)) sample_channel) [lit "+l"; lit "10"] = Some st /\
    p_log st = [(c_chan (set_mode (fun m => MkMode (mode m .| MODE_LIMIT) 5 (key m) (redirect m)) sample_channel),
      CallUint (MODE_ADD .| MODE_LIMIT) (strtoul (lit "10")))] /\
    c_mode (p_chan st) = c_mode (set_mode (fun m => MkMode (mode m .| MODE_LIMIT) 5 (key m) (redirect m)) sample_channel).
Proof. apply mode_parse_bounce_limit; [reflexivity|by vm_compute|by vm_compute]. Defined.
