(* ===== verification/Join.v ===== *)
(** * ircd/channel.c: who may join a channel and speak on it

    can_join() with its key rings, the two tests for speaking, and what is done to
    the texts that are sent.  A joiner is a client of [Bans] with the rest of what
    the tests read; a null key is the empty text.  Whether a user is invited, and
    the membership find_channel_member() finds, are arguments: [Channel] models
    the lists they are read from.  The bits of a membership that remember bans are
    part of its status, as in [Bans]. *)
From S2P Require Import Prelude Chattr NumText IrcdString Match MaskOrder Channel BanModes ModeBuf Bans.
Open Scope ircd_scope.

(** ** Key rings *)
Fixpoint skip_key (ring : list Z) : list Z :=
  match ring with [] => [] | c :: r => if c =? 44 then r else skip_key r end.

(** The first loop of compall(): what is left of the key and of the ring. *)
Fixpoint step_key (key ring : list Z) : list Z * list Z :=
  match key, ring with
  | k :: key', c :: ring' => if k =? c then step_key key' ring' else (key, ring)
  | _, _ => (key, ring)
  end.

Fixpoint compall_loop (fuel : nat) (key ring : list Z) : option Z :=
  match fuel with
  | O => None
  | S fuel =>
      let '(p1, ring) := step_key key ring in
      if bool_decide (p1 = []) && (bool_decide (ring = []) || (hd0 ring =? 44)) then Some 0
      else match ring with
           | [] => Some 1
           | _ => compall_loop fuel key (skip_key ring)
           end
  end.

Definition compall (key keyring : list Z) : option Z := compall_loop (S (length keyring)) key keyring.

(** ** can_join() *)
Definition ERR_SSLONLYCHAN : Z := 469.
Definition ERR_OPERONLYCHAN : Z := 470.
Definition ERR_CHANNELISFULL : Z := 471.
Definition ERR_INVITEONLYCHAN : Z := 473.
Definition ERR_BANNEDFROMCHAN : Z := 474.
Definition ERR_BADCHANNELKEY : Z := 475.
Definition ERR_NEEDREGGEDNICK : Z := 477.
Definition ERR_ADMINONLYCHAN : Z := 480.
Definition ERR_DONTCHEAT : Z := 516.
Definition MAGIC_OPER_OVERRIDE : Z := 1000.

Record joiner := MkJoiner {
  who : client; IsXtraOp : bool; IsSSL : bool; IsAnOper : bool; IsAdmin : bool; IsServer : bool;
  IsChannelService : bool; MyUser : bool; walk_lchan : bool }.

Record room := MkRoom {
  chname : list Z; mode : Z; key : list Z; limit : Z; users : Z; banlist : list Ban; exceptlist : list Ban }.

Definition EmptyString (s : list Z) : bool := match s with [] => true | _ => false end.

Section join.
Variable inet_addr : list Z -> Z.
Variable FEAT_HOST_HIDING_STYLE : Z.
Variable hidden_domain : client -> list Z.
Variable FindChannel : list Z -> option (list Ban * list Ban).
Variables FEAT_CHMODE_e_CHMODEEXCEPTION FEAT_FLEXABLEKEYS : bool.

Abbreviation is_banned := (Bans.is_banned inet_addr FEAT_HOST_HIDING_STYLE hidden_domain FindChannel).
Abbreviation is_excepted := (Bans.is_excepted inet_addr FEAT_HOST_HIDING_STYLE hidden_domain FindChannel).
Abbreviation is_ext_banned := (Bans.is_ext_banned inet_addr FEAT_HOST_HIDING_STYLE hidden_domain).
Abbreviation is_ext_excepted := (Bans.is_ext_excepted inet_addr FEAT_HOST_HIDING_STYLE hidden_domain).

(** The calls with a null membership. *)
Definition banned_outside (s : joiner) (c : room) : option bool := fst <$> is_banned (who s) (banlist c) None.
Definition excepted_outside (s : joiner) (c : room) : option bool := fst <$> is_excepted (who s) (exceptlist c) None.

Definition notM (a : option bool) : option bool := negb <$> a.

(** Whether an operator forces a way into a local channel. *)
Definition overrides (s : joiner) (c : room) (keys : list Z) : option bool :=
  whenM (IsLocalChannel (chname c) && walk_lchan s && negb (EmptyString keys))
    (r ← compall (lit "OVERRIDE") keys;
     whenM (r =? 0) (r ← compall (lit "OVERRIDE") (key c); Some (negb (r =? 0)))).

(** The tests of can_join() in their order: the first that holds is the error. *)
Fixpoint first_error (l : list (option bool * Z)) : option (option Z) :=
  match l with
  | [] => Some None
  | (test, err) :: l => b ← test; if (b : bool) then Some (Some err) else first_error l
  end.

Definition join_tests (s : joiner) (c : room) (keys : list Z) (exception_join keyv : bool) : list (option bool * Z) :=
  let keyless := negb keyv || negb FEAT_FLEXABLEKEYS in
  let not_excepted := notM (excepted_outside s c) in
  let on m := has_bits (mode c) m in
  [(whenM (negb (EmptyString (key c)))
      (ne ← not_excepted;
       whenM ne (bad ← orM (Some (EmptyString keys)) (r ← compall (key c) keys; Some (negb (r =? 0)));
                 Some (bad && negb exception_join))), ERR_BADCHANNELKEY);
   (whenM (on MODE_INVITEONLY) (ne ← not_excepted; Some (ne && keyless && negb exception_join)), ERR_INVITEONLYCHAN);
   (whenM (negb (limit c =? 0) && (limit c <=? users c)) (ne ← not_excepted; Some (ne && keyless && negb exception_join)),
      ERR_CHANNELISFULL);
   (whenM (on MODE_REGONLY && negb (IsAccount (who s))) (ne ← not_excepted; Some (ne && keyless)), ERR_NEEDREGGEDNICK);
   (Some (on MODE_OPERONLY && negb (IsAnOper s) && keyless), ERR_OPERONLYCHAN);
   (Some (on MODE_ADMINONLY && negb (IsAdmin s) && keyless), ERR_ADMINONLYCHAN);
   (b ← banned_outside s c; whenM b not_excepted, ERR_BANNEDFROMCHAN)].

Definition can_join (s : joiner) (invited : bool) (c : room) (keys : list Z) : option Z :=
  if IsXtraOp s then Some 0
  else if has_bits (mode c) MODE_SSLONLY && negb (IsSSL s) then Some ERR_SSLONLYCHAN
  else if invited then Some 0
  else
    forced ← overrides s c keys;
    let overrideJoin := if (forced : bool) then MAGIC_OPER_OVERRIDE else 0 in
    exception_join ← whenM FEAT_CHMODE_e_CHMODEEXCEPTION (excepted_outside s c);
    let keyv := negb (EmptyString (key c)) && negb exception_join in
    e ← first_error (join_tests s c keys exception_join keyv);
    match e with
    | Some err => Some (overrideJoin + err)
    | None => if (forced : bool) then Some ERR_DONTCHEAT else Some (if keyv then -1 else 0)
    end.

(** ** Speaking *)
Definition voiced (status : Z) : bool := has_bits status CHFL_VOICED_OR_OPPED.

(** member_can_send_to_channel(), with the status of the membership. *)
Definition member_can_send_to_channel (s : joiner) (c : room) (status : Z) : option (bool * Z) :=
  if voiced status then Some (true, status)
  else
    quiet ← is_ext_banned (who s) (banlist c) EXTBAN_QUIET;
    '(quiet, status) ←
      (if (quiet : bool) then
         '(ex, st) ← is_excepted (who s) (exceptlist c) (Some status);
         if (ex : bool) then q ← is_ext_excepted (who s) (exceptlist c) EXTBAN_QUIET; Some (q, default status st)
         else Some (true, default status st)
       else Some (false, status));
    if (quiet : bool) then Some (false, status)
    else if has_bits (mode c) MODE_MODERATED then Some (false, status)
    else if MyUser s then
      '(b, st) ← is_banned (who s) (banlist c) (Some status);
      let status := default status st in
      if (b : bool) then
        '(ex, st) ← is_excepted (who s) (exceptlist c) (Some status); Some (ex, default status st)
      else Some (true, status)
    else Some (true, status).

(** client_can_send_to_channel(): [member] is the status of the membership of a
    member who is no zombie. *)
Definition client_can_send_to_channel (s : joiner) (c : room) (member : option Z) : option (bool * option Z) :=
  let on m := has_bits (mode c) m in
  if IsServer s || IsChannelService s || IsXtraOp s then Some (true, member)
  else match member with
       | None =>
           if on (MODE_NOPRIVMSGS .| MODE_MODERATED) || (on MODE_REGONLY && negb (IsAccount (who s))) ||
              (on MODE_OPERONLY && negb (IsAnOper s)) || (on MODE_ADMINONLY && negb (IsAdmin s)) ||
              (on MODE_SSLONLY && negb (IsSSL s))
           then Some (false, None)
           else b ← banned_outside s c; Some (negb b, None)
       | Some status =>
           if on MODE_ACCONLY && negb (voiced status) && negb (IsAccount (who s)) then Some (false, member)
           else '(b, status) ← member_can_send_to_channel s c status; Some (b, Some status)
       end.

(** find_no_nickchange_channel(): the memberships of a user with their channels,
    whose statuses may change; the first channel that binds his nick. *)
Fixpoint find_no_nickchange_loop (s : joiner) (l : list (room * Z)) : option (option (list Z) * list Z) :=
  match l with
  | [] => Some (None, [])
  | (c, status) :: l =>
      '(hit, status) ←
        (if voiced status then Some (false, status)
         else
           '(b, st) ← is_banned (who s) (banlist c) (Some status);
           let status := default status st in
           if (b : bool) then
             '(ex, st) ← is_excepted (who s) (exceptlist c) (Some status); Some (negb ex, default status st)
           else Some (false, status));
      if (hit : bool) then Some (Some (chname c), status :: map snd l)
      else '(r, statuses) ← find_no_nickchange_loop s l; Some (r, status :: statuses)
  end.

Definition find_no_nickchange_channel (s : joiner) (l : list (room * Z)) : option (option (list Z) * list Z) :=
  if MyUser s then find_no_nickchange_loop s l else Some (None, map snd l).
End join.

(** ** Texts *)
Definition HasCntrl (text : list Z) : bool := existsb IsCntrl text.

Definition colour_code (c : Z) : bool := bool_decide (c ∈ [2; 3; 15; 22; 31]).

Fixpoint HasColour (text : list Z) : bool :=
  match text with
  | [] => false
  | c :: r => if negb (c .& 224 =? 0) then HasColour r else if colour_code c then true else HasColour r
  end.

(** What follows the code of a colour: one or two digits, and after a comma one
    or two more. *)
Definition skip_digit (s : list Z) : list Z := if IsDigit (hd0 s) then drop 1 s else s.
Definition colour_digits (s : list Z) : list Z :=
  if negb (IsDigit (hd0 s)) then s
  else
    let s := skip_digit (drop 1 s) in
    if (hd0 s =? 44) && IsDigit (hd0 (drop 1 s)) then skip_digit (drop 2 s) else s.

(** StripColour(): [None] when the text does not fit the buffer. *)
Fixpoint strip_loop (fuel : nat) (src : list Z) : list Z :=
  match fuel, src with
  | S fuel, c :: r =>
      if c =? 3 then strip_loop fuel (colour_digits r)
      else if colour_code c then strip_loop fuel r
      else c :: strip_loop fuel r
  | _, _ => []
  end.

Definition StripColour (text : list Z) : option (list Z) :=
  let s := strip_loop (length text) text in
  if (length s <? BUFSIZE)%nat then Some s else None.

(** ** Key rings hold keys between commas *)
Definition in_ring (key ring : list Z) : Prop :=
  exists a b, ring = a ++ key ++ b /\ (a = [] \/ exists a', a = a' ++ [44]) /\ (b = [] \/ exists b', b = 44 :: b').

Lemma split_at_None c s : split_at c s = None <-> c ∉ s.
Proof.
  induction s as [|x s IH]; cbn [split_at]; [split; [intros _; apply not_elem_of_nil|done]|].
  rewrite not_elem_of_cons. destruct (Z.eqb_spec x c) as [->|H].
  - split; [done|]. by intros [H _].
  - destruct (split_at c s) as [[a b]|]; split; [done| |by split; [intros ->|apply IH]|done].
    intros [_ Hn]. by apply IH in Hn.
Qed.

Lemma skip_key_split s : skip_key s = match split_at 44 s with Some (_, r) => r | None => [] end.
Proof.
  induction s as [|c s IH]; [done|]. cbn [skip_key split_at]. destruct (c =? 44); [done|]. rewrite IH.
  by destruct (split_at 44 s) as [[a b]|].
Qed.

Lemma step_key_spec key ring : let '(k, r) := step_key key ring in
  exists p, key = p ++ k /\ ring = p ++ r /\ (k = [] \/ r = [] \/ hd0 k <> hd0 r).
Proof.
  revert ring. induction key as [|x key IH]; intros ring.
  - exists []. destruct ring; auto.
  - destruct ring as [|y ring]; [exists []; auto|]. cbn [step_key]. destruct (Z.eqb_spec x y) as [->|H].
    + specialize (IH ring). destruct (step_key key ring) as [k r]. destruct IH as (p & -> & -> & H). by exists (y :: p).
    + exists []. split_and!; [done|done|]. right; by right.
Qed.

Lemma in_ring_plain key ring : 44 ∉ ring -> in_ring key ring <-> key = ring.
Proof.
  intros H. split.
  - intros (a & b & -> & Ha & Hb). rewrite !not_elem_of_app in H. destruct H as (H1 & H2 & H3).
    destruct Ha as [->|[a' ->]]; [|exfalso; apply H1; rewrite elem_of_app, list_elem_of_singleton; by right].
    destruct Hb as [->|[b' ->]]; [by rewrite app_nil_r|]. exfalso. apply H3. left.
  - intros ->. exists [], []. rewrite app_nil_r. auto.
Qed.

Lemma in_ring_comma key f rest : 44 ∉ key -> 44 ∉ f -> in_ring key (f ++ 44 :: rest) <-> key = f \/ in_ring key rest.
Proof.
  intros Hk Hf. split.
  - intros (a & b & E & Ha & Hb). destruct Ha as [->|[a' ->]].
    + left. cbn in E. destruct Hb as [->|[b' ->]].
      * exfalso. apply Hk. rewrite app_nil_r in E. rewrite <- E, elem_of_app. right. left.
      * pose proof (split_at_first 44 f rest Hf) as E1. rewrite E, (split_at_first 44 key b' Hk) in E1. congruence.
    + right. rewrite <- !app_assoc in E. cbn in E.
      destruct (split_at 44 a') as [[x y]|] eqn:Es.
      * apply split_at_Some in Es as [-> Hx]. rewrite <- app_assoc in E. cbn in E.
        pose proof (split_at_first 44 f rest Hf) as E1. rewrite E, (split_at_first 44 x _ Hx) in E1. injection E1 as _ <-.
        exists (y ++ [44]), b. rewrite <- app_assoc. split; [done|]. split; [right; by exists y|done].
      * apply split_at_None in Es. pose proof (split_at_first 44 f rest Hf) as E1.
        rewrite E, (split_at_first 44 a' _ Es) in E1. injection E1 as _ <-. exists [], b. auto.
  - intros [->|(a & b & -> & Ha & Hb)].
    + exists [], (44 :: rest). split; [done|]. split; [by left|right; by exists rest].
    + exists (f ++ 44 :: a), b. rewrite <- app_assoc. split; [done|]. split; [|done]. right.
      destruct Ha as [->|[a' ->]]; [by exists f|]. exists (f ++ 44 :: a'). by rewrite <- app_assoc.
Qed.

Lemma skip_key_length s : s <> [] -> (length (skip_key s) < length s)%nat.
Proof.
  rewrite skip_key_split. destruct s as [|c s]; [done|]. intros _. destruct (split_at 44 (c :: s)) as [[a b]|] eqn:E; [|cbn; lia].
  apply split_at_Some in E as [-> _]. rewrite length_app. cbn. lia.
Qed.

Lemma compall_loop_correct fuel key ring : 44 ∉ key -> key <> [] -> (length ring < fuel)%nat ->
  exists r, compall_loop fuel key ring = Some r /\ (r = 0 <-> in_ring key ring).
Proof.
  intros Hk Hne. revert ring. induction fuel as [|fuel IH]; intros ring Hf; [lia|]. cbn [compall_loop].
  pose proof (step_key_spec key ring) as Hs. destruct (step_key key ring) as [k r]. destruct Hs as (p & Ek & Er & Hd).
  assert (Hp : 44 ∉ p) by (rewrite Ek, not_elem_of_app in Hk; apply Hk).
  destruct (bool_decide (k = []) && _) eqn:Et.
  - exists 0. split; [done|]. split; [|done]. intros _. apply andb_true_iff in Et as [->%bool_decide_eq_true Et].
    rewrite app_nil_r in Ek. subst p. exists [], r. split; [done|]. split; [by left|].
    apply orb_true_iff in Et as [->%bool_decide_eq_true|Et%Z.eqb_eq]; [by left|right].
    destruct r as [|c r]; [done|]. cbn in Et. subst c. by exists r.
  - assert (Hn : forall f, 44 ∉ f -> r = f \/ (exists rest, r = f ++ 44 :: rest) -> key <> p ++ f).
    { intros f Hff Hr E. rewrite Ek in E. apply app_inv_head in E. subst f. destruct k as [|x k].
      - destruct Hr as [->|[rest ->]]; done.
      - destruct Hd as [|[->|Hd]]; [done| |]; destruct Hr as [Hr|[rest Hr]]; subst; done. }
    destruct r as [|c r].
    + exists 1. split; [done|]. split; [done|]. intros Hi. rewrite Er, app_nil_r in Hi.
      apply in_ring_plain in Hi; [|done]. destruct (Hn []); [by apply not_elem_of_nil|by left|by rewrite app_nil_r].
    + destruct (IH (skip_key (c :: r))) as (res & Hres & Hi).
      { pose proof (skip_key_length (c :: r) ltac:(done)). rewrite Er, length_app in Hf. lia. }
      exists res. split; [done|]. rewrite Hi, Er, skip_key_split. destruct (split_at 44 (c :: r)) as [[f rest]|] eqn:E.
      * apply split_at_Some in E as [E Hff]. rewrite E, app_assoc, in_ring_comma; [|done|by rewrite not_elem_of_app].
        split; [by right|]. intros [H|H]; [|done]. destruct (Hn f); [done|right; by exists rest|done].
      * apply split_at_None in E. rewrite !in_ring_plain; [|by rewrite not_elem_of_app|by apply not_elem_of_nil].
        split; [done|]. intros H. destruct (Hn (c :: r)); [done|by left|done].
Qed.

Lemma compall_correct key ring : 44 ∉ key -> key <> [] ->
  exists r, compall key ring = Some r /\ (r = 0 <-> in_ring key ring).
Proof. intros Hk Hne. apply compall_loop_correct; [done..|lia]. Qed.

(** ** What can_join() asks for *)
Section correct.
Variable inet_addr : list Z -> Z.
Variable FEAT_HOST_HIDING_STYLE : Z.
Variable hidden_domain : client -> list Z.
Variable FindChannel : list Z -> option (list Ban * list Ban).
Variables FEAT_CHMODE_e_CHMODEEXCEPTION FEAT_FLEXABLEKEYS : bool.

Hypothesis inet_addr_quad : forall a b c d, 0 <= a < 256 -> 0 <= b < 256 -> 0 <= c < 256 -> 0 <= d < 256 ->
  inet_addr (ircd_ntoa_r a b c d) = a * 2 ^ 24 + b * 2 ^ 16 + c * 2 ^ 8 + d.
Hypothesis hidden_domain_ok : forall u, cstring (hidden_domain u).
Hypothesis FindChannel_ok : forall name bans excepts, FindChannel name = Some (bans, excepts) ->
  Forall ban_ok bans /\ Forall ban_ok excepts.

Variables (s : joiner) (c : room).
Hypothesis Hu : client_ok (who s).
Hypothesis Hnamed : is_user (who s) = true.
Hypothesis Hbans : Forall ban_ok (banlist c).
Hypothesis Hexcepts : Forall ban_ok (exceptlist c).

(** A ban, or an exception, of the channel is about the user. *)
Definition is_hit : Prop :=
  exists b, b ∈ banlist c /\
    ban_hits inet_addr FEAT_HOST_HIDING_STYLE hidden_domain (who s)
      (shared_ban inet_addr FEAT_HOST_HIDING_STYLE hidden_domain FindChannel (who s)) b.
Definition is_spared : Prop :=
  exists e, e ∈ exceptlist c /\
    except_hits inet_addr FEAT_HOST_HIDING_STYLE hidden_domain (who s)
      (shared_except inet_addr FEAT_HOST_HIDING_STYLE hidden_domain FindChannel (who s)) e.

Abbreviation banned_outside := (banned_outside inet_addr FEAT_HOST_HIDING_STYLE hidden_domain FindChannel s c).
Abbreviation excepted_outside := (excepted_outside inet_addr FEAT_HOST_HIDING_STYLE hidden_domain FindChannel s c).

Lemma hit_decides :
  decides (anyM (ban_applies inet_addr FEAT_HOST_HIDING_STYLE hidden_domain
    (shared_bans inet_addr FEAT_HOST_HIDING_STYLE hidden_domain FindChannel (who s)) (who s)) (banlist c)) is_hit.
Proof.
  apply decides_any. intros b Hb. rewrite Forall_forall in Hbans. apply ban_applies_decides; try done; [by apply Hbans|].
  intros _. by apply shared_bans_decides.
Qed.

Lemma spared_decides :
  decides (anyM (except_applies inet_addr FEAT_HOST_HIDING_STYLE hidden_domain
    (shared_excepts inet_addr FEAT_HOST_HIDING_STYLE hidden_domain FindChannel (who s)) (who s)) (exceptlist c)) is_spared.
Proof.
  apply decides_any. intros b Hb. rewrite Forall_forall in Hexcepts. apply except_applies_decides; try done; [by apply Hexcepts|].
  intros _. by apply shared_excepts_decides.
Qed.

Lemma banned_outside_decides : decides banned_outside is_hit.
Proof.
  destruct hit_decides as (b & E & Hb). exists b. split; [|done].
  unfold Join.banned_outside, Bans.is_banned. rewrite Hnamed. cbn [negb]. by rewrite E.
Qed.

Lemma excepted_outside_decides : decides excepted_outside is_spared.
Proof.
  destruct spared_decides as (b & E & Hb). exists b. split; [|done].
  unfold Join.excepted_outside, Bans.is_excepted. rewrite Hnamed. cbn [negb]. by rewrite E.
Qed.

(** The channel has a key, the keys at hand hold it, and keys open everything. *)
Definition key_pass : Prop :=
  FEAT_FLEXABLEKEYS = true /\ key c <> [] /\ ~ (FEAT_CHMODE_e_CHMODEEXCEPTION = true /\ is_spared).

Definition forced_way (keys : list Z) : Prop :=
  IsLocalChannel (chname c) = true /\ walk_lchan s = true /\ in_ring (lit "OVERRIDE") keys /\
  ~ in_ring (lit "OVERRIDE") (key c).

Definition may_enter (invited : bool) (keys : list Z) : Prop :=
  let on m := has_bits (mode c) m = true in
  IsXtraOp s = true \/
  (on MODE_SSLONLY -> IsSSL s = true) /\
  (invited = true \/
   ~ forced_way keys /\
   (key c <> [] -> is_spared \/ in_ring (key c) keys) /\
   (on MODE_INVITEONLY -> is_spared \/ key_pass) /\
   (limit c <> 0 -> limit c <= users c -> is_spared \/ key_pass) /\
   (on MODE_REGONLY -> IsAccount (who s) = true \/ is_spared \/ key_pass) /\
   (on MODE_OPERONLY -> IsAnOper s = true \/ key_pass) /\
   (on MODE_ADMINONLY -> IsAdmin s = true \/ key_pass) /\
   (is_hit -> is_spared)).

Lemma overrides_decides keys : decides (overrides s c keys) (forced_way keys).
Proof.
  unfold overrides, forced_way.
  assert (Ho : 44 ∉ lit "OVERRIDE" /\ lit "OVERRIDE" <> []) by by_decide. destruct Ho as [H44 Hne].
  destruct (IsLocalChannel (chname c)), (walk_lchan s); cbn [andb whenM];
    try (exists false; split; [done|]; split; [done|]; by intros (H1 & H2 & _)).
  destruct keys as [|k keys]; cbn [EmptyString negb whenM].
  - exists false. split; [done|]. split; [done|]. intros (_ & _ & Hi & _). apply in_ring_plain in Hi; [done|by apply not_elem_of_nil].
  - destruct (compall_correct (lit "OVERRIDE") (k :: keys) H44 Hne) as (r & -> & Hr). cbn [mbind option_bind].
    destruct (Z.eqb_spec r 0) as [->|Hr0]; cbn [whenM].
    + destruct (compall_correct (lit "OVERRIDE") (key c) H44 Hne) as (r' & -> & Hr'). cbn [mbind option_bind].
      eexists. split; [done|]. rewrite negb_true_iff, Z.eqb_neq, Hr'. rewrite <- Hr. intuition.
    + exists false. split; [done|]. rewrite <- Hr. intuition congruence.
Qed.

Lemma first_error_decides (l : list (option bool * Z)) Ps :
  Forall2 (fun t P => decides (fst t) P) l Ps ->
  exists o, first_error l = Some o /\ (o = None <-> Forall not Ps) /\ forall err, o = Some err -> err ∈ map snd l.
Proof.
  induction 1 as [|[t err] P l Ps (b & Et & Hb) Hl (o & IH1 & IH2 & IH3)]; [by exists None; repeat constructor|].
  cbn [fst] in Et. cbn [first_error]. rewrite Et. cbn [mbind option_bind]. destruct b.
  - exists (Some err). split; [done|]. split.
    + split; [done|]. intros H. apply Forall_cons in H as [H _]. by destruct H; apply Hb.
    + intros ? [= <-]. left.
  - exists o. split; [done|]. split.
    + rewrite IH2, Forall_cons. split; [|tauto]. split; [|done]. intros HP. by apply Hb in HP.
    + intros x Hx. right. by apply IH3.
Qed.

Hypothesis Hkey : 44 ∉ key c.

Lemma bool_decides (b : bool) P : (b = true <-> P) -> decides (Some b) P.
Proof. intros H. by exists b. Qed.

Lemma key_test_decides keys eb :
  excepted_outside = Some eb ->
  decides (fst (hd (None, 0) (join_tests inet_addr FEAT_HOST_HIDING_STYLE hidden_domain FindChannel FEAT_FLEXABLEKEYS s c keys
                     (FEAT_CHMODE_e_CHMODEEXCEPTION && eb) true)))
    (key c <> [] /\ eb = false /\ ~ in_ring (key c) keys).
Proof.
  intros E. cbn [join_tests hd fst]. rewrite E. cbn [notM fmap option_fmap option_map mbind option_bind].
  destruct (key c) as [|k ks] eqn:Ek; cbn [EmptyString negb whenM].
  - exists false. split; [done|]. split; [done|]. by intros (H & _).
  - destruct eb; cbn [negb whenM]; [exists false; split; [done|]; split; [done|]; by intros (_ & [=] & _)|].
    rewrite andb_false_r. cbn [negb].
    destruct keys as [|x keys]; cbn [EmptyString orM mbind option_bind].
    + exists true. split; [done|]. split; [|done]. intros _. split_and!; [done|done|].
      intros Hi. apply in_ring_plain in Hi; [done|by apply not_elem_of_nil].
    + destruct (compall_correct (k :: ks) (x :: keys) Hkey ltac:(done)) as (r & Er & Hr). cbn [mbind option_bind] in Er |- *.
      rewrite Er. cbn [mbind option_bind]. eexists. split; [done|].
      rewrite andb_true_r, negb_true_iff, Z.eqb_neq, Hr. split; [intros H; split; [done|]; by split|by intros (_ & _ & H)].
Qed.

(** Without the key the exceptions for key holders do not count. *)
Definition keyless (eb : bool) : bool :=
  negb (negb (EmptyString (key c)) && negb (FEAT_CHMODE_e_CHMODEEXCEPTION && eb)) || negb FEAT_FLEXABLEKEYS.

Definition refusals (keys : list Z) (eb : bool) : list Prop :=
  let on m := has_bits (mode c) m = true in
  [key c <> [] /\ eb = false /\ ~ in_ring (key c) keys;
   on MODE_INVITEONLY /\ eb = false /\ keyless eb = true;
   (limit c <> 0 /\ limit c <= users c) /\ eb = false /\ keyless eb = true;
   (on MODE_REGONLY /\ IsAccount (who s) = false) /\ eb = false /\ keyless eb = true;
   on MODE_OPERONLY /\ IsAnOper s = false /\ keyless eb = true;
   on MODE_ADMINONLY /\ IsAdmin s = false /\ keyless eb = true;
   is_hit /\ eb = false].

Lemma join_tests_decide keys eb :
  excepted_outside = Some eb ->
  Forall2 (fun t P => decides (fst t) P)
    (join_tests inet_addr FEAT_HOST_HIDING_STYLE hidden_domain FindChannel FEAT_FLEXABLEKEYS s c keys
       (FEAT_CHMODE_e_CHMODEEXCEPTION && eb) (negb (EmptyString (key c)) && negb (FEAT_CHMODE_e_CHMODEEXCEPTION && eb)))
    (refusals keys eb).
Proof.
  intros E. pose proof (key_test_decides keys eb E) as H1. unfold join_tests, refusals. fold (keyless eb).
  constructor; [exact H1|]. rewrite E. cbn [notM fmap option_fmap option_map mbind option_bind].
  assert (Hne : forall b : bool, negb eb && b && negb (FEAT_CHMODE_e_CHMODEEXCEPTION && eb) = true <-> eb = false /\ b = true).
  { intros b. destruct eb; cbn; [intuition congruence|]. rewrite andb_false_r, andb_true_r. intuition. }
  repeat constructor; cbn [fst].
  - apply decides_when. intros _. by apply bool_decides.
  - eapply decides_iff; [apply decides_when; intros _; apply bool_decides, Hne|].
    rewrite andb_true_iff, negb_true_iff, Z.eqb_neq, Z.leb_le. tauto.
  - eapply decides_iff; [apply decides_when; intros _; apply bool_decides; apply andb_true_iff|].
    rewrite andb_true_iff, !negb_true_iff. tauto.
  - apply bool_decides. rewrite !andb_true_iff, negb_true_iff. tauto.
  - apply bool_decides. rewrite !andb_true_iff, negb_true_iff. tauto.
  - destruct banned_outside_decides as (b & -> & Hb). cbn [mbind option_bind].
    eapply decides_iff; [apply decides_when; intros _; apply bool_decides, negb_true_iff|]. by rewrite Hb.
Qed.

Lemma keyless_pass eb : (eb = true <-> is_spared) -> keyless eb = false <-> key_pass.
Proof.
  intros He. unfold keyless, key_pass. rewrite orb_false_iff, !negb_false_iff, andb_true_iff, !negb_true_iff, andb_false_iff.
  rewrite <- He. destruct (key c), FEAT_CHMODE_e_CHMODEEXCEPTION, eb; cbn; intuition congruence.
Qed.

Lemma err_positive keys ej kv err :
  err ∈ map snd (join_tests inet_addr FEAT_HOST_HIDING_STYLE hidden_domain FindChannel FEAT_FLEXABLEKEYS s c keys ej kv) -> 400 < err < 600.
Proof.
  cbn [join_tests map snd]. rewrite !elem_of_cons, elem_of_nil.
  intros [->|[->|[->|[->|[->|[->|[->|[]]]]]]]]; done.
Qed.

Lemma and_iff_both (P P' Q Q' : Prop) : (P <-> P') -> (Q <-> Q') -> P /\ Q <-> P' /\ Q'.
Proof. tauto. Qed.

Lemma no_refusal keys eb : (eb = true <-> is_spared) ->
  Forall not (refusals keys eb) <->
  let on m := has_bits (mode c) m = true in
  (key c <> [] -> is_spared \/ in_ring (key c) keys) /\
  (on MODE_INVITEONLY -> is_spared \/ key_pass) /\
  (limit c <> 0 -> limit c <= users c -> is_spared \/ key_pass) /\
  (on MODE_REGONLY -> IsAccount (who s) = true \/ is_spared \/ key_pass) /\
  (on MODE_OPERONLY -> IsAnOper s = true \/ key_pass) /\
  (on MODE_ADMINONLY -> IsAdmin s = true \/ key_pass) /\
  (is_hit -> is_spared).
Proof.
  intros He. unfold refusals. rewrite !Forall_cons, Forall_nil, <- (keyless_pass eb He), <- He.
  assert (Hk : key c = [] \/ key c <> [] /\ (in_ring (key c) keys \/ ~ in_ring (key c) keys)).
  { destruct (decide (key c = [])) as [Ek|Ek]; [by left|right]. split; [done|].
    destruct (compall_correct (key c) keys Hkey Ek) as (r & _ & Hr). destruct (decide (r = 0)); rewrite <- Hr; auto. }
  assert (Hr : forall (P : Prop) (x y : bool), ~ (P /\ x = false /\ y = true) <-> (P -> x = true \/ y = false)).
  { intros P [] []; intuition congruence. }
  rewrite !Hr. repeat apply and_iff_both.
  - destruct eb; intuition congruence.
  - done.
  - tauto.
  - destruct (IsAccount (who s)), (keyless eb), eb; intuition congruence.
  - done.
  - done.
  - destruct eb; intuition congruence.
Qed.

Abbreviation can_join := (can_join inet_addr FEAT_HOST_HIDING_STYLE hidden_domain FindChannel
  FEAT_CHMODE_e_CHMODEEXCEPTION FEAT_FLEXABLEKEYS).


(** ** Who may speak *)
Definition quiet_hits (ipmask : Z) (b : Ban) : Prop :=
  has_bits (extflag b) EXTBAN_QUIET = true /\
  mask_hits inet_addr FEAT_HOST_HIDING_STYLE hidden_domain (who s) (has_bits (ban_flags b) ipmask) (extstr b).

(** The mask of a ban on speaking has something before its last at sign. *)
Definition quiet_ok (b : Ban) : Prop := forall x y, last_split 64 (extstr b) = Some (x, y) -> x <> [].
Hypothesis Hquiet : Forall quiet_ok (banlist c) /\ Forall quiet_ok (exceptlist c).

Lemma ext_applies_decides ipmask b : ban_ok b -> quiet_ok b ->
  decides (ext_applies inet_addr FEAT_HOST_HIDING_STYLE hidden_domain ipmask EXTBAN_QUIET (who s) b) (quiet_hits ipmask b).
Proof.
  intros Hb Hq. unfold ext_applies, quiet_hits. apply decides_when. intros Hf.
  destruct (ext_nonempty b EXTBAN_QUIET Hb Hf) as [_ Hne]. pose proof (proj1 (bo_ext b Hb)) as Hp.
  eapply decides_iff; [apply decides_or; [apply decides_when; intros _; by apply decides_ip|
    apply decides_or; [by apply decides_dnsbl|apply decides_or; [by apply decides_kill|by apply decides_host]]]|].
  unfold mask_hits, marks. rewrite exists_app. tauto.
Qed.

Definition is_quiet : Prop := exists b, b ∈ banlist c /\ quiet_hits CHFL_BAN_IPMASK b.
Definition is_quiet_spared : Prop := exists b, b ∈ exceptlist c /\ quiet_hits CHFL_EXCEPT_IPMASK b.

Lemma quiet_decides : decides (Bans.is_ext_banned inet_addr FEAT_HOST_HIDING_STYLE hidden_domain (who s) (banlist c) EXTBAN_QUIET) is_quiet.
Proof.
  unfold Bans.is_ext_banned. rewrite Hnamed. cbn [negb]. apply decides_any. intros b Hb.
  destruct Hquiet as [Hq _]. rewrite Forall_forall in Hbans, Hq. apply ext_applies_decides; [by apply Hbans|by apply Hq].
Qed.

Lemma quiet_spared_decides :
  decides (Bans.is_ext_excepted inet_addr FEAT_HOST_HIDING_STYLE hidden_domain (who s) (exceptlist c) EXTBAN_QUIET) is_quiet_spared.
Proof.
  unfold Bans.is_ext_excepted. rewrite Hnamed. cbn [negb]. apply decides_any. intros b Hb.
  destruct Hquiet as [_ Hq]. rewrite Forall_forall in Hexcepts, Hq. apply ext_applies_decides; [by apply Hexcepts|by apply Hq].
Qed.

(** What a status that was looked at keeps. *)
Lemma kept_bits status status' k m : Z.ldiff status' k = Z.ldiff status k -> k .& m = 0 -> has_bits status' m = has_bits status m.
Proof. intros H Hm. by rewrite <- (has_bits_ldiff status' k m Hm), H, has_bits_ldiff. Qed.

Abbreviation is_banned := (Bans.is_banned inet_addr FEAT_HOST_HIDING_STYLE hidden_domain FindChannel).
Abbreviation is_excepted := (Bans.is_excepted inet_addr FEAT_HOST_HIDING_STYLE hidden_domain FindChannel).

(** What the status of a member remembers, and else what holds now. *)
Definition remembered (valid bit status : Z) (P : Prop) : Prop :=
  if has_bits status valid then has_bits status bit = true else P.
Definition member_hit (status : Z) : Prop := remembered CHFL_BANVALID CHFL_BANNED status is_hit.
Definition member_spared (status : Z) : Prop := remembered CHFL_EXCEPTVALID CHFL_EXCEPT status is_spared.

Lemma member_excepted status eb : (eb = true <-> member_spared status) ->
  exists status', is_excepted (who s) (exceptlist c) (Some status) = Some (eb, Some status') /\
    (eb = true <-> member_spared status') /\ forall P, remembered CHFL_BANVALID CHFL_BANNED status' P = remembered CHFL_BANVALID CHFL_BANNED status P.
Proof.
  intros Hk. pose proof (is_excepted_correct inet_addr FEAT_HOST_HIDING_STYLE hidden_domain FindChannel inet_addr_quad
    hidden_domain_ok (who s) Hu FindChannel_ok Hnamed (exceptlist c) (Some status) Hexcepts) as H.
  unfold remembers in H. unfold member_spared, remembered in *. destruct (has_bits status CHFL_EXCEPTVALID) eqn:Ev.
  - rewrite H. exists status. rewrite Ev. split_and!; [|done|done]. do 2 f_equal. destruct (has_bits status CHFL_EXCEPT), eb; intuition congruence.
  - destruct H as (b & status' & -> & Hb & Hv & Hh & Hl). fold is_spared in Hb.
    assert (b = eb) as -> by (destruct b, eb; intuition congruence). exists status'. split; [done|]. rewrite Hv, Hh. split; [done|].
    intros P. by rewrite !(kept_bits _ _ _ _ Hl).
Qed.

Lemma member_banned status :
  exists b status', is_banned (who s) (banlist c) (Some status) = Some (b, Some status') /\ (b = true <-> member_hit status) /\
    (member_spared status' <-> member_spared status).
Proof.
  pose proof (cached_remembers _ _ CHFL_BANVALID CHFL_BANNED (Some status) hit_decides eq_refl ltac:(done) ltac:(done)) as H.
  unfold remembers in H. unfold member_hit, member_spared, remembered, Bans.is_banned. rewrite Hnamed. cbn [negb].
  destruct (has_bits status CHFL_BANVALID) eqn:Hv.
  - exists (has_bits status CHFL_BANNED), status. done.
  - destruct H as (b & status' & E & Hb & _ & _ & Hl). exists b, status'. split; [exact E|]. split; [done|].
    by rewrite !(kept_bits _ _ _ _ Hl).
Qed.

Abbreviation member_can_send := (member_can_send_to_channel inet_addr FEAT_HOST_HIDING_STYLE hidden_domain FindChannel s c).
Abbreviation client_can_send := (client_can_send_to_channel inet_addr FEAT_HOST_HIDING_STYLE hidden_domain FindChannel s c).

Definition not_silenced (status : Z) : Prop := is_quiet -> member_spared status /\ ~ is_quiet_spared.
Definition member_may_speak (status : Z) : Prop :=
  voiced status = true \/
  not_silenced status /\ has_bits (mode c) MODE_MODERATED = false /\
  (MyUser s = true -> member_hit status -> member_spared status).

Lemma member_can_send_decides status :
  exists b status', member_can_send status = Some (b, status') /\ (b = true <-> member_may_speak status).
Proof.
  unfold member_can_send_to_channel, member_may_speak.
  destruct (voiced status); [exists true, status; intuition|].
  assert (exists eb : bool, eb = true <-> member_spared status) as (eb & He).
  { unfold member_spared, remembered. destruct (has_bits status CHFL_EXCEPTVALID); [by eexists|].
    destruct excepted_outside_decides as (eb & _ & He). by exists eb. }
  destruct quiet_decides as (q & -> & Hq). cbn [mbind option_bind].
  destruct quiet_spared_decides as (qs & Eqs & Hqs).
  assert (Hmute : exists muted status1, (if q then
      '(ex, st) ← is_excepted (who s) (exceptlist c) (Some status);
      (if (ex : bool) then q ← Bans.is_ext_excepted inet_addr FEAT_HOST_HIDING_STYLE hidden_domain (who s) (exceptlist c) EXTBAN_QUIET;
         Some (q, default status st) else Some (true, default status st))
      else Some (false, status)) = Some (muted, status1) /\ (eb = true <-> member_spared status1) /\
      (member_hit status1 <-> member_hit status) /\ (muted = false <-> not_silenced status)).
  { unfold not_silenced. setoid_rewrite <- He. destruct q.
    - destruct (member_excepted status eb He) as (st & -> & Hk' & Hb'). cbn [mbind option_bind default].
      destruct eb; rewrite ?Eqs; (do 2 eexists; split; [reflexivity|]; split; [exact Hk'|]; split; [unfold member_hit, id; by rewrite Hb'|]);
        destruct qs; intuition congruence.
    - exists false, status. split; [done|]. split; [done|]. split; [done|]. split; [|done]. intros _ H. by apply Hq in H. }
  destruct Hmute as (muted & st1 & -> & Hk1 & Hb1 & Hm). cbn [mbind option_bind]. setoid_rewrite <- Hm. setoid_rewrite <- He.
  destruct muted; [exists false, st1; intuition congruence|].
  destruct (has_bits (mode c) MODE_MODERATED); [exists false, st1; intuition congruence|].
  destruct (MyUser s); [|exists true, st1; intuition congruence].
  destruct (member_banned st1) as (b & st2 & -> & Hb & Hk2). cbn [mbind option_bind default]. unfold id. rewrite Hb1 in Hb.
  destruct b; [|exists true, st2; intuition congruence].
  rewrite <- Hk2 in Hk1.
  destruct (member_excepted st2 eb Hk1) as (st3 & -> & _). cbn [mbind option_bind default]. unfold id.
  exists eb, st3. split; [done|]. intuition congruence.
Qed.

(** What a client needs to be heard: [member] is the status of a member. *)
Definition may_speak (member : option Z) : Prop :=
  let on m := has_bits (mode c) m = true in
  (IsServer s = true \/ IsChannelService s = true \/ IsXtraOp s = true) \/
  match member with
  | None =>
      ~ on MODE_NOPRIVMSGS /\ ~ on MODE_MODERATED /\ (on MODE_REGONLY -> IsAccount (who s) = true) /\
      (on MODE_OPERONLY -> IsAnOper s = true) /\ (on MODE_ADMINONLY -> IsAdmin s = true) /\
      (on MODE_SSLONLY -> IsSSL s = true) /\ ~ is_hit
  | Some status => (on MODE_ACCONLY -> voiced status = true \/ IsAccount (who s) = true) /\ member_may_speak status
  end.

Lemma has_bits_lor x m n : has_bits x (m .| n) = has_bits x m || has_bits x n.
Proof.
  unfold has_bits. rewrite Z.land_lor_distr_r. destruct (Z.eqb_spec (x .& m) 0) as [->|Hm]; [done|]. cbn [negb orb].
  apply negb_true_iff, Z.eqb_neq. intros H. apply Z.lor_eq_0_iff in H. tauto.
Qed.

End correct.

(** ** Colours *)
Lemma colour_code_low c : colour_code c = true -> c .& 224 = 0.
Proof.
  unfold colour_code. intros H%bool_decide_eq_true. revert c H. apply Forall_forall. repeat constructor.
Qed.

Lemma HasColour_cons c r : HasColour (c :: r) = colour_code c || HasColour r.
Proof.
  cbn [HasColour]. destruct (Z.eqb_spec (c .& 224) 0) as [E|E]; cbn [negb]; [by destruct (colour_code c)|].
  destruct (colour_code c) eqn:Ec; [|done]. by apply colour_code_low in Ec.
Qed.

Lemma strip_no_colour fuel s : HasColour (strip_loop fuel s) = false.
Proof.
  revert s. induction fuel as [|fuel IH]; intros s; [done|]. destruct s as [|c r]; [done|]. cbn [strip_loop].
  destruct (c =? 3); [apply IH|]. destruct (colour_code c) eqn:E; [apply IH|]. by rewrite HasColour_cons, E, IH.
Qed.

Lemma strip_plain fuel s : (length s <= fuel)%nat -> HasColour s = false -> strip_loop fuel s = s.
Proof.
  revert s. induction fuel as [|fuel IH]; intros s Hl H; [by destruct s; [|cbn in Hl; lia]|]. destruct s as [|c r]; [done|].
  rewrite HasColour_cons, orb_false_iff in H. destruct H as [Hc Hr]. cbn [strip_loop]. cbn in Hl.
  destruct (Z.eqb_spec c 3) as [->|_]; [done|]. rewrite Hc. f_equal. apply IH; [lia|done].
Qed.

(** StripColour() takes all codes out, and changes nothing else: a text without
    codes stays as it is. *)
Theorem StripColour_correct s : (length s < BUFSIZE)%nat ->
  exists t, StripColour s = Some t /\ HasColour t = false /\ (HasColour s = false -> t = s).
Proof.
  intros Hl. unfold StripColour.
  assert (H : forall fuel t, (length (strip_loop fuel t) <= fuel)%nat).
  { induction fuel as [|fuel IH]; intros t; [done|]. destruct t as [|c r]; cbn [strip_loop]; [cbn; lia|].
    destruct (c =? 3); [specialize (IH (colour_digits r)); lia|]. destruct (colour_code c); [specialize (IH r); lia|].
    cbn [length]. specialize (IH r). lia. }
  specialize (H (length s) s). rewrite (proj2 (Nat.ltb_lt _ _)) by lia. eexists. split; [done|]. split; [apply strip_no_colour|].
  intros Hc. by apply strip_plain.
Qed.

(** ** Witnesses *)
Definition sample_joiner (oper : bool) : joiner := MkJoiner sample_client false false oper false false false true false.
Definition sample_room (mode : Z) (key : list Z) (limit users : Z) (excepts : list Ban) : room :=
  MkRoom (lit "#club") mode key limit users sample_bans excepts.
Definition sample_except : Ban := sample_ban (lit "al!*@*") CHFL_EXCEPT [] 0.

Lemma sample_except_ok : Forall ban_ok [sample_except].
Proof. repeat constructor; try by_decide; intros ? ? [= <- <-] || intros ? ? [=]; try done. Qed.

Lemma no_channel_ok (name : list Z) (bans excepts : list Ban) : no_channel name = Some (bans, excepts) -> Forall ban_ok bans /\ Forall ban_ok excepts.
Proof. discriminate. Qed.

Lemma sample_domain_ok u : cstring (sample_domain u).
Proof. by_decide. Qed.


Lemma sample_quiet_ok : Forall quiet_ok sample_bans /\ Forall quiet_ok [sample_except].
Proof. split; repeat constructor; intros x y [=]. Qed.


(** Without a key, and on a channel for operators only: an exception lets a user
    in who is none, once the channel has a key and keys open modes. *)
Lemma exception_opens_operonly :
  can_join sample_inet_addr 1 sample_domain no_channel false true (sample_joiner false) false
    (sample_room MODE_OPERONLY (lit "sesame") 0 3 [sample_except]) [] = Some (-1).
Proof. vm_compute. reflexivity. Qed.
