(* ===== verification/Gline.v ===== *)
(** * ircd/gline.c and ircd/m_gline.c: network bans

    A G-line keeps users off the network, by user and host mask, by address or
    by real name, or off a channel, and ends by itself.  G-lines are spread with
    GLINE messages, whose timestamps order them.  Each of the two lists is the
    sequence of its G-lines, a pointer to a G-line its position; what the
    functions send is the list of their [effect]s in order; of the channels the
    members that may be kicked are kept, and a member that is kicked is gone.
    Notices to operators and the log are left out.  Reading outside a string, an
    undefined shift and a conversion without an argument are [None]. *)
From S2P Require Import Prelude Chattr NumText IrcdString Match MaskOrder Bans.
Open Scope ircd_scope.

Definition GLINE_MAX_EXPIRE : Z := 604800.
Definition GLINE_ACTIVE : Z := 1.
Definition GLINE_IPMASK : Z := 2.
Definition GLINE_BADCHAN : Z := 4.
Definition GLINE_LOCAL : Z := 8.
Definition GLINE_ANY : Z := 16.
Definition GLINE_FORCE : Z := 32.
Definition GLINE_EXACT : Z := 64.
Definition GLINE_LDEACT : Z := 128.
Definition GLINE_GLOBAL : Z := 256.
Definition GLINE_LASTMOD : Z := 512.
Definition GLINE_OPERFORCE : Z := 1024.
Definition GLINE_REALNAME : Z := 2048.
Definition GLINE_MASK : Z := GLINE_ACTIVE .| GLINE_BADCHAN .| GLINE_LOCAL .| GLINE_REALNAME.
Definition GLINE_ACTMASK : Z := GLINE_ACTIVE .| GLINE_LDEACT.

Record Gline := MkGline {
  gl_user : list Z; gl_host : option (list Z); gl_reason : list Z; gl_expire : Z; gl_lastmod : Z;
  gl_ipnum : Z; gl_bits : Z; gl_flags : Z }.

Definition GlineIsActive (g : Gline) : bool := gl_flags g .& GLINE_ACTMASK =? GLINE_ACTIVE.
Definition GlineIsRemActive (g : Gline) : bool := has_bits (gl_flags g) GLINE_ACTIVE.
Definition GlineIsIpMask (g : Gline) : bool := has_bits (gl_flags g) GLINE_IPMASK.
Definition GlineIsRealName (g : Gline) : bool := has_bits (gl_flags g) GLINE_REALNAME.
Definition GlineIsBadChan (g : Gline) : bool := has_bits (gl_flags g) GLINE_BADCHAN.
Definition GlineIsLocal (g : Gline) : bool := has_bits (gl_flags g) GLINE_LOCAL.

Definition set_flags (flags : Z) (g : Gline) : Gline :=
  MkGline (gl_user g) (gl_host g) (gl_reason g) (gl_expire g) (gl_lastmod g) (gl_ipnum g) (gl_bits g) flags.
Definition set_lastmod (lastmod : Z) (g : Gline) : Gline :=
  MkGline (gl_user g) (gl_host g) (gl_reason g) (gl_expire g) lastmod (gl_ipnum g) (gl_bits g) (gl_flags g).

(** A membership as the kicks see it, a channel, and what the functions change. *)
Record member := MkMember { m_user : list Z; m_MyUser : bool; m_IsZombie : bool; m_IsAnOper : bool }.
Record channel := MkChannel { chname : list Z; chan_members : list member }.
Record glines := MkGlines { GlobalGlineList : list Gline; BadChanGlineList : list Gline; GlobalChannelList : list channel }.

Definition set_global (l : list Gline) (s : glines) : glines := MkGlines l (BadChanGlineList s) (GlobalChannelList s).
Definition set_badchan (l : list Gline) (s : glines) : glines := MkGlines (GlobalGlineList s) l (GlobalChannelList s).
Definition set_channels (l : list channel) (s : glines) : glines := MkGlines (GlobalGlineList s) (BadChanGlineList s) l.

(** Where a G-line is: in the list of channels or in the other one. *)
Record place := MkPlace { in_badchan : bool; position : nat }.

Definition list_at (p : place) (s : glines) : list Gline := if in_badchan p then BadChanGlineList s else GlobalGlineList s.
Definition upd_place (f : list Gline -> list Gline) (p : place) (s : glines) : glines :=
  if in_badchan p then set_badchan (f (BadChanGlineList s)) s else set_global (f (GlobalGlineList s)) s.

(** gline_free(), and a G-line that is written. *)
Definition gline_free (p : place) (s : glines) : glines := upd_place (delete (position p)) p s.
Definition gline_store (g : Gline) (p : place) (s : glines) : glines := upd_place (fun l => <[position p := g]> l) p s.

(** A client with its own connection, and where a command comes from. *)
Record client := MkClient {
  cli_id : N; realusername : list Z; realhost : list Z; cli_sockhost : list Z; cli_info : list Z; cli_ip : Z }.
Inductive priv := PRIV_GLINE | PRIV_LOCAL_GLINE | PRIV_WIDE_GLINE | PRIV_BADCHAN | PRIV_LOCAL_BADCHAN.
Record source := MkSource {
  src_name : list Z; IsServer : bool; IsUser : bool; MyConnect : bool; IsService : bool; cli_uworld : bool;
  HasPriv : priv -> bool }.
Definition MyUser (sptr : source) : bool := MyConnect sptr && IsUser sptr.

(** The address routines, the clock, the settings, the clients, the exemptions
    from G-lines (find_eline()), count_users(), the searches for servers and how
    %C prints one. *)
Record environment := MkEnvironment {
  inet_addr : list Z -> Z;
  CurrentTime : Z; TSoffset : Z;
  FEAT_HIS_GLINE : bool; FEAT_HIS_GLINE_REASON : bool; FEAT_HIS_USERGLINE : bool; FEAT_BADCHAN_REASON : list Z;
  FEAT_GLINEMAXUSERCOUNT : Z; FEAT_LASTMOD_TWEAK : bool; FEAT_CONFIG_OPERCMDS : bool;
  LocalClientArray : list client;           (* the registered ones, from HighestFd down *)
  find_eline : client -> bool;
  count_users : list Z -> Z;
  FindNServer : list Z -> option N; find_match_server : list Z -> option N; numeric : N -> list Z;
  me : N; my_name : list Z }.

Inductive reply :=
  | ERR_NOPRIVILEGES | ERR_LONGMASK | ERR_MASKTOOWIDE (mask : list Z) | ERR_TOOMANYUSERS (n : Z)
  | ERR_BADEXPIRE (expire : Z) | ERR_DISABLED | ERR_NOSUCHSERVER (name : list Z) | ERR_NEEDMOREPARAMS
  | ERR_NOSUCHGLINE (mask : list Z)
  | RPL_GLIST (user at_sign host : list Z) (expire lastmod : Z) (server : list Z) (sign : Z) (reason : list Z)
  | RPL_ENDOFGLIST | RPL_STATSHEADER
  | RPL_STATSGLINE (user at_sign host : list Z) (expire lastmod : Z) (sign : Z) (reason : list Z).

Inductive effect :=
  | Reply (r : reply)                                     (* send_reply() to the source *)
  | Violation                                             (* protocol_violation() *)
  | Servers (parv : list (list Z))                        (* GLINE to all servers but the sender *)
  | Server (server : N) (parv : list (list Z))            (* GLINE to one *)
  | Creep (u : client) (reason : list Z)                  (* ERR_YOUREBANNEDCREEP *)
  | Exit (u : client) (comment : list Z)                  (* exit_client() *)
  | Kick (name user reason : list Z).

(** canon_userhost() *)
Definition canon_userhost (userhost : list Z) (def_user : option (list Z)) : option (list Z) * option (list Z) :=
  if hd0 userhost =? 36 then (Some userhost, None)
  else match split_at 64 userhost with
       | None => (def_user, Some userhost)
       | Some (user, host) => (Some user, Some host)
       end.

Definition same_text (a b : list Z) : bool := ircd_strcmp a b =? 0.

(** ** gline_checkmask() *)
Inductive check := CHECK_APPROVED | CHECK_OVERRIDABLE | CHECK_REJECTED.
Definition MASK_WILD_0 : Z := 1.
Definition MASK_WILD_MASK : Z := 3.
Definition MASK_WILDS : Z := 16.
Definition MASK_IP : Z := 32.
Definition MASK_HALT : Z := 64.

Fixpoint skip_digits (s : list Z) : list Z :=
  match s with c :: r => if is_digit c then skip_digits r else s | [] => [] end.

(** strtoul(mask, &mask, 10) stored in an unsigned int, and the new mask. *)
Definition strtoul (mask : list Z) : Z * list Z :=
  let s := skip_blanks mask in
  let neg := hd0 s =? 45 in
  let s := if neg || (hd0 s =? 43) then drop 1 s else s in
  if is_digit (hd0 s) then
    let n := lead_number s 0 in
    (u32 (if 2 ^ 64 <=? n then 2 ^ 64 - 1 else if neg then - n else n), skip_digits s)
  else (0, mask).

(** The loop: [None] is the rejection inside it. *)
Fixpoint checkmask_loop (mask : list Z) (flags dots ipmask : Z) : option (Z * Z * Z) :=
  match mask with
  | [] => Some (flags, dots, ipmask)
  | c :: r =>
      if c =? 46 then
        let flags := Z.ldiff flags MASK_WILD_MASK .| ((flags << 1) .& MASK_WILD_MASK) in
        checkmask_loop r flags (dots + 1)
          (if flags .& (MASK_IP .| MASK_WILDS) =? MASK_IP then ipmask + 8 else ipmask)
      else if (c =? 42) || (c =? 63) then checkmask_loop r (flags .| (MASK_WILD_0 .| MASK_WILDS)) dots ipmask
      else if c =? 47 then
        let '(ipmask, rest) := strtoul r in
        if negb (bool_decide (rest = [])) || negb (dots =? 3) || (32 <? ipmask) ||
           negb (flags .& (MASK_WILDS .| MASK_IP) =? MASK_IP) then None
        else Some ((if ipmask <? 32 then flags .| MASK_WILDS else flags) .| MASK_HALT, dots, ipmask)
      else if negb (IsDigit c) then checkmask_loop r (Z.ldiff flags MASK_IP) dots 0
      else checkmask_loop r flags dots ipmask
  end.

Definition gline_checkmask (mask : list Z) : check :=
  match checkmask_loop mask MASK_IP 0 0 with
  | None => CHECK_REJECTED
  | Some (flags, dots, ipmask) =>
      let bad := (3 <? dots) || (negb (has_bits flags MASK_WILDS) && (dots <? 3)) in
      let flags := if bad then Z.ldiff flags MASK_IP else flags in
      let ipmask := if bad then 0 else ipmask in
      let ipmask := if flags .& (MASK_IP .| MASK_WILDS .| MASK_HALT) =? MASK_IP then ipmask + 8 else ipmask in
      if has_bits flags MASK_WILDS &&
         ((negb (has_bits flags MASK_IP) && ((dots <? 2) || has_bits flags MASK_WILD_MASK)) ||
          (has_bits flags MASK_IP && (ipmask <? 16)))
      then CHECK_REJECTED
      else if has_bits flags MASK_WILDS then CHECK_OVERRIDABLE else CHECK_APPROVED
  end.

(** ** make_gline() *)
Section gline.
Variable e : environment.

Definition TStime : Z := CurrentTime e + TSoffset e.
Definition expired (g : Gline) : bool := gl_expire g <=? CurrentTime e.

Definition has_host (h : option (list Z)) : bool := match h with Some _ => true | None => false end.

(** !mmatch() of the host of the old mask, when it has one, and the new. *)
Definition host_mmatches (old_host new_host : option (list Z)) : option bool :=
  match old_host with
  | None => Some true
  | Some o => n ← new_host; mmatches o n
  end.

(** The first mask contains the second one. *)
Definition contains (u : list Z) (h : option (list Z)) (u' : list Z) (h' : option (list Z)) : option bool :=
  m ← mmatches u u'; if (m : bool) then host_mmatches h h' else Some false.

(** The second test of the loop: the host of the new mask against the old
    one's, when the old one has a host. *)
Definition covered_by (user : list Z) (host : option (list Z)) (g : Gline) : option bool :=
  m ← mmatches user (gl_user g);
  if (m : bool) then match gl_host g with None => Some true | Some h => n ← host; mmatches n h end
  else Some false.

Inductive scan_result :=
  | Overlapped (l : list Gline)
  | Scanned (l : list Gline) (after : option nat).

(** The result for a list whose first G-line stays. *)
Definition scan_cons (g : Gline) (is_after : bool) (r : scan_result) : scan_result :=
  match r with
  | Overlapped l => Overlapped (g :: l)
  | Scanned l (Some i) => Scanned (g :: l) (Some (S i))
  | Scanned l None => Scanned (g :: l) (if is_after then Some O else None)
  end.

(** The search for overlapping G-lines: the list without the ones it frees and
    the G-line after which the new one goes, or a wider one that lasts longer. *)
Fixpoint scan_glines (user : list Z) (host : option (list Z)) (expire flags : Z) (l : list Gline) : option scan_result :=
  match l with
  | [] => Some (Scanned [] None)
  | g :: r =>
      if expired g then scan_glines user host expire flags r
      else if negb (gl_flags g .& GLINE_LOCAL =? flags .& GLINE_LOCAL) || xorb (has_host (gl_host g)) (has_host host) then
        res ← scan_glines user host expire flags r; Some (scan_cons g false res)
      else
        c ← contains (gl_user g) (gl_host g) user host;
        if (c : bool) then
          if expire <=? gl_expire g then Some (Overlapped l)
          else res ← scan_glines user host expire flags r; Some (scan_cons g true res)
        else
          n ← covered_by user host g;
          if n && (gl_expire g <=? expire) then scan_glines user host expire flags r
          else res ← scan_glines user host expire flags r; Some (scan_cons g false res)
  end.

(** A digit behind a wildcard. *)
Fixpoint bad_ip_mask (host : list Z) (seenwild : bool) : bool :=
  match host with
  | [] => false
  | c :: r =>
      let seenwild := seenwild || (c =? 42) || (c =? 63) in
      if IsDigit c && seenwild then true else bad_ip_mask r seenwild
  end.

(** sscanf(host, "%d.%d.%d.%d/%d"): the numbers it converts; the marks are the
    characters after them.  [host] has no blanks and no signs. *)
Fixpoint scan_quads (marks : list Z) (host : list Z) : list Z :=
  if is_digit (hd0 host) then
    let n := s32 (Z.min (2 ^ 63 - 1) (lead_number host 0)) in
    match marks, skip_digits host with
    | m :: marks, c :: r => n :: (if c =? m then scan_quads marks r else [])
    | _, _ => [n]
    end
  else [].

Definition quad_text (ad : list Z) : list Z :=
  let d i := int_text (u32 (nth i ad 0)) in
  snprintf 16 (d 0%nat ++ 46 :: d 1%nat ++ 46 :: d 2%nat ++ 46 :: d 3%nat).

(** The address and the bits of an IP mask, the latter a char. *)
Definition ip_fields (host : list Z) : Z * Z :=
  if bad_ip_mask host false then (0, 32)
  else
    let ad := scan_quads [46; 46; 46; 47] host in
    let bits := if (length ad =? 5)%nat then nth 4 ad 0 else Z.of_nat (length ad) * 8 in
    (inet_addr e (quad_text ad), schar (u8 bits)).

(** The new G-line on clients; without a host only one on a real name can be
    made, since a null host is copied otherwise. *)
Definition new_gline (user : list Z) (host : option (list Z)) (reason : list Z) (expire lastmod flags : Z) : option Gline :=
  if hd0 user =? 36 then Some (MkGline user None reason expire lastmod 0 0 (flags .& GLINE_MASK))
  else
    h ← host;
    Some (if check_if_ipmask h then
            let '(addr, bits) := ip_fields h in
            MkGline user host reason expire lastmod addr bits ((flags .& GLINE_MASK) .| GLINE_IPMASK)
          else MkGline user host reason expire lastmod 0 0 (flags .& GLINE_MASK)).

Definition insert_at (i : nat) (g : Gline) (l : list Gline) : list Gline := take i l ++ g :: drop i l.

(** make_gline(); [None] in the result is its null pointer. *)
Definition make_gline (user : list Z) (host : option (list Z)) (reason : list Z) (expire lastmod flags : Z) (s : glines)
  : option (option place * glines) :=
  if has_bits flags GLINE_BADCHAN then
    let g := MkGline user None reason expire lastmod 0 0 (flags .& GLINE_MASK) in
    Some (Some (MkPlace true 0), set_badchan (g :: BadChanGlineList s) s)
  else
    res ← scan_glines user host expire flags (GlobalGlineList s);
    match res with
    | Overlapped l => Some (None, set_global l s)
    | Scanned l after =>
        g ← new_gline user host reason expire lastmod flags;
        let i := match after with Some i => S i | None => O end in
        Some (Some (MkPlace false i), set_global (insert_at i g l) s)
    end.

(** ** do_gline() *)

(** do_badchanneled(): the first member of ours who may be kicked leaves. *)
Fixpoint kick_member (name reason : list Z) (l : list member) : list effect * list member :=
  match l with
  | [] => ([], [])
  | m :: r =>
      if negb (m_MyUser m) || m_IsZombie m || m_IsAnOper m then
        let '(effects, r) := kick_member name reason r in (effects, m :: r)
      else ([Kick name (m_user m) (FEAT_BADCHAN_REASON e ++ 32 :: 40 :: reason ++ [41])], r)
  end.

Definition do_badchanneled (g : Gline) (c : channel) : list effect * channel :=
  let '(effects, l) := kick_member (chname c) (gl_reason g) (chan_members c) in
  (effects, MkChannel (chname c) l).

(** The channels for which [test] holds. *)
Fixpoint kick_channels (test : list Z -> option bool) (g : Gline) (l : list channel) : option (list effect * list channel) :=
  match l with
  | [] => Some ([], [])
  | c :: r =>
      b ← test (chname c);
      let '(effects, c) := if (b : bool) then do_badchanneled g c else ([], c) in
      '(effects', r) ← kick_channels test g r;
      Some (effects ++ effects', c :: r)
  end.

Definition badchan_kicks (g : Gline) (l : list channel) : option (list effect * list channel) :=
  kick_channels (if string_has_wildcards (gl_user g) then matches (gl_user g)
                 else fun name => Some (same_text name (gl_user g))) g l.

(** A text as the pattern of exit_client_msg(), without arguments: [None] for a
    directive, the ones that are not supported included. *)
Fixpoint as_pattern (s : list Z) : option (list Z) :=
  match s with
  | [] => Some []
  | c :: r =>
      if c =? 37 then
        match r with
        | [] => Some []
        | d :: r' => if d =? 37 then t ← as_pattern r'; Some (37 :: t) else None
        end
      else t ← as_pattern r; Some (c :: t)
  end.

Definition MSGBUF : nat := 1024.

(** The text between the angle brackets a service's reason starts with. *)
Definition bracketed (reason : list Z) : option (list Z) :=
  match reason, split_at 62 reason, split_at 32 reason with
  | c :: _, Some (name, _), Some (word, _) =>
      if (c =? 60) && (length name <? length word)%nat then Some (drop 1 name) else None
  | _, _, _ => None
  end.

(** do_mangle_gline(): the comment with which a client is sent away. *)
Definition do_mangle_gline (sptr : source) (orig_reason : list Z) : option (list Z) :=
  let short := FEAT_HIS_GLINE_REASON e in
  let plain := if short then lit "G-lined" else lit "G-lined (" ++ orig_reason ++ lit ")" in
  if negb (FEAT_HIS_GLINE e) then Some (snprintf MSGBUF plain)
  else
    reason ←
      (if IsService sptr then
         match bracketed orig_reason with
         | Some name => if (length name + 11 <? BUFSIZE)%nat then Some (lit "G-lined by " ++ name) else None
         | None => Some (snprintf BUFSIZE plain)
         end
       else
         let head := lit "G-lined (<" ++ src_name sptr ++ lit ">" in
         Some (snprintf BUFSIZE (if short then head ++ lit ")" else head ++ lit " " ++ orig_reason ++ lit ")")));
    t ← as_pattern reason; Some (snprintf MSGBUF t).

(** NETMASK() shifts by at most the width. *)
Definition netmask_ok (bits : Z) : bool := (0 <=? bits) && (bits <=? 32).

(** The client matches the G-line, an E-line set aside. *)
Definition ip_matches (g : Gline) (u : client) : bool := cli_ip u .& NETMASK (gl_bits g) =? gl_ipnum g.

Definition gline_hits (host_of : client -> list Z) (g : Gline) (u : client) : option bool :=
  if GlineIsRealName g then matches (drop 2 (gl_user g)) (cli_info u)
  else
    m ← matches (gl_user g) (realusername u);
    if negb m then Some false
    else if GlineIsIpMask g then if netmask_ok (gl_bits g) then Some (ip_matches g u) else None
    else h ← gl_host g; matches h (host_of u).

(** The loop over the clients for a G-line that is not for a channel. *)
Fixpoint gline_exits (sptr : source) (g : Gline) (l : list client) : option (list effect) :=
  match l with
  | [] => Some []
  | u :: r =>
      hit ← gline_hits cli_sockhost g u;
      if hit && negb (find_eline e u) then
        comment ← do_mangle_gline sptr (gl_reason g);
        rest ← gline_exits sptr g r;
        Some (Creep u (gl_reason g) :: Exit u comment :: rest)
      else gline_exits sptr g r
  end.

(** The loop for a channel: it kicks once for each client. *)
Fixpoint badchan_loop (g : Gline) (l : list client) (chans : list channel) : option (list effect * list channel) :=
  match l with
  | [] => Some ([], chans)
  | _ :: r =>
      '(effects, chans) ← badchan_kicks g chans;
      '(rest, chans) ← badchan_loop g r chans;
      Some (effects ++ rest, chans)
  end.

Definition do_gline (sptr : source) (g : Gline) (s : glines) : option (list effect * glines) :=
  if negb (GlineIsActive g) then Some ([], s)
  else if GlineIsRealName g || negb (GlineIsBadChan g) then
    effects ← gline_exits sptr g (LocalClientArray e); Some (effects, s)
  else
    '(effects, chans) ← badchan_loop g (LocalClientArray e) (GlobalChannelList s);
    Some (effects, set_channels chans s).

(** ** gline_propagate(), gline_resend(): the arguments of GLINE *)
Definition time_text (t : Z) : list Z := decimal (u64 t).
Definition mask_text (g : Gline) : list Z :=
  gl_user g ++ match gl_host g with Some h => 64 :: h | None => [] end.
Definition sign (g : Gline) : Z := if GlineIsRemActive g then 43 else 45.

Definition gline_line (g : Gline) : list (list Z) :=
  [star; sign g :: mask_text g; time_text (gl_expire g - CurrentTime e); time_text (gl_lastmod g); gl_reason g].

Definition gline_propagate (sptr : source) (g : Gline) : list effect :=
  if GlineIsLocal g || (IsUser sptr && (gl_lastmod g =? 0)) then []
  else if negb (gl_lastmod g =? 0) then [Servers (gline_line g)]
  else if GlineIsRemActive g then
    [Servers [star; 43 :: mask_text g; time_text (gl_expire g - CurrentTime e); gl_reason g]]
  else [Servers [star; 45 :: mask_text g]].

Definition gline_resend (cptr : N) (g : Gline) : list effect :=
  if GlineIsLocal g || (gl_lastmod g =? 0) then [] else [Server cptr (gline_line g)].

(** ** gline_add() *)
Definition chan_sign (c : Z) : bool := (c =? 35) || (c =? 38).

(** The checks of a host mask: the reply that refuses it. *)
Definition refuse_mask (sptr : source) (user host : list Z) (flags : Z) : option reply :=
  let text := user ++ 64 :: host in
  let uhmask := snprintf (USERLEN + HOSTLEN + 2) text in
  let forced := has_bits flags GLINE_OPERFORCE in
  if (USERLEN + HOSTLEN + 2 <? length text)%nat then Some ERR_LONGMASK
  else if MyUser sptr || (IsUser sptr && has_bits flags GLINE_LOCAL) then
    let wide := match gline_checkmask host with
      | CHECK_APPROVED => false
      | CHECK_OVERRIDABLE => negb forced
      | CHECK_REJECTED => true
      end in
    if wide then Some (ERR_MASKTOOWIDE uhmask)
    else if (FEAT_GLINEMAXUSERCOUNT e <=? count_users e uhmask) && negb forced
    then Some (ERR_TOOMANYUSERS (count_users e uhmask)) else None
  else None.

Inductive target :=
  | Refused (r : effect)
  | Accepted (user : list Z) (host : option (list Z)) (flags : Z).

(** The first part: what is banned. *)
Definition gline_target (sptr : source) (userhost : list Z) (flags : Z) : option target :=
  let c := hd0 userhost in
  old_chan ← (if chan_sign c then Some false
              else c2 ← rd userhost 2; Some (chan_sign c2 && (ch userhost 1 =? 64)));
  if chan_sign c || old_chan then
    if negb (HasPriv sptr (if has_bits flags GLINE_LOCAL then PRIV_LOCAL_BADCHAN else PRIV_BADCHAN))
    then Some (Refused (Reply ERR_NOPRIVILEGES))
    else
      c2 ← rd userhost 2;
      Some (Accepted (if chan_sign c2 && (ch userhost 1 =? 64) then drop 2 userhost else userhost) None
                     (flags .| GLINE_BADCHAN))
  else
    c2 ← rd userhost 2;
    if (c =? 36) || (c2 =? 36) then
      k ← (if c =? 36 then rd userhost 1 else rd userhost 3);
      if k =? 82 then
        Some (Accepted (if c =? 36 then userhost else drop 2 userhost) None (flags .| GLINE_REALNAME))
      else Some (Refused Violation)
    else
      let '(user, host) := canon_userhost userhost (Some star) in
      user ← user; host ← host;
      match refuse_mask sptr user host flags with
      | Some r => Some (Refused (Reply r))
      | None => Some (Accepted user (Some host) flags)
      end.

Definition bad_expire (expire flags : Z) : bool :=
  negb (has_bits flags GLINE_FORCE) && ((expire <=? 0) || (GLINE_MAX_EXPIRE <? expire)).

Definition gline_add (sptr : source) (userhost reason : list Z) (expire lastmod flags : Z) (s : glines)
  : option (list effect * glines) :=
  t ← gline_target sptr userhost flags;
  match t with
  | Refused r => Some ([r], s)
  | Accepted user host flags =>
      if bad_expire expire flags then
        Some (if negb (IsServer sptr) && MyConnect sptr then [Reply (ERR_BADEXPIRE expire)] else [], s)
      else
        '(o, s) ← make_gline user host reason (expire + CurrentTime e) lastmod flags s;
        match o with
        | None => Some ([], s)
        | Some p =>
            g ← list_at p s !! position p;
            '(effects, s) ← do_gline sptr g s;
            Some (gline_propagate sptr g ++ effects, s)
        end
  end.

(** ** gline_activate(), gline_deactivate() *)
Definition next_lastmod (lastmod : Z) (g : Gline) : Z :=
  if gl_lastmod g =? 0 then 0 else if lastmod <=? gl_lastmod g then gl_lastmod g + 1 else lastmod.

Definition gline_activate (sptr : source) (p : place) (lastmod flags : Z) (s : glines) : option (list effect * glines) :=
  g ← list_at p s !! position p;
  let new := if has_bits flags GLINE_LOCAL then set_flags (Z.ldiff (gl_flags g) GLINE_LDEACT) g
             else set_lastmod (next_lastmod lastmod g) (set_flags (gl_flags g .| GLINE_ACTIVE) g) in
  let s := gline_store new p s in
  if GlineIsActive g then Some ([], s)
  else
    let sent := if has_bits flags GLINE_LOCAL then [] else gline_propagate sptr new in
    if GlineIsBadChan new then Some (sent, s)
    else '(effects, s) ← do_gline sptr new s; Some (sent ++ effects, s).

Definition gline_deactivate (sptr : source) (p : place) (lastmod flags : Z) (s : glines) : option (list effect * glines) :=
  g ← list_at p s !! position p;
  let off := set_flags (Z.ldiff (gl_flags g) GLINE_ACTIVE) g in
  let global := negb (has_bits flags GLINE_LOCAL) in
  let '(new, stop) :=
    if GlineIsLocal g then (g, false)
    else if (gl_lastmod g =? 0) && global then (off, false)
    else (if global then set_lastmod (next_lastmod lastmod g) off
          else set_flags (gl_flags g .| GLINE_LDEACT) g, negb (GlineIsActive g)) in
  let s := gline_store new p s in
  if stop then Some ([], s)
  else
    let sent := if global then gline_propagate sptr new else [] in
    Some (sent, if GlineIsLocal new || ((gl_lastmod new =? 0) && global) then gline_free p s else s).

(** ** Searches *)

(** A loop that frees what is expired and stops at the first that passes. *)
Fixpoint find_gline (test : Gline -> option bool) (l : list Gline) : option (list Gline * option nat) :=
  match l with
  | [] => Some ([], None)
  | g :: r =>
      if expired g then find_gline test r
      else
        b ← test g;
        if (b : bool) then Some (l, Some O)
        else '(r, o) ← find_gline test r; Some (g :: r, option_map S o)
  end.

Definition passed_over (flags : Z) (g : Gline) : bool :=
  (has_bits flags GLINE_GLOBAL && GlineIsLocal g) || (has_bits flags GLINE_LASTMOD && (gl_lastmod g =? 0)).

Definition chan_test (flags : Z) (userhost : list Z) (g : Gline) : option bool :=
  if passed_over flags g then Some false
  else if has_bits flags GLINE_EXACT then Some (same_text (gl_user g) userhost)
  else matches (gl_user g) userhost.

Definition same_host (a b : option (list Z)) : bool :=
  match a, b with Some a, Some b => same_text a b | None, None => true | _, _ => false end.

(** [user] is not null here. *)
Definition user_test (flags : Z) (user : list Z) (host : option (list Z)) (g : Gline) : option bool :=
  if passed_over flags g then Some false
  else if negb (same_host (gl_host g) host) then Some false
  else if has_bits flags GLINE_EXACT then Some (same_text (gl_user g) user)
  else matches (gl_user g) user.

Definition gline_find (userhost : list Z) (flags : Z) (s : glines) : option (option place * glines) :=
  '(l, o) ← (if has_bits flags (GLINE_BADCHAN .| GLINE_ANY) then find_gline (chan_test flags userhost) (BadChanGlineList s)
             else Some (BadChanGlineList s, None));
  let s := set_badchan l s in
  match o with
  | Some i => Some (Some (MkPlace true i), s)
  | None =>
      stop ← (if (flags .& (GLINE_BADCHAN .| GLINE_ANY) =? GLINE_BADCHAN) || chan_sign (hd0 userhost) then Some true
              else c2 ← rd userhost 2; Some (chan_sign c2));
      if (stop : bool) then Some (None, s)
      else
        let '(user, host) := canon_userhost userhost None in
        match user with
        | None | Some [] => Some (None, s)
        | Some user =>
            '(l, o) ← find_gline (user_test flags user host) (GlobalGlineList s);
            Some (option_map (MkPlace false) o, set_global l s)
        end
  end.

(** gline_lookup(): an active G-line for a client; one on the real name does
    not wait for the E-lines. *)
Definition lookup_test (u : client) (flags : Z) (g : Gline) : option bool :=
  if passed_over flags g then Some false
  else
    hit ← gline_hits realhost g u;
    Some (hit && (GlineIsRealName g || negb (find_eline e u)) && GlineIsActive g).

Definition gline_lookup (u : client) (flags : Z) (s : glines) : option (option place * glines) :=
  '(l, o) ← find_gline (lookup_test u flags) (GlobalGlineList s);
  Some (option_map (MkPlace false) o, set_global l s).

(** The test of m_join() for a channel. *)
Definition join_forbidden (name : list Z) (IsAnOper : bool) (s : glines) : option (bool * glines) :=
  '(o, s) ← gline_find name GLINE_BADCHAN s;
  match o with
  | None => Some (false, s)
  | Some p => g ← list_at p s !! position p; Some (GlineIsActive g && negb IsAnOper, s)
  end.

(** ** gline_burst(), gline_list(), gline_stats(), gline_remove() *)
Definition alive (l : list Gline) : list Gline := filter (fun g => expired g = false) l.
Definition reap (s : glines) : glines := set_badchan (alive (BadChanGlineList s)) (set_global (alive (GlobalGlineList s)) s).

Definition bursts (g : Gline) : bool := negb (GlineIsLocal g) && negb (gl_lastmod g =? 0).

Definition gline_burst (cptr : N) (s : glines) : list effect * glines :=
  let s := reap s in
  (map (fun g => Server cptr (gline_line g)) (filter (fun g => bursts g = true) (GlobalGlineList s)) ++
   map (fun g => Server cptr
          [star; sign g :: gl_user g; time_text (gl_expire g - CurrentTime e); time_text (gl_lastmod g); gl_reason g])
       (filter (fun g => bursts g = true) (BadChanGlineList s)), s).

Definition glist_reply (at_sign : list Z) (g : Gline) : reply :=
  RPL_GLIST (gl_user g) at_sign (default [] (gl_host g)) (gl_expire g + TSoffset e) (gl_lastmod g + TSoffset e)
    (if GlineIsLocal g then my_name e else star) (if GlineIsActive g then 43 else 45) (gl_reason g).

Definition at_of (g : Gline) : list Z := match gl_host g with Some _ => lit "@" | None => [] end.

Definition gline_list (userhost : option (list Z)) (s : glines) : option (list effect * glines) :=
  match userhost with
  | Some userhost =>
      '(o, s) ← gline_find userhost GLINE_ANY s;
      match o with
      | None => Some ([Reply (ERR_NOSUCHGLINE userhost)], s)
      | Some p =>
          g ← list_at p s !! position p;
          Some ([Reply (glist_reply (if GlineIsBadChan g then [] else lit "@") g); Reply RPL_ENDOFGLIST], s)
      end
  | None =>
      let s := reap s in
      Some (map (fun g => Reply (glist_reply (at_of g) g)) (GlobalGlineList s) ++
            map (fun g => Reply (glist_reply [] g)) (BadChanGlineList s) ++ [Reply RPL_ENDOFGLIST], s)
  end.

Definition gline_stats (s : glines) : list effect * glines :=
  let s := set_global (alive (GlobalGlineList s)) s in
  (Reply RPL_STATSHEADER ::
   map (fun g => Reply (RPL_STATSGLINE (gl_user g) (at_of g) (default [] (gl_host g)) (gl_expire g + TSoffset e)
                          (gl_lastmod g + TSoffset e) (if GlineIsActive g then 43 else 45) (gl_reason g)))
       (GlobalGlineList s), s).

(** gline_remove(); a missing host is printed as "(null)". *)
Definition gline_remove (userhost : list Z) (s : glines) : option (list effect * glines) :=
  let '(user, host) := canon_userhost userhost None in
  match user with
  | None | Some [] => Some ([], s)
  | Some user =>
      if (USERLEN + HOSTLEN + 2 <? length (user ++ 64%Z :: default (lit "(null)") host))%nat then Some ([Reply ERR_LONGMASK], s)
      else Some ([], set_global (filter (fun g => same_host (gl_host g) host && same_text (gl_user g) user = false)
                                        (alive (GlobalGlineList s))) s)
  end.

(** ** ircd/m_gline.c *)

(** [mask] without its sign, and whether the G-line is to be active. *)
Definition signed_mask (mask : list Z) : list Z * Z :=
  match mask with
  | c :: r => if c =? 45 then (r, 0) else if c =? 43 then (r, GLINE_ACTIVE) else (mask, GLINE_ACTIVE)
  | [] => ([], GLINE_ACTIVE)
  end.

(** A leading [!]. *)
Definition forced_mask (mask : list Z) : list Z * bool :=
  match mask with c :: r => if c =? 33 then (r, true) else (mask, false) | [] => ([], false) end.

(** What ms_gline() does when it knows the mask. [cptr] is where the message
    came from, [bursting] whether that is IsBurstOrBurstAck(). *)
Definition ms_gline_apply (cptr : N) (bursting : bool) (sptr : source) (parc : nat) (mask reason : list Z)
    (expire_off lastmod flags : Z) (s : glines) : option (list effect * glines) :=
  let add := gline_add sptr mask reason expire_off lastmod flags in
  '(o, s) ← gline_find mask (GLINE_ANY .| GLINE_EXACT) s;
  match o with
  | Some p =>
      g ← list_at p s !! position p;
      if GlineIsLocal g && negb (has_bits flags GLINE_LOCAL) then
        add (gline_free p s)
      else if (lastmod =? 0) && Bool.eqb (has_bits flags GLINE_ACTIVE) (GlineIsRemActive g) then
        Some (gline_propagate sptr g, s)
      else if (lastmod =? 0) || (gl_lastmod g <? lastmod) then
        if has_bits flags GLINE_ACTIVE then gline_activate sptr p lastmod flags s
        else gline_deactivate sptr p lastmod flags s
      else if (gl_lastmod g =? lastmod) || bursting then Some ([], s)
      else Some (gline_resend cptr g, s)
  | None =>
      if (parc =? 3)%nat && negb (has_bits flags GLINE_ACTIVE) then
        Some (if has_bits flags GLINE_LOCAL then [] else [Servers [star; 45 :: mask]], s)
      else if (parc <? 5)%nat then Some ([Reply ERR_NEEDMOREPARAMS], s)
      else add s
  end.

Definition ms_gline (cptr : N) (bursting : bool) (sptr : source) (parv : list (list Z)) (s : glines)
  : option (list effect * glines) :=
  let parc := length parv in
  mask ← parv !! 2%nat;
  target ← parv !! 1%nat;
  let '(mask, forced) := forced_mask mask in
  let flags := if forced then GLINE_OPERFORCE else 0 in
  let more := Some ([Reply ERR_NEEDMOREPARAMS], s) in
  let go lastmod reason flags :=
    let flags := if IsServer sptr then flags .| GLINE_FORCE else flags in
    let here := bool_decide (target = star) in
    match (if here then Some (me e) else FindNServer e target) with
    | None => Some ([], s)
    | Some acptr =>
        if negb here && negb (acptr =? me e)%N then
          let expire := default [] (parv !! 3%nat) in
          Some ([Server acptr (numeric e acptr ::
                   (if lastmod =? 0 then if (parc =? 3)%nat then [mask] else [mask; expire; reason]
                    else [if forced then 33 :: mask else mask; expire; default [] (parv !! 4%nat); reason]))], s)
        else
          let flags := if here then flags else flags .| GLINE_LOCAL in
          let lastmod := if FEAT_LASTMOD_TWEAK e && (lastmod =? 0) then CurrentTime e else lastmod in
          let '(mask, active) := signed_mask mask in
          ms_gline_apply cptr bursting sptr parc mask reason
            (if (parc <? 5)%nat then 0 else atoi (default [] (parv !! 3%nat))) lastmod (flags .| active) s
    end in
  if ((parc =? 3)%nat && (hd0 mask =? 45)) || (parc =? 5)%nat then
    if negb (cli_uworld sptr) then more
    else go 0 (default (lit "No reason") (parv !! 4%nat)) (flags .| GLINE_FORCE)
  else if (5 <? parc)%nat then go (atoi (default [] (parv !! 4%nat))) (default [] (parv !! 5%nat)) flags
  else more.

(** An expiration offset: seconds, or an interval. *)
Definition offset_of (text : list Z) : option Z :=
  if is_timestamp text then Some (atoi text) else s64 <$> ParseInterval text.

(** What mo_gline() does when it knows what the operator wants. *)
Definition mo_gline_apply (sptr : source) (mask reason : list Z) (expire_off flags : Z) (s : glines)
  : option (list effect * glines) :=
  let add := gline_add sptr mask reason expire_off TStime flags in
  '(o, s) ← gline_find mask (GLINE_ANY .| GLINE_EXACT) s;
  match o with
  | None => add s
  | Some p =>
      g ← list_at p s !! position p;
      if GlineIsLocal g && negb (has_bits flags GLINE_LOCAL) then add (gline_free p s)
      else
        let uworld := gl_lastmod g =? 0 in
        let flags := if uworld then flags .| GLINE_LOCAL else flags in
        (if has_bits flags GLINE_ACTIVE then gline_activate else gline_deactivate)
          sptr p (if uworld then 0 else TStime) flags s
  end.

Definition mo_gline (sptr : source) (parv : list (list Z)) (s : glines) : option (list effect * glines) :=
  let parc := length parv in
  let refuse r := Some ([Reply r], s) in
  match parv !! 1%nat with
  | None => gline_list None s
  | Some mask =>
      let '(mask, forced) := forced_mask mask in
      let flags := if forced && HasPriv sptr PRIV_WIDE_GLINE then GLINE_OPERFORCE else 0 in
      if negb ((hd0 mask =? 43) || (hd0 mask =? 45)) then gline_list (Some mask) s
      else
        let '(mask, active) := signed_mask mask in
        let flags := flags .| active in
        let go flags expire_off reason :=
          if negb (has_bits flags GLINE_LOCAL) && negb (FEAT_CONFIG_OPERCMDS e) then refuse ERR_DISABLED
          else if negb (HasPriv sptr (if has_bits flags GLINE_LOCAL then PRIV_LOCAL_GLINE else PRIV_GLINE))
          then refuse ERR_NOPRIVILEGES
          else mo_gline_apply sptr mask reason expire_off flags s in
        match parv with
        | [_; _; offset; reason] => expire_off ← offset_of offset; go (flags .| GLINE_LOCAL) expire_off reason
        | _ :: _ :: target :: offset :: reason :: _ =>
            expire_off ← offset_of offset;
            if bool_decide (target = star) then go flags expire_off reason
            else
              match find_match_server e target with
              | None => refuse (ERR_NOSUCHSERVER target)
              | Some acptr =>
                  if (acptr =? me e)%N then go (flags .| GLINE_LOCAL) expire_off reason
                  else if negb (FEAT_CONFIG_OPERCMDS e) then refuse ERR_DISABLED
                  else if negb (HasPriv sptr PRIV_GLINE) then refuse ERR_NOPRIVILEGES
                  else
                    let flag c on := if (on : bool) then [c] else [] in
                    Some ([Server acptr
                       [numeric e acptr; flag 33 (has_bits flags GLINE_OPERFORCE) ++
                                (if has_bits flags GLINE_ACTIVE then 43 else 45) :: mask;
                        offset; time_text TStime; reason]], s)
              end
        | _ => refuse ERR_NEEDMOREPARAMS
        end
  end.

Definition m_gline (parv : list (list Z)) (s : glines) : option (list effect * glines) :=
  match parv !! 1%nat with
  | None => Some ([Reply (ERR_NOSUCHGLINE [])], s)
  | Some mask =>
      if FEAT_HIS_USERGLINE e then Some ([Reply ERR_DISABLED], s) else gline_list (Some mask) s
  end.
End gline.

(** ** Well-formed G-lines and what they ban *)
Definition mask_ok (m : list Z) : Prop := plain_mask m /\ m <> [].

(** The masks of a G-line: the ones of a real name begin with "$R". *)
Definition masks_ok (user : list Z) (h : option (list Z)) : Prop :=
  match h with
  | None => exists m, user = 36 :: 82 :: m /\ mask_ok m
  | Some h => mask_ok user /\ mask_ok h /\ hd0 user <> 36
  end.

Definition gline_ok (g : Gline) : Prop :=
  masks_ok (gl_user g) (gl_host g) /\ GlineIsRealName g = negb (has_host (gl_host g)) /\
  (GlineIsIpMask g = true -> netmask_ok (gl_bits g) = true).

Definition client_ok (u : client) : Prop :=
  cstring (realusername u) /\ cstring (realhost u) /\ cstring (cli_sockhost u) /\ cstring (cli_info u).

(** The masks match a client. *)
Definition mask_hits (user : list Z) (h : option (list Z)) (u : client) : Prop :=
  match h with
  | None => glob (drop 2 user) (cli_info u)
  | Some h => glob user (realusername u) /\ glob h (realhost u)
  end.

(** A G-line applies to a client: by its address when the host is an IP mask. *)
Definition applies (g : Gline) (u : client) : Prop :=
  if GlineIsIpMask g && has_host (gl_host g) then glob (gl_user g) (realusername u) /\ ip_matches g u = true
  else mask_hits (gl_user g) (gl_host g) u.

(** What gline_lookup() looks for: the G-line is in force, it applies, and no
    E-line protects the client, which real names do not respect. *)
Definition bans (e : environment) (g : Gline) (u : client) : Prop :=
  GlineIsActive g = true /\ applies g u /\ (has_host (gl_host g) = true -> find_eline e u = false).

(** gline_lookup() finds something. *)
Definition banned (e : environment) (s : glines) (u : client) : Prop :=
  exists p s', gline_lookup e u 0 s = Some (Some p, s').

Lemma has_bits_0 m : has_bits 0 m = false.
Proof. reflexivity. Qed.

Section facts.
Variable e : environment.

Lemma alive_cons g l : alive e (g :: l) = if expired e g then alive e l else g :: alive e l.
Proof. unfold alive. cbn. destruct (expired e g); by case_decide. Qed.

Lemma alive_elem g l : g ∈ alive e l <-> g ∈ l /\ expired e g = false.
Proof. unfold alive. rewrite list_elem_of_filter. tauto. Qed.

(** A search frees only what is expired and stops at the first that passes. *)
Lemma find_gline_spec test P l :
  (forall g, g ∈ alive e l -> decides (test g) (P g)) ->
  exists l' o, find_gline e test l = Some (l', o) /\ alive e l' = alive e l /\
    match o with
    | Some i => exists g, l' !! i = Some g /\ g ∈ alive e l /\ P g /\
                  forall j g', (j < i)%nat -> l' !! j = Some g' -> ~ P g'
    | None => l' = alive e l /\ forall g, g ∈ alive e l -> ~ P g
    end.
Proof.
  induction l as [|g r IH]; intros Ht.
  - exists [], None. split_and!; [done..|]. intros g Hg. by apply elem_of_nil in Hg.
  - cbn [find_gline]. rewrite alive_cons in *. destruct (expired e g) eqn:Eg; [by apply IH|].
    destruct (Ht g) as (b & -> & Hb); [left|]. cbn [mbind option_bind].
    destruct b.
    + exists (g :: r), (Some O). rewrite alive_cons, Eg. split_and!; [done..|]. exists g. split_and!; [done|left|by apply Hb|].
      intros j g' Hj. lia.
    + destruct IH as (r' & o & -> & Hr & Ho); [intros x Hx; apply Ht; by right|]. cbn [mbind option_bind].
      exists (g :: r'), (option_map S o). rewrite alive_cons, Eg, Hr. split_and!; [done..|].
      assert (Hng : ~ P g) by (intros H; by apply Hb in H).
      destruct o as [i|]; cbn [option_map].
      * destruct Ho as (x & Hx & Hxl & HP & Hf). exists x. split_and!; [done|by right|done|].
        intros [|j] g' Hj; cbn; [by intros [= <-]|]. apply Hf. lia.
      * destruct Ho as [-> Ho]. split; [done|]. intros x [->|Hx]%elem_of_cons; [done|by apply Ho].
Qed.

Lemma passed_over_0 g : passed_over 0 g = false.
Proof. unfold passed_over. by rewrite !has_bits_0. Qed.

Lemma gline_hits_decides (host_of : client -> list Z) g u :
  gline_ok g -> client_ok u -> host_of u = realhost u -> decides (gline_hits host_of g u) (applies g u).
Proof.
  intros (Hm & Hr & Hb) (Cu & Ch & _ & Ci) Hh. unfold gline_hits, applies, mask_hits. rewrite Hr.
  unfold masks_ok in Hm. destruct (gl_host g) as [h|] eqn:Eh; cbn [has_host negb].
  - destruct Hm as ([Hu Hu0] & [Hp Hp0] & _). rewrite andb_true_r.
    destruct (decides_matches _ _ Hu Cu Hu0) as (m & -> & Hmu). cbn [mbind option_bind].
    destruct m; cbn [negb].
    + destruct (GlineIsIpMask g).
      * rewrite Hb by done. eexists. split; [done|]. intuition.
      * rewrite Hh. cbn. eapply decides_iff; [by apply decides_matches|]. intuition.
    + exists false. split; [done|]. split; [done|]. intros H. apply Hmu. by destruct (GlineIsIpMask g), H.
  - rewrite andb_false_r. destruct Hm as (m & -> & Hm & Hm0). cbn [drop]. by apply decides_matches.
Qed.

Lemma lookup_test_decides u g : gline_ok g -> client_ok u -> decides (lookup_test e u 0 g) (bans e g u).
Proof.
  intros Hg Hu. unfold lookup_test. rewrite passed_over_0.
  destruct (gline_hits_decides realhost g u Hg Hu eq_refl) as (b & -> & Hb). cbn [mbind option_bind].
  eexists. split; [done|]. unfold bans. rewrite <- Hb, (proj1 (proj2 Hg)).
  destruct b, (GlineIsActive g), (has_host (gl_host g)), (find_eline e u); cbn; intuition congruence.
Qed.

(** Whether a client is banned depends on what is alive. *)
Lemma banned_iff s u :
  Forall gline_ok (alive e (GlobalGlineList s)) -> client_ok u ->
  banned e s u <-> exists g, g ∈ alive e (GlobalGlineList s) /\ bans e g u.
Proof.
  intros Hs Hu. rewrite Forall_forall in Hs. unfold banned, gline_lookup.
  destruct (find_gline_spec (lookup_test e u 0) (fun g => bans e g u) (GlobalGlineList s)) as (l & o & -> & _ & Ho).
  { intros g Hg. apply lookup_test_decides; [by apply Hs|done]. }
  cbn [mbind option_bind]. destruct o as [i|]; cbn [option_map].
  - destruct Ho as (g & _ & Hg & Hb & _). split; [by exists g|]. eauto.
  - split; [by intros (p & s' & [=])|]. intros (g & Hg & Hb). by destruct (proj2 Ho g Hg).
Qed.

(** ** Overlapping masks *)

(** The first mask contains the second one, in the order of mmatch(). *)
Definition wider (user : list Z) (h : option (list Z)) (user' : list Z) (h' : option (list Z)) : Prop :=
  match h, h' with
  | None, None => order user user'
  | Some a, Some b => order user user' /\ order a b
  | _, _ => False
  end.

Lemma masks_ok_user user h : masks_ok user h -> mask_ok user.
Proof.
  destruct h as [h|]; [by intros (H & _)|]. intros (m & -> & Hm & _). split; [|done].
  repeat constructor; try done; apply Hm.
Qed.

Lemma contains_decides user h user' h' :
  masks_ok user h -> masks_ok user' h' -> has_host h = has_host h' ->
  decides (contains user h user' h') (wider user h user' h').
Proof.
  intros Ho Hn Hh. destruct (masks_ok_user _ _ Ho) as [Pu Nu], (masks_ok_user _ _ Hn) as [Pu' _].
  unfold contains, host_mmatches, wider.
  destruct (decides_mmatches user user' Pu Pu' Nu) as (m & -> & Hm). cbn [mbind option_bind].
  destruct h as [a|], h' as [b|]; cbn in Hh; try done.
  - destruct Ho as (_ & [Pa Na] & _), Hn as (_ & [Pb _] & _). destruct m; cbn [mbind option_bind].
    + eapply decides_iff; [by apply decides_mmatches|]. intuition.
    + exists false. split; [done|]. split; [done|]. intros [H _]. by apply Hm in H.
  - destruct m; eexists; (split; [done|]); by rewrite <- Hm.
Qed.

Lemma covered_by_decides user h g :
  masks_ok user h -> gline_ok g -> has_host (gl_host g) = has_host h ->
  decides (covered_by user h g) (wider user h (gl_user g) (gl_host g)).
Proof.
  intros Hn [Ho _] Hh. eapply decides_iff.
  - replace (covered_by user h g) with (contains user h (gl_user g) (gl_host g)); [by apply contains_decides|].
    unfold contains, covered_by, host_mmatches.
    destruct h, (gl_host g); cbn in Hh; try done. 
  - done.
Qed.

Lemma wider_hits user h user' h' u :
  masks_ok user h -> masks_ok user' h' -> wider user h user' h' -> mask_hits user' h' u -> mask_hits user h u.
Proof.
  unfold wider, mask_hits. intros Ho Hn. destruct h as [a|], h' as [b|]; try done.
  - intros [Hu Hh] [Gu Gh]. split; by eapply order_covers.
  - destruct Ho as (m & -> & _), Hn as (m' & -> & _). cbn [drop]. intros Hm Hg.
    apply order_covers in Hm. specialize (Hm (36 :: 82 :: cli_info u)).
    assert (G : glob (36 :: 82 :: m) (36 :: 82 :: cli_info u)) by (apply Hm; do 2 (apply glob_chr; [done..|]); exact Hg).
    inversion G as [| | | |? ? ? ? ? ? ? G']; subst. by inversion G'.
Qed.

Definition scan_list (r : scan_result) : list Gline := match r with Overlapped l | Scanned l _ => l end.

Lemma scan_cons_list g b r : scan_list (scan_cons g b r) = g :: scan_list r.
Proof. by destruct r as [|l [i|]]. Qed.

(** What the scan promises: what it frees is expired, or the new G-line
    contains and outlives it; it stops only at one that contains the new
    G-line and outlives that. *)
Definition scanned (user : list Z) (h : option (list Z)) (expire : Z) (l : list Gline) (r : scan_result) : Prop :=
  alive e (scan_list r) ⊆ alive e l /\
  (forall g, g ∈ alive e l -> g ∈ alive e (scan_list r) \/ wider user h (gl_user g) (gl_host g)) /\
  match r with
  | Overlapped l' => exists w, w ∈ alive e l' /\ wider (gl_user w) (gl_host w) user h
  | Scanned l' after => match after with Some i => (i < length l')%nat | None => True end
  end.

Lemma scanned_free user h expire g l r :
  expired e g = true \/ wider user h (gl_user g) (gl_host g) ->
  scanned user h expire l r -> scanned user h expire (g :: l) r.
Proof.
  intros Hg (H1 & H2 & H3). unfold scanned. rewrite alive_cons. destruct (expired e g) eqn:Eg; [done|].
  destruct Hg as [|Hg]; [done|]. split_and!; [set_solver| |done]. intros x [->|Hx]%elem_of_cons; auto.
Qed.

Lemma scanned_keep user h expire g b l r :
  expired e g = false -> scanned user h expire l r -> scanned user h expire (g :: l) (scan_cons g b r).
Proof.
  intros Eg (H1 & H2 & H3). unfold scanned. rewrite scan_cons_list, !alive_cons, Eg. split_and!.
  - set_solver.
  - intros x [->|Hx]%elem_of_cons; [left; left|]. destruct (H2 x Hx); [left; by right|by right].
  - destruct r as [l'|l' [i|]]; cbn [scan_cons].
    + destruct H3 as (w & Hw & H). exists w. rewrite alive_cons, Eg. split; [by right|done].
    + cbn. lia.
    + destruct b; cbn; [lia|done].
Qed.

Lemma scan_glines_spec user h expire flags l :
  masks_ok user h -> Forall gline_ok (alive e l) ->
  exists r, scan_glines e user h expire flags l = Some r /\ scanned user h expire l r.
Proof.
  intros Hn. induction l as [|g r IH]; intros Hl.
  - exists (Scanned [] None). split; [done|]. split_and!; [done| |done]. intros g Hg. by apply elem_of_nil in Hg.
  - rewrite alive_cons in Hl. cbn [scan_glines]. destruct (expired e g) eqn:Eg.
    { destruct (IH Hl) as (res & -> & H). exists res. split; [done|]. apply scanned_free; auto. }
    apply Forall_cons in Hl as [Hg Hl]. destruct (IH Hl) as (res & Hres & H). rewrite Hres. cbn [mbind option_bind].
    destruct (negb (gl_flags g .& GLINE_LOCAL =? flags .& GLINE_LOCAL) || xorb (has_host (gl_host g)) (has_host h)) eqn:E.
    { eexists. split; [done|]. by apply scanned_keep. }
    apply orb_false_iff in E as [_ E%xorb_eq].
    destruct (contains_decides (gl_user g) (gl_host g) user h) as (c & -> & Hc); [apply Hg|done|done|].
    cbn [mbind option_bind]. destruct c.
    + destruct (expire <=? gl_expire g).
      * eexists. split; [done|]. split_and!; [done|auto|]. exists g. rewrite alive_cons, Eg. split; [left|by apply Hc].
      * eexists. split; [done|]. by apply scanned_keep.
    + destruct (covered_by_decides user h g Hn Hg E) as (n & -> & Hw). cbn [mbind option_bind].
      destruct (n && (gl_expire g <=? expire)) eqn:En.
      * exists res. split; [done|]. apply andb_true_iff in En as [-> _]. apply scanned_free; [|done]. right. by apply Hw.
      * eexists. split; [done|]. by apply scanned_keep.
Qed.

(** ** A new G-line *)

(** In force, and not on an address. *)
Definition plain_gline (g : Gline) : Prop := gline_ok g /\ GlineIsActive g = true /\ GlineIsIpMask g = false.
Definition settled (s : glines) : Prop := Forall plain_gline (alive e (GlobalGlineList s)).

Definition plain_host (h : option (list Z)) : Prop := match h with Some h => check_if_ipmask h = false | None => True end.

(** The flags of a G-line on clients that is in force. *)
Definition user_flags (h : option (list Z)) (flags : Z) : Prop :=
  has_bits flags GLINE_ACTIVE = true /\ has_bits flags GLINE_BADCHAN = false /\
  has_bits flags GLINE_REALNAME = negb (has_host h).

Definition concerns (user : list Z) (h : option (list Z)) (u : client) : Prop :=
  mask_hits user h u /\ (has_host h = true -> find_eline e u = false).

Lemma has_bits_land x M m : has_bits (x .& M) m = has_bits x (M .& m).
Proof. unfold has_bits. by rewrite Z.land_assoc. Qed.

Lemma new_gline_plain user h reason expire lastmod flags :
  masks_ok user h -> user_flags h flags -> plain_host h ->
  exists g, new_gline e user h reason expire lastmod flags = Some g /\
  plain_gline g /\ gl_user g = user /\ gl_host g = h /\ gl_expire g = expire /\ gl_lastmod g = lastmod /\
  gl_reason g = reason /\ gl_flags g = flags .& GLINE_MASK.
Proof.
  intros Hm (Fa & Fb & Fr) Hp. exists (MkGline user h reason expire lastmod 0 0 (flags .& GLINE_MASK)). split.
  { unfold new_gline. destruct h as [h|].
    - destruct Hm as (_ & _ & H). rewrite (proj2 (Z.eqb_neq _ _) H). cbn in Hp |- *. by rewrite Hp.
    - by destruct Hm as (m & -> & _). }
  assert (Hi : GlineIsIpMask (MkGline user h reason expire lastmod 0 0 (flags .& GLINE_MASK)) = false).
  { unfold GlineIsIpMask. cbn [gl_flags]. rewrite has_bits_land. change (GLINE_MASK .& GLINE_IPMASK) with 0.
    unfold has_bits. by rewrite Z.land_0_r. }
  split_and!; try done. split; [split; [done|split]|split; [|done]].
  - unfold GlineIsRealName. cbn. by rewrite has_bits_land.
  - by rewrite Hi.
  - unfold GlineIsActive. cbn [gl_flags]. rewrite <- Z.land_assoc. change (GLINE_MASK .& GLINE_ACTMASK) with GLINE_ACTIVE.
    unfold has_bits in Fa. apply negb_true_iff, Z.eqb_neq in Fa. change GLINE_ACTIVE with (Z.ones 1) in Fa |- *.
    rewrite Z.land_ones in * by lia. apply Z.eqb_eq. change (Z.ones 1) with 1. change (2 ^ 1) with 2 in *. mlia.
Qed.

Lemma plain_bans g u : plain_gline g -> bans e g u <-> concerns (gl_user g) (gl_host g) u.
Proof. intros (_ & Ha & Hi). unfold bans, applies, concerns. rewrite Ha, Hi. cbn [andb]. intuition. Qed.

Lemma settled_ok s : settled s -> Forall gline_ok (alive e (GlobalGlineList s)).
Proof. intros Hs. eapply Forall_impl; [exact Hs|]. by intros g (H & _). Qed.

(** In a settled state a client is banned if a G-line that is alive concerns it. *)
Lemma settled_banned s u : settled s -> client_ok u ->
  banned e s u <-> exists g, g ∈ alive e (GlobalGlineList s) /\ concerns (gl_user g) (gl_host g) u.
Proof.
  intros Hs Hu. rewrite banned_iff by (by try apply settled_ok). unfold settled in Hs. rewrite Forall_forall in Hs.
  split; intros (g & Hg & H); exists g; (split; [done|]); by apply plain_bans; [apply Hs|].
Qed.

Lemma wider_concerns user h user' h' u :
  masks_ok user h -> masks_ok user' h' -> wider user h user' h' -> concerns user' h' u -> concerns user h u.
Proof.
  intros Ho Hn Hw [Hu He]. split; [by eapply wider_hits|]. intros H. apply He. destruct h, h'; try done.
Qed.

Lemma insert_at_elem i g l x : x ∈ insert_at i g l <-> x = g \/ x ∈ l.
Proof.
  unfold insert_at. rewrite <- (take_drop i l) at 3. rewrite !elem_of_app, elem_of_cons. tauto.
Qed.

Lemma insert_at_lookup i g l : (i <= length l)%nat -> insert_at i g l !! i = Some g.
Proof.
  intros Hi. unfold insert_at. rewrite lookup_app_r; rewrite length_take_le by done; [|done]. by rewrite Nat.sub_diag.
Qed.

(** The scan frees nothing that the new masks do not replace. *)
Lemma scanned_covers user h expire s r :
  settled s -> masks_ok user h -> scanned user h expire (GlobalGlineList s) r ->
  Forall plain_gline (alive e (scan_list r)) /\
  forall u, (exists x, x ∈ alive e (GlobalGlineList s) /\ concerns (gl_user x) (gl_host x) u) \/ concerns user h u ->
    (exists y, y ∈ alive e (scan_list r) /\ concerns (gl_user y) (gl_host y) u) \/ concerns user h u.
Proof.
  intros Hs Hm (H1 & H2 & _). unfold settled in Hs. rewrite Forall_forall in Hs. split.
  - rewrite Forall_forall. auto.
  - intros u [(x & Hx & Hc)|Hc]; [|by right]. destruct (H2 x Hx) as [Hx'|Hw]; [left; by exists x|right].
    eapply wider_concerns; [done|apply (Hs x Hx)|done|done].
Qed.

Lemma make_gline_settles user h reason expire lastmod flags s :
  settled s -> masks_ok user h -> user_flags h flags -> plain_host h -> CurrentTime e < expire ->
  exists o s', make_gline e user h reason expire lastmod flags s = Some (o, s') /\ settled s' /\
    BadChanGlineList s' = BadChanGlineList s /\ GlobalChannelList s' = GlobalChannelList s /\
    match o with
    | Some p => list_at p s' !! position p = new_gline e user h reason expire lastmod flags
    | None => True
    end /\
    forall u, client_ok u -> banned e s' u <-> banned e s u \/ concerns user h u.
Proof.
  intros Hs Hm Hf Hp He. unfold make_gline. rewrite (proj1 (proj2 Hf)).
  pose proof (settled_ok s Hs) as Hok.
  destruct (scan_glines_spec user h expire flags (GlobalGlineList s) Hm Hok) as (r & -> & H1 & H2 & H3).
  cbn [mbind option_bind].
  destruct (new_gline_plain user h reason expire lastmod flags Hm Hf Hp) as (g & -> & Hg & Eu & Eh & Ee & _). cbn [mbind option_bind].
  destruct (scanned_covers user h expire s r Hs Hm (conj H1 (conj H2 H3))) as [Hl Hcov].
  destruct r as [l|l after]; cbn [scan_list] in *.
  - exists None, (set_global l s). split_and!; [done..|]. intros u Hu. rewrite !settled_banned by done.
    destruct H3 as (w & Hw & Hww). split.
    + intros (x & Hx & Hc). left. exists x. split; [by apply H1|done].
    + intros [H|H]%Hcov; [done|]. exists w. split; [done|]. rewrite Forall_forall in Hl.
      eapply wider_concerns; [apply (Hl w Hw)|done|done|done].
  - set (i := match after with Some i => S i | None => O end).
    exists (Some (MkPlace false i)), (set_global (insert_at i g l) s).
    assert (Hin : forall x, x ∈ alive e (insert_at i g l) <-> x = g \/ x ∈ alive e l).
    { intros x. rewrite !alive_elem, insert_at_elem. split; [intuition|]. intros [->|H]; [|intuition].
      split; [by left|]. unfold expired. rewrite Ee. apply Z.leb_gt. lia. }
    assert (Hs' : settled (set_global (insert_at i g l) s)).
    { unfold settled. cbn. rewrite Forall_forall in *. intros x [->|Hx]%Hin; auto. }
    split_and!; [done..| |].
    + cbn. apply insert_at_lookup. destruct after; cbn; lia.
    + intros u Hu. rewrite !settled_banned by done. cbn. setoid_rewrite Hin. split.
      * intros (x & [->|Hx] & Hc); [right; by rewrite Eu, Eh in Hc|]. left. exists x. split; [by apply H1|done].
      * intros [(y & Hy & Hc)|H]%Hcov; [exists y; by split; [right|]|]. exists g. split; [by left|]. by rewrite Eu, Eh.
Qed.
End facts.

(** C17: for G-lines and a client whose masks and names are well formed
    gline_lookup() returns, within the strings, the first G-line of the list that
    bans the client, or a null pointer when there is none: an expired one does
    not ban, one on a real name bans whatever the E-lines say, one on an address
    bans by the address and any other one by the user and the host. *)
Theorem gline_lookup_correct e u s :
  Forall gline_ok (alive e (GlobalGlineList s)) -> client_ok u ->
  exists o s', gline_lookup e u 0 s = Some (o, s') /\
    alive e (GlobalGlineList s') = alive e (GlobalGlineList s) /\ BadChanGlineList s' = BadChanGlineList s /\
    match o with
    | Some p => exists g, list_at p s' !! position p = Some g /\ g ∈ alive e (GlobalGlineList s) /\ bans e g u /\
                  forall j g', (j < position p)%nat -> list_at p s' !! j = Some g' -> ~ bans e g' u
    | None => forall g, g ∈ alive e (GlobalGlineList s) -> ~ bans e g u
    end.
Proof.
  intros Hs Hu. rewrite Forall_forall in Hs. unfold gline_lookup.
  destruct (find_gline_spec e (lookup_test e u 0) (fun g => bans e g u) (GlobalGlineList s)) as (l & o & -> & Hl & Ho).
  { intros g Hg. apply lookup_test_decides; [by apply Hs|done]. }
  cbn [mbind option_bind]. do 2 eexists. split; [done|]. split_and!; [done..|].
  destruct o as [i|]; [done|]. exact (proj2 Ho).
Qed.

(** C15: when every G-line on clients that has not expired is active, has masks
    that are not empty and without a backslash (a user and a host, or a real
    name) and is not on an address, then for a new one of the same kind, not on
    an address, active and with an expiry in the future, make_gline() returns,
    within the strings, and afterwards a client is banned exactly when it was
    banned before or the new masks match it and no E-line protects it: neither
    freeing G-lines nor dropping the new one loses a ban, and no client is
    banned that should not be. *)
Theorem make_gline_bans e user h reason expire lastmod flags s :
  settled e s -> masks_ok user h -> user_flags h flags -> plain_host h -> CurrentTime e < expire ->
  exists o s', make_gline e user h reason expire lastmod flags s = Some (o, s') /\ settled e s' /\
    forall u, client_ok u -> banned e s' u <-> banned e s u \/ concerns e user h u.
Proof.
  intros Hs Hm Hf Hp He.
  destruct (make_gline_settles e user h reason expire lastmod flags s Hs Hm Hf Hp He)
    as (o & s' & H & H' & _ & _ & _ & Hb). eauto.
Qed.

(** ** Witnesses *)
Definition sample_user : client :=
  MkClient 7 (lit "bad") (lit "pool7.dial.example") (lit "pool7.dial.example") (lit "Bad Guy") 0.
Definition sample_env : environment :=
  MkEnvironment sample_inet_addr 1000 0 true false false (lit "no") 20 false true [sample_user] (fun _ => false) (fun _ => 0)
    (fun _ => None) (fun _ => None) (fun _ => lit "AB") 0%N (lit "irc.example").
Definition sample_gline (user host : list Z) (expire : Z) : Gline :=
  MkGline user (Some host) (lit "spam") expire 900 0 0 GLINE_ACTIVE.
Definition sample_glines : glines :=
  MkGlines [sample_gline (lit "bad") (lit "*.dial.example") 2000; sample_gline (lit "old") (lit "gone.example") 900] [] [].

Lemma sample_gline_ok user host expire :
  mask_ok user -> mask_ok host -> hd0 user <> 36 -> plain_gline (sample_gline user host expire).
Proof. intros Hu Hh H. split; [split; [exact (conj Hu (conj Hh H))|by split]|done]. Qed.

Lemma sample_settled : settled sample_env sample_glines.
Proof.
  change (Forall plain_gline [sample_gline (lit "bad") (lit "*.dial.example") 2000]).
  constructor; [|done]. apply sample_gline_ok; by_decide.
Qed.

Lemma sample_user_ok : client_ok sample_user.
Proof. repeat split; by_decide. Qed.

Lemma sample_banned : banned sample_env sample_glines sample_user.
Proof.
  assert (H : match gline_lookup sample_env sample_user 0 sample_glines with Some (Some _, _) => True | _ => False end)
    by (vm_compute; exact I).
  unfold banned. by destruct gline_lookup as [[[p|] s']|]; eauto.
Qed.

Lemma gline_lookup_correct_witness :
  exists p s' g, gline_lookup sample_env sample_user 0 sample_glines = Some (Some p, s') /\
    list_at p s' !! position p = Some g /\ bans sample_env g sample_user.
Proof.
  destruct (gline_lookup_correct sample_env sample_user sample_glines) as (o & s' & H & _ & _ & Ho).
  - apply settled_ok, sample_settled.
  - apply sample_user_ok.
  - destruct sample_banned as (p & s'' & E). pose proof (eq_trans (eq_sym E) H) as H'. destruct o as [q|]; [|done].
    destruct Ho as (g & Hg & _ & Hb & _). exists q, s', g. exact (conj H (conj Hg Hb)).
Defined.

Lemma make_gline_bans_witness :
  exists s', snd <$> make_gline sample_env (lit "*") (Some (lit "*.example")) (lit "flood") 5000 990 GLINE_ACTIVE sample_glines = Some s' /\
    banned sample_env s' sample_user.
Proof.
  destruct (make_gline_bans sample_env (lit "*") (Some (lit "*.example")) (lit "flood") 5000 990 GLINE_ACTIVE sample_glines)
    as (o & s' & -> & _ & H).
  - apply sample_settled.
  - repeat split; by_decide.
  - by repeat split.
  - vm_compute. reflexivity.
  - vm_compute. reflexivity.
  - exists s'. split; [done|]. apply H; [apply sample_user_ok|]. left.
    apply sample_banned.
Defined.

(** ** G-lines that do not do what they say *)

(** A network whose address has bits behind the prefix has no members. *)
Lemma unaligned_network_misses :
  (fun g => ip_matches g (MkClient 1 [] [] [] [] (sample_inet_addr (lit "10.1.2.3")))) <$>
    new_gline sample_env (lit "*") (Some (lit "10.1.2.3/16")) [] 2000 1 GLINE_ACTIVE = Some false.
Proof. vm_compute. reflexivity. Qed.

(** A mask with a digit behind a wildcard is kept as 0.0.0.0/32, and the address
    it contains as a text can no longer be banned. *)
Lemma bad_mask_swallows :
  match new_gline sample_env (lit "*") (Some (lit "*.1.2.3")) [] 2000 1 GLINE_ACTIVE with
  | Some g =>
      ip_matches g (MkClient 1 [] [] [] [] (sample_inet_addr (lit "10.1.2.3"))) = false /\
      fst <$> make_gline sample_env (lit "*") (Some (lit "10.1.2.3")) [] 1500 1 GLINE_ACTIVE (MkGlines [g] [] []) = Some None
  | None => False
  end.
Proof. vm_compute. by split. Qed.

(** A user mask with a null host is copied from a null pointer. *)
Lemma null_host_crashes :
  make_gline sample_env (lit "bad") None [] 1500 1 GLINE_ACTIVE (MkGlines [] [] []) = None.
Proof. vm_compute. reflexivity. Qed.

(** A G-line that was deactivated keeps the ones it contains from being set, and
    an inactive one that is new takes the ones it contains away. *)
Lemma inactive_gline_swallows :
  let off := MkGline (lit "*") (Some (lit "*.example")) [] 2000 1 0 0 0 in
  fst <$> make_gline sample_env (lit "bad") (Some (lit "a.example")) [] 1500 1 GLINE_ACTIVE (MkGlines [off] [] []) = Some None /\
  GlobalGlineList <$> (snd <$> make_gline sample_env (lit "*") (Some (lit "*.example")) [] 2000 1 0
    (MkGlines [sample_gline (lit "bad") (lit "a.example") 1500] [] [])) = Some [off].
Proof. vm_compute. by split. Qed.

(** A reason with a percent sign is the pattern of the message. *)
Lemma reason_is_pattern :
  do_mangle_gline sample_env (MkSource (lit "oper") false true true false false (fun _ => true)) (lit "100% spam") = None.
Proof. vm_compute. reflexivity. Qed.

(** A mask without a user is not found again. *)
Lemma host_gline_not_found :
  fst <$> gline_find sample_env (lit "*.example") (GLINE_ANY .| GLINE_EXACT)
    (MkGlines [sample_gline (lit "*") (lit "*.example") 2000] [] []) = Some None.
Proof. vm_compute. reflexivity. Qed.
