(* ===== verification/GlineRun.v ===== *)
(** * ircd/gline.c and ircd/m_gline.c: the spread of G-lines

    What a server that is linked makes of the GLINE messages of a burst: the
    same users are banned as on the server that sent them.  And what an operator
    who takes back a ban on channels that is not there does. *)
From S2P Require Import Prelude Chattr NumText IrcdString Match MaskOrder Bans Gline.
Open Scope ircd_scope.

(** ** Receiving a burst *)

(** The messages [server_estab()] sends for G-lines reach ms_gline() of the
    other side one by one; [pfx] is the origin. *)
Fixpoint receive (e : environment) (cptr : N) (bursting : bool) (sptr : source) (pfx : list Z) (l : list effect) (s : glines)
  : option glines :=
  match l with
  | [] => Some s
  | Server _ parv :: l => '(_, s) ← ms_gline e cptr bursting sptr (pfx :: parv) s; receive e cptr bursting sptr pfx l s
  | _ :: l => receive e cptr bursting sptr pfx l s
  end.

(** Channels a non-operator may not join. *)
Definition forbidden (e : environment) (s : glines) (name : list Z) : Prop :=
  exists s', join_forbidden e name false s = Some (true, s').

(** ** Conditions *)

(** A reason that can be the pattern of a message, and a name that can. *)
Definition reason_ok (r : list Z) : Prop := 37 ∉ r /\ (length r <= 500)%nat.
Definition source_ok (sptr : source) : Prop := 37 ∉ src_name sptr.

Definition chan_mask_ok (m : list Z) : Prop := plain_mask m /\ chan_sign (hd0 m) = true /\ (2 <= length m)%nat /\
  (chan_sign (ch m 2) = true -> ch m 1 <> 64).

(** A G-line on a channel that is in force. *)
Definition chan_gline (g : Gline) : Prop :=
  chan_mask_ok (gl_user g) /\ gl_host g = None /\ GlineIsActive g = true /\ GlineIsBadChan g = true /\
  GlineIsRealName g = false.

Definition names_ok (l : list channel) : Prop := Forall (fun c => cstring (chname c)) l.

(** All G-lines are in force, and the clients and channels have proper names. *)
Definition ready (e : environment) (s : glines) : Prop :=
  settled e s /\ Forall chan_gline (alive e (BadChanGlineList s)) /\
  names_ok (GlobalChannelList s).

(** The text of the masks is taken for a user and a host again. *)
Definition text_ok (user : list Z) (h : option (list Z)) : Prop :=
  match h with
  | None => True
  | Some h =>
      let t := user ++ 64 :: h in
      64 ∉ user /\ chan_sign (hd0 user) = false /\ ch t 2 <> 36 /\ (chan_sign (ch t 2) = true -> ch t 1 <> 64) /\
      (length t <= USERLEN + HOSTLEN + 2)%nat
  end.

Section receive.
Variable e : environment.
Hypothesis clients_ok : Forall client_ok (LocalClientArray e).

(** ** do_gline() does its work *)
Lemma as_pattern_plain t : 37 ∉ t -> as_pattern t = Some t.
Proof.
  induction t as [|c t IH]; [done|]. intros [Hc Ht]%not_elem_of_cons. cbn [as_pattern].
  rewrite (proj2 (Z.eqb_neq c 37)) by done. by rewrite IH.
Qed.

Lemma not_in_take n (t : list Z) x : x ∉ t -> x ∉ take n t.
Proof. intros H1 H2. apply H1. rewrite <- (take_drop n t), elem_of_app. by left. Qed.

Lemma bracketed_ok r name : bracketed r = Some name -> 37 ∉ r -> 37 ∉ name /\ (length name < length r)%nat.
Proof.
  unfold bracketed. destruct r as [|c r]; [done|].
  destruct (split_at 62 (c :: r)) as [[a b]|] eqn:E; [|done]. apply split_at_Some in E as [E Ha].
  destruct (split_at 32 (c :: r)) as [[word w]|]; [|done]. destruct (_ && _); [|done]. intros [= <-].
  destruct a as [|x a]; cbn [drop app] in *; injection E as -> ->; intros [_ H]%not_elem_of_cons.
  - split; [by apply not_elem_of_nil|cbn; lia].
  - rewrite not_elem_of_app in H. split; [apply H|]. rewrite drop_0, length_cons, length_app. lia.
Qed.

Lemma do_mangle_gline_total sptr r : reason_ok r -> source_ok sptr -> is_Some (do_mangle_gline e sptr r).
Proof.
  intros [Hr Hl] Hs. unfold do_mangle_gline.
  set (plain := if FEAT_HIS_GLINE_REASON e then _ else _).
  assert (Hp : 37 ∉ plain).
  { subst plain. destruct (FEAT_HIS_GLINE_REASON e); [by_decide|]. rewrite !not_elem_of_app. split_and!; [by_decide|done|by_decide]. }
  clearbody plain. destruct (negb _); [done|].
  assert (Hfin : forall t, 37 ∉ t -> is_Some (t ← as_pattern t; Some (snprintf MSGBUF t))).
  { intros t Ht. by rewrite as_pattern_plain. }
  destruct (IsService sptr).
  - destruct (bracketed r) as [name|] eqn:Eb; cbn [mbind option_bind]; [|by apply Hfin, not_in_take].
    destruct (bracketed_ok r name Eb Hr) as [Hn Hln].
    rewrite (proj2 (Nat.ltb_lt _ _)) by (unfold BUFSIZE; lia). apply Hfin. rewrite not_elem_of_app. by split; [by_decide|].
  - cbn [mbind option_bind]. apply Hfin, not_in_take.
    destruct (FEAT_HIS_GLINE_REASON e); rewrite !not_elem_of_app; (split_and!; (done || by_decide)).
Qed.

Lemma gline_hits_total g u : gline_ok g -> client_ok u -> is_Some (gline_hits cli_sockhost g u).
Proof.
  intros (Hm & Hr & Hb) (Cu & _ & Cs & Ci). unfold gline_hits. rewrite Hr. unfold masks_ok in Hm.
  destruct (gl_host g) as [h|]; cbn [has_host negb].
  - destruct Hm as ([Hu Hu0] & [Hp Hp0] & _). destruct (decides_matches _ _ Hu Cu Hu0) as (m & -> & _). cbn [mbind option_bind].
    destruct m; cbn [negb]; [|done]. destruct (GlineIsIpMask g); [by rewrite Hb|]. cbn.
    destruct (decides_matches h (cli_sockhost u) Hp Cs Hp0) as (b & -> & _). done.
  - destruct Hm as (m & -> & Hm & Hm0). change (drop 2 (36 :: 82 :: m)) with m. destruct (decides_matches m (cli_info u) Hm Ci Hm0) as (b & -> & _). done.
Qed.

Lemma gline_exits_total sptr g l :
  gline_ok g -> reason_ok (gl_reason g) -> source_ok sptr -> Forall client_ok l -> is_Some (gline_exits e sptr g l).
Proof.
  intros Hg Hr Hs. induction 1 as [|u l Hu Hl IH]; [done|]. cbn [gline_exits].
  destruct (gline_hits_total g u Hg Hu) as [hit ->]. cbn [mbind option_bind].
  destruct (hit && _); [|done]. destruct (do_mangle_gline_total sptr (gl_reason g) Hr Hs) as [c ->].
  destruct IH as [r ->]. done.
Qed.

Lemma do_gline_user sptr g s :
  gline_ok g -> GlineIsBadChan g = false -> reason_ok (gl_reason g) -> source_ok sptr ->
  exists effects, do_gline e sptr g s = Some (effects, s).
Proof.
  intros Hg Hb Hr Hs. unfold do_gline. destruct (negb _); [by exists []|]. rewrite Hb, orb_true_r.
  destruct (gline_exits_total sptr g (LocalClientArray e)) as [l ->]; [done..|]. by exists l.
Qed.

(** Kicks leave the channels what they are. *)
Lemma do_badchanneled_name g c : chname (snd (do_badchanneled e g c)) = chname c.
Proof. unfold do_badchanneled. by destruct kick_member. Qed.

Lemma kick_channels_total test g l :
  (forall c, c ∈ l -> is_Some (test (chname c))) -> names_ok l ->
  exists effects l', kick_channels e test g l = Some (effects, l') /\ names_ok l'.
Proof.
  intros Ht. induction 1 as [|c l Hc Hl IH]; [by exists [], []; split; [|constructor]|]. cbn [kick_channels].
  destruct (Ht c) as [b ->]; [left|]. destruct IH as (effects & l' & E & Hl'); [intros x Hx; apply Ht; by right|].
  cbn [mbind option_bind]. rewrite E.
  destruct (if b then do_badchanneled e g c else ([], c)) as [eff c'] eqn:Ec.
  assert (Hc' : chname c' = chname c).
  { destruct b; [|by injection Ec as <- <-]. by rewrite <- (do_badchanneled_name g c), Ec. }
  do 2 eexists. split; [done|]. constructor; [by rewrite Hc'|done].
Qed.

Lemma badchan_loop_total g l chans : mask_ok (gl_user g) -> names_ok chans ->
  exists effects chans', badchan_loop e g l chans = Some (effects, chans') /\ names_ok chans'.
Proof.
  intros [Hp Hne] Hc. revert chans Hc. induction l as [|u l IH]; intros chans Hc; [by exists [], chans|]. cbn [badchan_loop].
  destruct (kick_channels_total (if string_has_wildcards (gl_user g) then matches (gl_user g)
    else fun name => Some (same_text name (gl_user g))) g chans) as (eff & c' & E & Hc'); [|done|].
  - intros c Hin. destruct (string_has_wildcards _); [|done]. unfold names_ok in Hc. rewrite Forall_forall in Hc.
    destruct (decides_matches (gl_user g) (chname c) Hp (Hc c Hin) Hne) as (b & -> & _). done.
  - unfold badchan_kicks. rewrite E. cbn [mbind option_bind]. destruct (IH c' Hc') as (eff' & c'' & -> & H). eauto.
Qed.

Lemma do_gline_chan sptr g s : mask_ok (gl_user g) -> GlineIsRealName g = false -> GlineIsBadChan g = true ->
  names_ok (GlobalChannelList s) ->
  exists effects s', do_gline e sptr g s = Some (effects, s') /\ GlobalGlineList s' = GlobalGlineList s /\
    BadChanGlineList s' = BadChanGlineList s /\ names_ok (GlobalChannelList s').
Proof.
  intros Hm Hr Hb Hn. unfold do_gline. destruct (negb _); [by exists [], s|]. rewrite Hb, Hr. cbn [orb negb].
  destruct (badchan_loop_total g (LocalClientArray e) (GlobalChannelList s) Hm Hn) as (eff & c & -> & Hc).
  exists eff, (set_channels c s). done.
Qed.

(** ** gline_find() for the masks of a G-line *)
Definition mtext (user : list Z) (h : option (list Z)) : list Z :=
  user ++ match h with Some h => 64 :: h | None => [] end.

Lemma same_text_lower a b : cstring a -> cstring b -> same_text a b = true <-> lower a = lower b.
Proof. intros Ha Hb. unfold same_text. rewrite Z.eqb_eq. by apply strcmp_0. Qed.

Lemma chan_sign_lower x y : is_char y -> chan_sign x = true -> ToLower x = ToLower y -> chan_sign y = true.
Proof.
  intros Hy Hx. assert (E : ToLower x = x) by (unfold chan_sign in Hx; apply orb_true_iff in Hx as [->%Z.eqb_eq| ->%Z.eqb_eq]; done).
  rewrite E. intros ->.
  revert Hx. unfold is_char in Hy. assert (H : chan_sign (ToLower y) = chan_sign y); [|by rewrite H].
  apply (all_codes (fun c => chan_sign (ToLower c) = chan_sign c) (fun c => Bool.eqb (chan_sign (ToLower c)) (chan_sign c))); [|vm_compute; done|lia].
  intros c. by apply Bool.eqb_prop.
Qed.

Lemma chan_differs m t : chan_mask_ok m -> cstring t -> chan_sign (hd0 t) = false -> same_text m t = false.
Proof.
  intros (Hp & Hs & _) Ht Hh. destruct (same_text m t) eqn:E; [|done].
  apply same_text_lower in E; [|by apply plain_cstring|done]. destruct m as [|x m], t as [|y t]; try done.
  cbn in E. injection E as E _. cbn in Hs, Hh. apply Forall_cons in Ht as [Hy _].
  by rewrite (chan_sign_lower x y Hy Hs E) in Hh.
Qed.

Lemma mtext_ok user h : masks_ok user h -> text_ok user h ->
  cstring (mtext user h) /\ chan_sign (hd0 (mtext user h)) = false /\ (3 <= length (mtext user h))%nat /\
  canon_userhost (mtext user h) None = (Some user, h) /\ user <> [].
Proof.
  intros Hm Ht. pose proof (masks_ok_user _ _ Hm) as [Hu Hne]. unfold mtext, canon_userhost, masks_ok, text_ok in *.
  destruct h as [h|].
  - destruct Hm as (_ & [Hh Hh0] & H36), Ht as (Hu64 & Hc & _). split_and!.
    + apply Forall_app. split; [by apply plain_cstring|]. constructor; [done|by apply plain_cstring].
    + by destruct user.
    + destruct user, h; cbn; rewrite ?length_app; cbn; try done; lia.
    + replace (hd0 (user ++ 64 :: h)) with (hd0 user) by by destruct user.
      rewrite (proj2 (Z.eqb_neq _ _)) by done. by rewrite split_at_first.
    + done.
  - destruct Hm as (m & -> & Hm & Hm0). rewrite app_nil_r. split_and!; try done; [by apply plain_cstring|].
    destruct m; [done|cbn; lia].
Qed.

Definition found (user : list Z) (h : option (list Z)) (l : list Gline) (o : option place) (s : glines) : Prop :=
  match o with
  | Some p => exists i g, p = MkPlace false i /\ GlobalGlineList s !! i = Some g /\ g ∈ l /\
                same_host (gl_host g) h = true /\ same_text (gl_user g) user = true
  | None => True
  end.

(** Only expired G-lines went. *)
Definition reaped (s s' : glines) : Prop :=
  alive e (GlobalGlineList s') = alive e (GlobalGlineList s) /\ alive e (BadChanGlineList s') = alive e (BadChanGlineList s) /\
  GlobalChannelList s' = GlobalChannelList s.

Lemma reaped_ready s s' : reaped s s' -> ready e s -> ready e s'.
Proof. intros (H1 & H2 & H3) (R1 & R2 & R3). unfold ready, settled. by rewrite H1, H2, H3. Qed.

Lemma find_user s user h : ready e s -> masks_ok user h -> text_ok user h ->
  exists o s', gline_find e (mtext user h) (GLINE_ANY .| GLINE_EXACT) s = Some (o, s') /\ reaped s s' /\
    found user h (alive e (GlobalGlineList s)) o s'.
Proof.
  intros (Hs & Hc & _) Hm Ht. destruct (mtext_ok user h Hm Ht) as (Hct & Hh & Hl & Hcan & Hne).
  unfold gline_find. change (has_bits (GLINE_ANY .| GLINE_EXACT) (GLINE_BADCHAN .| GLINE_ANY)) with true. cbv iota.
  destruct (find_gline_spec e (chan_test (GLINE_ANY .| GLINE_EXACT) (mtext user h)) (fun _ => False) (BadChanGlineList s))
    as (l & o & -> & Hlc & Ho).
  { intros g Hg. unfold chan_test, passed_over. rewrite Forall_forall in Hc.
    change (has_bits (GLINE_ANY .| GLINE_EXACT) GLINE_EXACT) with true. cbn [andb orb].
    change (has_bits (GLINE_ANY .| GLINE_EXACT) GLINE_GLOBAL) with false.
    change (has_bits (GLINE_ANY .| GLINE_EXACT) GLINE_LASTMOD) with false. cbn [andb orb].
    rewrite chan_differs; [by exists false|apply (Hc g Hg)|done|done]. }
  destruct o as [i|]; [by destruct Ho as (g & _ & _ & [] & _)|]. cbn [mbind option_bind].
  change ((GLINE_ANY .| GLINE_EXACT) .& (GLINE_BADCHAN .| GLINE_ANY) =? GLINE_BADCHAN) with false.
  rewrite Hh, Hcan. cbn [orb]. rewrite rd_some by lia. cbn [mbind option_bind].
  destruct (chan_sign (ch (mtext user h) 2)); [exists None, (set_badchan l s); split; [done|]; split; [exact (conj eq_refl (conj Hlc eq_refl))|done]|].
  destruct user as [|c user]; [done|]. cbn [GlobalGlineList set_badchan].
  destruct (find_gline_spec e (user_test (GLINE_ANY .| GLINE_EXACT) (c :: user) h)
    (fun g => same_host (gl_host g) h = true /\ same_text (gl_user g) (c :: user) = true) (GlobalGlineList s)) as (l' & o & -> & Hlg & Hog).
  { intros g Hg. unfold user_test, passed_over.
    change (has_bits (GLINE_ANY .| GLINE_EXACT) GLINE_EXACT) with true.
    change (has_bits (GLINE_ANY .| GLINE_EXACT) GLINE_GLOBAL) with false.
    change (has_bits (GLINE_ANY .| GLINE_EXACT) GLINE_LASTMOD) with false. cbn [andb orb].
    destruct (same_host _ _); cbn [negb]; eexists; (split; [done|]); intuition congruence. }
  cbn [mbind option_bind]. do 2 eexists. split; [done|]. split; [exact (conj Hlg (conj Hlc eq_refl))|].
  destruct o as [i|]; [|done]. destruct Hog as (g & H1 & H2 & H3 & _). by exists i, g.
Qed.

(** ** A line for users is taken over *)
Definition linked (sptr : source) : Prop :=
  IsServer sptr = true /\ IsUser sptr = false /\ source_ok sptr /\ HasPriv sptr PRIV_BADCHAN = true.

Definition line_flags : Z := GLINE_FORCE .| GLINE_ACTIVE.
Definition target_flags (h : option (list Z)) : Z :=
  match h with Some _ => line_flags | None => line_flags .| GLINE_REALNAME end.

Lemma target_user sptr user h : linked sptr -> masks_ok user h -> text_ok user h ->
  gline_target e sptr (mtext user h) line_flags = Some (Accepted user h (target_flags h)).
Proof.
  intros (_ & Hu & _) Hm Ht. destruct (mtext_ok user h Hm Ht) as (_ & Hh & Hl & Hcan & Hne).
  unfold gline_target. rewrite Hh, !rd_some by lia. cbn [mbind option_bind].
  unfold mtext, masks_ok, text_ok in *. destruct h as [h|].
  - destruct Hm as (_ & _ & H36), Ht as (Hu64 & _ & Hc36 & Hc64 & Hlen).
    replace (hd0 (user ++ 64 :: h)) with (hd0 user) by by destruct user.
    assert (E : chan_sign (ch (user ++ 64 :: h) 2) && (ch (user ++ 64 :: h) 1 =? 64) = false).
    { destruct (chan_sign _); [|done]. by apply Z.eqb_neq, Hc64. }
    rewrite E, (proj2 (Z.eqb_neq _ _) H36), (proj2 (Z.eqb_neq _ _) Hc36). cbn [orb].
    unfold canon_userhost. replace (hd0 (user ++ 64 :: h)) with (hd0 user) by by destruct user.
    rewrite (proj2 (Z.eqb_neq _ _) H36), split_at_first by done. cbn [mbind option_bind].
    unfold refuse_mask, MyUser. rewrite (proj2 (Nat.ltb_ge _ _)) by done. by rewrite Hu, andb_false_r.
  - destruct Hm as (m & -> & _). rewrite app_nil_r in *.
    change (ch (36 :: 82 :: m) 1 =? 64) with false. rewrite andb_false_r. cbn [orb].
    change (hd0 (36 :: 82 :: m) =? 36) with true. done.
Qed.

Lemma add_user sptr user h reason expire lastmod s :
  linked sptr -> ready e s -> masks_ok user h -> text_ok user h -> plain_host h -> reason_ok reason -> 0 < expire ->
  exists effects s', gline_add e sptr (mtext user h) reason expire lastmod line_flags s = Some (effects, s') /\ ready e s' /\
    (forall u, client_ok u -> banned e s' u <-> banned e s u \/ concerns e user h u) /\
    BadChanGlineList s' = BadChanGlineList s.
Proof.
  intros Hl (Hs & Hc & Hn) Hm Ht Hp Hr He. unfold gline_add. rewrite (target_user sptr user h Hl Hm Ht). cbn [mbind option_bind].
  replace (bad_expire expire (target_flags h)) with false by by destruct h.
  assert (Hf : user_flags h (target_flags h)) by by destruct h.
  destruct (make_gline_settles e user h reason (expire + CurrentTime e) lastmod (target_flags h) s Hs Hm Hf Hp ltac:(lia))
    as (o & s' & -> & Hs' & Hbc & Hch & Hg & Hb). cbn [mbind option_bind].
  assert (Hrdy : ready e s') by (unfold ready; by rewrite Hbc, Hch).
  destruct o as [p|]; [|by exists [], s']. rewrite Hg. cbn [mbind option_bind].
  destruct (new_gline_plain e user h reason (expire + CurrentTime e) lastmod (target_flags h) Hm Hf Hp)
    as (g & Eg & (Hok & _ & _) & _ & _ & _ & _ & Er & Ef). rewrite Eg. cbn [mbind option_bind].
  destruct (do_gline_user sptr g s') as [eff ->].
  - done.
  - unfold GlineIsBadChan. rewrite Ef. by destruct h.
  - by rewrite Er.
  - apply Hl.
  - cbn [mbind option_bind]. eauto 10.
Qed.

Lemma same_masks_wider g user h : gline_ok g -> masks_ok user h ->
  same_host (gl_host g) h = true -> same_text (gl_user g) user = true ->
  wider user h (gl_user g) (gl_host g) /\ wider (gl_user g) (gl_host g) user h.
Proof.
  intros [Hg _] Hm Hh Hu. destruct (masks_ok_user _ _ Hg) as [Pg _], (masks_ok_user _ _ Hm) as [Pu _].
  apply same_text_lower in Hu; [|by apply plain_cstring..].
  unfold wider, same_host, masks_ok in *. destruct h as [h|], (gl_host g) as [h'|]; try done.
  - destruct Hm as (_ & [Ph _] & _), Hg as (_ & [Ph' _] & _).
    apply same_text_lower in Hh; [|by apply plain_cstring..]. split; split; apply order_same; by symmetry.
  - split; apply order_same; by symmetry.
Qed.

Lemma same_masks g user h u : gline_ok g -> masks_ok user h ->
  same_host (gl_host g) h = true -> same_text (gl_user g) user = true ->
  concerns e (gl_user g) (gl_host g) u <-> concerns e user h u.
Proof.
  intros Hg Hm Hh Hu. destruct (same_masks_wider g user h Hg Hm Hh Hu) as [H1 H2].
  split; (eapply wider_concerns; [| |done]); first [done|apply Hg].
Qed.

(** ** G-lines that are written or freed *)
Lemma store_elem (l : list Gline) i g g' x : l !! i = Some g -> x ∈ <[i := g']> l -> x = g' \/ x ∈ l.
Proof.
  intros Hi Hx. apply list_elem_of_lookup in Hx as [j Hj]. destruct (decide (j = i)) as [->|Hn].
  - rewrite list_lookup_insert_eq in Hj by by eapply lookup_lt_Some. left. congruence.
  - rewrite list_lookup_insert_ne in Hj by done. right. apply list_elem_of_lookup. eauto.
Qed.

Lemma elem_store (l : list Gline) i g g' x : l !! i = Some g -> x ∈ l -> x = g \/ x ∈ <[i := g']> l.
Proof.
  intros Hi Hx. apply list_elem_of_lookup in Hx as [j Hj]. destruct (decide (j = i)) as [->|Hn]; [left; congruence|right].
  apply list_elem_of_lookup. exists j. by rewrite list_lookup_insert_ne.
Qed.

Lemma stored_elem (l : list Gline) i g g' : l !! i = Some g -> g' ∈ <[i := g']> l.
Proof. intros Hi. apply list_elem_of_lookup. exists i. apply list_lookup_insert_eq. by eapply lookup_lt_Some. Qed.

(** A G-line with the same masks and end takes the place of one. *)
Lemma store_same s i g g' :
  ready e s -> GlobalGlineList s !! i = Some g -> expired e g = false -> plain_gline g' ->
  gl_user g' = gl_user g -> gl_host g' = gl_host g -> gl_expire g' = gl_expire g ->
  let s' := gline_store g' (MkPlace false i) s in
  ready e s' /\ forall u, client_ok u -> banned e s' u <-> banned e s u.
Proof.
  intros (Hs & Hc & Hn) Hi Hx Hp Eu Eh Ee s'.
  assert (Hx' : expired e g' = false) by (unfold expired in *; by rewrite Ee).
  assert (Hs' : settled e s').
  { unfold settled in *. rewrite Forall_forall in *. intros x [Hin Hxx]%alive_elem.
    destruct (store_elem _ i g g' x Hi Hin) as [->|Hin']; [done|]. apply Hs, alive_elem. done. }
  split; [done|]. intros u Hu. rewrite !settled_banned by done. setoid_rewrite alive_elem. split.
  - intros (x & [Hin Hxx] & Hcx). destruct (store_elem _ i g g' x Hi Hin) as [->|Hin']; [|by exists x].
    exists g. rewrite Eu, Eh in Hcx. split; [|done]. split; [|done]. apply list_elem_of_lookup. eauto.
  - intros (x & [Hin Hxx] & Hcx). destruct (elem_store _ i g g' x Hi Hin) as [->|Hin']; [|by exists x].
    exists g'. rewrite Eu, Eh. split; [|done]. split; [by eapply stored_elem|done].
Qed.

Lemma free_bans s i g :
  ready e s -> GlobalGlineList s !! i = Some g ->
  let s' := gline_free (MkPlace false i) s in
  ready e s' /\ forall u, client_ok u -> (banned e s' u -> banned e s u) /\
    (banned e s u -> banned e s' u \/ concerns e (gl_user g) (gl_host g) u).
Proof.
  intros (Hs & Hc & Hn) Hi s'. pose proof (delete_Permutation _ _ _ Hi) as Hp.
  assert (Hin : forall x, x ∈ GlobalGlineList s <-> x = g \/ x ∈ GlobalGlineList s').
  { intros x. rewrite Hp at 1. by rewrite elem_of_cons. }
  assert (Hs' : settled e s').
  { unfold settled in *. rewrite Forall_forall in *. intros x [Hx Hxx]%alive_elem. apply Hs, alive_elem.
    split; [apply Hin; by right|done]. }
  split; [done|]. intros u Hu. rewrite !settled_banned by done. setoid_rewrite alive_elem. split.
  - intros (x & [Hx Hxx] & H). exists x. split; [|done]. split; [apply Hin; by right|done].
  - intros (x & [[->|Hx]%Hin Hxx] & H); [by right|left; by exists x].
Qed.

Lemma reaped_banned s s' u : ready e s -> reaped s s' -> client_ok u -> banned e s' u <-> banned e s u.
Proof.
  intros Hr Hp Hu. rewrite !settled_banned; [|apply Hr|done|apply (reaped_ready s s' Hp Hr)|done].
  by rewrite (proj1 Hp).
Qed.

(** gline_activate() of a G-line that is in force. *)
Definition activated (lastmod : Z) (g : Gline) : Gline :=
  set_lastmod (next_lastmod lastmod g) (set_flags (gl_flags g .| GLINE_ACTIVE) g).

Lemma activate_active sptr p g lastmod s : list_at p s !! position p = Some g -> GlineIsActive g = true ->
  gline_activate e sptr p lastmod line_flags s = Some ([], gline_store (activated lastmod g) p s).
Proof.
  intros Hg Ha. unfold gline_activate. rewrite Hg. cbn [mbind option_bind]. by rewrite Ha.
Qed.

Lemma activated_bit lastmod g m : m .& GLINE_ACTIVE = 0 -> has_bits (gl_flags (activated lastmod g)) m = has_bits (gl_flags g) m.
Proof.
  intros Hm. unfold has_bits. cbn. rewrite Z.land_lor_distr_l, (Z.land_comm GLINE_ACTIVE m), Hm. by rewrite Z.lor_0_r.
Qed.

Lemma activated_active lastmod g : GlineIsActive g = true -> GlineIsActive (activated lastmod g) = true.
Proof.
  unfold GlineIsActive. cbn. rewrite Z.land_lor_distr_l. intros ->%Z.eqb_eq. done.
Qed.

Lemma activated_plain lastmod g : plain_gline g -> plain_gline (activated lastmod g).
Proof.
  intros ((Hm & Hr & Hb) & Ha & Hi). split; [split; [done|split]|split].
  - unfold GlineIsRealName. by rewrite activated_bit.
  - unfold GlineIsIpMask. by rewrite activated_bit.
  - by apply activated_active.
  - unfold GlineIsIpMask. by rewrite activated_bit.
Qed.

(** ** A line of a burst *)
Definition takes (s s' : glines) (user : list Z) (h : option (list Z)) : Prop :=
  ready e s' /\ forall u, client_ok u -> banned e s' u <-> banned e s u \/ concerns e user h u.

Lemma apply_user cptr bursting sptr user h reason expire lastmod s :
  linked sptr -> ready e s -> masks_ok user h -> text_ok user h -> plain_host h -> reason_ok reason -> 0 < expire ->
  lastmod <> 0 ->
  exists effects s', ms_gline_apply e cptr bursting sptr 6 (mtext user h) reason expire lastmod line_flags s = Some (effects, s') /\
    takes s s' user h /\ alive e (BadChanGlineList s') = alive e (BadChanGlineList s).
Proof.
  intros Hl Hr Hm Ht Hp Hre He Hlm. unfold ms_gline_apply.
  destruct (find_user s user h Hr Hm Ht) as (o & s1 & -> & Hrp & Ho). cbn [mbind option_bind].
  pose proof (reaped_ready s s1 Hrp Hr) as Hr1.
  assert (Hb1 : forall u, client_ok u -> banned e s1 u <-> banned e s u) by (intros u; by apply reaped_banned).
  pose proof (proj1 (proj2 Hrp)) as Hbc.
  destruct o as [p|].
  2:{ cbn [Nat.eqb Nat.ltb Nat.leb andb].
      destruct (add_user sptr user h reason expire lastmod s1 Hl Hr1 Hm Ht Hp Hre He) as (eff & s' & -> & H1 & H2 & H3).
      exists eff, s'. split; [done|]. rewrite H3. split; [split; [done|]|done]. intros u Hu. by rewrite H2, Hb1. }
  destruct Ho as (i & g & -> & Hi & Hal & Hh & Hu). cbn [position]. change (list_at (MkPlace false i) s1) with (GlobalGlineList s1).
  rewrite Hi. cbn [mbind option_bind].
  assert (Hg : plain_gline g) by (destruct Hr as (Hs & _); unfold settled in Hs; rewrite Forall_forall in Hs; auto).
  pose proof (fun u => same_masks g user h u (proj1 Hg) Hm Hh Hu) as Hsame.
  assert (Hin : forall u, client_ok u -> concerns e user h u -> banned e s u).
  { intros u Hcu Hc. rewrite settled_banned; [|apply Hr|done]. exists g. by rewrite Hsame. }
  assert (Hkeep : forall s', ready e s' -> (forall u, client_ok u -> banned e s' u <-> banned e s1 u) -> takes s s' user h).
  { intros s' H1 H2. split; [done|]. intros u Hcu. rewrite H2, Hb1 by done. intuition. }
  destruct (GlineIsLocal g && negb (has_bits line_flags GLINE_LOCAL)).
  - destruct (free_bans s1 i g Hr1 Hi) as [Hrf Hbf].
    destruct (add_user sptr user h reason expire lastmod _ Hl Hrf Hm Ht Hp Hre He) as (eff & s' & -> & H1 & H2 & H3).
    exists eff, s'. split; [done|]. rewrite H3. split; [split; [done|]|done]. intros u Hcu. rewrite H2, <- Hb1 by done.
    destruct (Hbf u Hcu) as [F1 F2]. rewrite Hsame in F2. intuition.
  - rewrite (proj2 (Z.eqb_neq lastmod 0)) by done. cbn [andb orb]. destruct (gl_lastmod g <? lastmod).
    + change (has_bits line_flags GLINE_ACTIVE) with true. cbv iota.
      rewrite (activate_active sptr (MkPlace false i) g lastmod s1) by (done || apply Hg).
      do 2 eexists. split; [done|]. split; [|done].
      destruct (store_same s1 i g (activated lastmod g) Hr1 Hi) as [H1 H2]; try done; [exact (proj2 (proj1 (alive_elem e _ _) Hal))|by apply activated_plain|by apply Hkeep].
    + destruct (_ || _); (do 2 eexists; split; [done|]; split; [by apply Hkeep|done]).
Qed.

(** What ms_gline() makes of a line of a burst before it looks for the mask. *)
Lemma ms_line cptr bursting sptr pfx text ts lm lastmod reason s :
  linked sptr -> atoi lm = lastmod -> lastmod <> 0 ->
  ms_gline e cptr bursting sptr [pfx; star; 43 :: text; ts; lm; reason] s =
  ms_gline_apply e cptr bursting sptr 6 text reason (atoi ts) lastmod line_flags s.
Proof.
  intros (Hs & _) Hlm Hne. unfold ms_gline. cbn [lookup list_lookup length mbind option_bind].
  cbn [forced_mask Z.eqb Pos.eqb hd0 Nat.eqb Nat.ltb Nat.leb andb orb default]. unfold id. rewrite Hlm, Hs.
  rewrite bool_decide_eq_true_2 by done. cbn [andb negb].
  rewrite (proj2 (Z.eqb_neq lastmod 0)), andb_false_r by done. reflexivity.
Qed.

Lemma time_text_atoi t : 0 <= t < 2 ^ 31 -> atoi (time_text t) = t.
Proof.
  intros Ht. unfold time_text, u64. rewrite Z.mod_small by lia. rewrite <- (app_nil_r (decimal t)). by apply atoi_decimal.
Qed.

(** ** A line for a channel is taken over *)
Lemma forbidden_iff s name : ready e s -> cstring name ->
  forbidden e s name <-> exists g, g ∈ alive e (BadChanGlineList s) /\ glob (gl_user g) name.
Proof.
  intros (_ & Hc & _) Hn. unfold forbidden, join_forbidden, gline_find. rewrite Forall_forall in Hc.
  change (has_bits GLINE_BADCHAN (GLINE_BADCHAN .| GLINE_ANY)) with true. cbv iota.
  destruct (find_gline_spec e (chan_test GLINE_BADCHAN name) (fun g => glob (gl_user g) name) (BadChanGlineList s))
    as (l & o & -> & Hl & Ho).
  { intros g Hg. destruct (Hc g Hg) as ((Hp & _ & Hlen & _) & _). apply decides_matches; [done..|].
    intros E. rewrite E in Hlen. cbn in Hlen. lia. }
  cbn [mbind option_bind]. destruct o as [i|].
  - destruct Ho as (g & Hi & Hg & Hm & _). cbn [mbind option_bind].
    change (list_at (MkPlace true i) (set_badchan l s) !! position (MkPlace true i)) with (l !! i). rewrite Hi.
    cbn [mbind option_bind]. destruct (Hc g Hg) as (_ & _ & -> & _). split; [by exists g|]. cbn. eauto.
  - change (GLINE_BADCHAN .& (GLINE_BADCHAN .| GLINE_ANY) =? GLINE_BADCHAN) with true. cbn [orb mbind option_bind]. split.
    + by intros (s' & [=]).
    + intros (g & Hg & Hm). by destruct (proj2 Ho g Hg).
Qed.

(** What a line for a channel does. *)
Definition bars (s s' : glines) (m : list Z) : Prop :=
  ready e s' /\ (forall u, client_ok u -> banned e s' u <-> banned e s u) /\
  forall name, cstring name -> forbidden e s' name <-> forbidden e s name \/ glob m name.

Lemma same_global_banned s s' u : ready e s -> ready e s' ->
  alive e (GlobalGlineList s') = alive e (GlobalGlineList s) -> client_ok u -> banned e s' u <-> banned e s u.
Proof. intros Hr Hr' Ha Hu. rewrite !settled_banned; [by rewrite Ha|apply Hr|done|apply Hr'|done]. Qed.

Lemma bars_from s s' m :
  ready e s -> ready e s' -> alive e (GlobalGlineList s') = alive e (GlobalGlineList s) ->
  (forall name, cstring name ->
     (exists g, g ∈ alive e (BadChanGlineList s') /\ glob (gl_user g) name) <->
     (exists g, g ∈ alive e (BadChanGlineList s) /\ glob (gl_user g) name) \/ glob m name) ->
  bars s s' m.
Proof.
  intros Hr Hr' Ha Hb. split; [done|]. split; [intros u Hu; by apply same_global_banned|].
  intros name Hn. rewrite !forbidden_iff by done. by apply Hb.
Qed.

Lemma target_chan sptr m : linked sptr -> chan_mask_ok m ->
  gline_target e sptr m line_flags = Some (Accepted m None (line_flags .| GLINE_BADCHAN)).
Proof.
  intros (_ & _ & _ & Hpr) (_ & Hs & Hl & H64). unfold gline_target. rewrite Hs. cbn [orb mbind option_bind].
  change (has_bits line_flags GLINE_LOCAL) with false. cbv iota. rewrite Hpr. cbn [negb]. rewrite rd_some by lia. cbn [mbind option_bind].
  assert (E : chan_sign (ch m 2) && (ch m 1 =? 64) = false); [|by rewrite E].
  destruct (chan_sign (ch m 2)); [|done]. by apply Z.eqb_neq, H64.
Qed.

Lemma add_chan sptr m reason expire lastmod s :
  linked sptr -> ready e s -> chan_mask_ok m -> 0 < expire ->
  exists effects s', gline_add e sptr m reason expire lastmod line_flags s = Some (effects, s') /\ bars s s' m.
Proof.
  intros Hl Hr Hm He. unfold gline_add. rewrite target_chan by done. cbn [mbind option_bind].
  change (bad_expire expire (line_flags .| GLINE_BADCHAN)) with false. cbv iota.
  set (g := MkGline m None reason (expire + CurrentTime e) lastmod 0 0 ((line_flags .| GLINE_BADCHAN) .& GLINE_MASK)).
  set (s1 := set_badchan (g :: BadChanGlineList s) s).
  change (make_gline e m None reason (expire + CurrentTime e) lastmod (line_flags .| GLINE_BADCHAN) s) with (Some (Some (MkPlace true 0), s1)).
  cbn [mbind option_bind]. change (list_at (MkPlace true 0) s1 !! position (MkPlace true 0)) with (Some g). cbn [mbind option_bind].
  assert (Hx : expired e g = false) by (apply Z.leb_gt; cbn; lia).
  destruct Hr as (R1 & R2 & R3). pose proof Hm as (Hp & _ & Hlen & _).
  destruct (do_gline_chan sptr g s1) as (eff & s' & -> & E1 & E2 & E3); [|done..|].
  { split; [done|]. cbn. intros ->. cbn in Hlen. lia. }
  cbn [mbind option_bind]. do 2 eexists. split; [done|].
  assert (Ea : alive e (BadChanGlineList s') = g :: alive e (BadChanGlineList s)) by (rewrite E2; etransitivity; [apply alive_cons|by rewrite Hx]).
  apply bars_from; [done| |by rewrite E1|].
  - split_and!; [unfold settled; by rewrite E1| |done]. rewrite Ea. constructor; [|done]. done.
  - intros name Hn. rewrite Ea. split.
    + intros (x & [->|Hin]%elem_of_cons & H); [by right|left; by exists x].
    + intros [(x & Hin & H)|H]; [exists x|exists g]; (split; [|done]); [by right|left].
Qed.

Lemma find_chan s m : ready e s -> chan_mask_ok m ->
  exists o s', gline_find e m (GLINE_ANY .| GLINE_EXACT) s = Some (o, s') /\ reaped s s' /\
    match o with
    | Some p => exists i g, p = MkPlace true i /\ BadChanGlineList s' !! i = Some g /\ g ∈ alive e (BadChanGlineList s) /\
                  same_text (gl_user g) m = true
    | None => True
    end.
Proof.
  intros (Hs & Hc & _) (_ & Hm & _). unfold gline_find.
  change (has_bits (GLINE_ANY .| GLINE_EXACT) (GLINE_BADCHAN .| GLINE_ANY)) with true. cbv iota.
  destruct (find_gline_spec e (chan_test (GLINE_ANY .| GLINE_EXACT) m) (fun g => same_text (gl_user g) m = true) (BadChanGlineList s))
    as (l & o & -> & Hl & Ho).
  { intros g Hg. by exists (same_text (gl_user g) m). }
  cbn [mbind option_bind]. destruct o as [i|].
  - destruct Ho as (g & Hi & Hg & Hsm & _). do 2 eexists. split; [done|].
    split; [exact (conj eq_refl (conj Hl eq_refl))|]. by exists i, g.
  - rewrite Hm, orb_true_r. cbn [mbind option_bind]. do 2 eexists. split; [done|].
    split; [exact (conj eq_refl (conj Hl eq_refl))|done].
Qed.

Lemma same_mask_glob m m' name : plain_mask m -> plain_mask m' -> same_text m m' = true -> glob m name <-> glob m' name.
Proof.
  intros Hm Hm' H. apply same_text_lower in H; [|by apply plain_cstring..].
  split; intros Hg; (eapply order_covers; [by apply order_same|done]).
Qed.

Lemma activated_chan lastmod g : chan_gline g -> chan_gline (activated lastmod g).
Proof.
  intros (H1 & H2 & H3 & H4 & H5). split_and!; [done|done|by apply activated_active| |].
  - unfold GlineIsBadChan. by rewrite activated_bit.
  - unfold GlineIsRealName. by rewrite activated_bit.
Qed.

(** Some G-line of a list that is alive matches a name. *)
Definition some_match (l : list Gline) (name : list Z) : Prop := exists g, g ∈ alive e l /\ glob (gl_user g) name.

Lemma bars_after s s1 s' m :
  ready e s -> ready e s1 -> alive e (GlobalGlineList s1) = alive e (GlobalGlineList s) ->
  (forall name, cstring name -> some_match (BadChanGlineList s1) name -> some_match (BadChanGlineList s) name) ->
  (forall name, cstring name -> some_match (BadChanGlineList s) name -> some_match (BadChanGlineList s1) name \/ glob m name) ->
  bars s1 s' m -> bars s s' m.
Proof.
  intros Hr Hr1 Ha H1 H2 (B1 & B2 & B3). split; [done|]. split.
  - intros u Hu. rewrite B2 by done. by apply same_global_banned.
  - intros name Hn. rewrite B3 by done. rewrite !forbidden_iff by done.
    specialize (H1 name Hn). specialize (H2 name Hn). unfold some_match in *. intuition.
Qed.

Lemma chan_free s i g m :
  ready e s -> BadChanGlineList s !! i = Some g ->
  (forall name, cstring name -> glob (gl_user g) name <-> glob m name) ->
  let s1 := gline_free (MkPlace true i) s in
  ready e s1 /\ forall s', bars s1 s' m -> bars s s' m.
Proof.
  intros Hr Hi Hgm s1. pose proof (delete_Permutation _ _ _ Hi) as Hp.
  assert (Hin : forall x, x ∈ BadChanGlineList s <-> x = g \/ x ∈ BadChanGlineList s1).
  { intros x. rewrite Hp at 1. by rewrite elem_of_cons. }
  assert (Hr1 : ready e s1).
  { destruct Hr as (R1 & R2 & R3). split; [done|split; [|done]]. rewrite Forall_forall in *.
    intros x [Hx Hxx]%alive_elem. apply R2, alive_elem. split; [apply Hin; by right|done]. }
  split; [done|]. intros s'. apply bars_after; [done..| |].
  - intros name _ (x & [Hx Hxx]%alive_elem & H). exists x. rewrite alive_elem. split; [|done]. split; [apply Hin; by right|done].
  - intros name Hn (x & [[->|Hx]%Hin Hxx]%alive_elem & H); [right; by apply Hgm|left]. exists x. by rewrite alive_elem.
Qed.

Lemma chan_keep s m g : ready e s -> g ∈ alive e (BadChanGlineList s) ->
  (forall name, cstring name -> glob (gl_user g) name <-> glob m name) -> bars s s m.
Proof.
  intros Hr Hg Hgm. apply bars_from; [done..|]. intros name Hn. split; [by left|].
  intros [H|H]; [done|]. exists g. split; [done|]. by apply Hgm.
Qed.

Lemma chan_store s i g m lastmod : ready e s -> BadChanGlineList s !! i = Some g -> expired e g = false -> chan_gline g ->
  (forall name, cstring name -> glob (gl_user g) name <-> glob m name) ->
  bars s (gline_store (activated lastmod g) (MkPlace true i) s) m.
Proof.
  intros Hr Hi Hx Hg Hgm. set (g' := activated lastmod g). pose proof Hr as (R1 & R2 & R3). rewrite Forall_forall in R2.
  assert (Hg' : g ∈ alive e (BadChanGlineList s)) by (apply alive_elem; split; [apply list_elem_of_lookup; eauto|done]).
  apply bars_from; [done| |done|].
  - split; [done|]. split; [|done]. rewrite Forall_forall. intros x [Hin Hxx]%alive_elem. cbn in Hin.
    destruct (store_elem _ i g g' x Hi Hin) as [->|Hin']; [by apply activated_chan|]. apply R2, alive_elem. done.
  - intros name Hn. cbn [gline_store upd_place in_badchan position BadChanGlineList set_badchan]. setoid_rewrite alive_elem. split.
    + intros (x & [Hin Hxx] & H). destruct (store_elem _ i g g' x Hi Hin) as [->|Hin']; [right; by apply Hgm|left; by exists x].
    + intros [(x & [Hin Hxx] & H)|H].
      * destruct (elem_store _ i g g' x Hi Hin) as [->|Hin']; [|by exists x]. exists g'. split; [|done].
        split; [by eapply stored_elem|done].
      * exists g'. split; [split; [by eapply stored_elem|done]|]. by apply Hgm.
Qed.

Lemma apply_chan cptr bursting sptr m reason expire lastmod s :
  linked sptr -> ready e s -> chan_mask_ok m -> 0 < expire -> lastmod <> 0 ->
  exists effects s', ms_gline_apply e cptr bursting sptr 6 m reason expire lastmod line_flags s = Some (effects, s') /\ bars s s' m.
Proof.
  intros Hl Hr Hm He Hlm. unfold ms_gline_apply.
  destruct (find_chan s m Hr Hm) as (o & s1 & -> & Hrp & Ho). cbn [mbind option_bind].
  pose proof (reaped_ready s s1 Hrp Hr) as Hr1.
  assert (Hafter : forall s', bars s1 s' m -> bars s s' m).
  { intros s'. apply bars_after; [done..|apply Hrp| |]; unfold some_match; rewrite (proj1 (proj2 Hrp)); auto. }
  destruct o as [p|].
  2:{ cbn [Nat.eqb Nat.ltb Nat.leb andb].
      destruct (add_chan sptr m reason expire lastmod s1 Hl Hr1 Hm He) as (eff & s' & -> & H). eauto. }
  destruct Ho as (i & g & -> & Hi & Hal & Hsm). cbn [position]. change (list_at (MkPlace true i) s1) with (BadChanGlineList s1).
  rewrite Hi. cbn [mbind option_bind]. pose proof Hr as (_ & R2 & _). rewrite Forall_forall in R2.
  pose proof (R2 g Hal) as Hg.
  assert (Hgm : forall name, cstring name -> glob (gl_user g) name <-> glob m name).
  { intros name _. apply same_mask_glob; [apply Hg|apply Hm|done]. }
  assert (Hal1 : g ∈ alive e (BadChanGlineList s1)) by (by rewrite (proj1 (proj2 Hrp))).
  destruct (GlineIsLocal g && negb (has_bits line_flags GLINE_LOCAL)).
  - destruct (chan_free s1 i g m Hr1 Hi Hgm) as [Hrf Hbf].
    destruct (add_chan sptr m reason expire lastmod _ Hl Hrf Hm He) as (eff & s' & -> & H).
    exists eff, s'. split; [done|]. by apply Hafter, Hbf.
  - rewrite (proj2 (Z.eqb_neq lastmod 0)) by done. cbn [andb orb]. destruct (gl_lastmod g <? lastmod).
    + change (has_bits line_flags GLINE_ACTIVE) with true. cbv iota.
      rewrite (activate_active sptr (MkPlace true i) g lastmod s1) by (done || apply Hg).
      do 2 eexists. split; [done|]. apply Hafter, chan_store; try done. by destruct (proj1 (alive_elem e _ _) Hal1).
    + destruct (_ || _); (do 2 eexists; split; [done|]; by eapply Hafter, chan_keep).
Qed.

(** ** The lines of a burst, one after the other *)
Definition user_line (cptr : N) (now : Z) (g : Gline) : effect :=
  Server cptr [star; sign g :: mask_text g; time_text (gl_expire g - now); time_text (gl_lastmod g); gl_reason g].
Definition chan_line (cptr : N) (now : Z) (g : Gline) : effect :=
  Server cptr [star; sign g :: gl_user g; time_text (gl_expire g - now); time_text (gl_lastmod g); gl_reason g].

(** What a line can say. *)
Definition sayable (now : Z) (g : Gline) : Prop :=
  0 < gl_expire g - now < 2 ^ 31 /\ 0 < gl_lastmod g < 2 ^ 31 /\ reason_ok (gl_reason g).
Definition user_sayable (now : Z) (g : Gline) : Prop :=
  sayable now g /\ plain_gline g /\ text_ok (gl_user g) (gl_host g) /\ plain_host (gl_host g).

Lemma active_sign g : GlineIsActive g = true -> sign g = 43.
Proof.
  unfold GlineIsActive, sign, GlineIsRemActive, has_bits. intros H%Z.eqb_eq.
  assert (E : gl_flags g .& GLINE_ACTIVE = GLINE_ACTIVE).
  { change (gl_flags g .& GLINE_ACTIVE) with (gl_flags g .& (GLINE_ACTMASK .& GLINE_ACTIVE)). by rewrite Z.land_assoc, H. }
  by rewrite E.
Qed.

Variables (cptr from : N) (bursting : bool) (sptr : source) (pfx : list Z) (now : Z).
Hypothesis is_linked : linked sptr.

Lemma receive_users l s :
  Forall (user_sayable now) l -> ready e s ->
  exists s', receive e from bursting sptr pfx (map (user_line cptr now) l) s = Some s' /\ ready e s' /\
    alive e (BadChanGlineList s') = alive e (BadChanGlineList s) /\
    forall u, client_ok u -> banned e s' u <-> banned e s u \/ exists g, g ∈ l /\ concerns e (gl_user g) (gl_host g) u.
Proof.
  intros Hl. revert s. induction Hl as [|g l ((Hx & Hlm & Hre) & Hg & Ht & Hp) Hl IH]; intros s Hr.
  - exists s. split_and!; [done..|]. intros u Hu. split; [by left|]. intros [H|(g & Hg & _)]; [done|by apply elem_of_nil in Hg].
  - cbn [map receive user_line]. rewrite (active_sign g (proj1 (proj2 Hg))).
    rewrite (ms_line from bursting sptr pfx (mask_text g) _ _ (gl_lastmod g)); [|done|apply time_text_atoi; lia|lia].
    rewrite time_text_atoi by lia.
    destruct (apply_user from bursting sptr (gl_user g) (gl_host g) (gl_reason g) (gl_expire g - now) (gl_lastmod g) s)
      as (eff & s1 & E & [Hr1 Hb1] & Hc1); try done; [apply Hg|lia|lia|].
    change (mtext (gl_user g) (gl_host g)) with (mask_text g) in E. rewrite E. cbn [mbind option_bind].
    destruct (IH s1 Hr1) as (s' & -> & Hr' & Hc' & Hb'). exists s'. split_and!; [done|done|by rewrite Hc'|].
    intros u Hu. rewrite Hb', Hb1 by done. setoid_rewrite elem_of_cons. split.
    + intros [[H|H]|(x & Hx' & H)]; [by left|right; exists g; auto|right; exists x; auto].
    + intros [H|(x & [->|Hx'] & H)]; [by left; left|by left; right|right; by exists x].
Qed.

Lemma receive_chans l s :
  Forall (fun g => sayable now g /\ chan_gline g) l -> ready e s ->
  exists s', receive e from bursting sptr pfx (map (chan_line cptr now) l) s = Some s' /\ ready e s' /\
    (forall u, client_ok u -> banned e s' u <-> banned e s u) /\
    forall name, cstring name -> forbidden e s' name <-> forbidden e s name \/ exists g, g ∈ l /\ glob (gl_user g) name.
Proof.
  intros Hl. revert s. induction Hl as [|g l ((Hx & Hlm & Hre) & Hg) Hl IH]; intros s Hr.
  - exists s. split_and!; [done..|]. intros name Hn. split; [by left|]. intros [H|(g & Hg & _)]; [done|by apply elem_of_nil in Hg].
  - cbn [map receive chan_line]. rewrite (active_sign g) by apply Hg.
    rewrite (ms_line from bursting sptr pfx (gl_user g) _ _ (gl_lastmod g)); [|done|apply time_text_atoi; lia|lia].
    rewrite time_text_atoi by lia.
    destruct (apply_chan from bursting sptr (gl_user g) (gl_reason g) (gl_expire g - now) (gl_lastmod g) s)
      as (eff & s1 & -> & Hr1 & Hb1 & Hf1); try done; [apply Hg|lia|lia|]. cbn [mbind option_bind].
    destruct (IH s1 Hr1) as (s' & -> & Hr' & Hb' & Hf'). exists s'. split_and!; [done|done| |].
    + intros u Hu. by rewrite Hb', Hb1.
    + intros name Hn. rewrite Hf', Hf1 by done. setoid_rewrite elem_of_cons. split.
      * intros [[H|H]|(x & Hx' & H)]; [by left|right; exists g; auto|right; exists x; auto].
      * intros [H|(x & [->|Hx'] & H)]; [by left; left|by left; right|right; by exists x].
Qed.
End receive.

Lemma receive_app e from bursting sptr pfx l1 l2 s s1 :
  receive e from bursting sptr pfx l1 s = Some s1 ->
  receive e from bursting sptr pfx (l1 ++ l2) s = receive e from bursting sptr pfx l2 s1.
Proof.
  revert s. induction l1 as [|x l1 IH]; intros s; [by intros [= ->]|]. cbn [receive app].
  destruct x; try apply IH. destruct (ms_gline _ _ _ _ _ _) as [[eff s']|]; [apply IH|done].
Qed.

(** The G-lines a server tells: global ones that can be ordered. *)
Definition told (e : environment) (l : list Gline) (g : Gline) : Prop := g ∈ alive e l /\ bursts g = true.

(** C6: a server that gets the burst of another one processes it within its
    strings, and then bans exactly the clients that it banned before or that a
    global G-line of the other server concerns, and forbids exactly the channels
    it forbade before or that match a G-line on channels of the other server:
    whatever it knew, by the same masks or others, newer or older, and however
    the lines overlap.  The two clocks and settings may differ.

    This is for G-lines that can be said in a message and are in force on both
    sides: those on clients are active, not on an address, and have masks that
    are not empty and hold no backslash, the user mask no at sign and no dollar
    or channel sign in front, nor a dollar or, behind an at sign, a channel sign
    as the third character of user@host, which is at most 87 characters long;
    those on channels are active, with a mask of two characters or more without
    a backslash that starts with a channel sign and is not like "#@#"; what is
    left of their time and the time of the last change are positive and less
    than 2^31, and the reasons have at most 500 characters and no percent sign.
    The names of clients and channels are C strings, and the link is a server
    with PRIV_BADCHAN whose name has no percent sign. *)
Theorem gline_burst_spreads e1 e2 to from bursting sptr pfx s r :
  Forall client_ok (LocalClientArray e2) -> linked sptr -> ready e2 r ->
  (forall g, told e1 (GlobalGlineList s) g -> user_sayable (CurrentTime e1) g) ->
  (forall g, told e1 (BadChanGlineList s) g -> sayable (CurrentTime e1) g /\ chan_gline g) ->
  exists r', receive e2 from bursting sptr pfx (fst (gline_burst e1 to s)) r = Some r' /\
    (forall u, client_ok u -> banned e2 r' u <->
       banned e2 r u \/ exists g, told e1 (GlobalGlineList s) g /\ concerns e2 (gl_user g) (gl_host g) u) /\
    (forall name, cstring name -> forbidden e2 r' name <->
       forbidden e2 r name \/ exists g, told e1 (BadChanGlineList s) g /\ glob (gl_user g) name).
Proof.
  intros Hcl Hl Hr Hu Hc.
  set (us := filter (fun g => bursts g = true) (alive e1 (GlobalGlineList s))).
  set (cs := filter (fun g => bursts g = true) (alive e1 (BadChanGlineList s))).
  change (fst (gline_burst e1 to s)) with (map (user_line to (CurrentTime e1)) us ++ map (chan_line to (CurrentTime e1)) cs).
  assert (Hus : forall g, g ∈ us <-> told e1 (GlobalGlineList s) g) by (intros g; unfold us, told; rewrite list_elem_of_filter; tauto).
  assert (Hcs : forall g, g ∈ cs <-> told e1 (BadChanGlineList s) g) by (intros g; unfold cs, told; rewrite list_elem_of_filter; tauto).
  clearbody us cs.
  destruct (receive_users e2 Hcl to from bursting sptr pfx (CurrentTime e1) Hl us r) as (r1 & E1 & Hr1 & Hc1 & Hb1);
    [rewrite Forall_forall; intros g Hg; by apply Hu, Hus|done|].
  rewrite (receive_app _ _ _ _ _ _ _ _ _ E1).
  destruct (receive_chans e2 to from bursting sptr pfx (CurrentTime e1) Hl cs r1) as (r' & -> & _ & Hb2 & Hf2);
    [rewrite Forall_forall; intros g Hg; by apply Hc, Hcs|done|].
  exists r'. split; [done|]. split.
  - intros u Hok. rewrite Hb2, Hb1 by done. by setoid_rewrite Hus.
  - intros name Hn. rewrite Hf2 by done. rewrite !forbidden_iff by done. rewrite Hc1. by setoid_rewrite Hcs.
Qed.

(** C40: an operator with PRIV_GLINE and PRIV_BADCHAN who takes back a ban on all
    channels that is not there, GLINE -#* with a proper expiry, lifts every ban
    on channels whose name starts with #: the inactive G-line that is made
    stands before the others, which stay, and m_join() looks at the first one
    that matches only.  (Bans on channels with & are not in its way.) *)
Theorem channel_unban_shadows e sptr pfx offset reason s :
  HasPriv sptr PRIV_GLINE = true -> HasPriv sptr PRIV_BADCHAN = true -> FEAT_CONFIG_OPERCMDS e = true ->
  is_timestamp offset = true -> 0 < atoi offset <= GLINE_MAX_EXPIRE ->
  (forall g, g ∈ alive e (BadChanGlineList s) -> same_text (gl_user g) (lit "#*") = false) ->
  exists effects s', mo_gline e sptr [pfx; lit "-#*"; star; offset; reason] s = Some (effects, s') /\
    alive e (BadChanGlineList s) ⊆ alive e (BadChanGlineList s') /\
    forall name, cstring name -> hd0 name = 35 -> exists s'', join_forbidden e name false s' = Some (false, s'').
Proof.
  intros Hp Hb Hc Ht Ho Hn. unfold mo_gline, offset_of. cbn [lookup list_lookup]. rewrite Ht.
  change (forced_mask (lit "-#*")) with (lit "-#*", false). cbv iota beta. cbn [mbind option_bind andb].
  change (signed_mask (lit "-#*")) with (lit "#*", 0). cbv iota beta. rewrite bool_decide_eq_true_2 by done.
  change (has_bits (0 .| 0) GLINE_LOCAL) with false. cbn [negb andb]. rewrite Hc, Hp. cbn [negb].
  unfold mo_gline_apply, gline_find. change (has_bits (GLINE_ANY .| GLINE_EXACT) (GLINE_BADCHAN .| GLINE_ANY)) with true. cbv iota.
  destruct (find_gline_spec e (chan_test (GLINE_ANY .| GLINE_EXACT) (lit "#*")) (fun _ => False) (BadChanGlineList s))
    as (l & o & -> & Hl & Hf).
  { intros g Hg. exists false. split; [|done].
    change (Some (same_text (gl_user g) (lit "#*")) = Some false). by rewrite Hn. }
  destruct o as [i|]; [by destruct Hf as (g & _ & _ & [] & _)|]. cbn [mbind option_bind].
  change (chan_sign (hd0 (lit "#*"))) with true. rewrite orb_true_r. cbn [mbind option_bind].
  unfold gline_add, gline_target. change (chan_sign (hd0 (lit "#*"))) with true. cbn [orb mbind option_bind].
  change (has_bits (0 .| 0) GLINE_LOCAL) with false. cbv iota. rewrite Hb. cbn [negb].
  change (rd (lit "#*") 2) with (Some 0). cbn [mbind option_bind]. change (chan_sign 0 && (ch (lit "#*") 1 =? 64)) with false. cbv iota.
  assert (E : bad_expire (atoi offset) (0 .| 0 .| GLINE_BADCHAN) = false).
  { unfold bad_expire. rewrite (proj2 (Z.leb_gt _ _)), (proj2 (Z.ltb_ge _ _)) by lia. apply andb_false_r. }
  rewrite E. set (g := MkGline (lit "#*") None reason (atoi offset + CurrentTime e) (TStime e) 0 0 GLINE_BADCHAN).
  change (make_gline e (lit "#*") None reason (atoi offset + CurrentTime e) (TStime e) (0 .| 0 .| GLINE_BADCHAN) (set_badchan l s))
    with (Some (Some (MkPlace true 0), set_badchan (g :: l) s)).
  cbn [mbind option_bind]. change (list_at (MkPlace true 0) (set_badchan (g :: l) s) !! position (MkPlace true 0)) with (Some g).
  cbn [mbind option_bind]. change (do_gline e sptr g (set_badchan (g :: l) s)) with (Some ([] : list effect, set_badchan (g :: l) s)).
  cbn [mbind option_bind]. eexists _, (set_badchan (g :: l) s). split; [reflexivity|].
  assert (Hx : expired e g = false) by (apply Z.leb_gt; cbn; lia). split.
  - change (alive e (BadChanGlineList s) ⊆ alive e (g :: l)). rewrite alive_cons, Hx, Hl. set_solver.
  - intros name Hname H35. unfold join_forbidden, gline_find.
    change (has_bits GLINE_BADCHAN (GLINE_BADCHAN .| GLINE_ANY)) with true.
    change (BadChanGlineList (set_badchan (g :: l) s)) with (g :: l). cbn [find_gline]. rewrite Hx. destruct name as [|c name]; [done|]. cbn in H35. subst c.
    change (chan_test GLINE_BADCHAN (35 :: name) g) with (matches (lit "#*") (35 :: name)).
    destruct (decides_matches (lit "#*") (35 :: name)) as (b & -> & Hm); [by_decide|done|done|]. cbn [mbind option_bind].
    destruct b; [by eexists|]. exfalso. enough (false = true) by done. apply Hm. apply glob_chr; [done..|].
    apply (glob_any_length 0). lia.
Qed.

(** ** Witnesses *)
Lemma glob_run m n : plain_mask m -> cstring n -> m <> [] -> matches m n = Some true -> glob m n.
Proof. intros Hm Hn Hne H. destruct (decides_matches m n Hm Hn Hne) as (b & Hb & Hg). apply Hg. congruence. Qed.

Definition sample_chan_gline : Gline := MkGline (lit "#warez*") None (lit "no warez") 4000 950 0 0 (GLINE_ACTIVE .| GLINE_BADCHAN).
Definition sample_sender : glines :=
  MkGlines [sample_gline (lit "bad") (lit "*.dial.example") 2000] [sample_chan_gline] [].
Definition sample_receiver : glines :=
  MkGlines [sample_gline (lit "b*") (lit "*.example") 1500] [] [MkChannel (lit "#warez1") [MkMember (lit "x") true false false]].
Definition sample_link : source := MkSource (lit "hub.example") true false true false false (fun _ => true).
Definition sample_oper : source := MkSource (lit "oper") false true true false false (fun _ => true).

Lemma sample_sayable g : told sample_env (GlobalGlineList sample_sender) g -> user_sayable (CurrentTime sample_env) g.
Proof.
  intros [[Hg _]%alive_elem _]. apply list_elem_of_singleton in Hg as ->.
  split; [repeat split; (by_decide || (cbn; lia))|]. split; [apply sample_gline_ok; by_decide|].
  split; [repeat split; (by_decide || (cbn; done))|vm_compute; reflexivity].
Qed.

Lemma sample_chan_sayable g : told sample_env (BadChanGlineList sample_sender) g -> sayable (CurrentTime sample_env) g /\ chan_gline g.
Proof.
  intros [[Hg _]%alive_elem _]. apply list_elem_of_singleton in Hg as ->.
  split; [repeat split; (by_decide || (cbn; lia))|]. repeat split; (by_decide || (cbn; lia) || (cbn; done)).
Qed.

Lemma sample_receiver_ready : ready sample_env sample_receiver.
Proof.
  split; [|split; [constructor|]].
  - change (Forall plain_gline [sample_gline (lit "b*") (lit "*.example") 1500]). constructor; [|done].
    apply sample_gline_ok; by_decide.
  - constructor; [by_decide|done].
Qed.

Lemma gline_burst_spreads_witness :
  exists r', receive sample_env 3 false sample_link (lit "hub.example") (fst (gline_burst sample_env 4 sample_sender)) sample_receiver
             = Some r' /\ banned sample_env r' sample_user /\ forbidden sample_env r' (lit "#warez1").
Proof.
  destruct (gline_burst_spreads sample_env sample_env 4 3 false sample_link (lit "hub.example") sample_sender sample_receiver)
    as (r' & -> & Hb & Hf).
  - constructor; [apply sample_user_ok|done].
  - repeat split. by_decide.
  - apply sample_receiver_ready.
  - apply sample_sayable.
  - apply sample_chan_sayable.
  - exists r'. split; [reflexivity|]. split.
    + apply Hb; [apply sample_user_ok|]. right. eexists. split; [split; [apply alive_elem; split; [left|]|]|]; try reflexivity.
      split; [|done]. split; apply glob_run; (by_decide || (vm_compute; reflexivity)).
    + apply Hf; [by_decide|]. right. exists sample_chan_gline. split; [split; [apply alive_elem; split; [left|]|]|]; try reflexivity.
      apply glob_run; (by_decide || (vm_compute; reflexivity)).
Defined.

Lemma channel_unban_shadows_witness :
  exists effects s', mo_gline sample_env sample_oper [[]; lit "-#*"; star; lit "600"; lit "oops"] sample_sender = Some (effects, s') /\
    forall name, cstring name -> hd0 name = 35 -> exists s'', join_forbidden sample_env name false s' = Some (false, s'').
Proof.
  destruct (channel_unban_shadows sample_env sample_oper [] (lit "600") (lit "oops") sample_sender) as (eff & s' & H & _ & Hj).
  - reflexivity.
  - reflexivity.
  - reflexivity.
  - vm_compute. reflexivity.
  - vm_compute. split; [reflexivity|discriminate].
  - intros g [Hg _]%alive_elem. apply list_elem_of_singleton in Hg as ->. vm_compute. reflexivity.
  - exists eff, s'. exact (conj H Hj).
Defined.
