(* ===== verification/Class.v ===== *)
(** * ircd/class.c: connection classes

    The classes are in a store by address; the list is the sequence of their
    addresses.  An address is never given out twice, so that a pointer to freed
    memory is one that the store does not have: reading through it, freeing a
    string that was not allocated and a failing assertion are [None].  The
    privileges of a class are kept as far as PRIV_PROPAGATE goes, which decides
    the kind of the Operator blocks that use it. *)
From S2P Require Import Prelude Chattr IrcdString.
Open Scope ircd_scope.

(** The value a [short] keeps of an [int]. *)
Definition s16 (z : Z) : Z := let u := u16 z in if u <? 2 ^ 15 then u else u - 2 ^ 16.

(** A class name is a string of the heap or the literal of init_class(). *)
Inductive name_string :=
  | Literal (s : list Z)
  | Heap (s : list Z).

Definition text (n : name_string) : list Z := match n with Literal s => s | Heap s => s end.

Record ConnectionClass := MkClass {
  cc_name : option name_string;
  default_umode : option (list Z);
  propagate : option bool;             (* PRIV_PROPAGATE in privs_dirty, in privs *)
  max_sendq : Z;
  ping_freq : Z;
  conn_freq : Z;
  max_links : Z;
  valid : bool;
  ref_count : Z }.

Record class_state := MkClassState {
  classes : gmap N ConnectionClass;
  next_class : N;                      (* the next address of the allocator *)
  connClassList : list N;
  connClassAllocCount : Z }.

(** The features the module reads. *)
Record class_features := {
  PINGFREQUENCY : Z; CONNECTFREQUENCY : Z; MAXIMUM_LINKS : Z; DEFAULTMAXSENDQLENGTH : Z }.

Definition set_valid (b : bool) (cl : ConnectionClass) : ConnectionClass :=
  MkClass (cc_name cl) (default_umode cl) (propagate cl) (max_sendq cl) (ping_freq cl) (conn_freq cl)
    (max_links cl) b (ref_count cl).
Definition set_ref_count (n : Z) (cl : ConnectionClass) : ConnectionClass :=
  MkClass (cc_name cl) (default_umode cl) (propagate cl) (max_sendq cl) (ping_freq cl) (conn_freq cl)
    (max_links cl) (valid cl) n.
Definition set_privs (umode : option (list Z)) (p : option bool) (cl : ConnectionClass) : ConnectionClass :=
  MkClass (cc_name cl) umode p (max_sendq cl) (ping_freq cl) (conn_freq cl)
    (max_links cl) (valid cl) (ref_count cl).

Definition upd_class (f : ConnectionClass -> ConnectionClass) (p : N) (st : class_state) : class_state :=
  MkClassState (alter f p (classes st)) (next_class st) (connClassList st) (connClassAllocCount st).

Section class.
Variable F : class_features.

(** What MyCalloc() leaves, with the one reference. *)
Definition fresh_class : ConnectionClass := MkClass None None None 0 0 0 0 false 1.

(** make_class(): behind the first class of the list, when there is one. *)
Definition make_class (st : class_state) : N * class_state :=
  let p := next_class st in
  (p, MkClassState (<[p := fresh_class]> (classes st)) (p + 1)%N
        (match connClassList st with [] => [] | h :: t => h :: p :: t end)
        (u32 (connClassAllocCount st + 1))).

(** MyFree(ConClass(p)) *)
Definition free_name (cl : ConnectionClass) : option unit :=
  match cc_name cl with Some (Literal _) => None | _ => Some tt end.

Definition free_class (p : N) (st : class_state) : option class_state :=
  cl ← classes st !! p;
  if valid cl then None
  else
    _ ← free_name cl;
    Some (MkClassState (delete p (classes st)) (next_class st) (connClassList st)
            (u32 (connClassAllocCount st - 1))).

Definition init_class (st : class_state) : class_state :=
  let '(p, st) :=
    match connClassList st with
    | h :: _ => (h, st)
    | [] => let '(p, st) := make_class st in
            (p, MkClassState (classes st) (next_class st) [p] (connClassAllocCount st))
    end in
  upd_class (fun cl => MkClass (Some (Literal (lit "default"))) (default_umode cl) (propagate cl)
                         (u32 (DEFAULTMAXSENDQLENGTH F)) (s16 (PINGFREQUENCY F)) (s16 (CONNECTFREQUENCY F))
                         (s16 (MAXIMUM_LINKS F)) true 1) p st.

Definition class_mark_delete (st : class_state) : option class_state :=
  match connClassList st with
  | [] => None
  | _ :: t => Some (foldl (fun st p => upd_class (set_valid false) p st) st t)
  end.

Definition keep_class (cl : ConnectionClass) : bool := valid cl || (1 <? ref_count cl).

(** The loop of class_delete_marked() behind a class that stays; the result is
    the list behind that class. *)
Fixpoint delete_from (l : list N) (st : class_state) : option (list N * class_state) :=
  match l with
  | [] => Some ([], st)
  | p :: r =>
      cl ← classes st !! p;
      if keep_class cl then
        '(r', st') ← delete_from r st; Some (p :: r', st')
      else
        st ← free_class p st; delete_from r st
  end.

(** The loop starts with [prev = cl]: freeing the first class would leave it
    reading the next pointer of freed memory. *)
Definition class_delete_marked (st : class_state) : option class_state :=
  match connClassList st with
  | [] => Some st
  | h :: t =>
      cl ← classes st !! h;
      if keep_class cl then
        '(t', st') ← delete_from t st;
        Some (MkClassState (classes st') (next_class st') (h :: t') (connClassAllocCount st'))
      else None
  end.

(** do_find_class(): the name of a class is read before it is compared. *)
Fixpoint find_from (l : list N) (st : class_state) (name : list Z) (extras : bool) : option (option N) :=
  match l with
  | [] => Some None
  | p :: r =>
      cl ← classes st !! p;
      if negb (valid cl) && negb extras then find_from r st name extras
      else
        n ← cc_name cl;
        if ircd_strcmp (text n) name =? 0 then Some (Some p) else find_from r st name extras
  end.

Definition do_find_class (st : class_state) (name : list Z) (extras : bool) : option (option N) :=
  find_from (connClassList st) st name extras.

Definition find_class (st : class_state) (name : list Z) : option (option N) :=
  do_find_class st name false.

(** The fields add_class() stores. *)
Definition class_settings (name : list Z) (ping confreq maxli sendq : Z) (cl : ConnectionClass) : ConnectionClass :=
  MkClass (Some (Heap name)) (default_umode cl) (propagate cl)
    (if 0 <? u32 sendq then u32 sendq else u32 (DEFAULTMAXSENDQLENGTH F))
    (s16 ping) (s16 confreq) (s16 maxli) true (ref_count cl).

(** add_class(); the name is a string of the heap that the class now owns. *)
Definition add_class (name : list Z) (ping confreq maxli sendq : Z) (st : class_state) : option class_state :=
  found ← do_find_class st name true;
  '(p, st) ←
    match found with
    | None => Some (make_class st)
    | Some p => cl ← classes st !! p; _ ← free_name cl; Some (p, st)
    end;
  Some (upd_class (class_settings name ping confreq maxli sendq) p st).

(** The lines report_classes() sends for the classes. *)
Definition class_line (cl : ConnectionClass) : Z * option (list Z) * list Z :=
  (if valid cl then 89 else 121, text <$> cc_name cl,
   [ping_freq cl; conn_freq cl; max_links cl; max_sendq cl; ref_count cl - 1]).

Definition report_classes (st : class_state) : option (list (Z * option (list Z) * list Z)) :=
  mapM (fun p => cl ← classes st !! p; Some (class_line cl)) (connClassList st).
End class.

(** ** The invariant of the list *)
Record class_ok (cl : ConnectionClass) : Prop := {
  ok_ping : - 2 ^ 15 <= ping_freq cl < 2 ^ 15;
  ok_conn : - 2 ^ 15 <= conn_freq cl < 2 ^ 15;
  ok_max : - 2 ^ 15 <= max_links cl < 2 ^ 15;
  ok_sendq : 0 <= max_sendq cl < 2 ^ 32 }.

(** The class at an address has this name. *)
Definition has_name (st : class_state) (p : N) (s : list Z) : Prop :=
  exists cl n, classes st !! p = Some cl /\ cc_name cl = Some n /\ s = text n.

Definition is_default (cl : ConnectionClass) : Prop :=
  cc_name cl = Some (Literal (lit "default")) /\ valid cl = true.

Record class_wf (st : class_state) : Prop := {
  cw_nodup : NoDup (connClassList st);
  cw_dom : forall p, p ∈ connClassList st <-> is_Some (classes st !! p);
  cw_fresh : forall p, is_Some (classes st !! p) -> (p < next_class st)%N;
  cw_head : exists h t cl, connClassList st = h :: t /\ classes st !! h = Some cl /\ is_default cl;
  cw_heap : forall p cl, p ∈ tail (connClassList st) -> classes st !! p = Some cl ->
    exists s, cc_name cl = Some (Heap s) /\ cstring s;
  cw_distinct : forall p q s s', has_name st p s -> has_name st q s' -> lower s = lower s' -> p = q;
  cw_ok : map_Forall (fun _ => class_ok) (classes st);
  cw_count : connClassAllocCount st = u32 (Z.of_nat (length (connClassList st))) }.

(** The address of the default class. *)
Definition default_class (st : class_state) : N := hd 0%N (connClassList st).

(** ** Lemmas *)
Lemma s16_range z : - 2 ^ 15 <= s16 z < 2 ^ 15.
Proof. unfold s16, u16. pose proof (Z.mod_pos_bound z (2 ^ 16)). bcase; bprop; lia. Qed.

Lemma s16_small z : - 2 ^ 15 <= z < 2 ^ 15 -> s16 z = z.
Proof. unfold s16, u16. intros. bcase; bprop; mlia. Qed.

Lemma u32_width z : 0 <= u32 z < 2 ^ 32.
Proof. unfold u32. apply Z.mod_pos_bound. lia. Qed.

Lemma u32_count_succ n : u32 (u32 (Z.of_nat n) + 1) = u32 (Z.of_nat (S n)).
Proof. unfold u32. rewrite Nat2Z.inj_succ. unfold Z.succ. by rewrite Zplus_mod_idemp_l. Qed.

Lemma u32_count_pred n : u32 (u32 (Z.of_nat (S n)) - 1) = u32 (Z.of_nat n).
Proof. unfold u32. rewrite Zminus_mod_idemp_l. f_equal. lia. Qed.

Lemma cstring_default : cstring (lit "default").
Proof. by_decide. Qed.

Lemma default_head st : class_wf st ->
  exists t cl, connClassList st = default_class st :: t /\
    classes st !! default_class st = Some cl /\ is_default cl.
Proof. intros Hw. destruct (cw_head _ Hw) as (h & t & cl & E & Hc & Hd). unfold default_class. rewrite E. by exists t, cl. Qed.

Lemma default_has_name st : class_wf st -> has_name st (default_class st) (lit "default").
Proof. intros Hw. destruct (default_head _ Hw) as (t & cl & _ & Hc & Hn & _). by exists cl, (Literal (lit "default")). Qed.

(** Every class of the list has a name, and the literal is the first one's. *)
Lemma wf_named st p cl : class_wf st -> classes st !! p = Some cl ->
  exists n, cc_name cl = Some n /\ cstring (text n) /\
    (p = default_class st \/ p <> default_class st /\ p ∈ tail (connClassList st) /\ exists s, n = Heap s).
Proof.
  intros Hw Hp. destruct (default_head _ Hw) as (t & cl0 & E & Hc & Hd).
  assert (Hin : p ∈ connClassList st) by (apply (cw_dom _ Hw); eauto).
  pose proof (cw_nodup _ Hw) as Hnd. rewrite E in Hin, Hnd. apply NoDup_cons in Hnd as [Hnd _].
  apply elem_of_cons in Hin as [Hin|Hin].
  - rewrite Hin, Hc in Hp. injection Hp as <-. destruct Hd as [Hd _].
    exists (Literal (lit "default")). split_and!; [done|apply cstring_default|by left].
  - assert (Ht : p ∈ tail (connClassList st)) by (by rewrite E).
    destruct (cw_heap _ Hw p cl Ht Hp) as (s & Hs & Hcs).
    exists (Heap s). split_and!; [done..|]. right. split_and!; [by intros ->|done|by exists s].
Qed.

Lemma upd_class_lookup f p q st :
  classes (upd_class f p st) !! q = if decide (q = p) then f <$> classes st !! q else classes st !! q.
Proof.
  cbn [upd_class classes]. destruct (decide (q = p)) as [->|Hne].
  - apply lookup_alter_eq.
  - by apply lookup_alter_ne.
Qed.

Lemma upd_class_is_Some f p q st : is_Some (classes (upd_class f p st) !! q) <-> is_Some (classes st !! q).
Proof. rewrite upd_class_lookup. case_decide; [|done]. by rewrite fmap_is_Some. Qed.

(** An update that leaves the name alone and keeps the default class valid. *)
Record mild (st : class_state) (p : N) (f : ConnectionClass -> ConnectionClass) : Prop := {
  mild_name : forall cl, cc_name (f cl) = cc_name cl;
  mild_valid : p = default_class st -> forall cl, valid cl = true -> valid (f cl) = true;
  mild_ok : forall cl, class_ok cl -> class_ok (f cl) }.

Lemma has_name_mild st p f q s : (forall cl, cc_name (f cl) = cc_name cl) ->
  has_name (upd_class f p st) q s <-> has_name st q s.
Proof.
  intros Hf. unfold has_name. setoid_rewrite upd_class_lookup. destruct (decide (q = p)) as [->|]; [|done]. split.
  - intros (cl & n & Hc & Hn & ->). destruct (classes st !! p) as [cl'|]; [|done]. injection Hc as <-.
    exists cl', n. by rewrite <- Hf.
  - intros (cl & n & -> & Hn & ->). exists (f cl), n. by rewrite Hf.
Qed.

Lemma wf_upd_mild st p f : class_wf st -> mild st p f -> class_wf (upd_class f p st).
Proof.
  intros Hw [Hn Hv Hk]. split; try exact (cw_nodup _ Hw); try exact (cw_count _ Hw).
  - intros q. rewrite upd_class_is_Some. exact (cw_dom _ Hw q).
  - intros q. rewrite upd_class_is_Some. exact (cw_fresh _ Hw q).
  - destruct (default_head _ Hw) as (t & cl & E & Hc & Hd1 & Hd2).
    exists (default_class st), t. setoid_rewrite upd_class_lookup. destruct (decide (default_class st = p)) as [Hp|Hp].
    + exists (f cl). rewrite Hc. split_and!; [exact E|done|]. split; [by rewrite Hn|by apply Hv].
    + exists cl. by split_and!.
  - intros q cl Hq. rewrite upd_class_lookup. case_decide as Hqp.
    + intros (cl' & Hc & ->)%fmap_Some. rewrite Hn. by apply (cw_heap _ Hw q).
    + by apply (cw_heap _ Hw q).
  - intros q r s s' Hq Hr. rewrite has_name_mild in Hq, Hr by done. by apply (cw_distinct _ Hw).
  - intros q cl. rewrite upd_class_lookup. case_decide as Hqp.
    + intros (cl' & Hc & ->)%fmap_Some. apply Hk. exact (cw_ok _ Hw q cl' Hc).
    + intros Hc. exact (cw_ok _ Hw q cl Hc).
Qed.

Lemma mild_ref st p n : mild st p (set_ref_count n).
Proof. split; try done. intros cl [? ? ? ?]. by split. Qed.

Lemma mild_privs st p u b : mild st p (set_privs u b).
Proof. split; try done. intros cl [? ? ? ?]. by split. Qed.

Lemma mild_mark st p : p <> default_class st -> mild st p (set_valid false).
Proof. split; try done. intros cl [? ? ? ?]. by split. Qed.

(** ** do_find_class() *)
Definition matching (st : class_state) (name : list Z) (extras : bool) (p : N) : Prop :=
  exists cl n, classes st !! p = Some cl /\ cc_name cl = Some n /\ lower (text n) = lower name /\
    (valid cl || extras = true).

Lemma find_from_spec st name extras l :
  cstring name ->
  (forall p, p ∈ l -> exists cl n, classes st !! p = Some cl /\ cc_name cl = Some n /\ cstring (text n)) ->
  exists r, find_from l st name extras = Some r /\
    match r with
    | Some p => p ∈ l /\ matching st name extras p
    | None => forall p, p ∈ l -> ~ matching st name extras p
    end.
Proof.
  intros Hs. induction l as [|p l IH]; intros Hl; cbn [find_from].
  { exists None. split; [done|]. intros p Hp. by apply not_elem_of_nil in Hp. }
  destruct (Hl p ltac:(left)) as (cl & n & Hc & Hn & Hcs). rewrite Hc. cbn [mbind option_bind].
  destruct (IH ltac:(intros q Hq; apply Hl; by right)) as (r & Hr & Hspec).
  assert (Hskip : ~ matching st name extras p ->
    exists r, find_from l st name extras = Some r /\
    match r with
    | Some q => q ∈ p :: l /\ matching st name extras q
    | None => forall q, q ∈ p :: l -> ~ matching st name extras q
    end).
  { intros Hno. exists r. split; [done|]. destruct r as [q|].
    - destruct Hspec. split; [by right|done].
    - intros q [->|Hq]%elem_of_cons; [done|by apply Hspec]. }
  destruct (negb (valid cl) && negb extras) eqn:Ev.
  - apply Hskip. intros (cl' & n' & Hc' & Hn' & _ & Hv). rewrite Hc in Hc'. injection Hc' as <-.
    destruct (valid cl), extras; done.
  - rewrite Hn. cbn [mbind option_bind]. destruct (ircd_strcmp (text n) name =? 0) eqn:Ec; bprop.
    + apply strcmp_0 in Ec; [|done..]. exists (Some p). split; [done|]. split; [left|].
      exists cl, n. split_and!; try done. by destruct (valid cl), extras.
    + apply Hskip. intros (cl' & n' & Hc' & Hn' & Hl' & _). rewrite Hc in Hc'. injection Hc' as <-.
      rewrite Hn in Hn'. injection Hn' as <-. apply Ec. by apply strcmp_0.
Qed.

Lemma do_find_class_spec st name extras :
  class_wf st -> cstring name ->
  exists r, do_find_class st name extras = Some r /\ forall p, r = Some p <-> matching st name extras p.
Proof.
  intros Hw Hs. destruct (find_from_spec st name extras (connClassList st) Hs) as (r & Hr & Hspec).
  { intros p Hp. apply (cw_dom _ Hw) in Hp as [cl Hc]. destruct (wf_named _ _ _ Hw Hc) as (n & Hn & Hcs & _).
    by exists cl, n. }
  exists r. split; [done|]. intros p. destruct r as [q|].
  - destruct Hspec as [Hq Hm]. split; [by intros [= <-]|]. intros Hp. f_equal.
    destruct Hm as (cl & n & Hc & Hn & Hl & _), Hp as (cl' & n' & Hc' & Hn' & Hl' & _).
    apply (cw_distinct _ Hw q p (text n) (text n')); [by exists cl, n|by exists cl', n'|congruence].
  - split; [done|]. intros Hp. exfalso. apply (Hspec p); [|done].
    destruct Hp as (cl & n & Hc & _). apply (cw_dom _ Hw). by exists cl.
Qed.

(** ** add_class() *)

(** A named class stored at an address behind the first one. *)
Lemma wf_put st st' p cl s :
  class_wf st -> p <> default_class st -> classes st' = <[p := cl]> (classes st) ->
  cc_name cl = Some (Heap s) -> cstring s -> class_ok cl ->
  (forall q s', has_name st q s' -> lower s' = lower s -> q = p) ->
  NoDup (connClassList st') -> default_class st' = default_class st -> connClassList st' <> [] ->
  (forall q, q ∈ connClassList st' <-> q = p \/ q ∈ connClassList st) ->
  (next_class st <= next_class st')%N -> (p < next_class st')%N ->
  connClassAllocCount st' = u32 (Z.of_nat (length (connClassList st'))) ->
  class_wf st'.
Proof.
  intros Hw Hp Hc Hn Hs Hk Hu Hnd Hd Hne Hin Hle Hlt Hcount.
  assert (Hlook : forall q, classes st' !! q = if decide (q = p) then Some cl else classes st !! q).
  { intros q. rewrite Hc. case_decide; [subst; apply lookup_insert_eq|by apply lookup_insert_ne]. }
  assert (Hname : forall q s', has_name st' q s' -> q = p /\ s' = s \/ q <> p /\ has_name st q s').
  { intros q s' (cl' & n & Hq & Hn' & ->). rewrite Hlook in Hq. case_decide as E; [|right; split; [done|by exists cl', n]].
    injection Hq as <-. rewrite Hn in Hn'. injection Hn' as <-. by left. }
  destruct (default_head _ Hw) as (t & cl0 & E & Hc0 & Hd0). split; [done| | | | | |  |done].
  - intros q. rewrite Hin, Hlook, (cw_dom _ Hw). case_decide; naive_solver.
  - intros q. rewrite Hlook. case_decide; [by subst|]. intros Hq%(cw_fresh _ Hw). lia.
  - destruct (connClassList st') as [|h t'] eqn:El; [done|]. exists h, t', cl0. split_and!; [done| |done].
    unfold default_class in Hd at 1. rewrite El in Hd. cbn in Hd. subst h. rewrite Hlook. by rewrite decide_False.
  - intros q cl' Hq Hq'. rewrite Hlook in Hq'. case_decide as Eq; [injection Hq' as <-; by exists s|].
    apply (cw_heap _ Hw q); [|done]. destruct (connClassList st') as [|h t'] eqn:El; [done|].
    unfold default_class in Hd at 1. rewrite El in Hd. cbn in Hd, Hq. apply NoDup_cons in Hnd as [Hh _].
    rewrite E. cbn. assert (Hq2 : q ∈ connClassList st).
    { destruct (proj1 (Hin q)) as [?|?]; [by right|done..]. }
    rewrite E in Hq2. apply elem_of_cons in Hq2 as [->|?]; [|done]. by rewrite <- Hd in Hq.
  - intros q r s1 s2 Hq Hr Hl. apply Hname in Hq as [[-> ->]|[? Hq]], Hr as [[-> ->]|[? Hr]]; [done| | |].
    + symmetry. by apply (Hu r s2).
    + by apply (Hu q s1).
    + by apply (cw_distinct _ Hw q r s1 s2).
  - rewrite Hc. apply map_Forall_insert_2; [done|]. exact (cw_ok _ Hw).
Qed.

Lemma class_settings_ok F name ping confreq maxli sendq cl :
  class_ok (class_settings F name ping confreq maxli sendq cl).
Proof.
  split; cbn; try apply s16_range. pose proof (u32_width sendq). pose proof (u32_width (DEFAULTMAXSENDQLENGTH F)).
  case_match; lia.
Qed.

Lemma alter_insert_class f p st cl :
  classes st !! p = Some cl -> classes (upd_class f p st) = <[p := f cl]> (classes st).
Proof.
  intros Hp. apply map_eq. intros q. rewrite upd_class_lookup. case_decide as E.
  - subst q. by rewrite lookup_insert_eq, Hp.
  - by rewrite lookup_insert_ne.
Qed.

(** The class add_class() gives its settings to. *)
Inductive add_target (st : class_state) (name : list Z) (p : N) (cl : ConnectionClass) : Prop :=
  | Target_old (s : list Z) (Hc : classes st !! p = Some cl) (Hn : cc_name cl = Some (Heap s))
      (Hl : lower s = lower name)
  | Target_new (Hf : p = next_class st) (Hc : cl = fresh_class)
      (Hn : forall q s, has_name st q s -> lower s <> lower name).

Lemma add_class_spec F name ping confreq maxli sendq st :
  class_wf st -> cstring name -> lower name <> lower (lit "default") ->
  exists p cl st', add_class F name ping confreq maxli sendq st = Some st' /\ class_wf st' /\
    add_target st name p cl /\ p <> default_class st /\ default_class st' = default_class st /\
    classes st' = <[p := class_settings F name ping confreq maxli sendq cl]> (classes st).
Proof.
  intros Hw Hs Hnd. unfold add_class. destruct (do_find_class_spec st name true Hw Hs) as (r & -> & Hr).
  cbn [mbind option_bind]. set (f := class_settings F name ping confreq maxli sendq).
  destruct (default_head _ Hw) as (t & cl0 & E & Hc0 & Hd0). destruct r as [p|].
  - destruct (proj1 (Hr p) eq_refl) as (cl & n & Hc & Hn & Hl & _).
    destruct (wf_named _ _ _ Hw Hc) as (n' & Hn' & Hcs & Hcase). rewrite Hn in Hn'. injection Hn' as <-.
    assert (Hp : p <> default_class st).
    { intros ->. rewrite Hc in Hc0. injection Hc0 as ->. destruct Hd0 as [Hd0 _]. rewrite Hn in Hd0.
      injection Hd0 as ->. by rewrite <- Hl in Hnd. }
    destruct Hcase as [?|(_ & Hin & s & ->)]; [done|]. rewrite Hc. cbn [mbind option_bind]. unfold free_name.
    rewrite Hn. cbn [mbind option_bind]. exists p, cl, (upd_class f p st).
    pose proof (alter_insert_class f p st cl Hc) as Hu. split_and!; try done.
    + apply (wf_put st _ p (f cl) name); try done; try exact (cw_nodup _ Hw); try exact (cw_count _ Hw).
      * apply class_settings_ok.
      * intros q s' Hq Hl'. apply (cw_distinct _ Hw q p s' s); [done|by exists cl, (Heap s)|]. change (text (Heap s)) with s in Hl. congruence.
      * cbn. by rewrite E.
      * intros q. cbn. split; [by right|]. intros [->|?]; [|done]. apply (cw_dom _ Hw). by exists cl.
      * apply (cw_fresh _ Hw). by exists cl.
    + by apply (Target_old _ _ _ _ s).
  - assert (Hfree : classes st !! next_class st = None).
    { apply eq_None_not_Some. intros Hs'%(cw_fresh _ Hw). lia. }
    assert (Hp : next_class st <> default_class st) by (intros Ep; rewrite Ep, Hc0 in Hfree; done).
    assert (Hnew : forall q s, has_name st q s -> lower s <> lower name).
    { intros q s (cl & n & Hc & Hn & ->) Hl. assert (None = Some q); [|done]. apply Hr.
      exists cl, n. split_and!; try done. apply orb_true_r. }
    exists (next_class st), fresh_class, (upd_class f (next_class st) (snd (make_class st))).
    assert (Hu : classes (upd_class f (next_class st) (snd (make_class st))) = <[next_class st := f fresh_class]> (classes st)).
    { cbn [upd_class make_class snd classes]. rewrite alter_insert. by rewrite decide_True. }
    split_and!; [done| |by apply Target_new|done| |done]; cycle 1.
    { unfold default_class. cbn. by rewrite E. }
    assert (Hni : ~ next_class st ∈ connClassList st) by (rewrite (cw_dom _ Hw), Hfree; by intros [? ?]).
    apply (wf_put st _ (next_class st) (f fresh_class) name); try done.
    + apply class_settings_ok.
    + intros q s Hq Hl. by destruct (Hnew q s Hq).
    + cbn. pose proof (cw_nodup _ Hw) as Hnd'. rewrite E in Hnd', Hni |- *. apply NoDup_cons in Hnd' as [? ?].
      rewrite !NoDup_cons. set_solver.
    + unfold default_class. cbn. by rewrite E.
    + cbn. by rewrite E.
    + intros q. cbn. rewrite E. set_solver.
    + cbn. lia.
    + cbn. lia.
    + cbn. rewrite (cw_count _ Hw), u32_count_succ. by rewrite E.
Qed.

(** ** class_mark_delete() and class_delete_marked() *)
Definition marked (st : class_state) (p : N) (cl : ConnectionClass) : ConnectionClass :=
  if decide (p = default_class st) then cl else set_valid false cl.

Lemma mark_loop l st :
  class_wf st -> (forall p, p ∈ l -> p <> default_class st) ->
  let st' := foldl (fun st p => upd_class (set_valid false) p st) st l in
  class_wf st' /\ connClassList st' = connClassList st /\ next_class st' = next_class st /\
  forall q, classes st' !! q = if decide (q ∈ l) then set_valid false <$> classes st !! q else classes st !! q.
Proof.
  revert st. induction l as [|p l IH]; intros st Hw Hl; cbn [foldl].
  { split_and!; try done. }
  destruct (IH (upd_class (set_valid false) p st)) as (Hw' & El & En & Hc).
  { apply wf_upd_mild; [done|]. apply mild_mark. apply Hl. left. }
  { intros q Hq. apply (Hl q). by right. }
  split_and!; [done..|]. intros q. rewrite Hc, upd_class_lookup.
  repeat case_decide; try set_solver; try done.
  by destruct (classes st !! q).
Qed.

Lemma class_mark_spec st :
  class_wf st ->
  exists st', class_mark_delete st = Some st' /\ class_wf st' /\ connClassList st' = connClassList st /\
    next_class st' = next_class st /\
    forall p, classes st' !! p = marked st p <$> classes st !! p.
Proof.
  intros Hw. destruct (default_head _ Hw) as (t & cl & E & Hc & _). unfold class_mark_delete. rewrite E.
  pose proof (cw_nodup _ Hw) as Hnd. rewrite E in Hnd. apply NoDup_cons in Hnd as [Hh Hnd].
  destruct (mark_loop t st Hw) as (Hw' & El & En & Hl); [by intros p Hp ->|].
  eexists. split; [done|]. split_and!; [done|by rewrite El|done|]. intros p. rewrite Hl. unfold marked.
  destruct (decide (p ∈ t)) as [Hp|Hp].
  - destruct (classes st !! p); [|done]. cbn. rewrite decide_False; [done|by intros ->].
  - destruct (classes st !! p) as [cl'|] eqn:Ec; [|done]. cbn. rewrite decide_True; [done|].
    assert (p ∈ connClassList st) by (apply (cw_dom _ Hw); eauto). rewrite E in H. set_solver.
Qed.

(** The classes that stay. *)
Definition kept (st : class_state) (p : N) : bool :=
  match classes st !! p with Some cl => keep_class cl | None => false end.

Lemma filter_all {A} (P : A -> Prop) {HP : forall x, Decision (P x)} (l : list A) :
  (forall x, x ∈ l -> P x) -> filter P l = l.
Proof.
  induction l as [|x l IH]; intros Hl; [done|]. rewrite filter_cons_True by (apply Hl; left).
  f_equal. apply IH. intros y Hy. apply Hl. by right.
Qed.

Lemma filter_none {A} (P : A -> Prop) {HP : forall x, Decision (P x)} (l : list A) :
  (forall x, x ∈ l -> ~ P x) -> filter P l = [].
Proof.
  induction l as [|x l IH]; intros Hl; [done|]. rewrite filter_cons_False by (apply Hl; left).
  apply IH. intros y Hy. apply Hl. by right.
Qed.

Lemma filter_agree {A} (P Q : A -> Prop) {HP : forall x, Decision (P x)} {HQ : forall x, Decision (Q x)} (l : list A) :
  (forall x, x ∈ l -> P x <-> Q x) -> filter P l = filter Q l.
Proof.
  induction l as [|x l IH]; intros Hl; [done|]. specialize (IH ltac:(intros y Hy; apply Hl; by right)).
  pose proof (Hl x ltac:(left)). destruct (decide (P x)).
  - rewrite !filter_cons_True by tauto. by rewrite IH.
  - rewrite !filter_cons_False by tauto. done.
Qed.

Lemma delete_loop l st n :
  NoDup l ->
  (forall p, p ∈ l -> exists cl s, classes st !! p = Some cl /\ cc_name cl = Some (Heap s)) ->
  connClassAllocCount st = u32 (Z.of_nat (n + length l)) ->
  exists st', delete_from l st = Some (filter (fun p => kept st p = true) l, st') /\
    next_class st' = next_class st /\
    connClassAllocCount st' = u32 (Z.of_nat (n + length (filter (fun p => kept st p = true) l))) /\
    forall q, classes st' !! q = if decide (q ∈ l /\ kept st q = false) then None else classes st !! q.
Proof.
  revert st n. induction l as [|p l IH]; intros st n Hnd Hl Hcount; cbn [delete_from].
  { exists st. split_and!; [done..|]. intros q. rewrite decide_False; [done|]. intros [Hq _]. by apply not_elem_of_nil in Hq. }
  apply NoDup_cons in Hnd as [Hp Hnd]. destruct (Hl p ltac:(left)) as (cl & s & Hc & Hn).
  rewrite Hc. cbn [mbind option_bind]. destruct (keep_class cl) eqn:Ek.
  - assert (Hkp : kept st p = true) by (unfold kept; by rewrite Hc).
    destruct (IH st (S n) Hnd) as (st' & Hd & En & Ecount & Hlook).
    { intros q Hq. apply Hl. by right. }
    { rewrite Hcount. do 2 f_equal. cbn. lia. }
    rewrite Hd. cbn [mbind option_bind]. exists st'. rewrite filter_cons_True by done. split_and!; [done..| |].
    + rewrite Ecount. do 2 f_equal. cbn. lia.
    + intros q. rewrite Hlook. apply decide_ext. rewrite elem_of_cons. split; [naive_solver|].
      intros [[->|?] ?]; [congruence|done].
  - assert (Hkp : kept st p = false) by (unfold kept; by rewrite Hc).
    unfold free_class. rewrite Hc. cbn [mbind option_bind]. unfold keep_class in Ek. apply orb_false_iff in Ek as [Ev _].
    rewrite Ev. unfold free_name. rewrite Hn. cbn [mbind option_bind].
    set (st1 := MkClassState _ _ _ _).
    assert (Hkeep : forall q, q ∈ l -> kept st1 q = kept st q).
    { intros q Hq. unfold kept. cbn. rewrite lookup_delete_ne; [done|by intros ->]. }
    destruct (IH st1 n Hnd) as (st' & Hd & En & Ecount & Hlook).
    { intros q Hq. cbn. rewrite lookup_delete_ne by (by intros ->). apply Hl. by right. }
    { cbn. rewrite Hcount. cbn. rewrite Nat.add_succ_r. apply u32_count_pred. }
    assert (Hfil : filter (fun q => kept st1 q = true) l = filter (fun q => kept st q = true) l).
    { apply filter_agree. intros q Hq. by rewrite Hkeep. }
    exists st'. rewrite filter_cons_False by congruence. rewrite Hd, Hfil. split_and!; [done..|by rewrite Ecount, Hfil|].
    intros q. rewrite Hlook. cbn [st1 classes]. destruct (decide (q = p)) as [->|Hne].
    + rewrite lookup_delete_eq, (decide_True (P := p ∈ p :: l /\ _)); [by case_decide|]. split; [left|done].
    + rewrite lookup_delete_ne by done. destruct (decide (q ∈ l)) as [Hq|Hq].
      * apply decide_ext. rewrite (Hkeep q Hq), elem_of_cons. naive_solver.
      * rewrite !decide_False; [done| |]; rewrite ?elem_of_cons; naive_solver.
Qed.

(** A store with some classes behind the first one gone. *)
Lemma wf_shrink st st' :
  class_wf st ->
  (forall p, classes st' !! p = classes st !! p \/ classes st' !! p = None /\ p <> default_class st) ->
  next_class st' = next_class st -> NoDup (connClassList st') -> hd_error (connClassList st') = hd_error (connClassList st) ->
  (forall p, p ∈ connClassList st' <-> is_Some (classes st' !! p)) ->
  connClassAllocCount st' = u32 (Z.of_nat (length (connClassList st'))) ->
  class_wf st'.
Proof.
  intros Hw Hc Hn Hnd Hh Hdom Hcount.
  assert (Hsub : forall p cl, classes st' !! p = Some cl -> classes st !! p = Some cl).
  { intros p cl Hp. destruct (Hc p) as [E|[E _]]; congruence. }
  assert (Hname : forall p s, has_name st' p s -> has_name st p s).
  { intros p s (cl & n & Hp & ?). exists cl, n. split; [by apply Hsub|done]. }
  destruct (default_head _ Hw) as (t & cl & E & Hd & Hdef). rewrite E in Hh.
  destruct (connClassList st') as [|h t'] eqn:El; [done|]. injection Hh as ->. split; rewrite ?El; try done.
  - intros p [cl' Hp]. rewrite Hn. apply (cw_fresh _ Hw). exists cl'. by apply Hsub.
  - exists (default_class st), t', cl. split_and!; [done| |done]. destruct (Hc (default_class st)) as [->|[_ ?]]; done.
  - intros p cl' Hp Hp'. apply Hsub in Hp'. apply (cw_heap _ Hw p); [|done]. rewrite E. cbn in *.
    assert (Hin : p ∈ connClassList st) by (apply (cw_dom _ Hw); eauto). rewrite E in Hin.
    apply elem_of_cons in Hin as [->|?]; [|done]. by apply NoDup_cons in Hnd as [? _].
  - intros p q s s' Hp Hq. apply (cw_distinct _ Hw p q s s'); by apply Hname.
  - intros p cl' Hp. exact (cw_ok _ Hw p cl' (Hsub p cl' Hp)).
Qed.

Lemma class_delete_spec st :
  class_wf st ->
  exists st', class_delete_marked st = Some st' /\ class_wf st' /\ default_class st' = default_class st /\
    next_class st' = next_class st /\
    forall p, classes st' !! p = if kept st p then classes st !! p else None.
Proof.
  intros Hw. destruct (default_head _ Hw) as (t & cl & E & Hc & Hd). unfold class_delete_marked. rewrite E, Hc.
  assert (Hk : keep_class cl = true) by (unfold keep_class; by rewrite (proj2 Hd)).
  assert (Hkd : kept st (default_class st) = true) by (unfold kept; by rewrite Hc).
  cbn [mbind option_bind]. rewrite Hk.
  pose proof (cw_nodup _ Hw) as Hnd. rewrite E in Hnd. apply NoDup_cons in Hnd as [Hh Hnd].
  destruct (delete_loop t st 1 Hnd) as (st' & Hdel & En & Ecount & Hlook).
  { intros p Hp. assert (Hin : p ∈ connClassList st) by (rewrite E; by right). apply (cw_dom _ Hw) in Hin as [cl' Hc'].
    destruct (cw_heap _ Hw p cl') as (s & ? & _); [by rewrite E|done|]. by exists cl', s. }
  { rewrite (cw_count _ Hw), E. done. }
  rewrite Hdel. cbn [mbind option_bind]. eexists. split; [done|].
  assert (Hlook' : forall p, classes st' !! p = if kept st p then classes st !! p else None).
  { intros p. rewrite Hlook. destruct (kept st p) eqn:Ek; [rewrite decide_False; [done|naive_solver]|].
    destruct (decide (p ∈ t)) as [Hp|Hp]; [by rewrite decide_True|]. rewrite decide_False by naive_solver.
    destruct (classes st !! p) as [cl'|] eqn:Ec; [|done].
    assert (Hin : p ∈ connClassList st) by (apply (cw_dom _ Hw); eauto). rewrite E in Hin.
    apply elem_of_cons in Hin as [->|?]; [congruence|done]. }
  split_and!; [|done..]. apply (wf_shrink st); cbn; try done.
  - intros p. rewrite Hlook'. destruct (kept st p) eqn:Ek; [by left|right]. split; [done|]. intros ->. congruence.
  - apply NoDup_cons. split; [|by apply NoDup_filter]. rewrite list_elem_of_filter. by intros [_ ?].
  - by rewrite E.
  - intros p. rewrite Hlook', elem_of_cons, list_elem_of_filter.
    assert (Hin : p = default_class st \/ p ∈ t <-> is_Some (classes st !! p)).
    { rewrite <- (cw_dom _ Hw), E, elem_of_cons. done. }
    unfold kept in *. destruct (classes st !! p) as [cl'|] eqn:Ec.
    + destruct (keep_class cl') eqn:Ek.
      * split; [by eexists|]. intros _. destruct (proj2 Hin) as [?|?]; [by eexists|by left|by right].
      * split; [|by intros [? ?]]. intros [->|[? _]]; [|done]. rewrite Hc in Ec. congruence.
    + split; [|by intros [? ?]]. intros [->|[? _]]; [|done]. congruence.
Qed.

(** ** init_class() *)
Lemma init_empty_wf F st :
  connClassList st = [] -> classes st = ∅ -> connClassAllocCount st = 0 -> class_wf (init_class F st).
Proof.
  intros El Ec En. unfold init_class. rewrite El. cbn [make_class].
  set (f := fun cl => MkClass _ _ _ _ _ _ _ _ _). set (p := next_class st).
  set (st1 := MkClassState _ _ _ _).
  assert (Hu : classes (upd_class f p st1) = {[p := f fresh_class]}).
  { rewrite (alter_insert_class f p st1 fresh_class); cbn [st1 classes]; rewrite Ec.
    - by rewrite insert_insert_eq.
    - by rewrite lookup_insert_eq. }
  assert (Hl : forall q cl, classes (upd_class f p st1) !! q = Some cl <-> q = p /\ cl = f fresh_class).
  { intros q cl. rewrite Hu, lookup_singleton_Some. naive_solver. }
  split; cbn [upd_class st1 connClassList next_class connClassAllocCount].
  - apply NoDup_singleton.
  - intros q. rewrite list_elem_of_singleton. unfold is_Some. setoid_rewrite Hl. naive_solver.
  - intros q [cl Hq]. apply Hl in Hq as [-> _]. unfold p. lia.
  - exists p, [], (f fresh_class). split_and!; [done|by apply Hl|done].
  - intros q cl Hq. by apply not_elem_of_nil in Hq.
  - intros q r s s' (cl & n & Hq & _) (cl' & n' & Hr & _). apply Hl in Hq as [-> _], Hr as [-> _]. done.
  - intros q cl Hq. apply Hl in Hq as [-> ->]. split; cbn; [apply s16_range..|apply u32_width].
  - by rewrite En.
Qed.

(** With a list init_class() is an update of the default class. *)
Lemma init_class_spec F st :
  class_wf st ->
  exists f, init_class F st = upd_class f (default_class st) st /\ class_wf (init_class F st) /\
    (forall cl, cc_name (f cl) = Some (Literal (lit "default")) /\ valid (f cl) = true /\
       propagate (f cl) = propagate cl /\ ref_count (f cl) = 1).
Proof.
  intros Hw. destruct (default_head _ Hw) as (t & cl & E & Hc & Hd). unfold init_class. rewrite E.
  set (f := fun cl => MkClass _ _ _ _ _ _ _ _ _). exists f.
  split_and!; [done| |done]. set (p := default_class st) in *.
  assert (Hname : forall q s, has_name (upd_class f p st) q s -> has_name st q s).
  { intros q s (cl' & n & Hq & Hn & ->). rewrite upd_class_lookup in Hq. case_decide as Eq.
    - subst q. rewrite Hc in Hq. injection Hq as <-. injection Hn as <-. exists cl, (Literal (lit "default")).
      split_and!; [done|apply Hd|done].
    - by exists cl', n. }
  split; try exact (cw_nodup _ Hw); try exact (cw_count _ Hw).
  - intros q. rewrite upd_class_is_Some. exact (cw_dom _ Hw q).
  - intros q. rewrite upd_class_is_Some. exact (cw_fresh _ Hw q).
  - exists p, t, (f cl). rewrite upd_class_lookup, decide_True, Hc by done. by split_and!.
  - intros q cl' Hq. rewrite upd_class_lookup. case_decide as Eq; [|by apply (cw_heap _ Hw)].
    subst q. cbn [upd_class connClassList] in Hq. pose proof (cw_nodup _ Hw) as Hnd. rewrite E in Hq, Hnd. by apply NoDup_cons in Hnd as [? _].
  - intros q r s s' Hq Hr. apply (cw_distinct _ Hw q r s s'); by apply Hname.
  - intros q cl'. rewrite upd_class_lookup. case_decide as Eq.
    + intros (cl2 & _ & ->)%fmap_Some. split; cbn; [apply s16_range..|apply u32_width].
    + intros Hq. exact (cw_ok _ Hw q cl' Hq).
Qed.

(** ** The classes of a configuration *)
Record class_block := MkBlock { cb_name : list Z; cb_ping : Z; cb_freq : Z; cb_max : Z; cb_sendq : Z }.

Definition block_settings (F : class_features) (b : class_block) : ConnectionClass -> ConnectionClass :=
  class_settings F (cb_name b) (cb_ping b) (cb_freq b) (cb_max b) (cb_sendq b).

Definition add_block (F : class_features) (b : class_block) (st : class_state) : option class_state :=
  add_class F (cb_name b) (cb_ping b) (cb_freq b) (cb_max b) (cb_sendq b) st.

Definition add_classes (F : class_features) (bs : list class_block) (st : class_state) : option class_state :=
  foldl (fun st b => st ← st; add_block F b st) (Some st) bs.

(** What rehash() does to the classes, the configuration read in between. *)
Definition class_rehash (F : class_features) (bs : list class_block) (st : class_state) : option class_state :=
  st ← class_mark_delete st;
  st ← add_classes F bs st;
  class_delete_marked st.

(** The last block for a name. *)
Definition last_block (bs : list class_block) (name : list Z) : option class_block :=
  foldl (fun r b => if decide (lower (cb_name b) = lower name) then Some b else r) None bs.

(** A block whose name is a string, and is not the name of the built in class. *)
Definition good_block (b : class_block) : Prop :=
  cstring (cb_name b) /\ lower (cb_name b) <> lower (lit "default").

#[export] Instance good_block_dec b : Decision (good_block b).
Proof. unfold good_block. apply _. Defined.

Lemma last_block_snoc bs b name :
  last_block (bs ++ [b]) name = if decide (lower (cb_name b) = lower name) then Some b else last_block bs name.
Proof. unfold last_block. by rewrite foldl_app. Qed.

Lemma last_block_cong bs s s' : lower s = lower s' -> last_block bs s = last_block bs s'.
Proof. intros E. unfold last_block. by rewrite E. Qed.

Lemma last_block_in bs b : b ∈ bs -> is_Some (last_block bs (cb_name b)).
Proof.
  induction bs as [|c bs IH] using rev_ind; intros Hb; [by apply not_elem_of_nil in Hb|].
  rewrite last_block_snoc. case_decide as E; [done|]. apply IH. apply elem_of_app in Hb as [?|Hb]; [done|].
  apply list_elem_of_singleton in Hb as ->. done.
Qed.

Lemma last_block_Some bs name b : last_block bs name = Some b -> b ∈ bs /\ lower (cb_name b) = lower name.
Proof.
  induction bs as [|c bs IH] using rev_ind; [done|]. rewrite last_block_snoc, elem_of_app, list_elem_of_singleton.
  case_decide; [intros [= ->]; split; [by right|done]|]. intros [? ?]%IH. split; [by left|done].
Qed.

(** The classes [st2] got from [st1] by adding blocks. *)
Record added (F : class_features) (bs : list class_block) (st1 st2 : class_state) : Prop := {
  ad_wf : class_wf st2;
  ad_default : default_class st2 = default_class st1;
  ad_head : classes st2 !! default_class st1 = classes st1 !! default_class st1;
  ad_class : forall p cl s, p <> default_class st1 -> classes st2 !! p = Some cl -> has_name st2 p s ->
    match last_block bs s with
    | Some b => exists cl0, cl = block_settings F b cl0
    | None => classes st1 !! p = Some cl
    end;
  ad_blocks : forall b, b ∈ bs -> exists p s, p <> default_class st1 /\ has_name st2 p s /\ lower s = lower (cb_name b);
  ad_old : forall p cl s, classes st1 !! p = Some cl -> has_name st1 p s ->
    exists cl' s', classes st2 !! p = Some cl' /\ has_name st2 p s' /\ ref_count cl' = ref_count cl /\ lower s' = lower s }.

Lemma add_block_added F bs b st1 st2 :
  good_block b -> added F bs st1 st2 -> exists st3, add_block F b st2 = Some st3 /\ added F (bs ++ [b]) st1 st3.
Proof.
  intros [Hs Hd] Had. destruct (add_class_spec F (cb_name b) (cb_ping b) (cb_freq b) (cb_max b) (cb_sendq b) st2
    (ad_wf _ _ _ _ Had) Hs Hd) as (p & cl & st3 & Hadd & Hw & Ht & Hp & Hdef & Hc).
  exists st3. split; [done|]. rewrite (ad_default _ _ _ _ Had) in Hp, Hdef.
  assert (Hlook : forall q, classes st3 !! q = if decide (q = p) then Some (block_settings F b cl) else classes st2 !! q).
  { intros q. rewrite Hc. case_decide; [subst; apply lookup_insert_eq|by apply lookup_insert_ne]. }
  assert (Hnp : has_name st3 p (cb_name b)).
  { exists (block_settings F b cl), (Heap (cb_name b)). by rewrite Hlook, decide_True. }
  assert (Hnq : forall q s, q <> p -> has_name st3 q s <-> has_name st2 q s).
  { intros q s Hq. unfold has_name. by setoid_rewrite Hlook; rewrite decide_False. }
  split; [done|done| | | |].
  - rewrite Hlook, decide_False by congruence. apply (ad_head _ _ _ _ Had).
  - intros q cl' s Hq Hq' Hn. rewrite last_block_snoc. rewrite Hlook in Hq'. case_decide as E.
    + subst q. injection Hq' as <-. destruct Hn as (? & ? & Hx & Hy & ->). rewrite Hlook, decide_True in Hx by done.
      injection Hx as <-. injection Hy as <-. rewrite decide_True by done. by exists cl.
    + rewrite decide_False.
      * apply (ad_class _ _ _ _ Had q cl' s); [done..|]. by apply Hnq.
      * intros Hl. apply E. by apply (cw_distinct _ Hw q p s (cb_name b)).
  - intros b' [Hb|Hb]%elem_of_app.
    + destruct (ad_blocks _ _ _ _ Had b' Hb) as (q & s & Hq & Hn & Hl). destruct (decide (q = p)) as [->|E].
      * exists p, (cb_name b). split_and!; [done..|]. destruct Ht as [s' Hc' Hn' Hl'| -> _ Hfree].
        { destruct Hn as (? & n & Hx & Hy & ->). rewrite Hc' in Hx. injection Hx as <-. rewrite Hn' in Hy. injection Hy as <-.
          cbn [text] in Hl. congruence. }
        destruct Hn as (? & n & Hx & _ & _). assert (Hlt := cw_fresh _ (ad_wf _ _ _ _ Had) _ ltac:(by eexists)). lia.
      * exists q, s. split_and!; [done|by apply Hnq|done].
    + apply list_elem_of_singleton in Hb as ->. by exists p, (cb_name b).
  - intros q cl0 s Hq Hn. destruct (ad_old _ _ _ _ Had q cl0 s Hq Hn) as (cl' & s' & Hc' & Hn' & Hr & Hl).
    destruct (decide (q = p)) as [->|E].
    + exists (block_settings F b cl), (cb_name b). rewrite Hlook, decide_True by done. split_and!; try done.
      * destruct Ht as [s2 Hc2 Hn2 Hl2| -> _ _]; [rewrite Hc2 in Hc'; by injection Hc' as ->|].
        assert (Hlt := cw_fresh _ (ad_wf _ _ _ _ Had) _ (mk_is_Some _ _ Hc')). lia.
      * destruct Ht as [s2 Hc2 Hn2 Hl2| -> _ _].
        { destruct Hn' as (? & n & Hx & Hy & ->). rewrite Hc2 in Hx. injection Hx as <-. rewrite Hn2 in Hy. injection Hy as <-.
          cbn [text] in Hl. congruence. }
        assert (Hlt := cw_fresh _ (ad_wf _ _ _ _ Had) _ (mk_is_Some _ _ Hc')). lia.
    + exists cl', s'. rewrite Hlook, decide_False by done. split_and!; [done|by apply Hnq|done..].
Qed.

Lemma add_classes_added F bs st :
  class_wf st -> Forall good_block bs -> exists st', add_classes F bs st = Some st' /\ added F bs st st'.
Proof.
  intros Hw. induction bs as [|b bs IH] using rev_ind; intros Hb.
  { exists st. split; [done|]. split; try done.
    - intros b Hb'. by apply not_elem_of_nil in Hb'.
    - intros p cl s Hp Hn. by exists cl, s. }
  apply Forall_app in Hb as [Hb1 Hb2]. apply Forall_cons in Hb2 as [Hb2 _]. destruct (IH Hb1) as (st2 & E & Had).
  destruct (add_block_added F bs b st st2 Hb2 Had) as (st3 & E3 & Had3). exists st3. split; [|done].
  unfold add_classes in *. rewrite foldl_app, E. done.
Qed.

(** What is left of the classes after the configuration is read again: the
    default class, the ones the new blocks name, and those that are in use. *)
Definition survives (bs : list class_block) (st : class_state) (p : N) (cl : ConnectionClass) (s : list Z) : Prop :=
  p = default_class st \/ is_Some (last_block bs s) \/ 1 < ref_count cl.

Definition rehash_post (F : class_features) (bs : list class_block) (st st' : class_state) : Prop :=
  class_wf st' /\
  (forall name, cstring name -> exists r, find_class st' name = Some r /\
    match last_block bs name with
    | Some b => exists p cl0, r = Some p /\ classes st' !! p = Some (block_settings F b cl0)
    | None => r = if decide (lower name = lower (lit "default")) then Some (default_class st) else None
    end) /\
  (forall p cl s, classes st !! p = Some cl -> has_name st p s ->
    (is_Some (classes st' !! p) <-> survives bs st p cl s)).

(** The three steps of the rehash, and which classes the second one leaves valid. *)
Record rehash_steps (F : class_features) (bs : list class_block) (st st1 st2 st3 : class_state) : Prop := {
  rs_marked : forall p, classes st1 !! p = marked st p <$> classes st !! p;
  rs_default : default_class st1 = default_class st;
  rs_added : added F bs st1 st2;
  rs_wf : class_wf st3;
  rs_kept : forall p, classes st3 !! p = if kept st2 p then classes st2 !! p else None;
  rs_valid : forall p cl s, p <> default_class st -> classes st2 !! p = Some cl -> has_name st2 p s ->
    match last_block bs s with
    | Some b => exists cl0, cl = block_settings F b cl0
    | None => valid cl = false
    end }.

Lemma class_rehash_steps F bs st :
  class_wf st -> Forall good_block bs ->
  exists st1 st2 st3, class_rehash F bs st = Some st3 /\ rehash_steps F bs st st1 st2 st3.
Proof.
  intros Hw Hb. unfold class_rehash. destruct (class_mark_spec st Hw) as (st1 & -> & Hw1 & El1 & En1 & Hc1).
  cbn [mbind option_bind]. destruct (add_classes_added F bs st1 Hw1 Hb) as (st2 & -> & Had).
  cbn [mbind option_bind]. destruct (class_delete_spec st2 (ad_wf _ _ _ _ Had)) as (st3 & -> & Hw3 & Ed3 & _ & Hc3).
  assert (Ed1 : default_class st1 = default_class st) by (unfold default_class; by rewrite El1).
  exists st1, st2, st3. split; [done|]. split; try done.
  intros p cl s Hp Hc Hn. pose proof (ad_class _ _ _ _ Had p cl s ltac:(by rewrite Ed1) Hc Hn) as H.
  destruct (last_block bs s); [done|]. rewrite Hc1 in H. apply fmap_Some in H as (cl' & _ & ->).
  unfold marked. by rewrite decide_False.
Qed.

Lemma rehash_find F bs st st1 st2 st3 name :
  rehash_steps F bs st st1 st2 st3 -> cstring name ->
  exists r, find_class st3 name = Some r /\
    match last_block bs name with
    | Some b => exists p cl0, r = Some p /\ classes st3 !! p = Some (block_settings F b cl0)
    | None => r = if decide (lower name = lower (lit "default")) then Some (default_class st) else None
    end.
Proof.
  intros [Hc1 Ed1 Had Hw3 Hc3 Hvalid] Hs. pose proof (ad_wf _ _ _ _ Had) as Hw2.
  destruct (do_find_class_spec st3 name false Hw3 Hs) as (r & Hr & Hspec). exists r. split; [exact Hr|].
  assert (Hstay : forall p cl n, classes st2 !! p = Some cl -> cc_name cl = Some n -> lower (text n) = lower name ->
    valid cl = true -> r = Some p /\ classes st3 !! p = Some cl).
  { intros p cl n Hc Hn Hl Hv. assert (Hc' : classes st3 !! p = Some cl).
    { rewrite Hc3. unfold kept. rewrite Hc. unfold keep_class. by rewrite Hv. }
    split; [|done]. apply Hspec. exists cl, n. split_and!; try done. by rewrite Hv. }
  destruct (last_block bs name) as [b|] eqn:Eb.
  + apply last_block_Some in Eb as Hb'. destruct Hb' as [Hin Hl].
    destruct (ad_blocks _ _ _ _ Had b Hin) as (p & s & Hp & Hn & Hls).
    pose proof Hn as (cl & n & Hc & Hn' & ->). rewrite Ed1 in Hp.
    pose proof (Hvalid p cl (text n) Hp Hc Hn) as H.
    rewrite (last_block_cong bs (text n) name) in H by congruence. rewrite Eb in H. destruct H as (cl0 & ->).
    destruct (Hstay p _ n Hc Hn') as [-> Hc']; [congruence|done|]. by exists p, cl0.
  + case_decide as Ed.
    * destruct (default_head _ Hw2) as (t & cl & _ & Hc & Hn & Hv). rewrite <- Ed1, <- (ad_default _ _ _ _ Had).
      by apply (Hstay _ cl (Literal (lit "default"))).
    * destruct r as [p|]; [|done]. exfalso. destruct (proj1 (Hspec p) eq_refl) as (cl & n & Hc & Hn & Hl & Hv).
      rewrite orb_false_r in Hv. rewrite Hc3 in Hc. destruct (kept st2 p); [|done].
      assert (Hp : p <> default_class st).
      { intros ->. rewrite <- Ed1, <- (ad_default _ _ _ _ Had) in Hc.
        destruct (default_head _ Hw2) as (t & cl' & _ & Hc' & Hn' & _). rewrite Hc in Hc'. injection Hc' as <-.
        rewrite Hn in Hn'. injection Hn' as ->. apply Ed. by rewrite <- Hl. }
      pose proof (Hvalid p cl (text n) Hp Hc ltac:(by exists cl, n)) as H.
      rewrite (last_block_cong bs (text n) name), Eb in H by done. congruence.
Qed.

Lemma rehash_survives F bs st st1 st2 st3 p cl s :
  rehash_steps F bs st st1 st2 st3 -> classes st !! p = Some cl -> has_name st p s ->
  is_Some (classes st3 !! p) <-> survives bs st p cl s.
Proof.
  intros [Hc1 Ed1 Had Hw3 Hc3 Hvalid] Hc Hn. pose proof (ad_wf _ _ _ _ Had) as Hw2.
  assert (Hn1 : has_name st1 p s).
  { destruct Hn as (x & n & Hp & Hn & ->). exists (marked st p x), n. rewrite Hc1, Hp. unfold marked. by case_decide. }
  unfold survives. rewrite Hc3.
  assert (Hc1' : classes st1 !! p = Some (marked st p cl)) by (by rewrite Hc1, Hc).
  destruct (ad_old _ _ _ _ Had p _ s Hc1' Hn1) as (cl2 & s2 & Hc2 & Hn2 & Hr2 & Hl2).
  assert (Hrc : ref_count cl2 = ref_count cl) by (rewrite Hr2; unfold marked; by case_decide).
  unfold kept. rewrite Hc2. unfold keep_class. destruct (decide (p = default_class st)) as [->|Hp].
  { assert (valid cl2 = true) as ->; [|cbn; split; [by left|by eexists]].
    rewrite <- Ed1, <- (ad_default _ _ _ _ Had) in Hc2.
    destruct (default_head _ Hw2) as (t & cl' & _ & Hx & _ & Hv). congruence. }
  pose proof (Hvalid p cl2 s2 Hp Hc2 Hn2) as H. rewrite (last_block_cong bs s2 s) in H by done.
  destruct (last_block bs s) as [b|].
  + destruct H as (cl0 & ->). cbn. split; [by right; left|by eexists].
  + rewrite H, Hrc. cbn [orb]. destruct (1 <? ref_count cl) eqn:E; bprop.
    * split; [by right; right|by eexists].
    * split; [by intros [? ?]|]. intros [?|[[? ?]|?]]; [done..|lia].
Qed.

(** ** Theorems *)

(** C24: Reading the configuration again succeeds for blocks whose names are strings
    other than "default" and leaves a well formed list: a name is then found
    exactly when the file declares it, with the settings of its last block, or
    when it is that of the built in class; and of the classes there were
    exactly the built in one, the ones the file names and the ones in use are
    kept. *)
Theorem class_rehash_refines F bs st :
  class_wf st -> Forall good_block bs ->
  exists st', class_rehash F bs st = Some st' /\ rehash_post F bs st st'.
Proof.
  intros Hw Hb. destruct (class_rehash_steps F bs st Hw Hb) as (st1 & st2 & st3 & E & Hs). exists st3. split; [done|].
  split_and!; [exact (rs_wf _ _ _ _ _ _ Hs)| |].
  - intros name Hn. by apply (rehash_find F bs st st1 st2).
  - intros p cl s Hc Hn. by apply (rehash_survives F bs st st1 st2).
Qed.

Definition sample_blocks : list class_block :=
  [MkBlock (lit "Other") 90 0 400 160000; MkBlock (lit "OPERS") 90 0 10 0; MkBlock (lit "opers") 60 0 20 0].

Lemma class_rehash_refines_witness :
  let F := {| PINGFREQUENCY := 120; CONNECTFREQUENCY := 600; MAXIMUM_LINKS := 1; DEFAULTMAXSENDQLENGTH := 40000 |} in
  let st := init_class F (MkClassState ∅ 1 [] 0) in
  Forall good_block sample_blocks /\ exists st', class_rehash F sample_blocks st = Some st' /\ rehash_post F sample_blocks st st'.
Proof.
  intros F st. split; [by_decide|]. apply (class_rehash_refines F sample_blocks st).
  - by apply init_empty_wf.
  - by_decide.
Defined.

(** A Class block called "default" frees the name of the built in class, which
    is a string literal. *)
Theorem add_class_default_literal F name ping confreq maxli sendq st :
  class_wf st -> cstring name -> lower name = lower (lit "default") ->
  add_class F name ping confreq maxli sendq st = None.
Proof.
  intros Hw Hs Hl. unfold add_class. destruct (do_find_class_spec st name true Hw Hs) as (r & -> & Hr).
  destruct (default_head _ Hw) as (t & cl & _ & Hc & Hn & _).
  assert (r = Some (default_class st)) as ->.
  { apply Hr. exists cl, (Literal (lit "default")). split_and!; try done. apply orb_true_r. }
  cbn [mbind option_bind]. rewrite Hc. cbn [mbind option_bind]. unfold free_name. by rewrite Hn.
Qed.

(** A maximum between 32768 and 65535 becomes negative, which is no limit. *)
Theorem class_maximum_wraps F name ping confreq maxli sendq cl :
  2 ^ 15 <= maxli < 2 ^ 16 -> max_links (class_settings F name ping confreq maxli sendq cl) = maxli - 2 ^ 16.
Proof. intros Hm. cbn [class_settings max_links]. unfold s16, u16. rewrite Z.mod_small by lia. by rewrite (proj2 (Z.ltb_ge _ _)) by lia. Qed.
