(* ===== verification/Conf.v ===== *)
(** * ircd/s_conf.c: configuration entries and their clients

    A struct ConfItem is the part of an I, O, o or C line that selects and
    admits connections; GlobalConfList has the lines of the configuration, a
    local connection points to the lines it is attached to, and a line counts
    those connections and points to its connection class.  The three kinds of
    objects are in stores by address and an address is never given out twice:
    reading through a pointer to freed memory, a null pointer and a failing
    assertion are [None].  Here are the entries, their clients, the searches and
    the invariant; [Rehash] reads the configuration, [ConfRun] has the process. *)
From S2P Require Import Prelude Chattr NumText IrcdString Match Bans Class.
Open Scope ircd_scope.

Definition PASSWDLEN : nat := 20.

Definition CONF_ILLEGAL : Z := 2147483648.
Definition CONF_CLIENT : Z := 2.
Definition CONF_SERVER : Z := 4.
Definition CONF_LOCOP : Z := 16.
Definition CONF_OPERATOR : Z := 32.
Definition CONF_AUTOCONNECT : Z := 64.
Definition CONF_OPS : Z := CONF_OPERATOR .| CONF_LOCOP.
Definition CONF_CLIENT_MASK : Z := CONF_CLIENT .| CONF_OPS .| CONF_SERVER.
Definition INADDR_NONE : Z := 4294967295.

(** An address is kept in host byte order. *)
Record ConfItem := MkConf {
  status : Z;
  clients : Z;
  maximum : Z;
  conn_class : option N;
  ipnum : Z;
  username : option (list Z);
  host : option (list Z);
  name : option (list Z);
  hold : Z;
  port : Z;
  bits : Z;
  conf_flags : Z;
  dns_pending : bool }.

Definition IsIllegal (cf : ConfItem) : bool := has_bits (status cf) CONF_ILLEGAL.

Definition set_status (s : Z) (cf : ConfItem) : ConfItem :=
  MkConf s (clients cf) (maximum cf) (conn_class cf) (ipnum cf) (username cf) (host cf) (name cf) (hold cf)
    (port cf) (bits cf) (conf_flags cf) (dns_pending cf).
Definition set_clients (n : Z) (cf : ConfItem) : ConfItem :=
  MkConf (status cf) n (maximum cf) (conn_class cf) (ipnum cf) (username cf) (host cf) (name cf) (hold cf)
    (port cf) (bits cf) (conf_flags cf) (dns_pending cf).
Definition set_ipnum (ip : Z) (cf : ConfItem) : ConfItem :=
  MkConf (status cf) (clients cf) (maximum cf) (conn_class cf) ip (username cf) (host cf) (name cf) (hold cf)
    (port cf) (bits cf) (conf_flags cf) (dns_pending cf).
Definition set_hold (t : Z) (cf : ConfItem) : ConfItem :=
  MkConf (status cf) (clients cf) (maximum cf) (conn_class cf) (ipnum cf) (username cf) (host cf) (name cf) t
    (port cf) (bits cf) (conf_flags cf) (dns_pending cf).
Definition set_host (h : list Z) (cf : ConfItem) : ConfItem :=
  MkConf (status cf) (clients cf) (maximum cf) (conn_class cf) (ipnum cf) (username cf) (Some h) (name cf) (hold cf)
    (port cf) (bits cf) (conf_flags cf) (dns_pending cf).
Definition set_dns_pending (b : bool) (cf : ConfItem) : ConfItem :=
  MkConf (status cf) (clients cf) (maximum cf) (conn_class cf) (ipnum cf) (username cf) (host cf) (name cf) (hold cf)
    (port cf) (bits cf) (conf_flags cf) b.

(** struct hostent: h_name and h_aliases, and h_addr_list. *)
Record hostent := MkHostent { h_names : list (list Z); h_addr_list : list Z }.

Inductive client_status :=
  STAT_CONNECTING | STAT_HANDSHAKE | STAT_ME | STAT_UNKNOWN | STAT_UNKNOWN_USER | STAT_UNKNOWN_SERVER | STAT_SERVER | STAT_USER.

#[export] Instance client_status_dec : EqDecision client_status.
Proof. solve_decision. Defined.

(** The part of a local client and its connection that is about the lines. *)
Record Client := MkClient {
  cli_confs : list N;
  con_max_sendq : Z;
  cli_status : client_status;
  cli_name : list Z;
  cli_username : list Z;
  cli_sockhost : list Z;
  cli_ip : Z;
  listener_port : Z;
  cli_dns_reply : option hostent;
  FLAG_DOID : bool }.

Definition IsUnknown (c : Client) : bool :=
  match cli_status c with STAT_UNKNOWN | STAT_UNKNOWN_USER | STAT_UNKNOWN_SERVER => true | _ => false end.

Definition set_confs (l : list N) (c : Client) : Client :=
  MkClient l (con_max_sendq c) (cli_status c) (cli_name c) (cli_username c) (cli_sockhost c) (cli_ip c)
    (listener_port c) (cli_dns_reply c) (FLAG_DOID c).
Definition set_max_sendq (n : Z) (c : Client) : Client :=
  MkClient (cli_confs c) n (cli_status c) (cli_name c) (cli_username c) (cli_sockhost c) (cli_ip c)
    (listener_port c) (cli_dns_reply c) (FLAG_DOID c).
Definition set_sockhost (h : list Z) (c : Client) : Client :=
  MkClient (cli_confs c) (con_max_sendq c) (cli_status c) (cli_name c) (cli_username c) h (cli_ip c)
    (listener_port c) (cli_dns_reply c) (FLAG_DOID c).
Definition set_doid (c : Client) : Client :=
  MkClient (cli_confs c) (con_max_sendq c) (cli_status c) (cli_name c) (cli_username c) (cli_sockhost c) (cli_ip c)
    (listener_port c) (cli_dns_reply c) true.

Record conf_state := MkState {
  features : class_features;
  class_list : class_state;
  confs : gmap N ConfItem;
  next_conf : N;
  GlobalConfList : list N;
  local_clients : gmap N Client }.

Definition with_classes (cs : class_state) (st : conf_state) : conf_state :=
  MkState (features st) cs (confs st) (next_conf st) (GlobalConfList st) (local_clients st).
Definition with_confs (m : gmap N ConfItem) (st : conf_state) : conf_state :=
  MkState (features st) (class_list st) m (next_conf st) (GlobalConfList st) (local_clients st).
Definition with_conf_list (l : list N) (st : conf_state) : conf_state :=
  MkState (features st) (class_list st) (confs st) (next_conf st) l (local_clients st).
Definition with_clients (m : gmap N Client) (st : conf_state) : conf_state :=
  MkState (features st) (class_list st) (confs st) (next_conf st) (GlobalConfList st) m.

Definition upd_client (f : Client -> Client) (cptr : N) (st : conf_state) : conf_state :=
  with_clients (alter f cptr (local_clients st)) st.
Definition upd_conf (f : ConfItem -> ConfItem) (a : N) (st : conf_state) : conf_state :=
  with_confs (alter f a (confs st)) st.

(** ** Entries *)

(** make_conf(), and the fields its callers set. *)
Definition make_conf (type : Z) (fields : ConfItem -> ConfItem) (st : conf_state) : conf_state :=
  let a := next_conf st in
  MkState (features st) (class_list st)
    (<[a := fields (MkConf type 0 0 None INADDR_NONE None None None 0 0 0 0 false)]> (confs st)) (a + 1)%N
    (a :: GlobalConfList st) (local_clients st).

Definition free_conf (a : N) (st : conf_state) : option conf_state :=
  _ ← confs st !! a; Some (with_confs (delete a (confs st)) st).

(** --ConfLinks(aconf), when the entry is counted in its class. *)
Definition drop_link (cf : ConfItem) (st : conf_state) : option conf_state :=
  match conn_class cf with
  | Some k =>
      if has_bits (status cf) CONF_CLIENT_MASK then
        cl ← classes (class_list st) !! k;
        Some (if 0 <? ref_count cl
              then with_classes (upd_class (set_ref_count (ref_count cl - 1)) k (class_list st)) st else st)
      else Some st
  | None => Some st
  end.

(** detach_conf(): the first link to the entry goes. *)
Definition detach_conf (cptr a : N) (st : conf_state) : option conf_state :=
  c ← local_clients st !! cptr;
  cf ← confs st !! a;
  if clients cf <=? 0 then None
  else match unlink_first a (cli_confs c) with
  | None => Some st
  | Some l =>
      st ← drop_link cf st;
      st ← if (clients cf - 1 =? 0) && IsIllegal cf then free_conf a (upd_conf (set_clients 0) a st)
           else Some (upd_conf (set_clients (clients cf - 1)) a st);
      Some (upd_client (set_confs l) cptr st)
  end.

(** The loop of det_confs_butmask(): the next link is read before the entry is
    detached, and a client has one link to an entry. *)
Fixpoint det_loop (cptr : N) (mask : Z) (l : list N) (st : conf_state) : option conf_state :=
  match l with
  | [] => Some st
  | a :: r =>
      cf ← confs st !! a;
      if has_bits (status cf) mask then det_loop cptr mask r st
      else st ← detach_conf cptr a st; det_loop cptr mask r st
  end.

Definition det_confs_butmask (cptr : N) (mask : Z) (st : conf_state) : option conf_state :=
  c ← local_clients st !! cptr; det_loop cptr mask (cli_confs c) st.

(** ** Attaching *)
Inductive AuthorizationCheckResult :=
  ACR_OK | ACR_NO_AUTHORIZATION | ACR_TOO_MANY_IN_CLASS | ACR_TOO_MANY_FROM_IP | ACR_ALREADY_AUTHORIZED.

#[export] Instance acr_dec : EqDecision AuthorizationCheckResult.
Proof. solve_decision. Defined.

Definition is_attached (a : N) (c : Client) : bool := bool_decide (a ∈ cli_confs c).

(** ConfLinks(aconf) >= ConfMaxLinks(aconf) && ConfMaxLinks(aconf) > 0, for the
    kinds of entries that are limited. *)
Definition class_full (cf : ConfItem) (st : conf_state) : option bool :=
  if has_bits (status cf) (CONF_LOCOP .| CONF_OPERATOR .| CONF_CLIENT) then
    k ← conn_class cf;
    cl ← classes (class_list st) !! k;
    Some ((max_links cl <=? ref_count cl) && (0 <? max_links cl))
  else Some false.

(** ConfLinks(aconf)++ *)
Definition add_link (cf : ConfItem) (st : conf_state) : option conf_state :=
  if has_bits (status cf) CONF_CLIENT_MASK then
    k ← conn_class cf;
    cl ← classes (class_list st) !! k;
    Some (with_classes (upd_class (set_ref_count (ref_count cl + 1)) k (class_list st)) st)
  else Some st.

Definition attach_conf (cptr a : N) (st : conf_state) : option (AuthorizationCheckResult * conf_state) :=
  c ← local_clients st !! cptr;
  if is_attached a c then Some (ACR_ALREADY_AUTHORIZED, st)
  else
    cf ← confs st !! a;
    if IsIllegal cf then Some (ACR_NO_AUTHORIZATION, st)
    else
      full ← class_full cf st;
      if (full : bool) then Some (ACR_TOO_MANY_IN_CLASS, st)
      else
        st ← add_link cf (upd_conf (set_clients (clients cf + 1)) a
                            (upd_client (set_confs (a :: cli_confs c)) cptr st));
        Some (ACR_OK, st).

(** match() or ircd_strcmp() accept the name. *)
Definition match_or_same (mask text : list Z) : option bool :=
  m ← matches mask text; Some (m || (ircd_strcmp mask text =? 0)).

(** The loops of attach_confs_byname() and attach_confs_byhost(), by the field
    that is compared. *)
Fixpoint attach_loop (field : ConfItem -> option (list Z)) (cptr : N) (text : list Z) (statmask : Z)
    (l : list N) (first : option N) (st : conf_state) : option (option N * conf_state) :=
  match l with
  | [] => Some (first, st)
  | a :: r =>
      cf ← confs st !! a;
      if has_bits (status cf) statmask && negb (IsIllegal cf) then
        f ← field cf;
        m ← match_or_same f text;
        if (m : bool) then
          '(res, st) ← attach_conf cptr a st;
          attach_loop field cptr text statmask r
            (match first with None => if decide (res = ACR_OK) then Some a else None | Some _ => first end) st
        else attach_loop field cptr text statmask r first st
      else attach_loop field cptr text statmask r first st
  end.

Definition attach_confs_by (field : ConfItem -> option (list Z)) (cptr : N) (text : list Z) (statmask : Z)
    (st : conf_state) : option (option N * conf_state) :=
  if (HOSTLEN <? length text)%nat then Some (None, st)
  else attach_loop field cptr text statmask (GlobalConfList st) None st.

Definition attach_confs_byname := attach_confs_by name.
Definition attach_confs_byhost := attach_confs_by host.

(** ** Searches *)

(** The first entry of a list that passes a test. *)
Fixpoint first_conf (test : ConfItem -> option bool) (l : list N) (st : conf_state) : option (option N) :=
  match l with
  | [] => Some None
  | a :: r =>
      cf ← confs st !! a;
      ok ← test cf;
      if (ok : bool) then Some (Some a) else first_conf test r st
  end.

Definition test_if (b : bool) (t : option bool) : option bool := if b then t else Some false.

Definition conf_find_server (nm : list Z) (st : conf_state) : option (option N) :=
  first_conf (fun cf => test_if (status cf =? CONF_SERVER) (n ← name cf; matches nm n)) (GlobalConfList st) st.

(** The limit find_conf_exact() puts on the clients of an O line. *)
Definition oper_limit (cf : ConfItem) (st : conf_state) : option bool :=
  if has_bits (status cf) CONF_OPS then
    k ← conn_class cf;
    cl ← classes (class_list st) !! k;
    Some ((0 <? max_links cl) && (max_links cl <=? clients cf))
  else Some false.

(** The user@host text, cut to its buffer. *)
Definition userhost (user : option (list Z)) (h : list Z) : list Z :=
  take (USERLEN + HOSTLEN + 2) (match user with Some u => u ++ lit "@" ++ h | None => h end).

Definition exact_test (nm uh : list Z) (statmask : Z) (st : conf_state) (cf : ConfItem) : option bool :=
  match name cf, host cf with
  | Some n, Some h =>
      test_if (has_bits (status cf) statmask && (ircd_strcmp n nm =? 0))
        (m ← matches h uh;
         test_if m (full ← oper_limit cf st; Some (negb full)))
  | _, _ => Some false
  end.

Definition find_conf_exact (nm : list Z) (user : option (list Z)) (h : list Z) (statmask : Z) (st : conf_state)
  : option (option N) :=
  first_conf (exact_test nm (userhost user h) statmask st) (GlobalConfList st) st.

Definition byname_test (nm : list Z) (statmask : Z) (cf : ConfItem) : option bool :=
  test_if (has_bits (status cf) statmask)
    (n ← name cf; if ircd_strcmp n nm =? 0 then Some true else matches n nm).

Definition byhost_test (h : list Z) (statmask : Z) (cf : ConfItem) : option bool :=
  test_if (has_bits (status cf) statmask) (h' ← host cf; matches h' h).

Definition find_conf_byname (lp : list N) (nm : list Z) (statmask : Z) (st : conf_state) : option (option N) :=
  if (HOSTLEN <? length nm)%nat then Some None else first_conf (byname_test nm statmask) lp st.

Definition find_conf_byhost (lp : list N) (h : list Z) (statmask : Z) (st : conf_state) : option (option N) :=
  if (HOSTLEN <? length h)%nat then Some None else first_conf (byhost_test h statmask) lp st.

Definition find_conf_byip (lp : list N) (ip : Z) (statmask : Z) (st : conf_state) : option (option N) :=
  first_conf (fun cf => Some (has_bits (status cf) statmask && (ipnum cf =? ip))) lp st.

(** ** I lines *)

(** The IP check's view of a client: whether FEAT_IPCHECK applies to it
    (find_eline() exempts it otherwise) and IPcheck_nr(). *)
Record ip_check := MkIpCheck { ipcheck_applies : bool; IPcheck_nr : Z }.

(** The loop over the names of the host: an entry is passed over as soon as one
    of them does not match. *)
Fixpoint names_match (mask : list Z) (names : list (list Z)) : option bool :=
  match names with
  | [] => Some true
  | h :: r => m ← matches mask (take HOSTLEN h); if (m : bool) then names_match mask r else Some false
  end.

(** Shifting by a negative amount is undefined. *)
Definition ip_match (cf : ConfItem) (ip : Z) : option bool :=
  if bits cf <? 0 then Some true
  else if 32 <? bits cf then None
  else Some (ip .& NETMASK (bits cf) =? ipnum cf).

Definition iline_test (c : Client) (cf : ConfItem) : option bool :=
  test_if ((status cf =? CONF_CLIENT) && ((port cf =? 0) || (port cf =? listener_port c)))
    (u ← match username cf with Some u => matches u (cli_username c) | None => Some true end;
     test_if u
       (h ← match cli_dns_reply c, host cf with Some hp, Some h => names_match h (h_names hp) | _, _ => Some true end;
        test_if h (ip_match cf (cli_ip c)))).

Definition attach_iline (cptr : N) (chk : ip_check) (st : conf_state)
  : option (AuthorizationCheckResult * conf_state) :=
  c ← local_clients st !! cptr;
  found ← first_conf (iline_test c) (GlobalConfList st) st;
  match found with
  | None => Some (ACR_NO_AUTHORIZATION, st)
  | Some a =>
      cf ← confs st !! a;
      if ipcheck_applies chk && (maximum cf <? IPcheck_nr chk) then Some (ACR_TOO_MANY_FROM_IP, st)
      else attach_conf cptr a (match username cf with Some _ => upd_client set_doid cptr st | None => st end)
  end.

Definition conf_check_client := attach_iline.

(** ** C lines *)

(** The C line under one of the names of the host, and the name. *)
Fixpoint conf_by_names (lp : list N) (names : list (list Z)) (st : conf_state) : option (option (N * list Z)) :=
  match names with
  | [] => Some None
  | h :: r =>
      found ← find_conf_byhost lp h CONF_SERVER st;
      match found with Some a => Some (Some (a, h)) | None => conf_by_names lp r st end
  end.

Fixpoint conf_by_addresses (lp : list N) (ips : list Z) (st : conf_state) : option (option N) :=
  match ips with
  | [] => Some None
  | ip :: r =>
      found ← find_conf_byip lp ip CONF_SERVER st;
      match found with Some a => Some (Some a) | None => conf_by_addresses lp r st end
  end.

(** The search for a connection that came in. *)
Definition conf_by_dns (cptr : N) (c : Client) (st : conf_state) : option (option N * conf_state) :=
  let lp := cli_confs c in
  '(found, st) ←
    match cli_dns_reply c with
    | Some hp =>
        found ← conf_by_names lp (h_names hp) st;
        match found with
        | Some (a, h) => Some (Some a, upd_client (set_sockhost (take HOSTLEN h)) cptr st)
        | None => found ← conf_by_addresses lp (h_addr_list hp) st; Some (found, st)
        end
    | None => found ← find_conf_byhost lp (cli_sockhost c) CONF_SERVER st; Some (found, st)
    end;
  match found with
  | Some a => Some (Some a, st)
  | None => found ← find_conf_byip lp (cli_ip c) CONF_SERVER st; Some (found, st)
  end.

(** The end of conf_check_server(): the entries are detached, and then the one
    found is attached again. *)
Definition keep_server_conf (cptr : N) (found : option N) (st : conf_state) : option (Z * conf_state) :=
  st ← det_confs_butmask cptr 0 st;
  match found with
  | None => Some (-1, st)
  | Some a =>
      '(_, st) ← attach_conf cptr a st;
      cf ← confs st !! a;
      c ← local_clients st !! cptr;
      Some (0, if ipnum cf =? INADDR_NONE then upd_conf (set_ipnum (cli_ip c)) a st else st)
  end.

Definition conf_check_server (cptr : N) (st : conf_state) : option (Z * conf_state) :=
  c ← local_clients st !! cptr;
  '(ok, st) ←
    if IsUnknown c then
      '(first, st) ← attach_confs_byname cptr (cli_name c) CONF_SERVER st;
      Some (match first with Some _ => true | None => false end, st)
    else Some (true, st);
  if negb (ok : bool) then Some (-1, st)
  else
    c ← local_clients st !! cptr;
    if decide (cli_status c = STAT_CONNECTING \/ cli_status c = STAT_HANDSHAKE) then
      found ← find_conf_byname (cli_confs c) (cli_name c) CONF_SERVER st;
      match found with
      | None => st ← det_confs_butmask cptr 0 st; Some (-1, st)
      | Some a => keep_server_conf cptr (Some a) st
      end
    else
      '(found, st) ← conf_by_dns cptr c st;
      keep_server_conf cptr found st.

(** ** What the attached entries say (class.c, client.c) *)
Definition conf_class_of (a : N) (st : conf_state) : option (option ConnectionClass) :=
  cf ← confs st !! a;
  match conn_class cf with
  | Some k => cl ← classes (class_list st) !! k; Some (Some cl)
  | None => Some None
  end.

Definition get_conf_ping (a : N) (st : conf_state) : option Z :=
  r ← conf_class_of a st; Some (match r with Some cl => ping_freq cl | None => -1 end).

(** get_conf_class(); the name pointer may be null. *)
Definition get_conf_class (a : N) (st : conf_state) : option (option (list Z)) :=
  r ← conf_class_of a st; Some (match r with Some cl => text <$> cc_name cl | None => None end).

Fixpoint client_class_loop (l : list N) (st : conf_state) : option (option (list Z)) :=
  match l with
  | [] => Some (Some (lit "(null-class)"))
  | a :: r =>
      k ← conf_class_of a st;
      match k with Some cl => Some (text <$> cc_name cl) | None => client_class_loop r st end
  end.

Definition get_client_class (cptr : N) (st : conf_state) : option (option (list Z)) :=
  c ← local_clients st !! cptr; client_class_loop (cli_confs c) st.

Fixpoint sendq_loop (l : list N) (st : conf_state) : option (option Z) :=
  match l with
  | [] => Some None
  | a :: r =>
      k ← conf_class_of a st;
      match k with
      | Some cl => match cc_name cl with Some _ => Some (Some (max_sendq cl)) | None => sendq_loop r st end
      | None => sendq_loop r st
      end
  end.

(** get_sendq(); the value is remembered in the connection. *)
Definition get_sendq (cptr : N) (st : conf_state) : option (Z * conf_state) :=
  c ← local_clients st !! cptr;
  if negb (con_max_sendq c =? 0) then Some (con_max_sendq c, st)
  else
    r ← sendq_loop (cli_confs c) st;
    Some (match r with
          | Some q => (q, upd_client (set_max_sendq q) cptr st)
          | None => (u32 (DEFAULTMAXSENDQLENGTH (features st)), st)
          end).

Fixpoint ping_loop (l : list N) (ping : Z) (st : conf_state) : option Z :=
  match l with
  | [] => Some ping
  | a :: r =>
      cf ← confs st !! a;
      if has_bits (status cf) (CONF_CLIENT .| CONF_SERVER) then
        tmp ← get_conf_ping a st;
        ping_loop r (if (0 <? tmp) && ((tmp <? ping) || (ping =? 0)) then tmp else ping) st
      else ping_loop r ping st
  end.

Definition client_get_ping (cptr : N) (st : conf_state) : option Z :=
  c ← local_clients st !! cptr;
  ping ← ping_loop (cli_confs c) 0 st;
  Some (if ping =? 0 then PINGFREQUENCY (features st) else ping).

Fixpoint umode_loop (l : list N) (st : conf_state) : option (option (list Z)) :=
  match l with
  | [] => Some None
  | a :: r =>
      cf ← confs st !! a;
      if has_bits (status cf) CONF_CLIENT then
        k ← conn_class cf;
        cl ← classes (class_list st) !! k;
        match default_umode cl with Some u => Some (Some u) | None => umode_loop r st end
      else umode_loop r st
  end.

Definition client_get_default_umode (cptr : N) (st : conf_state) : option (option (list Z)) :=
  c ← local_clients st !! cptr; umode_loop (cli_confs c) st.

(** ** Sums over a store *)
Section sums.
Context {A : Type} (f : A -> Z).

Definition msum (m : gmap N A) : Z := map_fold (fun _ x s => f x + s) 0 m.

Lemma msum_empty : msum ∅ = 0.
Proof. reflexivity. Qed.

Lemma msum_insert i x m : m !! i = None -> msum (<[i := x]> m) = f x + msum m.
Proof. intros Hi. unfold msum. apply (map_fold_insert_L (fun _ x s => f x + s)); [lia|done]. Qed.

Lemma msum_delete i x m : m !! i = Some x -> msum (delete i m) = msum m - f x.
Proof.
  intros Hi. rewrite <- (insert_delete_id m i x Hi) at 2. rewrite msum_insert; [lia|]. apply lookup_delete_eq.
Qed.

Lemma msum_alter g i x m : m !! i = Some x -> msum (alter g i m) = msum m - f x + f (g x).
Proof.
  intros Hi. assert (alter g i m = <[i := g x]> (delete i m)) as ->.
  { rewrite insert_delete_eq. apply map_eq. intros j. destruct (decide (j = i)) as [->|Hj].
    - by rewrite lookup_alter_eq, lookup_insert_eq, Hi.
    - by rewrite lookup_alter_ne, lookup_insert_ne. }
  rewrite msum_insert by apply lookup_delete_eq. rewrite (msum_delete i x) by done. lia.
Qed.

Lemma msum_0 m : (forall i x, m !! i = Some x -> f x = 0) -> msum m = 0.
Proof.
  induction m as [|i x m Hi IH] using map_ind; intros Hm; [done|]. rewrite msum_insert by done.
  rewrite (Hm i x), IH; [done| |by apply lookup_insert_eq].
  intros j y Hj. apply (Hm j). rewrite lookup_insert_ne; [done|]. intros ->. congruence.
Qed.

Lemma msum_nonneg m : (forall i x, m !! i = Some x -> 0 <= f x) -> 0 <= msum m.
Proof.
  induction m as [|i x m Hi IH] using map_ind; intros Hm; [done|]. rewrite msum_insert by done.
  pose proof (Hm i x ltac:(by apply lookup_insert_eq)). specialize (IH ltac:(intros j y Hj; apply (Hm j);
    rewrite lookup_insert_ne; [done|intros ->; congruence])). lia.
Qed.

Lemma msum_ge i x m : (forall i x, m !! i = Some x -> 0 <= f x) -> m !! i = Some x -> f x <= msum m.
Proof.
  intros Hm Hi. rewrite <- (insert_delete_id m i x Hi), msum_insert by apply lookup_delete_eq.
  pose proof (msum_nonneg (delete i m) ltac:(intros j y [_ Hj]%lookup_delete_Some; by apply (Hm j))). lia.
Qed.
End sums.

Lemma msum_ext {A} (f g : A -> Z) m : (forall i x, m !! i = Some x -> f x = g x) -> msum f m = msum g m.
Proof.
  induction m as [|i x m Hi IH] using map_ind; intros Hm; [done|]. rewrite !msum_insert by done.
  f_equal; [apply (Hm i); apply lookup_insert_eq|]. apply IH. intros j y Hj. apply (Hm j).
  rewrite lookup_insert_ne; [done|]. intros ->. congruence.
Qed.

(** ** The invariant *)
Definition attachments (a : N) (m : gmap N Client) : Z := msum (fun c => bool_int (is_attached a c)) m.

(** The links of class [k] that an entry stands for. *)
Definition links_of (k : N) (cf : ConfItem) : Z :=
  if bool_decide (conn_class cf = Some k) && has_bits (status cf) CONF_CLIENT_MASK then clients cf else 0.

Definition class_links (k : N) (m : gmap N ConfItem) : Z := msum (links_of k) m.

Definition conf_ok (cs : class_state) (cf : ConfItem) : Prop :=
  (exists k, conn_class cf = Some k /\ is_Some (classes cs !! k)) /\
  has_bits (status cf) CONF_CLIENT_MASK = true.

(** Everything but the list; [exact] says that the links of the default class
    are counted too. *)
Record conf_core (exact : bool) (st : conf_state) : Prop := {
  cc_class : class_wf (class_list st);
  cc_fresh : forall a, is_Some (confs st !! a) -> (a < next_conf st)%N;
  cc_conf : forall a cf, confs st !! a = Some cf -> conf_ok (class_list st) cf;
  cc_clients : forall a cf, confs st !! a = Some cf -> clients cf = attachments a (local_clients st);
  cc_attached : forall cptr c, local_clients st !! cptr = Some c ->
    NoDup (cli_confs c) /\ forall a, a ∈ cli_confs c -> is_Some (confs st !! a);
  cc_links : forall k cl, classes (class_list st) !! k = Some cl ->
    k <> default_class (class_list st) \/ exact = true -> ref_count cl = 1 + class_links k (confs st) }.

Definition valid_class (cs : class_state) (k : N) : Prop := exists cl, classes cs !! k = Some cl /\ valid cl = true.

(** An entry is in the list with a class of the configuration, or it is marked
    and in use. *)
Definition entry_ok (st : conf_state) (a : N) (cf : ConfItem) : Prop :=
  if IsIllegal cf then 0 < clients cf
  else a ∈ GlobalConfList st /\ exists k, conn_class cf = Some k /\ valid_class (class_list st) k.

(** The invariant while the configuration is read again. *)
Record conf_weak (exact : bool) (st : conf_state) : Prop := {
  cv_core : conf_core exact st;
  cv_nodup : NoDup (GlobalConfList st);
  cv_list : forall a, a ∈ GlobalConfList st -> is_Some (confs st !! a);
  cv_entry : forall a cf, confs st !! a = Some cf -> entry_ok st a cf }.

(** The invariant: a marked entry is not in the list. *)
Record conf_inv (exact : bool) (st : conf_state) : Prop := {
  ci_weak : conf_weak exact st;
  ci_marked : forall a cf, a ∈ GlobalConfList st -> confs st !! a = Some cf -> IsIllegal cf = false }.

(** ** Lemmas: one entry changes *)
Lemma is_attached_cons a b c : is_attached b (set_confs (a :: cli_confs c) c) = bool_decide (b = a) || is_attached b c.
Proof. unfold is_attached. cbn. repeat case_bool_decide; set_solver. Qed.

Lemma links_of_spec cs cf k k' : conf_ok cs cf -> conn_class cf = Some k ->
  links_of k' cf = if decide (k' = k) then clients cf else 0.
Proof.
  intros [_ Hm] Hk. unfold links_of. rewrite Hk, Hm, andb_true_r. case_decide; case_bool_decide; congruence.
Qed.

Lemma attachments_nonneg a m : 0 <= attachments a m.
Proof. apply msum_nonneg. intros i x _. unfold bool_int. by case_match. Qed.

Lemma attachments_pos a m cptr c : m !! cptr = Some c -> a ∈ cli_confs c -> 0 < attachments a m.
Proof.
  intros Hc Ha. unfold attachments.
  pose proof (msum_ge (fun c => bool_int (is_attached a c)) cptr c m) as H. cbv beta in H.
  unfold is_attached at 2 in H. rewrite (bool_decide_eq_true_2 _ Ha) in H.
  specialize (H ltac:(intros; unfold bool_int; by case_match) Hc). cbn [bool_int] in H. lia.
Qed.

Lemma attachments_0 a m : attachments a m = 0 -> forall cptr c, m !! cptr = Some c -> ~ a ∈ cli_confs c.
Proof. intros H0 cptr c Hc Ha. pose proof (attachments_pos a m cptr c Hc Ha). lia. Qed.

Lemma attachments_fresh a m : (forall cptr c, m !! cptr = Some c -> ~ a ∈ cli_confs c) -> attachments a m = 0.
Proof. intros Hm. apply msum_0. intros i c Hc. unfold is_attached. by rewrite bool_decide_eq_false_2 by eauto. Qed.

Lemma core_clients_nonneg ex st a cf : conf_core ex st -> confs st !! a = Some cf -> 0 <= clients cf.
Proof. intros Hc Ha. rewrite (cc_clients _ _ Hc a cf Ha). apply attachments_nonneg. Qed.

(** The links of a class are at least those of one of its entries. *)
Lemma class_links_ge ex st a cf k : conf_core ex st -> confs st !! a = Some cf -> conn_class cf = Some k ->
  clients cf <= class_links k (confs st).
Proof.
  intros Hc Ha Hk. pose proof (msum_ge (links_of k) a cf (confs st)) as H.
  rewrite (links_of_spec _ _ _ _ (cc_conf _ _ Hc a cf Ha) Hk), decide_True in H by done. apply H; [|done].
  intros i x Hx. unfold links_of. case_match; [|done]. by apply (core_clients_nonneg ex st i).
Qed.

Lemma class_links_nonneg ex st k : conf_core ex st -> 0 <= class_links k (confs st).
Proof.
  intros Hc. apply msum_nonneg. intros i x Hx. unfold links_of. case_match; [|done].
  by apply (core_clients_nonneg ex st i).
Qed.

(** An update of an entry that keeps what the counts are about. *)
Record quiet (f : ConfItem -> ConfItem) : Prop := {
  q_class : forall cf, conn_class (f cf) = conn_class cf;
  q_clients : forall cf, clients (f cf) = clients cf;
  q_mask : forall cf, has_bits (status (f cf)) CONF_CLIENT_MASK = has_bits (status cf) CONF_CLIENT_MASK }.

Lemma quiet_links f k cf : quiet f -> links_of k (f cf) = links_of k cf.
Proof. intros [Hk Hc Hm]. unfold links_of. by rewrite Hk, Hc, Hm. Qed.

Lemma has_bits_lor_disjoint s m k : Z.land m k = 0 -> has_bits (s .| m) k = has_bits s k.
Proof. intros Hd. unfold has_bits. by rewrite Z.land_lor_distr_l, Hd, Z.lor_0_r. Qed.

Lemma quiet_ipnum ip : quiet (set_ipnum ip).
Proof. by split. Qed.

Lemma alter_lookup_Some {A} (f : A -> A) i j (m : gmap N A) y :
  alter f i m !! j = Some y -> exists x, m !! j = Some x /\ y = if decide (j = i) then f x else x.
Proof.
  destruct (decide (j = i)) as [->|Hj].
  - rewrite lookup_alter_eq. intros (x & Hx & ->)%fmap_Some. by exists x.
  - rewrite lookup_alter_ne by done. by exists y.
Qed.

Lemma alter_is_Some {A} (f : A -> A) i j (m : gmap N A) : is_Some (alter f i m !! j) <-> is_Some (m !! j).
Proof.
  destruct (decide (j = i)) as [->|Hj]; [rewrite lookup_alter_eq; apply fmap_is_Some|by rewrite lookup_alter_ne].
Qed.

Lemma alter_absent {A} (f : A -> A) i (m : gmap N A) : m !! i = None -> alter f i m = m.
Proof.
  intros Hi. apply map_eq. intros j. destruct (decide (j = i)) as [->|Hj].
  - by rewrite lookup_alter_eq, Hi.
  - by rewrite lookup_alter_ne.
Qed.

Lemma core_quiet ex f a st : conf_core ex st -> quiet f -> conf_core ex (upd_conf f a st).
Proof.
  intros Hc Hq. split; cbn.
  - exact (cc_class _ _ Hc).
  - intros b. rewrite alter_is_Some. apply (cc_fresh _ _ Hc).
  - intros b cf (cf' & Hb & ->)%alter_lookup_Some. pose proof (cc_conf _ _ Hc b cf' Hb) as Hok.
    case_decide; [|done]. destruct Hok as [Hk Hm]. split; [by rewrite (q_class _ Hq)|by rewrite (q_mask _ Hq)].
  - intros b cf (cf' & Hb & ->)%alter_lookup_Some. rewrite <- (cc_clients _ _ Hc b cf' Hb).
    case_decide; [|done]. by rewrite (q_clients _ Hq).
  - intros cptr c Hcl. destruct (cc_attached _ _ Hc cptr c Hcl) as [Hnd Hin]. split; [done|].
    intros b Hb. apply alter_is_Some. by apply Hin.
  - intros k cl Hk Hd. rewrite (cc_links _ _ Hc k cl Hk Hd). f_equal. unfold class_links.
    destruct (confs st !! a) as [cf|] eqn:Ea.
    + rewrite (msum_alter _ _ _ cf _ Ea), quiet_links by done. lia.
    + by rewrite alter_absent.
Qed.

(** An entry without clients is freed. *)
Lemma core_free ex a cf st : conf_core ex st -> confs st !! a = Some cf -> clients cf = 0 ->
  conf_core ex (with_confs (delete a (confs st)) st).
Proof.
  intros Hc Ha H0. pose proof (cc_clients _ _ Hc a cf Ha) as Hat. rewrite H0 in Hat. symmetry in Hat. split; cbn.
  - exact (cc_class _ _ Hc).
  - intros b [x [_ Hb]%lookup_delete_Some]. apply (cc_fresh _ _ Hc). by exists x.
  - intros b x [_ Hb]%lookup_delete_Some. by apply (cc_conf _ _ Hc b).
  - intros b x [_ Hb]%lookup_delete_Some. by apply (cc_clients _ _ Hc b).
  - intros cptr c Hcl. destruct (cc_attached _ _ Hc cptr c Hcl) as [Hnd Hin]. split; [done|]. intros b Hb.
    rewrite lookup_delete_ne; [by apply Hin|]. intros ->. by apply (attachments_0 _ _ Hat cptr c).
  - intros k cl Hk Hd. rewrite (cc_links _ _ Hc k cl Hk Hd). f_equal. unfold class_links.
    rewrite (msum_delete _ a cf) by done. assert (links_of k cf = 0); [|lia]. unfold links_of. by case_match.
Qed.

(** A new entry of a class. *)
Lemma core_make ex type fields k st :
  conf_core ex st -> is_Some (classes (class_list st) !! k) -> has_bits type CONF_CLIENT_MASK = true ->
  (forall cf, conn_class (fields cf) = Some k /\ clients (fields cf) = clients cf /\ status (fields cf) = status cf) ->
  conf_core ex (make_conf type fields st).
Proof.
  intros Hc Hk Hm Hf. set (a := next_conf st). set (cf0 := MkConf type 0 0 None INADDR_NONE None None None 0 0 0 0 false).
  destruct (Hf cf0) as (Hfk & Hfc & Hfs).
  assert (Ha : confs st !! a = None).
  { apply eq_None_not_Some. intros Ha%(cc_fresh _ _ Hc). unfold a in Ha. lia. }
  split; cbn; fold a; fold cf0.
  - exact (cc_class _ _ Hc).
  - intros b [x [[<- _]|[_ Hb]]%lookup_insert_Some]; [unfold a; lia|].
    assert (b < next_conf st)%N by (apply (cc_fresh _ _ Hc); by exists x). lia.
  - intros b cf [[<- <-]|[_ Hb]]%lookup_insert_Some; [|by apply (cc_conf _ _ Hc b)].
    split; [by exists k|by rewrite Hfs].
  - intros b cf [[<- <-]|[_ Hb]]%lookup_insert_Some; [|by apply (cc_clients _ _ Hc b)].
    rewrite Hfc. symmetry. apply attachments_fresh. intros cptr c Hcl Hin.
    destruct (cc_attached _ _ Hc cptr c Hcl) as [_ H]. destruct (H a Hin) as [x Hx]. congruence.
  - intros cptr c Hcl. destruct (cc_attached _ _ Hc cptr c Hcl) as [Hnd Hin]. split; [done|]. intros b Hb.
    destruct (Hin b Hb) as [x Hx]. rewrite lookup_insert_ne; [by exists x|]. intros <-. congruence.
  - intros k' cl Hk' Hd. rewrite (cc_links _ _ Hc k' cl Hk' Hd). f_equal. unfold class_links.
    rewrite msum_insert by done. unfold links_of. rewrite Hfc. cbn [cf0 clients]. by case_match.
Qed.

(** ** Lemmas: the classes change *)
Lemma class_links_dead ex st k : conf_core ex st -> classes (class_list st) !! k = None -> class_links k (confs st) = 0.
Proof.
  intros Hc Hk. apply msum_0. intros a cf Ha. destruct (cc_conf _ _ Hc a cf Ha) as [(k' & Hk' & [cl Hcl]) Hm].
  unfold links_of. rewrite bool_decide_eq_false_2; [done|]. intros E. rewrite Hk' in E. injection E as ->. congruence.
Qed.

Lemma core_classes ex ex' cs st :
  conf_core ex st -> class_wf cs -> (ex' = true -> ex = true) ->
  default_class cs = default_class (class_list st) ->
  (forall a cf k, confs st !! a = Some cf -> conn_class cf = Some k -> is_Some (classes cs !! k)) ->
  (forall k cl, classes cs !! k = Some cl -> k <> default_class (class_list st) \/ ex' = true ->
    match classes (class_list st) !! k with Some cl0 => ref_count cl = ref_count cl0 | None => ref_count cl = 1 end) ->
  conf_core ex' (with_classes cs st).
Proof.
  intros Hc Hw Hex Hd Hlive Href. split; cbn.
  - done.
  - exact (cc_fresh _ _ Hc).
  - intros a cf Ha. destruct (cc_conf _ _ Hc a cf Ha) as [(k & Hk & _) Hm]. split; [|done]. exists k. split; [done|].
    by apply (Hlive a cf).
  - exact (cc_clients _ _ Hc).
  - exact (cc_attached _ _ Hc).
  - intros k cl Hk Hd'. rewrite Hd in Hd'. pose proof (Href k cl Hk Hd') as H.
    destruct (classes (class_list st) !! k) as [cl0|] eqn:E0.
    + rewrite H. apply (cc_links _ _ Hc k cl0 E0). naive_solver.
    + rewrite H, (class_links_dead ex st k Hc E0). done.
Qed.

Lemma conf_class_live ex st a cf k : conf_core ex st -> confs st !! a = Some cf -> conn_class cf = Some k ->
  is_Some (classes (class_list st) !! k).
Proof. intros Hc Ha Hk. destruct (cc_conf _ _ Hc a cf Ha) as [(k' & Hk' & Hl) _]. congruence. Qed.

(** Valid classes stay valid, so the entries stay well formed. *)
Lemma weak_classes ex ex' cs st :
  conf_weak ex st -> conf_core ex' (with_classes cs st) ->
  (forall k, valid_class (class_list st) k -> valid_class cs k) ->
  conf_weak ex' (with_classes cs st).
Proof.
  intros Hw Hc Hv. split; [done|exact (cv_nodup _ _ Hw)|exact (cv_list _ _ Hw)|].
  intros a cf Ha. pose proof (cv_entry _ _ Hw a cf Ha) as He. unfold entry_ok in *. case_match; [done|].
  destruct He as [Hin (k & Hk & Hvk)]. split; [done|]. exists k. split; [done|by apply Hv].
Qed.

Lemma weak_add_class ex st nm ping freq maxli sendq :
  conf_weak ex st -> cstring nm -> lower nm <> lower (lit "default") ->
  exists cs, add_class (features st) nm ping freq maxli sendq (class_list st) = Some cs /\
    conf_weak ex (with_classes cs st) /\
    exists p, find_class cs nm = Some (Some p) /\ valid_class cs p.
Proof.
  intros Hw Hs Hd. pose proof (cv_core _ _ Hw) as Hc.
  destruct (add_class_spec (features st) nm ping freq maxli sendq (class_list st) (cc_class _ _ Hc) Hs Hd)
    as (p & cl & cs & Hadd & Hwf & Ht & Hp & Hdef & Hcs).
  exists cs. split; [done|].
  assert (Hlook : forall k, classes cs !! k = if decide (k = p) then Some (class_settings (features st) nm ping freq maxli sendq cl)
    else classes (class_list st) !! k).
  { intros k. rewrite Hcs. case_decide; [subst; apply lookup_insert_eq|by apply lookup_insert_ne]. }
  assert (Hvp : valid_class cs p) by (eexists; rewrite Hlook, decide_True by done; done).
  split.
  - apply (weak_classes ex); [done| |].
    + apply (core_classes ex); try done.
      * intros a cf k Ha Hk. rewrite Hlook. case_decide; [done|]. by apply (conf_class_live ex st a cf).
      * intros k cl' Hk _. rewrite Hlook in Hk. case_decide as E.
        { subst k. injection Hk as <-. cbn. destruct Ht as [s Hx _ _| -> -> _]; [by rewrite Hx|].
          destruct (classes (class_list st) !! next_class (class_list st)) eqn:E; [|done].
          assert (H := cw_fresh _ (cc_class _ _ Hc) _ (mk_is_Some _ _ E)). lia. }
        by rewrite Hk.
    + intros k (cl' & Hk & Hv). destruct (decide (k = p)) as [->|E]; [done|]. exists cl'. by rewrite Hlook, decide_False.
  - exists p. split; [|done]. destruct (do_find_class_spec cs nm false Hwf Hs) as (r & Hr & Hspec).
    unfold find_class. rewrite Hr. f_equal. apply Hspec. eexists _, (Heap nm). rewrite Hlook, decide_True by done.
    by split_and!.
Qed.

(** Settings that leave the validity and the counter alone. *)
Lemma weak_privs ex st u b p : conf_weak ex st -> conf_weak ex (with_classes (upd_class (set_privs u b) p (class_list st)) st).
Proof.
  intros Hw. pose proof (cv_core _ _ Hw) as Hc. apply (weak_classes ex); [done| |].
  - apply (core_classes ex); try done.
    + apply wf_upd_mild; [exact (cc_class _ _ Hc)|apply mild_privs].
    + intros a cf k Ha Hk. rewrite upd_class_is_Some. by apply (conf_class_live ex st a cf).
    + intros k cl Hk _. rewrite upd_class_lookup in Hk. case_decide; [|by rewrite Hk].
      apply fmap_Some in Hk as (cl0 & -> & ->). done.
  - intros k (cl & Hk & Hv). unfold valid_class. rewrite upd_class_lookup, Hk. case_decide; cbn; eauto.
Qed.

Definition with_features (f : class_features) (st : conf_state) : conf_state :=
  MkState f (class_list st) (confs st) (next_conf st) (GlobalConfList st) (local_clients st).

(** A feature that changes resets the default class, and its counter. *)
Lemma weak_init ex f st : conf_weak ex st ->
  conf_weak false (with_features f (with_classes (init_class f (class_list st)) st)).
Proof.
  intros Hw. pose proof (cv_core _ _ Hw) as Hc.
  destruct (init_class_spec f (class_list st) (cc_class _ _ Hc)) as (g & E & Hwf & Hg).
  assert (H : conf_weak false (with_classes (init_class f (class_list st)) st)).
  { apply (weak_classes ex); [done| |].
    - apply (core_classes ex); try done.
      + by rewrite E.
      + intros a cf k Ha Hk. rewrite E, upd_class_is_Some. by apply (conf_class_live ex st a cf).
      + intros k cl Hk [Hd|?]; [|done]. rewrite E, upd_class_lookup, decide_False in Hk by done. by rewrite Hk.
    - intros k (cl & Hk & Hv). unfold valid_class. rewrite E, upd_class_lookup, Hk. case_decide; cbn; [|by eauto].
      eexists. split; [done|]. apply Hg. }
  destruct H as [[? ? ? ? ? ?] ? ? ?]. by split; [split|..].
Qed.

(** ** Lemmas: a link is made or cut *)
#[local] Arguments upd_class : simpl never.

(** The state with the links of a client changed to [l], those of an entry by
    [d], and the counter of its class set to [n]. *)
Definition relink (cptr : N) (l : list N) (a : N) (m : Z) (k : N) (n : Z) (st : conf_state) : conf_state :=
  MkState (features st) (upd_class (set_ref_count n) k (class_list st)) (alter (set_clients m) a (confs st))
    (next_conf st) (GlobalConfList st) (alter (set_confs l) cptr (local_clients st)).

Lemma relink_conf cptr l a m k n st : confs (relink cptr l a m k n st) !! a = set_clients m <$> confs st !! a.
Proof. apply lookup_alter_eq. Qed.

Lemma relink_client cptr l a m k n st :
  local_clients (relink cptr l a m k n st) !! cptr = set_confs l <$> local_clients st !! cptr.
Proof. apply lookup_alter_eq. Qed.

Lemma links_of_set_clients k n cf :
  links_of k (set_clients n cf) =
    if bool_decide (conn_class cf = Some k) && has_bits (status cf) CONF_CLIENT_MASK then n else 0.
Proof. reflexivity. Qed.

Lemma core_relink ex st cptr c a cf k cl d l n :
  conf_core ex st -> local_clients st !! cptr = Some c -> confs st !! a = Some cf ->
  conn_class cf = Some k -> classes (class_list st) !! k = Some cl ->
  (forall b, bool_int (bool_decide (b ∈ l)) = bool_int (is_attached b c) + if decide (b = a) then d else 0) ->
  NoDup l -> (forall b, b ∈ l -> b = a \/ b ∈ cli_confs c) ->
  (k <> default_class (class_list st) \/ ex = true -> n = ref_count cl + d) ->
  conf_core ex (relink cptr l a (clients cf + d) k n st).
Proof.
  intros Hc Hcl Ha Hk Hcls Hl Hnd Hin Hn.
  assert (Hatt : forall b, attachments b (alter (set_confs l) cptr (local_clients st)) =
    attachments b (local_clients st) + if decide (b = a) then d else 0).
  { intros b. unfold attachments. rewrite (msum_alter _ _ _ c) by done. unfold is_attached at 3. cbn [set_confs cli_confs].
    rewrite Hl. lia. }
  split; cbn.
  - apply wf_upd_mild; [exact (cc_class _ _ Hc)|apply mild_ref].
  - intros b. rewrite alter_is_Some. apply (cc_fresh _ _ Hc).
  - intros b x (y & Hb & ->)%alter_lookup_Some. destruct (cc_conf _ _ Hc b y Hb) as [(k' & Hk' & Hlive) Hm].
    split; [|by case_decide]. exists k'. split; [by case_decide|by rewrite upd_class_is_Some].
  - intros b x (y & Hb & ->)%alter_lookup_Some. rewrite Hatt, <- (cc_clients _ _ Hc b y Hb).
    case_decide as E; [|lia]. subst b. rewrite Ha in Hb. injection Hb as <-. done.
  - intros cptr' x (y & Hy & ->)%alter_lookup_Some. destruct (cc_attached _ _ Hc cptr' y Hy) as [Hnd' Hin'].
    case_decide as E.
    + subst cptr'. rewrite Hcl in Hy. injection Hy as <-. cbn. split; [done|]. intros b Hb. apply alter_is_Some.
      destruct (Hin b Hb) as [->|?]; [by exists cf|by apply Hin'].
    + split; [done|]. intros b Hb. apply alter_is_Some. by apply Hin'.
  - intros k' x Hk' Hd. rewrite upd_class_lookup in Hk'.
    assert (Hlinks : class_links k' (alter (set_clients (clients cf + d)) a (confs st)) =
      class_links k' (confs st) + if decide (k' = k) then d else 0).
    { unfold class_links. rewrite (msum_alter _ _ _ cf) by done. rewrite links_of_set_clients.
      destruct (cc_conf _ _ Hc a cf Ha) as [_ Hm]. rewrite (links_of_spec (class_list st) cf k k') by (by try apply (cc_conf _ _ Hc a)).
      rewrite Hk, Hm, andb_true_r. case_decide; case_bool_decide; try congruence; lia. }
    rewrite Hlinks. case_decide as E.
    + subst k'. rewrite Hcls in Hk'. injection Hk' as <-. cbn. rewrite Hn by done.
      rewrite (cc_links _ _ Hc k cl Hcls Hd). lia.
    + rewrite (cc_links _ _ Hc k' x Hk' Hd). lia.
Qed.

(** The rest of the invariant when a link changes. *)
Lemma weak_relink ex st cptr l a m k n cf :
  conf_weak ex st -> conf_core ex (relink cptr l a m k n st) -> confs st !! a = Some cf ->
  (IsIllegal cf = true -> 0 < m) -> conf_weak ex (relink cptr l a m k n st).
Proof.
  intros Hw Hc Ha Hm. split; [done|exact (cv_nodup _ _ Hw)| |].
  - intros b Hb. cbn. apply alter_is_Some. by apply (cv_list _ _ Hw).
  - intros b x (y & Hb & ->)%alter_lookup_Some. pose proof (cv_entry _ _ Hw b y Hb) as He.
    assert (Hv : forall k', valid_class (class_list st) k' -> valid_class (upd_class (set_ref_count n) k (class_list st)) k').
    { intros k' (cl & Hk' & Hv). unfold valid_class. rewrite upd_class_lookup, Hk'. case_decide; cbn; eauto. }
    unfold entry_ok in *. case_decide as E.
    + subst b. rewrite Ha in Hb. injection Hb as <-. change (IsIllegal (set_clients m cf)) with (IsIllegal cf).
      destruct (IsIllegal cf) eqn:Ei; [by apply Hm|]. destruct He as [? (k' & ? & ?)]. split; [done|]. exists k'. eauto.
    + case_match; [done|]. destruct He as [? (k' & ? & ?)]. split; [done|]. exists k'. eauto.
Qed.

Lemma inv_relink ex st cptr l a m k n cf :
  conf_inv ex st -> conf_core ex (relink cptr l a m k n st) -> confs st !! a = Some cf ->
  (IsIllegal cf = true -> 0 < m) -> conf_inv ex (relink cptr l a m k n st).
Proof.
  intros Hi Hc Ha Hm. split; [by apply (weak_relink ex st _ _ _ _ _ _ cf); [apply Hi|..]|].
  intros b x Hb (y & Hx & ->)%alter_lookup_Some. pose proof (ci_marked _ _ Hi b y Hb Hx). by case_decide.
Qed.

(** The result of attach_conf(), by the conditions of the code. *)
Definition attach_outcome (c : Client) (a : N) (cf : ConfItem) (cl : ConnectionClass) : AuthorizationCheckResult :=
  if decide (a ∈ cli_confs c) then ACR_ALREADY_AUTHORIZED
  else if IsIllegal cf then ACR_NO_AUTHORIZATION
  else if has_bits (status cf) (CONF_OPS .| CONF_CLIENT) && (0 <? max_links cl) && (max_links cl <=? ref_count cl)
  then ACR_TOO_MANY_IN_CLASS else ACR_OK.

Lemma attach_inv ex st cptr c a cf :
  conf_inv ex st -> local_clients st !! cptr = Some c -> confs st !! a = Some cf ->
  exists k cl st', conn_class cf = Some k /\ classes (class_list st) !! k = Some cl /\
    attach_conf cptr a st = Some (attach_outcome c a cf cl, st') /\ conf_inv ex st' /\
    st' = if decide (attach_outcome c a cf cl = ACR_OK)
          then relink cptr (a :: cli_confs c) a (clients cf + 1) k (ref_count cl + 1) st else st.
Proof.
  intros Hi Hcl Ha. pose proof (cv_core _ _ (ci_weak _ _ Hi)) as Hc.
  destruct (cc_conf _ _ Hc a cf Ha) as [(k & Hk & [cl Hcls]) Hm]. exists k, cl.
  unfold attach_conf, attach_outcome. rewrite Hcl. cbn [mbind option_bind]. unfold is_attached.
  destruct (decide (a ∈ cli_confs c)) as [Hin|Hin].
  { exists st. rewrite bool_decide_eq_true_2 by done. by split_and!. }
  rewrite (bool_decide_eq_false_2 _ Hin), Ha. cbn [mbind option_bind].
  destruct (IsIllegal cf) eqn:Ei; [by exists st|].
  unfold class_full, add_link. rewrite Hm, Hk.
  change (CONF_LOCOP .| CONF_OPERATOR .| CONF_CLIENT) with (CONF_OPS .| CONF_CLIENT).
  cbn [mbind option_bind class_list upd_conf upd_client with_confs with_clients confs local_clients]. rewrite Hcls.
  cbn [mbind option_bind]. rewrite <- andb_assoc, (andb_comm (0 <? max_links cl)).
  set (full := has_bits (status cf) (CONF_OPS .| CONF_CLIENT) && ((max_links cl <=? ref_count cl) && (0 <? max_links cl))).
  assert (Hok : conf_inv ex (relink cptr (a :: cli_confs c) a (clients cf + 1) k (ref_count cl + 1) st)).
  { destruct (cc_attached _ _ Hc cptr c Hcl) as [Hnd Hlive]. apply (inv_relink ex st _ _ _ _ _ _ cf); try done; [|congruence].
    apply (core_relink ex st cptr c a cf k cl 1); try done; [|by apply NoDup_cons|set_solver].
    intros b. unfold is_attached. repeat case_bool_decide; case_decide; set_solver. }
  unfold full. destruct (has_bits (status cf) (CONF_OPS .| CONF_CLIENT)); cbn [mbind option_bind andb]; [|by eexists].
  destruct ((max_links cl <=? ref_count cl) && (0 <? max_links cl)); cbn [mbind option_bind]; by eexists.
Qed.

(** ** Detaching *)
Lemma upd_class_ref_id k cl cs : classes cs !! k = Some cl -> upd_class (set_ref_count (ref_count cl)) k cs = cs.
Proof.
  intros Hk. destruct cs as [m n l z]. unfold upd_class. cbn in *. f_equal. apply map_eq. intros j.
  destruct (decide (j = k)) as [->|E]; [|by rewrite lookup_alter_ne]. rewrite lookup_alter_eq, Hk. by destruct cl.
Qed.

(** The state after an entry is detached. *)
Definition detached (cptr : N) (l : list N) (a : N) (cf : ConfItem) (k : N) (cl : ConnectionClass) (st : conf_state) : conf_state :=
  let r := relink cptr l a (clients cf - 1) k (if 0 <? ref_count cl then ref_count cl - 1 else ref_count cl) st in
  if (clients cf - 1 =? 0) && IsIllegal cf then with_confs (delete a (confs r)) r else r.

Lemma detach_eq ex st cptr c a cf l k cl :
  conf_core ex st -> local_clients st !! cptr = Some c -> confs st !! a = Some cf -> a ∈ cli_confs c ->
  conn_class cf = Some k -> classes (class_list st) !! k = Some cl -> unlink_first a (cli_confs c) = Some l ->
  detach_conf cptr a st = Some (detached cptr l a cf k cl st).
Proof.
  intros Hc Hcl Ha Hin Hk Hcls Hl. unfold detach_conf. rewrite Hcl, Ha. cbn [mbind option_bind].
  pose proof (attachments_pos a _ cptr c Hcl Hin) as Hpos. rewrite <- (cc_clients _ _ Hc a cf Ha) in Hpos.
  rewrite (proj2 (Z.leb_gt _ _)) by done. rewrite Hl. unfold drop_link. rewrite Hk.
  destruct (cc_conf _ _ Hc a cf Ha) as [_ Hm]. rewrite Hm, Hcls. cbn [mbind option_bind].
  assert (E : (if 0 <? ref_count cl then with_classes (upd_class (set_ref_count (ref_count cl - 1)) k (class_list st)) st else st) =
    with_classes (upd_class (set_ref_count (if 0 <? ref_count cl then ref_count cl - 1 else ref_count cl)) k (class_list st)) st).
  { destruct (0 <? ref_count cl); [done|]. rewrite upd_class_ref_id by done. by destruct st. }
  rewrite E. unfold detached, free_conf. destruct ((clients cf - 1 =? 0) && IsIllegal cf) eqn:Ef; [|done].
  cbn [upd_conf with_confs with_classes confs]. rewrite lookup_alter_eq, Ha. cbn. do 2 f_equal.
  apply andb_true_iff in Ef as [Ef _]. bprop. by rewrite Ef.
Qed.

Lemma detach_inv ex st cptr c a :
  conf_inv ex st -> local_clients st !! cptr = Some c -> a ∈ cli_confs c ->
  exists cf l k cl, confs st !! a = Some cf /\ unlink_first a (cli_confs c) = Some l /\ conn_class cf = Some k /\
    classes (class_list st) !! k = Some cl /\
    detach_conf cptr a st = Some (detached cptr l a cf k cl st) /\ conf_inv ex (detached cptr l a cf k cl st).
Proof.
  intros Hi Hcl Hin. pose proof (ci_weak _ _ Hi) as Hw. pose proof (cv_core _ _ Hw) as Hc.
  destruct (cc_attached _ _ Hc cptr c Hcl) as [Hnd Hlive]. destruct (Hlive a Hin) as [cf Ha].
  destruct (cc_conf _ _ Hc a cf Ha) as [(k & Hk & [cl Hcls]) Hm].
  destruct (unlink_first_in a (cli_confs c) Hnd Hin) as (l & Hl & Hndl & _ & Hl').
  exists cf, l, k, cl. split_and!; [done..|by apply (detach_eq ex st cptr c)|].
  pose proof (attachments_pos a _ cptr c Hcl Hin) as Hpos. rewrite <- (cc_clients _ _ Hc a cf Ha) in Hpos.
  unfold detached. set (n := if 0 <? ref_count cl then ref_count cl - 1 else ref_count cl).
  assert (Hcr : conf_core ex (relink cptr l a (clients cf - 1) k n st)).
  { apply (core_relink ex st cptr c a cf k cl (-1)); try done.
    - intros b. unfold is_attached. repeat case_bool_decide; case_decide; set_solver.
    - set_solver.
    - intros Hd. unfold n. pose proof (cc_links _ _ Hc k cl Hcls Hd).
      pose proof (class_links_nonneg ex st k Hc). rewrite (proj2 (Z.ltb_lt _ _)) by lia. lia. }
  destruct ((clients cf - 1 =? 0) && IsIllegal cf) eqn:Ef.
  - apply andb_true_iff in Ef as [Ef Ei]. bprop.
    assert (Hnl : ~ a ∈ GlobalConfList st) by (intros Hal; by rewrite (ci_marked _ _ Hi a cf Hal Ha) in Ei).
    assert (Hra : confs (relink cptr l a (clients cf - 1) k n st) !! a = Some (set_clients (clients cf - 1) cf)).
    { cbn. by rewrite lookup_alter_eq, Ha. }
    assert (Hwr : forall b x, b <> a -> confs st !! b = Some x -> entry_ok (relink cptr l a (clients cf - 1) k n st) b x).
    { intros b x Hb Hx. pose proof (cv_entry _ _ Hw b x Hx) as He. unfold entry_ok in *. case_match; [done|].
      destruct He as [? (k' & ? & (x' & Hx' & ?))]. split; [done|]. exists k'. split; [done|].
      unfold valid_class. cbn. rewrite upd_class_lookup, Hx'. case_decide; cbn; eauto. }
    split; [split|].
    + apply (core_free ex a (set_clients (clients cf - 1) cf)); done.
    + exact (cv_nodup _ _ Hw).
    + intros b Hb. cbn. rewrite lookup_delete_ne by (by intros ->). apply alter_is_Some. by apply (cv_list _ _ Hw).
    + intros b x Hb. cbn in Hb. apply lookup_delete_Some in Hb as [Hne Hb]. rewrite lookup_alter_ne in Hb by done. by apply Hwr.
    + intros b x Hb Hx. cbn in Hx. apply lookup_delete_Some in Hx as [Hne Hx]. rewrite lookup_alter_ne in Hx by done.
      by apply (ci_marked _ _ Hi b).
  - apply (inv_relink ex st _ _ _ _ _ _ cf); try done. intros Ei. rewrite Ei, andb_true_r in Ef. bprop. lia.
Qed.

Lemma detached_confs cptr l a cf k cl st b : b <> a -> confs (detached cptr l a cf k cl st) !! b = confs st !! b.
Proof.
  intros Hb. unfold detached. case_match; cbn.
  - by rewrite lookup_delete_ne, lookup_alter_ne.
  - by rewrite lookup_alter_ne.
Qed.

Lemma detached_clients cptr l a cf k cl st :
  local_clients (detached cptr l a cf k cl st) = alter (set_confs l) cptr (local_clients st) /\
  GlobalConfList (detached cptr l a cf k cl st) = GlobalConfList st.
Proof. unfold detached. by case_match. Qed.

(** What is left of an entry that lost a client. *)
Definition dropped (cf : ConfItem) : option ConfItem :=
  if (clients cf - 1 =? 0) && IsIllegal cf then None else Some (set_clients (clients cf - 1) cf).

Lemma detached_conf cptr l a cf k cl st : confs st !! a = Some cf -> confs (detached cptr l a cf k cl st) !! a = dropped cf.
Proof.
  intros Ha. unfold detached, dropped. case_match; cbn.
  - apply lookup_delete_eq.
  - by rewrite lookup_alter_eq, Ha.
Qed.

(** The entries of [l] that det_confs_butmask() leaves. *)
Definition stays (mask : Z) (st : conf_state) (a : N) : Prop :=
  exists cf, confs st !! a = Some cf /\ has_bits (status cf) mask = true.

Lemma det_loop_inv ex cptr mask l st c :
  conf_inv ex st -> local_clients st !! cptr = Some c -> NoDup l -> (forall a, a ∈ l -> a ∈ cli_confs c) ->
  exists st' kept, det_loop cptr mask l st = Some st' /\ conf_inv ex st' /\
    local_clients st' = alter (set_confs kept) cptr (local_clients st) /\ GlobalConfList st' = GlobalConfList st /\
    (forall a, a ∈ kept <-> a ∈ cli_confs c /\ (a ∈ l -> stays mask st a)) /\
    (forall a, ~ a ∈ l \/ stays mask st a -> confs st' !! a = confs st !! a) /\
    (forall a cf, a ∈ l -> confs st !! a = Some cf -> has_bits (status cf) mask = false -> confs st' !! a = dropped cf).
Proof.
  revert st c. induction l as [|a l IH]; intros st c Hi Hcl Hnd Hin; cbn [det_loop].
  { exists st, (cli_confs c). split_and!; try done; [|set_solver|set_solver].
    apply map_eq. intros j. destruct (decide (j = cptr)) as [->|E]; [|by rewrite lookup_alter_ne].
    rewrite lookup_alter_eq, Hcl. by destruct c. }
  apply NoDup_cons in Hnd as [Ha Hnd]. pose proof (cv_core _ _ (ci_weak _ _ Hi)) as Hc.
  destruct (cc_attached _ _ Hc cptr c Hcl) as [_ Hlive]. destruct (Hlive a (Hin a ltac:(left))) as [cf Hcf].
  rewrite Hcf. cbn [mbind option_bind]. destruct (has_bits (status cf) mask) eqn:Em.
  - destruct (IH st c Hi Hcl Hnd ltac:(set_solver)) as (st' & kp & Hd & Hi' & Hl' & Hg & Hk & Hf & Hdr).
    exists st', kp. split_and!; try done.
    + intros b. rewrite Hk, elem_of_cons. split; [|naive_solver]. intros [Hb Hs]. split; [done|].
      intros [->|?]; [by exists cf|by apply Hs].
    + intros b Hb. apply Hf. set_solver.
    + intros b x [->|Hb]%elem_of_cons Hx Hxm; [congruence|by apply Hdr].
  - destruct (detach_inv ex st cptr c a Hi Hcl (Hin a ltac:(left))) as (cf' & l' & k & cl & Hcf' & Hul & Hk & Hcls & Hd & Hid).
    rewrite Hcf in Hcf'. injection Hcf' as <-. rewrite Hd. cbn [mbind option_bind].
    destruct (detached_clients cptr l' a cf k cl st) as [Elc Eg].
    destruct (unlink_first_in a (cli_confs c)) as (l2 & Hul2 & Hnd2 & _ & Hl2);
      [by apply (cc_attached _ _ Hc cptr)|apply Hin; left|]. rewrite Hul in Hul2. injection Hul2 as <-.
    assert (Hst : forall b, b <> a -> stays mask (detached cptr l' a cf k cl st) b <-> stays mask st b).
    { intros b Hb. unfold stays. by rewrite detached_confs. }
    destruct (IH (detached cptr l' a cf k cl st) (set_confs l' c)) as (st' & kp & Hd' & Hi' & Hlc & Hg & Hkp & Hf & Hdr); try done.
    { by rewrite Elc, lookup_alter_eq, Hcl. }
    { intros b Hb. cbn. apply Hl2. split; [by intros ->|]. apply Hin. by right. }
    exists st', kp. split_and!; try done.
    + rewrite Hlc, Elc. apply map_eq. intros j. destruct (decide (j = cptr)) as [->|E].
      * by rewrite !lookup_alter_eq, Hcl.
      * by rewrite !lookup_alter_ne.
    + congruence.
    + intros b. rewrite Hkp. cbn [set_confs cli_confs]. rewrite Hl2. destruct (decide (b = a)) as [->|Hb].
      * split; [naive_solver|]. intros [_ Hs]. destruct (Hs ltac:(left)) as (x & Hx & Hxm). congruence.
      * rewrite elem_of_cons. rewrite Hst by done. naive_solver.
    + intros b Hb. destruct (decide (b = a)) as [->|Hne].
      * destruct Hb as [Hb|(x & Hx & Hxm)]; [set_solver|congruence].
      * rewrite Hf; [by apply detached_confs|]. rewrite Hst by done. set_solver.
    + intros b x Hb Hx Hxm. destruct (decide (b = a)) as [->|Hne].
      * rewrite Hcf in Hx. injection Hx as <-. rewrite Hf by (by left). by apply detached_conf.
      * apply Hdr; [set_solver| |done]. by rewrite detached_confs.
Qed.

Lemma det_confs_inv ex cptr mask st c :
  conf_inv ex st -> local_clients st !! cptr = Some c ->
  exists st' kept, det_confs_butmask cptr mask st = Some st' /\ conf_inv ex st' /\
    local_clients st' = alter (set_confs kept) cptr (local_clients st) /\ GlobalConfList st' = GlobalConfList st /\
    (forall a, a ∈ kept <-> a ∈ cli_confs c /\ stays mask st a) /\
    (forall a, ~ a ∈ cli_confs c \/ stays mask st a -> confs st' !! a = confs st !! a) /\
    (forall a cf, a ∈ cli_confs c -> confs st !! a = Some cf -> has_bits (status cf) mask = false -> confs st' !! a = dropped cf).
Proof.
  intros Hi Hcl. unfold det_confs_butmask. rewrite Hcl. cbn [mbind option_bind].
  destruct (cc_attached _ _ (cv_core _ _ (ci_weak _ _ Hi)) cptr c Hcl) as [Hnd _].
  destruct (det_loop_inv ex cptr mask (cli_confs c) st c Hi Hcl Hnd) as (st' & kp & H1 & H2 & H3 & H4 & H5 & H6 & H7); [done|].
  exists st', kp. split_and!; try done. intros a. rewrite H5. naive_solver.
Qed.

(** ** Lemmas: the clients *)
Definition remove_client (cptr : N) (st : conf_state) : conf_state :=
  with_clients (delete cptr (local_clients st)) st.

Lemma inv_weaken ex st : conf_inv true st -> conf_inv ex st.
Proof.
  intros [[[? ? ? ? ? Hl] ? ? ?] ?]. split; [split; [split|..]|]; try done. intros k cl Hk Hd. apply Hl; [done|by right].
Qed.

Lemma no_confs_attached a c : cli_confs c = [] -> is_attached a c = false.
Proof. intros Hc. unfold is_attached. rewrite Hc. apply bool_decide_eq_false_2, not_elem_of_nil. Qed.

Lemma inv_connect ex cptr c st : conf_inv ex st -> local_clients st !! cptr = None -> cli_confs c = [] ->
  conf_inv ex (with_clients (<[cptr := c]> (local_clients st)) st).
Proof.
  intros [[[? ? ? Hcl Hat ?] ? ? ?] ?] Hn Hc. split; [split; [split|..]|]; try done; cbn.
  - intros a cf Ha. unfold attachments. rewrite msum_insert by done. rewrite (Hcl a cf Ha). by rewrite no_confs_attached.
  - intros j x [[_ <-]|[_ Hx]]%lookup_insert_Some; [|by apply (Hat j)]. rewrite Hc. split; [apply NoDup_nil_2|].
    intros a Ha. by apply not_elem_of_nil in Ha.
Qed.

Lemma inv_remove ex cptr c st : conf_inv ex st -> local_clients st !! cptr = Some c -> cli_confs c = [] ->
  conf_inv ex (remove_client cptr st).
Proof.
  intros [[[? ? ? Hcl Hat ?] ? ? ?] ?] Hn Hc. split; [split; [split|..]|]; try done; cbn.
  - intros a cf Ha. unfold attachments. rewrite (msum_delete _ _ c) by done. rewrite (Hcl a cf Ha), no_confs_attached by done.
    cbn [bool_int]. unfold attachments. lia.
  - intros j x [_ Hx]%lookup_delete_Some. by apply (Hat j).
Qed.

(** A change of a client that keeps its entries. *)
Lemma inv_client ex cptr f st : (forall c, cli_confs (f c) = cli_confs c) -> conf_inv ex st -> conf_inv ex (upd_client f cptr st).
Proof.
  intros Hf [[[? ? ? Hcl Hat ?] ? ? ?] ?]. split; [split; [split|..]|]; try done; cbn.
  - intros a cf Ha. rewrite (Hcl a cf Ha). unfold attachments. destruct (local_clients st !! cptr) as [c|] eqn:E.
    + rewrite (msum_alter _ _ _ c) by done. unfold is_attached. rewrite Hf. lia.
    + by rewrite alter_absent.
  - intros j x (y & Hy & ->)%alter_lookup_Some. pose proof (Hat j y Hy). case_decide; by rewrite ?Hf.
Qed.

Lemma conf_class_of_live ex st a : conf_core ex st -> is_Some (confs st !! a) ->
  exists cl, conf_class_of a st = Some (Some cl).
Proof.
  intros Hc [cf Ha]. destruct (cc_conf _ _ Hc a cf Ha) as [(k & Hk & [cl Hcl]) _]. exists cl.
  unfold conf_class_of. rewrite Ha. cbn. rewrite Hk. by rewrite Hcl.
Qed.

Lemma get_sendq_inv ex cptr c st : conf_inv ex st -> local_clients st !! cptr = Some c ->
  exists q st', get_sendq cptr st = Some (q, st') /\ conf_inv ex st'.
Proof.
  intros Hi Hcl. unfold get_sendq. rewrite Hcl. cbn [mbind option_bind]. case_match; [by eexists _, st|].
  pose proof (cv_core _ _ (ci_weak _ _ Hi)) as Hc. destruct (cc_attached _ _ Hc cptr c Hcl) as [_ Hlive].
  assert (Hl : exists r, sendq_loop (cli_confs c) st = Some r).
  { revert Hlive. generalize (cli_confs c) as l. induction l as [|a l IH]; intros Hl; [by eexists|]. cbn [sendq_loop].
    destruct (conf_class_of_live ex st a Hc (Hl a ltac:(left))) as [cl ->]. cbn [mbind option_bind].
    destruct (cc_name cl); [by eexists|]. apply IH. intros b Hb. apply Hl. by right. }
  destruct Hl as [r ->]. cbn [mbind option_bind]. destruct r as [q|].
  - eexists _, _. split; [done|]. by apply inv_client.
  - by eexists _, st.
Qed.


(** ** Lemmas: the first state, and a new entry *)
Definition blank (type : Z) : ConfItem := MkConf type 0 0 None INADDR_NONE None None None 0 0 0 0 false.

Definition initial (f : class_features) : conf_state :=
  MkState f (init_class f (MkClassState ∅ 1 [] 0)) ∅ 1 [] ∅.

Lemma initial_inv f ex : conf_inv ex (initial f).
Proof.
  assert (Hw : class_wf (class_list (initial f))) by by apply init_empty_wf.
  split; [split|]; try (intros a Ha; by apply not_elem_of_nil in Ha).
  - split; [done|intros a [? ?]; done|done|done|done|].
    intros k cl Hk _. cbn [initial class_list] in Hk. unfold init_class in Hk. cbn [connClassList make_class] in Hk.
    rewrite upd_class_lookup in Hk. cbn [classes next_class] in Hk. case_decide as E.
    + apply fmap_Some in Hk as (x & _ & ->). done.
    + rewrite lookup_insert_ne in Hk by done. done.
  - apply NoDup_nil_2.
  - done.
  - done.
Qed.

Lemma weak_make ex type fields k st :
  conf_weak ex st -> valid_class (class_list st) k ->
  has_bits type CONF_CLIENT_MASK = true -> has_bits type CONF_ILLEGAL = false ->
  (forall cf, conn_class (fields cf) = Some k /\ clients (fields cf) = clients cf /\ status (fields cf) = status cf) ->
  conf_weak ex (make_conf type fields st).
Proof.
  intros Hw Hv Hm Hi Hf. pose proof (cv_core _ _ Hw) as Hc. destruct (Hf (blank type)) as (Hfk & Hfc & Hfs).
  assert (Ha : forall b, is_Some (confs st !! b) -> next_conf st <> b).
  { intros b Hb%(cc_fresh _ _ Hc). lia. }
  split.
  - apply (core_make ex type fields k); try done. destruct Hv as (cl & Hk & _). by exists cl.
  - cbn. apply NoDup_cons. split; [|exact (cv_nodup _ _ Hw)]. intros Hin%(cv_list _ _ Hw). by apply Ha in Hin.
  - intros b [->|Hb]%elem_of_cons; cbn; [rewrite lookup_insert_eq; by eexists|].
    pose proof (cv_list _ _ Hw b Hb) as Hlb. rewrite lookup_insert_ne by (by apply Ha). done.
  - intros b cf Hb. unfold entry_ok. cbn in Hb. fold (blank type) in Hb. apply lookup_insert_Some in Hb as [[<- <-]|[Hne Hb]].
    + unfold IsIllegal. rewrite Hfs. cbn [status blank]. rewrite Hi. split; [left|]. by exists k.
    + pose proof (cv_entry _ _ Hw b cf Hb) as He. unfold entry_ok in He. case_match; [done|]. destruct He as [? ?].
      split; [by right|done].
Qed.

Lemma stays_0 st a : ~ stays 0 st a.
Proof. intros (cf & _ & Hm). unfold has_bits in Hm. by rewrite Z.land_0_r in Hm. Qed.

Lemma first_conf_in test l st a : first_conf test l st = Some (Some a) ->
  a ∈ l /\ exists cf, confs st !! a = Some cf /\ test cf = Some true.
Proof.
  induction l as [|b l IH]; [done|]. cbn [first_conf]. destruct (confs st !! b) as [cf|] eqn:E; [|done]. cbn [mbind option_bind].
  destruct (test cf) as [[|]|] eqn:Et; [|intros [? ?]%IH; split; [by right|done]|done]. cbn [mbind option_bind].
  intros [= ->]. split; [left|]. by exists cf.
Qed.

(** ** Theorems *)

(** C22: The number of clients a class admits, in a state that counts its links:
    an entry a client has already is answered with ACR_ALREADY_AUTHORIZED and a
    marked one with ACR_NO_AUTHORIZATION; any other one is attached exactly when
    it is no entry of a client or an operator, or its class has no positive
    maximum or has at most maximum - 2 links, so that a class with the maximum n
    has n - 1 such clients at most; then the class has one link more and the
    client the entry in front of its list; otherwise the answer is
    ACR_TOO_MANY_IN_CLASS.  A refusal changes nothing. *)
Theorem attach_conf_limit st cptr c a cf k cl :
  conf_inv true st -> local_clients st !! cptr = Some c -> confs st !! a = Some cf ->
  conn_class cf = Some k -> classes (class_list st) !! k = Some cl ->
  exists r st', attach_conf cptr a st = Some (r, st') /\ conf_inv true st' /\
    (r <> ACR_OK -> st' = st) /\
    (r = ACR_OK -> class_links k (confs st') =
        class_links k (confs st) + (if has_bits (status cf) CONF_CLIENT_MASK then 1 else 0) /\
       local_clients st' = alter (set_confs (a :: cli_confs c)) cptr (local_clients st)) /\
    (a ∈ cli_confs c -> r = ACR_ALREADY_AUTHORIZED) /\
    (~ a ∈ cli_confs c -> IsIllegal cf = true -> r = ACR_NO_AUTHORIZATION) /\
    (~ a ∈ cli_confs c -> IsIllegal cf = false ->
     (r = ACR_OK <-> has_bits (status cf) (CONF_OPS .| CONF_CLIENT) = false \/ max_links cl <= 0 \/
        class_links k (confs st) + 2 <= max_links cl) /\
     (r <> ACR_OK -> r = ACR_TOO_MANY_IN_CLASS)).
Proof.
  intros Hi Hcl Ha Hk Hcls.
  destruct (attach_inv true st cptr c a cf Hi Hcl Ha) as (k' & cl' & st' & Hk' & Hcls' & E & Hi' & Est').
  rewrite Hk in Hk'. injection Hk' as <-. rewrite Hcls in Hcls'. injection Hcls' as <-.
  exists (attach_outcome c a cf cl), st'. split; [done|]. split; [done|].
  pose proof (cv_core _ _ (ci_weak _ _ Hi)) as Hc. pose proof (cc_links _ _ Hc k cl Hcls ltac:(by right)) as Href.
  destruct (cc_conf _ _ Hc a cf Ha) as [_ Hmask]. rewrite Hmask.
  split_and!.
  - intros Hr. by rewrite decide_False in Est'.
  - intros Hr. rewrite decide_True in Est' by done. subst st'. split; [|done].
    pose proof (cc_links _ _ (cv_core _ _ (ci_weak _ _ Hi')) k (set_ref_count (ref_count cl + 1) cl)) as H'.
    cbn [relink class_list confs ref_count set_ref_count] in H'. rewrite upd_class_lookup, decide_True, Hcls in H' by done.
    specialize (H' eq_refl ltac:(by right)). cbn [relink confs]. lia.
  - intros Hin. unfold attach_outcome. by rewrite decide_True.
  - intros Hin Hil. unfold attach_outcome. by rewrite decide_False, Hil.
  - intros Hin Hil. unfold attach_outcome. rewrite decide_False, Hil by done.
    destruct (has_bits (status cf) (CONF_OPS .| CONF_CLIENT) && (0 <? max_links cl) && (max_links cl <=? ref_count cl)) eqn:Ef.
    + split; [|done]. split; [done|]. intros HP. exfalso.
      apply andb_true_iff in Ef as [Ef E2]. apply andb_true_iff in Ef as [E0 E1]. bprop. destruct HP as [?|[?|?]]; [congruence|lia..].
    + split; [|done]. split; [intros _|done]. destruct (has_bits (status cf) (CONF_OPS .| CONF_CLIENT)); [right|by left].
      cbn [andb] in Ef. apply andb_false_iff in Ef as [Ef|Ef]; bprop; [left|right]; lia.
Qed.

(** *** A client and an I line of the default class *)
Definition sample_features : class_features :=
  {| PINGFREQUENCY := 120; CONNECTFREQUENCY := 600; MAXIMUM_LINKS := 3; DEFAULTMAXSENDQLENGTH := 40000 |}.
Definition sample_client : Client := MkClient [] 0 STAT_UNKNOWN [] (lit "joe") (lit "host") 1 6667 None false.
Definition sample_conf : ConfItem -> ConfItem :=
  fun cf => MkConf (status cf) (clients cf) 10 (Some 1%N) 0 None None None 0 0 0 0 false.
Definition sample_state : conf_state :=
  let st := make_conf CONF_CLIENT sample_conf (initial sample_features) in
  with_clients (<[7%N := sample_client]> (local_clients st)) st.

Lemma sample_state_inv : conf_inv true sample_state.
Proof.
  unfold sample_state. apply inv_connect; [|done..].
  pose proof (initial_inv sample_features true) as [Hw _].
  assert (Hv : valid_class (class_list (initial sample_features)) 1).
  { eexists. split; [vm_compute; reflexivity|done]. }
  split; [by apply (weak_make true CONF_CLIENT sample_conf 1%N)|].
  intros a cf Ha Hcf. apply elem_of_cons in Ha as [->|Ha]; [|by apply not_elem_of_nil in Ha]. vm_compute in Hcf. by injection Hcf as <-.
Qed.

Lemma attach_conf_limit_witness : conf_inv true sample_state /\
  exists st', attach_conf 7 1 sample_state = Some (ACR_OK, st') /\ conf_inv true st'.
Proof.
  split; [exact sample_state_inv|].
  destruct (attach_conf_limit sample_state 7 sample_client 1 (sample_conf (blank CONF_CLIENT)) 1
    (MkClass (Some (Literal (lit "default"))) None None 40000 120 600 3 true 1)) as (r & st' & E & Hi & _ & _ & _ & _ & Hok).
  - exact sample_state_inv.
  - vm_compute; reflexivity.
  - vm_compute; reflexivity.
  - reflexivity.
  - vm_compute; reflexivity.
  - exists st'. split; [|exact Hi]. rewrite E. f_equal. f_equal.
    apply (proj1 (Hok (not_elem_of_nil 1%N) eq_refl)). right; right.
    assert (class_links 1 (confs sample_state) = 0) as -> by (vm_compute; reflexivity). vm_compute; discriminate.
Defined.
