(* ===== verification/ConfLink.v ===== *)
(** * ircd/s_bsd.c, ircd/s_misc.c: connections that are made and closed

    connect_server() and close_connection() on the state of [Conf], and the
    lemmas about its searches that need masks without a backslash: the C lines
    and the I lines of a sane configuration are [line_ok]. *)
From S2P Require Import Prelude Chattr NumText IrcdString Match Bans Class Conf.
Open Scope ircd_scope.

#[local] Arguments upd_class : simpl never.

(** ** close_connection() *)

(** The clock, when a connection had its last message, and two features. *)
Record clock := MkClock {
  CurrentTime : Z; cli_since : N -> Z; HANGONGOODLINK : Z; HANGONRETRYDELAY : Z }.

(** The C line of a server that is closed waits before the next attempt. *)
Definition reschedule (t : clock) (cptr a : N) (st : conf_state) : option conf_state :=
  cf ← confs st !! a;
  delay ←
    (if HANGONGOODLINK t <? CurrentTime t - cli_since t cptr then Some (HANGONRETRYDELAY t)
     else k ← conn_class cf; cl ← classes (class_list st) !! k; Some (conn_freq cl));
  Some (upd_conf (set_hold (CurrentTime t + delay)) a st).

Definition close_connection (t : clock) (cptr : N) (st : conf_state) : option conf_state :=
  c ← local_clients st !! cptr;
  st ←
    (if decide (cli_status c = STAT_SERVER) then
       found ← find_conf_exact (cli_name c) None (cli_sockhost c) CONF_SERVER st;
       match found with Some a => reschedule t cptr a st | None => Some st end
     else Some st);
  det_confs_butmask cptr 0 st.

(** exit_client() for a local client: the connection is closed and the client
    freed. *)
Definition exit_client (t : clock) (cptr : N) (st : conf_state) : option conf_state :=
  st ← close_connection t cptr st; Some (remove_client cptr st).

(** ** connect_server() *)

(** What connect_server() finds around it: whether a server of the name, or a
    connection that is being made to it, is there; inet_addr() and the answers
    of the resolver it has at once; connect_inet(), [None] when there is no
    socket and otherwise whether it is connected already; the error of that
    socket and IsDead(); the address of the new client. *)
Record link_env := MkLinkEnv {
  FindClient_busy : list Z -> bool;
  inet_addr : list Z -> Z;
  gethost_byname : list Z -> option Z;
  connect_inet : option bool;
  sock_error : bool;
  is_dead : bool;
  new_client : N }.

Definition set_cli_status (s : client_status) (c : Client) : Client :=
  MkClient (cli_confs c) (con_max_sendq c) s (cli_name c) (cli_username c) (cli_sockhost c) (cli_ip c)
    (listener_port c) (cli_dns_reply c) (FLAG_DOID c).
Definition set_cli_ip (ip : Z) (c : Client) : Client :=
  MkClient (cli_confs c) (con_max_sendq c) (cli_status c) (cli_name c) (cli_username c) (cli_sockhost c) ip
    (listener_port c) (cli_dns_reply c) (FLAG_DOID c).

(** make_client(NULL, STAT_UNKNOWN_SERVER), with the texts copied in. *)
Definition connecting_client (nm h : list Z) : Client :=
  MkClient [] 0 STAT_UNKNOWN_SERVER (take HOSTLEN nm) [] (take HOSTLEN h) 0 0 None false.

(** host_from_uh() *)
Definition host_from_uh (uh : list Z) : list Z :=
  take HOSTLEN (match split_at 64 uh with Some (_, h) => h | None => uh end).

(** The address of the line is looked for, when it is not known: the result is
    whether there is one. *)
Definition lookup_address (e : link_env) (a : N) (cf : ConfItem) (h : list Z) (st : conf_state) : bool * conf_state :=
  if ipnum cf =? INADDR_NONE then
    let ip := inet_addr e h in
    let st := upd_conf (set_ipnum ip) a st in
    if ip =? INADDR_NONE then
      match gethost_byname e (host_from_uh h) with
      | None => (false, upd_conf (set_dns_pending true) a st)
      | Some ip => (true, upd_conf (set_ipnum ip) a st)
      end
    else (true, st)
  else (true, st).

(** completed_connection(), without SSL. *)
Definition completed_connection (e : link_env) (cptr : N) (st : conf_state) : option (bool * conf_state) :=
  c ← local_clients st !! cptr;
  if sock_error e then Some (false, st)
  else
    found ← find_conf_byname (cli_confs c) (cli_name c) CONF_SERVER st;
    match found with
    | None => Some (false, st)
    | Some a => _ ← confs st !! a; Some (negb (is_dead e), upd_client (set_cli_status STAT_HANDSHAKE) cptr st)
    end.

(** connect_server() without a client who asked for it and without a reply, as
    the timer calls it. *)
Definition connect_server (e : link_env) (a : N) (st : conf_state) : option (bool * conf_state) :=
  cf ← confs st !! a;
  if dns_pending cf then Some (false, st)
  else
    nm ← name cf;
    if FindClient_busy e nm then Some (false, st)
    else
      h ← host cf;
      let '(known, st) := lookup_address e a cf h st in
      if negb known then Some (false, st)
      else
        let cptr := new_client e in
        let st := with_clients (<[cptr := connecting_client nm h]> (local_clients st)) st in
        '(_, st) ← attach_confs_byhost cptr h CONF_SERVER st;
        c ← local_clients st !! cptr;
        found ← find_conf_byhost (cli_confs c) h CONF_SERVER st;
        match found, connect_inet e with
        | Some _, Some connected =>
            cf ← confs st !! a;
            let st := upd_client (set_cli_ip (ipnum cf)) cptr st in
            let st := upd_client (set_cli_status STAT_CONNECTING) cptr st in
            if connected then completed_connection e cptr st else Some (true, st)
        | _, _ => st ← det_confs_butmask cptr 0 st; Some (false, remove_client cptr st)
        end.

(** ** Lines whose masks can be compared *)
Definition mask_ok (m : list Z) : Prop := plain_mask m /\ m <> [].

#[export] Instance mask_ok_dec m : Decision (mask_ok m).
Proof. unfold mask_ok. apply _. Defined.

Lemma matches_total m t : mask_ok m -> cstring t -> exists b, matches m t = Some b /\ (b = true <-> glob m t).
Proof.
  intros [Hm Hne] Ht. destruct (match_decides m t Hm Ht (or_introl Hne)) as (r & Er & [[-> H]|[-> H]]);
    unfold matches, decided; rewrite Er; by eexists.
Qed.

Definition opt_ok (m : option (list Z)) : Prop := match m with Some m => mask_ok m | None => True end.

#[export] Instance opt_ok_dec m : Decision (opt_ok m).
Proof. destruct m; apply _. Defined.

(** A C line has a name and a host, an I line at most 32 bits. *)
Definition line_ok (cf : ConfItem) : Prop :=
  (has_bits (status cf) CONF_SERVER = true -> name cf <> None /\ host cf <> None /\ opt_ok (name cf) /\ opt_ok (host cf)) /\
  (status cf = CONF_CLIENT -> opt_ok (username cf) /\ opt_ok (host cf) /\ bits cf <= 32).

(** The texts of a client. *)
Definition client_ok (c : Client) : Prop :=
  cstring (cli_name c) /\ cstring (cli_username c) /\ cstring (cli_sockhost c) /\
  match cli_dns_reply c with Some hp => Forall cstring (h_names hp) | None => True end.

#[export] Instance client_ok_dec c : Decision (client_ok c).
Proof. unfold client_ok. destruct (cli_dns_reply c); apply _. Defined.

Definition lines_ok (st : conf_state) : Prop := forall a cf, confs st !! a = Some cf -> line_ok cf.
Definition texts_ok (st : conf_state) : Prop := forall cptr c, local_clients st !! cptr = Some c -> client_ok c.

(** What an operation leaves of an entry. *)
Definition same_line (cf cf' : ConfItem) : Prop :=
  name cf' = name cf /\ host cf' = host cf /\ username cf' = username cf /\ bits cf' = bits cf /\
  has_bits (status cf') CONF_SERVER = has_bits (status cf) CONF_SERVER /\
  (status cf' = CONF_CLIENT -> status cf = CONF_CLIENT).

#[export] Instance same_line_preorder : PreOrder same_line.
Proof.
  split; [by intros cf|]. intros x y z (? & ? & ? & ? & ? & ?) (? & ? & ? & ? & ? & ?).
  split_and!; try congruence. auto.
Qed.

(** The entries there are come from entries there were. *)
Definition lines_from (st st' : conf_state) : Prop :=
  forall a cf', confs st' !! a = Some cf' -> exists cf, confs st !! a = Some cf /\ same_line cf cf'.

#[export] Instance lines_from_preorder : PreOrder lines_from.
Proof.
  split; [intros st a cf Ha; by exists cf|]. intros x y z H1 H2 a cf Ha.
  destruct (H2 a cf Ha) as (cf1 & Ha1 & E1). destruct (H1 a cf1 Ha1) as (cf2 & Ha2 & E2).
  exists cf2. split; [done|by trans cf1].
Qed.

Lemma same_line_ok cf cf' : same_line cf cf' -> line_ok cf -> line_ok cf'.
Proof.
  intros (En & Eh & Eu & Eb & Es & Ec) [H1 H2]. split; intros H.
  - rewrite En, Eh. apply H1. congruence.
  - rewrite Eu, Eh, Eb. by apply H2, Ec.
Qed.

Lemma lines_ok_from st st' : lines_from st st' -> lines_ok st -> lines_ok st'.
Proof. intros H Hl a cf Ha. destruct (H a cf Ha) as (cf0 & Ha0 & E). apply (same_line_ok cf0); [done|by apply (Hl a)]. Qed.

Lemma lines_from_eq st st' : confs st' = confs st -> lines_from st st'.
Proof. intros E a cf. rewrite E. intros Ha. by exists cf. Qed.

Lemma lines_from_upd f a st : (forall cf, same_line cf (f cf)) -> lines_from st (upd_conf f a st).
Proof.
  intros Hf b cf (x & Hx & ->)%alter_lookup_Some. exists x. split; [done|]. case_decide; [apply Hf|done].
Qed.

Lemma texts_ok_eq st st' : local_clients st' = local_clients st -> texts_ok st -> texts_ok st'.
Proof. intros E Ht cptr c. rewrite E. apply Ht. Qed.

Lemma texts_ok_alter f cptr st st' :
  local_clients st' = alter f cptr (local_clients st) -> (forall c, client_ok c -> client_ok (f c)) -> texts_ok st -> texts_ok st'.
Proof.
  intros E Hf Ht j c. rewrite E. intros (x & Hx & ->)%alter_lookup_Some. pose proof (Ht j x Hx).
  case_decide; [by apply Hf|done].
Qed.

(** A C line in a state whose lines can be compared. *)
Lemma server_line st a cf : lines_ok st -> confs st !! a = Some cf -> has_bits (status cf) CONF_SERVER = true ->
  exists nm h, name cf = Some nm /\ host cf = Some h /\ mask_ok nm /\ mask_ok h.
Proof.
  intros Hl Ha Hs. destruct (Hl a cf Ha) as [H _]. destruct (H Hs) as (Hn & Hh & On & Oh).
  destruct (name cf) as [nm|]; [|done]. destruct (host cf) as [h|]; [|done]. by exists nm, h.
Qed.

(** ** Attaching and searching *)

(** Only the counters of the entries differ. *)
Definition recounted (st st' : conf_state) : Prop :=
  GlobalConfList st' = GlobalConfList st /\ forall a, exists n, confs st' !! a = set_clients n <$> confs st !! a.

#[export] Instance recounted_preorder : PreOrder recounted.
Proof.
  split.
  - intros st. split; [done|]. intros a. destruct (confs st !! a) as [cf|]; [|by exists 0].
    exists (clients cf). by destruct cf.
  - intros x y z [E1 H1] [E2 H2]. split; [congruence|]. intros a. destruct (H1 a) as [n Hn], (H2 a) as [m Hm].
    exists m. rewrite Hm, Hn. by destruct (confs x !! a).
Qed.

Lemma recounted_relink cptr l a m k n st : recounted st (relink cptr l a m k n st).
Proof.
  split; [done|]. intros b. cbn. destruct (decide (b = a)) as [->|Hb].
  - exists m. apply lookup_alter_eq.
  - destruct (proj2 (reflexivity (R := recounted) st) b) as [x Hx]. exists x. by rewrite lookup_alter_ne.
Qed.

Lemma recounted_lines st st' : recounted st st' -> lines_from st st'.
Proof.
  intros [_ H] a cf' Ha. destruct (H a) as [n Hn]. rewrite Hn in Ha. apply fmap_Some in Ha as (cf & Ha & ->).
  by exists cf.
Qed.

Lemma recounted_is_Some st st' a : recounted st st' -> is_Some (confs st' !! a) <-> is_Some (confs st !! a).
Proof. intros [_ H]. destruct (H a) as [n ->]. apply fmap_is_Some. Qed.

(** attach_conf() on an entry there is. *)
Lemma attach_recounted ex st cptr c a :
  conf_inv ex st -> local_clients st !! cptr = Some c -> is_Some (confs st !! a) ->
  exists r st', attach_conf cptr a st = Some (r, st') /\ conf_inv ex st' /\ recounted st st' /\
    local_clients st' = alter (set_confs (if decide (r = ACR_OK) then a :: cli_confs c else cli_confs c)) cptr (local_clients st) /\
    (r = ACR_OK -> exists cf, confs st !! a = Some cf /\ IsIllegal cf = false).
Proof.
  intros Hi Hcl [cf Ha]. destruct (attach_inv ex st cptr c a cf Hi Hcl Ha) as (k & cl & st' & _ & _ & E & Hi' & Est).
  exists (attach_outcome c a cf cl), st'. split; [done|]. split; [done|]. rewrite Est. split_and!.
  - case_decide; [apply recounted_relink|reflexivity].
  - case_decide; [done|]. apply map_eq. intros j. destruct (decide (j = cptr)) as [->|Hj].
    + rewrite lookup_alter_eq, Hcl. by destruct c.
    + by rewrite lookup_alter_ne.
  - intros Hr. exists cf. split; [done|]. unfold attach_outcome in Hr. case_decide; [done|]. by destruct (IsIllegal cf).
Qed.

Lemma alter_set_confs l l' cptr (m : gmap N Client) : alter (set_confs l') cptr (alter (set_confs l) cptr m) = alter (set_confs l') cptr m.
Proof.
  apply map_eq. intros j. destruct (decide (j = cptr)) as [->|Hj].
  - rewrite !lookup_alter_eq. by destruct (m !! cptr).
  - by rewrite !lookup_alter_ne.
Qed.

Lemma alter_set_confs_id c cptr (m : gmap N Client) : m !! cptr = Some c -> alter (set_confs (cli_confs c)) cptr m = m.
Proof.
  intros Hc. apply map_eq. intros j. destruct (decide (j = cptr)) as [->|Hj]; [|by rewrite lookup_alter_ne].
  rewrite lookup_alter_eq, Hc. by destruct c.
Qed.

(** The entries an attach loop may add. *)
Definition attachable (field : ConfItem -> option (list Z)) (text : list Z) (mask : Z) (st : conf_state) (a : N) : Prop :=
  exists cf f, confs st !! a = Some cf /\ has_bits (status cf) mask = true /\ IsIllegal cf = false /\
    field cf = Some f /\ (glob f text \/ lower f = lower text).

Lemma attachable_recounted field text mask st st' a :
  (forall n cf, field (set_clients n cf) = field cf) -> recounted st st' ->
  attachable field text mask st' a <-> attachable field text mask st a.
Proof.
  intros Hf [_ Hr]. destruct (Hr a) as [n Hn]. unfold attachable. rewrite Hn. split.
  - intros (cf' & f & (cf & Ha & ->)%fmap_Some & H). exists cf, f. split; [done|]. by rewrite Hf in H.
  - intros (cf & f & -> & H). exists (set_clients n cf), f. split; [done|]. by rewrite Hf.
Qed.

Lemma attach_loop_inv ex field cptr text mask l : forall first st c,
  (forall n cf, field (set_clients n cf) = field cf) -> cstring text ->
  (forall a cf, confs st !! a = Some cf -> has_bits (status cf) mask = true -> exists f, field cf = Some f /\ mask_ok f) ->
  conf_inv ex st -> local_clients st !! cptr = Some c -> (forall a, a ∈ l -> is_Some (confs st !! a)) ->
  exists first' st' kept, attach_loop field cptr text mask l first st = Some (first', st') /\ conf_inv ex st' /\
    recounted st st' /\ local_clients st' = alter (set_confs kept) cptr (local_clients st) /\
    (forall a, a ∈ kept -> a ∈ cli_confs c \/ a ∈ l /\ attachable field text mask st a).
Proof.
  induction l as [|a l IH]; intros first st c Hfield Ht Hm Hi Hcl Hl; cbn [attach_loop].
  { exists first, st, (cli_confs c). split_and!; try done; [by rewrite alter_set_confs_id|by left]. }
  destruct (Hl a ltac:(left)) as [cf Hcf]. rewrite Hcf. cbn [mbind option_bind].
  assert (Hl' : forall b, b ∈ l -> is_Some (confs st !! b)) by (intros; apply Hl; by right).
  assert (Hskip : exists first' st' kept, attach_loop field cptr text mask l first st = Some (first', st') /\ conf_inv ex st' /\
    recounted st st' /\ local_clients st' = alter (set_confs kept) cptr (local_clients st) /\
    (forall b, b ∈ kept -> b ∈ cli_confs c \/ b ∈ a :: l /\ attachable field text mask st b)).
  { destruct (IH first st c Hfield Ht Hm Hi Hcl Hl') as (f' & st' & kp & ? & ? & ? & ? & Hk). exists f', st', kp.
    split_and!; try done. intros b Hb. destruct (Hk b Hb) as [?|[? ?]]; [by left|right; split; [by right|done]]. }
  destruct (has_bits (status cf) mask && negb (IsIllegal cf)) eqn:Eb; [|exact Hskip].
  apply andb_true_iff in Eb as [Eb Ei]. apply negb_true_iff in Ei.
  destruct (Hm a cf Hcf Eb) as (f & Hf & Hok). rewrite Hf. cbn [mbind option_bind].
  destruct (matches_total f text Hok Ht) as (b & Emt & Hglob). unfold match_or_same. rewrite Emt. cbn [mbind option_bind].
  destruct (b || (ircd_strcmp f text =? 0)) eqn:Em; [|exact Hskip].
  assert (Hatt : attachable field text mask st a).
  { exists cf, f. split_and!; try done. apply orb_true_iff in Em as [->|Em]; [left; by apply Hglob|right].
    bprop. apply strcmp_0; [|done|done]. destruct Hok as [Hp _]. eapply Forall_impl; [exact Hp|]. by intros x [? _]. }
  destruct (attach_recounted ex st cptr c a Hi Hcl (Hl a ltac:(left))) as (r & st1 & E & Hi1 & Hr1 & Hc1 & _).
  rewrite E. cbn [mbind option_bind]. set (conf1 := if decide (r = ACR_OK) then _ else _) in Hc1.
  destruct (IH (match first with None => if decide (r = ACR_OK) then Some a else None | Some _ => first end) st1 (set_confs conf1 c))
    as (f' & st' & kp & E' & Hi' & Hr' & Hc' & Hk); try done.
  - intros b' cf' Hb Hs. destruct Hr1 as [_ Hr1]. destruct (Hr1 b') as [n Hn]. rewrite Hn in Hb.
    apply fmap_Some in Hb as (x & Hx & ->). rewrite Hfield. by apply (Hm b').
  - by rewrite Hc1, lookup_alter_eq, Hcl.
  - intros b' Hb. rewrite (recounted_is_Some st st1) by done. by apply Hl'.
  - exists f', st', kp. split_and!; try done.
    + by trans st1.
    + by rewrite Hc', Hc1, alter_set_confs.
    + intros b' Hb. destruct (Hk b' Hb) as [Hin|[Hin Hat]].
      * cbn [set_confs cli_confs] in Hin. unfold conf1 in Hin. case_decide; [|by left].
        apply elem_of_cons in Hin as [->|?]; [right; split; [left|done]|by left].
      * right. split; [by right|]. by rewrite (attachable_recounted field text mask st st1) in Hat.
Qed.

Lemma first_conf_total test l st :
  (forall a, a ∈ l -> exists cf b, confs st !! a = Some cf /\ test cf = Some b) -> exists r, first_conf test l st = Some r.
Proof.
  induction l as [|a l IH]; intros Hl; cbn [first_conf]; [by eexists|].
  destruct (Hl a ltac:(left)) as (cf & b & -> & Eb). cbn [mbind option_bind]. rewrite Eb. cbn [mbind option_bind].
  destruct b; [by eexists|]. apply IH. intros x Hx. apply Hl. by right.
Qed.

(** The searches for C lines succeed. *)
Section searches.
Context (st : conf_state) (Hlines : lines_ok st).

Lemma test_if_total b t : (b = true -> exists r, t = Some r) -> exists r : bool, test_if b t = Some r.
Proof. destruct b; [intros H; by apply H|by eexists]. Qed.

Lemma find_conf_byname_total lp nm :
  cstring nm -> (forall a, a ∈ lp -> is_Some (confs st !! a)) -> exists r, find_conf_byname lp nm CONF_SERVER st = Some r.
Proof.
  intros Hn Hl. unfold find_conf_byname. case_match; [by eexists|]. apply first_conf_total. intros a Ha.
  destruct (Hl a Ha) as [cf Hcf]. enough (exists b, byname_test nm CONF_SERVER cf = Some b) as [b Hb] by (by exists cf, b).
  apply test_if_total. intros Hs. destruct (server_line st a cf Hlines Hcf Hs) as (n & h & -> & _ & On & _).
  cbn [mbind option_bind]. destruct (ircd_strcmp n nm =? 0); [by eexists|].
  destruct (matches_total n nm On Hn) as (b & -> & _). by eexists.
Qed.

Lemma find_conf_byhost_total lp h :
  cstring h -> (forall a, a ∈ lp -> is_Some (confs st !! a)) -> exists r, find_conf_byhost lp h CONF_SERVER st = Some r.
Proof.
  intros Hn Hl. unfold find_conf_byhost. case_match; [by eexists|]. apply first_conf_total. intros a Ha.
  destruct (Hl a Ha) as [cf Hcf]. enough (exists b, byhost_test h CONF_SERVER cf = Some b) as [b Hb] by (by exists cf, b).
  apply test_if_total. intros Hs. destruct (server_line st a cf Hlines Hcf Hs) as (n & h' & _ & -> & _ & Oh).
  cbn [mbind option_bind]. destruct (matches_total h' h Oh Hn) as (b & -> & _). by eexists.
Qed.

Lemma find_conf_byip_total lp ip :
  (forall a, a ∈ lp -> is_Some (confs st !! a)) -> exists r, find_conf_byip lp ip CONF_SERVER st = Some r.
Proof. intros Hl. apply first_conf_total. intros a Ha. destruct (Hl a Ha) as [cf Hcf]. by eexists _, _. Qed.

Lemma conf_by_names_total lp names :
  Forall cstring names -> (forall a, a ∈ lp -> is_Some (confs st !! a)) ->
  exists r, conf_by_names lp names st = Some r /\
    match r with Some (a, h) => a ∈ lp /\ cstring h | None => True end.
Proof.
  intros Hn Hl. induction Hn as [|h names Hh Hn IH]; cbn [conf_by_names]; [by eexists|].
  destruct (find_conf_byhost_total lp h Hh Hl) as [r E]. rewrite E. cbn [mbind option_bind]. destruct r as [a|]; [|done].
  eexists. split; [done|]. split; [|done]. unfold find_conf_byhost in E. case_match; [done|]. by apply first_conf_in in E as [? _].
Qed.

Lemma find_conf_byip_in lp ip a : find_conf_byip lp ip CONF_SERVER st = Some (Some a) -> a ∈ lp.
Proof. intros E. by apply first_conf_in in E as [? _]. Qed.

Lemma conf_by_addresses_total lp ips :
  (forall a, a ∈ lp -> is_Some (confs st !! a)) ->
  exists r, conf_by_addresses lp ips st = Some r /\ match r with Some a => a ∈ lp | None => True end.
Proof.
  intros Hl. induction ips as [|ip ips IH]; cbn [conf_by_addresses]; [by eexists|].
  destruct (find_conf_byip_total lp ip Hl) as [r E]. rewrite E. cbn [mbind option_bind]. destruct r as [a|]; [|done].
  eexists. split; [done|]. by apply find_conf_byip_in in E.
Qed.

(** The search for the line of a connection that came in finds one of its own. *)
Lemma conf_by_dns_total cptr c :
  client_ok c -> (forall a, a ∈ cli_confs c -> is_Some (confs st !! a)) ->
  exists r st', conf_by_dns cptr c st = Some (r, st') /\
    (forall a, r = Some a -> a ∈ cli_confs c) /\
    (st' = st \/ exists h, cstring h /\ st' = upd_client (set_sockhost h) cptr st).
Proof.
  intros (_ & _ & Hs & Hd) Hl. unfold conf_by_dns.
  assert (Hend : forall st1, (st1 = st \/ exists h, cstring h /\ st1 = upd_client (set_sockhost h) cptr st) ->
    exists r st', (found ← find_conf_byip (cli_confs c) (cli_ip c) CONF_SERVER st1; Some (found, st1)) = Some (r, st') /\
      (forall a, r = Some a -> a ∈ cli_confs c) /\
      (st' = st \/ exists h, cstring h /\ st' = upd_client (set_sockhost h) cptr st)).
  { intros st1 Hst1. assert (Ec : confs st1 = confs st) by (destruct Hst1 as [->|(h & _ & ->)]; done).
    assert (exists r, find_conf_byip (cli_confs c) (cli_ip c) CONF_SERVER st1 = Some r) as [r Hr].
    { apply first_conf_total. intros a Ha. rewrite Ec. destruct (Hl a Ha) as [cf Hcf]. by eexists _, _. }
    rewrite Hr. cbn [mbind option_bind]. eexists _, _. split; [done|]. split; [|done].
    intros a ->. by apply first_conf_in in Hr as [? _]. }
  destruct (cli_dns_reply c) as [hp|].
  - destruct (conf_by_names_total (cli_confs c) (h_names hp) Hd Hl) as (r & -> & Hr). cbn [mbind option_bind].
    destruct r as [[a h]|].
    + destruct Hr as [Ha Hh]. eexists (Some a), _. split; [done|]. split; [by intros ? [= <-]|].
      right. exists (take HOSTLEN h). split; [by apply cstring_take|done].
    + destruct (conf_by_addresses_total (cli_confs c) (h_addr_list hp) Hl) as (r & -> & Hr'). cbn [mbind option_bind].
      destruct r as [a|]; [|by apply Hend; left]. eexists (Some a), st. split; [done|]. split; [by intros ? [= <-]|by left].
  - destruct (find_conf_byhost_total (cli_confs c) (cli_sockhost c) Hs Hl) as [r E]. rewrite E. cbn [mbind option_bind].
    destruct r as [a|]; [|by apply Hend; left]. eexists (Some a), st. split; [done|]. split; [|by left].
    intros ? [= <-]. unfold find_conf_byhost in E. case_match; [done|]. by apply first_conf_in in E as [? _].
Qed.

Lemma find_conf_exact_total ex nm h :
  conf_core ex st -> cstring nm -> cstring h -> (forall a, a ∈ GlobalConfList st -> is_Some (confs st !! a)) ->
  exists r, find_conf_exact nm None h CONF_SERVER st = Some r /\
    match r with Some a => a ∈ GlobalConfList st | None => True end.
Proof.
  intros Hc Hn Hh Hl. unfold find_conf_exact, userhost.
  destruct (first_conf_total (exact_test nm (take (USERLEN + HOSTLEN + 2) h) CONF_SERVER st) (GlobalConfList st) st) as [r E].
  - intros a Ha. destruct (Hl a Ha) as [cf Hcf]. exists cf.
    enough (exists b, exact_test nm (take (USERLEN + HOSTLEN + 2) h) CONF_SERVER st cf = Some b) as [b Hb] by (by exists b).
    unfold exact_test. destruct (name cf) as [n|] eqn:En; [|by eexists]. destruct (host cf) as [h'|] eqn:Eh; [|by eexists].
    apply test_if_total. intros Hs. apply andb_true_iff in Hs as [Hs _].
    destruct (server_line st a cf Hlines Hcf Hs) as (n2 & h2 & En2 & Eh2 & _ & Oh). rewrite Eh in Eh2. injection Eh2 as <-.
    destruct (matches_total h' (take (USERLEN + HOSTLEN + 2) h) Oh (cstring_take _ _ Hh)) as (b & -> & _). cbn [mbind option_bind].
    apply test_if_total. intros _. unfold oper_limit. case_match; [|by eexists].
    destruct (cc_conf _ _ Hc a cf Hcf) as [(k & -> & [cl Hcl]) _]. cbn [mbind option_bind]. rewrite Hcl. by eexists.
  - exists r. split; [exact E|]. destruct r as [a|]; [|done]. by apply first_conf_in in E as [? _].
Qed.
End searches.

(** ** The operations *)
Lemma inv_quiet ex f a st : conf_inv ex st -> quiet f -> (forall cf, IsIllegal (f cf) = IsIllegal cf) ->
  conf_inv ex (upd_conf f a st).
Proof.
  intros [[Hc Hnd Hl He] Hm] Hq Hf. split; [split|]; cbn.
  - by apply core_quiet.
  - done.
  - intros b Hb. apply alter_is_Some. by apply Hl.
  - intros b cf (x & Hx & ->)%alter_lookup_Some. pose proof (He b x Hx) as H. case_decide; [|exact H].
    unfold entry_ok in *. rewrite Hf, (q_clients f Hq), (q_class f Hq). exact H.
  - intros b cf Hb (x & Hx & ->)%alter_lookup_Some. pose proof (Hm b x Hb Hx). case_decide; by rewrite ?Hf.
Qed.

Lemma dropped_line cf cf' : dropped cf = Some cf' -> same_line cf cf'.
Proof. unfold dropped. case_match; [done|]. intros [= <-]. done. Qed.

Lemma det_confs_ok ex cptr mask st c :
  conf_inv ex st -> local_clients st !! cptr = Some c ->
  exists st' kept, det_confs_butmask cptr mask st = Some st' /\ conf_inv ex st' /\ lines_from st st' /\
    local_clients st' = alter (set_confs kept) cptr (local_clients st) /\ GlobalConfList st' = GlobalConfList st /\
    (forall a, a ∈ kept <-> a ∈ cli_confs c /\ stays mask st a) /\
    (forall a cf, confs st !! a = Some cf -> IsIllegal cf = false ->
      exists n, confs st' !! a = Some (set_clients n cf)).
Proof.
  intros Hi Hcl. destruct (det_confs_inv ex cptr mask st c Hi Hcl) as (st' & kp & Hd & Hi' & Hlc & Hg & Hk & Hf & Hdr).
  assert (Hlook : forall a cf, confs st !! a = Some cf -> confs st' !! a = Some cf \/ confs st' !! a = dropped cf).
  { intros a cf Ha. destruct (decide (a ∈ cli_confs c)) as [Hin|Hin]; [|left; rewrite Hf; [done|by left]].
    destruct (has_bits (status cf) mask) eqn:Em; [left; rewrite Hf; [done|right; by exists cf]|right; by apply (Hdr a cf)]. }
  exists st', kp. split_and!; try done.
  - intros a cf' Ha'. destruct (confs st !! a) as [cf|] eqn:Ha.
    + exists cf. split; [done|]. destruct (Hlook a cf Ha) as [E|E]; rewrite E in Ha'; [by injection Ha' as <-|by apply dropped_line].
    + exfalso. rewrite Hf in Ha'; [congruence|]. left. intros Hin.
      destruct (cc_attached _ _ (cv_core _ _ (ci_weak _ _ Hi)) cptr c Hcl) as [_ Hlive]. destruct (Hlive a Hin). congruence.
  - intros a cf Ha Hil. destruct (Hlook a cf Ha) as [-> | ->].
    + exists (clients cf). by destruct cf.
    + unfold dropped. rewrite Hil, andb_false_r. by eexists.
Qed.

Lemma det_all_ok ex cptr st c :
  conf_inv ex st -> local_clients st !! cptr = Some c ->
  exists st', det_confs_butmask cptr 0 st = Some st' /\ conf_inv ex st' /\ lines_from st st' /\
    local_clients st' = alter (set_confs []) cptr (local_clients st) /\ GlobalConfList st' = GlobalConfList st /\
    (forall a cf, confs st !! a = Some cf -> IsIllegal cf = false -> exists n, confs st' !! a = Some (set_clients n cf)).
Proof.
  intros Hi Hcl. destruct (det_confs_ok ex cptr 0 st c Hi Hcl) as (st' & kp & Hd & Hi' & Hf & Hlc & Hg & Hk & Hc).
  assert (kp = []) as ->.
  { destruct kp as [|a kp]; [done|]. exfalso. apply (stays_0 st a). apply (proj1 (Hk a)). left. }
  by exists st'.
Qed.

(** The state may be used further. *)
Definition sound (ex : bool) (st : conf_state) : Prop := conf_inv ex st /\ lines_ok st /\ texts_ok st.

Lemma client_ok_set_confs l c : client_ok c -> client_ok (set_confs l c).
Proof. done. Qed.

Lemma sound_from ex st st' f cptr :
  sound ex st -> conf_inv ex st' -> lines_from st st' -> local_clients st' = alter f cptr (local_clients st) ->
  (forall c, client_ok c -> client_ok (f c)) -> sound ex st'.
Proof.
  intros (Hi & Hl & Ht) Hi' Hf E Hok. split_and!; [done|by apply (lines_ok_from st)|by apply (texts_ok_alter f cptr st)].
Qed.

(** A client changes, but not its entries. *)
Lemma sound_client ex f cptr st :
  sound ex st -> (forall c, cli_confs (f c) = cli_confs c) -> (forall c, client_ok c -> client_ok (f c)) ->
  sound ex (upd_client f cptr st).
Proof.
  intros Hs Hc Hok. apply (sound_from ex st _ f cptr); [done|by apply inv_client, Hs|by apply lines_from_eq|done|done].
Qed.

Lemma attach_sound ex st cptr c a :
  sound ex st -> local_clients st !! cptr = Some c -> is_Some (confs st !! a) ->
  exists r st', attach_conf cptr a st = Some (r, st') /\ sound ex st' /\ recounted st st' /\
    is_Some (local_clients st' !! cptr).
Proof.
  intros Hs Hcl Ha. pose proof Hs as (Hi & _).
  destruct (attach_recounted ex st cptr c a Hi Hcl Ha) as (r & st' & E & Hi' & Hr & Hlc & _). exists r, st'.
  split; [done|]. split.
  - apply (sound_from ex st _ _ _ Hs Hi' (recounted_lines _ _ Hr) Hlc). done.
  - split; [done|]. rewrite Hlc, lookup_alter_eq, Hcl. by eexists.
Qed.

(** *** conf_check_server() *)

(** No C line of the connection was marked by rehash(). *)
Definition lines_current (cptr : N) (st : conf_state) : Prop :=
  forall c a cf, local_clients st !! cptr = Some c -> a ∈ cli_confs c -> confs st !! a = Some cf -> IsIllegal cf = false.

Lemma keep_server_sound ex cptr c found st :
  sound ex st -> local_clients st !! cptr = Some c -> lines_current cptr st ->
  (forall a, found = Some a -> a ∈ cli_confs c) ->
  exists r st', keep_server_conf cptr found st = Some (r, st') /\ sound ex st'.
Proof.
  intros Hs Hcl Hcur Hin. pose proof Hs as (Hi & Hl & Ht). unfold keep_server_conf.
  destruct (det_all_ok ex cptr st c Hi Hcl) as (st1 & -> & Hi1 & Hf1 & Hc1 & _ & Hkeep). cbn [mbind option_bind].
  assert (Hs1 : sound ex st1) by by apply (sound_from ex st _ (set_confs []) cptr).
  destruct found as [a|]; [|by exists (-1), st1]. specialize (Hin a eq_refl).
  destruct (cc_attached _ _ (cv_core _ _ (ci_weak _ _ Hi)) cptr c Hcl) as [_ Hlive]. destruct (Hlive a Hin) as [cf Hcf].
  destruct (Hkeep a cf Hcf (Hcur c a cf Hcl Hin Hcf)) as [n Hn].
  destruct (attach_sound ex st1 cptr (set_confs [] c) a Hs1) as (r & st2 & -> & Hs2 & Hr2 & [c2 Hc2]).
  { by rewrite Hc1, lookup_alter_eq, Hcl. }
  { by rewrite Hn. }
  cbn [mbind option_bind]. destruct (proj2 (recounted_is_Some st1 st2 a Hr2) (mk_is_Some _ _ Hn)) as [cf2 Hcf2].
  rewrite Hcf2, Hc2. cbn [mbind option_bind]. eexists _, _. split; [done|]. case_match; [|done].
  destruct Hs2 as (Hi2 & Hl2 & Ht2). split_and!; [by apply inv_quiet; [|apply quiet_ipnum|]| |done].
  apply (lines_ok_from st2); [by apply lines_from_upd|done].
Qed.

Lemma conf_list_live ex st a : conf_inv ex st -> a ∈ GlobalConfList st -> is_Some (confs st !! a).
Proof. intros Hi. apply (cv_list _ _ (ci_weak _ _ Hi)). Qed.

Lemma name_field n cf : name (set_clients n cf) = name cf.
Proof. done. Qed.
Lemma host_field n cf : host (set_clients n cf) = host cf.
Proof. done. Qed.

Lemma attach_byname_sound ex st cptr c nm :
  sound ex st -> local_clients st !! cptr = Some c -> cstring nm -> lines_current cptr st ->
  exists r st', attach_confs_byname cptr nm CONF_SERVER st = Some (r, st') /\ sound ex st' /\
    is_Some (local_clients st' !! cptr) /\ lines_current cptr st'.
Proof.
  intros Hs Hcl Hn Hcur. pose proof Hs as (Hi & Hl & Ht). unfold attach_confs_byname, attach_confs_by.
  case_match; [by eexists _, _|].
  destruct (attach_loop_inv ex name cptr nm CONF_SERVER (GlobalConfList st) None st c name_field Hn) as (r & st' & kp & E & Hi' & Hr & Hlc & Hk).
  { intros a cf Ha Hb. destruct (server_line st a cf Hl Ha Hb) as (n & h & ? & _ & ? & _). by exists n. }
  { done. }
  { done. }
  { intros a. by apply (conf_list_live ex). }
  exists r, st'. split; [done|]. split; [by apply (sound_from ex st _ (set_confs kp) cptr); [|..|apply recounted_lines| |]|].
  assert (Hc' : local_clients st' !! cptr = Some (set_confs kp c)) by (by rewrite Hlc, lookup_alter_eq, Hcl).
  split; [by eexists|]. intros c' a cf Hc2 Ha Hcf. rewrite Hc' in Hc2. injection Hc2 as <-. cbn [set_confs cli_confs] in Ha.
  destruct Hr as [_ Hr]. destruct (Hr a) as [n En]. rewrite En in Hcf. apply fmap_Some in Hcf as (x & Hx & ->).
  destruct (Hk a Ha) as [Hin|(_ & x' & f & Hx' & _ & Hil & _)]; [by apply (Hcur c a x)|].
  rewrite Hx in Hx'. by injection Hx' as <-.
Qed.

Lemma conf_check_server_sound ex cptr c st :
  sound ex st -> local_clients st !! cptr = Some c -> lines_current cptr st ->
  exists r st', conf_check_server cptr st = Some (r, st') /\ sound ex st'.
Proof.
  intros Hs Hcl Hcur. unfold conf_check_server. rewrite Hcl. cbn [mbind option_bind].
  assert (Hbegin : exists ok st1, (if IsUnknown c then
      '(first, st) ← attach_confs_byname cptr (cli_name c) CONF_SERVER st;
      Some (match first with Some _ => true | None => false end, st) else Some (true, st)) = Some (ok, st1) /\
      sound ex st1 /\ is_Some (local_clients st1 !! cptr) /\ lines_current cptr st1).
  { destruct (IsUnknown c); [|exists true, st; split_and!; try done; by exists c].
    pose proof Hs as (_ & _ & Ht). destruct (Ht cptr c Hcl) as (Hn & _).
    destruct (attach_byname_sound ex st cptr c (cli_name c) Hs Hcl Hn Hcur) as (r & st1 & -> & H). by eexists _, st1. }
  destruct Hbegin as (ok & st1 & -> & Hs1 & [c1 Hc1] & Hcur1). cbn [mbind option_bind].
  destruct ok; cbn [negb]; [|by eexists _, _]. rewrite Hc1. cbn [mbind option_bind].
  pose proof Hs1 as (Hi1 & Hl1 & Ht1). pose proof (Ht1 cptr c1 Hc1) as Hok.
  destruct (cc_attached _ _ (cv_core _ _ (ci_weak _ _ Hi1)) cptr c1 Hc1) as [_ Hlive].
  case_decide as Hst.
  - destruct (find_conf_byname_total st1 Hl1 (cli_confs c1) (cli_name c1) ltac:(apply Hok) Hlive) as [r E].
    rewrite E. cbn [mbind option_bind]. destruct r as [a|].
    + apply (keep_server_sound ex cptr c1); try done. intros ? [= <-].
      unfold find_conf_byname in E. case_match; [done|]. by apply first_conf_in in E as [? _].
    + destruct (det_all_ok ex cptr st1 c1 Hi1 Hc1) as (st2 & -> & Hi2 & Hf2 & Hc2 & _). cbn [mbind option_bind].
      eexists _, _. split; [done|]. by apply (sound_from ex st1 _ (set_confs []) cptr).
  - destruct (conf_by_dns_total st1 Hl1 cptr c1 Hok Hlive) as (r & st2 & -> & Hin & Hst2). cbn [mbind option_bind].
    destruct Hst2 as [->|(h & Hh & ->)]; [by apply (keep_server_sound ex cptr c1)|].
    apply (keep_server_sound ex cptr (set_sockhost h c1)).
    + apply sound_client; [done..|]. intros c0 (? & ? & ? & ?). by split_and!.
    + cbn. by rewrite lookup_alter_eq, Hc1.
    + intros c' a cf Hc' Ha Hcf. cbn in Hc'. rewrite lookup_alter_eq, Hc1 in Hc'. injection Hc' as <-. by apply (Hcur1 c1 a cf).
    + done.
Qed.

(** *** conf_check_client() *)
Lemma names_match_total m names : mask_ok m -> Forall cstring names -> exists b, names_match m names = Some b.
Proof.
  intros Hm. induction 1 as [|h names Hh _ IH]; cbn [names_match]; [by eexists|].
  destruct (matches_total m (take HOSTLEN h) Hm (cstring_take _ _ Hh)) as (b & -> & _). cbn [mbind option_bind].
  destruct b; [done|by eexists].
Qed.

Lemma iline_test_total st a cf c : lines_ok st -> confs st !! a = Some cf -> client_ok c -> exists b, iline_test c cf = Some b.
Proof.
  intros Hl Ha (_ & Hu & _ & Hd). unfold iline_test. apply test_if_total. intros Hs. apply andb_true_iff in Hs as [Hs _]. bprop.
  destruct (Hl a cf Ha) as [_ H]. destruct (H Hs) as (Ou & Oh & Hb).
  assert (exists u, match username cf with Some u => matches u (cli_username c) | None => Some true end = Some u) as [u ->].
  { destruct (username cf) as [u|]; [|by eexists]. destruct (matches_total u (cli_username c) Ou Hu) as (b & -> & _). by eexists. }
  cbn [mbind option_bind]. apply test_if_total. intros _.
  assert (exists b, match cli_dns_reply c, host cf with Some hp, Some h => names_match h (h_names hp) | _, _ => Some true end = Some b) as [b ->].
  { destruct (cli_dns_reply c) as [hp|]; [|by eexists]. destruct (host cf) as [h|]; [|by eexists]. by apply names_match_total. }
  cbn [mbind option_bind]. apply test_if_total. intros _. unfold ip_match. destruct (bits cf <? 0); [by eexists|].
  rewrite (proj2 (Z.ltb_ge 32 (bits cf))) by done. by eexists.
Qed.

Lemma conf_check_client_sound ex cptr c chk st :
  sound ex st -> local_clients st !! cptr = Some c ->
  exists r st', conf_check_client cptr chk st = Some (r, st') /\ sound ex st'.
Proof.
  intros Hs Hcl. pose proof Hs as (Hi & Hl & Ht). unfold conf_check_client, attach_iline. rewrite Hcl. cbn [mbind option_bind].
  destruct (first_conf_total (iline_test c) (GlobalConfList st) st) as [r E].
  { intros a Ha. destruct (conf_list_live ex st a Hi Ha) as [cf Hcf].
    destruct (iline_test_total st a cf c Hl Hcf (Ht cptr c Hcl)) as [b Hb]. by exists cf, b. }
  rewrite E. cbn [mbind option_bind]. destruct r as [a|]; [|by eexists _, _].
  apply first_conf_in in E as (_ & cf & Hcf & _). rewrite Hcf. cbn [mbind option_bind]. case_match; [by eexists _, _|].
  set (st1 := match username cf with Some _ => _ | None => _ end).
  assert (Hs1 : sound ex st1 /\ confs st1 = confs st /\ is_Some (local_clients st1 !! cptr)).
  { unfold st1. destruct (username cf); [|split_and!; [done|done|by eexists]]. split_and!; [by apply sound_client|done|].
    cbn. rewrite lookup_alter_eq, Hcl. by eexists. }
  destruct Hs1 as (Hs1 & Ec & [c1 Hc1]). destruct (attach_sound ex st1 cptr c1 a Hs1 Hc1) as (r & st2 & -> & Hs2 & _).
  { rewrite Ec. by eexists. }
  by eexists _, _.
Qed.

(** *** close_connection() *)
Lemma delete_alter {A} (f : A -> A) i (m : gmap N A) : delete i (alter f i m) = delete i m.
Proof.
  apply map_eq. intros j. destruct (decide (j = i)) as [->|Hj]; [by rewrite !lookup_delete_eq|].
  by rewrite !lookup_delete_ne, lookup_alter_ne by done.
Qed.

Lemma remove_ok ex st st1 cptr c :
  conf_inv ex st1 -> local_clients st1 = alter (set_confs []) cptr (local_clients st) -> local_clients st !! cptr = Some c ->
  conf_inv ex (remove_client cptr st1) /\ local_clients (remove_client cptr st1) = delete cptr (local_clients st).
Proof.
  intros Hi E Hc. split.
  - apply (inv_remove ex cptr (set_confs [] c)); [done|by rewrite E, lookup_alter_eq, Hc|done].
  - cbn. by rewrite E, delete_alter.
Qed.

(** A client that is no server leaves. *)
Lemma exit_user_inv ex t cptr c st :
  conf_inv ex st -> local_clients st !! cptr = Some c -> cli_status c <> STAT_SERVER ->
  exists st', exit_client t cptr st = Some st' /\ conf_inv ex st' /\ lines_from st st' /\
    local_clients st' = delete cptr (local_clients st) /\ GlobalConfList st' = GlobalConfList st /\
    (forall a, ~ a ∈ cli_confs c -> confs st' !! a = confs st !! a).
Proof.
  intros Hi Hcl Hs. unfold exit_client, close_connection. rewrite Hcl. cbn [mbind option_bind].
  rewrite decide_False by done. cbn [mbind option_bind].
  destruct (det_confs_inv ex cptr 0 st c Hi Hcl) as (st1 & kp & Hd & _ & _ & _ & _ & Hf & _).
  destruct (det_all_ok ex cptr st c Hi Hcl) as (st2 & Hd2 & Hi1 & Hf1 & Hc1 & Hg1 & _). rewrite Hd in Hd2. injection Hd2 as <-.
  rewrite Hd. cbn [mbind option_bind]. eexists. split; [done|].
  destruct (remove_ok ex st st1 cptr c Hi1 Hc1 Hcl). split_and!; try done. intros a Ha. apply Hf. by left.
Qed.

Lemma exit_sound ex t cptr c st :
  sound ex st -> local_clients st !! cptr = Some c ->
  exists st', exit_client t cptr st = Some st' /\ sound ex st' /\ local_clients st' = delete cptr (local_clients st).
Proof.
  intros Hs Hcl. pose proof Hs as (Hi & Hl & Ht). unfold exit_client, close_connection. rewrite Hcl. cbn [mbind option_bind].
  assert (H : exists st1, (if decide (cli_status c = STAT_SERVER) then
      found ← find_conf_exact (cli_name c) None (cli_sockhost c) CONF_SERVER st;
      match found with Some a => reschedule t cptr a st | None => Some st end else Some st) = Some st1 /\
      sound ex st1 /\ local_clients st1 = local_clients st).
  { case_decide; [|by exists st]. destruct (Ht cptr c Hcl) as (Hn & _ & Hh & _).
    destruct (find_conf_exact_total st Hl ex (cli_name c) (cli_sockhost c)) as (r & -> & Hr); [apply Hi|done|done| |].
    { intros a. by apply (conf_list_live ex). }
    cbn [mbind option_bind]. destruct r as [a|]; [|by exists st].
    destruct (conf_list_live ex st a Hi Hr) as [cf Hcf]. unfold reschedule. rewrite Hcf. cbn [mbind option_bind].
    destruct (cc_conf _ _ (cv_core _ _ (ci_weak _ _ Hi)) a cf Hcf) as [(k & -> & [cl Hk]) _]. cbn [mbind option_bind]. rewrite Hk.
    cbn [mbind option_bind]. destruct (HANGONGOODLINK t <? _); cbn [mbind option_bind]; (eexists; split; [done|split; [|done]]);
      (split_and!; [by apply inv_quiet|by apply (lines_ok_from st); [apply lines_from_upd|]|done]). }
  destruct H as (st1 & -> & Hs1 & Ec). cbn [mbind option_bind]. pose proof Hs1 as (Hi1 & Hl1 & Ht1).
  rewrite <- Ec in Hcl. destruct (det_all_ok ex cptr st1 c Hi1 Hcl) as (st2 & -> & Hi2 & Hf2 & Hc2 & _). cbn [mbind option_bind].
  destruct (remove_ok ex st1 st2 cptr c Hi2 Hc2 Hcl) as [Hir Er]. eexists. split; [done|]. rewrite Er, Ec. split; [|done].
  split_and!; [done| |].
  - apply (lines_ok_from st2); [by apply lines_from_eq|by apply (lines_ok_from st1)].
  - intros j x. rewrite Er. intros [_ Hx]%lookup_delete_Some. by apply (Ht1 j).
Qed.

(** *** connect_server() *)

(** The address of an entry changes, or whether an answer is awaited. *)
Record address_only (f : ConfItem -> ConfItem) : Prop := {
  ao_quiet : quiet f;
  ao_status : forall cf, status (f cf) = status cf;
  ao_line : forall cf, same_line cf (f cf) }.

Lemma upd_conf_id a st : upd_conf (fun cf => cf) a st = st.
Proof.
  destruct st. unfold upd_conf, with_confs. cbn. f_equal. apply map_eq. intros j. destruct (decide (j = a)) as [->|Hj].
  - rewrite lookup_alter_eq. by destruct (_ !! a).
  - by rewrite lookup_alter_ne.
Qed.

Lemma upd_conf_compose f g a st : upd_conf g a (upd_conf f a st) = upd_conf (fun cf => g (f cf)) a st.
Proof.
  unfold upd_conf, with_confs. cbn. f_equal. apply map_eq. intros j. destruct (decide (j = a)) as [->|Hj].
  - rewrite !lookup_alter_eq. by destruct (_ !! a).
  - by rewrite !lookup_alter_ne.
Qed.

Lemma lookup_address_spec e a cf h st :
  exists known f, lookup_address e a cf h st = (known, upd_conf f a st) /\ address_only f.
Proof.
  unfold lookup_address. destruct (ipnum cf =? INADDR_NONE).
  2:{ exists true, (fun cf => cf). rewrite upd_conf_id. split; [done|]. split; [by split|done|done]. }
  destruct (inet_addr e h =? INADDR_NONE); [|by eexists _, _].
  destruct (gethost_byname e (host_from_uh h)); rewrite upd_conf_compose; eexists _, _; (split; [reflexivity|]); by repeat split.
Qed.

Lemma sound_address ex f a st : address_only f -> sound ex st -> sound ex (upd_conf f a st).
Proof.
  intros [Hq Hs Hl] (Hi & Hlo & Ht). split_and!; [|by apply (lines_ok_from st); [apply lines_from_upd|]|done].
  apply inv_quiet; [done..|]. intros cf. unfold IsIllegal. by rewrite Hs.
Qed.

Lemma attachable_address text mask f a b st : address_only f ->
  attachable host text mask (upd_conf f a st) b <-> attachable host text mask st b.
Proof.
  intros [_ Hs Hl]. unfold attachable, upd_conf. cbn. destruct (decide (b = a)) as [->|Hb].
  2:{ by rewrite lookup_alter_ne. }
  rewrite lookup_alter_eq. unfold IsIllegal. split.
  - intros (cf' & g & (cf & Ha & ->)%fmap_Some & H). exists cf, g. split; [done|].
    destruct (Hl cf) as (_ & Eh & _). by rewrite Hs, Eh in H.
  - intros (cf & g & -> & H). exists (f cf), g. split; [done|]. destruct (Hl cf) as (_ & Eh & _). by rewrite Hs, Eh.
Qed.

(** What becomes of the new connection: it exists when there is a socket, and
    then has lines of the configuration that its host matches. *)
Definition link_post (e : link_env) (h : list Z) (ok : bool) (st st' : conf_state) : Prop :=
  GlobalConfList st' = GlobalConfList st /\
  delete (new_client e) (local_clients st') = local_clients st /\
  match local_clients st' !! new_client e with
  | None => ok = false
  | Some c => connect_inet e <> None /\ (connect_inet e = Some false -> ok = true /\ cli_status c = STAT_CONNECTING) /\
      cli_confs c <> [] /\
      forall b, b ∈ cli_confs c -> b ∈ GlobalConfList st /\ attachable host h CONF_SERVER st b
  end.

Lemma link_post_nothing e h st st' :
  GlobalConfList st' = GlobalConfList st -> local_clients st' = local_clients st -> local_clients st !! new_client e = None ->
  link_post e h false st st'.
Proof. intros Hg Hc Hn. split_and!; [done| |by rewrite Hc, Hn]. rewrite Hc. by apply delete_id. Qed.

Lemma completed_sound ex e cptr c st :
  sound ex st -> local_clients st !! cptr = Some c ->
  exists ok st', completed_connection e cptr st = Some (ok, st') /\ sound ex st' /\ GlobalConfList st' = GlobalConfList st /\
    exists s, local_clients st' = alter (set_cli_status s) cptr (local_clients st).
Proof.
  intros Hs Hcl. pose proof Hs as (Hi & Hl & Ht). unfold completed_connection. rewrite Hcl. cbn [mbind option_bind].
  assert (Hsame : local_clients st = alter (set_cli_status (cli_status c)) cptr (local_clients st)).
  { apply map_eq. intros j. destruct (decide (j = cptr)) as [->|Hj]; [|by rewrite lookup_alter_ne].
    rewrite lookup_alter_eq, Hcl. by destruct c. }
  destruct (sock_error e); [by eauto 10|]. destruct (cc_attached _ _ (cv_core _ _ (ci_weak _ _ Hi)) cptr c Hcl) as [_ Hlive].
  destruct (find_conf_byname_total st Hl (cli_confs c) (cli_name c)) as [r E]; [by apply (Ht cptr)|done|].
  rewrite E. cbn [mbind option_bind]. destruct r as [a|]; [|by eauto 10].
  assert (is_Some (confs st !! a)) as [cf ->].
  { apply Hlive. unfold find_conf_byname in E. case_match; [done|]. by apply first_conf_in in E as [? _]. }
  cbn [mbind option_bind]. eexists _, _. split; [done|]. split_and!; [by apply sound_client|done|by eexists].
Qed.

Lemma line_mask_cstring m : mask_ok m -> cstring m.
Proof. intros [Hm _]. eapply Forall_impl; [exact Hm|]. by intros x [? _]. Qed.

(** The new client before its lines are attached. *)
Definition with_new_client (e : link_env) (nm h : list Z) (st : conf_state) : conf_state :=
  with_clients (<[new_client e := connecting_client nm h]> (local_clients st)) st.

Lemma new_client_sound ex e nm h st :
  sound ex st -> mask_ok nm -> mask_ok h -> local_clients st !! new_client e = None -> sound ex (with_new_client e nm h st).
Proof.
  intros (Hi & Hl & Ht) On Oh Hnew. split_and!; [by apply inv_connect|done|].
  intros j x Hx. cbn in Hx. apply lookup_insert_Some in Hx as [[<- <-]|[_ Hx]]; [|by apply (Ht j)].
  split_and!; cbn; [by apply cstring_take, line_mask_cstring|constructor|by apply cstring_take, line_mask_cstring|done].
Qed.

Lemma attach_byhost_sound ex st cptr c h :
  sound ex st -> local_clients st !! cptr = Some c -> cli_confs c = [] -> mask_ok h ->
  exists r st' kp, attach_confs_byhost cptr h CONF_SERVER st = Some (r, st') /\ sound ex st' /\ recounted st st' /\
    local_clients st' = alter (set_confs kp) cptr (local_clients st) /\
    forall b, b ∈ kp -> b ∈ GlobalConfList st /\ attachable host h CONF_SERVER st b.
Proof.
  intros Hs Hcl Hnil Oh. pose proof Hs as (Hi & Hl & Ht). unfold attach_confs_byhost, attach_confs_by.
  destruct (HOSTLEN <? length h)%nat.
  { exists None, st, []. split_and!; [done..| |]; [by rewrite <- Hnil, (alter_set_confs_id _ _ _ Hcl)|].
    intros b Hb. by apply not_elem_of_nil in Hb. }
  destruct (attach_loop_inv ex host cptr h CONF_SERVER (GlobalConfList st) None st c host_field)
    as (r & st' & kp & E & Hi' & Hr & Hc' & Hk); [by apply line_mask_cstring| |done|done| |].
  { intros b x Hb Hm. destruct (server_line st b x Hl Hb Hm) as (n & h' & _ & ? & _ & ?). by exists h'. }
  { intros b. by apply (conf_list_live ex). }
  exists r, st', kp. split_and!; [done| |done|done|].
  - by apply (sound_from ex st _ (set_confs kp) cptr); [|..|apply recounted_lines| |].
  - intros b Hb. destruct (Hk b Hb) as [Hb'|H]; [|done]. rewrite Hnil in Hb'. by apply not_elem_of_nil in Hb'.
Qed.

Lemma give_up_sound ex e h st0 st cptr c :
  cptr = new_client e -> sound ex st -> local_clients st !! cptr = Some c ->
  delete cptr (local_clients st) = local_clients st0 -> GlobalConfList st = GlobalConfList st0 ->
  local_clients st0 !! cptr = None ->
  exists ok st', (st ← det_confs_butmask cptr 0 st; Some (false, remove_client cptr st)) = Some (ok, st') /\
    sound ex st' /\ link_post e h ok st0 st'.
Proof.
  intros -> (Hi & Hl & Ht) Hcl Hdel Hg Hnew.
  destruct (det_all_ok ex (new_client e) st c Hi Hcl) as (st4 & -> & Hi4 & Hf4 & Hc4 & Hg4 & _). cbn [mbind option_bind].
  destruct (remove_ok ex st st4 (new_client e) c Hi4 Hc4 Hcl) as [Hir Er]. eexists _, _. split; [done|].
  rewrite Hdel in Er. split; [|apply link_post_nothing; [cbn; by rewrite Hg4, Hg|done|done]]. split_and!; [done| |].
  - apply (lines_ok_from st4); [by apply lines_from_eq|by apply (lines_ok_from st)].
  - intros j x. rewrite Er, <- Hdel. intros [_ Hx]%lookup_delete_Some. by apply (Ht j).
Qed.

(** The connection is under way. *)
Lemma start_sound ex e h a cf st0 st c connected :
  sound ex st -> connect_inet e = Some connected -> local_clients st !! new_client e = Some c -> confs st !! a = Some cf ->
  delete (new_client e) (local_clients st) = local_clients st0 -> GlobalConfList st = GlobalConfList st0 ->
  cli_confs c <> [] -> (forall b, b ∈ cli_confs c -> b ∈ GlobalConfList st0 /\ attachable host h CONF_SERVER st0 b) ->
  exists ok st', (cf ← confs st !! a;
      let st := upd_client (set_cli_ip (ipnum cf)) (new_client e) st in
      let st := upd_client (set_cli_status STAT_CONNECTING) (new_client e) st in
      if connected then completed_connection e (new_client e) st else Some (true, st)) = Some (ok, st') /\
    sound ex st' /\ link_post e h ok st0 st'.
Proof.
  intros Hs Hin Hcl Ha Hdel Hg Hne Hk. rewrite Ha. cbn [mbind option_bind]. cbv zeta.
  set (st1 := upd_client _ (new_client e) (upd_client _ _ st)).
  assert (Hs1 : sound ex st1) by (apply sound_client; [apply sound_client|..]; done).
  set (c1 := set_cli_status STAT_CONNECTING (set_cli_ip (ipnum cf) c)).
  assert (Hc1 : local_clients st1 !! new_client e = Some c1).
  { cbn. by rewrite !lookup_alter_eq, Hcl. }
  assert (Hd1 : delete (new_client e) (local_clients st1) = local_clients st0) by (cbn; by rewrite !delete_alter).
  destruct connected.
  - destruct (completed_sound ex e (new_client e) c1 st1 Hs1 Hc1) as (ok & st2 & -> & Hs2 & Hg2 & (s & Hc2)).
    exists ok, st2. split; [done|]. split; [done|]. split_and!; [by rewrite Hg2|by rewrite Hc2, delete_alter|].
    rewrite Hc2, lookup_alter_eq, Hc1. cbn. rewrite Hin. split_and!; done.
  - exists true, st1. split; [done|]. split; [done|]. split_and!; [done|done|]. rewrite Hc1, Hin. by split_and!.
Qed.

Lemma connect_sound ex e a cf nm h st :
  sound ex st -> confs st !! a = Some cf -> name cf = Some nm -> host cf = Some h -> mask_ok nm -> mask_ok h ->
  local_clients st !! new_client e = None ->
  exists ok st', connect_server e a st = Some (ok, st') /\ sound ex st' /\ link_post e h ok st st'.
Proof.
  intros Hs Hcf Hnm Hh On Oh Hnew. unfold connect_server. rewrite Hcf. cbn [mbind option_bind].
  assert (Hout : exists ok st', Some (false, st) = Some (ok, st') /\ sound ex st' /\ link_post e h ok st st').
  { exists false, st. split_and!; [done|done|by apply link_post_nothing]. }
  destruct (dns_pending cf); [done|]. rewrite Hnm. cbn [mbind option_bind].
  destruct (FindClient_busy e nm); [done|]. clear Hout. rewrite Hh. cbn [mbind option_bind].
  destruct (lookup_address_spec e a cf h st) as (known & f & -> & Hf).
  pose proof (sound_address ex f a st Hf Hs) as Hs1. set (st1 := upd_conf f a st) in *.
  destruct known; cbn [negb]; [|exists false, st1; split_and!; [done|done|by apply link_post_nothing]].
  fold (with_new_client e nm h st1). set (st2 := with_new_client e nm h st1).
  assert (Hs2 : sound ex st2) by by apply new_client_sound.
  assert (Hc2 : local_clients st2 !! new_client e = Some (connecting_client nm h)) by apply lookup_insert_eq.
  assert (Hdel : delete (new_client e) (local_clients st2) = local_clients st).
  { unfold st2, with_new_client. cbn. by apply delete_insert_id. }
  destruct (attach_byhost_sound ex st2 (new_client e) _ h Hs2 Hc2 eq_refl Oh) as (r & st3 & kp & -> & Hs3 & Hr3 & Hc3 & Hkp).
  cbn [mbind option_bind]. set (c3 := set_confs kp (connecting_client nm h)).
  assert (Hcl3 : local_clients st3 !! new_client e = Some c3) by (by rewrite Hc3, lookup_alter_eq, Hc2).
  rewrite Hcl3. cbn [mbind option_bind]. pose proof Hs3 as (Hi3 & Hl3 & _).
  destruct (cc_attached _ _ (cv_core _ _ (ci_weak _ _ Hi3)) _ _ Hcl3) as [_ Hlive].
  destruct (find_conf_byhost_total st3 Hl3 (cli_confs c3) h (line_mask_cstring h Oh) Hlive) as [found Ef].
  rewrite Ef. cbn [mbind option_bind].
  assert (Hd3 : delete (new_client e) (local_clients st3) = local_clients st) by (by rewrite Hc3, delete_alter).
  assert (Hg3 : GlobalConfList st3 = GlobalConfList st) by apply Hr3.
  destruct found as [fa|]; [|by apply (give_up_sound ex e h st st3 _ c3)].
  destruct (connect_inet e) as [connected|] eqn:Ein; [|by apply (give_up_sound ex e h st st3 _ c3)].
  assert (is_Some (confs st3 !! a)) as [cf3 Hcf3].
  { apply (recounted_is_Some st2 st3 a Hr3). cbn. apply alter_is_Some. by exists cf. }
  apply (start_sound ex e h a cf3 st st3 c3); try done.
  - intros E. unfold find_conf_byhost in Ef. case_match; [done|]. apply first_conf_in in Ef as [Hin _].
    rewrite E in Hin. by apply not_elem_of_nil in Hin.
  - intros b Hb. destruct (Hkp b Hb) as [Hb1 Hb2]. split; [done|]. exact (proj1 (attachable_address h CONF_SERVER f a b st Hf) Hb2).
Qed.
