(* ===== verification/Rehash.v ===== *)
(** * ircd/s_conf.c, ircd/ircd_parser.y: the configuration is read again

    The configuration file is the sequence of the blocks that the parser
    reduces, each with the values its variables have then; rehash() marks what
    there is, reads the file, resets the features the file does not set, drops
    what is not used, and closes the connections a K line or a G-line is for. *)
From S2P Require Import Prelude Chattr NumText IrcdString Match Bans Class Conf ConfLink.
Open Scope ircd_scope.

#[local] Arguments upd_class : simpl never.

(** ** Features (ircd_features.c)

    The four features that init_class() is told about, in their order in the
    table. *)
Inductive class_feature := FEAT_MAXIMUM_LINKS | FEAT_PINGFREQUENCY | FEAT_CONNECTFREQUENCY | FEAT_DEFAULTMAXSENDQLENGTH.

#[export] Instance class_feature_dec : EqDecision class_feature.
Proof. solve_decision. Defined.

Definition class_features_table : list class_feature :=
  [FEAT_MAXIMUM_LINKS; FEAT_PINGFREQUENCY; FEAT_CONNECTFREQUENCY; FEAT_DEFAULTMAXSENDQLENGTH].

Definition def_int (f : class_feature) : Z :=
  match f with
  | FEAT_MAXIMUM_LINKS => 1 | FEAT_PINGFREQUENCY => 120 | FEAT_CONNECTFREQUENCY => 600
  | FEAT_DEFAULTMAXSENDQLENGTH => 40000
  end.

Definition v_int (f : class_feature) (F : class_features) : Z :=
  match f with
  | FEAT_MAXIMUM_LINKS => MAXIMUM_LINKS F | FEAT_PINGFREQUENCY => PINGFREQUENCY F
  | FEAT_CONNECTFREQUENCY => CONNECTFREQUENCY F | FEAT_DEFAULTMAXSENDQLENGTH => DEFAULTMAXSENDQLENGTH F
  end.

Definition set_v_int (f : class_feature) (v : Z) (F : class_features) : class_features :=
  match f with
  | FEAT_MAXIMUM_LINKS => Build_class_features (PINGFREQUENCY F) (CONNECTFREQUENCY F) v (DEFAULTMAXSENDQLENGTH F)
  | FEAT_PINGFREQUENCY => Build_class_features v (CONNECTFREQUENCY F) (MAXIMUM_LINKS F) (DEFAULTMAXSENDQLENGTH F)
  | FEAT_CONNECTFREQUENCY => Build_class_features (PINGFREQUENCY F) v (MAXIMUM_LINKS F) (DEFAULTMAXSENDQLENGTH F)
  | FEAT_DEFAULTMAXSENDQLENGTH => Build_class_features (PINGFREQUENCY F) (CONNECTFREQUENCY F) (MAXIMUM_LINKS F) v
  end.

(** The features with FEAT_MARK. *)
Definition marks : Type := class_feature -> bool.
Definition no_marks : marks := fun _ => false.
Definition set_mark (f : class_feature) (b : bool) (m : marks) : marks := fun g => if decide (g = f) then b else m g.

(** A value is stored, and init_class() called when it is another one. *)
Definition change_feature (f : class_feature) (v : Z) (st : conf_state) : conf_state :=
  let F := set_v_int f v (features st) in
  if v_int f (features st) =? v then with_features F st
  else with_features F (with_classes (init_class F (class_list st)) st).

(** feature_set() for a feature of the table: [None] when no value is given,
    and else what strtoul() makes of it. *)
Definition new_value (f : class_feature) (v : option Z) : Z :=
  match v with Some t => s32 t | None => def_int f end.

Definition feature_set (f : class_feature) (v : option Z) (m : marks) (st : conf_state) : marks * conf_state :=
  (set_mark f (negb (new_value f v =? def_int f)) m, change_feature f (new_value f v) st).

(** feature_mark(): the features the file did not set. *)
Definition feature_mark (m : marks) (st : conf_state) : conf_state :=
  foldl (fun st f => if m f then st else change_feature f (def_int f) st) st class_features_table.

(** ** The configuration file (ircd_parser.y) *)

(** A block with the values of the parser's variables at its end; a class is
    given by name, [None] standing for a block without that item.  The items of
    a Features block are blocks of their own. *)
Inductive block :=
  | ClassBlock (nm : option (list Z)) (ping freq maxli sendq : Z) (umode : option (list Z)) (prop : option bool)
  | ClientBlock (cls : option (list Z)) (pass ip user h : option (list Z)) (prt maxlinks : Z)
  | ConnectBlock (cls nm pass h hub : option (list Z)) (prt maxlinks flags : Z)
  | OperBlock (cls nm pass : option (list Z)) (hosts : list (list Z)) (oflags : option (list Z)) (prop : option bool)
  | FeatureItem (f : class_feature) (v : option Z).

(** oper_access[] *)
Definition oper_access : list (Z * Z) :=
  [(1, 79); (2, 65); (4, 82); (8, 114); (16, 87); (32, 73); (64, 88); (128, 110)].

(** The loop over the letters of the flags. *)
Definition oper_bits (m : list Z) : Z :=
  foldl (fun p c => match list_find (fun e : Z * Z => e.2 = c) oper_access with Some (_, e) => p .| e.1 | None => p end) 0 m.

Section config.
(** What sscanf() makes of the text of an address, the number of bits and the
    address; inet_addr(); and what the resolver answers at once. *)
Variables (scan_ip : list Z -> Z * Z) (inet_addr : list Z -> Z) (gethost_byname : list Z -> option Z).

(** The host without what is before a slash, the address to connect from. *)
Definition confhost (h : list Z) : list Z := match split_at 47 h with Some (_, r) => r | None => h end.

(** lookup_confhost(); gethost_byname() leaves a query when it has no answer. *)
Definition lookup_confhost (cf : ConfItem) : ConfItem :=
  match host cf, name cf with
  | Some ((_ :: _) as h), Some (_ :: _) =>
      let h := confhost h in
      let cf := set_host h cf in
      if IsDigit (hd0 h) then set_ipnum (inet_addr h) cf
      else if dns_pending cf then cf
      else match gethost_byname (host_from_uh h) with
           | Some ip => set_ipnum ip cf
           | None => set_dns_pending true cf
           end
  | _, _ => cf
  end.

Definition pass_too_long (pass : option (list Z)) : bool :=
  match pass with Some p => (PASSWDLEN <? length p)%nat | None => false end.

(** The class item of a block; without one c_class is what it was. *)
Definition block_class (cls : option (list Z)) (c_class : option N) (st : conf_state) : option (option N) :=
  match cls with Some nm => find_class (class_list st) nm | None => Some c_class end.

(** The end of a Class block: c_class stays. *)
Definition class_block_end (nm : option (list Z)) (ping freq maxli sendq : Z) (umode : option (list Z)) (prop : option bool)
    (c_class : option N) (st : conf_state) : option (option N * conf_state) :=
  match nm with
  | None => Some (c_class, st)
  | Some nm =>
      cs ← add_class (features st) nm ping freq maxli sendq (class_list st);
      k ← find_class cs nm;
      p ← k;
      Some (Some p, with_classes (upd_class (set_privs umode prop) p cs) st)
  end.

Definition client_fields (k : N) (ip user h : option (list Z)) (prt maxlinks : Z) (cf : ConfItem) : ConfItem :=
  let '(b, addr) := match ip with Some t => let '(b, addr) := scan_ip t in (schar (u8 b), addr) | None => (bits cf, ipnum cf) end in
  MkConf (status cf) (clients cf) (u32 maxlinks) (Some k) addr user h ip (hold cf) (u16 prt) b (conf_flags cf) (dns_pending cf).

Definition client_block_end (ip user h pass : option (list Z)) (prt maxlinks : Z) (c_class : option N)
    (st : conf_state) : conf_state :=
  let bad_ip := match ip with Some t => negb (bool_decide (t = [42])) && negb (check_if_ipmask t) | None => false end in
  match c_class with
  | None => st
  | Some k =>
      if pass_too_long pass || bad_ip then st
      else make_conf CONF_CLIENT (client_fields k ip user h prt maxlinks) st
  end.

Definition connect_fields (k : N) (nm h : list Z) (hub : option (list Z)) (prt maxlinks flags : Z) (cf : ConfItem) : ConfItem :=
  lookup_confhost
    (MkConf (status cf) (clients cf)
       (u32 (match hub with Some _ => if maxlinks =? 0 then 65535 else maxlinks | None => maxlinks end))
       (Some k) (ipnum cf) (username cf) (Some h) (Some nm) (hold cf) (u16 prt) (bits cf) flags (dns_pending cf)).

Definition connect_block_end (nm pass h hub : option (list Z)) (prt maxlinks flags : Z) (c_class : option N)
    (st : conf_state) : conf_state :=
  match nm, pass, h, c_class with
  | Some nm, Some p, Some h, Some k =>
      if pass_too_long pass || existsb (fun c => (c =? 42) || (c =? 63)) h then st
      else make_conf CONF_SERVER (connect_fields k nm h hub prt maxlinks flags) st
  | _, _, _, _ => st
  end.

(** An entry of an Operator block, with the host completed by a user mask; [m]
    are the letters of its kind, which an empty flags item leaves. *)
Definition oper_fields (k : N) (nm h m : list Z) (oflags : option (list Z)) (cf : ConfItem) : ConfItem :=
  let m := match oflags with None => lit "O" | Some [] => m | Some s => s end in
  MkConf (status cf) (clients cf) (maximum cf) (Some k) (ipnum cf) (username cf)
    (Some (if bool_decide (64 ∈ h) then h else lit "*@" ++ h)) (Some nm) (hold cf) (u16 (port cf .| oper_bits m))
    (bits cf) (conf_flags cf) (dns_pending cf).

Definition is_set (p : option bool) : bool := match p with Some b => b | None => false end.
Definition is_dirty (p : option bool) : bool := match p with Some _ => true | None => false end.

Definition oper_block_end (nm pass : option (list Z)) (hosts : list (list Z)) (oflags : option (list Z)) (prop : option bool)
    (c_class : option N) (st : conf_state) : option conf_state :=
  match nm, pass, hosts, c_class with
  | Some nm, Some _, _ :: _, Some k =>
      cl ← classes (class_list st) !! k;
      if negb (is_dirty prop) && negb (is_dirty (propagate cl)) then Some st
      else
        let '(type, m) := if is_set prop || is_set (propagate cl) then (CONF_OPERATOR, lit "O") else (CONF_LOCOP, lit "o") in
        Some (foldl (fun st h => make_conf type (oper_fields k nm h m oflags) st) st hosts)
  | _, _, _, _ => Some st
  end.

Definition read_block (b : block) (c_class : option N) (m : marks) (st : conf_state)
  : option (option N * marks * conf_state) :=
  match b with
  | ClassBlock nm ping freq maxli sendq umode prop =>
      '(c_class, st) ← class_block_end nm ping freq maxli sendq umode prop c_class st;
      Some (c_class, m, st)
  | ClientBlock cls pass ip user h prt maxlinks =>
      c_class ← block_class cls c_class st;
      Some (None, m, client_block_end ip user h pass prt maxlinks c_class st)
  | ConnectBlock cls nm pass h hub prt maxlinks flags =>
      c_class ← block_class cls c_class st;
      Some (None, m, connect_block_end nm pass h hub prt maxlinks flags c_class st)
  | OperBlock cls nm pass hosts oflags prop =>
      c_class ← block_class cls c_class st;
      st ← oper_block_end nm pass hosts oflags prop c_class st;
      Some (None, m, st)
  | FeatureItem f v => let '(m, st) := feature_set f v m st in Some (c_class, m, st)
  end.

Fixpoint read_blocks (bs : list block) (c_class : option N) (m : marks) (st : conf_state)
  : option (option N * marks * conf_state) :=
  match bs with
  | [] => Some (c_class, m, st)
  | b :: r => '(c_class, m, st) ← read_block b c_class m st; read_blocks r c_class m st
  end.

(** read_configuration_file(); [None] is a file that cannot be opened. *)
Definition read_configuration_file (file : option (list block)) (c_class : option N) (st : conf_state)
  : option (option N * conf_state) :=
  match file with
  | None => Some (c_class, st)
  | Some bs => '(c_class, m, st) ← read_blocks bs c_class no_marks st; Some (c_class, feature_mark m st)
  end.

(** ** rehash() *)

(** The first loop: the entries in use are marked, and those of clients stay in
    the list; the others are freed. *)
Fixpoint mark_confs (l : list N) (st : conf_state) : option (list N * conf_state) :=
  match l with
  | [] => Some ([], st)
  | a :: r =>
      cf ← confs st !! a;
      if negb (clients cf =? 0) then
        '(r', st) ← mark_confs r (upd_conf (set_status (status cf .| CONF_ILLEGAL)) a st);
        Some (if status cf .& CONF_CLIENT =? CONF_CLIENT then a :: r' else r', st)
      else st ← free_conf a st; mark_confs r st
  end.

(** The second loop: the marked entries leave the list. *)
Fixpoint flush_confs (l : list N) (st : conf_state) : option (list N * conf_state) :=
  match l with
  | [] => Some ([], st)
  | a :: r =>
      cf ← confs st !! a;
      if IsIllegal cf then
        st ← if clients cf =? 0 then free_conf a st else Some st; flush_confs r st
      else '(r', st) ← flush_confs r st; Some (a :: r', st)
  end.

(** The loop over LocalClientArray, in its order: a server loses what it must,
    and a client find_kill() is for leaves; the result is whether one of them
    was [who], the client the command came from. *)
Fixpoint check_clients (t : clock) (find_kill : N -> bool) (who : option N) (l : list N) (ret : bool) (st : conf_state)
  : option (bool * conf_state) :=
  match l with
  | [] => Some (ret, st)
  | cptr :: r =>
      c ← local_clients st !! cptr;
      st ← if decide (cli_status c = STAT_SERVER) then det_confs_butmask cptr (2 ^ 32 - 1 - CONF_ILLEGAL) st else Some st;
      if find_kill cptr then
        st ← exit_client t cptr st;
        check_clients t find_kill who r (ret || bool_decide (who = Some cptr)) st
      else check_clients t find_kill who r ret st
  end.

(** The result is whether [who] was killed; c_class is the parser's. *)
Definition rehash (file : option (list block)) (c_class : option N) (t : clock) (find_kill : N -> bool) (who : option N)
    (order : list N) (st : conf_state) : option (bool * option N * conf_state) :=
  '(l, st) ← mark_confs (GlobalConfList st) st;
  let st := with_conf_list l st in
  cs ← class_mark_delete (class_list st);
  '(c_class, st) ← read_configuration_file file c_class (with_classes cs st);
  cs ← class_delete_marked (class_list st);
  let st := with_classes cs st in
  '(l, st) ← flush_confs (GlobalConfList st) st;
  '(ret, st) ← check_clients t find_kill who order false (with_conf_list l st);
  Some (ret, c_class, st).
End config.

(** ** Lemmas: rehash() *)
Definition illegal (cf : ConfItem) : ConfItem := set_status (status cf .| CONF_ILLEGAL) cf.

Lemma illegal_quiet : quiet illegal.
Proof. split; [done..|]. intros cf. cbn. by apply has_bits_lor_disjoint. Qed.

Lemma illegal_IsIllegal cf : IsIllegal (illegal cf) = true.
Proof.
  unfold IsIllegal, has_bits. cbn [illegal set_status status]. apply negb_true_iff, Z.eqb_neq.
  rewrite Z.land_lor_distr_l, Z.land_diag, Z.lor_eq_0_iff. by intros [_ ?].
Qed.

Lemma upd_conf_illegal a cf st : confs st !! a = Some cf ->
  upd_conf (set_status (status cf .| CONF_ILLEGAL)) a st = upd_conf illegal a st.
Proof.
  intros Ha. unfold upd_conf. f_equal. apply map_eq. intros j. destruct (decide (j = a)) as [->|E].
  - by rewrite !lookup_alter_eq, Ha.
  - by rewrite !lookup_alter_ne.
Qed.

(** What the first loop makes of an entry. *)
Definition marked_conf (cf : ConfItem) : option ConfItem :=
  if clients cf =? 0 then None else Some (illegal cf).

(** The stores apart from the entries, and the list, are the same. *)
Definition same_rest (st st' : conf_state) : Prop :=
  features st' = features st /\ class_list st' = class_list st /\ local_clients st' = local_clients st /\
  GlobalConfList st' = GlobalConfList st.

Lemma mark_confs_spec ex l st :
  conf_core ex st -> NoDup l -> (forall a, a ∈ l -> is_Some (confs st !! a)) ->
  exists l' st', mark_confs l st = Some (l', st') /\ conf_core ex st' /\ same_rest st st' /\ NoDup l' /\
    (forall a, a ∈ l' -> a ∈ l /\ is_Some (confs st' !! a)) /\
    (forall a, confs st' !! a = if decide (a ∈ l) then confs st !! a ≫= marked_conf else confs st !! a).
Proof.
  revert st. induction l as [|a l IH]; intros st Hc Hnd Hlive; cbn [mark_confs].
  { exists [], st. split_and!; try done. intros a Ha. by apply not_elem_of_nil in Ha. }
  apply NoDup_cons in Hnd as [Ha Hnd]. destruct (Hlive a ltac:(left)) as [cf Hcf]. rewrite Hcf. cbn [mbind option_bind].
  destruct (clients cf =? 0) eqn:E0; cbn [negb].
  - bprop. unfold free_conf. rewrite Hcf. cbn [mbind option_bind].
    destruct (IH (with_confs (delete a (confs st)) st)) as (l' & st' & Hm & Hc' & Hs & Hnd' & Hl' & Hlook).
    { by apply (core_free ex a cf). }
    { done. }
    { intros b Hb. cbn. rewrite lookup_delete_ne by (by intros ->). apply Hlive. by right. }
    exists l', st'. split_and!; try done.
    + intros b Hb. destruct (Hl' b Hb). split; [by right|done].
    + intros b. rewrite Hlook. cbn. destruct (decide (b = a)) as [->|Hb].
      * rewrite decide_False, lookup_delete_eq, decide_True by (done || left). rewrite Hcf. cbn. unfold marked_conf. by rewrite E0.
      * rewrite lookup_delete_ne by done. apply decide_ext. set_solver.
  - rewrite (upd_conf_illegal a cf) by done.
    destruct (IH (upd_conf illegal a st)) as (l' & st' & Hm & Hc' & Hs & Hnd' & Hl' & Hlook).
    { apply core_quiet; [done|apply illegal_quiet]. }
    { done. }
    { intros b Hb. cbn. apply alter_is_Some. apply Hlive. by right. }
    rewrite Hm. cbn [mbind option_bind]. eexists _, st'. split; [done|].
    assert (Hlook' : forall b, confs st' !! b = if decide (b ∈ a :: l) then confs st !! b ≫= marked_conf else confs st !! b).
    { intros b. rewrite Hlook. cbn. destruct (decide (b = a)) as [->|Hb].
      - rewrite decide_False, lookup_alter_eq, decide_True by (done || left). rewrite Hcf. cbn. unfold marked_conf. by rewrite E0.
      - rewrite lookup_alter_ne by done. apply decide_ext. set_solver. }
    assert (Has : is_Some (confs st' !! a)).
    { rewrite Hlook', decide_True by left. rewrite Hcf. cbn. unfold marked_conf. by rewrite E0. }
    split_and!; try done.
    + case_match; [|done]. apply NoDup_cons. split; [|done]. intros Hin. by destruct (Hl' a Hin).
    + intros b Hb. assert (Hb' : b = a \/ b ∈ l') by (case_match; [by apply elem_of_cons in Hb|by right]).
      destruct Hb' as [->|Hb']; [split; [left|done]|]. destruct (Hl' b Hb'). split; [by right|done].
Qed.

(** After the loop every entry is marked and in use. *)
Definition all_marked (st : conf_state) : Prop :=
  forall a cf, confs st !! a = Some cf -> IsIllegal cf = true /\ 0 < clients cf.

Lemma mark_weak ex st :
  conf_inv ex st ->
  exists l st', mark_confs (GlobalConfList st) st = Some (l, st') /\ same_rest st st' /\
    conf_weak ex (with_conf_list l st') /\ all_marked (with_conf_list l st').
Proof.
  intros Hi. pose proof (ci_weak _ _ Hi) as Hw. pose proof (cv_core _ _ Hw) as Hc.
  destruct (mark_confs_spec ex (GlobalConfList st) st Hc (cv_nodup _ _ Hw) (cv_list _ _ Hw))
    as (l & st' & Hm & Hc' & Hs & Hnd & Hl & Hlook).
  exists l, st'. split; [done|]. split; [done|].
  assert (Hall : all_marked (with_conf_list l st')).
  { intros a cf Ha. cbn in Ha. rewrite Hlook in Ha. case_decide as Hin.
    - apply bind_Some in Ha as (cf0 & Ha & Hmk). unfold marked_conf in Hmk. case_match eqn:E0; [done|]. injection Hmk as <-.
      split; [apply illegal_IsIllegal|]. bprop. cbn. pose proof (core_clients_nonneg ex st a cf0 Hc Ha). lia.
    - pose proof (cv_entry _ _ Hw a cf Ha) as He. unfold entry_ok in He. case_match; [done|]. by destruct He. }
  split; [|done]. split.
  - destruct Hc'. by split.
  - done.
  - intros a Ha. by apply Hl.
  - intros a cf Ha. destruct (Hall a cf Ha) as [Ei ?]. unfold entry_ok. by rewrite Ei.
Qed.

Lemma class_mark_weak ex st :
  conf_weak ex st -> all_marked st ->
  exists cs, class_mark_delete (class_list st) = Some cs /\ conf_weak ex (with_classes cs st).
Proof.
  intros Hw Hall. pose proof (cv_core _ _ Hw) as Hc.
  destruct (class_mark_spec (class_list st) (cc_class _ _ Hc)) as (cs & Hm & Hwf & El & _ & Hlook).
  exists cs. split; [done|].
  assert (Hcc : conf_core ex (with_classes cs st)).
  { apply (core_classes ex); try done.
    - unfold default_class. by rewrite El.
    - intros a cf k Ha Hk. rewrite Hlook, fmap_is_Some. by apply (conf_class_live ex st a cf).
    - intros k cl Hk _. rewrite Hlook in Hk. apply fmap_Some in Hk as (cl0 & -> & ->). unfold marked. by case_decide. }
  split; [done|exact (cv_nodup _ _ Hw)|exact (cv_list _ _ Hw)|]. intros a cf Ha. destruct (Hall a cf Ha) as [Ei ?].
  unfold entry_ok. by rewrite Ei.
Qed.

Lemma class_delete_weak ex st :
  conf_weak ex st ->
  exists cs, class_delete_marked (class_list st) = Some cs /\ conf_weak ex (with_classes cs st).
Proof.
  intros Hw. pose proof (cv_core _ _ Hw) as Hc.
  destruct (class_delete_spec (class_list st) (cc_class _ _ Hc)) as (cs & Hm & Hwf & Ed & _ & Hlook).
  exists cs. split; [done|].
  assert (Hkeep : forall k, valid_class (class_list st) k -> valid_class cs k).
  { intros k (cl & Hk & Hv). exists cl. rewrite Hlook. unfold kept. rewrite Hk. unfold keep_class. by rewrite Hv. }
  apply (weak_classes ex); [done| |done]. apply (core_classes ex); try done.
  - intros a cf k Ha Hk. destruct (conf_class_live ex st a cf k Hc Ha Hk) as [cl Hcl].
    rewrite Hlook. unfold kept. rewrite Hcl. unfold keep_class. destruct (valid cl) eqn:Ev; [by eexists|].
    pose proof (cv_entry _ _ Hw a cf Ha) as He. unfold entry_ok in He. destruct (IsIllegal cf).
    + assert (Hd : k <> default_class (class_list st)).
      { intros ->. destruct (default_head _ (cc_class _ _ Hc)) as (t & cl' & _ & Hx & _ & Hv). congruence. }
      rewrite (cc_links _ _ Hc k cl Hcl ltac:(by left)). pose proof (class_links_ge ex st a cf k Hc Ha Hk).
      rewrite (proj2 (Z.ltb_lt _ _)) by lia. by eexists.
    + destruct He as [_ (k' & Hk' & (cl' & Hcl' & Hv))]. congruence.
  - intros k cl Hk _. rewrite Hlook in Hk. destruct (kept (class_list st) k); [|done]. by rewrite Hk.
Qed.

Lemma flush_spec l st :
  (forall a, a ∈ l -> exists cf, confs st !! a = Some cf /\ (IsIllegal cf = true -> 0 < clients cf)) ->
  flush_confs l st = Some (filter (fun a => (IsIllegal <$> confs st !! a) = Some false) l, st).
Proof.
  induction l as [|a l IH]; intros Hl; [done|]. cbn [flush_confs]. destruct (Hl a ltac:(left)) as (cf & Hcf & Hi).
  rewrite Hcf. cbn [mbind option_bind]. specialize (IH ltac:(intros b Hb; apply Hl; by right)).
  destruct (IsIllegal cf) eqn:Ei.
  - specialize (Hi eq_refl). rewrite (proj2 (Z.eqb_neq _ _)) by lia. cbn [mbind option_bind]. rewrite IH.
    rewrite filter_cons_False; [done|]. rewrite Hcf. cbn. congruence.
  - rewrite IH. cbn [mbind option_bind]. rewrite filter_cons_True; [done|]. rewrite Hcf. cbn. congruence.
Qed.

Lemma flush_inv ex st :
  conf_weak ex st ->
  exists l, flush_confs (GlobalConfList st) st = Some (l, st) /\ conf_inv ex (with_conf_list l st) /\
    l = filter (fun a => (IsIllegal <$> confs st !! a) = Some false) (GlobalConfList st).
Proof.
  intros Hw. eexists. split; [apply flush_spec|split; [|done]].
  { intros a Ha. destruct (cv_list _ _ Hw a Ha) as [cf Hcf]. exists cf. split; [done|]. intros Ei.
    pose proof (cv_entry _ _ Hw a cf Hcf) as He. unfold entry_ok in He. by rewrite Ei in He. }
  split; [split|].
  - destruct (cv_core _ _ Hw). by split.
  - apply NoDup_filter. exact (cv_nodup _ _ Hw).
  - intros a [_ Ha]%list_elem_of_filter. by apply (cv_list _ _ Hw).
  - intros a cf Ha. pose proof (cv_entry _ _ Hw a cf Ha) as He. unfold entry_ok in *. destruct (IsIllegal cf) eqn:Ei; [done|].
    destruct He as [Hin ?]. split; [|done]. cbn. apply list_elem_of_filter. split; [|done].
    change (confs _ !! a) with (confs st !! a) in Ha. rewrite Ha. cbn. congruence.
  - intros a cf [Ha _]%list_elem_of_filter Hcf. change (confs _ !! a) with (confs st !! a) in Hcf. rewrite Hcf in Ha.
    cbn in Ha. congruence.
Qed.

(** Every entry has a status bit besides CONF_ILLEGAL: nothing is detached from
    a server. *)
Lemma detach_server_id ex cptr c st :
  conf_inv ex st -> local_clients st !! cptr = Some c -> det_confs_butmask cptr (2 ^ 32 - 1 - CONF_ILLEGAL) st = Some st.
Proof.
  intros Hi Hcl. unfold det_confs_butmask. rewrite Hcl. cbn [mbind option_bind].
  destruct (cc_attached _ _ (cv_core _ _ (ci_weak _ _ Hi)) cptr c Hcl) as [_ Hlive]. revert Hlive.
  generalize (cli_confs c) as l2. induction l2 as [|a l2 IH2]; intros Hlive; [done|]. cbn [det_loop].
  destruct (Hlive a ltac:(left)) as [cf Hcf]. rewrite Hcf. cbn [mbind option_bind].
  destruct (cc_conf _ _ (cv_core _ _ (ci_weak _ _ Hi)) a cf Hcf) as [_ Hm].
  assert (has_bits (status cf) (2 ^ 32 - 1 - CONF_ILLEGAL) = true) as ->; [|apply IH2; intros; apply Hlive; by right].
  unfold has_bits in *. apply negb_true_iff, Z.eqb_neq in Hm. apply negb_true_iff, Z.eqb_neq. intros E. apply Hm.
  assert (CONF_CLIENT_MASK = Z.land (2 ^ 32 - 1 - CONF_ILLEGAL) CONF_CLIENT_MASK) as -> by reflexivity.
  by rewrite Z.land_assoc, E.
Qed.

(** Classes that differ in their counters only. *)
Definition recounted_classes (st st' : conf_state) : Prop :=
  features st' = features st /\
  forall k, exists n, classes (class_list st') !! k = set_ref_count n <$> classes (class_list st) !! k.

#[export] Instance recounted_classes_preorder : PreOrder recounted_classes.
Proof.
  split.
  - intros st. split; [done|]. intros k. destruct (classes (class_list st) !! k) as [cl|]; [|by exists 0].
    exists (ref_count cl). by destruct cl.
  - intros x y z [E1 H1] [E2 H2]. split; [congruence|]. intros k. destruct (H1 k) as [n Hn], (H2 k) as [m Hm].
    exists m. rewrite Hm, Hn. by destruct (classes (class_list x) !! k).
Qed.

Lemma recounted_upd n k st : recounted_classes st (with_classes (upd_class (set_ref_count n) k (class_list st)) st).
Proof.
  split; [done|]. intros j. cbn. rewrite upd_class_lookup. destruct (decide (j = k)) as [->|Hj]; [by exists n|].
  apply (proj2 (reflexivity (R := recounted_classes) st) j).
Qed.

Lemma detach_recounted cptr a st st' : detach_conf cptr a st = Some st' -> recounted_classes st st'.
Proof.
  unfold detach_conf. intros (c & _ & H)%bind_Some. apply bind_Some in H as (cf & _ & H).
  destruct (clients cf <=? 0); [done|]. destruct (unlink_first a (cli_confs c)); [|by injection H as <-].
  apply bind_Some in H as (st1 & H1 & H). apply bind_Some in H as (st2 & H2 & [= <-]).
  assert (Hr1 : recounted_classes st st1).
  { unfold drop_link in H1. destruct (conn_class cf); [|by injection H1 as <-].
    destruct (has_bits (status cf) CONF_CLIENT_MASK); [|by injection H1 as <-].
    apply bind_Some in H1 as (cl & _ & [= <-]). destruct (0 <? ref_count cl); [apply recounted_upd|done]. }
  assert (Hr2 : class_list st2 = class_list st1 /\ features st2 = features st1).
  { destruct ((clients cf - 1 =? 0) && IsIllegal cf); [|by injection H2 as <-]. unfold free_conf in H2.
    by apply bind_Some in H2 as (? & _ & [= <-]). }
  destruct Hr2 as [E1 E2]. destruct Hr1 as [F1 F2]. split; [cbn; congruence|]. intros k. cbn. rewrite E1. apply F2.
Qed.

Lemma det_recounted cptr mask st st' : det_confs_butmask cptr mask st = Some st' -> recounted_classes st st'.
Proof.
  unfold det_confs_butmask. intros (c & _ & H)%bind_Some. revert st H. generalize (cli_confs c) as l.
  induction l as [|a l IH]; intros st H; [by injection H as <-|]. cbn [det_loop] in H. apply bind_Some in H as (cf & _ & H).
  destruct (has_bits (status cf) mask); [by apply IH|]. apply bind_Some in H as (st1 & H1 & H).
  trans st1; [by apply (detach_recounted cptr a)|by apply IH].
Qed.

Lemma exit_recounted t cptr c st st' :
  local_clients st !! cptr = Some c -> cli_status c <> STAT_SERVER -> exit_client t cptr st = Some st' -> recounted_classes st st'.
Proof.
  intros Hc Hs. unfold exit_client, close_connection. rewrite Hc. cbn [mbind option_bind]. rewrite decide_False by done.
  cbn [mbind option_bind]. intros (st1 & H1 & [= <-])%bind_Some. by apply det_recounted in H1.
Qed.

Section kills.
Context (t : clock) (find_kill : N -> bool) (who : option N).

(** No server is killed. *)
Definition killable (st : conf_state) (cptr : N) : Prop :=
  exists c, local_clients st !! cptr = Some c /\ (find_kill cptr = true -> cli_status c <> STAT_SERVER).

(** An entry no client is attached to. *)
Definition unattached (st : conf_state) (a : N) : Prop :=
  forall cptr c, local_clients st !! cptr = Some c -> ~ a ∈ cli_confs c.

Lemma check_clients_spec ex l : forall ret st,
  conf_inv ex st -> NoDup l -> (forall cptr, cptr ∈ l -> killable st cptr) ->
  exists st', check_clients t find_kill who l ret st =
      Some (ret || existsb (fun cptr => find_kill cptr && bool_decide (who = Some cptr)) l, st') /\
    conf_inv ex st' /\ lines_from st st' /\ GlobalConfList st' = GlobalConfList st /\ recounted_classes st st' /\
    (forall cptr, local_clients st' !! cptr =
       if decide (cptr ∈ l /\ find_kill cptr = true) then None else local_clients st !! cptr) /\
    (forall a, unattached st a -> confs st' !! a = confs st !! a).
Proof.
  induction l as [|cptr l IH]; intros ret st Hi Hnd Hl; cbn [check_clients existsb].
  { exists st. rewrite orb_false_r. by split_and!. }
  apply NoDup_cons in Hnd as [Hni Hnd]. destruct (Hl cptr ltac:(left)) as (c & Hcl & Hk). rewrite Hcl. cbn [mbind option_bind].
  assert ((if decide (cli_status c = STAT_SERVER) then det_confs_butmask cptr (2 ^ 32 - 1 - CONF_ILLEGAL) st else Some st)
    = Some st) as ->.
  { case_decide; [by apply (detach_server_id ex cptr c)|done]. }
  cbn [mbind option_bind]. destruct (find_kill cptr) eqn:Ek; cbn [andb].
  - destruct (exit_user_inv ex t cptr c st Hi Hcl (Hk eq_refl)) as (st1 & E1 & Hi1 & Hf1 & Hc1 & Hg1 & Hlook1).
    pose proof (exit_recounted t cptr c st st1 Hcl (Hk eq_refl) E1) as Hr1. rewrite E1. cbn [mbind option_bind].
    destruct (IH (ret || bool_decide (who = Some cptr)) st1 Hi1 Hnd) as (st' & -> & Hi' & Hf' & Hg' & Hr' & Hc' & Hlook').
    { intros x Hx. destruct (Hl x ltac:(by right)) as (cx & Hcx & Hkx). exists cx.
      rewrite Hc1, lookup_delete_ne by (by intros ->). done. }
    exists st'. rewrite orb_assoc. split_and!; [done|done|by trans st1|congruence|by trans st1| |].
    + intros x. rewrite Hc', Hc1. destruct (decide (x = cptr)) as [->|Hx].
      * rewrite lookup_delete_eq, decide_False by tauto. rewrite decide_True; [done|]. split; [left|done].
      * rewrite lookup_delete_ne by done. apply decide_ext. rewrite elem_of_cons. tauto.
    + intros a Ha. rewrite Hlook', Hlook1; [done|by apply (Ha cptr)|]. intros x cx Hx. rewrite Hc1 in Hx.
      apply lookup_delete_Some in Hx as [_ Hx]. by apply (Ha x).
  - destruct (IH ret st Hi Hnd) as (st' & -> & Hi' & Hf' & Hg' & Hr' & Hc' & Hlook').
    { intros x Hx. apply Hl. by right. }
    exists st'. split_and!; try done. intros x. rewrite Hc'. apply decide_ext. rewrite elem_of_cons. intuition congruence.
Qed.
End kills.

(** ** The configuration a file describes *)

(** An entry, by the lower case name of its class and its fields for that class. *)
Definition entry : Type := list Z * (N -> ConfItem).

Section describe.
Variables (scan_ip : list Z -> Z * Z) (inet_addr : list Z -> Z) (gethost_byname : list Z -> option Z).

Definition bad_ip (ip : option (list Z)) : bool :=
  match ip with Some t => negb (bool_decide (t = [42])) && negb (check_if_ipmask t) | None => false end.

(** The classes declared so far, with PRIV_PROPAGATE, and the entries, the
    latest first. *)
Definition describe_block (b : block) (d : gmap (list Z) (option bool) * list entry)
  : gmap (list Z) (option bool) * list entry :=
  let '(env, es) := d in
  match b with
  | ClassBlock (Some nm) _ _ _ _ _ prop => (<[lower nm := prop]> env, es)
  | ClientBlock (Some cls) pass ip user h prt maxlinks =>
      match env !! lower cls with
      | Some _ =>
          if pass_too_long pass || bad_ip ip then d
          else (env, (lower cls, fun k => client_fields scan_ip k ip user h prt maxlinks (blank CONF_CLIENT)) :: es)
      | None => d
      end
  | ConnectBlock (Some cls) (Some nm) (Some p) (Some h) hub prt maxlinks flags =>
      match env !! lower cls with
      | Some _ =>
          if pass_too_long (Some p) || existsb (fun c => (c =? 42) || (c =? 63)) h then d
          else (env, (lower cls, fun k => connect_fields inet_addr gethost_byname k nm h hub prt maxlinks flags (blank CONF_SERVER)) :: es)
      | None => d
      end
  | OperBlock (Some cls) (Some nm) (Some _) hosts oflags prop =>
      match env !! lower cls with
      | Some cprop =>
          if negb (is_dirty prop) && negb (is_dirty cprop) then d
          else
            let '(type, m) := if is_set prop || is_set cprop then (CONF_OPERATOR, lit "O") else (CONF_LOCOP, lit "o") in
            (env, foldl (fun es h => (lower cls, fun k => oper_fields k nm h m oflags (blank type)) :: es) es hosts)
      | None => d
      end
  | _ => d
  end.

Definition describe (bs : list block) (env : gmap (list Z) (option bool)) : gmap (list Z) (option bool) * list entry :=
  foldl (fun d b => describe_block b d) (env, []) bs.

(** The blocks of a sane file: a class is not called "default", and the other
    blocks name their class. *)
Definition good_conf_block (b : block) : Prop :=
  match b with
  | ClassBlock (Some nm) _ _ _ _ _ _ => cstring nm /\ lower nm <> lower (lit "default")
  | ClassBlock None _ _ _ _ _ _ => True
  | ClientBlock cls _ _ _ _ _ _ | ConnectBlock cls _ _ _ _ _ _ _ | OperBlock cls _ _ _ _ _ =>
      match cls with Some nm => cstring nm | None => False end
  | FeatureItem _ _ => True
  end.

#[export] Instance good_conf_block_dec b : Decision (good_conf_block b).
Proof. destruct b; unfold good_conf_block; repeat case_match; apply _. Defined.

(** The last value the file gives a feature. *)
Definition file_value (f : class_feature) (bs : list block) : option Z :=
  foldl (fun r b => match b with FeatureItem g v => if decide (g = f) then Some (new_value f v) else r | _ => r end) None bs.

(** An item that changes nothing. *)
Definition item_quiet (F : class_features) (b : block) : bool :=
  match b with FeatureItem f v => v_int f F =? new_value f v | _ => true end.

(** init_class() is not called: every item has the value there is, and the
    features without an item have their default. *)
Definition calm (F : class_features) (bs : list block) : bool :=
  forallb (item_quiet F) bs &&
  forallb (fun f => (v_int f F =? def_int f) || bool_decide (is_Some (file_value f bs))) class_features_table.

(** A valid class with a (lower case) name. *)
Definition class_named (cs : class_state) (k : N) (n : list Z) : Prop :=
  exists cl s, classes cs !! k = Some cl /\ cc_name cl = Some s /\ lower (text s) = n /\ valid cl = true.

Definition represents (st : conf_state) (a : N) (e : entry) : Prop :=
  exists k, confs st !! a = Some (snd e k) /\ IsIllegal (snd e k) = false /\ clients (snd e k) = 0 /\
    class_named (class_list st) k (fst e).

(** The declared classes are the valid ones. *)
Definition env_ok (cs : class_state) (env : gmap (list Z) (option bool)) : Prop :=
  forall n p, env !! n = Some p <-> exists k cl, class_named cs k n /\ classes cs !! k = Some cl /\ propagate cl = p.

Record reading (ex : bool) (L : gmap N Client) (env : gmap (list Z) (option bool)) (es : list entry) (st : conf_state) : Prop := {
  rd_weak : conf_weak ex st;
  rd_env : env_ok (class_list st) env;
  rd_clients : local_clients st = L;
  rd_list : exists new old, GlobalConfList st = new ++ old /\ Forall2 (represents st) new es /\
    forall a, a ∈ old -> exists cf, confs st !! a = Some cf /\ IsIllegal cf = true }.

Lemma class_named_unique cs k k' n : class_wf cs -> class_named cs k n -> class_named cs k' n -> k = k'.
Proof.
  intros Hw (cl & s & Hk & Hs & Hl & _) (cl' & s' & Hk' & Hs' & Hl' & _).
  apply (cw_distinct _ Hw k k' (text s) (text s')); [by exists cl, s|by exists cl', s'|congruence].
Qed.

Lemma find_class_env cs env nm : class_wf cs -> env_ok cs env -> cstring nm ->
  exists r, find_class cs nm = Some r /\
    match r with
    | Some k => class_named cs k (lower nm) /\ exists cl, classes cs !! k = Some cl /\ env !! lower nm = Some (propagate cl)
    | None => env !! lower nm = None
    end.
Proof.
  intros Hw He Hs. destruct (do_find_class_spec cs nm false Hw Hs) as (r & Hr & Hspec). exists r. split; [done|].
  assert (Hm : forall k, matching cs nm false k <-> class_named cs k (lower nm)).
  { intros k. unfold matching, class_named. setoid_rewrite orb_false_r. done. }
  destruct r as [k|].
  - pose proof (proj1 (Hm k) (proj1 (Hspec k) eq_refl)) as Hn. split; [done|].
    pose proof Hn as (cl & s & Hk & _). exists cl. split; [done|]. apply He. by exists k, cl.
  - destruct (env !! lower nm) as [p|] eqn:E; [|done]. apply He in E as (k & cl & Hn & _).
    apply Hm, Hspec in Hn. done.
Qed.

(** The entries keep being represented while the classes change. *)
Lemma reading_classes ex ex' L env env' es cs st f :
  reading ex L env es st -> conf_weak ex' (with_features f (with_classes cs st)) -> env_ok cs env' ->
  (forall k n, class_named (class_list st) k n -> class_named cs k n) ->
  reading ex' L env' es (with_features f (with_classes cs st)).
Proof.
  intros Hr Hw He Hn. split; [done|done|exact (rd_clients _ _ _ _ _ Hr)|].
  destruct (rd_list _ _ _ _ _ Hr) as (new & old & El & Hnew & Hold). exists new, old. split_and!; [done| |done].
  eapply Forall2_impl; [exact Hnew|]. intros a e (k & Ha & Hi & H0 & Hk). exists k. split_and!; [done..|by apply Hn].
Qed.

Lemma class_block_reading ex L env es st nm ping freq maxli sendq umode prop c :
  reading ex L env es st -> cstring nm -> lower nm <> lower (lit "default") ->
  exists c' st', class_block_end (Some nm) ping freq maxli sendq umode prop c st = Some (c', st') /\
    reading ex L (<[lower nm := prop]> env) es st'.
Proof.
  intros Hr Hs Hd. pose proof (rd_weak _ _ _ _ _ Hr) as Hw. pose proof (cv_core _ _ Hw) as Hc.
  destruct (weak_add_class ex st nm ping freq maxli sendq Hw Hs Hd) as (cs & Hadd & Hw' & p & Hf & _).
  destruct (add_class_spec (features st) nm ping freq maxli sendq (class_list st) (cc_class _ _ Hc) Hs Hd)
    as (p' & cl & cs' & Hadd' & Hwf & Ht & Hp & Hdef & Hcs). rewrite Hadd in Hadd'. injection Hadd' as <-.
  unfold class_block_end. rewrite Hadd. cbn [mbind option_bind]. rewrite Hf. cbn [mbind option_bind].
  assert (Hlook : forall k, classes cs !! k = if decide (k = p') then Some (class_settings (features st) nm ping freq maxli sendq cl)
    else classes (class_list st) !! k).
  { intros k. rewrite Hcs. case_decide; [subst; apply lookup_insert_eq|by apply lookup_insert_ne]. }
  assert (p = p') as ->.
  { destruct (do_find_class_spec cs nm false Hwf Hs) as (r & Hr' & Hspec). unfold find_class in Hf. rewrite Hr' in Hf.
    injection Hf as ->. enough (E : Some p = Some p') by congruence. apply Hspec.
    eexists _, (Heap nm). rewrite Hlook, decide_True by done. by split_and!. }
  set (cs2 := upd_class (set_privs umode prop) p' cs).
  assert (Hlook2 : forall k, classes cs2 !! k =
    if decide (k = p') then Some (set_privs umode prop (class_settings (features st) nm ping freq maxli sendq cl))
    else classes (class_list st) !! k).
  { intros k. unfold cs2. rewrite upd_class_lookup, !Hlook. by case_decide. }
  assert (Hold : forall n, class_named (class_list st) p' n -> n = lower nm).
  { intros n (cl0 & s & Hk & Hs0 & Hl0 & _). destruct Ht as [s' Hc' Hn' Hl'| -> _ _].
    - rewrite Hc' in Hk. injection Hk as ->. rewrite Hn' in Hs0. injection Hs0 as <-. cbn [text] in Hl0. congruence.
    - assert (H := cw_fresh _ (cc_class _ _ Hc) _ (mk_is_Some _ _ Hk)). lia. }
  assert (Hnew : class_named cs2 p' (lower nm)).
  { eexists _, (Heap nm). rewrite Hlook2, decide_True by done. by split_and!. }
  assert (Hother : forall k n, k <> p' -> class_named cs2 k n <-> class_named (class_list st) k n).
  { intros k n Hk. unfold class_named. setoid_rewrite Hlook2. by rewrite decide_False. }
  exists (Some p'), (with_classes cs2 st). split; [done|].
  assert (Hrec : reading ex L (<[lower nm := prop]> env) es (with_features (features st) (with_classes cs2 st))).
  - apply (reading_classes ex ex L env); [done| | |].
    + apply (weak_privs ex (with_classes cs st) umode prop p') in Hw'. by destruct st.
    + intros n q. rewrite lookup_insert_Some. split.
      * intros [[<- <-]|[Hne Hq]].
        { eexists p', _. split; [done|]. rewrite Hlook2, decide_True by done. by split. }
        apply (rd_env _ _ _ _ _ Hr) in Hq as (k & cl' & Hn & Hk & Hq).
        assert (Hkp : k <> p') by (intros ->; apply Hne; symmetry; by apply Hold).
        exists k, cl'. rewrite Hlook2, decide_False by done. split_and!; [|done..]. by apply Hother.
      * intros (k & cl' & Hn & Hk & Hq). destruct (decide (k = p')) as [->|Hkp].
        { left. rewrite Hlook2, decide_True in Hk by done. injection Hk as <-. split; [|done].
          destruct Hn as (x & s & Hx & Hs' & <- & _). rewrite Hlook2, decide_True in Hx by done. injection Hx as <-.
          by injection Hs' as <-. }
        right. rewrite Hother in Hn by done. rewrite Hlook2, decide_False in Hk by done. split.
        { intros <-. apply Hkp. assert (class_wf cs2) by (apply wf_upd_mild; [done|apply mild_privs]).
          apply (class_named_unique cs2 k p' (lower nm)); [done| |done]. by apply Hother. }
        apply (rd_env _ _ _ _ _ Hr). by exists k, cl'.
    + intros k n Hn. destruct (decide (k = p')) as [->|Hkp]; [|by apply Hother]. by rewrite (Hold n Hn).
  - by destruct st.
Qed.

Lemma make_reading ex L env es st type fields k n :
  reading ex L env es st -> class_named (class_list st) k n ->
  has_bits type CONF_CLIENT_MASK = true -> has_bits type CONF_ILLEGAL = false ->
  (forall cf, conn_class (fields cf) = Some k /\ clients (fields cf) = clients cf /\ status (fields cf) = status cf) ->
  forall e, fst e = n -> snd e k = fields (blank type) -> reading ex L env (e :: es) (make_conf type fields st).
Proof.
  intros Hr Hn Hm Hi Hf e He1 He2. pose proof (rd_weak _ _ _ _ _ Hr) as Hw. pose proof (cv_core _ _ Hw) as Hc.
  destruct Hn as (cl & s & Hk & Hs & Hl & Hv). set (a := next_conf st).
  destruct (Hf (blank type)) as (Hfk & Hfc & Hfs).
  assert (Ha : forall b, is_Some (confs st !! b) -> b <> a).
  { intros b Hb%(cc_fresh _ _ Hc). unfold a. lia. }
  assert (Hlook : confs (make_conf type fields st) !! a = Some (fields (blank type))) by apply lookup_insert_eq.
  assert (Hold : forall b, b <> a -> confs (make_conf type fields st) !! b = confs st !! b).
  { intros b Hb. by apply lookup_insert_ne. }
  destruct (rd_list _ _ _ _ _ Hr) as (new & old & El & Hnew & Hold').
  split; [|exact (rd_env _ _ _ _ _ Hr)|exact (rd_clients _ _ _ _ _ Hr)|].
  - apply (weak_make ex type fields k); try done. by exists cl.
  - exists (a :: new), old. split_and!; [cbn; by rewrite El| |].
    + apply Forall2_cons. split.
      * exists k. rewrite Hlook, He2. split_and!; [done|unfold IsIllegal; by rewrite Hfs|by rewrite Hfc|]. rewrite He1. by exists cl, s.
      * eapply Forall2_impl; [exact Hnew|]. intros b e' (k' & Hb & Hi' & H0' & Hk'). exists k'. rewrite Hold; [done|]. apply Ha. by eexists.
    + intros b Hb. destruct (Hold' b Hb) as (cf & Hcf & ?). exists cf. rewrite Hold; [done|]. apply Ha. by exists cf.
Qed.

Lemma oper_reading ex L env es st nm k n type m oflags hosts :
  reading ex L env es st -> class_named (class_list st) k n ->
  has_bits type CONF_CLIENT_MASK = true -> has_bits type CONF_ILLEGAL = false ->
  reading ex L env (foldl (fun es h => (n, fun k => oper_fields k nm h m oflags (blank type)) :: es) es hosts)
    (foldl (fun st h => make_conf type (oper_fields k nm h m oflags) st) st hosts).
Proof.
  intros Hr Hn Hm Hi. revert es st Hr Hn. induction hosts as [|h hosts IH]; intros es st Hr Hn; [done|]. cbn [foldl].
  apply IH; [|done]. by eapply make_reading.
Qed.

Lemma feature_reading ex L env es st f :
  reading ex L env es st ->
  reading false L env es (with_features f (with_classes (init_class f (class_list st)) st)).
Proof.
  intros Hr. pose proof (rd_weak _ _ _ _ _ Hr) as Hw. pose proof (cv_core _ _ Hw) as Hc.
  destruct (init_class_spec f (class_list st) (cc_class _ _ Hc)) as (g & E & Hwf & Hg).
  destruct (default_head _ (cc_class _ _ Hc)) as (t & cl0 & _ & Hd & Hdn & Hdv).
  assert (Hsame : forall k n, class_named (init_class f (class_list st)) k n <-> class_named (class_list st) k n).
  { intros k n. unfold class_named. rewrite E. setoid_rewrite upd_class_lookup. case_decide as Ek; [|done]. subst k. rewrite Hd. cbn.
    destruct (Hg cl0) as (Hgn & Hgv & _). split.
    - intros (cl & s & [= <-] & Hs & Hl & _). exists cl0, s. split_and!; try done. congruence.
    - intros (cl & s & [= <-] & Hs & Hl & _). exists (g cl0), s. split_and!; try done. congruence. }
  apply (reading_classes ex false L env); [done|by apply (weak_init ex)| |intros k n; by apply Hsame].
  intros n p. rewrite (rd_env _ _ _ _ _ Hr n p). setoid_rewrite Hsame. rewrite E. setoid_rewrite upd_class_lookup.
  split; intros (k & cl & Hn & Hk & Hp).
  - exists k. destruct (decide (k = default_class (class_list st))) as [->|Ek].
    + exists (g cl). rewrite Hk. destruct (Hg cl) as (_ & _ & Hgp & _). by rewrite Hgp.
    + by exists cl.
  - exists k. case_decide as Ek; [|by exists cl]. apply fmap_Some in Hk as (cl' & Hk & ->). exists cl'.
    destruct (Hg cl') as (_ & _ & Hgp & _). split_and!; [done..|congruence].
Qed.

(** *** Features *)
Lemma set_v_int_id f F : set_v_int f (v_int f F) F = F.
Proof. by destruct f, F. Qed.

Lemma v_int_set f g v F : v_int g (set_v_int f v F) = if decide (g = f) then v else v_int g F.
Proof. by destruct f, g, F. Qed.

Lemma change_features f v st : features (change_feature f v st) = set_v_int f v (features st).
Proof. unfold change_feature. by case_match. Qed.

Lemma change_reading ex L env es st f v :
  reading ex L env es st -> reading (ex && (v_int f (features st) =? v)) L env es (change_feature f v st).
Proof.
  intros Hr. unfold change_feature. destruct (v_int f (features st) =? v) eqn:E; bprop.
  - rewrite andb_true_r, <- E, set_v_int_id. by destruct st.
  - rewrite andb_false_r. by apply (feature_reading ex).
Qed.

(** What the items leave: the values, and the marks of those that differ from
    the defaults. *)
Definition items_done (bs : list block) (m m' : marks) (F F' : class_features) : Prop :=
  forall f, match file_value f bs with
    | Some v => v_int f F' = v /\ m' f = negb (v =? def_int f)
    | None => v_int f F' = v_int f F /\ m' f = m f
    end.

Lemma file_value_cons f b bs :
  file_value f (b :: bs) = match file_value f bs with
    | Some v => Some v
    | None => match b with FeatureItem g v => if decide (g = f) then Some (new_value f v) else None | _ => None end
    end.
Proof.
  unfold file_value. cbn [foldl]. set (r := match b with FeatureItem g v => _ | _ => _ end). generalize r. clear r.
  assert (H : forall r, foldl (fun r b => match b with FeatureItem g v => if decide (g = f) then Some (new_value f v) else r
    | _ => r end) r bs = match file_value f bs with Some v => Some v | None => r end).
  { unfold file_value. induction bs as [|b' bs IH] using rev_ind; intros r; [done|]. rewrite !foldl_app. cbn [foldl].
    destruct b'; try apply IH. case_decide; [done|apply IH]. }
  intros r. apply H.
Qed.

Lemma foldl_make_rest type (fields : list Z -> ConfItem -> ConfItem) hs st :
  features (foldl (fun st h => make_conf type (fields h) st) st hs) = features st.
Proof. revert st. induction hs as [|h hs IH]; intros st; [done|]. cbn [foldl]. by rewrite IH. Qed.

Lemma read_block_features b c m st c' m' st' :
  read_block scan_ip inet_addr gethost_byname b c m st = Some (c', m', st') ->
  features st' = (match b with FeatureItem f v => set_v_int f (new_value f v) (features st) | _ => features st end) /\
  m' = match b with FeatureItem f v => set_mark f (negb (new_value f v =? def_int f)) m | _ => m end.
Proof.
  destruct b as [nm ping freq maxli sendq umode prop|cls pass ip user h prt ml|cls nm pass h hub prt ml fl|cls nm pass hosts ofl prop|f v];
    unfold read_block; intros H.
  - apply bind_Some in H as ([c1 st1] & H1 & [= <- <- <-]). split; [|done]. unfold class_block_end in H1.
    destruct nm as [nm|]; [|by injection H1 as <- <-]. apply bind_Some in H1 as (cs & _ & H1).
    apply bind_Some in H1 as (k & _ & H1). by apply bind_Some in H1 as (p & _ & [= <- <-]).
  - apply bind_Some in H as (k & _ & [= <- <- <-]). split; [|done]. unfold client_block_end. destruct k; [|done]. by case_match.
  - apply bind_Some in H as (k & _ & [= <- <- <-]). split; [|done]. unfold connect_block_end.
    destruct nm, pass, h, k; try done. by case_match.
  - apply bind_Some in H as (k & _ & H). apply bind_Some in H as (st1 & H1 & [= <- <- <-]). split; [|done].
    unfold oper_block_end in H1. destruct nm as [nm|], pass as [pass|], hosts as [|h0 hs0], k as [k|]; try (by injection H1 as <-).
    apply bind_Some in H1 as (cl & _ & H1). destruct (negb _ && negb _); [by injection H1 as <-|].
    destruct (if is_set prop || is_set (propagate cl) then _ else _) as [type mm]. apply (inj Some) in H1. subst st1.
    by rewrite (foldl_make_rest type _ (h0 :: hs0)).
  - unfold feature_set in H. injection H as <- <- <-. split; [|done]. apply change_features.
Qed.

Lemma read_blocks_features bs c m st c' m' st' :
  read_blocks scan_ip inet_addr gethost_byname bs c m st = Some (c', m', st') -> items_done bs m m' (features st) (features st').
Proof.
  revert c m st. induction bs as [|b bs IH]; intros c m st H; cbn [read_blocks] in H; [by injection H as <- <- <-|].
  apply bind_Some in H as ([[c1 m1] st1] & H1 & H). apply read_block_features in H1 as [Ef Em].
  specialize (IH _ _ _ H). intros f. specialize (IH f). rewrite file_value_cons. destruct (file_value f bs) as [v|]; [done|].
  destruct IH as [-> ->]. rewrite Ef, Em. destruct b as [| | | |g v]; try done.
  rewrite v_int_set. unfold set_mark. destruct (decide (g = f)) as [->|Hg].
  - by rewrite !decide_True.
  - by rewrite !decide_False by (by intros ->).
Qed.

Lemma forallb_ext_in {A} (f g : A -> bool) l : (forall x, x ∈ l -> f x = g x) -> forallb f l = forallb g l.
Proof.
  induction l as [|x l IH]; intros H; [done|]. cbn [forallb]. rewrite (H x ltac:(left)), IH; [done|].
  intros y Hy. apply H. by right.
Qed.

(** The loop of feature_mark(). *)
Lemma feature_mark_loop ex L env es st (m : marks) l :
  reading ex L env es st -> NoDup l ->
  let st' := foldl (fun st f => if m f then st else change_feature f (def_int f) st) st l in
  reading (ex && forallb (fun f => m f || (v_int f (features st) =? def_int f)) l) L env es st' /\
  forall f, v_int f (features st') = if decide (f ∈ l) then (if m f then v_int f (features st) else def_int f) else v_int f (features st).
Proof.
  intros Hr Hnd. revert ex st Hr. induction l as [|f l IH]; intros ex st Hr; cbn [foldl forallb].
  { rewrite andb_true_r. by split. }
  apply NoDup_cons in Hnd as [Hf Hnd]. specialize (IH Hnd).
  assert (Hkeep : forall st1 g, features st1 = set_v_int f (def_int f) (features st) -> g ∈ l ->
    v_int g (features st1) = v_int g (features st)).
  { intros st1 g -> Hg. rewrite v_int_set, decide_False; [done|]. by intros ->. }
  destruct (m f) eqn:Em; cbn [orb].
  - destruct (IH ex st Hr) as [H1 H2]. split; [done|]. intros g. rewrite H2. destruct (decide (g = f)) as [->|Hg].
    + rewrite decide_False by done. rewrite decide_True by left. by rewrite Em.
    + apply decide_ext. rewrite elem_of_cons. tauto.
  - pose proof (change_reading ex L env es st f (def_int f) Hr) as Hr1. set (st1 := change_feature f (def_int f) st) in *.
    assert (E1 : features st1 = set_v_int f (def_int f) (features st)) by apply change_features.
    destruct (IH _ st1 Hr1) as [H1 H2]. split.
    + rewrite andb_assoc. rewrite (forallb_ext_in _ (fun g => m g || (v_int g (features st1) =? def_int g)) l); [exact H1|].
      intros g Hg. by rewrite (Hkeep st1 g E1 Hg).
    + intros g. rewrite H2, E1, v_int_set. destruct (decide (g = f)) as [->|Hg].
      * rewrite decide_False by done. rewrite decide_True by left. by rewrite Em.
      * apply decide_ext. rewrite elem_of_cons. tauto.
Qed.

Notation read_block := (read_block scan_ip inet_addr gethost_byname).
Notation read_blocks := (read_blocks scan_ip inet_addr gethost_byname).
Notation read_configuration_file := (read_configuration_file scan_ip inet_addr gethost_byname).
Notation rehash := (rehash scan_ip inet_addr gethost_byname).

Lemma lookup_confhost_keeps cf :
  let cf' := lookup_confhost inet_addr gethost_byname cf in
  conn_class cf' = conn_class cf /\ clients cf' = clients cf /\ status cf' = status cf.
Proof. unfold lookup_confhost. repeat case_match; done. Qed.

Lemma read_block_reading ex L env es st b c m :
  good_conf_block b -> reading ex L env es st ->
  exists c' m' st', read_block b c m st = Some (c', m', st') /\
    reading (ex && item_quiet (features st) b) L (describe_block b (env, es)).1 (describe_block b (env, es)).2 st'.
Proof.
  intros Hb Hr. pose proof (cc_class _ _ (cv_core _ _ (rd_weak _ _ _ _ _ Hr))) as Hwf.
  pose proof (rd_env _ _ _ _ _ Hr) as He.
  destruct b as [nm ping freq maxli sendq umode prop|cls pass ip user h prt ml|cls nm pass h hub prt ml fl|cls nm pass hosts ofl prop|f v];
    cbn [item_quiet]; rewrite ?andb_true_r; unfold Rehash.read_block.
  - destruct nm as [nm|]; [|by exists c, m, st]. destruct Hb as [Hs Hd].
    destruct (class_block_reading ex L env es st nm ping freq maxli sendq umode prop c Hr Hs Hd) as (c' & st' & -> & Hr').
    by exists c', m, st'.
  - destruct cls as [cls|]; [|done]. destruct (find_class_env _ env cls Hwf He Hb) as (r & Hf & Hspec).
    unfold block_class. rewrite Hf. cbn [mbind option_bind describe_block]. eexists _, _, _. split; [done|].
    unfold client_block_end. fold (bad_ip ip). destruct r as [k|]; [|by rewrite Hspec].
    destruct Hspec as [Hn (cl & Hk & ->)]. destruct (pass_too_long pass || bad_ip ip); [done|]. cbn [fst snd].
    eapply make_reading; try done. intros cf. unfold client_fields. by destruct (match ip with Some t => _ | None => _ end).
  - destruct cls as [cls|]; [|done]. destruct (find_class_env _ env cls Hwf He Hb) as (r & Hf & Hspec).
    unfold block_class. rewrite Hf. cbn [mbind option_bind describe_block]. eexists _, _, _. split; [done|].
    unfold connect_block_end. destruct nm as [nm|]; [|done]. destruct pass as [pass|]; [|done].
    destruct h as [h|]; [|done]. destruct r as [k|]; [|by rewrite Hspec].
    destruct Hspec as [Hn (cl & Hk & ->)]. case_match; [done|]. cbn [fst snd]. eapply make_reading; try done.
    intros cf. apply lookup_confhost_keeps.
  - destruct cls as [cls|]; [|done]. destruct (find_class_env _ env cls Hwf He Hb) as (r & Hf & Hspec).
    unfold block_class, oper_block_end. rewrite Hf. cbn [mbind option_bind describe_block].
    destruct nm as [nm|]; [|by exists None, m, st]. destruct pass as [pass|]; [|by exists None, m, st].
    destruct r as [k|].
    2:{ exists None, m, st. rewrite Hspec. split; [by destruct hosts|done]. }
    destruct Hspec as [Hn (cl & Hk & ->)]. destruct hosts as [|h hosts].
    { exists None, m, st. split; [done|]. destruct (_ && _); [done|]. by destruct (is_set prop || _). }
    rewrite Hk. cbn [mbind option_bind]. destruct (negb (is_dirty prop) && negb (is_dirty (propagate cl))).
    { by exists None, m, st. }
    destruct (is_set prop || is_set (propagate cl)); cbn [mbind option_bind]; eexists None, m, _; (split; [done|]); cbn [fst snd];
      by apply oper_reading.
  - eexists c, _, _. split; [done|]. cbn [describe_block fst snd]. by apply change_reading.
Qed.

Lemma quiet_features b c m st c' m' st' :
  read_block b c m st = Some (c', m', st') -> item_quiet (features st) b = true -> features st' = features st.
Proof.
  intros H Hq. apply read_block_features in H as [-> _]. destruct b; try done. cbn [item_quiet] in Hq. bprop.
  rewrite <- Hq. apply set_v_int_id.
Qed.

Lemma read_blocks_reading bs ex L env es st c m :
  Forall good_conf_block bs -> reading ex L env es st ->
  let d := foldl (fun d b => describe_block b d) (env, es) bs in
  exists c' m' st', read_blocks bs c m st = Some (c', m', st') /\
    reading (ex && forallb (item_quiet (features st)) bs) L d.1 d.2 st' /\
    (forallb (item_quiet (features st)) bs = true -> features st' = features st).
Proof.
  revert ex env es st c m. induction bs as [|b bs IH]; intros ex env es st c m Hb Hr; cbn [foldl Rehash.read_blocks forallb].
  { exists c, m, st. cbn. by rewrite andb_true_r. }
  apply Forall_cons in Hb as [Hb Hbs]. destruct (read_block_reading ex L env es st b c m Hb Hr) as (c1 & m1 & st1 & E1 & Hr1).
  rewrite E1. cbn [mbind option_bind]. destruct (describe_block b (env, es)) as [env1 es1] eqn:Ed.
  destruct (IH _ env1 es1 st1 c1 m1 Hbs Hr1) as (c2 & m2 & st2 & E2 & Hr2 & Hq2). exists c2, m2, st2. split; [exact E2|].
  destruct (item_quiet (features st) b) eqn:Eq; cbn [andb].
  - pose proof (quiet_features _ _ _ _ _ _ _ E1 Eq) as Ef. rewrite andb_true_r in Hr2. rewrite Ef in Hr2, Hq2. done.
  - rewrite andb_false_r in *. split; [exact Hr2|done].
Qed.

(** The values and the calls of init_class() after the file was read. *)
Definition calm_file (F : class_features) (file : option (list block)) : bool :=
  match file with Some bs => calm F bs | None => true end.

Definition file_features (F : class_features) (file : option (list block)) (F' : class_features) : Prop :=
  match file with
  | None => F' = F
  | Some bs => forall f, v_int f F' = match file_value f bs with Some v => v | None => def_int f end
  end.

Lemma table_NoDup : NoDup class_features_table.
Proof. by_decide. Qed.

Lemma in_table f : f ∈ class_features_table.
Proof. destruct f; by_decide. Qed.

Lemma mark_calm bs m F F' :
  items_done bs no_marks m F F' -> F' = F ->
  forallb (fun f => m f || (v_int f F' =? def_int f)) class_features_table =
  forallb (fun f => (v_int f F =? def_int f) || bool_decide (is_Some (file_value f bs))) class_features_table.
Proof.
  intros Hi ->. apply forallb_ext_in. intros f _. specialize (Hi f). destruct (file_value f bs) as [v|].
  - destruct Hi as [-> ->]. rewrite bool_decide_eq_true_2 by by eexists. rewrite orb_true_r. by destruct (v =? def_int f).
  - destruct Hi as [_ ->]. rewrite bool_decide_eq_false_2 by (by intros [? ?]). by rewrite orb_false_r.
Qed.

Lemma file_reading file ex L env st c :
  Forall good_conf_block (default [] file) -> reading ex L env [] st ->
  let d := describe (default [] file) env in
  exists c' st', read_configuration_file file c st = Some (c', st') /\
    reading (ex && calm_file (features st) file) L d.1 d.2 st' /\ file_features (features st) file (features st').
Proof.
  intros Hb Hr d. destruct file as [bs|]; cbn [default Rehash.read_configuration_file].
  2:{ exists c, st. cbn [calm_file]. by rewrite andb_true_r. }
  destruct (read_blocks_reading bs ex L env [] st c no_marks Hb Hr) as (c1 & m1 & st1 & E1 & Hr1 & Hq). fold (describe bs env) in Hr1.
  rewrite E1. cbn [mbind option_bind]. pose proof (read_blocks_features _ _ _ _ _ _ _ E1) as Hd.
  destruct (feature_mark_loop _ _ _ _ st1 m1 class_features_table Hr1 table_NoDup) as [H2 Hv].
  exists c1, (feature_mark m1 st1). split; [done|]. split.
  - unfold feature_mark, calm_file, calm. destruct (forallb (item_quiet (features st)) bs) eqn:Eq.
    + rewrite (mark_calm bs m1 (features st) (features st1) Hd (Hq eq_refl)) in H2. by rewrite andb_true_r in H2.
    + rewrite andb_false_r in H2. by rewrite andb_false_r.
  - intros f. unfold feature_mark. rewrite Hv, decide_True by apply in_table. specialize (Hd f).
    destruct (file_value f bs) as [v|].
    + destruct Hd as [-> ->]. destruct (v =? def_int f) eqn:E; bprop; [by rewrite E|done].
    + by destruct Hd as [_ ->].
Qed.

(** Before the first block only the default class is declared. *)
Definition default_env (cs : class_state) : gmap (list Z) (option bool) :=
  match classes cs !! default_class cs with Some cl => {[ lower (lit "default") := propagate cl ]} | None => ∅ end.

Lemma class_mark_env cs cs' : class_wf cs -> class_mark_delete cs = Some cs' -> env_ok cs' (default_env cs).
Proof.
  intros Hw Hm. destruct (class_mark_spec cs Hw) as (cs2 & Hm2 & Hw2 & El & _ & Hlook). rewrite Hm in Hm2. injection Hm2 as <-.
  destruct (default_head _ Hw) as (t & cl & _ & Hd & Hdn & Hdv).
  assert (Hd' : classes cs' !! default_class cs = Some cl).
  { rewrite Hlook, Hd. cbn. unfold marked. by rewrite decide_True. }
  unfold default_env. rewrite Hd. intros n p. rewrite lookup_singleton_Some. split.
  - intros [<- <-]. exists (default_class cs), cl. split_and!; try done.
    exists cl, (Literal (lit "default")). by split_and!.
  - intros (k & cl' & (cl2 & s & Hk & Hs & Hl & Hv) & Hk' & Hp). rewrite Hk in Hk'. injection Hk' as <-.
    rewrite Hlook in Hk. apply fmap_Some in Hk as (cl3 & Hk & ->). unfold marked in *. case_decide as E; [|done].
    subst k. rewrite Hd in Hk. injection Hk as <-. rewrite Hdn in Hs. injection Hs as <-. done.
Qed.

(** New entries survive the deletion of classes and the loop over the clients. *)
Lemma represents_kept ex st3 st5 st6 new es :
  confs st5 = confs st3 ->
  (forall (a : N) k cl, classes (class_list st3) !! k = Some cl -> valid cl = true -> classes (class_list st5) !! k = Some cl) ->
  conf_core ex st5 ->
  (forall k, exists n, classes (class_list st6) !! k = set_ref_count n <$> classes (class_list st5) !! k) ->
  (forall a, unattached st5 a -> confs st6 !! a = confs st5 !! a) ->
  Forall2 (represents st3) new es -> Forall2 (represents st6) new es.
Proof.
  intros Ec Hcl Hcore Hr Hu Hnew. eapply Forall2_impl; [exact Hnew|]. intros a e (k & Ha & Hil & H0 & (cl & s & Hk & Hs & Hl & Hv)).
  exists k. rewrite Hu, Ec. 2:{ intros cptr c Hc Hin.
    assert (confs st5 !! a = Some (snd e k)) as Ha5 by congruence.
    pose proof (attachments_pos a _ cptr c Hc Hin) as Hp. rewrite <- (cc_clients _ _ Hcore a _ Ha5) in Hp. lia. }
  split_and!; [done..|]. destruct (Hr k) as [n Hn]. exists (set_ref_count n cl), s.
  rewrite Hn, (Hcl a k cl Hk Hv). by split_and!.
Qed.

(** rehash() leaves exactly the entries that the file describes. *)
Lemma rehash_reading ex st file c t kill who order :
  conf_inv ex st -> Forall good_conf_block (default [] file) -> NoDup order ->
  (forall cptr, cptr ∈ order -> killable kill st cptr) ->
  exists ret c' st', rehash file c t kill who order st = Some (ret, c', st') /\
    conf_inv (ex && calm_file (features st) file) st' /\
    ret = existsb (fun cptr => kill cptr && bool_decide (who = Some cptr)) order /\
    (forall cptr, local_clients st' !! cptr =
       if decide (cptr ∈ order /\ kill cptr = true) then None else local_clients st !! cptr) /\
    file_features (features st) file (features st') /\
    Forall2 (represents st') (GlobalConfList st') (describe (default [] file) (default_env (class_list st))).2.
Proof.
  intros Hi Hb Hnd Ho. unfold Rehash.rehash. destruct (mark_weak ex st Hi) as (l & st1 & -> & (Ef1 & Ec1 & El1 & _) & Hw1 & Hall1).
  cbn [mbind option_bind]. destruct (class_mark_weak ex _ Hw1 Hall1) as (cs2 & Hm2 & Hw2).
  change (class_list (with_conf_list l st1)) with (class_list st1) in *. rewrite Hm2. cbn [mbind option_bind].
  pose proof (cc_class _ _ (cv_core _ _ (ci_weak _ _ Hi))) as Hwf. rewrite Ec1 in Hm2.
  assert (Hr2 : reading ex (local_clients st) (default_env (class_list st)) [] (with_classes cs2 (with_conf_list l st1))).
  { split; [done|by apply (class_mark_env (class_list st))|done|]. exists [], l. split_and!; [done| |].
    - apply Forall2_nil_2.
    - intros a Ha. destruct (cv_list _ _ Hw1 a Ha) as [cf Hcf]. exists cf. split; [done|]. by apply (Hall1 a). }
  destruct (file_reading file _ _ _ _ c Hb Hr2) as (c3 & st3 & E3 & Hr3 & Hfe).
  change (features (with_classes cs2 (with_conf_list l st1))) with (features st1) in *. rewrite Ef1 in Hr3, Hfe.
  rewrite E3. cbn [mbind option_bind]. set (es := (describe (default [] file) (default_env (class_list st))).2) in *.
  set (ex' := ex && calm_file (features st) file) in *.
  destruct (class_delete_weak ex' st3 (rd_weak _ _ _ _ _ Hr3)) as (cs4 & Hd4 & Hw4). rewrite Hd4. cbn [mbind option_bind].
  destruct (flush_inv ex' (with_classes cs4 st3) Hw4) as (l5 & -> & Hi5 & El5). cbn [mbind option_bind].
  set (st5 := with_conf_list l5 (with_classes cs4 st3)) in *.
  assert (El : local_clients st5 = local_clients st) by exact (rd_clients _ _ _ _ _ Hr3).
  destruct (check_clients_spec t kill who ex' order false st5 Hi5 Hnd) as (st6 & -> & Hi6 & _ & Hg6 & [Hf6 Hr6] & Hc6 & Hu6).
  { intros cptr Hc. unfold killable. rewrite El. by apply Ho. }
  cbn [mbind option_bind orb]. rewrite El in Hc6.
  eexists _, c3, st6. split_and!; [done|done|done|done|by rewrite Hf6|].
  rewrite Hg6. apply (represents_kept ex' st3 st5 st6); try done.
  - intros a k cl Hk Hv. change (class_list st5) with cs4.
    destruct (class_delete_spec (class_list st3) (cc_class _ _ (cv_core _ _ (rd_weak _ _ _ _ _ Hr3)))) as (cs5 & Hd5 & _ & _ & _ & Hlook).
    rewrite Hd4 in Hd5. injection Hd5 as <-. rewrite Hlook. unfold kept. rewrite Hk. unfold keep_class. by rewrite Hv.
  - exact (cv_core _ _ (ci_weak _ _ Hi5)).
  - destruct (rd_list _ _ _ _ _ Hr3) as (new & old & Elist & Hnew & Hold).
    change (GlobalConfList st5) with l5. assert (l5 = new) as ->; [|done].
    rewrite El5. cbn [with_classes GlobalConfList confs]. rewrite Elist, filter_app.
    rewrite (filter_none _ old), app_nil_r.
    + apply filter_all. intros a Ha. apply list_elem_of_lookup in Ha as [i Ha].
      destruct (Forall2_lookup_l _ _ _ _ _ Hnew Ha) as (e & _ & (k & -> & Hil & _)). cbn. congruence.
    + intros a Ha. destruct (Hold a Ha) as (cf & -> & Hcf). cbn. congruence.
Qed.
End describe.


(** ** Lemmas: the lines that are read can be compared *)
Lemma flush_lines l st l' st' : flush_confs l st = Some (l', st') -> lines_from st st'.
Proof.
  revert st l'. induction l as [|a l IH]; intros st l' H; cbn [flush_confs] in H; [by injection H as <- <-|].
  apply bind_Some in H as (cf & _ & H). destruct (IsIllegal cf).
  - apply bind_Some in H as (st1 & H1 & H). trans st1; [|by eapply IH]. destruct (clients cf =? 0); [|by injection H1 as <-].
    unfold free_conf in H1. apply bind_Some in H1 as (cf1 & _ & [= <-]). intros b y Hb. cbn in Hb. apply lookup_delete_Some in Hb as [_ Hb]. by exists y.
  - apply bind_Some in H as ([r st1] & H1 & [= <- <-]). by eapply IH.
Qed.

Lemma det_lines cptr mask st st' : det_confs_butmask cptr mask st = Some st' -> lines_from st st'.
Proof.
  unfold det_confs_butmask. intros (c & _ & H)%bind_Some. revert st H. generalize (cli_confs c) as l.
  induction l as [|a l IH]; intros st H; [by injection H as <-|]. cbn [det_loop] in H. apply bind_Some in H as (cf & _ & H).
  destruct (has_bits (status cf) mask); [by apply IH|]. apply bind_Some in H as (st1 & H1 & H).
  trans st1; [|by apply IH]. clear H IH. unfold detach_conf in H1. apply bind_Some in H1 as (c1 & _ & H1).
  apply bind_Some in H1 as (cf1 & _ & H1). destruct (clients cf1 <=? 0); [done|].
  destruct (unlink_first a (cli_confs c1)); [|by injection H1 as <-]. apply bind_Some in H1 as (st2 & H2 & H1).
  apply bind_Some in H1 as (st3 & H3 & [= <-]). change (lines_from st st3). trans st2.
  - apply lines_from_eq. unfold drop_link in H2. destruct (conn_class cf1); [|by injection H2 as <-].
    destruct (has_bits (status cf1) CONF_CLIENT_MASK); [|by injection H2 as <-].
    apply bind_Some in H2 as (cl & _ & [= <-]). by destruct (0 <? ref_count cl).
  - assert (Hu : forall n, lines_from st2 (upd_conf (set_clients n) a st2)) by (intros n; by apply lines_from_upd).
    destruct ((clients cf1 - 1 =? 0) && IsIllegal cf1); [|by injection H3 as <-]. unfold free_conf in H3.
    apply bind_Some in H3 as (cf2 & _ & [= <-]). trans (upd_conf (set_clients 0) a st2); [apply Hu|].
    intros b y Hb. cbn in Hb. apply lookup_delete_Some in Hb as [_ Hb]. by exists y.
Qed.

Lemma exit_lines t cptr st st' : exit_client t cptr st = Some st' -> lines_from st st'.
Proof.
  unfold exit_client, close_connection. intros (st2 & (c & _ & H)%bind_Some & [= <-])%bind_Some.
  change (lines_from st st2). apply bind_Some in H as (st1 & H1 & H). trans st1; [|by eapply det_lines].
  case_decide; [|by injection H1 as <-]. apply bind_Some in H1 as (r & _ & H1). destruct r as [a|]; [|by injection H1 as <-].
  unfold reschedule in H1. apply bind_Some in H1 as (cf & _ & H1). apply bind_Some in H1 as (d & _ & [= <-]).
  by apply lines_from_upd.
Qed.

Lemma check_clients_lines t kill who l ret st ret' st' :
  check_clients t kill who l ret st = Some (ret', st') -> lines_from st st'.
Proof.
  revert ret st. induction l as [|cptr l IH]; intros ret st H; cbn [check_clients] in H; [by injection H as <- <-|].
  apply bind_Some in H as (c & _ & H). apply bind_Some in H as (st1 & H1 & H). trans st1.
  { case_decide; [by eapply det_lines|by injection H1 as <-]. }
  destruct (kill cptr); [|by eapply IH]. apply bind_Some in H as (st2 & H2 & H). trans st2; [by eapply exit_lines|by eapply IH].
Qed.

Section lines.
Variables (scan_ip : list Z -> Z * Z) (inet_addr : list Z -> Z) (gethost_byname : list Z -> option Z).

(** The names and hosts of the blocks are masks without a backslash and not
    empty, and the networks have at most 32 bits. *)
Definition good_lines_block (b : block) : Prop :=
  match b with
  | ClientBlock _ _ ip user h _ _ =>
      opt_ok user /\ opt_ok h /\ match ip with Some t => schar (u8 (scan_ip t).1) <= 32 | None => True end
  | ConnectBlock _ nm _ h _ _ _ _ =>
      opt_ok nm /\ match h with Some h => mask_ok (confhost h) | None => True end
  | _ => True
  end.

#[export] Instance good_lines_block_dec b : Decision (good_lines_block b).
Proof. destruct b; unfold good_lines_block; repeat case_match; apply _. Defined.

Lemma make_lines type fields st : lines_ok st -> line_ok (fields (blank type)) -> lines_ok (make_conf type fields st).
Proof. intros Hl Hf a cf. cbn. rewrite lookup_insert_Some. intros [[_ <-]|[_ Ha]]; [done|by apply (Hl a)]. Qed.

Lemma client_fields_ok k ip user h prt ml :
  good_lines_block (ClientBlock None None ip user h prt ml) ->
  line_ok (client_fields scan_ip k ip user h prt ml (blank CONF_CLIENT)).
Proof.
  intros (Hu & Hh & Hb). unfold client_fields. split; destruct ip as [t|]; try destruct (scan_ip t); cbn; try done.
Qed.

Lemma connect_fields_ok k nm h hub prt ml fl :
  mask_ok nm -> mask_ok (confhost h) -> line_ok (connect_fields inet_addr gethost_byname k nm h hub prt ml fl (blank CONF_SERVER)).
Proof.
  intros On Oh. unfold connect_fields, lookup_confhost. cbn [Conf.host Conf.name].
  destruct nm as [|x nm]; [by destruct On|]. destruct h as [|y h]; [by destruct Oh as [_ ?]|]. cbv zeta.
  set (h' := confhost (y :: h)) in *.
  assert (Hg : forall cf, name cf = Some (x :: nm) -> host cf = Some h' -> status cf = CONF_SERVER -> line_ok cf).
  { intros cf En Eh Es. split; [intros _; by rewrite En, Eh|]. by rewrite Es. }
  destruct (IsDigit (hd0 h')); [by apply Hg|]. cbn [dns_pending set_host blank].
  destruct (gethost_byname (host_from_uh h')); by apply Hg.
Qed.

Lemma oper_fields_ok k nm h m ofl type : type = CONF_OPERATOR \/ type = CONF_LOCOP -> line_ok (oper_fields k nm h m ofl (blank type)).
Proof. intros [-> | ->]; by split. Qed.

Lemma opers_lines k nm m ofl type hosts st : type = CONF_OPERATOR \/ type = CONF_LOCOP -> lines_ok st ->
  lines_ok (foldl (fun st h => make_conf type (oper_fields k nm h m ofl) st) st hosts).
Proof.
  intros Ht. revert st. induction hosts as [|h hosts IH]; intros st Hl; [done|]. cbn [foldl]. apply IH, make_lines; [done|].
  by apply oper_fields_ok.
Qed.

Lemma change_confs f v st : confs (change_feature f v st) = confs st.
Proof. unfold change_feature. by case_match. Qed.

Lemma read_block_lines b c m st c' m' st' :
  read_block scan_ip inet_addr gethost_byname b c m st = Some (c', m', st') -> good_lines_block b -> lines_ok st -> lines_ok st'.
Proof.
  destruct b as [nm ping freq maxli sendq umode prop|cls pass ip user h prt ml|cls nm pass h hub prt ml fl|cls nm pass hosts ofl prop|f v];
    unfold read_block; intros H Hg Hl.
  - apply bind_Some in H as ([c1 st1] & H1 & [= <- <- <-]). unfold class_block_end in H1.
    destruct nm as [nm|]; [|by injection H1 as <- <-]. apply bind_Some in H1 as (cs & _ & H1).
    apply bind_Some in H1 as (k & _ & H1). by apply bind_Some in H1 as (p & _ & [= <- <-]).
  - apply bind_Some in H as (k & _ & [= <- <- <-]). unfold client_block_end. destruct k; [|done].
    destruct (_ || _); [done|]. apply make_lines; [done|by apply client_fields_ok].
  - apply bind_Some in H as (k & _ & [= <- <- <-]). unfold connect_block_end.
    destruct nm, pass, h, k; try done. destruct (_ || _); [done|]. apply make_lines; [done|by apply connect_fields_ok; apply Hg].
  - apply bind_Some in H as (k & _ & H). apply bind_Some in H as (st1 & H1 & [= <- <- <-]).
    unfold oper_block_end in H1. destruct nm as [nm|], pass as [pass|], hosts as [|h0 hs0], k as [k|]; try (by injection H1 as <-).
    apply bind_Some in H1 as (cl & _ & H1). destruct (negb _ && negb _); [by injection H1 as <-|].
    destruct (is_set prop || is_set (propagate cl)); apply (inj Some) in H1; subst st1; apply opers_lines; auto.
  - unfold feature_set in H. injection H as <- <- <-. intros a cf. rewrite change_confs. apply Hl.
Qed.

Lemma read_file_lines file c st c' st' :
  read_configuration_file scan_ip inet_addr gethost_byname file c st = Some (c', st') ->
  Forall good_lines_block (default [] file) -> lines_ok st -> lines_ok st'.
Proof.
  unfold read_configuration_file. destruct file as [bs|]; [|by intros [= <- <-]]. cbn [default].
  intros ([[c1 m1] st1] & H1 & [= <- <-])%bind_Some Hb Hl.
  assert (Hl1 : lines_ok st1).
  { change (Forall good_lines_block bs) in Hb. revert c st H1 Hl. generalize no_marks. induction Hb as [|b r Hb _ IH]; intros m c st H1 Hl; cbn [read_blocks] in H1.
    - by injection H1 as <- <- <-.
    - apply bind_Some in H1 as ([[c2 m2] st2] & H2 & H1). apply (IH _ _ _ H1). by apply (read_block_lines b c m st c2 m2). }
  intros a cf. enough (confs (feature_mark m1 st1) = confs st1) as -> by apply Hl1. unfold feature_mark.
  generalize class_features_table as l. intros l. generalize st1 as st2. induction l as [|f l IH]; intros st2; [done|]. cbn [foldl].
  rewrite IH. case_match; [done|apply change_confs].
Qed.

Lemma rehash_sound ex st file c t kill who order :
  sound ex st -> Forall good_conf_block (default [] file) -> Forall good_lines_block (default [] file) -> NoDup order ->
  (forall cptr, cptr ∈ order -> killable kill st cptr) ->
  exists ret c' st', rehash scan_ip inet_addr gethost_byname file c t kill who order st = Some (ret, c', st') /\
    sound (ex && calm_file (features st) file) st'.
Proof.
  intros (Hi & Hl & Ht) Hb Hg Hnd Ho.
  destruct (rehash_reading scan_ip inet_addr gethost_byname ex st file c t kill who order Hi Hb Hnd Ho)
    as (ret & c' & st' & E & Hi' & _ & Hc' & _). exists ret, c', st'. split; [done|]. split_and!; [done| |].
  2:{ intros cptr x. rewrite Hc'. case_decide; [done|]. apply Ht. }
  unfold rehash in E. destruct (mark_confs_spec ex (GlobalConfList st) st (cv_core _ _ (ci_weak _ _ Hi)))
    as (l1 & st1 & E1 & _ & (_ & Ec1 & Elc1 & _) & _ & Hin1 & Hlook1); [apply Hi|exact (cv_list _ _ (ci_weak _ _ Hi))|].
  assert (Hl1 : lines_ok st1).
  { apply (lines_ok_from st); [|done]. intros a cf. rewrite Hlook1. case_decide; [|intros Ha; by exists cf].
    intros (x & Ha & Hx)%bind_Some. exists x. split; [done|]. unfold marked_conf in Hx. case_match; [done|]. injection Hx as <-.
    split_and!; try done; cbn; [by apply has_bits_lor_disjoint|]. intros Hs. exfalso.
    assert (H31 : Z.testbit (status x .| CONF_ILLEGAL) 31 = true) by (by rewrite Z.lor_spec, orb_true_r). by rewrite Hs in H31. }
  rewrite E1 in E. cbn [mbind option_bind] in E. apply bind_Some in E as (cs & _ & E). apply bind_Some in E as ([c3 st3] & E3 & E).
  assert (Hl3 : lines_ok st3) by (by eapply read_file_lines).
  apply bind_Some in E as (cs4 & _ & E). apply bind_Some in E as ([l5 st5] & E5 & E).
  assert (Hl5 : lines_from st3 st5) by (apply flush_lines in E5; exact E5).
  apply bind_Some in E as ([ret6 st6] & E6 & [= <- <- <-]).
  apply (lines_ok_from st3); [|done]. trans st5; [done|].
  change (lines_from (with_conf_list l5 st5) st6). by eapply check_clients_lines.
Qed.
End lines.

(** ** Theorems *)

(** C4: Reading a configuration again, or failing to open it, succeeds whatever the
    entries, classes and connections are, when its blocks all name their class
    and no Class block is called "default".  The connections find_kill() names
    are gone, and all others keep their entries; the answer is whether the
    client who asked is one of the former.  The list is then, in order, made of
    exactly the entries the file describes, each with the valid class it names
    and without clients; every other entry there is was marked and is in use.
    The four features about classes have the last value of the file or their
    default.  The counters of the classes are those of the links, that of the
    built in class only as long as none of these features changes.  In
    particular no pointer to a freed class or entry is left.  The array of
    connections holds each of them once, and find_kill() names no server, as
    it only names connections with a user. *)
Theorem rehash_describes scan_ip inet_addr gethost_byname ex st file c t kill who order :
  conf_inv ex st -> Forall good_conf_block (default [] file) -> NoDup order ->
  (forall cptr, cptr ∈ order -> killable kill st cptr) ->
  exists ret c' st', rehash scan_ip inet_addr gethost_byname file c t kill who order st = Some (ret, c', st') /\
    conf_inv (ex && calm_file (features st) file) st' /\
    (ret = true <-> exists cptr, who = Some cptr /\ cptr ∈ order /\ kill cptr = true) /\
    (forall cptr, local_clients st' !! cptr =
       if decide (cptr ∈ order /\ kill cptr = true) then None else local_clients st !! cptr) /\
    Forall2 (represents st') (GlobalConfList st')
      (describe scan_ip inet_addr gethost_byname (default [] file) (default_env (class_list st))).2 /\
    (forall a cf, confs st' !! a = Some cf -> a ∈ GlobalConfList st' \/ IsIllegal cf = true /\ 0 < clients cf) /\
    file_features (features st) file (features st').
Proof.
  intros Hi Hb Hnd Ho.
  destruct (rehash_reading scan_ip inet_addr gethost_byname ex st file c t kill who order Hi Hb Hnd Ho)
    as (ret & c' & st' & E & Hi' & -> & Hc & Hf & Hr).
  eexists _, c', st'. split_and!; try done.
  - rewrite existsb_exists. split.
    + intros (cptr & Hin & Hk). apply andb_true_iff in Hk as [Hk Hw]. apply bool_decide_eq_true in Hw. exists cptr.
      split_and!; [done|by apply list_elem_of_In|done].
    + intros (cptr & Hw & Hin & Hk). exists cptr. split; [by apply list_elem_of_In|]. by rewrite Hk, bool_decide_eq_true_2.
  - intros a cf Ha. pose proof (cv_entry _ _ (ci_weak _ _ Hi') a cf Ha) as He.
    unfold entry_ok in He. destruct (IsIllegal cf); [by right|left; apply He].
Qed.

Definition sample_scan (t : list Z) : Z * Z := if bool_decide (t = lit "10.0.0.0/8") then (8, 167772160) else (0, 0).
Definition sample_inet (t : list Z) : Z := if bool_decide (t = lit "10.1.1.1") then 167837953 else INADDR_NONE.
Definition sample_clock : clock := MkClock 1000 (fun _ => 0) 300 60.
Definition sample_file : list block :=
  [FeatureItem FEAT_PINGFREQUENCY (Some 120); FeatureItem FEAT_MAXIMUM_LINKS (Some 3);
   ClassBlock (Some (lit "Server")) 90 300 1 9000000 None None;
   ClassBlock (Some (lit "Opers")) 90 0 10 160000 None (Some true);
   ClientBlock (Some (lit "opers")) None (Some (lit "10.0.0.0/8")) None (Some (lit "*")) 0 4;
   ConnectBlock (Some (lit "Server")) (Some (lit "hub.net")) (Some (lit "secret")) (Some (lit "10.1.1.1")) (Some (lit "*")) 4400 0
     CONF_AUTOCONNECT;
   OperBlock (Some (lit "Opers")) (Some (lit "joe")) (Some (lit "pw")) [lit "joe@*"; lit "host"] (Some (lit "OA")) None;
   ClientBlock (Some (lit "None")) None None None None 0 4].

(** The C line of the file: no limit of hops means 65535 for a hub. *)
Example sample_hub :
  match rehash sample_scan sample_inet (fun _ => None) (Some sample_file) None sample_clock (fun _ => false) None [7%N] sample_state with
  | Some (_, _, st) => match GlobalConfList st with
      | [o1; o2; s; c] => port <$> confs st !! o1 = Some 3 /\ maximum <$> confs st !! s = Some 65535 /\
          ipnum <$> confs st !! s = Some 167837953 /\ maximum <$> confs st !! c = Some 4
      | _ => False
      end
  | None => False
  end.
Proof. vm_compute. by split_and!. Qed.

Lemma rehash_describes_witness :
  Forall good_conf_block sample_file /\
  exists c' st', rehash sample_scan sample_inet (fun _ => None) (Some sample_file) None sample_clock (fun c => c =? 7)%N (Some 7%N) [7%N]
      sample_state = Some (true, c', st') /\
    conf_inv true st' /\ length (GlobalConfList st') = 4%nat /\ local_clients st' !! 7%N = None.
Proof.
  split; [by_decide|].
  destruct (rehash_describes sample_scan sample_inet (fun _ => None) true sample_state (Some sample_file) None sample_clock
      (fun c => c =? 7)%N (Some 7%N) [7%N])
    as (ret & c' & st' & E & Hi & Hret & Hc & Hr & _).
  - exact sample_state_inv.
  - by_decide.
  - by_decide.
  - intros cptr Hc. apply elem_of_cons in Hc as [->|Hc]; [|by apply not_elem_of_nil in Hc]. by eexists.
  - assert (ret = true) as ->. { apply Hret. exists 7%N. split_and!; [done|left|done]. }
    exists c', st'. split; [exact E|]. split; [exact Hi|]. split.
    + rewrite (Forall2_length _ _ _ Hr). vm_compute. reflexivity.
    + rewrite Hc. rewrite decide_True; [done|]. split; [left|done].
Defined.

(** Who a Client block admits.  A block without an ip item admits nobody: its
    address is what make_conf() left, INADDR_NONE, and no client is in that
    network of 0 bits.  A block with the ip "*" admits every client whose
    address did not resolve, whatever its host mask says, since the mask is
    only compared with the names of a DNS reply; and when there is a reply,
    every one of its names has to match. *)
Theorem client_block_admission scan_ip k user h prt maxlinks c :
  (forall host, iline_test c (client_fields scan_ip k None user host prt maxlinks (blank CONF_CLIENT)) <> Some true) /\
  (forall t host, scan_ip t = (0, 0) -> user = None -> u16 prt = 0 \/ u16 prt = listener_port c -> cli_dns_reply c = None ->
     iline_test c (client_fields scan_ip k (Some t) user host prt maxlinks (blank CONF_CLIENT)) = Some true) /\
  (forall t hp, cli_dns_reply c = Some hp ->
     iline_test c (client_fields scan_ip k (Some t) user (Some h) prt maxlinks (blank CONF_CLIENT)) = Some true ->
     forall nm, nm ∈ h_names hp -> matches h (take HOSTLEN nm) = Some true).
Proof.
  unfold iline_test, client_fields. split_and!.
  - intros host. cbn [blank bits ipnum status port username Conf.host]. change (schar (u8 0)) with 0. unfold test_if.
    case_match; [|done]. destruct (match user with Some u => _ | None => _ end) as [[|]|]; [|done..]. cbn [mbind option_bind].
    destruct (match cli_dns_reply c with Some hp => _ | None => _ end) as [[|]|]; [|done..]. cbn [mbind option_bind].
    unfold ip_match. cbn [bits ipnum]. change (NETMASK 0) with 0. by rewrite Z.land_0_r.
  - intros t host Ht -> Hp Hd. rewrite Ht, Hd. cbn [blank status port username bits ipnum Conf.host].
    change (schar (u8 0)) with 0. change (CONF_CLIENT =? CONF_CLIENT) with true. cbn [andb]. unfold test_if.
    assert ((u16 prt =? 0) || (u16 prt =? listener_port c) = true) as ->.
    { apply orb_true_iff. rewrite !Z.eqb_eq. done. }
    cbn [mbind option_bind]. unfold ip_match. cbn [bits ipnum]. change (NETMASK 0) with 0. by rewrite Z.land_0_r.
  - intros t hp Hd Ht. rewrite Hd in Ht. destruct (scan_ip t) as [b addr].
    cbn [blank status port username bits ipnum Conf.host] in Ht. unfold test_if in Ht. case_match; [|done].
    destruct (match user with Some u => _ | None => _ end) as [[|]|]; [|done..]. cbn [mbind option_bind] in Ht.
    destruct (names_match h (h_names hp)) as [[|]|] eqn:En; [|done..]. clear -En. revert En.
    induction (h_names hp) as [|nm l IH]; intros En x Hx; [by apply not_elem_of_nil in Hx|]. cbn [names_match] in En.
    destruct (matches h (take HOSTLEN nm)) as [[|]|] eqn:Em; [|done..]. cbn [mbind option_bind] in En.
    apply elem_of_cons in Hx as [->|Hx]; [done|by apply IH].
Qed.

Lemma client_block_admission_witness :
  iline_test sample_client (client_fields (fun _ => (0, 0)) 1 (Some (lit "*")) None (Some (lit "*.trusted.net")) 0 10 (blank CONF_CLIENT))
    = Some true.
Proof.
  destruct (client_block_admission (fun _ => (0, 0)) 1 None (lit "*") 0 10 sample_client) as (_ & H & _).
  apply H; [reflexivity|reflexivity|by left|reflexivity].
Defined.
