(* ===== verification/ConfRun.v ===== *)
(** * The entries of the configuration while the server runs

    try_connections() of ircd.c, and the process: connections come and go, are
    checked, attached and detached, features change, the configuration is read
    again and servers are connected to, in any order. *)
From S2P Require Import Prelude Chattr NumText IrcdString Match Bans Class Conf ConfLink Rehash.
Open Scope ircd_scope.

#[local] Arguments upd_class : simpl never.

(** ** try_connections() (ircd.c) *)

(** Whether an active jupe has the name, a server of that name is linked, or a
    connection rule forbids it. *)
Record connect_env := MkConnectEnv { juped : list Z -> bool; linked : list Z -> bool; forbidden : list Z -> bool }.

(** The loop over the list: [before] are the entries passed.  The entry that is
    tried is moved to the end, where the loop ends. *)
Fixpoint try_loop (e : connect_env) (now : Z) (l before : list N) (next : Z) (st : conf_state)
  : option (list N * option N * Z) :=
  match l with
  | [] => Some (before, None, next)
  | a :: r =>
      cf ← confs st !! a;
      if negb (has_bits (status cf) CONF_SERVER) || (port cf =? 0) || negb (has_bits (conf_flags cf) CONF_AUTOCONNECT)
      then try_loop e now r (before ++ [a]) next st
      else
        nm ← name cf;
        if juped e nm then try_loop e now r (before ++ [a]) next st
        else
          let on_hold := now <? hold cf in
          let next := if on_hold && (hold cf <? next) then hold cf else next in
          if on_hold then try_loop e now r (before ++ [a]) next st
          else
            k ← conn_class cf;
            cl ← classes (class_list st) !! k;
            if (max_links cl <? ref_count cl) || linked e nm || forbidden e nm
            then try_loop e now r (before ++ [a]) next st
            else Some (before ++ r ++ [a], Some a, next)
  end.

(** The entry handed to connect_server() with its answer, and the time of the
    next check.  The entry is the last of the list then, so the loop ends. *)
Definition try_connections (e : connect_env) (le : link_env) (now : Z) (st : conf_state)
  : option (option (N * bool) * Z * conf_state) :=
  '(l, chosen, next) ← try_loop e now (GlobalConfList st) [] (now + CONNECTFREQUENCY (features st)) st;
  let st := with_conf_list l st in
  match chosen with
  | None => Some (None, next, st)
  | Some a => '(ok, st) ← connect_server le a st; Some (Some (a, ok), next, st)
  end.

(** ** The process *)

(** What happens to the entries while the server runs: a connection comes; it is
    attached to an entry, or to the one conf_check_client() finds; as a server
    it is checked by conf_check_server(); it loses the entries outside a mask,
    asks for its limit, or goes; the operator sets a feature or reads the
    configuration again; the timer looks for a server and connects to it. *)
Inductive op :=
  | OpConnect (cptr : N) (c : Client)
  | OpAttach (cptr a : N)
  | OpCheckClient (cptr : N) (chk : ip_check)
  | OpCheckServer (cptr : N)
  | OpDetach (cptr : N) (mask : Z)
  | OpSendq (cptr : N)
  | OpExit (t : clock) (cptr : N)
  | OpFeature (f : class_feature) (v : option Z)
  | OpRehash (gethost : list Z -> option Z) (file : option (list block)) (t : clock) (kill : N -> bool) (who : option N)
      (order : list N)
  | OpTry (e : connect_env) (le : link_env) (now : Z).

Section process.
Variables (scan_ip : list Z -> Z * Z) (inet_addr : list Z -> Z).

(** The first part of the state is the c_class of the parser. *)
Definition exec (o : op) (s : option N * conf_state) : option (option N * conf_state) :=
  let '(c_class, st) := s in
  match o with
  | OpConnect cptr c => Some (c_class, with_clients (<[cptr := c]> (local_clients st)) st)
  | OpAttach cptr a => '(_, st) ← attach_conf cptr a st; Some (c_class, st)
  | OpCheckClient cptr chk => '(_, st) ← conf_check_client cptr chk st; Some (c_class, st)
  | OpCheckServer cptr => '(_, st) ← conf_check_server cptr st; Some (c_class, st)
  | OpDetach cptr mask => st ← det_confs_butmask cptr mask st; Some (c_class, st)
  | OpSendq cptr => '(_, st) ← get_sendq cptr st; Some (c_class, st)
  | OpExit t cptr => st ← exit_client t cptr st; Some (c_class, st)
  | OpFeature f v => Some (c_class, snd (feature_set f v no_marks st))
  | OpRehash gethost file t kill who order =>
      '(_, c_class, st) ← rehash scan_ip inet_addr gethost file c_class t kill who order st; Some (c_class, st)
  | OpTry e le now => '(_, _, st) ← try_connections e le now st; Some (c_class, st)
  end.

(** A new connection has a new address and no entries; the others are about
    connections and entries there are; a connection is checked as a server
    while none of its C lines is marked; the files are sane. *)
Definition enabled (o : op) (st : conf_state) : Prop :=
  match o with
  | OpConnect cptr c => local_clients st !! cptr = None /\ cli_confs c = [] /\ client_ok c
  | OpAttach cptr a => is_Some (local_clients st !! cptr) /\ is_Some (confs st !! a)
  | OpCheckServer cptr => is_Some (local_clients st !! cptr) /\ lines_current cptr st
  | OpCheckClient cptr _ | OpDetach cptr _ | OpSendq cptr | OpExit _ cptr => is_Some (local_clients st !! cptr)
  | OpFeature _ _ => True
  | OpRehash _ file _ kill _ order =>
      Forall good_conf_block (default [] file) /\ Forall (good_lines_block scan_ip) (default [] file) /\
      NoDup order /\ forall cptr, cptr ∈ order -> killable kill st cptr
  | OpTry _ le _ => local_clients st !! new_client le = None
  end.

Inductive reachable (f : class_features) : option N * conf_state -> Prop :=
  | Reach_initial : reachable f (None, initial f)
  | Reach_step o s s' : reachable f s -> enabled o s.2 -> exec o s = Some s' -> reachable f s'.

(** An entry the timer considers: a C line with a port, marked for automatic
    connections, whose name is not juped. *)
Definition candidate (e : connect_env) (cf : ConfItem) : Prop :=
  has_bits (status cf) CONF_SERVER = true /\ port cf <> 0 /\ has_bits (conf_flags cf) CONF_AUTOCONNECT = true /\
  exists nm, name cf = Some nm /\ juped e nm = false.

(** A candidate that may be connected now. *)
Definition eligible (e : connect_env) (now : Z) (st : conf_state) (a : N) : Prop :=
  exists cf nm k cl, confs st !! a = Some cf /\ candidate e cf /\ hold cf <= now /\ name cf = Some nm /\
    conn_class cf = Some k /\ classes (class_list st) !! k = Some cl /\ ref_count cl <= max_links cl /\
    linked e nm = false /\ forbidden e nm = false.

Definition waits (e : connect_env) (now : Z) (st : conf_state) (a : N) (t : Z) : Prop :=
  exists cf, confs st !! a = Some cf /\ candidate e cf /\ now < hold cf /\ t = hold cf.

(** The entries up to the one that is chosen. *)
Definition try_post (e : connect_env) (now : Z) (st : conf_state) (l before : list N) (next : Z)
    (r : list N * option N * Z) : Prop :=
  let '(l', chosen, next') := r in
  exists seen rest, l = seen ++ rest /\
    match chosen with
    | None => rest = [] /\ l' = before ++ l
    | Some a => exists r', rest = a :: r' /\ eligible e now st a /\ l' = before ++ seen ++ r' ++ [a]
    end /\
    (forall b, b ∈ seen -> ~ eligible e now st b) /\
    next' <= next /\ (forall b t, b ∈ seen -> waits e now st b t -> next' <= t) /\
    (next' = next \/ exists b, b ∈ seen /\ waits e now st b next').

Lemma try_post_skip e now st a l before next next1 r :
  ~ eligible e now st a -> next1 <= next -> (forall t, waits e now st a t -> next1 <= t) ->
  (next1 = next \/ waits e now st a next1) ->
  try_post e now st l (before ++ [a]) next1 r -> try_post e now st (a :: l) before next r.
Proof.
  intros Hne Hle Hw Hor. destruct r as [[l' chosen] next'].
  intros (seen & rest & -> & Hch & Hseen & Hn1 & Hn2 & Hn3). exists (a :: seen), rest. split_and!; [done| | | | |].
  - destruct chosen as [b|].
    + destruct Hch as (r' & -> & He & ->). exists r'. split_and!; [done..|]. by rewrite <- app_assoc.
    + destruct Hch as [-> ->]. split; [done|]. by rewrite <- app_assoc.
  - intros b [->|Hb]%elem_of_cons; [done|by apply Hseen].
  - lia.
  - intros b t [->|Hb]%elem_of_cons Hwb; [specialize (Hw t Hwb); lia|by apply (Hn2 b)].
  - destruct Hn3 as [->|(b & Hb & Hwb)].
    + destruct Hor as [->|Ha]; [by left|right]. exists a. split; [left|done].
    + right. exists b. split; [by right|done].
Qed.

Lemma try_loop_spec ex e now st l before next :
  conf_core ex st ->
  (forall a, a ∈ l -> exists cf, confs st !! a = Some cf /\ (has_bits (status cf) CONF_SERVER = true -> is_Some (name cf))) ->
  exists r, try_loop e now l before next st = Some r /\ try_post e now st l before next r.
Proof.
  intros Hc. revert before next. induction l as [|a l IH]; intros before next Hl; cbn [try_loop].
  { eexists. split; [done|]. exists [], []. rewrite !app_nil_r. split_and!; try done; try lia.
    - intros b Hb. by apply not_elem_of_nil in Hb.
    - intros b t Hb. by apply not_elem_of_nil in Hb.
    }
  specialize (fun before next => IH before next ltac:(intros b Hb; apply Hl; by right)).
  destruct (Hl a ltac:(left)) as (cf & Hcf & Hnm). rewrite Hcf. cbn [mbind option_bind].
  destruct (has_bits (status cf) CONF_SERVER) eqn:Es; cbn [negb orb].
  2:{ destruct (IH (before ++ [a]) next) as (r & Hr & Hp). exists r. split; [done|].
      apply (try_post_skip _ _ _ _ _ _ _ next); try done; [| |by left].
      - intros (cf' & ? & ? & ? & Hx & (Hs & _) & _). congruence.
      - intros t (cf' & Hx & (Hs & _) & _). congruence. }
  destruct (port cf =? 0) eqn:Ep; cbn [orb]; bprop.
  { destruct (IH (before ++ [a]) next) as (r & Hr & Hp). exists r. split; [done|].
    apply (try_post_skip _ _ _ _ _ _ _ next); try done; [| |by left].
    - intros (cf' & ? & ? & ? & Hx & (_ & Hs & _) & _). congruence.
    - intros t (cf' & Hx & (_ & Hs & _) & _). congruence. }
  destruct (has_bits (conf_flags cf) CONF_AUTOCONNECT) eqn:Ea; cbn [negb].
  2:{ destruct (IH (before ++ [a]) next) as (r & Hr & Hp). exists r. split; [done|].
      apply (try_post_skip _ _ _ _ _ _ _ next); try done; [| |by left].
      - intros (cf' & ? & ? & ? & Hx & (_ & _ & Hs & _) & _). congruence.
      - intros t (cf' & Hx & (_ & _ & Hs & _) & _). congruence. }
  destruct (Hnm eq_refl) as [nm Hn]. rewrite Hn. cbn [mbind option_bind].
  destruct (juped e nm) eqn:Ej.
  { destruct (IH (before ++ [a]) next) as (r & Hr & Hp). exists r. split; [done|].
    apply (try_post_skip _ _ _ _ _ _ _ next); try done; [| |by left].
    - intros (cf' & ? & ? & ? & Hx & (_ & _ & _ & (nm' & Hs & Hj)) & _). congruence.
    - intros t (cf' & Hx & (_ & _ & _ & (nm' & Hs & Hj)) & _). congruence. }
  assert (Hcand : candidate e cf) by (split_and!; [done..|by exists nm]).
  set (next1 := if (now <? hold cf) && (hold cf <? next) then hold cf else next). cbv zeta. fold next1.
  assert (H1 : next1 <= next) by (unfold next1; case_match eqn:E; [|lia]; apply andb_true_iff in E as [_ E]; bprop; lia).
  assert (H2 : forall t, waits e now st a t -> next1 <= t).
  { intros t (cf' & Hx & _ & Hh & ->). rewrite Hcf in Hx. injection Hx as <-. unfold next1.
    rewrite (proj2 (Z.ltb_lt _ _)) by done. cbn [andb]. case_match; bprop; lia. }
  assert (H3 : next1 = next \/ waits e now st a next1).
  { unfold next1. case_match eqn:E; [|by left]. apply andb_true_iff in E as [E _]. bprop. right. by exists cf. }
  destruct (now <? hold cf) eqn:Eh; bprop.
  { destruct (IH (before ++ [a]) next1) as (r & Hr & Hp). exists r. split; [exact Hr|].
    apply (try_post_skip _ _ _ _ _ _ _ next1); try done.
    intros (cf' & ? & ? & ? & Hx & _ & Hs & _). rewrite Hcf in Hx. injection Hx as <-. lia. }
  destruct (cc_conf _ _ Hc a cf Hcf) as [(k & Hk & [cl Hcl]) _]. rewrite Hk. cbn [mbind option_bind]. rewrite Hcl.
  cbn [mbind option_bind]. destruct ((max_links cl <? ref_count cl) || linked e nm || forbidden e nm) eqn:Ex.
  - destruct (IH (before ++ [a]) next1) as (r & Hr & Hp). exists r. split; [exact Hr|].
    apply (try_post_skip _ _ _ _ _ _ _ next1); try done.
    intros (cf' & nm' & k' & cl' & Hx & _ & _ & Hn' & Hk' & Hcl' & Hle & Hli & Hfo). rewrite Hcf in Hx. injection Hx as <-.
    rewrite Hn in Hn'. injection Hn' as <-. rewrite Hk in Hk'. injection Hk' as <-. rewrite Hcl in Hcl'. injection Hcl' as <-.
    rewrite Hli, Hfo, !orb_false_r in Ex. bprop. lia.
  - apply orb_false_iff in Ex as [Ex Efo]. apply orb_false_iff in Ex as [Ele Eli]. bprop. eexists. split; [done|].
    assert (next1 = next) as ->.
    { destruct H3 as [?|(cf' & Hx & _ & Hh & _)]; [done|]. rewrite Hcf in Hx. injection Hx as <-. lia. }
    exists [], (a :: l). split_and!; try done.
    + exists l. split_and!; [done| |done]. exists cf, nm, k, cl. by split_and!.
    + intros b Hb. by apply not_elem_of_nil in Hb.
    + intros b t Hb. by apply not_elem_of_nil in Hb.
    + by left.
Qed.

Lemma inv_list ex l st : conf_inv ex st -> l ≡ₚ GlobalConfList st -> conf_inv ex (with_conf_list l st).
Proof.
  intros [[[? ? ? ? ? ?] Hnd Hlive He] Hm] Hl. split; [split; [by split|..]|]; cbn.
  - by rewrite Hl.
  - intros a Ha. apply Hlive. by rewrite <- Hl.
  - intros a cf Ha. pose proof (He a cf Ha) as H'. unfold entry_ok in *. case_match; [done|]. destruct H' as [? ?].
    split; [cbn; by rewrite Hl|done].
  - intros a cf Ha. apply Hm. by rewrite <- Hl.
Qed.

Lemma try_post_perm e now st l next l' chosen next' :
  try_post e now st l [] next (l', chosen, next') -> l' ≡ₚ l.
Proof.
  intros (seen & rest & -> & Hch & _). destruct chosen as [a|].
  - destruct Hch as (r' & -> & _ & ->). cbn. f_equiv. by rewrite <- Permutation_cons_append.
  - by destruct Hch as [_ ->].
Qed.

Lemma try_loop_sound ex e now st :
  sound ex st ->
  exists l' chosen next', try_loop e now (GlobalConfList st) [] (now + CONNECTFREQUENCY (features st)) st = Some (l', chosen, next') /\
    try_post e now st (GlobalConfList st) [] (now + CONNECTFREQUENCY (features st)) (l', chosen, next') /\
    sound ex (with_conf_list l' st).
Proof.
  intros (Hi & Hl & Ht).
  destruct (try_loop_spec ex e now st (GlobalConfList st) [] (now + CONNECTFREQUENCY (features st)))
    as ([[l' chosen] next'] & Hr & Hp); [apply Hi| |].
  { intros a Ha. destruct (conf_list_live ex st a Hi Ha) as [cf Hcf]. exists cf. split; [done|]. intros Hs.
    destruct (server_line st a cf Hl Hcf Hs) as (nm & h & -> & _). by eexists. }
  exists l', chosen, next'. split; [done|]. split; [done|]. split_and!; [|done|done].
  apply inv_list; [done|]. by apply (try_post_perm _ _ _ _ _ _ _ _ Hp).
Qed.

(** The entry that is chosen has a name and a host. *)
Lemma chosen_line e now st l next l' a next' :
  lines_ok st -> try_post e now st l [] next (l', Some a, next') ->
  exists cf nm h, confs st !! a = Some cf /\ name cf = Some nm /\ host cf = Some h /\ mask_ok nm /\ mask_ok h.
Proof.
  intros Hl (seen & rest & _ & (r' & _ & He & _) & _). destruct He as (cf & nm & k & cl & Ha & (Hs & _) & _).
  destruct (server_line st a cf Hl Ha Hs) as (nm' & h & ?). by exists cf, nm', h.
Qed.

Lemma change_sound f v st : sound false st -> sound false (change_feature f v st).
Proof.
  intros (Hi & Hl & Ht). split_and!.
  - unfold change_feature. destruct (v_int f (features st) =? v) eqn:E; bprop.
    + rewrite <- E, set_v_int_id. by destruct st.
    + destruct Hi as [Hw Hm]. split; [by apply (weak_init false)|done].
  - intros a cf. rewrite change_confs. apply Hl.
  - apply (texts_ok_eq st); [|done]. unfold change_feature. by case_match.
Qed.

(** Every step of the process from a sound state succeeds and keeps it sound. *)
Lemma exec_sound o c st :
  sound false st -> enabled o st -> exists c' st', exec o (c, st) = Some (c', st') /\ sound false st'.
Proof.
  intros Hs He. pose proof Hs as (Hi & Hl & Ht).
  destruct o as [cptr cl|cptr a|cptr chk|cptr|cptr mask|cptr|t cptr|f v|gethost file t kill who order|e le now]; cbn [exec enabled] in *.
  - destruct He as (Hn & Hc & Hok). eexists _, _. split; [done|]. split_and!; [by apply inv_connect|done|].
    intros j x Hx. cbn in Hx. apply lookup_insert_Some in Hx as [[_ <-]|[_ Hx]]; [done|by apply (Ht j)].
  - destruct He as [[cl Hcl] Ha]. destruct (attach_sound false st cptr cl a Hs Hcl Ha) as (r & st' & -> & Hs' & _). by eexists _, _.
  - destruct He as [cl Hcl]. destruct (conf_check_client_sound false cptr cl chk st Hs Hcl) as (r & st' & -> & Hs'). by eexists _, _.
  - destruct He as [[cl Hcl] Hcur]. destruct (conf_check_server_sound false cptr cl st Hs Hcl Hcur) as (r & st' & -> & Hs'). by eexists _, _.
  - destruct He as [cl Hcl]. destruct (det_confs_ok false cptr mask st cl Hi Hcl) as (st' & kp & -> & Hi' & Hf & Hc' & _).
    eexists _, _. split; [done|]. by apply (sound_from false st _ (set_confs kp) cptr).
  - destruct He as [cl Hcl]. destruct (get_sendq_inv false cptr cl st Hi Hcl) as (q & st' & E & Hi'). rewrite E.
    eexists _, _. split; [done|]. unfold get_sendq in E. rewrite Hcl in E. cbn [mbind option_bind] in E.
    destruct (negb (con_max_sendq cl =? 0)); [by injection E as _ <-|].
    apply bind_Some in E as (r & _ & E). destruct r as [q'|]; injection E as <- <-; [|done]. by apply sound_client.
  - destruct He as [cl Hcl]. destruct (exit_sound false t cptr cl st Hs Hcl) as (st' & -> & Hs' & _). by eexists _, _.
  - eexists _, _. split; [done|]. by apply change_sound.
  - destruct He as (Hb & Hg & Hnd & Ho). destruct (rehash_sound scan_ip inet_addr gethost false st file c t kill who order Hs Hb Hg Hnd Ho)
      as (r & c' & st' & -> & Hs'). by eexists _, _.
  - destruct (try_loop_sound false e now st Hs) as (l' & chosen & next' & Hr & Hp & Hs1).
    unfold try_connections. rewrite Hr. cbn [mbind option_bind]. destruct chosen as [a|]; [|by eexists _, _].
    destruct (chosen_line _ _ _ _ _ _ _ _ Hl Hp) as (cf & nm & h & Ha & Hn & Hh & On & Oh).
    destruct (connect_sound false le a cf nm h (with_conf_list l' st) Hs1 Ha Hn Hh On Oh He) as (ok & st' & -> & Hs' & _).
    by eexists _, _.
Qed.

Lemma initial_sound f : sound false (initial f).
Proof. split_and!; [apply initial_inv|intros a cf Ha; done|intros a c Ha; done]. Qed.

Lemma reachable_sound f s : reachable f s -> sound false s.2.
Proof.
  induction 1 as [|o [c st] s' _ IH He Hx]; [apply initial_sound|]. cbn [snd] in *.
  destruct (exec_sound o c st IH He) as (c' & st' & E & Hi). rewrite E in Hx. by injection Hx as <-.
Qed.
End process.

(** ** Theorems *)

(** The outcome of conf_check_server() for a connection this server made. *)
Definition check_server_post (ex : bool) (cptr : N) (found : option N) (st : conf_state) : Prop :=
  match found with
  | None => exists st', conf_check_server cptr st = Some (-1, st') /\ conf_inv ex st' /\
      (cli_confs <$> local_clients st' !! cptr) = Some []
  | Some a => exists cf, confs st !! a = Some cf /\
      if IsIllegal cf then
        if clients cf =? 1 then conf_check_server cptr st = None
        else exists st', conf_check_server cptr st = Some (0, st') /\ (cli_confs <$> local_clients st' !! cptr) = Some []
      else exists st', conf_check_server cptr st = Some (0, st') /\ (cli_confs <$> local_clients st' !! cptr) = Some [a]
  end.

(** C39: conf_check_server() detaches every C line of the connection and then
    attaches the one it found again.  For a connection that this server made
    that keeps the line when it is one of the configuration; but a line that
    rehash() has marked meanwhile is freed when the connection was its last
    client, and is read afterwards, and when another client keeps it alive the
    server is let in without a line. *)
Theorem conf_check_server_connecting ex st cptr c found :
  conf_inv ex st -> local_clients st !! cptr = Some c ->
  cli_status c = STAT_CONNECTING \/ cli_status c = STAT_HANDSHAKE ->
  find_conf_byname (cli_confs c) (cli_name c) CONF_SERVER st = Some found ->
  (forall a cf, a ∈ cli_confs c -> confs st !! a = Some cf -> has_bits (status cf) (CONF_OPS .| CONF_CLIENT) = false) ->
  check_server_post ex cptr found st.
Proof.
  intros Hi Hcl Hs Hf Hmask. unfold check_server_post.
  destruct (det_confs_inv ex cptr 0 st c Hi Hcl) as (st' & kp & Hd & Hi' & Hlc & _ & Hk & _ & Hdr).
  assert (kp = []) as ->.
  { destruct kp as [|b kp]; [done|]. exfalso. apply (stays_0 st b). apply (proj1 (Hk b)). left. }
  assert (Hlc' : local_clients st' !! cptr = Some (set_confs [] c)) by (by rewrite Hlc, lookup_alter_eq, Hcl).
  assert (Hgo : forall x, match found with
      | None => st ← det_confs_butmask cptr 0 st; Some (-1, st)
      | Some a => keep_server_conf cptr (Some a) st
      end = x -> conf_check_server cptr st = x).
  { intros x <-. unfold conf_check_server. rewrite Hcl. cbn [mbind option_bind].
    assert (IsUnknown c = false) as -> by (unfold IsUnknown; by destruct Hs as [-> | ->]). cbn [mbind option_bind negb]. rewrite Hcl. cbn [mbind option_bind].
    rewrite decide_True by done. rewrite Hf. cbn [mbind option_bind]. by destruct found. }
  destruct found as [a|].
  2:{ exists st'. split_and!; [apply Hgo; by rewrite Hd|done|by rewrite Hlc']. }
  assert (Hin : a ∈ cli_confs c).
  { unfold find_conf_byname in Hf. case_match; [done|]. by apply first_conf_in in Hf as [? _]. }
  destruct (cc_attached _ _ (cv_core _ _ (ci_weak _ _ Hi)) cptr c Hcl) as [_ Hlive]. destruct (Hlive a Hin) as [cf Ha].
  exists cf. split; [done|].
  pose proof (Hdr a cf Hin Ha (proj2 (negb_false_iff _) (proj2 (Z.eqb_eq _ _) (Z.land_0_r (status cf))))) as Ha'. unfold dropped in Ha'.
  assert (Hat : forall cf', confs st' !! a = Some cf' -> exists k cl st2,
    conn_class cf' = Some k /\ classes (class_list st') !! k = Some cl /\
    attach_conf cptr a st' = Some (attach_outcome (set_confs [] c) a cf' cl, st2) /\ conf_inv ex st2 /\
    st2 = if decide (attach_outcome (set_confs [] c) a cf' cl = ACR_OK)
          then relink cptr [a] a (clients cf' + 1) k (ref_count cl + 1) st' else st').
  { intros cf' Hcf'. exact (attach_inv ex st' cptr (set_confs [] c) a cf' Hi' Hlc' Hcf'). }
  destruct (IsIllegal cf) eqn:Ei.
  - rewrite andb_true_r in Ha'. destruct (clients cf =? 1) eqn:E1; bprop.
    + rewrite E1 in Ha'. cbn in Ha'. apply Hgo. unfold keep_server_conf. rewrite Hd. cbn [mbind option_bind].
      unfold attach_conf. rewrite Hlc'. cbn [mbind option_bind]. unfold is_attached. cbn [set_confs cli_confs].
      rewrite bool_decide_eq_false_2 by apply not_elem_of_nil. by rewrite Ha'.
    + rewrite (proj2 (Z.eqb_neq _ _)) in Ha' by lia. destruct (Hat _ Ha') as (k & cl & st2 & _ & _ & E & _ & Est2).
      unfold attach_outcome in E, Est2. rewrite decide_False in E, Est2 by apply not_elem_of_nil.
      change (IsIllegal (set_clients (clients cf - 1) cf)) with (IsIllegal cf) in *. rewrite Ei in *.
      rewrite decide_False in Est2 by done. subst st2. eexists. split.
      * apply Hgo. unfold keep_server_conf. rewrite Hd. cbn [mbind option_bind]. rewrite E. cbn [mbind option_bind].
        rewrite Ha'. cbn [mbind option_bind]. rewrite Hlc'. done.
      * case_match; cbn; by rewrite Hlc'.
  - rewrite andb_false_r in Ha'. destruct (Hat _ Ha') as (k & cl & st2 & _ & _ & E & _ & Est2).
    unfold attach_outcome in E, Est2. rewrite decide_False in E, Est2 by apply not_elem_of_nil.
    change (IsIllegal (set_clients (clients cf - 1) cf)) with (IsIllegal cf) in *. rewrite Ei in *.
    change (status (set_clients (clients cf - 1) cf)) with (status cf) in *. rewrite (Hmask a cf Hin Ha) in *.
    cbn [andb] in E, Est2. rewrite decide_True in Est2 by done. subst st2. eexists. split.
    + apply Hgo. unfold keep_server_conf. rewrite Hd. cbn [mbind option_bind]. rewrite E. cbn [mbind option_bind].
      rewrite relink_conf, Ha'. cbn [fmap option_fmap option_map mbind option_bind].
      rewrite relink_client, Hlc'. done.
    + case_match; cbn; by rewrite lookup_alter_eq, Hlc'.
Qed.

(** *** The server reads its configuration again while it connects *)
Definition no_scan (t : list Z) : Z * Z := (0, 0).
Definition no_host (h : list Z) : Z := INADDR_NONE.
Definition no_answer (h : list Z) : option Z := None.
Definition sample_times : clock := MkClock 1000 (fun _ => 0) 300 60.
Definition reread (file : list block) (order : list N) : op :=
  OpRehash no_answer (Some file) sample_times (fun _ => false) None order.
Definition hub_file : list block :=
  [FeatureItem FEAT_MAXIMUM_LINKS (Some 3); ClassBlock (Some (lit "Server")) 90 300 1 9000000 None None;
   ConnectBlock (Some (lit "Server")) (Some (lit "hub.net")) (Some (lit "secret")) (Some (lit "10.1.1.1")) None 4400 0 CONF_AUTOCONNECT].
Definition connecting : Client := MkClient [] 0 STAT_CONNECTING (lit "hub.net") [] (lit "10.1.1.1") 1 0 None false.

Fixpoint run (ops : list op) (s : option N * conf_state) : option (option N * conf_state) :=
  match ops with
  | [] => Some s
  | o :: r => s ← exec no_scan no_host o s; run r s
  end.

(** The hub is connected to, and its file is read again. *)
Definition reload_ops : list op := [reread hub_file []; OpConnect 7 connecting; OpAttach 7 1; reread hub_file [7%N]].

Lemma run_sound ops : forall s,
  sound false s.2 ->
  (forall n s', run (firstn n ops) s = Some s' -> match ops !! n with Some o => enabled no_scan o s'.2 | None => True end) ->
  exists s', run ops s = Some s' /\ sound false s'.2.
Proof.
  induction ops as [|o ops IH]; intros s Hi He; [by exists s|]. destruct s as [c st]. cbn [run].
  destruct (exec_sound no_scan no_host o c st Hi (He 0%nat _ eq_refl)) as (c' & st' & E & Hi'). rewrite E. cbn [mbind option_bind].
  apply IH; [done|]. intros n s' Hn. apply (He (S n)). cbn [firstn run]. by rewrite E.
Qed.

Lemma hub_file_good : Forall good_conf_block hub_file /\ Forall (good_lines_block no_scan) hub_file.
Proof. split; by_decide. Qed.

Lemma reload_enabled n s' :
  run (firstn n reload_ops) (None, initial sample_features) = Some s' ->
  match reload_ops !! n with Some o => enabled no_scan o s'.2 | None => True end.
Proof.
  destruct hub_file_good. destruct n as [|[|[|[|n]]]]; intros E; try done; cbn [reload_ops lookup list_lookup enabled reread].
  - injection E as <-. split_and!; [done..|apply NoDup_nil_2|]. intros cptr Hc. by apply not_elem_of_nil in Hc.
  - vm_compute in E. injection E as <-. split_and!; [done..|by_decide].
  - vm_compute in E. injection E as <-. split; by eexists.
  - vm_compute in E. injection E as <-. split_and!; [done..|by_decide|]. intros cptr Hc.
    apply elem_of_cons in Hc as [->|Hc]; [by eexists|by apply not_elem_of_nil in Hc].
Qed.

Lemma conf_check_server_connecting_witness :
  match run reload_ops (None, initial sample_features) with
  | Some (_, st) => conf_check_server 7 st = None
  | None => False
  end.
Proof.
  destruct (run_sound reload_ops (None, initial sample_features) (initial_sound _) reload_enabled) as ([k st] & E & Hs).
  rewrite E. cbn [snd] in Hs. destruct Hs as [Hi _]. vm_compute in E. injection E as _ E.
  assert (Hcl : exists c, local_clients st !! 7%N = Some c /\ cli_status c = STAT_CONNECTING /\ cli_confs c = [1%N] /\
    cli_name c = lit "hub.net") by (subst st; eexists; by split_and!).
  assert (Hcf : exists cf, confs st !! 1%N = Some cf /\ IsIllegal cf = true /\ clients cf = 1 /\
    has_bits (status cf) (CONF_OPS .| CONF_CLIENT) = false) by (subst st; eexists; by split_and!).
  destruct Hcl as (c & Hcl & Hs & Hl & Hn), Hcf as (cf & Hcf & Hill & H1 & Hm).
  assert (Hf : find_conf_byname [1%N] (lit "hub.net") CONF_SERVER st = Some (Some 1%N)) by (subst st; vm_compute; reflexivity).
  destruct (conf_check_server_connecting false st 7 c (Some 1%N) Hi Hcl (or_introl Hs)) as (cf' & Hcf' & H).
  - by rewrite Hl, Hn.
  - intros a x Ha Hx. rewrite Hl in Ha. apply elem_of_cons in Ha as [->|Ha]; [congruence|by apply not_elem_of_nil in Ha].
  - rewrite Hcf in Hcf'. injection Hcf' as <-. by rewrite Hill, H1 in H.
Defined.

(** C5: The steps of the server that are about configuration entries read no entry
    or class that was freed, follow no null pointer and fail no assertion, in
    any order and from any state these steps lead to: a connection comes, is
    attached to an entry there is, is checked as a client, loses entries, asks
    for its limit and goes; a feature is set; the configuration is read again;
    the timer looks for a server and connects to it; and a connection is
    checked as a server, as long as none of its C lines was marked by a rehash
    (conf_check_server_connecting is about the others).  The texts of clients
    are C strings, a file names the class of each block, calls no class
    "default", has no backslash and no empty mask in the names and hosts of its
    Connect and Client blocks and no network of more than 32 bits, and
    find_kill() names no server.  The counters stay those of the links, up to
    that of the built in class. *)
Theorem reachable_safe scan_ip inet_addr f s o :
  reachable scan_ip inet_addr f s -> enabled scan_ip o s.2 ->
  exists s', exec scan_ip inet_addr o s = Some s' /\ conf_inv false s'.2.
Proof.
  intros Hr He. destruct s as [c st].
  destruct (exec_sound scan_ip inet_addr o c st (reachable_sound _ _ _ _ Hr) He) as (c' & st' & E & Hi & _).
  by exists (c', st').
Qed.

Lemma reachable_safe_witness :
  reachable no_scan no_host sample_features (None, initial sample_features) /\
  exists s', exec no_scan no_host (reread hub_file []) (None, initial sample_features) = Some s' /\ conf_inv false s'.2.
Proof.
  split; [apply Reach_initial|].
  apply (reachable_safe no_scan no_host sample_features (None, initial sample_features) (reread hub_file [])).
  - apply Reach_initial.
  - destruct hub_file_good. split_and!; [done..|apply NoDup_nil_2|]. intros cptr Hc. by apply not_elem_of_nil in Hc.
Defined.

(** C23: try_connections() goes through the list up to the first entry that may be
    connected: a C line with a port, marked for automatic connections, whose
    hold time is over, whose name is not juped, linked or forbidden by a rule,
    and whose class has fewer links than its maximum.  Without one nothing
    changes.  Otherwise that entry is moved to the end of the list and handed
    to connect_server(), which leaves the list and the other connections alone;
    there is a new connection when a socket was opened for it, and its lines
    are C lines of the list whose host matches.  The next check is at the
    latest after the connect frequency, and no later than the hold time of any
    entry it passed.  This is for a state whose class counters are exact and
    whose C lines have a name and a host without a backslash, and for an
    address that is new.  A class without a maximum, 0, is never connected. *)
Theorem try_connections_correct e le now st :
  sound true st -> local_clients st !! new_client le = None ->
  exists chosen next st', try_connections e le now st = Some (chosen, next, st') /\ sound true st' /\
    try_post e now st (GlobalConfList st) [] (now + CONNECTFREQUENCY (features st)) (GlobalConfList st', fst <$> chosen, next) /\
    match chosen with
    | None => st' = st
    | Some (a, ok) => exists cf h, confs st !! a = Some cf /\ host cf = Some h /\
        connect_server le a (with_conf_list (GlobalConfList st') st) = Some (ok, st') /\
        link_post le h ok (with_conf_list (GlobalConfList st') st) st' /\
        forall k cl, conn_class cf = Some k -> classes (class_list st) !! k = Some cl -> class_links k (confs st) < max_links cl
    end.
Proof.
  intros Hs Hnew. pose proof Hs as (Hi & Hl & _). pose proof (cv_core _ _ (ci_weak _ _ Hi)) as Hc.
  destruct (try_loop_sound true e now st Hs) as (l' & chosen & next & Hr & Hp & Hs1).
  unfold try_connections. rewrite Hr. cbn [mbind option_bind]. destruct chosen as [a|].
  - destruct (chosen_line _ _ _ _ _ _ _ _ Hl Hp) as (cf & nm & h & Ha & Hn & Hh & On & Oh).
    destruct (connect_sound true le a cf nm h (with_conf_list l' st) Hs1 Ha Hn Hh On Oh Hnew) as (ok & st' & E & Hs' & Hlp).
    rewrite E. cbn [mbind option_bind]. assert (GlobalConfList st' = l') as Eg by apply Hlp.
    eexists _, next, st'. split; [done|]. rewrite Eg. split; [done|]. split; [exact Hp|]. exists cf, h. split_and!; [done..|].
    intros k cl Hk Hcl. destruct Hp as (seen & rest & _ & (r' & _ & He & _) & _).
    destruct He as (cf' & nm' & k' & cl' & Ha' & _ & _ & _ & Hk' & Hcl' & Hle & _).
    rewrite Ha in Ha'. injection Ha' as <-. rewrite Hk in Hk'. injection Hk' as <-. rewrite Hcl in Hcl'. injection Hcl' as <-.
    rewrite (cc_links _ _ Hc k cl Hcl ltac:(by right)) in Hle. lia.
  - eexists None, next, _. split; [done|]. split; [done|]. split; [exact Hp|].
    destruct Hp as (seen & rest & _ & [_ ->] & _). by destruct st.
Qed.

Definition sample_link : link_env := MkLinkEnv (fun _ => false) (fun _ => 167837953) (fun _ => None) (Some false) false false 9%N.

Lemma try_connections_correct_witness :
  let e := MkConnectEnv (fun _ => false) (fun _ => false) (fun _ => false) in
  match exec no_scan no_host (reread hub_file []) (None, initial sample_features) with
  | Some (_, st) => exists next st', try_connections e sample_link 1000 st = Some (Some (1%N, true), next, st') /\
      cli_confs <$> local_clients st' !! 9%N = Some [1%N]
  | None => False
  end.
Proof.
  intros e. destruct hub_file_good as [Hg1 Hg2].
  destruct (rehash_sound no_scan no_host no_answer true (initial sample_features) (Some hub_file) None sample_times (fun _ => false) None [])
    as (r & c & st & E & Hs).
  - split_and!; [apply initial_inv|intros a cf Ha; done|intros a cl Ha; done].
  - done.
  - done.
  - apply NoDup_nil_2.
  - intros cptr Hc. by apply not_elem_of_nil in Hc.
  - cbn [exec reread]. rewrite E. cbn [mbind option_bind]. change (sound true st) in Hs.
    vm_compute in E. injection E as _ _ Est.
    destruct (try_connections_correct e sample_link 1000 st Hs) as (chosen & next & st' & Et & _); [by rewrite <- Est|].
    exists next, st'. rewrite <- Est in Et. vm_compute in Et. injection Et as <- <- Est'. rewrite <- Est, <- Est'. done.
Defined.

(** A feature that changes sets the links of the default class to 1, also when
    clients are attached to its entries. *)
Theorem init_class_forgets_links f st cl :
  conf_inv true st -> classes (class_list st) !! default_class (class_list st) = Some cl ->
  exists cl', classes (init_class f (class_list st)) !! default_class (class_list st) = Some cl' /\
    ref_count cl' = ref_count cl - class_links (default_class (class_list st)) (confs st).
Proof.
  intros Hi Hcl. pose proof (cv_core _ _ (ci_weak _ _ Hi)) as Hc.
  destruct (init_class_spec f (class_list st) (cc_class _ _ Hc)) as (g & E & _ & Hg). exists (g cl).
  rewrite E, upd_class_lookup, decide_True, Hcl by done. split; [done|].
  rewrite (cc_links _ _ Hc _ cl Hcl ltac:(by right)). destruct (Hg cl) as (_ & _ & _ & ->). lia.
Qed.

(** A Class block at the end of a file leaves its class in c_class, and a
    Client block without a class at the start of the next one takes it: when
    that file does not declare the class, it is freed and the entry keeps the
    pointer, which attaching a client follows. *)
Theorem class_block_dangling :
  match run [reread [ClassBlock (Some (lit "Old")) 90 0 0 0 None None] [];
             reread [ClientBlock None None (Some (lit "*")) None None 0 4] [];
             OpConnect 7 connecting] (None, initial sample_features) with
  | Some (_, st) => GlobalConfList st = [1%N] /\ attach_conf 7 1 st = None
  | None => False
  end.
Proof. vm_compute. split; reflexivity. Qed.
