(* ===== verification/Whowas.v ===== *)
(** * ircd/whowas.c: the nickname history

    The records live in a store by their address and the history list is kept
    with its pointers.  The chains of the hash table and of a client's records
    are the sequences of the addresses on them: the code unlinks a record
    through the pointer to the pointer before it, wherever that is.  A read or
    write through a dangling pointer is [None]. *)
From S2P Require Import Prelude Chattr IrcdString.

Definition BITS_PER_COL : Z := 3.
Definition BITS_PER_COL_MASK : Z := 0x7.
Definition WW_MAX_INITIAL : Z := 16.
Definition MAX_SUB : Z := Z.shiftl 1 BITS_PER_COL.
Definition WW_MAX_INITIAL_MASK : Z := WW_MAX_INITIAL - 1.
Definition WW_MAX : Z := WW_MAX_INITIAL * MAX_SUB.

(** One turn of the loop of hash_whowas_name(). *)
Definition whowas_hash_step (h : Z * Z) (c : Z) : Z * Z :=
  let lower := ToLower c in
  (u32 (Z.shiftl h.1 1 + lower), u32 (Z.shiftr h.2 1 + lower)).

(** The loop reads its first character before it tests for the end: the empty
    name is read past its terminator. *)
Definition hash_whowas_name (name : list Z) : option Z :=
  match name with
  | [] => None
  | _ =>
      let '(hash, hash2) := foldl whowas_hash_step (0, 0) name in
      Some (Z.shiftl (Z.land hash WW_MAX_INITIAL_MASK) BITS_PER_COL
            + Z.land hash2 BITS_PER_COL_MASK)
  end.

(** ** Records *)

(** The text of a record and its time. *)
Record entry := Entry {
  ww_name : list Z;
  ww_username : list Z;
  ww_hostname : list Z;
  ww_realhost : option (list Z);
  ww_servername : list Z;
  ww_realname : list Z;
  ww_away : option (list Z);
  ww_logoff : Z }.

(** struct Whowas; [text] is [None] while all its strings are null. *)
Record Whowas := MkWhowas {
  hashv : Z;
  text : option entry;
  online : option N;
  wnext : option N;
  wprev : option N }.

(** wwList, the hash table and the cli_whowas() of the clients. *)
Record history := History {
  store : gmap N Whowas;
  ww_list : option N;
  ww_tail : option N;
  ww_alloc : Z;
  whowashash : gmap Z (list N);
  cli_whowas : gmap N (list N) }.

Definition bucket (st : history) (h : Z) : list N := default [] (whowashash st !! h).
Definition records_of (st : history) (c : N) : list N := default [] (cli_whowas st !! c).

Definition set_store (s : gmap N Whowas) (st : history) : history :=
  History s (ww_list st) (ww_tail st) (ww_alloc st) (whowashash st) (cli_whowas st).
Definition set_list (p : option N) (st : history) : history :=
  History (store st) p (ww_tail st) (ww_alloc st) (whowashash st) (cli_whowas st).
Definition set_tail (p : option N) (st : history) : history :=
  History (store st) (ww_list st) p (ww_alloc st) (whowashash st) (cli_whowas st).
Definition set_alloc (n : Z) (st : history) : history :=
  History (store st) (ww_list st) (ww_tail st) n (whowashash st) (cli_whowas st).
Definition set_bucket (h : Z) (l : list N) (st : history) : history :=
  History (store st) (ww_list st) (ww_tail st) (ww_alloc st) (<[h := l]> (whowashash st))
    (cli_whowas st).
Definition set_records (c : N) (l : list N) (st : history) : history :=
  History (store st) (ww_list st) (ww_tail st) (ww_alloc st) (whowashash st)
    (<[c := l]> (cli_whowas st)).

Definition set_wnext (p : option N) (w : Whowas) : Whowas :=
  MkWhowas (hashv w) (text w) (online w) p (wprev w).
Definition set_wprev (p : option N) (w : Whowas) : Whowas :=
  MkWhowas (hashv w) (text w) (online w) (wnext w) p.
Definition set_online (c : option N) (w : Whowas) : Whowas :=
  MkWhowas (hashv w) (text w) c (wnext w) (wprev w).
Definition set_text (h : Z) (e : entry) (w : Whowas) : Whowas :=
  MkWhowas h (Some e) (online w) (wnext w) (wprev w).

(** A store through a pointer, and through one that may be null. *)
Definition upd (p : N) (f : Whowas -> Whowas) (st : history) : option history :=
  w ← store st !! p; Some (set_store (<[p := f w]> (store st)) st).

Definition upd_opt (p : option N) (f : Whowas -> Whowas) (st : history) : option history :=
  match p with Some p => upd p f st | None => Some st end.

Definition without (p : N) (l : list N) : list N := filter (fun q => q <> p) l.

(** ** Allocation *)

(** whowas_clean() of a record. *)
Definition whowas_clean (p : N) (st : history) : option history :=
  w ← store st !! p;
  let st :=
    match online w with
    | Some c => set_records c (without p (records_of st c)) st
    | None => st
    end in
  let st := set_bucket (hashv w) (without p (bucket st (hashv w))) st in
  st ← upd_opt (wnext w) (set_wprev (wprev w)) st;
  w ← store st !! p;
  st ← upd_opt (wprev w) (set_wnext (wnext w)) st;
  w ← store st !! p;
  let st := if decide (ww_tail st = Some p) then set_tail (wprev w) st else st in
  Some (set_store (<[p := MkWhowas (hashv w) None (online w) (wnext w) (wprev w)]> (store st)) st).

Definition whowas_free (p : N) (st : history) : option history :=
  st ← whowas_clean p st;
  Some (set_alloc (u32 (ww_alloc st - 1)) (set_store (delete p (store st)) st)).

Definition whowas_init (p : N) (st : history) : history :=
  set_store (<[p := MkWhowas 0 None None None None]> (store st)) st.

(** The record to use, if there is one; [limit] is
    feature_int(FEAT_NICKNAMEHISTORYLENGTH) and [block] what MyMalloc() returns
    when it is asked for memory. *)
Definition whowas_alloc (limit : Z) (block : N) (st : history) : option (option N * history) :=
  if u32 limit <=? ww_alloc st then
    match ww_tail st with
    | None => Some (None, st)
    | Some p => st ← whowas_clean p st; Some (Some p, whowas_init p st)
    end
  else
    let st := set_alloc (u32 (ww_alloc st + 1)) st in
    Some (Some block, whowas_init block st).

(** The loop of whowas_realloc(); [Some None] is an exhausted fuel. *)
Fixpoint whowas_realloc (fuel : nat) (limit : Z) (st : history) : option (option history) :=
  if ww_alloc st <=? u32 limit then Some (Some st)
  else
    match ww_tail st with
    | None => Some (Some st)
    | Some p =>
        match fuel with
        | O => Some None
        | S fuel => st ← whowas_free p st; whowas_realloc fuel limit st
        end
    end.

(** ** Operations *)

(** What add_history() reads of a client. *)
Record client := Client {
  cli_name : list Z;
  cli_username : list Z;
  cli_host : list Z;
  cli_realhost : list Z;
  cli_server : list Z;
  cli_info : list Z;
  cli_away : option (list Z);
  HasHiddenHost : bool;
  IsHiddenHost : bool }.

(** [style] is feature_int(FEAT_HOST_HIDING_STYLE). *)
Definition make_entry (style now : Z) (c : client) : entry :=
  let hidden := if style =? 1 then HasHiddenHost c else IsHiddenHost c in
  Entry (cli_name c) (cli_username c) (cli_host c)
    (if hidden then Some (cli_realhost c) else None) (cli_server c) (cli_info c) (cli_away c) now.

(** The part of add_history() after the allocation: the record is filled in and
    put at the head of the client's records, of the history and of its chain. *)
Definition link_record (p cptr : N) (h : Z) (e : entry) (still_on : bool) (st : history) : option history :=
  st ← upd p (set_text h e) st;
  st ← (if still_on then
          st ← upd p (set_online (Some cptr)) st;
          Some (set_records cptr (p :: records_of st cptr) st)
        else upd p (set_online None) st);
  st ← upd p (set_wnext (ww_list st)) st;
  st ← upd_opt (ww_list st) (set_wprev (Some p)) st;
  let st := set_list (Some p) st in
  let st := match ww_tail st with None => set_tail (Some p) st | Some _ => st end in
  Some (set_bucket h (p :: bucket st h) st).

Definition add_history (limit style now : Z) (block cptr : N) (c : client) (still_on : bool)
    (st : history) : option history :=
  '(ww, st) ← whowas_alloc limit block st;
  match ww with
  | None => Some st
  | Some p =>
      h ← hash_whowas_name (cli_name c);
      link_record p cptr h (make_entry style now c) still_on st
  end.

(** off_history(): a loop over the client's records. *)
Fixpoint clear_online (l : list N) (st : history) : option history :=
  match l with
  | [] => Some st
  | p :: r => st ← upd p (set_online None) st; clear_online r st
  end.

Definition off_history (cptr : N) (st : history) : option history :=
  clear_online (records_of st cptr) st.

(** The loop of get_history(): [Some None] is a null result. *)
Fixpoint search_history (nick : list Z) (since : Z) (l : list N) (st : history)
  : option (option N) :=
  match l with
  | [] => Some None
  | p :: r =>
      w ← store st !! p; e ← text w;
      if (ircd_strcmp nick (ww_name e) =? 0) && (since <? ww_logoff e) then Some (online w)
      else search_history nick since r st
  end.

Definition get_history (now : Z) (nick : list Z) (timelimit : Z) (st : history)
  : option (option N) :=
  h ← hash_whowas_name nick;
  search_history nick (now - timelimit) (bucket st h) st.

(** The size of a duplicated string. *)
Definition dup_size (s : list Z) : Z := Z.of_nat (length s) + 1.

Record memory := Memory { wwu : Z; wwum : Z; wwa : Z; wwam : Z }.

(** count_whowas_memory(); [Some None] is an exhausted fuel. *)
Fixpoint count_loop (fuel : nat) (tmp : option N) (m : memory) (st : history)
  : option (option memory) :=
  match tmp with
  | None => Some (Some m)
  | Some p =>
      match fuel with
      | O => Some None
      | S fuel =>
          w ← store st !! p; e ← text w;
          let um := wwum m + dup_size (ww_name e) + dup_size (ww_username e)
                    + dup_size (ww_hostname e) + dup_size (ww_servername e) in
          let '(a, am) :=
            match ww_away e with
            | Some s => (wwa m + 1, wwam m + dup_size s)
            | None => (wwa m, wwam m)
            end in
          count_loop fuel (wnext w) (Memory (wwu m + 1) um a am) st
      end
  end.

Definition count_whowas_memory (fuel : nat) (st : history) : option (option memory) :=
  count_loop fuel (ww_list st) (Memory 0 0 0 0) st.

Definition initwhowas (st : history) : history :=
  History (store st) (ww_list st) (ww_tail st) (ww_alloc st)
    (list_to_map (map (fun i => (Z.of_nat i, [])) (seq 0 (Z.to_nat WW_MAX)))) (cli_whowas st).

(** The state before the first client. *)
Definition empty_history : history := initwhowas (History ∅ None None 0 ∅ ∅).

(** ** Specification: the history as a list of records, newest first *)

(** The address of a record, its text and the client it belongs to. *)
Abbreviation record := (N * (entry * option N))%type.

Definition hash_of (e : entry) : Z := default 0 (hash_whowas_name (ww_name e)).

Definition cell (e : entry) (o nx pv : option N) : Whowas := MkWhowas (hash_of e) (Some e) o nx pv.

Fixpoint linked (s : gmap N Whowas) (pv : option N) (l : list record) : Prop :=
  match l with
  | [] => True
  | (p, (e, o)) :: r => s !! p = Some (cell e o (head r.*1) pv) /\ linked s (Some p) r
  end.

Definition of_hash (h : Z) (l : list record) : list record := filter (fun r => hash_of r.2.1 = h) l.
Definition of_client (c : N) (l : list record) : list record := filter (fun r => r.2.2 = Some c) l.

Definition named (r : record) : Prop := ww_name r.2.1 <> [] /\ cstring (ww_name r.2.1).

(** The lists of the program hold the records of [l]; [live] are the clients
    that have not signed off. *)
Definition links (live : N -> Prop) (st : history) (l : list record) : Prop :=
  NoDup l.*1 /\ linked (store st) None l /\ ww_list st = head l.*1 /\ ww_tail st = last l.*1 /\
  (forall h, bucket st h = (of_hash h l).*1) /\
  (forall c, live c -> records_of st c = (of_client c l).*1) /\
  (forall r c, r ∈ l -> r.2.2 = Some c -> live c) /\ Forall named l.

Definition rep (live : N -> Prop) (st : history) (l : list record) : Prop :=
  links live st l /\ ww_alloc st = Z.of_nat (length l).

(** *** Hashing *)
Lemma whowas_fold_lower a b h : lower a = lower b -> foldl whowas_hash_step h a = foldl whowas_hash_step h b.
Proof.
  revert b h. induction a as [|x a IH]; intros [|y b] h E; try done. injection E as E1 E2.
  cbn [foldl]. rewrite (IH b) by done. f_equal. unfold whowas_hash_step. by rewrite E1.
Qed.

Lemma hash_whowas_lower a b : lower a = lower b -> hash_whowas_name a = hash_whowas_name b.
Proof.
  intros E. destruct a as [|x a], b as [|y b]; try done.
  unfold hash_whowas_name. by rewrite (whowas_fold_lower _ _ (0, 0) E).
Qed.

Lemma hash_of_name e : ww_name e <> [] -> hash_whowas_name (ww_name e) = Some (hash_of e).
Proof.
  intros H. unfold hash_of, hash_whowas_name. destruct (ww_name e); [done|].
  by destruct (foldl whowas_hash_step (0, 0) (z :: l)).
Qed.

Lemma hash_range name h : hash_whowas_name name = Some h -> 0 <= h < WW_MAX.
Proof.
  unfold hash_whowas_name. destruct name as [|x name]; [done|].
  destruct (foldl whowas_hash_step _ _) as [a b]. intros [= <-].
  change WW_MAX_INITIAL_MASK with (Z.ones 4). change BITS_PER_COL_MASK with (Z.ones 3).
  rewrite !Z.land_ones, Z.shiftl_mul_pow2 by (unfold BITS_PER_COL; lia).
  change (2 ^ BITS_PER_COL) with 8. change WW_MAX with 128.
  pose proof (Z.mod_pos_bound a (2 ^ 4)). pose proof (Z.mod_pos_bound b (2 ^ 3)). lia.
Qed.

(** *** Lists of records *)
Lemma linked_ne s p w pv l : p ∉ l.*1 -> linked s pv l -> linked (<[p := w]> s) pv l.
Proof.
  revert pv. induction l as [|[q [e o]] l IH]; intros pv Hp Hl; [done|].
  cbn in Hp. apply not_elem_of_cons in Hp as [Hne Hp]. destruct Hl as [Hq Hl].
  split; [by rewrite lookup_insert_ne|by apply IH].
Qed.

Lemma linked_delete s p pv l : p ∉ l.*1 -> linked s pv l -> linked (delete p s) pv l.
Proof.
  revert pv. induction l as [|[q [e o]] l IH]; intros pv Hp Hl; [done|].
  cbn in Hp. apply not_elem_of_cons in Hp as [Hne Hp]. destruct Hl as [Hq Hl].
  split; [by rewrite lookup_delete_ne|by apply IH].
Qed.

Lemma linked_lookup s pv l r :
  linked s pv l -> r ∈ l -> exists nx pv', s !! r.1 = Some (cell r.2.1 r.2.2 nx pv').
Proof.
  revert pv. induction l as [|[q [e o]] l IH]; intros pv Hl Hr; [by apply not_elem_of_nil in Hr|].
  destruct Hl as [Hq Hl]. apply elem_of_cons in Hr as [->|Hr]; [eauto|by eapply IH].
Qed.

(** Cutting the last record off. *)
Lemma linked_cut s pv l q e o :
  linked s pv (l ++ [(q, (e, o))]) -> NoDup (l ++ [(q, (e, o))]).*1 ->
  match last l with
  | None => s !! q = Some (cell e o None pv)
  | Some (z, (ez, oz)) =>
      s !! q = Some (cell e o None (Some z)) /\
      exists w, s !! z = Some w /\ linked (<[z := set_wnext None w]> s) pv l
  end.
Proof.
  revert pv. induction l as [|[p [ep op]] l IH]; intros pv Hl Hn; [by destruct Hl as [Hq _]|].
  cbn in Hn. apply NoDup_cons in Hn as [Hp Hn]. destruct Hl as [Hq Hl].
  specialize (IH _ Hl Hn). destruct l as [|[p' [e' o']] l].
  - cbn in *. split; [done|]. eexists. split; [exact Hq|]. by rewrite lookup_insert_eq.
  - rewrite last_cons_cons. destruct (last ((p', (e', o')) :: l)) as [[z [ez oz]]|] eqn:Ez.
    + destruct IH as (Hz & w & Hw & IH). split; [done|]. exists w. split; [done|].
      assert (z <> p) as Hne.
      { intros ->. apply Hp. rewrite fmap_app, elem_of_app. left.
        apply last_Some_elem_of in Ez. by apply (list_elem_of_fmap_2 fst) in Ez. }
      split; [rewrite lookup_insert_ne by done; exact Hq|exact IH].
    + apply last_None in Ez. done.
Qed.

Lemma filter_ids_last (P : record -> Prop) `{forall r, Decision (P r)} l q x :
  q ∉ l.*1 -> without q (filter P (l ++ [(q, x)])).*1 = (filter P l).*1.
Proof.
  intros Hq. rewrite filter_app, fmap_app. unfold without. rewrite filter_app.
  assert (forall k : list record, q ∉ k.*1 -> filter (fun y => y <> q) (k.*1) = k.*1) as Hf.
  { induction k as [|[a b] k IH]; intros Hk; [done|].
    rewrite fmap_cons in *. cbn [fst] in *. apply not_elem_of_cons in Hk as [Ha Hk].
    rewrite filter_cons, decide_True by done. by rewrite IH. }
  rewrite Hf.
  - rewrite filter_cons. destruct (decide (P (q, x))); [|by rewrite app_nil_r].
    rewrite fmap_cons. cbn [fst]. rewrite filter_cons, decide_False by tauto. by rewrite app_nil_r.
  - intros Hin. apply Hq. apply list_elem_of_fmap in Hin as (r & -> & Hr).
    apply list_elem_of_filter in Hr as [_ Hr]. by apply (list_elem_of_fmap_2 fst).
Qed.

Lemma NoDup_last (l : list record) q x : NoDup (l ++ [(q, x)]).*1 -> NoDup l.*1 /\ q ∉ l.*1.
Proof.
  rewrite fmap_app. intros H. apply NoDup_app in H as (H1 & H2 & _). split; [done|].
  intros Hq. apply (H2 q Hq). by left.
Qed.

(** *** Cleaning the oldest of several records *)
Lemma clean_tail live st l q x :
  links live st (l ++ [(q, x)]) -> l <> [] ->
  exists st', whowas_clean q st = Some st' /\ links live st' l /\ ww_alloc st' = ww_alloc st.
Proof.
  destruct x as [e o]. intros (Hn & Hl & Hh & Ht & Hb & Hc & Hlive & Hnm) Hne.
  pose proof (linked_cut _ _ _ _ _ _ Hl Hn) as Hcut.
  destruct (last l) as [[z [ez oz]]|] eqn:Ez; [|by apply last_None in Ez].
  destruct Hcut as (Hq & w & Hw & Hl'). apply NoDup_last in Hn as [Hn Hql].
  assert (z ∈ l.*1) as Hz by (apply last_Some_elem_of in Ez; by apply (list_elem_of_fmap_2 fst) in Ez).
  assert (z <> q) as Hzq by (intros ->; done).
  assert (last (l ++ [(q, (e, o))]).*1 = Some q) as Hlq by by rewrite fmap_last, last_snoc.
  unfold whowas_clean. rewrite Hq. cbn [mbind option_bind online cell hashv wnext upd_opt].
  set (st1 := match o with Some c => _ | None => st end).
  assert (store st1 = store st /\ ww_tail st1 = ww_tail st /\ ww_list st1 = ww_list st /\
    ww_alloc st1 = ww_alloc st /\ whowashash st1 = whowashash st /\
    (forall c, records_of st1 c = if decide (o = Some c) then without q (records_of st c) else records_of st c))
    as (Hs1 & Ht1 & Hh1 & Ha1 & Hw1 & Hr1).
  { unfold st1. destruct o as [c|]; cbn; split_and!; try done. intros c'. unfold records_of. cbn.
    destruct (decide (Some c = Some c')) as [[= <-]|Hcc]; [by rewrite lookup_insert_eq|].
    rewrite lookup_insert_ne by congruence. done. }
  clearbody st1. cbn [set_bucket store]. rewrite Hs1, Hq. cbn [mbind option_bind wprev cell upd_opt].
  unfold upd. cbn [set_bucket store]. rewrite Hs1, Hw. cbn [mbind option_bind set_store store].
  rewrite lookup_insert_ne, Hq by done. cbn [mbind option_bind ww_tail set_bucket set_store].
  rewrite Ht1, Ht, Hlq. rewrite decide_True by done. cbn.
  eexists. split; [reflexivity|]. split; [|done]. unfold links. cbn. split_and!.
  - done.
  - by apply linked_ne.
  - rewrite Hh1, Hh. by destruct l.
  - by rewrite fmap_last, Ez.
  - intros h. unfold bucket. cbn. destruct (decide (h = hash_of e)) as [->|Hhe].
    + rewrite lookup_insert_eq. cbn. unfold bucket. rewrite Hw1.
      change (default [] (whowashash st !! hash_of e)) with (bucket st (hash_of e)). rewrite Hb.
      by apply filter_ids_last.
    + rewrite lookup_insert_ne by done. rewrite Hw1.
      change (default [] (whowashash st !! h)) with (bucket st h). rewrite Hb. unfold of_hash.
      rewrite filter_app, filter_cons, decide_False by done. by rewrite app_nil_r.
  - intros c Hlc. change (records_of st1 c = (of_client c l).*1). rewrite Hr1, (Hc c Hlc).
    destruct (decide (o = Some c)) as [->|Hoc]; [by apply filter_ids_last|].
    unfold of_client. rewrite filter_app, filter_cons, decide_False by done. by rewrite app_nil_r.
  - intros r c Hr. apply Hlive. rewrite elem_of_app. by left.
  - by apply Forall_app in Hnm as [? _].
Qed.

(** *** Allocation and release *)
Lemma rep_u32 live st l n : rep live st l -> (length l <= n)%nat -> Z.of_nat n < 2 ^ 32 -> u32 (ww_alloc st) = Z.of_nat (length l).
Proof. intros [_ ->] Hn Hb. unfold u32. apply Z.mod_small. lia. Qed.

Lemma free_tail live st l q x :
  rep live st (l ++ [(q, x)]) -> l <> [] -> Z.of_nat (length l) < 2 ^ 32 ->
  exists st', whowas_free q st = Some st' /\ rep live st' l.
Proof.
  intros [Hl Ha] Hne Hb. destruct (clean_tail live st l q x Hl Hne) as (st1 & E & Hl1 & Ha1).
  unfold whowas_free. rewrite E. eexists. split; [reflexivity|].
  destruct Hl as (Hn & _). apply NoDup_last in Hn as [_ Hq].
  destruct Hl1 as (H1 & H2 & H3 & H4 & H5 & H6 & H7 & H8). split.
  - unfold links. cbn. split_and!; try done. by apply linked_delete.
  - cbn. rewrite Ha1, Ha, length_app. cbn. unfold u32. rewrite Z.mod_small by lia. lia.
Qed.

(** The record add_history() is given, and what is left of the history. *)
Lemma alloc_spec live st l limit block :
  rep live st l -> 2 <= u32 limit -> Z.of_nat (length l) <= u32 limit -> block ∉ l.*1 ->
  exists p st1, whowas_alloc limit block st = Some (Some p, st1) /\
  rep live (set_alloc (ww_alloc st1 - 1) st1) (take (Z.to_nat (u32 limit) - 1) l) /\
  (p ∉ (take (Z.to_nat (u32 limit) - 1) l).*1) /\ is_Some (store st1 !! p).
Proof.
  intros [Hl Ha] Hlim Hlen Hb. unfold whowas_alloc. rewrite Ha.
  destruct (u32 limit <=? Z.of_nat (length l)) eqn:E; bprop.
  - destruct l as [|[q x] l' _] using rev_ind; [simpl in E; lia|]. rewrite length_app in *. cbn [length] in *.
        assert (l' <> []) as Hne by (intros ->; simpl in *; lia).
    pose proof Hl as (Hn & _ & _ & Ht & _). apply NoDup_last in Hn as [_ Hq].
    rewrite Ht, fmap_last, last_snoc. cbn [fmap option_fmap option_map fst].
    destruct (clean_tail live st l' q x Hl Hne) as (st1 & E1 & Hl1 & Ha1). rewrite E1. cbn [mbind option_bind].
    exists q, (whowas_init q st1). rewrite take_app_length' by lia. split; [done|].
    destruct Hl1 as (H1 & H2 & H3 & H4 & H5 & H6 & H7 & H8).
    split_and!; [|done|cbn; by rewrite lookup_insert_eq].
    split; [unfold links; cbn; split_and!; try done; by apply linked_ne|]. cbn. rewrite Ha1, Ha. cbn. lia.
  - rewrite take_ge by lia. exists block, (whowas_init block (set_alloc (u32 (Z.of_nat (length l) + 1)) st)).
    split; [done|]. destruct Hl as (H1 & H2 & H3 & H4 & H5 & H6 & H7 & H8).
    split_and!; [|done|cbn; by rewrite lookup_insert_eq].
    split; [unfold links; cbn; split_and!; try done; by apply linked_ne|]. cbn.
    unfold u32 in *. pose proof (Z.mod_pos_bound limit (2 ^ 32)). rewrite Z.mod_small by lia. lia.
Qed.

Lemma realloc_ok live n : forall st l limit,
  rep live st l -> (length l <= n)%nat -> 1 <= u32 limit -> Z.of_nat (length l) < 2 ^ 32 ->
  exists st', whowas_realloc n limit st = Some (Some st') /\
    rep live st' (take (Z.to_nat (u32 limit)) l).
Proof.
  induction n as [|n IH]; intros st l limit Hr Hn Hlim Hb; pose proof Hr as [Hl Ha].
  - cbn. rewrite Ha. destruct (_ <=? _) eqn:E; bprop; [|lia]. exists st. by rewrite take_ge by lia.
  - cbn. rewrite Ha. destruct (_ <=? _) eqn:E; bprop; [exists st; by rewrite take_ge by lia|].
    destruct l as [|[q x] l _] using rev_ind; [simpl in E; lia|]. rewrite length_app in *. cbn [length] in *.
    assert (l <> []) as Hne by (intros ->; simpl in *; lia).
    destruct Hl as (_ & _ & _ & Ht & _). rewrite Ht, fmap_last, last_snoc. cbn [fmap option_fmap option_map fst].
    destruct (free_tail live st l q x Hr Hne ltac:(lia)) as (st1 & E1 & Hr1). rewrite E1. cbn [mbind option_bind].
    destruct (IH st1 l limit Hr1) as (st' & E' & Hr'); [lia..|]. exists st'. split; [done|].
    by rewrite take_app_le by lia.
Qed.

(** *** Linking a record in at the head *)
Lemma linked_prev s p pv q x r w :
  linked s pv ((q, x) :: r) -> q ∉ r.*1 -> s !! q = Some w ->
  linked (<[q := set_wprev (Some p) w]> s) (Some p) ((q, x) :: r).
Proof.
  destruct x as [e o]. intros [Hq Hl] Hqr Hw. rewrite Hw in Hq. injection Hq as ->.
  split; [by rewrite lookup_insert_eq|by apply linked_ne].
Qed.

Lemma upd_some p f st w : store st !! p = Some w -> upd p f st = Some (set_store (<[p := f w]> (store st)) st).
Proof. intros H. unfold upd. by rewrite H. Qed.

Definition owner (cptr : N) (still_on : bool) : option N := if still_on then Some cptr else None.

Lemma link_record_ok (live : N -> Prop) st l p cptr e still_on w :
  links live st l -> p ∉ l.*1 -> store st !! p = Some w -> wprev w = None -> named (p, (e, None)) ->
  (still_on = true -> live cptr) ->
  exists st', link_record p cptr (hash_of e) e still_on st = Some st' /\
  links live st' ((p, (e, owner cptr still_on)) :: l) /\ ww_alloc st' = ww_alloc st.
Proof.
  intros (Hn & Hl & Hh & Ht & Hb & Hc & Hlive & Hnm) Hp Hw Hpv Hne Hon. unfold link_record.
  rewrite (upd_some _ _ _ _ Hw). cbn [mbind option_bind].
  set (o := owner cptr still_on).
  set (w1 := MkWhowas (hash_of e) (Some e) o (wnext w) None).
  assert (exists st1, (if still_on then
      st ← upd p (set_online (Some cptr)) (set_store (<[p := set_text (hash_of e) e w]> (store st)) st);
      Some (set_records cptr (p :: records_of st cptr) st)
    else upd p (set_online None) (set_store (<[p := set_text (hash_of e) e w]> (store st)) st)) = Some st1 /\
    store st1 = <[p := w1]> (store st) /\ ww_list st1 = ww_list st /\ ww_tail st1 = ww_tail st /\
    ww_alloc st1 = ww_alloc st /\ whowashash st1 = whowashash st /\
    (forall c, records_of st1 c = if decide (o = Some c) then p :: records_of st c else records_of st c))
    as (st1 & -> & Hs1 & Hh1 & Ht1 & Ha1 & Hw1 & Hr1).
  { unfold w1, o, owner. destruct still_on; unfold upd; cbn; rewrite lookup_insert_eq; cbn;
      (eexists; split; [reflexivity|]); cbn; rewrite insert_insert_eq; unfold set_online, set_text; cbn;
      rewrite Hpv; split_and!; try done; intros c.
    unfold records_of. cbn. destruct (decide (Some cptr = Some c)) as [[= <-]|Hcc]; [by rewrite lookup_insert_eq|].
    by rewrite lookup_insert_ne by congruence. }
  cbn [mbind option_bind]. rewrite (upd_some p _ st1 w1) by (rewrite Hs1; apply lookup_insert_eq).
  cbn [mbind option_bind]. rewrite Hh1, Hh, Hs1, insert_insert_eq. set (w2 := set_wnext (head l.*1) w1).
  assert (exists st2, upd_opt (ww_list (set_store (<[p := w2]> (store st)) st1)) (set_wprev (Some p))
      (set_store (<[p := w2]> (store st)) st1) = Some st2 /\
    linked (store st2) (Some p) l /\ store st2 !! p = Some w2 /\ ww_tail st2 = ww_tail st /\
    ww_alloc st2 = ww_alloc st /\ whowashash st2 = whowashash st /\ (forall c, records_of st2 c = records_of st1 c))
    as (st2 & -> & Hl2 & Hp2 & Ht2 & Ha2 & Hw2 & Hr2).
  { cbn [ww_list set_store]. rewrite Hh1, Hh. destruct l as [|[q x] l]; cbn [fmap list_fmap fst head upd_opt].
    - eexists. split; [reflexivity|]. cbn. rewrite lookup_insert_eq. done.
    - rewrite fmap_cons in *. cbn [fst] in *. apply not_elem_of_cons in Hp as [Hpq Hp].
      apply NoDup_cons in Hn as [Hqr Hn].
      destruct x as [eq oq]. pose proof Hl as [Hq _].
      rewrite (upd_some q _ _ (cell eq oq (head l.*1) None)) by (cbn; by rewrite lookup_insert_ne).
      eexists. split; [reflexivity|]. cbn [store set_store ww_tail ww_alloc whowashash]. split_and!; try done.
      + apply (linked_prev _ _ None); [|done|by rewrite lookup_insert_ne].
        apply linked_ne; [|done]. rewrite fmap_cons. apply not_elem_of_cons. done.
      + by rewrite lookup_insert_ne, lookup_insert_eq. }
  cbn [mbind option_bind]. set (st3 := match ww_tail (set_list (Some p) st2) with None => _ | _ => _ end).
  assert (store st3 = store st2 /\ ww_list st3 = Some p /\ ww_tail st3 = last (p :: l.*1) /\
    ww_alloc st3 = ww_alloc st /\ whowashash st3 = whowashash st /\ (forall c, records_of st3 c = records_of st1 c))
    as (Hs3 & Hh3 & Ht3 & Ha3 & Hw3 & Hr3).
  { unfold st3. cbn. rewrite Ht2, Ht. destruct l as [|[q x] l]; [done|].
    rewrite fmap_cons, last_cons_cons. destruct (last (_ :: l.*1)) as [z|] eqn:El; [|by apply last_None in El].
    cbn. split_and!; try done. by rewrite Ht2, Ht, fmap_cons, El. }
  clearbody st3. eexists. split; [reflexivity|]. split; [|done]. unfold links. cbn [set_bucket store ww_list ww_tail].
  rewrite fmap_cons. cbn [fst]. split_and!.
  - by apply NoDup_cons.
  - split; [rewrite Hs3, Hp2; done|by rewrite Hs3].
  - done.
  - done.
  - intros h. unfold bucket. cbn [set_bucket whowashash]. rewrite Hw3. unfold of_hash. rewrite filter_cons. cbn [fst snd].
    destruct (decide (hash_of e = h)) as [<-|Hhe].
    + rewrite lookup_insert_eq. cbn. f_equal. apply (Hb (hash_of e)).
    + rewrite lookup_insert_ne by done. apply (Hb h).
  - intros c Hlc. change (records_of st3 c = (of_client c ((p, (e, o)) :: l)).*1). rewrite Hr3, Hr1, (Hc c Hlc).
    unfold of_client. rewrite filter_cons. cbn [fst snd]. by destruct (decide (o = Some c)).
  - intros r c Hr Ho. apply elem_of_cons in Hr as [->|Hr]; [|by eapply Hlive].
    cbn in Ho. unfold o, owner in Ho. destruct still_on; [|done]. injection Ho as <-. by apply Hon.
  - by constructor.
Qed.

(** What add_history() records of a client. *)
Definition recorded (style now : Z) (cptr : N) (c : client) (still_on : bool) : entry * option N :=
  (make_entry style now c, owner cptr still_on).

Lemma alloc_fresh_prev limit block st p st1 w :
  whowas_alloc limit block st = Some (Some p, st1) -> store st1 !! p = Some w -> wprev w = None.
Proof.
  unfold whowas_alloc. intros E Hw.
  destruct (_ <=? _); [destruct (ww_tail st); [destruct (whowas_clean _ st)|]|];
    simplify_eq/=; rewrite lookup_insert_eq in Hw; by simplify_eq.
Qed.

Lemma add_history_ok (live : N -> Prop) st l limit style now block cptr c still_on :
  rep live st l -> 2 <= u32 limit -> Z.of_nat (length l) <= u32 limit ->
  block ∉ l.*1 -> cli_name c <> [] -> cstring (cli_name c) -> (still_on = true -> live cptr) ->
  exists st' l', add_history limit style now block cptr c still_on st = Some st' /\
    rep live st' l' /\
    l'.*2 = take (Z.to_nat (u32 limit)) (recorded style now cptr c still_on :: l.*2).
Proof.
  intros Hr Hlim Hlen Hb Hne Hcs Hon.
  destruct (alloc_spec live st l limit block Hr Hlim Hlen Hb) as (p & st1 & E & [Hl1 Ha1] & Hp & [w Hw]).
  unfold add_history. rewrite E. cbn [mbind option_bind].
  pose proof (alloc_fresh_prev _ _ _ _ _ _ E Hw) as Hpv.
  set (e := make_entry style now c). set (k := (Z.to_nat (u32 limit) - 1)%nat) in *.
  assert (hash_whowas_name (cli_name c) = Some (hash_of e)) as -> by (by apply (hash_of_name e)).
  cbn [mbind option_bind]. assert (links live st1 (take k l)) as Hl by exact Hl1.
  destruct (link_record_ok live st1 _ p cptr e still_on w Hl Hp Hw Hpv (conj Hne Hcs) Hon) as (st' & E' & Hl' & Ha').
  exists st', ((p, (e, owner cptr still_on)) :: take k l). split; [exact E'|]. split.
  - split; [done|]. rewrite Ha'. cbn [length]. cbn in Ha1. lia.
  - replace (Z.to_nat (u32 limit)) with (S k) by (unfold k; lia). by rewrite fmap_cons, fmap_take.
Qed.

(** C36: with a history of two records or more add_history() puts the record
    of the client at the head of the history, with the client's address if it
    stays on, and drops the oldest record when there are more than the length
    of the history; whowas_realloc() cuts the history to its length.  The
    history list, the chains of the hash table and those of the clients stay
    the sublists of one sequence of records. *)
Theorem whowas_history_correct (live : N -> Prop) st l limit style now block cptr c still_on :
  rep live st l -> 2 <= u32 limit -> Z.of_nat (length l) <= u32 limit ->
  block ∉ l.*1 -> cli_name c <> [] -> cstring (cli_name c) -> (still_on = true -> live cptr) ->
  (exists st' l', add_history limit style now block cptr c still_on st = Some st' /\
    rep live st' l' /\
    l'.*2 = take (Z.to_nat (u32 limit)) (recorded style now cptr c still_on :: l.*2)) /\
  (forall limit', 1 <= u32 limit' -> exists st',
    whowas_realloc (length l) limit' st = Some (Some st') /\
    rep live st' (take (Z.to_nat (u32 limit')) l)).
Proof.
  intros Hr Hlim Hlen Hb Hne Hcs Hon. split; [by apply add_history_ok|].
  intros limit' Hlim'. pose proof (Z.mod_pos_bound limit (2 ^ 32)). unfold u32 in Hlen.
  apply realloc_ok; [done|lia|done|lia].
Qed.

(** *** Signing off *)
Definition sign_off (c : N) (r : record) : record :=
  if decide (r.2.2 = Some c) then (r.1, (r.2.1, None)) else r.

Lemma clear_online_spec ds : forall st,
  (forall p, p ∈ ds -> is_Some (store st !! p)) -> exists st',
  clear_online ds st = Some st' /\
  (forall p, store st' !! p = if decide (p ∈ ds) then set_online None <$> store st !! p else store st !! p) /\
  ww_list st' = ww_list st /\ ww_tail st' = ww_tail st /\ ww_alloc st' = ww_alloc st /\
  whowashash st' = whowashash st /\ cli_whowas st' = cli_whowas st.
Proof.
  induction ds as [|d ds IH]; intros st Hd.
  - exists st. by split_and!.
  - destruct (Hd d ltac:(by left)) as [w Hw]. cbn [clear_online]. rewrite (upd_some _ _ _ _ Hw). cbn [mbind option_bind].
    destruct (IH (set_store (<[d := set_online None w]> (store st)) st)) as (st' & E & Hs & Hrest).
    { intros p Hp. cbn. destruct (decide (d = p)) as [<-|]; [rewrite lookup_insert_eq; eauto|].
      rewrite lookup_insert_ne by done. apply Hd. by right. }
    exists st'. split; [done|]. split; [|done]. intros p. rewrite Hs. cbn [set_store store].
    destruct (decide (d = p)) as [<-|Hne].
    + rewrite lookup_insert_eq, Hw. rewrite (decide_True (P := d ∈ d :: ds)) by by left.
      by destruct (decide (d ∈ ds)).
    + rewrite lookup_insert_ne by done. destruct (decide (p ∈ ds)).
      * by rewrite decide_True by by right.
      * rewrite decide_False; [done|]. rewrite elem_of_cons. intros [?|?]; congruence.
Qed.

Lemma linked_sign_off c s s' pv l :
  linked s pv l -> NoDup l.*1 ->
  (forall r, r ∈ l -> s' !! r.1 =
    if decide (r.2.2 = Some c) then set_online None <$> s !! r.1 else s !! r.1) ->
  linked s' pv (map (sign_off c) l).
Proof.
  revert pv. induction l as [|[p [e o]] l IH]; intros pv Hl Hn Hs; [done|].
  destruct Hl as [Hp Hl]. rewrite fmap_cons in Hn. apply NoDup_cons in Hn as [_ Hn].
  assert ((map (sign_off c) l).*1 = l.*1) as Hids.
  { rewrite <- list_fmap_compose. apply list_fmap_ext. intros i [q [eq oq]] _. unfold sign_off. cbn. by destruct (decide _). }
  pose proof (Hs _ ltac:(by left)) as Hp'. cbn in Hp'. rewrite Hp in Hp'.
  assert (linked s' (Some p) (map (sign_off c) l)) as Hl' by (apply IH; [done|done|intros r Hr; apply Hs; by right]).
  cbn [map]. unfold sign_off at 1. cbn [fst snd] in *. destruct (decide (o = Some c)); (split; [|done]);
    rewrite Hids; exact Hp'.
Qed.

Lemma sign_off_ids c l : (map (sign_off c) l).*1 = l.*1.
Proof.
  rewrite <- list_fmap_compose. apply list_fmap_ext. intros i [q [eq oq]] _. unfold sign_off. cbn. by destruct (decide _).
Qed.

Lemma sign_off_filter c (P : record -> Prop) `{forall r, Decision (P r)} (Q : record -> Prop) `{forall r, Decision (Q r)} l :
  (forall r, r ∈ l -> P (sign_off c r) <-> Q r) ->
  (filter P (map (sign_off c) l)).*1 = (filter Q l).*1.
Proof.
  induction l as [|r l IH]; intros HP; [done|]. cbn [map]. rewrite !filter_cons.
  specialize (IH ltac:(intros; apply HP; by right)). pose proof (HP r ltac:(by left)) as Hr.
  assert ((sign_off c r).1 = r.1) as Hid by (unfold sign_off; by destruct (decide _)).
  destruct (decide (P _)), (decide (Q r)); try tauto. rewrite !fmap_cons. by rewrite Hid, IH.
Qed.

Lemma of_client_ids c l p : NoDup l.*1 ->
  forall r, r ∈ l -> r.1 = p -> p ∈ (of_client c l).*1 <-> r.2.2 = Some c.
Proof.
  intros Hn r Hr <-. split.
  - intros Hp. apply list_elem_of_fmap in Hp as (r' & E & Hr'). apply list_elem_of_filter in Hr' as [Ho Hr'].
    enough (r = r') by by subst. apply list_elem_of_lookup in Hr as [i Hi], Hr' as [j Hj].
    assert (i = j) as ->; [|congruence].
    eapply (NoDup_lookup _ i j r.1 Hn); rewrite list_lookup_fmap; [by rewrite Hi|rewrite Hj; cbn; by rewrite E].
  - intros Ho. apply (list_elem_of_fmap_2 fst). by apply list_elem_of_filter.
Qed.

(** Off_history() forgets the client in every record of his, and nothing
    else: no record refers to the client afterwards, so that it may be freed. *)
Theorem off_history_correct (live : N -> Prop) st l cptr :
  rep live st l -> live cptr -> exists st', off_history cptr st = Some st' /\
  rep (fun c => live c /\ c <> cptr) st' (map (sign_off cptr) l) /\
  (forall r, r ∈ map (sign_off cptr) l -> r.2.2 <> Some cptr).
Proof.
  intros [Hl Ha] Hc. destruct Hl as (Hn & Hlk & Hh & Ht & Hb & Hcl & Hlive & Hnm).
  unfold off_history. rewrite (Hcl cptr Hc).
  destruct (clear_online_spec (of_client cptr l).*1 st) as (st' & E & Hs & Eh & Et & Ea & Ew & Ec).
  { intros p Hp. apply list_elem_of_fmap in Hp as (r & -> & Hr). apply list_elem_of_filter in Hr as [_ Hr].
    destruct (linked_lookup _ _ _ _ Hlk Hr) as (nx & pv & ->). eauto. }
  assert (forall r, r ∈ map (sign_off cptr) l -> r.2.2 <> Some cptr) as Hno.
  { intros r Hr. apply list_elem_of_fmap in Hr as (r' & -> & _). unfold sign_off. destruct (decide _) as [|Ho]; [done|exact Ho]. }
  exists st'. split; [done|]. split; [|done]. split; [|by rewrite length_map, Ea]. unfold links.
  rewrite !sign_off_ids, Eh, Et. split_and!; [done| |done|done| | | |].
  - eapply linked_sign_off; [exact Hlk|done|]. intros r Hr. rewrite Hs.
    pose proof (of_client_ids cptr l r.1 Hn r Hr eq_refl) as Hiff.
    destruct (decide (r.1 ∈ _)), (decide (r.2.2 = Some cptr)); tauto.
  - intros h. unfold bucket. rewrite Ew. change (bucket st h = (of_hash h (map (sign_off cptr) l)).*1). rewrite Hb.
    symmetry. apply sign_off_filter. intros r _. unfold sign_off. by destruct (decide _).
  - intros c [Hlc Hne]. unfold records_of. rewrite Ec.
    change (records_of st c = (of_client c (map (sign_off cptr) l)).*1). rewrite (Hcl c Hlc).
    symmetry. apply sign_off_filter. intros r _. unfold sign_off. destruct (decide _) as [Ho|]; [|done].
    cbn. rewrite Ho. split; [done|]. congruence.
  - intros r c Hr Ho. split; [|intros ->; by apply (Hno r)].
    apply list_elem_of_fmap in Hr as (r' & -> & Hr'). unfold sign_off in Ho. destruct (decide _); [done|]. by eapply Hlive.
  - rewrite Forall_map. eapply Forall_impl; [exact Hnm|]. intros r Hr. unfold sign_off. by destruct (decide _).
Qed.

(** *** Nick chasing *)
Definition chased (nick : list Z) (since : Z) (x : entry * option N) : bool :=
  (ircd_strcmp nick (ww_name x.1) =? 0) && (since <? ww_logoff x.1).

Lemma search_history_spec nick since st k :
  (forall r, r ∈ k -> exists nx pv, store st !! r.1 = Some (cell r.2.1 r.2.2 nx pv)) ->
  search_history nick since k.*1 st =
  Some (match List.find (chased nick since) k.*2 with Some x => x.2 | None => None end).
Proof.
  induction k as [|[p [e o]] k IH]; intros Hk; [done|]. rewrite !fmap_cons. cbn [fst snd search_history List.find].
  destruct (Hk _ ltac:(by left)) as (nx & pv & Hp). cbn [fst snd] in Hp. rewrite Hp. cbn [mbind option_bind text cell].
  unfold chased at 1. cbn [fst]. destruct (_ && _); [done|]. apply IH. intros r Hr. apply Hk. by right.
Qed.

Lemma find_filter {A B} (f : A -> B) (test : B -> bool) (P : A -> Prop) `{forall x, Decision (P x)} l :
  (forall x, x ∈ l -> test (f x) = true -> P x) ->
  List.find test (f <$> filter P l) = List.find test (f <$> l).
Proof.
  induction l as [|x l IH]; intros HP; [done|]. rewrite filter_cons.
  specialize (IH ltac:(intros; apply HP; [by right|done])). rewrite fmap_cons. cbn [List.find].
  destruct (decide (P x)) as [|Hx]; [rewrite fmap_cons; cbn [List.find]; by rewrite IH|].
  destruct (test (f x)) eqn:E; [|done]. exfalso. apply Hx. apply HP; [by left|done].
Qed.

(** Get_history() returns the client of the newest record of the nick,
    in any case, among those not older than the limit, or nothing when there
    is none or the client has signed off since. *)
Theorem get_history_correct (live : N -> Prop) st l now nick timelimit :
  rep live st l -> nick <> [] -> cstring nick ->
  get_history now nick timelimit st =
  Some (match List.find (fun x => bool_decide (lower nick = lower (ww_name x.1) /\
                                               now - timelimit < ww_logoff x.1)) l.*2 with
        | Some x => x.2
        | None => None
        end).
Proof.
  intros [(Hn & Hl & _ & _ & Hb & _ & _ & Hnm) _] Hne Hcs. unfold get_history.
  assert (exists h, hash_whowas_name nick = Some h) as [h Hh].
  { destruct nick; [done|]. unfold hash_whowas_name. destruct (foldl _ _ _). eauto. }
  rewrite Hh. cbn [mbind option_bind]. rewrite Hb, search_history_spec.
  2: { intros r Hr. apply list_elem_of_filter in Hr as [_ Hr]. by eapply linked_lookup. }
  rewrite Forall_forall in Hnm.
  assert (forall r, r ∈ l -> chased nick (now - timelimit) r.2 =
    bool_decide (lower nick = lower (ww_name r.2.1) /\ now - timelimit < ww_logoff r.2.1)) as Hch.
  { intros r Hr. destruct (Hnm r Hr) as [_ Hr2]. apply eq_true_iff_eq. unfold chased.
    rewrite bool_decide_eq_true, andb_true_iff, Z.eqb_eq, Z.ltb_lt. by rewrite strcmp_0. }
  unfold of_hash. rewrite (find_filter snd).
  - do 2 f_equal. clear - Hch. induction l as [|r l IH]; [done|]. rewrite fmap_cons. cbn [List.find].
    rewrite (Hch r) by by left. destruct (bool_decide _); [done|]. apply IH. intros; apply Hch; by right.
  - intros r Hr E. rewrite Hch in E by done. apply bool_decide_eq_true in E as [E _].
    apply hash_whowas_lower in E. unfold hash_of. by rewrite <- E, Hh.
Qed.

(** ** A history of one record *)

Lemma count_loop_cycle fuel : forall q m st w e,
  store st !! q = Some w -> wnext w = Some q -> text w = Some e ->
  count_loop fuel (Some q) m st = Some None.
Proof.
  induction fuel as [|fuel IH]; intros q m st w e Hq Hw He; [done|]. cbn [count_loop].
  rewrite Hq. cbn [mbind option_bind]. rewrite He. cbn [mbind option_bind].
  destruct (match ww_away e with Some _ => _ | None => _ end). rewrite Hw. by eapply IH.
Qed.

(** The list once its only record has been cleaned: its head still points to
    the record. *)
Lemma clean_single live st q x :
  links live st [(q, x)] -> exists st' w,
  whowas_clean q st = Some st' /\ store st' = <[q := w]> (store st) /\
  ww_list st' = Some q /\ ww_tail st' = None /\ ww_alloc st' = ww_alloc st.
Proof.
  destruct x as [e o]. intros (Hn & [Hq _] & Hh & Ht & _). cbn in Hq, Hh, Ht. unfold whowas_clean. rewrite Hq.
  cbn [mbind option_bind online cell hashv wnext wprev upd_opt].
  set (st1 := set_bucket _ _ _).
  assert (store st1 = store st /\ ww_tail st1 = Some q /\ ww_list st1 = Some q /\ ww_alloc st1 = ww_alloc st)
    as (Hs1 & Ht1 & Hh1 & Ha1) by (unfold st1; by destruct o).
  clearbody st1. rewrite Hs1, Hq. cbn [mbind option_bind wprev cell upd_opt]. rewrite Hs1, Hq.
  cbn [mbind option_bind]. rewrite Ht1, decide_True by done.
  eexists _, _. split; [reflexivity|]. cbn. rewrite Hs1. by split_and!.
Qed.

(** Linking the record the stale head points to, and one in front of a freed head. *)
Lemma link_record_self q cptr h e still_on st w :
  store st !! q = Some w -> ww_list st = Some q -> exists st' w',
  link_record q cptr h e still_on st = Some st' /\ ww_list st' = Some q /\
  store st' !! q = Some w' /\ wnext w' = Some q /\ text w' = Some e.
Proof.
  intros Hq Hh. unfold link_record. rewrite (upd_some _ _ _ _ Hq). cbn [mbind option_bind].
  destruct still_on; (erewrite upd_some by (cbn; apply lookup_insert_eq)); cbn [mbind option_bind];
    (erewrite upd_some by (cbn; apply lookup_insert_eq)); cbn [mbind option_bind];
    cbn [set_store set_records ww_list]; rewrite Hh; cbn [upd_opt];
    (erewrite upd_some by (cbn; apply lookup_insert_eq)); cbn;
    destruct (ww_tail st); eexists _, _; (split; [reflexivity|]); cbn; rewrite lookup_insert_eq; by split_and!.
Qed.

Lemma link_record_dangling p q cptr h e still_on st :
  store st !! q = None -> ww_list st = Some q -> p <> q ->
  link_record p cptr h e still_on st = None.
Proof.
  intros Hq Hh Hne. unfold link_record. destruct (store st !! p) as [w|] eqn:Hp; [|unfold upd; by rewrite Hp].
  rewrite (upd_some _ _ _ _ Hp). cbn [mbind option_bind].
  destruct still_on; (erewrite upd_some by (cbn; apply lookup_insert_eq)); cbn [mbind option_bind];
    (erewrite upd_some by (cbn; apply lookup_insert_eq)); cbn [mbind option_bind];
    cbn [set_store set_records ww_list]; rewrite Hh; cbn [upd_opt];
    unfold upd; cbn [set_store set_records store]; rewrite !lookup_insert_ne by done; by rewrite Hq.
Qed.

(** The head of the history list is not reset with its only record.  So
    with a history of one record the next one is linked to itself, and
    count_whowas_memory() does not end; and once whowas_realloc() has emptied
    the history, add_history() writes through a dangling pointer. *)
Theorem whowas_head_dangles (live : N -> Prop) st q x limit style now block cptr c still_on :
  rep live st [(q, x)] -> cli_name c <> [] ->
  (exists st', add_history 1 style now block cptr c still_on st = Some st' /\
    forall fuel, count_whowas_memory fuel st' = Some None) /\
  (exists st', whowas_realloc 1 0 st = Some (Some st') /\
    (1 <= u32 limit -> block <> q ->
     add_history limit style now block cptr c still_on st' = None)).
Proof.
  intros [Hl Ha] Hne. destruct (clean_single live st q x Hl) as (st1 & w & E & Hs & Hh & Ht & Ha1).
  pose proof Hl as (_ & _ & _ & Htl & _). cbn in Htl.
  set (e := make_entry style now c).
  assert (hash_whowas_name (cli_name c) = Some (hash_of e)) as Hhash by (by apply (hash_of_name e)).
  split.
  - destruct (link_record_self q cptr (hash_of e) e still_on (whowas_init q st1) _
      ltac:(cbn; apply lookup_insert_eq) Hh) as (st' & w' & E' & Hh' & Hq' & Hn' & He').
    exists st'. split; [|intros fuel; unfold count_whowas_memory; rewrite Hh'; by eapply count_loop_cycle].
    unfold add_history, whowas_alloc. rewrite Ha. change (u32 1 <=? Z.of_nat (length [(q, x)])) with true.
    cbv iota. rewrite Htl, E. cbn [mbind option_bind]. rewrite Hhash. exact E'.
  - exists (set_alloc 0 (set_store (delete q (store st1)) st1)). split.
    + cbn [whowas_realloc]. rewrite Ha. change (Z.of_nat (length [(q, x)]) <=? u32 0) with false. cbv iota.
      rewrite Htl. unfold whowas_free. rewrite E. cbn [mbind option_bind]. rewrite Ha1, Ha.
      change (u32 (Z.of_nat (length [(q, x)]) - 1)) with 0. cbn [whowas_realloc]. done.
    + intros Hlim Hb. unfold add_history, whowas_alloc. cbn [ww_alloc set_alloc].
      rewrite (proj2 (Z.leb_gt _ _)) by lia. cbn [mbind option_bind]. rewrite Hhash.
      cbn [mbind option_bind]. apply (link_record_dangling _ q); [|exact Hh|done].
      cbn. by rewrite lookup_insert_ne, lookup_delete_eq by done.
Qed.

(** ** Witnesses *)
Definition sample_client : client :=
  Client (lit "Nick") (lit "user") (lit "host") (lit "real") (lit "srv") (lit "info") None false false.

Definition sample_entry (t : Z) : entry := make_entry 0 t sample_client.

Lemma rep_empty : rep (fun c => c = 9%N) empty_history [].
Proof.
  split; [|done]. unfold links. split_and!; try done; try apply NoDup_nil_2; try apply Forall_nil_2.
  - intros h. unfold bucket, empty_history, initwhowas. cbn [whowashash].
    destruct (list_to_map _ !! h) as [l|] eqn:E; [|done]. apply elem_of_list_to_map_2 in E.
    apply list_elem_of_fmap in E as (i & [= _ ->] & _). done.
  - intros r c Hr. by apply not_elem_of_nil in Hr.
Qed.

Lemma sample_name : cli_name sample_client <> [] /\ cstring (cli_name sample_client).
Proof. split; [done|by_decide]. Qed.

Lemma rep_one : exists st q, rep (fun c => c = 9%N) st [(q, (sample_entry 10, Some 9%N))].
Proof.
  destruct (add_history_ok (fun c => c = 9%N) empty_history [] 2 0 10 1%N 9%N sample_client true
    rep_empty ltac:(done) ltac:(done) ltac:(apply not_elem_of_nil) (proj1 sample_name) (proj2 sample_name)
    ltac:(done)) as (st & l & _ & Hr & Hl).
  destruct l as [|[q x] [|? ?]]; try done. rewrite fmap_cons in Hl. injection Hl as ->. eauto.
Qed.

Lemma whowas_history_correct_witness :
  exists st' l', add_history 2 0 10 1%N 9%N sample_client true empty_history = Some st' /\
  rep (fun c => c = 9%N) st' l' /\ l'.*2 = [(sample_entry 10, Some 9%N)].
Proof.
  exact (proj1 (whowas_history_correct (fun c => c = 9%N) empty_history [] 2 0 10 1%N 9%N sample_client true
    rep_empty ltac:(done) ltac:(done) ltac:(apply not_elem_of_nil) (proj1 sample_name) (proj2 sample_name)
    ltac:(done))).
Defined.

Lemma off_history_correct_witness : exists st q st',
  rep (fun c => c = 9%N) st [(q, (sample_entry 10, Some 9%N))] /\ off_history 9%N st = Some st' /\
  rep (fun c => c = 9%N /\ c <> 9%N) st' [(q, (sample_entry 10, None))].
Proof.
  destruct rep_one as (st & q & Hr). exists st, q.
  destruct (off_history_correct (fun c => c = 9%N) st _ 9%N Hr eq_refl) as (st' & E & Hr' & _).
  exists st'. split_and!; [exact Hr|exact E|exact Hr'].
Defined.

Lemma get_history_correct_witness : exists st q,
  rep (fun c => c = 9%N) st [(q, (sample_entry 10, Some 9%N))] /\
  get_history 12 (lit "NICK") 5 st = Some (Some 9%N).
Proof.
  destruct rep_one as (st & q & Hr). exists st, q. split; [exact Hr|].
  rewrite (get_history_correct (fun c => c = 9%N) st _ 12 (lit "NICK") 5 Hr); [reflexivity|done|by_decide].
Defined.

Lemma whowas_head_dangles_witness : exists st q st',
  rep (fun c => c = 9%N) st [(q, (sample_entry 10, Some 9%N))] /\
  add_history 1 0 20 7%N 9%N sample_client true st = Some st' /\
  forall fuel, count_whowas_memory fuel st' = Some None.
Proof.
  destruct rep_one as (st & q & Hr). exists st, q.
  destruct (proj1 (whowas_head_dangles (fun c => c = 9%N) st q _ 1 0 20 7%N 9%N sample_client true Hr
    (proj1 sample_name))) as (st' & E & H).
  exists st'. split_and!; [exact Hr|exact E|exact H].
Defined.
