(* ===== verification/Events.v ===== *)
(** * ircd/ircd_events.c: the event system

    Generators (sockets, signals and timers) live in a heap by their address;
    the doubly linked lists of struct Generators are the sequences of the
    addresses on them, so that [gh_prev_p] is non-null exactly for an address
    on its list.  An access to a generator that is not in the heap, a freed
    one, and a failing assertion are [None].  The callbacks of generators and
    the operations of the engine are parameters: the first may do anything to
    the event system, the second only to what is outside of it. *)
From S2P Require Import Prelude.
From Stdlib Require Import Sorting.Sorted.

Definition GEN_DESTROY : Z := 0x0001.
Definition GEN_MARKED : Z := 0x0002.
Definition GEN_ACTIVE : Z := 0x0004.
Definition GEN_READD : Z := 0x0008.
Definition GEN_ERROR : Z := 0x0010.

Definition SOCK_EVENT_READABLE : Z := 0x0001.
Definition SOCK_EVENT_WRITABLE : Z := 0x0002.
Definition SOCK_EVENT_MASK : Z := Z.lor SOCK_EVENT_READABLE SOCK_EVENT_WRITABLE.
Definition SOCK_ACTION_SET : Z := 0x0000.
Definition SOCK_ACTION_ADD : Z := 0x1000.
Definition SOCK_ACTION_DEL : Z := 0x2000.
Definition SOCK_ACTION_MASK : Z := 0x3000.

Definition SIGS_PER_SOCK : nat := 10.

Inductive SocketState :=
| SS_CONNECTING | SS_LISTENING | SS_CONNECTED | SS_DATAGRAM | SS_CONNECTDG | SS_NOTSOCK.

#[export] Instance SocketState_eq_dec : EqDecision SocketState.
Proof. solve_decision. Defined.

Inductive TimerType := TT_ABSOLUTE | TT_RELATIVE | TT_PERIODIC.

#[export] Instance TimerType_eq_dec : EqDecision TimerType.
Proof. solve_decision. Defined.

Inductive EventType :=
| ET_READ | ET_WRITE | ET_ACCEPT | ET_CONNECT | ET_EOF | ET_ERROR | ET_SIGNAL
| ET_EXPIRE | ET_DESTROY.

#[export] Instance EventType_eq_dec : EqDecision EventType.
Proof. solve_decision. Defined.

(** struct Socket, struct Signal and struct Timer after their header. *)
Inductive source :=
| Socket (s_state : SocketState) (s_events s_fd : Z)
| Signal (sig_signal : Z)
| Timer (t_type : TimerType) (t_value t_expire : Z).

(** struct GenHeader and the structure it heads. *)
Record generator := Generator {
  gh_flags : Z;
  gh_ref : Z;
  gh_call : N;
  gh_data : N;
  gh_source : source }.

(** struct Generators, the free list of events and the rest of the program. *)
Record evstate (U : Type) := EvState {
  heap : gmap N generator;
  g_socket : list N;
  g_signal : list N;
  g_timer : list N;
  events_free : list N;
  events_alloc : N;
  CurrentTime : Z;
  user : U }.
Arguments EvState {U}.
Arguments heap {U}. Arguments g_socket {U}. Arguments g_signal {U}. Arguments g_timer {U}.
Arguments events_free {U}. Arguments events_alloc {U}. Arguments CurrentTime {U}. Arguments user {U}.

(** struct Engine. *)
Record Engine (U : Type) := MkEngine {
  eng_signal : option (N -> generator -> U -> U);
  eng_add : N -> generator -> U -> Z * U;
  eng_state : N -> generator -> SocketState -> U -> U;
  eng_events : N -> generator -> Z -> U -> U;
  eng_closing : N -> generator -> U -> U }.
Arguments eng_signal {U}. Arguments eng_add {U}. Arguments eng_state {U}.
Arguments eng_events {U}. Arguments eng_closing {U}.

Definition set_flags (f : Z) (g : generator) : generator :=
  Generator f (gh_ref g) (gh_call g) (gh_data g) (gh_source g).

Definition set_ref (r : Z) (g : generator) : generator :=
  Generator (gh_flags g) r (gh_call g) (gh_data g) (gh_source g).

Definition set_source (s : source) (g : generator) : generator :=
  Generator (gh_flags g) (gh_ref g) (gh_call g) (gh_data g) s.

(** flags | m and flags & ~m *)
Definition add_flags (m : Z) (g : generator) : generator := set_flags (Z.lor (gh_flags g) m) g.
Definition del_flags (m : Z) (g : generator) : generator := set_flags (Z.ldiff (gh_flags g) m) g.

Definition flagged (g : generator) (m : Z) : bool := has_bits (gh_flags g) m.

Section events.
Context {U : Type}.
Abbreviation state := (evstate U).

(** What a callback does with an event of a type, from a generator, with its data. *)
Context (callback : N -> EventType -> N -> Z -> state -> option state).
Context (engine : Engine U).

Definition set_heap (h : gmap N generator) (st : state) : state :=
  EvState h (g_socket st) (g_signal st) (g_timer st) (events_free st) (events_alloc st)
    (CurrentTime st) (user st).
Definition set_sockets (l : list N) (st : state) : state :=
  EvState (heap st) l (g_signal st) (g_timer st) (events_free st) (events_alloc st)
    (CurrentTime st) (user st).
Definition set_signals (l : list N) (st : state) : state :=
  EvState (heap st) (g_socket st) l (g_timer st) (events_free st) (events_alloc st)
    (CurrentTime st) (user st).
Definition set_timers (l : list N) (st : state) : state :=
  EvState (heap st) (g_socket st) (g_signal st) l (events_free st) (events_alloc st)
    (CurrentTime st) (user st).
Definition set_events (fr : list N) (n : N) (st : state) : state :=
  EvState (heap st) (g_socket st) (g_signal st) (g_timer st) fr n (CurrentTime st) (user st).
Definition set_user (u : U) (st : state) : state :=
  EvState (heap st) (g_socket st) (g_signal st) (g_timer st) (events_free st) (events_alloc st)
    (CurrentTime st) u.

(** Stores through a pointer to a generator. *)
Definition upd_gen (p : N) (f : generator -> generator) (st : state) : option state :=
  g ← heap st !! p; Some (set_heap (<[p := f g]> (heap st)) st).

(** assert(b) *)
Definition check (b : bool) : option unit := if b then Some tt else None.

(** gen_init() of a generator outside any list: the header is reset, the
    structure behind it is left as it is. *)
Definition gen_init (p : N) (call data : N) (st : state) : option state :=
  upd_gen p (fun g => Generator GEN_ACTIVE 0 call data (gh_source g)) st.

(** gen_dequeue(): no list holds the generator any more. *)
Definition gen_dequeue (p : N) (st : state) : option state :=
  _ ← heap st !! p;
  let without := filter (fun q => q <> p) in
  Some (set_sockets (without (g_socket st))
         (set_signals (without (g_signal st))
           (set_timers (without (g_timer st)) st))).

(** ** Events *)

(** The allocation of an event structure and the reference it holds. *)
Definition event_alloc (p : N) (st : state) : option (N * state) :=
  let '(ev, st) :=
    match events_free st with
    | ev :: fr => (ev, set_events fr (events_alloc st) st)
    | [] => (events_alloc st, set_events [] (events_alloc st + 1)%N st)
    end in
  st ← upd_gen p (fun g => set_ref (u32 (gh_ref g + 1)) g) st;
  Some (ev, st).

(** The end of event_execute(): the event goes to the free list. *)
Definition event_release (ev : N) (st : state) : state :=
  set_events (ev :: events_free st) (events_alloc st) st.

(** The callback of the generator at [p]. *)
Definition run_callback (ty : EventType) (p : N) (data : Z) (st : state) : option state :=
  g ← heap st !! p; callback (gh_call g) ty p data st.

(** event_generate(ET_DESTROY, p, 0) with the event_execute() it leads to. *)
Definition generate_destroy (p : N) (st : state) : option state :=
  '(ev, st) ← event_alloc p st;
  g ← heap st !! p;
  _ ← check (flagged g GEN_ACTIVE);
  st ← upd_gen p (del_flags GEN_ACTIVE) st;
  st ← run_callback ET_DESTROY p 0 st;
  Some (event_release ev st).

Definition gen_ref_dec (p : N) (st : state) : option state :=
  st ← upd_gen p (fun g => set_ref (u32 (gh_ref g - 1)) g) st;
  g ← heap st !! p;
  if (gh_ref g =? 0) && flagged g GEN_DESTROY then
    st ← gen_dequeue p st; generate_destroy p st
  else Some st.

(** event_generate() with event_add() and event_execute(), not threaded. *)
Definition event_generate (ty : EventType) (p : N) (data : Z) (st : state) : option state :=
  if decide (ty = ET_DESTROY) then generate_destroy p st
  else
    g ← heap st !! p;
    if flagged g GEN_DESTROY then Some st
    else
      '(ev, st) ← event_alloc p st;
      _ ← check (flagged g GEN_ACTIVE);
      st ← (if decide (ty = ET_ERROR) then upd_gen p (add_flags GEN_ERROR) st else Some st);
      st ← run_callback ty p data st;
      st ← gen_ref_dec p st;
      Some (event_release ev st).

(** ** Timers *)

(** The members of the timer at [p]. *)
Definition get_timer (p : N) (st : state) : option (generator * (TimerType * Z * Z)) :=
  g ← heap st !! p;
  match gh_source g with
  | Timer ty v x => Some (g, (ty, v, x))
  | _ => None
  end.

Definition t_expire (st : state) (p : N) : option Z :=
  '(_, (_, _, x)) ← get_timer p st; Some x.

(** The search of timer_enqueue() for the first timer that expires later. *)
Fixpoint insert_timer (st : state) (p : N) (expire : Z) (q : list N) : option (list N) :=
  match q with
  | [] => Some [p]
  | n :: r =>
      x ← t_expire st n;
      if expire <? x then Some (p :: q)
      else r' ← insert_timer st p expire r; Some (n :: r')
  end.

Definition timer_enqueue (p : N) (st : state) : option state :=
  '(g, (ty, v, _)) ← get_timer p st;
  _ ← check (bool_decide (p ∉ g_timer st));
  _ ← check (flagged g GEN_ACTIVE);
  let expire :=
    match ty with
    | TT_ABSOLUTE => v
    | TT_RELATIVE | TT_PERIODIC => v + CurrentTime st
    end in
  st ← upd_gen p (set_source (Timer ty v expire)) st;
  q ← insert_timer st p expire (g_timer st);
  Some (set_timers q st).

Definition timer_init (p : N) (st : state) : option state :=
  st ← gen_init p 0 0 st; upd_gen p (set_flags 0) st.

Definition timer_add (p : N) (call data : N) (ty : TimerType) (value : Z) (st : state)
  : option state :=
  st ← upd_gen p (add_flags GEN_ACTIVE) st;
  g ← heap st !! p;
  st ← (if flagged g GEN_MARKED then upd_gen p (add_flags GEN_READD) st else Some st);
  st ← upd_gen p (fun g => Generator (gh_flags g) 0 call data (Timer ty value 0)) st;
  g ← heap st !! p;
  if flagged g GEN_MARKED then Some st else timer_enqueue p st.

Definition timer_del (p : N) (st : state) : option state :=
  st ← upd_gen p (del_flags GEN_READD) st;
  g ← heap st !! p;
  if flagged g GEN_MARKED then Some st
  else st ← gen_dequeue p st; event_generate ET_DESTROY p 0 st.

Definition timer_chg (p : N) (ty : TimerType) (value : Z) (st : state) : option state :=
  '(g, (ty0, _, _)) ← get_timer p st;
  _ ← check (negb (value =? 0) && bool_decide (ty0 <> TT_PERIODIC) && bool_decide (ty <> TT_PERIODIC));
  st ← upd_gen p (set_source (Timer ty value 0)) st;
  if flagged g GEN_MARKED then upd_gen p (add_flags GEN_READD) st
  else st ← gen_dequeue p st; timer_enqueue p st.

(** The body of the loop of timer_run() for the timer at the head. *)
Definition timer_fire (p : N) (st : state) : option state :=
  '(_, (ty, _, _)) ← get_timer p st;
  st ← gen_dequeue p st;
  st ← upd_gen p (add_flags (Z.lor GEN_MARKED (if decide (ty = TT_PERIODIC) then GEN_READD else 0))) st;
  st ← event_generate ET_EXPIRE p 0 st;
  st ← upd_gen p (del_flags GEN_MARKED) st;
  g ← heap st !! p;
  if negb (flagged g GEN_READD) then event_generate ET_DESTROY p 0 st
  else st ← timer_enqueue p st; upd_gen p (del_flags GEN_READD) st.

(** timer_run(); [Some None] is an exhausted fuel. *)
Fixpoint timer_run (fuel : nat) (st : state) : option (option state) :=
  match g_timer st with
  | [] => Some (Some st)
  | p :: _ =>
      x ← t_expire st p;
      if CurrentTime st <? x then Some (Some st)
      else
        match fuel with
        | O => Some None
        | S fuel => st ← timer_fire p st; timer_run fuel st
        end
  end.

(** timer_next() *)
Definition timer_next (st : state) : option Z :=
  match g_timer st with [] => Some 0 | p :: _ => t_expire st p end.

(** ** Signals *)

(** Without an engine for signals the handler is installed with sigaction(),
    which is outside of the event system. *)
Definition signal_add (p : N) (call data : N) (sig : Z) (st : state) : option state :=
  st ← gen_init p call data st;
  let st := set_signals (p :: g_signal st) st in
  st ← upd_gen p (set_source (Signal sig)) st;
  g ← heap st !! p;
  match eng_signal engine with
  | Some tell => Some (set_user (tell p g (user st)) st)
  | None => Some st
  end.

(** The byte signal_handler() writes to the pipe. *)
Definition signal_handler (sig : Z) : Z := u8 sig.

(** The descriptor of a signal. *)
Fixpoint find_signal (st : state) (sig : Z) (l : list N) : option N :=
  match l with
  | [] => None
  | p :: r =>
      match heap st !! p with
      | Some (Generator _ _ _ _ (Signal s)) => if s =? sig then Some p else find_signal st sig r
      | _ => find_signal st sig r
      end
  end.

(** signal_callback() on what was read from the pipe, SIGS_PER_SOCK bytes at most. *)
Fixpoint signal_callback (sigstr : list Z) (st : state) : option state :=
  match sigstr with
  | [] => Some st
  | sig :: r =>
      st ← (match find_signal st sig (g_signal st) with
            | Some p => event_generate ET_SIGNAL p sig st
            | None => Some st
            end);
      signal_callback r st
  end.

(** ** Sockets *)
Definition socket_add (p : N) (call data : N) (ss : SocketState) (events fd : Z) (st : state)
  : option (Z * state) :=
  _ ← check (0 <=? fd);
  st ← gen_init p call data st;
  let st := set_sockets (p :: g_socket st) st in
  st ← upd_gen p (set_source (Socket ss (Z.land events SOCK_EVENT_MASK) fd)) st;
  g ← heap st !! p;
  let '(r, u) := eng_add engine p g (user st) in
  Some (r, set_user u st).

Definition socket_del (p : N) (st : state) : option state :=
  g ← heap st !! p;
  _ ← check (negb (flagged g GEN_DESTROY));
  let st := set_user (eng_closing engine p g (user st)) st in
  st ← upd_gen p (add_flags GEN_DESTROY) st;
  if gh_ref g =? 0 then
    st ← gen_dequeue p st; event_generate ET_DESTROY p 0 st
  else Some st.

(** The assertions on a change of state. *)
Definition state_change_ok (old new : SocketState) : bool :=
  bool_decide (old <> new) &&
  match old with
  | SS_LISTENING | SS_CONNECTED => false
  | SS_CONNECTING => bool_decide (new = SS_CONNECTED)
  | SS_DATAGRAM => bool_decide (new = SS_CONNECTDG)
  | SS_CONNECTDG => bool_decide (new = SS_DATAGRAM)
  | SS_NOTSOCK => true
  end.

Definition socket_state (p : N) (new : SocketState) (st : state) : option state :=
  g ← heap st !! p;
  match gh_source g with
  | Socket old ev fd =>
      _ ← check (state_change_ok old new);
      if flagged g (Z.lor GEN_DESTROY GEN_ERROR) then Some st
      else
        let st := set_user (eng_state engine p g new (user st)) st in
        upd_gen p (set_source (Socket new ev fd)) st
  | _ => None
  end.

(** The switch of socket_events(). *)
Definition new_events (old events : Z) : Z :=
  let action := Z.land events SOCK_ACTION_MASK in
  let ev := Z.land events SOCK_EVENT_MASK in
  if action =? SOCK_ACTION_SET then ev
  else if action =? SOCK_ACTION_ADD then Z.lor old ev
  else if action =? SOCK_ACTION_DEL then Z.ldiff old ev
  else 0.

Definition socket_events (p : N) (events : Z) (st : state) : option state :=
  g ← heap st !! p;
  match gh_source g with
  | Socket ss old fd =>
      if flagged g (Z.lor GEN_DESTROY GEN_ERROR) then Some st
      else
        let new := new_events old events in
        if old =? new then Some st
        else
          let st := set_user (eng_events engine p g new (user st)) st in
          upd_gen p (set_source (Socket ss new fd)) st
  | _ => None
  end.
End events.

(** ** Flags *)
Lemma has_bits_bit x n : 0 <= n -> has_bits x (2 ^ n) = Z.testbit x n.
Proof.
  intros Hn. unfold has_bits. destruct (Z.testbit x n) eqn:E.
  - apply negb_true_iff, Z.eqb_neq. intros H.
    assert (Z.testbit (Z.land x (2 ^ n)) n = false) as Hb by by rewrite H, Z.bits_0.
    rewrite Z.land_spec, E, Z.pow2_bits_true in Hb by done. done.
  - apply negb_false_iff, Z.eqb_eq, Z.bits_inj'. intros k Hk. rewrite Z.land_spec, Z.bits_0.
    destruct (decide (k = n)) as [->|Hne]; [by rewrite E|].
    rewrite (Z.pow2_bits_false n k) by done. apply andb_false_r.
Qed.

(** The bit of a flag. *)
Definition flag_bit (m : Z) : Prop := exists n, 0 <= n /\ m = 2 ^ n.

Lemma flag_bit_of n m : m = 2 ^ n -> 0 <= n -> flag_bit m.
Proof. intros -> H. by exists n. Qed.

Ltac flag_bit := first [by apply (flag_bit_of 0)|by apply (flag_bit_of 1)|by apply (flag_bit_of 2)
  |by apply (flag_bit_of 3)|by apply (flag_bit_of 4)].

Lemma flagged_add m k g : flag_bit k -> flagged (add_flags m g) k = flagged g k || has_bits m k.
Proof.
  intros (n & Hn & ->). unfold flagged, add_flags. cbn. rewrite !has_bits_bit by done.
  apply Z.lor_spec.
Qed.

Lemma flagged_del m k g : flag_bit k -> flagged (del_flags m g) k = flagged g k && negb (has_bits m k).
Proof.
  intros (n & Hn & ->). unfold flagged, del_flags. cbn. rewrite !has_bits_bit by done.
  apply Z.ldiff_spec.
Qed.

Create Rewrite HintDb events_rw.

Lemma flagged_set_source s m g : flagged (set_source s g) m = flagged g m.
Proof. done. Qed.

Lemma flagged_set_ref r m g : flagged (set_ref r g) m = flagged g m.
Proof. done. Qed.

#[export] Hint Rewrite flagged_set_source flagged_set_ref : events_rw.
#[export] Hint Rewrite flagged_add flagged_del using flag_bit : events_rw.

(** ** The timer queue *)
Definition is_timer (g : generator) : Prop :=
  match gh_source g with Timer _ _ _ => True | _ => False end.

(** The time a timer expires. *)
Definition expiry (h : gmap N generator) (p : N) : Z :=
  match h !! p with
  | Some g => match gh_source g with Timer _ _ x => x | _ => 0 end
  | None => 0
  end.

(** A timer that may stand on the queue. *)
Definition queued (h : gmap N generator) (p : N) : Prop :=
  exists g, h !! p = Some g /\ is_timer g /\ flagged g GEN_ACTIVE = true /\
    flagged g GEN_MARKED = false.

(** The checks of timer_verify(): the queue has no repetition, holds active
    timers and is ordered by expiry; a timer being run is not on it. *)
Definition timers_ok (h : gmap N generator) (q : list N) : Prop :=
  NoDup q /\ Forall (queued h) q /\ StronglySorted (fun a b => expiry h a <= expiry h b) q.

Lemma expiry_ne h p g q : p <> q -> expiry (<[p := g]> h) q = expiry h q.
Proof. intros H. unfold expiry. by rewrite lookup_insert_ne. Qed.

Lemma sorted_mono {A} (R S : A -> A -> Prop) l :
  (forall a b, a ∈ l -> b ∈ l -> R a b -> S a b) -> StronglySorted R l -> StronglySorted S l.
Proof.
  induction l as [|a l IH]; intros H Hs; [constructor|]. apply StronglySorted_inv in Hs as [Hs Ha].
  constructor; [apply IH; [|done]; intros; apply H; auto; by right|].
  rewrite Forall_forall in Ha |- *. intros b Hb. apply H; [by left|by right|auto].
Qed.

(** A store to a timer that is not on the queue, or one that keeps what the
    queue depends on. *)
Lemma timers_ok_store h q p g :
  timers_ok h q ->
  p ∉ q \/ (exists g0, h !! p = Some g0 /\ gh_source g = gh_source g0 /\
    (flagged g0 GEN_ACTIVE = true -> flagged g GEN_ACTIVE = true) /\
    (flagged g0 GEN_MARKED = false -> flagged g GEN_MARKED = false)) ->
  timers_ok (<[p := g]> h) q.
Proof.
  intros (Hn & Hq & Hs) Hp.
  assert (forall x, x ∈ q -> expiry (<[p := g]> h) x = expiry h x) as He.
  { intros x Hx. destruct (decide (p = x)) as [<-|]; [|by apply expiry_ne].
    destruct Hp as [|(g0 & E & Hg & _)]; [done|]. unfold expiry. by rewrite lookup_insert_eq, E, Hg. }
  split_and!; [done| |eapply sorted_mono; [|done]; intros a b Ha Hb; by rewrite !He].
  rewrite Forall_forall in Hq |- *. intros x Hx. destruct (Hq x Hx) as (gx & E & Ht & Ha & Hm).
  destruct (decide (p = x)) as [<-|Hne].
  - destruct Hp as [|(g0 & E0 & Hg & Hact & Hmk)]; [done|]. simplify_eq.
    exists g. rewrite lookup_insert_eq. split_and!; auto. unfold is_timer. by rewrite Hg.
  - exists gx. by rewrite lookup_insert_ne.
Qed.

Lemma Forall_without (P : N -> Prop) p q : Forall P q -> Forall P (filter (fun x => x <> p) q).
Proof. rewrite !Forall_forall. intros H x Hx. apply list_elem_of_filter in Hx as [_ Hx]. auto. Qed.

Lemma timers_ok_without h q p : timers_ok h q -> timers_ok h (filter (fun x => x <> p) q).
Proof.
  intros (Hn & Hq & Hs). split_and!; [by apply NoDup_filter|by apply Forall_without|].
  induction Hs as [|a l Hs IH Ha]; [constructor|]. apply NoDup_cons in Hn as [_ Hn].
  apply Forall_cons in Hq as [_ Hq]. rewrite filter_cons. destruct (decide _); [|by apply IH].
  constructor; [by apply IH|]. by apply Forall_without.
Qed.

Lemma timers_ok_tail h p q : timers_ok h (p :: q) -> timers_ok h q.
Proof.
  intros (Hn & Hq & Hs). apply NoDup_cons in Hn as [_ Hn]. apply Forall_cons in Hq as [_ Hq].
  by apply StronglySorted_inv in Hs as [Hs _].
Qed.

Lemma filter_out p (q : list N) : p ∉ filter (fun x => x <> p) q.
Proof. rewrite list_elem_of_filter. tauto. Qed.

Lemma filter_notin p (q : list N) : p ∉ q -> filter (fun x => x <> p) q = q.
Proof.
  induction q as [|a q IH]; intros H; [done|]. apply not_elem_of_cons in H as [Ha Hq].
  rewrite filter_cons, decide_True by done. by rewrite IH.
Qed.

Section operations.
Context {U : Type}.
Abbreviation state := (evstate U).
Context (callback : N -> EventType -> N -> Z -> state -> option state).
Context (engine : Engine U).

Definition inv (st : state) : Prop := timers_ok (heap st) (g_timer st).

Lemma upd_gen_inv p f (st st' : state) :
  upd_gen p f st = Some st' ->
  exists g, heap st !! p = Some g /\ st' = set_heap (<[p := f g]> (heap st)) st.
Proof. unfold upd_gen. intros H. destruct (heap st !! p) as [g|]; [|done]. simplify_eq/=. eauto. Qed.

Lemma upd_gen_some p f (st : state) g :
  heap st !! p = Some g -> upd_gen p f st = Some (set_heap (<[p := f g]> (heap st)) st).
Proof. intros H. unfold upd_gen. by rewrite H. Qed.

Lemma get_timer_some p (st : state) g ty v x :
  get_timer p st = Some (g, (ty, v, x)) <-> heap st !! p = Some g /\ gh_source g = Timer ty v x.
Proof.
  unfold get_timer. destruct (heap st !! p) as [g'|]; simpl; [|by split; [|intros [? _]]].
  destruct (gh_source g') eqn:E; simpl; split.
  all: try (by intros [=]).
  all: intros H; destruct_and? H; simplify_eq; first [split; congruence|congruence].
Qed.

Lemma t_expire_queued (st : state) p : queued (heap st) p -> t_expire st p = Some (expiry (heap st) p).
Proof.
  intros (g & E & Ht & _). unfold t_expire, get_timer, expiry, is_timer in *. rewrite E. simpl.
  by destruct (gh_source g).
Qed.

(** Where the search stops. *)
Lemma insert_timer_spec (st : state) p x q :
  Forall (queued (heap st)) q ->
  StronglySorted (fun a b => expiry (heap st) a <= expiry (heap st) b) q ->
  exists l1 l2, q = l1 ++ l2 /\ insert_timer st p x q = Some (l1 ++ p :: l2) /\
    Forall (fun a => expiry (heap st) a <= x) l1 /\ Forall (fun a => x < expiry (heap st) a) l2.
Proof.
  intros Hq Hs. induction Hs as [|a l Hs IH Ha]; [by exists [], []|].
  apply Forall_cons in Hq as [Ht Hq]. destruct (IH Hq) as (l1 & l2 & -> & E & H1 & H2).
  cbn [insert_timer]. rewrite (t_expire_queued _ _ Ht). cbn [mbind option_bind].
  destruct (x <? expiry (heap st) a) eqn:Ex; bprop.
  - exists [], (a :: l1 ++ l2). split_and!; [done..|]. constructor; [done|].
    eapply Forall_impl; [exact Ha|]. simpl. lia.
  - exists (a :: l1), l2. rewrite E. split_and!; [done|done|by constructor|done].
Qed.

Lemma sorted_insert h p l1 l2 :
  StronglySorted (fun a b => expiry h a <= expiry h b) (l1 ++ l2) ->
  Forall (fun a => expiry h a <= expiry h p) l1 -> Forall (fun a => expiry h p < expiry h a) l2 ->
  StronglySorted (fun a b => expiry h a <= expiry h b) (l1 ++ p :: l2).
Proof.
  intros Hs H1 H2. induction H1 as [|a l1 Ha H1 IH]; simpl in *.
  - constructor; [done|]. eapply Forall_impl; [exact H2|]. simpl. lia.
  - apply StronglySorted_inv in Hs as [Hs Hall]. constructor; [by apply IH|].
    apply Forall_app in Hall as [Hl1 Hl2]. apply Forall_app_2; [done|]. by constructor.
Qed.

(** The expiry timer_enqueue() computes. *)
Definition due (ty : TimerType) (v now : Z) : Z :=
  match ty with TT_ABSOLUTE => v | _ => v + now end.

(** The state timer_enqueue() leaves. *)
Lemma timer_enqueue_spec p (st : state) g ty v x :
  inv st -> heap st !! p = Some g -> gh_source g = Timer ty v x -> p ∉ g_timer st ->
  flagged g GEN_ACTIVE = true ->
  let e := due ty v (CurrentTime st) in
  let h := <[p := set_source (Timer ty v e) g]> (heap st) in
  exists l1 l2, g_timer st = l1 ++ l2 /\
    timer_enqueue p st = Some (set_timers (l1 ++ p :: l2) (set_heap h st)) /\
    expiry h p = e /\
    Forall (fun a => expiry h a <= e) l1 /\ Forall (fun a => e < expiry h a) l2.
Proof.
  intros Hi Hg Hsrc Hp Ha e h.
  pose proof (timers_ok_store _ _ p (set_source (Timer ty v e) g) Hi (or_introl Hp)) as Hi'.
  destruct Hi' as (Hn' & Hq' & Hs').
  destruct (insert_timer_spec (set_heap h st) p e (g_timer st) Hq' Hs') as (l1 & l2 & E & Ei & H1 & H2).
  exists l1, l2. split_and!; [done| |unfold h, expiry; by rewrite lookup_insert_eq|done..].
  unfold timer_enqueue. rewrite (proj2 (get_timer_some p st g ty v x)) by done. cbn [mbind option_bind].
  rewrite bool_decide_eq_true_2 by done. rewrite Ha. cbn [check mbind option_bind].
  replace (match ty with TT_ABSOLUTE => v | _ => v + CurrentTime st end) with e by by destruct ty.
  rewrite (upd_gen_some _ _ _ _ Hg). cbn [mbind option_bind]. fold h.
  change (g_timer (set_heap h st)) with (g_timer st). by rewrite Ei.
Qed.

Lemma timer_enqueue_inv p (st st' : state) :
  inv st -> (forall g, heap st !! p = Some g -> flagged g GEN_MARKED = false) ->
  timer_enqueue p st = Some st' -> inv st' /\ (forall q, q ∈ g_timer st' <-> q = p \/ q ∈ g_timer st).
Proof.
  intros Hi Hm E. pose proof E as E0. unfold timer_enqueue in E0.
  destruct (get_timer p st) as [[g [[ty v] x]]|] eqn:Et; [|done]. cbn [mbind option_bind] in E0.
  apply get_timer_some in Et as [Hg Hsrc].
  destruct (bool_decide_reflect (p ∉ g_timer st)) as [Hp|]; [|done].
  destruct (flagged g GEN_ACTIVE) eqn:Ha; [|done]. clear E0.
  destruct (timer_enqueue_spec p st g ty v x Hi Hg Hsrc Hp Ha) as (l1 & l2 & El & E' & He & H1 & H2).
  rewrite E in E'. simplify_eq. cbn in *.
  split; [|intros q; rewrite El, !elem_of_app, elem_of_cons; tauto].
  pose proof (timers_ok_store _ _ p (set_source (Timer ty v (due ty v (CurrentTime st))) g) Hi
    (or_introl Hp)) as (Hn & Hq & Hs). rewrite El in *.
  unfold inv. cbn. split_and!.
  - rewrite <- Permutation_middle. by apply NoDup_cons.
  - apply Forall_app in Hq as [Hq1 Hq2]. apply Forall_app_2; [done|]. constructor; [|done].
    eexists. rewrite lookup_insert_eq. split_and!; [done|done|done|exact (Hm g Hg)].
  - apply sorted_insert; [done|by rewrite He..].
Qed.

(** ** Operations keep the queue *)

Ltac flags :=
  autorewrite with events_rw;
  repeat match goal with
  | |- context [has_bits ?a ?b] =>
      let v := eval vm_compute in (has_bits a b) in change (has_bits a b) with v
  end;
  rewrite ?orb_false_r, ?orb_true_r, ?andb_true_r, ?andb_false_r.

(** A timer being run stays in the heap, and marked. *)
Definition keeps_marked (st st' : state) : Prop :=
  forall p g, heap st !! p = Some g -> flagged g GEN_MARKED = true ->
    exists g', heap st' !! p = Some g' /\ flagged g' GEN_MARKED = true.

(** One operation of the event system. *)
Definition good_step (st st' : state) : Prop := inv st' /\ keeps_marked st st'.

Lemma keeps_refl st st' : heap st = heap st' -> keeps_marked st st'.
Proof. intros H p g Hg Hm. rewrite <- H. eauto. Qed.

Lemma keeps_trans st1 st2 st3 : keeps_marked st1 st2 -> keeps_marked st2 st3 -> keeps_marked st1 st3.
Proof. intros H1 H2 p g Hg Hm. destruct (H1 p g Hg Hm) as (g' & Hg' & Hm'). eauto. Qed.

Lemma good_trans st1 st2 st3 : keeps_marked st1 st2 -> good_step st2 st3 -> good_step st1 st3.
Proof. intros H1 [H2 H3]. split; [done|by eapply keeps_trans]. Qed.

Lemma keeps_upd p f st st' :
  upd_gen p f st = Some st' ->
  (forall g, flagged g GEN_MARKED = true -> flagged (f g) GEN_MARKED = true) ->
  keeps_marked st st'.
Proof.
  intros E Hf q g Hg Hm. apply upd_gen_inv in E as (g0 & Hg0 & ->). simpl.
  destruct (decide (p = q)) as [<-|Hne]; [|rewrite lookup_insert_ne by done; eauto].
  rewrite lookup_insert_eq. simplify_eq. eauto.
Qed.

(** A store that keeps what the queue depends on. *)
Lemma good_upd p f st st' :
  inv st -> upd_gen p f st = Some st' ->
  (forall g, gh_source (f g) = gh_source g /\
    (flagged g GEN_ACTIVE = true -> flagged (f g) GEN_ACTIVE = true) /\
    flagged (f g) GEN_MARKED = flagged g GEN_MARKED) ->
  good_step st st' /\ g_timer st' = g_timer st.
Proof.
  intros Hi E Hf. split; [|by apply upd_gen_inv in E as (g & _ & ->)]. split.
  - apply upd_gen_inv in E as (g & Hg & ->). destruct (Hf g) as (H1 & H2 & H3).
    apply timers_ok_store; [done|]. right. exists g. split_and!; try done. intros. by rewrite H3.
  - apply (keeps_upd _ _ _ _ E). intros g. by destruct (Hf g) as (_ & _ & ->).
Qed.

(** A store to a timer off the queue. *)
Lemma inv_upd_off p f st st' :
  inv st -> p ∉ g_timer st -> upd_gen p f st = Some st' -> inv st' /\ g_timer st' = g_timer st.
Proof.
  intros Hi Hp E. apply upd_gen_inv in E as (g & Hg & ->). split; [|done].
  apply timers_ok_store; [done|by left].
Qed.

Lemma marked_off st p g :
  inv st -> heap st !! p = Some g -> flagged g GEN_MARKED = true -> p ∉ g_timer st.
Proof.
  intros (_ & Hq & _) Hg Hm Hp. rewrite Forall_forall in Hq.
  destruct (Hq p Hp) as (g' & Hg' & _ & _ & Hm'). rewrite Hg in Hg'. simplify_eq. congruence.
Qed.

Lemma event_alloc_good p st ev st' :
  inv st -> event_alloc p st = Some (ev, st') -> good_step st st' /\ g_timer st' = g_timer st.
Proof.
  intros Hi. unfold event_alloc.
  set (r := match events_free st with [] => _ | _ => _ end).
  assert (heap r.2 = heap st /\ g_timer r.2 = g_timer st) as [Hh Ht] by (unfold r; by destruct (events_free st)).
  destruct r as [e st1]. simpl in Hh, Ht. destruct (upd_gen _ _ st1) as [st2|] eqn:E; [|done].
  intros [= _ <-]. destruct (good_upd _ _ _ _ ltac:(unfold inv; by rewrite Hh, Ht) E) as [Hg Hq].
  { intros g. split_and!; [done|by flags|by flags]. }
  split; [|by rewrite Hq]. eapply good_trans; [|done]. by apply keeps_refl.
Qed.

Lemma gen_dequeue_good p st st' :
  inv st -> gen_dequeue p st = Some st' ->
  good_step st st' /\ (p ∉ g_timer st') /\ heap st' = heap st.
Proof.
  intros Hi. unfold gen_dequeue. destruct (heap st !! p); [|done]. intros [= <-].
  split_and!; [split; [by apply timers_ok_without|by apply keeps_refl]|apply filter_out|done].
Qed.

(** Callbacks that respect the queue; the generator of an ET_DESTROY event,
    which is off the queue, may be freed. *)
Definition callbacks_ok : Prop := forall c ty p d st st',
  inv st -> (ty = ET_DESTROY -> p ∉ g_timer st) ->
  callback c ty p d st = Some st' -> good_step st st'.

Hypothesis callback_good : callbacks_ok.

Lemma run_callback_good ty p d st st' :
  inv st -> (ty = ET_DESTROY -> p ∉ g_timer st) ->
  run_callback callback ty p d st = Some st' -> good_step st st'.
Proof. unfold run_callback. destruct (heap st !! p); [|done]. apply callback_good. Qed.

Lemma generate_destroy_good p st st' :
  inv st -> p ∉ g_timer st -> generate_destroy callback p st = Some st' -> good_step st st'.
Proof.
  intros Hi Hp. unfold generate_destroy.
  destruct (event_alloc p st) as [[ev st1]|] eqn:E1; [|done]. cbn [mbind option_bind].
  destruct (event_alloc_good _ _ _ _ Hi E1) as [[Hi1 Hk1] Hq1].
  destruct (heap st1 !! p); [|done]. cbn [mbind option_bind]. destruct (check _); [|done].
  cbn [mbind option_bind]. destruct (upd_gen _ _ st1) as [st2|] eqn:E2; [|done]. cbn [mbind option_bind].
  destruct (inv_upd_off _ _ _ _ Hi1 ltac:(by rewrite Hq1) E2) as [Hi2 Hq2].
  destruct (run_callback _ _ _ _ _) as [st3|] eqn:E3; [|done]. intros [= <-].
  assert (good_step st2 st3) as G3 by (apply (run_callback_good ET_DESTROY p 0); [done|intros _; by rewrite Hq2, Hq1|done]).
  change (good_step st st3). eapply good_trans; [done|]. eapply good_trans; [|done].
  apply (keeps_upd _ _ _ _ E2). intros g1 Hg1. by flags.
Qed.

Lemma gen_ref_dec_good p st st' :
  inv st -> gen_ref_dec callback p st = Some st' -> good_step st st'.
Proof.
  intros Hi. unfold gen_ref_dec. destruct (upd_gen _ _ st) as [st1|] eqn:E1; [|done].
  cbn [mbind option_bind]. destruct (good_upd _ _ _ _ Hi E1) as [[Hi1 Hk1] _].
  { intros g. split_and!; [done|by flags|by flags]. }
  destruct (heap st1 !! p) as [g|]; [|done]. cbn [mbind option_bind].
  destruct (_ && _); [|intros [= <-]; by split].
  destruct (gen_dequeue p st1) as [st2|] eqn:E2; [|done]. cbn [mbind option_bind]. intros E3.
  destruct (gen_dequeue_good _ _ _ Hi1 E2) as ([Hi2 Hk2] & Hp & _).
  eapply good_trans; [done|]. eapply good_trans; [done|]. by eapply generate_destroy_good.
Qed.

Lemma event_generate_good ty p d st st' :
  inv st -> (ty = ET_DESTROY -> p ∉ g_timer st) ->
  event_generate callback ty p d st = Some st' -> good_step st st'.
Proof.
  intros Hi Hp. unfold event_generate. destruct (decide _) as [->|Hty].
  { apply generate_destroy_good; auto. }
  destruct (heap st !! p) as [g|]; [|done]. cbn [mbind option_bind].
  destruct (flagged g GEN_DESTROY); [intros [= <-]; split; [done|by apply keeps_refl]|].
  destruct (event_alloc p st) as [[ev st1]|] eqn:E1; [|done]. cbn [mbind option_bind].
  destruct (event_alloc_good _ _ _ _ Hi E1) as [[Hi1 Hk1] _]. destruct (check _); [|done].
  cbn [mbind option_bind].
  destruct (if decide (ty = ET_ERROR) then _ else _) as [st2|] eqn:E2; [|done]. cbn [mbind option_bind].
  assert (good_step st1 st2) as [Hi2 Hk2].
  { destruct (decide _); [|simplify_eq; split; [done|by apply keeps_refl]].
    destruct (good_upd _ _ _ _ Hi1 E2) as [? _]; [|done]. intros g'. split_and!; [done|by flags|by flags]. }
  destruct (run_callback _ _ _ _ _) as [st3|] eqn:E3; [|done]. cbn [mbind option_bind].
  destruct (run_callback_good _ _ _ _ _ Hi2 ltac:(done) E3) as [Hi3 Hk3].
  destruct (gen_ref_dec _ p st3) as [st4|] eqn:E4; [|done]. intros [= <-].
  change (good_step st st4). do 3 (eapply good_trans; [done|]). by eapply gen_ref_dec_good.
Qed.

Lemma timer_enqueue_good p st st' :
  inv st -> (forall g, heap st !! p = Some g -> flagged g GEN_MARKED = false) ->
  timer_enqueue p st = Some st' -> good_step st st'.
Proof.
  intros Hi Hm E. split; [by destruct (timer_enqueue_inv p st st' Hi Hm E)|].
  unfold timer_enqueue in E. destruct (get_timer p st) as [[g [[ty v] x]]|]; [|done].
  cbn [mbind option_bind] in E. destruct (bool_decide (p ∉ g_timer st)), (flagged g GEN_ACTIVE); try done.
  cbn [check mbind option_bind] in E.
  destruct (upd_gen _ _ st) as [st1|] eqn:E1; [|done]. cbn [mbind option_bind] in E.
  destruct (insert_timer _ _ _ _) as [q|]; [|done]. simplify_eq/=.
  eapply keeps_trans; [apply (keeps_upd _ _ _ _ E1)|by apply keeps_refl]. intros g'. by flags.
Qed.

Lemma head_unmarked p q st :
  inv st -> g_timer st = p :: q ->
  exists g, heap st !! p = Some g /\ flagged g GEN_MARKED = false.
Proof.
  intros (_ & Hq & _) E. rewrite E in Hq. apply Forall_cons in Hq as [(g & Hg & _ & _ & Hm) _]. eauto.
Qed.

(** The timer being run is the only one that loses its mark. *)
Lemma good_unmark p g st0 st1 st2 :
  heap st0 !! p = Some g -> flagged g GEN_MARKED = false ->
  keeps_marked st0 st1 ->
  inv st1 -> p ∉ g_timer st1 -> upd_gen p (del_flags GEN_MARKED) st1 = Some st2 ->
  good_step st0 st2 /\ p ∉ g_timer st2.
Proof.
  intros Hg Hm Hk Hi Hp E. destruct (inv_upd_off _ _ _ _ Hi Hp E) as [Hi2 Hq].
  split; [|by rewrite Hq]. split; [done|]. intros r gr Hr Hmr.
  assert (p <> r) as Hne by (intros <-; congruence).
  destruct (Hk r gr Hr Hmr) as (g' & Hg' & Hm'). exists g'. split; [|done].
  apply upd_gen_inv in E as (g1 & _ & ->). simpl. by rewrite lookup_insert_ne.
Qed.

Lemma timer_fire_good p q st st' :
  inv st -> g_timer st = p :: q -> timer_fire callback p st = Some st' -> good_step st st'.
Proof.
  intros Hi Eq. destruct (head_unmarked _ _ _ Hi Eq) as (g & Hg & Hm).
  unfold timer_fire. destruct (get_timer p st) as [[g0 [[ty v] x]]|] eqn:Et; [|done].
  apply get_timer_some in Et as [Hg0 _]. simplify_eq. cbn [mbind option_bind].
  destruct (gen_dequeue p st) as [st1|] eqn:E1; [|done]. cbn [mbind option_bind].
  destruct (gen_dequeue_good _ _ _ Hi E1) as ([Hi1 Hk1] & Hp1 & Hh1).
  destruct (upd_gen p _ st1) as [st2|] eqn:E2; [|done]. cbn [mbind option_bind].
  destruct (inv_upd_off _ _ _ _ Hi1 Hp1 E2) as [Hi2 _].
  assert (keeps_marked st1 st2) as Hk2.
  { apply (keeps_upd _ _ _ _ E2). intros g' Hg'. flags. by rewrite Hg'. }
  destruct (event_generate _ _ _ _ st2) as [st3|] eqn:E3; [|done]. cbn [mbind option_bind].
  destruct (event_generate_good ET_EXPIRE p 0 st2 st3 Hi2 ltac:(done) E3) as [Hi3 Hk3].
  assert (exists g3, heap st3 !! p = Some g3 /\ flagged g3 GEN_MARKED = true) as (g3 & Hg3 & Hm3).
  { apply upd_gen_inv in E2 as (g2 & Hg2 & ->). eapply Hk3; [simpl; by rewrite lookup_insert_eq|].
    rewrite flagged_add by flag_bit. rewrite orb_true_iff. right. by destruct (decide _). }
  pose proof (marked_off _ _ _ Hi3 Hg3 Hm3) as Hp3.
  destruct (upd_gen p _ st3) as [st4|] eqn:E4; [|done]. cbn [mbind option_bind].
  destruct (good_unmark p g st st3 st4 Hg Hm) as [[Hi4 Hk4] Hp4];
    [|done..|].
  { eapply keeps_trans; [exact Hk1|]. by eapply keeps_trans; [exact Hk2|]. }
  destruct (heap st4 !! p) as [g4|] eqn:Hg4; [|done]. cbn [mbind option_bind].
  destruct (negb _).
  - intros E5. eapply good_trans; [exact Hk4|]. by eapply event_generate_good.
  - destruct (timer_enqueue p st4) as [st5|] eqn:E5; [|done]. cbn [mbind option_bind]. intros E6.
    destruct (timer_enqueue_good p st4 st5 Hi4) as [Hi5 Hk5]; [|done|].
    { intros g' Hg'. apply upd_gen_inv in E4 as (g'' & _ & ->). simpl in Hg'.
      rewrite lookup_insert_eq in Hg'. simplify_eq. by flags. }
    eapply good_trans; [exact Hk4|]. eapply good_trans; [exact Hk5|].
    destruct (good_upd _ _ _ _ Hi5 E6) as [? _]; [|done].
    intros g'. split_and!; [done|intros Ha; flags; by rewrite Ha|by flags].
Qed.

Lemma timer_run_good fuel : forall st st',
  inv st -> timer_run callback fuel st = Some (Some st') -> good_step st st'.
Proof.
  induction fuel as [|fuel IH]; intros st st' Hi; cbn [timer_run];
    destruct (g_timer st) as [|p q] eqn:Eq; try (intros [= <-]; split; [done|by apply keeps_refl]);
    destruct (t_expire st p); try done; cbn [mbind option_bind];
    destruct (_ <? _); try (intros [= <-]; split; [done|by apply keeps_refl]); [done|].
  destruct (timer_fire callback p st) as [st1|] eqn:E; [|done]. cbn [mbind option_bind]. intros E'.
  destruct (timer_fire_good _ _ _ _ Hi Eq E) as [Hi1 Hk1].
  eapply good_trans; [exact Hk1|]. by apply IH.
Qed.

Lemma timer_enqueue_off p (st st' : state) : timer_enqueue p st = Some st' -> p ∉ g_timer st.
Proof.
  unfold timer_enqueue. destruct (get_timer p st) as [[g [[ty v] x]]|]; [|done].
  cbn [mbind option_bind]. by destruct (bool_decide_reflect (p ∉ g_timer st)).
Qed.

Lemma timer_add_good p c d ty v st st' :
  inv st -> timer_add p c d ty v st = Some st' -> good_step st st'.
Proof.
  intros Hi. unfold timer_add. destruct (upd_gen _ _ st) as [st1|] eqn:E1; [|done]. cbn [mbind option_bind].
  destruct (good_upd _ _ _ _ Hi E1) as [[Hi1 Hk1] _].
  { intros g. split_and!; [done|intros Ha; flags; by rewrite ?Ha|by flags]. }
  destruct (heap st1 !! p) as [g|] eqn:Hg; [|done]. cbn [mbind option_bind].
  destruct (if flagged g GEN_MARKED then _ else _) as [st2|] eqn:E2; [|done]. cbn [mbind option_bind].
  assert (good_step st1 st2 /\ exists g2, heap st2 !! p = Some g2 /\ flagged g2 GEN_MARKED = flagged g GEN_MARKED)
    as [[Hi2 Hk2] (g2 & Hg2 & Hm2)].
  { destruct (flagged g GEN_MARKED) eqn:Hm; [|simplify_eq; split; [split; [done|by apply keeps_refl]|eauto]].
    destruct (good_upd _ _ _ _ Hi1 E2) as [H _]; [intros g'; split_and!; [done|intros Ha; flags; by rewrite ?Ha|by flags]|].
    split; [done|]. apply upd_gen_inv in E2 as (g' & Hg' & ->). simpl. rewrite lookup_insert_eq.
    eexists. split; [done|]. simplify_eq. by flags. }
  destruct (upd_gen _ _ st2) as [st3|] eqn:E3; [|done]. cbn [mbind option_bind].
  assert (keeps_marked st2 st3) as Hk3 by (by apply (keeps_upd _ _ _ _ E3)).
  apply upd_gen_inv in E3 as (g2' & Hg2' & ->). simplify_eq. simpl. rewrite lookup_insert_eq. cbn [mbind option_bind].
  destruct (flagged (Generator _ _ _ _ _) GEN_MARKED) eqn:Hm.
  - intros [= <-]. eapply good_trans; [exact Hk1|]. eapply good_trans; [exact Hk2|]. split; [|exact Hk3].
    apply timers_ok_store; [done|]. left. exact (marked_off _ _ _ Hi2 Hg2 Hm).
  - intros E. pose proof (timer_enqueue_off _ _ _ E) as Hp.
    eapply good_trans; [exact Hk1|]. eapply good_trans; [exact Hk2|]. eapply good_trans; [exact Hk3|].
    apply (timer_enqueue_good p _ _); [|intros g' Hg'; simpl in Hg'; rewrite lookup_insert_eq in Hg'; by simplify_eq|done].
    apply timers_ok_store; [done|by left].
Qed.

Lemma timer_del_good p st st' : inv st -> timer_del callback p st = Some st' -> good_step st st'.
Proof.
  intros Hi. unfold timer_del. destruct (upd_gen _ _ st) as [st1|] eqn:E1; [|done]. cbn [mbind option_bind].
  destruct (good_upd _ _ _ _ Hi E1) as [[Hi1 Hk1] _].
  { intros g. split_and!; [done|intros Ha; flags; by rewrite ?Ha|by flags]. }
  destruct (heap st1 !! p) as [g|] eqn:Hg; [|done]. cbn [mbind option_bind].
  destruct (flagged g GEN_MARKED); [intros [= <-]; by split|].
  destruct (gen_dequeue p st1) as [st2|] eqn:E2; [|done]. cbn [mbind option_bind]. intros E3.
  destruct (gen_dequeue_good _ _ _ Hi1 E2) as ([Hi2 Hk2] & Hp & _).
  eapply good_trans; [exact Hk1|]. eapply good_trans; [exact Hk2|].
  by apply (event_generate_good ET_DESTROY p 0).
Qed.

Lemma timer_chg_good p ty v st st' : inv st -> timer_chg p ty v st = Some st' -> good_step st st'.
Proof.
  intros Hi. unfold timer_chg. destruct (get_timer p st) as [[g [[ty0 v0] x0]]|] eqn:Et; [|done].
  apply get_timer_some in Et as [Hg Hsrc]. cbn [mbind option_bind]. destruct (check _); [|done]. cbn [mbind option_bind].
  rewrite (upd_gen_some _ _ _ _ Hg). cbn [mbind option_bind]. set (st1 := set_heap _ st).
  assert (keeps_marked st st1) as Hk1 by by apply (keeps_upd p _ _ _ (upd_gen_some _ _ _ _ Hg)).
  destruct (flagged g GEN_MARKED) eqn:Hm.
  - intros E. pose proof (marked_off _ _ _ Hi Hg Hm) as Hp. eapply good_trans; [exact Hk1|].
    assert (inv st1) as Hi1 by (apply timers_ok_store; [done|by left]).
    destruct (good_upd _ _ _ _ Hi1 E) as [? _]; [|done].
    intros g'. split_and!; [done|intros Ha; flags; by rewrite ?Ha|by flags].
  - destruct (gen_dequeue p st1) as [st2|] eqn:E2; [|done]. cbn [mbind option_bind]. intros E3.
    assert (inv st2 /\ heap st2 = heap st1) as [Hi2 Hh2].
    { unfold gen_dequeue in E2. destruct (heap st1 !! p); [|done]. simplify_eq/=. split; [|done].
      apply timers_ok_store; [by apply timers_ok_without|left; apply filter_out]. }
    eapply good_trans; [exact Hk1|]. eapply good_trans; [by apply keeps_refl|].
    apply (timer_enqueue_good p); [done| |done]. rewrite Hh2. simpl. rewrite lookup_insert_eq.
    intros g' [= <-]. exact Hm.
Qed.

End operations.

(** Under callbacks that respect the queue, every timer operation keeps
    it: no timer is on it twice, the timers on it are active and in the order
    of their expiry, a timer whose callback runs is not on it, and the
    operation neither frees nor unmarks a timer that is being run. *)
Theorem timers_invariant {U} (callback : N -> EventType -> N -> Z -> evstate U -> option (evstate U))
    (st st' : evstate U) p c d ty v fuel :
  callbacks_ok callback -> inv st ->
  timer_add p c d ty v st = Some st' \/ timer_del callback p st = Some st' \/
  timer_chg p ty v st = Some st' \/ timer_run callback fuel st = Some (Some st') ->
  inv st' /\ keeps_marked st st'.
Proof.
  intros Hc Hi [E|[E|[E|E]]].
  - by eapply timer_add_good.
  - by apply (timer_del_good callback Hc p).
  - by eapply timer_chg_good.
  - by apply (timer_run_good callback Hc fuel).
Qed.

(** ** What timer_run() runs

    With callbacks that leave the event system alone the run is a function of
    the queue. *)
Section quiet.
Context {U : Type}.
Abbreviation state := (evstate U).

(** The effect of a callback on the rest of the program. *)
Context (act : N -> EventType -> N -> Z -> U -> U).

Definition quiet (c : N) (ty : EventType) (p : N) (d : Z) (st : state) : option state :=
  Some (set_user (act c ty p d (user st)) st).

Lemma quiet_eq c ty p d st : quiet c ty p d st = Some (set_user (act c ty p d (user st)) st).
Proof. done. Qed.

(** A timer as timer_add() queues it: active, without any other flag, and with
    a period that is not zero. *)
Definition fresh (h : gmap N generator) (p : N) : Prop :=
  exists g, h !! p = Some g /\ gh_flags g = GEN_ACTIVE /\
    match gh_source g with Timer TT_PERIODIC v _ => 0 < v | Timer _ _ _ => True | _ => False end.

(** Whether a timer is run again. *)
Definition periodic (h : gmap N generator) (p : N) : bool :=
  match h !! p with
  | Some (Generator _ _ _ _ (Timer TT_PERIODIC _ _)) => true
  | _ => false
  end.

(** The callbacks one timer gets when it has expired. *)
Definition fire (h : gmap N generator) (u : U) (p : N) : U :=
  match h !! p with
  | Some g =>
      let u := act (gh_call g) ET_EXPIRE p 0 u in
      if periodic h p then u else act (gh_call g) ET_DESTROY p 0 u
  | None => u
  end.

Definition expired (h : gmap N generator) (now : Z) (q : list N) : list N :=
  filter (fun p => expiry h p <= now) q.

Lemma event_alloc_quiet p (st : state) g :
  heap st !! p = Some g -> exists ev st1,
  event_alloc p st = Some (ev, st1) /\
  heap st1 = <[p := set_ref (u32 (gh_ref g + 1)) g]> (heap st) /\
  g_timer st1 = g_timer st /\ CurrentTime st1 = CurrentTime st /\ user st1 = user st.
Proof.
  intros Hg. unfold event_alloc, upd_gen.
  destruct (events_free st); cbn; rewrite Hg; cbn; eexists _, _; split_and!; reflexivity.
Qed.

Lemma generate_destroy_quiet p (st : state) g :
  heap st !! p = Some g -> flagged g GEN_ACTIVE = true -> exists st' g',
  generate_destroy quiet p st = Some st' /\ heap st' = <[p := g']> (heap st) /\
  g_timer st' = g_timer st /\ CurrentTime st' = CurrentTime st /\
  user st' = act (gh_call g) ET_DESTROY p 0 (user st).
Proof.
  intros Hg Ha. destruct (event_alloc_quiet p st g Hg) as (ev & st1 & E & Hh & Hq & Hc & Hu).
  unfold generate_destroy. rewrite E. cbn [mbind option_bind]. rewrite Hh, lookup_insert_eq.
  cbn [mbind option_bind]. rewrite flagged_set_ref, Ha. cbn [check mbind option_bind].
  unfold upd_gen. rewrite Hh, lookup_insert_eq. cbn [mbind option_bind].
  unfold run_callback. cbn [heap set_heap]. rewrite lookup_insert_eq. cbn [mbind option_bind].
  eexists _, _. split; [reflexivity|]. cbn. rewrite insert_insert_eq. split_and!; try done.
  by rewrite Hu.
Qed.

Lemma event_generate_expire p (st : state) g :
  heap st !! p = Some g -> flagged g GEN_ACTIVE = true -> flagged g GEN_DESTROY = false ->
  exists st' r,
  event_generate quiet ET_EXPIRE p 0 st = Some st' /\ heap st' = <[p := set_ref r g]> (heap st) /\
  g_timer st' = g_timer st /\ CurrentTime st' = CurrentTime st /\
  user st' = act (gh_call g) ET_EXPIRE p 0 (user st).
Proof.
  intros Hg Ha Hd. destruct (event_alloc_quiet p st g Hg) as (ev & st1 & E & Hh & Hq & Hc & Hu).
  unfold event_generate. rewrite decide_False by done. rewrite Hg. cbn [mbind option_bind].
  rewrite Hd, E. cbn [mbind option_bind]. rewrite Ha. cbn [check mbind option_bind].
  rewrite decide_False by done. cbn [mbind option_bind]. unfold run_callback. rewrite Hh, lookup_insert_eq.
  cbn [mbind option_bind]. rewrite quiet_eq. cbn [mbind option_bind]. unfold gen_ref_dec, upd_gen. cbn [heap set_user].
  rewrite Hh, lookup_insert_eq. cbn [mbind option_bind]. cbn [heap set_heap]. rewrite lookup_insert_eq.
  cbn [mbind option_bind]. rewrite !flagged_set_ref, Hd, andb_false_r. cbn [mbind option_bind].
  eexists _, _. split; [reflexivity|]. cbn. rewrite !insert_insert_eq. split_and!; try done.
  by rewrite Hu.
Qed.

Lemma fresh_ne h p g q : p <> q -> fresh h q -> fresh (<[p := g]> h) q.
Proof. intros Hne (g' & Hg & H). exists g'. by rewrite lookup_insert_ne. Qed.

Lemma periodic_ne h p g q : p <> q -> periodic (<[p := g]> h) q = periodic h q.
Proof. intros Hne. unfold periodic. by rewrite lookup_insert_ne. Qed.

Lemma fire_ne h p g u q : p <> q -> fire (<[p := g]> h) u q = fire h u q.
Proof. intros Hne. unfold fire. rewrite periodic_ne by done. by rewrite lookup_insert_ne. Qed.

(** One iteration of timer_run(). *)
Lemma timer_fire_quiet p r (st : state) :
  inv st -> g_timer st = p :: r -> Forall (fresh (heap st)) (p :: r) ->
  exists st' g', timer_fire quiet p st = Some st' /\
  heap st' = <[p := g']> (heap st) /\ CurrentTime st' = CurrentTime st /\
  user st' = fire (heap st) (user st) p /\
  if periodic (heap st) p then
    fresh (heap st') p /\ periodic (heap st') p = true /\
    CurrentTime st < expiry (heap st') p /\
    exists l1 l2, r = l1 ++ l2 /\ g_timer st' = l1 ++ p :: l2
  else g_timer st' = r.
Proof.
  intros Hi Eq Hf. apply Forall_cons in Hf as [(g & Hg & Hfl & Hper) Hf].
  pose proof Hi as (Hn & Hq & _). rewrite Eq in Hn, Hq. apply NoDup_cons in Hn as [Hp Hn].
  destruct (gh_source g) as [| |ty v x] eqn:Hsrc; [done..|].
  assert (gen_dequeue p st = Some (set_sockets (filter (fun q => q <> p) (g_socket st))
    (set_signals (filter (fun q => q <> p) (g_signal st)) (set_timers r st)))) as Edq.
  { unfold gen_dequeue. rewrite Hg. cbn [mbind option_bind]. rewrite Eq.
    rewrite filter_cons, decide_False by tauto. by rewrite (filter_notin p r Hp). }
  unfold timer_fire. rewrite (proj2 (get_timer_some p st g ty v x)) by done. cbn [mbind option_bind].
  rewrite Edq. cbn [mbind option_bind]. set (st1 := set_sockets _ _).
  set (m := Z.lor GEN_MARKED _). rewrite (upd_gen_some p _ st1 g Hg). cbn [mbind option_bind].
  set (st2 := set_heap _ st1).
  assert (heap st2 !! p = Some (add_flags m g)) as Hg2 by (simpl; apply lookup_insert_eq).
  assert (m = 2 /\ ty <> TT_PERIODIC \/ m = 10 /\ ty = TT_PERIODIC) as Hm.
  { unfold m. destruct (decide (ty = TT_PERIODIC)); [by right|by left]. }
  destruct (event_generate_expire p st2 (add_flags m g) Hg2) as (st3 & ref & E3 & Hh3 & Hq3 & Hc3 & Hu3).
  { unfold flagged, add_flags. cbn. rewrite Hfl. by destruct Hm as [[-> _]|[-> _]]. }
  { unfold flagged, add_flags. cbn. rewrite Hfl. by destruct Hm as [[-> _]|[-> _]]. }
  rewrite E3. cbn [mbind option_bind].
  assert (heap st3 !! p = Some (set_ref ref (add_flags m g))) as Hg3 by (rewrite Hh3; apply lookup_insert_eq).
  rewrite (upd_gen_some p _ st3 _ Hg3). cbn [mbind option_bind].
  set (g4 := del_flags GEN_MARKED _). set (st4 := set_heap _ st3).
  assert (heap st4 = <[p := g4]> (heap st)) as Hh4.
  { unfold st4, st2, st1. cbn. rewrite Hh3. cbn. by rewrite !insert_insert_eq. }
  assert (heap st4 !! p = Some g4) as Hg4 by (rewrite Hh4; apply lookup_insert_eq).
  assert (g_timer st4 = r) as Hq4 by done. rewrite Hg4. cbn [mbind option_bind].
  assert (periodic (heap st) p = bool_decide (ty = TT_PERIODIC)) as Hpd.
  { unfold periodic. rewrite Hg. destruct g; simpl in *; subst. by destruct ty. }
  assert (user st4 = act (gh_call g) ET_EXPIRE p 0 (user st)) as Hu4 by done.
  assert (CurrentTime st4 = CurrentTime st) as Hc4 by done.
  clearbody st4. clear E3 Hh3 Hq3 Hc3 Hu3 Hg3 Hg2 Edq. clearbody st1. clear st2.
  unfold fire. rewrite Hg, Hpd. destruct Hm as [[-> Hty]|[-> Hty]].
  - rewrite bool_decide_eq_false_2 by done.
    assert (gh_flags g4 = GEN_ACTIVE) as Hf4 by (unfold g4; cbn; by rewrite Hfl).
    unfold flagged. rewrite Hf4. change (negb (has_bits GEN_ACTIVE GEN_READD)) with true. cbv iota.
    unfold event_generate. rewrite decide_True by done.
    destruct (generate_destroy_quiet p st4 g4 Hg4) as (st5 & g5 & E5 & Hh5 & Hq5 & Hc5 & Hu5).
    { unfold flagged. by rewrite Hf4. }
    exists st5, g5. rewrite E5, Hh5, Hh4, insert_insert_eq, Hq5, Hc5, Hu5, Hu4. done.
  - rewrite bool_decide_eq_true_2 by done. subst ty.
    assert (gh_flags g4 = 12) as Hf4 by (unfold g4; cbn; by rewrite Hfl).
    assert (gh_source g4 = Timer TT_PERIODIC v x) as Hs4 by (unfold g4; cbn; done).
    unfold flagged. rewrite Hf4. change (negb (has_bits 12 GEN_READD)) with false. cbv iota.
    assert (inv st4) as Hi4.
    { unfold inv. rewrite Hh4, Hq4. apply timers_ok_store; [|by left].
      unfold inv in Hi. rewrite Eq in Hi. by apply timers_ok_tail in Hi. }
    destruct (timer_enqueue_spec p st4 g4 TT_PERIODIC v x Hi4 Hg4 Hs4) as (l1 & l2 & El & Ee & He & _).
    { by rewrite Hq4. } { unfold flagged. by rewrite Hf4. }
    rewrite Ee. cbn [mbind option_bind]. set (g5 := set_source _ g4) in *.
    rewrite (upd_gen_some p _ _ g5) by (simpl; apply lookup_insert_eq).
    exists (set_heap (<[p := del_flags GEN_READD g5]> (<[p := g5]> (heap st4)))
      (set_timers (l1 ++ p :: l2) (set_heap (<[p := g5]> (heap st4)) st4))), (del_flags GEN_READD g5).
    split; [done|]. cbn. rewrite Hh4, !insert_insert_eq. split_and!; try done.
    + exists (del_flags GEN_READD g5). rewrite lookup_insert_eq. split_and!; [done| |].
      * unfold g5. cbn. by rewrite Hfl.
      * exact Hper.
    + unfold periodic. by rewrite lookup_insert_eq.
    + unfold expiry. rewrite lookup_insert_eq. cbn. rewrite Hc4. simpl in Hper. lia.
    + exists l1, l2. by rewrite <- Hq4.
Qed.

Lemma expired_none h now l : (forall q, q ∈ l -> now < expiry h q) -> expired h now l = [].
Proof.
  unfold expired. induction l as [|a l IH]; intros H; [done|].
  rewrite filter_cons, decide_False by (specialize (H a ltac:(by left)); lia).
  apply IH. intros q Hq. apply H. by right.
Qed.

Lemma expired_ext h h' now l :
  (forall q, q ∈ l -> expiry h q = expiry h' q) -> expired h now l = expired h' now l.
Proof.
  unfold expired. induction l as [|a l IH]; intros H; [done|].
  rewrite !filter_cons, (H a) by by left. rewrite IH; [done|]. intros q Hq. apply H. by right.
Qed.

Lemma fold_fire_ne h p g l u :
  p ∉ l -> foldl (fire (<[p := g]> h)) u l = foldl (fire h) u l.
Proof.
  revert u. induction l as [|q l IH]; intros u Hp; [done|]. apply not_elem_of_cons in Hp as [Hne Hp].
  simpl. rewrite fire_ne by done. by apply IH.
Qed.

(** What a run from [st] comes to. *)
Definition run_result (st st' : state) : Prop :=
  user st' = foldl (fire (heap st)) (user st) (expired (heap st) (CurrentTime st) (g_timer st)) /\
  (forall p, p ∈ g_timer st' -> CurrentTime st < expiry (heap st') p) /\
  (forall p, p ∈ g_timer st' <->
    p ∈ g_timer st /\ (CurrentTime st < expiry (heap st) p \/ periodic (heap st) p = true)).

Lemma run_stops (st : state) :
  (forall q, q ∈ g_timer st -> CurrentTime st < expiry (heap st) q) -> run_result st st.
Proof.
  intros Hall. unfold run_result. rewrite expired_none by done. split_and!; [done|done|].
  intros p. split; [intros Hp; split; [done|left; auto]|by intros [? _]].
Qed.

(** One timer run, then the rest of the queue. *)
Lemma run_continues p r (st st1 st' : state) g' :
  g_timer st = p :: r -> p ∉ r -> expiry (heap st) p <= CurrentTime st ->
  heap st1 = <[p := g']> (heap st) -> CurrentTime st1 = CurrentTime st ->
  user st1 = fire (heap st) (user st) p ->
  (periodic (heap st) p = true -> periodic (heap st1) p = true) ->
  expired (heap st1) (CurrentTime st) (g_timer st1) = expired (heap st) (CurrentTime st) r ->
  (forall q, q ∈ g_timer st1 <-> q ∈ r \/ q = p /\ periodic (heap st) p = true) ->
  run_result st1 st' -> run_result st st'.
Proof.
  intros Eq Hpr Hx Hh Hc Hu Hper He Hm (Hu' & Hlt & Hmem). unfold run_result. rewrite Eq.
  unfold expired at 1. rewrite filter_cons, decide_True by done. simpl. rewrite <- Hu.
  rewrite Hc in *. split_and!; [|done|].
  - rewrite Hu', He, Hh. apply fold_fire_ne. unfold expired. rewrite list_elem_of_filter. tauto.
  - intros q. rewrite Hmem, Hm, elem_of_cons. destruct (decide (q = p)) as [->|Hqp].
    + split; [intros [[?|[_ ?]] _]; [done|by split; [left|right]]|].
      intros [_ [?|Hpp]]; [lia|]. split; right; auto.
    + rewrite Hh, expiry_ne, periodic_ne by done. intuition congruence.
Qed.

Lemma quiet_callbacks_ok : callbacks_ok quiet.
Proof. intros c ty q d s s' Hs0 _ [= <-]. split; [done|by apply keeps_refl]. Qed.

Lemma timer_run_quiet fuel : forall st : state,
  inv st -> Forall (fresh (heap st)) (g_timer st) ->
  (length (expired (heap st) (CurrentTime st) (g_timer st)) <= fuel)%nat ->
  exists st', timer_run quiet fuel st = Some (Some st') /\ run_result st st'.
Proof.
  induction fuel as [|fuel IH]; intros st Hi Hf Hn;
    cbn [timer_run]; destruct (g_timer st) as [|p r] eqn:Eq.
  1, 3: exists st; split; [done|]; apply run_stops; rewrite Eq; intros q Hq; by apply not_elem_of_nil in Hq.
  all: pose proof Hi as (Hnd & Hq & Hs); rewrite Eq in Hnd, Hq, Hs;
    pose proof (Forall_inv Hq) as Hp; rewrite (t_expire_queued _ _ Hp); cbn [mbind option_bind].
  all: destruct (CurrentTime st <? expiry (heap st) p) eqn:Ex; bprop.
  1, 3: exists st; split; [done|]; apply run_stops; rewrite Eq; intros q Hqin;
    apply elem_of_cons in Hqin as [->|Hqin]; [done|];
    apply StronglySorted_inv in Hs as [_ Hs]; rewrite Forall_forall in Hs; specialize (Hs q Hqin); lia.
  { exfalso. unfold expired in Hn. rewrite filter_cons, decide_True in Hn by done. simpl in Hn. lia. }
  destruct (timer_fire_quiet p r st Hi Eq Hf) as (st1 & g' & E & Hh & Hc & Hu & Hper).
  destruct (timer_fire_good quiet quiet_callbacks_ok p r st st1 Hi Eq E) as [Hi1 _].
  rewrite E. cbn [mbind option_bind].
  apply NoDup_cons in Hnd as [Hpr Hnd]. apply Forall_cons in Hf as [_ Hf].
  assert (forall q, q ∈ r -> p <> q) as Hne by (intros q Hqr ->; done).
  assert (expired (heap st1) (CurrentTime st) r = expired (heap st) (CurrentTime st) r) as Hexp.
  { apply expired_ext. intros q Hql. rewrite Hh. by apply expiry_ne; auto. }
  assert (Forall (fresh (heap st1)) r) as Hfr.
  { rewrite Forall_forall in Hf |- *. intros q Hqr. rewrite Hh. by apply fresh_ne; auto. }
  assert (Forall (fresh (heap st1)) (g_timer st1) /\
    (periodic (heap st) p = true -> periodic (heap st1) p = true) /\
    expired (heap st1) (CurrentTime st) (g_timer st1) = expired (heap st) (CurrentTime st) r /\
    (forall q, q ∈ g_timer st1 <-> q ∈ r \/ q = p /\ periodic (heap st) p = true)) as (Hf1 & Hp1 & He1 & Hm1).
  { destruct (periodic (heap st) p).
    - destruct Hper as (Hfp & Hpp & Hlt & l1 & l2 & -> & ->). split_and!; [|done| |].
      + apply Forall_app in Hfr as [? ?]. apply Forall_app_2; [done|]. by constructor.
      + rewrite <- Hexp. unfold expired. by rewrite !filter_app, filter_cons, decide_False by lia.
      + intros q. rewrite !elem_of_app, elem_of_cons. intuition congruence.
    - rewrite Hper. split_and!; [done|done|done|intuition congruence]. }
  unfold expired in Hn. rewrite filter_cons, decide_True in Hn by done. simpl in Hn.
  destruct (IH st1 Hi1 Hf1) as (st' & E' & Hres); [rewrite Hc, He1; unfold expired; lia|].
  exists st'. split; [done|]. by apply (run_continues p r st st1 st' g').
Qed.
End quiet.

(** C37: timer_run() over callbacks that leave the timers alone, with queued
    timers as timer_add() makes them and as much fuel as the queue is long,
    returns; the callbacks run are those of the expired timers, in the order
    of their expiry, each with ET_EXPIRE and then ET_DESTROY unless it is
    periodic; what is left on the queue is the timers that had not expired and
    the periodic ones, and all of them expire later. *)
Theorem timer_run_correct {U} (act : N -> EventType -> N -> Z -> U -> U) (st : evstate U) :
  inv st -> Forall (fresh (heap st)) (g_timer st) ->
  exists st', timer_run (quiet act) (length (g_timer st)) st = Some (Some st') /\
  run_result act st st'.
Proof.
  intros Hi Hf. apply timer_run_quiet; [done..|]. apply length_filter.
Qed.

(** ** Sockets *)
Section sockets.
Context {U : Type}.
Abbreviation state := (evstate U).
Context (act : N -> EventType -> N -> Z -> U -> U).
Context (engine : Engine U).

(** A callback that runs and then closes its socket. *)
Definition closing_callback (c : N) (ty : EventType) (p : N) (d : Z) (st : state) : option state :=
  st ← quiet act c ty p d st;
  if decide (ty = ET_DESTROY) then Some st else socket_del (quiet act) engine p st.

Lemma closing_eq c ty p d st :
  closing_callback c ty p d st =
    let st := set_user (act c ty p d (user st)) st in
    if decide (ty = ET_DESTROY) then Some st else socket_del (quiet act) engine p st.
Proof. done. Qed.

(** A socket no event is being handled for. *)
Definition idle_socket (g : generator) : Prop :=
  gh_flags g = GEN_ACTIVE /\ gh_ref g = 0 /\
  match gh_source g with Socket _ _ _ => True | _ => False end.

(** The socket as the engine sees it while its event is handled. *)
Definition busy (ty : EventType) (g : generator) : generator :=
  let g := set_ref 1 g in
  if decide (ty = ET_ERROR) then add_flags GEN_ERROR g else g.

Lemma busy_flags ty g :
  idle_socket g -> gh_ref (busy ty g) = 1 /\ gh_call (busy ty g) = gh_call g /\
  flagged (busy ty g) GEN_ACTIVE = true /\ flagged (busy ty g) GEN_DESTROY = false.
Proof.
  intros (Hf & Hr & _). unfold busy. destruct (decide _); cbn;
    unfold flagged; cbn; rewrite Hf; done.
Qed.

(** event_generate() up to the callback. *)
Lemma event_generate_busy cb ty p d (st : state) g :
  idle_socket g -> heap st !! p = Some g -> ty <> ET_DESTROY -> exists ev st1,
  event_generate cb ty p d st =
    (st2 ← cb (gh_call g) ty p d st1; st3 ← gen_ref_dec cb p st2; Some (event_release ev st3)) /\
  heap st1 = <[p := busy ty g]> (heap st) /\ g_socket st1 = g_socket st /\ user st1 = user st.
Proof.
  intros Hid Hg Hty. pose proof Hid as (Hf & Hr & _). unfold event_generate. rewrite decide_False by done.
  rewrite Hg. cbn [mbind option_bind].
  unfold flagged at 1. rewrite Hf. change (has_bits GEN_ACTIVE GEN_DESTROY) with false. cbv iota.
  assert (exists ev st0, event_alloc p st = Some (ev, st0) /\ heap st0 = <[p := set_ref 1 g]> (heap st) /\
    g_socket st0 = g_socket st /\ user st0 = user st) as (ev & st0 & -> & Hh & Hs & Hu).
  { unfold event_alloc, upd_gen.
    destruct (events_free st); cbn; rewrite Hg; cbn; rewrite Hr; eexists _, _; split_and!; reflexivity. }
  cbn [mbind option_bind]. unfold flagged at 1. rewrite Hf.
  change (check (has_bits GEN_ACTIVE GEN_ACTIVE)) with (Some tt). cbn [mbind option_bind].
  unfold busy. destruct (decide (ty = ET_ERROR)) as [->|Hne].
  - unfold upd_gen at 1. rewrite Hh, lookup_insert_eq. cbn [mbind option_bind].
    unfold run_callback. cbn [heap set_heap]. rewrite lookup_insert_eq. cbn [mbind option_bind].
    eexists _, _. split; [reflexivity|]. cbn. by rewrite insert_insert_eq.
  - cbn [mbind option_bind]. unfold run_callback at 1. rewrite Hh, lookup_insert_eq. cbn [mbind option_bind].
    eexists _, _. split; [reflexivity|]. done.
Qed.

Lemma socket_del_busy cb p (st : state) g :
  heap st !! p = Some g -> flagged g GEN_DESTROY = false -> gh_ref g <> 0 ->
  socket_del cb engine p st =
    Some (set_heap (<[p := add_flags GEN_DESTROY g]> (heap st))
           (set_user (eng_closing engine p g (user st)) st)).
Proof.
  intros Hg Hd Hr. unfold socket_del. rewrite Hg. cbn [mbind option_bind]. rewrite Hd.
  cbn [check negb mbind option_bind]. unfold upd_gen. cbn [heap set_user]. rewrite Hg. cbn [mbind option_bind].
  by rewrite (proj2 (Z.eqb_neq _ _) Hr).
Qed.
End sockets.

(** A socket closed by the callback of one of its events is not destroyed
    under it: the engine is told, the callback returns, and then ET_DESTROY is
    delivered once, with the socket off its list; no other event is delivered
    to it afterwards. *)
Theorem socket_del_deferred {U} (act : N -> EventType -> N -> Z -> U -> U) (engine : Engine U)
    ty p d (st : evstate U) g :
  heap st !! p = Some g -> idle_socket g -> ty <> ET_DESTROY ->
  exists st', event_generate (closing_callback act engine) ty p d st = Some st' /\
  user st' = act (gh_call g) ET_DESTROY p 0
    (eng_closing engine p (busy ty g) (act (gh_call g) ty p d (user st))) /\
  (p ∉ g_socket st') /\
  (forall ty' d', ty' <> ET_DESTROY ->
    event_generate (closing_callback act engine) ty' p d' st' = Some st').
Proof.
  intros Hg Hid Hty. destruct (busy_flags ty g Hid) as (Hr & Hcall & Ha & Hd).
  destruct (event_generate_busy (closing_callback act engine) ty p d st g Hid Hg Hty)
    as (ev & st1 & E & Hh & Hs & Hu).
  rewrite E. clear E. rewrite closing_eq. cbv zeta.
  rewrite decide_False by done.
  rewrite (socket_del_busy engine (quiet act) p _ (busy ty g));
    [|cbn; rewrite Hh; apply lookup_insert_eq|done|lia].
  cbn [mbind option_bind]. unfold gen_ref_dec, upd_gen. cbn [heap set_heap set_user].
  rewrite lookup_insert_eq. cbn [mbind option_bind]. cbn [heap set_heap].
  rewrite lookup_insert_eq. cbn [mbind option_bind].
  set (g1 := set_ref _ _). assert (gh_ref g1 = 0) as Hr1 by (cbn; by rewrite Hr).
  assert (flagged g1 GEN_DESTROY = true) as Hd1.
  { unfold g1. rewrite flagged_set_ref, flagged_add by flag_bit. apply orb_true_r. }
  assert (flagged g1 GEN_ACTIVE = true) as Ha1.
  { unfold g1. rewrite flagged_set_ref, flagged_add by flag_bit. by rewrite Ha. }
  rewrite Hr1, Hd1. cbn [Z.eqb andb]. unfold gen_dequeue. cbn [heap set_heap set_user].
  rewrite lookup_insert_eq. cbn [mbind option_bind]. set (st2 := set_sockets _ _).
  assert (heap st2 !! p = Some g1) as Hg2 by (cbn; apply lookup_insert_eq).
  assert (p ∉ g_socket st2) as Hp2 by (cbn; apply filter_out).
  assert (user st2 = eng_closing engine p (busy ty g) (act (gh_call g) ty p d (user st))) as Hu2
    by (cbn; by rewrite Hu).
  clearbody st2. clear Hh Hs Hu.
  assert (exists st3 g3, generate_destroy (closing_callback act engine) p st2 = Some st3 /\
    heap st3 !! p = Some g3 /\ flagged g3 GEN_DESTROY = true /\ g_socket st3 = g_socket st2 /\
    user st3 = act (gh_call g) ET_DESTROY p 0 (user st2)) as (st3 & g3 & E3 & Hg3 & Hd3 & Hs3 & Hu3).
  { unfold generate_destroy, event_alloc, upd_gen.
    destruct (events_free st2); cbn; rewrite Hg2; cbn; rewrite lookup_insert_eq; cbn;
      rewrite flagged_set_ref, Ha1; cbn; unfold run_callback; cbn; rewrite lookup_insert_eq;
      cbn; eexists _, _; (split; [reflexivity|]); cbn; (split; [apply lookup_insert_eq|]);
      (split; [rewrite flagged_del by flag_bit; rewrite flagged_set_ref, Hd1; done|]);
      rewrite Hcall; done. }
  rewrite E3. cbn [mbind option_bind]. eexists. split; [reflexivity|]. cbn. rewrite Hu3, Hu2.
  split_and!; [done|by rewrite Hs3|]. intros ty' d' Hty'.
  unfold event_generate. rewrite decide_False by done. cbn [heap event_release set_events].
  rewrite Hg3. cbn [mbind option_bind]. by rewrite Hd3.
Qed.

(** Membership in an interest mask. *)
Lemma interest_bit x m n : m = 2 ^ n -> 0 <= n -> has_bits x m = Z.testbit x n.
Proof. intros -> Hn. by apply has_bits_bit. Qed.

(** Socket_events() sets, extends or reduces the interest of a socket by
    the readable and writable bits of its argument, as the action in the
    argument says; the engine is told exactly when the interest changes, and a
    socket in error or being destroyed is left alone. *)
Theorem socket_events_correct {U} (engine : Engine U) p events (st : evstate U) g ss old fd :
  heap st !! p = Some g -> gh_source g = Socket ss old fd ->
  if flagged g (Z.lor GEN_DESTROY GEN_ERROR) then socket_events engine p events st = Some st
  else exists st' new,
    socket_events engine p events st = Some st' /\
    (exists g', heap st' !! p = Some g' /\ gh_source g' = Socket ss new fd) /\
    user st' = (if old =? new then user st else eng_events engine p g new (user st)) /\
    forall m, m = SOCK_EVENT_READABLE \/ m = SOCK_EVENT_WRITABLE ->
    (Z.land events SOCK_ACTION_MASK = SOCK_ACTION_SET -> has_bits new m = has_bits events m) /\
    (Z.land events SOCK_ACTION_MASK = SOCK_ACTION_ADD ->
      has_bits new m = has_bits old m || has_bits events m) /\
    (Z.land events SOCK_ACTION_MASK = SOCK_ACTION_DEL ->
      has_bits new m = has_bits old m && negb (has_bits events m)).
Proof.
  intros Hg Hsrc. unfold socket_events. rewrite Hg. cbn [mbind option_bind]. rewrite Hsrc.
  destruct (flagged g _); [done|]. set (new := new_events old events).
  exists (if old =? new then st
          else set_heap (<[p := set_source (Socket ss new fd) g]> (heap st))
                 (set_user (eng_events engine p g new (user st)) st)), new.
  split_and!.
  - destruct (old =? new); [done|]. unfold upd_gen. cbn [heap set_user]. by rewrite Hg.
  - destruct (old =? new) eqn:E; bprop; [exists g; by rewrite <- E|].
    cbn. rewrite lookup_insert_eq. by eexists.
  - by destruct (old =? new).
  - intros m Hm.
    assert (exists n, 0 <= n < 2 /\ m = 2 ^ n) as (n & Hn & Hmn) by (destruct Hm as [->| ->]; [by exists 0|by exists 1]).
    rewrite !(interest_bit _ m n Hmn) by lia.
    assert (Z.testbit SOCK_EVENT_MASK n = true) as Hb by (assert (n = 0 \/ n = 1) as [->| ->] by lia; done).
    unfold new, new_events. split_and!; intros ->.
    + change (SOCK_ACTION_SET =? SOCK_ACTION_SET) with true. cbv iota.
      by rewrite Z.land_spec, Hb, andb_true_r.
    + change (SOCK_ACTION_ADD =? SOCK_ACTION_SET) with false.
      change (SOCK_ACTION_ADD =? SOCK_ACTION_ADD) with true. cbv iota.
      by rewrite Z.lor_spec, Z.land_spec, Hb, andb_true_r.
    + change (SOCK_ACTION_DEL =? SOCK_ACTION_SET) with false.
      change (SOCK_ACTION_DEL =? SOCK_ACTION_ADD) with false.
      change (SOCK_ACTION_DEL =? SOCK_ACTION_DEL) with true. cbv iota.
      by rewrite Z.ldiff_spec, Z.land_spec, Hb, andb_true_r.
Qed.

(** ** Witnesses *)
Definition log_act (c : N) (ty : EventType) (p : N) (d : Z) (u : list (EventType * N)) :
  list (EventType * N) := u ++ [(ty, p)].

Definition log_engine : Engine (list (EventType * N)) :=
  MkEngine _ None (fun _ _ u => (1, u)) (fun _ _ _ u => u) (fun _ _ _ u => u) (fun _ _ u => u).

Definition sample_timer (ty : TimerType) (v x : Z) : generator :=
  Generator GEN_ACTIVE 0 7 0 (Timer ty v x).

(** Two expired timers, the first periodic, one pending, and a socket. *)
Definition sample_state : evstate (list (EventType * N)) :=
  EvState (<[1%N := sample_timer TT_PERIODIC 60 90]> (<[2%N := sample_timer TT_ABSOLUTE 100 100]>
      (<[3%N := sample_timer TT_RELATIVE 50 120]>
        (<[4%N := Generator GEN_ACTIVE 0 9 0 (Socket SS_CONNECTED 1 5)]> ∅))))
    [4%N] [] [1%N; 2%N; 3%N] [] 0 100 [].

Lemma sample_inv : inv sample_state.
Proof.
  split_and!.
  - by_decide.
  - repeat apply Forall_cons_2; try apply Forall_nil_2; (eexists; split_and!; [reflexivity|done|done|done]).
  - repeat constructor; vm_compute; congruence.
Qed.

Lemma sample_timers_fresh : Forall (fresh (heap sample_state)) (g_timer sample_state).
Proof.
  repeat apply Forall_cons_2; try apply Forall_nil_2; (eexists; split_and!; [reflexivity|done|simpl; done]).
Qed.

Lemma timer_run_correct_witness :
  expired (heap sample_state) (CurrentTime sample_state) (g_timer sample_state) = [1%N; 2%N] /\
  exists st', timer_run (quiet log_act) 3 sample_state = Some (Some st') /\
    run_result log_act sample_state st'.
Proof. split; [reflexivity|]. exact (timer_run_correct log_act sample_state sample_inv sample_timers_fresh). Defined.

Lemma timers_invariant_witness :
  exists st', timer_del (quiet log_act) 2%N sample_state = Some st' /\
    inv st' /\ keeps_marked sample_state st'.
Proof.
  eexists. split; [reflexivity|].
  apply (timers_invariant (quiet log_act) sample_state _ 2%N 0%N 0%N TT_ABSOLUTE 0 0);
    [apply quiet_callbacks_ok|exact sample_inv|]. right. left. reflexivity.
Defined.

Lemma socket_del_deferred_witness :
  exists st', event_generate (closing_callback log_act log_engine) ET_READ 4%N 0 sample_state = Some st' /\
  user st' = [(ET_READ, 4%N); (ET_DESTROY, 4%N)] /\ (4%N ∉ g_socket st').
Proof.
  destruct (socket_del_deferred log_act log_engine ET_READ 4%N 0 sample_state
    (Generator GEN_ACTIVE 0 9 0 (Socket SS_CONNECTED 1 5)) eq_refl
    (conj eq_refl (conj eq_refl I)) ltac:(discriminate)) as (st' & E & Hu & Hs & _).
  exists st'. split_and!; [exact E|exact Hu|exact Hs].
Defined.

Lemma socket_events_correct_witness :
  exists st' new, socket_events log_engine 4%N (Z.lor SOCK_ACTION_ADD SOCK_EVENT_WRITABLE) sample_state = Some st' /\
  has_bits new SOCK_EVENT_READABLE = true.
Proof.
  pose proof (socket_events_correct log_engine 4%N (Z.lor SOCK_ACTION_ADD SOCK_EVENT_WRITABLE) sample_state
    (Generator GEN_ACTIVE 0 9 0 (Socket SS_CONNECTED 1 5)) SS_CONNECTED 1 5 eq_refl eq_refl) as H.
  destruct H as (st' & new & E & _ & _ & Hb). exists st', new. split; [exact E|].
  destruct (Hb SOCK_EVENT_READABLE ltac:(by left)) as (_ & Ha & _). rewrite Ha; reflexivity.
Defined.
