(* ===== verification/CRule.v ===== *)
(** * ircd/crule.c: connection rules

    The scanner, the recursive descent parser, the release of a parsed rule and
    its evaluation.  The [ruleptr] of the parser is the rest of the text, the
    out parameters are results, and every store the code makes into a node is
    kept: a pointer is [Wild] until it is assigned.  Reading a wild or null
    pointer, or storing past [arg[CR_MAXARGS]], is a [Fault]. *)
From S2P Require Import Prelude Chattr Match IrcdString.

Definition CR_MAXARGLEN : nat := 80.
Definition CR_MAXARGS : nat := 3.

Inductive crule_token :=
| CR_UNKNOWN | CR_END | CR_AND | CR_OR | CR_NOT
| CR_OPENPAREN | CR_CLOSEPAREN | CR_COMMA | CR_WORD.

#[export] Instance crule_token_eq_dec : EqDecision crule_token.
Proof. solve_decision. Defined.

Inductive crule_errcode :=
| CR_NOERR | CR_UNEXPCTTOK | CR_UNKNWTOK | CR_EXPCTAND | CR_EXPCTOR
| CR_EXPCTPRIM | CR_EXPCTOPEN | CR_EXPCTCLOSE | CR_UNKNWFUNC | CR_ARGMISMAT.

#[export] Instance crule_errcode_eq_dec : EqDecision crule_errcode.
Proof. solve_decision. Defined.

(** ** Faults and pointers *)
Inductive fault := NullRead | WildRead | ArgOverflow | NoFuel.

Inductive result (A : Type) :=
| Fault (f : fault)
| Val (a : A).
Arguments Fault {A} _.
Arguments Val {A} _.

#[export] Instance result_bind : MBind result := fun A B k m =>
  match m with Fault f => Fault f | Val a => k a end.

Inductive pointer (A : Type) := Wild | Null | Ptr (a : A).
Arguments Wild {A}.
Arguments Null {A}.
Arguments Ptr {A} _.

(** ** Rule trees *)
Inductive crule_funcptr := crule_connected | crule_directcon | crule_via | crule_directop.

(** struct CRuleNode, by its [funcptr]: crule__andor with the flag of [arg[2]],
    crule__not, and a rule function (none while the node is being built) with
    its [numargs] strings. *)
Inductive CRuleNode :=
| crule__andor (arg0 arg1 : pointer CRuleNode) (arg2 : bool)
| crule__not (arg0 : pointer CRuleNode)
| crule_func (funcptr : option crule_funcptr) (args : list (list Z)).

(** The assignment of [arg[1]]. *)
Definition set_arg1 (n : CRuleNode) (p : pointer CRuleNode) : CRuleNode :=
  match n with
  | crule__andor a _ o => crule__andor a p o
  | _ => n
  end.

Definition crule_funclist : list (list Z * (nat * crule_funcptr)) :=
  [ (lit "connected", (1%nat, crule_connected));
    (lit "directcon", (1%nat, crule_directcon));
    (lit "via", (2%nat, crule_via));
    (lit "directop", (0%nat, crule_directop)) ].

(** ** Scanner *)
Definition word_start (c : Z) : bool :=
  IsAlpha c || (c =? 42) || (c =? 63) || (c =? 46) || (c =? 45).

Definition word_char (c : Z) : bool :=
  IsAlnum c || (c =? 42) || (c =? 63) || (c =? 46) || (c =? 45).

Definition scanned : Type := crule_errcode * crule_token * list Z.

(** The loop of crule_gettoken(), with [pending] as in the code. *)
Fixpoint gettoken_loop (pending : Z) (s : list Z) : scanned :=
  match s with
  | [] => (CR_NOERR, CR_END, s)
  | c :: r =>
      if (c =? 32) || (c =? 9) then gettoken_loop pending r
      else if c =? 38 then
        if pending =? 0 then gettoken_loop 38 r
        else if pending =? 38 then (CR_NOERR, CR_AND, r)
        else (CR_UNKNWTOK, CR_UNKNOWN, r)
      else if c =? 124 then
        if pending =? 0 then gettoken_loop 124 r
        else if pending =? 124 then (CR_NOERR, CR_OR, r)
        else (CR_UNKNWTOK, CR_UNKNOWN, r)
      else if c =? 33 then (CR_NOERR, CR_NOT, r)
      else if c =? 40 then (CR_NOERR, CR_OPENPAREN, r)
      else if c =? 41 then (CR_NOERR, CR_CLOSEPAREN, r)
      else if c =? 44 then (CR_NOERR, CR_COMMA, r)
      else if c =? 58 then (CR_NOERR, CR_END, r)
      else if word_start c then (CR_NOERR, CR_WORD, s)
      else (CR_UNKNWTOK, CR_UNKNOWN, s)
  end.

Definition crule_gettoken (s : list Z) : scanned := gettoken_loop 0 s.

(** The word and the rest of the text; [maxlen] bytes at most are taken. *)
Fixpoint crule_getword (maxlen : nat) (s : list Z) : list Z * list Z :=
  match maxlen, s with
  | S maxlen, c :: r =>
      if word_char c then
        let '(w, rest) := crule_getword maxlen r in (c :: w, rest)
      else ([], s)
  | _, _ => ([], s)
  end.

(** ** Parser *)

(** What a parsing function leaves: its error code, the node, the token and
    the rest of the text. *)
Definition parsed : Type := crule_errcode * pointer CRuleNode * crule_token * list Z.

(** The loop of crule_parsearglist(), with [argrootp->arg] and [currarg]. *)
Fixpoint crule_parsearglist (fuel : nat) (args : list (list Z)) (currarg : list Z)
    (arglen : nat) (t : crule_token) (s : list Z)
  : result (crule_errcode * list (list Z) * crule_token * list Z) :=
  match fuel with
  | O => Fault NoFuel
  | S fuel =>
      if decide (t = CR_WORD) then
        let '(word, s) := crule_getword (CR_MAXARGLEN - 1) s in
        let wordlen := length word in
        let '(currarg, arglen) :=
          if negb (hd0 currarg =? 0) then
            if (arglen + wordlen <? CR_MAXARGLEN - 1)%nat
            then (currarg ++ [32] ++ word, (arglen + (wordlen + 1))%nat)
            else (currarg, arglen)
          else (word, wordlen) in
        let '(e, t, s) := crule_gettoken s in
        if decide (e = CR_NOERR) then crule_parsearglist fuel args currarg arglen t s
        else Val (e, args, t, s)
      else
        let currarg := collapse currarg in
        args ← (if hd0 currarg =? 0 then Val args
                else if (length args <? CR_MAXARGS)%nat then Val (args ++ [currarg])
                else Fault ArgOverflow);
        if decide (t <> CR_COMMA) then Val (CR_NOERR, args, t, s)
        else
          let '(e, t, s) := crule_gettoken s in
          if decide (e = CR_NOERR) then crule_parsearglist fuel args [] arglen t s
          else Val (e, args, t, s)
  end.

(** The search of crule_funclist; the end of the list is the entry without a name. *)
Definition find_func (funcname : list Z) : option (nat * crule_funcptr) :=
  match List.find (fun f => ircd_strcmp f.1 funcname =? 0) crule_funclist with
  | Some f => Some f.2
  | None => None
  end.

(** The token is the one that made the caller expect a function: a word. *)
Definition crule_parsefunction (s : list Z) : result parsed :=
  let '(funcname, s) := crule_getword (CR_MAXARGLEN - 1) s in
  let '(e, t, s) := crule_gettoken s in
  if decide (e <> CR_NOERR) then Val (e, Null, t, s)
  else if decide (t = CR_OPENPAREN) then
    match find_func funcname with
    | None => Val (CR_UNKNWFUNC, Null, t, s)
    | Some (reqnumargs, funcptr) =>
        let '(e, t, s) := crule_gettoken s in
        if decide (e <> CR_NOERR) then Val (e, Null, t, s)
        else
          '(e, args, t, s) ← crule_parsearglist (S (S (length s))) [] [] 0 t s;
          let built := Ptr (crule_func None args) in
          if decide (e <> CR_NOERR) then Val (e, built, t, s)
          else if decide (t <> CR_CLOSEPAREN) then Val (CR_EXPCTCLOSE, built, t, s)
          else if decide (reqnumargs <> length args) then Val (CR_ARGMISMAT, built, t, s)
          else
            let '(e, t, s) := crule_gettoken s in
            if decide (e <> CR_NOERR) then Val (e, built, t, s)
            else Val (CR_NOERR, Ptr (crule_func (Some funcptr) args), t, s)
    end
  else Val (CR_EXPCTOPEN, Null, t, s).

(** The loop that crule_parseorexpr() and crule_parseandexpr() share: [operand]
    parses the next operand, [op] is the operator's token, [arg2] its flag and
    [missing] the error for an absent operand. *)
Section operators.
Context (operand : crule_token -> list Z -> result parsed)
  (op : crule_token) (arg2 : bool) (missing : crule_errcode).

(** The operator node put over the tree read so far. *)
Definition new_operator (root expr : pointer CRuleNode) : CRuleNode :=
  match root with
  | Ptr n => crule__andor (Ptr (set_arg1 n expr)) Wild arg2
  | _ => crule__andor expr Wild arg2
  end.

(** The code after the last operand. *)
Definition last_operand (root expr : pointer CRuleNode) (e : crule_errcode)
    (t : crule_token) (s : list Z) : parsed :=
  match root with
  | Ptr n =>
      match expr with
      | Null => (missing, Ptr (set_arg1 n Null), t, s)
      | _ => (e, Ptr (set_arg1 n expr), t, s)
      end
  | _ => (e, expr, t, s)
  end.

Fixpoint operator_loop (fuel : nat) (root : pointer CRuleNode) (t : crule_token) (s : list Z)
  : result parsed :=
  match fuel with
  | O => Fault NoFuel
  | S fuel =>
      '(e, expr, t, s) ← operand t s;
      if decide (e = CR_NOERR /\ t = op) then
        let orptr := Ptr (new_operator root expr) in
        let '(e, t, s) := crule_gettoken s in
        if decide (e = CR_NOERR) then operator_loop fuel orptr t s
        else Val (e, orptr, t, s)
      else Val (last_operand root expr e t s)
  end.
End operators.

Definition parse_or_of (operand : crule_token -> list Z -> result parsed)
    (t : crule_token) (s : list Z) : result parsed :=
  operator_loop operand CR_OR true CR_EXPCTAND (S (S (length s))) Null t s.

Definition parse_and_of (operand : crule_token -> list Z -> result parsed)
    (t : crule_token) (s : list Z) : result parsed :=
  operator_loop operand CR_AND false CR_EXPCTPRIM (S (S (length s))) Null t s.

(** The loop of crule_parseprimary(): the result is what is stored through
    [insertionp]; [outer] says that it still is [primrootp]. *)
Fixpoint crule_parseprimary (fuel : nat) (outer : bool) (t : crule_token) (s : list Z)
  : result parsed :=
  match fuel with
  | O => Fault NoFuel
  | S fuel =>
      match t with
      | CR_OPENPAREN =>
          let '(e, t, s) := crule_gettoken s in
          if decide (e <> CR_NOERR) then Val (e, Null, t, s)
          else
            '(e, p, t, s) ← parse_or_of (parse_and_of (crule_parseprimary fuel true)) t s;
            if decide (e <> CR_NOERR) then Val (e, p, t, s)
            else match p with
            | Null => Val (CR_EXPCTAND, p, t, s)
            | _ =>
                if decide (t <> CR_CLOSEPAREN) then Val (CR_EXPCTCLOSE, p, t, s)
                else
                  let '(e, t, s) := crule_gettoken s in Val (e, p, t, s)
            end
      | CR_NOT =>
          let '(e, t, s) := crule_gettoken s in
          if decide (e <> CR_NOERR) then Val (e, Ptr (crule__not Null), t, s)
          else
            '(e, p, t, s) ← crule_parseprimary fuel false t s;
            Val (e, Ptr (crule__not p), t, s)
      | CR_WORD => crule_parsefunction s
      | _ => Val (if outer then CR_NOERR else CR_EXPCTPRIM, Null, t, s)
      end
  end.

Definition crule_parseandexpr (fuel : nat) : crule_token -> list Z -> result parsed :=
  parse_and_of (crule_parseprimary fuel true).

Definition crule_parseorexpr (fuel : nat) : crule_token -> list Z -> result parsed :=
  parse_or_of (crule_parseandexpr fuel).

(** ** Release: the number of blocks given back. *)
Fixpoint crule_free (n : CRuleNode) : result nat :=
  match n with
  | crule__not a =>
      match a with
      | Null => Val 1%nat
      | Wild => Fault WildRead
      | Ptr m => k ← crule_free m; Val (S k)
      end
  | crule__andor a b _ =>
      j ← (match a with
           | Null => Fault NullRead
           | Wild => Fault WildRead
           | Ptr m => crule_free m
           end);
      k ← (match b with
           | Null => Val 0%nat
           | Wild => Fault WildRead
           | Ptr m => crule_free m
           end);
      Val (S (j + k))
  | crule_func _ args => Val (S (length args))
  end.

(** The rule, or its release and no rule. *)
Definition crule_parse (rule : list Z) : result (option CRuleNode) :=
  let '(e, t, s) := crule_gettoken rule in
  if decide (e <> CR_NOERR) then Val None
  else
    '(e, ruleroot, t, s) ← crule_parseorexpr (S (length rule)) t s;
    match ruleroot with
    | Ptr n =>
        if decide (e = CR_NOERR /\ t = CR_END) then Val (Some n)
        else _ ← crule_free n; Val None
    | Wild => Fault WildRead
    | Null => Val None
    end.

(** ** Evaluation *)
Record client := Client {
  cli_name : list Z;
  cli_from_name : list Z;       (* cli_name(cli_from(acptr)) *)
  IsServer : bool;
  IsMe : bool;
  IsAnOper : bool }.

(** GlobalClientList from its head, and LocalClientArray[0 .. HighestFd]. *)
Record world := World {
  GlobalClientList : list client;
  LocalClientArray : list (option client) }.

(** !match(mask, name) *)
Definition matches (mask name : list Z) : result bool :=
  match ircd_match mask name with
  | Some (Some r) => Val (r =? 0)
  | Some None => Fault NoFuel
  | None => Fault WildRead
  end.

(** crulearg[i] *)
Definition crulearg (args : list (list Z)) (i : nat) : result (list Z) :=
  match args !! i with Some a => Val a | None => Fault WildRead end.

(** A loop over clients that returns 1 at the first one the body accepts. *)
Fixpoint first_client {A} (body : A -> result bool) (l : list A) : result bool :=
  match l with
  | [] => Val false
  | c :: r => b ← body c; if (b : bool) then Val true else first_client body r
  end.

Definition connected_body (mask : list Z) (c : client) : result bool :=
  if negb (IsServer c) && negb (IsMe c) then Val false
  else matches mask (cli_name c).

Definition directcon_body (mask : list Z) (c : option client) : result bool :=
  match c with
  | None => Val false
  | Some c => if negb (IsServer c) then Val false else matches mask (cli_name c)
  end.

Definition via_body (mask0 mask1 : list Z) (c : client) : result bool :=
  if negb (IsServer c) && negb (IsMe c) then Val false
  else
    b ← matches mask1 (cli_name c);
    if (b : bool) then matches mask0 (cli_from_name c) else Val false.

Definition directop_body (c : option client) : result bool :=
  match c with
  | None => Val false
  | Some c => Val (IsAnOper c)
  end.

Definition crule_call (w : world) (f : crule_funcptr) (args : list (list Z)) : result bool :=
  match f with
  | crule_connected =>
      m ← crulearg args 0; first_client (connected_body m) (GlobalClientList w)
  | crule_directcon =>
      m ← crulearg args 0; first_client (directcon_body m) (LocalClientArray w)
  | crule_via =>
      m0 ← crulearg args 0; m1 ← crulearg args 1;
      first_client (via_body m0 m1) (GlobalClientList w)
  | crule_directop => first_client directop_body (LocalClientArray w)
  end.

Fixpoint crule_eval (w : world) (n : CRuleNode) : result bool :=
  match n with
  | crule__andor a b o =>
      r1 ← (match a with Ptr m => crule_eval w m | Null => Fault NullRead | Wild => Fault WildRead end);
      if Bool.eqb r1 o then Val r1
      else match b with Ptr m => crule_eval w m | Null => Fault NullRead | Wild => Fault WildRead end
  | crule__not a =>
      r ← (match a with Ptr m => crule_eval w m | Null => Fault NullRead | Wild => Fault WildRead end);
      Val (negb r)
  | crule_func None _ => Fault NullRead
  | crule_func (Some f) args => crule_call w f args
  end.

(** ** The scanner *)

(** What is left to read: a word is scanned again by its reader. *)
Definition size (t : crule_token) (s : list Z) : nat :=
  match t with CR_END => 0 | CR_WORD => length s | _ => S (length s) end.

Lemma IsAlpha_IsAlnum c : IsAlpha c = true -> IsAlnum c = true.
Proof.
  destruct (decide (0 <= c < 256)) as [Hc|Hc].
  - apply (all_codes (fun c => IsAlpha c = true -> IsAlnum c = true)
      (fun c => implb (IsAlpha c) (IsAlnum c))); [|reflexivity|done].
    intros x. by destruct (IsAlpha x).
  - unfold IsAlpha, CharAttr.
    replace ((0 <=? c) && (c <? 256)) with false; [done|].
    symmetry. apply andb_false_iff. rewrite Z.leb_gt, Z.ltb_ge. lia.
Qed.

Lemma word_start_char c : word_start c = true -> word_char c = true.
Proof.
  unfold word_start, word_char. destruct (IsAlpha c) eqn:E.
  - by rewrite (IsAlpha_IsAlnum c E).
  - destruct (IsAlnum c); [done|]. by rewrite !orb_false_l.
Qed.

Lemma gettoken_loop_size p s :
  match gettoken_loop p s with
  | (CR_NOERR, t, r) =>
      (size t r <= length s)%nat /\ (length r <= length s)%nat /\ t <> CR_UNKNOWN /\
      (t = CR_WORD -> word_start (hd0 r) = true)
  | (_, t, r) => t = CR_UNKNOWN /\ (length r <= length s)%nat
  end.
Proof.
  revert p. induction s as [|c s IH]; intros p; [simpl; split_and!; by try lia|].
  cbn [gettoken_loop]. bcase; try (simpl; split_and!; (done || lia)); try (simpl; split; (done || lia)).
  all: match goal with |- context [gettoken_loop ?q ?u] => specialize (IH q); destruct (gettoken_loop q u) as [[[] t] r] end.
  all: cbn [length]; destruct_and? IH; split_and?; (done || lia).
Qed.

Lemma gettoken_size s t r :
  crule_gettoken s = (CR_NOERR, t, r) ->
  (size t r <= length s)%nat /\ (t = CR_WORD -> word_start (hd0 r) = true).
Proof. intros H. pose proof (gettoken_loop_size 0 s) as G. unfold crule_gettoken in H. rewrite H in G. by destruct G as (? & _ & _ & ?). Qed.

Lemma getword_spec m s w r :
  crule_getword m s = (w, r) ->
  s = w ++ r /\ Forall (fun c => word_char c = true) w /\ (length w <= m)%nat /\
  ((0 < m)%nat -> word_char (hd0 s) = true -> s <> [] -> w <> []).
Proof.
  revert s w. induction m as [|m IH]; intros s w E; [destruct s; simplify_eq/=; split_and!; auto; lia|].
  destruct s as [|c s]; [simplify_eq/=; split_and!; auto; lia|]. cbn [crule_getword] in E.
  destruct (word_char c) eqn:Ec; [|simplify_eq/=; split_and!; auto; try lia; congruence].
  destruct (crule_getword m s) as [w' r'] eqn:E'. simplify_eq.
  destruct (IH _ _ E') as (-> & Hw & Hl & _). split_and!; [done|by constructor|simpl; lia|done].
Qed.

Lemma getword_app m w r :
  Forall (fun c => word_char c = true) w -> (length w <= m)%nat -> word_char (hd0 r) = false ->
  crule_getword m (w ++ r) = (w, r).
Proof.
  intros Hw. revert m. induction Hw as [|c w Hc Hw IH]; intros m Hm Hr.
  - destruct m, r as [|d r]; try done. simpl in *. by rewrite Hr.
  - destruct m as [|m]; simpl in *; [lia|]. by rewrite Hc, IH by (done || lia).
Qed.


(** ** Well-formed trees *)
Definition arity (f : crule_funcptr) : nat :=
  match f with crule_via => 2 | crule_directop => 0 | _ => 1 end.

(** A string argument of a rule function: it is not empty and, with its
    terminator, it fits a buffer of CR_MAXARGLEN bytes. *)
Definition good_arg (a : list Z) : Prop := a <> [] /\ (length a < CR_MAXARGLEN)%nat.

(** A node without wild pointers whose functions are known and have the right
    number of arguments. *)
Fixpoint checked (n : CRuleNode) : Prop :=
  match n with
  | crule__andor a b _ =>
      match a with Wild => False | Null => True | Ptr m => checked m end /\
      match b with Wild => False | Null => True | Ptr m => checked m end
  | crule__not a => match a with Ptr m => checked m | _ => False end
  | crule_func (Some f) args => length args = arity f /\ Forall good_arg args
  | crule_func None _ => False
  end.

(** As a pointer that may be null. *)
Definition operand_ok (p : pointer CRuleNode) : Prop :=
  match p with Wild => False | Null => True | Ptr m => checked m end.

(** ** The parser always returns, with a checked tree *)

(** What a parsing function leaves on [m] unread characters. *)
Definition parse_post (m : nat) (r : result parsed) : Prop :=
  match r with
  | Fault f => f = ArgOverflow
  | Val (e, p, t, s) => e = CR_NOERR -> (size t s <= m)%nat /\ operand_ok p
  end.

Definition args_post (m : nat) (r : result (crule_errcode * list (list Z) * crule_token * list Z))
  : Prop :=
  match r with
  | Fault f => f = ArgOverflow
  | Val (e, args, t, s) => e = CR_NOERR -> (size t s <= m)%nat /\ Forall good_arg args
  end.

Lemma parse_post_le m k r : parse_post m r -> (m <= k)%nat -> parse_post k r.
Proof. destruct r as [f|[[[e p] t] s]]; simpl; [done|]. intros H Hk He. destruct (H He). split; [lia|done]. Qed.

Lemma args_post_le m k r : args_post m r -> (m <= k)%nat -> args_post k r.
Proof. destruct r as [f|[[[e p] t] s]]; simpl; [done|]. intros H Hk He. destruct (H He). split; [lia|done]. Qed.

Lemma collapse_tail_length_any n : forall star m, (length m <= n)%nat ->
  (length (collapse_tail star m) <= length m + (if star then 1 else 0))%nat.
Proof.
  induction n as [|n IH]; intros star m Hm; [destruct m, star; simpl in *; lia|].
  destruct m as [|x r]; [by destruct star|]. simpl in Hm. cbn [collapse_tail].
  destruct (x =? 42); [pose proof (IH true r ltac:(lia)) as H; destruct star; simpl in H |- *; lia|].
  set (k := star && negb (star && negb (x =? 63))).
  set (b := star && negb (x =? 63)) in *.
  assert (Hk : ((if k then 1 else 0) + (if b then 1 else 0) = if star then 1 else 0)%nat)
    by (unfold k, b; by destruct star, (x =? 63)).
  rewrite length_app. cbn [length].
  assert (length (if b then [42%Z] else []) = if b then 1 else 0)%nat as -> by by destruct b.
  destruct r as [|y r]; [cbn [length collapse_tail]; clearbody k; destruct k; simpl in *; lia|].
  destruct (escapes x y).
  - pose proof (IH k r ltac:(simpl in *; lia)). simpl in *. lia.
  - pose proof (IH k (y :: r) ltac:(simpl in *; lia)). cbn [length] in *. lia.
Qed.

Lemma collapse_length_any n : forall m, (length m <= n)%nat -> (length (collapse m) <= length m)%nat.
Proof.
  induction n as [|n IH]; intros m Hm; [destruct m; simpl in *; lia|].
  destruct m as [|x r]; [done|]. cbn [collapse].
  destruct (_ && _); [pose proof (collapse_tail_length_any _ false (x :: r) (le_n _)) as H; rewrite Nat.add_0_r in H; exact H|].
  destruct r as [|y r]; [done|]. destruct (escapes x y).
  - pose proof (IH r). simpl in *. lia.
  - pose proof (IH (y :: r)). cbn [length] in *. lia.
Qed.

(** The buffer of the argument being read. *)
Definition currarg_ok (currarg : list Z) (arglen : nat) : Prop :=
  (length currarg < CR_MAXARGLEN)%nat /\ (hd0 currarg <> 0 -> arglen = length currarg).

Lemma collapse_good currarg arglen :
  currarg_ok currarg arglen -> (hd0 (collapse currarg) =? 0) = false -> good_arg (collapse currarg).
Proof.
  intros [Hl _] Hne. split; [by destruct (collapse currarg)|].
  pose proof (collapse_length_any _ currarg (le_n _)). lia.
Qed.

Lemma append_word_ok currarg arglen w :
  currarg_ok currarg arglen -> (length w <= CR_MAXARGLEN - 1)%nat ->
  let '(c, n) :=
    if negb (hd0 currarg =? 0) then
      if (arglen + length w <? CR_MAXARGLEN - 1)%nat
      then (currarg ++ [32] ++ w, (arglen + (length w + 1))%nat)
      else (currarg, arglen)
    else (w, length w) in currarg_ok c n.
Proof.
  intros (Hl & Ha) Hlw. unfold currarg_ok, CR_MAXARGLEN in *.
  destruct (hd0 currarg =? 0) eqn:Hc; bprop; simpl negb; cbv iota; [split; [lia|done]|].
  specialize (Ha Hc). destruct (_ <? _)%nat eqn:E; [apply Nat.ltb_lt in E|by split].
  rewrite !length_app. simpl. split; lia.
Qed.

(** Reading a word leaves less to read. *)
Lemma word_shrinks s w r :
  word_start (hd0 s) = true -> crule_getword (CR_MAXARGLEN - 1) s = (w, r) ->
  Forall (fun c => word_char c = true) w /\ (length w <= CR_MAXARGLEN - 1)%nat /\
  (length r < length s)%nat.
Proof.
  intros Hs E. destruct (getword_spec _ _ _ _ E) as (-> & Hw & Hl & Hne). split_and!; [done..|].
  destruct (decide (w ++ r = [])) as [Hn|Hn]; [rewrite Hn in Hs; done|].
  assert (w <> []) as Hw0; [apply Hne; [unfold CR_MAXARGLEN; lia|by apply word_start_char|done]|].
  destruct w; [done|]. rewrite length_app. simpl. lia.
Qed.

(** The token at hand is a word only where one starts. *)
Definition tok_ok (t : crule_token) (s : list Z) : Prop :=
  t = CR_WORD -> word_start (hd0 s) = true.

Lemma gettoken_post s e t r :
  crule_gettoken s = (e, t, r) -> e = CR_NOERR -> (size t r <= length s)%nat /\ tok_ok t r.
Proof. intros E ->. by apply gettoken_size. Qed.

Lemma parsearglist_ok fuel args currarg arglen t s :
  (size t s < fuel)%nat -> tok_ok t s -> currarg_ok currarg arglen -> Forall good_arg args ->
  args_post (size t s) (crule_parsearglist fuel args currarg arglen t s).
Proof.
  revert args currarg arglen t s.
  induction fuel as [|fuel IH]; intros args currarg arglen t s Hf Ht Hc Ha; [lia|].
  cbn [crule_parsearglist]. destruct (decide (t = CR_WORD)) as [->|Hnw].
  - destruct (crule_getword _ s) as [w r] eqn:Ew.
    destruct (word_shrinks _ _ _ (Ht eq_refl) Ew) as (Hw & Hlw & Hlr).
    pose proof (append_word_ok currarg arglen w Hc Hlw) as Hc'.
    destruct (if negb (hd0 currarg =? 0) then _ else _) as [currarg' arglen'].
    destruct (crule_gettoken r) as [[e t'] s'] eqn:Et.
    destruct (decide (e = CR_NOERR)) as [->|He]; [|done].
    destruct (gettoken_post _ _ _ _ Et eq_refl) as [Hs' Ht']. simpl in Hf |- *.
    eapply args_post_le; [apply IH; [lia|done..]|lia].
  - cbn zeta. set (r := if hd0 (collapse currarg) =? 0 then _ else _).
    assert (match r with Fault f => f = ArgOverflow | Val args' => Forall good_arg args' end) as Hr.
    { unfold r. destruct (hd0 (collapse currarg) =? 0) eqn:E0; [done|].
      destruct (_ <? _)%nat; [|done]. apply Forall_app_2; [done|]. constructor; [|done].
      by eapply collapse_good. }
    destruct r as [f|args']; [done|]. cbn [mbind result_bind].
    destruct (decide (t <> CR_COMMA)) as [Hn|Hn]; [by simpl; split|].
    destruct (crule_gettoken s) as [[e t'] s'] eqn:Et.
    destruct (decide (e = CR_NOERR)) as [->|He]; [|done].
    destruct (gettoken_post _ _ _ _ Et eq_refl) as [Hs' Ht'].
    apply dec_stable in Hn as ->. simpl in Hf |- *.
    eapply args_post_le; [apply IH; [lia|done| |done]|lia].
    split; [unfold CR_MAXARGLEN; simpl; lia|done].
Qed.

Lemma find_func_arity name n f : find_func name = Some (n, f) -> n = arity f.
Proof.
  unfold find_func. destruct (List.find _ _) as [[k [m g]]|] eqn:E; [|done].
  apply List.find_some in E as [Hin _]. intros [= -> ->].
  repeat (destruct Hin as [[= <- <- <-]|Hin]; [done|]). destruct Hin.
Qed.

Lemma parsefunction_ok s :
  word_start (hd0 s) = true ->
  match crule_parsefunction s with
  | Fault f => f = ArgOverflow
  | Val (e, p, t, r) => e = CR_NOERR -> (size t r <= length s)%nat /\ exists n, p = Ptr n /\ checked n
  end.
Proof.
  intros Hs. unfold crule_parsefunction.
  destruct (crule_getword _ s) as [w r] eqn:Ew. destruct (word_shrinks _ _ _ Hs Ew) as (_ & _ & Hr).
  destruct (crule_gettoken r) as [[e t] s1] eqn:E1. destruct (decide _) as [|He]; [done|].
  apply dec_stable in He as ->. destruct (gettoken_post _ _ _ _ E1 eq_refl) as [H1 _].
  destruct (decide (t = CR_OPENPAREN)) as [->|]; [|done]. simpl in H1.
  destruct (find_func w) as [[req fp]|] eqn:Ef; [|done]. apply find_func_arity in Ef as ->.
  destruct (crule_gettoken s1) as [[e t2] s2] eqn:E2. destruct (decide _) as [|He]; [done|].
  apply dec_stable in He as ->. destruct (gettoken_post _ _ _ _ E2 eq_refl) as [H2 T2].
  pose proof (parsearglist_ok (S (S (length s2))) [] [] 0 t2 s2) as Ha.
  destruct (crule_parsearglist _ _ _ _ _ _) as [f|[[[e args] t3] s3]]; simpl.
  - apply Ha; [destruct t2; simpl; lia|done| |constructor].
    split; [unfold CR_MAXARGLEN; simpl; lia|done].
  - destruct (decide _) as [|He]; [done|]. apply dec_stable in He as ->.
    destruct (decide _) as [|He]; [done|]. apply dec_stable in He as ->.
    destruct (decide _) as [|He]; [done|]. apply dec_stable in He.
    destruct (crule_gettoken s3) as [[e t4] s4] eqn:E4. destruct (decide _) as [|He4]; [done|].
    apply dec_stable in He4 as ->. destruct (gettoken_post _ _ _ _ E4 eq_refl) as [H4 _].
    destruct Ha as [Ha1 Ha2]; [destruct t2; simpl; lia|done| |constructor|done|].
    { split; [unfold CR_MAXARGLEN; simpl; lia|done]. }
    simpl in Ha1. intros _. split; [lia|]. eexists. split; [done|]. by split.
Qed.

(** The tree under construction: its last operator waits for [arg[1]]. *)
Definition root_ok (root : pointer CRuleNode) : Prop :=
  match root with
  | Null => True
  | Ptr (crule__andor a Wild _) => operand_ok a
  | _ => False
  end.

Lemma new_operator_ok arg2 root expr :
  root_ok root -> operand_ok expr -> root_ok (Ptr (new_operator arg2 root expr)).
Proof. by destruct root as [| |[a [| |]|?|? ?]]. Qed.

Lemma last_operand_ok missing root expr e t s m :
  root_ok root -> missing <> CR_NOERR ->
  (e = CR_NOERR -> (size t s <= m)%nat /\ operand_ok expr) ->
  parse_post m (Val (last_operand missing root expr e t s)).
Proof.
  intros Hr Hm He. destruct root as [| |[a [| |] o|?|? ?]]; try done.
  destruct expr; simpl; intros E; try done.
  - by destruct (He E).
  - by destruct (He E) as [? ?].
Qed.

(** An operand parser that is right on at most [m] unread characters. *)
Definition operand_spec (m : nat) (operand : crule_token -> list Z -> result parsed) : Prop :=
  forall t s, (size t s <= m)%nat -> tok_ok t s -> parse_post (size t s) (operand t s).

Lemma operator_loop_ok operand op arg2 missing m :
  operand_spec m operand -> missing <> CR_NOERR -> op = CR_AND \/ op = CR_OR ->
  forall fuel root t s, (size t s < fuel)%nat -> (size t s <= m)%nat -> tok_ok t s ->
  root_ok root ->
  parse_post (size t s) (operator_loop operand op arg2 missing fuel root t s).
Proof.
  intros Hop Hmiss Hand. induction fuel as [|fuel IH]; intros root t s Hf Hm Ht Hr; [lia|].
  cbn [operator_loop]. pose proof (Hop t s Hm Ht) as Hp.
  destruct (operand t s) as [f|[[[e expr] t1] s1]]; [done|]. cbn [mbind result_bind].
  destruct (decide (e = CR_NOERR /\ t1 = op)) as [[-> ->]|Hn].
  - destruct (Hp eq_refl) as [H1 Hex].
    assert (size op s1 = S (length s1)) as Hs1 by by destruct Hand; subst.
    destruct (crule_gettoken s1) as [[e t2] s2] eqn:E2.
    destruct (decide (e = CR_NOERR)) as [->|]; [|done].
    destruct (gettoken_post _ _ _ _ E2 eq_refl) as [H2 T2].
    eapply parse_post_le; [apply IH; [lia|lia|done|by apply new_operator_ok]|lia].
  - by apply last_operand_ok.
Qed.

Lemma size_le t s : (size t s <= S (length s))%nat.
Proof. destruct t; simpl; lia. Qed.

Lemma parse_and_of_spec operand m : operand_spec m operand -> operand_spec m (parse_and_of operand).
Proof.
  intros H t s Hm Ht. pose proof (size_le t s).
  apply operator_loop_ok with m; auto; (done || lia).
Qed.

Lemma parse_or_of_spec operand m : operand_spec m operand -> operand_spec m (parse_or_of operand).
Proof.
  intros H t s Hm Ht. pose proof (size_le t s).
  apply operator_loop_ok with m; auto; (done || lia).
Qed.

(** A primary; within a negation it is not absent. *)
Definition primary_post (outer : bool) (m : nat) (r : result parsed) : Prop :=
  parse_post m r /\
  match r with
  | Val (CR_NOERR, p, _, _) => outer = true \/ p <> Null
  | _ => True
  end.

Lemma parseprimary_ok fuel : forall outer t s,
  (size t s < fuel)%nat -> tok_ok t s ->
  primary_post outer (size t s) (crule_parseprimary fuel outer t s).
Proof.
  induction fuel as [|fuel IH]; intros outer t s Hf Ht; [lia|]. cbn [crule_parseprimary].
  assert (Hword : t = CR_WORD -> primary_post outer (size t s) (crule_parsefunction s)).
  { intros ->. pose proof (parsefunction_ok s (Ht eq_refl)) as Hp.
    destruct (crule_parsefunction s) as [f|[[[[] p] t1] s1]]; try done.
    destruct (Hp eq_refl) as (Hs & n & -> & Hn). split; [by intros _|by right]. }
  destruct t; try (split; [|by destruct outer; auto]; simpl; intros; split; [lia|done]); [| |by apply Hword].
  - destruct (crule_gettoken s) as [[e t1] s1] eqn:E1. destruct (decide _) as [He|He].
    { simpl in *. split; [|by destruct e; auto]. simpl. by intros ->. }
    apply dec_stable in He as ->. destruct (gettoken_post _ _ _ _ E1 eq_refl) as [H1 T1]. simpl in Hf.
    pose proof (IH false t1 s1 ltac:(lia) T1) as [Hp Hn].
    destruct (crule_parseprimary fuel false t1 s1) as [f|[[[e p] t2] s2]]; [done|].
    simpl in Hp. split.
    + simpl. intros ->. destruct (Hp eq_refl) as [Hs Ho]. split; [lia|]. destruct p; try done. by destruct Hn.
    + simpl. destruct e; auto.
  - destruct (crule_gettoken s) as [[e t1] s1] eqn:E1. destruct (decide _) as [He|He].
    { simpl in *. split; [|by destruct e; auto]. simpl. by intros ->. }
    apply dec_stable in He as ->. destruct (gettoken_post _ _ _ _ E1 eq_refl) as [H1 T1]. simpl in Hf.
    assert (operand_spec (length s) (crule_parseprimary fuel true)) as Hsp.
    { intros t s' Hs' Ht'. apply IH; [lia|done]. }
    pose proof (parse_or_of_spec _ _ (parse_and_of_spec _ _ Hsp) t1 s1 H1 T1) as Hp.
    destruct (parse_or_of _ t1 s1) as [f|[[[e p] t2] s2]]; [done|]. cbn [mbind result_bind].
    destruct (decide _) as [He|He]; [split; [done|]; by destruct e|]. apply dec_stable in He as ->.
    destruct (Hp eq_refl) as [H2 Ho]. destruct p as [| |n]; [done|done|].
    destruct (decide _) as [Hc|Hc]; [done|]. apply dec_stable in Hc as ->.
    destruct (crule_gettoken s2) as [[e t3] s3] eqn:E3. simpl in H2.
    split; [|by destruct e; auto]. simpl. intros He.
    destruct (gettoken_post _ _ _ _ E3 He) as [H3 _]. split; [lia|done].
Qed.

Definition on_ptr (P : CRuleNode -> Prop) (p : pointer CRuleNode) : Prop :=
  match p with Ptr n => P n | _ => True end.

(** Induction on a tree through its pointers. *)
Lemma node_ind (P : CRuleNode -> Prop) :
  (forall a b o, on_ptr P a -> on_ptr P b -> P (crule__andor a b o)) ->
  (forall a, on_ptr P a -> P (crule__not a)) ->
  (forall f args, P (crule_func f args)) -> forall n, P n.
Proof.
  intros Ha Hn Hf. fix IH 1. intros [a b o|a|f args]; [apply Ha|apply Hn|apply Hf].
  - destruct a; [exact I|exact I|apply IH].
  - destruct b; [exact I|exact I|apply IH].
  - destruct a; [exact I|exact I|apply IH].
Qed.

Lemma crule_free_fuel n : crule_free n <> Fault NoFuel.
Proof.
  induction n as [a b o Ha Hb|a Ha|f args] using node_ind; [| |done].
  - destruct a as [| |a], b as [| |b]; simpl in *; try done;
      destruct (crule_free a) as [[]|]; simpl; try done; by destruct (crule_free b) as [[]|].
  - destruct a as [| |a]; simpl in *; try done. by destruct (crule_free a) as [[]|].
Qed.

(** Crule_parse() returns for every text, within the fuel of its
    recursion: with no rule, or with a rule that has no wild pointer, whose
    functions are those of crule_funclist with the number of arguments listed
    there, each of them non-empty and shorter than CR_MAXARGLEN.  Otherwise it
    has stored past [arg], or released a tree it had not finished. *)
Theorem crule_parse_checked rule :
  match crule_parse rule with
  | Val (Some n) => checked n
  | Val None => True
  | Fault f => f <> NoFuel
  end.
Proof.
  unfold crule_parse. destruct (crule_gettoken rule) as [[e t] s] eqn:E.
  destruct (decide _) as [|He]; [done|]. apply dec_stable in He as ->.
  destruct (gettoken_post _ _ _ _ E eq_refl) as [Hs Ht].
  assert (operand_spec (length rule) (crule_parseprimary (S (length rule)) true)) as Hsp.
  { intros t' s' Hs' Ht'. apply parseprimary_ok; [lia|done]. }
  pose proof (parse_or_of_spec _ _ (parse_and_of_spec _ _ Hsp) t s Hs Ht) as Hp.
  unfold crule_parseorexpr, crule_parseandexpr.
  destruct (parse_or_of _ t s) as [f|[[[e p] t1] s1]]; [by simpl in *; subst|]. cbn [mbind result_bind].
  destruct p as [| |n]; [done|done|]. destruct (decide _) as [[-> ->]|Hn].
  - by destruct (Hp eq_refl).
  - pose proof (crule_free_fuel n) as Hf. destruct (crule_free n); [naive_solver|done].
Qed.

(** ** Specification: rules as expressions *)
Inductive rule :=
| RAnd (a b : rule)
| ROr (a b : rule)
| RNot (a : rule)
| RFn (f : crule_funcptr) (args : list (list Z)).

(** A mask that can be written as one argument.  A vertical bar is a letter of
    words, but at the start of one it is read as an operator. *)
Definition printable (a : list Z) : Prop :=
  word_start (hd0 a) = true /\ hd0 a <> 124 /\ Forall (fun c => word_char c = true) a /\
  plain_mask a /\ (length a < CR_MAXARGLEN)%nat.

Fixpoint wf_rule (r : rule) : Prop :=
  match r with
  | RAnd a b | ROr a b => wf_rule a /\ wf_rule b
  | RNot a => wf_rule a
  | RFn f args => length args = arity f /\ Forall printable args
  end.

(** The node the parser builds: it collapses the masks. *)
Fixpoint tree (r : rule) : CRuleNode :=
  match r with
  | RAnd a b => crule__andor (Ptr (tree a)) (Ptr (tree b)) false
  | ROr a b => crule__andor (Ptr (tree a)) (Ptr (tree b)) true
  | RNot a => crule__not (Ptr (tree a))
  | RFn f args => crule_func (Some f) (map collapse args)
  end.

Definition fname (f : crule_funcptr) : list Z :=
  match f with
  | crule_connected => lit "connected"
  | crule_directcon => lit "directcon"
  | crule_via => lit "via"
  | crule_directop => lit "directop"
  end.

(** The arguments and the closing parenthesis. *)
Fixpoint print_args (args : list (list Z)) : list Z :=
  match args with
  | [] => [41]
  | a :: r => a ++ (match r with [] => [41] | _ => 44 :: print_args r end)
  end.

Definition paren (b : bool) (s : list Z) : list Z := if b then [40] ++ s ++ [41] else s.

(** The text of a rule, with the parentheses that the precedence [l] of the
    context asks for: 0 for an or expression, 1 for an and expression, 2 for a
    primary.  Operators are left associative. *)
Fixpoint print (l : nat) (r : rule) : list Z :=
  match r with
  | ROr a b => paren (0 <? l)%nat (print 0 a ++ [124; 124] ++ print 1 b)
  | RAnd a b => paren (1 <? l)%nat (print 1 a ++ [38; 38] ++ print 2 b)
  | RNot a => 33 :: print 2 a
  | RFn f args => fname f ++ [40] ++ print_args args
  end.

(** ** Reading back a printed rule *)
Lemma word_start_token c s :
  word_start c = true -> c <> 124 -> crule_gettoken (c :: s) = (CR_NOERR, CR_WORD, c :: s).
Proof.
  intros H Hc. unfold crule_gettoken. cbn [gettoken_loop]. rewrite H.
  assert (forall k, word_start k = false -> (c =? k) = false) as Hne.
  { intros k Hk. apply Z.eqb_neq. intros ->. congruence. }
  rewrite (proj2 (Z.eqb_neq _ _) Hc).
  by rewrite (Hne 32), (Hne 9), (Hne 38), (Hne 33), (Hne 40), (Hne 41), (Hne 44),
    (Hne 58) by reflexivity.
Qed.

Lemma fname_word f s :
  crule_gettoken (fname f ++ s) = (CR_NOERR, CR_WORD, fname f ++ s).
Proof. destruct f; by apply word_start_token. Qed.

Lemma printable_token a s :
  printable a -> crule_gettoken (a ++ s) = (CR_NOERR, CR_WORD, a ++ s).
Proof. intros (H & Hc & _). destruct a as [|c a]; [done|]. by apply word_start_token. Qed.

Lemma find_func_fname f : find_func (fname f) = Some (arity f, f).
Proof. by destruct f. Qed.

Lemma fname_spec f :
  Forall (fun c => word_char c = true) (fname f) /\ (length (fname f) <= CR_MAXARGLEN - 1)%nat.
Proof. split; [|destruct f; unfold CR_MAXARGLEN; simpl; lia]. destruct f; by_decide. Qed.

(** Collapsing leaves something of a mask. *)
Lemma collapse_tail_nonempty m : plain_mask m -> collapse_tail true m <> [].
Proof.
  induction 1 as [|x r [_ Hx] Hm IH]; [done|]. rewrite collapse_tail_plain by done.
  destruct (x =? 42); [exact IH|]. by destruct (true && _).
Qed.

Lemma collapse_nonempty m : plain_mask m -> m <> [] -> plain_mask (collapse m) /\ collapse m <> [].
Proof.
  intros Hm Hne. split; [by apply collapse_chars|]. destruct Hm as [|x r [_ Hx] Hm]; [done|].
  rewrite collapse_plain by done. destruct (_ && _) eqn:E; [|done]. bprop. subst.
  rewrite collapse_tail_plain by done. by apply collapse_tail_nonempty.
Qed.

(** One argument and the character after it. *)
Lemma parsearglist_word fuel args a n c s t :
  printable a -> c = 41 /\ t = CR_CLOSEPAREN \/ c = 44 /\ t = CR_COMMA ->
  crule_parsearglist (S fuel) args [] n CR_WORD (a ++ c :: s) =
  crule_parsearglist fuel args a (length a) t s.
Proof.
  intros (_ & _ & Hw & _ & Hl) Hc. cbn [crule_parsearglist].
  rewrite decide_True by done. rewrite getword_app; [|done|lia|by destruct Hc as [[-> _]|[-> _]]].
  by destruct Hc as [[-> ->]|[-> ->]].
Qed.

Lemma parsearglist_stop fuel args a n t s :
  printable a -> (length args < CR_MAXARGS)%nat -> t <> CR_WORD ->
  crule_parsearglist (S fuel) args a n t s =
  if decide (t <> CR_COMMA) then Val (CR_NOERR, args ++ [collapse a], t, s)
  else let '(e, t, s) := crule_gettoken s in
       if decide (e = CR_NOERR) then crule_parsearglist fuel (args ++ [collapse a]) [] n t s
       else Val (e, args ++ [collapse a], t, s).
Proof.
  intros (Hs & _ & _ & Hp & _) Hl Ht. cbn [crule_parsearglist]. rewrite decide_False by done.
  destruct (collapse_nonempty a Hp) as [Hcp Hcn]; [by intros ->|]. cbv zeta.
  destruct (collapse a) as [|c m]; [done|]. cbn [hd0]. apply Forall_cons in Hcp as [[Hc _] _].
  replace (c =? 0) with false by (symmetry; apply Z.eqb_neq; intros ->; unfold is_char in Hc; lia).
  rewrite (proj2 (Nat.ltb_lt _ _)) by done. done.
Qed.

Lemma parsearglist_print args : forall fuel done n s t s1,
  Forall printable args -> (length done + length args <= CR_MAXARGS)%nat ->
  (2 * length args < fuel)%nat ->
  crule_gettoken (print_args args ++ s) = (CR_NOERR, t, s1) ->
  crule_parsearglist fuel done [] n t s1 = Val (CR_NOERR, done ++ map collapse args, CR_CLOSEPAREN, s).
Proof.
  induction args as [|a args IH]; intros fuel dn n s t s1 Ha Hd Hf E.
  - destruct fuel; [lia|]. simpl in E. injection E as <- <-. cbn [crule_parsearglist].
    rewrite decide_False by done. simpl. by rewrite app_nil_r.
  - apply Forall_cons in Ha as [Ha Has]. simpl in Hd, Hf.
    destruct fuel as [|[|fuel]]; [lia..|]. cbn [print_args] in E. rewrite <- app_assoc in E.
    rewrite printable_token in E by done. injection E as <- <-.
    destruct args as [|b args].
    + simpl ([41] ++ s). rewrite (parsearglist_word _ _ _ _ _ _ CR_CLOSEPAREN) by auto.
      rewrite parsearglist_stop by (done || lia). done.
    + rewrite <- app_comm_cons. rewrite (parsearglist_word _ _ _ _ _ _ CR_COMMA) by auto.
      rewrite parsearglist_stop by (done || lia). rewrite decide_False by tauto.
      assert (exists t' s', crule_gettoken (print_args (b :: args) ++ s) = (CR_NOERR, t', s')) as (t' & s' & E').
      { cbn [print_args]. rewrite <- app_assoc. rewrite printable_token by by inversion Has. eauto. }
      rewrite E'. rewrite decide_True by done.
      rewrite (IH _ (dn ++ [collapse a]) (length a) s t' s' Has); [by rewrite <- app_assoc| | |done].
      * rewrite length_app. simpl in *. lia.
      * simpl in *. lia.
Qed.

Lemma printable_nonempty a : printable a -> (0 < length a)%nat.
Proof. intros [H _]. destruct a; [done|simpl; lia]. Qed.

Lemma print_args_length args :
  Forall printable args ->
  (2 * length args <= length (print_args args))%nat.
Proof.
  induction 1 as [|a args Ha Has IH]; [simpl; lia|]. pose proof (printable_nonempty a Ha).
  cbn [print_args]. rewrite length_app. destruct args; simpl in *; lia.
Qed.

Lemma arity_le f : (arity f <= CR_MAXARGS)%nat.
Proof. destruct f; unfold CR_MAXARGS; simpl; lia. Qed.

Lemma parsefunction_print f args s t s1 :
  length args = arity f -> Forall printable args -> crule_gettoken s = (CR_NOERR, t, s1) ->
  crule_parsefunction (fname f ++ [40] ++ print_args args ++ s) =
  Val (CR_NOERR, Ptr (crule_func (Some f) (map collapse args)), t, s1).
Proof.
  intros Hn Ha E. unfold crule_parsefunction. destruct (fname_spec f) as [Hw Hl].
  rewrite getword_app by done. change (crule_gettoken ([40] ++ ?r)) with (CR_NOERR, CR_OPENPAREN, r).
  cbv iota. rewrite decide_False by tauto. rewrite decide_True by done. rewrite find_func_fname.
  assert (exists t' s', crule_gettoken (print_args args ++ s) = (CR_NOERR, t', s') /\
    (length (print_args args) <= S (length s'))%nat) as (t' & s' & E' & Hs').
  { destruct args as [|a args]; [simpl; eexists _, _; split; [done|simpl; lia]|].
    cbn [print_args]. rewrite <- app_assoc. rewrite printable_token by by inversion Ha.
    eexists _, _. split; [done|]. rewrite !length_app. lia. }
  rewrite E'. rewrite decide_False by tauto.
  rewrite (parsearglist_print args _ [] 0 s t' s' Ha); [|rewrite Hn; apply arity_le| |done].
  - cbn [mbind result_bind app]. rewrite !decide_False by (rewrite ?length_map; tauto || congruence).
    rewrite E. rewrite decide_False by tauto. done.
  - pose proof (print_args_length args Ha). lia.
Qed.

(** The code of operator_loop() after an operand. *)
Definition after (operand : crule_token -> list Z -> result parsed) (op : crule_token)
    (arg2 : bool) (missing : crule_errcode) (fuel : nat) (root expr : pointer CRuleNode)
    (e : crule_errcode) (t : crule_token) (s : list Z) : result parsed :=
  if decide (e = CR_NOERR /\ t = op) then
    let orptr := Ptr (new_operator arg2 root expr) in
    let '(e, t, s) := crule_gettoken s in
    if decide (e = CR_NOERR) then operator_loop operand op arg2 missing fuel orptr t s
    else Val (e, orptr, t, s)
  else Val (last_operand missing root expr e t s).

Lemma operator_loop_S operand op arg2 missing fuel root t s e p t1 s1 :
  operand t s = Val (e, p, t1, s1) ->
  operator_loop operand op arg2 missing (S fuel) root t s =
  after operand op arg2 missing fuel root p e t1 s1.
Proof. intros E. cbn [operator_loop]. by rewrite E. Qed.

(** Filling the waiting operator is the same as having read its node. *)
Lemma after_filled operand op arg2 missing fuel x n e t s :
  after operand op arg2 missing fuel (Ptr (crule__andor x Wild arg2)) (Ptr n) e t s =
  after operand op arg2 missing fuel Null (Ptr (crule__andor x (Ptr n) arg2)) e t s.
Proof. reflexivity. Qed.

Lemma after_end operand op arg2 missing fuel n t s :
  t <> op -> after operand op arg2 missing fuel Null (Ptr n) CR_NOERR t s =
  Val (CR_NOERR, Ptr n, t, s).
Proof. intros H. unfold after. by rewrite decide_False by tauto. Qed.

(** The token a printed rule starts with. *)
Lemma print_token l r rest :
  wf_rule r -> exists t s,
  crule_gettoken (print l r ++ rest) = (CR_NOERR, t, s) /\ tok_ok t s /\
  (length (print l r ++ rest) <= S (length s))%nat.
Proof.
  revert l rest. induction r as [a IHa b IHb|a IHa b IHb|a IHa|f args]; intros l rest Hw.
  - cbn [print]. destruct Hw as [Ha _]. destruct (1 <? l)%nat; simpl paren.
    + eexists _, _. split_and!; [reflexivity|done|apply le_n].
    + rewrite <- app_assoc. by apply IHa.
  - cbn [print]. destruct Hw as [Ha _]. destruct (0 <? l)%nat; simpl paren.
    + eexists _, _. split_and!; [reflexivity|done|apply le_n].
    + rewrite <- app_assoc. by apply IHa.
  - eexists _, _. split_and!; [reflexivity|done|apply le_n].
  - cbn [print]. rewrite <- !app_assoc. rewrite fname_word.
    eexists _, _. split_and!; [done| |lia]. intros _. by destruct f.
Qed.

Lemma print_nonempty l r : wf_rule r -> (0 < length (print l r))%nat.
Proof.
  revert l. induction r as [a IHa b IHb|a IHa b IHb|a IHa|f args]; intros l Hw; cbn [print].
  - destruct Hw as [Ha _]. specialize (IHa 1%nat Ha). destruct (1 <? l)%nat; simpl; rewrite ?length_app; simpl; lia.
  - destruct Hw as [Ha _]. specialize (IHa 0%nat Ha). destruct (0 <? l)%nat; simpl; rewrite ?length_app; simpl; lia.
  - simpl. lia.
  - rewrite length_app. simpl. lia.
Qed.

Section reading.
Context (r : rule).

(** Reading [r] as a primary, as the first operands of an and expression, and
    of an or expression, before any [rest] that starts with a token. *)
Definition primary_reads : Prop := forall fuel outer rest t s t' s',
  crule_gettoken (print 2 r ++ rest) = (CR_NOERR, t, s) ->
  crule_gettoken rest = (CR_NOERR, t', s') ->
  (length (print 2 r ++ rest) < fuel)%nat ->
  crule_parseprimary fuel outer t s = Val (CR_NOERR, Ptr (tree r), t', s').

Definition and_reads : Prop := forall fuel f rest t s t' s',
  crule_gettoken (print 1 r ++ rest) = (CR_NOERR, t, s) ->
  crule_gettoken rest = (CR_NOERR, t', s') ->
  (length (print 1 r ++ rest) < fuel)%nat -> (length (print 1 r ++ rest) < f)%nat ->
  exists f', (length rest < f')%nat /\
  operator_loop (crule_parseprimary fuel true) CR_AND false CR_EXPCTPRIM f Null t s =
  after (crule_parseprimary fuel true) CR_AND false CR_EXPCTPRIM f' Null (Ptr (tree r)) CR_NOERR t' s'.

Definition or_reads : Prop := forall fuel f rest t s t' s',
  crule_gettoken (print 0 r ++ rest) = (CR_NOERR, t, s) ->
  crule_gettoken rest = (CR_NOERR, t', s') -> t' <> CR_AND ->
  (length (print 0 r ++ rest) < fuel)%nat -> (length (print 0 r ++ rest) < f)%nat ->
  exists f', (length rest < f')%nat /\
  operator_loop (crule_parseandexpr fuel) CR_OR true CR_EXPCTAND f Null t s =
  after (crule_parseandexpr fuel) CR_OR true CR_EXPCTAND f' Null (Ptr (tree r)) CR_NOERR t' s'.

Hypothesis r_wf : wf_rule r.

Lemma fuel_enough l rest t s :
  crule_gettoken (print l r ++ rest) = (CR_NOERR, t, s) ->
  (length (print l r ++ rest) < S (S (length s)))%nat.
Proof. intros E. destruct (print_token l r rest r_wf) as (t1 & s1 & E1 & _ & H). rewrite E in E1. simplify_eq. lia. Qed.

(** A primary is an and expression of one operand. *)
Lemma and_of_primary : print 1 r = print 2 r -> primary_reads -> and_reads.
Proof.
  intros Hpr Hp fuel f rest t s t' s' E E' Hf Hf2. rewrite Hpr in *.
  pose proof (print_nonempty 2 r r_wf). rewrite length_app in Hf2.
  destruct f as [|f]; [lia|]. exists f. split; [lia|].
  apply operator_loop_S. by apply (Hp _ _ rest).
Qed.

Lemma andexpr_reads fuel rest t s t' s' :
  and_reads -> crule_gettoken (print 1 r ++ rest) = (CR_NOERR, t, s) ->
  crule_gettoken rest = (CR_NOERR, t', s') -> t' <> CR_AND ->
  (length (print 1 r ++ rest) < fuel)%nat ->
  crule_parseandexpr fuel t s = Val (CR_NOERR, Ptr (tree r), t', s').
Proof.
  intros Ha E E' Ht Hf. pose proof (fuel_enough 1 rest t s E) as Hs.
  destruct (Ha fuel (S (S (length s))) rest t s t' s' E E' Hf Hs) as (f' & _ & H).
  unfold crule_parseandexpr, parse_and_of. rewrite H. by apply after_end.
Qed.

Lemma or_of_and : print 0 r = print 1 r -> and_reads -> or_reads.
Proof.
  intros Hpr Ha fuel f rest t s t' s' E E' Ht Hf Hf2. rewrite Hpr in *.
  pose proof (print_nonempty 1 r r_wf). rewrite length_app in Hf2.
  destruct f as [|f]; [lia|]. exists f. split; [lia|].
  apply operator_loop_S. by apply (andexpr_reads _ rest).
Qed.

Lemma orexpr_reads fuel rest t s t' s' :
  or_reads -> crule_gettoken (print 0 r ++ rest) = (CR_NOERR, t, s) ->
  crule_gettoken rest = (CR_NOERR, t', s') -> t' <> CR_AND -> t' <> CR_OR ->
  (length (print 0 r ++ rest) < fuel)%nat ->
  crule_parseorexpr fuel t s = Val (CR_NOERR, Ptr (tree r), t', s').
Proof.
  intros Ha E E' Ht Ht2 Hf. pose proof (fuel_enough 0 rest t s E) as Hs.
  destruct (Ha fuel (S (S (length s))) rest t s t' s' E E' Ht Hf Hs) as (f' & _ & H).
  unfold crule_parseorexpr, parse_or_of. rewrite H. by apply after_end.
Qed.

(** A parenthesised or expression is a primary. *)
Lemma primary_of_or : print 2 r = [40] ++ print 0 r ++ [41] -> or_reads -> primary_reads.
Proof.
  intros Hpr Ho fuel outer rest t s t' s' E E' Hf. rewrite Hpr in *.
  rewrite <- !app_assoc in E, Hf. simpl in E. injection E as <- <-. simpl in Hf.
  destruct fuel as [|fuel]; [lia|]. cbn [crule_parseprimary].
  destruct (print_token 0 r ([41] ++ rest) r_wf) as (t1 & s1 & E1 & _ & _).
  simpl in E1. rewrite E1. rewrite decide_False by tauto.
  change (parse_or_of (parse_and_of (crule_parseprimary fuel true))) with (crule_parseorexpr fuel).
  rewrite (orexpr_reads fuel ([41] ++ rest) t1 s1 CR_CLOSEPAREN rest Ho E1) by (done || (simpl; lia)).
  cbn [mbind result_bind]. rewrite !decide_False by tauto. by rewrite E'.
Qed.
End reading.

(** A chain of operators read from the left. *)
Lemma and_reads_and a b : wf_rule b -> and_reads a -> primary_reads b -> and_reads (RAnd a b).
Proof.
  intros Hwb Ha Hb fuel f rest t s t' s' E E' Hf Hf2.
  change (print 1 (RAnd a b)) with (print 1 a ++ [38; 38] ++ print 2 b) in *. rewrite <- !app_assoc in *.
  destruct (Ha fuel f _ t s CR_AND (print 2 b ++ rest) E eq_refl Hf Hf2) as (f' & Hf' & ->).
  unfold after at 1. rewrite decide_True by done.
  destruct (print_token 2 b rest Hwb) as (t1 & s1 & E1 & _). rewrite E1. rewrite decide_True by done.
  rewrite !length_app in *. cbn [length] in *. destruct f' as [|f']; [lia|]. exists f'. split; [lia|].
  rewrite (operator_loop_S _ _ _ _ _ _ _ _ CR_NOERR (Ptr (tree b)) t' s').
  - apply after_filled.
  - apply (Hb _ _ rest); [done..|]. rewrite length_app. lia.
Qed.

Lemma or_reads_or a b : wf_rule b -> or_reads a -> and_reads b -> or_reads (ROr a b).
Proof.
  intros Hwb Ha Hb fuel f rest t s t' s' E E' Ht Hf Hf2.
  change (print 0 (ROr a b)) with (print 0 a ++ [124; 124] ++ print 1 b) in *. rewrite <- !app_assoc in *.
  destruct (Ha fuel f _ t s CR_OR (print 1 b ++ rest) E eq_refl ltac:(done) Hf Hf2) as (f' & Hf' & ->).
  unfold after at 1. rewrite decide_True by done.
  destruct (print_token 1 b rest Hwb) as (t1 & s1 & E1 & _). rewrite E1. rewrite decide_True by done.
  rewrite !length_app in *. cbn [length] in *. destruct f' as [|f']; [lia|]. exists f'. split; [lia|].
  rewrite (operator_loop_S _ _ _ _ _ _ _ _ CR_NOERR (Ptr (tree b)) t' s').
  - apply after_filled.
  - apply (andexpr_reads b Hwb _ rest); [done..|]. rewrite length_app. lia.
Qed.

Lemma primary_reads_not a : wf_rule a -> primary_reads a -> primary_reads (RNot a).
Proof.
  intros Hw Ha fuel outer rest t s t' s' E E' Hf. simpl in E. injection E as <- <-. simpl in Hf.
  destruct fuel as [|fuel]; [lia|]. cbn [crule_parseprimary].
  destruct (print_token 2 a rest Hw) as (t1 & s1 & E1 & _). rewrite E1. rewrite decide_False by tauto.
  rewrite (Ha fuel false rest t1 s1 t' s' E1 E') by lia. done.
Qed.

Lemma primary_reads_fn f args : wf_rule (RFn f args) -> primary_reads (RFn f args).
Proof.
  intros [Hn Ha] fuel outer rest t s t' s' E E' Hf. cbn [print] in E. rewrite <- !app_assoc in E.
  rewrite fname_word in E. injection E as <- <-. destruct fuel as [|fuel]; [lia|].
  by apply parsefunction_print.
Qed.

Lemma rule_reads r : wf_rule r -> primary_reads r /\ and_reads r /\ or_reads r.
Proof.
  induction r as [a IHa b IHb|a IHa b IHb|a IHa|f args]; intros Hw.
  - destruct Hw as [Ha Hb]. destruct (IHa Ha) as (_ & Aa & _), (IHb Hb) as (Pb & _ & _).
    assert (and_reads (RAnd a b)) as A by by apply and_reads_and.
    assert (or_reads (RAnd a b)) as O by by apply or_of_and.
    split_and!; [by apply primary_of_or|done|done].
  - destruct Hw as [Ha Hb]. destruct (IHa Ha) as (_ & _ & Oa), (IHb Hb) as (_ & Ab & _).
    assert (or_reads (ROr a b)) as O by by apply or_reads_or.
    assert (primary_reads (ROr a b)) as P by by apply primary_of_or.
    split_and!; [done|by apply and_of_primary|done].
  - assert (primary_reads (RNot a)) as P by (apply primary_reads_not; [done|by apply IHa]).
    assert (and_reads (RNot a)) as A by by apply and_of_primary.
    split_and!; [done|done|by apply or_of_and].
  - assert (primary_reads (RFn f args)) as P by by apply primary_reads_fn.
    assert (and_reads (RFn f args)) as A by by apply and_of_primary.
    split_and!; [done|done|by apply or_of_and].
Qed.


(** ** Meaning of a rule *)
Definition is_server (c : client) : Prop := IsServer c = true \/ IsMe c = true.

Definition fholds (w : world) (f : crule_funcptr) (args : list (list Z)) : Prop :=
  match f, args with
  | crule_connected, [m] =>
      exists c, c ∈ GlobalClientList w /\ is_server c /\ glob m (cli_name c)
  | crule_directcon, [m] =>
      exists c, Some c ∈ LocalClientArray w /\ IsServer c = true /\ glob m (cli_name c)
  | crule_via, [m0; m1] =>
      exists c, c ∈ GlobalClientList w /\ is_server c /\
        glob m1 (cli_name c) /\ glob m0 (cli_from_name c)
  | crule_directop, [] => exists c, Some c ∈ LocalClientArray w /\ IsAnOper c = true
  | _, _ => False
  end.

Fixpoint holds (w : world) (r : rule) : Prop :=
  match r with
  | RAnd a b => holds w a /\ holds w b
  | ROr a b => holds w a \/ holds w b
  | RNot a => ~ holds w a
  | RFn f args => fholds w f args
  end.

(** The masks match() can be asked about. *)
Fixpoint runnable (r : rule) : Prop :=
  match r with
  | RAnd a b | ROr a b => runnable a /\ runnable b
  | RNot a => runnable a
  | RFn f args => length args = arity f /\ Forall (fun a => plain_mask a /\ a <> []) args
  end.

Definition client_ok (c : client) : Prop := cstring (cli_name c) /\ cstring (cli_from_name c).

Definition world_ok (w : world) : Prop :=
  (forall c, c ∈ GlobalClientList w -> client_ok c) /\
  (forall c, Some c ∈ LocalClientArray w -> client_ok c).

(** A result that decides a proposition. *)
Definition decides (r : result bool) (P : Prop) : Prop :=
  exists b, r = Val b /\ (b = true <-> P).

Lemma result_decides_iff r P Q : decides r P -> (P <-> Q) -> decides r Q.
Proof. intros (b & -> & H) HPQ. exists b. by rewrite H. Qed.

Lemma result_decides_false P : ~ P -> decides (Val false) P.
Proof. intros H. exists false. done. Qed.

Lemma matches_decides mask name :
  plain_mask mask /\ mask <> [] -> cstring name -> decides (matches mask name) (glob mask name).
Proof.
  intros [Hm Hne] Hn. unfold matches.
  destruct (match_decides mask name Hm Hn (or_introl Hne)) as (r & -> & [[-> H]|[-> H]]).
  - by exists true.
  - by exists false.
Qed.

Lemma decides_guard (g : bool) r P Q :
  (g = false -> ~ Q) -> (g = true -> decides r P /\ (P <-> Q)) ->
  decides (if negb g then Val false else r) Q.
Proof.
  intros H0 H1. destruct g; simpl; [|by apply result_decides_false; auto].
  destruct (H1 eq_refl). by eapply result_decides_iff.
Qed.

Lemma first_client_decides {A} (body : A -> result bool) (P : A -> Prop) l :
  (forall c, c ∈ l -> decides (body c) (P c)) ->
  decides (first_client body l) (exists c, c ∈ l /\ P c).
Proof.
  induction l as [|c l IH]; intros H; simpl.
  - apply result_decides_false. intros (c & Hc & _). by apply not_elem_of_nil in Hc.
  - destruct (H c ltac:(by left)) as (b & -> & Hb). cbn [mbind result_bind]. destruct b.
    + exists true. split; [done|]. split; [|done]. intros _. exists c. split; [by left|by apply Hb].
    + eapply result_decides_iff; [apply IH; intros; apply H; by right|].
      split; [intros (d & ? & ?); exists d; split; [by right|done]|].
      intros (d & Hd & HP). apply elem_of_cons in Hd as [->|Hd]; [by apply Hb in HP|eauto].
Qed.

(** The two loops over the local clients skip the empty slots. *)
Lemma some_client (P : client -> Prop) (l : list (option client)) :
  (exists o, o ∈ l /\ match o with Some c => P c | None => False end) <->
  (exists c, Some c ∈ l /\ P c).
Proof.
  split; [intros ([c|] & ? & ?); [by exists c|done]|].
  intros (c & ? & ?). by exists (Some c).
Qed.

Lemma negb_or_server c : negb (IsServer c) && negb (IsMe c) = negb (IsServer c || IsMe c).
Proof. by rewrite negb_orb. Qed.

Lemma is_server_or c : is_server c <-> IsServer c || IsMe c = true.
Proof. unfold is_server. by rewrite orb_true_iff. Qed.

Lemma crule_call_decides w f args :
  world_ok w -> length args = arity f -> Forall (fun a => plain_mask a /\ a <> []) args ->
  decides (crule_call w f args) (fholds w f args).
Proof.
  intros [Hg Hl] Hn Ha. destruct f; simpl in Hn.
  - destruct args as [|m [|? ?]]; try done. apply Forall_cons in Ha as [Ha _]. simpl.
    apply first_client_decides. intros c Hc. unfold connected_body. rewrite negb_or_server.
    eapply decides_guard; rewrite is_server_or; [intros ->; by intros [? _]|]. intros ->.
    split; [by apply matches_decides; [|apply Hg]|tauto].
  - destruct args as [|m [|? ?]]; try done. apply Forall_cons in Ha as [Ha _]. simpl.
    eapply result_decides_iff; [apply first_client_decides|apply some_client].
    intros [c|] Hc; [|apply result_decides_false; tauto]. simpl.
    eapply decides_guard; [intros ->; by intros [? _]|]. intros ->.
    split; [by apply matches_decides; [|apply Hl]|tauto].
  - destruct args as [|m0 [|m1 [|? ?]]]; try done.
    apply Forall_cons in Ha as [H0 Ha]. apply Forall_cons in Ha as [H1 _]. simpl.
    apply first_client_decides. intros c Hc. unfold via_body. rewrite negb_or_server.
    eapply decides_guard; rewrite is_server_or; [intros ->; by intros [? _]|]. intros ->.
    destruct (Hg c Hc) as [Hcn Hcf].
    destruct (matches_decides m1 (cli_name c) H1 Hcn) as (b & -> & Hb). cbn [mbind result_bind].
    split; [|reflexivity]. destruct b.
    + eapply result_decides_iff; [by apply matches_decides|]. rewrite <- Hb. tauto.
    + apply result_decides_false. rewrite <- Hb. intuition congruence.
  - destruct args as [|? ?]; [|done]. simpl.
    eapply result_decides_iff; [apply first_client_decides|apply some_client].
    intros [c|] Hc; [by exists (IsAnOper c)|]. apply result_decides_false. tauto.
Qed.

(** A collapsed mask matches the same names. *)
Lemma fholds_collapse w f args :
  Forall (fun a => plain_mask a /\ a <> []) args -> fholds w f (map collapse args) <-> fholds w f args.
Proof.
  intros Ha. assert (forall m n, m ∈ args -> glob (collapse m) n <-> glob m n) as H.
  { intros m n Hm. rewrite Forall_forall in Ha. destruct (Ha m Hm) as [Hp _]. apply (collapse_equiv m Hp n). }
  destruct args as [|m0 [|m1 [|m2 args]]]; [done| | |by destruct f].
  - destruct f; try done; simpl; by setoid_rewrite (H m0); [|left..].
  - destruct f; try done; simpl. setoid_rewrite (H m0); [|left]. setoid_rewrite (H m1); [done|right; left].
Qed.

(** Crule_eval() of a rule's tree, over masks without a backslash, returns
    and is true exactly when the rule holds of the connected servers and
    operators: the functions search the client lists for a match, and, or and
    not are the propositional connectives. *)
Theorem crule_eval_correct w r :
  world_ok w -> runnable r -> decides (crule_eval w (tree r)) (holds w r).
Proof.
  intros Hw. induction r as [a IHa b IHb|a IHa b IHb|a IHa|f args]; simpl.
  - intros [Ha Hb]. destruct (IHa Ha) as (x & -> & Hx). simpl. destruct x; simpl.
    + eapply result_decides_iff; [by apply IHb|]. rewrite <- Hx. tauto.
    + apply result_decides_false. rewrite <- Hx. intuition congruence.
  - intros [Ha Hb]. destruct (IHa Ha) as (x & -> & Hx). simpl. destruct x; simpl.
    + exists true. rewrite <- Hx. tauto.
    + eapply result_decides_iff; [by apply IHb|]. rewrite <- Hx. intuition congruence.
  - intros Ha. destruct (IHa Ha) as (x & -> & Hx). exists (negb x). rewrite <- Hx. by destruct x.
  - intros [Hn Ha]. eapply result_decides_iff; [apply crule_call_decides|by apply fholds_collapse]; [done|by rewrite length_map|].
    apply List.Forall_map. eapply Forall_impl; [exact Ha|]. intros m [Hm Hne]. by apply collapse_nonempty.
Qed.

(** ** Texts the parser does not survive *)

(** An and expression whose first operand is missing is accepted, with a
    null operand that the first evaluation reads; a lone or operator makes the
    parser release a null operand, an unreadable character after an operator a
    wild one, and a fourth argument is stored past [arg]. *)
Theorem crule_parse_faults w r :
  wf_rule r ->
  crule_parse ([38; 38] ++ print 2 r) = Val (Some (crule__andor Null (Ptr (tree r)) false)) /\
  crule_eval w (crule__andor Null (Ptr (tree r)) false) = Fault NullRead /\
  crule_parse (lit "||") = Fault NullRead /\
  crule_parse (lit "directop() || +") = Fault WildRead /\
  crule_parse (lit "via(a,b,c,d)") = Fault ArgOverflow.
Proof.
  intros Hw. split_and!; [|reflexivity..].
  destruct (print_token 2 r [] Hw) as (t & s & E & _). rewrite app_nil_r in E.
  unfold crule_parse. change (crule_gettoken ([38; 38] ++ ?x)) with (CR_NOERR, CR_AND, x).
  cbv iota. rewrite decide_False by tauto.
  unfold crule_parseorexpr, parse_or_of.
  rewrite (operator_loop_S _ _ _ _ _ _ _ _ CR_NOERR
    (Ptr (crule__andor Null (Ptr (tree r)) false)) CR_END []); [done|].
  unfold crule_parseandexpr, parse_and_of.
  rewrite (operator_loop_S _ _ _ _ _ _ _ _ CR_NOERR Null CR_AND (print 2 r)) by done.
  unfold after. rewrite decide_True by done. cbv zeta. rewrite E. rewrite decide_True by done.
  rewrite (operator_loop_S _ _ _ _ _ _ _ _ CR_NOERR (Ptr (tree r)) CR_END []); [done|].
  destruct (rule_reads r Hw) as (P & _ & _).
  apply (P _ _ [] t s CR_END []); rewrite ?app_nil_r; [done|done|simpl; lia].
Qed.

(** ** Witnesses *)
Definition sample_rule : rule :=
  ROr (RAnd (RFn crule_connected [lit "**.nl"]) (RNot (RFn crule_via [lit "hub.*"; lit "*.de"])))
    (RFn crule_directop []).

Lemma sample_rule_ok : wf_rule sample_rule.
Proof.
  assert (forall a, bool_decide (printable a) = true -> printable a) as H by (intros a; by intros ?%bool_decide_eq_true).
  simpl. split_and!; try done; repeat apply Forall_cons_2; try apply Forall_nil_2; by apply H; vm_compute.
Qed.

Definition sample_world : world :=
  World [Client (lit "hub.eu") (lit "hub.eu") true false false;
         Client (lit "leaf.nl") (lit "hub.eu") true false false]
        [None; Some (Client (lit "nick") (lit "nick") false false false)].


Lemma crule_eval_correct_witness :
  crule_eval sample_world (tree sample_rule) = Val true /\
  decides (crule_eval sample_world (tree sample_rule)) (holds sample_world sample_rule).
Proof.
  split; [vm_compute; reflexivity|]. apply crule_eval_correct.
  - split; intros c Hc.
    + apply elem_of_cons in Hc as [->|Hc]; [split; by_decide|].
      apply list_elem_of_singleton in Hc as ->. split; by_decide.
    + apply elem_of_cons in Hc as [Hc|Hc]; [done|].
      apply list_elem_of_singleton in Hc as [= ->]. split; by_decide.
  - simpl. split_and!; try done; repeat apply Forall_cons_2; try apply Forall_nil_2;
      (split; [by_decide|done]).
Defined.

Lemma crule_parse_faults_witness :
  wf_rule sample_rule /\
  crule_eval sample_world (crule__andor Null (Ptr (tree sample_rule)) false) = Fault NullRead.
Proof.
  split; [exact sample_rule_ok|]. apply (crule_parse_faults sample_world sample_rule). exact sample_rule_ok.
Defined.
